(* ===== verification/_CoqProject ===== *)
-Q . S2P
Prelude.v
GoRuntime.v
Json.v
AgentApi.v
IncidentTypes.v
Transition.v
Evaluator.v
ResourcePressure.v
Trend.v
Settings.v
IncidentPolicy.v
TargetSeries.v
Notification.v
IncidentService.v
EventPayload.v
IncidentStore.v
Wire.v
SyncQueue.v
SyncQueueProps.v
SyncQueueExamples.v
AgentPlan.v
ObservationStore.v
SyncProtocol.v
SyncStore.v
SyncStoreProps.v
SyncErrors.v
SyncStoreExamples.v
SyncWire.v
AgentRuntime.v
RateLimit.v
SyncHandler.v
LiveSignals.v
SyncHandlerProps.v
CenterLink.v
Delivery.v
DeliveryExamples.v
CaseMaps.v
Calendar.v
Postgres.v
ProviderErrors.v
Subscriptions.v
RateWorker.v
RateWorkerProps.v
RateWorkerEffects.v
Budgets.v
BudgetStore.v
BudgetsProps.v
BudgetStoreProps.v
SubscriptionStore.v
SubscriptionPatch.v
SubscriptionStoreProps.v
SubscriptionRuns.v
Programs.v
Reminders.v
RemindersProps.v
RemindersScan.v
Accounts.v
AccessAdmin.v
AccountService.v
AccountRuns.v
AccountProps.v
AccountClaims.v
Instances.v
Enrollment.v
InstanceControl.v
EnrollHandler.v
EnrollmentLedger.v
EnrollmentRuns.v
EnrollmentProps.v
EnrollmentInv.v
EnrollmentClaims.v
RecordCodec.v
RecordPlatform.v
LeaseStore.v
LeaseRuns.v
LeaseClaims.v
Idempotency.v
Outbox.v
OutboxProps.v
RecordExamples.v
