(* ===== verification/Prelude.v ===== *)
(** * Verification of the houfeng monitoring core

    houfeng watches hosts and services.  An agent on each host samples it, runs
    probes and sends what it saw to a center in numbered batches; the center stores
    the facts, evaluates them into incidents, records every change as an event and
    notifies.  This library models that path: the durable queue of the agent, which
    holds the batches the center has not acknowledged, the loop that sends them, the
    endpoint and the transaction that take them in, and the incident component, from
    the evidence to the database rows.  Beside it the center keeps a ledger of
    subscriptions; modelled are its repository, the worker that keeps the exchange
    rates, the budgets over the costs and the reminders of renewals.  Who may use the center is
    decided by its accounts, sessions and groups, and which machine may report for a monitoring
    instance by the binding of that instance; both are modelled with their tables.  The records of
    the center rest on a small platform of leases, fences, idempotency keys and an outbox, which is
    modelled as well.

    ** Files, in dependency order

    - [Prelude]: notations (scope [go_scope]), the tactics [breflect] and
      [split_matches], stable sorting as Go's [sort.SliceStable] ([sort_stable]),
      the class [StrictWeak] of comparison functions and shared list lemmas.
    - [GoRuntime]: what the sources use of Go and its library.  [int] and [int64] are
      [Z] with the wrap-around written out where the code can reach it; a [time.Time]
      is a number of nanoseconds since the zero time, [time.Duration] saturates in
      [Sub]; [float64] is IEEE binary64, one rounding per operation; strings are byte
      strings; an [error] is a value with the chain [errors.Is] follows.
    - [Json]: documents of encoding/json with the length of their text, the
      duplicate-key check of the queue, and decoding into a struct with the case
      folding encoding/json applies to keys.
    - [AgentApi], [Wire]: constants and types of src/internal/contracts/agentapi and
      the stored facts of src/internal/center/runtimefacts.
    - [IncidentTypes]: src/internal/center/incidents/types.go, with the closed
      contract every event must meet.
    - [Transition], [Evaluator], [ResourcePressure], [Trend]: incidents/evaluator.go.
      Each evaluator maps the open incident of a class and the evidence to an
      [EvaluationResult]; [Transition.lifecycle] is what all of them promise to the
      service.
    - [Settings], [IncidentPolicy]: settings/types.go and ip_quality_sources.go with
      the validator of every section, and the policies derived from them
      (incidents/heartbeat_policy.go, service.go).
    - [TargetSeries], [Notification], [IncidentService]: incidents/service.go: series of
      probes, texts and channels, and the service itself, written in state-passing
      style against the class [IncidentEnv] (clock, settings, repositories,
      dispatcher); [IncidentEnvLaws] is what its theorems ask of that interface.
    - [EventPayload], [IncidentStore]: store/monitoring_event_payload.go and
      store/incidents.go.  The tables are a record; a statement is its effect on it; a
      transaction that fails leaves it unchanged.  [IncidentStore] gives the instance
      of [IncidentEnv] over the tables and proves [IncidentEnvLaws].
    - [SyncQueue]: src/agent/syncqueue/store.go.  The state is the open store with the
      file it guards; what the clock, the context and the file system answer are the
      records [op_io] and [write_io], so that every failure of every step of a write
      is a case.  [QueueCodec] stands for the UUID package and for how encoding/json
      writes a time and a request.
    - [SyncQueueProps]: the invariant of the file and the theorems on the queue, from
      the contract [QueueCodecLaws] (what is written is read back).
    - [SyncQueueExamples]: a codec that meets the contract, and runs under it.

    - [AgentPlan]: store/agent_plan.go, the plan an instance gets with each answer.
    - [ObservationStore]: observations/validate.go, store/observations.go and
      probe_metadata.go: the rows of a batch and the projections made from them.
    - [SyncProtocol], [SyncStore]: src/internal/center/syncing and
      store/sync_batches.go, agent_replay.go, agent_live_signals.go,
      command_actions.go.  A batch is one transaction over the record [sync_db]; every
      statement may fail ([faults]), identifiers may run out and a commit may be lost
      after it was applied ([commit_answer]).  The triggers of migration 0080 are part
      of [update_replay] and [insert_receipt].
    - [SyncStoreProps], [SyncErrors]: the invariant of the replay
      tables, the inbox they implement, errors, command actions.
      [SyncStoreExamples] runs them.
    - [SyncWire]: what both sides share: digest, response, codes.
    - [AgentRuntime]: src/agent/runtime/runtime.go.  A step of the loop is a function
      on the runtime and a world [W] (class [AgentWorld]: network, clock, collectors,
      what each queue operation meets) that answers a value or an error.
    - [LiveSignals]: the numbers of live signals.
    - [RateLimit], [SyncHandler], [SyncHandlerProps]: http/handlers/agent.go, the
      limiters of agent.go and auth.go, and the client src/agent/enroll/client.go.
    - [CenterLink]: what an exchange of the agent with a center may do ([exchange]):
      served, refused on the way, or lost before or after it took effect, with other
      agents using the center at the same time.
    - [Delivery], [DeliveryExamples]: the loop, the queue, the network and the center
      together; the class [CenterLink] is the interface between them.

    - [CaseMaps], [Calendar], [Postgres]: more of what the sources use of Go (trimming and
      case mapping, civil dates and months) and of the database (SQLSTATE, statements and
      commits whose end is lost, integer columns).
    - [Subscriptions]: src/internal/center/subscriptions: periods,
      prices, renewal modes, normalisation and validation of requests, idempotency keys.
    - [SubscriptionStore], [SubscriptionPatch]: store/subscriptions.go with the price
      histories and experience notes it writes (store/renewal_decisions.go,
      renewals/types.go).  An operation is one transaction over [subscription_db] behind
      the lock of the asset graph; the class [SubscriptionEnv] stands for the decimals of
      the server and the digest of a request.  [SubscriptionStoreProps] has what each
      operation does, [SubscriptionRuns] the runs and their theorems
      with concrete ones.
    - [ProviderErrors], [RateWorker]: src/internal/center/subscriptioncosts/worker.go.  The
      worker is a lane of steps (one per critical section, provider call or store call)
      interleaved with requests and status queries by [step]; clock, providers and store
      answer through the events.  [RateWorkerProps] and [RateWorkerEffects]
      hold its theorems and concrete runs.
    - [Budgets], [BudgetStore]: the budgets of subscriptioncosts/types.go and service.go over
      the tables of store/subscription_costs.go; [BudgetsProps] and [BudgetStoreProps]
      hold their theorems.

    - [Programs]: a service that makes calls is a value of the type [prog], the free monad over
      the type of its calls: what is left to do after each call.  [exec] runs a program
      against an oracle of answers; a system of programs makes one call of one of them per step;
      [follows] is the logic in which what a program asks for is proved.
    - [Reminders]: subscriptioncosts/reminders.go with its queries in
      store/subscription_costs.go.  [Scan] is a program; [step_reminders] runs several workers
      over one set of tables, with restarts and with changes of the other tables in between.
      [RemindersProps] and [RemindersScan] hold the theorems.
    - [Accounts], [AccessAdmin]: the tables users, sessions, record_access_groups and
      record_access_group_members with store/users.go, sessions.go and access_admin.go, and the
      password policy of auth/password.go.  The class [AccountEnv] stands for bcrypt, HMAC and
      the tables of unicode.
    - [AccountService], [AccountRuns]: auth/service.go, seed.go, cleanup.go and
      accessadmin/service.go as programs, and the system in which requests arrive at any time and
      run interleaved, call by call.  [AccountProps] has the invariant of the tables,
      [AccountClaims] the theorems and concrete runs.

    - [Instances], [Enrollment], [InstanceControl]: store/monitoring_instances.go and
      monitoring_sessions_management.go: the rows of monitoring instances and of the sessions of
      their agents, with the tables of [SyncStore] inside, so that syncs and management work on
      the same rows; enrollment tokens, enrollment, the confirmation, rejection and reset of a
      binding, creation, retirement, runtime control, metadata and command actions.  The class
      [EnrollEnv] stands for the HMAC of enrollment tokens.  [EnrollHandler] is the endpoint
      agents enroll at (http/handlers/agent.go) over the service of src/internal/center/enrollment.
    - [EnrollmentLedger]: the abstract machine of one binding: token, bound and waiting machine,
      and the session that may collect, with a partial step per decision.
    - [EnrollmentRuns], [EnrollmentProps], [EnrollmentInv]: the operations and syncs in any order,
      with a ledger of those that took effect; what each does to the rows; and the invariant that
      the rows show what the ledger says.  [EnrollmentClaims] has the theorems
      and a concrete run.

    - [RecordCodec], [RecordPlatform]: src/internal/center/recordplatform/types.go, guards.go and
      leases.go: base64url, deletion tokens and the binary body of a request with its digest
      (SHA-256 is an argument), the identities and their checks, the guard of local work, and the
      admitted transaction of store/record_platform.go.
    - [LeaseStore]: store/record_platform_leases.go and record_platform_reservation_fence.go: leases
      with generations, serving leases against the delivery epoch of an object, and the fence of a
      deletion reservation.  [LeaseRuns] has the system of all these operations, [LeaseClaims] the
      theorems.
    - [Idempotency]: recordplatform/idempotency.go and its table; the protocol
      of a key ([key_step]) and that the operations follow it.
    - [Outbox], [OutboxProps]: recordplatform/outbox.go, worker.go and their table.
      [RecordExamples] has concrete runs of the platform.

    ** What the theorems show

    - Evaluators: the exact condition under which a heartbeat incident opens, rises
      and closes; that evidence collected in maintenance or delivered late is silent;
      that resource pressure needs a covered window and keeps an incident without
      one; that the index arithmetic of the windows is a filter; that the order in
      which Go ranges over a map cannot be observed; that recovery across probe series
      is unanimous and the worst series decides.
    - Settings: validation is idempotent, and what it lets through gives ordered
      thresholds and policies whose durations do not overflow.
    - Service: the mutation of an evaluation is exactly what the evaluators answered,
      the events explain every change of the open incidents, errors come only from
      attempts that really failed, and notifications only from decisions that asked
      for them.
    - Store: a mutation is applied completely or not at all, and only against the row
      version it was planned from; end to end, an evaluation leaves in the tables what
      it planned.  An event dated in the future makes a mutation fail
      ([IncidentStore.future_event_blocks_mutation]).
    - Queue: whatever fails, the file stays readable and its numbers only move
      forward; an operation that fails changed nothing, except after a failed
      directory sync, which poisons the store; batches are numbered without reuse,
      appended last and dropped oldest first, no more than the limits ask; a batch
      that fits alone is always accepted; opening replaces a file only in the cases
      the code names.  A key that differs in case escapes the duplicate check
      ([SyncQueueProps.case_variant_key_replaces_floor]).

    - Sync, at the center: however often and in whatever order batches arrive, and
      whatever fails, each call is a step of an inbox that records a number at most
      once ([SyncStoreProps.sync_refines_inbox], [SyncStoreProps.sync_at_most_once]); a
      lost answer is recovered as an exact duplicate; the replay tables stay bounded and
      move forward only; facts are recorded only for an authenticated session that may
      collect; a command action is handed out once and its result settles once.
    - Sync, at the endpoint: what the handler lets through the service accepts; store,
      handler and agent agree on which errors are retried, discarded or final; the
      limiters admit exactly what a sliding window over the whole history admits.
    - Sync, end to end: through any number of rounds a queued batch stays queued, or the
      center stores its facts, or the center stopped the session, or it was rejected,
      stale or over the limits of the queue ([Delivery.no_batch_lost]); a round sends
      at most three requests; live signals only get larger numbers.

    - Subscriptions: a request is settled by one normalisation; rows stay well formed under
      every sequence of requests, failures and lost commits; a creation under a key takes
      effect at most once and its retry returns what it created; a patch keeps the owner
      and leaves its trail in the histories.  A patch of the length alone resets the unit
      ([SubscriptionRuns.length_patch_resets_unit]), and some prices with two decimals
      are refused ([SubscriptionRuns.two_decimal_price_rejected]).
    - Exchange rates: under every interleaving a pair is fetched at most once at a time and
      its retries stay within the budget of attempts; a manual refresh fetches each pair
      exactly once more; only rates a provider answered are stored, and a month-end rate
      only inside its month; a round asks for at most six of them.
    - Budgets: the loop over the months ends; a bulk update is what every month bucket of
      its range shows; derived amounts follow the documented table; the status of a row
      does not depend on the order of the budgets.

    - Reminders: under every interleaving, failure, lost answer and restart a renewal is
      announced at most once per offset; rows and audit records repeat what the dispatcher
      reported; a scan whose statements succeed announces all that is due.
    - Accounts: no interleaving leaves a session of a disabled account or one opened with an
      earlier password; a stored session is accepted exactly until one lifetime after its last use;
      the supervisor stays the only one, enabled, and keeps its credentials; management is refused to
      anyone else; the seeded account can sign in.  A password over the limit of bcrypt passes
      the policy ([AccountClaims.long_password_unavailable]).

    - Binding: under every sequence of operations, syncs, failures and lost commits the tables
      refine the ledger ([EnrollmentClaims.binding_refines_ledger]); a batch is recorded only from
      the machine that is bound, over the one session its enrollment opened; a token enrolls once,
      within half an hour; a demoted session never collects again; only the operator moves a
      binding to another machine; an agent that enrolled is admitted by the sync path.

    - Record platform: a request has exactly one body; two tenures of a lease never overlap, and what
      an owner of the earlier one presents is refused for good; a fence ends the serving of its object
      for good, and at most one fence of an object is live; an idempotency key follows the protocol of
      an operation that is done once, and the result of a completed key is final; an event of the outbox
      ends once, is sent only when a fresh decision allows it at its epoch, and a due event is delivered.

    ** Conventions and bounds

    Every function is total and executable; loops over slices are structural
    recursion on lists; the retry of the incident service is bounded by the two attempts
    the code allows, and the loop over the backlog by the constant
    [maxBacklogSyncAttemptsPerRound], which is its fuel.  The loop over the months of a
    budget runs on rounds; any number above the months of the range is enough
    ([BudgetsProps.month_loop_ends]).  A nil and an empty slice are
    the same list unless the code tells them apart.  Deep copies are the identity, since
    values are not shared.  The lock of the queue makes each operation one step, the
    transaction makes a batch one step, the mutex of a limiter a request.  HMAC, SHA-256,
    UUIDs and the encoding of JSON are parameters; only what is stated of them is used
    ([AccountProps.bcrypt_sound]: a hash bcrypt made is accepted for its password).  A transaction
    that locks the row of an account is one step of the system of accounts; ids of deleted subscriptions and
    deliveries do not come back.  Timestamps of the transactions of the record platform are arbitrary, so
    its theorems do not rest on a clock that moves forward; an interval is added exactly, which PostgreSQL
    does for durations below 2^53 microseconds; owners are compared with times as the driver returns them.
    The recursion of a first claim of a key is on the list of rival claims that commit in between.

    ** Not modelled

    PostgreSQL beyond the effect of each statement, the rest of the HTTP layer, the
    network notifiers, logging (an append to a list where the code logs), the agent's
    collectors and its start-up, the overview of the subscription costs, cookies, the keyed creation of
    monitoring instances and the receipts of their retirement, the polling loop of the outbox worker, the
    projections of the outbox, the later states of a deletion reservation, and the other product areas
    (records above their platform, evidence, assets). *)
From stdpp Require Import base list sorting strings gmap pretty.
From Stdlib Require Import ZArith Lia Permutation.

Declare Scope go_scope.
Delimit Scope go_scope with go.

(** ** Notations shared by every file *)

(** Go's [==] on strings, as a boolean. *)
Notation "s =s t" := (String.eqb s t) (at level 70, no associativity) : go_scope.
Notation "s <>s t" := (negb (String.eqb s t)) (at level 70, no associativity) : go_scope.

#[global] Open Scope go_scope.

(** ** Tactics *)

Create HintDb houfeng.

(** Turn every boolean comparison of the context into the proposition it
    decides, so that [lia], [congruence] and [naive_solver] can use it. *)
Ltac breflect :=
  repeat match goal with
  | H : (_ && _)%bool = true |- _ => apply andb_true_iff in H; destruct H
  | H : (_ || _)%bool = false |- _ => apply orb_false_iff in H; destruct H
  | H : negb _ = true |- _ => apply negb_true_iff in H
  | H : negb _ = false |- _ => apply negb_false_iff in H
  | H : Z.ltb _ _ = true |- _ => apply Z.ltb_lt in H
  | H : Z.ltb _ _ = false |- _ => apply Z.ltb_ge in H
  | H : Z.leb _ _ = true |- _ => apply Z.leb_le in H
  | H : Z.leb _ _ = false |- _ => apply Z.leb_gt in H
  | H : Z.eqb _ _ = true |- _ => apply Z.eqb_eq in H
  | H : Z.eqb _ _ = false |- _ => apply Z.eqb_neq in H
  | H : Nat.ltb _ _ = true |- _ => apply Nat.ltb_lt in H
  | H : Nat.ltb _ _ = false |- _ => apply Nat.ltb_ge in H
  | H : Nat.leb _ _ = true |- _ => apply Nat.leb_le in H
  | H : Nat.leb _ _ = false |- _ => apply Nat.leb_gt in H
  | H : Nat.eqb _ _ = true |- _ => apply Nat.eqb_eq in H
  | H : Nat.eqb _ _ = false |- _ => apply Nat.eqb_neq in H
  | H : String.eqb _ _ = true |- _ => apply String.eqb_eq in H
  | H : String.eqb _ _ = false |- _ => apply String.eqb_neq in H
  end.

(** Case analysis on the scrutinee of every [if] and [match] of the goal. *)
Ltac split_matches :=
  repeat match goal with
  | |- context [if ?b then _ else _] =>
      lazymatch b with
      | context [if _ then _ else _] => fail
      | _ => let E := fresh "E" in destruct b eqn:E
      end
  | |- context [match ?x with _ => _ end] =>
      lazymatch x with
      | context [match _ with _ => _ end] => fail
      | _ => let E := fresh "E" in destruct x eqn:E
      end
  end.

(** ** Insertion sort: the result of Go's [sort.SliceStable], [sort.Slice]
    and [sort.Strings] on the comparators the program uses *)

(** The contract a Go comparator must satisfy for its sort to be specified:
    a strict weak order. *)
Class StrictWeak {A : Type} (less : A -> A -> bool) : Prop := {
  sw_asym : forall x y, less x y = true -> less y x = false;
  sw_negtrans : forall x y z, less y x = false -> less z y = false -> less z x = false;
}.

Section StableSort.
Context {A : Type} (less : A -> A -> bool).

Fixpoint insert_stable (x : A) (l : list A) : list A :=
  match l with
  | [] => [x]
  | y :: l' => if less y x then y :: insert_stable x l' else x :: y :: l'
  end.

Fixpoint sort_stable (l : list A) : list A :=
  match l with
  | [] => []
  | x :: l' => insert_stable x (sort_stable l')
  end.

(** [x] may stand before [y] in a sorted list. *)
Definition not_after (x y : A) : Prop := less y x = false.

(** Neither of the two elements is strictly before the other. *)
Definition tied (x y : A) : bool := negb (less x y) && negb (less y x).

Lemma insert_stable_perm x l : Permutation (insert_stable x l) (x :: l).
Proof.
  induction l as [|y l IH]; simpl; [done|].
  destruct (less y x); [|done].
  rewrite IH. apply perm_swap.
Qed.

Lemma sort_stable_perm l : Permutation (sort_stable l) l.
Proof.
  induction l as [|x l IH]; simpl; [done|].
  rewrite insert_stable_perm. by rewrite IH.
Qed.

Lemma sort_stable_length l : length (sort_stable l) = length l.
Proof. by rewrite sort_stable_perm. Qed.

Lemma sort_stable_nil l : sort_stable l = [] -> l = [].
Proof.
  intros H. destruct l as [|x l]; [done|].
  pose proof (sort_stable_length (x :: l)) as HL. by rewrite H in HL.
Qed.

Lemma sort_stable_elem x l : x ∈ sort_stable l <-> x ∈ l.
Proof. by rewrite sort_stable_perm. Qed.

Lemma sort_stable_Forall (P : A -> Prop) l : Forall P l -> Forall P (sort_stable l).
Proof. intros H. by rewrite sort_stable_perm. Qed.

Context `{SW : !StrictWeak less}.

Lemma less_irrefl x : less x x = false.
Proof. destruct (less x x) eqn:E; [|done]. by rewrite (sw_asym _ _ E) in E. Qed.

Lemma insert_stable_sorted x l :
  StronglySorted not_after l -> StronglySorted not_after (insert_stable x l).
Proof using SW.
  induction 1 as [|y l Hs IH Hall]; simpl.
  - repeat constructor.
  - destruct (less y x) eqn:E.
    + constructor; [done|]. rewrite insert_stable_perm.
      constructor; [|done]. by apply sw_asym.
    + constructor; [by constructor|]. constructor; [done|].
      eapply Forall_impl; [exact Hall|]. intros z Hz.
      by eapply sw_negtrans.
Qed.

Lemma sort_stable_sorted l : StronglySorted not_after (sort_stable l).
Proof using SW.
  induction l as [|x l IH]; simpl; [constructor|].
  by apply insert_stable_sorted.
Qed.

(** The head of a sorted list is minimal. *)
Lemma sort_stable_head x l l' :
  sort_stable l = x :: l' -> Forall (not_after x) l.
Proof using SW.
  intros H. pose proof (sort_stable_sorted l) as Hs. rewrite H in Hs.
  inversion Hs; subst. rewrite <- (sort_stable_perm l), H.
  constructor; [apply less_irrefl|done].
Qed.

Lemma insert_stable_before x l :
  Forall (not_after x) l -> insert_stable x l = x :: l.
Proof. intros [|y l' Hy _]; simpl; [done|]. by rewrite Hy. Qed.

(** Sorting a list that is in order already changes nothing. *)
Lemma sort_stable_id l : StronglySorted not_after l -> sort_stable l = l.
Proof.
  induction 1 as [|x l Hs IH Hall]; simpl; [done|].
  rewrite IH. by apply insert_stable_before.
Qed.

Lemma sort_stable_idemp l : sort_stable (sort_stable l) = sort_stable l.
Proof using SW. apply sort_stable_id, sort_stable_sorted. Qed.

Lemma tied_less_l x y z : tied x y = true -> less x z = less y z.
Proof using SW.
  intros H. unfold tied in H. breflect.
  destruct (less x z) eqn:E1, (less y z) eqn:E2; try done.
  - rewrite (sw_negtrans z y x) in E1; done.
  - rewrite (sw_negtrans z x y) in E2; done.
Qed.

Lemma filter_insert_stable_tied k x l :
  StronglySorted not_after l ->
  List.filter (tied k) (insert_stable x l) = List.filter (tied k) (x :: l).
Proof using SW.
  induction 1 as [|y l Hs IH Hall]; [done|].
  cbn [insert_stable]. destruct (less y x) eqn:E; [|done].
  cbn [List.filter] in *. rewrite IH.
  destruct (tied k y) eqn:Ey, (tied k x) eqn:Ex; try done.
  exfalso. rewrite <- (tied_less_l k y x Ey) in E.
  unfold tied in Ex. breflect. congruence.
Qed.

(** Stability: elements the comparator cannot tell apart keep their order. *)
Lemma sort_stable_stable k l :
  List.filter (tied k) (sort_stable l) = List.filter (tied k) l.
Proof using SW.
  induction l as [|x l IH]; [done|].
  cbn [sort_stable]. rewrite filter_insert_stable_tied by apply sort_stable_sorted.
  cbn [List.filter]. by rewrite IH.
Qed.
End StableSort.

Lemma sorted_filter {A} (R : A -> A -> Prop) (f : A -> bool) l :
  StronglySorted R l -> StronglySorted R (List.filter f l).
Proof.
  induction 1 as [|x l Hs IH Hall]; cbn [List.filter]; [constructor|].
  destruct (f x); [|done]. constructor; [done|].
  rewrite Forall_forall in Hall |- *. intros y Hy. apply Hall.
  apply list_elem_of_In, filter_In in Hy as [Hy _]. by apply list_elem_of_In.
Qed.

(** When the comparator only leaves an element tied with itself, the sorted
    list depends on the elements alone: an unstable sort, or a list read out of
    a map in any order, gives the same result. *)
Section SortUnique.
Context {A : Type} (less : A -> A -> bool) `{SW : !StrictWeak less}.
Hypothesis less_total : forall x y, less x y = false -> less y x = false -> x = y.

Lemma sorted_perm_unique l1 l2 :
  StronglySorted (not_after less) l1 -> StronglySorted (not_after less) l2 ->
  Permutation l1 l2 -> l1 = l2.
Proof using less_total.
  intros H1 H2 Hp.
  refine (StronglySorted_unique_strong (not_after less) l1 l2 _ H1 H2 Hp).
  unfold not_after. intros x y _ _ Hxy Hyx. by apply less_total.
Qed.

Lemma sort_stable_perm_eq l1 l2 :
  Permutation l1 l2 -> sort_stable less l1 = sort_stable less l2.
Proof using SW less_total.
  intros Hp. apply sorted_perm_unique; [by apply sort_stable_sorted..|].
  by rewrite !sort_stable_perm.
Qed.
End SortUnique.
