(* ===== verification/GoRuntime.v ===== *)
(** The parts of the Go language and standard library the modelled sources use:
    64-bit integers, [time.Time] and [time.Duration], [float64] with the [%d] and
    [%.1f] verbs of [fmt], string comparison, [strings.Join], and error values
    with [errors.Is]. *)
From stdpp Require Import base list strings pretty.
From Stdlib Require Import ZArith Lia Permutation.
From Corelib Require Import SpecFloat.
From S2P Require Import Prelude.

Local Open Scope Z_scope.

(** * Machine integers *)

Definition max_int64 : Z := 9223372036854775807.
Definition min_int64 : Z := -9223372036854775808.

(** Two's complement wrap-around of [int64] (and of [int] on a 64-bit host). *)
Definition wrap64 (z : Z) : Z := (z + 2 ^ 63) mod 2 ^ 64 - 2 ^ 63.

Definition in_int64 (z : Z) : Prop := min_int64 <= z <= max_int64.

Lemma wrap64_id z : in_int64 z -> wrap64 z = z.
Proof.
  unfold in_int64, wrap64, min_int64, max_int64. intros H.
  rewrite Z.mod_small; lia.
Qed.

(** * Durations and instants *)

(** [time.Duration]: nanoseconds in an [int64]. *)
Definition Nanosecond : Z := 1.
Definition Microsecond : Z := 1000.
Definition Millisecond : Z := 1000000.
Definition Second : Z := 1000000000.
Definition Minute : Z := 60 * Second.
Definition Hour : Z := 60 * Minute.
Definition Day : Z := 24 * Hour.

(** [time.Time]: nanoseconds since the zero instant, January 1, year 1, 00:00
    UTC.  A location changes how an instant prints, not the instant, so
    [Time.UTC] is the identity. *)
Definition Time_zero : Z := 0.
Definition Time_IsZero (t : Z) : bool := t =? 0.
Definition Time_After (t u : Z) : bool := u <? t.
Definition Time_Before (t u : Z) : bool := t <? u.
Definition Time_Equal (t u : Z) : bool := t =? u.
Definition Time_Add (t d : Z) : Z := t + d.

(** [Time.Sub] saturates at the extreme durations. *)
Definition Time_Sub (t u : Z) : Z := Z.max min_int64 (Z.min max_int64 (t - u)).

(** [Time.Truncate] rounds down to a multiple of [d] since the zero instant. *)
Definition Time_Truncate (t d : Z) : Z := if d <=? 0 then t else t - t mod d.

(** [time.Date(y, m, d, 0, 0, 0, 0, time.UTC)] of the date of [t]: UTC days all
    have 24 hours and the zero instant starts one. *)
Definition Time_StartOfDay (t : Z) : Z := Time_Truncate t Day.

Lemma Time_Sub_exact t u : in_int64 (t - u) -> Time_Sub t u = t - u.
Proof. unfold in_int64, Time_Sub. lia. Qed.

Lemma Time_Sub_le t u d : in_int64 d -> d < max_int64 -> Time_Sub t u <= d <-> t - u <= d.
Proof. unfold in_int64, Time_Sub, min_int64, max_int64. lia. Qed.

Lemma Time_Sub_ge t u d : in_int64 d -> min_int64 < d -> d <= Time_Sub t u <-> d <= t - u.
Proof. unfold in_int64, Time_Sub, min_int64, max_int64. lia. Qed.

Lemma Time_Truncate_le t d : Time_Truncate t d <= t.
Proof.
  unfold Time_Truncate. destruct (Z.leb_spec d 0); [lia|].
  pose proof (Z.mod_pos_bound t d). lia.
Qed.

Lemma Time_Truncate_idemp t d : Time_Truncate (Time_Truncate t d) d = Time_Truncate t d.
Proof.
  unfold Time_Truncate. destruct (Z.leb_spec d 0) as [|Hd]; [done|].
  rewrite <- Zminus_mod_idemp_l, Z.sub_diag, Z.mod_0_l; lia.
Qed.

(** * Floating point *)

(** [float64] is IEEE 754 binary64; the operations round to nearest, ties to
    even, one operation at a time (no fused multiply-add). *)
Definition float64 : Type := spec_float.

Definition f64_add : float64 -> float64 -> float64 := SFadd 53 1024.
Definition f64_sub : float64 -> float64 -> float64 := SFsub 53 1024.
Definition f64_mul : float64 -> float64 -> float64 := SFmul 53 1024.
Definition f64_div : float64 -> float64 -> float64 := SFdiv 53 1024.
Definition f64_of_Z (z : Z) : float64 := binary_normalize 53 1024 z 0 false.
(** A decimal literal: the correctly rounded quotient of two exact integers. *)
Definition f64_ratio (n d : Z) : float64 := f64_div (f64_of_Z n) (f64_of_Z d).

Definition f64_zero : float64 := S754_zero false.
Definition f64_pos_inf : float64 := S754_infinity false.
Definition f64_IsNaN (x : float64) : bool := match x with S754_nan => true | _ => false end.
Definition f64_IsInf (x : float64) : bool := match x with S754_infinity _ => true | _ => false end.

(** The comparisons of the language: all false when an operand is NaN. *)
Definition f64_le (x y : float64) : bool := SFleb x y.
Definition f64_lt (x y : float64) : bool := SFltb x y.
Definition f64_eq (x y : float64) : bool := SFeqb x y.
Definition f64_ge (x y : float64) : bool := f64_le y x.
Definition f64_gt (x y : float64) : bool := f64_lt y x.

(** A rank that orders the finite and infinite values the way [SFcompare]
    does: lexicographic on (class and sign, exponent, mantissa). *)
Definition f64_key (x : float64) : Z * Z * Z :=
  match x with
  | S754_nan => (0, 0, 0)
  | S754_infinity true => (-2, 0, 0)
  | S754_finite true m e => (-1, - e, - Zpos m)
  | S754_zero _ => (0, 0, 0)
  | S754_finite false m e => (1, e, Zpos m)
  | S754_infinity false => (2, 0, 0)
  end.

Definition key_le (a b : Z * Z * Z) : Prop :=
  match a, b with
  | (a1, a2, a3), (b1, b2, b3) => a1 < b1 \/ a1 = b1 /\ (a2 < b2 \/ a2 = b2 /\ a3 <= b3)
  end.

Lemma f64_le_key x y :
  f64_le x y = true <-> f64_IsNaN x = false /\ f64_IsNaN y = false /\ key_le (f64_key x) (f64_key y).
Proof.
  unfold f64_le, SFleb, SFcompare, f64_IsNaN, f64_key, key_le.
  destruct x as [sx|[]| |[] mx ex], y as [sy|[]| |[] my ey];
    try (split; [done|]; intros (?&?&?); first [done | lia]);
    try (split; [|done]; intros _; repeat split; lia).
  - destruct (Z.compare_spec ex ey); cbn.
    + change (Pos.compare_cont Eq mx my) with (mx ?= my)%positive. subst.
      destruct (Pos.compare_spec mx my); cbn; split;
        try done; intros; try (repeat split; lia); lia.
    + split; [intros; discriminate|intros (?&?&?); lia].
    + split; [intros _; repeat split; lia|done].
  - destruct (Z.compare_spec ex ey); cbn.
    + change (Pos.compare_cont Eq mx my) with (mx ?= my)%positive. subst.
      destruct (Pos.compare_spec mx my); cbn; split;
        try done; intros; try (repeat split; lia); lia.
    + split; [intros _; repeat split; lia|done].
    + split; [intros; discriminate|intros (?&?&?); lia].
Qed.

Lemma key_le_trans a b c : key_le a b -> key_le b c -> key_le a c.
Proof. destruct a as [[??]?], b as [[??]?], c as [[??]?]. cbn. lia. Qed.

Lemma f64_le_trans x y z : f64_le x y = true -> f64_le y z = true -> f64_le x z = true.
Proof. rewrite !f64_le_key. intuition eauto using key_le_trans. Qed.

Lemma f64_le_total x y :
  f64_IsNaN x = false -> f64_IsNaN y = false -> f64_le x y = false -> f64_le y x = true.
Proof.
  intros Hx Hy H. apply f64_le_key. repeat split; [done..|].
  assert (~ key_le (f64_key x) (f64_key y)) as Hn.
  { intros Hk. assert (f64_le x y = true) by (by apply f64_le_key). congruence. }
  destruct (f64_key x) as [[??]?], (f64_key y) as [[??]?]. cbn in *. lia.
Qed.

(** The small non-negative integers keep their order as [float64]: what the
    percentage thresholds rely on. *)
Lemma f64_of_Z_le_small a b :
  0 <= a -> a <= b -> b <= 100 -> f64_le (f64_of_Z a) (f64_of_Z b) = true.
Proof.
  intros Ha Hab Hb.
  assert (forallb (fun i => forallb (fun j => implb (i <=? j)%nat
      (f64_le (f64_of_Z (Z.of_nat i)) (f64_of_Z (Z.of_nat j)))) (seq 0 101)) (seq 0 101) = true)
    as Hall by (vm_compute; reflexivity).
  rewrite forallb_forall in Hall. specialize (Hall (Z.to_nat a)).
  rewrite forallb_forall in Hall. specialize (Hall ltac:(apply in_seq; lia) (Z.to_nat b)).
  specialize (Hall ltac:(apply in_seq; lia)).
  rewrite !Z2Nat.id in Hall by lia.
  destruct (Nat.leb_spec (Z.to_nat a) (Z.to_nat b)); [done|lia].
Qed.

(** * Formatting *)

(** [%d] and [strconv.FormatInt(z, 10)]. *)
Definition fmt_d (z : Z) : string := pretty z.

#[global] Instance fmt_d_inj : Inj eq eq fmt_d.
Proof. unfold fmt_d. apply _. Qed.

(** [m * 2^e * 10] rounded to the nearest integer, ties to even. *)
Definition round_tenths (m : positive) (e : Z) : Z :=
  if 0 <=? e then 10 * Zpos m * 2 ^ e
  else let den := 2 ^ (- e) in
       let num := 10 * Zpos m in
       let q := num / den in
       let r := num mod den in
       if (den <? 2 * r) || ((den =? 2 * r) && Z.odd q) then q + 1 else q.

(** [%.1f]. *)
Definition fmt_f1 (x : float64) : string :=
  let tenths (s : bool) (n : Z) :=
    ((if s then "-" else "") +:+ fmt_d (n / 10) +:+ "." +:+ fmt_d (n mod 10))%string in
  match x with
  | S754_nan => "NaN"
  | S754_infinity s => if s then "-Inf" else "+Inf"
  | S754_zero s => tenths s 0
  | S754_finite s m e => tenths s (round_tenths m e)
  end.

Example fmt_f1_examples :
  fmt_f1 (f64_ratio 925 10) = "92.5" /\ fmt_f1 (f64_ratio 1 20) = "0.1" /\
  fmt_f1 (f64_ratio 1 4) = "0.2" /\ fmt_f1 (f64_of_Z (-3)) = "-3.0".
Proof. vm_compute. auto. Qed.

(** [strings.Join]. *)
Fixpoint strings_Join (parts : list string) (sep : string) : string :=
  match parts with
  | [] => ""
  | [p] => p
  | p :: ps => p +:+ sep +:+ strings_Join ps sep
  end.

(** [strings.TrimSpace] on UTF-8 bytes.  White space is one byte (tab, line feed,
    vertical tab, form feed, carriage return, space), two bytes (U+0085, U+00A0)
    or three bytes (U+1680, U+2000 to U+200A, U+2028, U+2029, U+202F, U+205F,
    U+3000) long. *)
Definition space1 (a : Ascii.ascii) : bool :=
  let n := Ascii.nat_of_ascii a in ((9 <=? n) && (n <=? 13) || (n =? 32))%nat.

Definition space2 (a b : Ascii.ascii) : bool :=
  let n := Ascii.nat_of_ascii a in let m := Ascii.nat_of_ascii b in
  ((n =? 194) && ((m =? 133) || (m =? 160)))%nat.

Definition space3 (a b c : Ascii.ascii) : bool :=
  let n := Ascii.nat_of_ascii a in
  let m := Ascii.nat_of_ascii b in
  let p := Ascii.nat_of_ascii c in
  ((n =? 225) && (m =? 154) && (p =? 128)
   || (n =? 226) && (m =? 128) &&
      ((128 <=? p) && (p <=? 138) || (p =? 168) || (p =? 169) || (p =? 175))
   || (n =? 226) && (m =? 129) && (p =? 159)
   || (n =? 227) && (m =? 128) && (p =? 128))%nat.

Fixpoint trim_bytes (s1 : Ascii.ascii -> bool) (s2 : Ascii.ascii -> Ascii.ascii -> bool)
    (s3 : Ascii.ascii -> Ascii.ascii -> Ascii.ascii -> bool) (l : list Ascii.ascii)
    : list Ascii.ascii :=
  match l with
  | a :: l1 =>
      if s1 a then trim_bytes s1 s2 s3 l1
      else match l1 with
           | b :: l2 =>
               if s2 a b then trim_bytes s1 s2 s3 l2
               else match l2 with
                    | c :: l3 => if s3 a b c then trim_bytes s1 s2 s3 l3 else l
                    | [] => l
                    end
           | [] => l
           end
  | [] => []
  end.

Definition strings_TrimSpace (s : string) : string :=
  let left := trim_bytes space1 space2 space3 (String.list_ascii_of_string s) in
  let right := trim_bytes space1 (fun b a => space2 a b) (fun c b a => space3 a b c) (rev left) in
  String.string_of_list_ascii (rev right).

Example strings_TrimSpace_example :
  strings_TrimSpace "  　batch 1 	" = "batch 1" /\ strings_TrimSpace " 　 " = "".
Proof. vm_compute. auto. Qed.

(** What is left begins with no white space, in whichever direction is trimmed. *)
Section Trim.
Context (s1 : Ascii.ascii -> bool) (s2 : Ascii.ascii -> Ascii.ascii -> bool)
  (s3 : Ascii.ascii -> Ascii.ascii -> Ascii.ascii -> bool).

Definition no_space_prefix (l : list Ascii.ascii) : Prop :=
  match l with
  | a :: l1 => s1 a = false /\
      match l1 with
      | b :: l2 => s2 a b = false /\ match l2 with c :: _ => s3 a b c = false | [] => True end
      | [] => True
      end
  | [] => True
  end.

Lemma trim_bytes_id l : no_space_prefix l -> trim_bytes s1 s2 s3 l = l.
Proof.
  destruct l as [|a [|b [|c l]]]; cbn; [done|by intros [-> _]|by intros (-> & -> & _)|].
  by intros (-> & -> & ->).
Qed.

Lemma trim_bytes_spec l :
  no_space_prefix (trim_bytes s1 s2 s3 l) /\ trim_bytes s1 s2 s3 l `suffix_of` l.
Proof.
  induction l as [l IH] using (induction_ltof1 _ (@length _)). unfold ltof in IH.
  destruct l as [|a l1]; [done|]. cbn [trim_bytes].
  assert (forall k l', length k < length l' -> length (a :: l1) = length l' ->
    (exists p, l' = p ++ k) -> l' = a :: l1 ->
    no_space_prefix (trim_bytes s1 s2 s3 k) /\ trim_bytes s1 s2 s3 k `suffix_of` (a :: l1))%nat as Hrec.
  { intros k l' Hk _ [q ->] El. destruct (IH k) as [H1 [q' H2]]; [by rewrite <- El|].
    split; [done|]. exists (q ++ q'). rewrite <- El, H2 at 1. by rewrite app_assoc. }
  destruct (s1 a) eqn:E1; [eapply (Hrec l1); [|done|by exists [a]|done]; cbn; lia|].
  destruct l1 as [|b l2]; [by cbn; rewrite E1|].
  destruct (s2 a b) eqn:E2; [eapply (Hrec l2); [|done|by exists [a; b]|done]; cbn; lia|].
  destruct l2 as [|c l3]; [by cbn; rewrite E1, E2|].
  destruct (s3 a b c) eqn:E3; [eapply (Hrec l3); [|done|by exists [a; b; c]|done]; cbn; lia|].
  by cbn; rewrite E1, E2, E3.
Qed.

Lemma no_space_prefix_app p q : no_space_prefix (p ++ q) -> no_space_prefix p.
Proof. destruct p as [|a [|b [|c p]]]; cbn; intuition. Qed.
End Trim.

Lemma strings_TrimSpace_idemp s : strings_TrimSpace (strings_TrimSpace s) = strings_TrimSpace s.
Proof.
  unfold strings_TrimSpace. set (trim_l := trim_bytes space1 space2 space3).
  set (trim_r := trim_bytes space1 (fun b a => space2 a b) (fun c b a => space3 a b c)).
  rewrite String.list_ascii_of_string_of_list_ascii. f_equal. f_equal.
  destruct (trim_bytes_spec space1 space2 space3 (String.list_ascii_of_string s)) as [Hl _].
  fold trim_l in Hl. set (left := trim_l (String.list_ascii_of_string s)) in *.
  destruct (trim_bytes_spec space1 (fun b a => space2 a b) (fun c b a => space3 a b c) (rev left))
    as [Hr [q Hq]]. fold trim_r in Hr, Hq. set (right := trim_r (rev left)) in *.
  assert (left = rev right ++ rev q) as El.
  { rewrite <- (rev_involutive left), Hq. apply rev_app_distr. }
  rewrite El in Hl. apply no_space_prefix_app in Hl.
  unfold trim_l at 1. rewrite (trim_bytes_id _ _ _ _ Hl), rev_involutive.
  unfold trim_r at 1. by apply trim_bytes_id.
Qed.

(** [strings.ToLower] and [strings.ToUpper].  Beyond the ASCII letters, the runes
    with an ASCII image are written out: U+0130 and U+212A lower to [i] and [k],
    U+0131 and U+017F raise to [I] and [S].  Every other rune beyond ASCII maps to
    a rune beyond ASCII and stands for itself here: the program compares the result
    with ASCII words only. *)
Definition shift_ascii (a : Ascii.ascii) (lo hi : nat) (up : bool) : Ascii.ascii :=
  let n := Ascii.nat_of_ascii a in
  if ((lo <=? n) && (n <=? hi))%nat
  then Ascii.ascii_of_nat (if up then n - 32 else n + 32)%nat else a.

Definition byte_is (a : Ascii.ascii) (n : nat) : bool := (Ascii.nat_of_ascii a =? n)%nat.

Fixpoint lower_bytes (l : list Ascii.ascii) : list Ascii.ascii :=
  match l with
  | [] => []
  | a :: l1 =>
      let here := shift_ascii a 65 90 false :: lower_bytes l1 in
      match l1 with
      | b :: l2 =>
          if byte_is a 196 && byte_is b 176 then Ascii.ascii_of_nat 105 :: lower_bytes l2
          else match l2 with
               | c :: l3 =>
                   if byte_is a 226 && byte_is b 132 && byte_is c 170
                   then Ascii.ascii_of_nat 107 :: lower_bytes l3 else here
               | [] => here
               end
      | [] => here
      end
  end.

Fixpoint upper_bytes (l : list Ascii.ascii) : list Ascii.ascii :=
  match l with
  | [] => []
  | a :: l1 =>
      let here := shift_ascii a 97 122 true :: upper_bytes l1 in
      match l1 with
      | b :: l2 =>
          if byte_is a 196 && byte_is b 177 then Ascii.ascii_of_nat 73 :: upper_bytes l2
          else if byte_is a 197 && byte_is b 191 then Ascii.ascii_of_nat 83 :: upper_bytes l2
          else here
      | [] => here
      end
  end.

Definition strings_ToLower (s : string) : string :=
  String.string_of_list_ascii (lower_bytes (String.list_ascii_of_string s)).

Definition strings_ToUpper (s : string) : string :=
  String.string_of_list_ascii (upper_bytes (String.list_ascii_of_string s)).

Example strings_case_example :
  strings_ToLower "Netflix-4K" = "netflix-4k" /\ strings_ToUpper "cny" = "CNY" /\
  strings_ToUpper "ſek" = "SEK".
Proof. vm_compute. auto. Qed.

(** [hex.EncodeToString]. *)
Definition hex_digit (n : nat) : Ascii.ascii := Ascii.ascii_of_nat (if (n <? 10)%nat then 48 + n else 87 + n)%nat.

(** [strings.SplitN(s, ".", 2)[0]]. *)
Fixpoint before_dot (s : string) : string :=
  match s with
  | EmptyString => EmptyString
  | String a s => if Ascii.eqb a (Ascii.ascii_of_nat 46) then EmptyString else String a (before_dot s)
  end.

Fixpoint hex_EncodeToString (s : string) : string :=
  match s with
  | String.EmptyString => String.EmptyString
  | String.String a s =>
      let n := Ascii.nat_of_ascii a in
      String.String (hex_digit (n / 16)%nat) (String.String (hex_digit (n mod 16)%nat) (hex_EncodeToString s))
  end.

(** * String order: [sort.Strings] and [<] compare bytes lexicographically *)

Fixpoint string_less (s t : string) : bool :=
  match s, t with
  | _, EmptyString => false
  | EmptyString, String _ _ => true
  | String a s', String b t' =>
      let na := Ascii.nat_of_ascii a in
      let nb := Ascii.nat_of_ascii b in
      if (na <? nb)%nat then true else if (nb <? na)%nat then false else string_less s' t'
  end.

#[local] Arguments Nat.ltb : simpl never.
#[local] Arguments Ascii.nat_of_ascii : simpl never.

Lemma string_less_trichotomy s t :
  string_less s t = false -> string_less t s = false -> s = t.
Proof.
  revert t. induction s as [|a s IH]; intros [|b t]; cbn; try done.
  destruct (Nat.ltb_spec (Ascii.nat_of_ascii a) (Ascii.nat_of_ascii b)); [done|].
  destruct (Nat.ltb_spec (Ascii.nat_of_ascii b) (Ascii.nat_of_ascii a)); [done|].
  intros Hs Ht. f_equal; [|by apply IH].
  rewrite <- (Ascii.ascii_nat_embedding a), <- (Ascii.ascii_nat_embedding b).
  f_equal. lia.
Qed.

#[global] Instance string_less_sw : StrictWeak string_less.
Proof.
  split.
  - intros s. induction s as [|a s IH]; intros [|b t]; cbn; try done.
    repeat match goal with |- context [(?x <? ?y)%nat] => destruct (Nat.ltb_spec x y) end;
      try done; try lia. apply IH.
  - intros s. induction s as [|a s IH]; intros [|b t] [|c u]; cbn; try done.
    repeat match goal with |- context [(?x <? ?y)%nat] => destruct (Nat.ltb_spec x y) end;
      intros; first [done | lia | by eapply IH].
Qed.

Definition sort_Strings (l : list string) : list string := sort_stable string_less l.

Lemma sort_Strings_perm_eq l1 l2 : Permutation l1 l2 -> sort_Strings l1 = sort_Strings l2.
Proof. apply sort_stable_perm_eq; [apply _|apply string_less_trichotomy]. Qed.

(** Instants sort by their nanoseconds. *)
#[global] Instance Z_ltb_sw : StrictWeak Z.ltb.
Proof. split; intros; breflect; apply Z.ltb_ge; lia. Qed.

#[global] Instance Time_After_sw : StrictWeak Time_After.
Proof. unfold Time_After. split; intros; breflect; apply Z.ltb_ge; lia. Qed.

Lemma Time_After_total t u : Time_After t u = false -> Time_After u t = false -> t = u.
Proof. unfold Time_After. intros; breflect; lia. Qed.

Lemma Time_Before_total t u : Time_Before t u = false -> Time_Before u t = false -> t = u.
Proof. unfold Time_Before. intros; breflect; lia. Qed.

(** * Errors *)

#[local] Set Warnings "-register-all".

(** A package-level [errors.New] variable is known by its name; [fmt.Errorf]
    keeps its format, its printed arguments and the errors its [%w] verbs wrap. *)
Inductive error : Type :=
| ErrSentinel (name : string)
| ErrNew (msg : string)
| ErrWrap (format : string) (args : list string) (wrapped : list error).

(** [errors.Is(err, sentinel)]. *)
Fixpoint errors_Is (name : string) (err : error) : bool :=
  match err with
  | ErrSentinel n => n =s name
  | ErrNew _ => false
  | ErrWrap _ _ wrapped => existsb (errors_Is name) wrapped
  end.

(** [(T, error)] returns: a value or an error. *)
Inductive result (A : Type) : Type :=
| Ok (a : A)
| Err (e : error).
Arguments Ok {A} _.
Arguments Err {A} _.

#[global] Instance result_ret : MRet result := @Ok.

#[global] Instance result_bind : MBind result := fun A B f m =>
  match m with Ok a => f a | Err e => Err e end.

Lemma result_bind_ok {A B} (f : A -> result B) (m : result A) b :
  m ≫= f = Ok b <-> exists a, m = Ok a /\ f a = Ok b.
Proof.
  destruct m as [a|e]; cbn; split.
  - by exists a.
  - by intros (a' & [= <-] & H).
  - done.
  - by intros (a' & H & _).
Qed.

(** [if cond { return err }]. *)
Definition reject (cond : bool) (err : error) : result unit := if cond then Err err else Ok tt.

Lemma reject_ok cond err x : reject cond err = Ok x <-> cond = false.
Proof. destruct x. by destruct cond; cbn. Qed.

(** A loop whose body may return an error; the body sees how often it ran before. *)
Fixpoint fold_result {A S} (body : nat -> A -> S -> result S) (n : nat) (l : list A) (s : S) : result S :=
  match l with
  | [] => Ok s
  | x :: l => s ← body n x s; fold_result body (1 + n) l s
  end.

Lemma fold_result_inv {A S} (P : S -> Prop) (body : nat -> A -> S -> result S) n l s s' :
  (forall n x s s', x ∈ l -> P s -> body n x s = Ok s' -> P s') ->
  P s -> fold_result body n l s = Ok s' -> P s'.
Proof.
  revert n s. induction l as [|x l IH]; intros n s Hb Hs; cbn [fold_result]; [by intros [= <-]|].
  intros (s1 & H1 & H2)%result_bind_ok. assert (P s1) as Hs1 by (eapply Hb; [apply list_elem_of_here|done|done]).
  eapply IH; [|exact Hs1|exact H2]. intros n' y s2 s3 Hy. apply Hb. by apply list_elem_of_further.
Qed.

(** What the statements of a transaction answer besides their rows: for a statement
    and how often it ran before, an error if it fails. *)
Definition faults : Type := string -> nat -> option error.

Definition statement (f : faults) (what : string) (n : nat) (wrap : error -> error) : result unit :=
  match f what n with Some err => Err (wrap err) | None => Ok tt end.
