(* ===== verification/Json.v ===== *)
(** JSON documents as the program reads and writes them: the values of
    encoding/json, the length of their text, the duplicate-key check of the sync
    queue and the way a struct collects the members of an object. *)
From stdpp Require Import base list strings gmap pretty.
From Stdlib Require Import ZArith Lia.
From S2P Require Import Prelude GoRuntime.

Local Open Scope Z_scope.

(** A number is an integer literal in decimal or any other literal, kept as text.
    An object keeps the order and the repetitions of its members. *)
#[local] Set Warnings "-register-all".
Inductive json :=
| JNull
| JBool (b : bool)
| JInt (z : Z)
| JLit (literal : string)
| JStr (s : string)
| JArr (items : list json)
| JObj (members : list (string * json)).

(** Induction that reaches the items and members. *)
Section JsonInd.
Context (P : json -> Prop).
Hypothesis Hnull : P JNull.
Hypothesis Hbool : forall b, P (JBool b).
Hypothesis Hint : forall z, P (JInt z).
Hypothesis Hlit : forall s, P (JLit s).
Hypothesis Hstr : forall s, P (JStr s).
Hypothesis Harr : forall l, Forall P l -> P (JArr l).
Hypothesis Hobj : forall l, Forall (fun kv => P kv.2) l -> P (JObj l).

Fixpoint json_nested_ind (j : json) : P j :=
  match j with
  | JNull => Hnull
  | JBool b => Hbool b
  | JInt z => Hint z
  | JLit s => Hlit s
  | JStr s => Hstr s
  | JArr l => Harr l ((fix go l : Forall P l :=
      match l with [] => Forall_nil_2 _ | x :: l' => Forall_cons_2 _ _ _ (json_nested_ind x) (go l') end) l)
  | JObj l => Hobj l ((fix go l : Forall (fun kv => P kv.2) l :=
      match l with [] => Forall_nil_2 _ | kv :: l' => Forall_cons_2 _ _ _ (json_nested_ind kv.2) (go l') end) l)
  end.
End JsonInd.

(** * The length of the text [json.Marshal] writes *)

(** The escapes of encoding/json: quote, backslash and the five named controls take
    two bytes, other controls and the HTML characters six, the line separators
    U+2028 and U+2029 six; any other byte of a UTF-8 string is written as it is. *)
Definition escape_len (a : Ascii.ascii) : Z :=
  let n := Ascii.nat_of_ascii a in
  if (n =? 34)%nat || (n =? 92)%nat || (n =? 8)%nat || (n =? 9)%nat || (n =? 10)%nat || (n =? 12)%nat ||
     (n =? 13)%nat then 2
  else if (n <? 32)%nat || (n =? 60)%nat || (n =? 62)%nat || (n =? 38)%nat then 6 else 1.

Fixpoint escaped_len (l : list Ascii.ascii) : Z :=
  match l with
  | [] => 0
  | a :: l1 =>
      match l1 with
      | b :: c :: l3 =>
          if byte_is a 226 && byte_is b 128 && (byte_is c 168 || byte_is c 169) then 6 + escaped_len l3
          else escape_len a + escaped_len l1
      | _ => escape_len a + escaped_len l1
      end
  end.

Definition quoted_len (s : string) : Z := 2 + escaped_len (String.list_ascii_of_string s).

Definition text_len (s : string) : Z := Z.of_nat (String.length s).

Definition sumZ (l : list Z) : Z := foldr Z.add 0 l.

Fixpoint json_len (j : json) : Z :=
  match j with
  | JNull => 4
  | JBool b => if b then 4 else 5
  | JInt z => text_len (fmt_d z)
  | JLit literal => text_len literal
  | JStr s => quoted_len s
  | JArr items => 2 + sumZ (json_len <$> items) + Z.max 0 (Z.of_nat (length items) - 1)
  | JObj members =>
      2 + sumZ ((fun kv => quoted_len kv.1 + 1 + json_len kv.2) <$> members) +
      Z.max 0 (Z.of_nat (length members) - 1)
  end.

(** * Members *)

(** The first member with a key, as [map[string]json.RawMessage] shows it when no
    key repeats. *)
Definition member_value (key : string) (members : list (string * json)) : option json :=
  match List.find (fun kv => kv.1 =s key) members with Some kv => Some kv.2 | None => None end.

(** [rejectDuplicateKeys]: no object of the document repeats a key. *)
Definition distinct_keys (members : list (string * json)) : bool :=
  bool_decide (NoDup members.*1).

Fixpoint no_duplicate_keys (j : json) : bool :=
  match j with
  | JArr items => forallb no_duplicate_keys items
  | JObj members => distinct_keys members && forallb (fun kv => no_duplicate_keys kv.2) members
  | _ => true
  end.

(** ** Struct fields *)

(** The folding under which encoding/json compares a key with a field name that is
    ASCII: letters lose their case, the Kelvin sign is a K and the long s an S. *)
Fixpoint fold_bytes (l : list Ascii.ascii) : list Ascii.ascii :=
  match l with
  | [] => []
  | a :: l1 =>
      let here := shift_ascii a 97 122 true :: fold_bytes l1 in
      match l1 with
      | b :: l2 =>
          if byte_is a 197 && byte_is b 191 then Ascii.ascii_of_nat 83 :: fold_bytes l2
          else match l2 with
               | c :: l3 =>
                   if byte_is a 226 && byte_is b 132 && byte_is c 170
                   then Ascii.ascii_of_nat 75 :: fold_bytes l3 else here
               | [] => here
               end
      | [] => here
      end
  end.

Definition fold_name (s : string) : list Ascii.ascii := fold_bytes (String.list_ascii_of_string s).

(** The field a key is decoded into: the one with that name, else the first whose
    name folds to the same. *)
Definition field_of (names : list string) (key : string) : option string :=
  match List.find (fun n => n =s key) names with
  | Some n => Some n
  | None => List.find (fun n => bool_decide (fold_name n = fold_name key)) names
  end.

(** A struct decoded member by member; an unknown key is an error
    ([DisallowUnknownFields]). *)
Fixpoint decode_members {S} (names : list string) (set : string -> json -> S -> result S)
    (members : list (string * json)) (acc : S) : result S :=
  match members with
  | [] => Ok acc
  | (key, value) :: rest =>
      match field_of names key with
      | None => Err (ErrWrap "json: unknown field %q" [key] [])
      | Some name => acc ← set name value acc; decode_members names set rest acc
      end
  end.

Lemma field_of_exact names key : key ∈ names -> field_of names key = Some key.
Proof.
  intros H. unfold field_of. destruct (List.find _ _) as [n|] eqn:E.
  - apply find_some in E as [_ E]. breflect. by subst.
  - exfalso. eapply find_none in E; [|by apply list_elem_of_In]. cbn in E. breflect. done.
Qed.

(** * Sums of lengths *)

Lemma sumZ_app l1 l2 : sumZ (l1 ++ l2) = sumZ l1 + sumZ l2.
Proof. unfold sumZ. induction l1 as [|x l1 IH]; cbn [app foldr]; [lia|]. rewrite IH. lia. Qed.

Lemma escape_len_pos a : 0 < escape_len a.
Proof. unfold escape_len. split_matches; lia. Qed.

Lemma escaped_len_nonneg l : 0 <= escaped_len l.
Proof.
  induction l as [l IH] using (well_founded_induction (Wf_nat.well_founded_ltof _ length)).
  destruct l as [|a [|b [|c l]]]; cbn [escaped_len]; [done|..].
  - pose proof (escape_len_pos a). lia.
  - pose proof (escape_len_pos a). pose proof (escape_len_pos b). cbn. lia.
  - pose proof (escape_len_pos a).
    assert (0 <= escaped_len (b :: c :: l)) by (apply IH; unfold ltof; cbn; lia).
    assert (0 <= escaped_len l) by (apply IH; unfold ltof; cbn; lia).
    cbn [escaped_len] in *. split_matches; lia.
Qed.

Lemma quoted_len_pos s : 0 < quoted_len s.
Proof. unfold quoted_len. pose proof (escaped_len_nonneg (String.list_ascii_of_string s)). lia. Qed.

Lemma sumZ_nonneg l : Forall (Z.le 0) l -> 0 <= sumZ l.
Proof. unfold sumZ. induction 1; cbn [foldr]; lia. Qed.

Lemma json_len_nonneg j : 0 <= json_len j.
Proof.
  induction j as [|b|z|s|s|l IH|l IH] using json_nested_ind; cbn [json_len]; try done.
  - by destruct b.
  - unfold text_len. lia.
  - unfold text_len. lia.
  - pose proof (quoted_len_pos s). lia.
  - assert (0 <= sumZ (json_len <$> l)); [|lia]. apply sumZ_nonneg, Forall_fmap, IH.
  - assert (0 <= sumZ ((fun kv => quoted_len kv.1 + 1 + json_len kv.2) <$> l)); [|lia].
    apply sumZ_nonneg, Forall_fmap. eapply Forall_impl; [exact IH|]. intros [k v] Hv. cbn in *.
    pose proof (quoted_len_pos k). lia.
Qed.

Example json_len_example :
  json_len (JObj [("a", JArr [JInt 12; JNull]); ("b<", JStr "x")]) = 29.
Proof. vm_compute. reflexivity. Qed.

Example field_of_example :
  field_of ["version"; "entries"] "Verſion" = Some "version" /\ field_of ["version"] "ver" = None.
Proof. vm_compute. auto. Qed.
