(* ===== verification/AgentApi.v ===== *)
(** The wire contract between agent and center
    (src/internal/contracts/agentapi) and the runtime facts the center reads back
    (src/internal/center/runtimefacts/types.go). *)
From stdpp Require Import base list strings.
From Stdlib Require Import ZArith Lia.
From S2P Require Import Prelude GoRuntime Json.

Local Open Scope Z_scope.

(** ** Constants of types.go and sync_protocol.go *)

Definition ProbeResultSuccess : string := "success".
Definition ProbeResultFailure : string := "failure".
Definition ProbeKindTCP : string := "tcp".
Definition ProbeKindHTTP : string := "http".
Definition ProbeKindTLS : string := "tls".
Definition ProbeErrorTimeout : string := "timeout".
Definition ProbeErrorConnect : string := "connect".
Definition ProbeErrorHTTPStatus : string := "http_status".
Definition ProbeErrorTLSHandshake : string := "tls_handshake".
Definition SyncProtocolRevision : Z := 2.
Definition SyncReplayWindow : Z := 131072.
Definition LiveSequenceReservation : Z := 1024.

(** ** CPU rates *)

Definition CPURatesUsable (valid : option bool) (usage iowait steal : float64) : bool :=
  match valid with None => true | Some b => b end &&
  f64_ge usage f64_zero && f64_le usage (f64_of_Z 100) &&
  f64_ge iowait f64_zero && f64_le iowait (f64_of_Z 100) &&
  f64_ge steal f64_zero && f64_le steal (f64_of_Z 100).

(** Usable rates are finite numbers: the percentages a window averages over. *)
Lemma CPURatesUsable_not_nan valid usage iowait steal :
  CPURatesUsable valid usage iowait steal = true ->
  f64_IsNaN usage = false /\ f64_IsNaN iowait = false /\ f64_IsNaN steal = false.
Proof.
  unfold CPURatesUsable, f64_ge. intros H. breflect.
  repeat match goal with
  | H : _ = true |- _ => first [apply f64_le_key in H as (?&?&_) | clear H]
  end.
  auto.
Qed.

(** ** Runtime facts *)

Record ContainerInfo := {
  ci_ID : string;
  ci_Name : string;
  ci_Image : string;
  ci_Status : string;
  ci_CPUPct : option float64;
  ci_MemPct : option float64;
}.

Record HostSample := {
  hs_MonitoringInstanceID : string;
  hs_ObservedAt : Z;
  hs_ReceivedAt : Z;
  hs_AgentVersion : string;
  hs_Fingerprint : string;
  hs_CPUUsagePct : float64;
  hs_CPURatesValid : option bool;
  hs_Load1 : float64;
  hs_Load5 : float64;
  hs_Load15 : float64;
  hs_MemUsedPct : float64;
  hs_MemAvailableBytes : Z;
  hs_MemTotalBytes : Z;
  hs_SwapUsedPct : float64;
  hs_DiskUsedPct : float64;
  hs_DiskTotalBytes : Z;
  hs_InodeUsedPct : float64;
  hs_NetInBytesPerSec : Z;
  hs_NetOutBytesPerSec : Z;
  hs_NetworkRatesValid : option bool;
  hs_CPUIOWaitPct : float64;
  hs_CPUStealPct : float64;
  hs_DiskReadBytesPerSec : Z;
  hs_DiskWriteBytesPerSec : Z;
  hs_DiskBusyPct : float64;
  hs_UptimeSeconds : Z;
  hs_MaintenanceContext : bool;
  hs_IsBackfilled : bool;
  hs_SyncBatchID : string;
  hs_Containers : list ContainerInfo;
}.

Record ProbeObservation := {
  po_MonitoringInstanceID : string;
  po_TargetID : string;
  po_ProbeItemID : string;
  po_ProbeKind : string;
  po_ObservedAt : Z;
  po_ReceivedAt : Z;
  po_AgentVersion : string;
  po_Fingerprint : string;
  po_ResultKind : string;
  po_LatencyMS : option Z;
  po_HTTPStatus : option Z;
  po_TLSExpiryDays : option Z;
  po_ErrorCode : string;
  po_ErrorSummary : string;
  po_MaintenanceContext : bool;
  po_IsBackfilled : bool;
  po_SyncBatchID : string;
}.

(** ** Producer identifiers *)

(** [strings.EqualFold] when one side is ASCII. *)
Definition strings_EqualFold (s t : string) : bool := bool_decide (fold_name s = fold_name t).

(** The UUID package is not part of the program: [uuid_Parse] is what [uuid.Parse]
    followed by [String] answers, [None] for an error. *)
Definition ValidSyncProducerID (uuid_Parse : string -> option string) (id : string) : bool :=
  if negb (Z.of_nat (String.length id) =? 36) then false
  else match uuid_Parse id with
       | Some parsed => strings_EqualFold parsed id
       | None => false
       end.
