(* ===== verification/IncidentTypes.v ===== *)
(** Data of the incident component (src/internal/center/incidents/types.go): the
    records, the string constants, and the closed contract
    [ValidMonitoringEventMetadata] every stored monitoring event has to meet.
    The status constants of monitoringinstances/types.go and targets/types.go
    the contract refers to are here as well. *)
From stdpp Require Import base list strings.
From Stdlib Require Import ZArith Lia.
From S2P Require Import Prelude GoRuntime AgentApi.

Local Open Scope Z_scope.

(** ** Statuses of monitoring instances and targets *)

Definition LifecyclePendingEnrollment : string := "待接入".
Definition LifecycleInUse : string := "已接入".
Definition LifecycleObserving : string := "观察中".
Definition LifecycleNoRenewal : string := "不续费".
Definition LifecycleRetired : string := "已退役".
Definition MonitoringEnabled : string := "启用".
Definition MonitoringMaintenance : string := "维护中".
Definition MonitoringPaused : string := "暂停".
Definition BindingUnbound : string := "未绑定".
Definition BindingBound : string := "已绑定".
Definition BindingPendingConfirmation : string := "指纹变更待确认".

Definition TargetLifecycleActive : string := "active".
Definition TargetLifecycleRetired : string := "retired".
Definition RunStatusEnabled : string := "启用".
Definition RunStatusMaintenance : string := "维护中".
Definition RunStatusPaused : string := "暂停".
Definition RunStatusArchived : string := "已归档".

(** ** Records *)

Record IncidentRecord := {
  ir_IncidentID : string;
  ir_ObjectType : string;
  ir_ObjectID : string;
  ir_IncidentClass : string;
  ir_Severity : string;
  ir_StartedAt : Z;
  ir_LastEvaluatedAt : Z;
  ir_Status : string;
  ir_SourceSummary : string;
}.

Record StateChangeEventRecord := {
  ev_ClosureReason : string;
  ev_IncidentID : string;
  ev_IncidentClass : string;
  ev_ObjectType : string;
  ev_ObjectID : string;
  ev_EventType : string;
  ev_Severity : string;
  ev_Summary : string;
  ev_CreatedAt : Z;
  ev_IsBackfilled : bool;
  ev_Provenance : string;
  ev_ProducerVersion : string;
  ev_RuleVersion : string;
  ev_PriorState : string;
  ev_ResultingState : string;
  ev_CorrectionOfEventID : string;
}.

Record NotificationDecision := {
  nd_ShouldSend : bool;
  nd_Channel : string;
  nd_Reason : string;
  nd_Severity : string;
  nd_Summary : string;
}.

Record NotificationRecordWrite := {
  nr_IncidentID : string;
  nr_ObjectType : string;
  nr_ObjectID : string;
  nr_Channel : string;
  nr_DeliveryStatus : string;
  nr_Summary : string;
  nr_SentAt : option Z;
}.

Record IncidentMutation := {
  im_ObjectType : string;
  im_ObjectID : string;
  im_ExpectedObjectRowVersion : string;
  im_Active : list IncidentRecord;
  im_Events : list StateChangeEventRecord;
}.

Record MonitoringInstanceResourceSample := {
  rs_ObservedAt : Z;
  rs_ReceivedAt : Z;
  rs_CPUUsagePct : float64;
  rs_CPURatesValid : option bool;
  rs_NormalizedLoad5 : float64;
  rs_MemUsedPct : float64;
  rs_MemAvailableBytes : Z;
  rs_SwapUsedPct : float64;
  rs_CPUIOWaitPct : float64;
  rs_CPUStealPct : float64;
  rs_MaintenanceContext : bool;
  rs_IsBackfilled : bool;
}.

Record HeartbeatIncidentPolicy := {
  hp_HeartbeatInterval : Z;
  hp_MissingThreshold : Z;
  hp_RecoverySuccesses : Z;
  hp_RecoveryMaxIntervalGap : Z;
}.

Record ResourcePressurePolicy := {
  rp_EvaluatedAt : Z;
  rp_SampleInterval : Z;
}.

Record LiveHeartbeatReceipt := {
  lr_SyncBatchID : string;
  lr_ReceivedAt : Z;
}.

Record EvaluationResult := {
  er_Current : option IncidentRecord;
  er_Transition : string;
  er_Event : option StateChangeEventRecord;
  er_Notification : option NotificationDecision;
}.

Record MonitoringInstanceHostDailyAggregate := {
  ha_BucketDate : Z;
  ha_SampleCount : Z;
  ha_AvgLoad5 : float64;
  ha_AvgCPUIOWaitPct : option float64;
  ha_AvgCPUStealPct : option float64;
  ha_BackfilledSampleCount : Z;
  ha_MaintenanceSampleCount : Z;
  ha_CPUValidSampleCount : option Z;
  ha_CPUValidBackfilledSampleCount : option Z;
  ha_CPUValidMaintenanceSampleCount : option Z;
}.

Record TargetProbeDailyAggregate := {
  ta_TargetID : string;
  ta_ProbeItemID : string;
  ta_BucketDate : Z;
  ta_ObservationCount : Z;
  ta_SuccessCount : Z;
  ta_AvgLatencyMS : option float64;
  ta_P95LatencyMS : option float64;
  ta_BackfilledObservationCount : Z;
  ta_MaintenanceObservationCount : Z;
}.

Record MetricThresholds := {
  mt_CPUWarningPct : Z;
  mt_CPUAlertPct : Z;
  mt_CPUCriticalPct : Z;
  mt_MemWarningPct : Z;
  mt_MemAlertPct : Z;
  mt_MemCriticalPct : Z;
  mt_DiskWarningPct : Z;
  mt_DiskAlertPct : Z;
  mt_DiskCriticalPct : Z;
  mt_InodeWarningPct : Z;
  mt_InodeAlertPct : Z;
  mt_InodeCriticalPct : Z;
  mt_IOWaitWarningPct : Z;
  mt_IOWaitAlertPct : Z;
  mt_IOWaitCriticalPct : Z;
  mt_Load5Warning : float64;
  mt_Load5Alert : float64;
  mt_Load5Critical : float64;
}.

(** ** Constants *)

Definition IncidentMonitoringInstanceHeartbeatMissing : string := "monitoring_instance_heartbeat_missing".
Definition IncidentMonitoringInstanceDiskPressure : string := "monitoring_instance_disk_pressure".
Definition IncidentMonitoringInstanceInodePressure : string := "monitoring_instance_inode_pressure".
Definition IncidentMonitoringInstanceResourcePressure : string := "monitoring_instance_resource_pressure".
Definition IncidentMonitoringInstanceTrendDegradation : string := "monitoring_instance_trend_degradation".
Definition IncidentTargetProbeFailure : string := "target_probe_failure".
Definition IncidentTargetTLSExpiry : string := "target_tls_expiry".
Definition IncidentTargetLatencyTrendDegradation : string := "target_latency_trend_degradation".

Definition SeverityNormal : string := "正常".
Definition SeverityNotice : string := "关注".
Definition SeverityAlert : string := "告警".
Definition SeverityCritical : string := "严重".

Definition ObjectTypeMonitoringInstance : string := "monitoring_instance".
Definition ObjectTypeTarget : string := "target".

Definition EventIncidentStarted : string := "incident_started".
Definition EventIncidentEscalated : string := "incident_escalated".
Definition EventIncidentRecovered : string := "incident_recovered".
Definition EventIncidentClosedByManagement : string := "incident_closed_by_management".
Definition EventMonitoringInstanceBindingRebindConfirmed : string := "monitoring_instance_binding_rebind_confirmed".
Definition EventMonitoringInstanceBindingPendingRejected : string := "monitoring_instance_binding_pending_rejected".
Definition EventMonitoringInstanceBindingReset : string := "monitoring_instance_binding_reset".
Definition EventMonitoringInstanceMonitoringMaintenanceEntered : string := "monitoring_instance_monitoring_maintenance_entered".
Definition EventMonitoringInstanceMonitoringMaintenanceExited : string := "monitoring_instance_monitoring_maintenance_exited".
Definition EventMonitoringInstanceMonitoringPaused : string := "monitoring_instance_monitoring_paused".
Definition EventMonitoringInstanceMonitoringResumed : string := "monitoring_instance_monitoring_resumed".
Definition EventMonitoringInstanceLifecycleUpdated : string := "monitoring_instance_lifecycle_updated".
Definition EventMonitoringInstanceRetired : string := "monitoring_instance_retired".
Definition EventMonitoringInstanceRetirementReconciled : string := "monitoring_instance_retirement_reconciled".
Definition EventMonitoringInstanceRestoredToObserving : string := "monitoring_instance_restored_to_observing".
Definition EventMonitoringInstanceRestoredFromArchive : string := "monitoring_instance_restored_from_archive".
Definition EventTargetMaintenanceEntered : string := "target_maintenance_entered".
Definition EventTargetMaintenanceExited : string := "target_maintenance_exited".
Definition EventTargetPaused : string := "target_paused".
Definition EventTargetResumed : string := "target_resumed".
Definition EventTargetArchived : string := "target_archived".
Definition EventTargetRestoredToPaused : string := "target_restored_to_paused".
Definition EventCorrected : string := "event_corrected".

Definition MonitoringEventProvenanceAgentSync : string := "agent_sync".
Definition MonitoringEventProvenanceCenter : string := "center".
Definition MonitoringEventProvenanceWeb : string := "web".
Definition MonitoringEventProvenanceRetentionBackfill : string := "retention_backfill".
Definition MonitoringEventProvenanceManualCorrection : string := "manual_correction".
Definition MonitoringEventProducerVersion : string := "center-monitoring-events/v1".
Definition MonitoringEventIncidentRuleVersion : string := "incident-rules/v1".
Definition MonitoringEventBindingRuleVersion : string := "monitoring-binding-rules/v1".
Definition MonitoringEventLifecycleRuleVersion : string := "monitoring-lifecycle-rules/v1".
Definition MonitoringEventRuntimeRuleVersion : string := "monitoring-runtime-rules/v1".
Definition MonitoringEventTargetRuleVersion : string := "target-runtime-rules/v1".

Definition NotificationReasonStarted : string := "started".
Definition NotificationReasonEscalated : string := "escalated".
Definition NotificationReasonRecovered : string := "recovered".
Definition NotificationChannelTelegram : string := "telegram".
Definition NotificationChannelFeishu : string := "feishu".
Definition DeliveryStatusSent : string := "sent".
Definition DeliveryStatusSuppressed : string := "suppressed".
Definition DeliveryStatusFailed : string := "failed".
Definition IncidentStatusActive : string := "active".
Definition TransitionNoop : string := "noop".
Definition TransitionStarted : string := "started".
Definition TransitionEscalated : string := "escalated".
Definition TransitionRecovered : string := "recovered".
Definition TransitionSkipped : string := "skipped".

Definition ErrIncidentProjectionConflict : error := ErrSentinel "incident projection conflict".
Definition ErrIncidentProjectionObjectNotFound : error := ErrSentinel "incident projection object not found".

Definition DefaultMetricThresholds : MetricThresholds := {|
  mt_CPUWarningPct := 80; mt_CPUAlertPct := 90; mt_CPUCriticalPct := 95;
  mt_MemWarningPct := 85; mt_MemAlertPct := 92; mt_MemCriticalPct := 95;
  mt_DiskWarningPct := 85; mt_DiskAlertPct := 92; mt_DiskCriticalPct := 97;
  mt_InodeWarningPct := 80; mt_InodeAlertPct := 90; mt_InodeCriticalPct := 95;
  mt_IOWaitWarningPct := 20; mt_IOWaitAlertPct := 35; mt_IOWaitCriticalPct := 50;
  mt_Load5Warning := f64_of_Z 4; mt_Load5Alert := f64_of_Z 6; mt_Load5Critical := f64_of_Z 8;
|}.

(** ** Severity names and ranks *)

Definition monitoringEventIncidentState (severity : string) : string :=
  if severity =s SeverityNormal then "normal"
  else if severity =s SeverityNotice then "notice"
  else if severity =s SeverityAlert then "alert"
  else if severity =s SeverityCritical then "critical"
  else "".

Definition monitoringEventIncidentStateRank (state : string) : Z :=
  if state =s "normal" then 1
  else if state =s "notice" then 2
  else if state =s "alert" then 3
  else if state =s "critical" then 4
  else 0.

Definition severityRank (severity : string) : Z :=
  if severity =s SeverityNotice then 1
  else if severity =s SeverityAlert then 2
  else if severity =s SeverityCritical then 3
  else 0.

(** ** The closed contract of monitoring events *)

(** Membership in a Go [map[string]struct{}] literal or a [switch] case list. *)
Definition one_of (s : string) (l : list string) : bool := existsb (String.eqb s) l.

Definition validMonitoringEventLifecycleStateDomain (priorState resultingState : string) : bool :=
  let priorIsArchiveMarker := (priorState =s "unarchived") || (priorState =s "archived") in
  let resultIsArchiveMarker := (resultingState =s "unarchived") || (resultingState =s "archived") in
  if negb priorIsArchiveMarker && negb resultIsArchiveMarker then true
  else (priorState =s "unarchived") && (resultingState =s "archived").

(** The object type, event types and states a rule version admits: the first
    [switch ruleVersion]. [None] is its early [return false]. *)
Definition eventRuleDomain (objectType ruleVersion : string)
    : option (list string * list string) :=
  if ruleVersion =s MonitoringEventIncidentRuleVersion then
    if (objectType <>s ObjectTypeMonitoringInstance) && (objectType <>s ObjectTypeTarget) then None
    else Some ([EventIncidentStarted; EventIncidentEscalated; EventIncidentRecovered;
                EventIncidentClosedByManagement; EventCorrected],
               ["normal"; "notice"; "alert"; "critical"; "closed_by_management"])
  else if ruleVersion =s MonitoringEventBindingRuleVersion then
    if objectType <>s ObjectTypeMonitoringInstance then None
    else Some ([EventMonitoringInstanceBindingRebindConfirmed;
                EventMonitoringInstanceBindingPendingRejected;
                EventMonitoringInstanceBindingReset; EventCorrected],
               [BindingUnbound; BindingBound; BindingPendingConfirmation])
  else if ruleVersion =s MonitoringEventLifecycleRuleVersion then
    if objectType <>s ObjectTypeMonitoringInstance then None
    else Some ([EventMonitoringInstanceLifecycleUpdated; EventMonitoringInstanceRetired;
                EventMonitoringInstanceRetirementReconciled;
                EventMonitoringInstanceRestoredToObserving;
                EventMonitoringInstanceRestoredFromArchive; EventCorrected],
               [LifecyclePendingEnrollment; LifecycleInUse; LifecycleObserving;
                LifecycleNoRenewal; LifecycleRetired; "unarchived"; "archived"])
  else if ruleVersion =s MonitoringEventRuntimeRuleVersion then
    if objectType <>s ObjectTypeMonitoringInstance then None
    else Some ([EventMonitoringInstanceMonitoringMaintenanceEntered;
                EventMonitoringInstanceMonitoringMaintenanceExited;
                EventMonitoringInstanceMonitoringPaused;
                EventMonitoringInstanceMonitoringResumed; EventCorrected],
               [MonitoringEnabled; MonitoringMaintenance; MonitoringPaused])
  else if ruleVersion =s MonitoringEventTargetRuleVersion then
    if objectType <>s ObjectTypeTarget then None
    else Some ([EventTargetMaintenanceEntered; EventTargetMaintenanceExited; EventTargetPaused;
                EventTargetResumed; EventTargetArchived; EventTargetRestoredToPaused;
                EventCorrected],
               [RunStatusEnabled; RunStatusMaintenance; RunStatusPaused; RunStatusArchived;
                TargetLifecycleActive; TargetLifecycleRetired])
  else None.

(** The transition each event type stands for: the second [switch ruleVersion]. *)
Definition eventRuleTransition (eventType severity ruleVersion priorState resultingState : string)
    : bool :=
  if ruleVersion =s MonitoringEventIncidentRuleVersion then
    if eventType =s EventIncidentStarted then
      (priorState =s "normal") && (resultingState <>s "normal") &&
      (monitoringEventIncidentState severity =s resultingState)
    else if eventType =s EventIncidentEscalated then
      (monitoringEventIncidentStateRank priorState <? monitoringEventIncidentStateRank resultingState) &&
      (monitoringEventIncidentState severity =s resultingState)
    else if eventType =s EventIncidentClosedByManagement then
      (priorState <>s "normal") && (priorState <>s "closed_by_management") &&
      (resultingState =s "closed_by_management") &&
      (monitoringEventIncidentState severity =s priorState)
    else if eventType =s EventIncidentRecovered then
      (priorState <>s "normal") && (resultingState =s "normal") &&
      (monitoringEventIncidentState severity =s priorState)
    else false
  else if severity <>s "" then false
  else if ruleVersion =s MonitoringEventBindingRuleVersion then
    if one_of eventType [EventMonitoringInstanceBindingRebindConfirmed;
                         EventMonitoringInstanceBindingPendingRejected] then
      (priorState =s BindingPendingConfirmation) && (resultingState =s BindingBound)
    else if eventType =s EventMonitoringInstanceBindingReset then resultingState =s BindingUnbound
    else false
  else if ruleVersion =s MonitoringEventLifecycleRuleVersion then
    if eventType =s EventMonitoringInstanceLifecycleUpdated then priorState <>s resultingState
    else if eventType =s EventMonitoringInstanceRetirementReconciled then
      (priorState =s LifecycleRetired) && (resultingState =s LifecycleRetired)
    else if eventType =s EventMonitoringInstanceRetired then resultingState =s LifecycleRetired
    else if eventType =s EventMonitoringInstanceRestoredToObserving then
      (priorState =s LifecycleRetired) && (resultingState =s LifecycleObserving)
    else if eventType =s EventMonitoringInstanceRestoredFromArchive then
      (priorState =s "archived") && (resultingState =s "unarchived")
    else false
  else if ruleVersion =s MonitoringEventRuntimeRuleVersion then
    if eventType =s EventMonitoringInstanceMonitoringMaintenanceEntered then
      (priorState =s MonitoringEnabled) && (resultingState =s MonitoringMaintenance)
    else if eventType =s EventMonitoringInstanceMonitoringMaintenanceExited then
      (priorState =s MonitoringMaintenance) && (resultingState =s MonitoringEnabled)
    else if eventType =s EventMonitoringInstanceMonitoringPaused then
      ((priorState =s MonitoringEnabled) || (priorState =s MonitoringMaintenance)) &&
      (resultingState =s MonitoringPaused)
    else if eventType =s EventMonitoringInstanceMonitoringResumed then
      (priorState =s MonitoringPaused) && (resultingState =s MonitoringEnabled)
    else false
  else if ruleVersion =s MonitoringEventTargetRuleVersion then
    if eventType =s EventTargetMaintenanceEntered then
      (priorState =s RunStatusEnabled) && (resultingState =s RunStatusMaintenance)
    else if eventType =s EventTargetMaintenanceExited then
      (priorState =s RunStatusMaintenance) && (resultingState =s RunStatusEnabled)
    else if eventType =s EventTargetPaused then
      ((priorState =s RunStatusEnabled) || (priorState =s RunStatusMaintenance)) &&
      (resultingState =s RunStatusPaused)
    else if eventType =s EventTargetResumed then
      (priorState =s RunStatusPaused) && (resultingState =s RunStatusEnabled)
    else if eventType =s EventTargetArchived then
      (priorState =s TargetLifecycleActive) && (resultingState =s TargetLifecycleRetired)
    else if eventType =s EventTargetRestoredToPaused then
      (priorState =s TargetLifecycleRetired) && (resultingState =s TargetLifecycleActive)
    else false
  else false.

Definition ValidMonitoringEventMetadata (objectType eventType severity : string)
    (isBackfilled : bool) (provenance producerVersion ruleVersion priorState resultingState
     correctionOfEventID : string) : bool :=
  if negb (one_of provenance [MonitoringEventProvenanceAgentSync; MonitoringEventProvenanceCenter;
             MonitoringEventProvenanceWeb; MonitoringEventProvenanceRetentionBackfill;
             MonitoringEventProvenanceManualCorrection]) then false
  else if (producerVersion <>s MonitoringEventProducerVersion) ||
          ((provenance =s MonitoringEventProvenanceRetentionBackfill) && negb isBackfilled) then false
  else if (if eventType =s EventCorrected
           then (provenance <>s MonitoringEventProvenanceManualCorrection) ||
                (correctionOfEventID =s "")
           else (provenance =s MonitoringEventProvenanceManualCorrection) ||
                (correctionOfEventID <>s "")) then false
  else match eventRuleDomain objectType ruleVersion with
  | None => false
  | Some (eventTypes, states) =>
      if negb (one_of eventType eventTypes) then false
      else if negb (one_of priorState states) || negb (one_of resultingState states) then false
      else if (ruleVersion =s MonitoringEventLifecycleRuleVersion) &&
              (eventType <>s EventMonitoringInstanceRetirementReconciled) &&
              (eventType <>s EventMonitoringInstanceRestoredFromArchive) &&
              negb (validMonitoringEventLifecycleStateDomain priorState resultingState) then false
      else if eventType =s EventCorrected then
        if ruleVersion =s MonitoringEventIncidentRuleVersion
        then monitoringEventIncidentState severity =s resultingState
        else severity =s ""
      else eventRuleTransition eventType severity ruleVersion priorState resultingState
  end.

(** The contract at the fields of a stored event. *)
Definition valid_event (e : StateChangeEventRecord) : bool :=
  ValidMonitoringEventMetadata (ev_ObjectType e) (ev_EventType e) (ev_Severity e)
    (ev_IsBackfilled e) (ev_Provenance e) (ev_ProducerVersion e) (ev_RuleVersion e)
    (ev_PriorState e) (ev_ResultingState e) (ev_CorrectionOfEventID e).

(** ** Severities of an open incident *)

(** The severities an active incident can have. *)
Definition active_severity (s : string) : Prop :=
  s = SeverityNotice \/ s = SeverityAlert \/ s = SeverityCritical.

Lemma active_severity_rank s : active_severity s <-> 1 <= severityRank s.
Proof.
  unfold active_severity, severityRank. split.
  - intros [->|[->| ->]]; vm_compute; discriminate.
  - destruct (s =s SeverityNotice) eqn:E1; [breflect; auto|].
    destruct (s =s SeverityAlert) eqn:E2; [breflect; auto|].
    destruct (s =s SeverityCritical) eqn:E3; [breflect; auto|]. lia.
Qed.

Lemma severityRank_inj s t :
  active_severity s -> active_severity t -> severityRank s = severityRank t -> s = t.
Proof. intros [->|[->| ->]] [->|[->| ->]]; vm_compute; congruence. Qed.
