(* ===== verification/Transition.v ===== *)
(** The transition functions every incident evaluator of
    src/internal/center/incidents/evaluator.go ends in, and the contract
    [lifecycle] that states what an evaluator may answer: the interface between
    the evaluators and the service that turns their answers into a mutation. *)
From stdpp Require Import base list strings.
From Stdlib Require Import ZArith Lia.
From S2P Require Import Prelude GoRuntime AgentApi IncidentTypes.

Local Open Scope Z_scope.

(** * Transitions *)

Definition canonicalMonitoringEventTime (value : Z) : Z := Time_Truncate value Microsecond.

Definition incidentID (objectType objectID class : string) : string :=
  "inc_" +:+ objectType +:+ "_" +:+ objectID +:+ "_" +:+ class.

(** [cloneIncident] copies the record behind the pointer. *)
Definition cloneIncident (record : option IncidentRecord) : option IncidentRecord := record.

Definition noop (previous : option IncidentRecord) : EvaluationResult :=
  {| er_Current := cloneIncident previous; er_Transition := TransitionNoop;
     er_Event := None; er_Notification := None |}.

Definition skip (_ : option IncidentRecord) : EvaluationResult :=
  {| er_Current := None; er_Transition := TransitionSkipped;
     er_Event := None; er_Notification := None |}.

Definition suppressNotification (result : EvaluationResult) : EvaluationResult :=
  match er_Notification result with
  | None => result
  | Some n =>
      {| er_Current := er_Current result; er_Transition := er_Transition result;
         er_Event := er_Event result;
         er_Notification := Some {|
           nd_ShouldSend := false; nd_Channel := nd_Channel n; nd_Reason := nd_Reason n;
           nd_Severity := nd_Severity n; nd_Summary := nd_Summary n |} |}
  end.

Definition recoverIfNeeded (previous : option IncidentRecord) (when : Z)
    (summary provenance : string) (isBackfilled : bool) : EvaluationResult :=
  match previous with
  | None => {| er_Current := None; er_Transition := TransitionNoop;
               er_Event := None; er_Notification := None |}
  | Some p =>
      let when := if Time_IsZero when then ir_LastEvaluatedAt p else when in
      {| er_Current := None;
         er_Transition := TransitionRecovered;
         er_Event := Some {|
           ev_ClosureReason := "";
           ev_IncidentID := ir_IncidentID p;
           ev_IncidentClass := ir_IncidentClass p;
           ev_ObjectType := ir_ObjectType p;
           ev_ObjectID := ir_ObjectID p;
           ev_EventType := EventIncidentRecovered;
           ev_Severity := ir_Severity p;
           ev_Summary := summary;
           ev_CreatedAt := canonicalMonitoringEventTime when;
           ev_IsBackfilled := isBackfilled;
           ev_Provenance := provenance;
           ev_ProducerVersion := MonitoringEventProducerVersion;
           ev_RuleVersion := MonitoringEventIncidentRuleVersion;
           ev_PriorState := monitoringEventIncidentState (ir_Severity p);
           ev_ResultingState := "normal";
           ev_CorrectionOfEventID := "" |};
         er_Notification := Some {|
           nd_ShouldSend := true;
           nd_Channel := NotificationChannelTelegram;
           nd_Reason := NotificationReasonRecovered;
           nd_Severity := ir_Severity p;
           nd_Summary := summary |} |}
  end.

Definition newIncidentStateChangeEvent (incident : IncidentRecord)
    (eventType severity summary : string) (when : Z)
    (provenance priorState resultingState : string) : StateChangeEventRecord :=
  {| ev_ClosureReason := "";
     ev_IncidentID := ir_IncidentID incident;
     ev_IncidentClass := ir_IncidentClass incident;
     ev_ObjectType := ir_ObjectType incident;
     ev_ObjectID := ir_ObjectID incident;
     ev_EventType := eventType;
     ev_Severity := severity;
     ev_Summary := summary;
     ev_CreatedAt := canonicalMonitoringEventTime when;
     ev_IsBackfilled := false;
     ev_Provenance := provenance;
     ev_ProducerVersion := MonitoringEventProducerVersion;
     ev_RuleVersion := MonitoringEventIncidentRuleVersion;
     ev_PriorState := priorState;
     ev_ResultingState := resultingState;
     ev_CorrectionOfEventID := "" |}.

Definition evaluateTransition (previous : option IncidentRecord)
    (objectType objectID class severity : string) (when : Z) (summary provenance : string)
    : EvaluationResult :=
  let current := {|
    ir_IncidentID := incidentID objectType objectID class;
    ir_ObjectType := objectType; ir_ObjectID := objectID; ir_IncidentClass := class;
    ir_Severity := severity; ir_StartedAt := when; ir_LastEvaluatedAt := when;
    ir_Status := IncidentStatusActive; ir_SourceSummary := summary |} in
  match previous with
  | None =>
      {| er_Current := Some current;
         er_Transition := TransitionStarted;
         er_Event := Some (newIncidentStateChangeEvent current EventIncidentStarted severity
                             summary when provenance "normal" (monitoringEventIncidentState severity));
         er_Notification := Some {|
           nd_ShouldSend := true; nd_Channel := NotificationChannelTelegram;
           nd_Reason := NotificationReasonStarted; nd_Severity := severity;
           nd_Summary := summary |} |}
  | Some p =>
      let current := {|
        ir_IncidentID := ir_IncidentID current; ir_ObjectType := ir_ObjectType current;
        ir_ObjectID := ir_ObjectID current; ir_IncidentClass := ir_IncidentClass current;
        ir_Severity := ir_Severity current; ir_StartedAt := ir_StartedAt p;
        ir_LastEvaluatedAt := ir_LastEvaluatedAt current; ir_Status := ir_Status current;
        ir_SourceSummary := ir_SourceSummary current |} in
      if severityRank (ir_Severity p) <? severityRank severity then
        {| er_Current := Some current;
           er_Transition := TransitionEscalated;
           er_Event := Some (newIncidentStateChangeEvent current EventIncidentEscalated severity
                               summary when provenance (monitoringEventIncidentState (ir_Severity p))
                               (monitoringEventIncidentState severity));
           er_Notification := Some {|
             nd_ShouldSend := true; nd_Channel := NotificationChannelTelegram;
             nd_Reason := NotificationReasonEscalated; nd_Severity := severity;
             nd_Summary := summary |} |}
      else
        {| er_Current := Some current; er_Transition := TransitionNoop;
           er_Event := None; er_Notification := None |}
  end.

(** * The contract of an evaluator *)

(** An open incident of a class, as the evaluators create it. *)
Record wf_incident (objectType objectID class : string) (r : IncidentRecord) : Prop := {
  wf_id : ir_IncidentID r = incidentID objectType objectID class;
  wf_object_type : ir_ObjectType r = objectType;
  wf_object_id : ir_ObjectID r = objectID;
  wf_class : ir_IncidentClass r = class;
  wf_severity : active_severity (ir_Severity r);
  wf_status : ir_Status r = IncidentStatusActive;
}.

Definition incident_object (objectType : string) : Prop :=
  objectType = ObjectTypeMonitoringInstance \/ objectType = ObjectTypeTarget.

Definition evaluator_provenance (p : string) : Prop :=
  p = MonitoringEventProvenanceAgentSync \/ p = MonitoringEventProvenanceCenter.

(** The life of one incident class of one object.  [live] says whether the
    evidence may open or raise an incident and notify: it is false for evidence
    collected under maintenance or delivered late. *)
Inductive lifecycle (objectType objectID class : string) (live : bool)
    : option IncidentRecord -> EvaluationResult -> Prop :=
| lc_noop previous : lifecycle objectType objectID class live previous (noop previous)
| lc_skip previous : lifecycle objectType objectID class live previous (skip previous)
| lc_evaluate previous severity when summary provenance :
    live = true -> active_severity severity -> evaluator_provenance provenance ->
    lifecycle objectType objectID class live previous
      (evaluateTransition previous objectType objectID class severity when summary provenance)
| lc_recover previous when summary provenance isBackfilled :
    live = true -> evaluator_provenance provenance ->
    lifecycle objectType objectID class live previous
      (recoverIfNeeded previous when summary provenance isBackfilled)
| lc_recover_quiet previous when summary provenance isBackfilled :
    evaluator_provenance provenance ->
    lifecycle objectType objectID class live previous
      (suppressNotification (recoverIfNeeded previous when summary provenance isBackfilled)).

#[export] Hint Constructors lifecycle : houfeng.

Lemma provenance_agent : evaluator_provenance MonitoringEventProvenanceAgentSync.
Proof. by left. Qed.

Lemma provenance_center : evaluator_provenance MonitoringEventProvenanceCenter.
Proof. by right. Qed.

Lemma active_critical : active_severity SeverityCritical.
Proof. by right; right. Qed.

Lemma active_alert : active_severity SeverityAlert.
Proof. by right; left. Qed.

Lemma active_notice : active_severity SeverityNotice.
Proof. by left. Qed.

#[export] Hint Resolve provenance_agent provenance_center active_critical active_alert
  active_notice : houfeng.

Lemma lc_recover_none objectType objectID class live :
  lifecycle objectType objectID class live None
    {| er_Current := None; er_Transition := TransitionNoop; er_Event := None;
       er_Notification := None |}.
Proof. apply (lc_noop _ _ _ _ None). Qed.

#[export] Hint Resolve lc_recover_none : houfeng.

(** Evidence that may notify may also stay quiet. *)
Lemma lifecycle_live objectType objectID class live previous result :
  lifecycle objectType objectID class live previous result ->
  lifecycle objectType objectID class true previous result.
Proof. intros []; eauto with houfeng. Qed.

(** The result [r] of [lifecycle previous r] depends on the record fields of
    [previous] only through well-formedness. *)
Section Lifecycle.
Context (objectType objectID class : string) (Hobj : incident_object objectType).

Definition wf_previous (previous : option IncidentRecord) : Prop :=
  match previous with None => True | Some p => wf_incident objectType objectID class p end.

Lemma evaluateTransition_current previous severity when summary provenance :
  exists c, er_Current (evaluateTransition previous objectType objectID class severity when summary
                          provenance) = Some c /\
    (active_severity severity -> wf_incident objectType objectID class c) /\
    ir_Severity c = severity /\ ir_LastEvaluatedAt c = when /\
    ir_StartedAt c = match previous with None => when | Some p => ir_StartedAt p end.
Proof.
  destruct previous as [p|]; unfold evaluateTransition; [|eexists; repeat split; eauto].
  destruct (severityRank _ <? severityRank _); eexists; repeat split; eauto.
Qed.

(** The incident a result leaves open is well formed. *)
Lemma lifecycle_wf_current live previous result c :
  lifecycle objectType objectID class live previous result ->
  wf_previous previous -> er_Current result = Some c ->
  wf_incident objectType objectID class c.
Proof.
  intros Hl Hwf Hc. destruct Hl as [previous|previous| | |]; cbn in Hc; try done.
  - unfold cloneIncident in Hc. subst previous. exact Hwf.
  - destruct (evaluateTransition_current previous severity when summary provenance)
      as (c' & E & Hw & _). rewrite E in Hc. simplify_eq. auto.
  - by destruct previous.
  - by destruct previous.
Qed.

Lemma recover_event_valid p when summary provenance isBackfilled :
  wf_incident objectType objectID class p -> evaluator_provenance provenance ->
  exists e, er_Event (recoverIfNeeded (Some p) when summary provenance isBackfilled) = Some e /\
    valid_event e = true.
Proof using Hobj.
  intros [_ Hot _ _ Hs _] Hp. eexists; split; [reflexivity|]. unfold valid_event; cbn.
  rewrite Hot. destruct Hobj as [-> | ->], Hp as [-> | ->], Hs as [-> | [-> | ->]]; reflexivity.
Qed.

Lemma evaluateTransition_event_valid previous severity when summary provenance e :
  wf_previous previous -> active_severity severity -> evaluator_provenance provenance ->
  er_Event (evaluateTransition previous objectType objectID class severity when summary provenance)
    = Some e -> valid_event e = true.
Proof using Hobj.
  intros Hwf Hs Hp. destruct previous as [p|]; unfold evaluateTransition.
  - destruct Hwf as [_ _ _ _ Hps _].
    destruct (severityRank _ <? severityRank _) eqn:E; cbn; [|done]. intros [= <-].
    unfold valid_event; cbn.
    destruct Hobj as [-> | ->], Hp as [-> | ->], Hs as [-> | [-> | ->]],
      Hps as [Hps | [Hps | Hps]]; rewrite Hps in E |- *; by vm_compute in E |- *.
  - cbn. intros [= <-]. unfold valid_event; cbn.
    destruct Hobj as [-> | ->], Hp as [-> | ->], Hs as [-> | [-> | ->]]; reflexivity.
Qed.

(** Every event of a result satisfies the closed contract of stored events. *)
Lemma lifecycle_event_valid live previous result e :
  lifecycle objectType objectID class live previous result ->
  wf_previous previous -> er_Event result = Some e -> valid_event e = true.
Proof using Hobj.
  intros Hl Hwf He. destruct Hl as [previous|previous| |previous ? ? ? bf|previous ? ? ? bf];
    cbn in He; try done.
  - by eapply evaluateTransition_event_valid.
  - destruct previous as [p|]; [|done].
    destruct (recover_event_valid p when summary provenance bf) as (e' & E & Hv); [done..|].
    rewrite E in He. by simplify_eq.
  - destruct previous as [p|]; [|done].
    destruct (recover_event_valid p when summary provenance bf) as (e' & E & Hv); [done..|].
    unfold suppressNotification in He; cbn in He, E. by simplify_eq.
Qed.

(** Evidence that is not live changes nothing but, at most, closes the incident,
    and never asks for a notification to be sent. *)
Lemma lifecycle_not_live previous result :
  lifecycle objectType objectID class false previous result ->
  (er_Current result = previous \/ er_Current result = None) /\
  (er_Event result = None \/ er_Transition result = TransitionRecovered) /\
  (forall n, er_Notification result = Some n -> nd_ShouldSend n = false).
Proof.
  intros Hl. inversion Hl; subst; try done; cbn; try (repeat split; by auto).
  destruct previous as [p|]; cbn; repeat split; auto; try done.
  intros n [= <-]. done.
Qed.
End Lifecycle.
