(* ===== verification/Evaluator.v ===== *)
(** The incident evaluators of src/internal/center/incidents/evaluator.go whose
    evidence is a heartbeat, one host sample or one probe series, with the
    theorems on each of them. *)
From stdpp Require Import base list sorting strings gmap.
From Stdlib Require Import ZArith Lia Permutation.
From S2P Require Import Prelude GoRuntime AgentApi IncidentTypes Transition.

Local Open Scope Z_scope.

(** * Heartbeats *)

Definition maxHeartbeatIncidentInterval : Z := Z.quot max_int64 2.
Definition heartbeatRecoverySuccesses : Z := 3.

Definition heartbeatMissedIntervals (now lastHeartbeatAt heartbeatInterval : Z) : Z :=
  if (heartbeatInterval <=? 0) || negb (Time_After now lastHeartbeatAt) then 0
  else let missed := Z.quot (Time_Sub now lastHeartbeatAt) heartbeatInterval in
       if missed <=? 0 then 0
       else let maxInt := max_int64 in
            if maxInt <? missed then maxInt else missed.

Definition validHeartbeatIncidentPolicy (policy : HeartbeatIncidentPolicy) : bool :=
  (0 <? hp_HeartbeatInterval policy) &&
  (hp_HeartbeatInterval policy <=? maxHeartbeatIncidentInterval) &&
  (0 <? hp_MissingThreshold policy) &&
  (hp_MissingThreshold policy <=? Z.quot max_int64 4) &&
  (hp_RecoverySuccesses policy =? heartbeatRecoverySuccesses) &&
  (hp_RecoveryMaxIntervalGap policy =? wrap64 (2 * hp_HeartbeatInterval policy)).

Definition heartbeatSeverity (missed missingThreshold : Z) : string * string * bool :=
  let alertThreshold := wrap64 (2 * missingThreshold) in
  let criticalThreshold := wrap64 (4 * missingThreshold) in
  let summary := "最近 " +:+ fmt_d missed +:+ " 个心跳周期未收到心跳" in
  if criticalThreshold <=? missed then (SeverityCritical, summary, true)
  else if alertThreshold <=? missed then (SeverityAlert, summary, true)
  else if missingThreshold <=? missed then (SeverityNotice, summary, true)
  else (SeverityNormal, "", false).

(** The latest receipt of each batch that arrived after the incident started. *)
Definition latestByBatch (startedAt : Z) (receipts : list LiveHeartbeatReceipt) : gmap string Z :=
  fold_left (fun (m : gmap string Z) receipt =>
    let batchID := strings_TrimSpace (lr_SyncBatchID receipt) in
    if (batchID =s "") || negb (Time_After (lr_ReceivedAt receipt) startedAt) then m
    else match m !! batchID with
         | Some current => if Time_After (lr_ReceivedAt receipt) current
                           then <[batchID := lr_ReceivedAt receipt]> m else m
         | None => <[batchID := lr_ReceivedAt receipt]> m
         end) receipts ∅.

Fixpoint gaps_within (limit : Z) (l : list Z) : bool :=
  match l with
  | a :: ((b :: _) as l') => if limit <? Time_Sub b a then false else gaps_within limit l'
  | _ => true
  end.

Definition hasStableHeartbeatRecoveryEvidence (previous : option IncidentRecord)
    (policy : HeartbeatIncidentPolicy) (receipts : list LiveHeartbeatReceipt) : bool :=
  match previous with
  | None => false
  | Some p =>
      if Time_IsZero (ir_StartedAt p) ||
         (Z.of_nat (length receipts) <? hp_RecoverySuccesses policy) then false
      else
        let latest := latestByBatch (ir_StartedAt p) receipts in
        if Z.of_nat (size latest) <? hp_RecoverySuccesses policy then false
        else
          let receivedAt := (map_to_list latest).*2 in
          let newest := take (Z.to_nat (hp_RecoverySuccesses policy))
                             (sort_stable Time_After receivedAt) in
          gaps_within (hp_RecoveryMaxIntervalGap policy) (sort_stable Time_Before newest)
  end.

Definition EvaluateMonitoringInstanceHeartbeatMissing (previous : option IncidentRecord)
    (monitoringInstanceID : string) (now : Z) (lastHeartbeatAt : option Z)
    (policy : HeartbeatIncidentPolicy) (recoveryReceipts : list LiveHeartbeatReceipt)
    : EvaluationResult :=
  match lastHeartbeatAt with
  | None => noop previous
  | Some last =>
      if negb (validHeartbeatIncidentPolicy policy) then noop previous
      else
        let missed := heartbeatMissedIntervals now last (hp_HeartbeatInterval policy) in
        match heartbeatSeverity missed (hp_MissingThreshold policy) with
        | (severity, summary, active) =>
            if negb active then
              match previous with
              | None => noop previous
              | Some _ =>
                  if negb (hasStableHeartbeatRecoveryEvidence previous policy recoveryReceipts)
                  then noop previous
                  else recoverIfNeeded previous now "心跳已恢复" MonitoringEventProvenanceCenter false
              end
            else evaluateTransition previous ObjectTypeMonitoringInstance monitoringInstanceID
                   IncidentMonitoringInstanceHeartbeatMissing severity now summary
                   MonitoringEventProvenanceCenter
        end
  end.

(** heartbeat_policy.go *)
Definition HeartbeatIsStale (now lastHeartbeatAt : Z) (policy : HeartbeatIncidentPolicy) : bool :=
  if Time_IsZero lastHeartbeatAt || negb (validHeartbeatIncidentPolicy policy) then false
  else hp_MissingThreshold policy <=?
       heartbeatMissedIntervals now lastHeartbeatAt (hp_HeartbeatInterval policy).

(** * Disk and inode pressure *)

Definition fastThresholdSeverity (value notice alert critical : float64) : string * bool :=
  if f64_ge value critical then (SeverityCritical, true)
  else if f64_ge value alert then (SeverityAlert, true)
  else if f64_ge value notice then (SeverityNotice, true)
  else (SeverityNormal, false).

Definition evaluateMonitoringInstanceDiskPressure (previous : option IncidentRecord)
    (monitoringInstanceID : string) (sample : HostSample) (thresholds : MetricThresholds)
    : EvaluationResult :=
  let '(severity, active) :=
    fastThresholdSeverity (hs_DiskUsedPct sample) (f64_of_Z (mt_DiskWarningPct thresholds))
      (f64_of_Z (mt_DiskAlertPct thresholds)) (f64_of_Z (mt_DiskCriticalPct thresholds)) in
  if negb active then
    recoverIfNeeded previous (hs_ObservedAt sample) "磁盘使用率恢复到安全区间"
      MonitoringEventProvenanceAgentSync (hs_IsBackfilled sample)
  else
    let summary := "磁盘使用率 " +:+ fmt_f1 (hs_DiskUsedPct sample) +:+ "%" in
    evaluateTransition previous ObjectTypeMonitoringInstance monitoringInstanceID
      IncidentMonitoringInstanceDiskPressure severity (hs_ObservedAt sample) summary
      MonitoringEventProvenanceAgentSync.

Definition evaluateMonitoringInstanceInodePressure (previous : option IncidentRecord)
    (monitoringInstanceID : string) (sample : HostSample) (thresholds : MetricThresholds)
    : EvaluationResult :=
  let '(severity, active) :=
    fastThresholdSeverity (hs_InodeUsedPct sample) (f64_of_Z (mt_InodeWarningPct thresholds))
      (f64_of_Z (mt_InodeAlertPct thresholds)) (f64_of_Z (mt_InodeCriticalPct thresholds)) in
  if negb active then
    recoverIfNeeded previous (hs_ObservedAt sample) "inode 使用率恢复到安全区间"
      MonitoringEventProvenanceAgentSync (hs_IsBackfilled sample)
  else
    let summary := "inode 使用率 " +:+ fmt_f1 (hs_InodeUsedPct sample) +:+ "%" in
    evaluateTransition previous ObjectTypeMonitoringInstance monitoringInstanceID
      IncidentMonitoringInstanceInodePressure severity (hs_ObservedAt sample) summary
      MonitoringEventProvenanceAgentSync.

Definition EvaluateMonitoringInstanceDiskPressure (previous : option IncidentRecord)
    (monitoringInstanceID : string) (sample : option HostSample) (thresholds : MetricThresholds)
    : EvaluationResult :=
  match sample with
  | None => noop previous
  | Some sample =>
      if hs_MaintenanceContext sample || hs_IsBackfilled sample then
        let result := evaluateMonitoringInstanceDiskPressure previous monitoringInstanceID sample thresholds in
        if er_Transition result =s TransitionRecovered then suppressNotification result
        else skip previous
      else evaluateMonitoringInstanceDiskPressure previous monitoringInstanceID sample thresholds
  end.

Definition EvaluateMonitoringInstanceInodePressure (previous : option IncidentRecord)
    (monitoringInstanceID : string) (sample : option HostSample) (thresholds : MetricThresholds)
    : EvaluationResult :=
  match sample with
  | None => noop previous
  | Some sample =>
      if hs_MaintenanceContext sample || hs_IsBackfilled sample then
        let result := evaluateMonitoringInstanceInodePressure previous monitoringInstanceID sample thresholds in
        if er_Transition result =s TransitionRecovered then suppressNotification result
        else skip previous
      else evaluateMonitoringInstanceInodePressure previous monitoringInstanceID sample thresholds
  end.

(** * Probe series *)

(** The comparator the three [normalize] functions pass to [sort.SliceStable]:
    newest observation first, live before backfilled, last received first. *)
Definition recency_less (observed1 : Z) (backfilled1 : bool) (received1 : Z)
    (observed2 : Z) (backfilled2 : bool) (received2 : Z) : bool :=
  if negb (Time_Equal observed1 observed2) then Time_After observed1 observed2
  else if negb (Bool.eqb backfilled1 backfilled2) then negb backfilled1
  else if negb (Time_Equal received1 received2) then Time_After received1 received2
  else false.

Definition host_less (a b : HostSample) : bool :=
  recency_less (hs_ObservedAt a) (hs_IsBackfilled a) (hs_ReceivedAt a)
               (hs_ObservedAt b) (hs_IsBackfilled b) (hs_ReceivedAt b).

Definition probe_less (a b : ProbeObservation) : bool :=
  recency_less (po_ObservedAt a) (po_IsBackfilled a) (po_ReceivedAt a)
               (po_ObservedAt b) (po_IsBackfilled b) (po_ReceivedAt b).

Definition resource_less (a b : MonitoringInstanceResourceSample) : bool :=
  recency_less (rs_ObservedAt a) (rs_IsBackfilled a) (rs_ReceivedAt a)
               (rs_ObservedAt b) (rs_IsBackfilled b) (rs_ReceivedAt b).

Definition normalizeHostSamples (samples : list HostSample) : list HostSample :=
  sort_stable host_less samples.

Definition normalizeProbeObservations (observations : list ProbeObservation) : list ProbeObservation :=
  sort_stable probe_less observations.

Definition normalizeMonitoringInstanceResourceSamples
    (samples : list MonitoringInstanceResourceSample) : list MonitoringInstanceResourceSample :=
  sort_stable resource_less samples.

Fixpoint consecutiveResults (observations : list ProbeObservation) (want : string) : Z :=
  match observations with
  | [] => 0
  | o :: rest => if po_ResultKind o <>s want then 0 else 1 + consecutiveResults rest want
  end.

Fixpoint leadingUnsuppressedFailureObservations (observations : list ProbeObservation)
    : list ProbeObservation :=
  match observations with
  | [] => []
  | o :: rest =>
      if po_MaintenanceContext o || po_IsBackfilled o then []
      else if po_ResultKind o <>s ProbeResultFailure then []
      else o :: leadingUnsuppressedFailureObservations rest
  end.

(** The number of distinct non-empty keys: a Go [map[string]struct{}] filled in a loop. *)
Definition uniqueNonEmptyCount (key : ProbeObservation -> string)
    (observations : list ProbeObservation) : Z :=
  Z.of_nat (size (fold_left (fun (seen : gset string) o =>
    if key o =s "" then seen else {[key o]} ∪ seen) observations ∅)).

Definition uniqueNonEmptyMonitoringInstanceCount : list ProbeObservation -> Z :=
  uniqueNonEmptyCount po_MonitoringInstanceID.

Definition uniqueNonEmptyProbeItemCount : list ProbeObservation -> Z :=
  uniqueNonEmptyCount po_ProbeItemID.

Definition probeFailureSeverity (failures : list ProbeObservation) : string * bool :=
  match failures with
  | [] => (SeverityNormal, false)
  | first :: _ =>
      let probeKind := po_ProbeKind first in
      let failureCount := Z.of_nat (length failures) in
      if (probeKind =s ProbeKindTCP) && (2 <=? uniqueNonEmptyMonitoringInstanceCount failures)
      then (SeverityCritical, true)
      else if (probeKind =s ProbeKindHTTP) && (2 <=? uniqueNonEmptyProbeItemCount failures)
      then (SeverityCritical, true)
      else
        let severeThreshold := if probeKind =s ProbeKindTCP then 6 else 5 in
        if severeThreshold <=? failureCount then (SeverityCritical, true)
        else if 3 <=? failureCount then (SeverityAlert, true)
        else if 2 <=? failureCount then (SeverityNotice, true)
        else (SeverityNormal, false)
  end.

Definition EvaluateTargetProbeFailure (previous : option IncidentRecord) (targetID : string)
    (recent : list ProbeObservation) : EvaluationResult :=
  let recent := normalizeProbeObservations recent in
  match recent with
  | [] => noop previous
  | latest :: _ =>
      let suppressed := po_MaintenanceContext latest || po_IsBackfilled latest in
      let failureWindow := leadingUnsuppressedFailureObservations recent in
      let failureCount := Z.of_nat (length failureWindow) in
      let successCount := consecutiveResults recent ProbeResultSuccess in
      if match previous with Some _ => true | None => false end && (2 <=? successCount) then
        let result := recoverIfNeeded previous (po_ObservedAt latest) "探针已连续成功恢复"
                        MonitoringEventProvenanceAgentSync (po_IsBackfilled latest) in
        if suppressed then suppressNotification result else result
      else
        let '(severity, active) := probeFailureSeverity failureWindow in
        if negb active then noop previous
        else if suppressed then skip previous
        else
          let summary := po_ProbeKind latest +:+ " 探针连续失败 " +:+ fmt_d failureCount +:+ " 次" in
          let summary := if po_ErrorSummary latest <>s ""
                         then summary +:+ "（" +:+ po_ErrorSummary latest +:+ "）" else summary in
          evaluateTransition previous ObjectTypeTarget targetID IncidentTargetProbeFailure severity
            (po_ObservedAt latest) summary MonitoringEventProvenanceAgentSync
  end.

Definition tlsExpirySeverity (days : Z) : string * bool :=
  if days <=? 3 then (SeverityCritical, true)
  else if days <=? 14 then (SeverityAlert, true)
  else if days <=? 30 then (SeverityNotice, true)
  else (SeverityNormal, false).

Definition EvaluateTargetTLSExpiry (previous : option IncidentRecord) (targetID : string)
    (recent : list ProbeObservation) : EvaluationResult :=
  let recent := normalizeProbeObservations recent in
  match recent with
  | [] => noop previous
  | latest :: _ =>
      let suppressed := po_MaintenanceContext latest || po_IsBackfilled latest in
      match po_TLSExpiryDays latest with
      | None => noop previous
      | Some days =>
          let '(severity, active) := tlsExpirySeverity days in
          if negb active then
            let result := recoverIfNeeded previous (po_ObservedAt latest) "TLS 到期风险解除"
                            MonitoringEventProvenanceAgentSync (po_IsBackfilled latest) in
            if suppressed then suppressNotification result else result
          else if suppressed then skip previous
          else
            let summary := "TLS 证书剩余 " +:+ fmt_d days +:+ " 天" in
            evaluateTransition previous ObjectTypeTarget targetID IncidentTargetTLSExpiry severity
              (po_ObservedAt latest) summary MonitoringEventProvenanceAgentSync
      end
  end.

(** * Theorems *)

(** ** The comparator *)

Lemma recency_less_key o1 b1 r1 o2 b2 r2 :
  recency_less o1 b1 r1 o2 b2 r2 = true <->
  o2 < o1 \/ o1 = o2 /\ (b1 = false /\ b2 = true \/ b1 = b2 /\ r2 < r1).
Proof.
  unfold recency_less, Time_Equal, Time_After.
  destruct (Z.eqb_spec o1 o2), b1, b2, (Z.eqb_spec r1 r2); cbn;
    rewrite ?Z.ltb_lt; intuition (try lia; try congruence).
Qed.

Section RecencyOrder.
Context {A : Type} (observed received : A -> Z) (backfilled : A -> bool).
Definition by_recency (a b : A) : bool :=
  recency_less (observed a) (backfilled a) (received a) (observed b) (backfilled b) (received b).

Lemma by_recency_false a b :
  by_recency a b = false <->
  observed a < observed b \/ observed a = observed b /\
    (backfilled a = true /\ backfilled b = false \/
     backfilled a = backfilled b /\ received a <= received b).
Proof.
  rewrite <- not_true_iff_false. unfold by_recency. rewrite recency_less_key.
  destruct (backfilled a), (backfilled b); intuition (try lia; try congruence).
Qed.

#[export] Instance by_recency_sw : StrictWeak by_recency.
Proof.
  split.
  - intros x y H. apply by_recency_false. unfold by_recency in H.
    rewrite recency_less_key in H.
    destruct (backfilled x), (backfilled y); intuition (try lia; try congruence).
  - intros x y z. rewrite !by_recency_false.
    destruct (backfilled x), (backfilled y), (backfilled z); intuition (try lia; try congruence).
Qed.
End RecencyOrder.

#[export] Instance host_less_sw : StrictWeak host_less.
Proof. exact (by_recency_sw hs_ObservedAt hs_ReceivedAt hs_IsBackfilled). Qed.

#[export] Instance probe_less_sw : StrictWeak probe_less.
Proof. exact (by_recency_sw po_ObservedAt po_ReceivedAt po_IsBackfilled). Qed.

#[export] Instance resource_less_sw : StrictWeak resource_less.
Proof. exact (by_recency_sw rs_ObservedAt rs_ReceivedAt rs_IsBackfilled). Qed.

Lemma normalizeProbeObservations_idemp l :
  normalizeProbeObservations (normalizeProbeObservations l) = normalizeProbeObservations l.
Proof. apply sort_stable_idemp, _. Qed.

Lemma normalizeProbeObservations_head o rest l :
  normalizeProbeObservations l = o :: rest ->
  o ∈ l /\ Forall (fun x => po_ObservedAt x <= po_ObservedAt o) l.
Proof.
  intros H. split.
  - rewrite <- (sort_stable_elem probe_less). fold (normalizeProbeObservations l).
    rewrite H. by left.
  - apply sort_stable_head in H; [|apply _].
    eapply Forall_impl; [exact H|]. intros x Hx. cbn in Hx.
    unfold not_after in Hx. apply by_recency_false in Hx. lia.
Qed.

(** ** Heartbeats *)

Lemma validHeartbeatIncidentPolicy_spec policy :
  validHeartbeatIncidentPolicy policy = true <->
  0 < hp_HeartbeatInterval policy <= 4611686018427387903 /\
  0 < hp_MissingThreshold policy <= 2305843009213693951 /\
  hp_RecoverySuccesses policy = 3 /\
  hp_RecoveryMaxIntervalGap policy = 2 * hp_HeartbeatInterval policy.
Proof.
  unfold validHeartbeatIncidentPolicy, maxHeartbeatIncidentInterval, heartbeatRecoverySuccesses.
  change (Z.quot max_int64 2) with 4611686018427387903.
  change (Z.quot max_int64 4) with 2305843009213693951.
  rewrite !andb_true_iff, !Z.ltb_lt, !Z.leb_le, !Z.eqb_eq. split.
  - intros (((((?&?)&?)&?)&?)&Hg). rewrite wrap64_id in Hg; [lia|].
    unfold in_int64, min_int64, max_int64; lia.
  - intros (?&?&?&?). rewrite wrap64_id; [lia|]. unfold in_int64, min_int64, max_int64; lia.
Qed.

(** How long the center has waited, as [Time.Sub] measures it. *)
Definition heartbeat_elapsed (now last : Z) : Z := Z.min max_int64 (now - last).

Lemma heartbeatMissedIntervals_ge now last interval k :
  0 < interval -> 0 < k ->
  k <= heartbeatMissedIntervals now last interval <-> k * interval <= heartbeat_elapsed now last.
Proof.
  intros Hi Hk. unfold heartbeatMissedIntervals, heartbeat_elapsed, Time_After.
  destruct (Z.leb_spec interval 0); [lia|].
  destruct (Z.ltb_spec last now) as [Hlt|Hge]; cbn [negb orb]; [|nia].
  assert (Time_Sub now last = Z.min max_int64 (now - last)) as Hs
    by (unfold Time_Sub, min_int64, max_int64; lia).
  rewrite Hs. set (d := Z.min max_int64 (now - last)).
  assert (0 < d <= max_int64) by (unfold d, max_int64; lia).
  rewrite Z.quot_div_nonneg by lia.
  assert (d / interval <= max_int64) by (apply Z.div_le_upper_bound; unfold max_int64 in *; nia).
  assert (k <= d / interval <-> k * interval <= d) as Hd.
  { split; intros.
    - pose proof (Z.mul_div_le d interval). nia.
    - apply Z.div_le_lower_bound; lia. }
  destruct (Z.leb_spec (d / interval) 0); [nia|].
  destruct (Z.ltb_spec max_int64 (d / interval)); lia.
Qed.

(** The severity the heartbeat evaluator assigns, over unbounded integers. *)
Definition heartbeat_severity_spec (policy : HeartbeatIncidentPolicy) (elapsed : Z) : string :=
  let unit := hp_MissingThreshold policy * hp_HeartbeatInterval policy in
  if 4 * unit <=? elapsed then SeverityCritical
  else if 2 * unit <=? elapsed then SeverityAlert
  else if unit <=? elapsed then SeverityNotice
  else SeverityNormal.

Lemma heartbeatSeverity_spec policy now last :
  validHeartbeatIncidentPolicy policy = true ->
  let missed := heartbeatMissedIntervals now last (hp_HeartbeatInterval policy) in
  let '(severity, _, active) := heartbeatSeverity missed (hp_MissingThreshold policy) in
  severity = heartbeat_severity_spec policy (heartbeat_elapsed now last) /\
  (active = true <-> hp_MissingThreshold policy <= missed) /\
  (active = true <-> active_severity severity).
Proof.
  intros Hv%validHeartbeatIncidentPolicy_spec. destruct Hv as (Hi & Ht & _ & _).
  cbv zeta. unfold heartbeatSeverity, heartbeat_severity_spec.
  rewrite !wrap64_id by (unfold in_int64, min_int64, max_int64; lia).
  set (missed := heartbeatMissedIntervals _ _ _).
  assert (forall k, 0 < k -> (k * hp_MissingThreshold policy <=? missed) =
    (k * (hp_MissingThreshold policy * hp_HeartbeatInterval policy) <=? heartbeat_elapsed now last)) as Hk.
  { intros k Hk. apply eq_bool_prop_intro. rewrite !Is_true_true, !Z.leb_le.
    unfold missed. rewrite heartbeatMissedIntervals_ge by lia. nia. }
  pose proof (Hk 1 ltac:(lia)) as H1. rewrite !Z.mul_1_l in H1.
  rewrite <- (Hk 4), <- (Hk 2), <- H1 by lia.
  destruct (Z.leb_spec (4 * hp_MissingThreshold policy) missed);
    [repeat split; intros; auto with houfeng; lia|].
  destruct (Z.leb_spec (2 * hp_MissingThreshold policy) missed);
    [repeat split; intros; auto with houfeng; lia|].
  destruct (Z.leb_spec (hp_MissingThreshold policy) missed);
    [repeat split; intros; auto with houfeng; lia|].
  repeat split; intros; try done; try lia.
  match goal with H : active_severity _ |- _ => by destruct H as [|[|]] end.
Qed.

Lemma EvaluateMonitoringInstanceHeartbeatMissing_lifecycle previous id now last policy receipts :
  lifecycle ObjectTypeMonitoringInstance id IncidentMonitoringInstanceHeartbeatMissing true previous
    (EvaluateMonitoringInstanceHeartbeatMissing previous id now last policy receipts).
Proof.
  unfold EvaluateMonitoringInstanceHeartbeatMissing.
  destruct last as [last|]; [|constructor].
  destruct (validHeartbeatIncidentPolicy policy) eqn:Hv; cbn [negb]; [|constructor].
  pose proof (heartbeatSeverity_spec policy now last Hv) as Hs. cbv zeta in Hs.
  destruct (heartbeatSeverity _ _) as [[severity summary] active].
  destruct Hs as (_ & _ & Ha). destruct active; cbn [negb].
  - constructor; [done|by apply Ha|auto with houfeng].
  - destruct previous as [p|]; [|constructor].
    destruct (hasStableHeartbeatRecoveryEvidence _ _ _); cbn [negb];
      constructor; auto with houfeng.
Qed.

(** ** Recovery evidence *)

(** A receipt that counts: its batch is named and it arrived after the incident started. *)
Definition eligible_receipt (startedAt : Z) (r : LiveHeartbeatReceipt) : bool :=
  negb ((strings_TrimSpace (lr_SyncBatchID r) =s "") || negb (Time_After (lr_ReceivedAt r) startedAt)).

Lemma latestByBatch_snoc startedAt receipts r :
  latestByBatch startedAt (receipts ++ [r]) =
  if eligible_receipt startedAt r then
    let b := strings_TrimSpace (lr_SyncBatchID r) in
    let m := latestByBatch startedAt receipts in
    match m !! b with
    | Some current => if Time_After (lr_ReceivedAt r) current then <[b := lr_ReceivedAt r]> m else m
    | None => <[b := lr_ReceivedAt r]> m
    end
  else latestByBatch startedAt receipts.
Proof.
  unfold latestByBatch, eligible_receipt. rewrite fold_left_app. cbn.
  by destruct (_ || _).
Qed.

(** The maximum of a list of instants, the way the loop computes it. *)
Definition max_step (acc : option Z) (t : Z) : option Z :=
  match acc with None => Some t | Some c => if Time_After t c then Some t else acc end.

Lemma fold_max_None l : fold_left max_step l None = None -> l = [].
Proof.
  destruct l as [|y l] using rev_ind; [done|]. rewrite fold_left_app. cbn.
  destruct (fold_left max_step l None); cbn; [|done]. by destruct (Time_After _ _).
Qed.

Lemma fold_max_Some l t :
  fold_left max_step l None = Some t <-> t ∈ l /\ Forall (fun x => x <= t) l.
Proof.
  revert t. induction l as [|x l IH] using rev_ind; intros t.
  { split; [done|]. intros [H _]. by apply not_elem_of_nil in H. }
  rewrite fold_left_app, elem_of_app, list_elem_of_singleton, Forall_app, Forall_singleton. cbn.
  destruct (fold_left max_step l None) as [c|] eqn:Hf; cbn.
  - destruct (proj1 (IH c) eq_refl) as [Hc Hall]. rewrite Forall_forall in Hall |- *.
    unfold Time_After. destruct (Z.ltb_spec c x); split.
    + intros [= <-]. repeat split; auto; [|lia]. intros y Hy. specialize (Hall y Hy). lia.
    + intros [[Ht| ->] [Hm Hx]]; [|done]. specialize (Hall t Ht). lia.
    + intros [= <-]. auto.
    + intros [Ht [Hm Hx]]. f_equal. specialize (Hm c Hc).
      destruct Ht as [Ht| ->]; [specialize (Hall t Ht)|]; lia.
  - apply fold_max_None in Hf as ->.
    split; [intros [= <-]; repeat split; auto; lia|].
    intros [[Ht| ->] _]; [by apply not_elem_of_nil in Ht|done].
Qed.

Definition receipt_of_batch (startedAt : Z) (b : string) (r : LiveHeartbeatReceipt) : bool :=
  eligible_receipt startedAt r && (strings_TrimSpace (lr_SyncBatchID r) =s b).

(** [latestByBatch] maps each batch to the time of its latest eligible receipt. *)
Lemma latestByBatch_lookup startedAt receipts b :
  latestByBatch startedAt receipts !! b =
  fold_left max_step (map lr_ReceivedAt (List.filter (receipt_of_batch startedAt b) receipts)) None.
Proof.
  induction receipts as [|r l IH] using rev_ind; [done|].
  rewrite latestByBatch_snoc, List.filter_app, map_app, fold_left_app, <- IH. cbn.
  unfold receipt_of_batch. destruct (eligible_receipt startedAt r); [|done]. cbn [andb].
  destruct (String.eqb_spec (strings_TrimSpace (lr_SyncBatchID r)) b) as [->|Hne]; cbn.
  - destruct (latestByBatch startedAt l !! b) as [c|] eqn:Hc; cbn; [|by rewrite lookup_insert_eq].
    destruct (Time_After _ _); [by rewrite lookup_insert_eq|done].
  - destruct (latestByBatch startedAt l !! strings_TrimSpace _) as [c|] eqn:Hc;
      [destruct (Time_After _ _)|]; rewrite ?lookup_insert_ne; done.
Qed.

Lemma latestByBatch_Some startedAt receipts b t :
  latestByBatch startedAt receipts !! b = Some t ->
  exists r, r ∈ receipts /\ eligible_receipt startedAt r = true /\
    strings_TrimSpace (lr_SyncBatchID r) = b /\ lr_ReceivedAt r = t.
Proof.
  rewrite latestByBatch_lookup, fold_max_Some. intros [Ht _].
  apply list_elem_of_In, in_map_iff in Ht as (r & <- & Hr).
  apply List.filter_In in Hr as [Hin Hr]. unfold receipt_of_batch in Hr. breflect.
  exists r. rewrite list_elem_of_In. auto.
Qed.

Lemma latestByBatch_max startedAt receipts r :
  r ∈ receipts -> eligible_receipt startedAt r = true ->
  exists t, latestByBatch startedAt receipts !! strings_TrimSpace (lr_SyncBatchID r) = Some t /\
    lr_ReceivedAt r <= t.
Proof.
  intros Hin He. rewrite latestByBatch_lookup.
  set (l := map _ _).
  assert (lr_ReceivedAt r ∈ l) as Hl.
  { apply list_elem_of_In, in_map, List.filter_In. rewrite <- list_elem_of_In.
    unfold receipt_of_batch. by rewrite He, String.eqb_refl. }
  destruct (fold_left max_step l None) as [t|] eqn:Hf.
  - exists t. split; [done|]. apply fold_max_Some in Hf as [_ Hall].
    rewrite Forall_forall in Hall. auto.
  - apply fold_max_None in Hf. rewrite Hf in Hl. by apply not_elem_of_nil in Hl.
Qed.

(** [t] is the time of the latest eligible receipt of batch [b]. *)
Definition batch_latest (startedAt : Z) (receipts : list LiveHeartbeatReceipt) (b : string) (t : Z)
    : Prop :=
  (exists r, r ∈ receipts /\ eligible_receipt startedAt r = true /\
     strings_TrimSpace (lr_SyncBatchID r) = b /\ lr_ReceivedAt r = t) /\
  (forall r, r ∈ receipts -> eligible_receipt startedAt r = true ->
     strings_TrimSpace (lr_SyncBatchID r) = b -> lr_ReceivedAt r <= t).

Lemma latestByBatch_latest startedAt receipts b t :
  latestByBatch startedAt receipts !! b = Some t <-> batch_latest startedAt receipts b t.
Proof.
  split.
  - intros H. split; [by apply latestByBatch_Some|]. intros r Hin He Hb.
    destruct (latestByBatch_max startedAt receipts r Hin He) as (t' & H' & Hle).
    rewrite Hb, H in H'. by simplify_eq.
  - intros [(r & Hin & He & Hb & Ht) Hmax].
    destruct (latestByBatch_max startedAt receipts r Hin He) as (t' & H' & Hle).
    rewrite Hb in H'. rewrite H'. f_equal.
    apply latestByBatch_Some in H' as (r' & Hin' & He' & Hb' & Ht').
    specialize (Hmax r' Hin' He' Hb'). lia.
Qed.

(** Three batches heard from in a row, none later: what recovery must rest on. *)
Definition three_newest_batches (latest : string -> Z -> Prop) (gap : Z) : Prop :=
  exists b1 b2 b3 t1 t2 t3,
    b1 <> b2 /\ b1 <> b3 /\ b2 <> b3 /\
    latest b1 t1 /\ latest b2 t2 /\ latest b3 t3 /\
    t3 <= t2 <= t1 /\ t1 - t2 <= gap /\ t2 - t3 <= gap /\
    (forall b t, latest b t -> b = b1 \/ b = b2 \/ b = b3 \/ t <= t3).

Lemma sort_three_before t1 t2 t3 :
  t3 <= t2 <= t1 -> sort_stable Time_Before [t1; t2; t3] = [t3; t2; t1].
Proof.
  intros H. apply (sorted_perm_unique Time_Before).
  - exact Time_Before_total.
  - apply (sort_stable_sorted Time_Before).
  - repeat constructor; unfold not_after, Time_Before; apply Z.ltb_ge; lia.
  - rewrite sort_stable_perm. apply (Permutation_rev [t1; t2; t3]).
Qed.

Lemma sort_newest_three t1 t2 t3 rest :
  t3 <= t2 <= t1 -> Forall (fun t => t <= t3) rest ->
  sort_stable Time_After (t1 :: t2 :: t3 :: rest) = t1 :: t2 :: t3 :: sort_stable Time_After rest.
Proof.
  intros H Hall. apply (sorted_perm_unique Time_After).
  - exact Time_After_total.
  - apply (sort_stable_sorted Time_After).
  - pose proof (sort_stable_Forall Time_After _ _ Hall) as Hall'.
    assert (forall t, t3 <= t -> Forall (not_after Time_After t) (sort_stable Time_After rest)) as Hn.
    { intros t Ht. eapply Forall_impl; [exact Hall'|]. intros x Hx. cbn in Hx.
      unfold not_after, Time_After. apply Z.ltb_ge. lia. }
    repeat (constructor; [..|repeat (constructor; [unfold not_after, Time_After; apply Z.ltb_ge; lia|]);
      apply Hn; lia]).
    apply (sort_stable_sorted Time_After).
  - by rewrite !sort_stable_perm.
Qed.

Lemma map_three_split (m : gmap string Z) b1 b2 b3 t1 t2 t3 :
  b1 <> b2 -> b1 <> b3 -> b2 <> b3 ->
  m !! b1 = Some t1 -> m !! b2 = Some t2 -> m !! b3 = Some t3 ->
  exists m', map_to_list m ≡ₚ (b1, t1) :: (b2, t2) :: (b3, t3) :: map_to_list m' /\
    forall b t, m' !! b = Some t <-> m !! b = Some t /\ b <> b1 /\ b <> b2 /\ b <> b3.
Proof.
  intros H12 H13 H23 H1 H2 H3. exists (delete b3 (delete b2 (delete b1 m))). split.
  - rewrite <- (map_to_list_delete m b1 t1) by done.
    rewrite <- (map_to_list_delete (delete b1 m) b2 t2) by (by rewrite lookup_delete_ne).
    rewrite <- (map_to_list_delete (delete b2 (delete b1 m)) b3 t3)
      by (by rewrite !lookup_delete_ne).
    done.
  - intros b t. rewrite !lookup_delete_Some. intuition congruence.
Qed.

Lemma gaps_within_three gap t1 t2 t3 :
  0 < gap < max_int64 ->
  gaps_within gap [t3; t2; t1] = true <-> t2 - t3 <= gap /\ t1 - t2 <= gap.
Proof.
  intros Hg. cbn.
  pose proof (Time_Sub_le t2 t3 gap ltac:(unfold in_int64, min_int64; lia) ltac:(lia)).
  pose proof (Time_Sub_le t1 t2 gap ltac:(unfold in_int64, min_int64; lia) ltac:(lia)).
  destruct (Z.ltb_spec gap (Time_Sub t2 t3)), (Z.ltb_spec gap (Time_Sub t1 t2));
    intuition (try lia; try congruence).
Qed.

Lemma newest_three_check (m : gmap string Z) gap :
  0 < gap < max_int64 ->
  (3 <= size m)%nat /\
    gaps_within gap (sort_stable Time_Before
      (take 3 (sort_stable Time_After (map_to_list m).*2))) = true <->
  three_newest_batches (fun b t => m !! b = Some t) gap.
Proof.
  intros Hg. split.
  - intros [Hsize Hgaps].
    destruct (Permutation_map_inv snd (map_to_list m)
      (sort_stable_perm Time_After (map_to_list m).*2)) as (l & Hl & Hp).
    change (sort_stable Time_After (map_to_list m).*2 = l.*2) in Hl.
    pose proof (sort_stable_sorted Time_After (map_to_list m).*2) as Hs. rewrite Hl in Hs, Hgaps.
    pose proof (length_map_to_list m) as Hlen. rewrite Hp in Hlen.
    destruct l as [|[b1 t1] [|[b2 t2] [|[b3 t3] rest]]]; cbn in Hlen; try lia.
    cbn [fmap list_fmap map snd take] in Hs, Hgaps.
    apply StronglySorted_inv in Hs as [Hs H1]. apply StronglySorted_inv in Hs as [Hs H2].
    apply StronglySorted_inv in Hs as [_ H3].
    rewrite Forall_cons in H1, H2. destruct H1 as [H12 _], H2 as [H23 _].
    unfold not_after, Time_After in H12, H23. breflect.
    rewrite sort_three_before in Hgaps by lia. apply gaps_within_three in Hgaps as [G1 G2]; [|done].
    pose proof (NoDup_fst_map_to_list m) as Hnd. rewrite Hp in Hnd. cbn in Hnd.
    apply NoDup_cons in Hnd as [N1 Hnd]. apply NoDup_cons in Hnd as [N2 Hnd].
    apply not_elem_of_cons in N1 as [N12 N1]. apply not_elem_of_cons in N1 as [N13 _].
    apply not_elem_of_cons in N2 as [N23 _].
    assert (forall b t, m !! b = Some t <-> (b, t) ∈ (b1, t1) :: (b2, t2) :: (b3, t3) :: rest) as Hm.
    { intros b t. by rewrite <- elem_of_map_to_list, Hp. }
    exists b1, b2, b3, t1, t2, t3.
    split_and!; try done; try lia; try (apply Hm; rewrite !elem_of_cons; by auto).
    intros b t Hbt%Hm. rewrite !elem_of_cons in Hbt.
    destruct Hbt as [|[|[|Hin]]]; simplify_eq; auto. right; right; right.
    rewrite Forall_fmap, Forall_forall in H3. specialize (H3 _ Hin). cbn in H3.
    unfold not_after, Time_After in H3. breflect. lia.
  - intros (b1 & b2 & b3 & t1 & t2 & t3 & H12 & H13 & H23 & L1 & L2 & L3 & Hord & G1 & G2 & Hmax).
    destruct (map_three_split m b1 b2 b3 t1 t2 t3) as (m' & Hp & Hm'); [done..|].
    split; [rewrite <- length_map_to_list, Hp; cbn; lia|].
    rewrite (sort_stable_perm_eq Time_After Time_After_total _ (t1 :: t2 :: t3 :: (map_to_list m').*2))
      by (by rewrite Hp).
    rewrite sort_newest_three; [|done|].
    + cbn [take]. rewrite sort_three_before by lia. apply gaps_within_three; lia.
    + rewrite Forall_fmap, Forall_forall. intros [b t] Hin%elem_of_map_to_list. cbn.
      apply Hm' in Hin as (Hin & ? & ? & ?). destruct (Hmax b t Hin) as [|[|[|]]]; done.
Qed.

(** Three distinct batches need three receipts. *)
Lemma latestByBatch_size startedAt receipts :
  (size (latestByBatch startedAt receipts) <= length receipts)%nat.
Proof.
  induction receipts as [|r l IH] using rev_ind; [done|].
  rewrite latestByBatch_snoc, length_app. cbn.
  destruct (eligible_receipt startedAt r); [|lia].
  destruct (latestByBatch startedAt l !! _) eqn:E; [destruct (Time_After _ _)|];
    rewrite ?map_size_insert, ?E; cbn; lia.
Qed.

(** An open heartbeat incident has recovery evidence exactly when the three
    most recently heard batches, each dated by its latest receipt after the
    incident started, follow one another within twice the heartbeat interval. *)
Theorem hasStableHeartbeatRecoveryEvidence_iff p policy receipts
    (Hv : validHeartbeatIncidentPolicy policy = true) :
  hasStableHeartbeatRecoveryEvidence (Some p) policy receipts = true <->
  ir_StartedAt p <> 0 /\
  three_newest_batches (batch_latest (ir_StartedAt p) receipts) (2 * hp_HeartbeatInterval policy).
Proof.
  apply validHeartbeatIncidentPolicy_spec in Hv as (Hi & _ & Hs & Hg).
  unfold hasStableHeartbeatRecoveryEvidence, Time_IsZero. rewrite Hs, Hg.
  change (Z.to_nat 3) with 3%nat.
  set (m := latestByBatch (ir_StartedAt p) receipts).
  assert (three_newest_batches (batch_latest (ir_StartedAt p) receipts) (2 * hp_HeartbeatInterval policy)
    <-> three_newest_batches (fun b t => m !! b = Some t) (2 * hp_HeartbeatInterval policy)) as ->.
  { unfold three_newest_batches, m. by setoid_rewrite latestByBatch_latest. }
  rewrite <- newest_three_check by (unfold max_int64; lia).
  pose proof (latestByBatch_size (ir_StartedAt p) receipts) as Hsz. fold m in Hsz.
  destruct (Z.eqb_spec (ir_StartedAt p) 0); cbn [orb]; [intuition congruence|].
  destruct (Z.ltb_spec (Z.of_nat (length receipts)) 3); [intuition (try lia; try congruence)|].
  destruct (Z.ltb_spec (Z.of_nat (size m)) 3); intuition (try lia; try congruence).
Qed.

(** ** What the heartbeat evaluator answers *)

(** C34: under a valid policy the heartbeat evaluator opens or keeps an incident
    exactly when the silence lasts at least the missing threshold, with the
    severity given by one, two or four thresholds of silence and no arithmetic
    overflow; below the threshold it closes an open incident on stable recovery
    evidence and otherwise leaves everything as it was. *)
Theorem heartbeat_incident_exact previous id now last policy receipts
    (Hv : validHeartbeatIncidentPolicy policy = true) :
  let result := EvaluateMonitoringInstanceHeartbeatMissing previous id now (Some last) policy receipts in
  let elapsed := Z.min max_int64 (now - last) in
  if hp_MissingThreshold policy * hp_HeartbeatInterval policy <=? elapsed then
    exists c, er_Current result = Some c /\
      wf_incident ObjectTypeMonitoringInstance id IncidentMonitoringInstanceHeartbeatMissing c /\
      ir_Severity c = heartbeat_severity_spec policy elapsed
  else if hasStableHeartbeatRecoveryEvidence previous policy receipts
  then er_Transition result = TransitionRecovered /\ er_Current result = None
  else result = noop previous.
Proof.
  cbv zeta. fold (heartbeat_elapsed now last).
  pose proof (heartbeatSeverity_spec policy now last Hv) as Hs. cbv zeta in Hs.
  pose proof Hv as (Hi & Ht & _ & _)%validHeartbeatIncidentPolicy_spec.
  pose proof (heartbeatMissedIntervals_ge now last (hp_HeartbeatInterval policy)
                (hp_MissingThreshold policy)) as Hge.
  unfold EvaluateMonitoringInstanceHeartbeatMissing. rewrite Hv. cbn [negb].
  destruct (heartbeatSeverity _ _) as [[severity summary] active].
  destruct Hs as (-> & Ha & Hact).
  destruct (Z.leb_spec (hp_MissingThreshold policy * hp_HeartbeatInterval policy)
              (heartbeat_elapsed now last)).
  - rewrite (proj2 Ha) by (apply Hge; lia). cbn [negb].
    destruct (evaluateTransition_current ObjectTypeMonitoringInstance id
      IncidentMonitoringInstanceHeartbeatMissing previous
      (heartbeat_severity_spec policy (heartbeat_elapsed now last)) now summary
      MonitoringEventProvenanceCenter) as (c & E & Hw & Hsev & _).
    exists c. split; [done|]. split; [|done]. apply Hw, Hact, Ha, Hge; lia.
  - destruct active; [exfalso; assert (hp_MissingThreshold policy <=
      heartbeatMissedIntervals now last (hp_HeartbeatInterval policy)) by (by apply Ha);
      rewrite Hge in *; lia|]. cbn [negb].
    destruct previous as [p|]; [|done].
    by destruct (hasStableHeartbeatRecoveryEvidence _ _ _).
Qed.

(** The staleness flag other components show agrees with the evaluator: a
    heartbeat is stale exactly when evaluating it afresh would open an incident. *)
Theorem HeartbeatIsStale_agrees id now last policy receipts (Hlast : last <> 0) :
  HeartbeatIsStale now last policy = true <->
  er_Transition (EvaluateMonitoringInstanceHeartbeatMissing None id now (Some last) policy receipts)
    = TransitionStarted.
Proof.
  unfold HeartbeatIsStale, EvaluateMonitoringInstanceHeartbeatMissing, Time_IsZero.
  destruct (Z.eqb_spec last 0); [done|]. cbn [orb].
  destruct (validHeartbeatIncidentPolicy policy) eqn:Hv; cbn [negb]; [|by vm_compute].
  pose proof (heartbeatSeverity_spec policy now last Hv) as Hs. cbv zeta in Hs.
  destruct (heartbeatSeverity _ _) as [[severity summary] active].
  destruct Hs as (_ & Ha & _). rewrite Z.leb_le, <- Ha.
  by destruct active.
Qed.

(** ** Threshold severities *)

Lemma fastThresholdSeverity_active value notice alert critical :
  let '(severity, active) := fastThresholdSeverity value notice alert critical in
  active = true <-> active_severity severity.
Proof.
  unfold fastThresholdSeverity. split_matches; split; intros; auto with houfeng; try done.
  match goal with H : active_severity _ |- _ => by destruct H as [|[|]] end.
Qed.

(** With ordered thresholds a higher reading never gets a lower severity. *)
Theorem fastThresholdSeverity_monotone v w notice alert critical
    (Hna : f64_le notice alert = true) (Hac : f64_le alert critical = true)
    (Hvw : f64_le v w = true) :
  severityRank (fastThresholdSeverity v notice alert critical).1 <=
  severityRank (fastThresholdSeverity w notice alert critical).1.
Proof.
  unfold fastThresholdSeverity, f64_ge.
  assert (forall t, f64_le t v = true -> f64_le t w = true) as Hup by eauto using f64_le_trans.
  destruct (f64_le critical v) eqn:E1; [rewrite (Hup _ E1); vm_compute; discriminate|].
  destruct (f64_le critical w); [split_matches; vm_compute; discriminate|].
  destruct (f64_le alert v) eqn:E2; [rewrite (Hup _ E2); vm_compute; discriminate|].
  destruct (f64_le alert w); [split_matches; vm_compute; discriminate|].
  destruct (f64_le notice v) eqn:E3; [rewrite (Hup _ E3); vm_compute; discriminate|].
  split_matches; vm_compute; discriminate.
Qed.

(** ** Disk and inode pressure *)

Section FastPressure.
(** Both evaluators wrap an inner one the same way: evidence under maintenance
    or delivered late can only close an incident, without a notification. *)
Context (id class : string) (inner : option IncidentRecord -> HostSample -> EvaluationResult).
Hypothesis inner_lifecycle : forall previous sample,
  lifecycle ObjectTypeMonitoringInstance id class true previous (inner previous sample).
Hypothesis inner_recover : forall previous sample,
  er_Transition (inner previous sample) = TransitionRecovered ->
  exists when summary isBackfilled, inner previous sample =
    recoverIfNeeded previous when summary MonitoringEventProvenanceAgentSync isBackfilled.

Lemma suppressed_lifecycle previous sample :
  lifecycle ObjectTypeMonitoringInstance id class
    (negb (hs_MaintenanceContext sample || hs_IsBackfilled sample)) previous
    (if hs_MaintenanceContext sample || hs_IsBackfilled sample then
       let result := inner previous sample in
       if er_Transition result =s TransitionRecovered then suppressNotification result
       else skip previous
     else inner previous sample).
Proof using inner_lifecycle inner_recover.
  destruct (hs_MaintenanceContext sample || hs_IsBackfilled sample); cbn [negb]; [|auto].
  cbv zeta. destruct (er_Transition (inner previous sample) =s TransitionRecovered) eqn:E;
    [|constructor]. breflect.
  destruct (inner_recover previous sample E) as (when & summary & bf & ->).
  apply lc_recover_quiet. auto with houfeng.
Qed.
End FastPressure.

Lemma evaluateTransition_not_recovered previous objectType objectID class severity when summary prov :
  er_Transition (evaluateTransition previous objectType objectID class severity when summary prov)
    <> TransitionRecovered.
Proof.
  unfold evaluateTransition. destruct previous; [|by vm_compute].
  by destruct (severityRank _ <? severityRank _); vm_compute.
Qed.

Ltac solve_fast_pressure eval :=
  intros; unfold eval in *;
  match goal with
  | |- context [fastThresholdSeverity ?v ?n ?a ?c] =>
      pose proof (fastThresholdSeverity_active v n a c);
      destruct (fastThresholdSeverity v n a c) as [? []]; cbn [negb] in *
  end.

Lemma evaluateMonitoringInstanceDiskPressure_lifecycle previous id sample thresholds :
  lifecycle ObjectTypeMonitoringInstance id IncidentMonitoringInstanceDiskPressure true previous
    (evaluateMonitoringInstanceDiskPressure previous id sample thresholds).
Proof.
  solve_fast_pressure evaluateMonitoringInstanceDiskPressure; constructor;
    first [solve [auto with houfeng] | match goal with H : _ <-> active_severity _ |- _ => by apply H end].
Qed.

Lemma evaluateMonitoringInstanceInodePressure_lifecycle previous id sample thresholds :
  lifecycle ObjectTypeMonitoringInstance id IncidentMonitoringInstanceInodePressure true previous
    (evaluateMonitoringInstanceInodePressure previous id sample thresholds).
Proof.
  solve_fast_pressure evaluateMonitoringInstanceInodePressure; constructor;
    first [solve [auto with houfeng] | match goal with H : _ <-> active_severity _ |- _ => by apply H end].
Qed.

Definition sample_live (sample : option HostSample) : bool :=
  match sample with
  | None => true
  | Some s => negb (hs_MaintenanceContext s || hs_IsBackfilled s)
  end.

Lemma EvaluateMonitoringInstanceDiskPressure_lifecycle previous id sample thresholds :
  lifecycle ObjectTypeMonitoringInstance id IncidentMonitoringInstanceDiskPressure
    (sample_live sample) previous
    (EvaluateMonitoringInstanceDiskPressure previous id sample thresholds).
Proof.
  destruct sample as [s|]; [|constructor]. cbn [sample_live EvaluateMonitoringInstanceDiskPressure].
  apply (suppressed_lifecycle id IncidentMonitoringInstanceDiskPressure
    (fun p s => evaluateMonitoringInstanceDiskPressure p id s thresholds)).
  - intros. apply evaluateMonitoringInstanceDiskPressure_lifecycle.
  - clear. intros previous s. solve_fast_pressure evaluateMonitoringInstanceDiskPressure; [|eauto].
    exfalso. by eapply evaluateTransition_not_recovered.
Qed.

Lemma EvaluateMonitoringInstanceInodePressure_lifecycle previous id sample thresholds :
  lifecycle ObjectTypeMonitoringInstance id IncidentMonitoringInstanceInodePressure
    (sample_live sample) previous
    (EvaluateMonitoringInstanceInodePressure previous id sample thresholds).
Proof.
  destruct sample as [s|]; [|constructor]. cbn [sample_live EvaluateMonitoringInstanceInodePressure].
  apply (suppressed_lifecycle id IncidentMonitoringInstanceInodePressure
    (fun p s => evaluateMonitoringInstanceInodePressure p id s thresholds)).
  - intros. apply evaluateMonitoringInstanceInodePressure_lifecycle.
  - clear. intros previous s. solve_fast_pressure evaluateMonitoringInstanceInodePressure; [|eauto].
    exfalso. by eapply evaluateTransition_not_recovered.
Qed.

(** ** Probe series *)

(** Whether the newest observation of a series may open an incident. *)
Definition series_live (observations : list ProbeObservation) : bool :=
  match normalizeProbeObservations observations with
  | [] => true
  | o :: _ => negb (po_MaintenanceContext o || po_IsBackfilled o)
  end.

Lemma probeFailureSeverity_active failures :
  (probeFailureSeverity failures).2 = true <-> active_severity (probeFailureSeverity failures).1.
Proof.
  unfold probeFailureSeverity. destruct failures as [|o l].
  { split; [done|]. by intros [|[|]]. }
  split_matches; cbn; split; intros; auto with houfeng; try done;
  match goal with H : active_severity _ |- _ => by destruct H as [|[|]] end.
Qed.

Lemma tlsExpirySeverity_active days :
  (tlsExpirySeverity days).2 = true <-> active_severity (tlsExpirySeverity days).1.
Proof.
  unfold tlsExpirySeverity. split_matches; cbn; split; intros; auto with houfeng; try done.
  match goal with H : active_severity _ |- _ => by destruct H as [|[|]] end.
Qed.

Lemma EvaluateTargetProbeFailure_lifecycle previous targetID recent :
  lifecycle ObjectTypeTarget targetID IncidentTargetProbeFailure (series_live recent) previous
    (EvaluateTargetProbeFailure previous targetID recent).
Proof.
  unfold EvaluateTargetProbeFailure, series_live. cbv zeta.
  destruct (normalizeProbeObservations recent) as [|latest rest]; [constructor|].
  set (window := leadingUnsuppressedFailureObservations (latest :: rest)).
  destruct (_ && (2 <=? _)).
  { destruct (po_MaintenanceContext latest || po_IsBackfilled latest); constructor; auto with houfeng. }
  pose proof (probeFailureSeverity_active window) as Ha.
  destruct (probeFailureSeverity window) as [severity active]. cbn [fst snd] in Ha.
  destruct active; cbn [negb]; [|constructor].
  destruct (po_MaintenanceContext latest || po_IsBackfilled latest); cbn [negb]; [constructor|].
  constructor; [done|by apply Ha|auto with houfeng].
Qed.

Lemma EvaluateTargetTLSExpiry_lifecycle previous targetID recent :
  lifecycle ObjectTypeTarget targetID IncidentTargetTLSExpiry (series_live recent) previous
    (EvaluateTargetTLSExpiry previous targetID recent).
Proof.
  unfold EvaluateTargetTLSExpiry, series_live. cbv zeta.
  destruct (normalizeProbeObservations recent) as [|latest rest]; [constructor|].
  destruct (po_TLSExpiryDays latest) as [days|]; [|constructor].
  pose proof (tlsExpirySeverity_active days) as Ha.
  destruct (tlsExpirySeverity days) as [severity active]. cbn [fst snd] in Ha.
  destruct active; cbn [negb].
  - destruct (po_MaintenanceContext latest || po_IsBackfilled latest); cbn [negb]; [constructor|].
    constructor; [done|by apply Ha|auto with houfeng].
  - destruct (po_MaintenanceContext latest || po_IsBackfilled latest); constructor; auto with houfeng.
Qed.

(** Evaluations of stored evidence an evaluator may be given: one host sample for
    the disk and inode classes, one probe series for the target classes. *)
Inductive sampled_evaluation : option IncidentRecord -> bool -> EvaluationResult -> Prop :=
| se_disk previous id sample thresholds :
    sampled_evaluation previous (sample_live sample)
      (EvaluateMonitoringInstanceDiskPressure previous id sample thresholds)
| se_inode previous id sample thresholds :
    sampled_evaluation previous (sample_live sample)
      (EvaluateMonitoringInstanceInodePressure previous id sample thresholds)
| se_probe previous id recent :
    sampled_evaluation previous (series_live recent) (EvaluateTargetProbeFailure previous id recent)
| se_tls previous id recent :
    sampled_evaluation previous (series_live recent) (EvaluateTargetTLSExpiry previous id recent).

(** Evidence collected under maintenance or delivered late never opens or
    raises a disk, inode, probe or TLS incident, never records anything but a
    recovery, and never asks for a notification to be sent. *)
Theorem suppressed_evidence_is_silent previous result
    (H : sampled_evaluation previous false result) :
  (er_Current result = previous \/ er_Current result = None) /\
  (er_Event result = None \/ er_Transition result = TransitionRecovered) /\
  (forall n, er_Notification result = Some n -> nd_ShouldSend n = false).
Proof.
  assert (exists ot id class, lifecycle ot id class false previous result) as (ot & id & class & HL);
    [|exact (lifecycle_not_live ot id class previous result HL)].
  inversion H as [p id s t Hp Hl|p id s t Hp Hl|p id l Hp Hl|p id l Hp Hl]; subst;
    eauto using EvaluateMonitoringInstanceDiskPressure_lifecycle,
      EvaluateMonitoringInstanceInodePressure_lifecycle, EvaluateTargetProbeFailure_lifecycle,
      EvaluateTargetTLSExpiry_lifecycle.
Qed.

(** ** Probe failures *)

Lemma uniqueNonEmptyCount_app key l1 l2 :
  uniqueNonEmptyCount key l1 <= uniqueNonEmptyCount key (l1 ++ l2).
Proof.
  unfold uniqueNonEmptyCount. rewrite fold_left_app. apply Nat2Z.inj_le, subseteq_size.
  generalize (fold_left (fun (seen : gset string) o =>
    if key o =s "" then seen else {[key o]} ∪ seen) l1 ∅).
  induction l2 as [|o l IH]; intros s; cbn; [done|].
  etransitivity; [|apply IH]. destruct (key o =s ""); set_solver.
Qed.

(** A failure window never looks less severe when older failures of the
    same run are added to it. *)
Theorem probeFailureSeverity_monotone window older :
  severityRank (probeFailureSeverity window).1 <= severityRank (probeFailureSeverity (window ++ older)).1.
Proof.
  destruct window as [|o l].
  { cbn [probeFailureSeverity fst]. change (severityRank SeverityNormal) with 0.
    unfold severityRank. split_matches; lia. }
  unfold probeFailureSeverity. cbn [app].
  pose proof (uniqueNonEmptyCount_app po_MonitoringInstanceID (o :: l) older) as Hm.
  pose proof (uniqueNonEmptyCount_app po_ProbeItemID (o :: l) older) as Hp.
  fold uniqueNonEmptyMonitoringInstanceCount uniqueNonEmptyProbeItemCount in Hm, Hp. cbn [app] in Hm, Hp.
  assert (Z.of_nat (length (o :: l)) <= Z.of_nat (length (o :: (l ++ older)))) as Hlen
    by (cbn; rewrite length_app; lia).
  revert Hm Hp Hlen.
  generalize (uniqueNonEmptyMonitoringInstanceCount (o :: l))
    (uniqueNonEmptyMonitoringInstanceCount (o :: l ++ older))
    (uniqueNonEmptyProbeItemCount (o :: l)) (uniqueNonEmptyProbeItemCount (o :: l ++ older))
    (Z.of_nat (length (o :: l))) (Z.of_nat (length (o :: (l ++ older)))).
  intros m1 m2 p1 p2 n1 n2 Hm Hp Hlen.
  destruct (po_ProbeKind o =s ProbeKindTCP), (po_ProbeKind o =s ProbeKindHTTP); cbn [andb];
    repeat match goal with |- context [?a <=? ?b] => destruct (Z.leb_spec a b); try lia end;
    vm_compute; discriminate.
Qed.

Lemma probeFailureSeverity_single o : probeFailureSeverity [o] = (SeverityNormal, false).
Proof.
  assert (forall key, uniqueNonEmptyCount key [o] <= 1) as Hu.
  { intros key. unfold uniqueNonEmptyCount. cbn. destruct (key o =s "");
      rewrite ?union_empty_r_L, ?size_empty, ?size_singleton; lia. }
  unfold probeFailureSeverity, uniqueNonEmptyMonitoringInstanceCount, uniqueNonEmptyProbeItemCount.
  pose proof (Hu po_MonitoringInstanceID). pose proof (Hu po_ProbeItemID).
  destruct (Z.leb_spec 2 (uniqueNonEmptyCount po_MonitoringInstanceID [o])); [lia|].
  destruct (Z.leb_spec 2 (uniqueNonEmptyCount po_ProbeItemID [o])); [lia|].
  rewrite !andb_false_r. by destruct (po_ProbeKind o =s ProbeKindTCP).
Qed.

Lemma consecutiveResults_nonneg l want : 0 <= consecutiveResults l want.
Proof. induction l as [|o l IH]; cbn; [lia|]. destruct (po_ResultKind o <>s want); lia. Qed.

(** A target probe incident opens only when the two newest observations of
    the series are live failures, and an open one closes as soon as the two
    newest observations are successes. *)
Theorem probe_incident_needs_two_failures targetID recent o1 o2 rest
    (Hrecent : normalizeProbeObservations recent = o1 :: o2 :: rest) :
  (forall c, er_Current (EvaluateTargetProbeFailure None targetID recent) = Some c ->
     Forall (fun o => po_ResultKind o = ProbeResultFailure /\
       po_MaintenanceContext o = false /\ po_IsBackfilled o = false) [o1; o2]) /\
  (forall p, po_ResultKind o1 = ProbeResultSuccess -> po_ResultKind o2 = ProbeResultSuccess ->
     er_Transition (EvaluateTargetProbeFailure (Some p) targetID recent) = TransitionRecovered).
Proof.
  unfold EvaluateTargetProbeFailure. rewrite Hrecent. split.
  - intros c. cbn [leadingUnsuppressedFailureObservations andb].
    destruct (po_MaintenanceContext o1 || po_IsBackfilled o1) eqn:L1; cbn [negb]; [done|].
    destruct (String.eqb_spec (po_ResultKind o1) ProbeResultFailure) as [E1|]; cbn [negb]; [|done].
    destruct (po_MaintenanceContext o2 || po_IsBackfilled o2) eqn:L2; cbn [negb];
      [by rewrite probeFailureSeverity_single|].
    destruct (String.eqb_spec (po_ResultKind o2) ProbeResultFailure) as [E2|]; cbn [negb];
      [|by rewrite probeFailureSeverity_single].
    intros _. breflect. repeat constructor; auto.
  - intros p E1 E2. cbn [consecutiveResults]. rewrite E1, E2.
    replace (ProbeResultSuccess <>s ProbeResultSuccess) with false by (by vm_compute). cbn [andb].
    pose proof (consecutiveResults_nonneg rest ProbeResultSuccess).
    destruct (Z.leb_spec 2 (1 + (1 + consecutiveResults rest ProbeResultSuccess))); [|lia].
    by destruct (_ || _).
Qed.

(** * Concrete inputs *)

(** An instant of November 2023, in nanoseconds. *)
Definition fixture_now : Z := 1700000000 * Second.

Definition fixture_policy : HeartbeatIncidentPolicy := {|
  hp_HeartbeatInterval := 30 * Second; hp_MissingThreshold := 3;
  hp_RecoverySuccesses := 3; hp_RecoveryMaxIntervalGap := 60 * Second |}.

Definition fixture_incident (objectType objectID class severity : string) : IncidentRecord := {|
  ir_IncidentID := incidentID objectType objectID class; ir_ObjectType := objectType;
  ir_ObjectID := objectID; ir_IncidentClass := class; ir_Severity := severity;
  ir_StartedAt := fixture_now - Hour; ir_LastEvaluatedAt := fixture_now - Hour;
  ir_Status := IncidentStatusActive; ir_SourceSummary := "fixture" |}.

Definition fixture_receipt (batch : string) (age : Z) : LiveHeartbeatReceipt :=
  {| lr_SyncBatchID := batch; lr_ReceivedAt := fixture_now - age |}.

(** A host sample [age] old with the given disk usage. *)
Definition fixture_host (age disk : Z) (maintenance : bool) : HostSample := {|
  hs_MonitoringInstanceID := "mi-1"; hs_ObservedAt := fixture_now - age; hs_ReceivedAt := fixture_now - age;
  hs_AgentVersion := "v1"; hs_Fingerprint := "fp"; hs_CPUUsagePct := f64_of_Z 10;
  hs_CPURatesValid := Some true; hs_Load1 := f64_zero; hs_Load5 := f64_zero; hs_Load15 := f64_zero;
  hs_MemUsedPct := f64_of_Z 20; hs_MemAvailableBytes := 4096; hs_MemTotalBytes := 8192;
  hs_SwapUsedPct := f64_zero; hs_DiskUsedPct := f64_of_Z disk; hs_DiskTotalBytes := 100;
  hs_InodeUsedPct := f64_of_Z 5; hs_NetInBytesPerSec := 0; hs_NetOutBytesPerSec := 0;
  hs_NetworkRatesValid := None; hs_CPUIOWaitPct := f64_zero; hs_CPUStealPct := f64_zero;
  hs_DiskReadBytesPerSec := 0; hs_DiskWriteBytesPerSec := 0; hs_DiskBusyPct := f64_zero;
  hs_UptimeSeconds := 60; hs_MaintenanceContext := maintenance; hs_IsBackfilled := false;
  hs_SyncBatchID := "b1"; hs_Containers := [] |}.

(** A TCP observation [age] old of one probe item by one instance. *)
Definition fixture_probe (instance item result : string) (age : Z) : ProbeObservation := {|
  po_MonitoringInstanceID := instance; po_TargetID := "t-1"; po_ProbeItemID := item;
  po_ProbeKind := ProbeKindTCP; po_ObservedAt := fixture_now - age; po_ReceivedAt := fixture_now - age;
  po_AgentVersion := "v1"; po_Fingerprint := "fp"; po_ResultKind := result; po_LatencyMS := Some 40;
  po_HTTPStatus := None; po_TLSExpiryDays := None; po_ErrorCode := ""; po_ErrorSummary := "";
  po_MaintenanceContext := false; po_IsBackfilled := false; po_SyncBatchID := "b1" |}.

Definition fixture_heartbeat_incident : IncidentRecord :=
  fixture_incident ObjectTypeMonitoringInstance "mi-1" IncidentMonitoringInstanceHeartbeatMissing SeverityAlert.

(** Three batches heard 50 seconds apart close the incident: the evidence exists in
    the sense of the specification. *)
Lemma hasStableHeartbeatRecoveryEvidence_iff_witness :
  three_newest_batches
    (batch_latest (ir_StartedAt fixture_heartbeat_incident)
       [fixture_receipt "a" (110 * Second); fixture_receipt "b" (60 * Second); fixture_receipt "c" (10 * Second)])
    (60 * Second).
Proof.
  exact (proj2 (proj1 (hasStableHeartbeatRecoveryEvidence_iff fixture_heartbeat_incident fixture_policy
    [fixture_receipt "a" (110 * Second); fixture_receipt "b" (60 * Second); fixture_receipt "c" (10 * Second)]
    (eq_refl true)) (eq_refl true))).
Defined.

(** Three minutes of silence are six intervals: an alert. *)
Lemma heartbeat_incident_exact_witness :
  exists c, er_Current (EvaluateMonitoringInstanceHeartbeatMissing None "mi-1" fixture_now
      (Some (fixture_now - 3 * Minute)) fixture_policy []) = Some c /\
    wf_incident ObjectTypeMonitoringInstance "mi-1" IncidentMonitoringInstanceHeartbeatMissing c /\
    ir_Severity c = SeverityAlert.
Proof.
  exact (heartbeat_incident_exact None "mi-1" fixture_now (fixture_now - 3 * Minute) fixture_policy []
    (eq_refl true)).
Defined.

Lemma HeartbeatIsStale_agrees_witness :
  er_Transition (EvaluateMonitoringInstanceHeartbeatMissing None "mi-1" fixture_now
    (Some (fixture_now - 3 * Minute)) fixture_policy []) = TransitionStarted.
Proof.
  apply (HeartbeatIsStale_agrees "mi-1" fixture_now (fixture_now - 3 * Minute) fixture_policy []);
    vm_compute; congruence.
Defined.

Lemma fastThresholdSeverity_monotone_witness :
  severityRank (fastThresholdSeverity (f64_of_Z 82) (f64_of_Z 80) (f64_of_Z 90) (f64_of_Z 95)).1 <=
  severityRank (fastThresholdSeverity (f64_of_Z 96) (f64_of_Z 80) (f64_of_Z 90) (f64_of_Z 95)).1.
Proof. by apply fastThresholdSeverity_monotone; vm_compute. Defined.

Lemma suppressed_evidence_is_silent_witness :
  let result := EvaluateMonitoringInstanceDiskPressure None "mi-1" (Some (fixture_host Minute 99 true))
                  DefaultMetricThresholds in
  er_Current result = None /\ (er_Event result = None \/ er_Transition result = TransitionRecovered).
Proof.
  intros result.
  destruct (suppressed_evidence_is_silent None result (se_disk None "mi-1" (Some (fixture_host Minute 99 true)) _))
    as ([H|H] & He & _); by split.
Defined.

(** Two failures in a row open an incident; the theorem says both were live. *)
Lemma probe_incident_needs_two_failures_witness :
  po_MaintenanceContext (fixture_probe "mi-1" "p-1" ProbeResultFailure Second) = false /\
  exists c, er_Current (EvaluateTargetProbeFailure None "t-1"
    [fixture_probe "mi-1" "p-1" ProbeResultFailure Minute;
     fixture_probe "mi-1" "p-1" ProbeResultFailure Second]) = Some c.
Proof.
  destruct (probe_incident_needs_two_failures "t-1"
    [fixture_probe "mi-1" "p-1" ProbeResultFailure Minute;
     fixture_probe "mi-1" "p-1" ProbeResultFailure Second]
    (fixture_probe "mi-1" "p-1" ProbeResultFailure Second)
    (fixture_probe "mi-1" "p-1" ProbeResultFailure Minute) [] (eq_refl _)) as [Hlive _].
  assert (exists c, er_Current (EvaluateTargetProbeFailure None "t-1"
    [fixture_probe "mi-1" "p-1" ProbeResultFailure Minute;
     fixture_probe "mi-1" "p-1" ProbeResultFailure Second]) = Some c) as [c Hc]
    by (eexists; vm_compute; reflexivity).
  split; [|by exists c]. specialize (Hlive c Hc). by apply Forall_inv in Hlive as (_ & ? & _).
Defined.
