(* ===== verification/ResourcePressure.v ===== *)
(** Resource pressure (src/internal/center/incidents/evaluator.go): the 15 and 30
    minute evidence windows over host samples, their statistics, the ordered
    list of pressure candidates, and [EvaluateMonitoringInstanceResourcePressure]. *)
From stdpp Require Import base list sorting strings.
From Stdlib Require Import ZArith Lia Permutation.
From S2P Require Import Prelude GoRuntime AgentApi IncidentTypes Transition Evaluator.

Local Open Scope Z_scope.

Local Abbreviation sample := MonitoringInstanceResourceSample.

(** * Policy *)

Definition validResourcePressurePolicy (policy : ResourcePressurePolicy) : bool :=
  if Time_IsZero (rp_EvaluatedAt policy) then false
  else existsb (Z.eqb (rp_SampleInterval policy))
         [5 * Second; Minute; 5 * Minute; 15 * Minute; 6 * Hour].

Definition sample_suppressed (s : sample) : bool := rs_MaintenanceContext s || rs_IsBackfilled s.

(** The loop stops at the first sample that is not as recent as the first one. *)
Fixpoint latest_all_suppressed (latestObservedAt : Z) (samples : list sample) : bool :=
  match samples with
  | [] => true
  | s :: rest =>
      if negb (Time_Equal (rs_ObservedAt s) latestObservedAt) then true
      else if negb (rs_MaintenanceContext s) && negb (rs_IsBackfilled s) then false
      else latest_all_suppressed latestObservedAt rest
  end.

Definition resourcePressureLatestSuppressed (samples : list sample) : bool :=
  match samples with
  | [] => false
  | s :: _ => latest_all_suppressed (rs_ObservedAt s) samples
  end.

(** * Groups of samples with the same observation time *)

(** The loops [for index := 0; index < len(samples); index = end] walk over the
    maximal runs of samples with one observation time. *)
Fixpoint time_groups (samples : list sample) : list (list sample) :=
  match samples with
  | [] => []
  | s :: rest =>
      match time_groups rest with
      | (t :: g) :: gs =>
          if Time_Equal (rs_ObservedAt t) (rs_ObservedAt s) then (s :: t :: g) :: gs
          else [s] :: (t :: g) :: gs
      | gs => [s] :: gs
      end
  end.

(** The [include] result of [resourcePressureEffectiveGroup] on one run. *)
Definition resourcePressureEffectiveGroup (allowSuppressed : bool) (group : list sample) : bool :=
  if allowSuppressed then true
  else existsb (fun s => negb (rs_MaintenanceContext s) && negb (rs_IsBackfilled s)) group.

Definition resourcePressureDistinctEffectiveTimes (samples : list sample) (allowSuppressed : bool) : Z :=
  Z.of_nat (length (List.filter (resourcePressureEffectiveGroup allowSuppressed) (time_groups samples))).

(** * Coverage *)

Record coverage_state := {
  cov_cpuOK : bool;
  cov_distinct : Z;
  cov_previous : option Z;
  cov_oldest : Z;
}.

Definition group_time (group : list sample) : Z :=
  match group with [] => Time_zero | s :: _ => rs_ObservedAt s end.

Definition sample_cpu_usable (s : sample) : bool :=
  CPURatesUsable (rs_CPURatesValid s) (rs_CPUUsagePct s) (rs_CPUIOWaitPct s) (rs_CPUStealPct s).

Definition group_cpu_ok (allowSuppressed : bool) (group : list sample) (cpuOK : bool) : bool :=
  fold_left (fun ok s =>
    if negb allowSuppressed && sample_suppressed s then ok
    else if negb (sample_cpu_usable s) then false else ok) group cpuOK.

Fixpoint coverage_loop (allowSuppressed : bool) (gapLimit : Z) (st : coverage_state)
    (groups : list (list sample)) : bool * bool * Z * Z :=
  match groups with
  | [] => (true, cov_cpuOK st, cov_distinct st, cov_oldest st)
  | group :: rest =>
      if negb (resourcePressureEffectiveGroup allowSuppressed group)
      then (false, false, cov_distinct st, cov_oldest st)
      else
        let observedAt := group_time group in
        if match cov_previous st with
           | Some previousObservedAt => gapLimit <? Time_Sub previousObservedAt observedAt
           | None => false
           end
        then (false, false, cov_distinct st, cov_oldest st)
        else coverage_loop allowSuppressed gapLimit
               {| cov_cpuOK := group_cpu_ok allowSuppressed group (cov_cpuOK st);
                  cov_distinct := cov_distinct st + 1;
                  cov_previous := Some observedAt;
                  cov_oldest := observedAt |} rest
  end.

Definition resourcePressureCoverage (samples boundarySamples : list sample) (allowSuppressed : bool)
    (gapLimit : Z) : bool * bool * Z * Z :=
  match samples with
  | [] => (false, false, 0, Time_zero)
  | _ => coverage_loop allowSuppressed gapLimit
           {| cov_cpuOK := true; cov_distinct := 0; cov_previous := None; cov_oldest := Time_zero |}
           (time_groups samples ++ time_groups boundarySamples)
  end.

(** * Windows *)

Record resourcePressureWindow := {
  w_samples : list sample;
  w_boundarySamples : list sample;
  w_covered : bool;
  w_cpuUsable : bool;
  w_singleton : bool;
  w_allowSuppressed : bool;
}.

Definition zeroWindow : resourcePressureWindow :=
  {| w_samples := []; w_boundarySamples := []; w_covered := false; w_cpuUsable := false;
     w_singleton := false; w_allowSuppressed := false |}.

Record window_bounds := {
  wb_windowStart : Z; wb_windowEnd : Z; wb_boundaryStart : Z; wb_boundaryEnd : Z; wb_exact : bool;
}.

(** The number of leading samples observed at [t]. *)
Fixpoint leading_at (t : Z) (samples : list sample) : Z :=
  match samples with
  | s :: rest => if Time_Equal (rs_ObservedAt s) t then 1 + leading_at t rest else 0
  | [] => 0
  end.

Fixpoint window_scan (reference leftBoundary : Z) (index : Z) (b : window_bounds)
    (samples : list sample) : window_bounds :=
  match samples with
  | [] => b
  | s :: rest =>
      if Time_After (rs_ObservedAt s) reference then
        window_scan reference leftBoundary (index + 1) b rest
      else if Time_Before (rs_ObservedAt s) leftBoundary then
        if 0 <=? wb_windowStart b then
          {| wb_windowStart := wb_windowStart b; wb_windowEnd := wb_windowEnd b;
             wb_boundaryStart := index; wb_boundaryEnd := index + 1 + leading_at (rs_ObservedAt s) rest;
             wb_exact := wb_exact b |}
        else b
      else window_scan reference leftBoundary (index + 1)
        {| wb_windowStart := if wb_windowStart b <? 0 then index else wb_windowStart b;
           wb_windowEnd := index + 1;
           wb_boundaryStart := wb_boundaryStart b; wb_boundaryEnd := wb_boundaryEnd b;
           wb_exact := if Time_Equal (rs_ObservedAt s) leftBoundary then true else wb_exact b |} rest
  end.

(** [l[from:to]]. *)
Definition slice {A} (l : list A) (from to : Z) : list A :=
  take (Z.to_nat (to - from)) (drop (Z.to_nat from) l).

Definition buildResourcePressureWindowSorted (samples : list sample) (reference width : Z)
    (policy : ResourcePressurePolicy) (allowSuppressed : bool) : resourcePressureWindow :=
  let window samples boundary covered cpuUsable singleton :=
    {| w_samples := samples; w_boundarySamples := boundary; w_covered := covered;
       w_cpuUsable := cpuUsable; w_singleton := singleton; w_allowSuppressed := allowSuppressed |} in
  if (width <=? 0) || negb (validResourcePressurePolicy policy) then window [] [] false false false
  else
    let leftBoundary := Time_Add reference (- width) in
    let b := window_scan reference leftBoundary 0
               {| wb_windowStart := -1; wb_windowEnd := -1; wb_boundaryStart := -1;
                  wb_boundaryEnd := -1; wb_exact := false |} samples in
    if wb_windowStart b <? 0 then window [] [] false false false
    else
      let ws := slice samples (wb_windowStart b) (wb_windowEnd b) in
      let bs := if negb (wb_exact b) && (0 <=? wb_boundaryStart b)
                then slice samples (wb_boundaryStart b) (wb_boundaryEnd b) else [] in
      if (rp_SampleInterval policy <=? 0) || (width <? rp_SampleInterval policy)
      then window ws bs false false false
      else
        let gapLimit := 2 * rp_SampleInterval policy + 10 * Millisecond in
        let age := Time_Sub (rp_EvaluatedAt policy) reference in
        if (age <? 0) || (gapLimit <? age) then window ws bs false false false
        else
          let distinctWindowTimes := resourcePressureDistinctEffectiveTimes ws allowSuppressed in
          let singleton := distinctWindowTimes =? 1 in
          if distinctWindowTimes =? 0 then window ws bs false false singleton
          else
            match resourcePressureCoverage ws bs allowSuppressed gapLimit with
            | (coverageOK, cpuOK, distinctTimes, oldest) =>
                if negb coverageOK || (distinctTimes <? 2) || Time_After oldest leftBoundary
                then window ws bs false false singleton
                else window ws bs true cpuOK singleton
            end.

Definition buildResourcePressureWindow (samples : list sample) (reference width : Z)
    (policy : ResourcePressurePolicy) (allowSuppressed : bool) : resourcePressureWindow :=
  buildResourcePressureWindowSorted (normalizeMonitoringInstanceResourceSamples samples)
    reference width policy allowSuppressed.

(** * Statistics *)

Record resourcePressureWindowStats := {
  st_count : Z;
  st_cpuUsable : bool;
  st_cpuUsageTotal : float64;
  st_loadTotal : float64;
  st_memTotal : float64;
  st_swapTotal : float64;
  st_iowaitTotal : float64;
  st_stealTotal : float64;
  st_memAvailableMin : float64;
}.

Definition zeroStats : resourcePressureWindowStats :=
  {| st_count := 0; st_cpuUsable := false; st_cpuUsageTotal := f64_zero; st_loadTotal := f64_zero;
     st_memTotal := f64_zero; st_swapTotal := f64_zero; st_iowaitTotal := f64_zero;
     st_stealTotal := f64_zero; st_memAvailableMin := f64_zero |}.

Definition stats_add (st : resourcePressureWindowStats) (s : sample) : resourcePressureWindowStats :=
  let available := f64_of_Z (rs_MemAvailableBytes s) in
  {| st_count := st_count st + 1;
     st_cpuUsable := if negb (sample_cpu_usable s) then false else st_cpuUsable st;
     st_cpuUsageTotal := f64_add (st_cpuUsageTotal st) (rs_CPUUsagePct s);
     st_loadTotal := f64_add (st_loadTotal st) (rs_NormalizedLoad5 s);
     st_memTotal := f64_add (st_memTotal st) (rs_MemUsedPct s);
     st_swapTotal := f64_add (st_swapTotal st) (rs_SwapUsedPct s);
     st_iowaitTotal := f64_add (st_iowaitTotal st) (rs_CPUIOWaitPct s);
     st_stealTotal := f64_add (st_stealTotal st) (rs_CPUStealPct s);
     st_memAvailableMin := if f64_lt available (st_memAvailableMin st) then available
                           else st_memAvailableMin st |}.

Definition stats_group (allowSuppressed : bool) (st : resourcePressureWindowStats)
    (group : list sample) : resourcePressureWindowStats :=
  if negb (resourcePressureEffectiveGroup allowSuppressed group) then st
  else fold_left (fun st s =>
    if negb allowSuppressed && sample_suppressed s then st else stats_add st s) group st.

Definition resourcePressureSamplesStatistics (samples : list sample) (allowSuppressed : bool)
    : resourcePressureWindowStats :=
  let stats := fold_left (stats_group allowSuppressed) (time_groups samples)
    {| st_count := 0; st_cpuUsable := true; st_cpuUsageTotal := f64_zero; st_loadTotal := f64_zero;
       st_memTotal := f64_zero; st_swapTotal := f64_zero; st_iowaitTotal := f64_zero;
       st_stealTotal := f64_zero; st_memAvailableMin := f64_pos_inf |} in
  if st_count stats =? 0 then
    {| st_count := st_count stats; st_cpuUsable := false;
       st_cpuUsageTotal := st_cpuUsageTotal stats; st_loadTotal := st_loadTotal stats;
       st_memTotal := st_memTotal stats; st_swapTotal := st_swapTotal stats;
       st_iowaitTotal := st_iowaitTotal stats; st_stealTotal := st_stealTotal stats;
       st_memAvailableMin := f64_zero |}
  else stats.

Definition resourcePressureWindowStatistics (window : resourcePressureWindow) :=
  resourcePressureSamplesStatistics (w_samples window) (w_allowSuppressed window).

Definition resourcePressureWindowBoundaryStatistics (window : resourcePressureWindow) :=
  resourcePressureSamplesStatistics (w_boundarySamples window) (w_allowSuppressed window).

(** * Candidates *)

Inductive resourcePressurePredicate :=
| resourcePressureCriticalCPU30
| resourcePressureCriticalLoad30
| resourcePressureCriticalMemory30
| resourcePressureCriticalIOWait30
| resourcePressureAlertCPU15
| resourcePressureAlertLoad15
| resourcePressureAlertMemory15
| resourcePressureAlertIOWait15
| resourcePressureAlertSteal30
| resourcePressureNoticeCPU15
| resourcePressureNoticeLoad15
| resourcePressureNoticeMemory15
| resourcePressureNoticeIOWait15
| resourcePressureNoticeSwap15
| resourcePressureNoticeIOWaitFloor15
| resourcePressureNoticeSteal15.

Definition avg (total : float64) (stats : resourcePressureWindowStats) : float64 :=
  f64_div total (f64_of_Z (st_count stats)).

Definition resourcePressurePredicateMatches (predicate : resourcePressurePredicate)
    (stats : resourcePressureWindowStats) (thresholds : MetricThresholds) : bool :=
  match predicate with
  | resourcePressureCriticalCPU30 =>
      f64_ge (avg (st_cpuUsageTotal stats) stats) (f64_of_Z (mt_CPUCriticalPct thresholds))
  | resourcePressureCriticalLoad30 =>
      f64_ge (avg (st_loadTotal stats) stats) (mt_Load5Critical thresholds)
  | resourcePressureCriticalMemory30 =>
      f64_ge (avg (st_memTotal stats) stats) (f64_of_Z (mt_MemCriticalPct thresholds)) &&
      f64_le (st_memAvailableMin stats) (f64_of_Z (512 * 1024 * 1024))
  | resourcePressureCriticalIOWait30 =>
      f64_ge (avg (st_iowaitTotal stats) stats) (f64_of_Z (mt_IOWaitCriticalPct thresholds))
  | resourcePressureAlertCPU15 =>
      f64_ge (avg (st_cpuUsageTotal stats) stats) (f64_of_Z (mt_CPUAlertPct thresholds))
  | resourcePressureAlertLoad15 =>
      f64_ge (avg (st_loadTotal stats) stats) (mt_Load5Alert thresholds)
  | resourcePressureAlertMemory15 =>
      f64_ge (avg (st_memTotal stats) stats) (f64_of_Z (mt_MemAlertPct thresholds))
  | resourcePressureAlertIOWait15 =>
      f64_ge (avg (st_iowaitTotal stats) stats) (f64_of_Z (mt_IOWaitAlertPct thresholds))
  | resourcePressureAlertSteal30 => f64_ge (avg (st_stealTotal stats) stats) (f64_of_Z 10)
  | resourcePressureNoticeCPU15 =>
      f64_ge (avg (st_cpuUsageTotal stats) stats) (f64_of_Z (mt_CPUWarningPct thresholds))
  | resourcePressureNoticeLoad15 =>
      f64_ge (avg (st_loadTotal stats) stats) (mt_Load5Warning thresholds)
  | resourcePressureNoticeMemory15 =>
      f64_ge (avg (st_memTotal stats) stats) (f64_of_Z (mt_MemWarningPct thresholds))
  | resourcePressureNoticeIOWait15 =>
      f64_ge (avg (st_iowaitTotal stats) stats) (f64_of_Z (mt_IOWaitWarningPct thresholds))
  | resourcePressureNoticeSwap15 => f64_gt (avg (st_swapTotal stats) stats) (f64_of_Z 10)
  | resourcePressureNoticeIOWaitFloor15 => f64_ge (avg (st_iowaitTotal stats) stats) (f64_of_Z 10)
  | resourcePressureNoticeSteal15 => f64_ge (avg (st_stealTotal stats) stats) (f64_of_Z 5)
  end.

Definition resourcePressureCandidateSupported (window : resourcePressureWindow)
    (stats boundaryStats : resourcePressureWindowStats) (cpuRequired requireSingletonBoundary : bool)
    (predicate : resourcePressurePredicate) (thresholds : MetricThresholds) : bool :=
  if negb (w_covered window) || (st_count stats =? 0) || (cpuRequired && negb (w_cpuUsable window)) ||
     negb (resourcePressurePredicateMatches predicate stats thresholds) then false
  else if negb requireSingletonBoundary || negb (w_singleton window) then true
  else if (Z.of_nat (length (w_boundarySamples window)) =? 0) || (st_count boundaryStats =? 0) ||
          (cpuRequired && negb (st_cpuUsable boundaryStats)) then false
  else resourcePressurePredicateMatches predicate boundaryStats thresholds.

Record resourcePressureSeverityResult := {
  sr_severity : string;
  sr_summary : string;
  sr_active : bool;
  sr_cpu : bool;
}.

(** One [case] of the [switch] of [resourcePressureSeverityFromStats]: the
    predicate, the window it looks at, whether it needs CPU rates, the severity,
    and the pieces of its summary. *)
Record pressure_case := {
  pc_predicate : resourcePressurePredicate;
  pc_window30 : bool;
  pc_cpu : bool;
  pc_severity : string;
  pc_prefix : string;
  pc_total : resourcePressureWindowStats -> float64;
  pc_suffix : string;
}.

Definition pressure_cases : list pressure_case := [
  Build_pressure_case resourcePressureCriticalCPU30 true true SeverityCritical
    "CPU 连续 30m 平均 " st_cpuUsageTotal "%";
  Build_pressure_case resourcePressureCriticalLoad30 true false SeverityCritical
    "归一化 Load5 连续 30m 平均 " st_loadTotal "";
  Build_pressure_case resourcePressureCriticalMemory30 true false SeverityCritical
    "内存连续 30m 平均 " st_memTotal "%，可用内存持续偏低";
  Build_pressure_case resourcePressureCriticalIOWait30 true true SeverityCritical
    "iowait 连续 30m 平均 " st_iowaitTotal "%";
  Build_pressure_case resourcePressureAlertCPU15 false true SeverityAlert
    "CPU 连续 15m 平均 " st_cpuUsageTotal "%";
  Build_pressure_case resourcePressureAlertLoad15 false false SeverityAlert
    "归一化 Load5 连续 15m 平均 " st_loadTotal "";
  Build_pressure_case resourcePressureAlertMemory15 false false SeverityAlert
    "内存连续 15m 平均 " st_memTotal "%";
  Build_pressure_case resourcePressureAlertIOWait15 false true SeverityAlert
    "iowait 连续 15m 平均 " st_iowaitTotal "%";
  Build_pressure_case resourcePressureAlertSteal30 true true SeverityAlert
    "steal 连续 30m 平均 " st_stealTotal "%";
  Build_pressure_case resourcePressureNoticeCPU15 false true SeverityNotice
    "CPU 连续 15m 平均 " st_cpuUsageTotal "%";
  Build_pressure_case resourcePressureNoticeLoad15 false false SeverityNotice
    "归一化 Load5 连续 15m 平均 " st_loadTotal "";
  Build_pressure_case resourcePressureNoticeMemory15 false false SeverityNotice
    "内存连续 15m 平均 " st_memTotal "%";
  Build_pressure_case resourcePressureNoticeIOWait15 false true SeverityNotice
    "iowait 连续 15m 平均 " st_iowaitTotal "%";
  Build_pressure_case resourcePressureNoticeSwap15 false false SeverityNotice
    "swap 连续 15m 平均 " st_swapTotal "%";
  Build_pressure_case resourcePressureNoticeIOWaitFloor15 false true SeverityNotice
    "iowait 连续 15m 平均 " st_iowaitTotal "%";
  Build_pressure_case resourcePressureNoticeSteal15 false true SeverityNotice
    "steal 连续 15m 平均 " st_stealTotal "%"
].

(** Whether the condition of a case holds. *)
Definition pressure_case_holds (window15 : resourcePressureWindow)
    (stats15 boundaryStats15 : resourcePressureWindowStats) (window30 : resourcePressureWindow)
    (stats30 boundaryStats30 : resourcePressureWindowStats) (thresholds : MetricThresholds)
    (requireSingletonBoundary cpuCandidatesEnabled : bool) (c : pressure_case) : bool :=
  (if pc_cpu c then cpuCandidatesEnabled else true) &&
  (if pc_window30 c
   then resourcePressureCandidateSupported window30 stats30 boundaryStats30 (pc_cpu c)
          requireSingletonBoundary (pc_predicate c) thresholds
   else resourcePressureCandidateSupported window15 stats15 boundaryStats15 (pc_cpu c)
          requireSingletonBoundary (pc_predicate c) thresholds).

Definition resourcePressureSeverityFromStats (window15 : resourcePressureWindow)
    (stats15 boundaryStats15 : resourcePressureWindowStats) (window30 : resourcePressureWindow)
    (stats30 boundaryStats30 : resourcePressureWindowStats) (thresholds : MetricThresholds)
    (requireSingletonBoundary cpuCandidatesEnabled : bool) : resourcePressureSeverityResult :=
  match List.find (pressure_case_holds window15 stats15 boundaryStats15 window30 stats30
                     boundaryStats30 thresholds requireSingletonBoundary cpuCandidatesEnabled)
                  pressure_cases with
  | Some c =>
      let stats := if pc_window30 c then stats30 else stats15 in
      {| sr_severity := pc_severity c;
         sr_summary := pc_prefix c +:+ fmt_f1 (avg (pc_total c stats) stats) +:+ pc_suffix c;
         sr_active := true; sr_cpu := pc_cpu c |}
  | None => {| sr_severity := SeverityNormal; sr_summary := ""; sr_active := false; sr_cpu := false |}
  end.

Definition resourcePressureSeverity (window15 window30 : resourcePressureWindow)
    (thresholds : MetricThresholds) (cpuCandidatesEnabled : bool) : resourcePressureSeverityResult :=
  resourcePressureSeverityFromStats
    window15 (resourcePressureWindowStatistics window15) (resourcePressureWindowBoundaryStatistics window15)
    window30 (resourcePressureWindowStatistics window30) (resourcePressureWindowBoundaryStatistics window30)
    thresholds true cpuCandidatesEnabled.

(** The window a boundary group stands for on its own: covered, its CPU rates
    usable when all of them are. *)
Definition boundary_window (stats : resourcePressureWindowStats) : resourcePressureWindow :=
  {| w_samples := []; w_boundarySamples := []; w_covered := true;
     w_cpuUsable := st_cpuUsable stats; w_singleton := false; w_allowSuppressed := false |}.

(** The [if] blocks of [resourcePressureBoundarySeverity], one per window. *)
Definition boundary_part (consider : bool) (window : resourcePressureWindow)
    : resourcePressureWindow * resourcePressureWindowStats :=
  if consider && w_covered window && w_singleton window &&
     (0 <? Z.of_nat (length (w_boundarySamples window)))
  then let stats := resourcePressureWindowBoundaryStatistics window in
       (if 0 <? st_count stats then boundary_window stats else zeroWindow, stats)
  else (zeroWindow, zeroStats).

Definition resourcePressureBoundarySeverity (window15 window30 : resourcePressureWindow)
    (thresholds : MetricThresholds) (include30 : bool) : resourcePressureSeverityResult :=
  let '(boundaryWindow15, boundaryStats15) := boundary_part true window15 in
  let '(boundaryWindow30, boundaryStats30) := boundary_part include30 window30 in
  resourcePressureSeverityFromStats boundaryWindow15 boundaryStats15 zeroStats
    boundaryWindow30 boundaryStats30 zeroStats thresholds false true.

Definition resourcePressureRecoveryHasPressure (window15 window30 : resourcePressureWindow)
    (thresholds : MetricThresholds) (include30 : bool) : bool :=
  let stats15 := resourcePressureWindowStatistics window15 in
  let boundaryStats15 := resourcePressureWindowBoundaryStatistics window15 in
  if include30 then
    let stats30 := resourcePressureWindowStatistics window30 in
    let current := resourcePressureSeverityFromStats window15 stats15 zeroStats window30 stats30
                     zeroStats thresholds false true in
    if sr_active current then true
    else sr_active (resourcePressureBoundarySeverity window15 window30 thresholds true)
  else
    let current := resourcePressureSeverityFromStats window15 stats15 zeroStats zeroWindow zeroStats
                     zeroStats thresholds false true in
    if sr_active current then true
    else if negb (w_covered window15) || negb (w_singleton window15) ||
            (Z.of_nat (length (w_boundarySamples window15)) =? 0) || (st_count boundaryStats15 =? 0)
    then false
    else sr_active (resourcePressureSeverityFromStats (boundary_window boundaryStats15)
           boundaryStats15 zeroStats zeroWindow zeroStats zeroStats thresholds false true).

Definition resourcePressureBoundarySeverityHigher (window15 window30 : resourcePressureWindow)
    (thresholds : MetricThresholds) (current : string) (include30 : bool) : bool :=
  let boundary := resourcePressureBoundarySeverity window15 window30 thresholds include30 in
  sr_active boundary && (severityRank current <? severityRank (sr_severity boundary)).

(** * The evaluator *)

Definition EvaluateMonitoringInstanceResourcePressure (previous : option IncidentRecord)
    (monitoringInstanceID : string) (samples : list sample) (thresholds : MetricThresholds)
    (policy : ResourcePressurePolicy) : EvaluationResult :=
  let samples := normalizeMonitoringInstanceResourceSamples samples in
  match samples with
  | [] => noop previous
  | latest :: _ =>
      if negb (validResourcePressurePolicy policy) then noop previous
      else
        let referenceTime := rs_ObservedAt latest in
        let activeWindow15 := buildResourcePressureWindowSorted samples referenceTime (15 * Minute) policy false in
        let activeWindow30 := buildResourcePressureWindowSorted samples referenceTime (30 * Minute) policy false in
        let suppressed := resourcePressureLatestSuppressed samples in
        let '(recoveryWindow15, recoveryWindow30) :=
          match previous with
          | Some _ => (buildResourcePressureWindowSorted samples referenceTime (15 * Minute) policy true,
                       buildResourcePressureWindowSorted samples referenceTime (30 * Minute) policy true)
          | None => (zeroWindow, zeroWindow)
          end in
        let previousCritical := match previous with
                                | Some p => ir_Severity p =s SeverityCritical
                                | None => false
                                end in
        let recoveryWindow := if previousCritical then recoveryWindow30 else recoveryWindow15 in
        let recoveryUsable := w_covered recoveryWindow && w_cpuUsable recoveryWindow in
        let recoveryEvidenceUsable := match previous with None => true | Some _ => recoveryUsable end in
        let severity := resourcePressureSeverity activeWindow15 activeWindow30 thresholds recoveryEvidenceUsable in
        if negb (sr_active severity) then
          match previous with
          | None => noop previous
          | Some _ =>
              if negb (w_covered recoveryWindow) || negb (w_cpuUsable recoveryWindow) ||
                 resourcePressureRecoveryHasPressure recoveryWindow15 recoveryWindow30 thresholds previousCritical
              then noop previous
              else
                let result := recoverIfNeeded previous referenceTime "资源压力恢复到安全区间"
                                MonitoringEventProvenanceAgentSync (rs_IsBackfilled latest) in
                if suppressed then suppressNotification result else result
          end
        else if match previous with
                | None => false
                | Some p =>
                    ((negb (w_covered recoveryWindow) || negb (w_cpuUsable recoveryWindow)) &&
                     (sr_cpu severity ||
                      (severityRank (sr_severity severity) <=? severityRank (ir_Severity p)))) ||
                    ((severityRank (sr_severity severity) <? severityRank (ir_Severity p)) &&
                     resourcePressureBoundarySeverityHigher recoveryWindow15 recoveryWindow30 thresholds
                       (sr_severity severity) true)
                end
        then noop previous
        else if suppressed then skip previous
        else evaluateTransition previous ObjectTypeMonitoringInstance monitoringInstanceID
               IncidentMonitoringInstanceResourcePressure (sr_severity severity) referenceTime
               (sr_summary severity) MonitoringEventProvenanceAgentSync
  end.

(** * Theorems *)

(** ** Severity: the highest supported candidate *)

Definition cases_descending : Prop :=
  StronglySorted (fun c d => severityRank (pc_severity d) <= severityRank (pc_severity c)) pressure_cases.

Lemma pressure_cases_descending : cases_descending.
Proof.
  unfold cases_descending, pressure_cases.
  repeat (constructor; [|repeat constructor; vm_compute; discriminate]). constructor.
Qed.

Lemma pressure_cases_active : Forall (fun c => active_severity (pc_severity c)) pressure_cases.
Proof. unfold pressure_cases. repeat (apply Forall_cons_2; [cbn; auto with houfeng|]). constructor. Qed.

Lemma find_sorted_max {A} (f : A -> bool) (rank : A -> Z) l c d :
  StronglySorted (fun x y => rank y <= rank x) l ->
  List.find f l = Some c -> d ∈ l -> f d = true -> rank d <= rank c.
Proof.
  induction 1 as [|x l Hs IH Hall]; cbn; [done|].
  destruct (f x) eqn:E.
  - intros [= <-] Hin _. apply elem_of_cons in Hin as [->|Hin]; [lia|].
    rewrite Forall_forall in Hall. auto.
  - intros Hf Hin Hd. apply elem_of_cons in Hin as [->|Hin]; [congruence|auto].
Qed.

(** The resource severity is active exactly when some candidate is supported,
    and then no supported candidate is more severe than the one reported. *)
Theorem resource_severity_is_highest w15 s15 b15 w30 s30 b30 thresholds boundary cpu :
  let holds := pressure_case_holds w15 s15 b15 w30 s30 b30 thresholds boundary cpu in
  let result := resourcePressureSeverityFromStats w15 s15 b15 w30 s30 b30 thresholds boundary cpu in
  (sr_active result = true <-> exists c, c ∈ pressure_cases /\ holds c = true) /\
  (sr_active result = true -> active_severity (sr_severity result) /\
     exists c, c ∈ pressure_cases /\ holds c = true /\ pc_severity c = sr_severity result /\
       pc_cpu c = sr_cpu result /\
       forall d, d ∈ pressure_cases -> holds d = true ->
         severityRank (pc_severity d) <= severityRank (sr_severity result)).
Proof.
  cbv zeta. unfold resourcePressureSeverityFromStats.
  set (holds := pressure_case_holds _ _ _ _ _ _ _ _ _).
  destruct (List.find holds pressure_cases) as [c|] eqn:Hf; cbn.
  - pose proof (List.find_some _ _ Hf) as [Hin Hc]. apply list_elem_of_In in Hin. split; [by split; eauto|].
    intros _. split.
    + pose proof pressure_cases_active as Ha. rewrite Forall_forall in Ha. auto.
    + exists c. repeat split; auto. intros d Hd Hh.
      exact (find_sorted_max holds (fun c => severityRank (pc_severity c)) pressure_cases c d
               pressure_cases_descending Hf Hd Hh).
  - split; [|done]. split; [done|]. intros (c & Hin & Hc).
    apply list_elem_of_In in Hin. by rewrite (List.find_none _ _ Hf _ Hin) in Hc.
Qed.

Lemma resourcePressureSeverityFromStats_active w15 s15 b15 w30 s30 b30 thresholds boundary cpu :
  let result := resourcePressureSeverityFromStats w15 s15 b15 w30 s30 b30 thresholds boundary cpu in
  sr_active result = true ->
  active_severity (sr_severity result) /\
  exists c, c ∈ pressure_cases /\
    pressure_case_holds w15 s15 b15 w30 s30 b30 thresholds boundary cpu c = true.
Proof.
  cbv zeta. unfold resourcePressureSeverityFromStats.
  destruct (List.find _ pressure_cases) as [c|] eqn:Hf; cbn; [|done]. intros _.
  apply List.find_some in Hf as [Hin Hc]. apply list_elem_of_In in Hin. split; [|eauto].
  pose proof pressure_cases_active as Ha. rewrite Forall_forall in Ha. auto.
Qed.

(** A supported candidate looks at a covered window. *)
Lemma pressure_case_covered w15 s15 b15 w30 s30 b30 thresholds boundary cpu c :
  pressure_case_holds w15 s15 b15 w30 s30 b30 thresholds boundary cpu c = true ->
  w_covered (if pc_window30 c then w30 else w15) = true.
Proof.
  unfold pressure_case_holds, resourcePressureCandidateSupported. intros H. breflect.
  destruct (pc_window30 c).
  - by destruct (w_covered w30).
  - by destruct (w_covered w15).
Qed.

(** ** Windows: the index scan against a filter *)

Definition time_desc (l : list sample) : Prop :=
  StronglySorted (fun a b => rs_ObservedAt b <= rs_ObservedAt a) l.

Lemma normalize_time_desc samples :
  time_desc (normalizeMonitoringInstanceResourceSamples samples).
Proof.
  pose proof (sort_stable_sorted resource_less samples) as H.
  unfold time_desc, normalizeMonitoringInstanceResourceSamples.
  induction H as [|x l Hs IH Hall]; constructor; [done|].
  eapply Forall_impl; [exact Hall|]. intros y Hy. unfold not_after in Hy.
  apply by_recency_false in Hy. lia.
Qed.

Definition newer (reference : Z) (s : sample) : bool := Time_After (rs_ObservedAt s) reference.
Definition older (left : Z) (s : sample) : bool := Time_Before (rs_ObservedAt s) left.
Definition within (reference left : Z) (s : sample) : bool :=
  negb (newer reference s) && negb (older left s).

(** A list in descending order of time is its part after the reference, its part
    in the window and its part before the window, in this order. *)
Lemma time_desc_split reference left l :
  left <= reference -> time_desc l ->
  l = List.filter (newer reference) l ++ List.filter (within reference left) l ++
      List.filter (older left) l.
Proof.
  intros Hlr. induction 1 as [|s l Hs IH Hall]; [done|]. cbn [List.filter].
  unfold within, newer, older, Time_After, Time_Before in *.
  assert (forall t, rs_ObservedAt s <= t ->
    List.filter (fun x => t <? rs_ObservedAt x) l = []) as Hnil.
  { intros t Ht. clear -Hall Ht. induction Hall as [|x l Hx Hall IH]; cbn; [done|].
    destruct (Z.ltb_spec t (rs_ObservedAt x)); [lia|done]. }
  assert (rs_ObservedAt s < left -> List.filter (fun s => negb (reference <? rs_ObservedAt s) &&
    negb (rs_ObservedAt s <? left)) l = []) as Hnil2.
  { intros Ht. clear -Hall Ht. induction Hall as [|x l Hx Hall IH]; cbn; [done|].
    destruct (Z.ltb_spec (rs_ObservedAt x) left); [|lia]. by rewrite andb_false_r. }
  destruct (Z.ltb_spec reference (rs_ObservedAt s)); cbn [negb andb].
  - destruct (Z.ltb_spec (rs_ObservedAt s) left); [lia|]. cbn [app]. by f_equal.
  - destruct (Z.ltb_spec (rs_ObservedAt s) left); cbn [negb].
    + rewrite Hnil, Hnil2 in IH |- * by lia. cbn [app] in *. by f_equal.
    + rewrite Hnil in IH |- * by lia. cbn [app] in *. by f_equal.
Qed.

Section Scan.
Context (reference left : Z).

Lemma window_scan_newer index b A l :
  Forall (fun s => newer reference s = true) A ->
  window_scan reference left index b (A ++ l) =
  window_scan reference left (index + Z.of_nat (length A)) b l.
Proof.
  intros H. revert index. induction H as [|s A Hs HA IH]; intros index; cbn [app length].
  - f_equal. lia.
  - cbn [window_scan]. unfold newer in Hs. rewrite Hs, IH. f_equal. lia.
Qed.

Lemma window_scan_within index b W l :
  0 <= index -> 0 <= wb_windowStart b ->
  Forall (fun s => within reference left s = true) W ->
  window_scan reference left index b (W ++ l) =
  window_scan reference left (index + Z.of_nat (length W))
    {| wb_windowStart := wb_windowStart b;
       wb_windowEnd := match W with [] => wb_windowEnd b | _ => index + Z.of_nat (length W) end;
       wb_boundaryStart := wb_boundaryStart b; wb_boundaryEnd := wb_boundaryEnd b;
       wb_exact := wb_exact b || existsb (fun s => Time_Equal (rs_ObservedAt s) left) W |} l.
Proof.
  intros Hi Hb H. revert index b Hi Hb.
  induction H as [|s W Hs HW IH]; intros index b Hi Hb; cbn [app length existsb].
  - rewrite orb_false_r, Z.add_0_r. by destruct b.
  - unfold within, newer, older in Hs. breflect. cbn [window_scan].
    rewrite H, H0. destruct (Z.ltb_spec (wb_windowStart b) 0); [lia|].
    rewrite IH by (cbn; lia). cbn [wb_windowStart wb_windowEnd wb_boundaryStart wb_boundaryEnd wb_exact].
    f_equal; [lia|]. f_equal.
    + destruct W; cbn [length]; lia.
    + destruct (Time_Equal (rs_ObservedAt s) left), (wb_exact b); reflexivity.
Qed.

Lemma window_scan_older index b B :
  0 <= wb_windowStart b ->
  Forall (fun s => older left s = true /\ newer reference s = false) B ->
  window_scan reference left index b B =
  match B with
  | [] => b
  | s :: rest =>
      {| wb_windowStart := wb_windowStart b; wb_windowEnd := wb_windowEnd b;
         wb_boundaryStart := index; wb_boundaryEnd := index + 1 + leading_at (rs_ObservedAt s) rest;
         wb_exact := wb_exact b |}
  end.
Proof.
  intros Hb H. destruct H as [|s B [Ho Hn] HB]; [done|]. cbn [window_scan].
  unfold older, newer in *. rewrite Ho, Hn. destruct (Z.leb_spec 0 (wb_windowStart b)); [done|lia].
Qed.

Lemma window_scan_none index b B :
  wb_windowStart b < 0 ->
  Forall (fun s => older left s = true /\ newer reference s = false) B ->
  window_scan reference left index b B = b.
Proof.
  intros Hb H. destruct H as [|s B [Ho Hn] HB]; [done|]. cbn [window_scan].
  unfold older, newer in *. rewrite Ho, Hn. destruct (Z.leb_spec 0 (wb_windowStart b)); [lia|done].
Qed.
End Scan.

Lemma leading_at_bounds t l : 0 <= leading_at t l <= Z.of_nat (length l).
Proof. induction l as [|s l IH]; cbn [leading_at length]; [lia|]. destruct (Time_Equal _ _); lia. Qed.

(** The leading run of a list observed at one time. *)
Definition leading_run (l : list sample) : list sample :=
  match l with [] => [] | s :: rest => take (Z.to_nat (1 + leading_at (rs_ObservedAt s) rest)) l end.

Lemma slice_middle {A} (a w b : list A) :
  slice (a ++ w ++ b) (Z.of_nat (length a)) (Z.of_nat (length a) + Z.of_nat (length w)) = w.
Proof.
  unfold slice. rewrite Nat2Z.id, drop_app_length.
  replace (Z.to_nat _) with (length w) by lia. apply take_app_length.
Qed.

Lemma slice_boundary (a w : list sample) s b :
  slice (a ++ w ++ s :: b) (Z.of_nat (length a) + Z.of_nat (length w))
    (Z.of_nat (length a) + Z.of_nat (length w) + 1 + leading_at (rs_ObservedAt s) b) =
  leading_run (s :: b).
Proof.
  unfold slice, leading_run.
  replace (Z.to_nat (Z.of_nat (length a) + Z.of_nat (length w))) with (length (a ++ w))
    by (rewrite length_app; lia).
  rewrite app_assoc, drop_app_length. f_equal. lia.
Qed.

(** What the window holds, without indices: the samples within the window, and, when
    none of them lies exactly on the left edge, the run of samples just before it. *)
Definition window_samples (reference left : Z) (l : list sample) : list sample * list sample :=
  let W := List.filter (within reference left) l in
  (W, match W with
      | [] => []
      | _ => if existsb (fun s => Time_Equal (rs_ObservedAt s) left) W then []
             else leading_run (List.filter (older left) l)
      end).

Definition scan_init : window_bounds :=
  {| wb_windowStart := -1; wb_windowEnd := -1; wb_boundaryStart := -1; wb_boundaryEnd := -1;
     wb_exact := false |}.

Lemma window_scan_spec reference left l :
  left <= reference -> time_desc l ->
  let b := window_scan reference left 0 scan_init l in
  (if wb_windowStart b <? 0 then ([], [])
   else (slice l (wb_windowStart b) (wb_windowEnd b),
         if negb (wb_exact b) && (0 <=? wb_boundaryStart b)
         then slice l (wb_boundaryStart b) (wb_boundaryEnd b) else [])) =
  window_samples reference left l.
Proof.
  intros Hlr Hd. cbv zeta. unfold window_samples.
  pose proof (time_desc_split reference left l Hlr Hd) as Hsplit.
  set (A := List.filter (newer reference) l) in *.
  set (W := List.filter (within reference left) l) in *.
  set (B := List.filter (older left) l) in *.
  assert (Forall (fun s => newer reference s = true) A) as HA by (apply List.Forall_forall;
    intros s [_ Hs]%List.filter_In; exact Hs).
  assert (Forall (fun s => within reference left s = true) W) as HW by (apply List.Forall_forall;
    intros s [_ Hs]%List.filter_In; exact Hs).
  assert (Forall (fun s => older left s = true /\ newer reference s = false) B) as HB.
  { apply List.Forall_forall. intros s [_ Hs]%List.filter_In. split; [done|].
    unfold older, newer, Time_Before, Time_After in *. breflect. apply Z.ltb_ge. lia. }
  clearbody A W B. subst l. clear Hd. rewrite window_scan_newer by done.
  destruct W as [|w W].
  { cbn [app]. rewrite window_scan_none; [done|cbn; lia|done]. }
  rewrite Z.add_0_l. set (a := Z.of_nat (length A)).
  apply Forall_cons in HW as [Hw HW]. pose proof Hw as Hw'.
  unfold within, newer, older in Hw'. breflect.
  change ((w :: W) ++ B) with (w :: (W ++ B)). cbn [window_scan]. rewrite H, H0. cbn [wb_windowStart scan_init].
  change (-1 <? 0) with true. cbn match.
  rewrite window_scan_within; [|lia|cbn; lia|done].
  rewrite window_scan_older by (try done; cbn; lia).
  cbn [wb_windowStart wb_windowEnd wb_boundaryStart wb_boundaryEnd wb_exact scan_init existsb].
  replace (match W with [] => a + 1 | _ :: _ => a + 1 + Z.of_nat (length W) end)
    with (a + Z.of_nat (length (w :: W))) by (destruct W; cbn [length]; lia).
  replace (a + 1 + Z.of_nat (length W)) with (a + Z.of_nat (length (w :: W))) by (cbn [length]; lia).
  subst a. pose proof (slice_middle A (w :: W)) as Hm.
  pose proof (slice_boundary A (w :: W)) as Hb.
  change (w :: (W ++ B)) with ((w :: W) ++ B).
  replace (if Time_Equal (rs_ObservedAt w) left then true else false)
    with (Time_Equal (rs_ObservedAt w) left) by (by destruct (Time_Equal _ _)).
  destruct (_ || _) eqn:Hexact; destruct B as [|s B]; cbn [wb_windowStart wb_windowEnd wb_boundaryStart
    wb_boundaryEnd wb_exact negb andb];
    (destruct (Z.ltb_spec (Z.of_nat (length A)) 0) as [|Ha]; [lia|]);
    rewrite (Hm _); try done.
  f_equal. destruct (Z.leb_spec 0 (Z.of_nat (length A) + Z.of_nat (length (w :: W)))); [|lia].
  apply Hb.
Qed.

(** ** Coverage *)

(** Successive instants, newest first, no further apart than [limit]. *)
Fixpoint steps_within (limit : Z) (previous : option Z) (times : list Z) : Prop :=
  match times with
  | [] => True
  | t :: rest => match previous with Some p => p - t <= limit | None => True end /\
                 steps_within limit (Some t) rest
  end.

Lemma coverage_loop_ok allow limit st groups cpu n oldest :
  in_int64 limit -> limit < max_int64 ->
  coverage_loop allow limit st groups = (true, cpu, n, oldest) ->
  Forall (fun g => resourcePressureEffectiveGroup allow g = true) groups /\
  steps_within limit (cov_previous st) (map group_time groups) /\
  n = cov_distinct st + Z.of_nat (length groups) /\
  oldest = default (cov_oldest st) (last (map group_time groups)).
Proof.
  intros Hin Hlim. revert st. induction groups as [|g gs IH]; intros st; cbn [coverage_loop map].
  - intros [= _ <- <-]. repeat split; [constructor|cbn; lia].
  - destruct (resourcePressureEffectiveGroup allow g) eqn:He; cbn [negb]; [|done].
    destruct (match cov_previous st with Some p => limit <? Time_Sub p (group_time g) | None => false end)
      eqn:Hgap; [done|].
    intros Hc. apply IH in Hc as (Hall & Hs & -> & ->). cbn [cov_distinct cov_previous cov_oldest] in *.
    split; [by constructor|]. split; [|split; [cbn [length]; lia|]].
    + cbn [steps_within]. split; [|done]. destruct (cov_previous st) as [p|]; [|done].
      breflect. by apply (Time_Sub_le p (group_time g) limit).
    + destruct gs as [|g' gs]; [done|]. cbn [map]. rewrite last_cons_cons.
      destruct (last (group_time g' :: map group_time gs)) eqn:E; [done|]. by apply last_None in E.
Qed.

(** The runs of samples a window of [width] ending at [reference] rests on. *)
Definition evidence_groups (samples : list sample) (reference width : Z) : list (list sample) :=
  let '(W, B) := window_samples reference (reference - width) samples in
  time_groups W ++ time_groups B.

(** The evidence behind a covered window of [width] ending at [reference]: at least
    two observation times, none missing for longer than two sample intervals,
    reaching back to the left edge, and no older than the evaluation allows. *)
Record covered_evidence (samples : list sample) (reference width : Z)
    (policy : ResourcePressurePolicy) (allowSuppressed : bool) : Prop := {
  ce_two : (2 <= length (evidence_groups samples reference width))%nat;
  ce_effective : Forall (fun g => resourcePressureEffectiveGroup allowSuppressed g = true)
                   (evidence_groups samples reference width);
  ce_gaps : steps_within (2 * rp_SampleInterval policy + 10 * Millisecond) None
              (map group_time (evidence_groups samples reference width));
  ce_reach : exists t, last (map group_time (evidence_groups samples reference width)) = Some t /\
               t <= reference - width;
  ce_fresh : 0 <= rp_EvaluatedAt policy - reference <= 2 * rp_SampleInterval policy + 10 * Millisecond;
  ce_cadence : rp_SampleInterval policy <= width;
}.

Lemma validResourcePressurePolicy_bounds policy :
  validResourcePressurePolicy policy = true -> 5 * Second <= rp_SampleInterval policy <= 6 * Hour.
Proof.
  unfold validResourcePressurePolicy. destruct (Time_IsZero _); [done|]. cbn.
  rewrite !orb_true_iff, !Z.eqb_eq. unfold Hour, Minute, Second. lia.
Qed.

Lemma build_window_samples samples reference width policy allow :
  0 < width -> validResourcePressurePolicy policy = true -> time_desc samples ->
  (w_samples (buildResourcePressureWindowSorted samples reference width policy allow),
   w_boundarySamples (buildResourcePressureWindowSorted samples reference width policy allow)) =
  window_samples reference (reference - width) samples.
Proof.
  intros Hw Hp Hd. rewrite <- (window_scan_spec reference (reference - width)) by (try done; lia).
  unfold buildResourcePressureWindowSorted. rewrite Hp.
  destruct (Z.leb_spec width 0); [lia|]. cbn [orb negb]. fold scan_init.
  change (Time_Add reference (- width)) with (reference - width).
  set (b := window_scan _ _ _ _ _). destruct (wb_windowStart b <? 0); [done|].
  destruct (resourcePressureCoverage _ _ _ _) as [[[? ?] ?] ?].
  repeat match goal with |- context [if ?c then _ else _] => destruct c end; done.
Qed.

Lemma build_window_covered samples reference width policy allow :
  0 < width -> time_desc samples ->
  w_covered (buildResourcePressureWindowSorted samples reference width policy allow) = true ->
  covered_evidence samples reference width policy allow.
Proof.
  intros Hw Hd. destruct (validResourcePressurePolicy policy) eqn:Hp;
    [|unfold buildResourcePressureWindowSorted; rewrite Hp, orb_true_r; done].
  pose proof (validResourcePressurePolicy_bounds _ Hp) as Hb.
  pose proof (build_window_samples samples reference width policy allow Hw Hp Hd) as Hs.
  revert Hs. unfold buildResourcePressureWindowSorted. rewrite Hp.
  destruct (Z.leb_spec width 0); [lia|]. cbn [orb negb].
  change (Time_Add reference (- width)) with (reference - width).
  set (b := window_scan _ _ _ _ _). destruct (wb_windowStart b <? 0); [done|].
  set (ws := slice samples _ _). set (bs := if negb _ && _ then slice samples _ _ else []).
  destruct (Z.leb_spec (rp_SampleInterval policy) 0), (Z.ltb_spec width (rp_SampleInterval policy));
    cbn [orb]; try done.
  set (limit := 2 * rp_SampleInterval policy + 10 * Millisecond).
  set (age := Time_Sub (rp_EvaluatedAt policy) reference).
  destruct (Z.ltb_spec age 0), (Z.ltb_spec limit age); cbn [orb]; try done.
  destruct (resourcePressureDistinctEffectiveTimes ws allow =? 0); [done|].
  destruct (resourcePressureCoverage ws bs allow limit) as [[[ok cpu] n] oldest] eqn:Hc.
  destruct ok; cbn [negb orb]; [|done].
  destruct (Z.ltb_spec n 2); cbn [orb]; [done|].
  destruct (Time_After oldest (reference - width)) eqn:Ho; [done|].
  cbn [w_samples w_boundarySamples w_covered]. intros Hsplit _.
  assert (in_int64 limit /\ 0 < limit < max_int64) as [Hl1 Hl2].
  { unfold in_int64, limit, min_int64, max_int64, Hour, Minute, Second, Millisecond in *. lia. }
  unfold resourcePressureCoverage in Hc. destruct ws as [|w ws]; [done|].
  apply coverage_loop_ok in Hc as (Hall & Hsteps & Hn & Hold); [|done|lia].
  cbn [cov_previous cov_distinct cov_oldest] in *.
  assert (evidence_groups samples reference width = time_groups (w :: ws) ++ time_groups bs) as He
    by (unfold evidence_groups; by rewrite <- Hsplit).
  set (groups := time_groups (w :: ws) ++ time_groups bs) in *.
  split; rewrite ?He; auto.
  - lia.
  - destruct (last (map group_time groups)) as [t|] eqn:Hlast.
    + exists t. split; [done|]. cbn in Hold. unfold Time_After in Ho. breflect. lia.
    + exfalso. apply last_None in Hlast. destruct groups; [cbn in Hn; lia|done].
  - unfold age, Time_Sub, in_int64, min_int64, max_int64 in *. lia.
Qed.

(** ** The evaluator *)

(** Whether the newest observation time has live evidence. *)
Definition resource_live (samples : list sample) : bool :=
  negb (resourcePressureLatestSuppressed (normalizeMonitoringInstanceResourceSamples samples)).

Lemma EvaluateMonitoringInstanceResourcePressure_lifecycle previous id samples thresholds policy :
  lifecycle ObjectTypeMonitoringInstance id IncidentMonitoringInstanceResourcePressure
    (resource_live samples) previous
    (EvaluateMonitoringInstanceResourcePressure previous id samples thresholds policy).
Proof.
  unfold EvaluateMonitoringInstanceResourcePressure, resource_live. cbv zeta.
  destruct (normalizeMonitoringInstanceResourceSamples samples) as [|latest rest]; [constructor|].
  destruct (validResourcePressurePolicy policy); cbn [negb]; [|constructor].
  match goal with |- context [resourcePressureLatestSuppressed ?l] =>
    generalize (resourcePressureLatestSuppressed l) end. intros suppressed.
  destruct (match previous with Some _ => _ | None => (zeroWindow, zeroWindow) end) as [w15 w30].
  set (severity := resourcePressureSeverity _ _ _ _).
  assert (sr_active severity = true -> active_severity (sr_severity severity)) as Ha.
  { intros H. by apply resourcePressureSeverityFromStats_active. }
  destruct (sr_active severity); cbn [negb].
  - match goal with |- lifecycle _ _ _ _ _ (if ?b then _ else _) => destruct b end; [constructor|].
    destruct suppressed; cbn [negb]; [constructor|].
    constructor; auto with houfeng.
  - destruct previous as [p|]; [|constructor].
    match goal with |- lifecycle _ _ _ _ _ (if ?b then _ else _) => destruct b end; [constructor|].
    destruct suppressed; cbn [negb]; constructor; auto with houfeng.
Qed.

(** A resource-pressure incident is opened only on a covered window of 15 or 30
    minutes ending at the newest sample: at least two observation times with live
    samples, no gap longer than two sample intervals (plus 10ms), evidence
    reaching back to the start of the window, and a newest sample that is fresh. *)
Theorem resource_incident_needs_coverage id samples thresholds policy c
    (Hc : er_Current (EvaluateMonitoringInstanceResourcePressure None id samples thresholds policy) = Some c) :
  let sorted := normalizeMonitoringInstanceResourceSamples samples in
  exists latest, head sorted = Some latest /\
    (covered_evidence sorted (rs_ObservedAt latest) (15 * Minute) policy false \/
     covered_evidence sorted (rs_ObservedAt latest) (30 * Minute) policy false).
Proof.
  cbv zeta. revert Hc. unfold EvaluateMonitoringInstanceResourcePressure. cbv zeta.
  pose proof (normalize_time_desc samples) as Hd.
  destruct (normalizeMonitoringInstanceResourceSamples samples) as [|latest rest]; [done|].
  destruct (validResourcePressurePolicy policy) eqn:Hp; cbn [negb]; [|done].
  set (severity := resourcePressureSeverity _ _ _ _).
  destruct (sr_active severity) eqn:Hact; cbn [negb]; [|done]. intros _.
  exists latest. split; [done|].
  apply resourcePressureSeverityFromStats_active in Hact as (_ & pc & _ & Hh).
  apply pressure_case_covered in Hh.
  destruct (pc_window30 pc); [right|left]; apply build_window_covered in Hh;
    auto; unfold Minute, Second; lia.
Qed.

(** The index arithmetic that cuts a window out of the sorted samples selects
    exactly the samples between the left edge and the reference, plus, when none
    lies on the edge, the run of samples at the last observation time before it. *)
Theorem resource_window_is_filter samples reference width policy allow
    (Hw : 0 < width) (Hp : validResourcePressurePolicy policy = true) :
  let sorted := normalizeMonitoringInstanceResourceSamples samples in
  let window := buildResourcePressureWindow samples reference width policy allow in
  w_samples window = List.filter (within reference (reference - width)) sorted /\
  w_boundarySamples window =
    match List.filter (within reference (reference - width)) sorted with
    | [] => []
    | W => if existsb (fun s => Time_Equal (rs_ObservedAt s) (reference - width)) W then []
           else leading_run (List.filter (older (reference - width)) sorted)
    end.
Proof.
  cbv zeta. unfold buildResourcePressureWindow.
  pose proof (build_window_samples _ reference width policy allow Hw Hp (normalize_time_desc samples)) as H.
  unfold window_samples in H. injection H as -> ->. split; [done|].
  by destruct (List.filter _ _).
Qed.

(** Samples collected under maintenance or delivered late at the newest
    observation time never open or raise a resource incident and never notify. *)
Theorem resource_suppressed_silent previous id samples thresholds policy
    (Hs : resourcePressureLatestSuppressed (normalizeMonitoringInstanceResourceSamples samples) = true) :
  let result := EvaluateMonitoringInstanceResourcePressure previous id samples thresholds policy in
  (er_Current result = previous \/ er_Current result = None) /\
  (er_Event result = None \/ er_Transition result = TransitionRecovered) /\
  (forall n, er_Notification result = Some n -> nd_ShouldSend n = false).
Proof.
  cbv zeta.
  pose proof (EvaluateMonitoringInstanceResourcePressure_lifecycle previous id samples thresholds policy) as HL.
  unfold resource_live in HL. rewrite Hs in HL. exact (lifecycle_not_live _ _ _ _ _ HL).
Qed.

Lemma noop_keeps p :
  er_Transition (noop (Some p)) <> TransitionRecovered /\
  (forall c, er_Current (noop (Some p)) = Some c -> severityRank (ir_Severity p) <= severityRank (ir_Severity c)).
Proof. split; [by vm_compute|]. cbn. intros c [= <-]. lia. Qed.

Lemma skip_keeps p :
  er_Transition (skip (Some p)) <> TransitionRecovered /\
  (forall c, er_Current (skip (Some p)) = Some c -> severityRank (ir_Severity p) <= severityRank (ir_Severity c)).
Proof. split; [by vm_compute|done]. Qed.

(** While an incident is open and the recovery window is not covered or its CPU
    rates are unusable, resource pressure neither closes nor lowers it. *)
Theorem resource_incident_kept_without_evidence p id samples thresholds policy
    (Hw : let sorted := normalizeMonitoringInstanceResourceSamples samples in
          forall latest, head sorted = Some latest ->
          let window := buildResourcePressureWindowSorted sorted (rs_ObservedAt latest)
            (if ir_Severity p =s SeverityCritical then 30 * Minute else 15 * Minute) policy true in
          w_covered window && w_cpuUsable window = false) :
  let result := EvaluateMonitoringInstanceResourcePressure (Some p) id samples thresholds policy in
  er_Transition result <> TransitionRecovered /\
  (forall c, er_Current result = Some c -> severityRank (ir_Severity p) <= severityRank (ir_Severity c)).
Proof.
  cbv zeta in *. unfold EvaluateMonitoringInstanceResourcePressure. cbv zeta.
  destruct (normalizeMonitoringInstanceResourceSamples samples) as [|latest rest].
  { apply noop_keeps. }
  specialize (Hw latest eq_refl).
  destruct (validResourcePressurePolicy policy); cbn [negb].
  2: { apply noop_keeps. }
  set (w15 := buildResourcePressureWindowSorted _ _ (15 * Minute) policy true) in *.
  set (w30 := buildResourcePressureWindowSorted _ _ (30 * Minute) policy true) in *.
  set (rw := if ir_Severity p =s SeverityCritical then w30 else w15).
  assert (negb (w_covered rw) || negb (w_cpuUsable rw) = true) as Hbad.
  { unfold rw. destruct (ir_Severity p =s SeverityCritical); fold w15 w30 in Hw;
      rewrite <- negb_andb, Hw; done. }
  set (severity := resourcePressureSeverity _ _ _ _).
  rewrite Hbad. cbn [orb andb].
  destruct (sr_active severity); cbn [negb].
  2: { apply noop_keeps. }
  destruct (sr_cpu severity || (severityRank (sr_severity severity) <=? severityRank (ir_Severity p))) eqn:E;
    cbn [orb].
  { apply noop_keeps. }
  apply orb_false_iff in E as [_ E]. breflect.
  destruct (Z.ltb_spec (severityRank (sr_severity severity)) (severityRank (ir_Severity p))); [lia|].
  cbn [andb].
  destruct (resourcePressureLatestSuppressed _); [apply skip_keeps|].
  split; [apply evaluateTransition_not_recovered|].
  intros c Hc.
  destruct (evaluateTransition_current ObjectTypeMonitoringInstance id
    IncidentMonitoringInstanceResourcePressure (Some p) (sr_severity severity) (rs_ObservedAt latest)
    (sr_summary severity) MonitoringEventProvenanceAgentSync) as (c' & E' & _ & Hs & _).
  rewrite E' in Hc. injection Hc as <-. rewrite Hs. lia.
Qed.

(** * Concrete inputs *)

(** A sample [age] old with the given CPU usage. *)
Definition fixture_resource (cpu : Z) (maintenance : bool) (age : Z) : MonitoringInstanceResourceSample := {|
  rs_ObservedAt := fixture_now - age; rs_ReceivedAt := fixture_now - age; rs_CPUUsagePct := f64_of_Z cpu;
  rs_CPURatesValid := Some true; rs_NormalizedLoad5 := f64_zero; rs_MemUsedPct := f64_of_Z 20;
  rs_MemAvailableBytes := 4096; rs_SwapUsedPct := f64_zero; rs_CPUIOWaitPct := f64_zero;
  rs_CPUStealPct := f64_zero; rs_MaintenanceContext := maintenance; rs_IsBackfilled := false |}.

Definition fixture_resource_policy : ResourcePressurePolicy :=
  {| rp_EvaluatedAt := fixture_now; rp_SampleInterval := 5 * Minute |}.

(** Seven samples, one every five minutes, reaching 30 minutes back. *)
Definition fixture_busy : list MonitoringInstanceResourceSample :=
  (fun i => fixture_resource 99 false (i * (5 * Minute))) <$> [0; 1; 2; 3; 4; 5; 6].

(** Half an hour at 99% CPU opens an incident, on covered evidence. *)
Lemma resource_incident_needs_coverage_witness :
  covered_evidence (normalizeMonitoringInstanceResourceSamples fixture_busy) fixture_now (15 * Minute)
    fixture_resource_policy false \/
  covered_evidence (normalizeMonitoringInstanceResourceSamples fixture_busy) fixture_now (30 * Minute)
    fixture_resource_policy false.
Proof.
  assert (exists c, er_Current (EvaluateMonitoringInstanceResourcePressure None "mi-1" fixture_busy
    DefaultMetricThresholds fixture_resource_policy) = Some c) as [c Hc]
    by (eexists; vm_compute; reflexivity).
  destruct (resource_incident_needs_coverage "mi-1" fixture_busy DefaultMetricThresholds
    fixture_resource_policy c Hc) as (latest & Hlatest & H).
  assert (rs_ObservedAt latest = fixture_now) as E
    by (vm_compute in Hlatest; injection Hlatest as <-; vm_compute; reflexivity).
  by rewrite E in H.
Defined.

(** The quarter of an hour that ends at the newest sample holds four of the seven. *)
Lemma resource_window_is_filter_witness :
  length (w_samples (buildResourcePressureWindow fixture_busy fixture_now (15 * Minute)
    fixture_resource_policy false)) = 4%nat.
Proof.
  rewrite (proj1 (resource_window_is_filter fixture_busy fixture_now (15 * Minute) fixture_resource_policy
    false (eq_refl _) (eq_refl _))). vm_compute. reflexivity.
Defined.

Lemma resource_suppressed_silent_witness :
  er_Current (EvaluateMonitoringInstanceResourcePressure None "mi-1" [fixture_resource 99 true Second]
    DefaultMetricThresholds fixture_resource_policy) = None.
Proof.
  by destruct (resource_suppressed_silent None "mi-1" [fixture_resource 99 true Second]
    DefaultMetricThresholds fixture_resource_policy (eq_refl _)) as ([H|H] & _).
Defined.

(** One quiet sample is no coverage: the open incident stays. *)
Lemma resource_incident_kept_without_evidence_witness :
  er_Transition (EvaluateMonitoringInstanceResourcePressure
    (Some (fixture_incident ObjectTypeMonitoringInstance "mi-1" IncidentMonitoringInstanceResourcePressure
             SeverityAlert)) "mi-1" [fixture_resource 1 false Second]
    DefaultMetricThresholds fixture_resource_policy) <> TransitionRecovered.
Proof.
  refine (proj1 (resource_incident_kept_without_evidence _ "mi-1" [fixture_resource 1 false Second]
    DefaultMetricThresholds fixture_resource_policy _)).
  cbv zeta. intros latest Hlatest. vm_compute in Hlatest. injection Hlatest as <-. vm_compute. reflexivity.
Defined.
