(* ===== verification/Trend.v ===== *)
(** Trend degradation (src/internal/center/incidents/evaluator.go): the weighted
    daily baselines, the monitoring-instance trend evaluator, and the target
    latency evaluator, which ranges over Go maps in an unspecified order. *)
From stdpp Require Import base list sorting strings gmap.
From Stdlib Require Import ZArith Lia Permutation.
From S2P Require Import Prelude GoRuntime AgentApi IncidentTypes Transition Evaluator ResourcePressure.

Local Open Scope Z_scope.

Local Abbreviation sample := MonitoringInstanceResourceSample.

(** * Baselines of a monitoring instance *)

Definition nonNegativeDailyCount (value : Z) : Z := if value <=? 0 then 0 else value.

Definition dailyCountValue (value : option Z) (fallback : Z) : Z :=
  match value with
  | None => nonNegativeDailyCount fallback
  | Some v => nonNegativeDailyCount v
  end.

Definition dailyEffectiveWeight (total backfilled maintenance : Z) : Z :=
  if (total <=? 0) || (total <=? backfilled) then 0
  else let remaining := total - backfilled in
       if remaining <=? maintenance then 0 else remaining - maintenance.

Definition finiteFloat64 (value : float64) : bool := negb (f64_IsNaN value) && negb (f64_IsInf value).

Definition usableTrendCPUAverage (value : float64) : bool :=
  finiteFloat64 value && f64_ge value f64_zero && f64_le value (f64_of_Z 100).

(** The weight and weighted total of one metric. *)
Record weighted := { wt_weight : float64; wt_total : float64 }.

Definition weighted_zero : weighted := {| wt_weight := f64_zero; wt_total := f64_zero |}.

Definition weighted_add (w : weighted) (value weight : float64) : weighted :=
  {| wt_weight := f64_add (wt_weight w) weight; wt_total := f64_add (wt_total w) (f64_mul value weight) |}.

Definition weighted_mean (w : weighted) : option float64 :=
  if f64_gt (wt_weight w) f64_zero then Some (f64_div (wt_total w) (wt_weight w)) else None.

Definition trend_step (acc : weighted * weighted * weighted)
    (baseline : MonitoringInstanceHostDailyAggregate) : weighted * weighted * weighted :=
  let '(load, iowait, steal) := acc in
  let hostWeight := dailyEffectiveWeight
    (nonNegativeDailyCount (ha_SampleCount baseline))
    (nonNegativeDailyCount (ha_BackfilledSampleCount baseline))
    (nonNegativeDailyCount (ha_MaintenanceSampleCount baseline)) in
  let load := if (0 <? hostWeight) && finiteFloat64 (ha_AvgLoad5 baseline)
              then weighted_add load (ha_AvgLoad5 baseline) (f64_of_Z hostWeight) else load in
  let cpuValidWeight := dailyEffectiveWeight
    (dailyCountValue (ha_CPUValidSampleCount baseline) (ha_SampleCount baseline))
    (dailyCountValue (ha_CPUValidBackfilledSampleCount baseline) (ha_BackfilledSampleCount baseline))
    (dailyCountValue (ha_CPUValidMaintenanceSampleCount baseline) (ha_MaintenanceSampleCount baseline)) in
  if cpuValidWeight <=? 0 then (load, iowait, steal)
  else
    let weight := f64_of_Z cpuValidWeight in
    let cpu_add acc value :=
      match value with
      | Some v => if usableTrendCPUAverage v then weighted_add acc v weight else acc
      | None => acc
      end in
    (load, cpu_add iowait (ha_AvgCPUIOWaitPct baseline), cpu_add steal (ha_AvgCPUStealPct baseline)).

Definition weightedMonitoringInstanceTrendBaselines
    (baselines : list MonitoringInstanceHostDailyAggregate)
    : option float64 * option float64 * option float64 :=
  let '(load, iowait, steal) :=
    fold_left trend_step baselines (weighted_zero, weighted_zero, weighted_zero) in
  (weighted_mean load, weighted_mean iowait, weighted_mean steal).

(** * Trend of a monitoring instance *)

Definition unsuppressedMonitoringInstanceResourceSamples (samples : list sample) : list sample :=
  List.filter (fun s => negb (rs_MaintenanceContext s || rs_IsBackfilled s)) samples.

Definition spansMonitoringInstanceResourceWindow (samples : list sample) (window : Z) : bool :=
  match samples, last samples with
  | newest :: _, Some oldest => window <=? Time_Sub (rs_ObservedAt newest) (rs_ObservedAt oldest)
  | _, _ => false
  end.

Definition cpuWindowUsable (samples : list sample) (window : Z) : bool :=
  if negb (spansMonitoringInstanceResourceWindow samples window) then false
  else forallb sample_cpu_usable samples.

Definition averageMonitoringInstanceResourceMetric (samples : list sample)
    (selector : sample -> float64) : float64 :=
  match samples with
  | [] => f64_zero
  | _ => f64_div (fold_left (fun total s => f64_add total (selector s)) samples f64_zero)
                 (f64_of_Z (Z.of_nat (length samples)))
  end.

Definition minimumMonitoringInstanceResourceMetric (samples : list sample)
    (selector : sample -> float64) : float64 :=
  match samples with
  | [] => f64_zero
  | s :: rest => fold_left (fun minimum s =>
      if f64_lt (selector s) minimum then selector s else minimum) rest (selector s)
  end.

Definition nodeTrendMetricDegraded (current baseline absoluteFloor absoluteDelta : float64) : bool :=
  if f64_lt current absoluteFloor then false
  else
    let guardBaseline := if f64_lt baseline (f64_ratio 1 10) then f64_ratio 1 10 else baseline in
    if f64_lt current (f64_mul guardBaseline (f64_ratio 18 10)) then false
    else f64_ge current (f64_add baseline absoluteDelta).

Definition joinMetricLabels (parts : list string) : string :=
  strings_Join (sort_Strings parts) "、".

(** The metrics of the current samples that degraded against their baselines. *)
Definition degraded_metrics (usable : list sample) (cpuCurrentUsable : bool)
    (loadBaseline iowaitBaseline stealBaseline : option float64) : list string :=
  (match loadBaseline with
   | Some b => if nodeTrendMetricDegraded
                    (averageMonitoringInstanceResourceMetric usable rs_NormalizedLoad5) b
                    (f64_ratio 16 10) (f64_ratio 6 10) then ["load5"] else []
   | None => [] end) ++
  (match iowaitBaseline with
   | Some b => if cpuCurrentUsable && nodeTrendMetricDegraded
                    (averageMonitoringInstanceResourceMetric usable rs_CPUIOWaitPct) b
                    (f64_of_Z 8) (f64_of_Z 4) then ["iowait"] else []
   | None => [] end) ++
  (match stealBaseline with
   | Some b => if cpuCurrentUsable && nodeTrendMetricDegraded
                    (averageMonitoringInstanceResourceMetric usable rs_CPUStealPct) b
                    (f64_of_Z 3) (f64_of_Z 2) then ["steal"] else []
   | None => [] end).

Definition present (o : option float64) : bool := match o with Some _ => true | None => false end.

Definition EvaluateMonitoringInstanceTrendDegradation (previous : option IncidentRecord)
    (monitoringInstanceID : string) (samples : list sample)
    (baselines : list MonitoringInstanceHostDailyAggregate) : EvaluationResult :=
  let samples := normalizeMonitoringInstanceResourceSamples samples in
  match samples with
  | [] => noop previous
  | latest :: _ =>
      if rs_MaintenanceContext latest || rs_IsBackfilled latest then skip previous
      else
        let usableCurrent := unsuppressedMonitoringInstanceResourceSamples samples in
        match usableCurrent with
        | [] => noop previous
        | newest :: _ =>
        if (Z.of_nat (length usableCurrent) <? 3) ||
           negb (spansMonitoringInstanceResourceWindow usableCurrent Second) then noop previous
        else
          let referenceTime := rs_ObservedAt newest in
          let '(loadBaseline, iowaitBaseline, stealBaseline) :=
            weightedMonitoringInstanceTrendBaselines baselines in
          let cpuCurrentUsable := cpuWindowUsable usableCurrent Second in
          let degradedMetrics := degraded_metrics usableCurrent cpuCurrentUsable
                                   loadBaseline iowaitBaseline stealBaseline in
          match degradedMetrics with
          | [] =>
              match previous with
              | None => noop previous
              | Some _ =>
                  if negb (spansMonitoringInstanceResourceWindow usableCurrent (30 * Minute)) ||
                     negb cpuCurrentUsable || negb (present loadBaseline) ||
                     negb (present iowaitBaseline) || negb (present stealBaseline)
                  then noop previous
                  else recoverIfNeeded previous referenceTime "监控实例趋势已恢复到安全区间"
                         MonitoringEventProvenanceAgentSync false
              end
          | _ =>
              let severity := if 2 <=? Z.of_nat (length degradedMetrics) then SeverityAlert
                              else SeverityNotice in
              if match previous with
                 | None => false
                 | Some p =>
                     (negb cpuCurrentUsable || negb (present loadBaseline) ||
                      negb (present iowaitBaseline) || negb (present stealBaseline)) &&
                     (severityRank severity <=? severityRank (ir_Severity p))
                 end
              then noop previous
              else evaluateTransition previous ObjectTypeMonitoringInstance monitoringInstanceID
                     IncidentMonitoringInstanceTrendDegradation severity referenceTime
                     ("监控实例趋势劣化：" +:+ joinMetricLabels degradedMetrics)
                     MonitoringEventProvenanceAgentSync
          end
        end
  end.

(** * Latency trend of a target *)

Definition targetLatencySeriesDegraded (currentAvg baselineAvg : float64) : bool :=
  if f64_le baselineAvg f64_zero then false
  else if f64_lt currentAvg (f64_mul baselineAvg (f64_ratio 18 10)) then false
  else f64_ge currentAvg (f64_add baselineAvg (f64_of_Z 100)) || f64_ge currentAvg (f64_of_Z 250).

(** The weighted latency of one probe item: [type accumulator]. *)
Definition latency_step (accumulators : gmap string weighted) (baseline : TargetProbeDailyAggregate)
    : gmap string weighted :=
  match ta_AvgLatencyMS baseline with
  | None => accumulators
  | Some avgLatency =>
      if ta_ProbeItemID baseline =s "" then accumulators
      else
        let weight := f64_of_Z (wrap64 (ta_SuccessCount baseline -
          ta_BackfilledObservationCount baseline - ta_MaintenanceObservationCount baseline)) in
        if f64_le weight f64_zero then accumulators
        else
          let acc := default weighted_zero (accumulators !! ta_ProbeItemID baseline) in
          <[ta_ProbeItemID baseline := weighted_add acc avgLatency weight]> accumulators
  end.

Definition weightedTargetLatencyBaselines (baselines : list TargetProbeDailyAggregate)
    : gmap string float64 :=
  let accumulators := fold_left latency_step baselines ∅ in
  omap (fun acc => if f64_eq (wt_weight acc) f64_zero then None
                   else Some (f64_div (wt_total acc) (wt_weight acc))) accumulators.

(** [m[key] = append(m[key], x)]. *)
Definition append_at {A} (m : gmap string (list A)) (key : string) (x : A) : gmap string (list A) :=
  <[key := default [] (m !! key) ++ [x]]> m.

Definition usable_latency (o : ProbeObservation) : bool :=
  negb (po_MaintenanceContext o || po_IsBackfilled o) &&
  negb ((po_ResultKind o <>s ProbeResultSuccess) ||
        match po_LatencyMS o with None => true | Some _ => false end || (po_ProbeItemID o =s "")).

Definition usableLatencyObservationSeries (observations : list ProbeObservation)
    : gmap string (list ProbeObservation) :=
  fold_left (fun series o => if usable_latency o then append_at series (po_ProbeItemID o) o else series)
    observations ∅.

(** The latency pointer of a usable observation is never nil. *)
Definition latency_of (o : ProbeObservation) : float64 := f64_of_Z (default 0 (po_LatencyMS o)).

Definition averageProbeLatencyMS (observations : list ProbeObservation) : float64 :=
  match observations with
  | [] => f64_zero
  | _ => f64_div (fold_left (fun total o => f64_add total (latency_of o)) observations f64_zero)
                 (f64_of_Z (Z.of_nat (length observations)))
  end.

Definition group_by_instance (observations : list ProbeObservation)
    : list string * gmap string (list ProbeObservation) :=
  fold_left (fun '(ids, groups) o =>
    if po_MonitoringInstanceID o =s "" then (ids, groups)
    else (match groups !! po_MonitoringInstanceID o with
          | None => ids ++ [po_MonitoringInstanceID o]
          | Some _ => ids
          end, append_at groups (po_MonitoringInstanceID o) o)) observations ([], ∅).

Definition degradedTargetLatencyMonitoringInstances (observations : list ProbeObservation)
    (baselineAvg : float64) : list string :=
  let '(monitoringInstanceIDs, byMonitoringInstance) := group_by_instance observations in
  List.filter (fun id =>
    let series := default [] (byMonitoringInstance !! id) in
    if Z.of_nat (length series) <? 3 then false
    else targetLatencySeriesDegraded (averageProbeLatencyMS series) baselineAvg) monitoringInstanceIDs.

Definition spansProbeObservationWindow (observations : list ProbeObservation) (window : Z) : bool :=
  match observations, last observations with
  | newest :: _, Some oldest => window <=? Time_Sub (po_ObservedAt newest) (po_ObservedAt oldest)
  | _, _ => false
  end.

(** [for probeItemID, observations := range series]: [order] is the order in which
    the runtime hands out the keys, which the language leaves open. *)
Fixpoint recovery_loop (series : gmap string (list ProbeObservation)) (baselines : gmap string float64)
    (window : Z) (comparableSeries : Z) (order : list string) : bool :=
  match order with
  | [] => 0 <? comparableSeries
  | probeItemID :: rest =>
      let observations := default [] (series !! probeItemID) in
      match baselines !! probeItemID with
      | None => recovery_loop series baselines window comparableSeries rest
      | Some baseline =>
          if Z.of_nat (length observations) <? 3 then false
          else if negb (spansProbeObservationWindow observations window) then false
          else if targetLatencySeriesDegraded (averageProbeLatencyMS observations) baseline then false
          else recovery_loop series baselines window (comparableSeries + 1) rest
      end
  end.

Definition hasSustainedTargetLatencyRecoveryEvidence (order : list string)
    (series : gmap string (list ProbeObservation)) (baselines : gmap string float64) (window : Z) : bool :=
  recovery_loop series baselines window 0 order.

Record latency_state := {
  ls_degradedProbeItems : list string;
  ls_degradedMonitoringInstances : gset string;
  ls_comparableSeries : Z;
}.

Definition latency_loop_step (series : gmap string (list ProbeObservation))
    (baselines : gmap string float64) (st : latency_state) (probeItemID : string) : latency_state :=
  let currentSeries := default [] (series !! probeItemID) in
  match baselines !! probeItemID with
  | None => st
  | Some baseline =>
      if Z.of_nat (length currentSeries) <? 3 then st
      else
        let comparable := ls_comparableSeries st + 1 in
        let currentAvg := averageProbeLatencyMS currentSeries in
        let degradedForProbe := degradedTargetLatencyMonitoringInstances currentSeries baseline in
        if negb (targetLatencySeriesDegraded currentAvg baseline) &&
           (Z.of_nat (length degradedForProbe) =? 0)
        then {| ls_degradedProbeItems := ls_degradedProbeItems st;
                ls_degradedMonitoringInstances := ls_degradedMonitoringInstances st;
                ls_comparableSeries := comparable |}
        else {| ls_degradedProbeItems := ls_degradedProbeItems st ++ [probeItemID];
                ls_degradedMonitoringInstances :=
                  ls_degradedMonitoringInstances st ∪ list_to_set degradedForProbe;
                ls_comparableSeries := comparable |}
  end.

Definition latency_loop (series : gmap string (list ProbeObservation)) (baselines : gmap string float64)
    (order : list string) : latency_state :=
  fold_left (latency_loop_step series baselines) order
    {| ls_degradedProbeItems := []; ls_degradedMonitoringInstances := ∅; ls_comparableSeries := 0 |}.

(** [order1] and [order2] are the iteration orders of the two loops over [series]. *)
Definition evaluateTargetLatencyOrdered (order1 order2 : list string)
    (previous : option IncidentRecord) (targetID : string) (observations : list ProbeObservation)
    (baselines : list TargetProbeDailyAggregate) : EvaluationResult :=
  let observations := normalizeProbeObservations observations in
  match observations with
  | [] => noop previous
  | latest :: _ =>
      if po_MaintenanceContext latest || po_IsBackfilled latest then skip previous
      else
        let usableBaselines := weightedTargetLatencyBaselines baselines in
        let series := usableLatencyObservationSeries observations in
        if (Z.of_nat (size usableBaselines) =? 0) || (Z.of_nat (size series) =? 0) then noop previous
        else
          let referenceTime := po_ObservedAt latest in
          let st := latency_loop series usableBaselines order1 in
          if ls_comparableSeries st =? 0 then noop previous
          else
            match ls_degradedProbeItems st with
            | [] =>
                if match previous with
                   | None => false
                   | Some _ => negb (hasSustainedTargetLatencyRecoveryEvidence order2 series
                                       usableBaselines (30 * Minute))
                   end
                then noop previous
                else recoverIfNeeded previous referenceTime "目标延迟趋势已恢复到安全区间"
                       MonitoringEventProvenanceAgentSync false
            | items =>
                let severity := if (2 <=? Z.of_nat (length items)) ||
                                   (2 <=? Z.of_nat (size (ls_degradedMonitoringInstances st)))
                                then SeverityAlert else SeverityNotice in
                evaluateTransition previous ObjectTypeTarget targetID
                  IncidentTargetLatencyTrendDegradation severity referenceTime
                  ("目标延迟趋势劣化：" +:+ joinMetricLabels (sort_Strings items))
                  MonitoringEventProvenanceAgentSync
            end
  end.

(** The keys of the series map the evaluator builds, in one iteration order. *)
Definition series_keys (observations : list ProbeObservation) : list string :=
  (map_to_list (usableLatencyObservationSeries (normalizeProbeObservations observations))).*1.

Definition EvaluateTargetLatencyTrendDegradationAcrossSeries (previous : option IncidentRecord)
    (targetID : string) (observations : list ProbeObservation)
    (baselines : list TargetProbeDailyAggregate) : EvaluationResult :=
  evaluateTargetLatencyOrdered (series_keys observations) (series_keys observations)
    previous targetID observations baselines.

(** * Lifecycle *)

Definition trend_live (samples : list sample) : bool :=
  match normalizeMonitoringInstanceResourceSamples samples with
  | [] => true
  | latest :: _ => negb (rs_MaintenanceContext latest || rs_IsBackfilled latest)
  end.

Lemma EvaluateMonitoringInstanceTrendDegradation_lifecycle previous id samples baselines :
  lifecycle ObjectTypeMonitoringInstance id IncidentMonitoringInstanceTrendDegradation
    (trend_live samples) previous
    (EvaluateMonitoringInstanceTrendDegradation previous id samples baselines).
Proof.
  unfold EvaluateMonitoringInstanceTrendDegradation, trend_live. cbv zeta.
  destruct (normalizeMonitoringInstanceResourceSamples samples) as [|latest rest]; [constructor|].
  destruct (rs_MaintenanceContext latest || rs_IsBackfilled latest); [constructor|].
  destruct (unsuppressedMonitoringInstanceResourceSamples _) as [|newest usable]; [constructor|].
  destruct (_ || _); [constructor|].
  destruct (weightedMonitoringInstanceTrendBaselines baselines) as [[load iowait] steal].
  destruct (degraded_metrics _ _ _ _ _) as [|m ms].
  - destruct previous as [p|]; [|constructor].
    destruct (_ || _); constructor; auto with houfeng.
  - destruct (match previous with Some _ => _ | None => _ end); [constructor|].
    constructor; auto with houfeng. destruct (2 <=? _); auto with houfeng.
Qed.

Lemma evaluateTargetLatencyOrdered_lifecycle order1 order2 previous targetID observations baselines :
  lifecycle ObjectTypeTarget targetID IncidentTargetLatencyTrendDegradation
    (series_live observations) previous
    (evaluateTargetLatencyOrdered order1 order2 previous targetID observations baselines).
Proof.
  unfold evaluateTargetLatencyOrdered, series_live. cbv zeta.
  destruct (normalizeProbeObservations observations) as [|latest rest]; [constructor|].
  destruct (po_MaintenanceContext latest || po_IsBackfilled latest); [constructor|].
  destruct (_ || _); [constructor|].
  destruct (ls_comparableSeries _ =? 0); [constructor|].
  destruct (ls_degradedProbeItems _) as [|i items].
  - destruct (match previous with Some _ => _ | None => _ end); constructor; auto with houfeng.
  - constructor; auto with houfeng. destruct (_ || _); auto with houfeng.
Qed.

(** * The verdict on latency does not depend on map iteration *)

Section Latency.
Context (series : gmap string (list ProbeObservation)) (baselines : gmap string float64).

(** The series of a probe item with its baseline, when there are enough observations. *)
Definition comparable (item : string) : bool :=
  match baselines !! item with
  | None => false
  | Some _ => 3 <=? Z.of_nat (length (default [] (series !! item)))
  end.

Definition item_instances (item : string) : list string :=
  match baselines !! item with
  | None => []
  | Some b => degradedTargetLatencyMonitoringInstances (default [] (series !! item)) b
  end.

Definition item_degraded (item : string) : bool :=
  comparable item &&
  (match baselines !! item with
   | None => false
   | Some b => targetLatencySeriesDegraded (averageProbeLatencyMS (default [] (series !! item))) b
   end || negb (Z.of_nat (length (item_instances item)) =? 0)).

Lemma latency_fold_spec order st :
  fold_left (latency_loop_step series baselines) order st =
  {| ls_degradedProbeItems := ls_degradedProbeItems st ++ List.filter item_degraded order;
     ls_degradedMonitoringInstances := ls_degradedMonitoringInstances st ∪
       ⋃ ((fun i => list_to_set (item_instances i)) <$> List.filter item_degraded order);
     ls_comparableSeries := ls_comparableSeries st +
       Z.of_nat (length (List.filter comparable order)) |}.
Proof.
  revert st. induction order as [|i order IH]; intros [items insts n]; cbn [fold_left List.filter].
  { cbn. f_equal; [by rewrite app_nil_r|by rewrite (right_id_L ∅ (∪))|lia]. }
  rewrite IH. unfold latency_loop_step, item_degraded, comparable, item_instances. cbv zeta.
  destruct (baselines !! i) as [b|] eqn:Eb; cbn; [|done].
  rewrite Z.leb_antisym. destruct (_ <? 3); cbn; [done|].
  destruct (targetLatencySeriesDegraded _ b); cbn;
    [|destruct (_ =? 0); cbn]; f_equal; rewrite <- ?app_assoc; cbn; try done; try lia;
    rewrite Eb; by rewrite (assoc_L (∪)).
Qed.

Lemma filter_perm (f : string -> bool) l1 l2 :
  Permutation l1 l2 -> Permutation (List.filter f l1) (List.filter f l2).
Proof.
  induction 1 as [|x l l' _ IH|x y l|]; cbn; [done| | |by etrans].
  - destruct (f x); by rewrite ?IH.
  - destruct (f x), (f y); try done. constructor.
Qed.

Lemma latency_loop_perm order order' :
  Permutation order order' ->
  Permutation (ls_degradedProbeItems (latency_loop series baselines order))
              (ls_degradedProbeItems (latency_loop series baselines order')) /\
  ls_degradedMonitoringInstances (latency_loop series baselines order) =
    ls_degradedMonitoringInstances (latency_loop series baselines order') /\
  ls_comparableSeries (latency_loop series baselines order) =
    ls_comparableSeries (latency_loop series baselines order').
Proof.
  intros Hp. unfold latency_loop. rewrite !latency_fold_spec. cbn.
  pose proof (filter_perm item_degraded _ _ Hp) as Hd.
  split; [done|]. split.
  - f_equal. apply leibniz_equiv. by rewrite Hd.
  - by rewrite (filter_perm comparable _ _ Hp).
Qed.

(** The item passes the recovery test, or has no baseline to be compared with. *)
Definition item_recovered (window : Z) (item : string) : bool :=
  match baselines !! item with
  | None => true
  | Some b =>
      let observations := default [] (series !! item) in
      negb (Z.of_nat (length observations) <? 3) && spansProbeObservationWindow observations window &&
      negb (targetLatencySeriesDegraded (averageProbeLatencyMS observations) b)
  end.

Definition has_baseline (item : string) : bool :=
  match baselines !! item with None => false | Some _ => true end.

Lemma recovery_loop_spec window n order :
  0 <= n -> recovery_loop series baselines window n order =
  forallb (item_recovered window) order && ((0 <? n) || existsb has_baseline order).
Proof.
  revert n. induction order as [|i order IH]; intros n Hn; cbn [recovery_loop forallb existsb].
  { by rewrite orb_false_r. }
  unfold item_recovered at 1, has_baseline at 1.
  destruct (baselines !! i) as [b|]; [|by rewrite IH].
  destruct (_ <? 3); cbn; [done|]. destruct (spansProbeObservationWindow _ _); cbn; [|done].
  destruct (targetLatencySeriesDegraded _ b); cbn; [done|].
  rewrite IH by lia. rewrite orb_true_r, andb_true_r.
  destruct (Z.ltb_spec 0 (n + 1)); [|lia]. cbn. by rewrite andb_true_r.
Qed.

Lemma existsb_perm (f : string -> bool) l1 l2 : Permutation l1 l2 -> existsb f l1 = existsb f l2.
Proof.
  intros Hp. apply eq_true_iff_eq. rewrite !existsb_exists.
  by setoid_rewrite <- list_elem_of_In; setoid_rewrite Hp.
Qed.

Lemma forallb_perm (f : string -> bool) l1 l2 : Permutation l1 l2 -> forallb f l1 = forallb f l2.
Proof.
  intros Hp. apply eq_true_iff_eq. rewrite !forallb_forall.
  by setoid_rewrite <- list_elem_of_In; setoid_rewrite Hp.
Qed.

Lemma recovery_loop_perm window order order' :
  Permutation order order' ->
  hasSustainedTargetLatencyRecoveryEvidence order series baselines window =
  hasSustainedTargetLatencyRecoveryEvidence order' series baselines window.
Proof.
  intros Hp. unfold hasSustainedTargetLatencyRecoveryEvidence. rewrite !recovery_loop_spec by lia.
  by rewrite (forallb_perm _ _ _ Hp), (existsb_perm _ _ _ Hp).
Qed.
End Latency.

Lemma joinMetricLabels_sorted_perm l1 l2 :
  Permutation l1 l2 -> joinMetricLabels (sort_Strings l1) = joinMetricLabels (sort_Strings l2).
Proof. intros Hp. by rewrite (sort_Strings_perm_eq _ _ Hp). Qed.

(** Go leaves the iteration order of the two loops over the series map
    open; whatever orders the runtime picks, the latency evaluator answers the same
    incident, event and notification. *)
Theorem latency_order_independent order1 order2 previous targetID observations baselines
    (H1 : Permutation order1 (series_keys observations))
    (H2 : Permutation order2 (series_keys observations)) :
  evaluateTargetLatencyOrdered order1 order2 previous targetID observations baselines =
  EvaluateTargetLatencyTrendDegradationAcrossSeries previous targetID observations baselines.
Proof.
  unfold EvaluateTargetLatencyTrendDegradationAcrossSeries, evaluateTargetLatencyOrdered. cbv zeta.
  destruct (normalizeProbeObservations observations) as [|latest rest]; [done|].
  destruct (_ || _); [done|]. destruct (_ || _); [done|].
  set (series := usableLatencyObservationSeries _). set (bs := weightedTargetLatencyBaselines _).
  destruct (latency_loop_perm series bs _ _ H1) as (Hi & Hm & Hc).
  rewrite (recovery_loop_perm series bs (30 * Minute) _ _ H2), Hm, Hc.
  destruct (_ =? 0); [done|].
  destruct (ls_degradedProbeItems (latency_loop series bs order1)) as [|x xs] eqn:E1.
  { apply Permutation_nil in Hi. by rewrite Hi. }
  destruct (ls_degradedProbeItems (latency_loop series bs (series_keys observations))) as [|y ys].
  { by apply Permutation_sym, Permutation_nil in Hi. }
  by rewrite (joinMetricLabels_sorted_perm _ _ Hi), (Permutation_length Hi).
Qed.

(** An open trend incident of a monitoring instance is closed only
    when the live samples span at least 30 minutes, every one of them has usable CPU
    rates, all three baselines exist and none of the metrics is degraded; with any
    of that missing the incident stays open. *)
Theorem trend_recovery_needs_full_evidence p id samples baselines
    (Hrec : er_Transition (EvaluateMonitoringInstanceTrendDegradation (Some p) id samples baselines)
              = TransitionRecovered) :
  let usable := unsuppressedMonitoringInstanceResourceSamples
                  (normalizeMonitoringInstanceResourceSamples samples) in
  spansMonitoringInstanceResourceWindow usable (30 * Minute) = true /\
  forallb sample_cpu_usable usable = true /\
  exists l i s, weightedMonitoringInstanceTrendBaselines baselines = (Some l, Some i, Some s) /\
    degraded_metrics usable true (Some l) (Some i) (Some s) = [].
Proof.
  revert Hrec. cbv zeta. unfold EvaluateMonitoringInstanceTrendDegradation. cbv zeta.
  destruct (normalizeMonitoringInstanceResourceSamples samples) as [|latest rest]; [by intros; discriminate|].
  destruct (_ || _); [by intros; discriminate|].
  destruct (unsuppressedMonitoringInstanceResourceSamples _) as [|newest usable]; [by intros; discriminate|].
  destruct (_ || _); [by intros; discriminate|].
  destruct (weightedMonitoringInstanceTrendBaselines baselines) as [[load iowait] steal].
  destruct (degraded_metrics _ _ _ _ _) eqn:Ed.
  - destruct (_ || _) eqn:Eg; [by intros; discriminate|]. intros _.
    breflect. destruct load as [l|], iowait as [i|], steal as [s|]; try done.
    assert (forallb sample_cpu_usable (newest :: usable) = true).
    { match goal with H : cpuWindowUsable _ _ = true |- _ => rename H into Hu end.
      unfold cpuWindowUsable in Hu. by destruct (negb _) in Hu. }
    split; [done|]. split; [done|]. exists l, i, s. split; [done|].
    match goal with H : cpuWindowUsable _ _ = true |- _ => by rewrite H in Ed end.
  - destruct (_ && _); [by intros; discriminate|].
    intros H. by apply evaluateTransition_not_recovered in H.
Qed.

(** * Concrete inputs *)

Definition fixture_baseline : MonitoringInstanceHostDailyAggregate := {|
  ha_BucketDate := Time_StartOfDay fixture_now - Day; ha_SampleCount := 100; ha_AvgLoad5 := f64_of_Z 1;
  ha_AvgCPUIOWaitPct := Some (f64_of_Z 5); ha_AvgCPUStealPct := Some (f64_of_Z 5);
  ha_BackfilledSampleCount := 0; ha_MaintenanceSampleCount := 0; ha_CPUValidSampleCount := Some 100;
  ha_CPUValidBackfilledSampleCount := Some 0; ha_CPUValidMaintenanceSampleCount := Some 0 |}.

Definition fixture_quiet : list MonitoringInstanceResourceSample :=
  (fun i => fixture_resource 1 false (i * (5 * Minute))) <$> [0; 1; 2; 3; 4; 5; 6].

(** Two series of one target, ranged over in the opposite order. *)
Lemma latency_order_independent_witness :
  let observations := [fixture_probe "mi-1" "p-1" ProbeResultSuccess Second;
                       fixture_probe "mi-1" "p-2" ProbeResultSuccess Minute] in
  evaluateTargetLatencyOrdered (reverse (series_keys observations)) (series_keys observations) None "t-1"
    observations [] =
  EvaluateTargetLatencyTrendDegradationAcrossSeries None "t-1" observations [].
Proof.
  intros observations. apply latency_order_independent; [apply reverse_Permutation|reflexivity].
Defined.

(** Half an hour of quiet samples against three baselines closes the incident. *)
Lemma trend_recovery_needs_full_evidence_witness :
  spansMonitoringInstanceResourceWindow (unsuppressedMonitoringInstanceResourceSamples
    (normalizeMonitoringInstanceResourceSamples fixture_quiet)) (30 * Minute) = true.
Proof.
  exact (proj1 (trend_recovery_needs_full_evidence
    (fixture_incident ObjectTypeMonitoringInstance "mi-1" IncidentMonitoringInstanceTrendDegradation SeverityAlert)
    "mi-1" fixture_quiet [fixture_baseline] ltac:(vm_compute; reflexivity))).
Defined.
