(* ===== verification/Settings.v ===== *)
(** Center settings (src/internal/center/settings/types.go, ip_quality_sources.go)
    with the target enumerations they rely on (src/internal/center/targets/types.go):
    the records, their defaults, the validator of every section, the override
    rules and the resolution of effective settings. *)
From stdpp Require Import base list sorting strings gmap.
From Stdlib Require Import ZArith Lia Permutation.
From S2P Require Import Prelude GoRuntime.

Local Open Scope Z_scope.
#[local] Set Warnings "-clear-no-such-hyp".

(** * Target enumerations *)

Definition FrequencyTier5s : string := "5s".
Definition FrequencyTier1m : string := "1m".
Definition FrequencyTier5m : string := "5m".
Definition FrequencyTier15m : string := "15m".
Definition FrequencyTier6h : string := "6h".

Definition member (s : string) (l : list string) : bool := existsb (String.eqb s) l.

Definition IsValidTargetType (targetType : string) : bool :=
  member targetType ["service"; "china_reference"].

Definition IsValidRunStatus (status : string) : bool :=
  member status ["启用"; "维护中"; "暂停"].

Definition IsValidProbeKind (kind : string) : bool := member kind ["tcp"; "http"; "tls"].

Definition IsValidFrequencyTier (tier : string) : bool :=
  member tier [FrequencyTier5s; FrequencyTier1m; FrequencyTier5m; FrequencyTier15m; FrequencyTier6h].

(** [NormalizeListScope] of the targets package. *)
Definition NormalizeListScope (scope : string) : string * bool :=
  if (scope =s "") || (scope =s "current") then ("current", true)
  else if (scope =s "retired") || (scope =s "all") then (scope, true)
  else ("", false).

(** * Data *)

Definition maxIncidentDurationSeconds : Z := (2 ^ 63 - 1) / Second.
Definition maxHeartbeatIntervalSeconds : Z := maxIncidentDurationSeconds / 2.

Definition ErrInvalidSettings : string := "invalid center settings".

Definition invalidSettings (message : string) : error :=
  ErrWrap "%w: %s" [message] [ErrSentinel ErrInvalidSettings].

Inductive ConfigSource := ConfigSourceUnset | ConfigSourceDefault | ConfigSourceDeployment | ConfigSourceDatabase.

Record TelegramSettings := { tg_BotToken : string; tg_ChatID : string; tg_RuntimeManaged : bool }.

Record DeploymentDefaults := {
  dd_Telegram : TelegramSettings;
  dd_IncidentSweepIntervalSeconds : Z;
  dd_IncidentSweepSource : ConfigSource;
}.

Record EffectiveSettingsMetadata := {
  em_Persisted : bool; em_TelegramSource : ConfigSource; em_IncidentSweepSource : ConfigSource;
}.

Record ProbeFrequencyDefaults := { pf_TCP : string; pf_HTTP : string; pf_TLS : string }.

Record IncidentDefaults := {
  id_HeartbeatIntervalSeconds : Z;
  id_StaleThresholdIntervals : Z;
  id_SweepIntervalSeconds : Z;
  id_NotifyOnStarted : bool;
  id_NotifyOnEscalated : bool;
  id_NotifyOnRecovered : bool;
  id_CPUWarningPct : Z; id_CPUAlertPct : Z; id_CPUCriticalPct : Z;
  id_MemWarningPct : Z; id_MemAlertPct : Z; id_MemCriticalPct : Z;
  id_DiskWarningPct : Z; id_DiskAlertPct : Z; id_DiskCriticalPct : Z;
  id_InodeWarningPct : Z; id_InodeAlertPct : Z; id_InodeCriticalPct : Z;
  id_IOWaitWarningPct : Z; id_IOWaitCriticalPct : Z;
  id_Load5Warning : float64; id_Load5Critical : float64;
}.

Record ProbeFrequencyOverride := { po_TCP : option string; po_HTTP : option string; po_TLS : option string }.

Record IncidentDefaultsOverride := {
  io_HeartbeatIntervalSeconds : option Z;
  io_StaleThresholdIntervals : option Z;
  io_SweepIntervalSeconds : option Z;
  io_NotifyOnStarted : option bool;
  io_NotifyOnEscalated : option bool;
  io_NotifyOnRecovered : option bool;
  io_CPUWarningPct : option Z; io_CPUAlertPct : option Z; io_CPUCriticalPct : option Z;
  io_MemWarningPct : option Z; io_MemAlertPct : option Z; io_MemCriticalPct : option Z;
  io_DiskWarningPct : option Z; io_DiskAlertPct : option Z; io_DiskCriticalPct : option Z;
  io_InodeWarningPct : option Z; io_InodeAlertPct : option Z; io_InodeCriticalPct : option Z;
  io_IOWaitWarningPct : option Z; io_IOWaitCriticalPct : option Z;
  io_Load5Warning : option float64; io_Load5Critical : option float64;
}.

Record SettingsOverrideFields := {
  so_HostSampleFrequencyTier : option string;
  so_ProbeFrequencyDefaults : option ProbeFrequencyOverride;
  so_IncidentDefaults : option IncidentDefaultsOverride;
}.

(** The three rule types have one selector each and the same overrides:
    [MonitoringInstanceLabelOverrideRule], [TargetTypeOverrideRule] and
    [TargetLabelOverrideRule]. *)
Record OverrideRule := { or_Selector : string; or_Overrides : SettingsOverrideFields }.

Record OverrideRules := {
  ov_MonitoringInstanceLabels : list OverrideRule;
  ov_TargetTypes : list OverrideRule;
  ov_TargetLabels : list OverrideRule;
}.

Record RetentionPolicy := { rt_RawLayerDays : Z; rt_AggregateLayerDays : Z }.

Record SubscriptionCostSettings := {
  sc_BaseCurrency : string;
  sc_ExchangeRateProvider : string;
  sc_FixerAPIKey : string;
  sc_DefaultReminderOffsetsDays : list Z;
  sc_MaxReminderLeadDays : Z;
  sc_ExchangeRateStaleAfterHours : Z;
}.

Record IPQualitySources := {
  is_IPAPIISKey : string; is_AbuseIPDBKey : string;
  is_MaxMindAccountID : string; is_MaxMindLicenseKey : string;
}.

(** A nil [Services] slice is not the empty one here. *)
Record IPQualitySettings := {
  iq_Enabled : bool;
  iq_FrequencySeconds : Z;
  iq_StaleAfterSeconds : Z;
  iq_TimeoutSeconds : Z;
  iq_Services : option (list string);
  iq_MailEnabled : bool;
  iq_Sources : IPQualitySources;
}.

Record CenterSettings := {
  cs_Telegram : TelegramSettings;
  cs_FeishuEnabled : bool;
  cs_FeishuWebhookURL : string;
  cs_HostSampleFrequencyTier : string;
  cs_ProbeFrequencyDefaults : ProbeFrequencyDefaults;
  cs_IncidentDefaults : IncidentDefaults;
  cs_IncidentSweepRuntimeManaged : bool;
  cs_Effective : EffectiveSettingsMetadata;
  cs_OverrideRules : OverrideRules;
  cs_RetentionPolicy : RetentionPolicy;
  cs_SubscriptionCost : SubscriptionCostSettings;
  cs_IPQuality : IPQualitySettings;
}.

(** [TelegramSettings.Enabled]. *)
Definition Telegram_Enabled (t : TelegramSettings) : bool :=
  (strings_TrimSpace (tg_BotToken t) <>s "") && (strings_TrimSpace (tg_ChatID t) <>s "").

(** * Defaults *)

Definition defaultIPQualityServices : list string :=
  ["netflix"; "chatgpt"; "youtube-premium"; "amazon-prime-video"; "disney-plus"; "tiktok"; "reddit"].

Definition default_incident_defaults : IncidentDefaults := {|
  id_HeartbeatIntervalSeconds := 5; id_StaleThresholdIntervals := 12; id_SweepIntervalSeconds := 5;
  id_NotifyOnStarted := true; id_NotifyOnEscalated := true; id_NotifyOnRecovered := true;
  id_CPUWarningPct := 80; id_CPUAlertPct := 90; id_CPUCriticalPct := 95;
  id_MemWarningPct := 85; id_MemAlertPct := 92; id_MemCriticalPct := 95;
  id_DiskWarningPct := 85; id_DiskAlertPct := 92; id_DiskCriticalPct := 97;
  id_InodeWarningPct := 80; id_InodeAlertPct := 90; id_InodeCriticalPct := 95;
  id_IOWaitWarningPct := 20; id_IOWaitCriticalPct := 50;
  id_Load5Warning := f64_of_Z 4; id_Load5Critical := f64_of_Z 8 |}.

Definition Default : CenterSettings := {|
  cs_Telegram := {| tg_BotToken := ""; tg_ChatID := ""; tg_RuntimeManaged := false |};
  cs_FeishuEnabled := false;
  cs_FeishuWebhookURL := "";
  cs_HostSampleFrequencyTier := FrequencyTier5s;
  cs_ProbeFrequencyDefaults := {|
    pf_TCP := FrequencyTier5s; pf_HTTP := FrequencyTier5s; pf_TLS := FrequencyTier6h |};
  cs_IncidentDefaults := default_incident_defaults;
  cs_IncidentSweepRuntimeManaged := false;
  cs_Effective := {| em_Persisted := false; em_TelegramSource := ConfigSourceUnset;
                     em_IncidentSweepSource := ConfigSourceUnset |};
  cs_OverrideRules := {|
    ov_MonitoringInstanceLabels := []; ov_TargetTypes := []; ov_TargetLabels := [] |};
  cs_RetentionPolicy := {| rt_RawLayerDays := 30; rt_AggregateLayerDays := 365 |};
  cs_SubscriptionCost := {|
    sc_BaseCurrency := "CNY"; sc_ExchangeRateProvider := "frankfurter"; sc_FixerAPIKey := "";
    sc_DefaultReminderOffsetsDays := [14; 7; 1]; sc_MaxReminderLeadDays := 30;
    sc_ExchangeRateStaleAfterHours := 36 |};
  cs_IPQuality := {|
    iq_Enabled := true; iq_FrequencySeconds := 24 * 60 * 60; iq_StaleAfterSeconds := 7 * 24 * 60 * 60;
    iq_TimeoutSeconds := 60; iq_Services := Some defaultIPQualityServices; iq_MailEnabled := true;
    iq_Sources := {| is_IPAPIISKey := ""; is_AbuseIPDBKey := "";
                     is_MaxMindAccountID := ""; is_MaxMindLicenseKey := "" |} |} |}.

(** [interval.Round(time.Second)] rounds halves away from zero and saturates. *)
Definition Duration_Round_pos (d m : Z) : Z :=
  let r := d mod m in
  if r + r <? m then d - r
  else let d1 := d + m - r in if d1 <=? 2 ^ 63 - 1 then d1 else 2 ^ 63 - 1.

Definition NormalizeIncidentSweepInterval (interval : Z) : Z :=
  let interval := if interval <=? 0 then 5 * Second else interval in
  let seconds := Duration_Round_pos interval Second / Second in
  if seconds <=? 0 then 5 else seconds.

Definition coreMonitoringInstanceLabel : string := "核心".

Definition with_tier (tier : string) (rule : OverrideRule) : OverrideRule :=
  {| or_Selector := or_Selector rule;
     or_Overrides := {|
       so_HostSampleFrequencyTier := Some tier;
       so_ProbeFrequencyDefaults := so_ProbeFrequencyDefaults (or_Overrides rule);
       so_IncidentDefaults := so_IncidentDefaults (or_Overrides rule) |} |}.

(** The loop over the rules: [Some] when it returns from its body. *)
Fixpoint legacy_core_loop (prefix rules : list OverrideRule) : option (list OverrideRule) :=
  match rules with
  | [] => None
  | rule :: rest =>
      if or_Selector rule <>s coreMonitoringInstanceLabel then legacy_core_loop (prefix ++ [rule]) rest
      else match so_HostSampleFrequencyTier (or_Overrides rule) with
           | Some _ => Some (prefix ++ rule :: rest)
           | None => Some (prefix ++ with_tier FrequencyTier5s rule :: rest)
           end
  end.

Definition ensureLegacyCoreHostSampleOverride (rules : list OverrideRule) : list OverrideRule :=
  match legacy_core_loop [] rules with
  | Some next => next
  | None =>
      {| or_Selector := coreMonitoringInstanceLabel;
         or_Overrides := {| so_HostSampleFrequencyTier := Some FrequencyTier5s;
                            so_ProbeFrequencyDefaults := None; so_IncidentDefaults := None |} |} :: rules
  end.

Definition set_override_rules (s : CenterSettings) (rules : OverrideRules) : CenterSettings := {|
  cs_Telegram := cs_Telegram s; cs_FeishuEnabled := cs_FeishuEnabled s;
  cs_FeishuWebhookURL := cs_FeishuWebhookURL s;
  cs_HostSampleFrequencyTier := cs_HostSampleFrequencyTier s;
  cs_ProbeFrequencyDefaults := cs_ProbeFrequencyDefaults s;
  cs_IncidentDefaults := cs_IncidentDefaults s;
  cs_IncidentSweepRuntimeManaged := cs_IncidentSweepRuntimeManaged s;
  cs_Effective := cs_Effective s; cs_OverrideRules := rules;
  cs_RetentionPolicy := cs_RetentionPolicy s; cs_SubscriptionCost := cs_SubscriptionCost s;
  cs_IPQuality := cs_IPQuality s |}.

Definition FreshInstallDefaults : CenterSettings :=
  set_override_rules Default {|
    ov_MonitoringInstanceLabels := ensureLegacyCoreHostSampleOverride [];
    ov_TargetTypes := ov_TargetTypes (cs_OverrideRules Default);
    ov_TargetLabels := ov_TargetLabels (cs_OverrideRules Default) |}.

(** * Effective settings *)

Definition ResolveTelegram (stored deployment : TelegramSettings) : TelegramSettings :=
  if tg_RuntimeManaged stored then stored
  else {| tg_BotToken := tg_BotToken deployment; tg_ChatID := tg_ChatID deployment;
          tg_RuntimeManaged := false |}.

Definition set_sweep (d : IncidentDefaults) (seconds : Z) : IncidentDefaults := {|
  id_HeartbeatIntervalSeconds := id_HeartbeatIntervalSeconds d;
  id_StaleThresholdIntervals := id_StaleThresholdIntervals d;
  id_SweepIntervalSeconds := seconds;
  id_NotifyOnStarted := id_NotifyOnStarted d; id_NotifyOnEscalated := id_NotifyOnEscalated d;
  id_NotifyOnRecovered := id_NotifyOnRecovered d;
  id_CPUWarningPct := id_CPUWarningPct d; id_CPUAlertPct := id_CPUAlertPct d;
  id_CPUCriticalPct := id_CPUCriticalPct d;
  id_MemWarningPct := id_MemWarningPct d; id_MemAlertPct := id_MemAlertPct d;
  id_MemCriticalPct := id_MemCriticalPct d;
  id_DiskWarningPct := id_DiskWarningPct d; id_DiskAlertPct := id_DiskAlertPct d;
  id_DiskCriticalPct := id_DiskCriticalPct d;
  id_InodeWarningPct := id_InodeWarningPct d; id_InodeAlertPct := id_InodeAlertPct d;
  id_InodeCriticalPct := id_InodeCriticalPct d;
  id_IOWaitWarningPct := id_IOWaitWarningPct d; id_IOWaitCriticalPct := id_IOWaitCriticalPct d;
  id_Load5Warning := id_Load5Warning d; id_Load5Critical := id_Load5Critical d |}.

Definition ResolveEffectiveSettings (stored : CenterSettings) (deployment : DeploymentDefaults)
    : CenterSettings :=
  let telegram := ResolveTelegram (cs_Telegram stored) (dd_Telegram deployment) in
  let telegramSource :=
    if tg_RuntimeManaged telegram then ConfigSourceDatabase
    else if Telegram_Enabled telegram then ConfigSourceDeployment
    else ConfigSourceDefault in
  let '(incidentDefaults, sweepSource) :=
    if cs_IncidentSweepRuntimeManaged stored
    then (cs_IncidentDefaults stored, ConfigSourceDatabase)
    else
      let seconds := dd_IncidentSweepIntervalSeconds deployment in
      let seconds := if seconds <=? 0 then 5 else seconds in
      (set_sweep (cs_IncidentDefaults stored) seconds,
       match dd_IncidentSweepSource deployment with
       | ConfigSourceDeployment => ConfigSourceDeployment
       | _ => ConfigSourceDefault
       end) in
  {| cs_Telegram := telegram; cs_FeishuEnabled := cs_FeishuEnabled stored;
     cs_FeishuWebhookURL := cs_FeishuWebhookURL stored;
     cs_HostSampleFrequencyTier := cs_HostSampleFrequencyTier stored;
     cs_ProbeFrequencyDefaults := cs_ProbeFrequencyDefaults stored;
     cs_IncidentDefaults := incidentDefaults;
     cs_IncidentSweepRuntimeManaged := cs_IncidentSweepRuntimeManaged stored;
     cs_Effective := {| em_Persisted := em_Persisted (cs_Effective stored);
                        em_TelegramSource := telegramSource; em_IncidentSweepSource := sweepSource |};
     cs_OverrideRules := cs_OverrideRules stored; cs_RetentionPolicy := cs_RetentionPolicy stored;
     cs_SubscriptionCost := cs_SubscriptionCost stored; cs_IPQuality := cs_IPQuality stored |}.

(** The first rule that matches a label and sets a tier wins. *)
Fixpoint resolve_tier (base : string) (labels : list string) (rules : list OverrideRule) : string :=
  match rules with
  | [] => base
  | rule :: rest =>
      if negb (member (or_Selector rule) labels) then resolve_tier base labels rest
      else match so_HostSampleFrequencyTier (or_Overrides rule) with
           | None => resolve_tier base labels rest
           | Some tier => tier
           end
  end.

Definition ResolveHostSampleFrequencyTier (base : string) (labels : list string) (rules : OverrideRules)
    : string :=
  resolve_tier base labels (ov_MonitoringInstanceLabels rules).

(** * Validation *)

Definition validateProbeFrequencyDefaults (input : ProbeFrequencyDefaults)
    : result ProbeFrequencyDefaults :=
  let input := {| pf_TCP := strings_TrimSpace (pf_TCP input); pf_HTTP := strings_TrimSpace (pf_HTTP input);
                  pf_TLS := strings_TrimSpace (pf_TLS input) |} in
  if negb (IsValidFrequencyTier (pf_TCP input)) || negb (IsValidFrequencyTier (pf_HTTP input)) ||
     negb (IsValidFrequencyTier (pf_TLS input))
  then Err (invalidSettings "probe frequency defaults must use known tiers")
  else Ok input.

Definition maxIncidentThresholdIntervals : Z := (2 ^ 63 - 1) / 4.

Definition applyIntDefault (dst defaultVal : Z) : Z := if dst =? 0 then defaultVal else dst.

Definition apply_load_default (dst defaultVal : float64) : float64 :=
  if f64_eq dst f64_zero then defaultVal else dst.

(** Zero thresholds are fields the request left out. *)
Definition fill_incident_defaults (input : IncidentDefaults) : IncidentDefaults :=
  let defaults := cs_IncidentDefaults Default in
  {| id_HeartbeatIntervalSeconds := id_HeartbeatIntervalSeconds input;
     id_StaleThresholdIntervals := id_StaleThresholdIntervals input;
     id_SweepIntervalSeconds := id_SweepIntervalSeconds input;
     id_NotifyOnStarted := id_NotifyOnStarted input;
     id_NotifyOnEscalated := id_NotifyOnEscalated input;
     id_NotifyOnRecovered := id_NotifyOnRecovered input;
     id_CPUWarningPct := applyIntDefault (id_CPUWarningPct input) (id_CPUWarningPct defaults);
     id_CPUAlertPct := applyIntDefault (id_CPUAlertPct input) (id_CPUAlertPct defaults);
     id_CPUCriticalPct := applyIntDefault (id_CPUCriticalPct input) (id_CPUCriticalPct defaults);
     id_MemWarningPct := applyIntDefault (id_MemWarningPct input) (id_MemWarningPct defaults);
     id_MemAlertPct := applyIntDefault (id_MemAlertPct input) (id_MemAlertPct defaults);
     id_MemCriticalPct := applyIntDefault (id_MemCriticalPct input) (id_MemCriticalPct defaults);
     id_DiskWarningPct := applyIntDefault (id_DiskWarningPct input) (id_DiskWarningPct defaults);
     id_DiskAlertPct := applyIntDefault (id_DiskAlertPct input) (id_DiskAlertPct defaults);
     id_DiskCriticalPct := applyIntDefault (id_DiskCriticalPct input) (id_DiskCriticalPct defaults);
     id_InodeWarningPct := applyIntDefault (id_InodeWarningPct input) (id_InodeWarningPct defaults);
     id_InodeAlertPct := applyIntDefault (id_InodeAlertPct input) (id_InodeAlertPct defaults);
     id_InodeCriticalPct := applyIntDefault (id_InodeCriticalPct input) (id_InodeCriticalPct defaults);
     id_IOWaitWarningPct := applyIntDefault (id_IOWaitWarningPct input) (id_IOWaitWarningPct defaults);
     id_IOWaitCriticalPct := applyIntDefault (id_IOWaitCriticalPct input) (id_IOWaitCriticalPct defaults);
     id_Load5Warning := apply_load_default (id_Load5Warning input) (id_Load5Warning defaults);
     id_Load5Critical := apply_load_default (id_Load5Critical input) (id_Load5Critical defaults) |}.

Definition thresholdFields (input : IncidentDefaults) : list (string * Z) :=
  [("cpu warning pct", id_CPUWarningPct input); ("cpu alert pct", id_CPUAlertPct input);
   ("cpu critical pct", id_CPUCriticalPct input); ("mem warning pct", id_MemWarningPct input);
   ("mem alert pct", id_MemAlertPct input); ("mem critical pct", id_MemCriticalPct input);
   ("disk warning pct", id_DiskWarningPct input); ("disk alert pct", id_DiskAlertPct input);
   ("disk critical pct", id_DiskCriticalPct input); ("inode warning pct", id_InodeWarningPct input);
   ("inode alert pct", id_InodeAlertPct input); ("inode critical pct", id_InodeCriticalPct input);
   ("iowait warning pct", id_IOWaitWarningPct input);
   ("iowait critical pct", id_IOWaitCriticalPct input)].

(** The first element whose test fails decides the error. *)
Fixpoint first_error {A} (bad : A -> bool) (err : A -> error) (l : list A) : result unit :=
  match l with
  | [] => Ok tt
  | x :: rest => if bad x then Err (err x) else first_error bad err rest
  end.

Definition pct_out_of_range (v : Z) : bool := (v <? 1) || (100 <? v).

Definition threeLevelThresholds (input : IncidentDefaults) : list (string * (Z * Z * Z)) :=
  [("cpu", (id_CPUWarningPct input, id_CPUAlertPct input, id_CPUCriticalPct input));
   ("mem", (id_MemWarningPct input, id_MemAlertPct input, id_MemCriticalPct input));
   ("disk", (id_DiskWarningPct input, id_DiskAlertPct input, id_DiskCriticalPct input));
   ("inode", (id_InodeWarningPct input, id_InodeAlertPct input, id_InodeCriticalPct input))].

Definition three_level_bad (t : string * (Z * Z * Z)) : bool :=
  let '(_, (warning, alert, critical)) := t in negb ((warning <? alert) && (alert <? critical)).

Definition validateIncidentThresholdOrder (prefix : string) (input : IncidentDefaults) : result unit :=
  _ ← first_error three_level_bad (fun t => invalidSettings
        (prefix +:+ t.1 +:+ " thresholds must satisfy warning < alert < critical"))
        (threeLevelThresholds input);
  _ ← reject (id_IOWaitCriticalPct input <=? id_IOWaitWarningPct input)
        (invalidSettings (prefix +:+ "iowait thresholds must satisfy warning < critical"));
  reject (f64_ge (id_Load5Warning input) (id_Load5Critical input))
    (invalidSettings (prefix +:+ "load5 thresholds must satisfy warning < critical")).

Definition validateIncidentDefaults (input : IncidentDefaults) : result IncidentDefaults :=
  _ ← reject (id_HeartbeatIntervalSeconds input <=? 0)
        (invalidSettings "heartbeat interval must be positive");
  _ ← reject (maxHeartbeatIntervalSeconds <? id_HeartbeatIntervalSeconds input)
        (invalidSettings "heartbeat interval exceeds safe duration");
  _ ← reject (id_StaleThresholdIntervals input <=? 0)
        (invalidSettings "stale threshold intervals must be positive");
  _ ← reject (maxIncidentThresholdIntervals <? id_StaleThresholdIntervals input)
        (invalidSettings "stale threshold intervals exceed safe severity bounds");
  _ ← reject (id_SweepIntervalSeconds input <=? 0)
        (invalidSettings "sweep interval must be positive");
  _ ← reject (maxIncidentDurationSeconds <? id_SweepIntervalSeconds input)
        (invalidSettings "sweep interval exceeds safe duration");
  let input := fill_incident_defaults input in
  _ ← first_error (fun f => pct_out_of_range f.2)
        (fun f => invalidSettings (f.1 +:+ " must be between 1 and 100")) (thresholdFields input);
  _ ← reject (f64_le (id_Load5Warning input) f64_zero) (invalidSettings "load5 warning must be positive");
  _ ← reject (f64_le (id_Load5Critical input) f64_zero) (invalidSettings "load5 critical must be positive");
  _ ← validateIncidentThresholdOrder "" input;
  Ok input.

Definition ValidateIncidentDefaults : IncidentDefaults -> result IncidentDefaults :=
  validateIncidentDefaults.

(** ** Overrides *)

Definition isSome {A} (o : option A) : bool := match o with Some _ => true | None => false end.

(** A pointer that is set is validated and replaced; nil stays nil. *)
Definition validate_ptr {A} (f : A -> result A) (ptr : option A) : result (option A) :=
  match ptr with
  | None => Ok None
  | Some v => v' ← f v; Ok (Some v')
  end.

Definition trim_tier (err : string) (field : string) : result string :=
  let tier := strings_TrimSpace field in
  if IsValidFrequencyTier tier then Ok tier else Err (invalidSettings err).

Definition validateProbeFrequencyOverride (input : ProbeFrequencyOverride)
    : result ProbeFrequencyOverride :=
  let field := validate_ptr (trim_tier "probe frequency override must use known tiers") in
  tcp ← field (po_TCP input); http ← field (po_HTTP input); tls ← field (po_TLS input);
  if negb (isSome (po_TCP input) || isSome (po_HTTP input) || isSome (po_TLS input))
  then Err (invalidSettings "probe frequency override must set at least one kind")
  else Ok {| po_TCP := tcp; po_HTTP := http; po_TLS := tls |}.

Definition thresholdPtrs (input : IncidentDefaultsOverride) : list (string * option Z) :=
  [("cpu warning pct", io_CPUWarningPct input); ("cpu alert pct", io_CPUAlertPct input);
   ("cpu critical pct", io_CPUCriticalPct input); ("mem warning pct", io_MemWarningPct input);
   ("mem alert pct", io_MemAlertPct input); ("mem critical pct", io_MemCriticalPct input);
   ("disk warning pct", io_DiskWarningPct input); ("disk alert pct", io_DiskAlertPct input);
   ("disk critical pct", io_DiskCriticalPct input); ("inode warning pct", io_InodeWarningPct input);
   ("inode alert pct", io_InodeAlertPct input); ("inode critical pct", io_InodeCriticalPct input);
   ("iowait warning pct", io_IOWaitWarningPct input);
   ("iowait critical pct", io_IOWaitCriticalPct input)].

(** [if ptr != nil && bad(ptr) { return err }]. *)
Definition reject_ptr {A} (ptr : option A) (bad : A -> bool) (err : error) : result unit :=
  match ptr with None => Ok tt | Some v => reject (bad v) err end.

Definition incidentDefaultsFromOverride (input : IncidentDefaultsOverride) (defaults : IncidentDefaults)
    : IncidentDefaults := {|
  id_HeartbeatIntervalSeconds := id_HeartbeatIntervalSeconds defaults;
  id_StaleThresholdIntervals := id_StaleThresholdIntervals defaults;
  id_SweepIntervalSeconds := id_SweepIntervalSeconds defaults;
  id_NotifyOnStarted := id_NotifyOnStarted defaults;
  id_NotifyOnEscalated := id_NotifyOnEscalated defaults;
  id_NotifyOnRecovered := id_NotifyOnRecovered defaults;
  id_CPUWarningPct := default (id_CPUWarningPct defaults) (io_CPUWarningPct input);
  id_CPUAlertPct := default (id_CPUAlertPct defaults) (io_CPUAlertPct input);
  id_CPUCriticalPct := default (id_CPUCriticalPct defaults) (io_CPUCriticalPct input);
  id_MemWarningPct := default (id_MemWarningPct defaults) (io_MemWarningPct input);
  id_MemAlertPct := default (id_MemAlertPct defaults) (io_MemAlertPct input);
  id_MemCriticalPct := default (id_MemCriticalPct defaults) (io_MemCriticalPct input);
  id_DiskWarningPct := default (id_DiskWarningPct defaults) (io_DiskWarningPct input);
  id_DiskAlertPct := default (id_DiskAlertPct defaults) (io_DiskAlertPct input);
  id_DiskCriticalPct := default (id_DiskCriticalPct defaults) (io_DiskCriticalPct input);
  id_InodeWarningPct := default (id_InodeWarningPct defaults) (io_InodeWarningPct input);
  id_InodeAlertPct := default (id_InodeAlertPct defaults) (io_InodeAlertPct input);
  id_InodeCriticalPct := default (id_InodeCriticalPct defaults) (io_InodeCriticalPct input);
  id_IOWaitWarningPct := default (id_IOWaitWarningPct defaults) (io_IOWaitWarningPct input);
  id_IOWaitCriticalPct := default (id_IOWaitCriticalPct defaults) (io_IOWaitCriticalPct input);
  id_Load5Warning := default (id_Load5Warning defaults) (io_Load5Warning input);
  id_Load5Critical := default (id_Load5Critical defaults) (io_Load5Critical input) |}.

Definition incident_override_set (input : IncidentDefaultsOverride) : bool :=
  isSome (io_HeartbeatIntervalSeconds input) || isSome (io_StaleThresholdIntervals input) ||
  isSome (io_SweepIntervalSeconds input) || isSome (io_NotifyOnStarted input) ||
  isSome (io_NotifyOnEscalated input) || isSome (io_NotifyOnRecovered input) ||
  existsb (fun f => isSome f.2) (thresholdPtrs input) ||
  isSome (io_Load5Warning input) || isSome (io_Load5Critical input).

Definition validateIncidentDefaultsOverride (input : IncidentDefaultsOverride)
    (incidentDefaults : IncidentDefaults) : result IncidentDefaultsOverride :=
  _ ← reject_ptr (io_HeartbeatIntervalSeconds input) (fun v => v <=? 0)
        (invalidSettings "override heartbeat interval must be positive");
  _ ← reject_ptr (io_HeartbeatIntervalSeconds input) (fun v => maxHeartbeatIntervalSeconds <? v)
        (invalidSettings "override heartbeat interval exceeds safe duration");
  _ ← reject_ptr (io_StaleThresholdIntervals input) (fun v => v <=? 0)
        (invalidSettings "override stale threshold must be positive");
  _ ← reject_ptr (io_StaleThresholdIntervals input) (fun v => maxIncidentThresholdIntervals <? v)
        (invalidSettings "override stale threshold exceeds safe severity bounds");
  _ ← reject_ptr (io_SweepIntervalSeconds input) (fun v => v <=? 0)
        (invalidSettings "override sweep interval must be positive");
  _ ← reject_ptr (io_SweepIntervalSeconds input) (fun v => maxIncidentDurationSeconds <? v)
        (invalidSettings "override sweep interval exceeds safe duration");
  _ ← first_error (fun f => match f.2 with None => false | Some v => pct_out_of_range v end)
        (fun f => invalidSettings ("override " +:+ f.1 +:+ " must be between 1 and 100"))
        (thresholdPtrs input);
  _ ← reject_ptr (io_Load5Warning input) (fun v => f64_le v f64_zero)
        (invalidSettings "override load5 warning must be positive");
  _ ← reject_ptr (io_Load5Critical input) (fun v => f64_le v f64_zero)
        (invalidSettings "override load5 critical must be positive");
  _ ← reject (negb (incident_override_set input))
        (invalidSettings "incident override must set at least one field");
  _ ← validateIncidentThresholdOrder "override " (incidentDefaultsFromOverride input incidentDefaults);
  Ok input.

Definition validateSettingsOverrideFields (input : SettingsOverrideFields)
    (incidentDefaults : IncidentDefaults) : result SettingsOverrideFields :=
  tier ← validate_ptr (trim_tier "override host sample frequency tier must be known")
           (so_HostSampleFrequencyTier input);
  probe ← validate_ptr validateProbeFrequencyOverride (so_ProbeFrequencyDefaults input);
  incident ← validate_ptr (fun o => validateIncidentDefaultsOverride o incidentDefaults)
               (so_IncidentDefaults input);
  if negb (isSome (so_HostSampleFrequencyTier input) || isSome (so_ProbeFrequencyDefaults input) ||
           isSome (so_IncidentDefaults input))
  then Err (invalidSettings "override rule must specify at least one override")
  else Ok {| so_HostSampleFrequencyTier := tier; so_ProbeFrequencyDefaults := probe;
             so_IncidentDefaults := incident |}.

(** One of the three loops of [validateOverrideRules]: the selector is trimmed,
    checked and must be new. *)
Fixpoint validate_rules (selector_ok : string -> bool) (selector_err duplicate_err : string)
    (incidentDefaults : IncidentDefaults) (seen : list string) (rules : list OverrideRule)
    : result (list OverrideRule) :=
  match rules with
  | [] => Ok []
  | rule :: rest =>
      let label := strings_TrimSpace (or_Selector rule) in
      if negb (selector_ok label) then Err (invalidSettings selector_err)
      else if member label seen then Err (invalidSettings duplicate_err)
      else
        overrides ← validateSettingsOverrideFields (or_Overrides rule) incidentDefaults;
        rest' ← validate_rules selector_ok selector_err duplicate_err incidentDefaults
                  (label :: seen) rest;
        Ok ({| or_Selector := label; or_Overrides := overrides |} :: rest')
  end.

Definition validateOverrideRules (input : OverrideRules) (incidentDefaults : IncidentDefaults)
    : result OverrideRules :=
  labels ← validate_rules (fun l => l <>s "") "monitoringInstance label override label is required"
             "duplicate monitoringInstance label override selector" incidentDefaults []
             (ov_MonitoringInstanceLabels input);
  types ← validate_rules IsValidTargetType "target type override target type is invalid"
            "duplicate target type override selector" incidentDefaults [] (ov_TargetTypes input);
  targetLabels ← validate_rules (fun l => l <>s "") "target label override label is required"
                   "duplicate target label override selector" incidentDefaults []
                   (ov_TargetLabels input);
  Ok {| ov_MonitoringInstanceLabels := labels; ov_TargetTypes := types; ov_TargetLabels := targetLabels |}.

(** ** Retention, subscription costs, IP quality *)

Definition validateRetentionPolicy (input : RetentionPolicy) : result RetentionPolicy :=
  if (rt_RawLayerDays input <? 30) || (365 <? rt_RawLayerDays input)
  then Err (invalidSettings "raw retention days must be between 30 and 365")
  else if rt_AggregateLayerDays input <=? 0
  then Err (invalidSettings "aggregate retention days must be positive")
  else Ok input.

Fixpoint dedup_offsets (seen values : list Z) : list Z :=
  match values with
  | [] => []
  | v :: rest => if existsb (Z.eqb v) seen then dedup_offsets seen rest
                 else v :: dedup_offsets (v :: seen) rest
  end.

(** [sort.Sort(sort.Reverse(sort.IntSlice(normalized)))]: the values are distinct,
    so that any sort gives this list. *)
Definition normalizeReminderOffsets (values : list Z) : list Z :=
  sort_stable (fun x y => y <? x) (dedup_offsets [] values).

Definition upper_ascii (a : Ascii.ascii) : bool :=
  let n := Ascii.nat_of_ascii a in ((65 <=? n) && (n <=? 90))%nat.

Definition isCurrencyCode (value : string) : bool :=
  (String.length value =? 3)%nat && forallb upper_ascii (String.list_ascii_of_string value).

Definition validateSubscriptionCostSettings (input : SubscriptionCostSettings)
    : result SubscriptionCostSettings :=
  let defaults := cs_SubscriptionCost Default in
  let baseCurrency := strings_ToUpper (strings_TrimSpace (sc_BaseCurrency input)) in
  let baseCurrency := if baseCurrency =s "" then sc_BaseCurrency defaults else baseCurrency in
  _ ← reject (negb (isCurrencyCode baseCurrency))
        (invalidSettings "subscription base currency must be a 3-letter uppercase code");
  let provider := strings_ToLower (strings_TrimSpace (sc_ExchangeRateProvider input)) in
  let provider := if provider =s "" then sc_ExchangeRateProvider defaults else provider in
  _ ← reject (negb (member provider ["frankfurter"; "fixer"]))
        (invalidSettings "subscription exchange rate provider is invalid");
  let maxLead := applyIntDefault (sc_MaxReminderLeadDays input) (sc_MaxReminderLeadDays defaults) in
  _ ← reject ((maxLead <? 1) || (365 <? maxLead))
        (invalidSettings "subscription max reminder lead days must be between 1 and 365");
  let offsets := normalizeReminderOffsets (sc_DefaultReminderOffsetsDays input) in
  let offsets := match offsets with [] => sc_DefaultReminderOffsetsDays defaults | _ => offsets end in
  _ ← first_error (fun offset => (offset <? 0) || (maxLead <? offset))
        (fun offset => if offset <? 0
           then invalidSettings "subscription reminder offsets must be non-negative"
           else invalidSettings "subscription reminder offsets cannot exceed max reminder lead days")
        offsets;
  let stale := applyIntDefault (sc_ExchangeRateStaleAfterHours input)
                 (sc_ExchangeRateStaleAfterHours defaults) in
  _ ← reject ((stale <? 1) || (24 * 14 <? stale))
        (invalidSettings "subscription exchange rate stale hours must be between 1 and 336");
  Ok {| sc_BaseCurrency := baseCurrency; sc_ExchangeRateProvider := provider;
        sc_FixerAPIKey := strings_TrimSpace (sc_FixerAPIKey input);
        sc_DefaultReminderOffsetsDays := offsets; sc_MaxReminderLeadDays := maxLead;
        sc_ExchangeRateStaleAfterHours := stale |}.

Definition digit_ascii (a : Ascii.ascii) : bool :=
  let n := Ascii.nat_of_ascii a in ((48 <=? n) && (n <=? 57))%nat.

(** The bytes 0x00, 0x0d and 0x0a. *)
Definition control_ascii (a : Ascii.ascii) : bool :=
  byte_is a 0 || byte_is a 13 || byte_is a 10.

Definition validateMaxMindCredentials (sources : IPQualitySources) : result unit :=
  let id := is_MaxMindAccountID sources in
  let key := is_MaxMindLicenseKey sources in
  _ ← reject (xorb (id =s "") (key =s ""))
        (invalidSettings "maxmind account and license key must be configured together");
  _ ← reject ((256 <? String.length id)%nat || (256 <? String.length key)%nat ||
              existsb control_ascii (String.list_ascii_of_string key))
        (invalidSettings "invalid maxmind credentials");
  reject (negb (forallb digit_ascii (String.list_ascii_of_string id)))
    (invalidSettings "invalid maxmind account id").

Definition sources_empty (s : IPQualitySources) : bool :=
  (is_IPAPIISKey s =s "") && (is_AbuseIPDBKey s =s "") && (is_MaxMindAccountID s =s "") &&
  (is_MaxMindLicenseKey s =s "").

Definition isZeroIPQualitySettings (input : IPQualitySettings) : bool :=
  negb (iq_Enabled input) && (iq_FrequencySeconds input =? 0) && (iq_StaleAfterSeconds input =? 0) &&
  (iq_TimeoutSeconds input =? 0) && match default [] (iq_Services input) with [] => true | _ => false end &&
  negb (iq_MailEnabled input) && sources_empty (iq_Sources input).

Fixpoint normalize_services (seen values : list string) : result (list string) :=
  match values with
  | [] => Ok []
  | value :: rest =>
      let service := strings_ToLower (strings_TrimSpace value) in
      if service =s "" then normalize_services seen rest
      else if negb (member service defaultIPQualityServices)
      then Err (invalidSettings "ip quality service is invalid")
      else if member service seen then normalize_services seen rest
      else rest' ← normalize_services (service :: seen) rest; Ok (service :: rest')
  end.

Definition normalizeIPQualityServices (values : list string) : result (list string) :=
  normalize_services [] values.

Definition validateIPQualitySettings (input : IPQualitySettings) : result IPQualitySettings :=
  let defaults := cs_IPQuality Default in
  _ ← reject ((256 <? String.length (is_IPAPIISKey (iq_Sources input)))%nat ||
              (256 <? String.length (is_AbuseIPDBKey (iq_Sources input)))%nat)
        (invalidSettings "ip quality source key must not exceed 256 bytes");
  let sources := {|
    is_IPAPIISKey := strings_TrimSpace (is_IPAPIISKey (iq_Sources input));
    is_AbuseIPDBKey := strings_TrimSpace (is_AbuseIPDBKey (iq_Sources input));
    is_MaxMindAccountID := strings_TrimSpace (is_MaxMindAccountID (iq_Sources input));
    is_MaxMindLicenseKey := strings_TrimSpace (is_MaxMindLicenseKey (iq_Sources input)) |} in
  _ ← validateMaxMindCredentials sources;
  let input := {|
    iq_Enabled := iq_Enabled input; iq_FrequencySeconds := iq_FrequencySeconds input;
    iq_StaleAfterSeconds := iq_StaleAfterSeconds input; iq_TimeoutSeconds := iq_TimeoutSeconds input;
    iq_Services := iq_Services input; iq_MailEnabled := iq_MailEnabled input;
    iq_Sources := sources |} in
  if isZeroIPQualitySettings input then
    Ok {| iq_Enabled := false; iq_FrequencySeconds := iq_FrequencySeconds defaults;
          iq_StaleAfterSeconds := iq_StaleAfterSeconds defaults;
          iq_TimeoutSeconds := iq_TimeoutSeconds defaults; iq_Services := iq_Services defaults;
          iq_MailEnabled := iq_MailEnabled defaults; iq_Sources := iq_Sources defaults |}
  else
    _ ← reject (iq_FrequencySeconds input <? 60)
          (invalidSettings "ip quality frequency seconds must be at least 60");
    let stale := applyIntDefault (iq_StaleAfterSeconds input) (iq_StaleAfterSeconds defaults) in
    _ ← reject (stale <? iq_FrequencySeconds input)
          (invalidSettings "ip quality stale after seconds must be at least frequency seconds");
    _ ← reject ((iq_TimeoutSeconds input <? 1) || (300 <? iq_TimeoutSeconds input))
          (invalidSettings "ip quality timeout seconds must be between 1 and 300");
    services ← match iq_Services input with
               | None => Ok (default [] (iq_Services defaults))
               | Some values => normalizeIPQualityServices values
               end;
    _ ← reject (match services with [] => true | _ => false end)
          (invalidSettings "ip quality services must not be empty");
    Ok {| iq_Enabled := iq_Enabled input; iq_FrequencySeconds := iq_FrequencySeconds input;
          iq_StaleAfterSeconds := stale; iq_TimeoutSeconds := iq_TimeoutSeconds input;
          iq_Services := Some services; iq_MailEnabled := iq_MailEnabled input;
          iq_Sources := iq_Sources input |}.

Definition Validate (input : CenterSettings) : result CenterSettings :=
  let botToken := strings_TrimSpace (tg_BotToken (cs_Telegram input)) in
  let chatID := strings_TrimSpace (tg_ChatID (cs_Telegram input)) in
  let tier := strings_TrimSpace (cs_HostSampleFrequencyTier input) in
  _ ← reject (xorb (botToken =s "") (chatID =s ""))
        (invalidSettings "telegram bot token and chat id must be set together");
  _ ← reject (negb (IsValidFrequencyTier tier))
        (invalidSettings "host sample frequency tier must be one of the known tiers");
  probeDefaults ← validateProbeFrequencyDefaults (cs_ProbeFrequencyDefaults input);
  incidentDefaults ← validateIncidentDefaults (cs_IncidentDefaults input);
  overrideRules ← validateOverrideRules (cs_OverrideRules input) incidentDefaults;
  retentionPolicy ← validateRetentionPolicy (cs_RetentionPolicy input);
  subscriptionCost ← validateSubscriptionCostSettings (cs_SubscriptionCost input);
  ipQuality ← validateIPQualitySettings (cs_IPQuality input);
  Ok {| cs_Telegram := {| tg_BotToken := botToken; tg_ChatID := chatID;
                          tg_RuntimeManaged := tg_RuntimeManaged (cs_Telegram input) |};
        cs_FeishuEnabled := cs_FeishuEnabled input;
        cs_FeishuWebhookURL := strings_TrimSpace (cs_FeishuWebhookURL input);
        cs_HostSampleFrequencyTier := tier; cs_ProbeFrequencyDefaults := probeDefaults;
        cs_IncidentDefaults := incidentDefaults;
        cs_IncidentSweepRuntimeManaged := cs_IncidentSweepRuntimeManaged input;
        cs_Effective := cs_Effective input; cs_OverrideRules := overrideRules;
        cs_RetentionPolicy := retentionPolicy; cs_SubscriptionCost := subscriptionCost;
        cs_IPQuality := ipQuality |}.

(** The built-in settings, the settings of a fresh install and the zero value of
    the IP-quality section, through the validator. *)
Example Default_valid : Validate Default = Ok Default.
Proof. vm_compute. reflexivity. Qed.

Example FreshInstallDefaults_valid : Validate FreshInstallDefaults = Ok FreshInstallDefaults.
Proof. vm_compute. reflexivity. Qed.

(** * Every validator is idempotent *)

#[local] Arguments IsValidFrequencyTier : simpl never.
#[local] Arguments strings_TrimSpace : simpl never.
#[local] Arguments strings_ToLower : simpl never.
#[local] Arguments strings_ToUpper : simpl never.
#[local] Arguments member : simpl never.

(** Split a successful validation into its successful steps. *)
Ltac split_ok :=
  repeat match goal with
  | H : _ ≫= _ = Ok _ |- _ => apply result_bind_ok in H as (? & ? & ?)
  | H : reject _ _ = Ok _ |- _ => apply reject_ok in H
  | H : Ok _ = Ok _ |- _ => injection H as H; try subst
  end.

(** Replay the steps of a validation whose outcomes are known. *)
Ltac replay_ok :=
  repeat match goal with
  | |- _ ≫= _ = Ok _ => apply result_bind_ok; eexists; split
  | |- reject _ _ = Ok _ => apply (proj2 (reject_ok _ _ tt)); try done
  | |- Ok _ = Ok _ => reflexivity
  end.

Lemma first_error_ok {A} (bad : A -> bool) err l x :
  first_error bad err l = Ok x <-> Forall (fun y => bad y = false) l.
Proof.
  destruct x. induction l as [|y l IH]; cbn; [by split|].
  rewrite Forall_cons, <- IH. destruct (bad y); by split; intros; [..|destruct_and?].
Qed.

Lemma applyIntDefault_idemp v d : applyIntDefault (applyIntDefault v d) d = applyIntDefault v d.
Proof. unfold applyIntDefault. destruct (v =? 0) eqn:E; [by destruct (d =? 0)|by rewrite E]. Qed.

Lemma apply_load_default_idemp v d :
  apply_load_default (apply_load_default v d) d = apply_load_default v d.
Proof.
  unfold apply_load_default. destruct (f64_eq v f64_zero) eqn:E; [by destruct (f64_eq d f64_zero)|by rewrite E].
Qed.

Lemma fill_incident_defaults_idemp d :
  fill_incident_defaults (fill_incident_defaults d) = fill_incident_defaults d.
Proof.
  unfold fill_incident_defaults.
  cbv beta iota zeta delta [id_HeartbeatIntervalSeconds id_StaleThresholdIntervals
    id_SweepIntervalSeconds id_NotifyOnStarted id_NotifyOnEscalated id_NotifyOnRecovered
    id_CPUWarningPct id_CPUAlertPct id_CPUCriticalPct id_MemWarningPct id_MemAlertPct
    id_MemCriticalPct id_DiskWarningPct id_DiskAlertPct id_DiskCriticalPct id_InodeWarningPct
    id_InodeAlertPct id_InodeCriticalPct id_IOWaitWarningPct id_IOWaitCriticalPct
    id_Load5Warning id_Load5Critical].
  f_equal; first [apply applyIntDefault_idemp | apply apply_load_default_idemp].
Qed.

Lemma validateIncidentDefaults_fixed d d' :
  validateIncidentDefaults d = Ok d' -> d' = fill_incident_defaults d /\ validateIncidentDefaults d' = Ok d'.
Proof.
  intros H. unfold validateIncidentDefaults in H. split_ok. split; [done|].
  unfold validateIncidentDefaults. rewrite fill_incident_defaults_idemp.
  replay_ok; eauto.
Qed.

Lemma validateProbeFrequencyDefaults_fixed d d' :
  validateProbeFrequencyDefaults d = Ok d' -> validateProbeFrequencyDefaults d' = Ok d'.
Proof.
  unfold validateProbeFrequencyDefaults. cbv zeta.
  destruct (_ || _) eqn:E; [done|]. intros [= <-]. cbn [pf_TCP pf_HTTP pf_TLS] in *.
  rewrite !strings_TrimSpace_idemp. by rewrite E.
Qed.

Lemma validate_ptr_fixed {A} (f : A -> result A) p p' :
  (forall v v', f v = Ok v' -> f v' = Ok v') ->
  validate_ptr f p = Ok p' -> validate_ptr f p' = Ok p' /\ isSome p' = isSome p.
Proof.
  intros Hf. destruct p as [v|]; cbn; [|by intros [= <-]].
  intros H. apply result_bind_ok in H as (v' & Hv & [= <-]). cbn. by rewrite (Hf _ _ Hv).
Qed.

Lemma trim_tier_fixed err f f' : trim_tier err f = Ok f' -> trim_tier err f' = Ok f'.
Proof.
  unfold trim_tier. cbv zeta. destruct (IsValidFrequencyTier (strings_TrimSpace f)) eqn:E; [|done].
  intros [= <-]. by rewrite strings_TrimSpace_idemp, E.
Qed.

Lemma validateProbeFrequencyOverride_fixed o o' :
  validateProbeFrequencyOverride o = Ok o' -> validateProbeFrequencyOverride o' = Ok o'.
Proof.
  unfold validateProbeFrequencyOverride. cbv zeta. intros H.
  apply result_bind_ok in H as (tcp & H1 & H).
  apply result_bind_ok in H as (http & H2 & H).
  apply result_bind_ok in H as (tls & H3 & H).
  destruct (negb _) eqn:E in H; [done|]. injection H as <-.
  destruct (validate_ptr_fixed _ _ _ (trim_tier_fixed _) H1) as [T1 S1],
    (validate_ptr_fixed _ _ _ (trim_tier_fixed _) H2) as [T2 S2],
    (validate_ptr_fixed _ _ _ (trim_tier_fixed _) H3) as [T3 S3].
  cbn [po_TCP po_HTTP po_TLS]. rewrite T1, T2, T3. cbn. by rewrite S1, S2, S3, E.
Qed.

Lemma validateIncidentDefaultsOverride_fixed o o' d :
  validateIncidentDefaultsOverride o d = Ok o' -> validateIncidentDefaultsOverride o' d = Ok o'.
Proof.
  intros H. assert (o' = o) as ->; [|done].
  unfold validateIncidentDefaultsOverride in H. by split_ok.
Qed.

Lemma validateSettingsOverrideFields_fixed f f' d :
  validateSettingsOverrideFields f d = Ok f' -> validateSettingsOverrideFields f' d = Ok f'.
Proof.
  unfold validateSettingsOverrideFields. intros H.
  apply result_bind_ok in H as (tier & H1 & H).
  apply result_bind_ok in H as (probe & H2 & H).
  apply result_bind_ok in H as (incident & H3 & H).
  destruct (negb _) eqn:E in H; [done|]. injection H as <-.
  destruct (validate_ptr_fixed _ _ _ (trim_tier_fixed _) H1) as [T1 S1],
    (validate_ptr_fixed _ _ _ validateProbeFrequencyOverride_fixed H2) as [T2 S2].
  apply validate_ptr_fixed in H3 as [T3 S3];
    [|intros; by eapply validateIncidentDefaultsOverride_fixed].
  cbn [so_HostSampleFrequencyTier so_ProbeFrequencyDefaults so_IncidentDefaults].
  rewrite T1, T2, T3. cbn. by rewrite S1, S2, S3, E.
Qed.

Lemma validate_rules_fixed ok e1 e2 d seen rules rules' :
  validate_rules ok e1 e2 d seen rules = Ok rules' -> validate_rules ok e1 e2 d seen rules' = Ok rules'.
Proof.
  revert seen rules'. induction rules as [|rule rules IH]; intros seen rules'; cbn.
  { by intros [= <-]. }
  destruct (negb (ok _)) eqn:E1; [done|]. destruct (member _ seen) eqn:E2; [done|].
  intros H. apply result_bind_ok in H as (o & Ho & H).
  apply result_bind_ok in H as (rest & Hr & [= <-]). cbn.
  rewrite strings_TrimSpace_idemp, E1, E2, (validateSettingsOverrideFields_fixed _ _ _ Ho). cbn.
  by rewrite (IH _ _ Hr).
Qed.

Lemma validateOverrideRules_fixed r r' d :
  validateOverrideRules r d = Ok r' -> validateOverrideRules r' d = Ok r'.
Proof.
  unfold validateOverrideRules. intros H.
  apply result_bind_ok in H as (l1 & H1 & H).
  apply result_bind_ok in H as (l2 & H2 & H).
  apply result_bind_ok in H as (l3 & H3 & [= <-]).
  cbn [ov_MonitoringInstanceLabels ov_TargetTypes ov_TargetLabels].
  by rewrite (validate_rules_fixed _ _ _ _ _ _ _ H1), (validate_rules_fixed _ _ _ _ _ _ _ H2),
    (validate_rules_fixed _ _ _ _ _ _ _ H3).
Qed.

Lemma validateRetentionPolicy_fixed r r' :
  validateRetentionPolicy r = Ok r' -> validateRetentionPolicy r' = Ok r'.
Proof.
  unfold validateRetentionPolicy. destruct (_ || _) eqn:E1; [done|]. destruct (_ <=? 0) eqn:E2; [done|].
  intros [= <-]. by rewrite E1, E2.
Qed.

(** ** Reminder offsets *)

Lemma dedup_offsets_spec seen values :
  NoDup (dedup_offsets seen values) /\
  (forall v, v ∈ dedup_offsets seen values <-> v ∈ values /\ v ∉ seen).
Proof.
  revert seen. induction values as [|v values IH]; intros seen; cbn.
  { split; [constructor|]. set_solver. }
  destruct (existsb (Z.eqb v) seen) eqn:E.
  - destruct (IH seen) as [HN He]. split; [done|]. intros w. rewrite He.
    apply existsb_exists in E as (x & Hx & E). apply Z.eqb_eq in E as ->.
    apply list_elem_of_In in Hx. set_solver.
  - destruct (IH (v :: seen)) as [HN He].
    assert (v ∉ seen) as Hv.
    { intros Hv. apply list_elem_of_In in Hv.
      assert (existsb (Z.eqb v) seen = true); [|congruence].
      apply existsb_exists. exists v. by rewrite Z.eqb_refl. }
    split.
    + constructor; [|done]. rewrite He. set_solver.
    + intros w. rewrite elem_of_cons, He. destruct (decide (w = v)) as [->|]; set_solver.
Qed.

Lemma dedup_offsets_id seen values :
  NoDup values -> (forall v, v ∈ values -> v ∉ seen) -> dedup_offsets seen values = values.
Proof.
  intros HN. revert seen. induction HN as [|v values Hv HN IH]; intros seen Hs; cbn; [done|].
  destruct (existsb (Z.eqb v) seen) eqn:E.
  - apply existsb_exists in E as (x & Hx & E). apply Z.eqb_eq in E as ->.
    apply list_elem_of_In in Hx. by destruct (Hs x); [apply elem_of_cons; left|].
  - f_equal. apply IH. intros w Hw. set_solver.
Qed.

#[global] Instance Z_gtb_sw : StrictWeak (fun x y : Z => y <? x).
Proof. split; intros; breflect; apply Z.ltb_ge; lia. Qed.

(** The normalized offsets: distinct, strictly decreasing, the values given. *)
Lemma normalizeReminderOffsets_spec values :
  StronglySorted (fun x y => y < x) (normalizeReminderOffsets values) /\
  (forall v, v ∈ normalizeReminderOffsets values <-> v ∈ values).
Proof.
  unfold normalizeReminderOffsets. destruct (dedup_offsets_spec [] values) as [HN He]. split.
  - pose proof (sort_stable_sorted (fun x y : Z => y <? x) (dedup_offsets [] values)) as Hs.
    assert (NoDup (sort_stable (fun x y : Z => y <? x) (dedup_offsets [] values))) as Hn
      by (by rewrite sort_stable_perm).
    revert Hn. induction Hs as [|x l Hs IH Hall]; intros Hn; [constructor|].
    apply NoDup_cons in Hn as [Hx Hn]. constructor; [by apply IH|].
    rewrite Forall_forall in Hall |- *. intros y Hy. specialize (Hall y Hy).
    unfold not_after in Hall. breflect. assert (x <> y) by (by intros ->). lia.
  - intros v. rewrite sort_stable_elem, He. set_solver.
Qed.

Lemma normalizeReminderOffsets_idemp values :
  normalizeReminderOffsets (normalizeReminderOffsets values) = normalizeReminderOffsets values.
Proof.
  assert (NoDup (normalizeReminderOffsets values)) as HN.
  { unfold normalizeReminderOffsets. rewrite sort_stable_perm. apply dedup_offsets_spec. }
  unfold normalizeReminderOffsets at 1. rewrite (dedup_offsets_id [] _ HN) by set_solver.
  unfold normalizeReminderOffsets. apply sort_stable_idemp, Z_gtb_sw.
Qed.

(** ** ASCII words are their own trimmed and case-mapped form *)

Lemma ascii_word_id (p : Ascii.ascii -> bool) (case : list Ascii.ascii -> list Ascii.ascii) s :
  (forall a, p a = true -> space1 a = false /\ (Ascii.nat_of_ascii a < 128)%nat) ->
  (forall l, forallb p l = true -> case l = l) ->
  forallb p (String.list_ascii_of_string s) = true ->
  strings_TrimSpace s = s /\ String.string_of_list_ascii (case (String.list_ascii_of_string s)) = s.
Proof.
  intros Hp Hcase Hs. split; [|by rewrite Hcase, String.string_of_list_ascii_of_string].
  assert (forall s2 s3 l, forallb p l = true ->
    (forall a b, (Ascii.nat_of_ascii a < 128)%nat -> s2 a b = false) ->
    (forall a b c, (Ascii.nat_of_ascii a < 128)%nat -> s3 a b c = false) ->
    trim_bytes space1 s2 s3 l = l) as Htrim.
  { intros s2 s3 l Hl H2 H3. apply trim_bytes_id. destruct l as [|a l]; [done|]. cbn in Hl.
    apply andb_true_iff in Hl as [Ha _]. destruct (Hp _ Ha) as [H1 Hlt]. split; [done|].
    destruct l as [|b l]; [done|]. split; [by apply H2|]. destruct l; [done|]. by apply H3. }
  unfold strings_TrimSpace. cbv zeta.
  rewrite (Htrim space2 space3 (String.list_ascii_of_string s) Hs).
  2: { intros a b Ha. unfold space2. destruct (Nat.eqb_spec (Ascii.nat_of_ascii a) 194); [lia|done]. }
  2: { intros a b c Ha. unfold space3. repeat match goal with
    | |- context [(Ascii.nat_of_ascii a =? ?k)%nat] =>
        destruct (Nat.eqb_spec (Ascii.nat_of_ascii a) k); [lia|]
    end. done. }
  rewrite Htrim.
  - by rewrite rev_involutive, String.string_of_list_ascii_of_string.
  - apply forallb_forall. intros a Ha. apply in_rev in Ha.
    exact (proj1 (forallb_forall p _) Hs a Ha).
  - intros a b Ha. unfold space2. repeat match goal with
    | |- context [(Ascii.nat_of_ascii a =? ?k)%nat] =>
        destruct (Nat.eqb_spec (Ascii.nat_of_ascii a) k); [lia|]
    end. by rewrite andb_false_r.
  - intros a b c Ha. unfold space3. repeat match goal with
    | |- context [(Ascii.nat_of_ascii a =? ?k)%nat] =>
        destruct (Nat.eqb_spec (Ascii.nat_of_ascii a) k); [lia|]
    | |- context [(128 <=? Ascii.nat_of_ascii a)%nat] =>
        destruct (Nat.leb_spec 128 (Ascii.nat_of_ascii a)); [lia|]
    end. by rewrite !andb_false_r.
Qed.

Lemma upper_word_id s :
  isCurrencyCode s = true -> strings_ToUpper (strings_TrimSpace s) = s.
Proof.
  unfold isCurrencyCode. intros H. apply andb_true_iff in H as [_ H].
  assert (forall a, upper_ascii a = true -> (65 <= Ascii.nat_of_ascii a <= 90)%nat) as Hr.
  { unfold upper_ascii. intros a Ha. breflect. lia. }
  destruct (ascii_word_id upper_ascii upper_bytes s) as [-> HU]; [| |done|exact HU].
  - intros a Ha. specialize (Hr a Ha). split; [|lia]. unfold space1.
    repeat match goal with
    | |- context [(?x <=? ?y)%nat] => destruct (Nat.leb_spec x y)
    | |- context [(?x =? ?y)%nat] => destruct (Nat.eqb_spec x y)
    end; lia || done.
  - intros l. induction l as [|a l IH]; [done|]. cbn [forallb]. intros Hl.
    apply andb_true_iff in Hl as [Ha Hl]. specialize (Hr a Ha). specialize (IH Hl).
    assert (shift_ascii a 97 122 true = a) as Hs.
    { unfold shift_ascii. destruct (Nat.leb_spec 97 (Ascii.nat_of_ascii a)); [lia|done]. }
    assert (forall k, (k > 128)%nat -> byte_is a k = false) as Hb.
    { intros k Hk. unfold byte_is. destruct (Nat.eqb_spec (Ascii.nat_of_ascii a) k); [lia|done]. }
    cbn [upper_bytes]. rewrite Hs, IH. destruct l as [|b l]; [done|].
    rewrite !Hb by lia. done.
Qed.

Lemma member_spec s l : member s l = true <-> s ∈ l.
Proof.
  unfold member. rewrite existsb_exists. setoid_rewrite String.eqb_eq.
  setoid_rewrite <- list_elem_of_In. split; [by intros (x & Hx & ->)|by exists s].
Qed.

(** A property of every word of a closed list, by evaluation. *)
Lemma member_check (p : string -> bool) l s : member s l = true -> forallb p l = true -> p s = true.
Proof.
  rewrite member_spec, forallb_forall. intros Hs Hp. by apply Hp, list_elem_of_In.
Qed.

Definition lower_fixed (s : string) : bool := strings_ToLower (strings_TrimSpace s) =s s.

Lemma validateSubscriptionCostSettings_fixed c c' :
  validateSubscriptionCostSettings c = Ok c' -> validateSubscriptionCostSettings c' = Ok c'.
Proof.
  unfold validateSubscriptionCostSettings. cbv zeta. intros H.
  set (d := cs_SubscriptionCost Default) in *.
  set (cur := if _ =s "" then sc_BaseCurrency d else _) in H.
  set (prov := if _ =s "" then sc_ExchangeRateProvider d else _) in H.
  set (offs := match normalizeReminderOffsets _ with [] => _ | _ => _ end) in H.
  apply result_bind_ok in H as (? & H1 & H). apply result_bind_ok in H as (? & H2 & H).
  apply result_bind_ok in H as (? & H3 & H). apply result_bind_ok in H as (? & H4 & H).
  apply result_bind_ok in H as (? & H5 & H). injection H as <-.
  cbn [sc_BaseCurrency sc_ExchangeRateProvider sc_FixerAPIKey sc_DefaultReminderOffsetsDays
       sc_MaxReminderLeadDays sc_ExchangeRateStaleAfterHours].
  apply reject_ok in H1, H2. rewrite negb_false_iff in H1, H2.
  rewrite (upper_word_id _ H1), !applyIntDefault_idemp, strings_TrimSpace_idemp.
  assert (strings_ToLower (strings_TrimSpace prov) = prov) as ->.
  { apply String.eqb_eq. apply (member_check lower_fixed _ _ H2). by vm_compute. }
  assert ((cur =s "") = false) as ->.
  { apply String.eqb_neq. intros E. by rewrite E in H1. }
  assert ((prov =s "") = false) as ->.
  { apply String.eqb_neq. intros E. by rewrite E in H2. }
  assert (match normalizeReminderOffsets offs with
          | [] => sc_DefaultReminderOffsetsDays d | _ => normalizeReminderOffsets offs end = offs) as ->.
  { subst offs. destruct (normalizeReminderOffsets (sc_DefaultReminderOffsetsDays c)) as [|o os] eqn:E.
    - by vm_compute.
    - by rewrite <- E, normalizeReminderOffsets_idemp, E. }
  rewrite H1, H2. cbn [negb]. replay_ok; eauto.
  - by apply reject_ok in H3.
  - by apply reject_ok in H5.
Qed.

Lemma normalize_services_spec seen values services :
  normalize_services seen values = Ok services ->
  NoDup services /\ (forall s, s ∈ services -> s ∈ defaultIPQualityServices /\ s ∉ seen).
Proof.
  revert seen services. induction values as [|v values IH]; intros seen services; cbn.
  { intros [= <-]. split; [constructor|set_solver]. }
  destruct (_ =s ""); [apply IH|]. destruct (member _ defaultIPQualityServices) eqn:Em; cbn [negb]; [|done].
  destruct (member _ seen) eqn:Es; [apply IH|].
  intros H. apply result_bind_ok in H as (rest & Hr & [= <-]).
  destruct (IH _ _ Hr) as [HN He]. apply member_spec in Em.
  assert (strings_ToLower (strings_TrimSpace v) ∉ seen) as Hv.
  { intros Hv. apply member_spec in Hv. congruence. }
  split; [constructor; [|done]; intros Hin; by destruct (He _ Hin) as [_ []]; constructor|].
  intros s [->|Hs]%elem_of_cons; [done|]. destruct (He _ Hs). set_solver.
Qed.

Lemma normalize_services_id seen services :
  NoDup services -> (forall s, s ∈ services -> s ∈ defaultIPQualityServices /\ s ∉ seen) ->
  normalize_services seen services = Ok services.
Proof.
  intros HN. revert seen. induction HN as [|s services Hs HN IH]; intros seen He; cbn; [done|].
  destruct (He s) as [Hd Hseen]; [constructor|]. apply member_spec in Hd.
  pose proof (member_check lower_fixed _ _ Hd) as Hl. unfold lower_fixed at 2 in Hl.
  rewrite String.eqb_eq in Hl. rewrite Hl by (by vm_compute). rewrite Hd. cbn [negb].
  assert ((s =s "") = false) as ->.
  { apply String.eqb_neq. intros E. by rewrite E in Hd. }
  destruct (member s seen) eqn:Em; [by apply member_spec in Em|].
  rewrite IH; [done|]. intros t Ht. split; [apply He; by constructor|].
  intros [->|Hin]%elem_of_cons; [done|]. destruct (He t); [by constructor|done].
Qed.

Lemma strings_TrimSpace_length s : (String.length (strings_TrimSpace s) <= String.length s)%nat.
Proof.
  assert (forall t, String.length t = length (String.list_ascii_of_string t)) as HL.
  { intros t. induction t as [|a t IH]; cbn; [done|by rewrite IH]. }
  rewrite !HL. unfold strings_TrimSpace. cbv zeta.
  rewrite String.list_ascii_of_string_of_list_ascii, length_rev.
  destruct (trim_bytes_spec space1 space2 space3 (String.list_ascii_of_string s)) as [_ Hl%suffix_length].
  destruct (trim_bytes_spec space1 (fun b a => space2 a b) (fun c b a => space3 a b c)
    (rev (trim_bytes space1 space2 space3 (String.list_ascii_of_string s)))) as [_ Hr%suffix_length].
  rewrite length_rev in Hr. lia.
Qed.

Lemma validateIPQualitySettings_fixed c c' :
  validateIPQualitySettings c = Ok c' -> validateIPQualitySettings c' = Ok c'.
Proof.
  unfold validateIPQualitySettings at 1. cbv zeta. intros H.
  apply result_bind_ok in H as (? & H1 & H). apply result_bind_ok in H as (? & H2 & H).
  destruct (isZeroIPQualitySettings _) eqn:Ez in H.
  { injection H as <-. by vm_compute. }
  cbn [iq_Enabled iq_FrequencySeconds iq_StaleAfterSeconds iq_TimeoutSeconds iq_Services iq_MailEnabled
       iq_Sources] in H.
  apply result_bind_ok in H as (? & H3 & H). apply result_bind_ok in H as (? & H4 & H).
  apply result_bind_ok in H as (? & H5 & H). apply result_bind_ok in H as (services & H6 & H).
  apply result_bind_ok in H as (? & H7 & H). injection H as <-.
  apply reject_ok in H1, H3, H4, H5, H7.
  assert (normalizeIPQualityServices services = Ok services) as Hs.
  { destruct (iq_Services c) as [values|]; [|by injection H6 as <-; vm_compute].
    apply normalize_services_spec in H6 as [HN He]. by apply normalize_services_id. }
  unfold validateIPQualitySettings, isZeroIPQualitySettings.
  cbn [iq_Enabled iq_FrequencySeconds iq_StaleAfterSeconds iq_TimeoutSeconds iq_Services iq_MailEnabled
       iq_Sources is_IPAPIISKey is_AbuseIPDBKey is_MaxMindAccountID is_MaxMindLicenseKey].
  assert ((iq_FrequencySeconds c =? 0) = false) as -> by (apply Z.eqb_neq; breflect; lia).
  rewrite andb_false_r, !andb_false_l, !strings_TrimSpace_idemp, applyIntDefault_idemp, Hs.
  replay_ok; eauto. breflect.
  pose proof (strings_TrimSpace_length (is_IPAPIISKey (iq_Sources c))).
  pose proof (strings_TrimSpace_length (is_AbuseIPDBKey (iq_Sources c))).
  apply orb_false_iff. split; apply Nat.ltb_ge; lia.
Qed.

(** Settings that passed validation pass it again unchanged, so that what the
    center stores is a fixed point of the validator in every section: trimming,
    case mapping, default filling, de-duplication and sorting all settle in one pass. *)
Theorem Validate_idempotent s s' (Hs : Validate s = Ok s') : Validate s' = Ok s'.
Proof.
  unfold Validate in Hs. cbv zeta in Hs.
  apply result_bind_ok in Hs as (? & H1 & Hs). apply result_bind_ok in Hs as (? & H2 & Hs).
  apply result_bind_ok in Hs as (p & H3 & Hs). apply result_bind_ok in Hs as (i & H4 & Hs).
  apply result_bind_ok in Hs as (o & H5 & Hs). apply result_bind_ok in Hs as (r & H6 & Hs).
  apply result_bind_ok in Hs as (c & H7 & Hs). apply result_bind_ok in Hs as (q & H8 & Hs).
  injection Hs as <-. apply reject_ok in H1, H2.
  unfold Validate.
  cbn [cs_Telegram cs_FeishuWebhookURL cs_HostSampleFrequencyTier cs_ProbeFrequencyDefaults
       cs_IncidentDefaults cs_OverrideRules cs_RetentionPolicy cs_SubscriptionCost cs_IPQuality
       tg_BotToken tg_ChatID tg_RuntimeManaged cs_FeishuEnabled cs_IncidentSweepRuntimeManaged
       cs_Effective].
  rewrite !strings_TrimSpace_idemp, H1, H2, (validateProbeFrequencyDefaults_fixed _ _ H3),
    (proj2 (validateIncidentDefaults_fixed _ _ H4)).
  cbn [reject mbind result_bind].
  by rewrite (validateOverrideRules_fixed _ _ _ H5), (validateRetentionPolicy_fixed _ _ H6),
    (validateSubscriptionCostSettings_fixed _ _ H7), (validateIPQualitySettings_fixed _ _ H8).
Qed.

Lemma Validate_idempotent_witness :
  exists s', Validate FreshInstallDefaults = Ok s' /\ Validate s' = Ok s'.
Proof.
  exists FreshInstallDefaults. split; [vm_compute; reflexivity|].
  apply (Validate_idempotent FreshInstallDefaults). vm_compute. reflexivity.
Defined.

(** * What validation guarantees *)

(** Three percentages in range and in order. *)
Definition ordered3 (w a c : Z) : Prop := 1 <= w /\ w < a /\ a < c /\ c <= 100.

Record incident_defaults_ok (d : IncidentDefaults) : Prop := {
  ok_heartbeat : 0 < id_HeartbeatIntervalSeconds d <= maxHeartbeatIntervalSeconds;
  ok_stale : 0 < id_StaleThresholdIntervals d <= maxIncidentThresholdIntervals;
  ok_sweep : 0 < id_SweepIntervalSeconds d <= maxIncidentDurationSeconds;
  ok_cpu : ordered3 (id_CPUWarningPct d) (id_CPUAlertPct d) (id_CPUCriticalPct d);
  ok_mem : ordered3 (id_MemWarningPct d) (id_MemAlertPct d) (id_MemCriticalPct d);
  ok_disk : ordered3 (id_DiskWarningPct d) (id_DiskAlertPct d) (id_DiskCriticalPct d);
  ok_inode : ordered3 (id_InodeWarningPct d) (id_InodeAlertPct d) (id_InodeCriticalPct d);
  ok_iowait : 1 <= id_IOWaitWarningPct d < id_IOWaitCriticalPct d /\ id_IOWaitCriticalPct d <= 100;
  ok_load : f64_le (id_Load5Warning d) f64_zero = false /\ f64_le (id_Load5Critical d) f64_zero = false /\
            f64_ge (id_Load5Warning d) (id_Load5Critical d) = false;
}.

Lemma three_level_ok n w a c : three_level_bad (n, (w, a, c)) = false <-> w < a /\ a < c.
Proof.
  unfold three_level_bad. rewrite negb_false_iff, andb_true_iff, !Z.ltb_lt. done.
Qed.

Lemma pct_in_range v : pct_out_of_range v = false <-> 1 <= v <= 100.
Proof. unfold pct_out_of_range. rewrite orb_false_iff, !Z.ltb_ge. lia. Qed.

Lemma threshold_order_ok prefix d x :
  validateIncidentThresholdOrder prefix d = Ok x <->
  (id_CPUWarningPct d < id_CPUAlertPct d /\ id_CPUAlertPct d < id_CPUCriticalPct d) /\
  (id_MemWarningPct d < id_MemAlertPct d /\ id_MemAlertPct d < id_MemCriticalPct d) /\
  (id_DiskWarningPct d < id_DiskAlertPct d /\ id_DiskAlertPct d < id_DiskCriticalPct d) /\
  (id_InodeWarningPct d < id_InodeAlertPct d /\ id_InodeAlertPct d < id_InodeCriticalPct d) /\
  id_IOWaitWarningPct d < id_IOWaitCriticalPct d /\
  f64_ge (id_Load5Warning d) (id_Load5Critical d) = false.
Proof.
  unfold validateIncidentThresholdOrder. rewrite result_bind_ok. split.
  - intros (? & H1 & H). apply result_bind_ok in H as (? & H2 & H3).
    apply first_error_ok in H1. apply reject_ok in H2, H3. unfold threeLevelThresholds in H1.
    rewrite !Forall_cons, !three_level_ok in H1. destruct_and!. breflect. by repeat split.
  - intros (Hc & Hm & Hd & Hi & Hw & Hl). exists tt. split.
    + apply first_error_ok. unfold threeLevelThresholds.
      by rewrite !Forall_cons, !three_level_ok, Forall_nil.
    + apply result_bind_ok. exists tt. split; apply reject_ok; [|done]. by apply Z.leb_gt.
Qed.

Lemma validateIncidentDefaults_ok d d' : validateIncidentDefaults d = Ok d' -> incident_defaults_ok d'.
Proof.
  intros Hd.
  destruct (validateIncidentDefaults_fixed _ _ Hd) as [_ H]. clear Hd.
  pose proof (proj1 (validateIncidentDefaults_fixed _ _ H)) as Hfix.
  unfold validateIncidentDefaults in H. cbv zeta in H. rewrite <- Hfix in H.
  repeat (apply result_bind_ok in H as (? & ?Hr & H)).
  apply reject_ok in Hr, Hr0, Hr1, Hr2, Hr3, Hr4, Hr6, Hr7.
  apply first_error_ok in Hr5. apply threshold_order_ok in Hr8. unfold thresholdFields in Hr5.
  rewrite !Forall_cons, !pct_in_range in Hr5. cbn [snd] in Hr5. destruct_and!. breflect.
  split; unfold ordered3; try lia. done.
Qed.

(** What validateIncidentDefaults lets through is usable by every
    evaluator: positive intervals whose products fit in 64 bits, each percentage
    between 1 and 100, warning below alert below critical, and a load warning that
    is positive and below the critical load. *)
Theorem validated_incident_defaults d d' (Hd : validateIncidentDefaults d = Ok d') :
  incident_defaults_ok d'.
Proof. exact (validateIncidentDefaults_ok _ _ Hd). Qed.

Lemma validated_incident_defaults_witness :
  exists d', validateIncidentDefaults default_incident_defaults = Ok d' /\ incident_defaults_ok d'.
Proof.
  exists default_incident_defaults.
  assert (validateIncidentDefaults default_incident_defaults = Ok default_incident_defaults) as H
    by (vm_compute; reflexivity).
  split; [exact H|]. exact (validated_incident_defaults _ _ H).
Defined.

(** The tiers a probe override sets are known. *)
Definition probe_override_ok (o : ProbeFrequencyOverride) : Prop :=
  forall tier, po_TCP o = Some tier \/ po_HTTP o = Some tier \/ po_TLS o = Some tier ->
    IsValidFrequencyTier tier = true.

(** What a validated rule promises: a selector that is trimmed and acceptable, known
    tiers, and incident overrides that keep the thresholds of the base settings in
    order. *)
Definition rule_ok (selector_ok : string -> bool) (d : IncidentDefaults) (rule : OverrideRule) : Prop :=
  selector_ok (or_Selector rule) = true /\
  strings_TrimSpace (or_Selector rule) = or_Selector rule /\
  (forall tier, so_HostSampleFrequencyTier (or_Overrides rule) = Some tier ->
     IsValidFrequencyTier tier = true) /\
  (forall o, so_ProbeFrequencyDefaults (or_Overrides rule) = Some o -> probe_override_ok o) /\
  (forall o, so_IncidentDefaults (or_Overrides rule) = Some o ->
     exists u, validateIncidentThresholdOrder "" (incidentDefaultsFromOverride o d) = Ok u).

Lemma known_ptr err ptr ptr' tier :
  validate_ptr (trim_tier err) ptr = Ok ptr' -> ptr' = Some tier -> IsValidFrequencyTier tier = true.
Proof.
  destruct ptr as [t|]; cbn [validate_ptr]; [|by intros [= <-]].
  intros (t' & Ht & [= <-])%result_bind_ok [= ->]. unfold trim_tier in Ht. cbv zeta in Ht.
  destruct (IsValidFrequencyTier _) eqn:E; [|done]. by injection Ht as <-.
Qed.

Lemma probe_override_validated o o' : validateProbeFrequencyOverride o = Ok o' -> probe_override_ok o'.
Proof.
  unfold validateProbeFrequencyOverride. cbv zeta. intros H.
  apply result_bind_ok in H as (t1 & H1 & H). apply result_bind_ok in H as (t2 & H2 & H).
  apply result_bind_ok in H as (t3 & H3 & H). destruct (negb _); [done|]. injection H as <-.
  intros tier. cbn. intros [E|[E|E]]; [exact (known_ptr _ _ _ _ H1 E)|exact (known_ptr _ _ _ _ H2 E)|exact (known_ptr _ _ _ _ H3 E)].
Qed.

Lemma override_fields_ok f f' d :
  validateSettingsOverrideFields f d = Ok f' ->
  (forall tier, so_HostSampleFrequencyTier f' = Some tier -> IsValidFrequencyTier tier = true) /\
  (forall o, so_ProbeFrequencyDefaults f' = Some o -> probe_override_ok o) /\
  (forall o, so_IncidentDefaults f' = Some o ->
     exists u, validateIncidentThresholdOrder "" (incidentDefaultsFromOverride o d) = Ok u).
Proof.
  unfold validateSettingsOverrideFields. intros H.
  apply result_bind_ok in H as (tier & H1 & H). apply result_bind_ok in H as (probe & H2 & H).
  apply result_bind_ok in H as (incident & H3 & H).
  destruct (negb _) in H; [done|]. injection H as <-.
  cbn [so_HostSampleFrequencyTier so_IncidentDefaults so_ProbeFrequencyDefaults]. split; [|split].
  - intros t Et. exact (known_ptr _ _ _ _ H1 Et).
  - intros o ->. destruct (so_ProbeFrequencyDefaults f); [|done].
    apply result_bind_ok in H2 as (o' & Ho & [= ->]). by eapply probe_override_validated.
  - intros o ->. destruct (so_IncidentDefaults f); [|done].
    apply result_bind_ok in H3 as (o' & Ho & [= ->]).
    unfold validateIncidentDefaultsOverride in Ho.
    repeat (apply result_bind_ok in Ho as (? & ?Hr & Ho)). injection Ho as <-.
    apply threshold_order_ok in Hr9. exists tt. by apply threshold_order_ok.
Qed.

Lemma validate_rules_ok ok e1 e2 d seen rules rules' :
  validate_rules ok e1 e2 d seen rules = Ok rules' ->
  Forall (rule_ok ok d) rules' /\ NoDup (or_Selector <$> rules') /\
  (forall s, s ∈ or_Selector <$> rules' -> s ∉ seen).
Proof.
  revert seen rules'. induction rules as [|rule rules IH]; intros seen rules'; cbn [validate_rules].
  { intros [= <-]. split; [constructor|]. split; [constructor|set_solver]. }
  cbv zeta. destruct (negb (ok _)) eqn:E1; [done|]. destruct (member _ seen) eqn:E2; [done|].
  intros H. apply result_bind_ok in H as (o & Ho & H).
  apply result_bind_ok in H as (rest & Hr & [= <-]).
  destruct (IH _ _ Hr) as (HF & HN & Hs). apply negb_false_iff in E1.
  assert (strings_TrimSpace (or_Selector rule) ∉ seen) as Hnew.
  { intros Hin. apply member_spec in Hin. congruence. }
  rewrite fmap_cons. cbn [or_Selector]. repeat split.
  - constructor; [|done]. split; [done|]. split; [apply strings_TrimSpace_idemp|].
    by eapply override_fields_ok.
  - constructor; [|done]. intros Hin. by apply (Hs _ Hin); constructor.
  - intros s [->|Hin]%elem_of_cons; [done|]. specialize (Hs _ Hin). set_solver.
Qed.

(** In accepted override rules the selectors are trimmed, acceptable and
    pairwise distinct, every frequency tier is known, and applying a rule's incident
    override to the base defaults leaves warning below alert below critical. *)
Theorem validated_override_rules input d rules (Hr : validateOverrideRules input d = Ok rules) :
  (Forall (rule_ok (fun l => l <>s "") d) (ov_MonitoringInstanceLabels rules) /\
   NoDup (or_Selector <$> ov_MonitoringInstanceLabels rules)) /\
  (Forall (rule_ok IsValidTargetType d) (ov_TargetTypes rules) /\
   NoDup (or_Selector <$> ov_TargetTypes rules)) /\
  (Forall (rule_ok (fun l => l <>s "") d) (ov_TargetLabels rules) /\
   NoDup (or_Selector <$> ov_TargetLabels rules)).
Proof.
  unfold validateOverrideRules in Hr.
  apply result_bind_ok in Hr as (l1 & H1 & Hr). apply result_bind_ok in Hr as (l2 & H2 & Hr).
  apply result_bind_ok in Hr as (l3 & H3 & [= <-]).
  cbn [ov_MonitoringInstanceLabels ov_TargetTypes ov_TargetLabels].
  apply validate_rules_ok in H1 as (? & ? & _), H2 as (? & ? & _), H3 as (? & ? & _). done.
Qed.

Lemma validated_override_rules_witness :
  NoDup (or_Selector <$> ov_MonitoringInstanceLabels (cs_OverrideRules FreshInstallDefaults)).
Proof.
  assert (validateOverrideRules (cs_OverrideRules FreshInstallDefaults) default_incident_defaults
          = Ok (cs_OverrideRules FreshInstallDefaults)) as H by (vm_compute; reflexivity).
  exact (proj2 (proj1 (validated_override_rules _ _ _ H))).
Defined.

Lemma Validate_tiers s s' :
  Validate s = Ok s' ->
  IsValidFrequencyTier (cs_HostSampleFrequencyTier s') = true /\
  Forall (fun r => forall tier, so_HostSampleFrequencyTier (or_Overrides r) = Some tier ->
            IsValidFrequencyTier tier = true) (ov_MonitoringInstanceLabels (cs_OverrideRules s')).
Proof.
  intros Hs. unfold Validate in Hs. cbv zeta in Hs.
  apply result_bind_ok in Hs as (? & _ & Hs). apply result_bind_ok in Hs as (? & H2 & Hs).
  apply result_bind_ok in Hs as (? & _ & Hs). apply result_bind_ok in Hs as (? & _ & Hs).
  apply result_bind_ok in Hs as (o & H5 & Hs). apply result_bind_ok in Hs as (? & _ & Hs).
  apply result_bind_ok in Hs as (? & _ & Hs). apply result_bind_ok in Hs as (? & _ & [= <-]).
  cbn [cs_HostSampleFrequencyTier cs_OverrideRules]. apply reject_ok, negb_false_iff in H2.
  split; [done|]. unfold validateOverrideRules in H5.
  apply result_bind_ok in H5 as (l1 & H1 & H5). apply result_bind_ok in H5 as (? & _ & H5).
  apply result_bind_ok in H5 as (? & _ & [= <-]). cbn [ov_MonitoringInstanceLabels].
  apply validate_rules_ok in H1 as (HF & _). eapply Forall_impl; [exact HF|]. by intros r (_ & _ & ? & _).
Qed.

Lemma Validate_probe_tiers s s' :
  Validate s = Ok s' ->
  Forall (fun r => forall o, so_ProbeFrequencyDefaults (or_Overrides r) = Some o -> probe_override_ok o)
    (ov_TargetTypes (cs_OverrideRules s') ++ ov_TargetLabels (cs_OverrideRules s')).
Proof.
  intros Hs. unfold Validate in Hs. cbv zeta in Hs. repeat (apply result_bind_ok in Hs as (? & ?H & Hs)).
  injection Hs as <-. cbn [cs_OverrideRules]. unfold validateOverrideRules in *.
  repeat match goal with H : context [validate_rules] |- _ => apply result_bind_ok in H as (? & ?V & H) end.
  simplify_eq/=. apply Forall_app.
  split; [apply validate_rules_ok in V0 as (HF & _)|apply validate_rules_ok in V1 as (HF & _)];
    (eapply Forall_impl; [exact HF|]); by intros r (_ & _ & _ & ? & _).
Qed.

(** Accepted subscription settings list their reminder offsets in strictly
    decreasing order, none negative and none beyond the maximal lead. *)
Theorem validated_reminder_offsets c c' (Hc : validateSubscriptionCostSettings c = Ok c') :
  StronglySorted (fun x y => y < x) (sc_DefaultReminderOffsetsDays c') /\
  sc_DefaultReminderOffsetsDays c' <> [] /\
  Forall (fun o => 0 <= o <= sc_MaxReminderLeadDays c') (sc_DefaultReminderOffsetsDays c').
Proof.
  unfold validateSubscriptionCostSettings in Hc. cbv zeta in Hc.
  apply result_bind_ok in Hc as (? & _ & Hc). apply result_bind_ok in Hc as (? & _ & Hc).
  apply result_bind_ok in Hc as (? & _ & Hc). apply result_bind_ok in Hc as (? & H4 & Hc).
  apply result_bind_ok in Hc as (? & _ & [= <-]).
  cbn [sc_DefaultReminderOffsetsDays sc_MaxReminderLeadDays]. apply first_error_ok in H4.
  split; [|split].
  - pose proof (proj1 (normalizeReminderOffsets_spec (sc_DefaultReminderOffsetsDays c))) as Hs.
    destruct (normalizeReminderOffsets _); [|exact Hs].
    cbn. repeat constructor; lia.
  - by destruct (normalizeReminderOffsets _).
  - eapply Forall_impl; [exact H4|]. cbv beta. intros o Ho. apply orb_false_iff in Ho as [Ho1 Ho2].
    apply Z.ltb_ge in Ho1, Ho2. split; [exact Ho1|exact Ho2].
Qed.

Lemma validated_reminder_offsets_witness :
  StronglySorted (fun x y => y < x) [21; 7; 3] .
Proof.
  set (c o := {| sc_BaseCurrency := " usd "; sc_ExchangeRateProvider := "Fixer"; sc_FixerAPIKey := "";
    sc_DefaultReminderOffsetsDays := o; sc_MaxReminderLeadDays := 0;
    sc_ExchangeRateStaleAfterHours := 0 |}).
  set (c' := {| sc_BaseCurrency := "USD"; sc_ExchangeRateProvider := "fixer"; sc_FixerAPIKey := "";
    sc_DefaultReminderOffsetsDays := [21; 7; 3]; sc_MaxReminderLeadDays := 30;
    sc_ExchangeRateStaleAfterHours := 36 |}).
  assert (validateSubscriptionCostSettings (c [7; 3; 21; 7]) = Ok c') as H by (vm_compute; reflexivity).
  exact (proj1 (validated_reminder_offsets _ _ H)).
Defined.

(** * Effective settings and tiers *)

(** Resolving twice with the same deployment changes nothing; a value
    managed at runtime is never replaced by the deployment's, and the sweep interval
    is positive whenever the stored one is. *)
Theorem ResolveEffectiveSettings_stable stored deployment :
  let effective := ResolveEffectiveSettings stored deployment in
  ResolveEffectiveSettings effective deployment = effective /\
  (tg_RuntimeManaged (cs_Telegram stored) = true -> cs_Telegram effective = cs_Telegram stored) /\
  (cs_IncidentSweepRuntimeManaged stored = true ->
     cs_IncidentDefaults effective = cs_IncidentDefaults stored) /\
  (0 < id_SweepIntervalSeconds (cs_IncidentDefaults stored) ->
     0 < id_SweepIntervalSeconds (cs_IncidentDefaults effective)).
Proof.
  cbv zeta. unfold ResolveEffectiveSettings, ResolveTelegram. cbv zeta.
  destruct (tg_RuntimeManaged (cs_Telegram stored)) eqn:Et, (cs_IncidentSweepRuntimeManaged stored) eqn:Es;
    cbn; rewrite ?Et, ?Es; (split; [done|]); (split; [done|]); (split; [done|]); try done; intros _;
    (destruct (Z.leb_spec (dd_IncidentSweepIntervalSeconds deployment) 0); lia).
Qed.

(** The tier of a monitoring instance is that of the first rule, in rule order,
    whose label the instance carries and which sets a tier; without such a rule it
    is the base tier. *)
Theorem ResolveHostSampleFrequencyTier_first base labels rules :
  ResolveHostSampleFrequencyTier base labels rules =
  default base (head (omap (fun r => so_HostSampleFrequencyTier (or_Overrides r))
    (filter (fun r => or_Selector r ∈ labels) (ov_MonitoringInstanceLabels rules)))).
Proof.
  unfold ResolveHostSampleFrequencyTier.
  induction (ov_MonitoringInstanceLabels rules) as [|rule rest IH]; [done|]. cbn [resolve_tier].
  destruct (member (or_Selector rule) labels) eqn:Em; cbn [negb].
  - rewrite filter_cons_True by (by apply member_spec). cbn.
    by destruct (so_HostSampleFrequencyTier (or_Overrides rule)).
  - rewrite filter_cons_False by (intros Hin; apply member_spec in Hin; congruence). done.
Qed.
