(* ===== verification/IncidentPolicy.v ===== *)
(** The policies the incident service derives from the center settings
    (src/internal/center/incidents/heartbeat_policy.go and the policy functions of
    service.go): heartbeat policy, metric thresholds, resource-pressure policy and
    notification policy. *)
From stdpp Require Import base list strings.
From Stdlib Require Import ZArith Lia.
From S2P Require Import Prelude GoRuntime AgentApi IncidentTypes Transition Evaluator ResourcePressure Settings.

Local Open Scope Z_scope.

(** * Definitions *)

(** [time.Duration(seconds) * time.Second], with its wrap-around. *)
Definition seconds_duration (seconds : Z) : Z := wrap64 (seconds * Second).

Definition heartbeat_policy (interval missingThreshold : Z) : HeartbeatIncidentPolicy := {|
  hp_HeartbeatInterval := interval;
  hp_MissingThreshold := missingThreshold;
  hp_RecoverySuccesses := heartbeatRecoverySuccesses;
  hp_RecoveryMaxIntervalGap := wrap64 (2 * interval) |}.

Definition HeartbeatIncidentPolicyFromSettings (settings : CenterSettings)
    : result HeartbeatIncidentPolicy :=
  match ValidateIncidentDefaults (cs_IncidentDefaults settings) with
  | Err err => Err (ErrWrap "validate heartbeat incident policy: %w" [] [err])
  | Ok defaults =>
      let policy := heartbeat_policy (seconds_duration (id_HeartbeatIntervalSeconds defaults))
                      (id_StaleThresholdIntervals defaults) in
      if negb (validHeartbeatIncidentPolicy policy)
      then Err (ErrNew "validate heartbeat incident policy: invalid effective policy")
      else Ok policy
  end.

Definition midpointInt (low high : Z) : Z :=
  if high <=? low then low else low + Z.quot (high - low) 2.

Definition midpointFloat (low high : float64) : float64 :=
  if f64_le high low then low else f64_add low (f64_div (f64_sub high low) (f64_of_Z 2)).

Definition positive_or (value fallback : Z) : Z := if 0 <? value then value else fallback.
Definition positive_load_or (value fallback : float64) : float64 :=
  if f64_gt value f64_zero then value else fallback.

Definition MetricThresholdsFromDefaults (defaults : IncidentDefaults) : MetricThresholds :=
  let t := DefaultMetricThresholds in
  let iowaitWarning := positive_or (id_IOWaitWarningPct defaults) (mt_IOWaitWarningPct t) in
  let iowaitCritical := positive_or (id_IOWaitCriticalPct defaults) (mt_IOWaitCriticalPct t) in
  let loadWarning := positive_load_or (id_Load5Warning defaults) (mt_Load5Warning t) in
  let loadCritical := positive_load_or (id_Load5Critical defaults) (mt_Load5Critical t) in
  {| mt_CPUWarningPct := positive_or (id_CPUWarningPct defaults) (mt_CPUWarningPct t);
     mt_CPUAlertPct := positive_or (id_CPUAlertPct defaults) (mt_CPUAlertPct t);
     mt_CPUCriticalPct := positive_or (id_CPUCriticalPct defaults) (mt_CPUCriticalPct t);
     mt_MemWarningPct := positive_or (id_MemWarningPct defaults) (mt_MemWarningPct t);
     mt_MemAlertPct := positive_or (id_MemAlertPct defaults) (mt_MemAlertPct t);
     mt_MemCriticalPct := positive_or (id_MemCriticalPct defaults) (mt_MemCriticalPct t);
     mt_DiskWarningPct := positive_or (id_DiskWarningPct defaults) (mt_DiskWarningPct t);
     mt_DiskAlertPct := positive_or (id_DiskAlertPct defaults) (mt_DiskAlertPct t);
     mt_DiskCriticalPct := positive_or (id_DiskCriticalPct defaults) (mt_DiskCriticalPct t);
     mt_InodeWarningPct := positive_or (id_InodeWarningPct defaults) (mt_InodeWarningPct t);
     mt_InodeAlertPct := positive_or (id_InodeAlertPct defaults) (mt_InodeAlertPct t);
     mt_InodeCriticalPct := positive_or (id_InodeCriticalPct defaults) (mt_InodeCriticalPct t);
     mt_IOWaitWarningPct := iowaitWarning;
     mt_IOWaitAlertPct := midpointInt iowaitWarning iowaitCritical;
     mt_IOWaitCriticalPct := iowaitCritical;
     mt_Load5Warning := loadWarning;
     mt_Load5Alert := midpointFloat loadWarning loadCritical;
     mt_Load5Critical := loadCritical |}.

Record notificationPolicy := {
  np_notifyOnStarted : bool; np_notifyOnEscalated : bool; np_notifyOnRecovered : bool;
}.

Definition notificationPolicyFromDefaults (defaults : IncidentDefaults) : notificationPolicy := {|
  np_notifyOnStarted := id_NotifyOnStarted defaults;
  np_notifyOnEscalated := id_NotifyOnEscalated defaults;
  np_notifyOnRecovered := id_NotifyOnRecovered defaults |}.

Definition defaultNotificationPolicy : notificationPolicy :=
  notificationPolicyFromDefaults (cs_IncidentDefaults Default).

(** [notificationPolicy.enabled]. *)
Definition policy_enabled (p : notificationPolicy) (reason : string) : bool :=
  if reason =s NotificationReasonStarted then np_notifyOnStarted p
  else if reason =s NotificationReasonEscalated then np_notifyOnEscalated p
  else if reason =s NotificationReasonRecovered then np_notifyOnRecovered p
  else true.

Record incidentPolicySnapshot := {
  ps_heartbeat : HeartbeatIncidentPolicy;
  ps_metrics : MetricThresholds;
  ps_notification : notificationPolicy;
}.

(** The switch of [resourcePressurePolicy] on the frequency tier. *)
Definition tier_interval (tier : string) : option Z :=
  if tier =s FrequencyTier5s then Some (5 * Second)
  else if tier =s FrequencyTier1m then Some Minute
  else if tier =s FrequencyTier5m then Some (5 * Minute)
  else if tier =s FrequencyTier15m then Some (15 * Minute)
  else if tier =s FrequencyTier6h then Some (6 * Hour)
  else None.

Definition resource_policy_for (settings : CenterSettings) (labels : list string) (now : Z)
    : result ResourcePressurePolicy :=
  match tier_interval (ResolveHostSampleFrequencyTier (cs_HostSampleFrequencyTier settings) labels
                         (cs_OverrideRules settings)) with
  | None => Err (ErrNew "invalid resource pressure sample frequency tier")
  | Some interval => Ok {| rp_EvaluatedAt := now; rp_SampleInterval := interval |}
  end.

(** What [resolveIncidentPolicySnapshot] makes of the incident defaults it read. *)
Definition snapshot_of_defaults (defaults : IncidentDefaults) : result incidentPolicySnapshot :=
  match ValidateIncidentDefaults defaults with
  | Err err => Err (ErrWrap "validate incident policy settings: %w" [] [err])
  | Ok validated => Ok {|
      ps_heartbeat := heartbeat_policy (seconds_duration (id_HeartbeatIntervalSeconds validated))
                        (id_StaleThresholdIntervals validated);
      ps_metrics := MetricThresholdsFromDefaults validated;
      ps_notification := notificationPolicyFromDefaults validated |}
  end.

(** The policy of a service without a settings repository. *)
Definition fallback_snapshot (fallbackHeartbeatInterval : Z) : incidentPolicySnapshot := {|
  ps_heartbeat := heartbeat_policy fallbackHeartbeatInterval
                    (id_StaleThresholdIntervals (cs_IncidentDefaults Default));
  ps_metrics := MetricThresholdsFromDefaults (cs_IncidentDefaults Default);
  ps_notification := notificationPolicyFromDefaults (cs_IncidentDefaults Default) |}.

(** * Theorems *)

Example MetricThresholdsFromDefaults_default :
  MetricThresholdsFromDefaults (cs_IncidentDefaults Default) = DefaultMetricThresholds.
Proof. vm_compute. reflexivity. Qed.

Lemma heartbeat_policy_valid d :
  incident_defaults_ok d ->
  validHeartbeatIncidentPolicy (heartbeat_policy (seconds_duration (id_HeartbeatIntervalSeconds d))
    (id_StaleThresholdIntervals d)) = true /\
  seconds_duration (id_HeartbeatIntervalSeconds d) = id_HeartbeatIntervalSeconds d * Second.
Proof.
  intros [[Hh1 Hh2] [Hs1 Hs2] _ _ _ _ _ _ _].
  assert (maxHeartbeatIntervalSeconds = 4611686018) as Em by reflexivity.
  assert (seconds_duration (id_HeartbeatIntervalSeconds d) = id_HeartbeatIntervalSeconds d * Second) as Ed.
  { unfold seconds_duration. apply wrap64_id. unfold in_int64, min_int64, max_int64, Second in *.
    rewrite Em in Hh2. lia. }
  split; [|done]. rewrite Ed. unfold validHeartbeatIncidentPolicy, heartbeat_policy.
  cbn [hp_HeartbeatInterval hp_MissingThreshold hp_RecoverySuccesses hp_RecoveryMaxIntervalGap].
  rewrite !Z.eqb_refl, !andb_true_r.
  assert (maxHeartbeatIncidentInterval = 4611686018427387903) as -> by reflexivity.
  assert (Z.quot max_int64 4 = 2305843009213693951) as -> by reflexivity.
  assert (maxIncidentThresholdIntervals = 2305843009213693951) as Et by reflexivity.
  assert (Second = 1000000000) as -> by reflexivity. rewrite Em in Hh2. rewrite Et in Hs2.
  repeat (apply andb_true_intro; split); first [apply Z.ltb_lt | apply Z.leb_le]; lia.
Qed.

Lemma validated_defaults_ok d d' : ValidateIncidentDefaults d = Ok d' -> incident_defaults_ok d'.
Proof.
  intros Hd. destruct (validateIncidentDefaults_fixed _ _ Hd) as [_ H].
  exact (validateIncidentDefaults_ok _ _ H).
Qed.

(** The heartbeat policy of the settings exists exactly when the incident
    defaults validate; it is then valid for the evaluator, its interval is the
    configured number of seconds without overflow and its recovery gap is twice that. *)
Theorem heartbeat_policy_total settings :
  match ValidateIncidentDefaults (cs_IncidentDefaults settings) with
  | Err e => HeartbeatIncidentPolicyFromSettings settings =
               Err (ErrWrap "validate heartbeat incident policy: %w" [] [e])
  | Ok d => exists policy, HeartbeatIncidentPolicyFromSettings settings = Ok policy /\
      validHeartbeatIncidentPolicy policy = true /\
      hp_HeartbeatInterval policy = id_HeartbeatIntervalSeconds d * Second /\
      hp_RecoveryMaxIntervalGap policy = 2 * (id_HeartbeatIntervalSeconds d * Second) /\
      hp_MissingThreshold policy = id_StaleThresholdIntervals d
  end.
Proof.
  unfold HeartbeatIncidentPolicyFromSettings.
  destruct (ValidateIncidentDefaults _) as [d|e] eqn:Ev; [|done].
  apply validated_defaults_ok in Ev. destruct (heartbeat_policy_valid d Ev) as [Hv Ed].
  cbv zeta. rewrite Hv. cbn [negb]. eexists. split; [done|]. split; [done|].
  cbn [heartbeat_policy hp_HeartbeatInterval hp_RecoveryMaxIntervalGap hp_MissingThreshold].
  rewrite Ed. split; [done|]. split; [|done].
  apply wrap64_id. destruct Ev as [[? Hh] _ _ _ _ _ _ _ _].
  assert (maxHeartbeatIntervalSeconds = 4611686018) as Em by reflexivity. rewrite Em in Hh.
  unfold in_int64, min_int64, max_int64, Second. lia.
Qed.

Lemma midpointInt_between low high : low <= high -> low <= midpointInt low high <= high.
Proof.
  intros H. unfold midpointInt. destruct (Z.leb_spec high low); [lia|].
  assert (0 <= Z.quot (high - low) 2 <= high - low); [|lia].
  rewrite Z.quot_div_nonneg by lia. split; [apply Z.div_pos; lia|apply Z.div_le_upper_bound; lia].
Qed.

(** The metric thresholds of validated incident defaults are the configured
    ones, in order: warning below alert below critical for CPU, memory, disk and
    inodes, and an I/O-wait alert between its warning and its critical level. *)
Theorem validated_thresholds_ordered d d' (Hd : ValidateIncidentDefaults d = Ok d') :
  let t := MetricThresholdsFromDefaults d' in
  ordered3 (mt_CPUWarningPct t) (mt_CPUAlertPct t) (mt_CPUCriticalPct t) /\
  ordered3 (mt_MemWarningPct t) (mt_MemAlertPct t) (mt_MemCriticalPct t) /\
  ordered3 (mt_DiskWarningPct t) (mt_DiskAlertPct t) (mt_DiskCriticalPct t) /\
  ordered3 (mt_InodeWarningPct t) (mt_InodeAlertPct t) (mt_InodeCriticalPct t) /\
  mt_IOWaitWarningPct t <= mt_IOWaitAlertPct t <= mt_IOWaitCriticalPct t /\
  mt_DiskWarningPct t = id_DiskWarningPct d' /\ mt_DiskCriticalPct t = id_DiskCriticalPct d'.
Proof.
  destruct (validated_defaults_ok _ _ Hd) as [_ _ _ Hc Hm Hk Hi Hw _]. unfold ordered3 in *.
  unfold MetricThresholdsFromDefaults, positive_or.
  cbn -[DefaultMetricThresholds midpointInt midpointFloat Z.ltb].
  repeat match goal with |- context [0 <? ?x] => destruct (Z.ltb_spec 0 x); [|lia] end.
  pose proof (midpointInt_between (id_IOWaitWarningPct d') (id_IOWaitCriticalPct d')).
  repeat split; lia.
Qed.

Lemma validated_thresholds_ordered_witness :
  ordered3 (mt_DiskWarningPct DefaultMetricThresholds) (mt_DiskAlertPct DefaultMetricThresholds)
    (mt_DiskCriticalPct DefaultMetricThresholds).
Proof.
  assert (ValidateIncidentDefaults default_incident_defaults = Ok default_incident_defaults) as H
    by (vm_compute; reflexivity).
  exact (proj1 (proj2 (proj2 (validated_thresholds_ordered _ _ H)))).
Defined.

Lemma resolve_tier_known base labels rules :
  IsValidFrequencyTier base = true ->
  Forall (fun r => forall tier, so_HostSampleFrequencyTier (or_Overrides r) = Some tier ->
            IsValidFrequencyTier tier = true) rules ->
  IsValidFrequencyTier (resolve_tier base labels rules) = true.
Proof.
  intros Hb. induction 1 as [|r rules Hr _ IH]; cbn [resolve_tier]; [done|].
  destruct (negb _); [done|]. destruct (so_HostSampleFrequencyTier _) as [t|]; [|done]. by apply Hr.
Qed.

(** Under validated settings every monitoring instance, whatever its
    labels, has a resource-pressure policy, and one the evaluator accepts. *)
Theorem resource_policy_total s s' labels now (Hs : Validate s = Ok s') (Hnow : now <> 0) :
  exists policy, resource_policy_for s' labels now = Ok policy /\
    validResourcePressurePolicy policy = true.
Proof.
  destruct (Validate_tiers _ _ Hs) as [Ht Hr].
  pose proof (resolve_tier_known _ labels _ Ht Hr) as Hk.
  unfold resource_policy_for, ResolveHostSampleFrequencyTier.
  apply member_spec in Hk.
  assert (exists i, tier_interval (resolve_tier (cs_HostSampleFrequencyTier s') labels
            (ov_MonitoringInstanceLabels (cs_OverrideRules s'))) = Some i /\
          In i [5 * Second; Minute; 5 * Minute; 15 * Minute; 6 * Hour]) as (i & -> & Hi).
  { revert Hk. generalize (resolve_tier (cs_HostSampleFrequencyTier s') labels
      (ov_MonitoringInstanceLabels (cs_OverrideRules s'))). intros tier Hk.
    rewrite !elem_of_cons, elem_of_nil in Hk.
    destruct Hk as [->|[->|[->|[->|[->|[]]]]]]; eexists; (split; [reflexivity|]); cbn; tauto. }
  eexists. split; [done|]. unfold validResourcePressurePolicy. cbn [rp_EvaluatedAt rp_SampleInterval].
  unfold Time_IsZero. destruct (Z.eqb_spec now 0); [done|].
  apply existsb_exists. exists i. by rewrite Z.eqb_refl.
Qed.

Lemma resource_policy_total_witness :
  exists policy, resource_policy_for FreshInstallDefaults ["核心"] 1000 = Ok policy /\
    validResourcePressurePolicy policy = true.
Proof.
  apply (resource_policy_total FreshInstallDefaults); [vm_compute; reflexivity|discriminate].
Defined.
