(* ===== verification/TargetSeries.v ===== *)
(** Target evaluation across probe series (src/internal/center/incidents/service.go):
    observations are grouped by probe item and executing instance, each series is
    evaluated by itself, and the worst series decides. *)
From stdpp Require Import base list sorting strings gmap.
From Stdlib Require Import ZArith Lia Permutation.
From S2P Require Import Prelude GoRuntime AgentApi IncidentTypes Transition Evaluator ResourcePressure Trend.

Local Open Scope Z_scope.
#[local] Set Warnings "-clear-no-such-hyp".

(** * Definitions *)

Definition series_key (o : ProbeObservation) : string :=
  po_ProbeItemID o +:+ "|" +:+ po_MonitoringInstanceID o.

(** One turn of the grouping loop: the keys in order of appearance, the groups. *)
Definition group_step (st : list string * gmap string (list ProbeObservation)) (o : ProbeObservation)
    : list string * gmap string (list ProbeObservation) :=
  let '(keys, grouped) := st in
  (match grouped !! series_key o with None => keys ++ [series_key o] | Some _ => keys end,
   append_at grouped (series_key o) o).

Definition groupProbeSeries (observations : list ProbeObservation) : list (list ProbeObservation) :=
  let '(keys, grouped) := fold_left group_step (normalizeProbeObservations observations) ([], ∅) in
  (fun key => normalizeProbeObservations (default [] (grouped !! key))) <$> sort_Strings keys.

Definition observationSeriesSuppressed (series : list ProbeObservation) : bool :=
  match series with
  | [] => false
  | o :: _ => po_MaintenanceContext o || po_IsBackfilled o
  end.

(** The variables of the loop over the series. *)
Record series_state := {
  ss_active : list IncidentRecord;
  ss_recoveryEligibleCount : Z;
  ss_recoverySuppressed : bool;
  ss_recoveryBackfilled : bool;
  ss_latestObservedAt : Z;
}.

Definition series_init : series_state := {|
  ss_active := []; ss_recoveryEligibleCount := 0; ss_recoverySuppressed := false;
  ss_recoveryBackfilled := false; ss_latestObservedAt := 0 |}.

(** [series[0].IsBackfilled], after the test that the series is not empty. *)
Definition series_backfilled (series : list ProbeObservation) : bool :=
  match series with [] => false | o :: _ => po_IsBackfilled o end.

(** The body of both loops: [evaluate] opens an incident on the series alone,
    [eligible] says whether the series speaks for recovery. *)
Definition series_step (evaluate : list ProbeObservation -> EvaluationResult)
    (eligible : list ProbeObservation -> bool) (st : series_state) (series : list ProbeObservation)
    : series_state :=
  {| ss_active := ss_active st ++ match er_Current (evaluate series) with Some c => [c] | None => [] end;
     ss_recoveryEligibleCount := if eligible series then ss_recoveryEligibleCount st + 1
                                 else ss_recoveryEligibleCount st;
     ss_recoverySuppressed := if eligible series && observationSeriesSuppressed series then true
                              else ss_recoverySuppressed st;
     ss_recoveryBackfilled := if eligible series then ss_recoveryBackfilled st || series_backfilled series
                              else ss_recoveryBackfilled st;
     ss_latestObservedAt := match series with
       | o :: _ => if Time_After (po_ObservedAt o) (ss_latestObservedAt st) then po_ObservedAt o
                   else ss_latestObservedAt st
       | [] => ss_latestObservedAt st
       end |}.

(** The severity and summary of the first of the worst incidents. *)
Definition worst_step (acc : string * string) (c : IncidentRecord) : string * string :=
  if severityRank acc.1 <? severityRank (ir_Severity c) then (ir_Severity c, ir_SourceSummary c) else acc.

Definition worst_of (first : IncidentRecord) (rest : list IncidentRecord) : string * string :=
  fold_left worst_step rest (ir_Severity first, ir_SourceSummary first).

Definition probe_eligible (series : list ProbeObservation) : bool :=
  2 <=? consecutiveResults series ProbeResultSuccess.

(** The executing instances, or the probe items, of the failing series of a kind. *)
Definition failing_keys (targetID kind : string) (key : ProbeObservation -> string)
    (grouped : list (list ProbeObservation)) : gset string :=
  fold_left (fun acc series =>
    match series, er_Current (EvaluateTargetProbeFailure None targetID series) with
    | o :: _, Some _ => if (po_ProbeKind o =s kind) && (key o <>s "") then {[key o]} ∪ acc else acc
    | _, _ => acc
    end) grouped ∅.

Definition recover_across (previous : option IncidentRecord) (st : series_state) (groups : Z)
    (summary : string) : EvaluationResult :=
  match previous with
  | None => noop previous
  | Some _ =>
      if (ss_recoveryEligibleCount st =? groups) && (0 <? groups) then
        let result := recoverIfNeeded previous (ss_latestObservedAt st) summary
                        MonitoringEventProvenanceAgentSync (ss_recoveryBackfilled st) in
        if ss_recoverySuppressed st then suppressNotification result else result
      else noop previous
  end.

Definition evaluateTargetProbeFailureAcrossSeries (previous : option IncidentRecord) (targetID : string)
    (observations : list ProbeObservation) : EvaluationResult :=
  let grouped := groupProbeSeries observations in
  let st := fold_left (series_step (EvaluateTargetProbeFailure None targetID) probe_eligible)
              grouped series_init in
  match ss_active st with
  | [] => recover_across previous st (Z.of_nat (length grouped)) "探针已连续成功恢复"
  | first :: rest =>
      let '(severity, summary) := worst_of first rest in
      let '(severity, summary) :=
        if 2 <=? Z.of_nat (size (failing_keys targetID ProbeKindTCP po_MonitoringInstanceID grouped))
        then (SeverityCritical, "TCP 探针在多个执行监控实例上持续失败") else (severity, summary) in
      let '(severity, summary) :=
        if 2 <=? Z.of_nat (size (failing_keys targetID ProbeKindHTTP po_ProbeItemID grouped))
        then (SeverityCritical, "HTTP 多个 ProbeItem 同时异常") else (severity, summary) in
      evaluateTransition previous ObjectTypeTarget targetID IncidentTargetProbeFailure severity
        (ss_latestObservedAt st) summary MonitoringEventProvenanceAgentSync
  end.

Definition tls_eligible (series : list ProbeObservation) : bool :=
  match series with
  | o :: _ => match po_TLSExpiryDays o with Some d => 30 <? d | None => false end
  | [] => false
  end.

Definition evaluateTargetTLSExpiryAcrossSeries (previous : option IncidentRecord) (targetID : string)
    (observations : list ProbeObservation) : EvaluationResult :=
  let tlsObservations := List.filter (fun o => po_ProbeKind o =s ProbeKindTLS) observations in
  match tlsObservations with
  | [] => noop previous
  | _ =>
      let grouped := groupProbeSeries tlsObservations in
      let st := fold_left (series_step (EvaluateTargetTLSExpiry None targetID) tls_eligible)
                  grouped series_init in
      match ss_active st with
      | [] => recover_across previous st (Z.of_nat (length grouped)) "TLS 到期风险解除"
      | first :: rest =>
          let '(severity, summary) := worst_of first rest in
          evaluateTransition previous ObjectTypeTarget targetID IncidentTargetTLSExpiry severity
            (ss_latestObservedAt st) summary MonitoringEventProvenanceAgentSync
      end
  end.

(** * Grouping *)

Lemma group_fold_spec l keys grouped :
  (forall k, k ∈ keys <-> is_Some (grouped !! k)) -> NoDup keys ->
  (forall k g, grouped !! k = Some g -> g <> []) ->
  let '(keys', grouped') := fold_left group_step l (keys, grouped) in
  NoDup keys' /\ (forall k, k ∈ keys' <-> k ∈ keys \/ k ∈ series_key <$> l) /\
  (forall k, default [] (grouped' !! k) =
             default [] (grouped !! k) ++ List.filter (fun o => series_key o =s k) l).
Proof.
  revert keys grouped. induction l as [|o l IH]; intros keys grouped Hk HN Hne; cbn [fold_left group_step].
  { split; [done|]. split; [set_solver|]. intros k. by rewrite app_nil_r. }
  set (keys1 := match grouped !! series_key o with None => _ | Some _ => _ end).
  specialize (IH keys1 (append_at grouped (series_key o) o)).
  assert (series_key o ∈ keys1 /\ NoDup keys1 /\ forall k, k ∈ keys1 <-> k ∈ keys \/ k = series_key o)
    as (Hin & HN1 & Hk1).
  { subst keys1. destruct (grouped !! series_key o) eqn:E.
    - assert (series_key o ∈ keys) by (apply Hk; by eexists). split; [done|]. split; [done|]. set_solver.
    - assert (series_key o ∉ keys). { rewrite Hk, E. by intros [? [=]]. }
      split; [set_solver|]. split; [|set_solver].
      apply NoDup_app. split; [done|]. split; [set_solver|apply NoDup_singleton]. }
  destruct (fold_left group_step l _) as [keys' grouped'].
  destruct IH as (HN' & Hk' & Hg').
  - intros k. rewrite Hk1. unfold append_at. destruct (decide (k = series_key o)) as [->|Hne'].
    + rewrite lookup_insert_eq. split; [by eexists|by right].
    + rewrite lookup_insert_ne by done. rewrite Hk. intuition.
  - done.
  - intros k g. unfold append_at. destruct (decide (k = series_key o)) as [->|Hne'].
    + rewrite lookup_insert_eq. intros [= <-]. by destruct (default [] _).
    + rewrite lookup_insert_ne by done. apply Hne.
  - split; [done|]. split.
    + intros k. rewrite Hk', Hk1, fmap_cons, elem_of_cons. tauto.
    + intros k. rewrite Hg'. unfold append_at. cbn [List.filter].
      destruct (decide (k = series_key o)) as [->|Hne'].
      * rewrite lookup_insert_eq, String.eqb_refl. cbn. by rewrite <- app_assoc.
      * rewrite lookup_insert_ne by done.
        assert ((series_key o =s k) = false) as -> by (apply String.eqb_neq; congruence). done.
Qed.

(** The groups: one per key that occurs, sorted by key, each the observations of its
    key in order of recency. *)
Lemma groupProbeSeries_spec observations :
  exists keys, NoDup keys /\ (forall k, k ∈ keys <-> k ∈ series_key <$> observations) /\
    groupProbeSeries observations =
      (fun key => List.filter (fun o => series_key o =s key) (normalizeProbeObservations observations))
      <$> sort_Strings keys.
Proof.
  unfold groupProbeSeries.
  pose proof (group_fold_spec (normalizeProbeObservations observations) [] ∅) as H.
  destruct (fold_left group_step _ _) as [keys grouped].
  destruct H as (HN & Hk & Hg).
  { intros k. rewrite lookup_empty. split; [by intros ?%elem_of_nil|by intros [? [=]]]. }
  { constructor. }
  { by intros k g. }
  exists keys. split; [done|]. split.
  - intros k. rewrite Hk, elem_of_nil. unfold normalizeProbeObservations. rewrite sort_stable_perm. tauto.
  - apply list_fmap_ext. intros i k _. rewrite Hg. cbn.
    apply sort_stable_id.
    apply sorted_filter, sort_stable_sorted. apply _.
Qed.

Lemma filter_key_perm (l : list ProbeObservation) keys :
  NoDup keys -> (forall o, o ∈ l -> series_key o ∈ keys) ->
  Permutation (concat ((fun key => List.filter (fun o => series_key o =s key) l) <$> keys)) l.
Proof.
  intros HN. revert l. induction HN as [|k keys Hk HN IH]; intros l Hl; cbn.
  { destruct l as [|o l]; [done|]. specialize (Hl o ltac:(constructor)). by apply elem_of_nil in Hl. }
  set (rest := List.filter (fun o => series_key o <>s k) l).
  assert (forall k', k' ∈ keys -> List.filter (fun o => series_key o =s k') l =
                                 List.filter (fun o => series_key o =s k') rest) as Hf.
  { intros k' Hk'. subst rest. clear Hl. induction l as [|o l IHl]; cbn; [done|].
    destruct (String.eqb_spec (series_key o) k) as [E|]; cbn.
    - rewrite IHl. destruct (String.eqb_spec (series_key o) k') as [E'|]; [|done].
      exfalso. apply Hk. by rewrite <- E, E'.
    - by rewrite IHl. }
  assert ((fun key => List.filter (fun o => series_key o =s key) l) <$> keys =
          (fun key => List.filter (fun o => series_key o =s key) rest) <$> keys) as ->.
  { apply list_fmap_ext. intros i k' Hi. apply Hf. by eapply list_elem_of_lookup_2. }
  rewrite IH.
  - subst rest. clear. induction l as [|o l IH]; cbn; [done|].
    destruct (series_key o =s k); cbn; [by constructor|]. rewrite <- Permutation_middle. by constructor.
  - intros o Ho. subst rest. apply list_elem_of_In, filter_In in Ho as [Ho E].
    apply list_elem_of_In in Ho. specialize (Hl o Ho). apply elem_of_cons in Hl as [E'|]; [|done].
    by rewrite E', String.eqb_refl in E.
Qed.

(** Grouping loses and invents no observation: the groups together are
    the observations, no group is empty, the members of a group share their key,
    different groups have different keys, and each group is sorted by recency. *)
Theorem groupProbeSeries_partition observations :
  Permutation (concat (groupProbeSeries observations)) observations /\
  Forall (fun g => g <> []) (groupProbeSeries observations) /\
  exists keys, NoDup keys /\
    Forall2 (fun k g => Forall (fun o => series_key o = k) g /\
      StronglySorted (not_after probe_less) g) keys (groupProbeSeries observations).
Proof.
  destruct (groupProbeSeries_spec observations) as (keys & HN & Hk & ->).
  assert (NoDup (sort_Strings keys)) as HNs by (unfold sort_Strings; by rewrite sort_stable_perm).
  assert (forall o, o ∈ normalizeProbeObservations observations <-> o ∈ observations) as Hel.
  { intros o. apply sort_stable_elem. }
  assert (StronglySorted (not_after probe_less) (normalizeProbeObservations observations)) as Hs
    by (apply sort_stable_sorted; apply _).
  split; [|split].
  - rewrite filter_key_perm; [apply sort_stable_perm|done|].
    intros o Ho. unfold sort_Strings. rewrite sort_stable_elem, Hk. apply list_elem_of_fmap.
    exists o. split; [done|]. by apply Hel.
  - apply Forall_fmap, Forall_forall. intros k Hin. unfold sort_Strings in Hin.
    rewrite sort_stable_elem, Hk in Hin. apply list_elem_of_fmap in Hin as (o & -> & Ho). cbn.
    intros E. assert (In o (List.filter (fun o' => series_key o' =s series_key o)
      (normalizeProbeObservations observations))) as Hin; [|by rewrite E in Hin].
    apply filter_In. split; [by apply list_elem_of_In, Hel|apply String.eqb_refl].
  - exists (sort_Strings keys). split; [done|].
    apply Forall2_fmap_r, Forall_Forall2_diag, Forall_forall. intros k _. split.
    + apply Forall_forall. intros o Ho. apply list_elem_of_In, filter_In in Ho as [_ E]. by breflect.
    + by apply sorted_filter.
Qed.

(** * The verdict across series *)

Section Across.
Context (evaluate : list ProbeObservation -> EvaluationResult)
  (eligible : list ProbeObservation -> bool).

Lemma series_fold_spec groups st :
  let st' := fold_left (series_step evaluate eligible) groups st in
  ss_active st' = ss_active st ++ omap (fun g => er_Current (evaluate g)) groups /\
  ss_recoveryEligibleCount st' =
    ss_recoveryEligibleCount st + Z.of_nat (length (List.filter eligible groups)).
Proof.
  cbv zeta. revert st. induction groups as [|g groups IH]; intros st; cbn [fold_left].
  { cbn. rewrite app_nil_r, Z.add_0_r. done. }
  destruct (IH (series_step evaluate eligible st g)) as [-> ->]. cbn [series_step ss_active
    ss_recoveryEligibleCount List.filter]. split.
  - rewrite <- app_assoc. f_equal. cbn. by destruct (er_Current (evaluate g)).
  - destruct (eligible g); cbn [length]; lia.
Qed.

Lemma eligible_all groups :
  Z.of_nat (length (List.filter eligible groups)) = Z.of_nat (length groups) ->
  Forall (fun g => eligible g = true) groups.
Proof.
  intros H. apply Nat2Z.inj in H. induction groups as [|g groups IH]; cbn in *; [constructor|].
  pose proof (filter_length_le eligible groups).
  destruct (eligible g) eqn:E; cbn in H; [|lia]. constructor; [done|]. apply IH. lia.
Qed.
End Across.

Lemma worst_fold_spec rest acc :
  let '(severity, _) := fold_left worst_step rest acc in
  severityRank acc.1 <= severityRank severity /\
  Forall (fun c => severityRank (ir_Severity c) <= severityRank severity) rest /\
  (severity = acc.1 \/ exists c, c ∈ rest /\ severity = ir_Severity c).
Proof.
  revert acc. induction rest as [|c rest IH]; intros [s m]; cbn [fold_left].
  { cbn [fst]. split; [done|]. split; [constructor|by left]. }
  specialize (IH (worst_step (s, m) c)). destruct (fold_left worst_step rest _) as [severity summary].
  destruct IH as (H1 & H2 & H3). unfold worst_step in *. cbn [fst snd] in *.
  destruct (Z.ltb_spec (severityRank s) (severityRank (ir_Severity c))); cbn [fst] in *.
  - split; [lia|]. split; [by constructor|]. right.
    destruct H3 as [->|(c' & Hc & ->)]; [exists c|exists c']; split; try done; by constructor.
  - split; [lia|]. split; [constructor; [lia|done]|].
    destruct H3 as [->|(c' & Hc & ->)]; [by left|right; exists c'; split; [by constructor|done]].
Qed.

Lemma worst_of_spec first rest :
  Forall (fun c => active_severity (ir_Severity c)) (first :: rest) ->
  let '(severity, _) := worst_of first rest in
  active_severity severity /\
  Forall (fun c => severityRank (ir_Severity c) <= severityRank severity) (first :: rest).
Proof.
  intros Ha. unfold worst_of.
  pose proof (worst_fold_spec rest (ir_Severity first, ir_SourceSummary first)) as H.
  destruct (fold_left worst_step rest _) as [severity summary]. cbn [fst] in H.
  destruct H as (H1 & H2 & H3). split; [|by constructor].
  apply Forall_cons in Ha as [Hf Hr]. destruct H3 as [->|(c & Hc & ->)]; [done|].
  by eapply Forall_forall in Hr.
Qed.

Lemma opened_severity (evaluate : list ProbeObservation -> EvaluationResult) class targetID groups :
  (forall g, lifecycle ObjectTypeTarget targetID class true None (evaluate g)) ->
  Forall (fun c => active_severity (ir_Severity c)) (omap (fun g => er_Current (evaluate g)) groups).
Proof.
  intros Hl. apply Forall_forall. intros c Hc. apply list_elem_of_omap in Hc as (g & _ & Hg).
  destruct (lifecycle_wf_current ObjectTypeTarget targetID class true None (evaluate g) c (Hl g) I Hg).
  done.
Qed.

Lemma probe_series_lifecycle targetID g :
  lifecycle ObjectTypeTarget targetID IncidentTargetProbeFailure true None
    (EvaluateTargetProbeFailure None targetID g).
Proof. eapply lifecycle_live, EvaluateTargetProbeFailure_lifecycle. Qed.

Lemma tls_series_lifecycle targetID g :
  lifecycle ObjectTypeTarget targetID IncidentTargetTLSExpiry true None
    (EvaluateTargetTLSExpiry None targetID g).
Proof. eapply lifecycle_live, EvaluateTargetTLSExpiry_lifecycle. Qed.

Lemma recover_across_lifecycle ot oid class previous st n summary :
  lifecycle ot oid class true previous (recover_across previous st n summary).
Proof.
  unfold recover_across. destruct previous as [p|]; [|constructor].
  destruct (_ && _); [|constructor]. cbv zeta. destruct (ss_recoverySuppressed st); auto with houfeng.
Qed.

(** The severity of an incident across series: at least that of every failing one. *)
Lemma probe_across_severity targetID observations first rest :
  let grouped := groupProbeSeries observations in
  omap (fun g => er_Current (EvaluateTargetProbeFailure None targetID g)) grouped = first :: rest ->
  forall severity summary,
  (let '(severity, summary) := worst_of first rest in
   let '(severity, summary) :=
     if 2 <=? Z.of_nat (size (failing_keys targetID ProbeKindTCP po_MonitoringInstanceID grouped))
     then (SeverityCritical, "TCP 探针在多个执行监控实例上持续失败") else (severity, summary) in
   if 2 <=? Z.of_nat (size (failing_keys targetID ProbeKindHTTP po_ProbeItemID grouped))
   then (SeverityCritical, "HTTP 多个 ProbeItem 同时异常") else (severity, summary))
  = (severity, summary) ->
  active_severity severity /\
  Forall (fun c => severityRank (ir_Severity c) <= severityRank severity) (first :: rest).
Proof.
  cbv zeta. intros E severity summary.
  assert (Forall (fun c => active_severity (ir_Severity c)) (first :: rest)) as Ha.
  { rewrite <- E. apply (opened_severity _ IncidentTargetProbeFailure targetID), probe_series_lifecycle. }
  pose proof (worst_of_spec first rest Ha) as Hw.
  destruct (worst_of first rest) as [s m]. destruct Hw as [Hs Hall].
  assert (Forall (fun c => severityRank (ir_Severity c) <= severityRank SeverityCritical) (first :: rest)) as Hc.
  { eapply Forall_impl; [exact Ha|]. cbv beta. by intros c [->|[->| ->]]. }
  destruct (2 <=? Z.of_nat (size (failing_keys targetID ProbeKindTCP _ _)));
    destruct (2 <=? _); intros [= <- <-]; auto with houfeng.
Qed.

Lemma evaluateTargetProbeFailureAcrossSeries_lifecycle previous targetID observations :
  lifecycle ObjectTypeTarget targetID IncidentTargetProbeFailure true previous
    (evaluateTargetProbeFailureAcrossSeries previous targetID observations).
Proof.
  unfold evaluateTargetProbeFailureAcrossSeries. cbv zeta.
  set (st := fold_left _ _ _).
  destruct (series_fold_spec (EvaluateTargetProbeFailure None targetID) probe_eligible
    (groupProbeSeries observations) series_init) as [Ha _]. cbv zeta in Ha. fold st in Ha. cbn [series_init ss_active app] in Ha.
  destruct (ss_active st) as [|first rest]; [apply recover_across_lifecycle|].
  symmetry in Ha. pose proof (probe_across_severity targetID observations first rest Ha) as Hs.
  destruct (worst_of first rest) as [s m].
  destruct (if 2 <=? Z.of_nat (size (failing_keys targetID ProbeKindTCP _ _)) then _ else (s, m)) as [s1 m1].
  destruct (if 2 <=? Z.of_nat (size (failing_keys targetID ProbeKindHTTP _ _)) then _ else (s1, m1))
    as [s2 m2] eqn:E2.
  destruct (Hs s2 m2 eq_refl) as [Hact _]. constructor; auto with houfeng.
Qed.

Lemma evaluateTargetTLSExpiryAcrossSeries_lifecycle previous targetID observations :
  lifecycle ObjectTypeTarget targetID IncidentTargetTLSExpiry true previous
    (evaluateTargetTLSExpiryAcrossSeries previous targetID observations).
Proof.
  unfold evaluateTargetTLSExpiryAcrossSeries. cbv zeta.
  destruct (List.filter _ observations) as [|o tls]; [constructor|].
  set (st := fold_left _ _ _).
  destruct (series_fold_spec (EvaluateTargetTLSExpiry None targetID) tls_eligible
    (groupProbeSeries (o :: tls)) series_init) as [Ha _]. cbv zeta in Ha. fold st in Ha. cbn [series_init ss_active app] in Ha.
  destruct (ss_active st) as [|first rest]; [apply recover_across_lifecycle|].
  assert (Forall (fun c => active_severity (ir_Severity c)) (first :: rest)) as Hact.
  { rewrite Ha. apply (opened_severity _ IncidentTargetTLSExpiry targetID), tls_series_lifecycle. }
  pose proof (worst_of_spec first rest Hact) as Hw. destruct (worst_of first rest) as [s m].
  destruct Hw as [Hs _]. constructor; auto with houfeng.
Qed.

(** A probe-failure incident across series is at least as severe as every
    failing series by itself, and it is critical when failing TCP series span two
    executing instances or failing HTTP series two probe items. *)
Theorem probe_across_worst previous targetID observations series c c'
    (Hseries : series ∈ groupProbeSeries observations)
    (Hfail : er_Current (EvaluateTargetProbeFailure None targetID series) = Some c')
    (Hc : er_Current (evaluateTargetProbeFailureAcrossSeries previous targetID observations) = Some c) :
  severityRank (ir_Severity c') <= severityRank (ir_Severity c) /\
  (2 <= Z.of_nat (size (failing_keys targetID ProbeKindTCP po_MonitoringInstanceID
          (groupProbeSeries observations))) \/
   2 <= Z.of_nat (size (failing_keys targetID ProbeKindHTTP po_ProbeItemID
          (groupProbeSeries observations))) -> ir_Severity c = SeverityCritical).
Proof.
  revert Hc. unfold evaluateTargetProbeFailureAcrossSeries. cbv zeta. set (st := fold_left _ _ _).
  destruct (series_fold_spec (EvaluateTargetProbeFailure None targetID) probe_eligible
    (groupProbeSeries observations) series_init) as [Ha _]. cbv zeta in Ha. fold st in Ha.
  cbn [series_init ss_active app] in Ha.
  assert (c' ∈ omap (fun g => er_Current (EvaluateTargetProbeFailure None targetID g))
                 (groupProbeSeries observations)) as Hin by (apply list_elem_of_omap; eauto).
  destruct (ss_active st) as [|first rest]; [by rewrite <- Ha in Hin; apply elem_of_nil in Hin|].
  rewrite <- Ha in Hin. symmetry in Ha.
  pose proof (probe_across_severity targetID observations first rest Ha) as Hs.
  destruct (worst_of first rest) as [s m]. cbv zeta in Hs.
  set (tcp := Z.of_nat (size (failing_keys targetID ProbeKindTCP _ _))) in *.
  set (http := Z.of_nat (size (failing_keys targetID ProbeKindHTTP _ _))) in *.
  destruct (if 2 <=? tcp then _ else (s, m)) as [s1 m1] eqn:E1.
  destruct (if 2 <=? http then _ else (s1, m1)) as [s2 m2] eqn:E2.
  destruct (Hs s2 m2 eq_refl) as [_ Hall]. rewrite Forall_forall in Hall.
  intros Hc. destruct (evaluateTransition_current ObjectTypeTarget targetID IncidentTargetProbeFailure
    previous s2 (ss_latestObservedAt st) m2 MonitoringEventProvenanceAgentSync) as (c0 & E0 & _ & Hsev & _).
  rewrite E0 in Hc. injection Hc as <-. rewrite Hsev. split; [by apply Hall|].
  intros [Ht|Hh].
  - destruct (Z.leb_spec 2 tcp); [|lia]. injection E1 as <- <-.
    destruct (2 <=? http); by injection E2 as <- <-.
  - destruct (Z.leb_spec 2 http); [|lia]. by injection E2 as <- <-.
Qed.

Lemma recover_across_recovered previous st n summary :
  er_Transition (recover_across previous st n summary) = TransitionRecovered ->
  previous <> None /\ ss_recoveryEligibleCount st = n /\ 0 < n.
Proof.
  unfold recover_across. destruct previous as [p|]; [|done].
  destruct (_ && _) eqn:E; [|done]. intros _. apply andb_true_iff in E as [E1 E2]. breflect. done.
Qed.

(** A target incident is closed only when no series is failing and every
    series speaks for recovery: two successes in a row for probe failure, more than
    30 days of validity left for TLS expiry; one silent series keeps it open. *)
Theorem across_recovery_unanimous p targetID observations :
  (er_Transition (evaluateTargetProbeFailureAcrossSeries (Some p) targetID observations)
     = TransitionRecovered ->
   let grouped := groupProbeSeries observations in
   grouped <> [] /\
   Forall (fun g => er_Current (EvaluateTargetProbeFailure None targetID g) = None /\
                    2 <= consecutiveResults g ProbeResultSuccess) grouped) /\
  (er_Transition (evaluateTargetTLSExpiryAcrossSeries (Some p) targetID observations)
     = TransitionRecovered ->
   let grouped := groupProbeSeries (List.filter (fun o => po_ProbeKind o =s ProbeKindTLS) observations) in
   grouped <> [] /\
   Forall (fun g => er_Current (EvaluateTargetTLSExpiry None targetID g) = None /\
                    tls_eligible g = true) grouped).
Proof.
  assert (forall evaluate eligible groups,
    ss_active (fold_left (series_step evaluate eligible) groups series_init) = [] ->
    ss_recoveryEligibleCount (fold_left (series_step evaluate eligible) groups series_init)
      = Z.of_nat (length groups) /\ 0 < Z.of_nat (length groups) ->
    groups <> [] /\ Forall (fun g => er_Current (evaluate g) = None /\ eligible g = true) groups) as Hall.
  { intros evaluate eligible groups Hact [Hcount Hpos].
    destruct (series_fold_spec evaluate eligible groups series_init) as [Ha He]. cbv zeta in Ha, He.
    rewrite Ha in Hact. rewrite He in Hcount. cbn in Hact, Hcount.
    split; [by intros ->|]. apply Forall_forall. intros g Hg. split.
    - destruct (er_Current (evaluate g)) as [c|] eqn:E; [|done].
      assert (c ∈ omap (fun g => er_Current (evaluate g)) groups) as Hin
        by (apply list_elem_of_omap; eauto). rewrite Hact in Hin. by apply elem_of_nil in Hin.
    - pose proof (eligible_all eligible groups) as HF. rewrite Forall_forall in HF. apply HF; [lia|done]. }
  split.
  - unfold evaluateTargetProbeFailureAcrossSeries. cbv zeta.
    destruct (ss_active _) as [|first rest] eqn:E.
    + intros [_ H]%recover_across_recovered. destruct (Hall _ _ _ E H) as [Hne HF]. split; [done|].
      eapply Forall_impl; [exact HF|]. intros g [? Hg]. split; [done|]. unfold probe_eligible in Hg.
      by breflect.
    + destruct (worst_of first rest) as [s m].
      destruct (if 2 <=? _ then _ else (s, m)) as [s1 m1].
      destruct (if 2 <=? _ then _ else (s1, m1)) as [s2 m2].
      by intros H%evaluateTransition_not_recovered.
  - unfold evaluateTargetTLSExpiryAcrossSeries. cbv zeta.
    destruct (List.filter _ observations) as [|o tls]; [done|].
    destruct (ss_active _) as [|first rest] eqn:E.
    + intros [_ H]%recover_across_recovered. by apply (Hall _ _ _ E H).
    + destruct (worst_of first rest) as [s m]. by intros H%evaluateTransition_not_recovered.
Qed.

(** * Concrete inputs *)

(** Two instances each see two failures of their own: critical across series, a
    notice for each of them alone. *)
Lemma probe_across_worst_witness :
  let failures instance := [fixture_probe instance "p-1" ProbeResultFailure Second;
                            fixture_probe instance "p-1" ProbeResultFailure Minute] in
  let observations := failures "mi-1" ++ failures "mi-2" in
  exists c, er_Current (evaluateTargetProbeFailureAcrossSeries None "t-1" observations) = Some c /\
    ir_Severity c = SeverityCritical.
Proof.
  intros failures observations.
  assert (exists c, er_Current (evaluateTargetProbeFailureAcrossSeries None "t-1" observations) = Some c)
    as [c Hc] by (eexists; vm_compute; reflexivity).
  assert (exists c', er_Current (EvaluateTargetProbeFailure None "t-1" (failures "mi-1")) = Some c')
    as [c' Hc'] by (eexists; vm_compute; reflexivity).
  exists c. split; [done|].
  refine (proj2 (probe_across_worst None "t-1" observations (failures "mi-1") c c' _ Hc' Hc) _).
  - vm_compute. left.
  - left. vm_compute. congruence.
Defined.
