(* ===== verification/Notification.v ===== *)
(** Notification delivery (the dispatchers of src/internal/center/incidents/service.go):
    the settings-aware dispatcher over the Telegram and Feishu notifiers, the
    single-notifier dispatcher, and the text of a notification.  Notifiers and the
    settings source act on a world [W] the program does not control. *)
From stdpp Require Import base list strings gmap.
From Stdlib Require Import ZArith Lia.
From S2P Require Import Prelude GoRuntime AgentApi IncidentTypes Settings.

Local Open Scope Z_scope.
#[local] Set Warnings "-clear-no-such-hyp".

(** * Deliveries *)

Definition errNotificationSuppressed_name : string := "incident notification suppressed".
Definition errNotificationSuppressed : error := ErrSentinel errNotificationSuppressed_name.
Definition errNotificationSettingsUnavailable : error := ErrSentinel "notification settings unavailable".

Record NotificationDelivery := {
  dl_Channel : string;
  dl_Status : string;
  dl_Error : option error;
}.

Record NotificationSettings := {
  ns_Telegram : TelegramSettings;
  ns_FeishuEnabled : bool;
  ns_FeishuWebhookURL : string;
}.

(** One turn of the loop of [dispatchError]: the last error and whether anything was sent. *)
Definition dispatch_error_step (acc : option error * bool) (delivery : NotificationDelivery)
    : option error * bool :=
  let '(lastErr, sent) := acc in
  if dl_Status delivery =s DeliveryStatusFailed then (dl_Error delivery, sent)
  else if dl_Status delivery =s DeliveryStatusSent then (lastErr, true)
  else if dl_Status delivery =s DeliveryStatusSuppressed then
    (match lastErr with None => dl_Error delivery | Some _ => lastErr end, sent)
  else (lastErr, sent).

Definition dispatchError (deliveries : list NotificationDelivery) : option error :=
  let '(lastErr, sent) := fold_left dispatch_error_step deliveries (None, false) in
  if sent && match lastErr with None => true | Some e => errors_Is errNotificationSuppressed_name e end
  then None else lastErr.

Fixpoint unique_channels (seen channels : list string) : list string :=
  match channels with
  | [] => []
  | channel :: rest =>
      if channel =s "" then unique_channels seen rest
      else if member channel seen then unique_channels seen rest
      else channel :: unique_channels (channel :: seen) rest
  end.

Definition uniqueNotificationChannels (channels : list string) : list string := unique_channels [] channels.

(** * Dispatchers *)

Section Dispatch.
Context {W : Type}.

(** [Notifier.Send]. *)
Definition Notifier : Type := string -> W -> option error * W.

Record NotificationDispatcher := {
  Dispatch : string -> W -> list NotificationDelivery * W;
  (** Whether the dispatcher is also a [NotificationChannelResolver]. *)
  NotificationChannels : option (W -> list string * W);
}.

Definition dispatchWithNotifier (channel : string) (notifier : option Notifier) (summary : string) (w : W)
    : NotificationDelivery * W :=
  match notifier with
  | None => ({| dl_Channel := channel; dl_Status := DeliveryStatusSuppressed;
                dl_Error := Some errNotificationSuppressed |}, w)
  | Some send =>
      let '(err, w') := send summary w in
      (match err with
       | None => {| dl_Channel := channel; dl_Status := DeliveryStatusSent; dl_Error := None |}
       | Some e =>
           {| dl_Channel := channel;
              dl_Status := if errors_Is errNotificationSuppressed_name e
                           then DeliveryStatusSuppressed else DeliveryStatusFailed;
              dl_Error := Some e |}
       end, w')
  end.

(** The fields of [settingsAwareNotifier]; nil is [None], for a factory as well as
    for what it returns. *)
Record settingsAwareNotifier := {
  settingsSource : option (W -> result NotificationSettings * W);
  newTelegramNotifier : option (string -> string -> option Notifier);
  newFeishuNotifier : option (string -> option Notifier);
}.

Definition notificationSettings (n : settingsAwareNotifier) (w : W) : result NotificationSettings * W :=
  match settingsSource n with
  | None => (Err errNotificationSettingsUnavailable, w)
  | Some get =>
      let '(r, w') := get w in
      (match r with Ok s => Ok s | Err _ => Err errNotificationSettingsUnavailable end, w')
  end.

Definition failed_delivery (channel : string) (err : error) : NotificationDelivery :=
  {| dl_Channel := channel; dl_Status := DeliveryStatusFailed; dl_Error := Some err |}.

Definition dispatchTelegram (n : settingsAwareNotifier) (summary : string) (telegram : TelegramSettings)
    (w : W) : NotificationDelivery * W :=
  if negb (Telegram_Enabled telegram) then
    ({| dl_Channel := NotificationChannelTelegram; dl_Status := DeliveryStatusSuppressed;
        dl_Error := Some errNotificationSuppressed |}, w)
  else match newTelegramNotifier n with
       | None => (failed_delivery NotificationChannelTelegram (ErrNew "telegram notifier factory is nil"), w)
       | Some new =>
           match new (tg_BotToken telegram) (tg_ChatID telegram) with
           | None => (failed_delivery NotificationChannelTelegram (ErrNew "telegram notifier is nil"), w)
           | Some notifier => dispatchWithNotifier NotificationChannelTelegram (Some notifier) summary w
           end
       end.

Definition dispatchFeishu (n : settingsAwareNotifier) (summary webhookURL : string) (w : W)
    : NotificationDelivery * W :=
  match newFeishuNotifier n with
  | None => (failed_delivery NotificationChannelFeishu (ErrNew "feishu notifier factory is nil"), w)
  | Some new =>
      match new webhookURL with
      | None => (failed_delivery NotificationChannelFeishu (ErrNew "feishu notifier is nil"), w)
      | Some notifier => dispatchWithNotifier NotificationChannelFeishu (Some notifier) summary w
      end
  end.

Definition feishu_enabled (settings : NotificationSettings) : bool :=
  ns_FeishuEnabled settings && (strings_TrimSpace (ns_FeishuWebhookURL settings) <>s "").

(** [settingsAwareNotifier.Dispatch]. *)
Definition settings_Dispatch (n : settingsAwareNotifier) (summary : string) (w : W)
    : list NotificationDelivery * W :=
  let '(r, w) := notificationSettings n w in
  match r with
  | Err err => ([failed_delivery NotificationChannelTelegram err], w)
  | Ok settings =>
      let '(telegram, w) :=
        if Telegram_Enabled (ns_Telegram settings)
        then let '(d, w) := dispatchTelegram n summary (ns_Telegram settings) w in ([d], w)
        else ([], w) in
      let '(feishu, w) :=
        if feishu_enabled settings
        then let '(d, w) := dispatchFeishu n summary (ns_FeishuWebhookURL settings) w in ([d], w)
        else ([], w) in
      match telegram ++ feishu with
      | [] => ([{| dl_Channel := NotificationChannelTelegram; dl_Status := DeliveryStatusSuppressed;
                   dl_Error := Some errNotificationSuppressed |}], w)
      | deliveries => (deliveries, w)
      end
  end.

(** [settingsAwareNotifier.NotificationChannels]. *)
Definition settings_NotificationChannels (n : settingsAwareNotifier) (w : W) : list string * W :=
  let '(r, w) := notificationSettings n w in
  match r with
  | Err _ => ([], w)
  | Ok settings =>
      (uniqueNotificationChannels
         ((if Telegram_Enabled (ns_Telegram settings) then [NotificationChannelTelegram] else []) ++
          (if feishu_enabled settings then [NotificationChannelFeishu] else [])), w)
  end.

(** [settingsAwareNotifier.Send]. *)
Definition settings_Send (n : settingsAwareNotifier) (summary : string) (w : W) : option error * W :=
  let '(deliveries, w) := settings_Dispatch n summary w in (dispatchError deliveries, w).

Definition settings_dispatcher (n : settingsAwareNotifier) : NotificationDispatcher := {|
  Dispatch := settings_Dispatch n;
  NotificationChannels := Some (settings_NotificationChannels n) |}.

(** [notifierDispatcher]. *)
Definition notifierDispatcher (channel : string) (notifier : option Notifier) : NotificationDispatcher := {|
  Dispatch summary w := let '(d, w) := dispatchWithNotifier channel notifier summary w in ([d], w);
  NotificationChannels := Some (fun w => (match notifier with None => [] | Some _ => [channel] end, w)) |}.

(** [notificationDispatcherFor]: a notifier that is a dispatcher already is used as it is. *)
Definition notificationDispatcherFor (notifier : option (NotificationDispatcher + Notifier))
    : option NotificationDispatcher :=
  match notifier with
  | None => None
  | Some (inl dispatcher) => Some dispatcher
  | Some (inr notifier) => Some (notifierDispatcher NotificationChannelTelegram (Some notifier))
  end.
End Dispatch.

Arguments Notifier : clear implicits.
Arguments NotificationDispatcher : clear implicits.
Arguments settingsAwareNotifier : clear implicits.

(** * Runes *)

Definition byte_Z (a : Ascii.ascii) : Z := Z.of_N (Ascii.N_of_ascii a).
Definition Z_byte (z : Z) : Ascii.ascii := Ascii.ascii_of_N (Z.to_N z).

Definition cont (b : Z) : bool := (128 <=? b) && (b <=? 191).

Definition RuneError : Z := 65533.

(** Decoding a byte string: [for _, r := range s] and [[]rune(s)].  An invalid
    byte yields the replacement rune and one byte is consumed. *)
Fixpoint decode_runes (l : list Z) : list Z :=
  match l with
  | [] => []
  | a :: l1 =>
      if a <? 128 then a :: decode_runes l1
      else if (194 <=? a) && (a <=? 223) then
        match l1 with
        | b :: l2 => if cont b then ((a - 192) * 64 + (b - 128)) :: decode_runes l2 else RuneError :: decode_runes l1
        | [] => RuneError :: decode_runes l1
        end
      else if (224 <=? a) && (a <=? 239) then
        match l1 with
        | b :: (c :: l3) =>
            if ((if a =? 224 then 160 else 128) <=? b) && (b <=? (if a =? 237 then 159 else 191)) && cont c
            then ((a - 224) * 4096 + (b - 128) * 64 + (c - 128)) :: decode_runes l3 else RuneError :: decode_runes l1
        | _ => RuneError :: decode_runes l1
        end
      else if (240 <=? a) && (a <=? 244) then
        match l1 with
        | b :: (c :: (d :: l4)) =>
            if ((if a =? 240 then 144 else 128) <=? b) && (b <=? (if a =? 244 then 143 else 191)) &&
               cont c && cont d
            then ((a - 240) * 262144 + (b - 128) * 4096 + (c - 128) * 64 + (d - 128)) :: decode_runes l4
            else RuneError :: decode_runes l1
        | _ => RuneError :: decode_runes l1
        end
      else RuneError :: decode_runes l1
  end.

Definition encode_rune (r : Z) : list Z :=
  if r <? 128 then [r]
  else if r <? 2048 then [192 + r / 64; 128 + r mod 64]
  else if r <? 65536 then [224 + r / 4096; 128 + (r / 64) mod 64; 128 + r mod 64]
  else [240 + r / 262144; 128 + (r / 4096) mod 64; 128 + (r / 64) mod 64; 128 + r mod 64].

Definition runes_of_string (s : string) : list Z := decode_runes (byte_Z <$> String.list_ascii_of_string s).
Definition string_of_runes (l : list Z) : string :=
  String.string_of_list_ascii (Z_byte <$> (l ≫= encode_rune)).

Definition unicode_IsControl (r : Z) : bool := ((0 <=? r) && (r <? 32)) || ((127 <=? r) && (r <? 160)).

Definition unicode_IsSpace (r : Z) : bool :=
  ((9 <=? r) && (r <=? 13)) || (r =? 32) || (r =? 133) || (r =? 160) || (r =? 5760) ||
  ((8192 <=? r) && (r <=? 8202)) || (r =? 8232) || (r =? 8233) || (r =? 8239) || (r =? 8287) || (r =? 12288).

Example runes_roundtrip :
  runes_of_string "核心 1é𝄞" = [26680; 24515; 32; 49; 233; 119070] /\
  string_of_runes [26680; 24515; 32; 49; 233; 119070] = "核心 1é𝄞".
Proof. vm_compute. auto. Qed.

(** * The text of a heartbeat notification *)

Definition isBidiControl (r : Z) : bool :=
  (r =? 1564) || (r =? 8206) || (r =? 8207) || ((8234 <=? r) && (r <=? 8238)) ||
  ((8294 <=? r) && (r <=? 8297)).

Definition sanitize_rune (r : Z) : list Z :=
  if isBidiControl r then [] else if unicode_IsControl r || unicode_IsSpace r then [32] else [r].

(** [strings.Join(strings.Fields(s), " ")]: the words, one space between two of them. *)
Fixpoint join_fields (pending started : bool) (l : list Z) : list Z :=
  match l with
  | [] => []
  | r :: rest =>
      if unicode_IsSpace r then join_fields true started rest
      else (if pending && started then [32] else []) ++ r :: join_fields false true rest
  end.

Fixpoint trim_left (l : list Z) : list Z :=
  match l with
  | r :: rest => if unicode_IsSpace r then trim_left rest else l
  | [] => []
  end.

Definition trim_runes (l : list Z) : list Z := rev (trim_left (rev (trim_left l))).

Definition maxHeartbeatNotificationDisplayNameRunes : Z := 80.

Definition sanitize_runes (value : list Z) : list Z :=
  let runes := join_fields false false (value ≫= sanitize_rune) in
  if Z.of_nat (length runes) <=? maxHeartbeatNotificationDisplayNameRunes then runes
  else
    let prefix := trim_runes (take (Z.to_nat (maxHeartbeatNotificationDisplayNameRunes - 1)) runes) in
    match prefix with [] => [] | _ => prefix ++ [8230] end.

Definition sanitizeHeartbeatNotificationDisplayName (value : string) : string :=
  string_of_runes (sanitize_runes (runes_of_string value)).

Example sanitize_example :
  sanitizeHeartbeatNotificationDisplayName "  hk	 node
‮1 " = "hk node 1".
Proof. vm_compute. reflexivity. Qed.

(** * Theorems *)

Definition clean_rune (r : Z) : Prop :=
  isBidiControl r = false /\ unicode_IsControl r = false /\ (unicode_IsSpace r = true -> r = 32).

Lemma sanitize_rune_clean r : Forall clean_rune (sanitize_rune r).
Proof.
  unfold sanitize_rune. destruct (isBidiControl r) eqn:Eb; [constructor|].
  destruct (unicode_IsControl r || unicode_IsSpace r) eqn:E; repeat constructor; try done.
  - by apply orb_false_iff in E as [-> _].
  - apply orb_false_iff in E as [_ ->]. done.
Qed.

Lemma join_fields_clean l p s : Forall clean_rune l -> Forall clean_rune (join_fields p s l).
Proof.
  intros H. revert p s. induction H as [|r l Hr _ IH]; intros p s; cbn; [constructor|].
  destruct (unicode_IsSpace r); [apply IH|]. apply Forall_app. split; [|constructor; [done|apply IH]].
  destruct (p && s); repeat constructor; done.
Qed.

Lemma trim_left_suffix l : trim_left l `suffix_of` l.
Proof.
  induction l as [|r l IH]; cbn; [done|]. destruct (unicode_IsSpace r); [|done].
  by apply suffix_cons_r.
Qed.

Lemma trim_runes_spec (P : Z -> Prop) l :
  Forall P l -> Forall P (trim_runes l) /\ (length (trim_runes l) <= length l)%nat.
Proof.
  intros HP. unfold trim_runes.
  destruct (trim_left_suffix l) as [k1 E1]. destruct (trim_left_suffix (rev (trim_left l))) as [k2 E2].
  assert (Forall P (trim_left l)) as H1 by (rewrite E1 in HP; by apply Forall_app in HP as [_ ?]).
  assert (Forall P (rev (trim_left l))) as H2 by (by apply Forall_rev).
  rewrite E2 in H2. apply Forall_app in H2 as [_ H2]. split; [by apply Forall_rev|].
  rewrite length_rev. apply (f_equal length) in E1, E2. rewrite length_app in E1, E2.
  rewrite length_rev in E2. lia.
Qed.

(** The display name put into a heartbeat notification has at most 80 runes,
    no bidirectional control and no control character, and its only white space is
    the plain space: a name cannot reorder or break the lines of the message. *)
Theorem sanitized_display_name value :
  Z.of_nat (length (sanitize_runes value)) <= maxHeartbeatNotificationDisplayNameRunes /\
  Forall clean_rune (sanitize_runes value).
Proof.
  unfold sanitize_runes. cbv zeta.
  assert (Forall clean_rune (join_fields false false (value ≫= sanitize_rune))) as Hc.
  { apply join_fields_clean. induction value as [|r l IH]; [constructor|].
    rewrite bind_cons. apply Forall_app. split; [apply sanitize_rune_clean|done]. }
  set (runes := join_fields _ _ _) in *.
  destruct (Z.leb_spec (Z.of_nat (length runes)) maxHeartbeatNotificationDisplayNameRunes) as [H|H];
    [done|].
  destruct (trim_runes_spec clean_rune
    (take (Z.to_nat (maxHeartbeatNotificationDisplayNameRunes - 1)) runes)) as [HF HL].
  { by apply Forall_take. }
  rewrite length_take in HL. destruct (trim_runes _) as [|r rs] eqn:E; [split; [by vm_compute|constructor]|].
  rewrite length_app. split.
  - unfold maxHeartbeatNotificationDisplayNameRunes in *. cbn [length] in *. lia.
  - apply Forall_app. split; [done|]. by repeat constructor.
Qed.

(** What the dispatchers put into a delivery: a failure carries an error that is not
    the suppression, a suppression carries the suppression. *)
Definition delivery_ok (d : NotificationDelivery) : Prop :=
  (dl_Status d = DeliveryStatusSent /\ dl_Error d = None) \/
  (exists e, dl_Error d = Some e /\
    ((dl_Status d = DeliveryStatusFailed /\ errors_Is errNotificationSuppressed_name e = false) \/
     (dl_Status d = DeliveryStatusSuppressed /\ errors_Is errNotificationSuppressed_name e = true))).

Definition delivery_is (status : string) (d : NotificationDelivery) : bool := dl_Status d =s status.

Definition has_status (status : string) (l : list NotificationDelivery) : Prop :=
  Exists (fun d => dl_Status d = status) l.

(** The loop of [dispatchError] after the deliveries [l]. *)
Lemma dispatch_error_fold l :
  Forall delivery_ok l ->
  let '(err, sent) := fold_left dispatch_error_step l (None, false) in
  (sent = true <-> has_status DeliveryStatusSent l) /\
  ((has_status DeliveryStatusFailed l /\
      exists e, err = Some e /\ errors_Is errNotificationSuppressed_name e = false) \/
   (~ has_status DeliveryStatusFailed l /\ has_status DeliveryStatusSuppressed l /\
      exists e, err = Some e /\ errors_Is errNotificationSuppressed_name e = true) \/
   (~ has_status DeliveryStatusFailed l /\ ~ has_status DeliveryStatusSuppressed l /\ err = None)).
Proof.
  induction l as [|d l IH] using rev_ind; intros HF; cbn.
  { unfold has_status. rewrite !Exists_nil. split; [done|]. right; right. auto. }
  apply Forall_app in HF as [HF [Hd _]%Forall_cons]. specialize (IH HF).
  rewrite fold_left_app. destruct (fold_left dispatch_error_step l (None, false)) as [err sent].
  destruct IH as [Hs He]. unfold has_status in *.
  cbn [fold_left dispatch_error_step].
  destruct Hd as [[Es Ee]|(e & Ee & [[Es Hsup]|[Es Hsup]])]; rewrite Es, Ee; cbn;
    rewrite !Exists_app, !Exists_cons, !Exists_nil, !Es.
  - split; [tauto|]. destruct He as [[? ?]|[(Hnf & Hsup & ?)|(Hnf & Hns & ->)]].
    + left. tauto.
    + right; left. split; [intros [?|[[=]|[]]]; done|]. tauto.
    + right; right. split; [intros [?|[[=]|[]]]; done|]. split; [intros [?|[[=]|[]]]; done|done].
  - split; [rewrite Hs; split; [tauto|intros [?|[[=]|[]]]; done]|].
    left. split; [tauto|]. by exists e.
  - split; [rewrite Hs; split; [tauto|intros [?|[[=]|[]]]; done]|].
    destruct He as [[? (e' & -> & ?)]|[(Hnf & Hsl & e' & -> & ?)|(Hnf & Hns & ->)]].
    + left. split; [tauto|]. by exists e'.
    + right; left. split; [intros [?|[[=]|[]]]; done|]. split; [tauto|]. by exists e'.
    + right; left. split; [intros [?|[[=]|[]]]; done|]. split; [tauto|]. by exists e.
Qed.

(** Sending to several channels reports no error exactly when no channel
    failed and either one was sent or none was tried; a failure is never masked by
    another channel's success or suppression. *)
Theorem dispatchError_iff deliveries (Hok : Forall delivery_ok deliveries) :
  dispatchError deliveries = None <->
  ~ has_status DeliveryStatusFailed deliveries /\
  (has_status DeliveryStatusSent deliveries \/ deliveries = []).
Proof.
  pose proof (dispatch_error_fold deliveries Hok) as H. unfold dispatchError.
  destruct (fold_left _ _ _) as [err sent]. destruct H as [Hs He].
  assert (deliveries <> [] -> ~ has_status DeliveryStatusFailed deliveries ->
    ~ has_status DeliveryStatusSuppressed deliveries -> sent = true) as Hrest.
  { intros Hne Hf Hsup. apply Hs. destruct Hok as [|d l Hd _]; [done|].
    destruct Hd as [[Es _]|(e & _ & [[Es _]|[Es _]])]; [by constructor| |].
    - destruct Hf. by constructor.
    - destruct Hsup. by constructor. }
  destruct He as [[Hf (e & -> & He)]|[(Hf & Hsup & e & -> & He)|(Hf & Hns & ->)]].
  - rewrite He, andb_false_r. split; [done|tauto].
  - rewrite He, andb_true_r. destruct sent; [split; [|done]; intros _; split; [done|left; by apply Hs]|].
    split; [done|]. intros [_ [H|Hnil]]; [by apply Hs in H|].
    rewrite Hnil in Hsup. unfold has_status in Hsup. by rewrite Exists_nil in Hsup.
  - split; [intros _; split; [done|]|by rewrite andb_true_r; destruct sent].
    destruct deliveries as [|d l]; [by right|]. left. apply Hs, Hrest; done.
Qed.

Lemma dispatchError_iff_witness :
  dispatchError [{| dl_Channel := "telegram"; dl_Status := "sent"; dl_Error := None |};
                 {| dl_Channel := "feishu"; dl_Status := "suppressed";
                    dl_Error := Some errNotificationSuppressed |}] = None.
Proof.
  apply dispatchError_iff.
  - apply Forall_cons; split; [by left|]. apply Forall_cons; split; [|constructor].
    right. eexists. split; [done|]. by right.
  - split; [|left; by constructor]. unfold has_status. rewrite !Exists_cons, Exists_nil.
    cbn. intros [[=]|[[=]|[]]].
Defined.

Section DispatchProps.
Context {W : Type}.

Lemma dispatchWithNotifier_ok channel (notifier : option (Notifier W)) summary w :
  delivery_ok (dispatchWithNotifier channel notifier summary w).1 /\
  dl_Channel (dispatchWithNotifier channel notifier summary w).1 = channel.
Proof.
  unfold dispatchWithNotifier. destruct notifier as [send|]; cbn.
  - destruct (send summary w) as [[e|] w']; cbn; (split; [|done]); [|by left].
    right. exists e. split; [done|]. destruct (errors_Is _ e) eqn:E; [by right|by left].
  - split; [|done]. right. eexists. split; [done|]. by right.
Qed.

Lemma failed_delivery_ok channel msg : delivery_ok (failed_delivery channel (ErrNew msg)).
Proof. right. eexists. split; [done|]. by left. Qed.

Lemma dispatchTelegram_ok n summary t (w : W) :
  Telegram_Enabled t = true ->
  delivery_ok (dispatchTelegram n summary t w).1 /\
  dl_Channel (dispatchTelegram n summary t w).1 = NotificationChannelTelegram.
Proof.
  intros Ht. unfold dispatchTelegram. rewrite Ht. cbn [negb].
  destruct (newTelegramNotifier n) as [new|]; [|split; [apply failed_delivery_ok|done]].
  destruct (new _ _) as [notifier|]; [apply dispatchWithNotifier_ok|split; [apply failed_delivery_ok|done]].
Qed.

Lemma dispatchFeishu_ok n summary url (w : W) :
  delivery_ok (dispatchFeishu n summary url w).1 /\
  dl_Channel (dispatchFeishu n summary url w).1 = NotificationChannelFeishu.
Proof.
  unfold dispatchFeishu. destruct (newFeishuNotifier n) as [new|]; [|split; [apply failed_delivery_ok|done]].
  destruct (new _) as [notifier|]; [apply dispatchWithNotifier_ok|split; [apply failed_delivery_ok|done]].
Qed.

(** The settings-aware dispatcher makes one delivery per enabled channel,
    Telegram first, and each is well formed; with no channel enabled it reports a
    single suppressed delivery and sends nothing. *)
Theorem settings_dispatch_channels (n : settingsAwareNotifier W) summary w settings w'
    (Hs : notificationSettings n w = (Ok settings, w')) :
  let deliveries := (settings_Dispatch n summary w).1 in
  Forall delivery_ok deliveries /\
  match (settings_NotificationChannels n w).1 with
  | [] => has_status DeliveryStatusSuppressed deliveries /\ length deliveries = 1%nat
  | channels => dl_Channel <$> deliveries = channels
  end.
Proof.
  cbv zeta. unfold settings_Dispatch, settings_NotificationChannels. rewrite Hs.
  destruct (Telegram_Enabled (ns_Telegram settings)) eqn:Et.
  - destruct (dispatchTelegram_ok n summary _ w' Et) as [Hok Hch].
    destruct (dispatchTelegram n summary (ns_Telegram settings) w') as [d1 w1]. cbn [fst] in *.
    destruct (feishu_enabled settings).
    + destruct (dispatchFeishu_ok n summary (ns_FeishuWebhookURL settings) w1) as [Hok2 Hch2].
      destruct (dispatchFeishu n summary _ w1) as [d2 w2]. cbn in *.
      split; [apply Forall_cons; split; [done|by apply Forall_cons]|]. by rewrite Hch, Hch2.
    + cbn. split; [by apply Forall_cons|]. by rewrite Hch.
  - destruct (feishu_enabled settings).
    + destruct (dispatchFeishu_ok n summary (ns_FeishuWebhookURL settings) w') as [Hok2 Hch2].
      destruct (dispatchFeishu n summary _ w') as [d2 w2]. cbn in *.
      split; [by apply Forall_cons|]. by rewrite Hch2.
    + cbn. split; [apply Forall_cons; split; [right; eexists; split; [done|]; by right|constructor]|].
      split; [by constructor|done].
Qed.
End DispatchProps.

Lemma settings_dispatch_channels_witness :
  let settings := {| ns_Telegram := {| tg_BotToken := "token"; tg_ChatID := "42"; tg_RuntimeManaged := true |};
                     ns_FeishuEnabled := true; ns_FeishuWebhookURL := "https://open.feishu.cn/x" |} in
  let n := {| settingsSource := Some (fun w : list string => (Ok settings, w));
              newTelegramNotifier := Some (fun _ _ => Some (fun m w => (None, w ++ [m])));
              newFeishuNotifier := None |} in
  dl_Channel <$> (settings_Dispatch n "summary" []).1 = ["telegram"; "feishu"].
Proof.
  intros settings n.
  exact (proj2 (settings_dispatch_channels n "summary" [] settings [] (eq_refl _))).
Defined.
