(* ===== verification/IncidentService.v ===== *)
(** The incident service (src/internal/center/incidents/service.go): reading an
    object's snapshot, evaluating every incident class, turning the answers into a
    mutation, applying it with one retry on a concurrent update, and recording the
    notifications.  Repositories, settings, clock and dispatcher are the interface
    [IncidentEnv], in state-passing style over a world [W]: between two calls the
    world may change under the service. *)
From stdpp Require Import base list sorting strings gmap.
From Stdlib Require Import ZArith Lia Permutation.
From S2P Require Import Prelude GoRuntime AgentApi IncidentTypes Transition Evaluator ResourcePressure Trend Settings IncidentPolicy TargetSeries Notification.

Local Open Scope Z_scope.
#[local] Set Warnings "-clear-no-such-hyp".

(** * Data *)

(** The fields of [monitoringinstances.Record] the service reads. *)
Record MonitoringInstanceRecord := {
  mi_MonitoringInstanceID : string;
  mi_DisplayName : string;
  mi_Labels : list string;
  mi_MonitoringStatus : string;
  mi_LifecycleStatus : string;
  mi_VPSLifecycleStatus : string;
  mi_ArchivedAt : option Z;
  mi_LastHeartbeatAt : option Z;
}.

(** The fields of [targets.TargetRecord] the service reads. *)
Record TargetRecord := {
  tr_TargetID : string;
  tr_LifecycleStatus : string;
  tr_RunStatus : string;
}.

Record classEvaluation := { ce_class : string; ce_result : EvaluationResult }.

Record evaluationAttemptResult := {
  ar_evaluations : list classEvaluation;
  ar_appendNotification : bool;
  ar_notificationPolicy : option notificationPolicy;
  ar_monitoringInstance : option MonitoringInstanceRecord;
  ar_conflict : bool;
  ar_err : option error;
}.

Definition attempt_done : evaluationAttemptResult := {|
  ar_evaluations := []; ar_appendNotification := false; ar_notificationPolicy := None;
  ar_monitoringInstance := None; ar_conflict := false; ar_err := None |}.

Definition attempt_err (err : error) : evaluationAttemptResult := {|
  ar_evaluations := []; ar_appendNotification := false; ar_notificationPolicy := None;
  ar_monitoringInstance := None; ar_conflict := false; ar_err := Some err |}.

Definition heartbeatEvaluationTrigger := bool. (* suppressTransitions *)

(** * Pure parts *)

Definition isInactiveMonitoringInstance (record : MonitoringInstanceRecord) : bool :=
  if (mi_MonitoringStatus record =s MonitoringPaused) || (mi_MonitoringStatus record =s MonitoringMaintenance)
  then true
  else if mi_LifecycleStatus record =s LifecycleRetired then true
  else isSome (mi_ArchivedAt record) || (mi_VPSLifecycleStatus record =s "archived").

Definition shouldRecoverIncidentsForTarget (record : TargetRecord) : bool :=
  if tr_LifecycleStatus record =s TargetLifecycleRetired then true
  else (tr_RunStatus record =s RunStatusPaused) || (tr_RunStatus record =s RunStatusMaintenance).

(** The argument lists the [IsBackfilled] flags of the heartbeats of the batch. *)
Definition heartbeatEvaluationTriggerForSync (heartbeats : list bool) : heartbeatEvaluationTrigger :=
  match heartbeats with
  | [] => false
  | _ => forallb id heartbeats
  end.

Definition administrativeRecoverySummaryForMonitoringInstance (record : MonitoringInstanceRecord) : string :=
  if isSome (mi_ArchivedAt record) || (mi_VPSLifecycleStatus record =s "archived")
  then "监控实例已归档，当前异常按行政下线收敛"
  else if mi_LifecycleStatus record =s LifecycleRetired then "监控实例已退役，当前异常按行政下线收敛"
  else if mi_MonitoringStatus record =s MonitoringMaintenance then "监控实例处于维护中，当前异常按维护状态收敛"
  else if mi_MonitoringStatus record =s MonitoringPaused then "监控实例已暂停，当前异常按暂停状态收敛"
  else "监控实例非运行态，当前异常按行政状态收敛".

Definition administrativeRecoverySummaryForTarget (record : TargetRecord) : string :=
  if tr_LifecycleStatus record =s TargetLifecycleRetired then "Target 已归档，当前异常按行政下线收敛"
  else if tr_RunStatus record =s RunStatusPaused then "Target 已暂停，当前异常按暂停状态收敛"
  else "Target 非运行态，当前异常按行政状态收敛".

Definition management_closure (objectType objectID summary : string) (now : Z) (incident : IncidentRecord)
    : StateChangeEventRecord := {|
  ev_ClosureReason := summary;
  ev_IncidentID := ir_IncidentID incident;
  ev_IncidentClass := ir_IncidentClass incident;
  ev_ObjectType := objectType;
  ev_ObjectID := objectID;
  ev_EventType := EventIncidentClosedByManagement;
  ev_Severity := ir_Severity incident;
  ev_Summary := summary;
  ev_CreatedAt := canonicalMonitoringEventTime now;
  ev_IsBackfilled := false;
  ev_Provenance := MonitoringEventProvenanceCenter;
  ev_ProducerVersion := MonitoringEventProducerVersion;
  ev_RuleVersion := MonitoringEventIncidentRuleVersion;
  ev_PriorState := monitoringEventIncidentState (ir_Severity incident);
  ev_ResultingState := "closed_by_management";
  ev_CorrectionOfEventID := "" |}.

Definition buildAdministrativeRecoveryMutation (objectType objectID expectedObjectRowVersion : string)
    (previous : list IncidentRecord) (now : Z) (summary : string) : IncidentMutation := {|
  im_ObjectType := objectType;
  im_ObjectID := objectID;
  im_ExpectedObjectRowVersion := expectedObjectRowVersion;
  im_Active := [];
  im_Events := management_closure objectType objectID summary now <$> previous |}.

(** Later records of a class win, as the assignments to the map do. *)
Definition incidentsByClass (records : list IncidentRecord) : gmap string IncidentRecord :=
  fold_left (fun out r => <[ir_IncidentClass r := r]> out) records ∅.

Definition mutation_step (active : gmap string IncidentRecord) (e : classEvaluation)
    : gmap string IncidentRecord :=
  if er_Transition (ce_result e) =s TransitionRecovered then delete (ce_class e) active
  else if er_Transition (ce_result e) =s TransitionSkipped then active
  else match er_Current (ce_result e) with
       | Some current => <[ce_class e := current]> active
       | None => active
       end.

Definition class_less (a b : IncidentRecord) : bool :=
  string_less (ir_IncidentClass a) (ir_IncidentClass b).

(** The map is read in the order [map_to_list] happens to give and sorted. *)
Definition buildMutation (objectType objectID expectedObjectRowVersion : string)
    (previous : list IncidentRecord) (evaluations : list classEvaluation) : IncidentMutation :=
  let activeByClass := fold_left mutation_step evaluations (incidentsByClass previous) in
  {| im_ObjectType := objectType;
     im_ObjectID := objectID;
     im_ExpectedObjectRowVersion := expectedObjectRowVersion;
     im_Active := sort_stable class_less (map_to_list activeByClass).*2;
     im_Events := omap (fun e => er_Event (ce_result e)) evaluations |}.

Definition monitoringInstanceResourceSamplesFromHostSamples (hostSamples : list HostSample)
    : list MonitoringInstanceResourceSample :=
  (fun s => {|
    rs_ObservedAt := hs_ObservedAt s; rs_ReceivedAt := hs_ReceivedAt s;
    rs_CPUUsagePct := hs_CPUUsagePct s; rs_CPURatesValid := hs_CPURatesValid s;
    rs_NormalizedLoad5 := hs_Load5 s; rs_MemUsedPct := hs_MemUsedPct s;
    rs_MemAvailableBytes := hs_MemAvailableBytes s; rs_SwapUsedPct := hs_SwapUsedPct s;
    rs_CPUIOWaitPct := hs_CPUIOWaitPct s; rs_CPUStealPct := hs_CPUStealPct s;
    rs_MaintenanceContext := hs_MaintenanceContext s; rs_IsBackfilled := hs_IsBackfilled s |})
  <$> hostSamples.

(** Instants are UTC already: the start of the day and seven days before it. *)
Definition trendBaselineWindow (now : Z) : Z * Z :=
  let end_ := Time_StartOfDay now in (end_ - 7 * (24 * Hour), end_).

Fixpoint unique_ids (seen ids : list string) : list string :=
  match ids with
  | [] => []
  | i :: rest =>
      if i =s "" then unique_ids seen rest
      else if member i seen then unique_ids seen rest
      else i :: unique_ids (i :: seen) rest
  end.

(** The argument lists the [TargetID] of the observations of the batch. *)
Definition uniqueTargetIDs (items : list string) : list string := sort_Strings (unique_ids [] items).

Definition incidentIdentity (evaluation : classEvaluation) : string :=
  match er_Current (ce_result evaluation) with
  | Some c => ir_IncidentID c
  | None => match er_Event (ce_result evaluation) with Some e => ev_IncidentID e | None => "" end
  end.

Definition notificationRecordBase (evaluation : classEvaluation) (objectType objectID : string)
    (decision : NotificationDecision) : NotificationRecordWrite := {|
  nr_IncidentID := incidentIdentity evaluation;
  nr_ObjectType := objectType;
  nr_ObjectID := objectID;
  nr_Channel := if nd_Channel decision =s "" then NotificationChannelTelegram else nd_Channel decision;
  nr_DeliveryStatus := DeliveryStatusSuppressed;
  nr_Summary := nd_Summary decision;
  nr_SentAt := None |}.

Definition newline : string := String (Ascii.ascii_of_nat 10) EmptyString.

Definition incidentNotificationDeliverySummary (evaluation : classEvaluation)
    (objectType objectID : string) (decision : NotificationDecision)
    (monitoringInstance : option MonitoringInstanceRecord) : string :=
  if (objectType <>s ObjectTypeMonitoringInstance) ||
     (ce_class evaluation <>s IncidentMonitoringInstanceHeartbeatMissing)
  then nd_Summary decision
  else
    let text (eventLabel : string) :=
      let displayName :=
        match monitoringInstance with
        | Some m =>
            if mi_MonitoringInstanceID m =s objectID then
              let value := sanitizeHeartbeatNotificationDisplayName (mi_DisplayName m) in
              if value <>s "" then value else "未命名监控实例"
            else "未命名监控实例"
        | None => "未命名监控实例"
        end in
      "VPS/监控实例：" +:+ displayName +:+ "（" +:+ objectID +:+ "）" +:+ newline +:+
      "事件：" +:+ eventLabel +:+ newline +:+ "详情：" +:+ nd_Summary decision in
    if nd_Reason decision =s NotificationReasonStarted then text "心跳失联"
    else if nd_Reason decision =s NotificationReasonEscalated then text "心跳失联升级"
    else if nd_Reason decision =s NotificationReasonRecovered then text "心跳恢复"
    else nd_Summary decision.

(** * The environment of the service *)

(** [SettingsRepository], with [GetEffectiveIncidentDefaults] when the repository
    implements [effectiveIncidentDefaultsSource]. *)
Record SettingsRepository (W : Type) := {
  GetSettings : W -> result CenterSettings * W;
  GetEffectiveIncidentDefaults : option (W -> result (IncidentDefaults * bool) * W);
}.
Arguments GetSettings {W} _ _.
Arguments GetEffectiveIncidentDefaults {W} _.

Class IncidentEnv (W : Type) := {
  GetMonitoringInstance : string -> W -> result MonitoringInstanceRecord * W;
  ListMonitoringInstances : W -> result (list MonitoringInstanceRecord) * W;
  GetTarget : string -> W -> result TargetRecord * W;
  (** [None] when the service has no target repository. *)
  ListTargets : option (W -> result (list TargetRecord) * W);
  GetObjectRowVersion : string -> string -> W -> result string * W;
  ListActiveIncidents : string -> string -> W -> result (list IncidentRecord) * W;
  ListRecentLiveHeartbeatReceipts : string -> Z -> W -> result (list LiveHeartbeatReceipt) * W;
  ListRecentHostSamples : string -> Z -> W -> result (list HostSample) * W;
  ListResourceWindowHostSamples : string -> Z -> W -> result (list HostSample) * W;
  ListRecentProbeObservations : string -> Z -> W -> result (list ProbeObservation) * W;
  ListMonitoringInstanceHostDailyAggregates :
    string -> Z -> Z -> W -> result (list MonitoringInstanceHostDailyAggregate) * W;
  ListTargetProbeDailyAggregates : string -> Z -> Z -> W -> result (list TargetProbeDailyAggregate) * W;
  ApplyIncidentMutation : IncidentMutation -> W -> result unit * W;
  AppendNotificationRecords : list NotificationRecordWrite -> W -> result unit * W;
  settingsRepo : option (SettingsRepository W);
  dispatcher : option (NotificationDispatcher W);
  service_now : W -> Z * W;
  fallbackHeartbeatInterval : Z;
  fallbackSweepInterval : Z;
  (** The field of the service that remembers when it last warned, and its logger. *)
  projectionConflictWarnAt : W -> gmap string Z;
  set_projectionConflictWarnAt : gmap string Z -> W -> W;
  log_error : string -> W -> W;
}.

Definition ErrMonitoringInstanceNotFound : string := "monitoring instance not found".
Definition ErrTargetNotFound : string := "target not found".
Definition ConflictName : string := "incident projection conflict".
Definition ObjectNotFoundName : string := "incident projection object not found".

(** What an attempt decides before it writes: to stop with a result, or to apply a mutation. *)
Inductive attempt_plan :=
| PlanStop (r : evaluationAttemptResult)
| PlanApply (mutation : IncidentMutation) (evaluations : list classEvaluation) (appendNotification : bool)
    (policy : option notificationPolicy) (instance : option MonitoringInstanceRecord).

Section Service.
Context {W : Type} `{Env : IncidentEnv W}.

(** [v, err := read(); if err != nil { return evaluationAttemptResult{err: wrap(err)} }]. *)
Definition try_read {A} (read : W -> result A * W) (wrap : error -> error)
    (k : A -> W -> attempt_plan * W) (w : W) : attempt_plan * W :=
  let '(r, w') := read w in
  match r with
  | Err err => (PlanStop (attempt_err (wrap err)), w')
  | Ok a => k a w'
  end.

Definition objectRowVersion (objectType objectID : string) (w : W) : result string * W :=
  let '(r, w) := GetObjectRowVersion objectType objectID w in
  (match r with
   | Err err => Err (ErrWrap "get %s incident projection row version: %w" [objectType] [err])
   | Ok v => if v =s "" then Err (ErrWrap "get %s incident projection row version: empty row version"
                                    [objectType] [])
             else Ok v
   end, w).

Definition wrap_get (notFound format id : string) (err : error) : error :=
  if errors_Is notFound err then ErrIncidentProjectionObjectNotFound else ErrWrap format [id] [err].

(** Reading the incident defaults a policy is made of. *)
Definition read_incident_defaults (repo : SettingsRepository W) (w : W) : result IncidentDefaults * W :=
  let from_settings (w : W) :=
    let '(r, w) := GetSettings repo w in
    (match r with
     | Err err => Err (ErrWrap "read center settings for incident policy: %w" [] [err])
     | Ok settings => Ok (cs_IncidentDefaults settings)
     end, w) in
  match GetEffectiveIncidentDefaults repo with
  | Some source =>
      let '(r, w) := source w in
      match r with
      | Err err => (Err (ErrWrap "read persisted incident defaults: %w" [] [err]), w)
      | Ok (persisted, true) => (Ok persisted, w)
      | Ok (_, false) => from_settings w
      end
  | None => from_settings w
  end.

Definition resolveIncidentPolicySnapshot (w : W) : result incidentPolicySnapshot * W :=
  match settingsRepo with
  | None => (Ok (fallback_snapshot fallbackHeartbeatInterval), w)
  | Some repo =>
      let '(r, w) := read_incident_defaults repo w in
      (match r with Err err => Err err | Ok defaults => snapshot_of_defaults defaults end, w)
  end.

Definition resourcePressurePolicy (labels : list string) (now : Z) (w : W)
    : result ResourcePressurePolicy * W :=
  match settingsRepo with
  | None => (resource_policy_for Default labels now, w)
  | Some repo =>
      let '(r, w) := GetSettings repo w in
      (match r with
       | Err err => Err (ErrWrap "read center settings for resource pressure: %w" [] [err])
       | Ok settings => resource_policy_for settings labels now
       end, w)
  end.

Definition sweepIntervalFor (w : W) : Z * W :=
  match settingsRepo with
  | None => (fallbackSweepInterval, w)
  | Some repo =>
      let of_defaults (d : IncidentDefaults) :=
        match ValidateIncidentDefaults d with
        | Err _ => fallbackSweepInterval
        | Ok validated => seconds_duration (id_SweepIntervalSeconds validated)
        end in
      match GetEffectiveIncidentDefaults repo with
      | Some source =>
          let '(r, w) := source w in
          (match r with Ok (persisted, true) => of_defaults persisted | _ => fallbackSweepInterval end, w)
      | None =>
          let '(r, w) := GetSettings repo w in
          (match r with Ok settings => of_defaults (cs_IncidentDefaults settings)
                      | Err _ => fallbackSweepInterval end, w)
      end
  end.

Definition heartbeatRecoveryReceipts (monitoringInstanceID : string) (now : Z)
    (lastHeartbeatAt : option Z) (previous : option IncidentRecord) (policy : HeartbeatIncidentPolicy)
    (w : W) : result (list LiveHeartbeatReceipt) * W :=
  match previous, lastHeartbeatAt with
  | Some p, Some last =>
      if negb (validHeartbeatIncidentPolicy policy) then (Ok [], w)
      else if hp_MissingThreshold policy <=?
              heartbeatMissedIntervals now last (hp_HeartbeatInterval policy) then (Ok [], w)
      else
        let '(r, w) := ListRecentLiveHeartbeatReceipts monitoringInstanceID (ir_StartedAt p) w in
        (match r with
         | Err err => Err (ErrWrap "list recent live heartbeat receipts for %q: %w" [monitoringInstanceID] [err])
         | Ok receipts => Ok receipts
         end, w)
  | _, _ => (Ok [], w)
  end.

(** ** Attempts *)

(** The reads both monitoring-instance attempts begin with: the row version, the
    record, the open incidents, and the administrative closing of an inactive instance. *)
Definition with_monitoring_instance (monitoringInstanceID : string) (now : Z)
    (k : string -> MonitoringInstanceRecord -> list IncidentRecord -> W -> attempt_plan * W)
    : W -> attempt_plan * W :=
  try_read (objectRowVersion ObjectTypeMonitoringInstance monitoringInstanceID) id (fun rowVersion =>
  try_read (GetMonitoringInstance monitoringInstanceID)
    (wrap_get ErrMonitoringInstanceNotFound "get monitoring instance %q for incident evaluation: %w"
       monitoringInstanceID) (fun record =>
  try_read (ListActiveIncidents ObjectTypeMonitoringInstance monitoringInstanceID)
    (fun err => ErrWrap "list previous monitoring instance incidents for %q: %w" [monitoringInstanceID] [err])
    (fun previous w =>
      if isInactiveMonitoringInstance record then
        match previous with
        | [] => (PlanStop attempt_done, w)
        | _ =>
            (PlanApply (buildAdministrativeRecoveryMutation ObjectTypeMonitoringInstance
                          monitoringInstanceID rowVersion previous now
                          (administrativeRecoverySummaryForMonitoringInstance record))
               [] false None None, w)
        end
      else k rowVersion record previous w))).

Definition plan_heartbeat_only (monitoringInstanceID : string) (now : Z) : W -> attempt_plan * W :=
  with_monitoring_instance monitoringInstanceID now (fun rowVersion record previous =>
  let previousByClass := incidentsByClass previous in
  try_read resolveIncidentPolicySnapshot id (fun policySnapshot =>
  let heartbeatPrevious := previousByClass !! IncidentMonitoringInstanceHeartbeatMissing in
  try_read (heartbeatRecoveryReceipts monitoringInstanceID now (mi_LastHeartbeatAt record)
              heartbeatPrevious (ps_heartbeat policySnapshot)) id (fun recoveryReceipts w =>
  let evaluations := [{|
    ce_class := IncidentMonitoringInstanceHeartbeatMissing;
    ce_result := EvaluateMonitoringInstanceHeartbeatMissing heartbeatPrevious monitoringInstanceID now
                   (mi_LastHeartbeatAt record) (ps_heartbeat policySnapshot) recoveryReceipts |}] in
  (PlanApply (buildMutation ObjectTypeMonitoringInstance monitoringInstanceID rowVersion previous evaluations)
     evaluations true (Some (ps_notification policySnapshot)) (Some record), w)))).

(** The heartbeat class of a full evaluation: skipped when the batch only carried
    heartbeats delivered late. *)
Definition read_heartbeat_evaluation (monitoringInstanceID : string) (now : Z)
    (trigger : heartbeatEvaluationTrigger) (record : MonitoringInstanceRecord)
    (previous : option IncidentRecord) (policy : HeartbeatIncidentPolicy) (w : W)
    : result EvaluationResult * W :=
  if trigger then (Ok (skip previous), w)
  else
    let '(r, w) := heartbeatRecoveryReceipts monitoringInstanceID now (mi_LastHeartbeatAt record)
                     previous policy w in
    (match r with
     | Err err => Err err
     | Ok receipts => Ok (EvaluateMonitoringInstanceHeartbeatMissing previous monitoringInstanceID now
                            (mi_LastHeartbeatAt record) policy receipts)
     end, w).

Definition instance_evaluations (monitoringInstanceID : string)
    (previousByClass : gmap string IncidentRecord) (heartbeatEvaluation : EvaluationResult)
    (hostSamples resourceWindow trendHostSamples : list HostSample)
    (baselines : list MonitoringInstanceHostDailyAggregate)
    (thresholds : MetricThresholds) (resourcePolicy : ResourcePressurePolicy) : list classEvaluation :=
  [{| ce_class := IncidentMonitoringInstanceHeartbeatMissing; ce_result := heartbeatEvaluation |}] ++
  match hostSamples with
  | [] => []
  | latest :: _ =>
      [{| ce_class := IncidentMonitoringInstanceDiskPressure;
          ce_result := EvaluateMonitoringInstanceDiskPressure
            (previousByClass !! IncidentMonitoringInstanceDiskPressure) monitoringInstanceID
            (Some latest) thresholds |};
       {| ce_class := IncidentMonitoringInstanceInodePressure;
          ce_result := EvaluateMonitoringInstanceInodePressure
            (previousByClass !! IncidentMonitoringInstanceInodePressure) monitoringInstanceID
            (Some latest) thresholds |}]
  end ++
  [{| ce_class := IncidentMonitoringInstanceResourcePressure;
      ce_result := EvaluateMonitoringInstanceResourcePressure
        (previousByClass !! IncidentMonitoringInstanceResourcePressure) monitoringInstanceID
        (monitoringInstanceResourceSamplesFromHostSamples resourceWindow) thresholds resourcePolicy |};
   {| ce_class := IncidentMonitoringInstanceTrendDegradation;
      ce_result := EvaluateMonitoringInstanceTrendDegradation
        (previousByClass !! IncidentMonitoringInstanceTrendDegradation) monitoringInstanceID
        (monitoringInstanceResourceSamplesFromHostSamples trendHostSamples) baselines |}].

Definition plan_monitoring_instance (monitoringInstanceID : string) (now : Z)
    (trigger : heartbeatEvaluationTrigger) : W -> attempt_plan * W :=
  with_monitoring_instance monitoringInstanceID now (fun rowVersion record previous =>
  let previousByClass := incidentsByClass previous in
  let read_err format err := ErrWrap format [monitoringInstanceID] [err] in
  try_read resolveIncidentPolicySnapshot id (fun policySnapshot =>
  try_read (read_heartbeat_evaluation monitoringInstanceID now trigger record
              (previousByClass !! IncidentMonitoringInstanceHeartbeatMissing)
              (ps_heartbeat policySnapshot)) id (fun heartbeatEvaluation =>
  try_read (resourcePressurePolicy (mi_Labels record) now) id (fun resourcePolicy =>
  try_read (ListResourceWindowHostSamples monitoringInstanceID now)
    (read_err "list resource window host samples for %q: %w") (fun resourceWindowHostSamples =>
  try_read (ListRecentHostSamples monitoringInstanceID (now - 30 * Minute))
    (read_err "list recent host samples for %q: %w") (fun hostSamples =>
  try_read (ListRecentHostSamples monitoringInstanceID (now - 24 * Hour))
    (read_err "list trend host samples for %q: %w") (fun trendHostSamples =>
  try_read (let '(baselineStart, baselineEnd) := trendBaselineWindow now in
            ListMonitoringInstanceHostDailyAggregates monitoringInstanceID baselineStart baselineEnd)
    (read_err "list monitoring instance trend baselines for %q: %w") (fun baselines w =>
  let evaluations := instance_evaluations monitoringInstanceID previousByClass heartbeatEvaluation
    hostSamples resourceWindowHostSamples trendHostSamples baselines (ps_metrics policySnapshot)
    resourcePolicy in
  (PlanApply (buildMutation ObjectTypeMonitoringInstance monitoringInstanceID rowVersion previous evaluations)
     evaluations true (Some (ps_notification policySnapshot)) (Some record), w))))))))).

Definition target_evaluations (targetID : string) (previousByClass : gmap string IncidentRecord)
    (observations trendObservations : list ProbeObservation)
    (baselines : list TargetProbeDailyAggregate) : list classEvaluation :=
  [{| ce_class := IncidentTargetProbeFailure;
      ce_result := evaluateTargetProbeFailureAcrossSeries
        (previousByClass !! IncidentTargetProbeFailure) targetID observations |};
   {| ce_class := IncidentTargetTLSExpiry;
      ce_result := evaluateTargetTLSExpiryAcrossSeries
        (previousByClass !! IncidentTargetTLSExpiry) targetID observations |};
   {| ce_class := IncidentTargetLatencyTrendDegradation;
      ce_result := EvaluateTargetLatencyTrendDegradationAcrossSeries
        (previousByClass !! IncidentTargetLatencyTrendDegradation) targetID trendObservations baselines |}].

Definition plan_target (targetID : string) (now : Z) : W -> attempt_plan * W :=
  let read_err format err := ErrWrap format [targetID] [err] in
  try_read (objectRowVersion ObjectTypeTarget targetID) id (fun rowVersion =>
  try_read (GetTarget targetID)
    (wrap_get ErrTargetNotFound "get target %q for incident evaluation: %w" targetID) (fun target =>
  try_read (ListActiveIncidents ObjectTypeTarget targetID)
    (read_err "list previous target incidents for %q: %w") (fun previous =>
  if shouldRecoverIncidentsForTarget target then fun w =>
    match previous with
    | [] => (PlanStop attempt_done, w)
    | _ => (PlanApply (buildAdministrativeRecoveryMutation ObjectTypeTarget targetID rowVersion previous now
                         (administrativeRecoverySummaryForTarget target)) [] false None None, w)
    end
  else
  try_read (ListRecentProbeObservations targetID (now - 6 * Hour))
    (read_err "list recent probe observations for %q: %w") (fun observations =>
  try_read (ListRecentProbeObservations targetID (now - 24 * Hour))
    (read_err "list trend probe observations for %q: %w") (fun trendObservations =>
  try_read (let '(baselineStart, baselineEnd) := trendBaselineWindow now in
            ListTargetProbeDailyAggregates targetID baselineStart baselineEnd)
    (read_err "list target trend baselines for %q: %w") (fun baselines w =>
  let evaluations := target_evaluations targetID (incidentsByClass previous) observations
                       trendObservations baselines in
  (PlanApply (buildMutation ObjectTypeTarget targetID rowVersion previous evaluations)
     evaluations true None None, w))))))).

Definition applyEvaluationAttempt (mutation : IncidentMutation) (evaluations : list classEvaluation)
    (appendNotification : bool) (w : W) : evaluationAttemptResult * W :=
  let '(r, w) := ApplyIncidentMutation mutation w in
  ({| ar_evaluations := evaluations; ar_appendNotification := appendNotification;
      ar_notificationPolicy := None; ar_monitoringInstance := None;
      ar_conflict := match r with Err e => errors_Is ConflictName e | Ok _ => false end;
      ar_err := match r with Err e => Some e | Ok _ => None end |}, w).

(** An attempt: the plan, then the write, then the policy and record for the notifications. *)
Definition run_plan (plan : W -> attempt_plan * W) (w : W) : evaluationAttemptResult * W :=
  let '(p, w) := plan w in
  match p with
  | PlanStop r => (r, w)
  | PlanApply mutation evaluations appendNotification policy instance =>
      let '(r, w) := applyEvaluationAttempt mutation evaluations appendNotification w in
      ({| ar_evaluations := ar_evaluations r; ar_appendNotification := ar_appendNotification r;
          ar_notificationPolicy := policy; ar_monitoringInstance := instance;
          ar_conflict := ar_conflict r; ar_err := ar_err r |}, w)
  end.

Definition evaluateMonitoringInstanceHeartbeatOnlyAttempt (monitoringInstanceID : string) (now : Z) :=
  run_plan (plan_heartbeat_only monitoringInstanceID now).

Definition evaluateMonitoringInstanceAttempt (monitoringInstanceID : string) (now : Z)
    (trigger : heartbeatEvaluationTrigger) :=
  run_plan (plan_monitoring_instance monitoringInstanceID now trigger).

Definition evaluateTargetAttempt (targetID : string) (now : Z) := run_plan (plan_target targetID now).

(** ** Notifications *)

Definition with_channel (base : NotificationRecordWrite) (channel status : string) (sentAt : option Z)
    : NotificationRecordWrite := {|
  nr_IncidentID := nr_IncidentID base; nr_ObjectType := nr_ObjectType base;
  nr_ObjectID := nr_ObjectID base; nr_Channel := channel; nr_DeliveryStatus := status;
  nr_Summary := nr_Summary base; nr_SentAt := sentAt |}.

Definition with_summary (base : NotificationRecordWrite) (summary : string) : NotificationRecordWrite := {|
  nr_IncidentID := nr_IncidentID base; nr_ObjectType := nr_ObjectType base;
  nr_ObjectID := nr_ObjectID base; nr_Channel := nr_Channel base;
  nr_DeliveryStatus := nr_DeliveryStatus base; nr_Summary := summary; nr_SentAt := nr_SentAt base |}.

Fixpoint delivery_records (base : NotificationRecordWrite) (deliveries : list NotificationDelivery) (w : W)
    : list NotificationRecordWrite * W :=
  match deliveries with
  | [] => ([], w)
  | delivery :: rest =>
      let channel := if dl_Channel delivery =s "" then nr_Channel base else dl_Channel delivery in
      let status := if dl_Status delivery =s "" then DeliveryStatusFailed else dl_Status delivery in
      let '(sentAt, w) :=
        if status =s DeliveryStatusSent then let '(now, w) := service_now w in (Some now, w)
        else (nr_SentAt base, w) in
      let w := if (status =s DeliveryStatusFailed) && isSome (dl_Error delivery)
               then log_error "send incident notification failed" w else w in
      let '(records, w) := delivery_records base rest w in
      (with_channel base channel status sentAt :: records, w)
  end.

Definition notificationRecordsFromDeliveries (base : NotificationRecordWrite)
    (deliveries : list NotificationDelivery) (w : W) : list NotificationRecordWrite * W :=
  match deliveries with
  | [] => ([base], w)
  | _ => delivery_records base deliveries w
  end.

Definition suppressedNotificationRecords (disp : option (NotificationDispatcher W))
    (base : NotificationRecordWrite) (w : W) : list NotificationRecordWrite * W :=
  let '(channels, w) :=
    match disp with
    | Some d => match NotificationChannels d with Some resolve => resolve w | None => ([], w) end
    | None => ([], w)
    end in
  let channels := match channels with [] => [nr_Channel base] | _ => channels end in
  ((fun channel => with_channel base channel DeliveryStatusSuppressed (nr_SentAt base))
     <$> uniqueNotificationChannels channels, w).

Definition should_send (policy : notificationPolicy) (decision : NotificationDecision) : bool :=
  nd_ShouldSend decision && policy_enabled policy (nd_Reason decision).

Fixpoint notification_loop (disp : option (NotificationDispatcher W)) (objectType objectID : string)
    (evaluations : list classEvaluation) (policy : notificationPolicy)
    (monitoringInstance : option MonitoringInstanceRecord) (w : W) : list NotificationRecordWrite * W :=
  match evaluations with
  | [] => ([], w)
  | evaluation :: rest =>
      match er_Notification (ce_result evaluation) with
      | None => notification_loop disp objectType objectID rest policy monitoringInstance w
      | Some decision =>
          let deliverySummary := incidentNotificationDeliverySummary evaluation objectType objectID
                                   decision monitoringInstance in
          let base := with_summary (notificationRecordBase evaluation objectType objectID decision)
                        deliverySummary in
          let '(here, w) :=
            match disp with
            | Some d =>
                if should_send policy decision then
                  let '(deliveries, w) := Dispatch d deliverySummary w in
                  notificationRecordsFromDeliveries base deliveries w
                else suppressedNotificationRecords disp base w
            | None => suppressedNotificationRecords disp base w
            end in
          let '(records, w) := notification_loop disp objectType objectID rest policy monitoringInstance w in
          (here ++ records, w)
      end
  end.

Definition to_error (r : result unit) : option error := match r with Err e => Some e | Ok _ => None end.

Definition appendNotificationRecordsWithPolicy (objectType objectID : string)
    (evaluations : list classEvaluation) (policy : notificationPolicy)
    (monitoringInstance : option MonitoringInstanceRecord) (w : W) : option error * W :=
  let '(records, w) := notification_loop dispatcher objectType objectID evaluations policy
                         monitoringInstance w in
  match records with
  | [] => (None, w)
  | _ => let '(r, w) := AppendNotificationRecords records w in (to_error r, w)
  end.

Definition notificationPolicyFor (w : W) : notificationPolicy * W :=
  match settingsRepo with
  | None => (defaultNotificationPolicy, w)
  | Some repo =>
      let from_settings (w : W) :=
        let '(r, w) := GetSettings repo w in
        (match r with
         | Err _ => defaultNotificationPolicy
         | Ok settings => notificationPolicyFromDefaults (cs_IncidentDefaults settings)
         end, w) in
      match GetEffectiveIncidentDefaults repo with
      | Some source =>
          let '(r, w) := source w in
          match r with
          | Ok (defaults, true) => (notificationPolicyFromDefaults defaults, w)
          | _ => from_settings w
          end
      | None => from_settings w
      end
  end.

Definition appendNotificationRecords (objectType objectID : string) (evaluations : list classEvaluation)
    (w : W) : option error * W :=
  let '(policy, w) := notificationPolicyFor w in
  appendNotificationRecordsWithPolicy objectType objectID evaluations policy None w.

(** ** Retry *)

Definition warnProjectionConflictRetryExhausted (objectType : string) (w : W) : W :=
  let '(now, w) := service_now w in
  let last := default 0 (projectionConflictWarnAt w !! objectType) in
  if negb (Time_IsZero last) && Time_Before now (last + Minute) then w
  else log_error "incident projection conflict retry exhausted"
         (set_projectionConflictWarnAt (<[objectType := now]> (projectionConflictWarnAt w)) w).

(** What follows an attempt without an error. *)
Definition after_success (objectType objectID : string) (r : evaluationAttemptResult) (w : W)
    : option error * W :=
  if negb (ar_appendNotification r) then (None, w)
  else match ar_notificationPolicy r with
       | Some policy => appendNotificationRecordsWithPolicy objectType objectID (ar_evaluations r) policy
                          (ar_monitoringInstance r) w
       | None => appendNotificationRecords objectType objectID (ar_evaluations r) w
       end.

(** The loop [for attemptNumber := 0; attemptNumber < 2; attemptNumber++], with
    [remaining] attempts left. *)
Fixpoint retry_loop (objectType objectID : string) (triggerNow : Z)
    (attempt : Z -> W -> evaluationAttemptResult * W) (remaining : nat) (attemptNow : Z) (w : W)
    : option error * W :=
  match remaining with
  | O => (None, w)
  | S later =>
      let '(r, w) := attempt attemptNow w in
      match ar_err r with
      | None => after_success objectType objectID r w
      | Some err =>
          if errors_Is ObjectNotFoundName err then (None, w)
          else if negb (ar_conflict r) then (Some err, w)
          else match later with
               | O => (None, warnProjectionConflictRetryExhausted objectType w)
               | S _ =>
                   let '(freshNow, w) := service_now w in
                   retry_loop objectType objectID triggerNow attempt later
                     (if Time_After freshNow triggerNow then freshNow else triggerNow) w
               end
      end
  end.

Definition evaluateObjectWithRetry (objectType objectID : string) (triggerNow : Z)
    (attempt : Z -> W -> evaluationAttemptResult * W) (w : W) : option error * W :=
  retry_loop objectType objectID triggerNow attempt 2 triggerNow w.

(** ** Entry points *)

Definition evaluateMonitoringInstanceHeartbeatOnly (monitoringInstanceID : string) (now : Z) :=
  evaluateObjectWithRetry ObjectTypeMonitoringInstance monitoringInstanceID now
    (evaluateMonitoringInstanceHeartbeatOnlyAttempt monitoringInstanceID).

Definition evaluateMonitoringInstanceWithTrigger (monitoringInstanceID : string) (now : Z)
    (trigger : heartbeatEvaluationTrigger) :=
  evaluateObjectWithRetry ObjectTypeMonitoringInstance monitoringInstanceID now
    (fun attemptNow => evaluateMonitoringInstanceAttempt monitoringInstanceID attemptNow trigger).

Definition evaluateTarget (targetID : string) (now : Z) :=
  evaluateObjectWithRetry ObjectTypeTarget targetID now (evaluateTargetAttempt targetID).

(** [for _, x := range xs { if err := f(x); err != nil { return err } }]. *)
Fixpoint for_each {A} (f : A -> W -> option error * W) (xs : list A) (w : W) : option error * W :=
  match xs with
  | [] => (None, w)
  | x :: rest =>
      let '(err, w) := f x w in
      match err with Some e => (Some e, w) | None => for_each f rest w end
  end.

Definition EvaluateStaleMonitoringInstances (now : Z) (w : W) : option error * W :=
  let '(r, w) := ListMonitoringInstances w in
  match r with
  | Err err => (Some (ErrWrap "list monitoring instances for stale sweep: %w" [] [err]), w)
  | Ok records =>
      for_each (fun record => evaluateMonitoringInstanceHeartbeatOnly (mi_MonitoringInstanceID record) now)
        records w
  end.

Definition EvaluatePeriodicState (now : Z) (w : W) : option error * W :=
  let '(err, w) := EvaluateStaleMonitoringInstances now w in
  match err with
  | Some e => (Some e, w)
  | None =>
      match ListTargets with
      | None => (None, w)
      | Some list =>
          let '(r, w) := list w in
          match r with
          | Err err => (Some (ErrWrap "list targets for periodic sweep: %w" [] [err]), w)
          | Ok records => for_each (fun target => evaluateTarget (tr_TargetID target) now) records w
          end
      end
  end.

(** Errors of an evaluation after a sync are logged, never returned. *)
Definition log_outcome (msg : string) (outcome : option error * W) : W :=
  let '(err, w) := outcome in match err with Some _ => log_error msg w | None => w end.

Definition AfterSuccessfulSync (monitoringInstanceID : string) (heartbeatsBackfilled : list bool)
    (observationTargets : list string) (acceptedAt : Z) (w : W) : option error * W :=
  let '(now, w) := if Time_IsZero acceptedAt then service_now w else (acceptedAt, w) in
  let w := log_outcome "evaluate monitoring instance incidents after sync failed"
             (evaluateMonitoringInstanceWithTrigger monitoringInstanceID now
                (heartbeatEvaluationTriggerForSync heartbeatsBackfilled) w) in
  (None, fold_left (fun w targetID =>
     log_outcome "evaluate target incidents after sync failed" (evaluateTarget targetID now w))
     (uniqueTargetIDs observationTargets) w).
End Service.

(** * Mutations *)

(** The incident classes of the two kinds of objects. *)
Definition instance_classes : list string :=
  [IncidentMonitoringInstanceHeartbeatMissing; IncidentMonitoringInstanceDiskPressure;
   IncidentMonitoringInstanceInodePressure; IncidentMonitoringInstanceResourcePressure;
   IncidentMonitoringInstanceTrendDegradation].

Definition target_classes : list string :=
  [IncidentTargetProbeFailure; IncidentTargetTLSExpiry; IncidentTargetLatencyTrendDegradation].

Definition known_class (objectType class : string) : bool :=
  member class (if objectType =s ObjectTypeMonitoringInstance then instance_classes else target_classes).

(** An open incident of an object, under its own class. *)
Definition wf_object (objectType objectID : string) (r : IncidentRecord) : Prop :=
  wf_incident objectType objectID (ir_IncidentClass r) r /\
  known_class objectType (ir_IncidentClass r) = true.

(** What a store holds for an object: well-formed incidents, one per class. *)
Definition wf_snapshot (objectType objectID : string) (l : list IncidentRecord) : Prop :=
  Forall (wf_object objectType objectID) l /\ NoDup (ir_IncidentClass <$> l).

Record wf_mutation (m : IncidentMutation) : Prop := {
  wm_active : Forall (wf_object (im_ObjectType m) (im_ObjectID m)) (im_Active m);
  wm_sorted : StronglySorted (fun a b => class_less a b = true) (im_Active m);
  wm_events : Forall (fun e => valid_event e = true) (im_Events m);
}.

(** What a result makes of the open incident of its class. *)
Definition next_active (previous : option IncidentRecord) (r : EvaluationResult) : option IncidentRecord :=
  if er_Transition r =s TransitionRecovered then None
  else if er_Transition r =s TransitionSkipped then previous
  else match er_Current r with Some c => Some c | None => previous end.

Lemma mutation_step_lookup m e c :
  mutation_step m e !! c =
  if decide (c = ce_class e) then next_active (m !! ce_class e) (ce_result e) else m !! c.
Proof.
  unfold mutation_step, next_active.
  destruct (decide (c = ce_class e)) as [->|Hne].
  - destruct (_ =s TransitionRecovered); [apply lookup_delete_eq|].
    destruct (_ =s TransitionSkipped); [done|].
    destruct (er_Current _); [apply lookup_insert_eq|done].
  - destruct (_ =s TransitionRecovered); [by apply lookup_delete_ne|].
    destruct (_ =s TransitionSkipped); [done|].
    destruct (er_Current _); [by apply lookup_insert_ne|done].
Qed.

Lemma mutation_fold_other evaluations m c :
  c ∉ ce_class <$> evaluations -> fold_left mutation_step evaluations m !! c = m !! c.
Proof.
  revert m. induction evaluations as [|e l IH]; intros m Hc; cbn [fold_left]; [done|].
  rewrite fmap_cons, not_elem_of_cons in Hc. destruct Hc as [Hne Hc].
  rewrite IH by done. rewrite mutation_step_lookup. by destruct (decide (c = ce_class e)).
Qed.

Lemma mutation_fold_lookup evaluations m e :
  NoDup (ce_class <$> evaluations) -> e ∈ evaluations ->
  fold_left mutation_step evaluations m !! ce_class e = next_active (m !! ce_class e) (ce_result e).
Proof.
  revert m. induction evaluations as [|x l IH]; intros m HN He; [by apply elem_of_nil in He|].
  rewrite fmap_cons, NoDup_cons in HN. destruct HN as [Hx HN]. cbn [fold_left].
  apply elem_of_cons in He as [->|He].
  - rewrite mutation_fold_other by done. rewrite mutation_step_lookup. by destruct (decide _).
  - rewrite IH by done. rewrite mutation_step_lookup.
    destruct (decide (ce_class e = ce_class x)) as [E|]; [|done].
    exfalso. apply Hx. rewrite <- E. by apply list_elem_of_fmap_2.
Qed.

Lemma incidentsByClass_snoc l r :
  incidentsByClass (l ++ [r]) = <[ir_IncidentClass r := r]> (incidentsByClass l).
Proof. unfold incidentsByClass. by rewrite fold_left_app. Qed.

Lemma incidentsByClass_lookup l c r :
  NoDup (ir_IncidentClass <$> l) ->
  incidentsByClass l !! c = Some r <-> r ∈ l /\ ir_IncidentClass r = c.
Proof.
  revert c r. induction l as [|x l IH] using rev_ind; intros c r HN.
  { split; [by intros [=]|]. intros [H _]. by apply elem_of_nil in H. }
  rewrite fmap_app, NoDup_app in HN. destruct HN as (HN & Hx & _).
  rewrite incidentsByClass_snoc, elem_of_app, list_elem_of_singleton.
  destruct (decide (ir_IncidentClass x = c)) as [E|Hne].
  - subst c. rewrite lookup_insert_eq. split; [intros [= ->]; auto|].
    intros [[Hr| ->] E]; [|done]. exfalso. apply (Hx (ir_IncidentClass x)); [|cbn; apply elem_of_cons; by left].
    rewrite <- E. by apply list_elem_of_fmap_2.
  - rewrite lookup_insert_ne by done. rewrite (IH c r HN). split; [tauto|].
    intros [[?| ->] ?]; [done|congruence].
Qed.

(** One evaluation per class, each keeping the contract of its class. *)
Definition evaluations_ok (objectType objectID : string) (previousByClass : gmap string IncidentRecord)
    (evaluations : list classEvaluation) : Prop :=
  NoDup (ce_class <$> evaluations) /\
  Forall (fun e => lifecycle objectType objectID (ce_class e) true (previousByClass !! ce_class e)
                     (ce_result e)) evaluations /\
  forallb (fun e => known_class objectType (ce_class e)) evaluations = true.

#[global] Instance class_less_sw : StrictWeak class_less.
Proof.
  unfold class_less. split; intros *; [apply sw_asym|apply sw_negtrans].
Qed.

Section BuildMutation.
Context (objectType objectID rowVersion : string) (Hobj : incident_object objectType).
Context (previous : list IncidentRecord) (Hprev : wf_snapshot objectType objectID previous).
Context (evaluations : list classEvaluation).
Hypothesis Hev : evaluations_ok objectType objectID (incidentsByClass previous) evaluations.

Let active := fold_left mutation_step evaluations (incidentsByClass previous).

Lemma previous_wf c r :
  incidentsByClass previous !! c = Some r ->
  wf_incident objectType objectID c r /\ known_class objectType c = true.
Proof using Hprev.
  destruct Hprev as [HF HN]. rewrite incidentsByClass_lookup by done. intros [Hr <-].
  rewrite Forall_forall in HF. by apply HF.
Qed.

Lemma previous_wf_opt c : wf_previous objectType objectID c (incidentsByClass previous !! c).
Proof using Hprev.
  unfold wf_previous. destruct (incidentsByClass previous !! c) eqn:E; [|done].
  by apply previous_wf in E as [? _].
Qed.

Lemma active_wf c r :
  active !! c = Some r -> wf_incident objectType objectID c r /\ known_class objectType c = true.
Proof using Hprev Hev.
  destruct Hev as (HN & HF & HK). intros Hr.
  destruct (decide (c ∈ ce_class <$> evaluations)) as [Hin|Hout].
  - apply list_elem_of_fmap in Hin as (e & -> & He). unfold active in Hr.
    rewrite (mutation_fold_lookup _ _ e) in Hr by done. unfold next_active in Hr.
    destruct (_ =s TransitionRecovered); [done|].
    destruct (_ =s TransitionSkipped); [by apply previous_wf|].
    rewrite Forall_forall in HF. specialize (HF e He).
    destruct (er_Current (ce_result e)) as [cur|] eqn:Ec; [|by apply previous_wf].
    injection Hr as <-. split.
    + eapply lifecycle_wf_current; [exact HF|apply previous_wf_opt|exact Ec].
    + rewrite forallb_forall in HK. by apply HK, list_elem_of_In.
  - unfold active in Hr. rewrite mutation_fold_other in Hr by done. by apply previous_wf.
Qed.

Lemma active_elements r : r ∈ (map_to_list active).*2 <-> active !! ir_IncidentClass r = Some r.
Proof using Hprev Hev.
  rewrite list_elem_of_fmap. split.
  - intros ([c r'] & -> & Hin). apply elem_of_map_to_list in Hin. cbn.
    by rewrite (wf_class _ _ _ _ (proj1 (active_wf _ _ Hin))).
  - intros H. exists (ir_IncidentClass r, r). split; [done|]. by apply elem_of_map_to_list.
Qed.

Lemma active_classes_nodup : NoDup (ir_IncidentClass <$> (map_to_list active).*2).
Proof using Hprev Hev.
  assert (ir_IncidentClass <$> (map_to_list active).*2 = (map_to_list active).*1) as ->.
  { rewrite <- list_fmap_compose. apply Forall_fmap_ext_1, Forall_forall.
    intros [c r] Hin. apply elem_of_map_to_list in Hin. cbn.
    exact (wf_class _ _ _ _ (proj1 (active_wf _ _ Hin))). }
  apply NoDup_fst_map_to_list.
Qed.

Lemma sort_class_strict l :
  NoDup (ir_IncidentClass <$> l) ->
  StronglySorted (fun a b => class_less a b = true) (sort_stable class_less l).
Proof.
  intros HN. assert (NoDup (ir_IncidentClass <$> sort_stable class_less l)) as HN'
    by (by rewrite sort_stable_perm).
  pose proof (sort_stable_sorted class_less l) as Hs. revert HN'.
  induction Hs as [|x l' Hs IH Hall]; intros HN'; [constructor|].
  rewrite fmap_cons, NoDup_cons in HN'. destruct HN' as [Hx HN']. constructor; [by apply IH|].
  rewrite Forall_forall in Hall |- *. intros y Hy. specialize (Hall y Hy). unfold not_after in Hall.
  destruct (class_less x y) eqn:E; [done|]. exfalso. apply Hx.
  assert (ir_IncidentClass x = ir_IncidentClass y) as -> by (by apply string_less_trichotomy).
  by apply list_elem_of_fmap_2.
Qed.

Lemma buildMutation_wf :
  wf_mutation (buildMutation objectType objectID rowVersion previous evaluations).
Proof using Hobj Hprev Hev.
  split; cbn [buildMutation im_ObjectType im_ObjectID im_Active im_Events].
  - rewrite sort_stable_perm. apply Forall_forall. intros r Hr. fold active in Hr.
    apply active_elements in Hr. unfold wf_object. by apply active_wf.
  - apply sort_class_strict, active_classes_nodup.
  - apply Forall_forall. intros ev Hin. apply list_elem_of_omap in Hin as (e & He & Hevt).
    destruct Hev as (_ & HF & _). rewrite Forall_forall in HF. specialize (HF e He).
    eapply lifecycle_event_valid; [exact Hobj|exact HF|apply previous_wf_opt|exact Hevt].
Qed.

Lemma buildMutation_lookup r :
  r ∈ im_Active (buildMutation objectType objectID rowVersion previous evaluations) <->
  active !! ir_IncidentClass r = Some r.
Proof using Hprev Hev.
  cbn [buildMutation im_Active]. rewrite sort_stable_elem. apply active_elements.
Qed.
End BuildMutation.

(** C33: the mutation of an evaluation leaves open, class by class, what the
    evaluator of the class answered (nothing after a recovery, the previous incident
    after a skip) and what was open in classes that were not evaluated; the list is
    sorted by class, so that the order in which Go ranges over the map cannot show. *)
Theorem buildMutation_exact objectType objectID rowVersion previous evaluations
    (Hprev : wf_snapshot objectType objectID previous)
    (Hev : evaluations_ok objectType objectID (incidentsByClass previous) evaluations) :
  let active := im_Active (buildMutation objectType objectID rowVersion previous evaluations) in
  (forall e r, e ∈ evaluations -> ir_IncidentClass r = ce_class e ->
     r ∈ active <-> next_active (incidentsByClass previous !! ce_class e) (ce_result e) = Some r) /\
  (forall r, ir_IncidentClass r ∉ ce_class <$> evaluations -> r ∈ active <-> r ∈ previous) /\
  (forall order, Permutation order
     (map_to_list (fold_left mutation_step evaluations (incidentsByClass previous))).*2 ->
     sort_stable class_less order = active).
Proof.
  cbv zeta. pose proof Hev as (HN & _ & _). split; [|split].
  - intros e r He Hc. rewrite buildMutation_lookup by done. rewrite Hc.
    by rewrite (mutation_fold_lookup _ _ e).
  - intros r Hr. rewrite buildMutation_lookup by done. rewrite mutation_fold_other by done.
    rewrite incidentsByClass_lookup by apply Hprev. tauto.
  - intros order Hp. cbn [buildMutation im_Active].
    assert (NoDup (ir_IncidentClass <$> order)) as HNo.
    { rewrite Hp. by apply active_classes_nodup with (objectType := objectType) (objectID := objectID). }
    pose proof (sort_class_strict order HNo) as Hs1.
    assert (NoDup (ir_IncidentClass <$> (map_to_list (fold_left mutation_step evaluations
      (incidentsByClass previous))).*2)) as HN2 by (by rewrite <- Hp).
    pose proof (sort_class_strict _ HN2) as Hs2.
    refine (StronglySorted_unique_strong _ _ _ _ Hs1 Hs2 _); [|by rewrite !sort_stable_perm].
    intros x y _ _ Hxy Hyx. by rewrite (sw_asym _ _ Hxy) in Hyx.
Qed.

Lemma recoverIfNeeded_next p when summary provenance bf :
  next_active (Some p) (recoverIfNeeded (Some p) when summary provenance bf) = None.
Proof. reflexivity. Qed.

Lemma evaluateTransition_next previous ot oid class severity when summary prov :
  next_active previous (evaluateTransition previous ot oid class severity when summary prov) =
  er_Current (evaluateTransition previous ot oid class severity when summary prov).
Proof.
  unfold evaluateTransition. destruct previous as [p|]; [|reflexivity].
  destruct (severityRank _ <? severityRank _); reflexivity.
Qed.

(** How the event of a result explains what happened to the incident of its class. *)
Definition event_explains (previous next : option IncidentRecord) (event : option StateChangeEventRecord)
    : Prop :=
  match previous, next with
  | None, None => event = None
  | None, Some r => exists e, event = Some e /\ ev_EventType e = EventIncidentStarted /\
      ev_IncidentID e = ir_IncidentID r /\ ev_Severity e = ir_Severity r
  | Some p, None => exists e, event = Some e /\ ev_EventType e = EventIncidentRecovered /\
      ev_IncidentID e = ir_IncidentID p /\ ev_Severity e = ir_Severity p
  | Some p, Some r =>
      if severityRank (ir_Severity p) <? severityRank (ir_Severity r)
      then exists e, event = Some e /\ ev_EventType e = EventIncidentEscalated /\
           ev_IncidentID e = ir_IncidentID r /\ ev_Severity e = ir_Severity r /\
           ev_PriorState e = monitoringEventIncidentState (ir_Severity p)
      else event = None
  end.

Lemma lifecycle_event_explains ot oid class live previous result :
  lifecycle ot oid class live previous result ->
  event_explains previous (next_active previous result) (er_Event result).
Proof.
  intros [prev|prev|prev severity when summary prov _ Ha _|prev when summary prov bf _ _|prev when summary prov bf _].
  - destruct prev as [p|]; cbn; [|done]. by rewrite Z.ltb_irrefl.
  - destruct prev as [p|]; cbn; [|done]. by rewrite Z.ltb_irrefl.
  - destruct prev as [p|]; [|cbn; eexists; repeat split].
    rewrite evaluateTransition_next. unfold evaluateTransition.
    destruct (severityRank (ir_Severity p) <? severityRank severity) eqn:E; cbn; rewrite E; [|done].
    eexists; repeat split.
  - destruct prev as [p|]; cbn; [|done]. eexists; repeat split.
  - destruct prev as [p|]; cbn; [|done]. eexists; repeat split.
Qed.

(** The event log explains every change of the open incidents: an incident
    that appears has a started event, one that disappears a recovered event, one
    whose severity rises an escalated event naming the old state, and no class that
    neither appeared, disappeared nor rose produces an event. *)
Theorem events_explain_changes objectType objectID previous evaluations e
    (Hev : evaluations_ok objectType objectID (incidentsByClass previous) evaluations)
    (He : e ∈ evaluations) :
  let next := fold_left mutation_step evaluations (incidentsByClass previous) !! ce_class e in
  event_explains (incidentsByClass previous !! ce_class e) next (er_Event (ce_result e)) /\
  (forall ev, er_Event (ce_result e) = Some ev -> forall rowVersion,
     ev ∈ im_Events (buildMutation objectType objectID rowVersion previous evaluations)).
Proof.
  cbv zeta. destruct Hev as (HN & HF & _). split.
  - rewrite (mutation_fold_lookup _ _ e) by done. rewrite Forall_forall in HF.
    eapply lifecycle_event_explains, HF, He.
  - intros ev Hevt rowVersion. cbn [buildMutation im_Events]. apply list_elem_of_omap. eauto.
Qed.

Lemma management_closure_valid ot oid summary now r :
  incident_object ot -> active_severity (ir_Severity r) ->
  valid_event (management_closure ot oid summary now r) = true.
Proof.
  intros [-> | ->] [Hs|[Hs|Hs]]; unfold valid_event; cbn; rewrite Hs; reflexivity.
Qed.

Lemma administrative_wf ot oid rowVersion previous now summary :
  incident_object ot -> wf_snapshot ot oid previous ->
  wf_mutation (buildAdministrativeRecoveryMutation ot oid rowVersion previous now summary).
Proof.
  intros Hobj [HF _]. split; cbn; [constructor..|].
  apply Forall_fmap. eapply Forall_impl; [exact HF|]. intros r Hr.
  change (valid_event (management_closure ot oid summary now r) = true).
  apply management_closure_valid; [done|]. exact (wf_severity _ _ _ _ (proj1 Hr)).
Qed.

(** * The service keeps the contract of the store *)

(** What the service relies on: in the worlds [env_ok] the snapshot reader returns
    well-formed incidents, and the reads that precede it leave such a world. *)
Class IncidentEnvLaws (W : Type) `{IncidentEnv W} := {
  env_ok : W -> Prop;
  row_version_keeps : forall objectType objectID w,
    env_ok w -> env_ok (GetObjectRowVersion objectType objectID w).2;
  get_instance_keeps : forall id w, env_ok w -> env_ok (GetMonitoringInstance id w).2;
  get_target_keeps : forall id w, env_ok w -> env_ok (GetTarget id w).2;
  list_active_wf : forall objectType objectID w l w', incident_object objectType -> env_ok w ->
    ListActiveIncidents objectType objectID w = (Ok l, w') -> wf_snapshot objectType objectID l;
}.

Lemma monitoring_object : incident_object ObjectTypeMonitoringInstance.
Proof. by left. Qed.

Lemma target_object : incident_object ObjectTypeTarget.
Proof. by right. Qed.

#[export] Hint Resolve monitoring_object target_object : houfeng.

(** A list of distinct words, by evaluation. *)
Definition distinct (l : list string) : bool :=
  bool_decide (NoDup l).

Lemma distinct_NoDup l : distinct l = true -> NoDup l.
Proof. apply bool_decide_eq_true_1. Qed.

Section ServiceProps.
Context {W : Type} `{Env : IncidentEnv W} `{Laws : !IncidentEnvLaws W}.

Lemma try_read_apply {A} (read : W -> result A * W) wrap k w p w' :
  try_read read wrap k w = (p, w') ->
  (exists err, p = PlanStop (attempt_err err)) \/
  (exists a w1, read w = (Ok a, w1) /\ k a w1 = (p, w')).
Proof.
  unfold try_read. destruct (read w) as [[a|e] w1]; [eauto|]. intros [= <- _]. eauto.
Qed.

(** A plan that writes, started in a world of [ok], writes a well-formed mutation
    of its object. *)
Definition plan_wf (ok : W -> Prop) (objectType objectID : string) (plan : W -> attempt_plan * W) : Prop :=
  forall w m evs app pol inst w', ok w -> plan w = (PlanApply m evs app pol inst, w') ->
    im_ObjectType m = objectType /\ im_ObjectID m = objectID /\ wf_mutation m.

Lemma try_read_wf {A} (ok ok' : W -> Prop) ot oid (read : W -> result A * W) wrap k :
  (forall w, ok w -> ok' (read w).2) ->
  (forall a w w1, ok w -> read w = (Ok a, w1) -> plan_wf ok' ot oid (k a)) ->
  plan_wf ok ot oid (try_read read wrap k).
Proof.
  intros Hok Hk w m evs app pol inst w' Hw H.
  apply try_read_apply in H as [[err ?]|(a & w1 & Hr & H)]; [done|].
  refine (Hk _ _ _ Hw Hr _ _ _ _ _ _ _ _ H). specialize (Hok w Hw). by rewrite Hr in Hok.
Qed.

(** After the incidents are read, nothing more is asked of the world. *)
Lemma try_read_any {A} (ok : W -> Prop) ot oid (read : W -> result A * W) wrap k :
  (forall a w w1, read w = (Ok a, w1) -> plan_wf (fun _ => True) ot oid (k a)) ->
  plan_wf ok ot oid (try_read read wrap k).
Proof. intros Hk. apply (try_read_wf ok (fun _ => True)); [done|]. intros. by eapply Hk. Qed.

Lemma objectRowVersion_keeps ot oid w : env_ok w -> env_ok (objectRowVersion ot oid w).2.
Proof using Laws.
  intros H. unfold objectRowVersion. apply (row_version_keeps ot oid) in H.
  by destruct (GetObjectRowVersion ot oid w) as [r w'].
Qed.

Lemma with_monitoring_instance_wf id now k :
  (forall rowVersion record previous, wf_snapshot ObjectTypeMonitoringInstance id previous ->
     plan_wf (fun _ => True) ObjectTypeMonitoringInstance id (k rowVersion record previous)) ->
  plan_wf env_ok ObjectTypeMonitoringInstance id (with_monitoring_instance id now k).
Proof using Laws.
  intros Hk. unfold with_monitoring_instance.
  apply (try_read_wf env_ok env_ok); [apply objectRowVersion_keeps|]; intros rowVersion _ _ _ _.
  apply (try_read_wf env_ok env_ok); [apply get_instance_keeps|]; intros record _ _ _ _.
  apply (try_read_wf env_ok (fun _ => True)); [done|]. intros previous w w1 Hw Hl.
  apply list_active_wf in Hl; [|auto with houfeng|done].
  intros w2 m evs app pol inst w3. destruct (isInactiveMonitoringInstance record); [|by apply Hk].
  destruct previous as [|p ps]; intros _ H; [done|]. injection H as <- <- <- <- <- <-.
  split; [done|]. split; [done|]. apply administrative_wf; auto with houfeng.
Qed.

Lemma heartbeat_evaluations_ok id now last policy receipts previous :
  evaluations_ok ObjectTypeMonitoringInstance id previous [{|
    ce_class := IncidentMonitoringInstanceHeartbeatMissing;
    ce_result := EvaluateMonitoringInstanceHeartbeatMissing
      (previous !! IncidentMonitoringInstanceHeartbeatMissing) id now last policy receipts |}].
Proof.
  split; [apply distinct_NoDup; reflexivity|]. split; [|reflexivity]. apply Forall_singleton.
  apply EvaluateMonitoringInstanceHeartbeatMissing_lifecycle.
Qed.

Lemma instance_evaluations_ok id previous heartbeat hostSamples window trend baselines thresholds policy :
  lifecycle ObjectTypeMonitoringInstance id IncidentMonitoringInstanceHeartbeatMissing true
    (previous !! IncidentMonitoringInstanceHeartbeatMissing) heartbeat ->
  evaluations_ok ObjectTypeMonitoringInstance id previous
    (instance_evaluations id previous heartbeat hostSamples window trend baselines thresholds policy).
Proof.
  intros Hh. unfold instance_evaluations. destruct hostSamples as [|latest rest]; cbn [app].
  - split; [apply distinct_NoDup; reflexivity|]. split; [|reflexivity].
    repeat (apply Forall_cons; split; cbn [ce_class ce_result]); try done; eapply lifecycle_live.
    + apply EvaluateMonitoringInstanceResourcePressure_lifecycle.
    + apply EvaluateMonitoringInstanceTrendDegradation_lifecycle.
  - split; [apply distinct_NoDup; reflexivity|]. split; [|reflexivity].
    repeat (apply Forall_cons; split; cbn [ce_class ce_result]); try done; eapply lifecycle_live.
    + apply EvaluateMonitoringInstanceDiskPressure_lifecycle.
    + apply EvaluateMonitoringInstanceInodePressure_lifecycle.
    + apply EvaluateMonitoringInstanceResourcePressure_lifecycle.
    + apply EvaluateMonitoringInstanceTrendDegradation_lifecycle.
Qed.

Lemma target_evaluations_ok id previous observations trend baselines :
  evaluations_ok ObjectTypeTarget id previous
    (target_evaluations id previous observations trend baselines).
Proof.
  split; [apply distinct_NoDup; reflexivity|]. split; [|reflexivity]. unfold target_evaluations.
  repeat (apply Forall_cons; split; cbn [ce_class ce_result]); try done.
  - apply evaluateTargetProbeFailureAcrossSeries_lifecycle.
  - apply evaluateTargetTLSExpiryAcrossSeries_lifecycle.
  - eapply lifecycle_live, evaluateTargetLatencyOrdered_lifecycle.
Qed.

Lemma plan_heartbeat_only_wf id now :
  plan_wf env_ok ObjectTypeMonitoringInstance id (plan_heartbeat_only id now).
Proof using Laws.
  apply with_monitoring_instance_wf. intros rowVersion record previous Hp. cbv zeta.
  apply try_read_any; intros snapshot _ _ _. apply try_read_any; intros receipts _ _ _.
  intros w m evs app pol inst w' _ H. injection H as <- <- <- <- <- <-.
  split; [done|]. split; [done|].
  apply buildMutation_wf; auto using heartbeat_evaluations_ok with houfeng.
Qed.

Lemma plan_monitoring_instance_wf id now trigger :
  plan_wf env_ok ObjectTypeMonitoringInstance id (plan_monitoring_instance id now trigger).
Proof using Laws.
  apply with_monitoring_instance_wf. intros rowVersion record previous Hp. cbv zeta.
  apply try_read_any; intros snapshot _ _ _. apply try_read_any; intros heartbeat w0 w1 Hh.
  do 5 (apply try_read_any; intros ? _ _ _).
  intros w m evs app pol inst w' _ H. injection H as <- <- <- <- <- <-.
  split; [done|]. split; [done|].
  apply buildMutation_wf; auto with houfeng. apply instance_evaluations_ok.
  unfold read_heartbeat_evaluation in Hh. destruct trigger; [injection Hh as <- _; constructor|].
  destruct (heartbeatRecoveryReceipts _ _ _ _ _ _) as [[receipts|e] w2]; [|done].
  injection Hh as <- _. apply EvaluateMonitoringInstanceHeartbeatMissing_lifecycle.
Qed.

Lemma plan_target_wf id now : plan_wf env_ok ObjectTypeTarget id (plan_target id now).
Proof using Laws.
  unfold plan_target. cbv zeta.
  apply (try_read_wf env_ok env_ok); [apply objectRowVersion_keeps|]; intros rowVersion _ _ _ _.
  apply (try_read_wf env_ok env_ok); [apply get_target_keeps|]; intros target _ _ _ _.
  apply (try_read_wf env_ok (fun _ => True)); [done|]. intros previous w0 w1 Hw Hl.
  apply list_active_wf in Hl; [|auto with houfeng|done].
  destruct (shouldRecoverIncidentsForTarget target).
  - intros w m evs app pol inst w'. destruct previous as [|p ps]; intros _ H; [done|].
    injection H as <- <- <- <- <- <-. split; [done|]. split; [done|].
    apply administrative_wf; auto with houfeng.
  - do 3 (apply try_read_any; intros ? _ _ _).
    intros w m evs app pol inst w' _ H. injection H as <- <- <- <- <- <-.
    split; [done|]. split; [done|].
    apply buildMutation_wf; auto using target_evaluations_ok with houfeng.
Qed.

(** Over a store whose snapshots are well formed, the mutation the service sends to the store
    for an object names that object, holds well-formed incidents of it in strict
    class order, and its events all satisfy the closed contract of stored events;
    this for the heartbeat sweep, the full evaluation after a sync, the target
    evaluation and the administrative closing. *)
Theorem service_writes_wf_mutations id now trigger w m evs app pol inst w' (Hw : env_ok w)
    (Hplan : plan_heartbeat_only id now w = (PlanApply m evs app pol inst, w') \/
             plan_monitoring_instance id now trigger w = (PlanApply m evs app pol inst, w') \/
             plan_target id now w = (PlanApply m evs app pol inst, w')) :
  im_ObjectID m = id /\ incident_object (im_ObjectType m) /\ wf_mutation m.
Proof using Laws.
  assert (forall ot, incident_object ot -> im_ObjectType m = ot /\ im_ObjectID m = id /\ wf_mutation m ->
    im_ObjectID m = id /\ incident_object (im_ObjectType m) /\ wf_mutation m) as Hfin
    by (by intros ot Ho (-> & -> & ?)).
  destruct Hplan as [H|[H|H]].
  - eapply Hfin; [apply monitoring_object|exact (plan_heartbeat_only_wf id now _ _ _ _ _ _ _ Hw H)].
  - eapply Hfin; [apply monitoring_object|exact (plan_monitoring_instance_wf id now trigger _ _ _ _ _ _ _ Hw H)].
  - eapply Hfin; [apply target_object|exact (plan_target_wf id now _ _ _ _ _ _ _ Hw H)].
Qed.

(** An evaluation returns an error only if one of at most two attempts, none
    of them dated before the trigger, failed for a reason other than a concurrent
    update, or if recording the notifications of a successful attempt failed; a
    conflict never surfaces, and a vanished object is not an error. *)
Theorem retry_error_sources objectType objectID triggerNow attempt w e w'
    (Hret : evaluateObjectWithRetry objectType objectID triggerNow attempt w = (Some e, w')) :
  exists attemptNow w1 r w2, attempt attemptNow w1 = (r, w2) /\ triggerNow <= attemptNow /\
    ((ar_err r = Some e /\ ar_conflict r = false /\ errors_Is ObjectNotFoundName e = false) \/
     (ar_err r = None /\ after_success objectType objectID r w2 = (Some e, w'))).
Proof.
  unfold evaluateObjectWithRetry in Hret.
  assert (forall n now w, triggerNow <= now ->
    retry_loop objectType objectID triggerNow attempt n now w = (Some e, w') ->
    exists attemptNow w1 r w2, attempt attemptNow w1 = (r, w2) /\ triggerNow <= attemptNow /\
    ((ar_err r = Some e /\ ar_conflict r = false /\ errors_Is ObjectNotFoundName e = false) \/
     (ar_err r = None /\ after_success objectType objectID r w2 = (Some e, w')))) as Hloop.
  { intros n. induction n as [|n IH]; intros now w0 Hnow; cbn [retry_loop]; [done|].
    destruct (attempt now w0) as [r w1] eqn:Ea. destruct (ar_err r) as [err|] eqn:Er.
    - destruct (errors_Is ObjectNotFoundName err) eqn:En; [done|].
      destruct (ar_conflict r) eqn:Ec; cbn [negb].
      + destruct n as [|n]; [done|]. destruct (service_now w1) as [fresh w2].
        apply IH. unfold Time_After. destruct (Z.ltb_spec triggerNow fresh); lia.
      + intros [= <- <-]. exists now, w0, r, w1. split; [done|]. split; [done|]. by left.
    - intros H. exists now, w0, r, w1. split; [done|]. split; [done|]. by right. }
  eapply Hloop, Hret. lia.
Qed.

(** When both attempts meet a concurrent update, the evaluation gives up
    silently: no error, no notification, and of the world only the warning state and
    the log differ from what the attempts left. *)
Theorem retry_conflict_twice objectType objectID triggerNow attempt w r1 w1 e1 fresh w2 r2 w3 e2
    (H1 : attempt triggerNow w = (r1, w1)) (He1 : ar_err r1 = Some e1)
    (Hc1 : ar_conflict r1 = true) (Hn1 : errors_Is ObjectNotFoundName e1 = false)
    (Hnow : service_now w1 = (fresh, w2))
    (H2 : attempt (Z.max fresh triggerNow) w2 = (r2, w3)) (He2 : ar_err r2 = Some e2)
    (Hc2 : ar_conflict r2 = true) (Hn2 : errors_Is ObjectNotFoundName e2 = false) :
  evaluateObjectWithRetry objectType objectID triggerNow attempt w =
    (None, warnProjectionConflictRetryExhausted objectType w3).
Proof.
  unfold evaluateObjectWithRetry. cbn [retry_loop]. rewrite H1, He1, Hn1, Hc1. cbn [negb].
  rewrite Hnow.
  assert ((if Time_After fresh triggerNow then fresh else triggerNow) = Z.max fresh triggerNow) as ->.
  { unfold Time_After. destruct (Z.ltb_spec triggerNow fresh); lia. }
  by rewrite H2, He2, Hn2, Hc2.
Qed.

(** ** Notifications *)

Lemma delivery_records_spec base deliveries w r :
  r ∈ (delivery_records base deliveries w).1 ->
  nr_IncidentID r = nr_IncidentID base /\ nr_ObjectType r = nr_ObjectType base /\
  nr_ObjectID r = nr_ObjectID base /\ (nr_DeliveryStatus r = DeliveryStatusSent -> isSome (nr_SentAt r) = true).
Proof.
  revert w. induction deliveries as [|d ds IH]; intros w; cbn; [by intros ?%elem_of_nil|].
  set (status := if dl_Status d =s "" then _ else _).
  destruct (status =s DeliveryStatusSent) eqn:Es.
  - destruct (service_now w) as [now w1].
    destruct (delivery_records base ds _) as [rs w2] eqn:Er. cbn.
    intros [->|Hr]%elem_of_cons; [done|]. eapply IH. by rewrite Er.
  - destruct (delivery_records base ds _) as [rs w2] eqn:Er. cbn.
    intros [->|Hr]%elem_of_cons; [|eapply IH; by rewrite Er].
    cbn. repeat split; try done. intros E. by rewrite E in Es.
Qed.

Lemma suppressed_records_spec (disp : option (NotificationDispatcher W)) base w r :
  r ∈ (suppressedNotificationRecords disp base w).1 ->
  nr_IncidentID r = nr_IncidentID base /\ nr_ObjectType r = nr_ObjectType base /\
  nr_ObjectID r = nr_ObjectID base /\ nr_DeliveryStatus r = DeliveryStatusSuppressed.
Proof.
  unfold suppressedNotificationRecords.
  destruct (match disp with Some d => _ | None => ([], w) end) as [channels w1]. cbn.
  intros (c & -> & _)%list_elem_of_fmap. done.
Qed.

(** A record of the evaluation [e] with the decision [d]. *)
Definition record_of (objectType objectID : string) (policy : notificationPolicy) (e : classEvaluation)
    (d : NotificationDecision) (r : NotificationRecordWrite) : Prop :=
  nr_ObjectType r = objectType /\ nr_ObjectID r = objectID /\
  (nr_DeliveryStatus r = DeliveryStatusSent -> isSome (nr_SentAt r) = true) /\
  nr_IncidentID r = incidentIdentity e /\
  (nr_DeliveryStatus r <> DeliveryStatusSuppressed -> should_send policy d = true).

(** The records one evaluation adds. *)
Lemma evaluation_records disp objectType objectID policy e d summary w r :
  let base := with_summary (notificationRecordBase e objectType objectID d) summary in
  r ∈ (match disp with
       | Some dp =>
           if should_send policy d then
             let '(deliveries, w) := Dispatch dp summary w in
             notificationRecordsFromDeliveries base deliveries w
           else suppressedNotificationRecords disp base w
       | None => suppressedNotificationRecords disp base w
       end).1 -> record_of objectType objectID policy e d r.
Proof.
  cbv zeta. set (base := with_summary _ _).
  assert (r ∈ (suppressedNotificationRecords disp base w).1 -> record_of objectType objectID policy e d r)
    as Hsup.
  { intros (Hi & Ho & Hj & Es)%suppressed_records_spec. unfold record_of. rewrite Hi, Ho, Hj, Es.
    by repeat split. }
  destruct disp as [dp|]; [|done]. destruct (should_send policy d) eqn:Esend; [|done].
  destruct (Dispatch dp summary w) as [deliveries w1]. unfold notificationRecordsFromDeliveries.
  unfold record_of. destruct deliveries as [|d1 ds].
  - intros ->%list_elem_of_singleton. by repeat split.
  - intros (-> & -> & -> & ?)%delivery_records_spec. by repeat split.
Qed.

(** Every notification record is of the evaluated object and carries the
    identity of an evaluation with a decision; one that is not suppressed belongs to
    a decision that asked to be sent and whose reason the policy enables, and one
    marked sent has its time. *)
Theorem notification_records_due disp objectType objectID evaluations policy inst w r
    (Hr : r ∈ (notification_loop disp objectType objectID evaluations policy inst w).1) :
  exists e d, e ∈ evaluations /\ er_Notification (ce_result e) = Some d /\
    nr_ObjectType r = objectType /\ nr_ObjectID r = objectID /\
    nr_IncidentID r = incidentIdentity e /\
    (nr_DeliveryStatus r = DeliveryStatusSent -> isSome (nr_SentAt r) = true) /\
    (nr_DeliveryStatus r <> DeliveryStatusSuppressed -> should_send policy d = true).
Proof.
  assert (exists e d, e ∈ evaluations /\ er_Notification (ce_result e) = Some d /\
    record_of objectType objectID policy e d r) as (e & d & ? & ? & ? & ? & ? & ? & ?);
    [|exists e, d; by repeat split].
  revert w Hr. induction evaluations as [|e es IH]; intros w; cbn [notification_loop];
    [by intros ?%elem_of_nil|].
  assert (forall w, r ∈ (notification_loop disp objectType objectID es policy inst w).1 ->
    exists e0 d, e0 ∈ e :: es /\ er_Notification (ce_result e0) = Some d /\
      record_of objectType objectID policy e0 d r) as Hrest.
  { intros w0 H. destruct (IH w0 H) as (e0 & d & ? & ?). exists e0, d. split; [by constructor|done]. }
  destruct (er_Notification (ce_result e)) as [d|] eqn:Ed; [|apply Hrest]. cbv zeta.
  pose proof (evaluation_records disp objectType objectID policy e d
    (incidentNotificationDeliverySummary e objectType objectID d inst) w r) as Hhere. cbv zeta in Hhere.
  destruct (match disp with Some _ => _ | None => _ end) as [here w1].
  destruct (notification_loop disp objectType objectID es policy inst w1) as [records w2] eqn:El.
  cbn [fst] in *. intros [Hr|Hr]%elem_of_app.
  - exists e, d. split; [by constructor|]. split; [done|by apply Hhere].
  - apply (Hrest w1). by rewrite El.
Qed.
End ServiceProps.

(** * Concrete inputs *)

(** A target with an open TLS incident, evaluated while its probes start failing. *)
Definition fixture_previous : list IncidentRecord :=
  [fixture_incident ObjectTypeTarget "t-1" IncidentTargetTLSExpiry SeverityAlert].

Definition fixture_evaluations : list classEvaluation :=
  [{| ce_class := IncidentTargetProbeFailure;
      ce_result := evaluateTransition None ObjectTypeTarget "t-1" IncidentTargetProbeFailure SeverityNotice
                     fixture_now "fixture" MonitoringEventProvenanceAgentSync |}].

Lemma fixture_previous_wf : wf_snapshot ObjectTypeTarget "t-1" fixture_previous.
Proof.
  split; [|apply NoDup_singleton]. apply Forall_singleton. split; [|reflexivity].
  split; try reflexivity. by right; left.
Defined.

Lemma fixture_evaluations_ok :
  evaluations_ok ObjectTypeTarget "t-1" (incidentsByClass fixture_previous) fixture_evaluations.
Proof.
  split; [apply NoDup_singleton|]. split; [|reflexivity]. apply Forall_singleton.
  apply (lc_evaluate _ _ _ _ None); auto with houfeng.
Defined.

(** The TLS incident, whose class was not evaluated, stays. *)
Lemma buildMutation_exact_witness :
  fixture_incident ObjectTypeTarget "t-1" IncidentTargetTLSExpiry SeverityAlert ∈
    im_Active (buildMutation ObjectTypeTarget "t-1" "7" fixture_previous fixture_evaluations).
Proof.
  destruct (buildMutation_exact ObjectTypeTarget "t-1" "7" fixture_previous fixture_evaluations
    fixture_previous_wf fixture_evaluations_ok) as (_ & Hkept & _).
  apply Hkept; [|apply list_elem_of_here].
  intros [H%String.eqb_eq|H%not_elem_of_nil]%elem_of_cons; [|done]. vm_compute in H. discriminate.
Defined.

Lemma events_explain_changes_witness :
  exists ev, ev ∈ im_Events (buildMutation ObjectTypeTarget "t-1" "7" fixture_previous fixture_evaluations) /\
    ev_EventType ev = EventIncidentStarted.
Proof.
  destruct (events_explain_changes ObjectTypeTarget "t-1" fixture_previous fixture_evaluations
    {| ce_class := IncidentTargetProbeFailure;
       ce_result := evaluateTransition None ObjectTypeTarget "t-1" IncidentTargetProbeFailure SeverityNotice
                      fixture_now "fixture" MonitoringEventProvenanceAgentSync |}
    fixture_evaluations_ok ltac:(apply list_elem_of_here)) as [_ Hlogged].
  eexists. split; [apply Hlogged; reflexivity|reflexivity].
Defined.
