(* ===== verification/EventPayload.v ===== *)
(** The persistence contract of monitoring events
    (src/internal/center/store/monitoring_event_payload.go): every producer of
    state_change_events passes this gate before anything is written. *)
From stdpp Require Import base list strings.
From Stdlib Require Import ZArith Lia.
From S2P Require Import Prelude GoRuntime AgentApi IncidentTypes Transition Evaluator Settings.

Local Open Scope Z_scope.

(** * Definitions *)

Record task4MonitoringEventPayload := {
  tp_ClosureKind : string;
  tp_ClosureReason : string;
  tp_NaturalRecovery : option bool;
  tp_ObjectType : string;
  tp_EventType : string;
  tp_Severity : string;
  tp_EventAt : Z;
  tp_RecordedAt : Z;
  tp_IsBackfilled : bool;
  tp_Provenance : string;
  tp_ProducerVersion : string;
  tp_RuleVersion : string;
  tp_PriorState : string;
  tp_ResultingState : string;
  tp_Reason : string;
  tp_CorrectionOfEventID : string;
  tp_IncidentID : string;
  tp_IncidentClass : string;
  tp_BindingStatus : string;
  tp_LifecycleStatus : string;
  tp_MonitoringStatus : string;
  tp_RunStatus : string;
  tp_RetirementMonitoringStatusReconciled : bool;
  tp_RetirementBindingStatusReconciled : bool;
  tp_RetirementEnrollmentCredentialsRevoked : bool;
  tp_RetirementSyncCredentialRevoked : bool;
  tp_RetirementPendingBindingCleared : bool;
  tp_RetirementPendingActionCleared : bool;
}.

(** Instants are UTC without a monotonic reading: what is left of the test is that
    the instant is set and falls on a microsecond. *)
Definition validMonitoringEventTimestamp (value : Z) : bool :=
  negb (Time_IsZero value) && (value mod Microsecond =? 0).

Definition canonicalTask4MonitoringEventTimestamp (value : Z) : Z := Time_Truncate value Microsecond.

(** A byte below 0x20 or 0x7f: every such rune is a single byte. *)
Definition control_byte (a : Ascii.ascii) : bool :=
  let n := Ascii.nat_of_ascii a in ((n <? 32) || (n =? 127))%nat.

Definition validMonitoringEventText (value : string) (maximum : Z) : bool :=
  if (value =s "") || (maximum <? Z.of_nat (String.length value)) || (strings_TrimSpace value <>s value)
  then false
  else forallb (fun a => negb (control_byte a)) (String.list_ascii_of_string value).

Definition identifier_byte (a : Ascii.ascii) : bool :=
  let n := Ascii.nat_of_ascii a in
  ((97 <=? n) && (n <=? 122) || (48 <=? n) && (n <=? 57) || (n =? 95) || (n =? 45) || (n =? 46) ||
   (n =? 47))%nat.

Definition validMonitoringEventIdentifier (value : string) : bool :=
  if (value =s "") || (128 <? Z.of_nat (String.length value)) || (strings_TrimSpace value <>s value)
  then false
  else forallb identifier_byte (String.list_ascii_of_string value).

Definition validMonitoringEventState (value : string) : bool := validMonitoringEventText value 128.

(** The loop over the status fields: [None] when it returns false, else the number of fields set. *)
Fixpoint legacy_families (ruleVersion : string) (fields : list (string * string)) : option Z :=
  match fields with
  | [] => Some 0
  | (value, rule) :: rest =>
      if value =s "" then legacy_families ruleVersion rest
      else if (ruleVersion <>s rule) || negb (validMonitoringEventState value) then None
      else match legacy_families ruleVersion rest with Some n => Some (n + 1) | None => None end
  end.

Definition validMonitoringEventLegacyFields (payload : task4MonitoringEventPayload) : bool :=
  let incidentFamily :=
    if (tp_IncidentID payload <>s "") || (tp_IncidentClass payload <>s "") then
      if (tp_RuleVersion payload <>s MonitoringEventIncidentRuleVersion) ||
         negb (validMonitoringEventIdentifier (tp_IncidentID payload)) ||
         negb (validMonitoringEventIdentifier (tp_IncidentClass payload))
      then None else Some 1
    else Some 0 in
  match incidentFamily, legacy_families (tp_RuleVersion payload)
          [(tp_BindingStatus payload, MonitoringEventBindingRuleVersion);
           (tp_LifecycleStatus payload, MonitoringEventLifecycleRuleVersion);
           (tp_MonitoringStatus payload, MonitoringEventRuntimeRuleVersion);
           (tp_RunStatus payload, MonitoringEventTargetRuleVersion)] with
  | Some n, Some m =>
      let hasReconciliation :=
        tp_RetirementMonitoringStatusReconciled payload || tp_RetirementBindingStatusReconciled payload ||
        tp_RetirementEnrollmentCredentialsRevoked payload || tp_RetirementSyncCredentialRevoked payload ||
        tp_RetirementPendingBindingCleared payload || tp_RetirementPendingActionCleared payload in
      if (if tp_EventType payload =s EventMonitoringInstanceRetirementReconciled
          then (tp_PriorState payload <>s "已退役") || (tp_ResultingState payload <>s "已退役") ||
               negb hasReconciliation
          else hasReconciliation)
      then false
      else if negb (n + m =? 1) ||
              ((tp_Reason payload <>s "") && negb (validMonitoringEventText (tp_Reason payload) 2048))
      then false
      else if tp_RuleVersion payload =s MonitoringEventBindingRuleVersion
      then tp_BindingStatus payload =s tp_ResultingState payload
      else if tp_RuleVersion payload =s MonitoringEventLifecycleRuleVersion
      then (tp_LifecycleStatus payload =s tp_ResultingState payload) ||
           ((tp_EventType payload =s EventMonitoringInstanceLifecycleUpdated) &&
            (tp_PriorState payload =s "unarchived") && (tp_ResultingState payload =s "archived")) ||
           ((tp_EventType payload =s EventMonitoringInstanceRestoredFromArchive) &&
            (tp_PriorState payload =s "archived") && (tp_ResultingState payload =s "unarchived") &&
            (tp_LifecycleStatus payload =s "观察中"))
      else if tp_RuleVersion payload =s MonitoringEventRuntimeRuleVersion
      then tp_MonitoringStatus payload =s tp_ResultingState payload
      else if tp_RuleVersion payload =s MonitoringEventTargetRuleVersion
      then if (tp_EventType payload =s EventTargetArchived) || (tp_EventType payload =s EventTargetRestoredToPaused)
           then tp_RunStatus payload =s "暂停"
           else tp_RunStatus payload =s tp_ResultingState payload
      else true
  | _, _ => false
  end.

(** The checks of [marshalTask4MonitoringEventPayload].  Marshalling what passed
    them cannot fail, so that the payload itself stands for its encoding. *)
Definition marshalTask4MonitoringEventPayload (payload : task4MonitoringEventPayload)
    : result task4MonitoringEventPayload :=
  if negb (validMonitoringEventTimestamp (tp_EventAt payload)) ||
     negb (validMonitoringEventTimestamp (tp_RecordedAt payload)) ||
     Time_Before (tp_RecordedAt payload) (tp_EventAt payload)
  then Err (ErrNew "invalid monitoring event chronology")
  else if (tp_CorrectionOfEventID payload <>s "") &&
          negb (validMonitoringEventIdentifier (tp_CorrectionOfEventID payload))
  then Err (ErrNew "invalid monitoring event correction identity")
  else if negb (ValidMonitoringEventMetadata (tp_ObjectType payload) (tp_EventType payload)
                  (tp_Severity payload) (tp_IsBackfilled payload) (tp_Provenance payload)
                  (tp_ProducerVersion payload) (tp_RuleVersion payload) (tp_PriorState payload)
                  (tp_ResultingState payload) (tp_CorrectionOfEventID payload))
  then Err (ErrNew "invalid monitoring event metadata")
  else if negb (validMonitoringEventLegacyFields payload)
  then Err (ErrNew "invalid monitoring event legacy payload")
  else Ok payload.

(** The payload [insertStateChangeEvents] builds of an incident event. *)
Definition incident_payload (event : StateChangeEventRecord) (recordedAt : Z)
    : task4MonitoringEventPayload :=
  let management := ev_EventType event =s EventIncidentClosedByManagement in
  {| tp_ClosureKind := if management then "management" else "";
     tp_ClosureReason := ev_ClosureReason event;
     tp_NaturalRecovery := if management then Some false else None;
     tp_ObjectType := ev_ObjectType event; tp_EventType := ev_EventType event;
     tp_Severity := ev_Severity event; tp_EventAt := ev_CreatedAt event; tp_RecordedAt := recordedAt;
     tp_IsBackfilled := ev_IsBackfilled event; tp_Provenance := ev_Provenance event;
     tp_ProducerVersion := ev_ProducerVersion event; tp_RuleVersion := ev_RuleVersion event;
     tp_PriorState := ev_PriorState event; tp_ResultingState := ev_ResultingState event;
     tp_Reason := ""; tp_CorrectionOfEventID := ev_CorrectionOfEventID event;
     tp_IncidentID := ev_IncidentID event; tp_IncidentClass := ev_IncidentClass event;
     tp_BindingStatus := ""; tp_LifecycleStatus := ""; tp_MonitoringStatus := ""; tp_RunStatus := "";
     tp_RetirementMonitoringStatusReconciled := false; tp_RetirementBindingStatusReconciled := false;
     tp_RetirementEnrollmentCredentialsRevoked := false; tp_RetirementSyncCredentialRevoked := false;
     tp_RetirementPendingBindingCleared := false; tp_RetirementPendingActionCleared := false |}.

(** * Theorems *)

(** An incident event as the service builds it, apart from its time. *)
Definition incident_event_shape (e : StateChangeEventRecord) : Prop :=
  ev_RuleVersion e = MonitoringEventIncidentRuleVersion /\ ev_CorrectionOfEventID e = "" /\
  one_of (ev_EventType e) [EventIncidentStarted; EventIncidentEscalated; EventIncidentRecovered;
                           EventIncidentClosedByManagement] = true /\
  validMonitoringEventIdentifier (ev_IncidentID e) = true /\
  validMonitoringEventIdentifier (ev_IncidentClass e) = true.

Lemma incident_legacy_ok e recordedAt :
  incident_event_shape e -> validMonitoringEventLegacyFields (incident_payload e recordedAt) = true.
Proof.
  intros (Hr & Hc & Ht & Hi & Hk). unfold validMonitoringEventLegacyFields. cbn.
  rewrite Hr, Hi, Hk. cbn.
  assert ((ev_IncidentID e =s "") = false) as ->.
  { apply String.eqb_neq. intros E. by rewrite E in Hi. }
  cbn. assert ((ev_EventType e =s EventMonitoringInstanceRetirementReconciled) = false) as ->; [|done].
  apply String.eqb_neq. intros E. by rewrite E in Ht.
Qed.

(** The persistence gate accepts an incident event that meets the closed
    contract and has a well-formed identity exactly when its time is set, falls on a
    microsecond and does not lie after the moment it is recorded. *)
Theorem incident_event_accepted e recordedAt (Hshape : incident_event_shape e)
    (Hvalid : valid_event e = true) :
  marshalTask4MonitoringEventPayload (incident_payload e recordedAt) = Ok (incident_payload e recordedAt) <->
  ev_CreatedAt e <> 0 /\ ev_CreatedAt e mod Microsecond = 0 /\
  recordedAt <> 0 /\ recordedAt mod Microsecond = 0 /\ ev_CreatedAt e <= recordedAt.
Proof.
  unfold marshalTask4MonitoringEventPayload.
  change (ValidMonitoringEventMetadata _ _ _ _ _ _ _ _ _ _) with (valid_event e).
  rewrite Hvalid, (incident_legacy_ok _ _ Hshape). destruct Hshape as (_ & Hc & _). cbn [negb].
  change (tp_CorrectionOfEventID (incident_payload e recordedAt)) with (ev_CorrectionOfEventID e).
  rewrite Hc. cbn [String.eqb negb andb].
  change (tp_EventAt (incident_payload e recordedAt)) with (ev_CreatedAt e).
  change (tp_RecordedAt (incident_payload e recordedAt)) with recordedAt.
  unfold validMonitoringEventTimestamp, Time_IsZero, Time_Before.
  destruct (Z.eqb_spec (ev_CreatedAt e) 0), (Z.eqb_spec recordedAt 0),
    (Z.eqb_spec (ev_CreatedAt e mod Microsecond) 0), (Z.eqb_spec (recordedAt mod Microsecond) 0),
    (Z.ltb_spec recordedAt (ev_CreatedAt e)); cbn; (split; [intros; try done; repeat split; lia|]);
    intros (? & ? & ? & ? & ?); try done; lia.
Qed.

(** * A concrete event *)

Definition fixture_event (createdAt : Z) : StateChangeEventRecord :=
  newIncidentStateChangeEvent
    (fixture_incident ObjectTypeTarget "t-1" IncidentTargetProbeFailure SeverityAlert)
    EventIncidentStarted SeverityAlert "fixture" createdAt MonitoringEventProvenanceAgentSync "normal"
    (monitoringEventIncidentState SeverityAlert).

Lemma incident_event_accepted_witness :
  marshalTask4MonitoringEventPayload (incident_payload (fixture_event fixture_now) (fixture_now + Second)) =
    Ok (incident_payload (fixture_event fixture_now) (fixture_now + Second)).
Proof.
  apply incident_event_accepted.
  - repeat split; vm_compute; reflexivity.
  - vm_compute. reflexivity.
  - repeat split; vm_compute; congruence.
Defined.
