(* ===== verification/IncidentStore.v ===== *)
(** The incident repository (src/internal/center/store/incidents.go) and the reads of
    PostgresSnapshotReader (src/internal/center/incidents/service.go) over a model of
    the tables they touch.  A transaction is a function from the tables to an
    outcome and new tables, which are discarded when the outcome is an error. *)
From stdpp Require Import base list sorting strings gmap.
From Stdlib Require Import ZArith Lia Permutation.
From S2P Require Import Prelude GoRuntime AgentApi IncidentTypes Transition Evaluator ResourcePressure Trend Settings IncidentPolicy TargetSeries Notification IncidentService EventPayload.

Local Open Scope Z_scope.
#[local] Set Warnings "-clear-no-such-hyp".

(** * Tables *)

(** A row of monitoring_instances or targets: the columns the repository reads or
    writes.  [ob_trusted_sample] is the [exists] over host_samples of the update. *)
Record object_row := {
  ob_xmin : Z;
  ob_lifecycle_status : string;
  ob_binding_status : string;
  ob_run_status : string;
  ob_last_trusted_online : bool;
  ob_trusted_sample : bool;
  ob_current_health_status : string;
  ob_current_active_incident_count : Z;
  ob_current_primary_issue_summary : string;
}.

Record stored_event := { se_payload : task4MonitoringEventPayload; se_object_id : string; se_summary : string }.

Record incident_db := {
  db_objects : gmap (string * string) object_row;
  db_active : gmap string IncidentRecord;
  db_events : list stored_event;
  db_notifications : list NotificationRecordWrite;
  (** The id of the next transaction that writes: what [xmin] shows of its rows. *)
  db_next_xid : Z;
}.

(** timestamptz keeps microseconds. *)
Definition pg_timestamptz (t : Z) : Z := Time_Truncate t Microsecond.

Definition stored_incident (r : IncidentRecord) : IncidentRecord := {|
  ir_IncidentID := ir_IncidentID r; ir_ObjectType := ir_ObjectType r; ir_ObjectID := ir_ObjectID r;
  ir_IncidentClass := ir_IncidentClass r; ir_Severity := ir_Severity r;
  ir_StartedAt := pg_timestamptz (ir_StartedAt r);
  ir_LastEvaluatedAt := pg_timestamptz (ir_LastEvaluatedAt r);
  ir_Status := ir_Status r; ir_SourceSummary := ir_SourceSummary r |}.

Definition of_object (objectType objectID : string) (r : IncidentRecord) : bool :=
  (ir_ObjectType r =s objectType) && (ir_ObjectID r =s objectID).

(** * Operations *)

Definition guardIncidentObjectRowVersion (db : incident_db) (mutation : IncidentMutation) : result unit :=
  if (im_ObjectType mutation <>s ObjectTypeMonitoringInstance) && (im_ObjectType mutation <>s ObjectTypeTarget)
  then Err (ErrWrap "unsupported incident mutation object type %q" [im_ObjectType mutation] [])
  else match db_objects db !! (im_ObjectType mutation, im_ObjectID mutation) with
       | None => Err (ErrWrap "incident mutation object not found: %w: %w" []
                        [ErrIncidentProjectionObjectNotFound; ErrSentinel "no rows in result set"])
       | Some row =>
           if fmt_d (ob_xmin row) <>s im_ExpectedObjectRowVersion mutation
           then Err ErrIncidentProjectionConflict else Ok tt
       end.

(** [insert ... on conflict (incident_id) do update set ..., started_at = least(...)]. *)
Definition insert_active (active : gmap string IncidentRecord) (incident : IncidentRecord)
    : gmap string IncidentRecord :=
  let row := stored_incident incident in
  <[ir_IncidentID row :=
      match active !! ir_IncidentID row with
      | None => row
      | Some old =>
          {| ir_IncidentID := ir_IncidentID row; ir_ObjectType := ir_ObjectType row;
             ir_ObjectID := ir_ObjectID row; ir_IncidentClass := ir_IncidentClass row;
             ir_Severity := ir_Severity row;
             ir_StartedAt := Z.min (ir_StartedAt old) (ir_StartedAt row);
             ir_LastEvaluatedAt := ir_LastEvaluatedAt row; ir_Status := ir_Status row;
             ir_SourceSummary := ir_SourceSummary row |}
      end]> active.

Definition replaceActiveIncidents (active : gmap string IncidentRecord) (mutation : IncidentMutation)
    : gmap string IncidentRecord :=
  fold_left insert_active (im_Active mutation)
    (filter (fun kv => of_object (im_ObjectType mutation) (im_ObjectID mutation) kv.2 = false) active).

(** [clock i] is what [time.Now] returns for the i-th event of the mutation. *)
Fixpoint insertStateChangeEvents (clock : nat -> Z) (i : nat) (events : list StateChangeEventRecord)
    (stored : list stored_event) : result (list stored_event) :=
  match events with
  | [] => Ok stored
  | event :: rest =>
      let recordedAt := Time_Truncate (clock i) Microsecond in
      match marshalTask4MonitoringEventPayload (incident_payload event recordedAt) with
      | Err err => Err (ErrWrap "build event payload: %w" [] [err])
      | Ok payload =>
          insertStateChangeEvents clock (S i) rest
            (stored ++ [{| se_payload := payload; se_object_id := ev_ObjectID event;
                           se_summary := ev_Summary event |}])
      end
  end.

(** [order by case severity ... end desc, started_at desc limit 1].  Rows that tie
    come in an order SQL leaves open; they have the same severity. *)
Definition primary_less (a b : IncidentRecord) : bool :=
  (severityRank (ir_Severity b) <? severityRank (ir_Severity a)) ||
  ((severityRank (ir_Severity a) =? severityRank (ir_Severity b)) && (ir_StartedAt b <? ir_StartedAt a)).

Definition object_incidents (active : gmap string IncidentRecord) (objectType objectID : string)
    : list IncidentRecord :=
  List.filter (of_object objectType objectID) (map_to_list active).*2.

Definition primary_incident (rows : list IncidentRecord) : option IncidentRecord :=
  head (sort_stable primary_less rows).

(** The condition under which the update shows the health as unknown. *)
Definition health_unknown (objectType : string) (row : object_row) : bool :=
  if objectType =s ObjectTypeMonitoringInstance then
    (ob_lifecycle_status row <>s "已接入") || (ob_binding_status row <>s "已绑定") ||
    (ob_run_status row <>s "启用") || negb (ob_last_trusted_online row) || negb (ob_trusted_sample row)
  else (ob_lifecycle_status row <>s "active") || (ob_run_status row <>s "启用").

Definition projectObjectSummary (xid : Z) (objectType : string) (row : object_row)
    (rows : list IncidentRecord) : object_row :=
  let primary := primary_incident rows in
  {| ob_xmin := xid; ob_lifecycle_status := ob_lifecycle_status row;
     ob_binding_status := ob_binding_status row; ob_run_status := ob_run_status row;
     ob_last_trusted_online := ob_last_trusted_online row; ob_trusted_sample := ob_trusted_sample row;
     ob_current_health_status :=
       if health_unknown objectType row then "unknown"
       else match primary with Some p => ir_Severity p | None => "正常" end;
     ob_current_active_incident_count := Z.of_nat (length rows);
     ob_current_primary_issue_summary :=
       match primary with Some p => ir_SourceSummary p | None => "" end |}.

(** The body of the transaction. *)
Definition mutation_tx (clock : nat -> Z) (mutation : IncidentMutation) (db : incident_db)
    : result incident_db :=
  _ ← guardIncidentObjectRowVersion db mutation;
  let active := replaceActiveIncidents (db_active db) mutation in
  events ← insertStateChangeEvents clock 0 (im_Events mutation) (db_events db);
  match db_objects db !! (im_ObjectType mutation, im_ObjectID mutation) with
  | None => Err (ErrWrap "update %s summary: not found" [im_ObjectType mutation] [])
  | Some row =>
      Ok {| db_objects := <[(im_ObjectType mutation, im_ObjectID mutation) :=
              projectObjectSummary (db_next_xid db) (im_ObjectType mutation) row
                (object_incidents active (im_ObjectType mutation) (im_ObjectID mutation))]>
              (db_objects db);
            db_active := active; db_events := events; db_notifications := db_notifications db;
            db_next_xid := db_next_xid db + 1 |}
  end.

Definition store_ApplyIncidentMutation (clock : nat -> Z) (mutation : IncidentMutation) (db : incident_db)
    : result unit * incident_db :=
  if im_ExpectedObjectRowVersion mutation =s ""
  then (Err (ErrNew "incident mutation object row version is required"), db)
  else match mutation_tx clock mutation db with
       | Err err => (Err err, db)
       | Ok db' => (Ok tt, db')
       end.

Definition store_AppendNotificationRecords (notifications : list NotificationRecordWrite) (db : incident_db)
    : result unit * incident_db :=
  (Ok tt, {| db_objects := db_objects db; db_active := db_active db; db_events := db_events db;
             db_notifications := db_notifications db ++ notifications;
             db_next_xid := db_next_xid db + 1 |}).

(** ** Reads *)

Definition store_GetObjectRowVersion (objectType objectID : string) (db : incident_db) : result string :=
  if strings_TrimSpace objectID =s ""
  then Err (ErrNew "incident object id is required for row-version read")
  else if (objectType <>s ObjectTypeMonitoringInstance) && (objectType <>s ObjectTypeTarget)
  then Err (ErrWrap "incident object type %q does not support row-version reads" [objectType] [])
  else match db_objects db !! (objectType, objectID) with
       | None => Err (ErrWrap "incident object row version not found: %w: %w" []
                        [ErrIncidentProjectionObjectNotFound; ErrSentinel "no rows in result set"])
       | Some row => Ok (fmt_d (ob_xmin row))
       end.

(** The reader of the evaluations: [order by incident_class]. *)
Definition store_ListActiveIncidents (objectType objectID : string) (db : incident_db) : list IncidentRecord :=
  sort_stable class_less (object_incidents (db_active db) objectType objectID).

Record IncidentsFilter := {
  if_ObjectType : string; if_ObjectID : string; if_Severity : string; if_Limit : Z; if_IncludeResolved : bool;
}.

Definition filter_matches (f : IncidentsFilter) (r : IncidentRecord) : bool :=
  ((if_ObjectType f =s "") || (ir_ObjectType r =s if_ObjectType f)) &&
  ((if_ObjectID f =s "") || (ir_ObjectID r =s if_ObjectID f)) &&
  ((if_Severity f =s "") || (ir_Severity r =s if_Severity f)) &&
  (if_IncludeResolved f || (ir_Status r =s IncidentStatusActive)).

(** [order by case severity ... end desc, started_at desc, incident_id asc]. *)
Definition list_less (a b : IncidentRecord) : bool :=
  primary_less a b ||
  (negb (primary_less a b) && negb (primary_less b a) && string_less (ir_IncidentID a) (ir_IncidentID b)).

(** [PostgresIncidentRepository.ListActiveIncidents]. *)
Definition repository_ListActiveIncidents (f : IncidentsFilter) (db : incident_db) : list IncidentRecord :=
  let limit := if if_Limit f <=? 0 then 50 else if_Limit f in
  take (Z.to_nat limit)
    (sort_stable list_less (List.filter (filter_matches f) (map_to_list (db_active db)).*2)).

(** * Incident identities are unique *)

Definition rev_bytes (s : string) : list Ascii.ascii := rev (String.list_ascii_of_string s).

(** No word of the list ends in another one. *)
Definition suffix_free (l : list string) : bool :=
  forallb (fun c => forallb (fun d => (c =s d) || negb (bool_decide (rev_bytes d `prefix_of` rev_bytes c))) l) l.

Lemma suffix_free_eq l c d k :
  suffix_free l = true -> c ∈ l -> d ∈ l -> rev_bytes c = rev_bytes d ++ k -> c = d.
Proof.
  unfold suffix_free. rewrite forallb_forall. intros H Hc%list_elem_of_In Hd%list_elem_of_In E.
  specialize (H c Hc). rewrite forallb_forall in H. specialize (H d Hd).
  apply orb_true_iff in H as [H|H]; [by breflect|].
  rewrite negb_true_iff, bool_decide_eq_false in H. destruct H. by exists k.
Qed.

Lemma list_ascii_app s t :
  String.list_ascii_of_string (s +:+ t) = String.list_ascii_of_string s ++ String.list_ascii_of_string t.
Proof.
  induction s as [|a s IH]; [done|]. change (String a s +:+ t) with (String a (s +:+ t)).
  cbn [String.list_ascii_of_string]. by rewrite IH.
Qed.

Lemma rev_bytes_app s t : rev_bytes (s +:+ t) = rev_bytes t ++ rev_bytes s.
Proof. unfold rev_bytes. by rewrite list_ascii_app, rev_app_distr. Qed.

Lemma rev_bytes_inj s t : rev_bytes s = rev_bytes t -> s = t.
Proof.
  unfold rev_bytes. intros H. apply (f_equal (@rev _)) in H. rewrite !rev_involutive in H.
  by rewrite <- (String.string_of_list_ascii_of_string s), H, String.string_of_list_ascii_of_string.
Qed.

Lemma split_class classes o1 o2 c1 c2 :
  suffix_free classes = true -> c1 ∈ classes -> c2 ∈ classes ->
  o1 +:+ "_" +:+ c1 = o2 +:+ "_" +:+ c2 -> o1 = o2 /\ c1 = c2.
Proof.
  intros Hs H1 H2 E. apply (f_equal rev_bytes) in E. rewrite !rev_bytes_app, <- !app_assoc in E.
  assert (c1 = c2) as ->.
  { apply app_eq_inv in E as [(k & E & _)|(k & E & _)].
    - by eapply suffix_free_eq.
    - symmetry. by eapply suffix_free_eq. }
  apply app_inv_head in E. apply app_inv_head in E. split; [by apply rev_bytes_inj|done].
Qed.

Lemma incidentID_inj ot1 ot2 o1 o2 c1 c2 :
  incident_object ot1 -> incident_object ot2 ->
  known_class ot1 c1 = true -> known_class ot2 c2 = true ->
  incidentID ot1 o1 c1 = incidentID ot2 o2 c2 -> ot1 = ot2 /\ o1 = o2 /\ c1 = c2.
Proof.
  unfold known_class.
  intros [-> | ->] [-> | ->] K1%member_spec K2%member_spec E; cbn -[member instance_classes target_classes] in K1, K2;
    unfold incidentID in E; try discriminate.
  - apply (inj _) in E. apply (inj _) in E. apply (inj _) in E.
    split; [done|]. by apply (split_class instance_classes).
  - apply (inj _) in E. apply (inj _) in E. apply (inj _) in E.
    split; [done|]. by apply (split_class target_classes).
Qed.

(** The identifier of an incident, concatenated from object type, object
    id and class, determines all three, whatever characters the object id holds:
    two open incidents never share a row of active_incidents. *)
Theorem incidentID_unique ot1 ot2 o1 o2 c1 c2
    (H1 : incident_object ot1) (H2 : incident_object ot2)
    (K1 : known_class ot1 c1 = true) (K2 : known_class ot2 c2 = true) :
  incidentID ot1 o1 c1 = incidentID ot2 o2 c2 <-> ot1 = ot2 /\ o1 = o2 /\ c1 = c2.
Proof. split; [by apply incidentID_inj|]. by intros (-> & -> & ->). Qed.

Lemma incidentID_unique_witness :
  incidentID ObjectTypeTarget "a_target_tls" "target_tls_expiry" <>
  incidentID ObjectTypeTarget "a" "target_probe_failure".
Proof.
  intros E. apply (incidentID_unique ObjectTypeTarget ObjectTypeTarget) in E; try reflexivity;
    [|by right|by right]. destruct E as (_ & E & _). discriminate.
Defined.

(** * The tables stay consistent *)

Definition row_ok (r : IncidentRecord) : Prop :=
  incident_object (ir_ObjectType r) /\ wf_object (ir_ObjectType r) (ir_ObjectID r) r.

Record db_ok (db : incident_db) : Prop := {
  ok_active : forall k r, db_active db !! k = Some r -> ir_IncidentID r = k /\ row_ok r;
  ok_xmin : forall k row, db_objects db !! k = Some row -> ob_xmin row < db_next_xid db;
}.


Lemma of_object_true ot oid r : of_object ot oid r = true <-> ir_ObjectType r = ot /\ ir_ObjectID r = oid.
Proof. unfold of_object. by rewrite andb_true_iff, !String.eqb_eq. Qed.

Lemma wf_object_id ot oid r :
  wf_object ot oid r -> ir_IncidentID r = incidentID ot oid (ir_IncidentClass r) /\
    ir_ObjectType r = ot /\ ir_ObjectID r = oid.
Proof. intros [[] _]. done. Qed.



(** The rows of an object in a table keyed by incident id. *)
Lemma object_incidents_spec (act : gmap string IncidentRecord) ot oid :
  (forall k v, act !! k = Some v -> ir_IncidentID v = k) ->
  NoDup (object_incidents act ot oid) /\
  forall v, v ∈ object_incidents act ot oid <->
    act !! ir_IncidentID v = Some v /\ of_object ot oid v = true.
Proof.
  intros Hid. unfold object_incidents. split.
  - apply NoDup_ListNoDup, List.NoDup_filter, NoDup_ListNoDup.
    apply NoDup_fmap_2_strong; [|apply NoDup_map_to_list].
    intros [k1 v1] [k2 v2] H1%elem_of_map_to_list H2%elem_of_map_to_list. cbn. intros ->. f_equal.
    by rewrite <- (Hid _ _ H1), <- (Hid _ _ H2).
  - intros v. rewrite list_elem_of_In, filter_In, <- list_elem_of_In, list_elem_of_fmap. split.
    + intros [([k v'] & -> & H%elem_of_map_to_list) Ho]. cbn. by rewrite (Hid _ _ H).
    + intros [H Ho]. split; [|done]. exists (ir_IncidentID v, v). split; [done|].
      by apply elem_of_map_to_list.
Qed.

Section Apply.
Context (db : incident_db) (Hdb : db_ok db) (m : IncidentMutation).
Context (Hobj : incident_object (im_ObjectType m)) (Hm : wf_mutation m).






End Apply.

(** * What a transaction does *)

(** The payload gate lets every event of the mutation through. *)
Fixpoint events_accepted (clock : nat -> Z) (i : nat) (events : list StateChangeEventRecord) : bool :=
  match events with
  | [] => true
  | e :: rest =>
      match marshalTask4MonitoringEventPayload (incident_payload e (Time_Truncate (clock i) Microsecond)) with
      | Ok _ => events_accepted clock (S i) rest
      | Err _ => false
      end
  end.

Fixpoint event_rows (clock : nat -> Z) (i : nat) (events : list StateChangeEventRecord) : list stored_event :=
  match events with
  | [] => []
  | e :: rest =>
      {| se_payload := incident_payload e (Time_Truncate (clock i) Microsecond);
         se_object_id := ev_ObjectID e; se_summary := ev_Summary e |} :: event_rows clock (S i) rest
  end.

Lemma marshal_id p q : marshalTask4MonitoringEventPayload p = Ok q -> q = p.
Proof. unfold marshalTask4MonitoringEventPayload. split_matches; congruence. Qed.

Lemma marshal_err p e :
  marshalTask4MonitoringEventPayload p = Err e ->
  errors_Is ConflictName e = false /\ errors_Is ObjectNotFoundName e = false.
Proof. unfold marshalTask4MonitoringEventPayload. split_matches; intros [= <-]; done. Qed.

Lemma insertStateChangeEvents_spec clock i events stored :
  if events_accepted clock i events
  then insertStateChangeEvents clock i events stored = Ok (stored ++ event_rows clock i events)
  else exists e, insertStateChangeEvents clock i events stored = Err e /\
         errors_Is ConflictName e = false /\ errors_Is ObjectNotFoundName e = false.
Proof.
  revert i stored. induction events as [|ev events IH]; intros i stored;
    cbn [events_accepted insertStateChangeEvents event_rows]; [by rewrite app_nil_r|]. cbv zeta.
  destruct (marshalTask4MonitoringEventPayload _) as [p|e] eqn:Em.
  - apply marshal_id in Em as ->. specialize (IH (S i) (stored ++ [{|
      se_payload := incident_payload ev (Time_Truncate (clock i) Microsecond);
      se_object_id := ev_ObjectID ev; se_summary := ev_Summary ev |}])).
    destruct (events_accepted clock (S i) events); [by rewrite IH, <- app_assoc|done].
  - apply marshal_err in Em as [Hc Hn]. eexists. split; [done|]. cbn. by rewrite Hc, Hn.
Qed.

Definition key_of (m : IncidentMutation) : string * string := (im_ObjectType m, im_ObjectID m).

(** The tables after a successful mutation. *)
Definition applied (clock : nat -> Z) (m : IncidentMutation) (db : incident_db) (row : object_row)
    : incident_db :=
  let active := replaceActiveIncidents (db_active db) m in
  {| db_objects := <[key_of m := projectObjectSummary (db_next_xid db) (im_ObjectType m) row
       (object_incidents active (im_ObjectType m) (im_ObjectID m))]> (db_objects db);
     db_active := active; db_events := db_events db ++ event_rows clock 0 (im_Events m);
     db_notifications := db_notifications db; db_next_xid := db_next_xid db + 1 |}.

Lemma object_supported ot :
  incident_object ot -> (ot <>s ObjectTypeMonitoringInstance) && (ot <>s ObjectTypeTarget) = false.
Proof. by intros [-> | ->]. Qed.

(** The outcome of a mutation, case by case. *)
Lemma store_apply_cases clock m db :
  incident_object (im_ObjectType m) -> im_ExpectedObjectRowVersion m <> "" ->
  store_ApplyIncidentMutation clock m db =
  match db_objects db !! key_of m with
  | None => (Err (ErrWrap "incident mutation object not found: %w: %w" []
                    [ErrIncidentProjectionObjectNotFound; ErrSentinel "no rows in result set"]), db)
  | Some row =>
      if fmt_d (ob_xmin row) <>s im_ExpectedObjectRowVersion m
      then (Err ErrIncidentProjectionConflict, db)
      else match insertStateChangeEvents clock 0 (im_Events m) (db_events db) with
           | Err e => (Err e, db)
           | Ok events => (Ok tt, applied clock m db row)
           end
  end.
Proof.
  intros Ho Hv. unfold store_ApplyIncidentMutation, mutation_tx, guardIncidentObjectRowVersion.
  apply String.eqb_neq in Hv. rewrite Hv, (object_supported _ Ho). unfold key_of.
  destruct (db_objects db !! (im_ObjectType m, im_ObjectID m)) as [row|] eqn:Er; [|done].
  destruct (fmt_d (ob_xmin row) <>s im_ExpectedObjectRowVersion m); [done|]. cbn.
  pose proof (insertStateChangeEvents_spec clock 0 (im_Events m) (db_events db)) as He.
  destruct (events_accepted clock 0 (im_Events m)).
  - by rewrite He.
  - by destruct He as (e & -> & _).
Qed.



(** C32: of two mutations planned against the same version of an object's row, the
    second one meets a conflict and changes nothing: concurrent evaluations cannot
    overwrite each other. *)
Theorem lost_update_prevented clock1 clock2 m1 m2 db db1
    (Hdb : db_ok db) (Hobj : incident_object (im_ObjectType m1))
    (Hv : im_ExpectedObjectRowVersion m1 <> "")
    (Hsame : key_of m2 = key_of m1)
    (Hversion : im_ExpectedObjectRowVersion m2 = im_ExpectedObjectRowVersion m1)
    (Hfirst : store_ApplyIncidentMutation clock1 m1 db = (Ok tt, db1)) :
  store_ApplyIncidentMutation clock2 m2 db1 = (Err ErrIncidentProjectionConflict, db1).
Proof.
  rewrite store_apply_cases in Hfirst by done.
  destruct (db_objects db !! key_of m1) as [row|] eqn:Er; [|done].
  destruct (String.eqb_spec (fmt_d (ob_xmin row)) (im_ExpectedObjectRowVersion m1)) as [Ev|]; [|done].
  cbn [negb] in Hfirst. destruct (insertStateChangeEvents _ _ _ _); [|done]. injection Hfirst as <-.
  assert (im_ObjectType m2 = im_ObjectType m1) as Et by (unfold key_of in Hsame; congruence).
  rewrite store_apply_cases; [|by rewrite Et|by rewrite Hversion].
  cbn [applied db_objects]. rewrite Hsame, lookup_insert_eq. cbn [projectObjectSummary ob_xmin].
  rewrite Hversion, <- Ev.
  destruct (String.eqb_spec (fmt_d (db_next_xid db)) (fmt_d (ob_xmin row))) as [E|]; [|done].
  apply (inj fmt_d) in E. apply (ok_xmin _ Hdb) in Er. lia.
Qed.

(** An event dated after the moment it is recorded, as an observation
    from an agent whose clock runs ahead produces, makes the whole mutation fail with
    an error that is neither a conflict nor a missing object, and changes nothing. *)
Theorem future_event_blocks_mutation clock m db e rest row
    (Hobj : incident_object (im_ObjectType m)) (Hv : im_ExpectedObjectRowVersion m <> "")
    (Hrow : db_objects db !! key_of m = Some row)
    (Hversion : fmt_d (ob_xmin row) = im_ExpectedObjectRowVersion m)
    (Hevents : im_Events m = e :: rest)
    (Hfuture : Time_Truncate (clock 0%nat) Microsecond < ev_CreatedAt e) :
  exists err, store_ApplyIncidentMutation clock m db = (Err err, db) /\
    errors_Is ConflictName err = false /\ errors_Is ObjectNotFoundName err = false.
Proof.
  rewrite store_apply_cases, Hrow by done. rewrite Hversion, String.eqb_refl. cbn [negb].
  pose proof (insertStateChangeEvents_spec clock 0 (im_Events m) (db_events db)) as H.
  assert (events_accepted clock 0 (im_Events m) = false) as Ea.
  { rewrite Hevents. cbn [events_accepted]. unfold marshalTask4MonitoringEventPayload.
    change (tp_EventAt (incident_payload e _)) with (ev_CreatedAt e).
    change (tp_RecordedAt (incident_payload e ?t)) with t.
    assert (Time_Before (Time_Truncate (clock 0%nat) Microsecond) (ev_CreatedAt e) = true) as ->
      by (unfold Time_Before; by apply Z.ltb_lt).
    by rewrite orb_true_r. }
  rewrite Ea in H. destruct H as (err & -> & ? & ?). by exists err.
Qed.

(** * The store as the environment of the service *)

(** The rest of the world: the other tables, the clock and the service's own memory. *)
Record world := {
  wd_db : incident_db;
  wd_instances : gmap string MonitoringInstanceRecord;
  wd_targets : gmap string TargetRecord;
  (** Rows of monitoring_instance_heartbeats that are not backfilled, in insertion order. *)
  wd_receipts : list (string * LiveHeartbeatReceipt);
  wd_host_samples : list HostSample;
  wd_probe_observations : list ProbeObservation;
  wd_host_daily : list (string * MonitoringInstanceHostDailyAggregate);
  wd_probe_daily : list TargetProbeDailyAggregate;
  wd_clock : Z;
  wd_warn : gmap string Z;
  wd_log : list string;
}.

Definition set_db (w : world) (db : incident_db) : world := {|
  wd_db := db; wd_instances := wd_instances w; wd_targets := wd_targets w; wd_receipts := wd_receipts w;
  wd_host_samples := wd_host_samples w; wd_probe_observations := wd_probe_observations w;
  wd_host_daily := wd_host_daily w; wd_probe_daily := wd_probe_daily w; wd_clock := wd_clock w;
  wd_warn := wd_warn w; wd_log := wd_log w |}.

(** [order by observed_at desc, is_backfilled asc, received_at desc, id desc]: the
    order of the evaluators, with ties in the reverse order of insertion. *)
Definition recent_host_samples (id : string) (since : Z) (w : world) : list HostSample :=
  normalizeHostSamples (reverse (List.filter (fun s =>
    (hs_MonitoringInstanceID s =s id) && (since <=? hs_ObservedAt s)) (wd_host_samples w))).

(** The window of 30 minutes before the newest sample up to [now], with the samples
    at the last time before it unless one lies on its boundary. *)
Definition resource_window_host_samples (id : string) (now : Z) (w : world) : list HostSample :=
  let mine := List.filter (fun s => hs_MonitoringInstanceID s =s id) (wd_host_samples w) in
  match normalizeHostSamples (List.filter (fun s => hs_ObservedAt s <=? now) mine) with
  | [] => []
  | anchor :: _ =>
      let boundary := hs_ObservedAt anchor - 30 * Minute in
      let window := List.filter (fun s => (boundary <=? hs_ObservedAt s) &&
                                          (hs_ObservedAt s <=? hs_ObservedAt anchor)) mine in
      let before := if existsb (fun s => hs_ObservedAt s =? boundary) mine then []
                    else List.filter (fun s => hs_ObservedAt s <? boundary) mine in
      let predecessor :=
        match normalizeHostSamples before with
        | [] => []
        | p :: _ => List.filter (fun s => hs_ObservedAt s =? hs_ObservedAt p) before
        end in
      normalizeHostSamples (reverse (window ++ predecessor))
  end.

Definition recent_probe_observations (id : string) (since : Z) (w : world) : list ProbeObservation :=
  normalizeProbeObservations (reverse (List.filter (fun o =>
    (po_TargetID o =s id) && (since <=? po_ObservedAt o)) (wd_probe_observations w))).

Definition heartbeatRecoveryCandidateLimit : nat := 3 * 256.

(** The newest live receipts after [startedAt], the newest of each batch, three of them. *)
Fixpoint newest_per_batch (seen : list string) (l : list LiveHeartbeatReceipt) : list LiveHeartbeatReceipt :=
  match l with
  | [] => []
  | r :: rest => if member (lr_SyncBatchID r) seen then newest_per_batch seen rest
                 else r :: newest_per_batch (lr_SyncBatchID r :: seen) rest
  end.

Definition recent_live_receipts (id : string) (startedAt : Z) (w : world) : list LiveHeartbeatReceipt :=
  let mine := (List.filter (fun ir => (ir.1 =s id) && Time_After (lr_ReceivedAt ir.2) startedAt)
                 (wd_receipts w)).*2 in
  take 3 (newest_per_batch [] (take heartbeatRecoveryCandidateLimit
    (sort_stable (fun a b => Time_After (lr_ReceivedAt a) (lr_ReceivedAt b)) (reverse mine)))).

(** [order by bucket_date desc]. *)
Definition host_daily_aggregates (id : string) (since before : Z) (w : world)
    : list MonitoringInstanceHostDailyAggregate :=
  sort_stable (fun a b => ha_BucketDate b <? ha_BucketDate a)
    (List.filter (fun a => (since <=? ha_BucketDate a) && (ha_BucketDate a <? before))
       (List.filter (fun ia => ia.1 =s id) (wd_host_daily w)).*2).

(** [order by bucket_date desc, probe_item_id]. *)
Definition probe_daily_aggregates (id : string) (since before : Z) (w : world)
    : list TargetProbeDailyAggregate :=
  sort_stable (fun a b => (ta_BucketDate b <? ta_BucketDate a) ||
      ((ta_BucketDate a =? ta_BucketDate b) && string_less (ta_ProbeItemID a) (ta_ProbeItemID b)))
    (List.filter (fun a => (ta_TargetID a =s id) && (since <=? ta_BucketDate a) &&
                           (ta_BucketDate a <? before)) (wd_probe_daily w)).

Section StoreEnv.
(** The stored settings, if the service has a settings repository, and its dispatcher. *)
Context (settings : option CenterSettings) (disp : option (NotificationDispatcher world)).
Context (heartbeatInterval sweepInterval : Z).

Definition read_only {A} (f : world -> A) (w : world) : A * world := (f w, w).

Definition store_settings : option (SettingsRepository world) :=
  match settings with
  | None => None
  | Some s => Some {| GetSettings := read_only (fun _ => Ok s);
                      GetEffectiveIncidentDefaults := None |}
  end.

#[export] Instance store_env : IncidentEnv world := {|
  GetMonitoringInstance id := read_only (fun w =>
    match wd_instances w !! id with
    | Some r => Ok r | None => Err (ErrSentinel ErrMonitoringInstanceNotFound) end);
  ListMonitoringInstances := read_only (fun w => Ok (map_to_list (wd_instances w)).*2);
  GetTarget id := read_only (fun w =>
    match wd_targets w !! id with Some r => Ok r | None => Err (ErrSentinel ErrTargetNotFound) end);
  ListTargets := Some (read_only (fun w => Ok (map_to_list (wd_targets w)).*2));
  GetObjectRowVersion ot oid := read_only (fun w => store_GetObjectRowVersion ot oid (wd_db w));
  ListActiveIncidents ot oid := read_only (fun w => Ok (store_ListActiveIncidents ot oid (wd_db w)));
  ListRecentLiveHeartbeatReceipts id started := read_only (fun w => Ok (recent_live_receipts id started w));
  ListRecentHostSamples id since := read_only (fun w => Ok (recent_host_samples id since w));
  ListResourceWindowHostSamples id now := read_only (fun w => Ok (resource_window_host_samples id now w));
  ListRecentProbeObservations id since := read_only (fun w => Ok (recent_probe_observations id since w));
  ListMonitoringInstanceHostDailyAggregates id since before := read_only (fun w =>
    Ok (host_daily_aggregates id since before w));
  ListTargetProbeDailyAggregates id since before := read_only (fun w =>
    Ok (probe_daily_aggregates id since before w));
  ApplyIncidentMutation m w :=
    let '(r, db) := store_ApplyIncidentMutation (fun _ => wd_clock w) m (wd_db w) in (r, set_db w db);
  AppendNotificationRecords l w :=
    let '(r, db) := store_AppendNotificationRecords l (wd_db w) in (r, set_db w db);
  settingsRepo := store_settings;
  dispatcher := disp;
  service_now := read_only wd_clock;
  fallbackHeartbeatInterval := heartbeatInterval;
  fallbackSweepInterval := sweepInterval;
  projectionConflictWarnAt := wd_warn;
  set_projectionConflictWarnAt m w := {|
    wd_db := wd_db w; wd_instances := wd_instances w; wd_targets := wd_targets w;
    wd_receipts := wd_receipts w; wd_host_samples := wd_host_samples w;
    wd_probe_observations := wd_probe_observations w; wd_host_daily := wd_host_daily w;
    wd_probe_daily := wd_probe_daily w; wd_clock := wd_clock w; wd_warn := m; wd_log := wd_log w |};
  log_error msg w := {|
    wd_db := wd_db w; wd_instances := wd_instances w; wd_targets := wd_targets w;
    wd_receipts := wd_receipts w; wd_host_samples := wd_host_samples w;
    wd_probe_observations := wd_probe_observations w; wd_host_daily := wd_host_daily w;
    wd_probe_daily := wd_probe_daily w; wd_clock := wd_clock w; wd_warn := wd_warn w;
    wd_log := wd_log w ++ [msg] |};
|}.

Lemma store_snapshot_wf ot oid db :
  db_ok db -> wf_snapshot ot oid (store_ListActiveIncidents ot oid db).
Proof.
  intros Hdb. unfold store_ListActiveIncidents.
  destruct (object_incidents_spec (db_active db) ot oid) as [HN Hel];
    [intros; by eapply (ok_active _ Hdb)|].
  assert (forall v, v ∈ object_incidents (db_active db) ot oid -> incident_object ot /\ wf_object ot oid v) as Hwf.
  { intros v Hv. apply Hel in Hv as [Hl Ho]. destruct (ok_active _ Hdb _ _ Hl) as [_ [Hio Hw]].
    apply of_object_true in Ho as [<- <-]. done. }
  split.
  - rewrite sort_stable_perm. apply Forall_forall. intros v Hv. by apply Hwf.
  - rewrite sort_stable_perm. apply NoDup_fmap_2_strong; [|done].
    intros x y Hx Hy E. destruct (Hwf x Hx) as [_ Wx], (Hwf y Hy) as [_ Wy].
    destruct (wf_object_id _ _ _ Wx) as [Ix _], (wf_object_id _ _ _ Wy) as [Iy _].
    apply Hel in Hx as [Hx _], Hy as [Hy _]. rewrite Ix, E, <- Iy, Hy in Hx. congruence.
Qed.

(** The store discharges what the service relies on. *)
#[export] Program Instance store_laws : IncidentEnvLaws world := {|
  env_ok w := db_ok (wd_db w);
|}.
Next Obligation. done. Qed.
Next Obligation. done. Qed.
Next Obligation. done. Qed.
Next Obligation. intros ot oid w l w' _ Hw [= <- _]. by apply store_snapshot_wf. Qed.

(** ** An evaluation over the store *)

(** The dispatcher delivers messages; it does not write the incident tables. *)
Hypothesis dispatch_keeps : forall d, disp = Some d ->
  (forall s w, wd_db (Dispatch d s w).2 = wd_db w) /\
  (forall resolve w, NotificationChannels d = Some resolve -> wd_db (resolve w).2 = wd_db w).




(** ** Over the store a plan only reads, and plans against the current row version *)


















End StoreEnv.

(** * A concrete deployment *)

Definition fixture_row : object_row := {|
  ob_xmin := 7; ob_lifecycle_status := "active"; ob_binding_status := ""; ob_run_status := "启用";
  ob_last_trusted_online := true; ob_trusted_sample := true; ob_current_health_status := "正常";
  ob_current_active_incident_count := 0; ob_current_primary_issue_summary := "" |}.

(** One target row, written by transaction 7, and no incident. *)
Definition fixture_db : incident_db := {|
  db_objects := {[ (ObjectTypeTarget, "t-1") := fixture_row ]}; db_active := ∅; db_events := [];
  db_notifications := []; db_next_xid := 8 |}.

(** A target whose probe failed twice within the last minute. *)
Definition fixture_world : world := {|
  wd_db := fixture_db; wd_instances := ∅;
  wd_targets := {[ "t-1" := {| tr_TargetID := "t-1"; tr_LifecycleStatus := TargetLifecycleActive;
                               tr_RunStatus := RunStatusEnabled |} ]};
  wd_receipts := []; wd_host_samples := [];
  wd_probe_observations := [fixture_probe "mi-1" "p-1" ProbeResultFailure Second;
                            fixture_probe "mi-1" "p-1" ProbeResultFailure Minute];
  wd_host_daily := []; wd_probe_daily := []; wd_clock := fixture_now; wd_warn := ∅; wd_log := [] |}.

Definition fixture_mutation (createdAt : Z) : IncidentMutation := {|
  im_ObjectType := ObjectTypeTarget; im_ObjectID := "t-1"; im_ExpectedObjectRowVersion := "7";
  im_Active := [fixture_incident ObjectTypeTarget "t-1" IncidentTargetProbeFailure SeverityAlert];
  im_Events := [fixture_event createdAt] |}.

Lemma fixture_db_ok : db_ok fixture_db.
Proof.
  split; [by intros k r H|]. intros k row H. cbn in H. apply lookup_singleton_Some in H as [_ <-]. done.
Defined.



Lemma lost_update_prevented_witness :
  let db1 := (store_ApplyIncidentMutation (fun _ => fixture_now + Second) (fixture_mutation fixture_now)
                fixture_db).2 in
  store_ApplyIncidentMutation (fun _ => fixture_now + Second) (fixture_mutation fixture_now) db1 =
    (Err ErrIncidentProjectionConflict, db1).
Proof.
  intros db1. apply (lost_update_prevented (fun _ => fixture_now + Second) (fun _ => fixture_now + Second)
    (fixture_mutation fixture_now) (fixture_mutation fixture_now) fixture_db db1); try reflexivity.
  - exact fixture_db_ok.
  - by right.
  - discriminate.
Defined.

(** An agent clock one hour ahead of the center. *)
Lemma future_event_blocks_mutation_witness :
  exists err, store_ApplyIncidentMutation (fun _ => fixture_now) (fixture_mutation (fixture_now + Hour)) fixture_db =
    (Err err, fixture_db).
Proof.
  destruct (future_event_blocks_mutation (fun _ => fixture_now) (fixture_mutation (fixture_now + Hour)) fixture_db
    (fixture_event (fixture_now + Hour)) [] fixture_row (or_intror eq_refl) ltac:(discriminate)
    ltac:(reflexivity) ltac:(reflexivity) ltac:(reflexivity) ltac:(vm_compute; reflexivity)) as (err & H & _).
  by exists err.
Defined.


Lemma service_writes_wf_mutations_witness :
  exists m, (exists evs app pol inst w1, @plan_target world (store_env None None Minute Minute) "t-1" fixture_now
      fixture_world = (PlanApply m evs app pol inst, w1)) /\ wf_mutation m.
Proof.
  destruct (@plan_target world (store_env None None Minute Minute) "t-1" fixture_now fixture_world)
    as [plan w1] eqn:Eplan.
  assert (exists m evs app pol inst, plan = PlanApply m evs app pol inst)
    as (m & evs & app & pol & inst & ->).
  { vm_compute in Eplan. injection Eplan as <- <-. do 5 eexists. reflexivity. }
  exists m. split; [by repeat eexists|].
  exact (proj2 (proj2 (service_writes_wf_mutations (Env := store_env None None Minute Minute)
    (Laws := store_laws None None Minute Minute) "t-1" fixture_now false fixture_world m evs app pol inst w1
    fixture_db_ok (or_intror (or_intror Eplan))))).
Defined.

(** ** Retries and notifications in that deployment *)

Definition fixture_failure : error := ErrSentinel "connection refused".

Lemma retry_error_sources_witness :
  exists attemptNow, fixture_now <= attemptNow /\
    (@evaluateObjectWithRetry world (store_env None None Minute Minute) ObjectTypeTarget "t-1" fixture_now
       (fun _ w => (attempt_err fixture_failure, w)) fixture_world).1 = Some fixture_failure.
Proof.
  destruct (retry_error_sources (Env := store_env None None Minute Minute) ObjectTypeTarget "t-1" fixture_now
    (fun _ w => (attempt_err fixture_failure, w)) fixture_world fixture_failure fixture_world
    ltac:(reflexivity)) as (attemptNow & _ & _ & _ & _ & Hnow & _).
  by exists attemptNow.
Defined.

(** Every attempt meets a concurrent update. *)
Definition fixture_conflict : evaluationAttemptResult := {|
  ar_evaluations := []; ar_appendNotification := false; ar_notificationPolicy := None;
  ar_monitoringInstance := None; ar_conflict := true; ar_err := Some ErrIncidentProjectionConflict |}.

Lemma retry_conflict_twice_witness :
  (@evaluateObjectWithRetry world (store_env None None Minute Minute) ObjectTypeTarget "t-1" fixture_now
     (fun _ w => (fixture_conflict, w)) fixture_world).1 = None.
Proof.
  by rewrite (retry_conflict_twice (Env := store_env None None Minute Minute) ObjectTypeTarget "t-1" fixture_now
    (fun _ w => (fixture_conflict, w)) fixture_world fixture_conflict fixture_world
    ErrIncidentProjectionConflict fixture_now fixture_world fixture_conflict fixture_world
    ErrIncidentProjectionConflict).
Defined.

(** A dispatcher with one channel that accepts every message. *)
Definition fixture_dispatcher : NotificationDispatcher world := {|
  Dispatch := fun _ w => ([{| dl_Channel := NotificationChannelTelegram; dl_Status := DeliveryStatusSent;
                              dl_Error := None |}], w);
  NotificationChannels := None |}.

Lemma notification_records_due_witness :
  exists r, r ∈ (@notification_loop world (store_env None None Minute Minute) (Some fixture_dispatcher)
      ObjectTypeTarget "t-1" fixture_evaluations defaultNotificationPolicy None fixture_world).1 /\
    isSome (nr_SentAt r) = true.
Proof.
  assert (exists r, r ∈ (@notification_loop world (store_env None None Minute Minute) (Some fixture_dispatcher)
      ObjectTypeTarget "t-1" fixture_evaluations defaultNotificationPolicy None fixture_world).1 /\
    nr_DeliveryStatus r = DeliveryStatusSent) as (r & Hr & Hsent).
  { eexists. split; [vm_compute; left|reflexivity]. }
  exists r. split; [done|].
  destruct (notification_records_due (Env := store_env None None Minute Minute) _ _ _ _ _ _ _ _ Hr)
    as (e & d & _ & _ & _ & _ & _ & H & _). by apply H.
Defined.
