(* ===== verification/Wire.v ===== *)
(** The sync request an agent sends, with every fact it may carry
    (src/internal/contracts/agentapi/types.go and ip_quality_product.go).  Times are
    nanoseconds, a nil pointer is [None], a raw JSON message is the document it
    holds ([None] when empty), and a nil and an empty slice are the same list. *)
From stdpp Require Import base list strings gmap.
From Stdlib Require Import ZArith.
From S2P Require Import Prelude GoRuntime Json AgentApi.

Local Open Scope Z_scope.

Record MonitoringInstanceHeartbeat := {
  hbp_ObservedAt : Z;
  hbp_AgentVersion : string;
  hbp_Fingerprint : string;
  hbp_SyncBatchID : string;
  hbp_IsBackfilled : bool;
}.

Record HostSamplePayload := {
  hsp_ObservedAt : Z;
  hsp_AgentVersion : string;
  hsp_Fingerprint : string;
  hsp_SyncBatchID : string;
  hsp_CPUUsagePct : float64;
  hsp_CPURatesValid : option bool;
  hsp_Load1 : float64;
  hsp_Load5 : float64;
  hsp_Load15 : float64;
  hsp_MemUsedPct : float64;
  hsp_MemAvailableBytes : Z;
  hsp_MemTotalBytes : Z;
  hsp_SwapUsedPct : float64;
  hsp_DiskUsedPct : float64;
  hsp_DiskTotalBytes : Z;
  hsp_InodeUsedPct : float64;
  hsp_NetInBytesPerSec : Z;
  hsp_NetOutBytesPerSec : Z;
  hsp_NetworkRatesValid : option bool;
  hsp_CPUIOWaitPct : float64;
  hsp_CPUStealPct : float64;
  hsp_DiskReadBytesPerSec : Z;
  hsp_DiskWriteBytesPerSec : Z;
  hsp_DiskBusyPct : float64;
  hsp_UptimeSeconds : Z;
  hsp_MaintenanceContext : bool;
  hsp_IsBackfilled : bool;
  hsp_Containers : list ContainerInfo;
}.

Record ProbeObservationPayload := {
  pop_TargetID : string;
  pop_ProbeItemID : string;
  pop_ProbeKind : string;
  pop_ObservedAt : Z;
  pop_AgentVersion : string;
  pop_Fingerprint : string;
  pop_SyncBatchID : string;
  pop_ResultKind : string;
  pop_LatencyMS : option Z;
  pop_HTTPStatus : option Z;
  pop_TLSExpiryDays : option Z;
  pop_ErrorCode : string;
  pop_ErrorSummary : string;
  pop_MaintenanceContext : bool;
  pop_IsBackfilled : bool;
}.

Record IPQualityScore := {
  sc_ID : string;
  sc_Label : string;
  sc_RawValue : string;
  sc_Unit : string;
  sc_Scope : string;
  sc_Direction : string;
  sc_SourceLabel : string;
  sc_Value : option float64;
  sc_Min : option float64;
  sc_Max : option float64;
}.

Record IPQualityProviderDetails := {
  pd_QueriedIP : string;
  pd_ObservedAt : Z;
  pd_Method : string;
  pd_APITier : string;
  pd_CountryCode : string;
  pd_Region : string;
  pd_City : string;
  pd_PostalCode : string;
  pd_Timezone : string;
  pd_Latitude : option float64;
  pd_Longitude : option float64;
  pd_RegisteredCountryCode : string;
  pd_ASN : string;
  pd_ASName : string;
  pd_ASDomain : string;
  pd_ASCountryCode : string;
  pd_Route : string;
  pd_CompanyName : string;
  pd_CompanyDomain : string;
  pd_IsMobile : option bool;
  pd_IsAnycast : option bool;
  pd_IsBogon : option bool;
  pd_Scores : list IPQualityScore;
  pd_FieldStates : gmap string string;
}.

Record IPQualityMailResult := {
  mr_Provider : string;
  mr_Domain : string;
  mr_Status : string;
  mr_MXHost : string;
  mr_TargetIP : string;
  mr_ErrorCode : string;
  mr_MXPreference : option Z;
  mr_GreetingCode : option Z;
  mr_LatencyMS : option Z;
  mr_ObservedAt : Z;
}.

Record IPQualityAgentProduct := {
  ap_Revision : Z;
  ap_PTRNames : list string;
  ap_Mail : list IPQualityMailResult;
}.

Record IPQualityServiceCheck := {
  ck_ID : string;
  ck_Label : string;
  ck_Status : string;
  ck_Region : string;
  ck_ErrorCode : string;
  ck_Rule : string;
  ck_HTTPStatus : option Z;
}.

Record IPQualityProviderResultPayload := {
  pr_Provider : string;
  pr_Status : string;
  pr_SourceType : string;
  pr_LatencyMS : option Z;
  pr_UsageType : string;
  pr_CompanyType : string;
  pr_RiskLevel : string;
  pr_RiskScore : string;
  pr_RegionCode : string;
  pr_RegionName : string;
  pr_IsProxy : option bool;
  pr_IsTor : option bool;
  pr_IsVPN : option bool;
  pr_IsServer : option bool;
  pr_IsAbuser : option bool;
  pr_IsRobot : option bool;
  pr_ErrorCode : string;
  pr_ErrorSummary : string;
  pr_ExtraJSON : option json;
  pr_Details : option IPQualityProviderDetails;
}.

Record IPQualityServiceUnlockPayload := {
  su_Service : string;
  su_Source : string;
  su_Status : string;
  su_ProbeStatus : string;
  su_LatencyMS : option Z;
  su_Region : string;
  su_UnlockType : string;
  su_ErrorCode : string;
  su_ErrorSummary : string;
  su_ExtraJSON : option json;
  su_Checks : list IPQualityServiceCheck;
}.

Record IPQualityCoveragePayload := {
  cv_ExpectedProviderCount : Z;
  cv_SuccessfulProviderCount : Z;
  cv_FailedProviderCount : Z;
  cv_SkippedProviderCount : Z;
  cv_NotConfiguredProviderCount : Z;
  cv_ExpectedServiceCount : Z;
  cv_SuccessfulServiceCount : Z;
  cv_FailedServiceCount : Z;
  cv_SkippedServiceCount : Z;
  cv_NotConfiguredServiceCount : Z;
}.

Record IPQualityReportPayload := {
  iq_ObservedAt : Z;
  iq_AgentVersion : string;
  iq_Fingerprint : string;
  iq_SyncBatchID : string;
  iq_IPAddress : string;
  iq_IPVersion : Z;
  iq_Status : string;
  iq_ASN : string;
  iq_Organization : string;
  iq_Latitude : option float64;
  iq_Longitude : option float64;
  iq_UseRegionCode : string;
  iq_UseRegionName : string;
  iq_RegisteredRegionCode : string;
  iq_RegisteredRegionName : string;
  iq_RiskLevel : string;
  iq_ErrorCode : string;
  iq_ErrorSummary : string;
  iq_IsBackfilled : bool;
  iq_RawJSON : option json;
  iq_Coverage : option IPQualityCoveragePayload;
  iq_DiagnosticsJSON : option json;
  iq_ProviderResults : list IPQualityProviderResultPayload;
  iq_ServiceUnlocks : list IPQualityServiceUnlockPayload;
  iq_Product : option IPQualityAgentProduct;
}.

Record CommandResult := {
  cr_ActionID : string;
  cr_CommandID : string;
  cr_Stdout : string;
  cr_Stderr : string;
  cr_ExitCode : Z;
}.

Record LiveSignal := {
  ls_Sequence : Z;
  ls_Fingerprint : string;
}.

Record SyncRequest := {
  sr_ProtocolRevision : Z;
  sr_ProducerID : string;
  sr_BatchSequence : Z;
  sr_AllocatedThrough : Z;
  sr_RetiredThrough : Z;
  sr_SessionID : string;
  sr_LiveSignal : option LiveSignal;
  sr_MonitoringInstanceID : string;
  sr_SyncToken : string;
  sr_Heartbeats : list MonitoringInstanceHeartbeat;
  sr_HostSamples : list HostSamplePayload;
  sr_ProbeObservations : list ProbeObservationPayload;
  sr_IPQualityReports : list IPQualityReportPayload;
  sr_CommandResults : list CommandResult;
}.

(** * Field updates *)

Definition heartbeat_with_batch (id : string) (f : MonitoringInstanceHeartbeat) : MonitoringInstanceHeartbeat := {|
  hbp_ObservedAt := hbp_ObservedAt f; hbp_AgentVersion := hbp_AgentVersion f;
  hbp_Fingerprint := hbp_Fingerprint f; hbp_SyncBatchID := id; hbp_IsBackfilled := hbp_IsBackfilled f |}.

Definition heartbeat_with_backfilled (backfilled : bool) (f : MonitoringInstanceHeartbeat) : MonitoringInstanceHeartbeat := {|
  hbp_ObservedAt := hbp_ObservedAt f; hbp_AgentVersion := hbp_AgentVersion f;
  hbp_Fingerprint := hbp_Fingerprint f; hbp_SyncBatchID := hbp_SyncBatchID f;
  hbp_IsBackfilled := backfilled |}.

Definition host_sample_with_batch (id : string) (f : HostSamplePayload) : HostSamplePayload := {|
  hsp_ObservedAt := hsp_ObservedAt f; hsp_AgentVersion := hsp_AgentVersion f;
  hsp_Fingerprint := hsp_Fingerprint f; hsp_SyncBatchID := id; hsp_CPUUsagePct := hsp_CPUUsagePct f;
  hsp_CPURatesValid := hsp_CPURatesValid f; hsp_Load1 := hsp_Load1 f; hsp_Load5 := hsp_Load5 f;
  hsp_Load15 := hsp_Load15 f; hsp_MemUsedPct := hsp_MemUsedPct f;
  hsp_MemAvailableBytes := hsp_MemAvailableBytes f; hsp_MemTotalBytes := hsp_MemTotalBytes f;
  hsp_SwapUsedPct := hsp_SwapUsedPct f; hsp_DiskUsedPct := hsp_DiskUsedPct f;
  hsp_DiskTotalBytes := hsp_DiskTotalBytes f; hsp_InodeUsedPct := hsp_InodeUsedPct f;
  hsp_NetInBytesPerSec := hsp_NetInBytesPerSec f; hsp_NetOutBytesPerSec := hsp_NetOutBytesPerSec f;
  hsp_NetworkRatesValid := hsp_NetworkRatesValid f; hsp_CPUIOWaitPct := hsp_CPUIOWaitPct f;
  hsp_CPUStealPct := hsp_CPUStealPct f; hsp_DiskReadBytesPerSec := hsp_DiskReadBytesPerSec f;
  hsp_DiskWriteBytesPerSec := hsp_DiskWriteBytesPerSec f; hsp_DiskBusyPct := hsp_DiskBusyPct f;
  hsp_UptimeSeconds := hsp_UptimeSeconds f; hsp_MaintenanceContext := hsp_MaintenanceContext f;
  hsp_IsBackfilled := hsp_IsBackfilled f; hsp_Containers := hsp_Containers f |}.

Definition host_sample_with_backfilled (backfilled : bool) (f : HostSamplePayload) : HostSamplePayload := {|
  hsp_ObservedAt := hsp_ObservedAt f; hsp_AgentVersion := hsp_AgentVersion f;
  hsp_Fingerprint := hsp_Fingerprint f; hsp_SyncBatchID := hsp_SyncBatchID f;
  hsp_CPUUsagePct := hsp_CPUUsagePct f; hsp_CPURatesValid := hsp_CPURatesValid f; hsp_Load1 := hsp_Load1 f;
  hsp_Load5 := hsp_Load5 f; hsp_Load15 := hsp_Load15 f; hsp_MemUsedPct := hsp_MemUsedPct f;
  hsp_MemAvailableBytes := hsp_MemAvailableBytes f; hsp_MemTotalBytes := hsp_MemTotalBytes f;
  hsp_SwapUsedPct := hsp_SwapUsedPct f; hsp_DiskUsedPct := hsp_DiskUsedPct f;
  hsp_DiskTotalBytes := hsp_DiskTotalBytes f; hsp_InodeUsedPct := hsp_InodeUsedPct f;
  hsp_NetInBytesPerSec := hsp_NetInBytesPerSec f; hsp_NetOutBytesPerSec := hsp_NetOutBytesPerSec f;
  hsp_NetworkRatesValid := hsp_NetworkRatesValid f; hsp_CPUIOWaitPct := hsp_CPUIOWaitPct f;
  hsp_CPUStealPct := hsp_CPUStealPct f; hsp_DiskReadBytesPerSec := hsp_DiskReadBytesPerSec f;
  hsp_DiskWriteBytesPerSec := hsp_DiskWriteBytesPerSec f; hsp_DiskBusyPct := hsp_DiskBusyPct f;
  hsp_UptimeSeconds := hsp_UptimeSeconds f; hsp_MaintenanceContext := hsp_MaintenanceContext f;
  hsp_IsBackfilled := backfilled; hsp_Containers := hsp_Containers f |}.

Definition probe_observation_with_batch (id : string) (f : ProbeObservationPayload) : ProbeObservationPayload := {|
  pop_TargetID := pop_TargetID f; pop_ProbeItemID := pop_ProbeItemID f; pop_ProbeKind := pop_ProbeKind f;
  pop_ObservedAt := pop_ObservedAt f; pop_AgentVersion := pop_AgentVersion f;
  pop_Fingerprint := pop_Fingerprint f; pop_SyncBatchID := id; pop_ResultKind := pop_ResultKind f;
  pop_LatencyMS := pop_LatencyMS f; pop_HTTPStatus := pop_HTTPStatus f;
  pop_TLSExpiryDays := pop_TLSExpiryDays f; pop_ErrorCode := pop_ErrorCode f;
  pop_ErrorSummary := pop_ErrorSummary f; pop_MaintenanceContext := pop_MaintenanceContext f;
  pop_IsBackfilled := pop_IsBackfilled f |}.

Definition probe_observation_with_backfilled (backfilled : bool) (f : ProbeObservationPayload) : ProbeObservationPayload := {|
  pop_TargetID := pop_TargetID f; pop_ProbeItemID := pop_ProbeItemID f; pop_ProbeKind := pop_ProbeKind f;
  pop_ObservedAt := pop_ObservedAt f; pop_AgentVersion := pop_AgentVersion f;
  pop_Fingerprint := pop_Fingerprint f; pop_SyncBatchID := pop_SyncBatchID f;
  pop_ResultKind := pop_ResultKind f; pop_LatencyMS := pop_LatencyMS f; pop_HTTPStatus := pop_HTTPStatus f;
  pop_TLSExpiryDays := pop_TLSExpiryDays f; pop_ErrorCode := pop_ErrorCode f;
  pop_ErrorSummary := pop_ErrorSummary f; pop_MaintenanceContext := pop_MaintenanceContext f;
  pop_IsBackfilled := backfilled |}.

Definition ip_quality_report_with_batch (id : string) (f : IPQualityReportPayload) : IPQualityReportPayload := {|
  iq_ObservedAt := iq_ObservedAt f; iq_AgentVersion := iq_AgentVersion f;
  iq_Fingerprint := iq_Fingerprint f; iq_SyncBatchID := id; iq_IPAddress := iq_IPAddress f;
  iq_IPVersion := iq_IPVersion f; iq_Status := iq_Status f; iq_ASN := iq_ASN f;
  iq_Organization := iq_Organization f; iq_Latitude := iq_Latitude f; iq_Longitude := iq_Longitude f;
  iq_UseRegionCode := iq_UseRegionCode f; iq_UseRegionName := iq_UseRegionName f;
  iq_RegisteredRegionCode := iq_RegisteredRegionCode f;
  iq_RegisteredRegionName := iq_RegisteredRegionName f; iq_RiskLevel := iq_RiskLevel f;
  iq_ErrorCode := iq_ErrorCode f; iq_ErrorSummary := iq_ErrorSummary f;
  iq_IsBackfilled := iq_IsBackfilled f; iq_RawJSON := iq_RawJSON f; iq_Coverage := iq_Coverage f;
  iq_DiagnosticsJSON := iq_DiagnosticsJSON f; iq_ProviderResults := iq_ProviderResults f;
  iq_ServiceUnlocks := iq_ServiceUnlocks f; iq_Product := iq_Product f |}.

Definition ip_quality_report_with_backfilled (backfilled : bool) (f : IPQualityReportPayload) : IPQualityReportPayload := {|
  iq_ObservedAt := iq_ObservedAt f; iq_AgentVersion := iq_AgentVersion f;
  iq_Fingerprint := iq_Fingerprint f; iq_SyncBatchID := iq_SyncBatchID f; iq_IPAddress := iq_IPAddress f;
  iq_IPVersion := iq_IPVersion f; iq_Status := iq_Status f; iq_ASN := iq_ASN f;
  iq_Organization := iq_Organization f; iq_Latitude := iq_Latitude f; iq_Longitude := iq_Longitude f;
  iq_UseRegionCode := iq_UseRegionCode f; iq_UseRegionName := iq_UseRegionName f;
  iq_RegisteredRegionCode := iq_RegisteredRegionCode f;
  iq_RegisteredRegionName := iq_RegisteredRegionName f; iq_RiskLevel := iq_RiskLevel f;
  iq_ErrorCode := iq_ErrorCode f; iq_ErrorSummary := iq_ErrorSummary f; iq_IsBackfilled := backfilled;
  iq_RawJSON := iq_RawJSON f; iq_Coverage := iq_Coverage f; iq_DiagnosticsJSON := iq_DiagnosticsJSON f;
  iq_ProviderResults := iq_ProviderResults f; iq_ServiceUnlocks := iq_ServiceUnlocks f;
  iq_Product := iq_Product f |}.
