(* ===== verification/SyncQueue.v ===== *)
(** The durable queue of the agent (src/agent/syncqueue/store.go): a JSON file that
    holds the replay authority and a bounded FIFO of sync batches, replaced
    atomically under an exclusive lock. *)
From stdpp Require Import base list strings gmap pretty.
From Stdlib Require Import ZArith Lia.
From S2P Require Import Prelude GoRuntime Json AgentApi Wire.

Local Open Scope Z_scope.
#[local] Set Warnings "-clear-no-such-hyp".

(** * Data *)

Definition defaultMaxEntries : Z := 65536.
Definition defaultMaxAge : Z := 72 * Hour.
Definition defaultMaxBytes : Z := 64 * 1024 * 1024.

Definition errEntryExceedsCapacity : error := ErrSentinel "sync queue entry exceeds configured capacity".
Definition ErrLegacyQueueNotDrained : error :=
  ErrSentinel "nonempty legacy sync queue: restore the previous agent and drain it before upgrading".
Definition AmbiguousDurabilityName : string := "sync queue durability is ambiguous; reopen with a fresh store".
Definition ErrAmbiguousDurability : error := ErrSentinel AmbiguousDurabilityName.

Record Options := {
  op_MaxEntries : Z;
  op_MaxAge : Z;
  op_MaxBytes : Z;
  op_SkipFsync : bool;
}.

Record Entry := {
  qe_ID : string;
  qe_CreatedAt : Z;
  qe_Attempts : Z;
  qe_Request : SyncRequest;
}.

Record ReplayState := {
  rep_SessionID : string;
  rep_ProducerID : string;
  rep_AllocatedThrough : Z;
  rep_RetiredThrough : Z;
}.

Record envelope := {
  en_Version : Z;
  en_SessionID : string;
  en_ProducerID : string;
  en_LastAllocatedBatchSeq : Z;
  en_RetiredBatchFloor : Z;
  en_LiveReservedThrough : Z;
  en_Entries : list Entry;
}.

(** What [os.ReadFile] finds at the path: nothing, an error, bytes that are no JSON
    document ([legacy] when their first byte is an opening bracket), or a document. *)
Inductive queue_file :=
| FileMissing
| FileUnreadable (err : error)
| FileNotJson (legacy : bool) (err : error)
| FileJson (document : json).

(** The open store and the file it guards.  The mutex makes each operation atomic;
    the lock inode keeps other processes out. *)
Record FileStore := {
  fs_opts : Options;
  fs_lock : bool;
  fs_session : string;
  fs_poison : option error;
  fs_file : queue_file;
}.

Definition NewFileStore (file : queue_file) (opts : Options) : FileStore := {|
  fs_opts := {|
    op_MaxEntries := if op_MaxEntries opts <=? 0 then defaultMaxEntries else op_MaxEntries opts;
    op_MaxAge := if op_MaxAge opts <=? 0 then defaultMaxAge else op_MaxAge opts;
    op_MaxBytes := if op_MaxBytes opts <=? 0 then defaultMaxBytes else op_MaxBytes opts;
    op_SkipFsync := op_SkipFsync opts |};
  fs_lock := false; fs_session := ""; fs_poison := None; fs_file := file |}.

(** ** Updates *)

Definition en_with_entries (entries : list Entry) (e : envelope) : envelope := {|
  en_Version := en_Version e; en_SessionID := en_SessionID e; en_ProducerID := en_ProducerID e;
  en_LastAllocatedBatchSeq := en_LastAllocatedBatchSeq e; en_RetiredBatchFloor := en_RetiredBatchFloor e;
  en_LiveReservedThrough := en_LiveReservedThrough e; en_Entries := entries |}.

Definition en_with_floor (floor : Z) (e : envelope) : envelope := {|
  en_Version := en_Version e; en_SessionID := en_SessionID e; en_ProducerID := en_ProducerID e;
  en_LastAllocatedBatchSeq := en_LastAllocatedBatchSeq e; en_RetiredBatchFloor := floor;
  en_LiveReservedThrough := en_LiveReservedThrough e; en_Entries := en_Entries e |}.

Definition en_with_allocated (allocated : Z) (e : envelope) : envelope := {|
  en_Version := en_Version e; en_SessionID := en_SessionID e; en_ProducerID := en_ProducerID e;
  en_LastAllocatedBatchSeq := allocated; en_RetiredBatchFloor := en_RetiredBatchFloor e;
  en_LiveReservedThrough := en_LiveReservedThrough e; en_Entries := en_Entries e |}.

Definition en_with_live (live : Z) (e : envelope) : envelope := {|
  en_Version := en_Version e; en_SessionID := en_SessionID e; en_ProducerID := en_ProducerID e;
  en_LastAllocatedBatchSeq := en_LastAllocatedBatchSeq e; en_RetiredBatchFloor := en_RetiredBatchFloor e;
  en_LiveReservedThrough := live; en_Entries := en_Entries e |}.

Definition fs_with_file (file : queue_file) (s : FileStore) : FileStore := {|
  fs_opts := fs_opts s; fs_lock := fs_lock s; fs_session := fs_session s; fs_poison := fs_poison s;
  fs_file := file |}.

Definition fs_with_poison (err : error) (s : FileStore) : FileStore := {|
  fs_opts := fs_opts s; fs_lock := fs_lock s; fs_session := fs_session s; fs_poison := Some err;
  fs_file := fs_file s |}.

Definition fs_with_lock (lock : bool) (session : string) (s : FileStore) : FileStore := {|
  fs_opts := fs_opts s; fs_lock := lock; fs_session := session; fs_poison := fs_poison s;
  fs_file := fs_file s |}.

(** * Requests *)

(** The identity of a batch: producer and sequence number. *)
Definition batch_identity (producer : string) (sequence : Z) : string := producer +:+ ":" +:+ fmt_d sequence.

Definition with_facts (r : SyncRequest) (hb : list MonitoringInstanceHeartbeat) (hs : list HostSamplePayload)
    (po : list ProbeObservationPayload) (iq : list IPQualityReportPayload) : SyncRequest := {|
  sr_ProtocolRevision := sr_ProtocolRevision r; sr_ProducerID := sr_ProducerID r;
  sr_BatchSequence := sr_BatchSequence r; sr_AllocatedThrough := sr_AllocatedThrough r;
  sr_RetiredThrough := sr_RetiredThrough r; sr_SessionID := sr_SessionID r; sr_LiveSignal := sr_LiveSignal r;
  sr_MonitoringInstanceID := sr_MonitoringInstanceID r; sr_SyncToken := sr_SyncToken r;
  sr_Heartbeats := hb; sr_HostSamples := hs; sr_ProbeObservations := po; sr_IPQualityReports := iq;
  sr_CommandResults := sr_CommandResults r |}.

Definition setBatchIdentity (id : string) (r : SyncRequest) : SyncRequest :=
  with_facts r (heartbeat_with_batch id <$> sr_Heartbeats r) (host_sample_with_batch id <$> sr_HostSamples r)
    (probe_observation_with_batch id <$> sr_ProbeObservations r)
    (ip_quality_report_with_batch id <$> sr_IPQualityReports r).

Definition batchIdentityMatches (r : SyncRequest) (id : string) : bool :=
  forallb (fun fact => hbp_SyncBatchID fact =s id) (sr_Heartbeats r) &&
  forallb (fun fact => hsp_SyncBatchID fact =s id) (sr_HostSamples r) &&
  forallb (fun fact => pop_SyncBatchID fact =s id) (sr_ProbeObservations r) &&
  forallb (fun fact => iq_SyncBatchID fact =s id) (sr_IPQualityReports r).

(** The control fields [Enqueue] stamps on a request; a live signal is never queued. *)
Definition with_control (producer : string) (sequence allocated retired : Z) (r : SyncRequest) : SyncRequest := {|
  sr_ProtocolRevision := SyncProtocolRevision; sr_ProducerID := producer; sr_BatchSequence := sequence;
  sr_AllocatedThrough := allocated; sr_RetiredThrough := retired; sr_SessionID := sr_SessionID r;
  sr_LiveSignal := None; sr_MonitoringInstanceID := sr_MonitoringInstanceID r;
  sr_SyncToken := sr_SyncToken r; sr_Heartbeats := sr_Heartbeats r; sr_HostSamples := sr_HostSamples r;
  sr_ProbeObservations := sr_ProbeObservations r; sr_IPQualityReports := sr_IPQualityReports r;
  sr_CommandResults := sr_CommandResults r |}.

(** [WithBackfilledFacts]: the copy of a queued request that is sent late. *)
Definition WithBackfilledFacts (r : SyncRequest) (backfilled : bool) : SyncRequest := {|
  sr_ProtocolRevision := sr_ProtocolRevision r; sr_ProducerID := sr_ProducerID r;
  sr_BatchSequence := sr_BatchSequence r; sr_AllocatedThrough := sr_AllocatedThrough r;
  sr_RetiredThrough := sr_RetiredThrough r; sr_SessionID := sr_SessionID r; sr_LiveSignal := None;
  sr_MonitoringInstanceID := sr_MonitoringInstanceID r; sr_SyncToken := sr_SyncToken r;
  sr_Heartbeats := heartbeat_with_backfilled backfilled <$> sr_Heartbeats r;
  sr_HostSamples := host_sample_with_backfilled backfilled <$> sr_HostSamples r;
  sr_ProbeObservations := probe_observation_with_backfilled backfilled <$> sr_ProbeObservations r;
  sr_IPQualityReports := ip_quality_report_with_backfilled backfilled <$> sr_IPQualityReports r;
  sr_CommandResults := sr_CommandResults r |}.

(** * The outside world *)

(** What the queue takes from its libraries: the UUID parser, and how encoding/json
    writes and reads a time and a [SyncRequest] ([None] is a marshalling or type
    error). *)
Class QueueCodec := {
  uuid_Parse : string -> option string;
  time_json : Z -> option json;
  json_time : json -> option Z;
  request_json : SyncRequest -> option json;
  (** Decoding merges into the request the pointer already holds, if any. *)
  json_request : option SyncRequest -> json -> option SyncRequest;
}.

(** What the file system and the context answer during one write of the file. *)
Record write_io := {
  wi_ctx_before : option error;
  wi_create : option error;
  wi_write : option error;
  wi_chmod : option error;
  wi_sync_file : option error;
  wi_close : option error;
  wi_ctx_after : option error;
  wi_rename : option error;
  wi_sync_dir : option error;
}.

(** What one operation meets, in the order the code asks. *)
Record op_io := {
  io_ctx : option error;
  io_ensure_dir : option error;
  io_open_lock : option error;
  io_chmod_lock : option error;
  io_flock : option error;
  io_unlock : option error;
  io_close_lock : option error;
  io_ctx_read : option error;
  (** [s.now()] when a batch is dated and when the age limit is computed. *)
  io_now : Z;
  io_now_prune : Z;
  io_uuid : result string;
  (** A session change writes twice. *)
  io_write_retire : write_io;
  io_write : write_io;
}.

(** * The file format *)

Section Queue.
Context `{Codec : QueueCodec}.

(** ** Writing *)

Definition entry_json (entry : Entry) : option json :=
  createdAt ← time_json (qe_CreatedAt entry);
  request ← request_json (qe_Request entry);
  Some (JObj [("id", JStr (qe_ID entry)); ("created_at", createdAt);
              ("attempts", JInt (qe_Attempts entry)); ("request", request)]).

(** The members before the entries, then the entries. *)
Definition control_members (e : envelope) : list (string * json) :=
  [("version", JInt (en_Version e)); ("session_id", JStr (en_SessionID e));
   ("producer_id", JStr (en_ProducerID e));
   ("last_allocated_batch_seq", JInt (en_LastAllocatedBatchSeq e));
   ("retired_batch_floor", JInt (en_RetiredBatchFloor e));
   ("live_reserved_through", JInt (en_LiveReservedThrough e))].

Definition envelope_document (e : envelope) (entries : list json) : json :=
  JObj (control_members e ++ [("entries", JArr entries)]).

Definition envelope_json (e : envelope) : option json :=
  envelope_document e <$> mapM entry_json (en_Entries e).

Definition marshal_failed : error := ErrNew "json: unsupported value".

(** ** Reading *)

Definition wrong_type : error := ErrNew "json: cannot unmarshal value".

Definition set_int (value : json) (old : Z) : result Z :=
  match value with
  | JInt z => if (min_int64 <=? z) && (z <=? max_int64) then Ok z else Err wrong_type
  | JNull => Ok old
  | _ => Err wrong_type
  end.

Definition set_string (value : json) (old : string) : result string :=
  match value with JStr s => Ok s | JNull => Ok old | _ => Err wrong_type end.

(** The struct of pointers of [Entry.UnmarshalJSON]: null and absent are the same. *)
Record stored_entry := {
  st_ID : option string;
  st_CreatedAt : option Z;
  st_Attempts : option Z;
  st_Request : option SyncRequest;
}.

Definition entry_names : list string := ["id"; "created_at"; "attempts"; "request"].

Definition ptr {A} (value : json) (decode : json -> option A) : result (option A) :=
  match value with
  | JNull => Ok None
  | _ => match decode value with Some a => Ok (Some a) | None => Err wrong_type end
  end.

Definition json_string (value : json) : option string := match value with JStr s => Some s | _ => None end.

Definition json_int (value : json) : option Z :=
  match set_int value 0 with Ok z => Some z | Err _ => None end.

Definition set_entry_field (name : string) (value : json) (st : stored_entry) : result stored_entry :=
  if name =s "id" then
    id ← ptr value json_string;
    Ok {| st_ID := id; st_CreatedAt := st_CreatedAt st; st_Attempts := st_Attempts st;
          st_Request := st_Request st |}
  else if name =s "created_at" then
    createdAt ← ptr value json_time;
    Ok {| st_ID := st_ID st; st_CreatedAt := createdAt; st_Attempts := st_Attempts st;
          st_Request := st_Request st |}
  else if name =s "attempts" then
    attempts ← ptr value json_int;
    Ok {| st_ID := st_ID st; st_CreatedAt := st_CreatedAt st; st_Attempts := attempts;
          st_Request := st_Request st |}
  else
    request ← ptr value (json_request (st_Request st));
    Ok {| st_ID := st_ID st; st_CreatedAt := st_CreatedAt st; st_Attempts := st_Attempts st;
          st_Request := request |}.

Definition incomplete_entry : error := ErrNew "incomplete sync queue entry".

Definition decode_entry (value : json) : result Entry :=
  match value with
  | JNull => Err incomplete_entry
  | JObj members =>
      st ← decode_members entry_names set_entry_field members
             {| st_ID := None; st_CreatedAt := None; st_Attempts := None; st_Request := None |};
      match st_ID st, st_CreatedAt st, st_Attempts st, st_Request st with
      | Some id, Some createdAt, Some attempts, Some request =>
          Ok {| qe_ID := id; qe_CreatedAt := createdAt; qe_Attempts := attempts; qe_Request := request |}
      | _, _, _, _ => Err incomplete_entry
      end
  | _ => Err wrong_type
  end.

Definition envelope_names : list string :=
  ["version"; "session_id"; "producer_id"; "last_allocated_batch_seq"; "retired_batch_floor";
   "live_reserved_through"; "entries"].

(** The envelope under construction, with whether its entries are a nil slice. *)
Definition set_envelope_field (name : string) (value : json) (acc : envelope * bool) : result (envelope * bool) :=
  let '(e, nil_entries) := acc in
  let with_control v s p a f l :=
    ({| en_Version := v; en_SessionID := s; en_ProducerID := p; en_LastAllocatedBatchSeq := a;
        en_RetiredBatchFloor := f; en_LiveReservedThrough := l; en_Entries := en_Entries e |}, nil_entries) in
  let v := en_Version e in let s := en_SessionID e in let p := en_ProducerID e in
  let a := en_LastAllocatedBatchSeq e in let f := en_RetiredBatchFloor e in
  let l := en_LiveReservedThrough e in
  if name =s "version" then v ← set_int value v; Ok (with_control v s p a f l)
  else if name =s "session_id" then s ← set_string value s; Ok (with_control v s p a f l)
  else if name =s "producer_id" then p ← set_string value p; Ok (with_control v s p a f l)
  else if name =s "last_allocated_batch_seq" then a ← set_int value a; Ok (with_control v s p a f l)
  else if name =s "retired_batch_floor" then f ← set_int value f; Ok (with_control v s p a f l)
  else if name =s "live_reserved_through" then l ← set_int value l; Ok (with_control v s p a f l)
  else match value with
       | JNull => Ok (en_with_entries [] e, true)
       | JArr items => entries ← mapM decode_entry items; Ok (en_with_entries entries e, false)
       | _ => Err wrong_type
       end.

Definition zero_envelope : envelope := {|
  en_Version := 0; en_SessionID := ""; en_ProducerID := ""; en_LastAllocatedBatchSeq := 0;
  en_RetiredBatchFloor := 0; en_LiveReservedThrough := 0; en_Entries := [] |}.

(** ** Validation *)

Definition invalid_bounds : error := ErrNew "invalid sync queue replay bounds".
Definition invalid_entry : error := ErrNew "invalid sync queue entry identity or bounds".
Definition invalid_fact : error := ErrNew "invalid sync queue fact identity".
Definition invalid_floor : error := ErrNew "invalid sync queue retired floor".

Definition envelope_bounds_bad (e : envelope) : bool :=
  negb (en_Version e =? 2) || (en_SessionID e =s "") ||
  negb (ValidSyncProducerID uuid_Parse (en_ProducerID e)) ||
  (en_LastAllocatedBatchSeq e <? 0) || (en_RetiredBatchFloor e <? 0) ||
  (en_LastAllocatedBatchSeq e <? en_RetiredBatchFloor e) || (en_LiveReservedThrough e <? 0).

Definition entry_bad (e : envelope) (previous previousTime : Z) (entry : Entry) : bool :=
  let r := qe_Request entry in
  let identity := batch_identity (en_ProducerID e) (sr_BatchSequence r) in
  negb (sr_ProtocolRevision r =? SyncProtocolRevision) || (sr_SessionID r <>s en_SessionID e) ||
  (sr_ProducerID r <>s en_ProducerID e) ||
  (sr_BatchSequence r <=? previous) || (en_LastAllocatedBatchSeq e <? sr_BatchSequence r) ||
  (sr_AllocatedThrough r <? sr_BatchSequence r) || (en_LastAllocatedBatchSeq e <? sr_AllocatedThrough r) ||
  (sr_RetiredThrough r <? 0) || (sr_BatchSequence r <=? sr_RetiredThrough r) ||
  (en_RetiredBatchFloor e <? sr_RetiredThrough r) ||
  match sr_LiveSignal r with Some _ => true | None => false end ||
  (qe_ID entry <>s identity) || Time_IsZero (qe_CreatedAt entry) ||
  (negb (Time_IsZero previousTime) && negb (Time_After (qe_CreatedAt entry) previousTime)) ||
  (qe_Attempts entry <? 0).

Fixpoint check_entries (e : envelope) (previous previousTime : Z) (entries : list Entry) : result unit :=
  match entries with
  | [] => Ok tt
  | entry :: rest =>
      if entry_bad e previous previousTime entry then Err invalid_entry
      else if negb (batchIdentityMatches (qe_Request entry)
                      (batch_identity (en_ProducerID e) (sr_BatchSequence (qe_Request entry))))
      then Err invalid_fact
      else check_entries e (sr_BatchSequence (qe_Request entry)) (qe_CreatedAt entry) rest
  end.

(** The number below which every sequence is retired. *)
Definition expected_floor (e : envelope) : Z :=
  match en_Entries e with
  | [] => en_LastAllocatedBatchSeq e
  | entry :: _ => sr_BatchSequence (qe_Request entry) - 1
  end.

Definition check_envelope (e : envelope) (nil_entries : bool) : result envelope :=
  _ ← reject (envelope_bounds_bad e || nil_entries) invalid_bounds;
  _ ← check_entries e (en_RetiredBatchFloor e) 0 (en_Entries e);
  _ ← reject (negb (en_RetiredBatchFloor e =? expected_floor e)) invalid_floor;
  Ok e.

Definition missing_field (members : list (string * json)) : option string :=
  List.find (fun name => match member_value name members with
                         | None | Some JNull => true
                         | Some _ => false
                         end) envelope_names.

Definition decodeEnvelope (document : json) : result envelope :=
  if negb (no_duplicate_keys document)
  then Err (ErrWrap "invalid sync queue JSON: %w" [] [ErrNew "duplicate JSON key"])
  else match document with
       | JObj members =>
           match missing_field members with
           | Some name => Err (ErrWrap "sync queue envelope requires %s" [name] [])
           | None =>
               match decode_members envelope_names set_envelope_field members (zero_envelope, true) with
               | Err err => Err (ErrWrap "invalid sync queue envelope: %w" [] [err])
               | Ok (state, nil_entries) => check_envelope state nil_entries
               end
           end
       | JNull => Err (ErrWrap "sync queue envelope requires %s" ["version"] [])
       | _ => Err (ErrWrap "invalid sync queue envelope: %w" [] [wrong_type])
       end.

Definition read_file (file : queue_file) : result json :=
  match file with
  | FileMissing => Err (ErrSentinel "file does not exist")
  | FileUnreadable err => Err err
  | FileNotJson _ err => Err (ErrWrap "invalid sync queue JSON: %w" [] [err])
  | FileJson document => Ok document
  end.

Definition readEnvelope (s : FileStore) : result envelope :=
  document ← read_file (fs_file s);
  state ← decodeEnvelope document;
  if (fs_session s <>s "") && (en_SessionID state <>s fs_session s)
  then Err (ErrNew "sync queue session changed while open") else Ok state.

(** * Operations *)

(** [if err := ...; err != nil { return err }], one after the other. *)
Definition first_failure (failures : list (option error)) : option error := head (omap id failures).

Definition writeEnvelope (io : write_io) (state : envelope) (s : FileStore) : result unit * FileStore :=
  match envelope_json state with
  | None => (Err marshal_failed, s)
  | Some payload =>
      if op_MaxBytes (fs_opts s) <? json_len payload then (Err errEntryExceedsCapacity, s)
      else
        let fsync := negb (op_SkipFsync (fs_opts s)) in
        match first_failure [wi_ctx_before io; wi_create io; wi_write io; wi_chmod io;
                             if fsync then wi_sync_file io else None; wi_close io; wi_ctx_after io;
                             wi_rename io] with
        | Some err => (Err err, s)
        | None =>
            let s := fs_with_file (FileJson payload) s in
            match (if fsync then wi_sync_dir io else None) with
            | Some _ =>
                let poison := ErrWrap "%w: %v" [] [ErrAmbiguousDurability] in
                (Err poison, fs_with_poison poison s)
            | None => (Ok tt, s)
            end
        end
  end.

Definition advanceFloor (state : envelope) : envelope :=
  let floor := expected_floor state in
  if en_RetiredBatchFloor state <? floor then en_with_floor floor state else state.

Fixpoint drop_expired (cutoff : Z) (entries : list Entry) : list Entry :=
  match entries with
  | [] => []
  | entry :: rest => if Time_Before (qe_CreatedAt entry) cutoff then drop_expired cutoff rest else entries
  end.

(** The loop that drops the oldest entry until the file fits; [sizes] are the
    lengths of the entries that are left, [total] their sum. *)
Fixpoint prune_loop (maxBytes : Z) (state : envelope) (entries : list Entry) (sizes : list Z) (total : Z)
    : result envelope :=
  let state := advanceFloor (en_with_entries entries state) in
  let metadata := json_len (envelope_document state []) in
  let commas := Z.max 0 (Z.of_nat (length entries) - 1) in
  if metadata + total + commas <=? maxBytes then Ok state
  else match entries, sizes with
       | _ :: entries, size :: sizes => prune_loop maxBytes state entries sizes (total - size)
       | _, _ => Err errEntryExceedsCapacity
       end.

Definition pruneEnvelope (opts : Options) (now : Z) (state : envelope) : result envelope :=
  let kept := drop_expired (Time_Add now (- op_MaxAge opts)) (en_Entries state) in
  let kept := if op_MaxEntries opts <? Z.of_nat (length kept)
              then drop (length kept - Z.to_nat (op_MaxEntries opts)) kept else kept in
  match mapM entry_json kept with
  | None => Err marshal_failed
  | Some payloads =>
      let sizes := json_len <$> payloads in
      prune_loop (op_MaxBytes opts) state kept sizes (sumZ sizes)
  end.

Definition ready (io : op_io) (s : FileStore) : option error :=
  match fs_poison s with
  | Some err => Some err
  | None =>
      match io_ctx io with
      | Some err => Some err
      | None => if fs_lock s then None else Some (ErrNew "sync queue requires OpenSession")
      end
  end.

(** [s.ready], then [s.readEnvelope]. *)
Definition load (io : op_io) (s : FileStore) : result envelope :=
  match ready io s with Some err => Err err | None => readEnvelope s end.

Definition queue_ReplayState (io : op_io) (s : FileStore) : result ReplayState :=
  state ← load io s;
  match io_ctx_read io with
  | Some err => Err err
  | None => Ok {| rep_SessionID := en_SessionID state; rep_ProducerID := en_ProducerID state;
                  rep_AllocatedThrough := en_LastAllocatedBatchSeq state;
                  rep_RetiredThrough := en_RetiredBatchFloor state |}
  end.

Definition queue_List (io : op_io) (s : FileStore) : result (list Entry) :=
  state ← load io s;
  match io_ctx_read io with Some err => Err err | None => Ok (en_Entries state) end.

Definition ReserveLiveSequences (io : op_io) (count : Z) (s : FileStore) : result (Z * Z) * FileStore :=
  match ready io s with
  | Some err => (Err err, s)
  | None =>
      if negb (count =? LiveSequenceReservation)
      then (Err (ErrNew "live sequence reservation must contain 1024 sequences"), s)
      else match readEnvelope s with
           | Err err => (Err err, s)
           | Ok state =>
               if max_int64 - count <? en_LiveReservedThrough state
               then (Err (ErrNew "live sequence overflow"), s)
               else
                 let first := en_LiveReservedThrough state + 1 in
                 let state := en_with_live (en_LiveReservedThrough state + count) state in
                 let '(r, s) := writeEnvelope (io_write io) state s in
                 (_ ← r; Ok (first, en_LiveReservedThrough state), s)
           end
  end.

(** The request as it is queued under the next sequence number. *)
Definition queued_request (state : envelope) (request : SyncRequest) : SyncRequest :=
  let sequence := en_LastAllocatedBatchSeq state + 1 in
  setBatchIdentity (batch_identity (en_ProducerID state) sequence)
    (with_control (en_ProducerID state) sequence sequence (en_RetiredBatchFloor state) request).

(** Entries are dated by the clock, or just after the newest one if it stands still
    or went back. *)
Definition created_at (now : Z) (entries : list Entry) : Z :=
  match last entries with
  | Some newest => if negb (Time_After now (qe_CreatedAt newest))
                   then Time_Add (qe_CreatedAt newest) Nanosecond else now
  | None => now
  end.

Definition appended (now : Z) (request : SyncRequest) (state : envelope) : Entry * envelope :=
  let sequence := en_LastAllocatedBatchSeq state + 1 in
  let entry := {| qe_ID := batch_identity (en_ProducerID state) sequence;
                  qe_CreatedAt := created_at now (en_Entries state); qe_Attempts := 0;
                  qe_Request := queued_request state request |} in
  (entry, en_with_entries (en_Entries state ++ [entry]) (en_with_allocated sequence state)).

Definition Enqueue (io : op_io) (request : SyncRequest) (s : FileStore) : result string * FileStore :=
  match load io s with
  | Err err => (Err err, s)
  | Ok state =>
      if sr_SessionID request <>s en_SessionID state
      then (Err (ErrNew "sync queue request session mismatch"), s)
      else if en_LastAllocatedBatchSeq state =? max_int64 then (Err (ErrNew "batch sequence overflow"), s)
      else
        let '(entry, state) := appended (io_now io) request state in
        match pruneEnvelope (fs_opts s) (io_now_prune io) state with
        | Err err => (Err err, s)
        | Ok state =>
            if match last (en_Entries state) with
               | None => true
               | Some newest => qe_ID newest <>s qe_ID entry
               end
            then (Err errEntryExceedsCapacity, s)
            else
              let '(r, s) := writeEnvelope (io_write io) state s in
              (_ ← r; Ok (qe_ID entry), s)
        end
  end.

Definition mutate (io : op_io) (mutation : envelope -> result envelope) (s : FileStore)
    : result unit * FileStore :=
  match load io s with
  | Err err => (Err err, s)
  | Ok state =>
      match mutation state with
      | Err err => (Err err, s)
      | Ok state => writeEnvelope (io_write io) state s
      end
  end.

Definition delete_entries (ids : list string) (state : envelope) : envelope :=
  advanceFloor (en_with_entries (List.filter (fun entry => bool_decide (qe_ID entry ∉ ids)) (en_Entries state))
                  state).

Definition DeleteMany (io : op_io) (ids : list string) : FileStore -> result unit * FileStore :=
  mutate io (fun state => Ok (delete_entries ids state)).

Definition Delete (io : op_io) (id : string) : FileStore -> result unit * FileStore := DeleteMany io [id].

Definition attempted (entry : Entry) : Entry := {|
  qe_ID := qe_ID entry; qe_CreatedAt := qe_CreatedAt entry; qe_Attempts := qe_Attempts entry + 1;
  qe_Request := qe_Request entry |}.

(** The first entry with the identifier counts one more attempt. *)
Fixpoint mark_attempt (id : string) (entries : list Entry) : result (list Entry) :=
  match entries with
  | [] => Ok []
  | entry :: rest =>
      if qe_ID entry =s id then
        if qe_Attempts entry =? max_int64 then Err (ErrNew "sync queue attempt count overflow")
        else Ok (attempted entry :: rest)
      else rest ← mark_attempt id rest; Ok (entry :: rest)
  end.

Definition MarkAttempt (io : op_io) (id : string) : FileStore -> result unit * FileStore :=
  mutate io (fun state => entries ← mark_attempt id (en_Entries state); Ok (en_with_entries entries state)).

Definition Prune (io : op_io) (s : FileStore) : result unit * FileStore :=
  mutate io (pruneEnvelope (fs_opts s) (io_now_prune io)) s.

(** ** Sessions *)

Definition fresh_envelope (session producer : string) : envelope := {|
  en_Version := 2; en_SessionID := session; en_ProducerID := producer; en_LastAllocatedBatchSeq := 0;
  en_RetiredBatchFloor := 0; en_LiveReservedThrough := 0; en_Entries := [] |}.

Definition bootstrap (io : op_io) (session : string) (s : FileStore) : result unit * FileStore :=
  match io_uuid io with
  | Err err => (Err err, s)
  | Ok producer => writeEnvelope (io_write io) (fresh_envelope session producer) s
  end.

Definition retire_all (state : envelope) : envelope :=
  en_with_floor (en_LastAllocatedBatchSeq state) (en_with_entries [] state).

(** A version 2 file: it is kept for its own session; another session first retires
    everything under the old producer, then starts over. *)
Definition open_document (io : op_io) (session : string) (document : json) (s : FileStore)
    : result unit * FileStore :=
  match decodeEnvelope document with
  | Err err => (Err err, s)
  | Ok state =>
      if en_SessionID state =s session then (Ok tt, s)
      else match writeEnvelope (io_write_retire io) (retire_all state) s with
           | (Err err, s) => (Err err, s)
           | (Ok _, s) => bootstrap io session s
           end
  end.

(** What [OpenSession] does once it holds the lock. *)
Definition open_locked (io : op_io) (session : string) (s : FileStore) : result unit * FileStore :=
  match fs_file s with
  | FileMissing => bootstrap io session s
  | FileUnreadable err => (Err err, s)
  | FileNotJson true err => (Err (ErrWrap "invalid legacy sync queue: %w" [] [err]), s)
  | FileNotJson false err => (Err (ErrWrap "invalid sync queue JSON: %w" [] [err]), s)
  | FileJson (JArr []) => bootstrap io session s
  | FileJson (JArr _) => (Err ErrLegacyQueueNotDrained, s)
  | FileJson document => open_document io session document s
  end.

Definition OpenSession (io : op_io) (session : string) (s : FileStore) : result unit * FileStore :=
  match fs_poison s with
  | Some err => (Err err, s)
  | None =>
      match io_ctx io with
      | Some err => (Err err, s)
      | None =>
          if session =s "" then (Err (ErrNew "sync queue session is required"), s)
          else if fs_lock s then
            if session =s fs_session s then (_ ← readEnvelope s; Ok tt, s)
            else (Err (ErrNew "close sync queue before changing session"), s)
          else
            match first_failure [io_ensure_dir io; io_open_lock io; io_chmod_lock io;
                                 (fun err => ErrWrap "lock sync queue: %w" [] [err]) <$> io_flock io] with
            | Some err => (Err err, s)
            | None =>
                match open_locked io session (fs_with_lock true (fs_session s) s) with
                | (Ok _, s) => (Ok tt, fs_with_lock true session s)
                | (Err err, s) => (Err err, fs_with_lock false "" s)
                end
            end
      end
  end.

(** [errors.Join] of the poison and of what unlocking and closing the inode answer. *)
Definition Close (io : op_io) (s : FileStore) : option error * FileStore :=
  let release := if fs_lock s then omap id [io_unlock io; io_close_lock io] else [] in
  let joined := match fs_poison s with Some err => err :: release | None => release end in
  (match joined with [] => None | errs => Some (ErrWrap "join" [] errs) end,
   if fs_lock s then fs_with_lock false "" s else s).

End Queue.
