(* ===== verification/SyncQueueProps.v ===== *)
(** What the agent's queue guarantees: the file stays readable and its replay
    authority only moves forward, whatever the file system answers; batches are
    numbered without reuse, dropped oldest first and only to respect the limits. *)
From stdpp Require Import base list sorting strings gmap pretty.
From Stdlib Require Import ZArith Lia.
From S2P Require Import Prelude GoRuntime Json AgentApi Wire SyncQueue.

Local Open Scope Z_scope.
#[local] Set Warnings "-clear-no-such-hyp".

(** * The libraries' contract *)

(** A request whose document repeats no key; only the raw messages it carries
    could. *)
Definition request_clean `{QueueCodec} (r : SyncRequest) : Prop :=
  forall j, request_json r = Some j -> no_duplicate_keys j = true.

(** What the queue relies on: encoding/json reads back what it wrote, a time is
    written as a string, and decoding invents no repeated key. *)
Class QueueCodecLaws `{QueueCodec} := {
  time_roundtrip : forall t j, time_json t = Some j -> json_time j = Some t /\ exists s, j = JStr s;
  request_roundtrip : forall r j, request_json r = Some j -> json_request None j = Some r /\ j <> JNull;
  request_decode_clean : forall o j r, (forall r0, o = Some r0 -> request_clean r0) ->
    no_duplicate_keys j = true -> json_request o j = Some r -> request_clean r;
}.

Lemma Forall_sublist_of {A} (P : A -> Prop) l k : Forall P k -> l `sublist_of` k -> Forall P l.
Proof.
  intros Hk Hl. induction Hl as [|x l k Hl IH|x l k Hl IH]; [done|..];
    apply Forall_cons in Hk as [??]; auto.
Qed.

Section QueueProps.
Context `{Codec : QueueCodec}.

(** * Validation as a predicate *)

Definition entry_seq (entry : Entry) : Z := sr_BatchSequence (qe_Request entry).

(** What validation asks of an entry apart from its place in the list. *)
Record entry_ok (e : envelope) (entry : Entry) : Prop := {
  eo_revision : sr_ProtocolRevision (qe_Request entry) = SyncProtocolRevision;
  eo_session : sr_SessionID (qe_Request entry) = en_SessionID e;
  eo_producer : sr_ProducerID (qe_Request entry) = en_ProducerID e;
  eo_seq : entry_seq entry <= en_LastAllocatedBatchSeq e;
  eo_allocated : entry_seq entry <= sr_AllocatedThrough (qe_Request entry) <= en_LastAllocatedBatchSeq e;
  eo_retired : 0 <= sr_RetiredThrough (qe_Request entry) < entry_seq entry;
  eo_floor : sr_RetiredThrough (qe_Request entry) <= en_RetiredBatchFloor e;
  eo_live : sr_LiveSignal (qe_Request entry) = None;
  eo_id : qe_ID entry = batch_identity (en_ProducerID e) (entry_seq entry);
  eo_created : qe_CreatedAt entry <> 0;
  eo_attempts : 0 <= qe_Attempts entry;
  eo_facts : batchIdentityMatches (qe_Request entry) (batch_identity (en_ProducerID e) (entry_seq entry)) = true;
}.

(** Newer entries have higher numbers and later dates. *)
Definition entry_lt (a b : Entry) : Prop := entry_seq a < entry_seq b /\ qe_CreatedAt a < qe_CreatedAt b.

#[local] Instance entry_lt_trans : Transitive entry_lt.
Proof. intros a b c [] []. split; lia. Qed.

Record envelope_valid (e : envelope) : Prop := {
  ev_version : en_Version e = 2;
  ev_session : en_SessionID e <> "";
  ev_producer : ValidSyncProducerID uuid_Parse (en_ProducerID e) = true;
  ev_floor : 0 <= en_RetiredBatchFloor e <= en_LastAllocatedBatchSeq e;
  ev_live : 0 <= en_LiveReservedThrough e;
  ev_entries : Forall (entry_ok e) (en_Entries e);
  ev_sorted : StronglySorted entry_lt (en_Entries e);
  ev_expected : en_RetiredBatchFloor e = expected_floor e;
}.

Lemma entry_bad_spec e previous previousTime entry :
  entry_bad e previous previousTime entry = false /\
  batchIdentityMatches (qe_Request entry) (batch_identity (en_ProducerID e) (entry_seq entry)) = true <->
  entry_ok e entry /\ previous < entry_seq entry /\
  (previousTime = 0 \/ previousTime < qe_CreatedAt entry).
Proof.
  unfold entry_bad, Time_IsZero, Time_After, entry_seq. cbv zeta. split.
  - intros [H Hf]. rewrite !orb_false_iff, !andb_false_iff, !negb_false_iff in H.
    destruct H as ((((((((((((((H1&H2)&H3)&H4)&H5)&H6)&H7)&H8)&H9)&H10)&H11)&H12)&H13)&H14)&H15).
    breflect. split; [|split].
    + split; unfold entry_seq; try done; try lia. by destruct (sr_LiveSignal _).
    + lia.
    + destruct H14 as [H14|H14]; breflect; [by left|by right].
  - intros ([E1 E2 E3 E4 E5 E6 E7 E8 E9 E10 E11 E12] & Hp & Ht). unfold entry_seq in *.
    split; [|done]. rewrite !orb_false_iff, !andb_false_iff, !negb_false_iff, E8.
    repeat split; rewrite ?E1, ?E2, ?E3, ?E9, ?String.eqb_refl, ?Z.eqb_refl;
      try (apply Z.ltb_ge; lia); try (apply Z.leb_gt; lia); try done.
    + by apply Z.eqb_neq.
    + destruct Ht as [->|Ht]; [by left|right]. by apply Z.ltb_lt.
Qed.

Lemma check_entries_spec e previous previousTime entries :
  check_entries e previous previousTime entries = Ok tt <->
  Forall (entry_ok e) entries /\ StronglySorted entry_lt entries /\
  Forall (fun x => previous < entry_seq x /\ (previousTime = 0 \/ previousTime < qe_CreatedAt x)) entries.
Proof.
  revert previous previousTime. induction entries as [|x l IH]; intros previous previousTime;
    cbn [check_entries]; [split; [repeat constructor|done]|].
  fold (entry_seq x). pose proof (entry_bad_spec e previous previousTime x) as Hx.
  rewrite !Forall_cons. split.
  - destruct (entry_bad _ _ _ x) eqn:Eb; [done|].
    destruct (batchIdentityMatches _ _) eqn:Em; cbn [negb]; [|done].
    intros (H1 & H2 & H3)%IH. destruct Hx as [Hx _]. destruct Hx as (Ho & Hp & Ht); [done|].
    split; [done|]. split.
    + constructor; [done|]. eapply Forall_impl; [exact H3|]. intros y [Hy Hyt]. split; [done|].
      destruct Hyt as [Hz|]; [|done]. by destruct Ho.
    + split; [done|]. eapply Forall_impl; [exact H3|]. intros y [Hy Hyt].
      split; [lia|]. destruct Ht; [by left|right]. destruct Hyt as [Hz|]; [by destruct Ho|lia].
  - intros ([Ho Hol] & Hs & Hp & Hpl). apply StronglySorted_inv in Hs as [Hs Hx2].
    destruct Hx as [_ Hx]. destruct Hx as [-> ->]; [done|]. cbn [negb]. apply IH.
    split; [done|]. split; [done|]. eapply Forall_impl; [exact Hx2|]. intros y [??]. auto.
Qed.

(** Entries in order after their own floor are after the floor of the envelope. *)
Lemma above_expected_floor e :
  StronglySorted entry_lt (en_Entries e) ->
  Forall (fun x => expected_floor e < entry_seq x /\ (0 = 0 \/ 0 < qe_CreatedAt x)) (en_Entries e).
Proof.
  unfold expected_floor. destruct (en_Entries e) as [|x l]; [constructor|]. fold (entry_seq x).
  intros [_ Hx]%StronglySorted_inv. constructor; [split; [lia|by left]|].
  eapply Forall_impl; [exact Hx|]. intros y [??]. split; [lia|by left].
Qed.

Lemma check_envelope_spec e nil_entries e' :
  check_envelope e nil_entries = Ok e' <-> e' = e /\ nil_entries = false /\ envelope_valid e.
Proof.
  unfold check_envelope. rewrite result_bind_ok. setoid_rewrite reject_ok.
  setoid_rewrite result_bind_ok. setoid_rewrite result_bind_ok. setoid_rewrite reject_ok. split.
  - intros ([] & Hb & [] & Hc & [] & Hf & [= <-]). unfold envelope_bounds_bad in Hb. breflect.
    apply check_entries_spec in Hc as (Hc1 & Hc2 & Hc3). split; [done|]. split; [done|]. split; try done; lia.
  - intros (-> & -> & [V1 V2 V3 V4 V5 V6 V7 V8]). exists tt. split.
    { unfold envelope_bounds_bad. rewrite V1, V3. cbn. rewrite (proj2 (String.eqb_neq _ _) V2).
      rewrite !(proj2 (Z.ltb_ge _ _)) by lia. done. }
    exists tt. split.
    { apply check_entries_spec. split; [done|]. split; [done|]. rewrite V8. by apply above_expected_floor. }
    exists tt. split; [|done]. by rewrite negb_false_iff, Z.eqb_eq.
Qed.

(** * Reading back what was written *)

(** The integers of an envelope fit in their Go types, and its requests repeat no
    key. *)
Record envelope_encodable (e : envelope) : Prop := {
  ec_allocated : en_LastAllocatedBatchSeq e <= max_int64;
  ec_live : en_LiveReservedThrough e <= max_int64;
  ec_attempts : Forall (fun x => qe_Attempts x <= max_int64) (en_Entries e);
  ec_clean : Forall (fun x => request_clean (qe_Request x)) (en_Entries e);
}.

(** An envelope the file may hold. *)
Definition envelope_wf (e : envelope) : Prop := envelope_valid e /\ envelope_encodable e.

Lemma set_int_in z old : 0 <= z <= max_int64 -> set_int (JInt z) old = Ok z.
Proof.
  intros Hz. cbn. rewrite !(proj2 (Z.leb_le _ _)) by (unfold min_int64; lia). done.
Qed.

Lemma entry_json_spec x j :
  entry_json x = Some j <-> exists t r, time_json (qe_CreatedAt x) = Some t /\
    request_json (qe_Request x) = Some r /\
    j = JObj [("id", JStr (qe_ID x)); ("created_at", t); ("attempts", JInt (qe_Attempts x)); ("request", r)].
Proof.
  unfold entry_json. rewrite bind_Some. setoid_rewrite bind_Some. split.
  - intros (t & Ht & r & Hr & [= <-]). eauto.
  - intros (t & r & Ht & Hr & ->). eauto.
Qed.

Lemma decode_members_inv {S} (P : S -> Prop) (Q : json -> Prop) names set members (acc acc' : S) :
  (forall name v a a', name ∈ names -> P a -> Q v -> set name v a = Ok a' -> P a') ->
  P acc -> Forall (fun kv => Q kv.2) members ->
  decode_members names set members acc = Ok acc' -> P acc'.
Proof.
  intros Hset. revert acc. induction members as [|[k v] l IH]; intros acc Ha HQ; cbn [decode_members].
  - by intros [= <-].
  - apply Forall_cons in HQ as [Hv HQ]. destruct (field_of names k) as [name|] eqn:Ef; [|done].
    intros (a & Hs & Hd)%result_bind_ok. eapply IH; [|done|done]. eapply Hset; [|done|done|done].
    unfold field_of in Ef. destruct (List.find _ names) as [n|] eqn:E1; simplify_eq.
    + apply find_some in E1 as [Hin _]. by apply list_elem_of_In.
    + apply find_some in Ef as [Hin _]. by apply list_elem_of_In.
Qed.

Section Laws.
Context `{Laws : !QueueCodecLaws}.

Lemma entry_roundtrip x j :
  0 <= qe_Attempts x <= max_int64 -> entry_json x = Some j -> decode_entry j = Ok x.
Proof using Laws.
  intros Ha (t & r & Ht & Hr & ->)%entry_json_spec.
  apply time_roundtrip in Ht as [Ht (s & ->)]. apply request_roundtrip in Hr as [Hr Hn].
  unfold decode_entry, entry_names. cbn [decode_members].
  change (field_of _ "id") with (Some "id"). cbn -[set_int json_request json_time].
  change (field_of _ "created_at") with (Some "created_at"). cbn -[set_int json_request json_time].
  rewrite Ht. cbn -[set_int json_request].
  change (field_of _ "attempts") with (Some "attempts"). cbn -[set_int json_request].
  unfold json_int. rewrite (set_int_in _ 0 Ha). cbn -[json_request].
  change (field_of _ "request") with (Some "request"). cbn -[json_request].
  assert (ptr r (json_request None) = Ok (Some (qe_Request x))) as ->
    by (unfold ptr; destruct r; [done|by rewrite Hr..]).
  by destruct x.
Qed.

Lemma entries_roundtrip l docs :
  Forall (fun x => 0 <= qe_Attempts x <= max_int64) l -> mapM entry_json l = Some docs ->
  mapM decode_entry docs = Ok l.
Proof using Laws.
  intros Ha Hd. apply mapM_Some_1 in Hd.
  induction Hd as [|x j l docs Hx _ IH]; [done|]. apply Forall_cons in Ha as [Hax Ha].
  cbn. rewrite (entry_roundtrip x j Hax Hx). cbn. by rewrite IH.
Qed.

Lemma entry_json_clean x j :
  request_clean (qe_Request x) -> entry_json x = Some j -> no_duplicate_keys j = true.
Proof using Laws.
  intros Hc (t & r & Ht & Hr & ->)%entry_json_spec. apply time_roundtrip in Ht as [_ (s & ->)].
  cbn. by rewrite (Hc r Hr).
Qed.

Lemma document_clean e docs :
  Forall (fun j => no_duplicate_keys j = true) docs -> no_duplicate_keys (envelope_document e docs) = true.
Proof.
  intros Hd. cbn. rewrite andb_true_r. apply forallb_forall. intros j Hj.
  rewrite Forall_forall in Hd. by apply Hd, list_elem_of_In.
Qed.

Lemma entries_clean l docs :
  Forall (fun x => request_clean (qe_Request x)) l -> mapM entry_json l = Some docs ->
  Forall (fun j => no_duplicate_keys j = true) docs.
Proof using Laws.
  intros Hc Hd. apply mapM_Some_1 in Hd. induction Hd as [|x j l docs Hx _ IH]; constructor.
  - apply Forall_cons in Hc as [Hc _]. by eapply entry_json_clean.
  - apply Forall_cons in Hc as [_ Hc]. auto.
Qed.

(** Decoding the members of a document in which the integers are in range. *)
Lemma decode_document e docs entries :
  0 <= en_Version e <= max_int64 -> 0 <= en_LastAllocatedBatchSeq e <= max_int64 ->
  0 <= en_RetiredBatchFloor e <= max_int64 -> 0 <= en_LiveReservedThrough e <= max_int64 ->
  mapM decode_entry docs = Ok entries ->
  decode_members envelope_names set_envelope_field (control_members e ++ [("entries", JArr docs)])
    (zero_envelope, true) = Ok (en_with_entries entries e, false).
Proof.
  intros Hv Ha Hf Hl Hd. unfold control_members, envelope_names. cbn [app decode_members].
  change (field_of _ "version") with (Some "version"). cbn -[set_int mapM]. rewrite set_int_in by done.
  cbn -[set_int mapM]. change (field_of _ "session_id") with (Some "session_id"). cbn -[set_int mapM].
  change (field_of _ "producer_id") with (Some "producer_id"). cbn -[set_int mapM].
  change (field_of _ "last_allocated_batch_seq") with (Some "last_allocated_batch_seq").
  cbn -[set_int mapM]. rewrite set_int_in by done. cbn -[set_int mapM].
  change (field_of _ "retired_batch_floor") with (Some "retired_batch_floor").
  cbn -[set_int mapM]. rewrite set_int_in by done. cbn -[set_int mapM].
  change (field_of _ "live_reserved_through") with (Some "live_reserved_through").
  cbn -[set_int mapM]. rewrite set_int_in by done. cbn -[set_int mapM].
  change (field_of _ "entries") with (Some "entries"). cbn -[mapM]. by rewrite Hd.
Qed.

(** Whatever well-formed envelope is written is the envelope read back. *)
Lemma write_read e d : envelope_wf e -> envelope_json e = Some d -> decodeEnvelope d = Ok e.
Proof using Laws.
  intros [Hval [C1 C2 C3 C4]] Hd. pose proof Hval as [V1 V2 V3 V4 V5 V6 V7 V8].
  unfold envelope_json in Hd. apply fmap_Some in Hd as (docs & Hdocs & ->).
  unfold decodeEnvelope. rewrite document_clean by (by eapply entries_clean). cbn [negb].
  unfold envelope_document. cbv beta iota.
  assert (missing_field (control_members e ++ [("entries", JArr docs)]) = None) as -> by reflexivity.
  rewrite (decode_document e docs (en_Entries e)); try lia.
  - destruct e. by apply check_envelope_spec.
  - rewrite V1. unfold max_int64. lia.
  - eapply entries_roundtrip; [|done]. rewrite Forall_forall in C3, V6 |- *. intros x Hx.
    split; [apply (eo_attempts _ _ (V6 x Hx))|by apply C3].
Qed.

(** ** What a readable file holds *)

Lemma set_int_range value old z :
  set_int value old = Ok z -> old <= max_int64 -> z <= max_int64.
Proof.
  destruct value; cbn; try done; [by intros [= <-]|]. destruct (_ && _) eqn:E; [|done].
  intros [= <-] _. by breflect.
Qed.

Lemma members_clean members :
  no_duplicate_keys (JObj members) = true -> Forall (fun kv => no_duplicate_keys kv.2 = true) members.
Proof.
  cbn. intros [_ H]%andb_true_iff. apply Forall_forall. intros kv Hin.
  rewrite forallb_forall in H. by apply H, list_elem_of_In.
Qed.

Lemma ptr_spec {A} value (decode : json -> option A) o :
  ptr value decode = Ok o -> o = None \/ exists a, o = Some a /\ decode value = Some a.
Proof.
  unfold ptr. destruct value; try (destruct (decode _) as [a|] eqn:E; [|done]); intros [= <-]; eauto.
Qed.

Definition stored_ok (st : stored_entry) : Prop :=
  (forall a, st_Attempts st = Some a -> a <= max_int64) /\
  (forall r, st_Request st = Some r -> request_clean r).

Lemma set_entry_field_ok name v a a' :
  name ∈ entry_names -> stored_ok a -> no_duplicate_keys v = true ->
  set_entry_field name v a = Ok a' -> stored_ok a'.
Proof using Laws.
  intros _ [Ha Hr] Hv. unfold set_entry_field.
  destruct (name =s "id"); [|destruct (name =s "created_at"); [|destruct (name =s "attempts")]];
    intros (o & Ho & [= <-])%result_bind_ok; split; cbn [st_Attempts st_Request]; try done.
  - intros z Hz. apply ptr_spec in Ho as [->|(z' & -> & Ho)]; [done|]. simplify_eq.
    unfold json_int in Ho. destruct (set_int v 0) as [z'|] eqn:Es; simplify_eq.
    apply set_int_range in Es; [done|]. unfold max_int64. lia.
  - intros r Hr'. apply ptr_spec in Ho as [->|(r' & -> & Ho)]; [done|]. simplify_eq.
    eapply request_decode_clean; [|exact Hv|exact Ho]. exact Hr.
Qed.

Lemma decode_entry_ok j x :
  no_duplicate_keys j = true -> decode_entry j = Ok x ->
  qe_Attempts x <= max_int64 /\ request_clean (qe_Request x).
Proof using Laws.
  intros Hj. destruct j as [| | | | | |members]; try done. cbn [decode_entry].
  intros (st & Hst & Hx)%result_bind_ok.
  eapply (decode_members_inv stored_ok (fun v => no_duplicate_keys v = true)) in Hst as [H1 H2].
  - destruct (st_ID st), (st_CreatedAt st), (st_Attempts st) as [a|], (st_Request st) as [r|]; simplify_eq.
    cbn. auto.
  - exact set_entry_field_ok.
  - split; done.
  - by apply members_clean.
Qed.

Lemma decode_entries_ok items entries :
  forallb no_duplicate_keys items = true -> mapM decode_entry items = Ok entries ->
  Forall (fun x => qe_Attempts x <= max_int64 /\ request_clean (qe_Request x)) entries.
Proof using Laws.
  revert entries. induction items as [|j items IH]; intros entries; cbn; [intros _ [= <-]; constructor|].
  intros [Hj Hi]%andb_true_iff (x & Hx & H)%result_bind_ok. apply result_bind_ok in H as (l & Hl & [= <-]).
  constructor; [by eapply decode_entry_ok|by apply IH].
Qed.

Definition acc_ok (acc : envelope * bool) : Prop := envelope_encodable acc.1.

Lemma set_envelope_field_ok name v a a' :
  name ∈ envelope_names -> acc_ok a -> no_duplicate_keys v = true ->
  set_envelope_field name v a = Ok a' -> acc_ok a'.
Proof using Laws.
  intros _ [C1 C2 C3 C4] Hv. destruct a as [e n]. cbn in *. unfold set_envelope_field.
  destruct (name =s "version"); [|destruct (name =s "session_id"); [|destruct (name =s "producer_id");
    [|destruct (name =s "last_allocated_batch_seq"); [|destruct (name =s "retired_batch_floor");
    [|destruct (name =s "live_reserved_through")]]]]];
    try (intros (z & Hz & [= <-])%result_bind_ok; try (apply set_int_range in Hz; [|done]); by split).
  destruct v as [| | | | |items|]; try done; [by intros [= <-]; split; cbn|].
  intros (entries & Hi & [= <-])%result_bind_ok. apply decode_entries_ok in Hi; [|done].
  split; cbn; try done; (eapply Forall_impl; [exact Hi|]; by intros x []).
Qed.

(** Only a well-formed envelope is ever read. *)
Lemma read_wf d e : decodeEnvelope d = Ok e -> envelope_wf e.
Proof using Laws.
  unfold decodeEnvelope. destruct (no_duplicate_keys d) eqn:Hd; cbn [negb]; [|done].
  destruct d as [| | | | | |members]; try done. destruct (missing_field members); [done|].
  destruct (decode_members _ _ _ _) as [[state n]|] eqn:Em; [|done].
  intros (-> & -> & Hval)%check_envelope_spec. split; [done|].
  refine (decode_members_inv acc_ok (fun v => no_duplicate_keys v = true) _ _ _ _ _
    set_envelope_field_ok _ (members_clean _ Hd) Em).
  split; cbn; try constructor; unfold max_int64; lia.
Qed.
End Laws.

(** * The floor *)

(** An envelope whose floor may lag behind its oldest entry. *)
Record envelope_pre (e : envelope) : Prop := {
  pre_version : en_Version e = 2;
  pre_session : en_SessionID e <> "";
  pre_producer : ValidSyncProducerID uuid_Parse (en_ProducerID e) = true;
  pre_floor : 0 <= en_RetiredBatchFloor e <= en_LastAllocatedBatchSeq e;
  pre_live : 0 <= en_LiveReservedThrough e;
  pre_entries : Forall (entry_ok e) (en_Entries e);
  pre_sorted : StronglySorted entry_lt (en_Entries e);
  pre_above : Forall (fun x => en_RetiredBatchFloor e < entry_seq x) (en_Entries e);
}.

Lemma valid_pre e : envelope_valid e -> envelope_pre e.
Proof.
  intros [V1 V2 V3 V4 V5 V6 V7 V8]. split; try done. rewrite V8.
  eapply Forall_impl; [apply above_expected_floor; done|]. by intros x [].
Qed.

Lemma pre_expected e :
  envelope_pre e -> en_RetiredBatchFloor e <= expected_floor e <= en_LastAllocatedBatchSeq e.
Proof.
  intros [_ _ _ H4 _ H6 _ H8]. unfold expected_floor. destruct (en_Entries e) as [|x l]; [lia|].
  apply Forall_inv in H6, H8. destruct H6. unfold entry_seq in *. lia.
Qed.

(** Sessions and producers match exactly; the other bounds only widen. *)
Lemma entry_ok_mono e e' x :
  en_SessionID e' = en_SessionID e -> en_ProducerID e' = en_ProducerID e ->
  en_LastAllocatedBatchSeq e <= en_LastAllocatedBatchSeq e' ->
  en_RetiredBatchFloor e <= en_RetiredBatchFloor e' -> entry_ok e x -> entry_ok e' x.
Proof. intros Hs Hp Ha Hf []. split; rewrite ?Hs, ?Hp; try done; lia. Qed.

Lemma advanceFloor_floor e :
  envelope_pre e -> advanceFloor e = en_with_floor (expected_floor e) e.
Proof.
  intros H%pre_expected. unfold advanceFloor. destruct (Z.ltb_spec (en_RetiredBatchFloor e) (expected_floor e));
    [done|]. assert (expected_floor e = en_RetiredBatchFloor e) as -> by lia. by destruct e.
Qed.

Lemma advanceFloor_valid e : envelope_pre e -> envelope_valid (advanceFloor e).
Proof.
  intros Hp. rewrite advanceFloor_floor by done. pose proof (pre_expected e Hp) as He.
  destruct Hp as [H1 H2 H3 H4 H5 H6 H7 H8]. split; try done; cbn.
  - lia.
  - eapply Forall_impl; [exact H6|]. intros x. apply entry_ok_mono; cbn; try done; lia.
Qed.

Lemma sublist_pre e l :
  envelope_pre e -> l `sublist_of` en_Entries e -> envelope_pre (en_with_entries l e).
Proof.
  intros [H1 H2 H3 H4 H5 H6 H7 H8] Hl. split; try done; cbn.
  - eapply Forall_impl; [exact (Forall_sublist_of _ _ _ H6 Hl)|]. intros x. by apply entry_ok_mono.
  - clear -H7 Hl. revert H7. induction Hl as [|x l l' Hl IH|x l l' Hl IH]; intros Hs; [done|..];
      apply StronglySorted_inv in Hs as [Hs Hx]; [|by apply IH].
    constructor; [by apply IH|by eapply Forall_sublist_of].
  - by eapply Forall_sublist_of.
Qed.

Lemma sublist_encodable e l f :
  envelope_encodable e -> l `sublist_of` en_Entries e -> envelope_encodable (en_with_floor f (en_with_entries l e)).
Proof. intros [C1 C2 C3 C4] Hl. split; cbn; try done; by eapply Forall_sublist_of. Qed.

(** Retiring a sublist: what deleting and pruning leave. *)
Lemma retire_sublist e l :
  envelope_pre e -> envelope_encodable e -> l `sublist_of` en_Entries e ->
  envelope_wf (advanceFloor (en_with_entries l e)).
Proof.
  intros Hv Hc Hl. pose proof (sublist_pre e l Hv Hl) as Hp. split.
  - by apply advanceFloor_valid.
  - rewrite advanceFloor_floor by done. by apply sublist_encodable.
Qed.

(** * Appending *)

Lemma setBatchIdentity_matches id r : batchIdentityMatches (setBatchIdentity id r) id = true.
Proof.
  unfold batchIdentityMatches. cbn.
  rewrite !andb_true_iff. repeat split; apply forallb_forall; intros x (y & <- & _)%in_map_iff;
    apply String.eqb_refl.
Qed.

Lemma StronglySorted_snoc {A} (R : A -> A -> Prop) l x :
  StronglySorted R l -> Forall (fun y => R y x) l -> StronglySorted R (l ++ [x]).
Proof.
  induction 1 as [|y l Hs IH Hy]; intros Hx; cbn; [by repeat constructor|].
  apply Forall_cons in Hx as [Hyx Hx]. constructor; [by apply IH|].
  apply Forall_app. split; [done|]. by constructor.
Qed.

Lemma newest_created now l :
  StronglySorted entry_lt l ->
  Forall (fun y => qe_CreatedAt y < created_at now l) l.
Proof.
  intros Hs. unfold created_at. destruct (last l) as [x|] eqn:El; [|].
  - apply last_Some in El as (l0 & ->).
    assert (qe_CreatedAt x < (if negb (Time_After now (qe_CreatedAt x))
              then Time_Add (qe_CreatedAt x) Nanosecond else now)) as Hx.
    { unfold Time_After, Time_Add, Nanosecond. destruct (Z.ltb_spec (qe_CreatedAt x) now); cbn; lia. }
    apply Forall_app. split; [|by constructor].
    induction l0 as [|y l0 IH]; [constructor|]. cbn in Hs. apply StronglySorted_inv in Hs as [Hs Hy].
    constructor; [|by apply IH]. apply Forall_app in Hy as [_ Hy]. apply Forall_inv in Hy as [_ Hy]. lia.
  - apply last_None in El as ->. constructor.
Qed.

Lemma created_at_pos now l : 0 < now -> 0 < created_at now l.
Proof.
  intros Hnow. unfold created_at. destruct (last l) as [x|]; [|done].
  unfold Time_After, Time_Add, Nanosecond. destruct (Z.ltb_spec (qe_CreatedAt x) now); cbn; lia.
Qed.

(** A queued request is well formed in the envelope that allocated its number. *)
Lemma appended_pre now request e :
  envelope_valid e -> 0 < now -> sr_SessionID request = en_SessionID e ->
  envelope_pre (appended now request e).2.
Proof.
  intros [V1 V2 V3 V4 V5 V6 V7 V8]%id Hnow Hs. split; try done; cbn.
  - lia.
  - apply Forall_app. split.
    + eapply Forall_impl; [exact V6|]. intros x. apply entry_ok_mono; cbn; try done; lia.
    + constructor; [|constructor]. split; cbn; try done; try lia.
      * pose proof (created_at_pos now (en_Entries e) Hnow). lia.
      * apply setBatchIdentity_matches.
  - apply StronglySorted_snoc; [done|].
    pose proof (newest_created now (en_Entries e) V7) as Hn. rewrite Forall_forall in Hn, V6 |- *.
    intros x Hx. split; [|by apply Hn]. destruct (V6 x Hx). unfold entry_seq in *. cbn. lia.
  - apply Forall_app. split; [|constructor; [|constructor]].
    + apply valid_pre. by split.
    + unfold entry_seq. cbn. lia.
Qed.

(** * Pruning *)

Lemma document_len e docs :
  json_len (envelope_document e docs) =
  json_len (envelope_document e []) + sumZ (json_len <$> docs) + Z.max 0 (Z.of_nat (length docs) - 1).
Proof.
  unfold envelope_document, control_members.
  cbn -[Z.max Z.of_nat Z.add quoted_len text_len Z.sub].
  change (foldr Z.add 0 (json_len <$> docs)) with (sumZ (json_len <$> docs)). lia.
Qed.

Lemma advance_twice e l l' :
  envelope_pre (en_with_entries l e) -> l' `sublist_of` l ->
  advanceFloor (en_with_entries l' (advanceFloor (en_with_entries l e))) = advanceFloor (en_with_entries l' e).
Proof.
  intros Hp Hl. pose proof (advanceFloor_valid _ Hp) as Hv. rewrite (advanceFloor_floor _ Hp) in Hv |- *.
  rewrite !advanceFloor_floor; [done|..].
  - exact (sublist_pre _ l' Hp Hl).
  - exact (sublist_pre _ l' (valid_pre _ Hv) Hl).
Qed.

(** The length of the file when the first [i] of the entries [l] are dropped. *)
Definition suffix_size (e : envelope) (l : list Entry) (docs : list json) (i : nat) : Z :=
  json_len (envelope_document (advanceFloor (en_with_entries (drop i l) e)) (drop i docs)).

(** The loop stops at the first suffix that fits; if none does, not even the empty
    queue fits. *)
Lemma prune_loop_spec maxBytes e l docs st :
  envelope_pre (en_with_entries l e) -> length docs = length l ->
  (forall l', l' `suffix_of` l -> advanceFloor (en_with_entries l' st) = advanceFloor (en_with_entries l' e)) ->
  match prune_loop maxBytes st l (json_len <$> docs) (sumZ (json_len <$> docs)) with
  | Ok e' => exists k, (k <= length l)%nat /\ e' = advanceFloor (en_with_entries (drop k l) e) /\
      suffix_size e l docs k <= maxBytes /\ forall i, (i < k)%nat -> maxBytes < suffix_size e l docs i
  | Err err => err = errEntryExceedsCapacity /\ forall i, (i <= length l)%nat -> maxBytes < suffix_size e l docs i
  end.
Proof.
  revert docs st. induction l as [|x l IH]; intros docs st Hp Hlen Hst.
  - destruct docs; [|discriminate Hlen]. cbn [prune_loop fmap list_fmap map].
    rewrite (Hst [] ltac:(done)). specialize (document_len (advanceFloor (en_with_entries [] e)) []) as Hd.
    cbn [length sumZ foldr fmap list_fmap map] in *. rewrite <- Hd.
    destruct (Z.leb_spec (json_len (envelope_document (advanceFloor (en_with_entries [] e)) [])) maxBytes).
    + exists 0%nat. split; [lia|]. split; [done|]. split; [done|]. lia.
    + split; [done|]. intros i Hi. unfold suffix_size. by rewrite !drop_nil.
  - destruct docs as [|d docs]; [discriminate Hlen|]. cbn [length] in Hlen.
    assert (suffix_size e (x :: l) (d :: docs) 0 = json_len (envelope_document (advanceFloor (en_with_entries (x :: l) e)) []) +
      sumZ (json_len <$> d :: docs) + Z.max 0 (Z.of_nat (length (x :: l)) - 1)) as Hsize.
    { unfold suffix_size. rewrite !drop_0, document_len. cbn [length]. by rewrite Hlen. }
    cbn [prune_loop]. rewrite (Hst (x :: l) ltac:(done)), <- Hsize.
    destruct (Z.leb_spec (suffix_size e (x :: l) (d :: docs) 0) maxBytes) as [Hle|Hgt].
    { exists 0%nat. rewrite drop_0. repeat split; try done; lia. }
    change (json_len <$> d :: docs) with (json_len d :: (json_len <$> docs)).
    cbn [sumZ foldr]. change (foldr Z.add 0 (json_len <$> docs)) with (sumZ (json_len <$> docs)).
    replace (json_len d + sumZ (json_len <$> docs) - json_len d) with (sumZ (json_len <$> docs)) by lia.
    specialize (IH docs (advanceFloor (en_with_entries (x :: l) e))).
    assert (envelope_pre (en_with_entries l e)) as Hp'.
    { refine (sublist_pre _ l Hp _). by apply sublist_cons. }
    specialize (IH Hp' ltac:(lia)). destruct (prune_loop _ _ _ _ _) as [e'|err].
    + destruct IH as (k & Hk & He & Hfit & Hmin).
      { intros l' Hl'. apply advance_twice; [done|]. apply sublist_cons. destruct Hl' as [? ->]. by apply sublist_inserts_l. }
      exists (S k). split; [cbn; lia|]. split; [done|]. split; [done|]. intros [|i] Hi; [done|]. apply Hmin. lia.
    + destruct IH as [-> Hmin].
      { intros l' Hl'. apply advance_twice; [done|]. apply sublist_cons. destruct Hl' as [? ->]. by apply sublist_inserts_l. }
      split; [done|]. intros [|i] Hi; [done|]. apply Hmin. cbn in Hi. lia.
Qed.

(** ** The age and count limits *)

Lemma drop_expired_spec cutoff l :
  StronglySorted entry_lt l ->
  exists k, (k <= length l)%nat /\ drop_expired cutoff l = drop k l /\
    Forall (fun x => cutoff <= qe_CreatedAt x) (drop k l) /\
    forall i, (i < k)%nat -> ~ Forall (fun x => cutoff <= qe_CreatedAt x) (drop i l).
Proof.
  induction 1 as [|x l Hs IH Hx]; cbn [drop_expired].
  - exists 0%nat. repeat split; [cbn; lia|constructor|lia].
  - unfold Time_Before. destruct (Z.ltb_spec (qe_CreatedAt x) cutoff) as [Hlt|Hge].
    + destruct IH as (k & Hk & He & Hkeep & Hdrop). exists (S k). split; [cbn; lia|]. split; [done|].
      split; [done|]. intros [|i] Hi; [|apply Hdrop; lia]. rewrite drop_0. intros H%Forall_inv. lia.
    + exists 0%nat. split; [lia|]. split; [done|]. split; [|lia]. rewrite drop_0. constructor; [done|].
      eapply Forall_impl; [exact Hx|]. intros y [_ Hy]. lia.
Qed.

(** The queue that is left when only the suffix [l] of the entries is kept. *)
Definition keeping (e : envelope) (l : list Entry) : envelope := advanceFloor (en_with_entries l e).

(** A suffix respects the limits: no entry is too old, there are not too many, and
    the file that holds them is not too long. *)
Definition within_limits (opts : Options) (now : Z) (e : envelope) (l : list Entry) : Prop :=
  Forall (fun x => now - op_MaxAge opts <= qe_CreatedAt x) l /\
  Z.of_nat (length l) <= op_MaxEntries opts /\
  exists d, envelope_json (keeping e l) = Some d /\ json_len d <= op_MaxBytes opts.

Lemma mapM_drop {A B} (f : A -> option B) l docs k :
  mapM f l = Some docs -> mapM f (drop k l) = Some (drop k docs).
Proof. intros H%mapM_Some_1. by apply mapM_Some_2, Forall2_drop. Qed.

Lemma keeping_json e l docs :
  mapM entry_json l = Some docs -> envelope_json (keeping e l) = Some (envelope_document (keeping e l) docs).
Proof.
  intros H. unfold envelope_json.
  assert (en_Entries (keeping e l) = l) as ->
    by (unfold keeping, advanceFloor; destruct (_ <? _); done).
  by rewrite H.
Qed.

(** The entries that are young and few enough, before their size is looked at. *)
Definition young_and_few (opts : Options) (now : Z) (l : list Entry) : list Entry :=
  let kept := drop_expired (Time_Add now (- op_MaxAge opts)) l in
  if op_MaxEntries opts <? Z.of_nat (length kept)
  then drop (length kept - Z.to_nat (op_MaxEntries opts)) kept else kept.

Lemma young_and_few_spec opts now l :
  StronglySorted entry_lt l -> 0 < op_MaxEntries opts ->
  exists k, (k <= length l)%nat /\ young_and_few opts now l = drop k l /\
    Forall (fun x => now - op_MaxAge opts <= qe_CreatedAt x) (drop k l) /\
    Z.of_nat (length (drop k l)) <= op_MaxEntries opts /\
    forall i, (i < k)%nat -> Forall (fun x => now - op_MaxAge opts <= qe_CreatedAt x) (drop i l) ->
      op_MaxEntries opts < Z.of_nat (length (drop i l)).
Proof.
  intros Hs Hmax. unfold young_and_few, Time_Add. replace (now + - op_MaxAge opts) with (now - op_MaxAge opts) by lia.
  destruct (drop_expired_spec (now - op_MaxAge opts) l Hs) as (k1 & Hk1 & -> & Hkeep & Hdrop).
  rewrite length_drop. destruct (Z.ltb_spec (op_MaxEntries opts) (Z.of_nat (length l - k1))) as [Hlt|Hge].
  - rewrite drop_drop. set (k := (k1 + (length l - k1 - Z.to_nat (op_MaxEntries opts)))%nat).
    exists k. rewrite length_drop. split; [lia|]. split; [done|]. split.
    + unfold k. rewrite <- drop_drop. by apply Forall_drop.
    + split; [lia|]. intros i Hi Hage. rewrite length_drop.
      destruct (decide (i < k1)%nat) as [Hi1|]; [by destruct (Hdrop i Hi1)|lia].
  - exists k1. rewrite length_drop. repeat split; try done; try lia.
    intros i Hi Hage. by destruct (Hdrop i Hi).
Qed.

Lemma prune_outcome opts now e :
  envelope_pre e -> 0 < op_MaxEntries opts ->
  match pruneEnvelope opts now e with
  | Ok e' => exists k, (k <= length (en_Entries e))%nat /\ e' = keeping e (drop k (en_Entries e)) /\
      within_limits opts now e (drop k (en_Entries e)) /\
      forall i, (i < k)%nat -> ~ within_limits opts now e (drop i (en_Entries e))
  | Err err =>
      (exists x, x ∈ en_Entries e /\ entry_json x = None) \/
      forall i, (i <= length (en_Entries e))%nat -> ~ within_limits opts now e (drop i (en_Entries e))
  end.
Proof.
  intros Hp Hmax. unfold pruneEnvelope. fold (young_and_few opts now (en_Entries e)).
  destruct (young_and_few_spec opts now (en_Entries e) (pre_sorted e Hp) Hmax)
    as (k & Hk & -> & Hage & Hcount & Hmany).
  set (l := en_Entries e) in *. destruct (mapM entry_json (drop k l)) as [docs|] eqn:Hdocs.
  2: { left. apply mapM_None in Hdocs. apply Exists_exists in Hdocs as (x & Hx & Hn).
       exists x. split; [|done]. rewrite <- (take_drop k l). apply elem_of_app. by right. }
  assert (forall i, envelope_json (keeping e (drop (k + i) l)) =
    Some (envelope_document (keeping e (drop (k + i) l)) (drop i docs))) as Hjson.
  { intros i. apply keeping_json. rewrite <- drop_drop. by apply mapM_drop. }
  pose proof (prune_loop_spec (op_MaxBytes opts) e (drop k l) docs e
    ltac:(apply sublist_pre, sublist_drop; done) ltac:(by apply length_mapM in Hdocs) ltac:(done)) as Hloop.
  unfold suffix_size in Hloop. destruct (prune_loop _ _ _ _ _) as [e'|err].
  - destruct Hloop as (k3 & Hk3 & -> & Hfit & Hlong). rewrite length_drop in Hk3, Hcount. exists (k + k3)%nat.
    rewrite drop_drop in *. split; [lia|]. split; [done|]. split.
    + split; [rewrite <- drop_drop; by apply Forall_drop|]. split; [rewrite length_drop; lia|].
      eexists. split; [apply Hjson|done].
    + intros i Hi (Hyoung & Hnum & d & Hd & Hsize).
      destruct (decide (i < k)%nat) as [Hik|Hik]; [specialize (Hmany i Hik Hyoung); lia|].
      specialize (Hlong (i - k)%nat ltac:(lia)). rewrite drop_drop in Hlong. specialize (Hjson (i - k)%nat).
      replace (k + (i - k))%nat with i in Hlong, Hjson by lia.
      rewrite Hjson in Hd. injection Hd as <-. unfold keeping in Hsize. lia.
  - destruct Hloop as [-> Hlong]. right. intros i Hi (Hyoung & Hnum & d & Hd & Hsize).
    destruct (decide (i < k)%nat) as [Hik|Hik]; [specialize (Hmany i Hik Hyoung); lia|].
    specialize (Hlong (i - k)%nat ltac:(rewrite length_drop; lia)). rewrite drop_drop in Hlong.
    specialize (Hjson (i - k)%nat). replace (k + (i - k))%nat with i in Hlong, Hjson by lia.
    rewrite Hjson in Hd. injection Hd as <-. unfold keeping in Hsize. lia.
Qed.

(** * Operations over the file *)

Definition file_holds (s : FileStore) (e : envelope) : Prop :=
  exists d, fs_file s = FileJson d /\ decodeEnvelope d = Ok e.

(** The authority only moves forward: sequence numbers are never given back, an
    entry is new or was there before with the same batch, date and identity. *)
Record evolves (e e' : envelope) : Prop := {
  evo_session : en_SessionID e' = en_SessionID e;
  evo_producer : en_ProducerID e' = en_ProducerID e;
  evo_allocated : en_LastAllocatedBatchSeq e <= en_LastAllocatedBatchSeq e';
  evo_floor : en_RetiredBatchFloor e <= en_RetiredBatchFloor e';
  evo_live : en_LiveReservedThrough e <= en_LiveReservedThrough e';
  evo_entries : forall x', x' ∈ en_Entries e' -> en_LastAllocatedBatchSeq e < entry_seq x' \/
    exists x, x ∈ en_Entries e /\ qe_ID x' = qe_ID x /\ qe_Request x' = qe_Request x /\
      qe_CreatedAt x' = qe_CreatedAt x /\ qe_Attempts x <= qe_Attempts x';
}.

#[export] Instance evolves_preorder : PreOrder evolves.
Proof.
  split.
  - intros e. split; try done; try lia. intros x Hx. right. exists x. repeat split; try done; lia.
  - intros e1 e2 e3 [A1 A2 A3 A4 A5 A6] [B1 B2 B3 B4 B5 B6]. split; try congruence; try lia.
    intros x3 H3. destruct (B6 x3 H3) as [?|(x2 & H2 & E1 & E2 & E3 & E4)]; [left; lia|].
    destruct (A6 x2 H2) as [?|(x1 & H1 & F1 & F2 & F3 & F4)].
    + left. unfold entry_seq in *. by rewrite E2.
    + right. exists x1. repeat split; try congruence; lia.
Qed.

(** An operation that changed nothing. *)
Definition refused {A} (s s' : FileStore) (r : result A) : Prop := s' = s /\ exists err, r = Err err.

(** An operation whose envelope became the file: it succeeded, or the directory could
    not be synced, which poisons the store. *)
Definition committed {A} (s s' : FileStore) (r : result A) (e : envelope) : Prop :=
  file_holds s' e /\ fs_opts s' = fs_opts s /\ fs_lock s' = fs_lock s /\ fs_session s' = fs_session s /\
  (((exists a, r = Ok a) /\ fs_poison s' = fs_poison s) \/
   exists err, r = Err err /\ fs_poison s' = Some err /\ errors_Is AmbiguousDurabilityName err = true).

Lemma writeEnvelope_outcome `{!QueueCodecLaws} io e s r s' :
  envelope_wf e -> writeEnvelope io e s = (r, s') -> refused s s' r \/ committed s s' r e.
Proof.
  intros Hwf. unfold writeEnvelope, refused, committed.
  destruct (envelope_json e) as [d|] eqn:Hd; [|intros [= <- <-]; eauto].
  destruct (_ <? _); [intros [= <- <-]; eauto|]. destruct (first_failure _); [intros [= <- <-]; eauto|].
  assert (forall s0, fs_file s0 = FileJson d -> file_holds s0 e) as Hf
    by (intros s0 E; exists d; split; [done|by apply write_read]).
  destruct (if negb _ then _ else _); intros [= <- <-]; right; (split; [by apply Hf|]);
    repeat split; [right|left]; eauto.
Qed.

(** Returning more than success does not change what happened to the file. *)
Lemma outcome_bind {A B} s s' (r : result A) (f : A -> B) e :
  refused s s' r \/ committed s s' r e ->
  refused s s' (a ← r; Ok (f a)) \/ committed s s' (a ← r; Ok (f a)) e.
Proof.
  intros [[-> (err & ->)]|(H1 & H2 & H3 & H4 & [[(a & ->) ?]|(err & -> & ?)])].
  - left. split; [done|]. by exists err.
  - right. repeat split; try done. left. cbn. eauto.
  - right. repeat split; try done. right. cbn. eauto.
Qed.

Lemma readEnvelope_holds s e : readEnvelope s = Ok e -> file_holds s e.
Proof.
  unfold readEnvelope. intros (d & Hd & (e0 & He & H)%result_bind_ok)%result_bind_ok. exists d.
  destruct (fs_file s); simplify_eq/=. split; [done|]. destruct (_ && _); by simplify_eq.
Qed.

Lemma load_holds io s e : load io s = Ok e -> file_holds s e.
Proof. unfold load. destruct (ready io s); [done|]. apply readEnvelope_holds. Qed.

(** ** What each operation makes of the envelope *)

Lemma keeping_fields e l :
  envelope_pre e -> l `sublist_of` en_Entries e ->
  en_SessionID (keeping e l) = en_SessionID e /\ en_ProducerID (keeping e l) = en_ProducerID e /\
  en_LastAllocatedBatchSeq (keeping e l) = en_LastAllocatedBatchSeq e /\
  en_LiveReservedThrough (keeping e l) = en_LiveReservedThrough e /\ en_Entries (keeping e l) = l /\
  en_RetiredBatchFloor e <= en_RetiredBatchFloor (keeping e l).
Proof.
  intros Hp Hl. pose proof (sublist_pre e l Hp Hl) as Hpl. unfold keeping. rewrite advanceFloor_floor by done.
  pose proof (pre_expected _ Hpl). cbn in *. repeat split; try done; lia.
Qed.

Lemma keeping_evolves e l :
  envelope_pre e -> l `sublist_of` en_Entries e -> evolves e (keeping e l).
Proof.
  intros Hp Hl. destruct (keeping_fields e l Hp Hl) as (E1 & E2 & E3 & E4 & E5 & E6).
  split; try done; rewrite ?E3, ?E4, ?E5; try lia.
  intros x Hx. right. exists x. split; [|repeat split; lia].
  eapply elem_of_submseteq; [done|by apply sublist_submseteq].
Qed.

Lemma filter_sublist_of {A} (f : A -> bool) l : List.filter f l `sublist_of` l.
Proof. induction l as [|x l IH]; cbn; [constructor|]. destruct (f x); by constructor. Qed.

Lemma mark_attempt_spec id l l' :
  mark_attempt id l = Ok l' ->
  Forall2 (fun x x' => x' = x \/ (x' = attempted x /\ qe_ID x = id /\ qe_Attempts x <> max_int64)) l l'.
Proof.
  revert l'. induction l as [|x l IH]; intros l'; cbn [mark_attempt]; [intros [= <-]; constructor|].
  destruct (qe_ID x =s id) eqn:Ei; breflect.
  - destruct (qe_Attempts x =? max_int64) eqn:Ea; [done|]. intros [= <-]. breflect.
    constructor; [by right|]. apply Forall_Forall2_diag, Forall_true. by left.
  - intros (rest & Hr & [= <-])%result_bind_ok. constructor; [by left|]. by apply IH.
Qed.

(** Entries that keep number and date keep the order. *)
Lemma sorted_same l l' :
  Forall2 (fun x x' => entry_seq x' = entry_seq x /\ qe_CreatedAt x' = qe_CreatedAt x) l l' ->
  StronglySorted entry_lt l -> StronglySorted entry_lt l'.
Proof.
  induction 1 as [|x x' l l' [E1 E2] Hl IH]; intros Hs; [constructor|].
  apply StronglySorted_inv in Hs as [Hs Hx]. constructor; [by apply IH|].
  clear -E1 E2 Hl Hx. induction Hl as [|y y' l l' [F1 F2] Hl IH]; [constructor|].
  apply Forall_cons in Hx as [[??] Hx]. constructor; [split; lia|by apply IH].
Qed.

Lemma mark_attempt_wf id e l :
  envelope_wf e -> mark_attempt id (en_Entries e) = Ok l ->
  envelope_wf (en_with_entries l e) /\ evolves e (en_with_entries l e).
Proof.
  intros [[V1 V2 V3 V4 V5 V6 V7 V8] [C1 C2 C3 C4]] Hm%mark_attempt_spec.
  assert (Forall2 (fun x x' => entry_seq x' = entry_seq x /\ qe_CreatedAt x' = qe_CreatedAt x) (en_Entries e) l)
    as Hsame by (eapply Forall2_impl; [exact Hm|]; by intros x x' [->|(-> & _)]).
  assert (forall x', x' ∈ l -> exists x, x ∈ en_Entries e /\
    (x' = x \/ x' = attempted x /\ qe_ID x = id /\ qe_Attempts x <> max_int64)) as Hfrom
    by (intros x' [i Hi]%list_elem_of_lookup; eapply Forall2_lookup_r in Hm as (x & Hx & ?); [|done];
        exists x; split; [by eapply list_elem_of_lookup_2|done]).
  rewrite Forall_forall in V6, C3, C4.
  split; [split; split; try done; cbn|split; try done; cbn; try lia];
    try (apply Forall_forall; intros x' (x & Hx & Hm')%Hfrom;
         specialize (V6 x Hx); specialize (C3 x Hx); specialize (C4 x Hx)).
  - destruct Hm' as [->|(-> & _)]; [by eapply entry_ok_mono; [..|exact V6]|].
    destruct V6. split; try done; cbn; try lia.
  - by eapply sorted_same.
  - rewrite V8. unfold expected_floor. cbn. destruct Hsame as [|x x' ? ? [E _]]; [done|].
    unfold entry_seq in E. by rewrite E.
  - destruct Hm' as [->|(-> & _ & ?)]; [done|]. cbn. lia.
  - by destruct Hm' as [->|(-> & _)].
  - intros x' (x & Hx & Hm')%Hfrom. right. exists x.
    destruct Hm' as [->|(-> & _)]; repeat split; try done; cbn; lia.
Qed.

Lemma live_wf e count :
  envelope_wf e -> 0 <= count -> en_LiveReservedThrough e <= max_int64 - count ->
  envelope_wf (en_with_live (en_LiveReservedThrough e + count) e) /\
  evolves e (en_with_live (en_LiveReservedThrough e + count) e).
Proof.
  intros [[V1 V2 V3 V4 V5 V6 V7 V8] [C1 C2 C3 C4]] Hc Hl.
  split; [split; split; try done; cbn; try lia|split; try done; cbn; try lia].
  - eapply Forall_impl; [exact V6|]. intros x. by apply entry_ok_mono.
  - intros x Hx. right. exists x. repeat split; try done; lia.
Qed.

Lemma appended_encodable now request e :
  envelope_encodable e -> en_LastAllocatedBatchSeq e <> max_int64 -> request_clean (queued_request e request) ->
  envelope_encodable (appended now request e).2.
Proof.
  intros [C1 C2 C3 C4] Hne Hr. split; cbn; try done; try lia; (apply Forall_app; split; [done|]);
    (constructor; [|constructor]); done.
Qed.

Lemma appended_evolves now request e : evolves e (appended now request e).2.
Proof.
  split; try done; cbn; try lia. intros x [Hx|[->|Hx%not_elem_of_nil]%elem_of_cons]%elem_of_app; [..|done].
  - right. exists x. repeat split; try done; lia.
  - left. unfold entry_seq. cbn. lia.
Qed.

(** ** The operations *)

Context `{Laws : !QueueCodecLaws}.

Local Ltac refuse := intros [= <- <-]; left; split; [done|by eexists].

Lemma load_wf io s e : load io s = Ok e -> envelope_wf e.
Proof using Laws. intros (d & _ & Hd)%load_holds. by eapply read_wf. Qed.

(** Appending, then pruning, then writing. *)
Lemma Enqueue_outcome io request s r s' :
  0 < op_MaxEntries (fs_opts s) -> 0 < io_now io ->
  (forall e, request_clean (queued_request e request)) ->
  Enqueue io request s = (r, s') ->
  refused s s' r \/
  exists e k, load io s = Ok e /\ sr_SessionID request = en_SessionID e /\
    en_LastAllocatedBatchSeq e <> max_int64 /\
    let e1 := (appended (io_now io) request e).2 in
    (k <= length (en_Entries e))%nat /\
    within_limits (fs_opts s) (io_now_prune io) e1 (drop k (en_Entries e1)) /\
    (forall i, (i < k)%nat -> ~ within_limits (fs_opts s) (io_now_prune io) e1 (drop i (en_Entries e1))) /\
    envelope_wf (keeping e1 (drop k (en_Entries e1))) /\
    (forall id, r = Ok id -> id = batch_identity (en_ProducerID e) (en_LastAllocatedBatchSeq e + 1)) /\
    committed s s' r (keeping e1 (drop k (en_Entries e1))).
Proof using Laws.
  intros Hmax Hnow Hclean. unfold Enqueue. destruct (load io s) as [e|err] eqn:Hload; [|refuse].
  destruct (sr_SessionID request <>s en_SessionID e) eqn:Es; [refuse|].
  destruct (en_LastAllocatedBatchSeq e =? max_int64) eqn:Em; [refuse|]. breflect.
  destruct (load_wf io s e Hload) as [Hv Hc].
  pose proof (appended_pre (io_now io) request e Hv Hnow Es) as Hp1.
  pose proof (appended_encodable (io_now io) request e Hc Em (Hclean e)) as Hc1.
  destruct (appended (io_now io) request e) as [x e1] eqn:Ea. cbn [snd] in Hp1, Hc1.
  pose proof (prune_outcome (fs_opts s) (io_now_prune io) e1 Hp1 Hmax) as Hprune.
  destruct (pruneEnvelope _ _ _) as [e'|err]; [|refuse].
  destruct Hprune as (k & Hk & -> & Hin & Hout).
  assert (drop k (en_Entries e1) `sublist_of` en_Entries e1) as Hsub by apply sublist_drop.
  match goal with |- context [if ?b then (Err errEntryExceedsCapacity, _) else _] => destruct b eqn:Elast end;
    [refuse|].
  pose proof (retire_sublist e1 _ Hp1 Hc1 Hsub) as Hwf. fold (keeping e1 (drop k (en_Entries e1))) in Hwf.
  destruct (writeEnvelope (io_write io) (keeping e1 (drop k (en_Entries e1))) s) as [r0 s0] eqn:Ew.
  intros [= <- <-]. apply (writeEnvelope_outcome _ _ _ _ _ Hwf), (outcome_bind _ _ _ (fun _ => qe_ID x)) in Ew.
  destruct Ew as [Ew|Ew]; [by left|right]. exists e, k. cbn [snd].
  injection Ea as <- <-. split; [done|]. split; [done|]. split; [done|]. split; [|split; [done|]; split; [done|];
    split; [done|]; split; [destruct r0; cbn; by intros id [= <-]|done]].
  destruct (decide (k <= length (en_Entries e))%nat) as [|Hgt]; [done|exfalso].
  destruct (keeping_fields _ _ Hp1 Hsub) as (_ & _ & _ & _ & E5 & _). rewrite E5 in Elast.
  cbn [en_Entries en_with_entries] in Elast. by rewrite drop_ge in Elast by (rewrite length_app; cbn; lia).
Qed.

Lemma mutate_outcome io mutation s r s' :
  (forall e e', envelope_wf e -> mutation e = Ok e' -> envelope_wf e') ->
  mutate io mutation s = (r, s') ->
  refused s s' r \/
  exists e e', load io s = Ok e /\ mutation e = Ok e' /\ committed s s' r e'.
Proof using Laws.
  intros Hm. unfold mutate. destruct (load io s) as [e|err] eqn:Hload; [|refuse].
  destruct (mutation e) as [e'|err] eqn:Em; [|refuse].
  intros Hw. apply writeEnvelope_outcome in Hw as [Hw|Hw]; [by left| |].
  - right. by exists e, e'.
  - eapply Hm; [|done]. by eapply load_wf.
Qed.

Lemma Reserve_outcome io count s r s' :
  ReserveLiveSequences io count s = (r, s') ->
  refused s s' r \/
  exists e, load io s = Ok e /\ count = LiveSequenceReservation /\
    en_LiveReservedThrough e <= max_int64 - LiveSequenceReservation /\
    (forall b, r = Ok b -> b = (en_LiveReservedThrough e + 1, en_LiveReservedThrough e + LiveSequenceReservation)) /\
    committed s s' r (en_with_live (en_LiveReservedThrough e + LiveSequenceReservation) e).
Proof using Laws.
  unfold ReserveLiveSequences. destruct (ready io s) as [err|] eqn:Er; [refuse|].
  destruct (count =? LiveSequenceReservation) eqn:Ec; cbn [negb]; [|refuse]. breflect. subst count.
  assert (load io s = readEnvelope s) as Hload by (unfold load; by rewrite Er).
  destruct (readEnvelope s) as [e|err] eqn:He; [|refuse].
  destruct (max_int64 - LiveSequenceReservation <? en_LiveReservedThrough e) eqn:El; [refuse|]. breflect.
  destruct (live_wf e LiveSequenceReservation (load_wf io s e Hload) ltac:(done) El) as [Hwf _].
  destruct (writeEnvelope _ _ _) as [r0 s0] eqn:Ew. intros [= <- <-].
  apply (writeEnvelope_outcome _ _ _ _ _ Hwf), (outcome_bind _ _ _
    (fun _ => (en_LiveReservedThrough e + 1, en_LiveReservedThrough e + LiveSequenceReservation))) in Ew.
  destruct Ew as [Ew|Ew]; [by left|right]. exists e. repeat (split; [done|]). split; [|done].
  destruct r0; cbn; by intros b [= <-].
Qed.

(** * Runs of an open queue *)

Inductive operation :=
| OpEnqueue (request : SyncRequest)
| OpDeleteMany (ids : list string)
| OpMarkAttempt (id : string)
| OpPrune
| OpReserve (count : Z).

Definition err_of {A} (r : result A) : option error := match r with Ok _ => None | Err err => Some err end.

(** One operation with what the world answers; the result is the error returned. *)
Definition run_op (io : op_io) (op : operation) (s : FileStore) : option error * FileStore :=
  match op with
  | OpEnqueue request => let '(r, s) := Enqueue io request s in (err_of r, s)
  | OpDeleteMany ids => let '(r, s) := DeleteMany io ids s in (err_of r, s)
  | OpMarkAttempt id => let '(r, s) := MarkAttempt io id s in (err_of r, s)
  | OpPrune => let '(r, s) := Prune io s in (err_of r, s)
  | OpReserve count => let '(r, s) := ReserveLiveSequences io count s in (err_of r, s)
  end.

(** The clock of an agent stands after year one, and the raw JSON it queues repeats
    no key. *)
Definition op_allowed (io : op_io) (op : operation) : Prop :=
  match op with
  | OpEnqueue request => 0 < io_now io /\ forall e, request_clean (queued_request e request)
  | _ => True
  end.

Lemma DeleteMany_wf ids e : envelope_wf e -> envelope_wf (delete_entries ids e) /\ evolves e (delete_entries ids e).
Proof.
  intros [Hv Hc]. apply valid_pre in Hv. unfold delete_entries. split.
  - apply retire_sublist; [done|done|]. apply filter_sublist_of.
  - apply keeping_evolves; [done|]. apply filter_sublist_of.
Qed.

Lemma Prune_wf opts now e e' :
  0 < op_MaxEntries opts -> envelope_wf e -> pruneEnvelope opts now e = Ok e' -> envelope_wf e' /\ evolves e e'.
Proof.
  intros Hmax [Hv Hc] Hp. apply valid_pre in Hv. pose proof (prune_outcome opts now e Hv Hmax) as H.
  rewrite Hp in H. destruct H as (k & _ & -> & _). pose proof (sublist_drop (en_Entries e) k) as Hs.
  split; [by apply retire_sublist|by apply keeping_evolves].
Qed.

(** Whatever an operation meets, it leaves the store as it was or the file holds an
    envelope that evolved from the one before. *)
Lemma run_op_outcome io op s r s' :
  0 < op_MaxEntries (fs_opts s) -> op_allowed io op -> run_op io op s = (r, s') ->
  (s' = s /\ r <> None) \/
  exists e e' A (ra : result A), load io s = Ok e /\ evolves e e' /\ r = err_of ra /\ committed s s' ra e'.
Proof using Laws.
  intros Hmax Hallow. destruct op as [request|ids|id| |count]; cbn [run_op].
  - destruct Hallow as [Hnow Hclean]. destruct (Enqueue io request s) as [r0 s0] eqn:E. intros [= <- <-].
    apply Enqueue_outcome in E as [[-> (err & ->)]|(e & k & Hload & Hs & _ & Hk & _ & _ & _ & _ & Hcom)];
      [by left| |done..].
    right. exists e. eexists _, _, r0. split; [done|]. split; [|by split].
    etransitivity; [apply appended_evolves|]. apply keeping_evolves; [|apply sublist_drop].
    apply appended_pre; [apply (load_wf io s e Hload)|done|done].
  - destruct (DeleteMany io ids s) as [r0 s0] eqn:E. intros [= <- <-].
    apply mutate_outcome in E as [[-> (err & ->)]|(e & e' & Hload & [= <-] & Hcom)]; [by left| |].
    + right. exists e. eexists _, _, r0. split; [done|]. split; [|by split].
      by apply DeleteMany_wf, (load_wf io s).
    + intros e e' He [= <-]. by apply DeleteMany_wf.
  - destruct (MarkAttempt io id s) as [r0 s0] eqn:E. intros [= <- <-].
    apply mutate_outcome in E as [[-> (err & ->)]|(e & e' & Hload & Hm & Hcom)]; [by left| |].
    + apply result_bind_ok in Hm as (l & Hm & [= <-]).
      right. exists e. eexists _, _, r0. split; [done|]. split; [|by split].
      eapply mark_attempt_wf; [by apply (load_wf io s)|done].
    + intros e e' He (l & Hm & [= <-])%result_bind_ok. by eapply mark_attempt_wf.
  - destruct (Prune io s) as [r0 s0] eqn:E. intros [= <- <-].
    apply mutate_outcome in E as [[-> (err & ->)]|(e & e' & Hload & Hm & Hcom)]; [by left| |].
    + right. exists e. eexists _, _, r0. split; [done|]. split; [|by split].
      eapply Prune_wf; [done|by apply (load_wf io s)|done].
    + intros e e' He Hm. by eapply Prune_wf.
  - destruct (ReserveLiveSequences io count s) as [r0 s0] eqn:E. intros [= <- <-].
    apply Reserve_outcome in E as [[-> (err & ->)]|(e & Hload & -> & Hle & _ & Hcom)]; [by left|].
    right. exists e. eexists _, _, r0. split; [done|]. split; [|by split].
    apply live_wf; [by apply (load_wf io s)|done|done].
Qed.

Definition queue_step (s s' : FileStore) : Prop :=
  exists io op, op_allowed io op /\ (run_op io op s).2 = s'.

Lemma file_holds_unique s e e' : file_holds s e -> file_holds s e' -> e' = e.
Proof. intros (d & H1 & H2) (d' & H1' & H2'). congruence. Qed.

Lemma run_op_holds io op s e :
  0 < op_MaxEntries (fs_opts s) -> op_allowed io op -> file_holds s e ->
  exists e', file_holds (run_op io op s).2 e' /\ evolves e e' /\ fs_opts (run_op io op s).2 = fs_opts s.
Proof using Laws.
  intros Hmax Hallow He. destruct (run_op io op s) as [r s'] eqn:Hrun. cbn [snd].
  destruct (run_op_outcome _ _ _ _ _ Hmax Hallow Hrun) as [[-> _]|(e0 & e' & A & ra & Hload & Hevo & _ & Hcom)].
  - by exists e.
  - apply load_holds in Hload. rewrite (file_holds_unique _ _ _ He Hload) in Hevo.
    destruct Hcom as (Hf & Ho & _). by exists e'.
Qed.

Lemma run_holds s s' e :
  0 < op_MaxEntries (fs_opts s) -> file_holds s e -> rtc queue_step s s' ->
  exists e', file_holds s' e' /\ evolves e e' /\ fs_opts s' = fs_opts s.
Proof using Laws.
  intros Hmax He Hrun. revert e Hmax He.
  induction Hrun as [s|s1 s2 s3 (io & op & Hallow & <-) _ IH]; intros e Hmax He; [by exists e|].
  destruct (run_op_holds io op s1 e Hmax Hallow He) as (e2 & H2 & Hevo & Ho).
  destruct (IH e2 ltac:(by rewrite Ho) H2) as (e3 & H3 & Hevo' & Ho'). exists e3. split; [done|].
  split; [by etransitivity|congruence].
Qed.



(** A successful Enqueue puts the batch last, under the next sequence number
    and the identity made of it, with every fact stamped; before it stays a suffix of
    the old entries, the longest that respects the limits, and the floor is just below
    the oldest one kept. *)
Theorem enqueue_appends_batch io request s e id s'
    (Hmax : 0 < op_MaxEntries (fs_opts s)) (Hnow : 0 < io_now io)
    (Hclean : forall e, request_clean (queued_request e request)) (He : file_holds s e)
    (Hrun : Enqueue io request s = (Ok id, s')) :
  let sequence := en_LastAllocatedBatchSeq e + 1 in
  let '(x, e1) := appended (io_now io) request e in
  id = batch_identity (en_ProducerID e) sequence /\ qe_ID x = id /\ sequence <= max_int64 /\
  batchIdentityMatches (qe_Request x) id = true /\
  exists k e', file_holds s' e' /\ en_Entries e' = drop k (en_Entries e) ++ [x] /\
    en_LastAllocatedBatchSeq e' = sequence /\ en_RetiredBatchFloor e' = expected_floor e' /\
    within_limits (fs_opts s) (io_now_prune io) e1 (en_Entries e') /\
    forall i, (i < k)%nat -> ~ within_limits (fs_opts s) (io_now_prune io) e1 (drop i (en_Entries e) ++ [x]).
Proof using Laws.
  cbv zeta. apply Enqueue_outcome in Hrun as [[_ (? & [=])]|Hout]; [|done..].
  destruct Hout as (e0 & k & Hload & Hs & Hne & Hk & Hin & Hout & Hwf & Hid & Hcom).
  pose proof (load_wf io s e0 Hload) as [Hv Hc].
  apply load_holds in Hload. rewrite (file_holds_unique _ _ _ He Hload) in *. clear e0 Hload.
  pose proof (appended_pre (io_now io) request e Hv Hnow Hs) as Hp1. unfold appended in *. cbn [snd] in *.
  cbn [en_Entries en_with_entries] in *.
  destruct (keeping_fields _ _ Hp1 (sublist_drop _ k)) as (_ & _ & E3 & _ & E5 & _).
  cbn [en_Entries en_with_entries] in E3, E5. rewrite !drop_app_le in * by done.
  split; [by apply Hid|]. split; [symmetry; by apply Hid|]. split; [destruct Hc; lia|].
  split; [rewrite (Hid id eq_refl); apply setBatchIdentity_matches|].
  exists k. eexists. split; [apply Hcom|]. split; [exact E5|]. split; [exact E3|].
  split; [apply (ev_expected _ (proj1 Hwf))|]. rewrite E5. split; [done|].
  intros i Hi. specialize (Hout i Hi). by rewrite drop_app_le in Hout by lia.
Qed.

(** ** Liveness *)

(** Every step of a write succeeds. *)
Definition write_succeeds (io : write_io) : Prop :=
  Forall (fun failure => failure = None)
    [wi_ctx_before io; wi_create io; wi_write io; wi_chmod io; wi_sync_file io; wi_close io;
     wi_ctx_after io; wi_rename io; wi_sync_dir io].

Lemma first_failure_none l : Forall (fun failure => failure = None) l -> first_failure l = None.
Proof. unfold first_failure. induction 1 as [|x l -> _ IH]; [done|]. exact IH. Qed.

Lemma writeEnvelope_succeeds io e s d :
  write_succeeds io -> envelope_json e = Some d -> json_len d <= op_MaxBytes (fs_opts s) ->
  writeEnvelope io e s = (Ok tt, fs_with_file (FileJson d) s).
Proof.
  intros Hio Hd Hlen. unfold write_succeeds in Hio. rewrite !Forall_cons in Hio.
  destruct Hio as (H1 & H2 & H3 & H4 & H5 & H6 & H7 & H8 & H9 & _).
  unfold writeEnvelope. rewrite Hd, (proj2 (Z.ltb_ge _ _) Hlen), H1, H2, H3, H4, H5, H6, H7, H8, H9.
  by destruct (negb (op_SkipFsync (fs_opts s))).
Qed.

(** An open queue whose file and file system work accepts every batch of its
    session that fits alone within the limits, whatever is queued already: older
    batches make room. *)
Theorem enqueue_succeeds io request s e
    (Hmax : 0 < op_MaxEntries (fs_opts s)) (Hnow : 0 < io_now io) (Hload : load io s = Ok e)
    (Hsession : sr_SessionID request = en_SessionID e) (Hroom : en_LastAllocatedBatchSeq e < max_int64)
    (Hmarshal : Forall (fun x => is_Some (entry_json x)) (en_Entries (appended (io_now io) request e).2))
    (Hfits : within_limits (fs_opts s) (io_now_prune io) (appended (io_now io) request e).2
               [(appended (io_now io) request e).1])
    (Hio : write_succeeds (io_write io)) :
  exists s', Enqueue io request s =
    (Ok (batch_identity (en_ProducerID e) (en_LastAllocatedBatchSeq e + 1)), s').
Proof using Laws.
  destruct (load_wf io s e Hload) as [Hv _].
  pose proof (appended_pre (io_now io) request e Hv Hnow Hsession) as Hp1.
  unfold Enqueue. rewrite Hload, Hsession, String.eqb_refl. cbn [negb].
  rewrite (proj2 (Z.eqb_neq _ _)) by lia. destruct (appended (io_now io) request e) as [x e1] eqn:Ea.
  cbn [fst snd] in *. assert (en_Entries e1 = en_Entries e ++ [x]) as El by (injection Ea as <- <-; done).
  assert (within_limits (fs_opts s) (io_now_prune io) e1 (drop (length (en_Entries e)) (en_Entries e1))) as Hone.
  { rewrite El, drop_app_length. exact Hfits. }
  pose proof (prune_outcome (fs_opts s) (io_now_prune io) e1 Hp1 Hmax) as Hprune.
  destruct (pruneEnvelope _ _ _) as [e'|err].
  - destruct Hprune as (k & Hk & -> & (_ & _ & d & Hd & Hlen) & Hout).
    destruct (decide (length (en_Entries e) < k)%nat) as [Hlt|Hge]; [by destruct (Hout _ Hlt)|].
    destruct (keeping_fields _ _ Hp1 (sublist_drop _ k)) as (_ & _ & _ & _ & E5 & _).
    rewrite E5, El, drop_app_le, last_snoc, String.eqb_refl by lia. cbn [negb].
    rewrite <- (drop_app_le _ [x]), <- El by lia.
    rewrite (writeEnvelope_succeeds _ _ _ d Hio Hd Hlen). injection Ea as <- <-. by eexists.
  - destruct Hprune as [(y & Hy & Hn)|Hout].
    + rewrite Forall_forall in Hmarshal. destruct (Hmarshal y Hy) as [? E]. by rewrite E in Hn.
    + destruct (Hout (length (en_Entries e))); [rewrite El, length_app; lia|done].
Qed.

(** A successful Prune leaves the longest run of newest entries that respects
    the three limits, and the floor just below the oldest one kept. *)
Theorem prune_keeps_longest_suffix io s e s'
    (Hmax : 0 < op_MaxEntries (fs_opts s)) (He : file_holds s e) (Hrun : Prune io s = (Ok tt, s')) :
  exists k e', file_holds s' e' /\ en_Entries e' = drop k (en_Entries e) /\
    en_RetiredBatchFloor e' = expected_floor e' /\
    within_limits (fs_opts s) (io_now_prune io) e (en_Entries e') /\
    forall i, (i < k)%nat -> ~ within_limits (fs_opts s) (io_now_prune io) e (drop i (en_Entries e)).
Proof using Laws.
  apply mutate_outcome in Hrun as [[_ (? & [=])]|(e0 & e' & Hload & Hm & Hcom)];
    [|intros; by eapply Prune_wf].
  pose proof (load_wf io s e0 Hload) as Hwf. apply load_holds in Hload.
  rewrite (file_holds_unique _ _ _ He Hload) in *. destruct (Prune_wf _ _ _ _ Hmax Hwf Hm) as [Hwf' _].
  pose proof (valid_pre e (proj1 Hwf)) as Hp.
  pose proof (prune_outcome (fs_opts s) (io_now_prune io) e Hp Hmax) as H. rewrite Hm in H.
  destruct H as (k & _ & -> & Hin & Hout). exists k. eexists. split; [apply Hcom|].
  destruct (keeping_fields _ _ Hp (sublist_drop _ k)) as (_ & _ & _ & _ & E5 & _). rewrite E5.
  split; [done|]. split; [apply (ev_expected _ (proj1 Hwf'))|done].
Qed.

(** ** Numbers are never given twice *)

Lemma batch_identity_inj producer m n : batch_identity producer m = batch_identity producer n -> m = n.
Proof. unfold batch_identity. intros H. by apply (inj _), (inj _), (inj fmt_d) in H. Qed.

(** Two successful Enqueues of one open queue, with any operations between
    them, failed and crashed ones included, answer different batch identities. *)
Theorem batch_numbers_never_reused io1 io2 r1 r2 s id1 s1 s2 id2 s3
    (Hmax : 0 < op_MaxEntries (fs_opts s))
    (H1 : op_allowed io1 (OpEnqueue r1)) (H2 : op_allowed io2 (OpEnqueue r2))
    (Hfirst : Enqueue io1 r1 s = (Ok id1, s1)) (Hbetween : rtc queue_step s1 s2)
    (Hsecond : Enqueue io2 r2 s2 = (Ok id2, s3)) :
  id1 <> id2.
Proof using Laws.
  destruct H1 as [Hn1 Hc1], H2 as [Hn2 Hc2].
  apply Enqueue_outcome in Hfirst as [[_ (? & [=])]|(e1 & k & Hload & Hs & _ & Hk & _ & _ & _ & Hid & Hcom)];
    [|done..].
  destruct (load_wf io1 s e1 Hload) as [Hv _].
  pose proof (appended_pre (io_now io1) r1 e1 Hv Hn1 Hs) as Hp1.
  destruct (keeping_fields _ _ Hp1 (sublist_drop _ k)) as (_ & E2 & E3 & _).
  destruct Hcom as (Hf & Ho & _).
  destruct (run_holds s1 s2 _ ltac:(by rewrite Ho) Hf Hbetween) as (e2 & He2 & Hevo & Ho2).
  apply Enqueue_outcome in Hsecond as [[_ (? & [=])]|(e3 & k3 & Hload3 & _ & _ & _ & _ & _ & _ & Hid3 & _)];
    [|by rewrite Ho2, Ho|done..].
  apply load_holds in Hload3. rewrite <- (file_holds_unique _ _ _ Hload3 He2) in Hid3.
  rewrite (Hid id1 eq_refl), (Hid3 id2 eq_refl), (evo_producer _ _ Hevo), E2.
  intros H%batch_identity_inj. pose proof (evo_allocated _ _ Hevo) as Ha. rewrite E3 in Ha.
  cbn [appended snd en_LastAllocatedBatchSeq en_with_entries en_with_allocated] in Ha. lia.
Qed.

(** Two blocks of live sequence numbers reserved by one open queue, with any
    operations between them, do not overlap and each holds 1024 numbers. *)
Theorem live_blocks_disjoint io1 io2 c1 c2 s a1 b1 s1 s2 a2 b2 s3
    (Hmax : 0 < op_MaxEntries (fs_opts s))
    (Hfirst : ReserveLiveSequences io1 c1 s = (Ok (a1, b1), s1)) (Hbetween : rtc queue_step s1 s2)
    (Hsecond : ReserveLiveSequences io2 c2 s2 = (Ok (a2, b2), s3)) :
  b1 = a1 + 1023 /\ b2 = a2 + 1023 /\ b1 < a2 /\ 0 < a1 /\ b2 <= max_int64.
Proof using Laws.
  apply Reserve_outcome in Hfirst as [[_ (? & [=])]|(e1 & Hload & _ & Hle & Hb & Hf & Ho & _)].
  destruct (load_wf io1 s e1 Hload) as [Hv _]. pose proof (ev_live _ Hv).
  destruct (run_holds s1 s2 _ ltac:(by rewrite Ho) Hf Hbetween) as (e2 & He2 & Hevo & _).
  apply Reserve_outcome in Hsecond as [[_ (? & [=])]|(e3 & Hload3 & _ & Hle3 & Hb3 & _)].
  apply load_holds in Hload3. rewrite (file_holds_unique _ _ _ He2 Hload3) in *.
  specialize (Hb _ eq_refl). specialize (Hb3 _ eq_refl). simplify_eq.
  pose proof (evo_live _ _ Hevo) as Hl. cbn in Hl. unfold LiveSequenceReservation in *. lia.
Qed.

(** ** Opening a session *)

(** [uuid.NewString] answers a UUID that the parser accepts. *)
Definition uuid_valid (io : op_io) : Prop :=
  forall p, io_uuid io = Ok p -> ValidSyncProducerID uuid_Parse p = true.

Lemma fresh_wf session producer :
  session <> "" -> ValidSyncProducerID uuid_Parse producer = true -> envelope_wf (fresh_envelope session producer).
Proof. intros Hs Hp. split; split; cbn; try done; constructor. Qed.

Lemma retire_all_wf e : envelope_wf e -> envelope_wf (retire_all e).
Proof.
  intros [Hv Hc]. replace (retire_all e) with (keeping e []).
  - apply retire_sublist; [by apply valid_pre|done|apply sublist_nil_l].
  - unfold keeping, retire_all, advanceFloor, expected_floor. cbn. pose proof (ev_floor e Hv).
    destruct (Z.ltb_spec (en_RetiredBatchFloor e) (en_LastAllocatedBatchSeq e)); [done|].
    unfold en_with_floor, en_with_entries. cbn. f_equal. lia.
Qed.

(** The queue starts over: a new producer, no numbers used. *)
Lemma bootstrap_outcome io session s r s' :
  session <> "" -> uuid_valid io -> bootstrap io session s = (r, s') ->
  refused s s' r \/ exists p, io_uuid io = Ok p /\ committed s s' r (fresh_envelope session p).
Proof using Laws.
  intros Hs Hu. unfold bootstrap. destruct (io_uuid io) as [p|err] eqn:Ep; [|refuse].
  intros Hw. apply writeEnvelope_outcome in Hw as [Hw|Hw]; [by left|right; by exists p|].
  apply fresh_wf; [done|by apply Hu].
Qed.

(** Why a queue may start over. *)
Inductive replaceable (session : string) : queue_file -> Prop :=
| replace_missing : replaceable session FileMissing
| replace_legacy : replaceable session (FileJson (JArr []))
| replace_session d e : decodeEnvelope d = Ok e -> en_SessionID e <> session -> replaceable session (FileJson d).

Lemma committed_after s s1 s' (r : result unit) e0 e :
  committed s s1 (Ok tt) e0 -> committed s1 s' r e -> committed s s' r e.
Proof.
  intros (_ & A1 & A2 & A3 & A4) (B0 & B1 & B2 & B3 & B4).
  destruct A4 as [[_ A4]|(? & [=] & _)]. split; [done|]. repeat split; try congruence.
Qed.

(** What opening makes of the file: nothing, a queue that starts over, or, between
    the two writes of a session change, the old queue fully retired. *)
Definition open_outcome (io : op_io) (session : string) (s s' : FileStore) (r : result unit) : Prop :=
  (s' = s /\ ((exists err, r = Err err) \/ r = Ok tt /\ exists e, file_holds s e /\ en_SessionID e = session)) \/
  (replaceable session (fs_file s) /\
   ((exists p, io_uuid io = Ok p /\ committed s s' r (fresh_envelope session p)) \/
    exists e err, r = Err err /\ file_holds s e /\ file_holds s' (retire_all e))).

Lemma bootstrap_open io session s r s' :
  session <> "" -> uuid_valid io -> replaceable session (fs_file s) -> bootstrap io session s = (r, s') ->
  open_outcome io session s s' r.
Proof using Laws.
  intros Hs Hu Hr Hb. apply bootstrap_outcome in Hb as [[-> Herr]|Hp]; [| |done..]; unfold open_outcome; auto.
Qed.

Lemma open_document_outcome io session d s r s' :
  session <> "" -> uuid_valid io -> fs_file s = FileJson d -> open_document io session d s = (r, s') ->
  open_outcome io session s s' r.
Proof using Laws.
  intros Hs Hu Hd. unfold open_document, open_outcome.
  destruct (decodeEnvelope d) as [e|err] eqn:He; [|intros [= <- <-]; eauto].
  assert (file_holds s e) as Hold by by exists d.
  destruct (String.eqb_spec (en_SessionID e) session) as [Es|Es]; [intros [= <- <-]; left; split; [done|right; split; [done|by exists e]]|].
  assert (replaceable session (fs_file s)) as Hr by (rewrite Hd; exact (replace_session session d e He Es)).
  destruct (writeEnvelope _ _ s) as [r1 s1] eqn:Ew.
  apply writeEnvelope_outcome in Ew; [|by eapply retire_all_wf, read_wf].
  destruct Ew as [[-> (err & ->)]|Hcom]; [intros [= <- <-]; eauto|].
  pose proof (proj1 Hcom) as Hret. destruct r1 as [[]|err]; [|intros [= <- <-]; right; eauto 8].
  intros Hb. right. split; [done|]. apply bootstrap_outcome in Hb as [[-> (err & ->)]|(p & Hp & Hnew)]; [..|done|done].
  - right. eauto.
  - left. exists p. split; [done|]. by eapply committed_after.
Qed.

Lemma open_locked_outcome io session s r s' :
  session <> "" -> uuid_valid io -> open_locked io session s = (r, s') -> open_outcome io session s s' r.
Proof using Laws.
  intros Hs Hu. unfold open_locked.
  assert (forall err, (Err err, s) = (r, s') -> open_outcome io session s s' r) as Hfail
    by (intros err [= <- <-]; left; eauto).
  destruct (fs_file s) as [|err|[] err|d] eqn:Ef; try apply Hfail.
  - apply bootstrap_open; [done..|]. rewrite Ef. constructor.
  - destruct d as [|b|z|l|t|[|x items]|members]; try by apply open_document_outcome.
    + apply bootstrap_open; [done..|]. rewrite Ef. constructor.
    + apply Hfail.
Qed.

(** A session that opens holds the lock and a valid queue of that session: the
    file it found, or a fresh one under a new producer, and then only in place of no
    file, an empty legacy file or the queue of another session. *)
Theorem open_session_ready io session s s'
    (Hlock : fs_lock s = false) (Hu : uuid_valid io) (Hrun : OpenSession io session s = (Ok tt, s')) :
  fs_lock s' = true /\ fs_session s' = session /\ fs_poison s' = None /\
  exists e, file_holds s' e /\ envelope_valid e /\ en_SessionID e = session /\
    (fs_file s' = fs_file s \/
     replaceable session (fs_file s) /\ exists p, io_uuid io = Ok p /\ e = fresh_envelope session p).
Proof using Laws.
  unfold OpenSession in Hrun. destruct (fs_poison s) eqn:Ep; [done|]. destruct (io_ctx io); [done|].
  destruct (session =s "") eqn:Es; [done|]. breflect. rewrite Hlock in Hrun.
  destruct (first_failure _); [done|].
  destruct (open_locked _ _ _) as [[[]|err] s1] eqn:Eo; [|done]. injection Hrun as <-.
  assert (forall e, file_holds s1 e -> file_holds (fs_with_lock true session s1) e) as Hsame by done.
  split; [done|]. split; [done|].
  destruct (open_locked_outcome _ _ _ _ _ Es Hu Eo) as [[-> [(? & [=])|(_ & e & He & Hsess)]]|[Hr [Hnew|Hbad]]].
  - split; [done|]. exists e. split; [by apply Hsame|]. split; [|by split; [|left]].
    destruct He as (d & _ & Hd). by apply (read_wf d e Hd).
  - destruct Hnew as (p & Hp & Hf & _ & _ & _ & [[_ Hpo]|(? & [=] & _)]).
    split; [cbn in *; congruence|]. exists (fresh_envelope session p). split; [by apply Hsame|].
    split; [apply fresh_wf; [done|by apply Hu]|]. split; [done|]. right. split; [done|]. by exists p.
  - destruct Hbad as (? & ? & [=] & _).
Qed.

(** Whatever happens while a session is opened, a file that is neither
    missing, an empty legacy queue nor a valid queue of another session is left as
    it is; this includes files that do not decode and legacy queues not drained. A
    file that is replaced holds a fresh queue, or the old one with every batch retired. *)
Theorem open_session_replaces_only io session s r s'
    (Hu : uuid_valid io) (Hrun : OpenSession io session s = (r, s')) :
  fs_file s' = fs_file s \/
  replaceable session (fs_file s) /\
  ((exists p, file_holds s' (fresh_envelope session p)) \/
   exists e, file_holds s e /\ file_holds s' (retire_all e)).
Proof using Laws.
  unfold OpenSession in Hrun. destruct (fs_poison s); [injection Hrun as <- <-; by left|].
  destruct (io_ctx io); [injection Hrun as <- <-; by left|].
  destruct (session =s "") eqn:Es; [injection Hrun as <- <-; by left|]. breflect.
  destruct (fs_lock s); [destruct (session =s fs_session s); injection Hrun as <- <-; by left|].
  destruct (first_failure _); [injection Hrun as <- <-; by left|].
  destruct (open_locked _ _ _) as [r1 s1] eqn:Eo.
  assert (fs_file s' = fs_file s1) as Hfile by (destruct r1 as [[]|]; by injection Hrun as _ <-).
  destruct (open_locked_outcome _ _ _ _ _ Es Hu Eo) as [[-> _]|[Hr [Hnew|Hbad]]]; [by left|right..];
    (split; [done|]).
  - left. destruct Hnew as (p & _ & (d & Hd) & _). exists p, d. by rewrite Hfile.
  - right. destruct Hbad as (e & err & _ & He & (d & Hd)). exists e. split; [done|].
    exists d. by rewrite Hfile.
Qed.

(** * Keys that differ in case *)

(** The document of a queue with a wrong floor under the exact key, and the floor
    under the same key in capitals. *)
Definition shadowed_document (e : envelope) (floor : Z) (docs : list json) : json :=
  JObj (control_members (en_with_floor floor e) ++
        [("entries", JArr docs); ("RETIRED_BATCH_FLOOR", JInt (en_RetiredBatchFloor e))]).

Lemma decode_members_app {S} names set l1 l2 (acc : S) :
  decode_members names set (l1 ++ l2) acc =
  (acc ← decode_members names set l1 acc; decode_members names set l2 acc).
Proof.
  revert acc. induction l1 as [|[k v] l1 IH]; intros acc; cbn [app decode_members]; [done|].
  destruct (field_of names k); [|done]. destruct (set s v acc); [apply IH|done].
Qed.

(** The duplicate-key check compares keys exactly, the decoder folds
    their case: a key in capitals passes the check and replaces the floor that
    stands under the exact key, whatever it is. *)
Theorem case_variant_key_replaces_floor e docs floor
    (Hwf : envelope_wf e) (Hdocs : mapM entry_json (en_Entries e) = Some docs) (Hfloor : 0 <= floor <= max_int64) :
  no_duplicate_keys (shadowed_document e floor docs) = true /\
  member_value "retired_batch_floor" (control_members (en_with_floor floor e)) = Some (JInt floor) /\
  decodeEnvelope (shadowed_document e floor docs) = Ok e.
Proof using Laws.
  destruct Hwf as [Hval [C1 C2 C3 C4]]. pose proof Hval as [V1 V2 V3 V4 V5 V6 V7 V8].
  assert (no_duplicate_keys (shadowed_document e floor docs) = true) as Hclean.
  { cbn. rewrite andb_true_r. apply forallb_forall. intros j Hj.
    pose proof (entries_clean _ _ C4 Hdocs) as Hd. rewrite Forall_forall in Hd. by apply Hd, list_elem_of_In. }
  split; [done|]. split; [done|]. unfold decodeEnvelope. rewrite Hclean. cbn [negb].
  unfold shadowed_document. cbv beta iota.
  change (missing_field _) with (@None string). cbv iota.
  change [("entries", JArr docs); ("RETIRED_BATCH_FLOOR", JInt (en_RetiredBatchFloor e))]
    with ([("entries", JArr docs)] ++ [("RETIRED_BATCH_FLOOR", JInt (en_RetiredBatchFloor e))]).
  rewrite app_assoc, decode_members_app, (decode_document _ docs (en_Entries e)); cbn [mbind result_bind]; try lia.
  - cbn [decode_members]. change (field_of _ "RETIRED_BATCH_FLOOR") with (Some "retired_batch_floor").
    cbn -[set_int]. rewrite set_int_in by lia. cbn. destruct e. by apply check_envelope_spec.
  - cbn. rewrite V1. unfold max_int64. lia.
  - cbn. lia.
  - exact Hfloor.
  - cbn. lia.
  - eapply entries_roundtrip; [|done]. rewrite Forall_forall in C3, V6 |- *. intros x Hx.
    split; [apply (eo_attempts _ _ (V6 x Hx))|by apply C3].
Qed.
End QueueProps.
