(* ===== verification/SyncQueueExamples.v ===== *)
(** A concrete codec that satisfies the contract of the queue, queues that run under
    it, and the theorems on the queue applied to them. *)
From stdpp Require Import base list sorting strings gmap pretty.
From Stdlib Require Import ZArith Lia Ascii.
From S2P Require Import Prelude GoRuntime Json AgentApi Wire SyncQueue SyncQueueProps.

Local Open Scope Z_scope.

(** * A codec *)

(** A date as the bits of its nanoseconds, a request that carries no fact as its
    control fields. *)
Fixpoint positive_bits (p : positive) : string :=
  match p with
  | xH => ""
  | xO p => String "0"%char (positive_bits p)
  | xI p => String "1"%char (positive_bits p)
  end.

Fixpoint bits_positive (s : string) : positive :=
  match s with
  | EmptyString => xH
  | String c s => if bool_decide (c = "0"%char) then xO (bits_positive s) else xI (bits_positive s)
  end.

Lemma bits_roundtrip p : bits_positive (positive_bits p) = p.
Proof. induction p as [p IH|p IH|]; cbn; by rewrite ?IH. Qed.

Definition date_text (t : Z) : json :=
  JStr match t with
       | 0 => "z"
       | Zpos p => String "+"%char (positive_bits p)
       | Zneg p => String "-"%char (positive_bits p)
       end.

Definition text_date (j : json) : option Z :=
  match j with
  | JStr (String c s) =>
      Some (if bool_decide (c = "z"%char) then 0
            else if bool_decide (c = "+"%char) then Zpos (bits_positive s) else Zneg (bits_positive s))
  | _ => None
  end.

Definition control_json (r : SyncRequest) : json :=
  JObj [("protocol_revision", JInt (sr_ProtocolRevision r)); ("producer_id", JStr (sr_ProducerID r));
        ("batch_sequence", JInt (sr_BatchSequence r)); ("allocated_through", JInt (sr_AllocatedThrough r));
        ("retired_through", JInt (sr_RetiredThrough r)); ("session_id", JStr (sr_SessionID r));
        ("monitoring_instance_id", JStr (sr_MonitoringInstanceID r)); ("sync_token", JStr (sr_SyncToken r))].

Definition control_request (revision : Z) (producer : string) (sequence allocated retired : Z)
    (session instance token : string) : SyncRequest := {|
  sr_ProtocolRevision := revision; sr_ProducerID := producer; sr_BatchSequence := sequence;
  sr_AllocatedThrough := allocated; sr_RetiredThrough := retired; sr_SessionID := session;
  sr_LiveSignal := None; sr_MonitoringInstanceID := instance; sr_SyncToken := token;
  sr_Heartbeats := []; sr_HostSamples := []; sr_ProbeObservations := []; sr_IPQualityReports := [];
  sr_CommandResults := [] |}.

#[local] Instance fixture_codec : QueueCodec := {
  uuid_Parse s := if (String.length s =? 36)%nat then Some s else None;
  time_json t := Some (date_text t);
  json_time := text_date;
  request_json r :=
    match sr_LiveSignal r, sr_Heartbeats r, sr_HostSamples r, sr_ProbeObservations r, sr_IPQualityReports r,
          sr_CommandResults r with
    | None, [], [], [], [], [] => Some (control_json r)
    | _, _, _, _, _, _ => None
    end;
  json_request _ j :=
    match j with
    | JObj [(_, JInt revision); (_, JStr producer); (_, JInt sequence); (_, JInt allocated);
            (_, JInt retired); (_, JStr session); (_, JStr instance); (_, JStr token)] =>
        Some (control_request revision producer sequence allocated retired session instance token)
    | _ => None
    end;
}.

Lemma fixture_clean r : request_clean r.
Proof. intros j H. cbn in H. repeat case_match; simplify_eq. reflexivity. Qed.

#[local] Instance fixture_laws : QueueCodecLaws.
Proof.
  split.
  - intros t j [= <-]. split; [|by eexists]. destruct t; cbn; by rewrite ?bits_roundtrip.
  - intros r j H. destruct r. cbn in H. repeat case_match; simplify_eq/=. done.
  - intros. apply fixture_clean.
Qed.

(** * Queues *)

Definition fixture_producer : string := "6f1c2a34-0000-4000-8000-0123456789ab".

Definition fixture_write : write_io := {|
  wi_ctx_before := None; wi_create := None; wi_write := None; wi_chmod := None; wi_sync_file := None;
  wi_close := None; wi_ctx_after := None; wi_rename := None; wi_sync_dir := None |}.


Definition fixture_op (now : Z) (write : write_io) : op_io := {|
  io_ctx := None; io_ensure_dir := None; io_open_lock := None; io_chmod_lock := None; io_flock := None;
  io_unlock := None; io_close_lock := None; io_ctx_read := None; io_now := now; io_now_prune := now;
  io_uuid := Ok fixture_producer; io_write_retire := fixture_write; io_write := write |}.

Definition fixture_opts : Options := {|
  op_MaxEntries := 2; op_MaxAge := 72 * Hour; op_MaxBytes := 4096; op_SkipFsync := false |}.

Definition fixture_request : SyncRequest := control_request 0 "" 0 0 0 "session-1" "instance-1" "token".

(** A queue that does not exist yet, and the open queue it becomes. *)
Definition fixture_closed : FileStore := NewFileStore FileMissing fixture_opts.

Definition fixture_time : Z := 400 * Hour.

Definition fixture_open : FileStore :=
  (OpenSession (fixture_op fixture_time fixture_write) "session-1" fixture_closed).2.

Definition fixture_enqueue (s : FileStore) : result string * FileStore :=
  Enqueue (fixture_op fixture_time fixture_write) fixture_request s.

(** Three batches enter a queue for two. *)
Definition fixture_one : FileStore := (fixture_enqueue fixture_open).2.
Definition fixture_two : FileStore := (fixture_enqueue fixture_one).2.
Definition fixture_three : FileStore := (fixture_enqueue fixture_two).2.

Definition stored (s : FileStore) : envelope :=
  match readEnvelope s with Ok e => e | Err _ => zero_envelope end.

Example fixture_three_state :
  let e := stored fixture_three in
  (sr_BatchSequence ∘ qe_Request <$> en_Entries e, en_RetiredBatchFloor e, en_LastAllocatedBatchSeq e) =
  ([2; 3], 1, 3).
Proof. vm_compute. reflexivity. Qed.

Lemma stored_holds s e : readEnvelope s = Ok e -> file_holds s e.
Proof. apply readEnvelope_holds. Qed.

Lemma fixture_allowed now write : 0 < now -> op_allowed (fixture_op now write) (OpEnqueue fixture_request).
Proof. intros H. split; [exact H|]. intros e. apply fixture_clean. Qed.

(** * The theorems applied *)

Ltac queue_readable := apply stored_holds; vm_compute; reflexivity.

(** A prune between the two enqueues. *)
Definition fixture_pruned : FileStore := (run_op (fixture_op fixture_time fixture_write) OpPrune fixture_one).2.

Lemma fixture_between : rtc queue_step fixture_one fixture_pruned.
Proof. apply rtc_once. by exists (fixture_op fixture_time fixture_write), OpPrune. Qed.




Lemma enqueue_appends_batch_witness :
  let id := batch_identity fixture_producer 3 in
  exists k e', file_holds fixture_three e' /\
    en_Entries e' = drop k (en_Entries (stored fixture_two)) ++
      [(appended fixture_time fixture_request (stored fixture_two)).1].
Proof.
  destruct (enqueue_appends_batch (fixture_op fixture_time fixture_write) fixture_request fixture_two
    (stored fixture_two) (batch_identity fixture_producer 3) fixture_three) as (_ & _ & _ & _ & k & e' & H1 & H2 & _).
  - reflexivity.
  - reflexivity.
  - intros e. apply fixture_clean.
  - queue_readable.
  - vm_compute. reflexivity.
  - exists k, e'. split; [exact H1|exact H2].
Defined.

Lemma enqueue_succeeds_witness :
  exists s', fixture_enqueue fixture_two = (Ok (batch_identity fixture_producer 3), s').
Proof.
  apply (enqueue_succeeds (fixture_op fixture_time fixture_write) fixture_request fixture_two (stored fixture_two)).
  - reflexivity.
  - reflexivity.
  - vm_compute. reflexivity.
  - vm_compute. reflexivity.
  - vm_compute. reflexivity.
  - vm_compute. repeat constructor; eexists; reflexivity.
  - split; [|split; [|eexists; split; [vm_compute; reflexivity|]]];
      [repeat constructor; vm_compute; discriminate|vm_compute; discriminate|vm_compute; discriminate].
  - repeat constructor.
Defined.

(** The clock is past the age limit of both batches. *)
Definition fixture_late : FileStore :=
  (Prune (fixture_op (500 * Hour) fixture_write) fixture_two).2.

Lemma prune_keeps_longest_suffix_witness :
  exists k e', file_holds fixture_late e' /\ en_Entries e' = drop k (en_Entries (stored fixture_two)) /\
    en_RetiredBatchFloor e' = expected_floor e' /\
    within_limits fixture_opts (500 * Hour) (stored fixture_two) (en_Entries e') /\
    forall i, (i < k)%nat ->
      ~ within_limits fixture_opts (500 * Hour) (stored fixture_two) (drop i (en_Entries (stored fixture_two))).
Proof.
  apply (prune_keeps_longest_suffix (fixture_op (500 * Hour) fixture_write) fixture_two).
  - reflexivity.
  - queue_readable.
  - vm_compute. reflexivity.
Defined.

Lemma batch_numbers_never_reused_witness :
  batch_identity fixture_producer 1 <> batch_identity fixture_producer 2.
Proof.
  eapply (batch_numbers_never_reused (fixture_op fixture_time fixture_write) (fixture_op fixture_time fixture_write)
    fixture_request fixture_request fixture_open _ fixture_one fixture_pruned).
  - reflexivity.
  - by apply fixture_allowed.
  - by apply fixture_allowed.
  - vm_compute. reflexivity.
  - apply fixture_between.
  - vm_compute. reflexivity.
Defined.

Definition fixture_reserved : FileStore :=
  (ReserveLiveSequences (fixture_op fixture_time fixture_write) 1024 fixture_open).2.

Lemma live_blocks_disjoint_witness :
  1024 = 1 + 1023 /\ 2048 = 1025 + 1023 /\ 1024 < 1025 /\ 0 < 1 /\ 2048 <= max_int64.
Proof.
  eapply (live_blocks_disjoint (fixture_op fixture_time fixture_write) (fixture_op fixture_time fixture_write)
    1024 1024 fixture_open 1 1024 fixture_reserved fixture_reserved 1025 2048).
  - reflexivity.
  - vm_compute. reflexivity.
  - apply rtc_refl.
  - vm_compute. reflexivity.
Defined.

Lemma open_session_ready_witness :
  fs_lock fixture_open = true /\ fs_session fixture_open = "session-1" /\ fs_poison fixture_open = None /\
  exists e, file_holds fixture_open e /\ envelope_valid e /\ en_SessionID e = "session-1" /\
    (fs_file fixture_open = fs_file fixture_closed \/
     replaceable "session-1" (fs_file fixture_closed) /\
     exists p, Ok fixture_producer = Ok p /\ e = fresh_envelope "session-1" p).
Proof.
  apply (open_session_ready (fixture_op fixture_time fixture_write) "session-1" fixture_closed).
  - reflexivity.
  - intros p [= <-]. vm_compute. reflexivity.
  - vm_compute. reflexivity.
Defined.

(** A legacy queue with something in it. *)
Definition fixture_legacy : FileStore := NewFileStore (FileJson (JArr [JNull])) fixture_opts.

Lemma open_session_replaces_only_witness :
  let s' := (OpenSession (fixture_op fixture_time fixture_write) "session-1" fixture_legacy).2 in
  fs_file s' = fs_file fixture_legacy \/
  replaceable "session-1" (fs_file fixture_legacy) /\
  ((exists p, file_holds s' (fresh_envelope "session-1" p)) \/
   exists e, file_holds fixture_legacy e /\ file_holds s' (retire_all e)).
Proof.
  cbv zeta. eapply (open_session_replaces_only (fixture_op fixture_time fixture_write) "session-1" fixture_legacy).
  - intros p [= <-]. vm_compute. reflexivity.
  - vm_compute. reflexivity.
Defined.

(** The floor of an empty queue hidden behind a wrong one. *)
Lemma case_variant_key_replaces_floor_witness :
  decodeEnvelope (shadowed_document (stored fixture_open) 77 []) = Ok (stored fixture_open).
Proof.
  apply (case_variant_key_replaces_floor (stored fixture_open) [] 77).
  - assert (file_holds fixture_open (stored fixture_open)) as (d & _ & Hd) by queue_readable. exact (read_wf d _ Hd).
  - vm_compute. reflexivity.
  - unfold max_int64. lia.
Defined.
