(* ===== verification/AgentPlan.v ===== *)
(** The plan the center hands to an agent with every sync
    (src/internal/center/store/agent_plan.go over the types of
    src/internal/center/agentplan): which probes to run, how often, and whether under
    maintenance. *)
From stdpp Require Import base list sorting strings gmap.
From Stdlib Require Import ZArith Lia Permutation.
From S2P Require Import Prelude GoRuntime AgentApi IncidentTypes Settings IncidentPolicy.

Local Open Scope Z_scope.
#[local] Set Warnings "-clear-no-such-hyp".

(** * Data *)

Definition IPQualityProductRevision : Z := 1.

Record ProbeAssignment := {
  pa_TargetID : string;
  pa_TargetHost : string;
  pa_TargetBasePort : option Z;
  pa_MaintenanceContext : bool;
  pa_ProbeItemID : string;
  pa_ProbeKind : string;
  pa_FrequencyTier : string;
  pa_TimeoutSeconds : Z;
  pa_Config : string;
}.

Record PendingAction := { pc_CommandID : string; pc_ActionID : string }.

Record IPQualityPlan := {
  ip_Enabled : bool;
  ip_FrequencySeconds : Z;
  ip_TimeoutSeconds : Z;
  ip_Services : list string;
  ip_ProductRevision : Z;
  ip_MailEnabled : option bool;
  ip_CollectRequestID : string;
  ip_CollectionRevision : Z;
  ip_CollectIPVersions : list Z;
}.

Record SyncPlan := {
  sp_HostSampleFrequencyTier : string;
  sp_HostSampleMaintenanceContext : bool;
  sp_ProbeAssignments : list ProbeAssignment;
  sp_IPQualityPlan : option IPQualityPlan;
  sp_PendingAction : option PendingAction;
}.

(** [agentplan.SyncPlan{}], and the plan with no assignment of [applyBatch]; a nil and
    an empty list of assignments are the same. *)
Definition zero_plan : SyncPlan := {|
  sp_HostSampleFrequencyTier := ""; sp_HostSampleMaintenanceContext := false; sp_ProbeAssignments := [];
  sp_IPQualityPlan := None; sp_PendingAction := None |}.

Record agentPlanSettingsSnapshot := {
  as_HostSampleFrequencyTier : string;
  as_ProbeFrequencyDefaults : ProbeFrequencyDefaults;
  as_IncidentDefaults : IncidentDefaults;
  as_OverrideRules : OverrideRules;
  as_IPQuality : IPQualitySettings;
}.

(** ** Rows *)

(** The row of center_settings; a JSON column is what [decodeSettingsJSON] makes of
    it.  The IP quality settings are decoded over the defaults. *)
Record settings_row := {
  sw_host_sample_frequency_tier : string;
  sw_probe_frequency_defaults : result ProbeFrequencyDefaults;
  sw_incident_defaults : result IncidentDefaults;
  sw_override_rules : result OverrideRules;
  sw_ip_quality_settings : IPQualitySettings -> result IPQualitySettings;
}.

(** What the plan reads of a monitoring instance. *)
Record plan_instance := {
  pi_labels : list string;
  pi_lifecycle_status : string;
  pi_monitoring_status : string;
  pi_archived : bool;
}.

Record plan_target := {
  pt_target_id : string;
  pt_host : string;
  pt_base_port : option Z;
  pt_lifecycle_status : string;
  pt_run_status : string;
  pt_execution_labels : list string;
  pt_target_type : string;
  pt_labels : list string;
}.

Record plan_probe := {
  pp_probe_item_id : string;
  pp_target_id : string;
  pp_probe_kind : string;
  pp_frequency_tier : string;
  pp_timeout_seconds : Z;
  pp_config : string;
  pp_enabled : bool;
}.

(** * Settings of the plan *)

Definition legacyHostSampleFrequencyTier (labels : list string) : string := FrequencyTier5s.

Definition decode_failed {A} (what : string) (column : result A) : result A :=
  match column with Ok a => Ok a | Err err => Err (ErrWrap what [] [err]) end.

Definition default_snapshot : agentPlanSettingsSnapshot := {|
  as_HostSampleFrequencyTier := cs_HostSampleFrequencyTier Default;
  as_ProbeFrequencyDefaults := cs_ProbeFrequencyDefaults Default;
  as_IncidentDefaults := cs_IncidentDefaults Default;
  as_OverrideRules := cs_OverrideRules Default;
  as_IPQuality := cs_IPQuality Default |}.

(** The settings that are validated; the sections the plan does not use are zero or
    the defaults. *)
Definition plan_settings (s : agentPlanSettingsSnapshot) : CenterSettings := {|
  cs_Telegram := {| tg_BotToken := ""; tg_ChatID := ""; tg_RuntimeManaged := false |};
  cs_FeishuEnabled := false; cs_FeishuWebhookURL := "";
  cs_HostSampleFrequencyTier := as_HostSampleFrequencyTier s;
  cs_ProbeFrequencyDefaults := as_ProbeFrequencyDefaults s;
  cs_IncidentDefaults := as_IncidentDefaults s;
  cs_IncidentSweepRuntimeManaged := false;
  cs_Effective := {| em_Persisted := false; em_TelegramSource := ConfigSourceUnset;
                     em_IncidentSweepSource := ConfigSourceUnset |};
  cs_OverrideRules := as_OverrideRules s;
  cs_RetentionPolicy := cs_RetentionPolicy Default;
  cs_SubscriptionCost := cs_SubscriptionCost Default;
  cs_IPQuality := as_IPQuality s |}.

Definition resolveAgentPlanSettings (row : option settings_row) (labels : list string)
    : result agentPlanSettingsSnapshot :=
  match row with
  | None => Ok {| as_HostSampleFrequencyTier := legacyHostSampleFrequencyTier labels;
                  as_ProbeFrequencyDefaults := as_ProbeFrequencyDefaults default_snapshot;
                  as_IncidentDefaults := as_IncidentDefaults default_snapshot;
                  as_OverrideRules := as_OverrideRules default_snapshot;
                  as_IPQuality := as_IPQuality default_snapshot |}
  | Some row =>
      let tier := if sw_host_sample_frequency_tier row =s "" then "5s"
                  else sw_host_sample_frequency_tier row in
      probe ← decode_failed "decode probe frequency defaults: %w" (sw_probe_frequency_defaults row);
      incident ← decode_failed "decode incident defaults: %w" (sw_incident_defaults row);
      rules ← decode_failed "decode override rules: %w" (sw_override_rules row);
      ip_quality ← decode_failed "decode ip quality settings: %w"
                     (sw_ip_quality_settings row (as_IPQuality default_snapshot));
      validated ← Validate (plan_settings {| as_HostSampleFrequencyTier := tier;
                     as_ProbeFrequencyDefaults := probe; as_IncidentDefaults := incident;
                     as_OverrideRules := rules; as_IPQuality := ip_quality |});
      Ok {| as_HostSampleFrequencyTier := cs_HostSampleFrequencyTier validated;
            as_ProbeFrequencyDefaults := cs_ProbeFrequencyDefaults validated;
            as_IncidentDefaults := cs_IncidentDefaults validated;
            as_OverrideRules := cs_OverrideRules validated;
            as_IPQuality := cs_IPQuality validated |}
  end.

Definition ipQualityPlanFromSettings (settings : IPQualitySettings) : IPQualityPlan := {|
  ip_Enabled := iq_Enabled settings; ip_FrequencySeconds := iq_FrequencySeconds settings;
  ip_TimeoutSeconds := iq_TimeoutSeconds settings; ip_Services := default [] (iq_Services settings);
  ip_ProductRevision := IPQualityProductRevision; ip_MailEnabled := Some (iq_MailEnabled settings);
  ip_CollectRequestID := ""; ip_CollectionRevision := 0; ip_CollectIPVersions := [] |}.

(** * Frequency of a probe *)

Definition probeFrequencyTierOverride (probeKind : string) (override : option ProbeFrequencyOverride)
    : option string :=
  match override with
  | None => None
  | Some o =>
      if probeKind =s ProbeKindTCP then po_TCP o
      else if probeKind =s ProbeKindHTTP then po_HTTP o
      else if probeKind =s ProbeKindTLS then po_TLS o
      else None
  end.

(** The loop over the rules of target types stops at the first that matches. *)
Fixpoint type_tier (tier probeKind targetType : string) (rules : list OverrideRule) : string :=
  match rules with
  | [] => tier
  | rule :: rest =>
      if or_Selector rule <>s targetType then type_tier tier probeKind targetType rest
      else default tier (probeFrequencyTierOverride probeKind (so_ProbeFrequencyDefaults (or_Overrides rule)))
  end.

Fixpoint label_tier (tier probeKind : string) (labels : list string) (rules : list OverrideRule) : string :=
  match rules with
  | [] => tier
  | rule :: rest =>
      if negb (member (or_Selector rule) labels) then label_tier tier probeKind labels rest
      else match probeFrequencyTierOverride probeKind (so_ProbeFrequencyDefaults (or_Overrides rule)) with
           | Some overrideTier => overrideTier
           | None => label_tier tier probeKind labels rest
           end
  end.

Definition resolveProbeAssignmentFrequencyTier (base probeKind targetType : string) (targetLabels : list string)
    (rules : OverrideRules) : string :=
  label_tier (type_tier base probeKind targetType (ov_TargetTypes rules)) probeKind targetLabels
    (ov_TargetLabels rules).

(** * The plan *)

(** The where clause of the assignments query. *)
Definition assignable (labels : list string) (tp : plan_target * plan_probe) : bool :=
  let '(t, p) := tp in
  (pp_target_id p =s pt_target_id t) && pp_enabled p &&
  (pt_lifecycle_status t =s TargetLifecycleActive) &&
  member (pt_run_status t) [RunStatusEnabled; RunStatusMaintenance] &&
  existsb (fun l => member l labels) (pt_execution_labels t).

(** [order by t.target_id, p.probe_item_id]; identifiers compare bytewise. *)
Definition assignment_less (a b : plan_target * plan_probe) : bool :=
  if pt_target_id a.1 <>s pt_target_id b.1 then string_less (pt_target_id a.1) (pt_target_id b.1)
  else string_less (pp_probe_item_id a.2) (pp_probe_item_id b.2).

Definition assigned_probes (targets : list plan_target) (probes : list plan_probe) (labels : list string)
    : list (plan_target * plan_probe) :=
  sort_stable assignment_less
    (List.filter (assignable labels) (List.list_prod targets probes)).

Definition assignment_of (monitoringStatus : string) (rules : OverrideRules) (tp : plan_target * plan_probe)
    : ProbeAssignment :=
  let '(t, p) := tp in
  {| pa_TargetID := pt_target_id t; pa_TargetHost := pt_host t; pa_TargetBasePort := pt_base_port t;
     pa_MaintenanceContext := (monitoringStatus =s MonitoringMaintenance) ||
                              (pt_run_status t =s RunStatusMaintenance);
     pa_ProbeItemID := pp_probe_item_id p; pa_ProbeKind := pp_probe_kind p;
     pa_FrequencyTier := resolveProbeAssignmentFrequencyTier (pp_frequency_tier p) (pp_probe_kind p)
                           (pt_target_type t) (pt_labels t) rules;
     pa_TimeoutSeconds := pp_timeout_seconds p; pa_Config := pp_config p |}.

Definition plan_suppressed (i : plan_instance) : bool :=
  pi_archived i || (pi_lifecycle_status i =s LifecycleRetired) || (pi_monitoring_status i =s MonitoringPaused).

(** [fault_row] and [fault_query] are what the two queries answer beside rows. *)
Definition buildSyncPlan (fault_row fault_query : option error) (instance : option plan_instance)
    (row : option settings_row) (targets : list plan_target) (probes : list plan_probe)
    (monitoringInstanceID : string) : result SyncPlan :=
  match fault_row, instance with
  | Some err, _ => Err (ErrWrap "query labels for monitoring instance %q: %w" [monitoringInstanceID] [err])
  | None, None => Err (ErrSentinel "monitoring instance not found")
  | None, Some i =>
      match resolveAgentPlanSettings row (pi_labels i) with
      | Err err =>
          Err (ErrWrap "resolve sync-plan settings for monitoring instance %q: %w" [monitoringInstanceID] [err])
      | Ok settings =>
          if plan_suppressed i then Ok zero_plan
          else
            let plan assignments := {|
              sp_HostSampleFrequencyTier :=
                ResolveHostSampleFrequencyTier (as_HostSampleFrequencyTier settings) (pi_labels i)
                  (as_OverrideRules settings);
              sp_HostSampleMaintenanceContext := pi_monitoring_status i =s MonitoringMaintenance;
              sp_ProbeAssignments := assignments;
              sp_IPQualityPlan := Some (ipQualityPlanFromSettings (as_IPQuality settings));
              sp_PendingAction := None |} in
            match pi_labels i, fault_query with
            | [], _ => Ok (plan [])
            | _, Some err =>
                Err (ErrWrap "query sync-plan assignments for monitoring instance %q: %w"
                       [monitoringInstanceID] [err])
            | _, None =>
                Ok (plan (assignment_of (pi_monitoring_status i) (as_OverrideRules settings) <$>
                            assigned_probes targets probes (pi_labels i)))
            end
      end
  end.

(** * What a plan says *)

Lemma type_tier_known tier kind targetType rules :
  IsValidFrequencyTier tier = true ->
  Forall (fun r => forall o, so_ProbeFrequencyDefaults (or_Overrides r) = Some o -> probe_override_ok o) rules ->
  IsValidFrequencyTier (type_tier tier kind targetType rules) = true.
Proof.
  intros Ht. induction 1 as [|r rules Hr _ IH]; cbn [type_tier]; [done|]. destruct (_ <>s _); [done|].
  destruct (probeFrequencyTierOverride _ _) as [t|] eqn:E; [|done]. cbn.
  unfold probeFrequencyTierOverride in E. destruct (so_ProbeFrequencyDefaults _) as [o|]; [|done].
  apply (Hr o eq_refl). repeat case_match; auto; done.
Qed.

Lemma label_tier_known tier kind labels rules :
  IsValidFrequencyTier tier = true ->
  Forall (fun r => forall o, so_ProbeFrequencyDefaults (or_Overrides r) = Some o -> probe_override_ok o) rules ->
  IsValidFrequencyTier (label_tier tier kind labels rules) = true.
Proof.
  intros Ht. induction 1 as [|r rules Hr _ IH]; cbn [label_tier]; [done|]. destruct (negb _); [done|].
  destruct (probeFrequencyTierOverride _ _) as [t|] eqn:E; [|done].
  unfold probeFrequencyTierOverride in E. destruct (so_ProbeFrequencyDefaults _) as [o|]; [|done].
  apply (Hr o eq_refl). repeat case_match; auto; done.
Qed.

(** The settings of a plan hold known tiers only, whatever the database holds. *)
Definition snapshot_ok (s : agentPlanSettingsSnapshot) : Prop :=
  IsValidFrequencyTier (as_HostSampleFrequencyTier s) = true /\
  Forall (fun r => forall tier, so_HostSampleFrequencyTier (or_Overrides r) = Some tier ->
            IsValidFrequencyTier tier = true) (ov_MonitoringInstanceLabels (as_OverrideRules s)) /\
  Forall (fun r => forall o, so_ProbeFrequencyDefaults (or_Overrides r) = Some o -> probe_override_ok o)
    (ov_TargetTypes (as_OverrideRules s) ++ ov_TargetLabels (as_OverrideRules s)).

Lemma resolved_snapshot_ok row labels s : resolveAgentPlanSettings row labels = Ok s -> snapshot_ok s.
Proof.
  unfold resolveAgentPlanSettings. destruct row as [row|].
  - intros H. cbv zeta in H. repeat (apply result_bind_ok in H as (? & ?V & H)). injection H as <-.
    destruct (Validate_tiers _ _ V3) as [H1 H2]. split; [done|]. split; [done|]. by apply Validate_probe_tiers in V3.
  - intros [= <-]. repeat split; constructor.
Qed.

Lemma assigned_probes_spec targets probes labels t p :
  (t, p) ∈ assigned_probes targets probes labels <->
  t ∈ targets /\ p ∈ probes /\ assignable labels (t, p) = true.
Proof.
  unfold assigned_probes. rewrite sort_stable_elem, list_elem_of_In, filter_In, in_prod_iff, <- !list_elem_of_In.
  tauto.
Qed.

(** When a plan is built for an instance that is neither archived, retired nor paused. *)
Lemma buildSyncPlan_ok f1 f2 i row targets probes id plan :
  buildSyncPlan f1 f2 (Some i) row targets probes id = Ok plan -> plan_suppressed i = false ->
  exists s, resolveAgentPlanSettings row (pi_labels i) = Ok s /\ snapshot_ok s /\
    sp_HostSampleFrequencyTier plan =
      ResolveHostSampleFrequencyTier (as_HostSampleFrequencyTier s) (pi_labels i) (as_OverrideRules s) /\
    sp_ProbeAssignments plan = assignment_of (pi_monitoring_status i) (as_OverrideRules s) <$>
      assigned_probes targets probes (pi_labels i).
Proof.
  intros H Hs. unfold buildSyncPlan in H. destruct f1; [done|].
  destruct (resolveAgentPlanSettings _ _) as [s|] eqn:E; [|done]. rewrite Hs in H.
  exists s. split; [done|]. split; [by eapply resolved_snapshot_ok|].
  destruct (pi_labels i) as [|l labels] eqn:El.
  - injection H as <-. split; [done|]. cbn [sp_ProbeAssignments].
    destruct (assigned_probes targets probes []) as [|[t p] rest] eqn:Ea; [done|exfalso].
    assert ((t, p) ∈ assigned_probes targets probes []) as (_ & _ & Hin)%assigned_probes_spec
      by (rewrite Ea; constructor).
    unfold assignable in Hin. rewrite !andb_true_iff in Hin. destruct Hin as [_ Hin].
    apply existsb_exists in Hin as (x & _ & Hx). done.
  - destruct f2; [done|]. injection H as <-. done.
Qed.

(** The plan of an instance that collects holds exactly the enabled probes of the active targets that run and share a label with
    the instance, each with the tier of the override rules; every tier of the plan is
    a known one when the probes' own tiers are. *)
Theorem plan_assigns_exactly f1 f2 i row targets probes id plan
    (Hplan : buildSyncPlan f1 f2 (Some i) row targets probes id = Ok plan)
    (Hactive : plan_suppressed i = false) :
  (exists s, resolveAgentPlanSettings row (pi_labels i) = Ok s /\ forall a, a ∈ sp_ProbeAssignments plan <->
     exists t p, t ∈ targets /\ p ∈ probes /\ pp_target_id p = pt_target_id t /\ pp_enabled p = true /\
       pt_lifecycle_status t = TargetLifecycleActive /\
       (pt_run_status t = RunStatusEnabled \/ pt_run_status t = RunStatusMaintenance) /\
       (exists l, l ∈ pt_execution_labels t /\ l ∈ pi_labels i) /\
       a = assignment_of (pi_monitoring_status i) (as_OverrideRules s) (t, p)) /\
  IsValidFrequencyTier (sp_HostSampleFrequencyTier plan) = true /\
  (Forall (fun p => IsValidFrequencyTier (pp_frequency_tier p) = true) probes ->
   Forall (fun a => IsValidFrequencyTier (pa_FrequencyTier a) = true) (sp_ProbeAssignments plan)).
Proof.
  destruct (buildSyncPlan_ok _ _ _ _ _ _ _ _ Hplan Hactive) as (s & Hset & (Ht & Hr & Hp) & Etier & Eas).
  split; [|split].
  - exists s. split; [done|]. intros a. rewrite Eas, list_elem_of_fmap. split.
    + intros ([t p] & -> & (H1 & H2 & H3)%assigned_probes_spec). exists t, p.
      unfold assignable in H3. rewrite !andb_true_iff in H3. destruct H3 as ((((E1 & E2) & E3) & E4) & E5).
      apply existsb_exists in E5 as (l & Hl & Hm). breflect. apply member_spec in E4, Hm.
      repeat split; try done; [set_solver|]. exists l. split; [by apply list_elem_of_In|done].
    + intros (t & p & H1 & H2 & E1 & E2 & E3 & E4 & (l & Hl & Hm) & ->). exists (t, p). split; [done|].
      apply assigned_probes_spec. split; [done|]. split; [done|]. unfold assignable.
      rewrite E1, E2, E3, !String.eqb_refl. cbn [andb]. apply andb_true_iff. split.
      * apply member_spec. set_solver.
      * apply existsb_exists. exists l. split; [by apply list_elem_of_In|]. by apply member_spec.
  - rewrite Etier. by apply resolve_tier_known.
  - intros Hb. rewrite Eas. apply Forall_fmap, Forall_forall. intros [t p] (_ & H2 & _)%assigned_probes_spec.
    apply Forall_app in Hp as [Hp1 Hp2]. rewrite Forall_forall in Hb. cbn.
    apply label_tier_known; [|done]. apply type_tier_known; [|done]. by apply Hb.
Qed.

(** A probe of a service that an instance labelled edge runs. *)
Definition fixture_instance : plan_instance := {|
  pi_labels := ["edge"]; pi_lifecycle_status := LifecycleInUse; pi_monitoring_status := MonitoringEnabled;
  pi_archived := false |}.

Definition fixture_target : plan_target := {|
  pt_target_id := "t1"; pt_host := "example.org"; pt_base_port := Some 443;
  pt_lifecycle_status := TargetLifecycleActive; pt_run_status := RunStatusMaintenance;
  pt_execution_labels := ["core"; "edge"]; pt_target_type := "service"; pt_labels := [] |}.

Definition fixture_probe_item : plan_probe := {|
  pp_probe_item_id := "p1"; pp_target_id := "t1"; pp_probe_kind := ProbeKindTLS;
  pp_frequency_tier := FrequencyTier6h; pp_timeout_seconds := 5; pp_config := "{}"; pp_enabled := true |}.

Definition fixture_plan : result SyncPlan :=
  buildSyncPlan None None (Some fixture_instance) None [fixture_target] [fixture_probe_item] "mi1".

Example fixture_plan_probes :
  match fixture_plan with
  | Ok plan => (fun a => (pa_ProbeItemID a, pa_MaintenanceContext a)) <$> sp_ProbeAssignments plan
  | Err _ => []
  end = [("p1", true)].
Proof. vm_compute. reflexivity. Qed.

Lemma plan_assigns_exactly_witness :
  match fixture_plan with
  | Ok plan => Forall (fun a => IsValidFrequencyTier (pa_FrequencyTier a) = true) (sp_ProbeAssignments plan)
  | Err _ => False
  end.
Proof.
  destruct fixture_plan as [plan|err] eqn:E; [|vm_compute in E; discriminate E].
  apply (plan_assigns_exactly None None fixture_instance None [fixture_target] [fixture_probe_item] "mi1" plan E).
  - reflexivity.
  - repeat constructor.
Defined.
