(* ===== verification/ObservationStore.v ===== *)
(** Observations on their way into the database: the validation of a probe
    observation (src/internal/center/observations/validate.go), the rows a batch
    adds and the projections it advances (src/internal/center/store/observations.go,
    probe_metadata.go).  [HostSampleWrite] and [ProbeObservationWrite] have the fields
    of the stored facts [HostSample] and [ProbeObservation]; the probe kind of an
    observation is not stored but read again from its probe item. *)
From stdpp Require Import base list sorting strings gmap.
From Stdlib Require Import ZArith Lia Permutation.
From S2P Require Import Prelude GoRuntime AgentApi Settings.

Local Open Scope Z_scope.
#[local] Set Warnings "-clear-no-such-hyp".

(** * Validation *)

Definition InvalidProbeObservationName : string := "invalid probe observation".

Definition invalid_observation (format : string) (args : list string) : error :=
  ErrWrap ("%w: " +:+ format) args [ErrSentinel InvalidProbeObservationName].

Definition allowedProbeErrorCodes : list string :=
  [ProbeErrorTimeout; ProbeErrorConnect; ProbeErrorHTTPStatus; ProbeErrorTLSHandshake].

Definition check_result_kind (o : ProbeObservation) : result unit :=
  if po_ResultKind o =s ProbeResultSuccess then
    reject ((po_ErrorCode o <>s "") || (strings_TrimSpace (po_ErrorSummary o) <>s ""))
      (invalid_observation "success observation must not carry failure fields" [])
  else if po_ResultKind o =s ProbeResultFailure then
    _ ← reject (po_ErrorCode o =s "") (invalid_observation "failure observation must carry error_code" []);
    reject (strings_TrimSpace (po_ErrorSummary o) =s "")
      (invalid_observation "failure observation must carry error_summary" [])
  else Err (invalid_observation "unsupported result_kind %q" [po_ResultKind o]).

Definition ValidateProbeObservation (o : ProbeObservation) : result unit :=
  _ ← reject (negb (IsValidProbeKind (po_ProbeKind o)))
        (invalid_observation "unsupported probe_kind %q" [po_ProbeKind o]);
  _ ← check_result_kind o;
  _ ← reject ((po_ErrorCode o <>s "") && negb (member (po_ErrorCode o) allowedProbeErrorCodes))
        (invalid_observation "unsupported error_code %q" [po_ErrorCode o]);
  _ ← reject ((po_ProbeKind o <>s ProbeKindHTTP) && isSome (po_HTTPStatus o))
        (invalid_observation "probe_kind %q must not carry http_status" [po_ProbeKind o]);
  reject ((po_ProbeKind o <>s ProbeKindTLS) && isSome (po_TLSExpiryDays o))
    (invalid_observation "probe_kind %q must not carry tls_expiry_days" [po_ProbeKind o]).

(** * Tables *)

Record probe_row := { pr_target_id : string; pr_probe_kind : string; pr_last_live_observed_at : option Z }.

Record target_row := { tr_last_success_at : option Z; tr_last_failure_at : option Z }.

Record observation_db := {
  od_probe_items : gmap string probe_row;
  od_targets : gmap string target_row;
  od_host_samples : list HostSample;
  od_probe_observations : list ProbeObservation;
}.

(** The existing probe item with the target and the kind the observation names. *)
Definition check_metadata (f : faults) (items : gmap string probe_row) (n : nat) (o : ProbeObservation)
    : result unit :=
  _ ← statement f "probe metadata" n
        (fun err => ErrWrap "lookup probe metadata for %q: %w" [po_ProbeItemID o]
                      [ErrWrap "query probe metadata %q: %w" [po_ProbeItemID o] [err]]);
  match items !! po_ProbeItemID o with
  | None => Err (invalid_observation "probe_item_id %q not found" [po_ProbeItemID o])
  | Some row =>
      _ ← reject (pr_target_id row <>s po_TargetID o)
            (invalid_observation "probe_item_id %q belongs to target_id %q, got %q"
               [po_ProbeItemID o; pr_target_id row; po_TargetID o]);
      reject (pr_probe_kind row <>s po_ProbeKind o)
        (invalid_observation "probe_item_id %q expects probe_kind %q, got %q"
           [po_ProbeItemID o; pr_probe_kind row; po_ProbeKind o])
  end.

Definition validateProbeObservations (f : faults) (items : gmap string probe_row)
    (writes : list ProbeObservation) : result unit :=
  fold_result (fun n o _ => _ ← ValidateProbeObservation o; check_metadata f items n o) 0 writes tt.

(** * Rows *)

Definition host_sample_with (receivedAt : Z) (valid : option bool) (s : HostSample) : HostSample := {|
  hs_MonitoringInstanceID := hs_MonitoringInstanceID s; hs_ObservedAt := hs_ObservedAt s;
  hs_ReceivedAt := receivedAt; hs_AgentVersion := hs_AgentVersion s; hs_Fingerprint := hs_Fingerprint s;
  hs_CPUUsagePct := hs_CPUUsagePct s; hs_CPURatesValid := valid; hs_Load1 := hs_Load1 s;
  hs_Load5 := hs_Load5 s; hs_Load15 := hs_Load15 s; hs_MemUsedPct := hs_MemUsedPct s;
  hs_MemAvailableBytes := hs_MemAvailableBytes s; hs_MemTotalBytes := hs_MemTotalBytes s;
  hs_SwapUsedPct := hs_SwapUsedPct s; hs_DiskUsedPct := hs_DiskUsedPct s;
  hs_DiskTotalBytes := hs_DiskTotalBytes s; hs_InodeUsedPct := hs_InodeUsedPct s;
  hs_NetInBytesPerSec := hs_NetInBytesPerSec s; hs_NetOutBytesPerSec := hs_NetOutBytesPerSec s;
  hs_NetworkRatesValid := hs_NetworkRatesValid s; hs_CPUIOWaitPct := hs_CPUIOWaitPct s;
  hs_CPUStealPct := hs_CPUStealPct s; hs_DiskReadBytesPerSec := hs_DiskReadBytesPerSec s;
  hs_DiskWriteBytesPerSec := hs_DiskWriteBytesPerSec s; hs_DiskBusyPct := hs_DiskBusyPct s;
  hs_UptimeSeconds := hs_UptimeSeconds s; hs_MaintenanceContext := hs_MaintenanceContext s;
  hs_IsBackfilled := hs_IsBackfilled s; hs_SyncBatchID := hs_SyncBatchID s; hs_Containers := hs_Containers s |}.

Definition observation_with_received (receivedAt : Z) (o : ProbeObservation) : ProbeObservation := {|
  po_MonitoringInstanceID := po_MonitoringInstanceID o; po_TargetID := po_TargetID o;
  po_ProbeItemID := po_ProbeItemID o; po_ProbeKind := po_ProbeKind o; po_ObservedAt := po_ObservedAt o;
  po_ReceivedAt := receivedAt; po_AgentVersion := po_AgentVersion o; po_Fingerprint := po_Fingerprint o;
  po_ResultKind := po_ResultKind o; po_LatencyMS := po_LatencyMS o; po_HTTPStatus := po_HTTPStatus o;
  po_TLSExpiryDays := po_TLSExpiryDays o; po_ErrorCode := po_ErrorCode o;
  po_ErrorSummary := po_ErrorSummary o; po_MaintenanceContext := po_MaintenanceContext o;
  po_IsBackfilled := po_IsBackfilled o; po_SyncBatchID := po_SyncBatchID o |}.

Definition normalizeCPURatesValidMarker (valid : option bool) (usage iowait steal : float64) : option bool :=
  if CPURatesUsable valid usage iowait steal then valid else Some false.

(** The row of a host sample: its marker says whether the CPU rates can be used. *)
Definition host_sample_row (s : HostSample) : HostSample :=
  host_sample_with (hs_ReceivedAt s)
    (normalizeCPURatesValidMarker (hs_CPURatesValid s) (hs_CPUUsagePct s) (hs_CPUIOWaitPct s) (hs_CPUStealPct s)) s.

(** * Projections *)

(** [greatest(coalesce(old, new), new)]. *)
Definition greatest (old : option Z) (new : Z) : Z := Z.max (default new old) new.

Definition live_observation (o : ProbeObservation) : bool :=
  negb (po_MaintenanceContext o || po_IsBackfilled o).

Record targetObservationProjection := { tp_lastSuccessAt : option Z; tp_lastFailureAt : option Z }.

(** [!has || observed.After(last)]. *)
Definition later (last : option Z) (observedAt : Z) : option Z :=
  match last with
  | None => Some observedAt
  | Some t => if Time_After observedAt t then Some observedAt else Some t
  end.

Definition project_target_step (projections : gmap string targetObservationProjection) (o : ProbeObservation)
    : gmap string targetObservationProjection :=
  if negb (live_observation o) then projections
  else
    let p := default {| tp_lastSuccessAt := None; tp_lastFailureAt := None |} (projections !! po_TargetID o) in
    if po_ResultKind o =s ProbeResultSuccess then
      <[po_TargetID o := {| tp_lastSuccessAt := later (tp_lastSuccessAt p) (po_ObservedAt o);
                            tp_lastFailureAt := tp_lastFailureAt p |}]> projections
    else if po_ResultKind o =s ProbeResultFailure then
      <[po_TargetID o := {| tp_lastSuccessAt := tp_lastSuccessAt p;
                            tp_lastFailureAt := later (tp_lastFailureAt p) (po_ObservedAt o) |}]> projections
    else projections.

Definition advance (old new : option Z) : option Z :=
  match new with None => old | Some t => Some (greatest old t) end.

(** A projected instant moves a column only forward. *)
Definition moves (old new : option Z) : bool :=
  match new with
  | None => false
  | Some t => match old with None => true | Some u => u <? t end
  end.

Definition project_target_sql (targetID : string) (p : targetObservationProjection)
    (targets : gmap string target_row) : gmap string target_row :=
  match targets !! targetID with
  | None => targets
  | Some row =>
      if moves (tr_last_success_at row) (tp_lastSuccessAt p) || moves (tr_last_failure_at row) (tp_lastFailureAt p)
      then <[targetID := {| tr_last_success_at := advance (tr_last_success_at row) (tp_lastSuccessAt p);
                            tr_last_failure_at := advance (tr_last_failure_at row) (tp_lastFailureAt p) |}]> targets
      else targets
  end.

Definition projectTargetProbeObservations (f : faults) (writes : list ProbeObservation)
    (targets : gmap string target_row) : result (gmap string target_row) :=
  let projections := fold_left project_target_step writes ∅ in
  fold_result (fun n targetID targets =>
      _ ← statement f "project target" n
            (fun err => ErrWrap "project target observations for %q: %w" [targetID] [err]);
      Ok (match projections !! targetID with
          | Some p => project_target_sql targetID p targets
          | None => targets
          end))
    0 (sort_Strings (map_to_list projections).*1) targets.

(** An observation counts at its own time, but not later than its receipt. *)
Definition effective_at (o : ProbeObservation) : Z :=
  if Time_Before (po_ReceivedAt o) (po_ObservedAt o) then po_ReceivedAt o else po_ObservedAt o.

Definition project_live_step (projections : gmap (string * string) Z) (o : ProbeObservation)
    : gmap (string * string) Z :=
  if negb (live_observation o) then projections
  else if (po_ResultKind o =s ProbeResultSuccess) || (po_ResultKind o =s ProbeResultFailure) then
    let key := (po_TargetID o, po_ProbeItemID o) in
    match projections !! key with
    | Some previous => if Time_After (effective_at o) previous then <[key := effective_at o]> projections
                       else projections
    | None => <[key := effective_at o]> projections
    end
  else projections.

Definition project_live_sql (key : string * string) (at_ : Z) (items : gmap string probe_row)
    : gmap string probe_row :=
  match items !! key.2 with
  | None => items
  | Some row =>
      if (pr_target_id row =s key.1) && moves (pr_last_live_observed_at row) (Some at_)
      then <[key.2 := {| pr_target_id := pr_target_id row; pr_probe_kind := pr_probe_kind row;
                         pr_last_live_observed_at := Some (greatest (pr_last_live_observed_at row) at_) |}]> items
      else items
  end.

Definition live_key_less (a b : string * string) : bool :=
  if a.1 <>s b.1 then string_less a.1 b.1 else string_less a.2 b.2.

Definition projectProbeLiveObservations (f : faults) (writes : list ProbeObservation)
    (items : gmap string probe_row) : result (gmap string probe_row) :=
  let projections := fold_left project_live_step writes ∅ in
  fold_result (fun n key items =>
      _ ← statement f "project probe" n
            (fun err => ErrWrap "project probe live observation for target %q probe %q: %w" [key.1; key.2] [err]);
      Ok (match projections !! key with Some at_ => project_live_sql key at_ items | None => items end))
    0 (sort_stable live_key_less (map_to_list projections).*1) items.

(** * A batch *)

Definition recordObservationBatch (f : faults) (samples : list HostSample) (writes : list ProbeObservation)
    (db : observation_db) : result observation_db :=
  host_samples ← fold_result (fun n s rows =>
      _ ← statement f "insert host sample" n (fun err => ErrWrap "insert host sample: %w" [] [err]);
      Ok (rows ++ [host_sample_row s])) 0 samples (od_host_samples db);
  observations ← fold_result (fun n o rows =>
      _ ← statement f "insert probe observation" n (fun err => ErrWrap "insert probe observation: %w" [] [err]);
      Ok (rows ++ [o])) 0 writes (od_probe_observations db);
  targets ← projectTargetProbeObservations f writes (od_targets db);
  items ← projectProbeLiveObservations f writes (od_probe_items db);
  Ok {| od_probe_items := items; od_targets := targets; od_host_samples := host_samples;
        od_probe_observations := observations |}.

(** * What a batch leaves behind *)

(** The latest of an instant already stored and of new ones. *)
Definition latest (old : option Z) (l : list Z) : option Z := fold_left (fun t u => Some (greatest t u)) l old.

(** When the live observations of a kind were made that satisfy a test. *)
Definition live_times (test : ProbeObservation -> bool) (at_ : ProbeObservation -> Z) (l : list ProbeObservation)
    : list Z :=
  at_ <$> List.filter (fun o => live_observation o && test o) l.

Definition of_target (targetID kind : string) (o : ProbeObservation) : bool :=
  (po_TargetID o =s targetID) && (po_ResultKind o =s kind).

Definition of_probe (targetID probeItemID : string) (o : ProbeObservation) : bool :=
  (po_TargetID o =s targetID) && (po_ProbeItemID o =s probeItemID) &&
  ((po_ResultKind o =s ProbeResultSuccess) || (po_ResultKind o =s ProbeResultFailure)).

Lemma later_greatest last t : later last t = Some (greatest last t).
Proof.
  unfold later, greatest, Time_After. destruct last as [u|]; cbn; [|f_equal; lia].
  destruct (Z.ltb_spec u t); f_equal; lia.
Qed.

Lemma latest_latest old l t : latest old (l ++ [t]) = Some (greatest (latest old l) t).
Proof. unfold latest. by rewrite fold_left_app. Qed.

Lemma advance_latest old l : advance old (latest None l) = latest old l.
Proof.
  induction l as [|t l IH] using rev_ind; [done|]. rewrite !latest_latest, <- IH. cbn. f_equal.
  unfold greatest. destruct (latest None l), old; cbn; unfold greatest; cbn; lia.
Qed.

Lemma live_times_snoc test at_ l o :
  live_times test at_ (l ++ [o]) = live_times test at_ l ++ (if live_observation o && test o then [at_ o] else []).
Proof.
  unfold live_times. rewrite List.filter_app, fmap_app. f_equal. cbn. by destruct (_ && _).
Qed.

Lemma target_projections writes targetID :
  let p := fold_left project_target_step writes ∅ !! targetID in
  p ≫= tp_lastSuccessAt = latest None (live_times (of_target targetID ProbeResultSuccess) po_ObservedAt writes) /\
  p ≫= tp_lastFailureAt = latest None (live_times (of_target targetID ProbeResultFailure) po_ObservedAt writes).
Proof.
  cbv zeta. induction writes as [|o writes [IH1 IH2]] using rev_ind; [cbn [fold_left]; by rewrite lookup_empty|].
  rewrite fold_left_app, !live_times_snoc. cbn [fold_left]. set (m := fold_left _ writes ∅) in *.
  unfold project_target_step, of_target in *. destruct (live_observation o); cbn [negb andb]; [|by rewrite !app_nil_r].
  destruct (String.eqb_spec (po_TargetID o) targetID) as [<-|Hne].
  - assert (forall g : targetObservationProjection -> option Z,
      g {| tp_lastSuccessAt := None; tp_lastFailureAt := None |} = None ->
      m !! po_TargetID o ≫= g =
      g (default {| tp_lastSuccessAt := None; tp_lastFailureAt := None |} (m !! po_TargetID o))) as Hd
      by (intros g Hg; destruct (m !! po_TargetID o); [done|cbn; by rewrite Hg]).
    rewrite Hd in IH1 by done. rewrite Hd in IH2 by done. cbn [andb].
    destruct (String.eqb_spec (po_ResultKind o) ProbeResultSuccess) as [E|E].
    + rewrite (proj2 (String.eqb_neq (po_ResultKind o) ProbeResultFailure)) by (by rewrite E).
      rewrite lookup_insert_eq, app_nil_r, latest_latest, <- IH1, <- later_greatest, <- IH2. done.
    + destruct (String.eqb_spec (po_ResultKind o) ProbeResultFailure).
      * rewrite lookup_insert_eq, app_nil_r, latest_latest, <- IH2, <- later_greatest, <- IH1. done.
      * rewrite !app_nil_r, Hd, Hd by done. done.
  - cbn [andb]. rewrite !app_nil_r. repeat case_match; rewrite ?lookup_insert_ne by done; done.
Qed.

Lemma moves_advance old new : moves old new = false -> advance old new = old.
Proof.
  unfold moves, advance, greatest. destruct new as [t|]; [|done]. destruct old as [u|]; [|done].
  intros. breflect. cbn. f_equal. lia.
Qed.

Lemma project_target_sql_row targetID p targets t :
  project_target_sql targetID p targets !! t =
  if decide (t = targetID)
  then (fun row => {| tr_last_success_at := advance (tr_last_success_at row) (tp_lastSuccessAt p);
                      tr_last_failure_at := advance (tr_last_failure_at row) (tp_lastFailureAt p) |}) <$> targets !! t
  else targets !! t.
Proof.
  unfold project_target_sql. destruct (decide (t = targetID)) as [->|Hne].
  - destruct (targets !! targetID) as [row|] eqn:E; cbn; [|by rewrite E].
    destruct (_ || _) eqn:Em; [by rewrite lookup_insert_eq|]. apply orb_false_iff in Em as [E1 E2].
    apply moves_advance in E1, E2. rewrite E1, E2, E. by destruct row.
  - destruct (targets !! targetID); [|done]. destruct (_ || _); [by rewrite lookup_insert_ne|done].
Qed.

(** A loop over distinct keys, each of which changes its own row only. *)
Lemma fold_keys {K V} `{Countable K} (body : nat -> K -> gmap K V -> result (gmap K V))
    (g : K -> option V -> option V) n keys m m' :
  (forall n k m m' k', k ∈ keys -> body n k m = Ok m' -> m' !! k' = if decide (k' = k) then g k (m !! k) else m !! k') ->
  NoDup keys -> fold_result body n keys m = Ok m' ->
  forall k, m' !! k = if decide (k ∈ keys) then g k (m !! k) else m !! k.
Proof.
  intros Hb. revert n m. induction keys as [|k keys IH]; intros n m Hnd; cbn [fold_result].
  { intros [= <-] k. by rewrite decide_False by set_solver. }
  apply NoDup_cons in Hnd as [Hk Hnd]. intros (m1 & H1 & H2)%result_bind_ok k'.
  assert (k ∈ k :: keys) as Hin by set_solver. pose proof (Hb _ _ _ _ k' Hin H1) as Em1.
  rewrite (IH ltac:(intros; apply (Hb n0); [set_solver|done]) _ _ Hnd H2), Em1.
  destruct (decide (k' = k)) as [->|Hne].
  - rewrite decide_False by done. by rewrite decide_True by set_solver.
  - destruct (decide (k' ∈ keys)); [by rewrite decide_True by set_solver|by rewrite decide_False by set_solver].
Qed.

Lemma projected_keys {K V} `{Countable K} (less : K -> K -> bool) (m : gmap K V) k :
  k ∈ sort_stable less (map_to_list m).*1 <-> is_Some (m !! k).
Proof.
  rewrite sort_stable_elem, list_elem_of_fmap. split.
  - intros ([k' v] & -> & Hin). apply elem_of_map_to_list in Hin. by exists v.
  - intros [v Hv]. exists (k, v). split; [done|]. by apply elem_of_map_to_list.
Qed.

Lemma projected_keys_NoDup {K V} `{Countable K} (less : K -> K -> bool) (m : gmap K V) :
  NoDup (sort_stable less (map_to_list m).*1).
Proof.
  rewrite (sort_stable_perm less). apply NoDup_fst_map_to_list.
Qed.

Lemma projectTarget_exact f writes targets targets' t :
  projectTargetProbeObservations f writes targets = Ok targets' ->
  targets' !! t = (fun row => {|
    tr_last_success_at := latest (tr_last_success_at row)
      (live_times (of_target t ProbeResultSuccess) po_ObservedAt writes);
    tr_last_failure_at := latest (tr_last_failure_at row)
      (live_times (of_target t ProbeResultFailure) po_ObservedAt writes) |}) <$> targets !! t.
Proof.
  unfold projectTargetProbeObservations. cbv zeta. set (ps := fold_left project_target_step writes ∅).
  intros H. pose proof (target_projections writes t) as [T1 T2]. cbv zeta in T1, T2. fold ps in T1, T2.
  set (g := fun k (row : option target_row) => match ps !! k with
    | Some p => (fun row => {| tr_last_success_at := advance (tr_last_success_at row) (tp_lastSuccessAt p);
                      tr_last_failure_at := advance (tr_last_failure_at row) (tp_lastFailureAt p) |}) <$> row
    | None => row end).
  eapply (fold_keys _ g _ _ _ _) with (k := t) in H.
  - rewrite H. unfold sort_Strings. destruct (ps !! t) as [p|] eqn:Ep.
    + rewrite decide_True by (apply projected_keys; by eexists). unfold g. rewrite Ep.
      destruct (targets !! t) as [row|]; [|done]. cbn in *. by rewrite T1, T2, !advance_latest.
    + rewrite decide_False by (rewrite projected_keys, Ep; by intros [? ?]). cbn in T1, T2.
      destruct (targets !! t) as [row|]; [|done]. cbn.
      by rewrite <- (advance_latest (tr_last_success_at row)), <- (advance_latest (tr_last_failure_at row)), <- T1, <- T2;
        destruct row.
  - intros n k m m' k' Hk Hbody. apply result_bind_ok in Hbody as (_ & _ & [= <-]). unfold g.
    apply projected_keys in Hk as [p Ep]. rewrite Ep, project_target_sql_row. by destruct (decide (k' = k)) as [->|].
  - apply projected_keys_NoDup.
Qed.

Lemma live_projections writes t p :
  fold_left project_live_step writes ∅ !! (t, p) = latest None (live_times (of_probe t p) effective_at writes).
Proof.
  induction writes as [|o writes IH] using rev_ind; [done|].
  rewrite fold_left_app, live_times_snoc. cbn [fold_left]. set (m := fold_left _ writes ∅) in *.
  unfold project_live_step, of_probe in *. destruct (live_observation o); cbn [negb andb]; [|by rewrite app_nil_r].
  destruct (decide ((po_TargetID o, po_ProbeItemID o) = (t, p))) as [Ekey|Hne].
  - injection Ekey as <- <-. rewrite !String.eqb_refl. cbn [andb].
    destruct (_ || _); [|by rewrite app_nil_r]. rewrite latest_latest, <- IH, <- later_greatest.
    destruct (m !! _) as [u|] eqn:E; cbn; [|by rewrite lookup_insert_eq].
    destruct (Time_After _ _); [by rewrite lookup_insert_eq|done].
  - assert ((po_TargetID o =s t) && (po_ProbeItemID o =s p) = false) as ->.
    { apply andb_false_iff. destruct (String.eqb_spec (po_TargetID o) t); [right|by left].
      apply String.eqb_neq. congruence. }
    cbn [andb]. rewrite app_nil_r. repeat case_match; rewrite ?lookup_insert_ne by done; done.
Qed.

Definition with_live (at_ : option Z) (row : probe_row) : probe_row := {|
  pr_target_id := pr_target_id row; pr_probe_kind := pr_probe_kind row; pr_last_live_observed_at := at_ |}.

Lemma project_live_sql_row t p at_ items q row :
  items !! q = Some row ->
  project_live_sql (t, p) at_ items !! q =
  Some (with_live (if decide ((pr_target_id row, q) = (t, p)) then advance (pr_last_live_observed_at row) (Some at_)
                   else pr_last_live_observed_at row) row).
Proof.
  intros E. unfold project_live_sql. cbn [fst snd].
  assert (Some row = Some (with_live (pr_last_live_observed_at row) row)) as Hsame by (by destruct row).
  destruct (decide (q = p)) as [->|Hne].
  - rewrite E. destruct (String.eqb_spec (pr_target_id row) t) as [<-|Hnt]; cbn [andb].
    + rewrite decide_True by done. destruct (moves _ _) eqn:Em; [by rewrite lookup_insert_eq|].
      by rewrite (moves_advance _ _ Em), E.
    + rewrite decide_False by congruence. by rewrite E.
  - rewrite decide_False by congruence. destruct (items !! p); [|by rewrite E].
    destruct (_ && _); [rewrite lookup_insert_ne by done|]; by rewrite E.
Qed.

Lemma project_live_sql_none t p at_ items q :
  items !! q = None -> project_live_sql (t, p) at_ items !! q = None.
Proof.
  intros E. unfold project_live_sql. cbn [fst snd]. destruct (items !! p) as [row|] eqn:Ep; [|done].
  destruct (_ && _); [|done]. rewrite lookup_insert_ne; [done|congruence].
Qed.

(** The loop of the live projection: distinct pairs, of which at most one has the
    target of a given probe item. *)
Lemma live_loop (f : faults) (ps : gmap (string * string) Z) n (keys : list (string * string)) (items items' : gmap string probe_row) (q : string) :
  (forall k, k ∈ keys -> is_Some (ps !! k)) -> NoDup keys ->
  fold_result (fun n key items =>
      _ ← statement f "project probe" n
            (fun err => ErrWrap "project probe live observation for target %q probe %q: %w" [key.1; key.2] [err]);
      Ok (match ps !! key with Some at_ => project_live_sql key at_ items | None => items end))
    n keys items = Ok items' ->
  items' !! q = (fun row => with_live
    (if decide ((pr_target_id row, q) ∈ keys) then advance (pr_last_live_observed_at row) (ps !! (pr_target_id row, q))
     else pr_last_live_observed_at row) row) <$> items !! q.
Proof.
  revert n items. induction keys as [|[t p] keys IH]; intros n items Hps Hnd; cbn [fold_result].
  { intros [= <-]. destruct (items !! q) as [row|]; [|done]. cbn. rewrite decide_False by set_solver. by destruct row. }
  apply NoDup_cons in Hnd as [Hk Hnd]. intros (items1 & H1 & H2)%result_bind_ok.
  apply result_bind_ok in H1 as (_ & _ & [= <-]). destruct (Hps (t, p)) as [at_ Eat]; [set_solver|].
  rewrite Eat in H2. apply IH in H2; [|set_solver|done]. rewrite H2.
  destruct (items !! q) as [row|] eqn:Eq; [|by rewrite (project_live_sql_none _ _ _ _ _ Eq)].
  rewrite (project_live_sql_row _ _ _ _ _ _ Eq). cbn [fmap option_fmap option_map]. f_equal.
  unfold with_live. cbn [pr_target_id pr_probe_kind pr_last_live_observed_at]. f_equal.
  destruct (decide ((pr_target_id row, q) = (t, p))) as [Ek|Hne].
  - rewrite Ek, (decide_False (P := (t, p) ∈ keys)), (decide_True (P := (t, p) ∈ (t, p) :: keys)) by set_solver.
    by rewrite Eat.
  - destruct (decide ((pr_target_id row, q) ∈ keys)); [by rewrite decide_True by set_solver|].
    by rewrite decide_False by set_solver.
Qed.

Lemma projectProbe_exact f writes items items' q :
  projectProbeLiveObservations f writes items = Ok items' ->
  items' !! q = (fun row => with_live
    (latest (pr_last_live_observed_at row) (live_times (of_probe (pr_target_id row) q) effective_at writes)) row)
    <$> items !! q.
Proof.
  unfold projectProbeLiveObservations. cbv zeta. intros H. eapply live_loop with (q := q) in H.
  - rewrite H. destruct (items !! q) as [row|]; [|done]. cbn. do 2 f_equal.
    rewrite <- (advance_latest (pr_last_live_observed_at row)), <- live_projections.
    destruct (decide _) as [Hin|Hout]; [done|]. rewrite projected_keys in Hout.
    by destruct (fold_left _ writes ∅ !! _); [destruct Hout; eexists|].
  - intros k. by rewrite projected_keys.
  - apply projected_keys_NoDup.
Qed.

Lemma insert_loop {A B} f what wrap (row : A -> B) n l rows rows' :
  fold_result (fun n x rows => _ ← statement f what n wrap; Ok (rows ++ [row x])) n l rows = Ok rows' ->
  rows' = rows ++ (row <$> l).
Proof.
  revert n rows. induction l as [|x l IH]; intros n rows; cbn [fold_result]; [intros [= <-]; by rewrite app_nil_r|].
  intros (rows1 & H1 & H2)%result_bind_ok. apply result_bind_ok in H1 as (_ & _ & [= <-]).
  rewrite (IH _ _ H2), <- app_assoc. done.
Qed.

Lemma recordObservationBatch_rows f samples writes db db' :
  recordObservationBatch f samples writes db = Ok db' ->
  od_host_samples db' = od_host_samples db ++ (host_sample_row <$> samples) /\
  od_probe_observations db' = od_probe_observations db ++ writes.
Proof.
  unfold recordObservationBatch. intros H.
  apply result_bind_ok in H as (rows & H1 & H). apply result_bind_ok in H as (observations & H2 & H).
  apply result_bind_ok in H as (targets & _ & H). apply result_bind_ok in H as (items & _ & [= <-]).
  split; [by eapply insert_loop|]. eapply (insert_loop _ _ _ (fun o => o)) in H2. by rewrite list_fmap_id in H2.
Qed.

(** A recorded batch appends its rows in order, moves the last success and the
    last failure of each target to the latest live observation of that kind, and the
    last live observation of each probe item to its latest live result, taken no later
    than it was received; maintenance and late observations move nothing, and no
    column ever goes back. *)
Theorem observation_batch_exact f samples writes db db'
    (H : recordObservationBatch f samples writes db = Ok db') :
  od_host_samples db' = od_host_samples db ++ (host_sample_row <$> samples) /\
  od_probe_observations db' = od_probe_observations db ++ writes /\
  (forall t, od_targets db' !! t = (fun row => {|
     tr_last_success_at := latest (tr_last_success_at row)
       (live_times (of_target t ProbeResultSuccess) po_ObservedAt writes);
     tr_last_failure_at := latest (tr_last_failure_at row)
       (live_times (of_target t ProbeResultFailure) po_ObservedAt writes) |}) <$> od_targets db !! t) /\
  (forall p, od_probe_items db' !! p = (fun row => with_live
     (latest (pr_last_live_observed_at row)
        (live_times (of_probe (pr_target_id row) p) (fun o => Z.min (po_ObservedAt o) (po_ReceivedAt o)) writes))
     row) <$> od_probe_items db !! p).
Proof.
  destruct (recordObservationBatch_rows _ _ _ _ _ H) as [R1 R2]. split; [done|]. split; [done|].
  unfold recordObservationBatch in H.
  apply result_bind_ok in H as (rows & _ & H). apply result_bind_ok in H as (observations & _ & H).
  apply result_bind_ok in H as (targets & H3 & H). apply result_bind_ok in H as (items & H4 & [= <-]).
  cbn [od_host_samples od_probe_observations od_targets od_probe_items]. split; [intros t; by eapply projectTarget_exact|]. intros p. rewrite (projectProbe_exact _ _ _ _ p H4).
  destruct (od_probe_items db !! p) as [row|]; [|done]. cbn. do 3 f_equal. unfold live_times.
  apply list_fmap_ext. intros _ o _. unfold effective_at, Time_Before.
  destruct (Z.ltb_spec (po_ReceivedAt o) (po_ObservedAt o)); lia.
Qed.

(** A probe that failed twice, the second time in maintenance, and then succeeded. *)
Definition fixture_observation (kind : string) (at_ received : Z) (maintenance : bool) : ProbeObservation := {|
  po_MonitoringInstanceID := "mi1"; po_TargetID := "t1"; po_ProbeItemID := "p1"; po_ProbeKind := ProbeKindHTTP;
  po_ObservedAt := at_; po_ReceivedAt := received; po_AgentVersion := "1"; po_Fingerprint := "fp";
  po_ResultKind := kind; po_LatencyMS := None; po_HTTPStatus := None; po_TLSExpiryDays := None;
  po_ErrorCode := ""; po_ErrorSummary := ""; po_MaintenanceContext := maintenance; po_IsBackfilled := false;
  po_SyncBatchID := "b" |}.

Definition fixture_observations : list ProbeObservation :=
  [fixture_observation ProbeResultFailure 10 40 false; fixture_observation ProbeResultFailure 20 40 true;
   fixture_observation ProbeResultSuccess 50 40 false].

Definition fixture_observation_db : observation_db := {|
  od_probe_items := {["p1" := {| pr_target_id := "t1"; pr_probe_kind := ProbeKindHTTP;
                                 pr_last_live_observed_at := Some 5 |}]};
  od_targets := {["t1" := {| tr_last_success_at := None; tr_last_failure_at := Some 7 |}]};
  od_host_samples := []; od_probe_observations := [] |}.

Lemma observation_batch_exact_witness :
  match recordObservationBatch (fun _ _ => None) [] fixture_observations fixture_observation_db with
  | Ok db' =>
      od_targets db' !! "t1" = Some {| tr_last_success_at := Some 50; tr_last_failure_at := Some 10 |} /\
      od_probe_items db' !! "p1" = Some {| pr_target_id := "t1"; pr_probe_kind := ProbeKindHTTP;
                                           pr_last_live_observed_at := Some 40 |}
  | Err _ => False
  end.
Proof.
  destruct (recordObservationBatch _ _ _ _) as [db'|err] eqn:E; [|vm_compute in E; discriminate E].
  destruct (observation_batch_exact _ _ _ _ _ E) as (_ & _ & Ht & Hp).
  rewrite (Ht "t1"), (Hp "p1"). split; vm_compute; reflexivity.
Defined.
