(* ===== verification/SyncProtocol.v ===== *)
(** The center's side of the replay protocol before the database: batches, their
    validation (src/internal/center/syncing/sync_protocol.go) and the service around
    the repository (src/internal/center/syncing/service.go). *)
From stdpp Require Import base list sorting strings gmap.
From Stdlib Require Import ZArith Lia.
From S2P Require Import Prelude GoRuntime Json AgentApi Wire AgentPlan.

Local Open Scope Z_scope.
#[local] Set Warnings "-clear-no-such-hyp".

(** * Data *)

Definition MaxBatchItems : Z := 256.
Definition IPQualitySelectiveCollectionRevision : Z := 5.

Definition BindingNotAcceptedName : string := "binding not accepted".
Definition InvalidSyncTokenName : string := "invalid sync token".
Definition HeartbeatRequiredName : string := "heartbeat carrier required for sync batch".
Definition SyncProtocolRequiredName : string := "sync protocol revision required".
Definition SyncProducerMismatchName : string := "sync producer mismatch".
Definition SyncBatchRetiredName : string := "sync batch retired".
Definition SyncBatchIdentityConflictName : string := "sync batch identity conflict".
Definition InvalidReplayStateName : string := "invalid sync replay state".

Definition ErrBindingNotAccepted : error := ErrSentinel BindingNotAcceptedName.
Definition ErrInvalidSyncToken : error := ErrSentinel InvalidSyncTokenName.
Definition ErrHeartbeatRequired : error := ErrSentinel HeartbeatRequiredName.
Definition ErrSyncProtocolRequired : error := ErrSentinel SyncProtocolRequiredName.
Definition ErrSyncProducerMismatch : error := ErrSentinel SyncProducerMismatchName.
Definition ErrSyncBatchRetired : error := ErrSentinel SyncBatchRetiredName.
Definition ErrSyncBatchIdentityConflict : error := ErrSentinel SyncBatchIdentityConflictName.
Definition ErrInvalidReplayState : error := ErrSentinel InvalidReplayStateName.

(** [ipquality.ReportWrite]: the fields the sync path looks at; [rw_Body] is the rest,
    which it only carries. *)
Record ReportWrite {body : Type} := {
  rw_MonitoringInstanceID : string;
  rw_ObservedAt : Z;
  rw_ReceivedAt : Z;
  rw_AgentVersion : string;
  rw_Fingerprint : string;
  rw_SyncBatchID : string;
  rw_IPAddress : string;
  rw_IPVersion : Z;
  rw_Status : string;
  rw_Body : body;
}.
Arguments ReportWrite : clear implicits.

(** [enrollment.HeartbeatPayload] and [syncing.CommandResult] have the fields of the
    wire types.  The digest is a string of 32 bytes. *)
Record Batch {body : Type} := {
  ba_ProtocolRevision : Z;
  ba_ProducerID : string;
  ba_BatchSequence : Z;
  ba_AllocatedThrough : Z;
  ba_RetiredThrough : Z;
  ba_PayloadDigest : string;
  ba_SessionID : string;
  ba_LiveSignal : option LiveSignal;
  ba_IPQualityCollectionRevision : Z;
  ba_MonitoringInstanceID : string;
  ba_SyncToken : string;
  ba_Heartbeats : list MonitoringInstanceHeartbeat;
  ba_HostSamples : list HostSample;
  ba_ProbeObservations : list ProbeObservation;
  ba_IPQualityReports : list (ReportWrite body);
  ba_CommandResults : list CommandResult;
}.
Arguments Batch : clear implicits.

Definition ResultDispositionRecorded : string := "recorded".
Definition ResultDispositionExactDuplicate : string := "exact_duplicate".
Definition ResultDispositionSuppressed : string := "suppressed".
Definition ResultDispositionDeferred : string := "deferred".

Record Result := {
  re_SessionID : string;
  re_ProducerID : string;
  re_BatchSequence : Z;
  re_BatchDigest : string;
  re_RetiredThrough : Z;
  re_StopCollection : bool;
  re_Disposition : string;
  re_LiveCollectionAllowed : bool;
  re_AcceptedAt : Z;
  re_Plan : SyncPlan;
}.

(** * Validation *)

Section Protocol.
Context {body : Type} (uuid_Parse : string -> option string).

Definition identity_of (producer : string) (sequence : Z) : string := producer +:+ ":" +:+ fmt_d sequence.

Definition replay_bounds_bad (batch : Batch body) : bool :=
  negb (ValidSyncProducerID uuid_Parse (ba_ProducerID batch)) || (ba_SessionID batch =s "") ||
  (ba_AllocatedThrough batch <? 0) || (ba_RetiredThrough batch <? 0) ||
  (ba_AllocatedThrough batch <? ba_RetiredThrough batch) ||
  (ba_BatchSequence batch <? 0) || (ba_AllocatedThrough batch <? ba_BatchSequence batch).

Definition live_signal_bad (batch : Batch body) : bool :=
  match ba_LiveSignal batch with
  | None => false
  | Some signal => (ls_Sequence signal <=? 0) || (ls_Fingerprint signal =s "")
  end.

Definition fact_count (batch : Batch body) : nat :=
  length (ba_Heartbeats batch) + length (ba_HostSamples batch) + length (ba_ProbeObservations batch) +
  length (ba_IPQualityReports batch) + length (ba_CommandResults batch).

(** Every fact carries the identity of the batch. *)
Definition facts_identified (batch : Batch body) (identity : string) : bool :=
  forallb (fun fact => hbp_SyncBatchID fact =s identity) (ba_Heartbeats batch) &&
  forallb (fun fact => hs_SyncBatchID fact =s identity) (ba_HostSamples batch) &&
  forallb (fun fact => po_SyncBatchID fact =s identity) (ba_ProbeObservations batch) &&
  forallb (fun fact => rw_SyncBatchID fact =s identity) (ba_IPQualityReports batch).

Definition ValidateBatchProtocol (batch : Batch body) : result unit :=
  _ ← reject (negb (ba_ProtocolRevision batch =? SyncProtocolRevision)) ErrSyncProtocolRequired;
  _ ← reject (replay_bounds_bad batch) ErrInvalidReplayState;
  _ ← reject (live_signal_bad batch) ErrInvalidReplayState;
  if ba_BatchSequence batch =? 0 then
    reject (negb (fact_count batch =? 0)%nat) ErrInvalidReplayState
  else
    _ ← reject (ba_BatchSequence batch <=? ba_RetiredThrough batch) ErrSyncBatchRetired;
    _ ← reject (match ba_Heartbeats batch with [] => true | _ => false end) ErrHeartbeatRequired;
    reject (negb (facts_identified batch (identity_of (ba_ProducerID batch) (ba_BatchSequence batch))))
      ErrInvalidReplayState.

(** * The service *)

(** What a request for an immediate collection asks for; no identifier means none. *)
Record CollectRequest := { cr_RequestID : string; cr_RequestedIPVersions : list Z }.

(** The collaborators of the service, over a world [W]: the repository, the optional
    processor of recorded batches and the optional coordinator of collections. *)
Record service_deps {W : Type} := {
  sd_ApplyBatch : Batch body -> W -> result Result * W;
  sd_AfterSuccessfulSync : option (Batch body -> Result -> W -> option error * W);
  sd_ObserveReports : string -> list (ReportWrite body) -> W -> W;
  sd_PendingRequest : string -> option Z -> W -> CollectRequest * W;
  sd_has_collect : bool;
}.

Definition with_plan (r : Result) (plan : SyncPlan) (allowed : bool) : Result := {|
  re_SessionID := re_SessionID r; re_ProducerID := re_ProducerID r; re_BatchSequence := re_BatchSequence r;
  re_BatchDigest := re_BatchDigest r; re_RetiredThrough := re_RetiredThrough r;
  re_StopCollection := re_StopCollection r; re_Disposition := re_Disposition r;
  re_LiveCollectionAllowed := allowed; re_AcceptedAt := re_AcceptedAt r; re_Plan := plan |}.

(** The plan with the request of the coordinator; families are named only to an agent
    that announced it understands them. *)
Definition plan_with_request (plan : SyncPlan) (ip : IPQualityPlan) (request : CollectRequest)
    (liveRevision : option Z) : SyncPlan :=
  let selective := match liveRevision with
                   | Some revision => revision =? IPQualitySelectiveCollectionRevision
                   | None => false
                   end in
  {| sp_HostSampleFrequencyTier := sp_HostSampleFrequencyTier plan;
     sp_HostSampleMaintenanceContext := sp_HostSampleMaintenanceContext plan;
     sp_ProbeAssignments := sp_ProbeAssignments plan;
     sp_IPQualityPlan := Some {|
       ip_Enabled := ip_Enabled ip; ip_FrequencySeconds := ip_FrequencySeconds ip;
       ip_TimeoutSeconds := ip_TimeoutSeconds ip; ip_Services := ip_Services ip;
       ip_ProductRevision := ip_ProductRevision ip; ip_MailEnabled := ip_MailEnabled ip;
       ip_CollectRequestID := cr_RequestID request;
       ip_CollectionRevision := if selective then IPQualitySelectiveCollectionRevision else 0;
       ip_CollectIPVersions := if selective then cr_RequestedIPVersions request else [] |};
     sp_PendingAction := sp_PendingAction plan |}.

Definition coordinateIPQualityCollect {W} (deps : @service_deps W) (batch : Batch body) (r : Result) (w : W)
    : Result * W :=
  if negb (sd_has_collect deps) then (r, w)
  else
    let recorded := re_Disposition r =s ResultDispositionRecorded in
    let w := match ba_IPQualityReports batch with
             | [] => w
             | reports => if recorded then sd_ObserveReports deps (ba_MonitoringInstanceID batch) reports w else w
             end in
    match sp_IPQualityPlan (re_Plan r) with
    | None => (r, w)
    | Some plan =>
        if re_StopCollection r || negb (ip_Enabled plan) then (r, w)
        else
          let liveRevision := match ba_LiveSignal batch with
                              | Some _ => if re_LiveCollectionAllowed r
                                          then Some (ba_IPQualityCollectionRevision batch) else None
                              | None => None
                              end in
          let '(request, w) := sd_PendingRequest deps (ba_MonitoringInstanceID batch) liveRevision w in
          if cr_RequestID request =s "" then (r, w)
          else (with_plan r (plan_with_request (re_Plan r) plan request liveRevision)
                  (re_LiveCollectionAllowed r), w)
    end.

Definition SyncBatch {W} (deps : @service_deps W) (batch : Batch body) (w : W) : result Result * W :=
  match ValidateBatchProtocol batch with
  | Err err => (Err err, w)
  | Ok _ =>
      match sd_ApplyBatch deps batch w with
      | (Err err, w) => (Err err, w)
      | (Ok r, w) =>
          if re_Disposition r =s ResultDispositionDeferred then (Ok (with_plan r zero_plan false), w)
          else
            let '(r, w) := coordinateIPQualityCollect deps batch r w in
            match sd_AfterSuccessfulSync deps with
            | Some after =>
                if re_Disposition r =s ResultDispositionRecorded then
                  match after batch r w with
                  | (Some err, w) => (Err err, w)
                  | (None, w) => (Ok r, w)
                  end
                else (Ok r, w)
            | None => (Ok r, w)
            end
      end
  end.

(** [CompositePostSyncProcessor]: the error of the first processor is the result, the
    others run whatever happens and their errors are dropped. *)
Definition AfterSuccessfulSync {W} (primary : option (Batch body -> Result -> W -> option error * W))
    (bestEffort : list (Batch body -> Result -> W -> option error * W)) (batch : Batch body) (r : Result) (w : W)
    : option error * W :=
  let '(err, w) := match primary with Some process => process batch r w | None => (None, w) end in
  (err, fold_left (fun w process => (process batch r w).2) bestEffort w).

End Protocol.
