(* ===== verification/SyncStore.v ===== *)
(** The repository that admits sync batches (src/internal/center/store/sync_batches.go,
    agent_replay.go, agent_live_signals.go, command_actions.go, agent_token_hash.go)
    over a model of the tables it touches, with the triggers that guard the replay
    tables (src/db/migrations/0080_bound_agent_sync_replay.sql).  A transaction is a
    function from the tables to an outcome with new tables, kept when it commits. *)
From stdpp Require Import base list sorting strings gmap.
From Stdlib Require Import ZArith Lia.
From S2P Require Import Prelude GoRuntime Json AgentApi IncidentTypes Wire AgentPlan ObservationStore SyncProtocol.

Local Open Scope Z_scope.
#[local] Set Warnings "-clear-no-such-hyp".

(** * Tables *)

Record LastAction := {
  la_ActionID : string;
  la_CommandID : string;
  la_Status : string;
  la_Sensitivity : string;
  la_QueuedAt : option Z;
  la_Stdout : string;
  la_Stderr : string;
  la_ExitCode : option Z;
  la_CompletedAt : option Z;
  la_OutputExpiresAt : option Z;
  la_OutputExpired : bool;
}.

(** monitoring_instances; [last_action] is the JSON column, which only this program
    writes. *)
Record instance_row := {
  in_display_name : string;
  in_binding_status : string;
  in_lifecycle_status : string;
  in_monitoring_status : string;
  in_vps_id : string;
  in_archived : bool;
  in_labels : list string;
  in_last_heartbeat_at : option Z;
  in_last_sync_at : option Z;
  in_last_trusted_online_at : option Z;
  in_ever_connected : bool;
  in_pending_action_id : option string;
  in_pending_action_command_id : option string;
  in_last_action : option LastAction;
}.

Record session_row := {
  se_monitoring_instance_id : string;
  se_fingerprint_hash : string;
  se_token_hash : string;
  se_capability : string;
  se_last_trusted_online_at : option Z;
  se_ever_connected : bool;
}.

Record vps_row := { vp_archived : bool; vp_archived_at : option Z }.

Record replay_row := {
  ry_producer_id : string;
  ry_retired_through : Z;
  ry_allocated_through : Z;
  ry_live_sequence_high : Z;
}.

Record heartbeat_row := {
  hr_monitoring_instance_id : string;
  hr_received_at : Z;
  hr_payload : MonitoringInstanceHeartbeat;
}.

Record commandActionAuditEvent := {
  ca_ActionID : string;
  ca_MonitoringInstanceID : string;
  ca_CommandID : string;
  ca_Sensitivity : string;
  ca_EventType : string;
  ca_ActorUserID : string;
  ca_Source : string;
  ca_ExitCode : option Z;
  ca_OccurredAt : Z;
}.

(** vps_followups; the dedupe key is the asset with the instant it was archived. *)
Record followup_row := {
  fo_vps_id : string;
  fo_kind : string;
  fo_dedupe_key : string * option Z;
  fo_status : string;
  fo_summary : string;
  fo_details : string * string * Z;
}.

Section Store.
Context {body : Type}.

Record sync_db := {
  sd_sessions : gmap string session_row;
  sd_instances : gmap string instance_row;
  sd_vps : gmap string vps_row;
  sd_replay : gmap string replay_row;
  sd_receipts : gmap (string * Z) string;
  sd_heartbeats : list heartbeat_row;
  sd_observations : observation_db;
  sd_reports : list (string * ReportWrite body);
  sd_audits : list (string * commandActionAuditEvent);
  sd_followups : list followup_row;
  (** The columns the plan reads. *)
  sd_settings : option settings_row;
  sd_plan_targets : list plan_target;
  sd_plan_probes : list plan_probe;
}.

(** ** Updates *)

Definition set_instances (v : gmap string instance_row) (db : sync_db) : sync_db := {|
  sd_sessions := sd_sessions db; sd_instances := v; sd_vps := sd_vps db; sd_replay := sd_replay db;
  sd_receipts := sd_receipts db; sd_heartbeats := sd_heartbeats db; sd_observations := sd_observations db;
  sd_reports := sd_reports db; sd_audits := sd_audits db; sd_followups := sd_followups db;
  sd_settings := sd_settings db; sd_plan_targets := sd_plan_targets db; sd_plan_probes := sd_plan_probes db |}.

Definition set_sessions (v : gmap string session_row) (db : sync_db) : sync_db := {|
  sd_sessions := v; sd_instances := sd_instances db; sd_vps := sd_vps db; sd_replay := sd_replay db;
  sd_receipts := sd_receipts db; sd_heartbeats := sd_heartbeats db; sd_observations := sd_observations db;
  sd_reports := sd_reports db; sd_audits := sd_audits db; sd_followups := sd_followups db;
  sd_settings := sd_settings db; sd_plan_targets := sd_plan_targets db; sd_plan_probes := sd_plan_probes db |}.

Definition set_replay (v : gmap string replay_row) (r : gmap (string * Z) string) (db : sync_db) : sync_db := {|
  sd_sessions := sd_sessions db; sd_instances := sd_instances db; sd_vps := sd_vps db; sd_replay := v;
  sd_receipts := r; sd_heartbeats := sd_heartbeats db; sd_observations := sd_observations db;
  sd_reports := sd_reports db; sd_audits := sd_audits db; sd_followups := sd_followups db;
  sd_settings := sd_settings db; sd_plan_targets := sd_plan_targets db; sd_plan_probes := sd_plan_probes db |}.

Definition set_facts (h : list heartbeat_row) (o : observation_db) (r : list (string * ReportWrite body))
    (db : sync_db) : sync_db := {|
  sd_sessions := sd_sessions db; sd_instances := sd_instances db; sd_vps := sd_vps db; sd_replay := sd_replay db;
  sd_receipts := sd_receipts db; sd_heartbeats := h; sd_observations := o; sd_reports := r;
  sd_audits := sd_audits db; sd_followups := sd_followups db; sd_settings := sd_settings db;
  sd_plan_targets := sd_plan_targets db; sd_plan_probes := sd_plan_probes db |}.

Definition set_audits (v : list (string * commandActionAuditEvent)) (db : sync_db) : sync_db := {|
  sd_sessions := sd_sessions db; sd_instances := sd_instances db; sd_vps := sd_vps db; sd_replay := sd_replay db;
  sd_receipts := sd_receipts db; sd_heartbeats := sd_heartbeats db; sd_observations := sd_observations db;
  sd_reports := sd_reports db; sd_audits := v; sd_followups := sd_followups db; sd_settings := sd_settings db;
  sd_plan_targets := sd_plan_targets db; sd_plan_probes := sd_plan_probes db |}.

Definition set_followups (v : list followup_row) (db : sync_db) : sync_db := {|
  sd_sessions := sd_sessions db; sd_instances := sd_instances db; sd_vps := sd_vps db; sd_replay := sd_replay db;
  sd_receipts := sd_receipts db; sd_heartbeats := sd_heartbeats db; sd_observations := sd_observations db;
  sd_reports := sd_reports db; sd_audits := sd_audits db; sd_followups := v; sd_settings := sd_settings db;
  sd_plan_targets := sd_plan_targets db; sd_plan_probes := sd_plan_probes db |}.

Definition instance_with_online (at_ : Z) (lifecycle : string) (i : instance_row) : instance_row := {|
  in_display_name := in_display_name i; in_binding_status := in_binding_status i;
  in_lifecycle_status := lifecycle; in_monitoring_status := in_monitoring_status i;
  in_vps_id := in_vps_id i; in_archived := in_archived i; in_labels := in_labels i;
  in_last_heartbeat_at := in_last_heartbeat_at i; in_last_sync_at := in_last_sync_at i;
  in_last_trusted_online_at := Some at_; in_ever_connected := true;
  in_pending_action_id := in_pending_action_id i;
  in_pending_action_command_id := in_pending_action_command_id i; in_last_action := in_last_action i |}.

Definition instance_with_sync (heartbeat sync : Z) (lifecycle : string) (i : instance_row) : instance_row := {|
  in_display_name := in_display_name i; in_binding_status := in_binding_status i;
  in_lifecycle_status := lifecycle; in_monitoring_status := in_monitoring_status i;
  in_vps_id := in_vps_id i; in_archived := in_archived i; in_labels := in_labels i;
  in_last_heartbeat_at := Some (greatest (in_last_heartbeat_at i) heartbeat);
  in_last_sync_at := Some (greatest (in_last_sync_at i) sync);
  in_last_trusted_online_at := in_last_trusted_online_at i; in_ever_connected := in_ever_connected i;
  in_pending_action_id := in_pending_action_id i;
  in_pending_action_command_id := in_pending_action_command_id i; in_last_action := in_last_action i |}.

Definition instance_with_action (pending : option string * option string) (last : LastAction) (i : instance_row)
    : instance_row := {|
  in_display_name := in_display_name i; in_binding_status := in_binding_status i;
  in_lifecycle_status := in_lifecycle_status i; in_monitoring_status := in_monitoring_status i;
  in_vps_id := in_vps_id i; in_archived := in_archived i; in_labels := in_labels i;
  in_last_heartbeat_at := in_last_heartbeat_at i; in_last_sync_at := in_last_sync_at i;
  in_last_trusted_online_at := in_last_trusted_online_at i; in_ever_connected := in_ever_connected i;
  in_pending_action_id := pending.1; in_pending_action_command_id := pending.2;
  in_last_action := Some last |}.

(** * The outside world *)

(** What the repository takes from outside the sync path: the UUID package, the HMAC
    of a token under the sync key and the legacy hash, both in hexadecimal, the
    redaction of secrets, and the validation of the parts of a report it only
    carries. *)
Class SyncEnv := {
  sync_uuid_Parse : string -> option string;
  hmac_sync_token : string -> string;
  hashOpaqueToken : string -> string;
  redact_Secrets : string -> string;
  report_body_valid : ReportWrite body -> bool;
}.

(** How a commit ends; when the connection is lost the database may or may not have
    applied it. *)
Inductive commit_answer :=
| Committed
| CommitFailed (err : error) (applied : bool).

(** What one call meets. *)
Record sync_io := {
  si_faults : faults;
  (** The clock of the process and of the database. *)
  si_now : Z;
  si_db_clock : Z;
  (** [ids.New] for a prefix. *)
  si_id : string -> nat -> result string;
  si_commit : commit_answer;
}.

Context `{Env : SyncEnv}.

(** * Admission *)

Definition agentTokenHashPrefix : string := "hmac-sha256:v1:".

(** [HasPrefix] and [TrimPrefix]: what follows a prefix, if it is one. *)
Fixpoint after_prefix (prefix s : string) : option string :=
  match prefix, s with
  | EmptyString, _ => Some s
  | String a prefix, String b s => if bool_decide (a = b) then after_prefix prefix s else None
  | _, _ => None
  end.

Definition isHMACAgentTokenHash (value : string) : bool :=
  match after_prefix agentTokenHashPrefix (strings_TrimSpace value) with
  | Some rest => (String.length rest =? 64)%nat
  | None => false
  end.

Definition syncTokenMatches (storedHash token : string) : bool :=
  if isHMACAgentTokenHash storedHash then storedHash =s (agentTokenHashPrefix +:+ hmac_sync_token token)
  else storedHash =s hashOpaqueToken token.

Record acceptedSyncBatchState := {
  ac_Capability : string;
  ac_VPSID : string;
  ac_BindingFingerprint : string;
  ac_LifecycleStatus : string;
  ac_MonitoringStatus : string;
  ac_Archived : bool;
  ac_VPSArchivedAt : option Z;
}.

Definition SuppressWritesAndPlan (s : acceptedSyncBatchState) : bool :=
  (ac_Capability s =s "evidence_only") || ac_Archived s || (ac_LifecycleStatus s =s LifecycleRetired) ||
  (ac_MonitoringStatus s =s MonitoringPaused).

(** Every fact and the live signal come from the bound machine. *)
Definition fingerprints_match (batch : Batch body) (fingerprint : string) : bool :=
  match ba_LiveSignal batch with Some signal => ls_Fingerprint signal =s fingerprint | None => true end &&
  forallb (fun fact => hbp_Fingerprint fact =s fingerprint) (ba_Heartbeats batch) &&
  forallb (fun fact => hs_Fingerprint fact =s fingerprint) (ba_HostSamples batch) &&
  forallb (fun fact => po_Fingerprint fact =s fingerprint) (ba_ProbeObservations batch) &&
  forallb (fun fact => rw_Fingerprint fact =s fingerprint) (ba_IPQualityReports batch).

(** The joined row of instance, session and asset. *)
Definition admission_row (db : sync_db) (batch : Batch body) : option (instance_row * session_row * vps_row) :=
  i ← sd_instances db !! ba_MonitoringInstanceID batch;
  s ← sd_sessions db !! ba_SessionID batch;
  v ← sd_vps db !! in_vps_id i;
  if se_monitoring_instance_id s =s ba_MonitoringInstanceID batch then Some (i, s, v) else None.

Definition validateAcceptedSyncBatch (f : faults) (db : sync_db) (batch : Batch body)
    : result acceptedSyncBatchState :=
  _ ← statement f "sync batch state" 0
        (fun err => ErrWrap "query sync batch state for monitoring instance %q: %w" [ba_MonitoringInstanceID batch] [err]);
  match admission_row db batch with
  | None => Err ErrInvalidSyncToken
  | Some (i, s, v) =>
      _ ← reject (negb (isHMACAgentTokenHash (se_token_hash s)) ||
                  negb (syncTokenMatches (se_token_hash s) (ba_SyncToken batch))) ErrInvalidSyncToken;
      _ ← reject (negb (fingerprints_match batch (se_fingerprint_hash s))) ErrBindingNotAccepted;
      Ok {| ac_Capability := if in_binding_status i <>s BindingBound then "evidence_only" else se_capability s;
            ac_VPSID := in_vps_id i; ac_BindingFingerprint := se_fingerprint_hash s;
            ac_LifecycleStatus := in_lifecycle_status i; ac_MonitoringStatus := in_monitoring_status i;
            ac_Archived := vp_archived v; ac_VPSArchivedAt := vp_archived_at v |}
  end.

(** * The replay tables *)

Definition check_violation (message : string) : error := ErrNew message.

(** An update of a row of agent_replay_states: the monotonic trigger and the check
    constraints first, then the trigger that deletes the receipts below the new floor. *)
Definition update_replay (session : string) (new : replay_row) (db : sync_db) : result sync_db :=
  match sd_replay db !! session with
  | None => Ok db
  | Some old =>
      _ ← reject ((ry_producer_id new <>s ry_producer_id old) || (ry_retired_through new <? ry_retired_through old) ||
                  (ry_allocated_through new <? ry_allocated_through old) ||
                  (ry_live_sequence_high new <? ry_live_sequence_high old))
            (check_violation "agent replay identity and watermarks are monotonic");
      _ ← reject ((ry_retired_through new <? 0) || (ry_allocated_through new <? ry_retired_through new) ||
                  (ry_live_sequence_high new <? 0)) (check_violation "agent replay state check");
      let receipts :=
        if ry_retired_through old <? ry_retired_through new
        then filter (fun kv => ~ (kv.1.1 = session /\ kv.1.2 <= ry_retired_through new)) (sd_receipts db)
        else sd_receipts db in
      Ok (set_replay (<[session := new]> (sd_replay db)) receipts db)
  end.

(** The insert of a receipt: the guard trigger, the check and the primary key. *)
Definition insert_receipt (session : string) (sequence : Z) (digest : string) (db : sync_db) : result sync_db :=
  match sd_replay db !! session with
  | None => Err (check_violation "agent receipt is outside the unretired replay window")
  | Some row =>
      _ ← reject ((sequence <=? ry_retired_through row) || (ry_allocated_through row <? sequence) ||
                  (131072 <? sequence - ry_retired_through row))
            (check_violation "agent receipt is outside the unretired replay window");
      _ ← reject (sequence <=? 0) (check_violation "batch_sequence check");
      match sd_receipts db !! (session, sequence) with
      | Some _ => Err (check_violation "duplicate key value violates unique constraint")
      | None => Ok (set_replay (sd_replay db) (<[(session, sequence) := digest]> (sd_receipts db)) db)
      end
  end.

(** The insert of [acceptSyncReplayState] does nothing when the session has a row; a
    uuid column holds the canonical form. *)
Definition initialize_replay (batch : Batch body) (db : sync_db) : sync_db :=
  match sd_replay db !! ba_SessionID batch with
  | Some _ => db
  | None =>
      set_replay (<[ba_SessionID batch := {|
          ry_producer_id := default (ba_ProducerID batch) (sync_uuid_Parse (ba_ProducerID batch));
          ry_retired_through := 0; ry_allocated_through := 0; ry_live_sequence_high := 0 |}]> (sd_replay db))
        (sd_receipts db) db
  end.

(** The update of the two watermarks, of a row that differs only. *)
Definition advance_replay (session : string) (row : replay_row) (floor allocated : Z) (db : sync_db)
    : result sync_db :=
  if negb (ry_retired_through row =? floor) || negb (ry_allocated_through row =? allocated)
  then match update_replay session
               {| ry_producer_id := ry_producer_id row; ry_retired_through := floor;
                  ry_allocated_through := allocated; ry_live_sequence_high := ry_live_sequence_high row |} db with
       | Ok db => Ok db
       | Err err => Err (ErrWrap "advance agent replay controls: %w" [] [err])
       end
  else Ok db.

(** Answers the floor. *)
Definition acceptSyncReplayState (f : faults) (batch : Batch body) (db : sync_db) : result (Z * sync_db) :=
  _ ← statement f "initialize replay" 0 (fun err => ErrWrap "initialize agent replay state: %w" [] [err]);
  let db := initialize_replay batch db in
  _ ← statement f "lock replay" 0 (fun err => ErrWrap "lock agent replay state: %w" [] [err]);
  match sd_replay db !! ba_SessionID batch with
  | None => Err (ErrWrap "lock agent replay state: %w" [] [ErrSentinel "no rows in result set"])
  | Some row =>
      _ ← reject (negb (strings_EqualFold (ry_producer_id row) (ba_ProducerID batch))) ErrSyncProducerMismatch;
      let floor := if ry_retired_through row <? ba_RetiredThrough batch then ba_RetiredThrough batch
                   else ry_retired_through row in
      _ ← reject ((0 <? ba_BatchSequence batch) && (ba_BatchSequence batch <=? floor)) ErrSyncBatchRetired;
      let allocated := if ry_allocated_through row <? ba_AllocatedThrough batch then ba_AllocatedThrough batch
                       else ry_allocated_through row in
      _ ← statement f "advance replay" 0 (fun err => ErrWrap "advance agent replay controls: %w" [] [err]);
      db ← advance_replay (ba_SessionID batch) row floor allocated db;
      Ok (floor, db)
  end.

(** * Live signals *)

(** An upsert of vps_followups: nothing when the same matter was settled, else a
    pending row that is inserted or refreshed. *)
Definition upsertVPSFollowup (f : faults) (id : result string) (vpsID kind : string) (dedupe : string * option Z)
    (summary : string) (details : string * string * Z) (rows : list followup_row) : result (list followup_row) :=
  _ ← id;
  _ ← statement f "upsert followup" 0 (fun err => err);
  let same r := (fo_vps_id r =s vpsID) && (fo_kind r =s kind) && bool_decide (fo_dedupe_key r = dedupe) in
  let row := {| fo_vps_id := vpsID; fo_kind := kind; fo_dedupe_key := dedupe; fo_status := "pending";
                fo_summary := summary; fo_details := details |} in
  if existsb (fun r => same r && ((fo_status r =s "resolved") || (fo_status r =s "ignored"))) rows then Ok rows
  else if existsb (fun r => same r && (fo_status r =s "pending")) rows
  then Ok ((fun r => if same r && (fo_status r =s "pending") then row else r) <$> rows)
  else Ok (rows ++ [row]).

(** A live signal counts once: its number must exceed the highest seen. *)
Definition recordTrustedLiveSignal (io : sync_io) (batch : Batch body) (state : acceptedSyncBatchState)
    (db : sync_db) : result (bool * sync_db) :=
  let f := si_faults io in
  match ba_LiveSignal batch with
  | None => Ok (false, db)
  | Some signal =>
      _ ← statement f "advance live signal" 0 (fun err => ErrWrap "advance trusted live signal: %w" [] [err]);
      match sd_replay db !! ba_SessionID batch with
      | None => Ok (false, db)
      | Some row =>
          if negb (ry_live_sequence_high row <? ls_Sequence signal) then Ok (false, db)
          else
            db ← match update_replay (ba_SessionID batch)
                         {| ry_producer_id := ry_producer_id row; ry_retired_through := ry_retired_through row;
                            ry_allocated_through := ry_allocated_through row;
                            ry_live_sequence_high := ls_Sequence signal |} db with
                 | Ok db => Ok db
                 | Err err => Err (ErrWrap "advance trusted live signal: %w" [] [err])
                 end;
            let receivedAt := si_db_clock io in
            _ ← statement f "touch session" 0 (fun err => ErrWrap "touch session online evidence: %w" [] [err]);
            let db := set_sessions (alter (fun s => {|
                se_monitoring_instance_id := se_monitoring_instance_id s;
                se_fingerprint_hash := se_fingerprint_hash s; se_token_hash := se_token_hash s;
                se_capability := se_capability s; se_last_trusted_online_at := Some receivedAt;
                se_ever_connected := true |}) (ba_SessionID batch) (sd_sessions db)) db in
            _ ← statement f "touch instance" 0 (fun err => ErrWrap "touch instance online evidence: %w" [] [err]);
            let enroll := (ac_Capability state =s "full") && negb (ac_Archived state) in
            let db := set_instances (alter (fun i =>
                instance_with_online receivedAt
                  (if enroll && (in_lifecycle_status i =s LifecyclePendingEnrollment) then LifecycleInUse
                   else in_lifecycle_status i) i) (ba_MonitoringInstanceID batch) (sd_instances db)) db in
            if ac_Archived state then
              rows ← upsertVPSFollowup f (si_id io "followup" 0) (ac_VPSID state) "archived_online"
                       (ac_VPSID state, ac_VPSArchivedAt state)
                       "已归档 VPS 的 Agent 再次在线，请核对资源是否仍在运行"
                       (ba_MonitoringInstanceID batch, ba_SessionID batch, receivedAt) (sd_followups db);
              Ok (true, set_followups rows db)
            else Ok (true, db)
      end
  end.

(** * Facts *)

Definition batchWithReceivedAt (receivedAt : Z) (batch : Batch body) : list HostSample * list ProbeObservation :=
  ((fun s => host_sample_with receivedAt (hs_CPURatesValid s) s) <$> ba_HostSamples batch,
   observation_with_received receivedAt <$> ba_ProbeObservations batch).

(** Answers the rows with the new ones and the latest observation. *)
Definition recordHeartbeatBatch (f : faults) (instance fingerprint : string) (receivedAt : Z)
    (writes : list MonitoringInstanceHeartbeat) (rows : list heartbeat_row) : result (Z * list heartbeat_row) :=
  match writes with
  | [] => Err (ErrNew "index out of range [0]")
  | first :: _ =>
      fold_result (fun n write acc =>
          _ ← reject (hbp_Fingerprint write <>s fingerprint) ErrBindingNotAccepted;
          _ ← statement f "insert heartbeat" n
                (fun err => ErrWrap "record heartbeat for monitoring instance %q: %w" [instance] [err]);
          Ok (if Time_After (hbp_ObservedAt write) acc.1 then hbp_ObservedAt write else acc.1,
              acc.2 ++ [{| hr_monitoring_instance_id := instance; hr_received_at := receivedAt;
                           hr_payload := write |}]))
        0 writes (hbp_ObservedAt first, rows)
  end.

Definition InvalidIPQualityReportName : string := "invalid ip quality report".

Definition ValidateReportWrite (report : ReportWrite body) : result unit :=
  _ ← reject ((strings_TrimSpace (rw_MonitoringInstanceID report) =s "") || Time_IsZero (rw_ObservedAt report) ||
              (strings_TrimSpace (rw_AgentVersion report) =s "") || (strings_TrimSpace (rw_Fingerprint report) =s "") ||
              (strings_TrimSpace (rw_SyncBatchID report) =s "") || (strings_TrimSpace (rw_IPAddress report) =s "") ||
              (rw_IPVersion report =? 0) || (strings_TrimSpace (rw_Status report) =s ""))
        (ErrSentinel InvalidIPQualityReportName);
  reject (negb (report_body_valid report)) (ErrSentinel InvalidIPQualityReportName).

Definition report_with_received (receivedAt : Z) (report : ReportWrite body) : ReportWrite body := {|
  rw_MonitoringInstanceID := rw_MonitoringInstanceID report; rw_ObservedAt := rw_ObservedAt report;
  rw_ReceivedAt := if Time_IsZero (rw_ReceivedAt report) then receivedAt else rw_ReceivedAt report;
  rw_AgentVersion := rw_AgentVersion report; rw_Fingerprint := rw_Fingerprint report;
  rw_SyncBatchID := rw_SyncBatchID report; rw_IPAddress := rw_IPAddress report;
  rw_IPVersion := rw_IPVersion report; rw_Status := rw_Status report; rw_Body := rw_Body report |}.

Definition recordIPQualityReports (io : sync_io) (reports : list (ReportWrite body)) (receivedAt : Z)
    (rows : list (string * ReportWrite body)) : result (list (string * ReportWrite body)) :=
  fold_result (fun n report rows =>
      _ ← ValidateReportWrite report;
      match si_id io "ipq" n with
      | Err err => Err (ErrWrap "generate ip quality report id: %w" [] [err])
      | Ok reportID =>
          _ ← statement (si_faults io) "write ip quality report" n (fun err => err);
          Ok (rows ++ [(reportID, report_with_received receivedAt report)])
      end) 0 reports rows.

Definition lifecycleStatusAfterAcceptedSync (current : string) (hasHostSample : bool) : string :=
  if hasHostSample && (current =s LifecyclePendingEnrollment) then LifecycleInUse else current.

Definition MonitoringInstanceNotFound : error := ErrSentinel "monitoring instance not found".

Definition advanceMonitoringInstanceSyncState (f : faults) (id : string) (heartbeat sync : Z) (lifecycle : string)
    (db : sync_db) : result sync_db :=
  _ ← statement f "touch sync state" 0
        (fun err => ErrWrap "touch sync batch state for monitoring instance %q: %w" [id] [err]);
  match sd_instances db !! id with
  | None => Err MonitoringInstanceNotFound
  | Some i => Ok (set_instances (<[id := instance_with_sync heartbeat sync lifecycle i]> (sd_instances db)) db)
  end.

(** * Command actions *)

Definition commandActionStatusPending : string := "pending".
Definition commandActionStatusDone : string := "done".
Definition commandActionOutputTTL : Z := 24 * Hour.
Definition CommandActionSourceWeb : string := "web".
Definition CommandActionSourceAgentSync : string := "agent_sync".

Definition knownCommandDefinitions : list (string * string) :=
  [("df_h", "standard"); ("free_m", "standard"); ("uptime", "standard"); ("top_head", "sensitive");
   ("journalctl_u", "sensitive"); ("systemctl_status", "sensitive"); ("dmesg_err", "sensitive");
   ("docker_ps", "sensitive")].

Definition SensitivityForCommand (commandID : string) : option string :=
  snd <$> List.find (fun c => c.1 =s commandID) knownCommandDefinitions.

Definition sensitivityForKnownCommand (commandID : string) : string := default "" (SensitivityForCommand commandID).

(** [Format(time.RFC3339)] keeps the seconds. *)
Definition rfc3339 (t : Z) : Z := Time_Truncate t Second.

Definition marshalPendingLastAction (actionID commandID sensitivity : string) (queuedAt : Z) : LastAction := {|
  la_ActionID := actionID; la_CommandID := commandID; la_Status := commandActionStatusPending;
  la_Sensitivity := sensitivity; la_QueuedAt := Some (rfc3339 queuedAt); la_Stdout := ""; la_Stderr := "";
  la_ExitCode := None; la_CompletedAt := None; la_OutputExpiresAt := None; la_OutputExpired := false |}.

(** What was queued keeps its sensitivity and its time. *)
Definition marshalDispatchedPendingLastAction (now : Z) (actionID commandID : string) (existing : option LastAction)
    (dispatchedAt : Z) : LastAction :=
  let known := sensitivityForKnownCommand commandID in
  let sensitivity := if known =s "" then "standard" else known in
  let queuedAt := if Time_IsZero dispatchedAt then now else dispatchedAt in
  match existing with
  | Some e =>
      if (la_ActionID e =s actionID) && (la_CommandID e =s commandID) && (la_Status e =s commandActionStatusPending)
      then marshalPendingLastAction actionID commandID
             (if la_Sensitivity e =s "" then sensitivity else la_Sensitivity e)
             (match la_QueuedAt e with
              | Some t => if Time_IsZero t then queuedAt else t
              | None => queuedAt
              end)
      else marshalPendingLastAction actionID commandID sensitivity queuedAt
  | None => marshalPendingLastAction actionID commandID sensitivity queuedAt
  end.

Definition marshalCompletedLastAction (r : CommandResult) (completedAt : Z) : LastAction := {|
  la_ActionID := cr_ActionID r; la_CommandID := cr_CommandID r; la_Status := commandActionStatusDone;
  la_Sensitivity := ""; la_QueuedAt := None; la_Stdout := redact_Secrets (cr_Stdout r);
  la_Stderr := redact_Secrets (cr_Stderr r); la_ExitCode := Some (cr_ExitCode r);
  la_CompletedAt := Some (rfc3339 completedAt);
  la_OutputExpiresAt := Some (rfc3339 (Time_Add completedAt commandActionOutputTTL));
  la_OutputExpired := false |}.

Definition validateCommandActionAuditEvent (e : commandActionAuditEvent) : result unit :=
  if ca_EventType e =s "rejected" then
    _ ← reject (ca_ActionID e <>s "") (ErrNew "rejected command action audit must not have an action id");
    reject (ca_Source e <>s CommandActionSourceWeb) (ErrNew "rejected command action audit must have web source")
  else if existsb (String.eqb (ca_EventType e)) ["queued"; "dispatched"; "completed"; "cancelled"] then
    reject (ca_ActionID e =s "") (ErrWrap "%s command action audit must have an action id" [ca_EventType e] [])
  else Err (ErrWrap "unsupported command action audit event type %q" [ca_EventType e] []).

(** The events of the sync path have no actor: the insert selects the instance. *)
Definition insertCommandActionAudit (io : sync_io) (n : nat) (e : commandActionAuditEvent) (db : sync_db)
    : result sync_db :=
  let trimmed := strings_TrimSpace (ca_Source e) in
  let source := if (trimmed =s "") && (ca_EventType e <>s "rejected") then CommandActionSourceAgentSync else trimmed in
  let e := {| ca_ActionID := ca_ActionID e; ca_MonitoringInstanceID := ca_MonitoringInstanceID e;
              ca_CommandID := ca_CommandID e; ca_Sensitivity := ca_Sensitivity e;
              ca_EventType := ca_EventType e; ca_ActorUserID := ca_ActorUserID e; ca_Source := source;
              ca_ExitCode := ca_ExitCode e;
              ca_OccurredAt := if Time_IsZero (ca_OccurredAt e) then si_now io else ca_OccurredAt e |} in
  _ ← validateCommandActionAuditEvent e;
  match si_id io "cmd_aud" n with
  | Err err => Err (ErrWrap "generate command action audit id: %w" [] [err])
  | Ok auditID =>
      _ ← statement (si_faults io) "insert audit" n (fun err => ErrWrap "insert command action audit: %w" [] [err]);
      match sd_instances db !! ca_MonitoringInstanceID e with
      | None => Err (ErrWrap "command action audit must have inserted exactly one row: inserted %d" ["0"] [])
      | Some _ => Ok (set_audits (sd_audits db ++ [(auditID, e)]) db)
      end
  end.

Definition audit_event (instance action command event : string) (exitCode : option Z) (at_ : Z)
    : commandActionAuditEvent := {|
  ca_ActionID := action; ca_MonitoringInstanceID := instance; ca_CommandID := command;
  ca_Sensitivity := sensitivityForKnownCommand command; ca_EventType := event; ca_ActorUserID := "";
  ca_Source := CommandActionSourceAgentSync; ca_ExitCode := exitCode; ca_OccurredAt := at_ |}.

(** Answers the action that is handed to the agent, if one is queued. *)
Definition dispatchPendingAction (io : sync_io) (n : nat) (id : string) (dispatchedAt : Z) (db : sync_db)
    : result (option PendingAction * sync_db) :=
  let f := si_faults io in
  _ ← statement f "query pending action" 0
        (fun err => ErrWrap "query pending action for monitoring instance %q: %w" [id] [err]);
  match sd_instances db !! id with
  | None => Ok (None, db)
  | Some i =>
      match in_pending_action_id i, in_pending_action_command_id i with
      | Some actionID, Some commandID =>
          let last := marshalDispatchedPendingLastAction (si_now io) actionID commandID (in_last_action i) dispatchedAt in
          _ ← statement f "clear pending action" 0
                (fun err => ErrWrap "clear pending action for monitoring instance %q: %w" [id] [err]);
          let db := set_instances (<[id := instance_with_action (None, None) last i]> (sd_instances db)) db in
          match insertCommandActionAudit io n (audit_event id actionID commandID "dispatched" None dispatchedAt) db with
          | Err err => Err (ErrWrap "insert dispatched command action audit for monitoring instance %q: %w" [id] [err])
          | Ok db => Ok (Some {| pc_CommandID := commandID; pc_ActionID := actionID |}, db)
          end
      | _, _ => Ok (None, db)
      end
  end.

(** A result is stored only for the action in flight. *)
Definition storeCommandResults (io : sync_io) (id : string) (results : list CommandResult) (completedAt : Z)
    (db : sync_db) : result sync_db :=
  fold_result (fun n r db =>
      if (cr_ActionID r =s "") || (cr_CommandID r =s "") then Ok db
      else
        _ ← statement (si_faults io) "store command result" n
              (fun err => ErrWrap "store command result for monitoring instance %q: %w" [id] [err]);
        match sd_instances db !! id with
        | None => Ok db
        | Some i =>
            match in_last_action i with
            | Some last =>
                if (la_Status last =s commandActionStatusPending) && (la_ActionID last =s cr_ActionID r) &&
                   (la_CommandID last =s cr_CommandID r)
                then
                  let db := set_instances (<[id := instance_with_action
                              (in_pending_action_id i, in_pending_action_command_id i)
                              (marshalCompletedLastAction r completedAt) i]> (sd_instances db)) db in
                  match insertCommandActionAudit io n
                          (audit_event id (cr_ActionID r) (cr_CommandID r) "completed" (Some (cr_ExitCode r))
                             completedAt) db with
                  | Err err =>
                      Err (ErrWrap "insert completed command action audit for monitoring instance %q: %w" [id] [err])
                  | Ok db => Ok db
                  end
                else Ok db
            | None => Ok db
            end
        end) 0 results db.

(** * A batch *)

(** The plan of an instance as the tables of the transaction are. *)
Definition plan_in (f : faults) (id : string) (db : sync_db) : result SyncPlan :=
  buildSyncPlan (f "plan labels" 0%nat) (f "plan assignments" 0%nat)
    ((fun i => {| pi_labels := in_labels i; pi_lifecycle_status := in_lifecycle_status i;
                  pi_monitoring_status := in_monitoring_status i; pi_archived := in_archived i |})
       <$> sd_instances db !! id)
    (sd_settings db) (sd_plan_targets db) (sd_plan_probes db) id.

Definition with_pending (pending : option PendingAction) (plan : SyncPlan) : SyncPlan := {|
  sp_HostSampleFrequencyTier := sp_HostSampleFrequencyTier plan;
  sp_HostSampleMaintenanceContext := sp_HostSampleMaintenanceContext plan;
  sp_ProbeAssignments := sp_ProbeAssignments plan; sp_IPQualityPlan := sp_IPQualityPlan plan;
  sp_PendingAction := pending |}.

(** What [applyBatch] does with a batch that is new, authorised and inside the window:
    the receipt, the facts, the state of the instance, the command actions and the
    plan. *)
Definition record_batch (io : sync_io) (batch : Batch body) (state : acceptedSyncBatchState) (liveAdvanced : bool)
    (db : sync_db) : result (SyncPlan * sync_db) :=
  let f := si_faults io in
  let id := ba_MonitoringInstanceID batch in
  let receivedAt := si_now io in
  let '(samples, observations) := batchWithReceivedAt receivedAt batch in
  _ ← validateProbeObservations f (od_probe_items (sd_observations db)) observations;
  _ ← statement f "insert receipt" 0 (fun err => ErrWrap "record sync batch receipt: %w" [] [err]);
  db ← match insert_receipt (ba_SessionID batch) (ba_BatchSequence batch) (ba_PayloadDigest batch) db with
       | Ok db => Ok db
       | Err err => Err (ErrWrap "record sync batch receipt: %w" [] [err])
       end;
  beats ← recordHeartbeatBatch f id (ac_BindingFingerprint state) receivedAt (ba_Heartbeats batch) (sd_heartbeats db);
  facts ← recordObservationBatch f samples observations (sd_observations db);
  reports ← recordIPQualityReports io (ba_IPQualityReports batch) receivedAt (sd_reports db);
  let db := set_facts beats.2 facts reports db in
  db ← advanceMonitoringInstanceSyncState f id beats.1 receivedAt
         (lifecycleStatusAfterAcceptedSync (ac_LifecycleStatus state) liveAdvanced) db;
  db ← storeCommandResults io id (ba_CommandResults batch) receivedAt db;
  pending ← dispatchPendingAction io (length (ba_CommandResults batch)) id receivedAt db;
  plan ← plan_in f id pending.2;
  Ok (with_pending pending.1 plan, pending.2).

Definition equalSyncDigest (stored expected : string) : bool := stored =s expected.

(** What the transaction decides, before it commits. *)
Record decision := {
  dc_Disposition : string;
  dc_StopCollection : bool;
  dc_Plan : SyncPlan;
}.

Definition decide_batch (io : sync_io) (batch : Batch body) (state : acceptedSyncBatchState) (floor : Z)
    (liveAdvanced : bool) (db : sync_db) : result (decision * sync_db) :=
  let f := si_faults io in
  let sequence := ba_BatchSequence batch in
  let finish disposition stop plan db :=
    Ok ({| dc_Disposition := disposition; dc_StopCollection := stop; dc_Plan := plan |}, db) in
  receipt ← (if 0 <? sequence then
               _ ← statement f "read receipt" 0 (fun err => ErrWrap "read sync batch receipt: %w" [] [err]);
               Ok (sd_receipts db !! (ba_SessionID batch, sequence))
             else Ok None);
  match receipt with
  | Some digest =>
      if negb (equalSyncDigest digest (ba_PayloadDigest batch)) then Err ErrSyncBatchIdentityConflict
      else finish ResultDispositionExactDuplicate (SuppressWritesAndPlan state) zero_plan db
  | None =>
      if SuppressWritesAndPlan state then finish ResultDispositionSuppressed true zero_plan db
      else if sequence =? 0 then
        plan ← plan_in f (ba_MonitoringInstanceID batch) db;
        finish ResultDispositionSuppressed false plan db
      else if SyncReplayWindow <? sequence - floor then finish ResultDispositionDeferred false zero_plan db
      else
        recorded ← record_batch io batch state liveAdvanced db;
        finish ResultDispositionRecorded false recorded.1 recorded.2
  end.

(** Everything up to the commit: the answer and the tables it would leave. *)
Definition sync_transaction (io : sync_io) (batch : Batch body) (db : sync_db) : result (Result * sync_db) :=
  let f := si_faults io in
  let id := ba_MonitoringInstanceID batch in
  _ ← statement f "begin" 0
        (fun err => ErrWrap "begin sync batch transaction for monitoring instance %q: %w" [id] [err]);
  _ ← statement f "lock graph" 0
        (fun err => ErrWrap "lock asset graph for sync batch of monitoring instance %q: %w" [id]
                      [ErrWrap "lock asset graph for sync: %w" [] [err]]);
  state ← validateAcceptedSyncBatch f db batch;
  replay ← acceptSyncReplayState f batch db;
  live ← recordTrustedLiveSignal io batch state replay.2;
  decided ← decide_batch io batch state replay.1 live.1 live.2;
  let d := decided.1 in
  Ok ({| re_SessionID := ba_SessionID batch; re_ProducerID := ba_ProducerID batch;
         re_BatchSequence := ba_BatchSequence batch; re_BatchDigest := hex_EncodeToString (ba_PayloadDigest batch);
         re_RetiredThrough := replay.1; re_StopCollection := dc_StopCollection d;
         re_Disposition := dc_Disposition d;
         re_LiveCollectionAllowed :=
           live.1 && (ac_Capability state =s "full") && negb (SuppressWritesAndPlan state) &&
           ((dc_Disposition d =s ResultDispositionRecorded) ||
            (ba_BatchSequence batch =? 0) && (dc_Disposition d =s ResultDispositionSuppressed));
         re_AcceptedAt := si_now io; re_Plan := dc_Plan d |}, decided.2).

(** [applyBatch]: an error before the commit rolls back. *)
Definition applyBatch (io : sync_io) (batch : Batch body) (db : sync_db) : result Result * sync_db :=
  match ValidateBatchProtocol sync_uuid_Parse batch with
  | Err err => (Err err, db)
  | Ok _ =>
      match sync_transaction io batch db with
      | Err err => (Err err, db)
      | Ok (r, db') =>
          match si_commit io with
          | Committed => (Ok r, db')
          | CommitFailed err applied =>
              (Err (ErrWrap "commit %s sync batch for monitoring instance %q: %w"
                      [re_Disposition r; ba_MonitoringInstanceID batch] [err]),
               if applied then db' else db)
          end
      end
  end.

Definition isSyncAdmissionError (err : error) : bool :=
  existsb (fun name => errors_Is name err)
    [InvalidSyncTokenName; BindingNotAcceptedName; HeartbeatRequiredName; SyncProtocolRequiredName;
     InvalidReplayStateName; SyncProducerMismatchName; SyncBatchRetiredName; SyncBatchIdentityConflictName;
     "monitoring instance not found"; InvalidProbeObservationName].

(** [ApplyBatch]; the last component says whether the fault of the receiver is
    reported. *)
Definition ApplyBatch (io : sync_io) (batch : Batch body) (db : sync_db) : result Result * sync_db * bool :=
  let '(r, db') := applyBatch io batch db in
  (r, db', match r with Ok _ => false | Err err => negb (isSyncAdmissionError err) end).
End Store.
