(* ===== verification/SyncStoreProps.v ===== *)
(** What the repository of sync batches guarantees: the invariant of the replay
    tables, what a committed batch leaves behind, that a batch is recorded at most once
    whatever is replayed or lost, and the ledger it implements. *)
From stdpp Require Import base list sorting strings gmap.
From Stdlib Require Import ZArith Lia.
From S2P Require Import Prelude GoRuntime Json AgentApi IncidentTypes Wire AgentPlan ObservationStore SyncProtocol.
From S2P Require Import SyncStore.

Local Open Scope Z_scope.
#[local] Set Warnings "-clear-no-such-hyp".

(** Take a monadic computation that succeeded apart. *)
Ltac result_ok :=
  repeat match goal with
  | H : (_ ≫= _) = Ok _ |- _ => apply result_bind_ok in H; destruct H as (? & ? & H); cbn beta in H
  | H : reject _ _ = Ok _ |- _ => apply reject_ok in H
  | H : Ok _ = Ok _ |- _ => injection H; clear H; intros
  | H : Err _ = Ok _ |- _ => discriminate H
  end.

Section Props.
Context {body : Type} `{Env : @SyncEnv body}.
Implicit Types (db : @sync_db body) (batch : Batch body) (io : sync_io).

(** * Validated batches *)

(** What [ValidateBatchProtocol] promises of the replay fields. *)
Record batch_ok (batch : Batch body) : Prop := {
  bo_bounds : 0 <= ba_RetiredThrough batch <= ba_AllocatedThrough batch;
  bo_sequence : 0 <= ba_BatchSequence batch <= ba_AllocatedThrough batch;
  bo_retired : ba_BatchSequence batch = 0 \/ ba_RetiredThrough batch < ba_BatchSequence batch;
  bo_live : forall signal, ba_LiveSignal batch = Some signal -> 0 < ls_Sequence signal;
  bo_beats : ba_BatchSequence batch <> 0 -> ba_Heartbeats batch <> [];
}.

Lemma validated_ok batch u : ValidateBatchProtocol sync_uuid_Parse batch = Ok u -> batch_ok batch.
Proof.
  unfold ValidateBatchProtocol, replay_bounds_bad, live_signal_bad. intros H. result_ok. breflect.
  destruct (Z.eqb_spec (ba_BatchSequence batch) 0); result_ok; split; try lia; intros.
  all: try match goal with E : ba_LiveSignal _ = Some _ |- _ => rewrite E in * end; breflect; try lia.
  all: by destruct (ba_Heartbeats batch).
Qed.

(** * The invariant of the replay tables *)

Record row_wf (row : replay_row) : Prop := {
  rw_bounds : 0 <= ry_retired_through row <= ry_allocated_through row;
  rw_live : 0 <= ry_live_sequence_high row;
}.

Record replay_wf db : Prop := {
  wf_rows : forall s row, sd_replay db !! s = Some row -> row_wf row;
  wf_receipts : forall s n d, sd_receipts db !! (s, n) = Some d ->
    exists row, sd_replay db !! s = Some row /\
      ry_retired_through row < n <= ry_allocated_through row /\
      n - ry_retired_through row <= SyncReplayWindow;
}.

(** The tables of facts; command actions are counted by their audits. *)
Definition same_facts db db' : Prop :=
  sd_heartbeats db' = sd_heartbeats db /\ sd_observations db' = sd_observations db /\
  sd_reports db' = sd_reports db /\ sd_audits db' = sd_audits db.

#[export] Instance same_facts_preorder : PreOrder same_facts.
Proof. split; [done|]. intros ??? (?&?&?&?) (?&?&?&?). repeat split; congruence. Qed.

(** A queued action has a name. *)
Definition pending_named db : Prop :=
  forall id i, sd_instances db !! id = Some i -> in_pending_action_id i <> Some "".

(** What a call never changes: who may send, for which asset, and the settings. *)
Definition instance_authority (i : instance_row) : string * string := (in_binding_status i, in_vps_id i).

Definition session_authority (s : session_row) : string * string * string * string :=
  (se_monitoring_instance_id s, se_fingerprint_hash s, se_token_hash s, se_capability s).

Record same_authority db db' : Prop := {
  sa_vps : sd_vps db' = sd_vps db;
  sa_instances : forall id, instance_authority <$> sd_instances db' !! id = instance_authority <$> sd_instances db !! id;
  sa_sessions : forall id, session_authority <$> sd_sessions db' !! id = session_authority <$> sd_sessions db !! id;
  sa_settings : sd_settings db' = sd_settings db;
  sa_pending : pending_named db -> pending_named db';
}.

#[export] Instance same_authority_preorder : PreOrder same_authority.
Proof. split; [by split|]. intros ??? [A1 A2 A3 A4 A5] [B1 B2 B3 B4 B5]. split; intros; [congruence..|auto]. Qed.

Lemma insert_authority (instances : gmap string instance_row) id i i' :
  instances !! id = Some i -> instance_authority i' = instance_authority i ->
  forall k, instance_authority <$> <[id := i']> instances !! k = instance_authority <$> instances !! k.
Proof.
  intros E Ea k. destruct (decide (k = id)) as [->|]; [by rewrite lookup_insert_eq, E; cbn; rewrite Ea|].
  by rewrite lookup_insert_ne.
Qed.

Lemma insert_named db id i' :
  pending_named db -> in_pending_action_id i' <> Some "" ->
  pending_named (set_instances (<[id := i']> (sd_instances db)) db).
Proof.
  intros Hp Hi k i. cbn. destruct (decide (k = id)) as [->|]; [by rewrite lookup_insert_eq; intros [= <-]|].
  rewrite lookup_insert_ne by done. by apply Hp.
Qed.

Definition fresh_row batch : replay_row := {|
  ry_producer_id := default (ba_ProducerID batch) (sync_uuid_Parse (ba_ProducerID batch));
  ry_retired_through := 0; ry_allocated_through := 0; ry_live_sequence_high := 0 |}.

(** The row a batch meets. *)
Definition row_of batch db : replay_row := default (fresh_row batch) (sd_replay db !! ba_SessionID batch).

Lemma row_of_wf batch db : replay_wf db -> row_wf (row_of batch db).
Proof.
  intros Hwf. unfold row_of. destruct (sd_replay db !! _) eqn:E; [by eapply wf_rows|]. split; cbn; lia.
Qed.

(** What the acceptance of the watermarks leaves of the tables. *)
Record accepted batch db (floor : Z) db' : Prop := {
  ap_floor : floor = Z.max (ry_retired_through (row_of batch db)) (ba_RetiredThrough batch);
  ap_sequence : ba_BatchSequence batch = 0 \/ floor < ba_BatchSequence batch;
  ap_producer : strings_EqualFold (ry_producer_id (row_of batch db)) (ba_ProducerID batch) = true;
  ap_row : forall s, sd_replay db' !! s =
    if decide (s = ba_SessionID batch) then Some {|
      ry_producer_id := ry_producer_id (row_of batch db); ry_retired_through := floor;
      ry_allocated_through := Z.max (ry_allocated_through (row_of batch db)) (ba_AllocatedThrough batch);
      ry_live_sequence_high := ry_live_sequence_high (row_of batch db) |}
    else sd_replay db !! s;
  ap_receipts : forall s n, sd_receipts db' !! (s, n) =
    if decide (s = ba_SessionID batch /\ n <= floor) then None else sd_receipts db !! (s, n);
  ap_facts : same_facts db db';
  ap_authority : same_authority db db';
}.

(** A receipt of the session lies above the floor of its row. *)
Lemma receipt_above batch db n :
  replay_wf db -> n <= ry_retired_through (row_of batch db) -> sd_receipts db !! (ba_SessionID batch, n) = None.
Proof.
  intros Hwf Hn. destruct (sd_receipts db !! _) as [d|] eqn:E; [|done].
  destruct (wf_receipts _ Hwf _ _ _ E) as (row & Er & Hb & _). unfold row_of in Hn. rewrite Er in Hn. cbn in Hn. lia.
Qed.

Lemma initialized_row batch db : sd_replay (initialize_replay batch db) !! ba_SessionID batch = Some (row_of batch db).
Proof.
  unfold initialize_replay, row_of. destruct (sd_replay db !! _) eqn:E; cbn; [by rewrite E|].
  by rewrite lookup_insert_eq.
Qed.

Lemma initialized_other batch db s :
  s <> ba_SessionID batch -> sd_replay (initialize_replay batch db) !! s = sd_replay db !! s.
Proof.
  intros Hne. unfold initialize_replay. destruct (sd_replay db !! ba_SessionID batch); [done|]. cbn.
  by rewrite lookup_insert_ne.
Qed.

Lemma initialized_frame batch db :
  sd_receipts (initialize_replay batch db) = sd_receipts db /\ same_facts db (initialize_replay batch db) /\
  same_authority db (initialize_replay batch db).
Proof. unfold initialize_replay. by destruct (sd_replay db !! _). Qed.

(** An update that moves no watermark back and keeps the checks succeeds. *)
Lemma update_replay_ok session old new db :
  sd_replay db !! session = Some old -> ry_producer_id new = ry_producer_id old ->
  ry_retired_through old <= ry_retired_through new -> ry_allocated_through old <= ry_allocated_through new ->
  ry_live_sequence_high old <= ry_live_sequence_high new -> row_wf new ->
  exists db', update_replay session new db = Ok db' /\
    (forall s, sd_replay db' !! s = if decide (s = session) then Some new else sd_replay db !! s) /\
    (forall s n, sd_receipts db' !! (s, n) =
       if decide (s = session /\ n <= ry_retired_through new /\ ry_retired_through old < ry_retired_through new)
       then None else sd_receipts db !! (s, n)) /\
    same_facts db db' /\ same_authority db db'.
Proof.
  intros E Ep H1 H2 H3 [Hb Hl]. unfold update_replay. rewrite E, Ep, String.eqb_refl.
  repeat match goal with |- context [?a <? ?b] => first
    [rewrite (proj2 (Z.ltb_ge a b)) by lia | destruct (Z.ltb_spec a b)] end; cbn [negb orb].
  all: eexists; split; [reflexivity|]; cbn; split_and!; try done;
    try (intros s; destruct (decide (s = session)) as [->|]; [by rewrite lookup_insert_eq|by rewrite lookup_insert_ne]).
  - intros s n. rewrite map_lookup_filter. destruct (sd_receipts db !! (s, n)) as [d|] eqn:Er; cbn.
    + destruct (decide (s = session /\ n <= ry_retired_through new)) as [[-> ?]|Hn].
      * rewrite decide_True by done. rewrite option_guard_False; [done|]. intros Hc. apply Hc. done.
      * rewrite decide_False by tauto. by rewrite option_guard_True.
    + by destruct (decide _).
  - intros s n. rewrite decide_False by lia. done.
Qed.

Lemma advance_replay_ok session row floor allocated db :
  sd_replay db !! session = Some row -> row_wf row ->
  ry_retired_through row <= floor -> ry_allocated_through row <= allocated -> floor <= allocated ->
  (forall n, n <= ry_retired_through row -> sd_receipts db !! (session, n) = None) ->
  exists db', advance_replay session row floor allocated db = Ok db' /\
    (forall s, sd_replay db' !! s = if decide (s = session) then Some {|
        ry_producer_id := ry_producer_id row; ry_retired_through := floor; ry_allocated_through := allocated;
        ry_live_sequence_high := ry_live_sequence_high row |} else sd_replay db !! s) /\
    (forall s n, sd_receipts db' !! (s, n) =
       if decide (s = session /\ n <= floor) then None else sd_receipts db !! (s, n)) /\
    same_facts db db' /\ same_authority db db'.
Proof.
  intros E [Hb Hl] H1 H2 H3 Habove. unfold advance_replay. destruct (_ || _) eqn:Ec.
  - edestruct (update_replay_ok session row) as (db' & -> & Ur & Uc & Uf); [done|reflexivity|..].
    5: { exists db'. repeat split; try apply Uf; [exact Ur|]. intros s n. rewrite Uc. cbn.
         destruct (decide (s = session /\ n <= floor)) as [[-> Hn]|Hn]; [|by rewrite decide_False by tauto].
         destruct (decide _) as [|Hd]; [done|]. apply Habove.
         assert (~ ry_retired_through row < floor) by tauto. lia. }
    all: try split; cbn; lia.
  - breflect. subst floor allocated. exists db. split_and!; try done.
    + intros s. destruct (decide (s = session)) as [->|]; [|done]. rewrite E. by destruct row.
    + intros s n. destruct (decide _) as [[-> Hn]|]; [by apply Habove|done].
Qed.

Lemma acceptSyncReplayState_spec f batch db floor db' :
  replay_wf db -> batch_ok batch -> acceptSyncReplayState f batch db = Ok (floor, db') ->
  accepted batch db floor db'.
Proof.
  intros Hwf Hb H. unfold acceptSyncReplayState in H. rewrite initialized_row in H.
  pose proof (row_of_wf batch db Hwf) as Hrow. destruct (bo_bounds _ Hb) as [B1 B2].
  destruct (initialized_frame batch db) as (Ir & If & Ia). destruct Hrow as [Hr Hl].
  set (row := row_of batch db) in *. result_ok. subst. breflect.
  match goal with Hu : advance_replay _ _ _ _ _ = _ |- _ => rename Hu into Hupd end.
  assert (forall a b : Z, (if a <? b then b else a) = Z.max a b) as Hmax
    by (intros a b; destruct (Z.ltb_spec a b); lia).
  rewrite !Hmax in *.
  match goal with Hs : (_ && _)%bool = false |- _ => rename Hs into Hseq end.
  edestruct (advance_replay_ok (ba_SessionID batch) row) as (db1 & E1 & Ur & Uc & Uf & Ua);
    [apply initialized_row|by apply row_of_wf|..|rewrite E1 in Hupd; injection Hupd as <-].
  4: { intros n Hn. rewrite Ir. by apply receipt_above. }
  1-3: lia.
  split; fold row; try done.
  - apply andb_false_iff in Hseq as [Hs|Hs]; breflect; [|by right]. destruct (bo_sequence _ Hb). left. lia.
  - intros s. rewrite Ur. destruct (decide _); [done|]. by apply initialized_other.
  - intros s n. by rewrite Uc, Ir.
  - by transitivity (initialize_replay batch db).
  - by transitivity (initialize_replay batch db).
Qed.

(** * Live signals *)

Definition signal_number batch : Z := match ba_LiveSignal batch with Some signal => ls_Sequence signal | None => 0 end.

(** What the live signal leaves: it counts when its number exceeds the highest. *)
Record signalled batch (row : replay_row) db (live : bool) db' : Prop := {
  sg_live : live = (ry_live_sequence_high row <? signal_number batch);
  sg_row : forall s, sd_replay db' !! s =
    if decide (s = ba_SessionID batch) then Some {|
      ry_producer_id := ry_producer_id row; ry_retired_through := ry_retired_through row;
      ry_allocated_through := ry_allocated_through row;
      ry_live_sequence_high := Z.max (ry_live_sequence_high row) (signal_number batch) |}
    else sd_replay db !! s;
  sg_receipts : sd_receipts db' = sd_receipts db;
  sg_facts : same_facts db db';
  sg_authority : same_authority db db';
}.

Lemma recordTrustedLiveSignal_spec io batch state row db live db' :
  sd_replay db !! ba_SessionID batch = Some row -> row_wf row ->
  recordTrustedLiveSignal io batch state db = Ok (live, db') -> signalled batch row db live db'.
Proof.
  intros E Hwf H. unfold recordTrustedLiveSignal in H. unfold signal_number in *.
  assert (signal_number batch <= ry_live_sequence_high row -> db' = db -> live = false ->
    signalled batch row db live db') as Hstay.
  { intros Hn -> ->. split; [symmetry; apply Z.ltb_ge; lia| |done|done|done]. intros s.
    destruct (decide (s = ba_SessionID batch)) as [->|]; [|done]. rewrite E. rewrite Z.max_l by lia. by destruct row. }
  unfold signal_number in Hstay. destruct (ba_LiveSignal batch) as [signal|] eqn:Es.
  2: { result_ok. subst. apply Hstay; [apply (rw_live _ Hwf)|done|done]. }
  apply result_bind_ok in H as (_ & _ & H). rewrite E in H.
  destruct (Z.ltb_spec (ry_live_sequence_high row) (ls_Sequence signal)) as [Hlt|Hge]; cbn [negb] in H.
  2: { result_ok. subst. by apply Hstay. }
  destruct (update_replay_ok (ba_SessionID batch) row {| ry_producer_id := ry_producer_id row;
      ry_retired_through := ry_retired_through row; ry_allocated_through := ry_allocated_through row;
      ry_live_sequence_high := ls_Sequence signal |} db) as (db1 & E1 & Ur & Uc & Uf & Ua);
    [done|done|cbn; destruct Hwf; try split; cbn; lia..|]. rewrite E1 in H. result_ok.
  assert (sd_replay db' = sd_replay db1 /\ sd_receipts db' = sd_receipts db1 /\ same_facts db1 db' /\
    same_authority db1 db' /\ live = true) as (R1 & R2 & R3 & R4 & ->).
  { destruct (ac_Archived state); result_ok; subst; repeat (split; [done|]); split; try done.
    all: split; [done|intros k|intros k|done|intros Hp k i]; cbn; rewrite lookup_alter;
      destruct (decide _) as [<-|]; try done; try (by apply Hp);
      try match goal with |- _ = _ <$> ?m !! ?k => by destruct (m !! k) end.
    all: intros (i0 & Ei & ->)%fmap_Some; cbn; by eapply Hp. }
  split.
  - unfold signal_number. rewrite Es. symmetry. by apply Z.ltb_lt.
  - intros s. rewrite R1, Ur. destruct (decide _); [|done]. unfold signal_number. rewrite Es, Z.max_r by lia. done.
  - rewrite R2. apply map_eq. intros [s n]. rewrite Uc. cbn. by rewrite decide_False by lia.
  - by transitivity db1.
  - by transitivity db1.
Qed.

(** * Facts *)

(** Command actions touch the instances and the audits only, and audits are kept. *)
Record commands_only db db' : Prop := {
  co_replay : sd_replay db' = sd_replay db;
  co_receipts : sd_receipts db' = sd_receipts db;
  co_heartbeats : sd_heartbeats db' = sd_heartbeats db;
  co_observations : sd_observations db' = sd_observations db;
  co_reports : sd_reports db' = sd_reports db;
  co_audits : exists l, sd_audits db' = sd_audits db ++ l;
  co_authority : same_authority db db';
}.

#[export] Instance commands_only_preorder : PreOrder commands_only.
Proof.
  split.
  - intros db. split; try done. exists []. by rewrite app_nil_r.
  - intros db1 db2 db3 [????? [l1 E1] ?] [????? [l2 E2] ?]. split; try congruence.
    + exists (l1 ++ l2). by rewrite E2, E1, app_assoc.
    + by transitivity db2.
Qed.

Lemma set_instances_commands id i i' db :
  sd_instances db !! id = Some i -> instance_authority i' = instance_authority i ->
  in_pending_action_id i' = in_pending_action_id i \/ in_pending_action_id i' = None ->
  commands_only db (set_instances (<[id := i']> (sd_instances db)) db).
Proof.
  intros E Ea Ep. split; try done.
  - exists []. by rewrite app_nil_r.
  - split; [done|by eapply insert_authority|done|done|]. intros Hp. apply insert_named; [done|].
    destruct Ep as [-> | ->]; [by apply (Hp id)|done].
Qed.

Lemma insertCommandActionAudit_commands io n e db db' :
  insertCommandActionAudit io n e db = Ok db' -> commands_only db db'.
Proof.
  unfold insertCommandActionAudit. intros H. apply result_bind_ok in H as (_ & _ & H).
  destruct (si_id io _ _); [|done]. apply result_bind_ok in H as (_ & _ & H).
  destruct (sd_instances db !! _); [|done]. injection H as <-. split; try done. by eexists.
Qed.

Lemma storeCommandResults_commands io id results at_ db db' :
  storeCommandResults io id results at_ db = Ok db' -> commands_only db db'.
Proof.
  unfold storeCommandResults. apply (fold_result_inv (commands_only db)); [|reflexivity].
  intros n r db1 db2 _ Hd H. transitivity db1; [done|]. clear Hd. destruct (_ || _); [result_ok; by subst|].
  apply result_bind_ok in H as (_ & _ & H). destruct (sd_instances db1 !! id) as [i|] eqn:Ei; [|result_ok; by subst].
  destruct (in_last_action i) as [last|]; [|result_ok; by subst]. destruct (_ && _); [|result_ok; by subst].
  destruct (insertCommandActionAudit _ _ _ _) eqn:E; [|done]. injection H as <-.
  apply insertCommandActionAudit_commands in E. etransitivity; [|exact E]. eapply set_instances_commands; [done|done|by auto].
Qed.

Lemma dispatchPendingAction_commands io n id at_ db p db' :
  dispatchPendingAction io n id at_ db = Ok (p, db') -> commands_only db db'.
Proof.
  unfold dispatchPendingAction. intros H. apply result_bind_ok in H as (_ & _ & H).
  destruct (sd_instances db !! id) as [i|] eqn:Ei; [|result_ok; by subst].
  destruct (in_pending_action_id i); [|result_ok; by subst].
  destruct (in_pending_action_command_id i); [|result_ok; by subst].
  apply result_bind_ok in H as (_ & _ & H).
  destruct (insertCommandActionAudit _ _ _ _) eqn:E; [|done]. injection H as <- <-.
  apply insertCommandActionAudit_commands in E. etransitivity; [|exact E]. eapply set_instances_commands; [done|done|by auto].
Qed.

Definition beat_row io batch (write : MonitoringInstanceHeartbeat) : heartbeat_row := {|
  hr_monitoring_instance_id := ba_MonitoringInstanceID batch; hr_received_at := si_now io; hr_payload := write |}.

Lemma heartbeat_loop f instance fingerprint receivedAt n writes acc last rows' :
  fold_result (fun n write acc =>
      _ ← reject (hbp_Fingerprint write <>s fingerprint) ErrBindingNotAccepted;
      _ ← statement f "insert heartbeat" n
            (fun err => ErrWrap "record heartbeat for monitoring instance %q: %w" [instance] [err]);
      Ok (if Time_After (hbp_ObservedAt write) acc.1 then hbp_ObservedAt write else acc.1,
          acc.2 ++ [{| hr_monitoring_instance_id := instance; hr_received_at := receivedAt; hr_payload := write |}]))
    n writes acc = Ok (last, rows') ->
  Some last = latest (Some acc.1) (hbp_ObservedAt <$> writes) /\
  rows' = acc.2 ++ ((fun write => {| hr_monitoring_instance_id := instance; hr_received_at := receivedAt;
                                     hr_payload := write |}) <$> writes).
Proof.
  revert n acc. induction writes as [|w writes IH]; intros n acc; cbn [fold_result].
  - intros [= ->]. cbn. by rewrite app_nil_r.
  - intros (acc1 & H1 & H2)%result_bind_ok. result_ok. subst acc1. destruct (IH _ _ H2) as [E1 E2].
    cbn in E1, E2. split; [|by rewrite E2, <- app_assoc]. rewrite E1. unfold latest. cbn. do 2 f_equal.
    unfold Time_After, greatest. cbn. destruct (Z.ltb_spec acc.1 (hbp_ObservedAt w)); lia.
Qed.

Lemma recordHeartbeatBatch_spec io batch fingerprint rows last rows' :
  recordHeartbeatBatch (si_faults io) (ba_MonitoringInstanceID batch) fingerprint (si_now io) (ba_Heartbeats batch) rows
    = Ok (last, rows') ->
  Some last = latest None (hbp_ObservedAt <$> ba_Heartbeats batch) /\
  rows' = rows ++ (beat_row io batch <$> ba_Heartbeats batch).
Proof.
  unfold recordHeartbeatBatch. destruct (ba_Heartbeats batch) as [|w writes] eqn:E; [done|].
  intros [E1 E2]%heartbeat_loop. split; [|exact E2]. by rewrite E1.
Qed.

Lemma recordIPQualityReports_spec io reports at_ rows rows' :
  recordIPQualityReports io reports at_ rows = Ok rows' ->
  rows'.*2 = rows.*2 ++ (report_with_received at_ <$> reports) /\ Forall (fun r => ValidateReportWrite r = Ok tt) reports.
Proof.
  unfold recordIPQualityReports. generalize 0%nat. revert rows.
  induction reports as [|r reports IH]; intros rows n; cbn [fold_result].
  - intros [= ->]. cbn. by rewrite app_nil_r.
  - intros (rows1 & H1 & H2)%result_bind_ok. apply result_bind_ok in H1 as ([] & Hv & H1).
    destruct (si_id io _ _) as [id|]; [|done]. result_ok. subst rows1. destruct (IH _ _ H2) as [E1 E2].
    split; [|by constructor]. by rewrite E1, fmap_app, <- app_assoc.
Qed.

(** What a recorded batch adds, each fact as it was received and in its order. *)
Record recorded_facts io batch db db' : Prop := {
  rf_heartbeats : sd_heartbeats db' = sd_heartbeats db ++ (beat_row io batch <$> ba_Heartbeats batch);
  rf_samples : od_host_samples (sd_observations db') = od_host_samples (sd_observations db) ++
    (host_sample_row <$> (batchWithReceivedAt (si_now io) batch).1);
  rf_observations : od_probe_observations (sd_observations db') = od_probe_observations (sd_observations db) ++
    (batchWithReceivedAt (si_now io) batch).2;
  rf_reports : (sd_reports db').*2 = (sd_reports db).*2 ++
    (report_with_received (si_now io) <$> ba_IPQualityReports batch);
  rf_audits : exists l, sd_audits db' = sd_audits db ++ l;
}.

Lemma insert_receipt_spec session n digest db db' :
  insert_receipt session n digest db = Ok db' ->
  (exists row, sd_replay db !! session = Some row /\
     ry_retired_through row < n <= ry_allocated_through row /\ n - ry_retired_through row <= SyncReplayWindow) /\
  sd_receipts db !! (session, n) = None /\ sd_replay db' = sd_replay db /\
  sd_receipts db' = <[(session, n) := digest]> (sd_receipts db) /\ same_facts db db' /\
  same_authority db db'.
Proof.
  unfold insert_receipt. destruct (sd_replay db !! session) as [row|]; [|done]. intros H. result_ok.
  destruct (sd_receipts db !! _); [done|]. result_ok. subst db'. breflect. split; [|done].
  exists row. unfold SyncReplayWindow. repeat split; lia.
Qed.

(** What [record_batch] does. *)
Lemma record_batch_spec io batch state live db plan db' :
  record_batch io batch state live db = Ok (plan, db') ->
  (exists row, sd_replay db !! ba_SessionID batch = Some row /\
     ry_retired_through row < ba_BatchSequence batch <= ry_allocated_through row /\
     ba_BatchSequence batch - ry_retired_through row <= SyncReplayWindow) /\
  sd_receipts db !! (ba_SessionID batch, ba_BatchSequence batch) = None /\
  sd_replay db' = sd_replay db /\
  sd_receipts db' = <[(ba_SessionID batch, ba_BatchSequence batch) := ba_PayloadDigest batch]> (sd_receipts db) /\
  recorded_facts io batch db db' /\ same_authority db db'.
Proof.
  unfold record_batch. destruct (batchWithReceivedAt (si_now io) batch) as [samples observations] eqn:Eb.
  intros H. apply result_bind_ok in H as (_ & _ & H). apply result_bind_ok in H as (_ & _ & H).
  apply result_bind_ok in H as (db1 & Er & H). apply result_bind_ok in H as ([last beats] & Hb & H).
  apply result_bind_ok in H as (facts & Ho & H). apply result_bind_ok in H as (reports & Hr & H). cbv zeta in H.
  apply result_bind_ok in H as (db2 & Ha & H). apply result_bind_ok in H as (db3 & Hc & H).
  apply result_bind_ok in H as ([pending db4] & Hd & H). apply result_bind_ok in H as (plan' & _ & H).
  injection H as <- <-. cbn [snd] in *.
  destruct (insert_receipt _ _ _ db) eqn:Ei; [|done]. injection Er as ->.
  destruct (insert_receipt_spec _ _ _ _ _ Ei) as (Hrow & Hnone & R1 & R2 & (F1 & F2 & F3 & F4) & Fa).
  apply recordHeartbeatBatch_spec in Hb as [_ Hb]. apply recordIPQualityReports_spec in Hr as [Hr _].
  apply recordObservationBatch_rows in Ho as [Ho1 Ho2].
  assert (commands_only (set_facts beats facts reports db1) db2) as C1.
  { unfold advanceMonitoringInstanceSyncState in Ha. result_ok.
    destruct (sd_instances _ !! _) eqn:Ex; [|done]. result_ok. subst db2.
    eapply (set_instances_commands _ _ _ (set_facts beats facts reports db1)); [done|done|by auto]. }
  apply storeCommandResults_commands in Hc. apply dispatchPendingAction_commands in Hd.
  assert (commands_only (set_facts beats facts reports db1) db4) as [K1 K2 K3 K4 K5 K6 K7]
    by (etransitivity; [exact C1|]; by etransitivity).
  cbn in K1, K2, K3, K4, K5, K6. split; [done|]. split; [done|]. split; [by rewrite K1|]. split; [by rewrite K2|].
  split; [|transitivity db1; [done|]; destruct K7; by split].
  split; rewrite ?Eb; cbn [fst snd].
  - by rewrite K3, Hb, F1.
  - by rewrite K4, Ho1, F2.
  - by rewrite K4, Ho2, F2.
  - by rewrite K5, Hr, F3.
  - by rewrite <- F4.
Qed.

(** * The transaction *)

(** How [decide_batch] ends: a recorded batch, or nothing but an answer. *)
Inductive decided io batch (state : acceptedSyncBatchState) (floor : Z) (live : bool) db
    : decision -> sync_db -> Prop :=
| decided_recorded plan db' :
    0 < ba_BatchSequence batch -> SuppressWritesAndPlan state = false ->
    ba_BatchSequence batch - floor <= SyncReplayWindow ->
    record_batch io batch state live db = Ok (plan, db') ->
    decided io batch state floor live db
      {| dc_Disposition := ResultDispositionRecorded; dc_StopCollection := false; dc_Plan := plan |} db'
| decided_duplicate :
    0 < ba_BatchSequence batch ->
    sd_receipts db !! (ba_SessionID batch, ba_BatchSequence batch) = Some (ba_PayloadDigest batch) ->
    decided io batch state floor live db
      {| dc_Disposition := ResultDispositionExactDuplicate; dc_StopCollection := SuppressWritesAndPlan state;
         dc_Plan := zero_plan |} db
| decided_suppressed :
    (0 < ba_BatchSequence batch -> sd_receipts db !! (ba_SessionID batch, ba_BatchSequence batch) = None) ->
    SuppressWritesAndPlan state = true ->
    decided io batch state floor live db
      {| dc_Disposition := ResultDispositionSuppressed; dc_StopCollection := true; dc_Plan := zero_plan |} db
| decided_control plan :
    ba_BatchSequence batch = 0 -> SuppressWritesAndPlan state = false ->
    plan_in (si_faults io) (ba_MonitoringInstanceID batch) db = Ok plan ->
    decided io batch state floor live db
      {| dc_Disposition := ResultDispositionSuppressed; dc_StopCollection := false; dc_Plan := plan |} db
| decided_deferred :
    0 < ba_BatchSequence batch -> SuppressWritesAndPlan state = false ->
    sd_receipts db !! (ba_SessionID batch, ba_BatchSequence batch) = None ->
    SyncReplayWindow < ba_BatchSequence batch - floor ->
    decided io batch state floor live db
      {| dc_Disposition := ResultDispositionDeferred; dc_StopCollection := false; dc_Plan := zero_plan |} db.

Lemma decide_batch_spec io batch state floor live db d db' :
  0 <= ba_BatchSequence batch ->
  decide_batch io batch state floor live db = Ok (d, db') -> decided io batch state floor live db d db'.
Proof.
  intros Hn H. unfold decide_batch in H. apply result_bind_ok in H as (receipt & Hr & H). cbv zeta in H.
  assert (0 < ba_BatchSequence batch -> receipt = sd_receipts db !! (ba_SessionID batch, ba_BatchSequence batch))
    as Hpos.
  { intros Hp. rewrite (proj2 (Z.ltb_lt _ _) Hp) in Hr. result_ok. done. }
  destruct receipt as [digest|].
  - destruct (Z.ltb_spec 0 (ba_BatchSequence batch)); [|done]. specialize (Hpos ltac:(done)).
    unfold equalSyncDigest in H. destruct (String.eqb_spec digest (ba_PayloadDigest batch)) as [->|]; cbn in H;
      [|done]. injection H as <- <-. by apply decided_duplicate.
  - destruct (SuppressWritesAndPlan state) eqn:Es.
    { injection H as <- <-. by apply decided_suppressed; [intros; symmetry; apply Hpos|]. }
    destruct (Z.eqb_spec (ba_BatchSequence batch) 0) as [E|E].
    { apply result_bind_ok in H as (plan & Hp & H). injection H as <- <-. by apply decided_control. }
    destruct (Z.ltb_spec SyncReplayWindow (ba_BatchSequence batch - floor)).
    { injection H as <- <-. apply decided_deferred; [lia|done| |done]. symmetry. apply Hpos. lia. }
    apply result_bind_ok in H as ([plan db2] & Hp & H). injection H as <- <-. cbn. apply decided_recorded; [lia|done..].
Qed.

(** The steps of a transaction that reached its commit. *)
Record committed_steps io batch db (r : Result) db' : Prop := {
  cs_steps : exists state floor live db1 db2 d,
    validateAcceptedSyncBatch (si_faults io) db batch = Ok state /\
    accepted batch db floor db1 /\
    signalled batch {|
      ry_producer_id := ry_producer_id (row_of batch db); ry_retired_through := floor;
      ry_allocated_through := Z.max (ry_allocated_through (row_of batch db)) (ba_AllocatedThrough batch);
      ry_live_sequence_high := ry_live_sequence_high (row_of batch db) |} db1 live db2 /\
    decided io batch state floor live db2 d db' /\
    re_Disposition r = dc_Disposition d /\ re_StopCollection r = dc_StopCollection d /\ re_Plan r = dc_Plan d /\
    re_RetiredThrough r = floor /\
    re_LiveCollectionAllowed r =
      live && (ac_Capability state =s "full") && negb (SuppressWritesAndPlan state) &&
      ((dc_Disposition d =s ResultDispositionRecorded) ||
       (ba_BatchSequence batch =? 0) && (dc_Disposition d =s ResultDispositionSuppressed));
  cs_identity : re_SessionID r = ba_SessionID batch /\ re_ProducerID r = ba_ProducerID batch /\
    re_BatchSequence r = ba_BatchSequence batch /\
    re_BatchDigest r = hex_EncodeToString (ba_PayloadDigest batch) /\ re_AcceptedAt r = si_now io;
}.

Lemma sync_transaction_spec io batch db r db' :
  replay_wf db -> batch_ok batch -> sync_transaction io batch db = Ok (r, db') -> committed_steps io batch db r db'.
Proof.
  intros Hwf Hb H. unfold sync_transaction in H. apply result_bind_ok in H as (_ & _ & H).
  apply result_bind_ok in H as (_ & _ & H). apply result_bind_ok in H as (state & Hs & H).
  apply result_bind_ok in H as ([floor db1] & Ha & H). apply result_bind_ok in H as ([live db2] & Hl & H).
  apply result_bind_ok in H as ([d db3] & Hd & H). cbn [fst snd] in *. injection H as <- <-.
  apply acceptSyncReplayState_spec in Ha; [|done..]. split; [|done].
  exists state, floor, live, db1, db2, d. split; [done|]. split; [done|]. split.
  - eapply recordTrustedLiveSignal_spec; [|..|exact Hl].
    + rewrite (ap_row _ _ _ _ Ha). by rewrite decide_True by done.
    + destruct (row_of_wf batch db Hwf), (bo_bounds _ Hb), Ha. split; cbn; lia.
  - split; [|done]. apply decide_batch_spec; [|done]. destruct (bo_sequence _ Hb). lia.
Qed.

(** The effect of a transaction that reached its commit on the replay tables and the
    facts. *)
Record tx_effect io batch db (recorded : bool) db' : Prop := {
  te_row : forall s, sd_replay db' !! s =
    if decide (s = ba_SessionID batch) then Some {|
      ry_producer_id := ry_producer_id (row_of batch db);
      ry_retired_through := Z.max (ry_retired_through (row_of batch db)) (ba_RetiredThrough batch);
      ry_allocated_through := Z.max (ry_allocated_through (row_of batch db)) (ba_AllocatedThrough batch);
      ry_live_sequence_high := Z.max (ry_live_sequence_high (row_of batch db)) (signal_number batch) |}
    else sd_replay db !! s;
  te_receipts : forall s n, sd_receipts db' !! (s, n) =
    if decide (s = ba_SessionID batch /\ n <= Z.max (ry_retired_through (row_of batch db)) (ba_RetiredThrough batch))
    then None
    else if decide (recorded = true /\ s = ba_SessionID batch /\ n = ba_BatchSequence batch)
    then Some (ba_PayloadDigest batch) else sd_receipts db !! (s, n);
  te_open : ba_BatchSequence batch <> 0 ->
    Z.max (ry_retired_through (row_of batch db)) (ba_RetiredThrough batch) < ba_BatchSequence batch;
  te_recorded : recorded = true -> 0 < ba_BatchSequence batch /\
    sd_receipts db !! (ba_SessionID batch, ba_BatchSequence batch) = None /\
    ba_BatchSequence batch - Z.max (ry_retired_through (row_of batch db)) (ba_RetiredThrough batch)
      <= SyncReplayWindow /\
    recorded_facts io batch db db';
  te_same : recorded = false -> same_facts db db';
  te_authority : same_authority db db';
}.

Lemma recorded_facts_from io batch db1 db2 db3 :
  same_facts db1 db2 -> recorded_facts io batch db2 db3 -> recorded_facts io batch db1 db3.
Proof. intros (E1 & E2 & E3 & E4) [H1 H2 H3 H4 H5]. rewrite E1, E2, E3, E4 in *. by split. Qed.

Lemma tx_effect_intro io batch db r db' :
  committed_steps io batch db r db' -> tx_effect io batch db (re_Disposition r =s ResultDispositionRecorded) db'.
Proof.
  intros [(state & floor & live & db1 & db2 & d & _ & Ha & Hl & Hd & Ed & _) _].
  destruct Ha as [Efl Hopen _ Hrow Hrec Hf Hau], Hl as [_ Hrow2 Hrec2 Hf2 Hau2].
  assert (same_authority db db2) as Hauth by (by transitivity db1).
  assert (same_facts db db2) as Hsame by (by transitivity db1). rewrite Ed. clear Ed r.
  assert (forall s, sd_replay db2 !! s = if decide (s = ba_SessionID batch) then Some {|
      ry_producer_id := ry_producer_id (row_of batch db); ry_retired_through := floor;
      ry_allocated_through := Z.max (ry_allocated_through (row_of batch db)) (ba_AllocatedThrough batch);
      ry_live_sequence_high := Z.max (ry_live_sequence_high (row_of batch db)) (signal_number batch) |}
    else sd_replay db !! s) as Hrows.
  { intros s. rewrite Hrow2. destruct (decide _) as [|Hne]; [done|]. rewrite Hrow. by rewrite decide_False by done. }
  assert (forall s n, sd_receipts db2 !! (s, n) =
    if decide (s = ba_SessionID batch /\ n <= floor) then None else sd_receipts db !! (s, n)) as Hreceipts
    by (intros; by rewrite Hrec2).
  clear Hrow Hrow2 Hrec Hrec2 Hf Hf2. rewrite Efl in *. clear Efl floor.
  assert (ba_BatchSequence batch <> 0 ->
    Z.max (ry_retired_through (row_of batch db)) (ba_RetiredThrough batch) < ba_BatchSequence batch) as Ho
    by (intros ?; by destruct Hopen).
  destruct Hd as [plan db' Hpos Hsup Hwin Hrb| | | |];
    try (split; [done| |done|done|done|done]; intros s n; rewrite Hreceipts; destruct (decide _); [done|];
         rewrite decide_False; [done|]; by intros [? _]).
  destruct (record_batch_spec _ _ _ _ _ _ _ Hrb) as (_ & Hnone & R1 & R2 & Hfacts & Hau3).
  cbn [dc_Disposition]. split; [by rewrite R1| |done| |done|by transitivity db2].
  - intros s n. rewrite R2. destruct (decide ((s, n) = (ba_SessionID batch, ba_BatchSequence batch))) as [Ek|Hne].
    + injection Ek as -> ->. rewrite lookup_insert_eq, decide_False, decide_True; [done|done|].
      intros [_ ?]. specialize (Ho ltac:(lia)). lia.
    + rewrite lookup_insert_ne by congruence. rewrite Hreceipts. destruct (decide _); [done|].
      rewrite decide_False; [done|]. intros (_ & -> & ->). done.
  - intros _. rewrite Hreceipts, decide_False in Hnone by (intros [_ ?]; specialize (Ho ltac:(lia)); lia).
    refine (conj Hpos (conj Hnone (conj Hwin _))). by apply (recorded_facts_from _ _ _ db2).
Qed.

(** What one call does to the tables: nothing, or the effect of its transaction. *)
Lemma applyBatch_cases io batch db :
  replay_wf db ->
  let '(r, db') := applyBatch io batch db in
  (db' = db /\ exists err, r = Err err) \/
  (batch_ok batch /\ exists r0, committed_steps io batch db r0 db' /\
     (si_commit io = Committed /\ r = Ok r0 \/
      exists err, si_commit io = CommitFailed err true /\
        r = Err (ErrWrap "commit %s sync batch for monitoring instance %q: %w"
                   [re_Disposition r0; ba_MonitoringInstanceID batch] [err]))).
Proof.
  intros Hwf. unfold applyBatch. destruct (ValidateBatchProtocol _ _) eqn:Ev; [|left; by eauto].
  apply validated_ok in Ev. destruct (sync_transaction io batch db) as [[r0 db']|] eqn:Et; [|left; by eauto].
  apply sync_transaction_spec in Et; [|done..]. destruct (si_commit io) as [|err []] eqn:Ec; [right..|left; by eauto].
  - split; [done|]. exists r0. split; [done|]. by left.
  - split; [done|]. exists r0. split; [done|]. right. by exists err.
Qed.

Lemma tx_effect_wf io batch db recorded db' :
  replay_wf db -> batch_ok batch -> tx_effect io batch db recorded db' -> replay_wf db'.
Proof.
  intros Hwf Hb [Hrow Hrec Hopen Hnew _ _]. destruct (row_of_wf batch db Hwf) as [R1 R2].
  destruct (bo_bounds _ Hb), (bo_sequence _ Hb). split.
  - intros s row. rewrite Hrow. destruct (decide _); [|by apply wf_rows]. intros [= <-]. split; cbn; lia.
  - intros s n d. rewrite Hrec. destruct (decide (s = ba_SessionID batch /\ _)) as [|Hlow]; [done|].
    destruct (decide (recorded = true /\ _)) as [(-> & -> & ->)|_].
    + intros _. destruct (Hnew eq_refl) as (Hpos & _ & Hwin & _). specialize (Hopen ltac:(lia)).
      eexists. split; [rewrite Hrow; by rewrite decide_True by done|]. cbn. lia.
    + intros E. destruct (wf_receipts _ Hwf _ _ _ E) as (row & Er & Hb1 & Hb2). rewrite Hrow.
      destruct (decide (s = ba_SessionID batch)) as [->|]; [|by exists row].
      eexists. split; [reflexivity|]. unfold row_of in *. rewrite Er in *. cbn in *.
      assert (~ n <= Z.max (ry_retired_through row) (ba_RetiredThrough batch)) by tauto. lia.
Qed.

(** * Runs *)

(** Calls one after another: the locks of session and graph order them. *)
Fixpoint sync_run (calls : list (sync_io * Batch body)) db : sync_db :=
  match calls with
  | [] => db
  | (io, batch) :: calls => sync_run calls (applyBatch io batch db).2
  end.

Lemma applyBatch_wf io batch db : replay_wf db -> replay_wf (applyBatch io batch db).2.
Proof.
  intros Hwf. pose proof (applyBatch_cases io batch db Hwf) as Hc. destruct (applyBatch io batch db) as [r db'].
  destruct Hc as [[-> _]|(Hb & r0 & Hs & _)]; [done|]. eapply tx_effect_wf; [done|done|]. by eapply tx_effect_intro.
Qed.

Lemma sync_run_wf calls db : replay_wf db -> replay_wf (sync_run calls db).
Proof. revert db. induction calls as [|[io batch] calls IH]; intros db Hwf; [done|]. by apply IH, applyBatch_wf. Qed.

(** The numbers of the receipts of a session. *)
Definition receipt_numbers db (session : string) : list Z :=
  (fun kv => kv.1.2) <$> filter (fun kv => kv.1.1 = session) (map_to_list (sd_receipts db)).

Lemma receipt_numbers_spec db session n :
  n ∈ receipt_numbers db session <-> is_Some (sd_receipts db !! (session, n)).
Proof.
  unfold receipt_numbers. rewrite list_elem_of_fmap. split.
  - intros ([[s m] d] & -> & [E Hin]%list_elem_of_filter). cbn in *. subst s.
    apply elem_of_map_to_list in Hin. by exists d.
  - intros [d Hd]. exists ((session, n), d). split; [done|]. apply list_elem_of_filter. split; [done|].
    by apply elem_of_map_to_list.
Qed.

Lemma receipt_numbers_NoDup db session : NoDup (receipt_numbers db session).
Proof.
  unfold receipt_numbers. apply NoDup_fmap_2_strong.
  - intros [[s1 n1] d1] [[s2 n2] d2] [E1 H1]%list_elem_of_filter [E2 H2]%list_elem_of_filter. cbn in *. intros <-.
    subst. apply elem_of_map_to_list in H1, H2. congruence.
  - apply NoDup_filter, NoDup_map_to_list.
Qed.

Lemma interval_length (l : list Z) (low width : Z) :
  NoDup l -> (forall n, n ∈ l -> low < n <= low + width) -> Z.of_nat (length l) <= Z.max 0 width.
Proof.
  intros Hnd Hin. assert (length l <= length (seq 0 (Z.to_nat width)))%nat as Hlen; [|rewrite length_seq in Hlen; lia].
  rewrite <- (length_fmap (fun n => Z.to_nat (n - low - 1)) l). apply submseteq_length, NoDup_submseteq.
  - apply NoDup_fmap_2_strong; [|done]. intros x y Hx%Hin Hy%Hin. lia.
  - intros k (n & -> & Hn%Hin)%list_elem_of_fmap. apply elem_of_seq. lia.
Qed.

(** However many batches arrive, whatever their replay fields,
    whichever statements fail and commits are lost, a database that starts without
    replay rows keeps its watermarks in order (0 <= retired <= allocated) and holds a
    receipt only for a number above the retired one, allocated and inside the replay
    window; so a session never holds more than 131072 receipts. *)
Theorem replay_tables_bounded calls db (Hrows : sd_replay db = ∅) (Hreceipts : sd_receipts db = ∅) :
  (forall s row, sd_replay (sync_run calls db) !! s = Some row ->
     0 <= ry_retired_through row <= ry_allocated_through row) /\
  (forall s n d, sd_receipts (sync_run calls db) !! (s, n) = Some d ->
     exists row, sd_replay (sync_run calls db) !! s = Some row /\
       ry_retired_through row < n <= ry_allocated_through row /\ n <= ry_retired_through row + SyncReplayWindow) /\
  (forall s, Z.of_nat (length (receipt_numbers (sync_run calls db) s)) <= SyncReplayWindow).
Proof.
  assert (replay_wf db) as Hwf by (split; intros *; rewrite ?Hrows, ?Hreceipts; by rewrite lookup_empty).
  apply (sync_run_wf calls) in Hwf. set (db' := sync_run calls db) in *. clearbody db'.
  split; [intros; by eapply rw_bounds, wf_rows|]. split.
  - intros s n d E. destruct (wf_receipts _ Hwf _ _ _ E) as (row & Er & Hb & Hw). exists row.
    split; [done|]. lia.
  - intros s. assert (0 <= SyncReplayWindow) as HW by (unfold SyncReplayWindow; lia).
    destruct (sd_replay db' !! s) as [row|] eqn:E.
    + etransitivity; [|rewrite <- (Z.max_r 0 SyncReplayWindow HW); reflexivity].
      apply (interval_length _ (ry_retired_through row)); [apply receipt_numbers_NoDup|].
      intros n [d Hd]%receipt_numbers_spec. destruct (wf_receipts _ Hwf _ _ _ Hd) as (row' & Er & ? & ?).
      rewrite E in Er. injection Er as <-. lia.
    + destruct (receipt_numbers db' s) as [|n l] eqn:El; [cbn; lia|exfalso].
      assert (n ∈ receipt_numbers db' s) as [d Hd]%receipt_numbers_spec by (rewrite El; apply list_elem_of_here).
      destruct (wf_receipts _ Hwf _ _ _ Hd) as (row' & Er & _). congruence.
Qed.

(** A later row of a session. *)
Record row_le (old new : replay_row) : Prop := {
  rl_producer : ry_producer_id new = ry_producer_id old;
  rl_retired : ry_retired_through old <= ry_retired_through new;
  rl_allocated : ry_allocated_through old <= ry_allocated_through new;
  rl_live : ry_live_sequence_high old <= ry_live_sequence_high new;
}.

#[export] Instance row_le_preorder : PreOrder row_le.
Proof. split; [intros ?; split; done || lia|]. intros ??? [????] [????]. split; [congruence|lia..]. Qed.

Lemma applyBatch_row_le io batch db s row :
  replay_wf db -> sd_replay db !! s = Some row ->
  exists row', sd_replay (applyBatch io batch db).2 !! s = Some row' /\ row_le row row'.
Proof.
  intros Hwf E. pose proof (applyBatch_cases io batch db Hwf) as Hc. destruct (applyBatch io batch db) as [r db'].
  destruct Hc as [[-> _]|(Hb & r0 & Hs & _)]; [by exists row|]. apply tx_effect_intro in Hs. cbn.
  rewrite (te_row _ _ _ _ _ Hs). destruct (decide _) as [->|]; [|by exists row]. eexists. split; [done|].
  unfold row_of. rewrite E. split; cbn; lia || done.
Qed.

Lemma sync_run_row_le calls db s row :
  replay_wf db -> sd_replay db !! s = Some row ->
  exists row', sd_replay (sync_run calls db) !! s = Some row' /\ row_le row row'.
Proof.
  revert db row. induction calls as [|[io batch] calls IH]; intros db row Hwf E; [by exists row|].
  destruct (applyBatch_row_le io batch db s row Hwf E) as (row1 & E1 & L1).
  destruct (IH _ _ (applyBatch_wf io batch db Hwf) E1) as (row2 & E2 & L2). exists row2. split; [done|].
  by transitivity row1.
Qed.

(** * The inbox *)

(** What the center promises of a numbered batch of a session: it is recorded at most
    once, and forgotten only when the agent gave it up. *)
Inductive entry := Unseen | Recorded (digest : string) | Retired.

Definition inbox : Type := Z -> entry.

Inductive inbox_step : inbox -> option (Z * string) -> inbox -> Prop :=
| inbox_silent (I I' : inbox) floor :
    (forall m, I' m = if m <=? floor then Retired else I m) -> inbox_step I None I'
| inbox_record (I I' : inbox) floor n d :
    floor < n -> I n = Unseen ->
    (forall m, I' m = if m <=? floor then Retired else if m =? n then Recorded d else I m) ->
    inbox_step I (Some (n, d)) I'.

Inductive inbox_trace : inbox -> list (Z * string) -> inbox -> Prop :=
| trace_nil I : inbox_trace I [] I
| trace_silent I I1 I2 l : inbox_step I None I1 -> inbox_trace I1 l I2 -> inbox_trace I l I2
| trace_record I I1 I2 e l : inbox_step I (Some e) I1 -> inbox_trace I1 l I2 -> inbox_trace I (e :: l) I2.

Definition inbox_of db (session : string) : inbox := fun n =>
  if n <=? default 0 (ry_retired_through <$> sd_replay db !! session) then Retired
  else match sd_receipts db !! (session, n) with Some d => Recorded d | None => Unseen end.

(** A step keeps what is decided: a recorded or retired number is never recorded. *)
Lemma step_settled I e I' n :
  inbox_step I e I' -> I n <> Unseen -> I' n <> Unseen /\ (forall d, e <> Some (n, d)).
Proof.
  intros H Hn. destruct H as [I I' floor E|I I' floor m d' Hm Hu E]; rewrite E.
  - destruct (n <=? floor); done.
  - split; [destruct (n <=? floor), (n =? m); done|]. intros d [= -> ->]. done.
Qed.

Lemma trace_settled I l I' n : inbox_trace I l I' -> I n <> Unseen -> n ∉ l.*1.
Proof.
  induction 1 as [|I I1 I2 l Hs _ IH|I I1 I2 [m d] l Hs _ IH]; intros Hn; [set_solver|..];
    destruct (step_settled _ _ _ _ Hs Hn) as [H1 H2]; specialize (IH H1); [done|].
  cbn. intros [->|Hin]%elem_of_cons; [|done]. by apply (H2 d).
Qed.

(** No number is recorded twice. *)
Lemma trace_once I l I' : inbox_trace I l I' -> NoDup l.*1.
Proof.
  induction 1 as [|I I1 I2 l Hs _ IH|I I1 I2 [m d] l Hs Ht IH]; [constructor|done|].
  cbn. constructor; [|done]. apply (trace_settled _ _ _ _ Ht). inversion Hs as [|? ? floor ? ? Hm ? E]; subst.
  rewrite E, Z.eqb_refl. by destruct (m <=? floor).
Qed.

Lemma inbox_of_effect_other io batch db recorded db' s :
  tx_effect io batch db recorded db' -> s <> ba_SessionID batch -> forall n, inbox_of db' s n = inbox_of db s n.
Proof.
  intros Hs Hne n. unfold inbox_of. rewrite (te_row _ _ _ _ _ Hs), (te_receipts _ _ _ _ _ Hs).
  rewrite !decide_False by tauto. done.
Qed.

Lemma row_of_retired batch db :
  ry_retired_through (row_of batch db) = default 0 (ry_retired_through <$> sd_replay db !! ba_SessionID batch).
Proof. unfold row_of. by destruct (sd_replay db !! _). Qed.

Lemma inbox_of_effect io batch db recorded db' :
  tx_effect io batch db recorded db' ->
  inbox_step (inbox_of db (ba_SessionID batch))
    (if recorded then Some (ba_BatchSequence batch, ba_PayloadDigest batch) else None)
    (inbox_of db' (ba_SessionID batch)).
Proof.
  intros Hs. pose proof (te_row _ _ _ _ _ Hs (ba_SessionID batch)) as Hrow.
  pose proof (te_receipts _ _ _ _ _ Hs (ba_SessionID batch)) as Hrec.
  rewrite decide_True in Hrow by done. set (floor := Z.max _ (ba_RetiredThrough batch)) in *.
  assert (ry_retired_through (row_of batch db) <= floor) as Hfl by lia.
  assert (forall m, inbox_of db' (ba_SessionID batch) m =
    if m <=? floor then Retired else
    if recorded && (m =? ba_BatchSequence batch) then Recorded (ba_PayloadDigest batch)
    else inbox_of db (ba_SessionID batch) m) as Hin.
  { intros m. unfold inbox_of. rewrite Hrow, Hrec. change (default 0 (_ <$> Some _)) with floor.
    destruct (Z.leb_spec m floor); [done|]. rewrite (decide_False (P := _ /\ m <= floor)) by lia.
    rewrite <- row_of_retired. rewrite (proj2 (Z.leb_gt m (ry_retired_through (row_of batch db)))) by lia.
    destruct recorded; cbn [andb]; [|by rewrite decide_False by (intros [? _]; done)].
    destruct (Z.eqb_spec m (ba_BatchSequence batch)); [by rewrite decide_True by done|].
    rewrite decide_False by tauto. done. }
  destruct recorded; cbn [andb] in Hin.
  - destruct (te_recorded _ _ _ _ _ Hs eq_refl) as (Hpos & Hnone & _).
    pose proof (te_open _ _ _ _ _ Hs ltac:(lia)) as Hopen. fold floor in Hopen.
    apply (inbox_record _ _ floor); [done| |done]. unfold inbox_of. rewrite <- row_of_retired, Hnone.
    by rewrite (proj2 (Z.leb_gt _ _)) by lia.
  - by apply (inbox_silent _ _ floor).
Qed.

(** C2: every call, whatever it meets, is a step of the inbox of its session and of no other: either
    the facts of the batch are added as they are and its number passes from unseen to
    recorded, or no fact changes and the inbox at most retires numbers.  The answer is
    true to the step: "recorded" is answered for a recorded batch only, "exact duplicate"
    only when this very content was recorded before. *)
Theorem sync_refines_inbox io batch db (Hwf : replay_wf db) :
  let '(answer, db') := applyBatch io batch db in
  (forall s n, s <> ba_SessionID batch -> inbox_of db' s n = inbox_of db s n) /\
  exists event,
    (inbox_step (inbox_of db (ba_SessionID batch)) event (inbox_of db' (ba_SessionID batch))) /\
    match event with
    | Some e => e = (ba_BatchSequence batch, ba_PayloadDigest batch) /\ recorded_facts io batch db db'
    | None => same_facts db db'
    end /\
    match answer with
    | Ok r => (re_Disposition r = ResultDispositionRecorded <-> is_Some event) /\
        (re_Disposition r = ResultDispositionExactDuplicate ->
         inbox_of db (ba_SessionID batch) (ba_BatchSequence batch) = Recorded (ba_PayloadDigest batch))
    | Err _ => is_Some event -> exists err, si_commit io = CommitFailed err true
    end.
Proof.
  pose proof (applyBatch_cases io batch db Hwf) as Hc. destruct (applyBatch io batch db) as [answer db'].
  destruct Hc as [[-> [err ->]]|(Hb & r0 & Hs & Hans)].
  { split; [done|]. exists None. split; [|split; [done|by intros [? ?]]].
    apply (inbox_silent _ _ (default 0 (ry_retired_through <$> sd_replay db !! ba_SessionID batch))).
    intros m. unfold inbox_of. by destruct (m <=? _). }
  pose proof (tx_effect_intro _ _ _ _ _ Hs) as He. split; [intros; by eapply inbox_of_effect_other|].
  set (recorded := re_Disposition r0 =s ResultDispositionRecorded) in *.
  exists (if recorded then Some (ba_BatchSequence batch, ba_PayloadDigest batch) else None).
  split; [by eapply inbox_of_effect|]. split.
  { destruct recorded eqn:Er; [|by apply (te_same _ _ _ _ _ He)]. split; [done|]. by apply (te_recorded _ _ _ _ _ He). }
  destruct Hans as [[_ ->]|(err & Hc & ->)]; [|by eauto]. split.
  - unfold recorded. destruct (String.eqb_spec (re_Disposition r0) ResultDispositionRecorded); split; done || by intros [? ?].
  - intros Ed. destruct Hs as [(state & floor & live & db1 & db2 & d & _ & Ha & Hl & Hd & Edd & _) _].
    rewrite Edd in Ed. destruct Hd as [| Hpos Hdup | | |]; try done. clear Ed Edd.
    rewrite (sg_receipts _ _ _ _ _ Hl), (ap_receipts _ _ _ _ Ha) in Hdup.
    destruct (decide _) as [|Hn]; [done|]. unfold inbox_of. rewrite <- row_of_retired, Hdup.
    rewrite (proj2 (Z.leb_gt _ _)); [done|]. pose proof (ap_floor _ _ _ _ Ha).
    assert (~ ba_BatchSequence batch <= floor) by tauto. lia.
Qed.

(** A call for a settled number answers a duplicate or an error. *)
Lemma settled_answer io batch db r db' :
  committed_steps io batch db r db' -> 0 < ba_BatchSequence batch ->
  inbox_of db (ba_SessionID batch) (ba_BatchSequence batch) <> Unseen ->
  re_Disposition r = ResultDispositionExactDuplicate /\
  inbox_of db (ba_SessionID batch) (ba_BatchSequence batch) = Recorded (ba_PayloadDigest batch).
Proof.
  intros [(state & floor & live & db1 & db2 & d & _ & Ha & Hl & Hd & Ed & _) _] Hn Hset.
  assert (floor < ba_BatchSequence batch) as Hfl by (destruct (ap_sequence _ _ _ _ Ha); lia).
  pose proof (ap_floor _ _ _ _ Ha) as Efl.
  assert (sd_receipts db2 !! (ba_SessionID batch, ba_BatchSequence batch) =
          sd_receipts db !! (ba_SessionID batch, ba_BatchSequence batch)) as Er.
  { rewrite (sg_receipts _ _ _ _ _ Hl), (ap_receipts _ _ _ _ Ha). by rewrite decide_False by lia. }
  unfold inbox_of in *. rewrite <- row_of_retired, <- Er in *.
  rewrite (proj2 (Z.leb_gt _ _)) in Hset by lia. rewrite (proj2 (Z.leb_gt _ _)) by lia. rewrite Ed.
  destruct Hd as [plan db3 _ _ _ Hrb|Hpos Hdup|Hnone _|plan Hz|_ _ Hnone].
  - destruct (record_batch_spec _ _ _ _ _ _ _ Hrb) as (_ & Hnone & _). by rewrite Hnone in Hset.
  - by rewrite Hdup.
  - by rewrite Hnone in Hset.
  - lia.
  - by rewrite Hnone in Hset.
Qed.

Lemma applyBatch_settled io batch db s n :
  replay_wf db -> inbox_of db s n <> Unseen -> inbox_of (applyBatch io batch db).2 s n <> Unseen.
Proof.
  intros Hwf Hn. pose proof (applyBatch_cases io batch db Hwf) as Hc. destruct (applyBatch io batch db) as [r db'].
  destruct Hc as [[-> _]|(_ & r0 & Hs & _)]; [done|]. apply tx_effect_intro in Hs. cbn.
  destruct (decide (s = ba_SessionID batch)) as [->|Hne].
  - apply inbox_of_effect in Hs. by apply (step_settled _ _ _ n Hs).
  - by rewrite (inbox_of_effect_other _ _ _ _ _ _ Hs).
Qed.

Lemma sync_run_settled calls db s n :
  replay_wf db -> inbox_of db s n <> Unseen -> inbox_of (sync_run calls db) s n <> Unseen.
Proof.
  revert db. induction calls as [|[io batch] calls IH]; intros db Hwf Hn; [done|].
  apply IH; [by apply applyBatch_wf|by apply applyBatch_settled].
Qed.

(** A call that changes a fact settles its number. *)
Lemma facts_settle io batch db :
  replay_wf db -> ~ same_facts db (applyBatch io batch db).2 ->
  0 < ba_BatchSequence batch /\
  inbox_of (applyBatch io batch db).2 (ba_SessionID batch) (ba_BatchSequence batch) <> Unseen.
Proof.
  intros Hwf Hch. pose proof (applyBatch_cases io batch db Hwf) as Hc. destruct (applyBatch io batch db) as [r db'].
  destruct Hc as [[-> _]|(_ & r0 & Hs & _)]; [by destruct Hch|]. apply tx_effect_intro in Hs. cbn in *.
  destruct (re_Disposition r0 =s ResultDispositionRecorded) eqn:Er; [|destruct Hch; by apply (te_same _ _ _ _ _ Hs)].
  split; [by apply (te_recorded _ _ _ _ _ Hs)|]. apply inbox_of_effect in Hs.
  inversion Hs as [|? ? floor ? ? Hm ? E]; subst. rewrite E, Z.eqb_refl. by destruct (_ <=? _).
Qed.

(** C3: once a call has added the facts of a numbered batch of a
    session, no later call for that number adds a fact, command action or audit,
    whatever came in between, whatever the later call carries and whether or not the
    first answer reached the agent; it is answered "exact duplicate" or refused. *)
Theorem sync_at_most_once calls1 io batch calls2 io' batch' db (Hwf : replay_wf db)
    (Hfirst : ~ same_facts (sync_run calls1 db) (applyBatch io batch (sync_run calls1 db)).2)
    (Hsession : ba_SessionID batch' = ba_SessionID batch)
    (Hnumber : ba_BatchSequence batch' = ba_BatchSequence batch) :
  let later := sync_run calls2 (applyBatch io batch (sync_run calls1 db)).2 in
  let '(answer, db') := applyBatch io' batch' later in
  same_facts later db' /\
  match answer with Ok r => re_Disposition r = ResultDispositionExactDuplicate | Err _ => True end.
Proof.
  cbv zeta. apply (sync_run_wf calls1) in Hwf. set (db1 := sync_run calls1 db) in *.
  destruct (facts_settle io batch db1 Hwf Hfirst) as [Hpos Hset].
  apply (applyBatch_wf io batch) in Hwf. apply (sync_run_settled calls2 _ _ _ Hwf) in Hset.
  apply (sync_run_wf calls2) in Hwf. set (db2 := sync_run calls2 _) in *. clearbody db2.
  pose proof (applyBatch_cases io' batch' db2 Hwf) as Hc. destruct (applyBatch io' batch' db2) as [r db'].
  destruct Hc as [[-> [err ->]]|(_ & r0 & Hs & Hans)]; [done|]. rewrite <- Hsession, <- Hnumber in Hset.
  destruct (settled_answer _ _ _ _ _ Hs ltac:(lia) Hset) as [Ed _]. apply tx_effect_intro in Hs. rewrite Ed in Hs.
  split; [by apply (te_same _ _ _ _ _ Hs)|]. by destruct Hans as [[_ ->]|(err & _ & ->)].
Qed.

(** No run of calls moves a watermark of a session back or
    gives its replay state to another producer. *)
Theorem sync_watermarks_monotone calls db s row (Hwf : replay_wf db) (Hrow : sd_replay db !! s = Some row) :
  exists row', sd_replay (sync_run calls db) !! s = Some row' /\
    ry_producer_id row' = ry_producer_id row /\
    ry_retired_through row <= ry_retired_through row' /\
    ry_allocated_through row <= ry_allocated_through row' /\
    ry_live_sequence_high row <= ry_live_sequence_high row'.
Proof.
  destruct (sync_run_row_le calls db s row Hwf Hrow) as (row' & E & [????]). by exists row'.
Qed.

(** * Authority *)

(** What an admitted batch was checked against. *)
Record admitted batch db (state : acceptedSyncBatchState) (i : instance_row) (s : session_row) (v : vps_row) : Prop := {
  ad_instance : sd_instances db !! ba_MonitoringInstanceID batch = Some i;
  ad_session : sd_sessions db !! ba_SessionID batch = Some s;
  ad_vps : sd_vps db !! in_vps_id i = Some v;
  ad_owner : se_monitoring_instance_id s = ba_MonitoringInstanceID batch;
  ad_hmac : isHMACAgentTokenHash (se_token_hash s) = true;
  ad_token : se_token_hash s = agentTokenHashPrefix +:+ hmac_sync_token (ba_SyncToken batch);
  ad_fingerprints : fingerprints_match batch (se_fingerprint_hash s) = true;
  ad_state : state = {|
    ac_Capability := if in_binding_status i <>s BindingBound then "evidence_only" else se_capability s;
    ac_VPSID := in_vps_id i; ac_BindingFingerprint := se_fingerprint_hash s;
    ac_LifecycleStatus := in_lifecycle_status i; ac_MonitoringStatus := in_monitoring_status i;
    ac_Archived := vp_archived v; ac_VPSArchivedAt := vp_archived_at v |};
}.

Lemma admission_row_some db batch i s v :
  admission_row db batch = Some (i, s, v) <->
  sd_instances db !! ba_MonitoringInstanceID batch = Some i /\ sd_sessions db !! ba_SessionID batch = Some s /\
  sd_vps db !! in_vps_id i = Some v /\ se_monitoring_instance_id s = ba_MonitoringInstanceID batch.
Proof.
  unfold admission_row. destruct (sd_instances db !! _) as [i'|]; cbn; [|by split; [|intros (? & _)]].
  destruct (sd_sessions db !! _) as [s'|]; cbn; [|by split; [|intros (_ & ? & _)]].
  destruct (sd_vps db !! in_vps_id i') as [v'|] eqn:Ev; cbn.
  - destruct (String.eqb_spec (se_monitoring_instance_id s') (ba_MonitoringInstanceID batch)); split.
    + intros [= -> -> ->]. done.
    + intros ([= ->] & [= ->] & E & _). by rewrite Ev in E; injection E as ->.
    + done.
    + intros (_ & [= ->] & _ & ?). done.
  - split; [done|]. intros ([= ->] & _ & ? & _). congruence.
Qed.

Lemma validateAcceptedSyncBatch_spec f db batch state :
  validateAcceptedSyncBatch f db batch = Ok state -> exists i s v, admitted batch db state i s v.
Proof.
  unfold validateAcceptedSyncBatch. intros H. apply result_bind_ok in H as (_ & _ & H).
  destruct (admission_row db batch) as [[[i s] v]|] eqn:E; [|done]. apply admission_row_some in E as (E1 & E2 & E3 & E4).
  result_ok. breflect. exists i, s, v. split; try done.
  match goal with H : syncTokenMatches _ _ = true |- _ => unfold syncTokenMatches in H end.
  match goal with H : isHMACAgentTokenHash _ = true |- _ => rewrite H in * end. by breflect.
Qed.

(** Without faults of the database the check only depends on the tables. *)
Lemma validateAcceptedSyncBatch_complete f db batch state i s v :
  (forall what n, f what n = None) -> admitted batch db state i s v -> validateAcceptedSyncBatch f db batch = Ok state.
Proof.
  intros Hf [E1 E2 E3 E4 E5 E6 E7 E8]. unfold validateAcceptedSyncBatch, statement. rewrite Hf. cbn [mbind result_bind].
  rewrite (proj2 (admission_row_some db batch i s v)) by done. unfold syncTokenMatches. rewrite E5, <- E6, String.eqb_refl, E7.
  cbn. by rewrite E8.
Qed.

(** Every fact of a batch comes from the machine and carries the identity of the batch. *)
Definition from_machine batch (fingerprint : string) : Prop :=
  let identity := identity_of (ba_ProducerID batch) (ba_BatchSequence batch) in
  Forall (fun h => hbp_Fingerprint h = fingerprint /\ hbp_SyncBatchID h = identity) (ba_Heartbeats batch) /\
  Forall (fun s => hs_Fingerprint s = fingerprint /\ hs_SyncBatchID s = identity) (ba_HostSamples batch) /\
  Forall (fun o => po_Fingerprint o = fingerprint /\ po_SyncBatchID o = identity) (ba_ProbeObservations batch) /\
  Forall (fun r => rw_Fingerprint r = fingerprint /\ rw_SyncBatchID r = identity) (ba_IPQualityReports batch).

Lemma forallb_both {A} (g h : A -> string) x y l :
  forallb (fun a => g a =s x) l = true -> forallb (fun a => h a =s y) l = true ->
  Forall (fun a => g a = x /\ h a = y) l.
Proof.
  rewrite !forallb_forall. intros H1 H2. apply Forall_forall. intros a Ha%list_elem_of_In.
  specialize (H1 a Ha). specialize (H2 a Ha). by breflect.
Qed.

Lemma facts_from_machine batch fingerprint u :
  ValidateBatchProtocol sync_uuid_Parse batch = Ok u -> ba_BatchSequence batch <> 0 ->
  fingerprints_match batch fingerprint = true -> from_machine batch fingerprint.
Proof.
  unfold ValidateBatchProtocol, facts_identified, fingerprints_match. intros H Hn Hf.
  rewrite (proj2 (Z.eqb_neq _ _) Hn) in H. result_ok. breflect. by repeat split; apply forallb_both.
Qed.

(** A committed call. *)
Lemma applyBatch_ok io batch db r db' :
  replay_wf db -> applyBatch io batch db = (Ok r, db') ->
  ValidateBatchProtocol sync_uuid_Parse batch = Ok tt /\ batch_ok batch /\ committed_steps io batch db r db'.
Proof.
  intros Hwf H. pose proof (applyBatch_cases io batch db Hwf) as Hc. rewrite H in Hc.
  destruct Hc as [[_ [? ?]]|(Hb & r0 & Hs & [[_ E]|(? & _ & ?)])]; [done| |done]. injection E as <-.
  unfold applyBatch in H. by destruct (ValidateBatchProtocol _ _) as [[]|] eqn:Ev.
Qed.

(** A batch was recorded for an admitted request whose state stops nothing. *)
Lemma recorded_open io batch db r db' :
  replay_wf db -> applyBatch io batch db = (Ok r, db') -> re_Disposition r = ResultDispositionRecorded ->
  exists state i s v, admitted batch db state i s v /\ SuppressWritesAndPlan state = false /\
    from_machine batch (se_fingerprint_hash s) /\ recorded_facts io batch db db'.
Proof.
  intros Hwf Hcall Hrec. destruct (applyBatch_ok _ _ _ _ _ Hwf Hcall) as (Hv & Hb & Hs). pose proof (tx_effect_intro _ _ _ _ _ Hs) as He.
  rewrite Hrec, String.eqb_refl in He. destruct (te_recorded _ _ _ _ _ He eq_refl) as (Hpos & _ & _ & Hfacts).
  destruct Hs as [(state & floor & live & db1 & db2 & d & Hval & _ & _ & Hd & Ed & _) _]. rewrite Hrec in Ed.
  destruct (validateAcceptedSyncBatch_spec _ _ _ _ Hval) as (i & s & v & Had).
  destruct Hd as [plan db3 _ Hsup _ _| | | |]; try done. exists state, i, s, v. split; [done|]. split; [done|].
  split; [|done]. eapply facts_from_machine; [done|lia|apply Had].
Qed.

(** Facts are recorded only for a session of the named
    instance whose HMAC the token has, of a bound, full, unarchived, unretired and
    running instance; each fact carries the fingerprint of the session and the identity
    of the batch, and the tables grow by exactly the facts of the batch. *)
Theorem sync_records_authentic io batch db r db' (Hwf : replay_wf db)
    (Hcall : applyBatch io batch db = (Ok r, db')) (Hrec : re_Disposition r = ResultDispositionRecorded) :
  exists i s v,
    (sd_instances db !! ba_MonitoringInstanceID batch = Some i /\ sd_sessions db !! ba_SessionID batch = Some s /\
     sd_vps db !! in_vps_id i = Some v) /\
    se_monitoring_instance_id s = ba_MonitoringInstanceID batch /\
    se_token_hash s = agentTokenHashPrefix +:+ hmac_sync_token (ba_SyncToken batch) /\
    in_binding_status i = BindingBound /\ se_capability s <> "evidence_only" /\ vp_archived v = false /\
    in_lifecycle_status i <> LifecycleRetired /\ in_monitoring_status i <> MonitoringPaused /\
    from_machine batch (se_fingerprint_hash s) /\ recorded_facts io batch db db'.
Proof.
  destruct (recorded_open _ _ _ _ _ Hwf Hcall Hrec) as (state & i & s & v & [E1 E2 E3 E4 E5 E6 E7 ->] & Hsup & Hm & Hfacts).
  exists i, s, v. unfold SuppressWritesAndPlan in Hsup. cbn in Hsup. breflect.
  destruct (String.eqb_spec (in_binding_status i) BindingBound); cbn [negb] in *; [|done].
  by repeat (split; [done|]).
Qed.

(** Whether an instance or its session may not collect. *)
Definition collection_stopped db batch : Prop :=
  exists i s v, sd_instances db !! ba_MonitoringInstanceID batch = Some i /\
    sd_sessions db !! ba_SessionID batch = Some s /\ sd_vps db !! in_vps_id i = Some v /\
    (in_binding_status i <> BindingBound \/ se_capability s = "evidence_only" \/ vp_archived v = true \/
     in_lifecycle_status i = LifecycleRetired \/ in_monitoring_status i = MonitoringPaused).

Lemma suppressed_stopped batch db state i s v :
  admitted batch db state i s v -> (SuppressWritesAndPlan state = true <-> collection_stopped db batch).
Proof.
  intros [E1 E2 E3 _ _ _ _ ->]. unfold SuppressWritesAndPlan. cbn. rewrite !orb_true_iff, !String.eqb_eq. split.
  - intros H. exists i, s, v. repeat (split; [done|]).
    destruct (String.eqb_spec (in_binding_status i) BindingBound); cbn in H; [|tauto]. tauto.
  - intros (i' & s' & v' & E1' & E2' & E3' & H). rewrite E1 in E1'. injection E1' as <-.
    rewrite E2 in E2'. injection E2' as <-. rewrite E3 in E3'. injection E3' as <-.
    destruct (String.eqb_spec (in_binding_status i) BindingBound); cbn; tauto.
Qed.

(** An answer tells the agent to stop exactly when its
    instance is not bound, archived, retired or paused or its session only gives
    evidence; then no fact is stored, the plan is empty and no live collection is
    allowed. *)
Theorem sync_stops_collection io batch db r db' (Hwf : replay_wf db)
    (Hcall : applyBatch io batch db = (Ok r, db')) :
  (re_StopCollection r = true <-> collection_stopped db batch) /\
  (re_StopCollection r = true ->
   re_Plan r = zero_plan /\ re_LiveCollectionAllowed r = false /\ same_facts db db').
Proof.
  destruct (applyBatch_ok _ _ _ _ _ Hwf Hcall) as (_ & _ & Hs). pose proof (tx_effect_intro _ _ _ _ _ Hs) as He.
  destruct Hs as [(state & floor & live & db1 & db2 & d & Hval & _ & _ & Hd & Ed & Estop & Eplan & _ & Elive) _].
  destruct (validateAcceptedSyncBatch_spec _ _ _ _ Hval) as (i & s & v & Had).
  rewrite <- (suppressed_stopped _ _ _ _ _ _ Had), Estop, Eplan, Elive. rewrite Ed in He.
  pose proof (te_same _ _ _ _ _ He) as Hsame.
  destruct Hd as [plan db3 _ Hsup _ _|_ _|_ Hsup|plan _ Hsup|_ Hsup _ _]; cbn in *; rewrite ?Hsup; try done.
  all: split; [done|]; intros Hst; rewrite ?Hst; split; [done|]; split; [|by apply Hsame].
  all: by rewrite !andb_false_r.
Qed.

(** * A lost answer *)

(** A call that meets no fault. *)
Record healthy io : Prop := {
  he_faults : forall what n, si_faults io what n = None;
  he_ids : forall prefix n, exists id, si_id io prefix n = Ok id;
  he_commit : si_commit io = Committed;
}.

Lemma healthy_statement io what n wrap : healthy io -> statement (si_faults io) what n wrap = Ok tt.
Proof. intros [Hf _ _]. unfold statement. by rewrite Hf. Qed.

Lemma acceptSyncReplayState_complete io batch db :
  healthy io -> replay_wf db -> batch_ok batch ->
  strings_EqualFold (ry_producer_id (row_of batch db)) (ba_ProducerID batch) = true ->
  (ba_BatchSequence batch = 0 \/
   Z.max (ry_retired_through (row_of batch db)) (ba_RetiredThrough batch) < ba_BatchSequence batch) ->
  exists floor db', acceptSyncReplayState (si_faults io) batch db = Ok (floor, db').
Proof.
  intros Hh Hwf Hb Hp Hopen. unfold acceptSyncReplayState. rewrite !healthy_statement by done. cbn [mbind result_bind].
  rewrite initialized_row. destruct (row_of_wf batch db Hwf) as [Hr Hl]. destruct (bo_bounds _ Hb).
  assert (forall a b : Z, (if a <? b then b else a) = Z.max a b) as Hmax
    by (intros a b; destruct (Z.ltb_spec a b); lia). rewrite !Hmax, Hp. cbn [negb reject mbind result_bind].
  assert ((0 <? ba_BatchSequence batch) && (ba_BatchSequence batch <=?
    Z.max (ry_retired_through (row_of batch db)) (ba_RetiredThrough batch)) = false) as ->.
  { apply andb_false_iff. destruct Hopen as [->|]; [by left|right; by apply Z.leb_gt]. }
  cbn [reject mbind result_bind].
  edestruct (advance_replay_ok (ba_SessionID batch) (row_of batch db)) as (db' & -> & _);
    [apply initialized_row|by apply row_of_wf|..|cbn; by eauto]; try lia.
  intros n Hn. rewrite (proj1 (initialized_frame batch db)). by apply receipt_above.
Qed.

Lemma recordTrustedLiveSignal_complete io batch state row db :
  healthy io -> sd_replay db !! ba_SessionID batch = Some row -> row_wf row ->
  exists live db', recordTrustedLiveSignal io batch state db = Ok (live, db').
Proof.
  intros Hh E Hwf. unfold recordTrustedLiveSignal. destruct (ba_LiveSignal batch) as [signal|]; [|by eauto].
  rewrite !healthy_statement by done. cbn [mbind result_bind]. rewrite E.
  destruct (Z.ltb_spec (ry_live_sequence_high row) (ls_Sequence signal)) as [Hlt|]; cbn [negb]; [|by eauto].
  destruct (update_replay_ok (ba_SessionID batch) row {| ry_producer_id := ry_producer_id row;
      ry_retired_through := ry_retired_through row; ry_allocated_through := ry_allocated_through row;
      ry_live_sequence_high := ls_Sequence signal |} db) as (db1 & E1 & _);
    [done|done|cbn; destruct Hwf; try split; cbn; lia..|]. rewrite E1. cbn [mbind result_bind].
  destruct (ac_Archived state); [|by eauto]. unfold upsertVPSFollowup. rewrite healthy_statement by done.
  destruct (he_ids _ Hh "followup" 0%nat) as [id ->]. cbn. destruct (existsb _ _); [by eauto|].
  destruct (existsb _ _); by eauto.
Qed.

(** What lies between the admission and the decision succeeds when nothing fails. *)
Lemma sync_transaction_complete io batch db state i s v :
  healthy io -> replay_wf db -> batch_ok batch -> admitted batch db state i s v ->
  strings_EqualFold (ry_producer_id (row_of batch db)) (ba_ProducerID batch) = true ->
  (ba_BatchSequence batch = 0 \/
   Z.max (ry_retired_through (row_of batch db)) (ba_RetiredThrough batch) < ba_BatchSequence batch) ->
  exists floor live db1 db2,
    accepted batch db floor db1 /\ same_facts db db2 /\ sd_receipts db2 = sd_receipts db1 /\
    same_authority db db2 /\ sd_replay db2 !! ba_SessionID batch <> None /\
    forall d db', decide_batch io batch state floor live db2 = Ok (d, db') ->
      exists r, sync_transaction io batch db = Ok (r, db') /\ re_Disposition r = dc_Disposition d.
Proof.
  intros Hh Hwf Hb Had Hp Hopen.
  destruct (acceptSyncReplayState_complete io batch db Hh Hwf Hb Hp Hopen) as (floor & db1 & Ea).
  pose proof (acceptSyncReplayState_spec _ _ _ _ _ Hwf Hb Ea) as Ha.
  pose proof (ap_row _ _ _ _ Ha (ba_SessionID batch)) as Hrow. rewrite decide_True in Hrow by done.
  assert (row_wf {| ry_producer_id := ry_producer_id (row_of batch db); ry_retired_through := floor;
      ry_allocated_through := Z.max (ry_allocated_through (row_of batch db)) (ba_AllocatedThrough batch);
      ry_live_sequence_high := ry_live_sequence_high (row_of batch db) |}) as Hrwf.
  { destruct (row_of_wf batch db Hwf), (bo_bounds _ Hb). rewrite (ap_floor _ _ _ _ Ha). split; cbn; lia. }
  destruct (recordTrustedLiveSignal_complete io batch state _ db1 Hh Hrow Hrwf) as (live & db2 & El).
  pose proof (recordTrustedLiveSignal_spec _ _ _ _ _ _ _ Hrow Hrwf El) as Hl.
  exists floor, live, db1, db2. split; [done|]. split; [transitivity db1; [apply Ha|apply Hl]|].
  split; [apply Hl|]. split; [transitivity db1; [apply Ha|apply Hl]|].
  split; [rewrite (sg_row _ _ _ _ _ Hl); by rewrite decide_True by done|].
  intros d db' Hd. unfold sync_transaction. rewrite !healthy_statement by done. cbn [mbind result_bind].
  rewrite (validateAcceptedSyncBatch_complete _ _ _ _ _ _ _ (he_faults _ Hh) Had). cbn [mbind result_bind].
  rewrite Ea. cbn [mbind result_bind fst snd]. rewrite El. cbn [mbind result_bind fst snd]. rewrite Hd. cbn. by eauto.
Qed.

(** Two batches of one sender with the same facts and the same number: what the agent
    sends again; watermarks and live signal may be newer. *)
Record resent batch batch' : Prop := {
  rs_session : ba_SessionID batch' = ba_SessionID batch;
  rs_instance : ba_MonitoringInstanceID batch' = ba_MonitoringInstanceID batch;
  rs_token : ba_SyncToken batch' = ba_SyncToken batch;
  rs_producer : ba_ProducerID batch' = ba_ProducerID batch;
  rs_number : ba_BatchSequence batch' = ba_BatchSequence batch;
  rs_digest : ba_PayloadDigest batch' = ba_PayloadDigest batch;
  rs_heartbeats : ba_Heartbeats batch' = ba_Heartbeats batch;
  rs_samples : ba_HostSamples batch' = ba_HostSamples batch;
  rs_observations : ba_ProbeObservations batch' = ba_ProbeObservations batch;
  rs_reports : ba_IPQualityReports batch' = ba_IPQualityReports batch;
  rs_signal : forall signal, ba_LiveSignal batch' = Some signal ->
    exists h, h ∈ ba_Heartbeats batch /\ ls_Fingerprint signal = hbp_Fingerprint h;
}.

Lemma resent_fingerprints batch batch' fingerprint :
  resent batch batch' -> fingerprints_match batch fingerprint = true -> fingerprints_match batch' fingerprint = true.
Proof.
  intros Hr. unfold fingerprints_match.
  rewrite (rs_heartbeats _ _ Hr), (rs_samples _ _ Hr), (rs_observations _ _ Hr), (rs_reports _ _ Hr).
  rewrite !andb_true_iff. intros ((((_ & H1) & H2) & H3) & H4). repeat split; try done.
  destruct (ba_LiveSignal batch') as [signal|] eqn:E; [|done].
  destruct (rs_signal _ _ Hr _ E) as (h & Hin & ->). rewrite forallb_forall in H1. by apply H1, list_elem_of_In.
Qed.

Lemma resent_admitted batch batch' db db' state i s v :
  resent batch batch' -> same_authority db db' -> admitted batch db state i s v ->
  exists state' i' s' v', admitted batch' db' state' i' s' v'.
Proof.
  intros Hr [Av Ai As _ _] [E1 E2 E3 E4 E5 E6 E7 _].
  specialize (Ai (ba_MonitoringInstanceID batch)). rewrite E1 in Ai. specialize (As (ba_SessionID batch)). rewrite E2 in As.
  destruct (sd_instances db' !! _) as [i'|] eqn:Ei; [|done]. destruct (sd_sessions db' !! _) as [s'|] eqn:Es; [|done].
  injection Ai as Eb Ev. injection As as Eo Ef Et Ec.
  eexists _, i', s', v. split; rewrite ?(rs_instance _ _ Hr), ?(rs_session _ _ Hr), ?(rs_token _ _ Hr); try done.
  - by rewrite Av, Ev.
  - by rewrite Eo.
  - by rewrite Et.
  - by rewrite Et.
  - rewrite Ef. by eapply resent_fingerprints.
Qed.

(** A recorded number keeps its digest until it is retired. *)
Lemma step_recorded I e I' n d :
  inbox_step I e I' -> I n = Recorded d \/ I n = Retired -> I' n = Recorded d \/ I' n = Retired.
Proof.
  intros H Hn. destruct H as [I I' floor E|I I' floor m d' Hm Hu E]; rewrite E; destruct (n <=? floor); auto.
  destruct (Z.eqb_spec n m) as [->|]; [|done]. rewrite Hu in Hn. by destruct Hn.
Qed.

Lemma applyBatch_step io batch db s :
  replay_wf db ->
  same_authority db (applyBatch io batch db).2 /\
  exists e I', inbox_step (inbox_of db s) e I' /\ forall n, inbox_of (applyBatch io batch db).2 s n = I' n.
Proof.
  intros Hwf. pose proof (applyBatch_cases io batch db Hwf) as Hc. destruct (applyBatch io batch db) as [r db'].
  assert (forall db0, (forall n, inbox_of db0 s n = inbox_of db s n) ->
    exists e I', inbox_step (inbox_of db s) e I' /\ forall n, inbox_of db0 s n = I' n) as Hstay.
  { intros db0 E0. exists None, (inbox_of db s). split; [|done].
    apply (inbox_silent _ _ (default 0 (ry_retired_through <$> sd_replay db !! s))). intros m. unfold inbox_of.
    by destruct (m <=? _). }
  destruct Hc as [[-> _]|(_ & r0 & Hs & _)]; [split; [done|by apply Hstay]|]. apply tx_effect_intro in Hs. cbn.
  split; [apply Hs|]. destruct (decide (s = ba_SessionID batch)) as [->|Hne].
  - apply inbox_of_effect in Hs. eexists _, _. split; [exact Hs|done].
  - apply Hstay. by eapply inbox_of_effect_other.
Qed.

Lemma sync_run_recorded calls db s n d :
  replay_wf db -> inbox_of db s n = Recorded d \/ inbox_of db s n = Retired ->
  same_authority db (sync_run calls db) /\
  (inbox_of (sync_run calls db) s n = Recorded d \/ inbox_of (sync_run calls db) s n = Retired).
Proof.
  revert db. induction calls as [|[io batch] calls IH]; intros db Hwf Hn; [done|]. cbn [sync_run].
  destruct (applyBatch_step io batch db s Hwf) as (Ha & e & I' & Hs & E).
  destruct (IH _ (applyBatch_wf io batch db Hwf)) as [Hb Hr]; [rewrite !E; by eapply step_recorded|].
  split; [by etransitivity|done].
Qed.

Lemma step_records I n d I' : inbox_step I (Some (n, d)) I' -> I' n = Recorded d.
Proof.
  inversion 1 as [|? ? floor ? ? Hm ? E]; subst. rewrite E, Z.eqb_refl. by rewrite (proj2 (Z.leb_gt _ _)) by lia.
Qed.

Lemma inbox_recorded db s n d :
  inbox_of db s n = Recorded d ->
  sd_receipts db !! (s, n) = Some d /\ default 0 (ry_retired_through <$> sd_replay db !! s) < n.
Proof.
  unfold inbox_of. destruct (Z.leb_spec n (default 0 (ry_retired_through <$> sd_replay db !! s))); [done|].
  destruct (sd_receipts db !! (s, n)); [|done]. by intros [= ->].
Qed.

(** A recorded batch that is sent again to tables with its receipt. *)
Lemma resent_duplicate io batch db state i s v :
  healthy io -> replay_wf db -> ValidateBatchProtocol sync_uuid_Parse batch = Ok tt -> 0 < ba_BatchSequence batch ->
  admitted batch db state i s v ->
  strings_EqualFold (ry_producer_id (row_of batch db)) (ba_ProducerID batch) = true ->
  inbox_of db (ba_SessionID batch) (ba_BatchSequence batch) = Recorded (ba_PayloadDigest batch) ->
  exists r db', applyBatch io batch db = (Ok r, db') /\
    re_Disposition r = ResultDispositionExactDuplicate /\ same_facts db db'.
Proof.
  intros Hh Hwf Hv Hpos Had Hp Hin. pose proof (validated_ok _ _ Hv) as Hb.
  destruct (inbox_recorded _ _ _ _ Hin) as [Hd Hret]. rewrite <- row_of_retired in Hret.
  assert (Z.max (ry_retired_through (row_of batch db)) (ba_RetiredThrough batch) < ba_BatchSequence batch) as Hop
    by (destruct (bo_retired _ Hb); lia).
  destruct (sync_transaction_complete io batch db state i s v Hh Hwf Hb Had Hp (or_intror Hop))
    as (floor & live & db1 & db2 & Ha & Hf & Er & _ & _ & Hdec).
  edestruct Hdec as (r & Ht & Ed).
  { unfold decide_batch. rewrite (proj2 (Z.ltb_lt _ _) Hpos), healthy_statement by done. cbn [mbind result_bind].
    rewrite Er, (ap_receipts _ _ _ _ Ha), (ap_floor _ _ _ _ Ha), decide_False by lia. rewrite Hd. cbn zeta.
    unfold equalSyncDigest. rewrite String.eqb_refl. reflexivity. }
  exists r, db2. unfold applyBatch. rewrite Hv, Ht, (he_commit _ Hh). by rewrite Ed.
Qed.

(** C4: when a batch was recorded, whether or not its answer
    arrived, and the agent has not retired its number, sending it again through a
    working database, with any newer watermarks and live signal, is answered "exact
    duplicate" and adds nothing. *)
Theorem lost_answer_recovered io batch db calls io' batch' (Hwf : replay_wf db)
    (Hfirst : ~ same_facts db (applyBatch io batch db).2) (Hresent : resent batch batch')
    (Hvalid : ValidateBatchProtocol sync_uuid_Parse batch' = Ok tt) (Hhealthy : healthy io')
    (Hopen : inbox_of (sync_run calls (applyBatch io batch db).2) (ba_SessionID batch) (ba_BatchSequence batch)
             <> Retired) :
  let later := sync_run calls (applyBatch io batch db).2 in
  exists r db', applyBatch io' batch' later = (Ok r, db') /\
    re_Disposition r = ResultDispositionExactDuplicate /\ same_facts later db'.
Proof.
  cbv zeta. destruct (facts_settle io batch db Hwf Hfirst) as [Hpos _].
  pose proof (applyBatch_wf io batch db Hwf) as Hwf1. pose proof (applyBatch_cases io batch db Hwf) as Hc.
  destruct (applyBatch io batch db) as [answer db1]. cbn [snd] in *.
  destruct Hc as [[-> _]|(_ & r0 & Hs & _)]; [by destruct Hfirst|]. pose proof (tx_effect_intro _ _ _ _ _ Hs) as He.
  destruct (re_Disposition r0 =s ResultDispositionRecorded) eqn:Er; [|destruct Hfirst; by apply (te_same _ _ _ _ _ He)].
  destruct Hs as [(state & floor & live & dba & dbb & d & Hval & Ha & _) _].
  destruct (validateAcceptedSyncBatch_spec _ _ _ _ Hval) as (i & s & v & Had).
  pose proof (step_records _ _ _ _ (inbox_of_effect _ _ _ _ _ He)) as Hin.
  destruct (sync_run_recorded calls db1 _ _ _ Hwf1 (or_introl Hin)) as [Hauth [Hlater|]]; [|done].
  pose proof (te_row _ _ _ _ _ He (ba_SessionID batch)) as Hrow. rewrite decide_True in Hrow by done.
  destruct (sync_run_row_le calls db1 _ _ Hwf1 Hrow) as (row' & Erow & Hle).
  apply (sync_run_wf calls) in Hwf1. set (later := sync_run calls db1) in *.
  destruct (resent_admitted batch batch' db later state i s v Hresent) as (state' & i' & s' & v' & Had');
    [transitivity db1; [apply He|done]|done|].
  eapply (resent_duplicate io' batch' later); [done|done|done| |exact Had'|..].
  - by rewrite (rs_number _ _ Hresent).
  - unfold row_of. rewrite (rs_session _ _ Hresent), (rs_producer _ _ Hresent), Erow. cbn.
    rewrite (rl_producer _ _ Hle). apply Ha.
  - by rewrite (rs_session _ _ Hresent), (rs_number _ _ Hresent), (rs_digest _ _ Hresent).
Qed.
End Props.
