(* ===== verification/SyncErrors.v ===== *)
(** Which errors the repository of sync batches can return: with a working database
    none of its own guards and triggers fires, and what is left are refusals of what the
    agent sent, so that only real faults mark the receiver as faulty. *)
From stdpp Require Import base list sorting strings gmap.
From Stdlib Require Import ZArith Lia.
From S2P Require Import Prelude GoRuntime Json AgentApi IncidentTypes Settings Wire AgentPlan ObservationStore.
From S2P Require Import SyncProtocol SyncStore SyncStoreProps.

Local Open Scope Z_scope.
#[local] Set Warnings "-clear-no-such-hyp".

(** A computation whose errors are refusals. *)
Definition refuses {A} (m : result A) : Prop := forall err, m = Err err -> isSyncAdmissionError err = true.

Lemma refuses_ok {A} (a : A) : refuses (Ok a).
Proof. done. Qed.

Lemma refuses_bind {A B} (m : result A) (f : A -> result B) :
  refuses m -> (forall a, m = Ok a -> refuses (f a)) -> refuses (m ≫= f).
Proof. intros Hm Hf. destruct m as [a|err]; cbn; [by apply Hf|]. intros err' [= <-]. by apply Hm. Qed.

Lemma refuses_reject cond err : (cond = true -> isSyncAdmissionError err = true) -> refuses (reject cond err).
Proof. intros H. destruct cond; [|done]. intros err' [= <-]. by apply H. Qed.

Lemma refuses_err {A} err : isSyncAdmissionError err = true -> refuses (@Err A err).
Proof. by intros H err' [= <-]. Qed.

Lemma refuses_fold {A S} (P : S -> Prop) (body : nat -> A -> S -> result S) n l s :
  P s -> (forall n x s, x ∈ l -> P s -> refuses (body n x s) /\ forall s', body n x s = Ok s' -> P s') ->
  refuses (fold_result body n l s).
Proof.
  revert n s. induction l as [|x l IH]; intros n s Hs Hb; cbn [fold_result]; [done|].
  destruct (Hb n x s) as [H1 H2]; [apply list_elem_of_here|done|]. apply refuses_bind; [done|]. intros s' E.
  apply IH; [by apply H2|]. intros n' y s'' Hy. apply Hb. by apply list_elem_of_further.
Qed.

(** An error that is only passed on with a message. *)
Lemma refused_wrap format args err :
  isSyncAdmissionError err = true -> isSyncAdmissionError (ErrWrap format args [err]) = true.
Proof. unfold isSyncAdmissionError. cbn [existsb errors_Is]. by rewrite !orb_false_r. Qed.

Create HintDb refusals.
#[export] Hint Resolve refuses_ok refuses_bind refuses_reject refuses_err : refusals.

Section Errors.
Context {body : Type} `{Env : @SyncEnv body}.
Implicit Types (db : @sync_db body) (batch : Batch body) (io : sync_io).

Lemma statement_refuses io what n wrap : healthy io -> refuses (statement (si_faults io) what n wrap).
Proof. intros Hh. by rewrite healthy_statement. Qed.
#[local] Hint Resolve statement_refuses : refusals.

Lemma ValidateBatchProtocol_refuses batch : refuses (ValidateBatchProtocol sync_uuid_Parse batch).
Proof.
  unfold ValidateBatchProtocol. repeat (apply refuses_bind; [by apply refuses_reject|intros _ _]).
  destruct (_ =? 0); [by apply refuses_reject|].
  repeat (apply refuses_bind; [by apply refuses_reject|intros _ _]). by apply refuses_reject.
Qed.

Lemma validateAcceptedSyncBatch_refuses io db batch :
  healthy io -> refuses (validateAcceptedSyncBatch (si_faults io) db batch).
Proof.
  intros Hh. unfold validateAcceptedSyncBatch. apply refuses_bind; [auto with refusals|]. intros _ _.
  destruct (admission_row db batch) as [[[i s] v]|]; [|by apply refuses_err].
  repeat (apply refuses_bind; [by apply refuses_reject|intros _ _]). done.
Qed.

Lemma acceptSyncReplayState_refuses io batch db :
  healthy io -> replay_wf db -> batch_ok batch -> refuses (acceptSyncReplayState (si_faults io) batch db).
Proof.
  intros Hh Hwf Hb.
  destruct (strings_EqualFold (ry_producer_id (row_of batch db)) (ba_ProducerID batch)) eqn:Ep.
  - destruct (decide (ba_BatchSequence batch = 0 \/
      Z.max (ry_retired_through (row_of batch db)) (ba_RetiredThrough batch) < ba_BatchSequence batch)) as [Ho|Hc].
    + destruct (acceptSyncReplayState_complete io batch db Hh Hwf Hb Ep Ho) as (floor & db' & ->). done.
    + unfold acceptSyncReplayState. rewrite !healthy_statement by done. cbn [mbind result_bind].
      rewrite initialized_row, Ep. cbn [negb reject mbind result_bind].
      assert (forall a b : Z, (if a <? b then b else a) = Z.max a b) as Hmax
        by (intros a b; destruct (Z.ltb_spec a b); lia). rewrite !Hmax. destruct (bo_sequence _ Hb).
      rewrite (proj2 (Z.ltb_lt _ _)), (proj2 (Z.leb_le _ _)) by lia. by apply refuses_err.
  - unfold acceptSyncReplayState. rewrite !healthy_statement by done. cbn [mbind result_bind].
    rewrite initialized_row, Ep. by apply refuses_err.
Qed.

Lemma invalid_observation_refused format args : isSyncAdmissionError (invalid_observation format args) = true.
Proof. reflexivity. Qed.
#[local] Hint Resolve invalid_observation_refused : refusals.

Lemma ValidateProbeObservation_refuses o : refuses (ValidateProbeObservation o).
Proof.
  unfold ValidateProbeObservation, check_result_kind.
  repeat (apply refuses_bind; [|intros _ _]); try by apply refuses_reject.
  destruct (_ =s _); [by apply refuses_reject|]. destruct (_ =s _); [|by apply refuses_err].
  apply refuses_bind; [by apply refuses_reject|]. intros _ _. by apply refuses_reject.
Qed.

Lemma validateProbeObservations_refuses io items writes :
  healthy io -> refuses (validateProbeObservations (si_faults io) items writes).
Proof.
  intros Hh. unfold validateProbeObservations. apply (refuses_fold (fun _ => True)); [done|].
  intros n o _ _ _. split; [|done]. apply refuses_bind; [apply ValidateProbeObservation_refuses|]. intros _ _.
  unfold check_metadata. apply refuses_bind; [auto with refusals|]. intros _ _.
  destruct (items !! _); [|by apply refuses_err]. apply refuses_bind; [by apply refuses_reject|]. intros _ _.
  by apply refuses_reject.
Qed.

Lemma recordObservationBatch_refuses io samples writes tables :
  healthy io -> refuses (recordObservationBatch (si_faults io) samples writes tables).
Proof.
  intros Hh. unfold recordObservationBatch, projectTargetProbeObservations, projectProbeLiveObservations.
  repeat (apply refuses_bind; [apply (refuses_fold (fun _ => True)); [done|]; intros n x s _ _; split; [|done];
    apply refuses_bind; [auto with refusals|done]|intros ? _]). done.
Qed.

Lemma recordHeartbeatBatch_refuses io instance fingerprint at_ writes rows :
  healthy io -> writes <> [] -> refuses (recordHeartbeatBatch (si_faults io) instance fingerprint at_ writes rows).
Proof.
  intros Hh Hne. unfold recordHeartbeatBatch. destruct writes as [|w writes]; [done|].
  apply (refuses_fold (fun _ => True)); [done|]. intros n x s _ _. split; [|done].
  apply refuses_bind; [by apply refuses_reject|]. intros _ _. apply refuses_bind; [auto with refusals|done].
Qed.

Lemma recordIPQualityReports_refuses io reports at_ rows :
  healthy io -> Forall (fun r => ValidateReportWrite r = Ok tt) reports ->
  refuses (recordIPQualityReports io reports at_ rows).
Proof.
  intros Hh Hv. unfold recordIPQualityReports. apply (refuses_fold (fun _ => True)); [done|].
  intros n x s Hx _. split; [|done]. rewrite Forall_forall in Hv. rewrite (Hv x Hx). cbn [mbind result_bind].
  destruct (he_ids _ Hh "ipq" n) as [id ->]. apply refuses_bind; [auto with refusals|done].
Qed.

(** * Command actions *)

Lemma insertCommandActionAudit_refuses io n e db :
  healthy io -> ca_EventType e = "dispatched" \/ ca_EventType e = "completed" -> ca_ActionID e <> "" ->
  is_Some (sd_instances db !! ca_MonitoringInstanceID e) -> refuses (insertCommandActionAudit io n e db).
Proof.
  intros Hh Hk Ha [i Ei]. unfold insertCommandActionAudit, validateCommandActionAuditEvent.
  cbn [ca_EventType ca_ActionID ca_MonitoringInstanceID ca_Source].
  rewrite (proj2 (String.eqb_neq _ _) Ha).
  assert ((ca_EventType e =s "rejected") = false /\
    existsb (String.eqb (ca_EventType e)) ["queued"; "dispatched"; "completed"; "cancelled"] = true) as [-> ->]
    by (by destruct Hk as [-> | ->]).
  cbn [reject mbind result_bind]. destruct (he_ids _ Hh "cmd_aud" n) as [id ->].
  apply refuses_bind; [auto with refusals|]. intros _ _. by rewrite Ei.
Qed.

Lemma commands_keep_instances db db' id :
  commands_only db db' -> is_Some (sd_instances db !! id) -> is_Some (sd_instances db' !! id).
Proof.
  intros Hc Hi. pose proof (sa_instances _ _ (co_authority _ _ Hc) id) as E.
  destruct Hi as [i Hi]. rewrite Hi in E. destruct (sd_instances db' !! id); [by eexists|done].
Qed.

Lemma storeCommandResults_refuses io id results at_ db :
  healthy io -> is_Some (sd_instances db !! id) -> refuses (storeCommandResults io id results at_ db).
Proof.
  intros Hh Hi. unfold storeCommandResults.
  apply (refuses_fold (fun db => is_Some (sd_instances db !! id))); [done|]. intros n r db1 _ [i Ei].
  destruct (String.eqb_spec (cr_ActionID r) ""); cbn [orb]; [by split; [|intros ? [= <-]; eexists]|].
  destruct (String.eqb_spec (cr_CommandID r) ""); cbn [orb]; [by split; [|intros ? [= <-]; eexists]|].
  rewrite healthy_statement by done. cbn [mbind result_bind]. rewrite Ei.
  destruct (in_last_action i) as [last|]; [|by split; [|intros ? [= <-]; eexists]].
  destruct (_ && _); [|by split; [|intros ? [= <-]; eexists]].
  match goal with |- context [insertCommandActionAudit io n ?e ?d] =>
    assert (refuses (insertCommandActionAudit io n e d)) as Hr end.
  { apply insertCommandActionAudit_refuses; [done|by right|done|]. cbn. rewrite lookup_insert_eq. by eexists. }
  split.
  - destruct (insertCommandActionAudit _ _ _ _) as [|err]; [done|]. by apply refuses_err, refused_wrap, Hr.
  - destruct (insertCommandActionAudit _ _ _ _) as [db2|err] eqn:E; [|done]. intros ? [= <-].
    apply insertCommandActionAudit_commands in E. eapply commands_keep_instances; [exact E|].
    cbn. rewrite lookup_insert_eq. by eexists.
Qed.

Lemma dispatchPendingAction_refuses io n id at_ db :
  healthy io -> pending_named db -> refuses (dispatchPendingAction io n id at_ db).
Proof.
  intros Hh Hp. unfold dispatchPendingAction. rewrite !healthy_statement by done. cbn [mbind result_bind].
  destruct (sd_instances db !! id) as [i|] eqn:Ei; [|done].
  destruct (in_pending_action_id i) as [action|] eqn:Ea; [|done]. destruct (in_pending_action_command_id i); [|done].
  match goal with |- context [insertCommandActionAudit io n ?e ?d] =>
    assert (refuses (insertCommandActionAudit io n e d)) as Hr end.
  { apply insertCommandActionAudit_refuses; [done|by left| |].
    - cbn. intros ->. by apply (Hp id i).
    - cbn. rewrite lookup_insert_eq. by eexists. }
  destruct (insertCommandActionAudit _ _ _ _) as [|err]; [done|]. by apply refuses_err, refused_wrap, Hr.
Qed.

(** The settings can be resolved for the labels of every instance. *)
Definition settings_kept db : Prop := forall labels, exists s, resolveAgentPlanSettings (sd_settings db) labels = Ok s.

Lemma plan_in_refuses io id db : healthy io -> settings_kept db -> refuses (plan_in (si_faults io) id db).
Proof.
  intros Hh Hs. unfold plan_in, buildSyncPlan. rewrite !(he_faults _ Hh).
  destruct (sd_instances db !! id) as [i|]; cbn [fmap option_fmap option_map]; [|by apply refuses_err].
  cbn [pi_labels]. destruct (Hs (in_labels i)) as [s ->]. destruct (plan_suppressed _); [done|]. by destruct (in_labels i).
Qed.

Lemma insert_receipt_complete batch row db :
  sd_replay db !! ba_SessionID batch = Some row -> 0 < ba_BatchSequence batch ->
  ry_retired_through row < ba_BatchSequence batch <= ry_allocated_through row ->
  ba_BatchSequence batch - ry_retired_through row <= SyncReplayWindow ->
  sd_receipts db !! (ba_SessionID batch, ba_BatchSequence batch) = None ->
  exists db', insert_receipt (ba_SessionID batch) (ba_BatchSequence batch) (ba_PayloadDigest batch) db = Ok db'.
Proof.
  intros E Hpos [H1 H2] H3 Hn. unfold insert_receipt, SyncReplayWindow in *. rewrite E, Hn.
  rewrite (proj2 (Z.leb_gt (ba_BatchSequence batch) (ry_retired_through row))),
    (proj2 (Z.leb_gt (ba_BatchSequence batch) 0)) by lia.
  rewrite !(proj2 (Z.ltb_ge _ _)) by lia. cbn. by eexists.
Qed.

(** * The receiver *)

(** What the reports of the batch, the settings and the queue of actions must satisfy:
    the code around the sync path checks it. *)
Record well_kept batch db : Prop := {
  wk_reports : Forall (fun r => ValidateReportWrite r = Ok tt) (ba_IPQualityReports batch);
  wk_settings : settings_kept db;
  wk_pending : pending_named db;
}.

Lemma record_batch_refuses io batch state live row db :
  healthy io -> well_kept batch db -> batch_ok batch ->
  sd_replay db !! ba_SessionID batch = Some row -> 0 < ba_BatchSequence batch ->
  ry_retired_through row < ba_BatchSequence batch <= ry_allocated_through row ->
  ba_BatchSequence batch - ry_retired_through row <= SyncReplayWindow ->
  sd_receipts db !! (ba_SessionID batch, ba_BatchSequence batch) = None ->
  refuses (record_batch io batch state live db).
Proof.
  intros Hh [Hrep Hset Hpend] Hb Hrow Hpos Hin Hwin Hnone. unfold record_batch.
  destruct (batchWithReceivedAt (si_now io) batch) as [samples observations].
  apply refuses_bind; [by apply validateProbeObservations_refuses|]. intros _ _.
  apply refuses_bind; [auto with refusals|]. intros _ _.
  destruct (insert_receipt_complete batch row db Hrow Hpos Hin Hwin Hnone) as [db1 E1]. rewrite E1.
  destruct (insert_receipt_spec _ _ _ _ _ E1) as (_ & _ & _ & _ & _ & Ha1). cbn [mbind result_bind].
  apply refuses_bind; [apply recordHeartbeatBatch_refuses; [done|apply (bo_beats _ Hb); lia]|]. intros [last beats] _.
  apply refuses_bind; [by apply recordObservationBatch_refuses|]. intros facts _.
  apply refuses_bind; [by apply recordIPQualityReports_refuses|]. intros reports _. cbn [fst snd].
  set (dbf := set_facts beats facts reports db1).
  assert (same_authority db dbf) as Haf by (transitivity db1; [done|by split]).
  assert (refuses (advanceMonitoringInstanceSyncState (si_faults io) (ba_MonitoringInstanceID batch) last (si_now io)
    (lifecycleStatusAfterAcceptedSync (ac_LifecycleStatus state) live) dbf)) as Hadv.
  { unfold advanceMonitoringInstanceSyncState. rewrite healthy_statement by done. cbn [mbind result_bind].
    destruct (sd_instances dbf !! _); [done|by apply refuses_err]. }
  apply refuses_bind; [done|]. intros db2 E2.
  assert (commands_only dbf db2 /\ is_Some (sd_instances db2 !! ba_MonitoringInstanceID batch)) as [Hc2 Hi2].
  { unfold advanceMonitoringInstanceSyncState in E2. rewrite healthy_statement in E2 by done.
    cbn [mbind result_bind] in E2. destruct (sd_instances dbf !! _) eqn:Ei; [|done]. injection E2 as <-.
    split; [eapply (set_instances_commands _ _ _ dbf); [done|done|by left]|]. cbn. rewrite lookup_insert_eq. by eexists. }
  apply refuses_bind; [by apply storeCommandResults_refuses|]. intros db3 E3.
  apply storeCommandResults_commands in E3.
  assert (same_authority db db3) as Ha3
    by (transitivity dbf; [done|]; transitivity db2; [apply Hc2|apply E3]).
  apply refuses_bind; [apply dispatchPendingAction_refuses; [done|by apply Ha3]|]. intros [pending db4] E4.
  apply dispatchPendingAction_commands in E4. apply refuses_bind; [|done]. apply plan_in_refuses; [done|].
  unfold settings_kept. cbn [snd]. by rewrite (sa_settings _ _ (co_authority _ _ E4)), (sa_settings _ _ Ha3).
Qed.

Lemma sync_transaction_refuses io batch db :
  healthy io -> replay_wf db -> batch_ok batch -> well_kept batch db -> refuses (sync_transaction io batch db).
Proof.
  intros Hh Hwf Hb Hk. unfold sync_transaction. repeat (apply refuses_bind; [auto with refusals|intros _ _]).
  apply refuses_bind; [by apply validateAcceptedSyncBatch_refuses|]. intros state _.
  apply refuses_bind; [by apply acceptSyncReplayState_refuses|]. intros [floor db1] E1.
  apply acceptSyncReplayState_spec in E1; [|done..]. cbn [fst snd].
  pose proof (ap_row _ _ _ _ E1 (ba_SessionID batch)) as Hrow. rewrite decide_True in Hrow by done.
  pose proof (ap_floor _ _ _ _ E1) as Efl. destruct (row_of_wf batch db Hwf) as [R1 R2], (bo_bounds _ Hb) as [B1 B2].
  match type of Hrow with _ = Some ?row => assert (row_wf row) as Hrwf by (split; cbn; lia) end.
  destruct (recordTrustedLiveSignal_complete io batch state _ db1 Hh Hrow Hrwf) as (live & db2 & E2). rewrite E2.
  apply recordTrustedLiveSignal_spec with (1 := Hrow) in E2; [|done]. cbn [mbind result_bind fst snd].
  assert (same_authority db db2) as Ha by (transitivity db1; [apply E1|apply E2]).
  pose proof (sg_row _ _ _ _ _ E2 (ba_SessionID batch)) as Hrow2. rewrite decide_True in Hrow2 by done.
  assert (well_kept batch db2) as Hk2.
  { destruct Hk as [K1 K2 K3]. split; [done| |by apply Ha]. unfold settings_kept. by rewrite (sa_settings _ _ Ha). }
  apply refuses_bind; [|done]. unfold decide_batch. destruct (bo_sequence _ Hb).
  destruct (Z.ltb_spec 0 (ba_BatchSequence batch)); rewrite ?healthy_statement by done; cbn [mbind result_bind].
  - destruct (sd_receipts db2 !! _) eqn:Er; [destruct (negb _); [by apply refuses_err|done]|].
    destruct (SuppressWritesAndPlan state); [done|]. rewrite (proj2 (Z.eqb_neq _ _)) by lia.
    destruct (Z.ltb_spec SyncReplayWindow (ba_BatchSequence batch - floor)); [done|].
    apply refuses_bind; [|done]. eapply record_batch_refuses; [done|done|done|exact Hrow2|done|..|done]; cbn; [|lia].
    destruct (ap_sequence _ _ _ _ E1); lia.
  - destruct (SuppressWritesAndPlan state); [done|]. rewrite (proj2 (Z.eqb_eq _ _)) by lia.
    apply refuses_bind; [|done]. apply plan_in_refuses; [done|apply Hk2].
Qed.

(** A call that meets no fault never marks the receiver as
    faulty: neither the triggers and constraints of the replay tables nor the audits of
    command actions can fail on what the code asks of them, so every error is a refusal
    of what the agent sent. *)
Theorem faults_only_on_faults io batch db (Hhealthy : healthy io) (Hwf : replay_wf db) (Hkept : well_kept batch db) :
  let '(answer, db', faulty) := ApplyBatch io batch db in
  faulty = false /\ match answer with Ok _ => True | Err err => isSyncAdmissionError err = true /\ db' = db end.
Proof.
  unfold ApplyBatch, applyBatch. pose proof (ValidateBatchProtocol_refuses batch) as Hr.
  destruct (ValidateBatchProtocol _ _) eqn:Ev; [|by rewrite (Hr _ eq_refl)]. apply validated_ok in Ev.
  pose proof (sync_transaction_refuses io batch db Hhealthy Hwf Ev Hkept) as Ht.
  destruct (sync_transaction io batch db) as [[r db']|err]; [|by rewrite (Ht _ eq_refl)].
  by rewrite (he_commit _ Hhealthy).
Qed.
End Errors.

(** * Command actions *)

(** Command actions on the sync path: a queued action is handed out once, and a result
    is stored for the action in flight only. *)

Section Commands.
Context {body : Type} `{Env : @SyncEnv body}.
Implicit Types (db : @sync_db body) (batch : Batch body) (io : sync_io).

(** A result settles the action in flight. *)
Definition settles (last : option LastAction) (r : CommandResult) : bool :=
  match last with
  | Some l => (cr_ActionID r <>s "") && (cr_CommandID r <>s "") && (la_Status l =s commandActionStatusPending) &&
              (la_ActionID l =s cr_ActionID r) && (la_CommandID l =s cr_CommandID r)
  | None => false
  end.

(** The audit row of an event of this path. *)
Definition audited io (e : commandActionAuditEvent) : commandActionAuditEvent := {|
  ca_ActionID := ca_ActionID e; ca_MonitoringInstanceID := ca_MonitoringInstanceID e;
  ca_CommandID := ca_CommandID e; ca_Sensitivity := ca_Sensitivity e; ca_EventType := ca_EventType e;
  ca_ActorUserID := ""; ca_Source := CommandActionSourceAgentSync; ca_ExitCode := ca_ExitCode e;
  ca_OccurredAt := if Time_IsZero (ca_OccurredAt e) then si_now io else ca_OccurredAt e |}.

Lemma insertCommandActionAudit_row io n instance action command event code at_ db db' :
  insertCommandActionAudit io n (audit_event instance action command event code at_) db = Ok db' ->
  sd_instances db' = sd_instances db /\
  (sd_audits db').*2 = (sd_audits db).*2 ++ [audited io (audit_event instance action command event code at_)].
Proof.
  unfold insertCommandActionAudit. intros H. apply result_bind_ok in H as (_ & _ & H).
  destruct (si_id io _ _) as [id|]; [|done]. apply result_bind_ok in H as (_ & _ & H).
  destruct (sd_instances db !! _); [|done]. injection H as <-. split; [done|]. cbn [sd_audits set_audits].
  by rewrite fmap_app.
Qed.

(** Results after the settling one meet a finished action. *)
Lemma settled_done r at_ l : List.find (settles (Some (marshalCompletedLastAction r at_))) l = None.
Proof. induction l as [|x l IH]; cbn; [done|]. by rewrite !andb_false_r. Qed.

Definition with_last (last : option LastAction) (i : instance_row) : instance_row := {|
  in_display_name := in_display_name i; in_binding_status := in_binding_status i;
  in_lifecycle_status := in_lifecycle_status i; in_monitoring_status := in_monitoring_status i;
  in_vps_id := in_vps_id i; in_archived := in_archived i; in_labels := in_labels i;
  in_last_heartbeat_at := in_last_heartbeat_at i; in_last_sync_at := in_last_sync_at i;
  in_last_trusted_online_at := in_last_trusted_online_at i; in_ever_connected := in_ever_connected i;
  in_pending_action_id := in_pending_action_id i;
  in_pending_action_command_id := in_pending_action_command_id i; in_last_action := last |}.

Lemma with_last_same i : with_last (in_last_action i) i = i.
Proof. by destruct i. Qed.

Lemma storeCommandResults_spec io id results at_ db db' i :
  storeCommandResults io id results at_ db = Ok db' -> sd_instances db !! id = Some i ->
  match List.find (settles (in_last_action i)) results with
  | Some r =>
      sd_instances db' = <[id := with_last (Some (marshalCompletedLastAction r at_)) i]> (sd_instances db) /\
      (sd_audits db').*2 = (sd_audits db).*2 ++
        [audited io (audit_event id (cr_ActionID r) (cr_CommandID r) "completed" (Some (cr_ExitCode r)) at_)]
  | None => sd_instances db' = sd_instances db /\ (sd_audits db').*2 = (sd_audits db).*2
  end.
Proof.
  intros Hstore Hi. unfold storeCommandResults in Hstore. generalize dependent 0%nat. revert db i Hi.
  induction results as [|r results IH]; intros db i Hi n H; cbn [fold_result] in H; [by injection H as <-|].
  apply result_bind_ok in H as (db1 & H1 & H). cbn [List.find]. unfold settles at 1.
  destruct (String.eqb_spec (cr_ActionID r) "") as [E1|E1]; cbn [orb negb andb] in *.
  { injection H1 as <-. assert ((match in_last_action i with Some _ => false | None => false end) = false) as ->
      by (by destruct (in_last_action i)). by apply (IH db i Hi (S n)). }
  destruct (String.eqb_spec (cr_CommandID r) "") as [E2|E2]; cbn [orb negb andb] in *.
  { injection H1 as <-. assert ((match in_last_action i with Some _ => false | None => false end) = false) as ->
      by (by destruct (in_last_action i)). by apply (IH db i Hi (S n)). }
  apply result_bind_ok in H1 as (_ & _ & H1). rewrite Hi in H1.
  destruct (in_last_action i) as [last|] eqn:El; [|injection H1 as <-; rewrite <- El; by apply (IH db i Hi (S n))].
  destruct (_ && _ && _) eqn:Em in H1.
  2: { injection H1 as <-. rewrite Em, <- El. by apply (IH db i Hi (S n)). }
  rewrite Em. destruct (insertCommandActionAudit _ _ _ _) as [db2|] eqn:Ea in H1; [|done]. injection H1 as <-.
  apply insertCommandActionAudit_row in Ea as [Ei Eau]. cbn in Ei, Eau.
  specialize (IH db2 (with_last (Some (marshalCompletedLastAction r at_)) i)).
  rewrite Ei, lookup_insert_eq in IH. specialize (IH eq_refl (S n) H).
  change (in_last_action (with_last ?l _)) with l in IH. rewrite settled_done in IH.
  destruct IH as [IH1 IH2]. rewrite IH1, IH2, Eau. done.
Qed.

(** Of the results of a batch exactly the first that names the
    action in flight is stored, with one audit; a result of any other action, an
    unnamed one, or a second result of the same action changes nothing. *)
Theorem results_settle_once io id results at_ db db' i
    (Hstore : storeCommandResults io id results at_ db = Ok db') (Hi : sd_instances db !! id = Some i) :
  match List.find (settles (in_last_action i)) results with
  | Some r =>
      sd_instances db' = <[id := with_last (Some (marshalCompletedLastAction r at_)) i]> (sd_instances db) /\
      (sd_audits db').*2 = (sd_audits db).*2 ++
        [audited io (audit_event id (cr_ActionID r) (cr_CommandID r) "completed" (Some (cr_ExitCode r)) at_)]
  | None => sd_instances db' = sd_instances db /\ (sd_audits db').*2 = (sd_audits db).*2
  end.
Proof. by apply storeCommandResults_spec. Qed.

(** What happens to the queue of an instance when a batch is recorded. *)
Lemma dispatchPendingAction_spec io n id at_ db p db' i :
  dispatchPendingAction io n id at_ db = Ok (p, db') -> sd_instances db !! id = Some i ->
  match in_pending_action_id i, in_pending_action_command_id i with
  | Some action, Some command =>
      p = Some {| pc_CommandID := command; pc_ActionID := action |} /\
      (exists i' last, sd_instances db' !! id = Some i' /\ in_pending_action_id i' = None /\
         in_last_action i' = Some last /\ la_Status last = commandActionStatusPending /\
         la_ActionID last = action /\ la_CommandID last = command) /\
      (sd_audits db').*2 = (sd_audits db).*2 ++ [audited io (audit_event id action command "dispatched" None at_)]
  | _, _ => p = None /\ db' = db
  end.
Proof.
  unfold dispatchPendingAction. intros H Hi. apply result_bind_ok in H as (_ & _ & H). rewrite Hi in H.
  destruct (in_pending_action_id i) as [action|]; [|by injection H as <- <-].
  destruct (in_pending_action_command_id i) as [command|]; [|by injection H as <- <-].
  apply result_bind_ok in H as (_ & _ & H).
  destruct (insertCommandActionAudit _ _ _ _) as [db2|] eqn:Ea in H; [|done]. injection H as <- <-.
  apply insertCommandActionAudit_row in Ea as [Ei Eau]. cbn in Ei, Eau. split; [done|]. split; [|by rewrite Eau].
  eexists _, _. rewrite Ei, lookup_insert_eq. repeat (split; [reflexivity|]).
  unfold marshalDispatchedPendingLastAction. destruct (in_last_action i); [destruct (_ && _)|]; done.
Qed.

(** The queue of an instance. *)
Definition queued db (id : string) : option (option string * option string) :=
  (fun i => (in_pending_action_id i, in_pending_action_command_id i)) <$> sd_instances db !! id.

Lemma update_replay_instances session new db db' :
  update_replay session new db = Ok db' -> sd_instances db' = sd_instances db.
Proof.
  unfold update_replay. destruct (sd_replay db !! session); [|by intros [= <-]]. intros H. result_ok. by subst db'.
Qed.

Lemma acceptSyncReplayState_instances f batch db floor db' :
  acceptSyncReplayState f batch db = Ok (floor, db') -> sd_instances db' = sd_instances db.
Proof.
  unfold acceptSyncReplayState, advance_replay. intros H.
  assert (sd_instances (initialize_replay batch db) = sd_instances db) as Hi
    by (unfold initialize_replay; by destruct (sd_replay db !! _)).
  apply result_bind_ok in H as (_ & _ & H). apply result_bind_ok in H as (_ & _ & H).
  destruct (sd_replay (initialize_replay batch db) !! _); [|done].
  apply result_bind_ok in H as (_ & _ & H). apply result_bind_ok in H as (_ & _ & H).
  apply result_bind_ok in H as (_ & _ & H). apply result_bind_ok in H as (db1 & Hu & H). injection H as _ <-.
  destruct (_ || _); [|by injection Hu as <-]. destruct (update_replay _ _ _) eqn:E; [|done]. injection Hu as <-.
  by rewrite (update_replay_instances _ _ _ _ E).
Qed.

Lemma recordTrustedLiveSignal_queued io batch state db live db' id :
  recordTrustedLiveSignal io batch state db = Ok (live, db') -> queued db' id = queued db id.
Proof.
  unfold recordTrustedLiveSignal, queued. intros H. destruct (ba_LiveSignal batch); [|by injection H as <- <-].
  apply result_bind_ok in H as (_ & _ & H). destruct (sd_replay db !! _); [|by injection H as <- <-].
  destruct (negb _); [by injection H as <- <-|]. apply result_bind_ok in H as (db1 & Hu & H).
  destruct (update_replay _ _ _) eqn:E; [|done]. injection Hu as <-. apply update_replay_instances in E. rewrite <- E.
  apply result_bind_ok in H as (_ & _ & H). apply result_bind_ok in H as (_ & _ & H).
  assert (sd_instances db' = alter (fun i => instance_with_online (si_db_clock io)
    (if (ac_Capability state =s "full") && negb (ac_Archived state) &&
        (in_lifecycle_status i =s LifecyclePendingEnrollment) then LifecycleInUse else in_lifecycle_status i) i)
    (ba_MonitoringInstanceID batch) (sd_instances a)) as ->.
  { destruct (ac_Archived state); result_ok; by subst db'. }
  rewrite lookup_alter. destruct (decide _) as [->|]; [|done]. by destruct (sd_instances a !! id).
Qed.

Lemma record_batch_queue io batch state live db plan db' :
  record_batch io batch state live db = Ok (plan, db') ->
  exists db3, queued db3 (ba_MonitoringInstanceID batch) = queued db (ba_MonitoringInstanceID batch) /\
    is_Some (sd_instances db3 !! ba_MonitoringInstanceID batch) /\
    exists pending, sp_PendingAction plan = pending /\
    dispatchPendingAction io (length (ba_CommandResults batch)) (ba_MonitoringInstanceID batch) (si_now io) db3
      = Ok (pending, db').
Proof.
  unfold record_batch. destruct (batchWithReceivedAt (si_now io) batch) as [samples observations].
  intros H. apply result_bind_ok in H as (_ & _ & H). apply result_bind_ok in H as (_ & _ & H).
  apply result_bind_ok in H as (db1 & Er & H). apply result_bind_ok in H as ([last beats] & _ & H).
  apply result_bind_ok in H as (facts & _ & H). apply result_bind_ok in H as (reports & _ & H). cbv zeta in H.
  apply result_bind_ok in H as (db2 & Ha & H). apply result_bind_ok in H as (db3 & Hc & H).
  apply result_bind_ok in H as ([pending db4] & Hd & H). apply result_bind_ok in H as (plan' & _ & H).
  injection H as <- <-. cbn [fst snd] in *.
  assert (sd_instances db1 = sd_instances db) as E1.
  { destruct (insert_receipt _ _ _ db) eqn:Ei; [|done]. injection Er as <-. unfold insert_receipt in Ei.
    destruct (sd_replay db !! _); [|done]. result_ok. destruct (sd_receipts db !! _); [done|]. result_ok. by subst. }
  unfold advanceMonitoringInstanceSyncState in Ha. apply result_bind_ok in Ha as (_ & _ & Ha).
  cbn [sd_instances set_facts] in Ha. rewrite E1 in Ha.
  destruct (sd_instances db !! ba_MonitoringInstanceID batch) as [i|] eqn:Ei; [|done]. injection Ha as <-.
  pose proof (storeCommandResults_spec _ _ _ _ _ _ (instance_with_sync last (si_now io)
    (lifecycleStatusAfterAcceptedSync (ac_LifecycleStatus state) live) i) Hc) as Hs.
  cbn in Hs. rewrite lookup_insert_eq in Hs. specialize (Hs eq_refl).
  exists db3. assert (exists i3, sd_instances db3 !! ba_MonitoringInstanceID batch = Some i3 /\
    in_pending_action_id i3 = in_pending_action_id i /\
    in_pending_action_command_id i3 = in_pending_action_command_id i) as (i3 & E3 & P1 & P2).
  { destruct (List.find _ _); destruct Hs as [-> _]; rewrite ?lookup_insert_eq; by eexists. }
  split; [unfold queued; rewrite E3, Ei; cbn; by rewrite P1, P2|]. split; [by eexists|]. exists pending. done.
Qed.

(** A queued action reaches the agent with the answer to the
    recorded batch that takes it off the queue and marks it in flight, and with no other
    answer: when a batch is not recorded the queue stays as it is and no action is
    handed out. *)
Theorem action_dispatched_once io batch db r db' (Hwf : replay_wf db)
    (Hcall : applyBatch io batch db = (Ok r, db')) :
  if re_Disposition r =s ResultDispositionRecorded then
    match queued db (ba_MonitoringInstanceID batch) with
    | Some (Some action, Some command) =>
        sp_PendingAction (re_Plan r) = Some {| pc_CommandID := command; pc_ActionID := action |} /\
        exists i' last, sd_instances db' !! ba_MonitoringInstanceID batch = Some i' /\
          in_pending_action_id i' = None /\ in_last_action i' = Some last /\
          la_Status last = commandActionStatusPending /\ la_ActionID last = action /\ la_CommandID last = command
    | q => sp_PendingAction (re_Plan r) = None /\ queued db' (ba_MonitoringInstanceID batch) = q
    end
  else sp_PendingAction (re_Plan r) = None /\
       queued db' (ba_MonitoringInstanceID batch) = queued db (ba_MonitoringInstanceID batch).
Proof.
  pose proof (applyBatch_ok _ _ _ _ _ Hwf Hcall) as (_ & Hb & _). unfold applyBatch in Hcall.
  destruct (ValidateBatchProtocol _ _); [|done]. destruct (sync_transaction io batch db) as [[r0 db0]|] eqn:Ht; [|done].
  destruct (si_commit io); [|done]. injection Hcall as -> ->. unfold sync_transaction in Ht.
  apply result_bind_ok in Ht as (_ & _ & H). apply result_bind_ok in H as (_ & _ & H).
  apply result_bind_ok in H as (state & _ & H). apply result_bind_ok in H as ([floor db1] & Ha & H).
  apply result_bind_ok in H as ([live db2] & Hl & H). apply result_bind_ok in H as ([d db3] & Hd & H).
  cbn [fst snd] in *. injection H as <- <-. cbn [re_Disposition re_Plan].
  assert (queued db2 (ba_MonitoringInstanceID batch) = queued db (ba_MonitoringInstanceID batch)) as <-.
  { rewrite (recordTrustedLiveSignal_queued _ _ _ _ _ _ _ Hl). unfold queued.
    by rewrite (acceptSyncReplayState_instances _ _ _ _ _ Ha). }
  apply decide_batch_spec in Hd; [|destruct (bo_sequence _ Hb); lia].
  destruct Hd as [plan db3 _ _ _ Hrb| | |plan _ _ Hp|]; cbn [dc_Disposition dc_Plan]; try done.
  - destruct (record_batch_queue _ _ _ _ _ _ _ Hrb) as (dbq & Eq & [i Ei] & pending & Ep & Hq).
    change (ResultDispositionRecorded =s ResultDispositionRecorded) with true. cbv iota.
    pose proof (dispatchPendingAction_spec _ _ _ _ _ _ _ _ Hq Ei) as Hs. rewrite <- Eq. unfold queued in *.
    rewrite Ei. cbn [fmap option_fmap option_map]. rewrite Ep.
    destruct (in_pending_action_id i) as [action|] eqn:E1; [|destruct Hs as [-> ->]; rewrite Ei; cbn; by rewrite E1].
    destruct (in_pending_action_command_id i) as [command|] eqn:E2;
      [|destruct Hs as [-> ->]; rewrite Ei; cbn; by rewrite E1, E2].
    destruct Hs as (-> & Hs & _). done.
  - change (ResultDispositionSuppressed =s ResultDispositionRecorded) with false. cbv iota. split; [|done].
    unfold plan_in, buildSyncPlan in Hp. repeat case_match; try done; by injection Hp as <-.
Qed.
End Commands.
