(* ===== verification/SyncStoreExamples.v ===== *)
(** Concrete runs of the repository of sync batches: an instance, its session and a
    batch that is recorded, sent again and given up; each instantiates a theorem of
    SyncStoreProps or SyncErrors. *)
From stdpp Require Import base list sorting strings gmap.
From Stdlib Require Import ZArith Lia.
From S2P Require Import Prelude GoRuntime Json AgentApi IncidentTypes Settings Wire AgentPlan ObservationStore.
From S2P Require Import SyncProtocol SyncStore SyncStoreProps SyncErrors.

Local Open Scope Z_scope.

(** A stand-in for the HMAC with the shape of one. *)
Fixpoint sample_pad (n : nat) (s : string) : string :=
  match n with
  | O => EmptyString
  | S n => match s with
           | EmptyString => String (Ascii.ascii_of_nat 48) (sample_pad n EmptyString)
           | String a s => String a (sample_pad n s)
           end
  end.

#[local] Instance sample_env : @SyncEnv unit := {|
  sync_uuid_Parse := fun s => if (String.length s =? 36)%nat then Some s else None;
  hmac_sync_token := sample_pad 64;
  hashOpaqueToken := fun s => s;
  redact_Secrets := fun s => s;
  report_body_valid := fun _ => true;
|}.

Definition sample_producer : string := "6f1c2a34-0000-4000-8000-0123456789ab".

Definition sample_instance : instance_row := {|
  in_display_name := "edge"; in_binding_status := BindingBound; in_lifecycle_status := LifecyclePendingEnrollment;
  in_monitoring_status := MonitoringEnabled; in_vps_id := "v1"; in_archived := false; in_labels := [];
  in_last_heartbeat_at := None; in_last_sync_at := None; in_last_trusted_online_at := None;
  in_ever_connected := false; in_pending_action_id := Some "act1"; in_pending_action_command_id := Some "uptime";
  in_last_action := None |}.

Definition sample_db : @sync_db unit := {|
  sd_sessions := {["s1" := {| se_monitoring_instance_id := "mi1"; se_fingerprint_hash := "fp";
    se_token_hash := agentTokenHashPrefix +:+ sample_pad 64 "token"; se_capability := "full";
    se_last_trusted_online_at := None; se_ever_connected := false |}]};
  sd_instances := {["mi1" := sample_instance]};
  sd_vps := {["v1" := {| vp_archived := false; vp_archived_at := None |}]};
  sd_replay := ∅; sd_receipts := ∅; sd_heartbeats := [];
  sd_observations := fixture_observation_db;
  sd_reports := []; sd_audits := []; sd_followups := []; sd_settings := None; sd_plan_targets := [];
  sd_plan_probes := [] |}.

Definition sample_batch (digest : string) (retired sequence live : Z) : Batch unit := {|
  ba_ProtocolRevision := 2; ba_ProducerID := sample_producer; ba_BatchSequence := sequence;
  ba_AllocatedThrough := 7; ba_RetiredThrough := retired; ba_PayloadDigest := digest; ba_SessionID := "s1";
  ba_LiveSignal := if live =? 0 then None else Some {| ls_Sequence := live; ls_Fingerprint := "fp" |};
  ba_IPQualityCollectionRevision := 0; ba_MonitoringInstanceID := "mi1"; ba_SyncToken := "token";
  ba_Heartbeats := [{| hbp_ObservedAt := 10; hbp_AgentVersion := "1"; hbp_Fingerprint := "fp";
                       hbp_SyncBatchID := identity_of sample_producer sequence; hbp_IsBackfilled := false |}];
  ba_HostSamples := []; ba_ProbeObservations := []; ba_IPQualityReports := []; ba_CommandResults := [] |}.

Definition sample_io (commit : commit_answer) : sync_io := {|
  si_faults := fun _ _ => None; si_now := 100; si_db_clock := 101; si_id := fun prefix n => Ok (prefix +:+ "_1");
  si_commit := commit |}.

Definition sample_lost : commit_answer := CommitFailed (ErrNew "connection lost") true.

Lemma sample_healthy : healthy (sample_io Committed).
Proof. split; [done| |done]. intros prefix n. by eexists. Qed.

Lemma sample_wf : replay_wf sample_db.
Proof. split; intros *; cbn; by rewrite lookup_empty. Qed.

(** The answers of a run: a batch with a queued action, its repetition, other content
    under its number, a later batch that retires it, and the first one again. *)
Definition sample_answers : list string :=
  let calls := [sample_batch "a" 0 3 1; sample_batch "a" 0 3 1; sample_batch "b" 0 3 2; sample_batch "c" 3 4 3;
                sample_batch "a" 0 3 4] in
  (fold_left (fun acc b =>
     let '(answer, db) := applyBatch (sample_io Committed) b acc.2 in
     (acc.1 ++ [match answer with
                | Ok r => re_Disposition r
                | Err (ErrSentinel name) => name
                | Err _ => "fault"
                end], db)) calls ([], sample_db)).1.

Example sample_answers_run :
  sample_answers = ["recorded"; "exact_duplicate"; "sync batch identity conflict"; "recorded"; "sync batch retired"].
Proof. vm_compute. reflexivity. Qed.

Lemma sample_changes : ~ same_facts sample_db (applyBatch (sample_io sample_lost) (sample_batch "a" 0 3 1) sample_db).2.
Proof. intros (E & _). apply (f_equal length) in E. vm_compute in E. discriminate E. Qed.

Lemma replay_tables_bounded_witness :
  let db := sync_run [(sample_io Committed, sample_batch "a" 0 3 1); (sample_io Committed, sample_batch "c" 3 4 3)]
              sample_db in
  receipt_numbers db "s1" = [4] /\ Z.of_nat (length (receipt_numbers db "s1")) <= SyncReplayWindow.
Proof.
  split; [vm_compute; reflexivity|].
  apply (replay_tables_bounded [(sample_io Committed, sample_batch "a" 0 3 1);
    (sample_io Committed, sample_batch "c" 3 4 3)] sample_db); reflexivity.
Defined.

Lemma sync_refines_inbox_witness :
  let '(answer, db') := applyBatch (sample_io sample_lost) (sample_batch "a" 0 3 1) sample_db in
  inbox_of sample_db "s1" 3 = Unseen /\ inbox_of db' "s1" 3 = Recorded "a" /\
  forall n, inbox_of db' "s2" n = inbox_of sample_db "s2" n.
Proof.
  pose proof (sync_refines_inbox (sample_io sample_lost) (sample_batch "a" 0 3 1) sample_db sample_wf) as H.
  assert (inbox_of (applyBatch (sample_io sample_lost) (sample_batch "a" 0 3 1) sample_db).2 "s1" 3 = Recorded "a")
    as E by (vm_compute; reflexivity).
  destruct (applyBatch _ _ _) as [answer db']. split; [vm_compute; reflexivity|]. split; [exact E|].
  intros n. by apply H.
Defined.

Lemma sync_at_most_once_witness :
  same_facts (sync_run [] (applyBatch (sample_io sample_lost) (sample_batch "a" 0 3 1) sample_db).2)
    (applyBatch (sample_io Committed) (sample_batch "b" 1 3 5)
       (sync_run [] (applyBatch (sample_io sample_lost) (sample_batch "a" 0 3 1) sample_db).2)).2.
Proof.
  pose proof (sync_at_most_once [] (sample_io sample_lost) (sample_batch "a" 0 3 1) [] (sample_io Committed)
    (sample_batch "b" 1 3 5) sample_db sample_wf sample_changes eq_refl eq_refl) as H. cbv zeta in H.
  destruct (applyBatch (sample_io Committed) _ _) as [answer db']. apply H.
Defined.

Lemma sync_watermarks_monotone_witness :
  exists row', sd_replay (sync_run [(sample_io Committed, sample_batch "a" 0 3 1)]
      (applyBatch (sample_io Committed) (sample_batch "c" 2 4 3) sample_db).2) !! "s1" = Some row' /\
    2 <= ry_retired_through row'.
Proof.
  destruct (sync_watermarks_monotone [(sample_io Committed, sample_batch "a" 0 3 1)]
      (applyBatch (sample_io Committed) (sample_batch "c" 2 4 3) sample_db).2 "s1"
      {| ry_producer_id := sample_producer; ry_retired_through := 2; ry_allocated_through := 7;
         ry_live_sequence_high := 3 |}) as (row' & E & _ & H & _).
  - apply applyBatch_wf, sample_wf.
  - vm_compute. reflexivity.
  - exists row'. split; [exact E|exact H].
Defined.

Lemma sample_resent : resent (sample_batch "a" 0 3 1) (sample_batch "a" 2 3 9).
Proof. split; try reflexivity. intros signal [= <-]. eexists. split; [apply list_elem_of_here|reflexivity]. Qed.

Lemma lost_answer_recovered_witness :
  exists r db', applyBatch (sample_io Committed) (sample_batch "a" 2 3 9)
    (sync_run [] (applyBatch (sample_io sample_lost) (sample_batch "a" 0 3 1) sample_db).2) = (Ok r, db') /\
    re_Disposition r = ResultDispositionExactDuplicate.
Proof.
  destruct (lost_answer_recovered (sample_io sample_lost) (sample_batch "a" 0 3 1) sample_db [] (sample_io Committed)
    (sample_batch "a" 2 3 9) sample_wf sample_changes sample_resent) as (r & db' & E & H & _).
  - vm_compute. reflexivity.
  - apply sample_healthy.
  - vm_compute. discriminate.
  - exists r, db'. split; [exact E|exact H].
Defined.

Lemma sync_records_authentic_witness :
  match applyBatch (sample_io Committed) (sample_batch "a" 0 3 1) sample_db with
  | (Ok r, db') => re_Disposition r = ResultDispositionRecorded /\
      exists s, sd_sessions sample_db !! "s1" = Some s /\ from_machine (sample_batch "a" 0 3 1) (se_fingerprint_hash s) /\
        recorded_facts (sample_io Committed) (sample_batch "a" 0 3 1) sample_db db'
  | _ => False
  end.
Proof.
  assert (match (applyBatch (sample_io Committed) (sample_batch "a" 0 3 1) sample_db).1 with
          | Ok r => re_Disposition r = ResultDispositionRecorded | Err _ => False end) as Hd
    by (vm_compute; reflexivity).
  destruct (applyBatch (sample_io Committed) (sample_batch "a" 0 3 1) sample_db) as [[r|err] db'] eqn:E; [|exact Hd].
  split; [exact Hd|].
  destruct (sync_records_authentic _ _ _ _ _ sample_wf E Hd) as (i & s & v & (_ & H2 & _) & _ & _ & _ & _ & _ & _ & _ & H9 & H10).
  exists s. auto.
Defined.

(** The instance is paused. *)
Definition sample_paused : @sync_db unit :=
  set_instances {["mi1" := {|
    in_display_name := "edge"; in_binding_status := BindingBound; in_lifecycle_status := LifecycleInUse;
    in_monitoring_status := MonitoringPaused; in_vps_id := "v1"; in_archived := false; in_labels := [];
    in_last_heartbeat_at := None; in_last_sync_at := None; in_last_trusted_online_at := None;
    in_ever_connected := true; in_pending_action_id := None; in_pending_action_command_id := None;
    in_last_action := None |}]} sample_db.

Lemma sync_stops_collection_witness :
  match applyBatch (sample_io Committed) (sample_batch "a" 0 3 1) sample_paused with
  | (Ok r, db') => collection_stopped sample_paused (sample_batch "a" 0 3 1) /\ re_Plan r = zero_plan /\
      same_facts sample_paused db'
  | _ => False
  end.
Proof.
  assert (match (applyBatch (sample_io Committed) (sample_batch "a" 0 3 1) sample_paused).1 with
          | Ok r => re_StopCollection r = true | Err _ => False end) as Hd by (vm_compute; reflexivity).
  destruct (applyBatch (sample_io Committed) (sample_batch "a" 0 3 1) sample_paused) as [[r|err] db'] eqn:E; [|exact Hd].
  assert (replay_wf sample_paused) as Hwf by (split; intros *; cbn; by rewrite lookup_empty).
  destruct (sync_stops_collection _ _ _ _ _ Hwf E) as [H1 H2]. split; [by apply H1|].
  destruct (H2 Hd) as (H3 & _ & H5). auto.
Defined.

Lemma sample_kept batch : ba_IPQualityReports batch = [] -> well_kept batch sample_db.
Proof.
  intros E. split; [by rewrite E|by eexists|]. intros id i. cbn. destruct (decide (id = "mi1")) as [->|].
  - rewrite lookup_singleton_eq. by intros [= <-].
  - by rewrite lookup_singleton_ne.
Qed.

Lemma faults_only_on_faults_witness :
  (ApplyBatch (sample_io Committed) (sample_batch "a" 5 3 1) sample_db).2 = false /\
  (ApplyBatch (sample_io Committed) (sample_batch "a" 5 3 1) sample_db).1.1 = Err ErrSyncBatchRetired.
Proof.
  split; [|vm_compute; reflexivity].
  pose proof (faults_only_on_faults (sample_io Committed) (sample_batch "a" 5 3 1) sample_db sample_healthy sample_wf
    (sample_kept (sample_batch "a" 5 3 1) eq_refl)) as H.
  destruct (ApplyBatch _ _ _) as [[answer db'] faulty]. apply H.
Defined.

Lemma action_dispatched_once_witness :
  match applyBatch (sample_io Committed) (sample_batch "a" 0 3 1) sample_db with
  | (Ok r, db') => sp_PendingAction (re_Plan r) = Some {| pc_CommandID := "uptime"; pc_ActionID := "act1" |} /\
      exists i', sd_instances db' !! "mi1" = Some i' /\ in_pending_action_id i' = None
  | _ => False
  end.
Proof.
  assert (match (applyBatch (sample_io Committed) (sample_batch "a" 0 3 1) sample_db).1 with
          | Ok r => re_Disposition r = ResultDispositionRecorded | Err _ => False end) as Hd
    by (vm_compute; reflexivity).
  destruct (applyBatch (sample_io Committed) (sample_batch "a" 0 3 1) sample_db) as [[r|err] db'] eqn:E; [|exact Hd].
  pose proof (action_dispatched_once _ _ _ _ _ sample_wf E) as H. rewrite Hd, String.eqb_refl in H.
  change (queued sample_db _) with (Some (Some "act1", Some "uptime")) in H.
  destruct H as (H1 & i' & last & H2 & H3 & _). split; [exact H1|]. exists i'. auto.
Defined.

(** An instance whose action is in flight receives its result twice. *)
Definition sample_result (action : string) (code : Z) : CommandResult := {|
  cr_ActionID := action; cr_CommandID := "uptime"; cr_Stdout := "up"; cr_Stderr := ""; cr_ExitCode := code |}.

Definition sample_in_flight : instance_row :=
  with_last (Some (marshalPendingLastAction "act1" "uptime" "standard" 5)) sample_instance.

Definition sample_results : list CommandResult := [sample_result "act0" 1; sample_result "act1" 0; sample_result "act1" 2].

Lemma results_settle_once_witness :
  match storeCommandResults (sample_io Committed) "mi1" sample_results 50
          (set_instances {["mi1" := sample_in_flight]} sample_db) with
  | Ok db' => length (sd_audits db') = 1%nat /\
      sd_instances db' = <[ "mi1" := with_last (Some (marshalCompletedLastAction (sample_result "act1" 0) 50))
                              sample_in_flight ]> {["mi1" := sample_in_flight]}
  | Err _ => False
  end.
Proof.
  destruct (storeCommandResults _ _ _ _ _) as [db'|err] eqn:E; [|vm_compute in E; discriminate E].
  pose proof (results_settle_once _ _ _ _ _ _ sample_in_flight E eq_refl) as [H1 H2]. split; [|exact H1].
  apply (f_equal length) in H2. rewrite length_fmap in H2. rewrite H2. reflexivity.
Defined.
