(* ===== verification/SyncWire.v ===== *)
(** What agent and center share of the sync exchange beyond the request: the digest
    that identifies the content of a batch (src/internal/contracts/agentapi/sync_protocol.go),
    the response and the error codes (src/internal/contracts/agentapi/types.go). *)
From stdpp Require Import base list strings gmap.
From Stdlib Require Import ZArith Lia.
From S2P Require Import Prelude GoRuntime Json AgentApi Wire AgentPlan SyncQueue.

Local Open Scope Z_scope.

(** * Error codes and dispositions *)

Definition ErrorCodeInvalidRequest : string := "invalid_request".
Definition ErrorCodeInvalidJSON : string := "invalid_json".
Definition ErrorCodeInvalidEnrollmentToken : string := "invalid_enrollment_token".
Definition ErrorCodeInvalidSyncToken : string := "invalid_sync_token".
Definition ErrorCodeBindingNotAccepted : string := "binding_not_accepted".
Definition ErrorCodeMethodNotAllowed : string := "method_not_allowed".
Definition ErrorCodeMonitoringInstanceNotFound : string := "monitoring_instance_not_found".
Definition ErrorCodeInternalError : string := "internal_error".
Definition ErrorCodeSyncProtocolRequired : string := "sync_protocol_required".
Definition ErrorCodeSyncProducerMismatch : string := "sync_producer_mismatch".
Definition ErrorCodeSyncBatchRetired : string := "sync_batch_retired".
Definition ErrorCodeSyncBatchIdentityConflict : string := "sync_batch_identity_conflict".

Definition SyncDispositionRecorded : string := "recorded".
Definition SyncDispositionExactDuplicate : string := "exact_duplicate".
Definition SyncDispositionSuppressed : string := "suppressed".
Definition SyncDispositionDeferred : string := "deferred".

Record SyncResponse := {
  rsp_SessionID : string;
  rsp_ProducerID : string;
  rsp_BatchSequence : Z;
  rsp_BatchDigest : string;
  rsp_Disposition : string;
  rsp_RetiredThrough : Z;
  rsp_StopCollection : bool;
  rsp_AcceptedAt : Z;
  rsp_Status : string;
  rsp_Plan : option SyncPlan;
}.

(** * The digest *)

(** What is left of a request once the keys of the transport are deleted from its JSON
    document; a deleted key stands as the zero value here. *)
Definition digest_view (r : SyncRequest) : SyncRequest := {|
  sr_ProtocolRevision := 0; sr_ProducerID := sr_ProducerID r; sr_BatchSequence := sr_BatchSequence r;
  sr_AllocatedThrough := 0; sr_RetiredThrough := 0; sr_SessionID := sr_SessionID r; sr_LiveSignal := None;
  sr_MonitoringInstanceID := sr_MonitoringInstanceID r; sr_SyncToken := "";
  sr_Heartbeats := heartbeat_with_backfilled false <$> sr_Heartbeats r;
  sr_HostSamples := host_sample_with_backfilled false <$> sr_HostSamples r;
  sr_ProbeObservations := probe_observation_with_backfilled false <$> sr_ProbeObservations r;
  sr_IPQualityReports := ip_quality_report_with_backfilled false <$> sr_IPQualityReports r;
  sr_CommandResults := sr_CommandResults r |}.

(** SHA-256 of the canonical JSON document: 32 bytes, or the error of a value that JSON
    cannot represent. *)
Class SyncDigest := { canonical_sha256 : SyncRequest -> result string }.

Definition CanonicalSyncBatchDigest `{SyncDigest} (r : SyncRequest) : result string :=
  match canonical_sha256 (digest_view r) with
  | Ok digest => Ok digest
  | Err err => Err (ErrWrap "encode sync batch digest: %w" [] [err])
  end.

(** A batch that is sent late, with newer watermarks, another token or another live
    signal keeps its digest. *)
Lemma digest_view_backfilled r backfilled : digest_view (WithBackfilledFacts r backfilled) = digest_view r.
Proof.
  unfold digest_view, WithBackfilledFacts. cbn. f_equal; rewrite <- list_fmap_compose; by apply list_fmap_ext.
Qed.

(** The replay fields as they stand when the request is sent. *)
Definition with_replay (producer : string) (allocated retired : Z) (live : option LiveSignal) (r : SyncRequest)
    : SyncRequest := {|
  sr_ProtocolRevision := SyncProtocolRevision; sr_ProducerID := producer; sr_BatchSequence := sr_BatchSequence r;
  sr_AllocatedThrough := allocated; sr_RetiredThrough := retired; sr_SessionID := sr_SessionID r;
  sr_LiveSignal := live; sr_MonitoringInstanceID := sr_MonitoringInstanceID r; sr_SyncToken := sr_SyncToken r;
  sr_Heartbeats := sr_Heartbeats r; sr_HostSamples := sr_HostSamples r;
  sr_ProbeObservations := sr_ProbeObservations r; sr_IPQualityReports := sr_IPQualityReports r;
  sr_CommandResults := sr_CommandResults r |}.

Lemma digest_view_replay producer allocated retired live r :
  sr_ProducerID r = producer -> digest_view (with_replay producer allocated retired live r) = digest_view r.
Proof. intros <-. reflexivity. Qed.
