(* ===== verification/AgentRuntime.v ===== *)
(** The loop of the agent (src/agent/runtime/runtime.go): each tick builds a request
    from what was collected, queues it durably, sends at most two entries of the backlog
    and then the new one, and deletes an entry when its acknowledgement was checked.
    Everything outside the process, the center included, is a world [W]. *)
From stdpp Require Import base list sorting strings gmap.
From Stdlib Require Import ZArith Lia.
From S2P Require Import Prelude GoRuntime Json AgentApi Settings Wire AgentPlan SyncQueue SyncWire SyncStore.

Local Open Scope Z_scope.
#[local] Set Warnings "-clear-no-such-hyp".

(** * Data *)

Definition maxBacklogSyncAttemptsPerRound : nat := 2.

(** [enroll.RemoteError]. *)
Record RemoteError := { rm_StatusCode : Z; rm_Code : string; rm_RetryAfter : Z }.

(** What [Client.Sync] answers. *)
Inductive sync_answer :=
| Answered (response : SyncResponse)
| Refused (err : RemoteError)
| Unreachable (err : error).

Definition syncQueueActionDiscard : string := "discard".
Definition syncQueueActionTerminal : string := "terminal".
Definition syncQueueActionRetry : string := "retry".
Definition syncFailureKindRemote : string := "remote".
Definition syncFailureKindTransport : string := "transport".

Record syncPolicyError := {
  pe_kind : string;
  pe_action : string;
  pe_statusCode : Z;
  pe_code : string;
}.

(** The errors of the loop: [errors.As] finds a policy error through a wrapper. *)
Inductive rt_error :=
| PolicyError (err : syncPolicyError)
| QueueError (operation : string) (cause : error)
| OtherError (err : error)
| WrappedError (format : string) (err : rt_error).

Fixpoint as_policy (err : rt_error) : option syncPolicyError :=
  match err with
  | PolicyError e => Some e
  | WrappedError _ err => as_policy err
  | _ => None
  end.

Record syncAuthority := {
  sa_monitoringInstanceID : string;
  sa_syncToken : string;
  sa_fingerprint : string;
}.

Inductive syncQueueEntryDisposition := Acknowledged | Discarded.

Record syncRoundResult := { rd_ackedEntries : Z; rd_remainingEntries : Z }.

Record Runtime := {
  rt_queue : FileStore;
  rt_currentPlan : option SyncPlan;
  rt_collectionStopped : bool;
  rt_lastHostSampleAt : Z;
  rt_pendingResults : list CommandResult;
  rt_pendingIPReports : list IPQualityReportPayload;
  rt_backlogRetryNotBefore : Z;
  rt_nextLiveSequence : Z;
  rt_lastLiveSequence : Z;
}.

Definition rt_with_queue (q : FileStore) (r : Runtime) : Runtime := {|
  rt_queue := q; rt_currentPlan := rt_currentPlan r; rt_collectionStopped := rt_collectionStopped r;
  rt_lastHostSampleAt := rt_lastHostSampleAt r; rt_pendingResults := rt_pendingResults r;
  rt_pendingIPReports := rt_pendingIPReports r; rt_backlogRetryNotBefore := rt_backlogRetryNotBefore r;
  rt_nextLiveSequence := rt_nextLiveSequence r; rt_lastLiveSequence := rt_lastLiveSequence r |}.

Definition rt_with_plan (plan : option SyncPlan) (stopped : bool) (results : list CommandResult)
    (reports : list IPQualityReportPayload) (r : Runtime) : Runtime := {|
  rt_queue := rt_queue r; rt_currentPlan := plan; rt_collectionStopped := stopped;
  rt_lastHostSampleAt := rt_lastHostSampleAt r; rt_pendingResults := results; rt_pendingIPReports := reports;
  rt_backlogRetryNotBefore := rt_backlogRetryNotBefore r; rt_nextLiveSequence := rt_nextLiveSequence r;
  rt_lastLiveSequence := rt_lastLiveSequence r |}.

Definition rt_with_retry (notBefore : Z) (r : Runtime) : Runtime := {|
  rt_queue := rt_queue r; rt_currentPlan := rt_currentPlan r; rt_collectionStopped := rt_collectionStopped r;
  rt_lastHostSampleAt := rt_lastHostSampleAt r; rt_pendingResults := rt_pendingResults r;
  rt_pendingIPReports := rt_pendingIPReports r; rt_backlogRetryNotBefore := notBefore;
  rt_nextLiveSequence := rt_nextLiveSequence r; rt_lastLiveSequence := rt_lastLiveSequence r |}.

Definition rt_with_live (next last : Z) (r : Runtime) : Runtime := {|
  rt_queue := rt_queue r; rt_currentPlan := rt_currentPlan r; rt_collectionStopped := rt_collectionStopped r;
  rt_lastHostSampleAt := rt_lastHostSampleAt r; rt_pendingResults := rt_pendingResults r;
  rt_pendingIPReports := rt_pendingIPReports r; rt_backlogRetryNotBefore := rt_backlogRetryNotBefore r;
  rt_nextLiveSequence := next; rt_lastLiveSequence := last |}.

Definition rt_with_sampled (at_ : Z) (r : Runtime) : Runtime := {|
  rt_queue := rt_queue r; rt_currentPlan := rt_currentPlan r; rt_collectionStopped := rt_collectionStopped r;
  rt_lastHostSampleAt := at_; rt_pendingResults := rt_pendingResults r;
  rt_pendingIPReports := rt_pendingIPReports r; rt_backlogRetryNotBefore := rt_backlogRetryNotBefore r;
  rt_nextLiveSequence := rt_nextLiveSequence r; rt_lastLiveSequence := rt_lastLiveSequence r |}.

(** * Pure parts *)

Definition errSyncQueueReplayRetry : string := "sync queue replay retry pending".

Definition allowlistedAgentErrorCode (code : string) : string :=
  if member code [ErrorCodeInvalidRequest; ErrorCodeInvalidJSON; ErrorCodeInvalidEnrollmentToken;
                  ErrorCodeInvalidSyncToken; ErrorCodeBindingNotAccepted; ErrorCodeMethodNotAllowed;
                  ErrorCodeMonitoringInstanceNotFound; ErrorCodeInternalError; ErrorCodeSyncProtocolRequired;
                  ErrorCodeSyncProducerMismatch; ErrorCodeSyncBatchRetired; ErrorCodeSyncBatchIdentityConflict]
  then code else "".

(** [None] is an error that is no answer of the center. *)
Definition classifySyncFailure (remote : option RemoteError) : syncPolicyError :=
  match remote with
  | None => {| pe_kind := syncFailureKindTransport; pe_action := syncQueueActionRetry; pe_statusCode := 0;
               pe_code := "" |}
  | Some e =>
      let status := rm_StatusCode e in
      let action :=
        if (status =? 429) || (500 <=? status) then syncQueueActionRetry
        else if (status =? 400) &&
                ((rm_Code e =s ErrorCodeInvalidJSON) || (rm_Code e =s ErrorCodeInvalidRequest))
        then syncQueueActionDiscard
        else if (400 <=? status) && (status <? 500) then syncQueueActionTerminal
        else syncQueueActionRetry in
      {| pe_kind := syncFailureKindRemote; pe_action := action; pe_statusCode := status;
         pe_code := allowlistedAgentErrorCode (rm_Code e) |}
  end.

Definition syncQueueAuthorityMismatch (r : SyncRequest) (a : syncAuthority) : bool :=
  (sr_MonitoringInstanceID r <>s sa_monitoringInstanceID a) || (sr_SyncToken r <>s sa_syncToken a) ||
  match sr_Heartbeats r with [] => true | _ => false end ||
  existsb (fun h => (hbp_SyncBatchID h =s "") || (hbp_Fingerprint h <>s sa_fingerprint a)) (sr_Heartbeats r) ||
  existsb (fun s => hsp_Fingerprint s <>s sa_fingerprint a) (sr_HostSamples r) ||
  existsb (fun o => pop_Fingerprint o <>s sa_fingerprint a) (sr_ProbeObservations r) ||
  existsb (fun q => iq_Fingerprint q <>s sa_fingerprint a) (sr_IPQualityReports r).

Definition acknowledged_rest {A} (count : nat) (pending : list A) : list A :=
  if (length pending <=? count)%nat then [] else if (0 <? count)%nat then drop count pending else pending.

(** What was queued is no longer pending. *)
Definition acknowledgePendingPayloads (commandResults ipQualityReports : nat) (r : Runtime) : Runtime :=
  rt_with_plan (rt_currentPlan r) (rt_collectionStopped r) (acknowledged_rest commandResults (rt_pendingResults r))
    (acknowledged_rest ipQualityReports (rt_pendingIPReports r)) r.

Definition frequencyTierDuration (tier : string) : option Z :=
  if tier =s FrequencyTier5s then Some (5 * Second)
  else if tier =s FrequencyTier1m then Some Minute
  else if tier =s FrequencyTier5m then Some (5 * Minute)
  else if tier =s FrequencyTier15m then Some (15 * Minute)
  else if tier =s FrequencyTier6h then Some (6 * Hour)
  else None.

Definition hostSampleDue (frequencyTier : string) (lastAt observedAt : Z) : bool :=
  match frequencyTierDuration frequencyTier with
  | None => false
  | Some duration => if Time_IsZero lastAt then true else negb (Time_Before observedAt (Time_Add lastAt duration))
  end.

(** The whitelist of commands: the center names one, it never supplies arguments. *)
Definition whitelist : list (string * (string * list string)) :=
  [("df_h", ("df", ["-h"])); ("free_m", ("free", ["-m"])); ("uptime", ("uptime", []));
   ("top_head", ("top", ["-bn1"])); ("journalctl_u", ("journalctl", ["--lines=50"]));
   ("systemctl_status", ("systemctl", ["status"])); ("dmesg_err", ("dmesg", ["--level=err"]));
   ("docker_ps", ("docker", ["ps"]))].

Definition Lookup (id : string) : option (string * list string) :=
  snd <$> List.find (fun c => c.1 =s id) whitelist.

(** * The loop *)

(** The world: what each queue operation meets, the network, the clock, the collectors
    and the commands. *)
Class AgentWorld (W : Type) := {
  next_io : W -> op_io * W;
  net_Sync : SyncRequest -> W -> sync_answer * W;
  clock_now : W -> Z * W;
  host_Collect : option (Z -> W -> result HostSamplePayload * W);
  (** No containers when they cannot be listed. *)
  containers_Collect : W -> list ContainerInfo * W;
  probe_CollectDue : option (SyncPlan -> Z -> W -> result (list ProbeObservationPayload) * W);
  ip_DrainReports : W -> list IPQualityReportPayload * W;
  ip_MaybeStart : IPQualityPlan -> Z -> W -> W;
  ip_Stop : W -> W;
  (** Output, error output and exit code. *)
  exec_Run : string -> list string -> W -> (string * string * Z) * W;
  agentVersion : string;
}.

Section Loop.
Context {W : Type} `{World : AgentWorld W} `{Codec : QueueCodec} `{Digest : SyncDigest}.

(** A step of the loop: a value or an error, with the new runtime and world. *)
Definition rt (A : Type) : Type := Runtime * W -> (A + rt_error) * (Runtime * W).

#[export] Instance rt_ret : MRet rt := fun A a s => (inl a, s).

#[export] Instance rt_bind : MBind rt := fun A B f m s =>
  match m s with
  | (inl a, s) => f a s
  | (inr err, s) => (inr err, s)
  end.

Definition rt_fail {A} (err : rt_error) : rt A := fun s => (inr err, s).
Definition rt_get : rt Runtime := fun s => (inl s.1, s).
Definition rt_modify (f : Runtime -> Runtime) : rt () := fun s => (inl tt, (f s.1, s.2)).
Definition rt_world {A} (f : W -> A * W) : rt A := fun s => let '(a, w) := f s.2 in (inl a, (s.1, w)).

(** An operation of the queue and how the loop wraps its error, mostly with the name of
    the operation. *)
Definition queue_do {A} (wrap : error -> rt_error) (f : op_io -> FileStore -> result A * FileStore) : rt A := fun s =>
  let '(io, w) := next_io s.2 in
  let '(answer, q) := f io (rt_queue s.1) in
  (match answer with Ok a => inl a | Err err => inr (wrap err) end, (rt_with_queue q s.1, w)).

(** A reading operation. *)
Definition queue_read {A} (wrap : error -> rt_error) (f : op_io -> FileStore -> result A) : rt A :=
  queue_do wrap (fun io q => (f io q, q)).

(** ** Collecting *)

Definition sample_stamped (observedAt : Z) (fingerprint batch : string) (maintenance : bool)
    (containers : list ContainerInfo) (s : HostSamplePayload) : HostSamplePayload := {|
  hsp_ObservedAt := observedAt; hsp_AgentVersion := agentVersion; hsp_Fingerprint := fingerprint;
  hsp_SyncBatchID := batch; hsp_CPUUsagePct := hsp_CPUUsagePct s; hsp_CPURatesValid := hsp_CPURatesValid s;
  hsp_Load1 := hsp_Load1 s; hsp_Load5 := hsp_Load5 s; hsp_Load15 := hsp_Load15 s;
  hsp_MemUsedPct := hsp_MemUsedPct s; hsp_MemAvailableBytes := hsp_MemAvailableBytes s;
  hsp_MemTotalBytes := hsp_MemTotalBytes s; hsp_SwapUsedPct := hsp_SwapUsedPct s;
  hsp_DiskUsedPct := hsp_DiskUsedPct s; hsp_DiskTotalBytes := hsp_DiskTotalBytes s;
  hsp_InodeUsedPct := hsp_InodeUsedPct s; hsp_NetInBytesPerSec := hsp_NetInBytesPerSec s;
  hsp_NetOutBytesPerSec := hsp_NetOutBytesPerSec s; hsp_NetworkRatesValid := hsp_NetworkRatesValid s;
  hsp_CPUIOWaitPct := hsp_CPUIOWaitPct s; hsp_CPUStealPct := hsp_CPUStealPct s;
  hsp_DiskReadBytesPerSec := hsp_DiskReadBytesPerSec s; hsp_DiskWriteBytesPerSec := hsp_DiskWriteBytesPerSec s;
  hsp_DiskBusyPct := hsp_DiskBusyPct s; hsp_UptimeSeconds := hsp_UptimeSeconds s;
  hsp_MaintenanceContext := maintenance; hsp_IsBackfilled := hsp_IsBackfilled s;
  hsp_Containers := match containers with [] => hsp_Containers s | _ => containers end |}.

Definition collectHostSample (observedAt : Z) (fingerprint batch : string) : rt (option HostSamplePayload) :=
  r ← rt_get;
  match host_Collect, rt_currentPlan r with
  | Some collect, Some plan =>
      if negb (hostSampleDue (sp_HostSampleFrequencyTier plan) (rt_lastHostSampleAt r) observedAt) then mret None
      else
        collected ← rt_world (collect observedAt);
        match collected with
        | Err _ => mret None
        | Ok sample =>
            _ ← rt_modify (rt_with_sampled observedAt);
            containers ← rt_world containers_Collect;
            mret (Some (sample_stamped observedAt fingerprint batch (sp_HostSampleMaintenanceContext plan)
                          containers sample))
        end
  | _, _ => mret None
  end.

Definition observation_stamped (observedAt : Z) (fingerprint batch : string) (o : ProbeObservationPayload)
    : ProbeObservationPayload := {|
  pop_TargetID := pop_TargetID o; pop_ProbeItemID := pop_ProbeItemID o; pop_ProbeKind := pop_ProbeKind o;
  pop_ObservedAt := observedAt; pop_AgentVersion := agentVersion; pop_Fingerprint := fingerprint;
  pop_SyncBatchID := batch; pop_ResultKind := pop_ResultKind o; pop_LatencyMS := pop_LatencyMS o;
  pop_HTTPStatus := pop_HTTPStatus o; pop_TLSExpiryDays := pop_TLSExpiryDays o; pop_ErrorCode := pop_ErrorCode o;
  pop_ErrorSummary := pop_ErrorSummary o; pop_MaintenanceContext := pop_MaintenanceContext o;
  pop_IsBackfilled := pop_IsBackfilled o |}.

(** An error of the collector is logged; the request goes on without observations. *)
Definition collectProbeObservations (observedAt : Z) (fingerprint batch : string)
    : rt (list ProbeObservationPayload) :=
  r ← rt_get;
  match probe_CollectDue, rt_currentPlan r with
  | Some collect, Some plan =>
      match sp_ProbeAssignments plan with
      | [] => mret []
      | _ =>
          collected ← rt_world (collect plan observedAt);
          match collected with
          | Err _ => mret []
          | Ok observations => mret (observation_stamped observedAt fingerprint batch <$> observations)
          end
      end
  | _, _ => mret []
  end.

(** Fills the fields a report left empty. *)
Definition report_stamped (observedAt : Z) (fingerprint batch : string) (q : IPQualityReportPayload)
    : IPQualityReportPayload := {|
  iq_ObservedAt := if Time_IsZero (iq_ObservedAt q) then observedAt else iq_ObservedAt q;
  iq_AgentVersion := if iq_AgentVersion q =s "" then agentVersion else iq_AgentVersion q;
  iq_Fingerprint := if iq_Fingerprint q =s "" then fingerprint else iq_Fingerprint q;
  iq_SyncBatchID := if iq_SyncBatchID q =s "" then batch else iq_SyncBatchID q;
  iq_IPAddress := iq_IPAddress q; iq_IPVersion := iq_IPVersion q; iq_Status := iq_Status q; iq_ASN := iq_ASN q;
  iq_Organization := iq_Organization q; iq_Latitude := iq_Latitude q; iq_Longitude := iq_Longitude q;
  iq_UseRegionCode := iq_UseRegionCode q; iq_UseRegionName := iq_UseRegionName q;
  iq_RegisteredRegionCode := iq_RegisteredRegionCode q; iq_RegisteredRegionName := iq_RegisteredRegionName q;
  iq_RiskLevel := iq_RiskLevel q; iq_ErrorCode := iq_ErrorCode q; iq_ErrorSummary := iq_ErrorSummary q;
  iq_IsBackfilled := iq_IsBackfilled q; iq_RawJSON := iq_RawJSON q; iq_Coverage := iq_Coverage q;
  iq_DiagnosticsJSON := iq_DiagnosticsJSON q; iq_ProviderResults := iq_ProviderResults q;
  iq_ServiceUnlocks := iq_ServiceUnlocks q; iq_Product := iq_Product q |}.

Definition drainIPQualityReports (observedAt : Z) (fingerprint batch : string) : rt (list IPQualityReportPayload) :=
  reports ← rt_world ip_DrainReports;
  mret (report_stamped observedAt fingerprint batch <$> reports).

Definition startIPQualityCollection (observedAt : Z) : rt () :=
  r ← rt_get;
  match rt_currentPlan r ≫= sp_IPQualityPlan with
  | Some plan => if ip_Enabled plan then rt_world (fun w => (tt, ip_MaybeStart plan observedAt w)) else mret tt
  | None => mret tt
  end.

Definition request_of (instance token : string) (beats : list MonitoringInstanceHeartbeat)
    (samples : list HostSamplePayload) (observations : list ProbeObservationPayload)
    (reports : list IPQualityReportPayload) (results : list CommandResult) : SyncRequest := {|
  sr_ProtocolRevision := 0; sr_ProducerID := ""; sr_BatchSequence := 0; sr_AllocatedThrough := 0;
  sr_RetiredThrough := 0; sr_SessionID := before_dot token; sr_LiveSignal := None;
  sr_MonitoringInstanceID := instance; sr_SyncToken := token; sr_Heartbeats := beats; sr_HostSamples := samples;
  sr_ProbeObservations := observations; sr_IPQualityReports := reports; sr_CommandResults := results |}.

Definition buildSyncRequest (instance token : string) (observedAt : Z) (fingerprint batch : string)
    : rt SyncRequest :=
  r ← rt_get;
  if rt_collectionStopped r then mret (request_of instance token [] [] [] [] [])
  else
    sample ← collectHostSample observedAt fingerprint batch;
    observations ← collectProbeObservations observedAt fingerprint batch;
    drained ← drainIPQualityReports observedAt fingerprint batch;
    _ ← rt_modify (fun r => rt_with_plan (rt_currentPlan r) (rt_collectionStopped r) (rt_pendingResults r)
                              (rt_pendingIPReports r ++ drained) r);
    _ ← startIPQualityCollection observedAt;
    r ← rt_get;
    mret (request_of instance token
            [{| hbp_ObservedAt := observedAt; hbp_AgentVersion := agentVersion; hbp_Fingerprint := fingerprint;
                hbp_SyncBatchID := batch; hbp_IsBackfilled := false |}]
            (match sample with Some s => [s] | None => [] end) observations (rt_pendingIPReports r)
            (rt_pendingResults r)).

(** ** Sending *)

Definition with_signal (signal : LiveSignal) (r : SyncRequest) : SyncRequest := {|
  sr_ProtocolRevision := sr_ProtocolRevision r; sr_ProducerID := sr_ProducerID r;
  sr_BatchSequence := sr_BatchSequence r; sr_AllocatedThrough := sr_AllocatedThrough r;
  sr_RetiredThrough := sr_RetiredThrough r; sr_SessionID := sr_SessionID r; sr_LiveSignal := Some signal;
  sr_MonitoringInstanceID := sr_MonitoringInstanceID r; sr_SyncToken := sr_SyncToken r;
  sr_Heartbeats := sr_Heartbeats r; sr_HostSamples := sr_HostSamples r;
  sr_ProbeObservations := sr_ProbeObservations r; sr_IPQualityReports := sr_IPQualityReports r;
  sr_CommandResults := sr_CommandResults r |}.

(** Numbers come from a block that the queue reserved durably. *)
Definition attachLiveSignal (fingerprint : string) (request : SyncRequest) : rt SyncRequest :=
  if fingerprint =s "" then rt_fail (OtherError (ErrNew "live signal requires local identity"))
  else
    r ← rt_get;
    _ ← (if rt_nextLiveSequence r =? 0 then
           block ← queue_do (QueueError "reserve_live_sequences") (fun io => ReserveLiveSequences io LiveSequenceReservation);
           rt_modify (rt_with_live block.1 block.2)
         else mret tt);
    r ← rt_get;
    let sequence := rt_nextLiveSequence r in
    _ ← rt_modify (rt_with_live (if sequence =? rt_lastLiveSequence r then 0 else sequence + 1)
                     (rt_lastLiveSequence r));
    mret (with_signal {| ls_Sequence := sequence; ls_Fingerprint := fingerprint |} request).

(** The watermarks of the queue at the moment of sending. *)
Definition refreshReplayState (request : SyncRequest) : rt SyncRequest :=
  state ← queue_read (QueueError "replay_state") queue_ReplayState;
  if (sr_SessionID request <>s rep_SessionID state) ||
     (0 <? sr_BatchSequence request) && (sr_ProducerID request <>s rep_ProducerID state)
  then rt_fail (OtherError (ErrNew "sync request does not match durable replay authority"))
  else mret (with_replay (rep_ProducerID state) (rep_AllocatedThrough state) (rep_RetiredThrough state)
               (sr_LiveSignal request) request).

Definition validateSyncAcknowledgement (request : SyncRequest) (response : SyncResponse) : result unit :=
  _ ← reject ((rsp_SessionID response <>s sr_SessionID request) ||
              (rsp_ProducerID response <>s sr_ProducerID request) ||
              negb (rsp_BatchSequence response =? sr_BatchSequence request))
        (ErrNew "sync acknowledgement authority or sequence mismatch");
  digest ← CanonicalSyncBatchDigest request;
  _ ← reject (rsp_BatchDigest response <>s hex_EncodeToString digest) (ErrNew "sync acknowledgement digest mismatch");
  reject (negb (member (rsp_Disposition response)
                  [SyncDispositionRecorded; SyncDispositionExactDuplicate; SyncDispositionSuppressed;
                   SyncDispositionDeferred])) (ErrNew "sync acknowledgement disposition invalid").

(** A center that is busy delays the next attempt on the backlog. *)
Definition note_retry_after (err : RemoteError) : rt () :=
  if (rm_StatusCode err =? 429) || (rm_StatusCode err =? 503) then
    let wait := if (rm_RetryAfter err <? Second) || (Minute <? rm_RetryAfter err) then 5 * Second
                else rm_RetryAfter err in
    now ← rt_world clock_now;
    r ← rt_get;
    if Time_After (Time_Add now wait) (rt_backlogRetryNotBefore r)
    then rt_modify (rt_with_retry (Time_Add now wait)) else mret tt
  else mret tt.

(** Sends the request as it is in the queue's present state and checks the answer. *)
Definition transmitSyncRequest (request : SyncRequest) : rt SyncResponse :=
  request ← refreshReplayState request;
  answer ← rt_world (net_Sync request);
  match answer with
  | Unreachable _ => rt_fail (PolicyError (classifySyncFailure None))
  | Refused err => _ ← note_retry_after err; rt_fail (PolicyError (classifySyncFailure (Some err)))
  | Answered response =>
      match validateSyncAcknowledgement request response with
      | Err _ => rt_fail (PolicyError {| pe_kind := syncFailureKindRemote; pe_action := syncQueueActionTerminal;
                                         pe_statusCode := 0; pe_code := "" |})
      | Ok _ => mret response
      end
  end.

Definition syncRequest (entry : Entry) (current : bool) : rt SyncResponse :=
  if negb current then transmitSyncRequest (WithBackfilledFacts (qe_Request entry) true)
  else match sr_Heartbeats (qe_Request entry) with
       | [] => rt_fail (OtherError (ErrNew "index out of range [0]"))
       | beat :: _ =>
           request ← attachLiveSignal (hbp_Fingerprint beat) (qe_Request entry);
           transmitSyncRequest request
       end.

(** ** Applying an answer *)

(** [cloneSyncPlan] is a deep copy.  A named command that is on the whitelist runs at
    once, its result waits for the next request. *)
Definition run_pending (plan : SyncPlan) : rt () :=
  match sp_PendingAction plan with
  | None => mret tt
  | Some action =>
      match Lookup (pc_CommandID action) with
      | None => mret tt
      | Some (bin, args) =>
          done_ ← rt_world (exec_Run bin args);
          rt_modify (fun r => rt_with_plan (rt_currentPlan r) (rt_collectionStopped r)
            (rt_pendingResults r ++ [{| cr_ActionID := pc_ActionID action; cr_CommandID := pc_CommandID action;
                                        cr_Stdout := done_.1.1; cr_Stderr := done_.1.2; cr_ExitCode := done_.2 |}])
            (rt_pendingIPReports r) r)
      end
  end.

Definition applySyncPlan (response : SyncResponse) : rt () :=
  if rsp_StopCollection response then
    _ ← rt_modify (rt_with_plan None true [] []);
    _ ← rt_world (fun w => (tt, ip_Stop w));
    _ ← rt_world ip_DrainReports;
    mret tt
  else
    match rsp_Plan response with
    | None => rt_modify (fun r => rt_with_plan None false (rt_pendingResults r) (rt_pendingIPReports r) r)
    | Some plan =>
        _ ← rt_modify (fun r => rt_with_plan (Some plan) false (rt_pendingResults r) (rt_pendingIPReports r) r);
        run_pending plan
    end.

(** [errors.As(err, &policyErr)] around a step. *)
Definition rt_try {A} (m : rt A) : rt (A + rt_error) := fun s => let '(r, s) := m s in (inl r, s).

(** What becomes of an entry whose request failed. *)
Definition entry_failed (entry : Entry) (err : rt_error) : rt syncQueueEntryDisposition :=
  match as_policy err with
  | None => rt_fail err
  | Some policy =>
      _ ← queue_do (QueueError "mark_attempt") (fun io => MarkAttempt io (qe_ID entry));
      if pe_action policy =s syncQueueActionDiscard then
        _ ← queue_do (QueueError "delete_rejected") (fun io => Delete io (qe_ID entry));
        mret Discarded
      else if (pe_action policy =s syncQueueActionTerminal) || (pe_action policy =s syncQueueActionRetry)
      then rt_fail (PolicyError policy)
      else rt_fail err
  end.

Definition retry_later : rt_error :=
  PolicyError {| pe_kind := syncFailureKindRemote; pe_action := syncQueueActionRetry; pe_statusCode := 0;
                 pe_code := "" |}.

(** What becomes of an entry whose answer was checked.  The two last operations pass an
    error of the queue on as it is. *)
Definition entry_answered (entry : Entry) (response : SyncResponse) : rt syncQueueEntryDisposition :=
  if rsp_Disposition response =s SyncDispositionDeferred then rt_fail retry_later
  else
    _ ← queue_do (QueueError "delete_acknowledged") (fun io => Delete io (qe_ID entry));
    _ ← applySyncPlan response;
    if rsp_StopCollection response then
      entries ← queue_read OtherError queue_List;
      _ ← queue_do OtherError (fun io => DeleteMany io (qe_ID <$> entries));
      mret Acknowledged
    else mret Acknowledged.

Definition flushSyncQueueEntry (entry : Entry) (current : bool) : rt syncQueueEntryDisposition :=
  answer ← rt_try (syncRequest entry current);
  match answer with
  | inr err => entry_failed entry err
  | inl response => entry_answered entry response
  end.

(** Entries of another identity are deleted, unless they share an identifier with one
    that is kept. *)
Definition discardStaleSyncQueueEntries (entries : list Entry) (authority : syncAuthority) : rt (list Entry) :=
  let retained := List.filter (fun e => negb (syncQueueAuthorityMismatch (qe_Request e) authority)) entries in
  let stale := List.filter (fun e => syncQueueAuthorityMismatch (qe_Request e) authority &&
                                     bool_decide (qe_ID e ∉ (qe_ID <$> retained))) entries in
  match stale with
  | [] => mret retained
  | _ =>
      _ ← queue_do (QueueError "delete_stale") (fun io => DeleteMany io (qe_ID <$> stale));
      mret retained
  end.

(** ** A round *)

(** How the attempts on the backlog ended: the round goes on to the current entry, with
    the error of a retry if there was one, or collection was stopped, or it failed. *)
Inductive backlog_end :=
| BacklogDone (round : syncRoundResult) (retry : option rt_error)
| BacklogStopped.

Fixpoint flush_backlog (fuel : nat) (backlog : list Entry) (round : syncRoundResult) : rt backlog_end :=
  match fuel, backlog with
  | S fuel, entry :: backlog =>
      r ← rt_get;
      waiting ← (if Time_IsZero (rt_backlogRetryNotBefore r) then mret false
                 else
                   now ← rt_world clock_now;
                   if Time_Before now (rt_backlogRetryNotBefore r) then mret true
                   else _ ← rt_modify (rt_with_retry 0); mret false);
      if (waiting : bool) then mret (BacklogDone round None)
      else
        flushed ← rt_try (flushSyncQueueEntry entry false);
        match flushed with
        | inr err =>
            match as_policy err with
            | Some policy => if pe_action policy =s syncQueueActionRetry then mret (BacklogDone round (Some err))
                             else rt_fail err
            | None => rt_fail err
            end
        | inl disposition =>
            let round := {| rd_remainingEntries := rd_remainingEntries round - 1;
                            rd_ackedEntries := match disposition with
                                               | Acknowledged => rd_ackedEntries round + 1
                                               | Discarded => rd_ackedEntries round
                                               end |} in
            r ← rt_get;
            if rt_collectionStopped r then mret BacklogStopped else flush_backlog fuel backlog round
        end
  | _, _ => mret (BacklogDone round None)
  end.

Definition locate_error (name : string) : rt_error := QueueError "locate_current" (ErrSentinel name).

Definition flushSyncQueue (currentEntryID : string) (authority : syncAuthority) : rt syncRoundResult :=
  entries ← queue_read (QueueError "list") queue_List;
  entries ← discardStaleSyncQueueEntries entries authority;
  let backlog := List.filter (fun e => qe_ID e <>s currentEntryID) entries in
  match List.filter (fun e => qe_ID e =s currentEntryID) entries with
  | [] => rt_fail (locate_error "current sync queue entry missing")
  | _ :: _ :: _ => rt_fail (locate_error "current sync queue entry ambiguous")
  | [current] =>
      ended ← flush_backlog maxBacklogSyncAttemptsPerRound backlog
                {| rd_ackedEntries := 0; rd_remainingEntries := Z.of_nat (length backlog) |};
      match ended with
      | BacklogStopped => mret {| rd_ackedEntries := 0; rd_remainingEntries := 0 |}
      | BacklogDone round retry =>
          _ ← flushSyncQueueEntry current true;
          match retry with
          | Some err => rt_fail err
          | None => mret round
          end
      end
  end.

(** Once the request is in the queue its results and reports are no longer pending. *)
Definition enqueueAndFlush (request : SyncRequest) (authority : syncAuthority) : rt syncRoundResult :=
  currentEntryID ← queue_do (QueueError "enqueue") (fun io => Enqueue io request);
  _ ← rt_modify (acknowledgePendingPayloads (length (sr_CommandResults request))
                   (length (sr_IPQualityReports request)));
  _ ← queue_do (QueueError "prune") (fun io => Prune io);
  flushed ← rt_try (flushSyncQueue currentEntryID authority);
  match flushed with
  | inl round => mret round
  | inr err => rt_fail (WrappedError "flush sync queue: %w" err)
  end.

Definition sendControl (request : SyncRequest) (fingerprint : string) : rt () :=
  request ← attachLiveSignal fingerprint request;
  response ← transmitSyncRequest request;
  if rsp_Disposition response <>s SyncDispositionSuppressed
  then rt_fail (OtherError (ErrNew "minimal sync control was not suppressed"))
  else applySyncPlan response.

(** [errors.Is(err, syncqueue.ErrAmbiguousDurability)]. *)
Fixpoint is_ambiguous (err : rt_error) : bool :=
  match err with
  | PolicyError _ => false
  | QueueError _ cause => errors_Is AmbiguousDurabilityName cause
  | OtherError err => errors_Is AmbiguousDurabilityName err
  | WrappedError _ err => is_ambiguous err
  end.

(** One tick of [Run]; [None] when the loop goes on, an error when it ends.  A cancelled
    context, which ends the loop without an error, is not modelled. *)
Definition tick (authority : syncAuthority) (observedAt : Z) : rt (option rt_error) :=
  request ← buildSyncRequest (sa_monitoringInstanceID authority) (sa_syncToken authority) observedAt
              (sa_fingerprint authority) "";
  r ← rt_get;
  if rt_collectionStopped r then
    sent ← rt_try (sendControl request (sa_fingerprint authority));
    match sent with
    | inl _ => mret None
    | inr err =>
        if is_ambiguous err then mret (Some err)
        else match as_policy err with
             | Some policy => if pe_action policy =s syncQueueActionRetry then mret None else mret (Some err)
             | None => mret (Some err)
             end
    end
  else
    round ← rt_try (enqueueAndFlush request authority);
    match round with
    | inl _ => mret None
    | inr err =>
        if is_ambiguous err then mret (Some err)
        else match as_policy err with
             | Some policy =>
                 if pe_action policy =s syncQueueActionTerminal
                 then mret (Some (WrappedError "sync queue terminal failure: %w" err))
                 else if pe_action policy =s syncQueueActionRetry then mret None
                 else mret (Some (WrappedError "sync queue operation failed: %w" err))
             | None => mret (Some (WrappedError "sync queue operation failed: %w" err))
             end
    end.
End Loop.
