(* ===== verification/RateLimit.v ===== *)
(** The sliding-window limiters in front of the agent endpoints
    (src/internal/center/http/handlers/agent.go) and of the login
    (src/internal/center/http/handlers/auth.go).  The mutex makes each call atomic. *)
From stdpp Require Import base list sorting strings gmap fin_maps.
From Stdlib Require Import ZArith Lia.
From S2P Require Import Prelude GoRuntime.

Local Open Scope Z_scope.
#[local] Set Warnings "-clear-no-such-hyp".

(** * Events *)

(** Drops the leading events before the cutoff. *)
Fixpoint pruneTimes (values : list Z) (cutoff : Z) : list Z :=
  match values with
  | [] => []
  | t :: rest => if negb (Time_Before t cutoff) then values else pruneTimes rest cutoff
  end.

Definition sweepTimeMap (values : gmap string (list Z)) (cutoff : Z) : gmap string (list Z) :=
  omap (fun events => match pruneTimes events cutoff with [] => None | kept => Some kept end) values.

(** The live events of a key, with the map they are written back to. *)
Definition eventsForKey (values : gmap string (list Z)) (key : string) (cutoff : Z)
    : list Z * gmap string (list Z) :=
  match values !! key with
  | None => ([], values)
  | Some events =>
      match pruneTimes events cutoff with
      | [] => ([], delete key values)
      | kept => (kept, <[key := kept]> values)
      end
  end.

(** [None] when the key is new and the map is full. *)
Definition trackableEventsForKey (maxKeys : Z) (values : gmap string (list Z)) (key : string) (cutoff : Z)
    : option (list Z) * gmap string (list Z) :=
  let '(events, values) := eventsForKey values key cutoff in
  match events with
  | [] => if (0 <? maxKeys) && (maxKeys <=? Z.of_nat (size values)) then (None, values) else (Some [], values)
  | _ => (Some events, values)
  end.

Definition exceeded (max : Z) (events : list Z) : bool := (0 <? max) && (max <=? Z.of_nat (length events)).

(** * The agent limiter *)

Record AgentRateLimitOptions := {
  ra_MaxRequestsByIP : Z;
  ra_MaxRequestsGlobal : Z;
  ra_MaxTrackedKeys : Z;
  ra_Window : Z;
  ra_SweepInterval : Z;
  ra_MaxSyncInflight : Z;
}.

Definition defaultAgentRateLimitOptions : AgentRateLimitOptions := {|
  ra_MaxRequestsByIP := 120; ra_MaxRequestsGlobal := 1000; ra_MaxTrackedKeys := 10000; ra_Window := Minute;
  ra_SweepInterval := Minute; ra_MaxSyncInflight := 32 |}.

Definition defaultAgentSyncRateLimitOptions : AgentRateLimitOptions := {|
  ra_MaxRequestsByIP := 2400; ra_MaxRequestsGlobal := 2400; ra_MaxTrackedKeys := 10000; ra_Window := Minute;
  ra_SweepInterval := Minute; ra_MaxSyncInflight := 32 |}.

Definition or_default (value fallback : Z) : Z := if value <=? 0 then fallback else value.

Definition normalizeAgentRateLimitOptions (opts defaults : AgentRateLimitOptions) : AgentRateLimitOptions := {|
  ra_MaxRequestsByIP := or_default (ra_MaxRequestsByIP opts) (ra_MaxRequestsByIP defaults);
  ra_MaxRequestsGlobal := or_default (ra_MaxRequestsGlobal opts) (ra_MaxRequestsGlobal defaults);
  ra_MaxTrackedKeys := or_default (ra_MaxTrackedKeys opts) (ra_MaxTrackedKeys defaults);
  ra_Window := or_default (ra_Window opts) (ra_Window defaults);
  ra_SweepInterval := or_default (ra_SweepInterval opts) (ra_SweepInterval defaults);
  ra_MaxSyncInflight := or_default (ra_MaxSyncInflight opts) (ra_MaxSyncInflight defaults) |}.

Record agentRequestLimiter := {
  al_window : Z;
  al_sweepInterval : Z;
  al_nextSweep : Z;
  al_maxIP : Z;
  al_maxGlobal : Z;
  al_maxKeys : Z;
  al_byIP : gmap string (list Z);
  al_global : list Z;
}.

Definition newAgentRequestLimiter (opts : AgentRateLimitOptions) : agentRequestLimiter :=
  let opts := normalizeAgentRateLimitOptions opts defaultAgentRateLimitOptions in {|
    al_window := ra_Window opts; al_sweepInterval := ra_SweepInterval opts; al_nextSweep := 0;
    al_maxIP := ra_MaxRequestsByIP opts; al_maxGlobal := ra_MaxRequestsGlobal opts;
    al_maxKeys := ra_MaxTrackedKeys opts; al_byIP := ∅; al_global := [] |}.

Definition al_with (byIP : gmap string (list Z)) (global : list Z) (nextSweep : Z) (l : agentRequestLimiter)
    : agentRequestLimiter := {|
  al_window := al_window l; al_sweepInterval := al_sweepInterval l; al_nextSweep := nextSweep;
  al_maxIP := al_maxIP l; al_maxGlobal := al_maxGlobal l; al_maxKeys := al_maxKeys l; al_byIP := byIP;
  al_global := global |}.

Definition sweepExpiredLocked (now cutoff : Z) (l : agentRequestLimiter) : agentRequestLimiter :=
  if al_sweepInterval l <=? 0 then l
  else if negb (Time_IsZero (al_nextSweep l)) && Time_Before now (al_nextSweep l) then l
  else al_with (sweepTimeMap (al_byIP l) cutoff) (al_global l) (Time_Add now (al_sweepInterval l)) l.

Definition agent_allow (clientIP : string) (now : Z) (l : agentRequestLimiter) : bool * agentRequestLimiter :=
  let cutoff := Time_Add now (- al_window l) in
  let l := sweepExpiredLocked now cutoff l in
  let '(ipEvents, byIP) := eventsForKey (al_byIP l) clientIP cutoff in
  let global := pruneTimes (al_global l) cutoff in
  let l := al_with byIP global (al_nextSweep l) l in
  if exceeded (al_maxIP l) ipEvents then (false, l)
  else if exceeded (al_maxGlobal l) global then (false, l)
  else
    let '(tracked, byIP) := trackableEventsForKey (al_maxKeys l) byIP clientIP cutoff in
    let byIP := match tracked with Some events => <[clientIP := events ++ [now]]> byIP | None => byIP end in
    (true, al_with byIP (global ++ [now]) (al_nextSweep l) l).

(** * The login limiter *)

Record LoginRateLimitOptions := {
  rl_MaxFailuresByUsername : Z;
  rl_MaxFailuresByIP : Z;
  rl_MaxFailuresGlobal : Z;
  rl_MaxTrackedKeys : Z;
  rl_Window : Z;
  rl_SweepInterval : Z;
}.

Definition defaultLoginRateLimitOptions : LoginRateLimitOptions := {|
  rl_MaxFailuresByUsername := 10; rl_MaxFailuresByIP := 30; rl_MaxFailuresGlobal := 300;
  rl_MaxTrackedKeys := 10000; rl_Window := 15 * Minute; rl_SweepInterval := Minute |}.

Record loginLimiter := {
  ll_window : Z;
  ll_sweepInterval : Z;
  ll_nextSweep : Z;
  ll_maxUser : Z;
  ll_maxIP : Z;
  ll_maxGlobal : Z;
  ll_maxKeys : Z;
  ll_byUser : gmap string (list Z);
  ll_byIP : gmap string (list Z);
  ll_global : list Z;
}.

Definition newLoginLimiter (opts : LoginRateLimitOptions) : loginLimiter :=
  let window := or_default (rl_Window opts) (15 * Minute) in {|
    ll_window := window; ll_sweepInterval := or_default (rl_SweepInterval opts) window; ll_nextSweep := 0;
    ll_maxUser := rl_MaxFailuresByUsername opts; ll_maxIP := rl_MaxFailuresByIP opts;
    ll_maxGlobal := rl_MaxFailuresGlobal opts; ll_maxKeys := or_default (rl_MaxTrackedKeys opts) 10000;
    ll_byUser := ∅; ll_byIP := ∅; ll_global := [] |}.

Definition ll_with (byUser byIP : gmap string (list Z)) (global : list Z) (nextSweep : Z) (l : loginLimiter)
    : loginLimiter := {|
  ll_window := ll_window l; ll_sweepInterval := ll_sweepInterval l; ll_nextSweep := nextSweep;
  ll_maxUser := ll_maxUser l; ll_maxIP := ll_maxIP l; ll_maxGlobal := ll_maxGlobal l; ll_maxKeys := ll_maxKeys l;
  ll_byUser := byUser; ll_byIP := byIP; ll_global := global |}.

Definition login_sweep (now cutoff : Z) (l : loginLimiter) : loginLimiter :=
  if ll_sweepInterval l <=? 0 then l
  else if negb (Time_IsZero (ll_nextSweep l)) && Time_Before now (ll_nextSweep l) then l
  else ll_with (sweepTimeMap (ll_byUser l) cutoff) (sweepTimeMap (ll_byIP l) cutoff) (ll_global l)
         (Time_Add now (ll_sweepInterval l)) l.

Definition login_allow (username clientIP : string) (now : Z) (l : loginLimiter) : bool * loginLimiter :=
  let cutoff := Time_Add now (- ll_window l) in
  let l := login_sweep now cutoff l in
  let '(userEvents, byUser) := eventsForKey (ll_byUser l) username cutoff in
  let '(ipEvents, byIP) := eventsForKey (ll_byIP l) clientIP cutoff in
  let global := pruneTimes (ll_global l) cutoff in
  (negb (exceeded (ll_maxUser l) userEvents || exceeded (ll_maxIP l) ipEvents || exceeded (ll_maxGlobal l) global),
   ll_with byUser byIP global (ll_nextSweep l) l).

Definition track (maxKeys : Z) (values : gmap string (list Z)) (key : string) (cutoff now : Z)
    : gmap string (list Z) :=
  let '(tracked, values) := trackableEventsForKey maxKeys values key cutoff in
  match tracked with Some events => <[key := events ++ [now]]> values | None => values end.

Definition recordFailure (username clientIP : string) (now : Z) (l : loginLimiter) : loginLimiter :=
  let cutoff := Time_Add now (- ll_window l) in
  let l := login_sweep now cutoff l in
  ll_with (track (ll_maxKeys l) (ll_byUser l) username cutoff now)
    (track (ll_maxKeys l) (ll_byIP l) clientIP cutoff now) (pruneTimes (ll_global l) cutoff ++ [now])
    (ll_nextSweep l) l.

Definition recordSuccess (username clientIP : string) (l : loginLimiter) : loginLimiter :=
  ll_with (delete username (ll_byUser l)) (delete clientIP (ll_byIP l)) (ll_global l) (ll_nextSweep l) l.

(** * The in-flight gate *)

(** A buffered channel of capacity [max] holds a token per request in flight. *)
Definition gate_acquire (max inflight : nat) : option nat := if (inflight <? max)%nat then Some (S inflight) else None.
Definition gate_release (inflight : nat) : nat := pred inflight.

(** * What the maps remember *)

Lemma pruneTimes_twice l c c' : c <= c' -> pruneTimes (pruneTimes l c) c' = pruneTimes l c'.
Proof.
  intros Hc. induction l as [|t l IH]; cbn; [done|]. unfold Time_Before in *.
  destruct (Z.ltb_spec t c); cbn; [|done]. rewrite IH. destruct (Z.ltb_spec t c'); cbn; [done|lia].
Qed.

Lemma pruneTimes_app l c t : c <= t -> pruneTimes (l ++ [t]) c = pruneTimes l c ++ [t].
Proof.
  intros Ht. unfold Time_Before in *.
  induction l as [|u l IH]; cbn [app pruneTimes]; unfold Time_Before.
  - by rewrite (proj2 (Z.ltb_ge t c)) by lia.
  - destruct (Z.ltb_spec u c); cbn [negb]; [done|]. done.
Qed.

(** The number of events a window still counts. *)
Definition counted (l : list Z) (cutoff : Z) : Z := Z.of_nat (length (List.filter (fun t => cutoff <=? t) l)).

Lemma pruneTimes_counted l c : StronglySorted Z.le l -> Z.of_nat (length (pruneTimes l c)) = counted l c.
Proof.
  unfold counted. induction 1 as [|t l Hs IH Hall]; cbn [pruneTimes List.filter]; [done|]. unfold Time_Before.
  destruct (Z.ltb_spec t c) as [Hlt|Hge]; cbn [negb].
  - by rewrite (proj2 (Z.leb_gt c t)) by lia.
  - rewrite (proj2 (Z.leb_le c t)) by lia. cbn [length]. do 2 f_equal. symmetry. f_equal.
    clear IH Hs. induction Hall as [|u l Hu _ IH]; cbn; [done|]. rewrite (proj2 (Z.leb_le c u)) by lia. by rewrite IH.
Qed.

(** The map holds of each key's history what was pruned at a cutoff not after [c]. *)
Definition remembers (values : gmap string (list Z)) (H : string -> list Z) (c : Z) : Prop :=
  forall key, exists c0, c0 <= c /\ default [] (values !! key) = pruneTimes (H key) c0.

Lemma remembers_later values H c c' : c <= c' -> remembers values H c -> remembers values H c'.
Proof. intros Hc Hr key. destruct (Hr key) as (c0 & ? & E). exists c0. split; [lia|done]. Qed.

Lemma remembers_sweep values H c : remembers values H c -> remembers (sweepTimeMap values c) H c.
Proof.
  intros Hr key. destruct (Hr key) as (c0 & Hc & E). exists c. split; [lia|]. unfold sweepTimeMap.
  rewrite lookup_omap. rewrite <- (pruneTimes_twice (H key) c0 c Hc), <- E.
  destruct (values !! key) as [events|]; cbn; [|done]. by destruct (pruneTimes events c).
Qed.

Lemma remembers_events values H c key events values' :
  remembers values H c -> eventsForKey values key c = (events, values') ->
  events = pruneTimes (H key) c /\ remembers values' H c /\
  (forall k, is_Some (values' !! k) -> is_Some (values !! k)) /\ (is_Some (values' !! key) <-> events <> []).
Proof.
  intros Hr Ev. destruct (Hr key) as (c0 & Hc & E). unfold eventsForKey in Ev.
  destruct (values !! key) as [old|] eqn:Eo; cbn in E.
  - rewrite E, pruneTimes_twice in Ev by done. assert (forall k l, remembers values H c ->
      (forall k', k' <> k -> values' !! k' = values !! k') -> default [] (values' !! k) = l ->
      l = pruneTimes (H k) c -> remembers values' H c) as Hset.
    { intros k l Hr0 Hoth Ek El k'. destruct (decide (k' = k)) as [->|Hne]; [exists c; split; [lia|congruence]|].
      rewrite Hoth by done. apply Hr0. }
    destruct (pruneTimes (H key) c) as [|t l] eqn:Ep; injection Ev as <- <-.
    + split; [done|]. split.
      * apply (Hset key []); [done|intros; by rewrite lookup_delete_ne|by rewrite lookup_delete_eq|done].
      * split; [|rewrite lookup_delete_eq; split; [by intros [? ?]|done]].
        intros k. destruct (decide (k = key)) as [->|]; [by rewrite lookup_delete_eq; intros [? ?]|].
        by rewrite lookup_delete_ne.
    + split; [done|]. split.
      * apply (Hset key (t :: l)); [done|intros; by rewrite lookup_insert_ne|by rewrite lookup_insert_eq|done].
      * split; [|rewrite lookup_insert_eq; split; [done|by eexists]].
        intros k. destruct (decide (k = key)) as [->|]; [rewrite Eo; by eexists|]. by rewrite lookup_insert_ne.
  - injection Ev as <- <-. rewrite <- (pruneTimes_twice (H key) c0 c Hc), <- E, Eo.
    split; [done|]. split; [done|]. split; [done|]. split; [by intros [? ?]|done].
Qed.

Definition add_event (H : string -> list Z) (key : string) (t : Z) : string -> list Z :=
  fun k => if bool_decide (k = key) then H k ++ [t] else H k.

(** The clients a map can know of. *)
Definition known (values : gmap string (list Z)) (keys : gset string) : Prop :=
  forall k, is_Some (values !! k) -> k ∈ keys.

Lemma known_size values keys key :
  known values keys -> values !! key = None -> key ∈ keys -> (size values < size keys)%nat.
Proof.
  intros Hk Hn Hin. rewrite <- (size_dom (D := gset string)). apply subset_size. split.
  - intros k Hd. apply elem_of_dom in Hd. by apply Hk.
  - intros Hs. apply Hs, elem_of_dom in Hin as [? ?]. congruence.
Qed.

(** While there is room for every client, an event is always kept. *)
Lemma remembers_track values H c keys maxKeys key now :
  remembers values H c -> known values keys -> key ∈ keys -> Z.of_nat (size keys) <= maxKeys -> c <= now ->
  remembers (track maxKeys values key c now) (add_event H key now) c /\ known (track maxKeys values key c now) keys.
Proof.
  intros Hr Hk Hin Hroom Hnow. unfold track, trackableEventsForKey.
  destruct (eventsForKey values key c) as [events values'] eqn:Ev.
  destruct (remembers_events _ _ _ _ _ _ Hr Ev) as (Ee & Hr' & Hsub & Hkey).
  assert (known values' keys) as Hk' by (intros k Hs; by apply Hk, Hsub).
  assert (forall l, l = pruneTimes (H key) c ->
    remembers (<[key := l ++ [now]]> values') (add_event H key now) c /\ known (<[key := l ++ [now]]> values') keys)
    as Hins.
  { intros l El. split.
    - intros k. unfold add_event. destruct (decide (k = key)) as [->|Hne].
      + rewrite bool_decide_true by done. exists c. split; [lia|]. rewrite lookup_insert_eq. cbn.
        by rewrite pruneTimes_app, El.
      + rewrite bool_decide_false by done. rewrite lookup_insert_ne by done. apply Hr'.
    - intros k. destruct (decide (k = key)) as [->|Hne]; [done|]. rewrite lookup_insert_ne by done. apply Hk'. }
  destruct events as [|t l]; [|by apply Hins].
  destruct (values' !! key) as [?|] eqn:En; [by destruct (proj1 Hkey)|].
  pose proof (known_size values' keys key Hk' En Hin). rewrite (proj2 (Z.leb_gt _ _)), andb_false_r by lia.
  by apply (Hins []).
Qed.

(** * The limiters count exactly *)

Definition limited (max n : Z) : bool := (0 <? max) && (max <=? n).

Lemma exceeded_counted max l c : StronglySorted Z.le l -> exceeded max (pruneTimes l c) = limited max (counted l c).
Proof. intros Hs. unfold exceeded, limited. by rewrite pruneTimes_counted. Qed.

(** The times of a client in a history of events. *)
Definition times_of (history : list (string * Z)) (key : string) : list Z :=
  (List.filter (fun e => e.1 =s key) history).*2.

Lemma times_of_snoc history key t k : times_of (history ++ [(key, t)]) k = add_event (times_of history) key t k.
Proof.
  unfold times_of, add_event. rewrite List.filter_app, fmap_app. cbn. destruct (String.eqb_spec key k) as [->|Hne].
  - by rewrite bool_decide_true.
  - rewrite bool_decide_false by done. by rewrite app_nil_r.
Qed.

Lemma times_of_sorted history key : StronglySorted Z.le history.*2 -> StronglySorted Z.le (times_of history key).
Proof.
  unfold times_of. induction history as [|[k t] history IH]; cbn; [constructor|]. inversion 1 as [|? ? Hs Hall]; subst.
  destruct (k =s key); cbn; [|by apply IH]. constructor; [by apply IH|]. apply Forall_forall. intros u Hu.
  rewrite Forall_forall in Hall. apply Hall. apply list_elem_of_fmap in Hu as ([k' u'] & -> & Hin).
  apply list_elem_of_In, filter_In in Hin as [Hin _]. apply list_elem_of_fmap. exists (k', u'). split; [done|].
  by apply list_elem_of_In.
Qed.

Lemma snoc_sorted (l : list Z) t : StronglySorted Z.le l -> Forall (fun u => u <= t) l -> StronglySorted Z.le (l ++ [t]).
Proof.
  induction 1 as [|u l Hs IH Hall]; intros Hf; cbn; [repeat constructor|]. inversion Hf; subst.
  constructor; [by apply IH|]. apply Forall_app. split; [done|]. by repeat constructor.
Qed.

(** What a limiter should answer: a request passes while the window that ends with it
    holds fewer admitted requests than the limits, of its client and in all. *)
Definition admits (l : agentRequestLimiter) (history : list (string * Z)) (clientIP : string) (now : Z) : bool :=
  negb (limited (al_maxIP l) (counted (times_of history clientIP) (now - al_window l))) &&
  negb (limited (al_maxGlobal l) (counted history.*2 (now - al_window l))).

Fixpoint agent_run (l : agentRequestLimiter) (calls : list (string * Z)) : list bool :=
  match calls with
  | [] => []
  | (clientIP, now) :: calls => let '(ok, l) := agent_allow clientIP now l in ok :: agent_run l calls
  end.

Fixpoint reference_run (l : agentRequestLimiter) (history calls : list (string * Z)) : list bool :=
  match calls with
  | [] => []
  | (clientIP, now) :: calls =>
      let ok := admits l history clientIP now in
      ok :: reference_run l (if ok then history ++ [(clientIP, now)] else history) calls
  end.

Record agent_inv (keys : gset string) (history : list (string * Z)) (last : Z) (l : agentRequestLimiter) : Prop := {
  ai_byIP : remembers (al_byIP l) (times_of history) (last - al_window l);
  ai_known : known (al_byIP l) keys;
  ai_global : exists c, c <= last - al_window l /\ al_global l = pruneTimes history.*2 c;
  ai_sorted : StronglySorted Z.le history.*2;
  ai_past : Forall (fun t => t <= last) history.*2;
}.

Lemma sweep_params now c l :
  al_window (sweepExpiredLocked now c l) = al_window l /\ al_maxIP (sweepExpiredLocked now c l) = al_maxIP l /\
  al_maxGlobal (sweepExpiredLocked now c l) = al_maxGlobal l /\ al_maxKeys (sweepExpiredLocked now c l) = al_maxKeys l /\
  al_global (sweepExpiredLocked now c l) = al_global l.
Proof. unfold sweepExpiredLocked. by repeat case_match. Qed.

Lemma sweep_remembers now c keys H l :
  remembers (al_byIP l) H c -> known (al_byIP l) keys ->
  remembers (al_byIP (sweepExpiredLocked now c l)) H c /\ known (al_byIP (sweepExpiredLocked now c l)) keys.
Proof.
  intros Hr Hk. unfold sweepExpiredLocked. destruct (_ <=? _); [done|]. destruct (_ && _); [done|]. cbn.
  split; [by apply remembers_sweep|]. intros k. unfold sweepTimeMap. rewrite lookup_omap. intros [? E].
  apply Hk. destruct (al_byIP l !! k); [by eexists|done].
Qed.

Definition same_limits (l l' : agentRequestLimiter) : Prop :=
  al_window l' = al_window l /\ al_maxIP l' = al_maxIP l /\ al_maxGlobal l' = al_maxGlobal l /\
  al_maxKeys l' = al_maxKeys l.

Lemma agent_allow_step keys history last l clientIP now :
  agent_inv keys history last l -> last <= now -> 0 <= al_window l -> clientIP ∈ keys ->
  Z.of_nat (size keys) <= al_maxKeys l ->
  let '(ok, l') := agent_allow clientIP now l in
  ok = admits l history clientIP now /\ same_limits l l' /\
  agent_inv keys (if ok then history ++ [(clientIP, now)] else history) now l'.
Proof.
  intros [Hr Hk (c0 & Hc0 & Eg) Hs Hp] Hnow Hw Hin Hroom. unfold agent_allow, Time_Add.
  set (c := now + - al_window l). replace (now - al_window l) with c in * by (unfold c; lia).
  destruct (sweep_params now c l) as (P1 & P2 & P3 & P4 & P5).
  apply (remembers_later _ _ _ c) in Hr; [|unfold c; lia].
  destruct (sweep_remembers now c keys _ l Hr Hk) as [Hr1 Hk1]. set (l1 := sweepExpiredLocked now c l) in *.
  destruct (eventsForKey (al_byIP l1) clientIP c) as [ipEvents byIP] eqn:Ev.
  destruct (remembers_events _ _ _ _ _ _ Hr1 Ev) as (Ee & Hr2 & Hsub & _). cbn [al_maxIP al_maxGlobal al_maxKeys al_with].
  rewrite P2, P3, P4, P5, Eg, (pruneTimes_twice _ c0 c) by (unfold c; lia).
  rewrite Ee, !exceeded_counted by (try apply times_of_sorted; done).
  assert (known byIP keys) as Hk2 by (intros k Hks; by apply Hk1, Hsub).
  unfold admits. replace (now - al_window l) with c by (unfold c; lia).
  assert (forall b nextSweep, agent_inv keys history now (al_with byIP (pruneTimes history.*2 c) nextSweep b) \/
    al_window b <> al_window l) as Hkeep.
  { intros b nextSweep. destruct (decide (al_window b = al_window l)) as [Eb|]; [left|by right].
    split; cbn; rewrite ?Eb; replace (now - al_window l) with c by (unfold c; lia); try done.
    - exists c. split; [lia|done].
    - eapply Forall_impl; [exact Hp|]. cbn. intros; lia. }
  destruct (limited (al_maxIP l) _) eqn:E1; cbn [negb andb].
  { split; [done|]. split; [by repeat split|]. by destruct (Hkeep l1 (al_nextSweep l1)). }
  destruct (limited (al_maxGlobal l) _) eqn:E2; cbn [negb].
  { split; [done|]. split; [by repeat split|]. by destruct (Hkeep l1 (al_nextSweep l1)). }
  destruct (remembers_track byIP (times_of history) c keys (al_maxKeys l) clientIP now Hr2 Hk2 Hin Hroom
    ltac:(unfold c; lia)) as [Hr3 Hk3]. unfold track in Hr3, Hk3.
  destruct (trackableEventsForKey (al_maxKeys l) byIP clientIP c) as [tracked byIP'].
  split; [done|]. split; [by repeat split|].
  split; cbn; rewrite ?P1; replace (now - al_window l) with c by (unfold c; lia).
  - intros k. rewrite times_of_snoc. apply Hr3.
  - done.
  - exists c. split; [lia|]. rewrite fmap_app. cbn. by rewrite pruneTimes_app by (unfold c; lia).
  - rewrite fmap_app. cbn. apply snoc_sorted; [done|]. eapply Forall_impl; [exact Hp|]. cbn. intros; lia.
  - rewrite fmap_app. apply Forall_app. split; [eapply Forall_impl; [exact Hp|]; cbn; intros; lia|]. apply Forall_singleton. cbn. lia.
Qed.

Lemma same_limits_admits l l' history clientIP now :
  same_limits l l' -> admits l' history clientIP now = admits l history clientIP now.
Proof. intros (E1 & E2 & E3 & _). unfold admits. by rewrite E1, E2, E3. Qed.

Lemma reference_run_same l l' history calls :
  same_limits l l' -> reference_run l' history calls = reference_run l history calls.
Proof.
  intros Hs. revert history. induction calls as [|[ip now] calls IH]; intros history; [done|]. cbn [reference_run].
  by rewrite (same_limits_admits l l') by done; rewrite IH.
Qed.

Lemma agent_run_exact keys history last l calls :
  agent_inv keys history last l -> 0 <= al_window l -> Z.of_nat (size keys) <= al_maxKeys l ->
  StronglySorted Z.le (last :: calls.*2) -> (forall ip, ip ∈ calls.*1 -> ip ∈ keys) ->
  agent_run l calls = reference_run l history calls.
Proof.
  revert history last l. induction calls as [|[ip now] calls IH]; intros history last l Hinv Hw Hroom Hs Hin; [done|].
  cbn [agent_run reference_run fmap list_fmap fst snd] in *. inversion Hs as [|? ? Hs' Hall]; subst.
  inversion Hall as [|? ? Hle _]; subst.
  pose proof (agent_allow_step keys history last l ip now Hinv Hle Hw (Hin ip ltac:(by apply list_elem_of_here)) Hroom)
    as Hstep.
  destruct (agent_allow ip now l) as [ok l'] eqn:Ea. destruct Hstep as (-> & Hsame & Hinv'). f_equal.
  rewrite <- (reference_run_same l l') by done. destruct Hsame as (E1 & _ & _ & E4).
  eapply IH; [exact Hinv'|by rewrite E1|by rewrite E4|done|]. intros k Hk. apply Hin. by apply list_elem_of_further.
Qed.

Lemma normalized_positive opts :
  0 < ra_Window (normalizeAgentRateLimitOptions opts defaultAgentRateLimitOptions) /\
  0 < ra_MaxTrackedKeys (normalizeAgentRateLimitOptions opts defaultAgentRateLimitOptions).
Proof.
  unfold normalizeAgentRateLimitOptions, or_default. cbn. unfold Minute, Second.
  split; match goal with |- context [?a <=? 0] => destruct (Z.leb_spec a 0) end; lia.
Qed.

(** While no more clients appear than the limiter can track, and
    the clock does not go back, it admits a request exactly when the window that ends
    with it holds fewer admitted requests of its client, and fewer in all, than the
    limits allow; pruning and sweeping lose and keep nothing that matters. *)
Theorem agent_limiter_exact opts calls
    (Hclock : StronglySorted Z.le calls.*2)
    (Hclients : Z.of_nat (size (list_to_set calls.*1 : gset string)) <= al_maxKeys (newAgentRequestLimiter opts)) :
  agent_run (newAgentRequestLimiter opts) calls = reference_run (newAgentRequestLimiter opts) [] calls.
Proof.
  set (l := newAgentRequestLimiter opts) in *. set (first := match calls.*2 with [] => 0 | t :: _ => t end).
  destruct (normalized_positive opts) as [Hw _].
  apply (agent_run_exact (list_to_set calls.*1) [] first); [|apply Z.lt_le_incl, Hw|done| |intros ip Hip; by apply elem_of_list_to_set].
  - split; [intros key; exists (first - al_window l); split; [lia|done]| |exists (first - al_window l)|constructor..].
    + intros k. cbn. rewrite lookup_empty. by intros [? ?].
    + split; [lia|done].
  - unfold first. destruct calls.*2 as [|t ts]; [repeat constructor|]. constructor; [done|].
    inversion Hclock; subst. constructor; [lia|done].
Qed.

(** ** Login *)

(** What happens at the login: an attempt is checked, fails or succeeds. *)
Inductive login_event :=
| Checked (username clientIP : string) (t : Z)
| Failed (username clientIP : string) (t : Z)
| Succeeded (username clientIP : string).

Definition login_step (l : loginLimiter) (e : login_event) : loginLimiter :=
  match e with
  | Checked username clientIP t => (login_allow username clientIP t l).2
  | Failed username clientIP t => recordFailure username clientIP t l
  | Succeeded username clientIP => recordSuccess username clientIP l
  end.

Definition user_of (e : login_event) : string :=
  match e with Checked username _ _ | Failed username _ _ | Succeeded username _ => username end.

Definition ip_of (e : login_event) : string :=
  match e with Checked _ clientIP _ | Failed _ clientIP _ | Succeeded _ clientIP => clientIP end.

(** The failures of a key since the last success that clears it. *)
Definition failures_step (key : login_event -> string) (H : string -> list Z) (e : login_event) : string -> list Z :=
  match e with
  | Checked _ _ _ => H
  | Failed _ _ t => add_event H (key e) t
  | Succeeded _ _ => fun k => if bool_decide (k = key e) then [] else H k
  end.

Definition failures (key : login_event -> string) (events : list login_event) : string -> list Z :=
  fold_left (failures_step key) events (fun _ => []).

Definition failure_times (events : list login_event) : list Z :=
  omap (fun e => match e with Failed _ _ t => Some t | _ => None end) events.

Definition event_times (events : list login_event) : list Z :=
  omap (fun e => match e with Checked _ _ t | Failed _ _ t => Some t | Succeeded _ _ => None end) events.

(** The reference: the failures of the user, of the address and in all inside the
    window stay below their limits. *)
Definition login_admits (l : loginLimiter) (events : list login_event) (username clientIP : string) (now : Z) : bool :=
  let cutoff := now - ll_window l in
  negb (limited (ll_maxUser l) (counted (failures user_of events username) cutoff) ||
        limited (ll_maxIP l) (counted (failures ip_of events clientIP) cutoff) ||
        limited (ll_maxGlobal l) (counted (failure_times events) cutoff)).

(** A history of a key: in order and not after [last]. *)
Definition history_ok (last : Z) (l : list Z) : Prop := StronglySorted Z.le l /\ Forall (fun t => t <= last) l.

Lemma history_later last now l : last <= now -> history_ok last l -> history_ok now l.
Proof. intros Hn [Hs Hp]. split; [done|]. eapply Forall_impl; [exact Hp|]. cbn. intros; lia. Qed.

Lemma history_snoc last now l : last <= now -> history_ok last l -> history_ok now (l ++ [now]).
Proof.
  intros Hn Hok. destruct (history_later _ now _ Hn Hok) as [Hs Hp]. split; [by apply snoc_sorted|].
  apply Forall_app. split; [done|]. apply Forall_singleton. lia.
Qed.

(** One of the two maps, with its histories and the keys it may hold. *)
Record map_inv (key : login_event -> string) (keys : gset string) (events : list login_event) (last window : Z)
    (values : gmap string (list Z)) : Prop := {
  mi_remembers : remembers values (failures key events) (last - window);
  mi_known : known values keys;
  mi_history : forall k, history_ok last (failures key events k);
}.

Record login_inv (users ips : gset string) (events : list login_event) (last : Z) (l : loginLimiter) : Prop := {
  li_byUser : map_inv user_of users events last (ll_window l) (ll_byUser l);
  li_byIP : map_inv ip_of ips events last (ll_window l) (ll_byIP l);
  li_global : exists c, c <= last - ll_window l /\ ll_global l = pruneTimes (failure_times events) c;
  li_history : history_ok last (failure_times events);
}.

Lemma map_inv_later key keys events last now window values :
  last <= now -> map_inv key keys events last window values -> map_inv key keys events now window values.
Proof.
  intros Hn [Hr Hk Hh]. split; [eapply remembers_later; [|exact Hr]; lia|done|].
  intros k. by eapply history_later.
Qed.

Lemma sweep_known values c keys : known values keys -> known (sweepTimeMap values c) keys.
Proof.
  intros Hk k. unfold sweepTimeMap. rewrite lookup_omap. intros [? E]. apply Hk.
  destruct (values !! k); [by eexists|done].
Qed.

Lemma login_sweep_inv users ips events now l :
  login_inv users ips events now l -> login_inv users ips events now (login_sweep now (now - ll_window l) l) /\
  ll_window (login_sweep now (now - ll_window l) l) = ll_window l /\
  ll_maxUser (login_sweep now (now - ll_window l) l) = ll_maxUser l /\
  ll_maxIP (login_sweep now (now - ll_window l) l) = ll_maxIP l /\
  ll_maxGlobal (login_sweep now (now - ll_window l) l) = ll_maxGlobal l /\
  ll_maxKeys (login_sweep now (now - ll_window l) l) = ll_maxKeys l /\
  ll_global (login_sweep now (now - ll_window l) l) = ll_global l.
Proof.
  intros [[U1 U2 U3] [I1 I2 I3] Hg Hh]. unfold login_sweep. destruct (_ <=? _); [by split|].
  destruct (_ && _); [by split|]. split; [|done]. split; cbn; try done; split; try done;
    first [by apply remembers_sweep|by apply sweep_known].
Qed.

Lemma failures_snoc key events e : failures key (events ++ [e]) = failures_step key (failures key events) e.
Proof. unfold failures. by rewrite fold_left_app. Qed.

Lemma map_inv_events key keys events now window values k found values' :
  map_inv key keys events now window values -> eventsForKey values k (now - window) = (found, values') ->
  found = pruneTimes (failures key events k) (now - window) /\ map_inv key keys events now window values'.
Proof.
  intros [Hr Hk Hh] Ev. destruct (remembers_events _ _ _ _ _ _ Hr Ev) as (Ee & Hr' & Hsub & _).
  split; [done|]. split; [done| |done]. intros k' Hs. by apply Hk, Hsub.
Qed.

Definition same_login_limits (l l' : loginLimiter) : Prop :=
  ll_window l' = ll_window l /\ ll_maxUser l' = ll_maxUser l /\ ll_maxIP l' = ll_maxIP l /\
  ll_maxGlobal l' = ll_maxGlobal l /\ ll_maxKeys l' = ll_maxKeys l.

Lemma login_inv_later users ips events last now l :
  last <= now -> login_inv users ips events last l -> login_inv users ips events now l.
Proof.
  intros Hn [U I (c & Hc & Eg) Hh]. split; [by eapply map_inv_later|by eapply map_inv_later| |by eapply history_later].
  exists c. split; [lia|done].
Qed.

Lemma login_allow_step users ips events last l username clientIP now :
  login_inv users ips events last l -> last <= now ->
  let '(ok, l') := login_allow username clientIP now l in
  ok = login_admits l events username clientIP now /\ same_login_limits l l' /\ login_inv users ips events now l'.
Proof.
  intros Hinv Hnow. apply (login_inv_later _ _ _ _ now) in Hinv; [|done]. unfold login_allow, Time_Add.
  replace (now + - ll_window l) with (now - ll_window l) by lia.
  destruct (login_sweep_inv _ _ _ _ _ Hinv) as ([U I (c & Hc & Eg) Hh] & P1 & P2 & P3 & P4 & P5 & P6).
  set (l1 := login_sweep now (now - ll_window l) l) in *. rewrite P1 in *.
  destruct (eventsForKey (ll_byUser l1) username _) as [userEvents byUser] eqn:Eu.
  destruct (eventsForKey (ll_byIP l1) clientIP _) as [ipEvents byIP] eqn:Ei.
  destruct (map_inv_events _ _ _ _ _ _ _ _ _ U Eu) as [-> U']. destruct (map_inv_events _ _ _ _ _ _ _ _ _ I Ei) as [-> I'].
  rewrite P2, P3, P4, Eg, (pruneTimes_twice _ c) by lia.
  rewrite !exceeded_counted by (first [apply (mi_history _ _ _ _ _ _ U)|apply (mi_history _ _ _ _ _ _ I)|apply Hh]).
  split; [done|]. split; [by repeat split|]. split; cbn; rewrite ?P1; try done.
  exists (now - ll_window l). split; [lia|done].
Qed.

Lemma map_inv_track key keys events now window values maxKeys e :
  map_inv key keys events now window values -> 0 <= window -> key e ∈ keys -> Z.of_nat (size keys) <= maxKeys ->
  (forall u i t, e <> Checked u i t) -> (forall u i, e <> Succeeded u i) -> event_times [e] = [now] ->
  map_inv key keys (events ++ [e]) now window (track maxKeys values (key e) (now - window) now).
Proof.
  intros [Hr Hk Hh] Hw Hin Hroom Hc Hs He. destruct e as [u i t|u i t|u i]; [by edestruct Hc| |by edestruct Hs].
  cbn in He. injection He as ->.
  destruct (remembers_track values (failures key events) (now - window) keys maxKeys (key (Failed u i now)) now Hr Hk Hin
    Hroom ltac:(lia)) as [Hr' Hk'].
  split; [by rewrite failures_snoc|done|]. intros k. rewrite failures_snoc. cbn. unfold add_event.
  case_bool_decide; [|done]. eapply (history_snoc now); [lia|done].
Qed.

Lemma map_inv_clear key keys events now window values u i :
  map_inv key keys events now window values ->
  map_inv key keys (events ++ [Succeeded u i]) now window (delete (key (Succeeded u i)) values).
Proof.
  intros [Hr Hk Hh]. split.
  - intros k. rewrite failures_snoc. cbn. destruct (decide (k = key (Succeeded u i))) as [->|Hne].
    + rewrite bool_decide_true, lookup_delete_eq by done. exists (now - window). split; [lia|done].
    + rewrite bool_decide_false, lookup_delete_ne by done. apply Hr.
  - intros k. destruct (decide (k = key (Succeeded u i))) as [->|Hne];
      [rewrite lookup_delete_eq; by intros [? ?]|rewrite lookup_delete_ne by done; apply Hk].
  - intros k. rewrite failures_snoc. cbn. case_bool_decide; [split; constructor|done].
Qed.

Lemma login_step_inv users ips events last l e :
  login_inv users ips events last l -> 0 <= ll_window l -> user_of e ∈ users -> ip_of e ∈ ips ->
  Z.of_nat (size users) <= ll_maxKeys l -> Z.of_nat (size ips) <= ll_maxKeys l ->
  Forall (fun t => last <= t) (event_times [e]) ->
  same_login_limits l (login_step l e) /\
  login_inv users ips (events ++ [e]) (default last (head (event_times [e]))) (login_step l e).
Proof.
  intros Hinv Hw Hu Hi Hru Hri Ht. destruct e as [u i t|u i t|u i]; cbn [event_times omap list_omap default head] in *.
  - apply Forall_inv in Ht. cbn [login_step].
    pose proof (login_allow_step users ips events last l u i t Hinv Ht) as Hs.
    destruct (login_allow u i t l) as [ok l']. destruct Hs as (_ & Hsame & [[U1 U2 U3] [I1 I2 I3] Hg Hh]).
    split; [done|]. assert (forall key, failures key (events ++ [Checked u i t]) = failures key events) as Ef
      by (intros key; by rewrite failures_snoc).
    assert (failure_times (events ++ [Checked u i t]) = failure_times events) as Et
      by (unfold failure_times; rewrite omap_app; cbn; by rewrite app_nil_r).
    split; [split; rewrite ?Ef; done|split; rewrite ?Ef; done|by rewrite Et|by rewrite Et].
  - apply Forall_inv in Ht. apply (login_inv_later _ _ _ _ t) in Hinv; [|done]. cbn [login_step].
    unfold recordFailure, Time_Add. replace (t + - ll_window l) with (t - ll_window l) by lia.
    destruct (login_sweep_inv _ _ _ _ _ Hinv) as ([U I (c & Hc & Eg) Hh] & P1 & P2 & P3 & P4 & P5 & P6).
    set (l1 := login_sweep t (t - ll_window l) l) in *. split; [by repeat split|]. cbn [default from_option]. rewrite P1 in *.
    split; cbn; rewrite ?P1, ?P5.
    + by apply (map_inv_track user_of users events t (ll_window l) _ _ (Failed u i t)).
    + by apply (map_inv_track ip_of ips events t (ll_window l) _ _ (Failed u i t)).
    + exists (t - ll_window l). split; [lia|]. unfold failure_times. rewrite omap_app. cbn.
      rewrite Eg, (pruneTimes_twice _ c) by lia. by rewrite pruneTimes_app by lia.
    + unfold failure_times. rewrite omap_app. cbn. eapply (history_snoc t); [lia|done].
  - cbn [login_step]. destruct Hinv as [U I Hg Hh]. split; [by repeat split|].
    assert (failure_times (events ++ [Succeeded u i]) = failure_times events) as Et
      by (unfold failure_times; rewrite omap_app; cbn; by rewrite app_nil_r).
    split; [by apply (map_inv_clear user_of)|by apply (map_inv_clear ip_of)|by rewrite Et|by rewrite Et].
Qed.

Lemma login_run_inv users ips before events last l :
  login_inv users ips before last l -> 0 <= ll_window l ->
  (forall e, e ∈ events -> user_of e ∈ users /\ ip_of e ∈ ips) ->
  Z.of_nat (size users) <= ll_maxKeys l -> Z.of_nat (size ips) <= ll_maxKeys l ->
  StronglySorted Z.le (last :: event_times events) ->
  exists last', same_login_limits l (fold_left login_step events l) /\
    login_inv users ips (before ++ events) last' (fold_left login_step events l) /\
    (forall t, last <= t -> Forall (fun u => u <= t) (event_times events) -> last' <= t).
Proof.
  revert before last l. induction events as [|e events IH]; intros before last l Hinv Hw Hin Hru Hri Hs.
  { exists last. rewrite app_nil_r. split; [by repeat split|]. split; [done|]. intros; lia. }
  destruct (Hin e) as [Hu Hi]; [apply list_elem_of_here|].
  assert (event_times (e :: events) = event_times [e] ++ event_times events) as Et
    by (unfold event_times; cbn; by repeat case_match).
  rewrite Et in Hs. apply StronglySorted_inv in Hs as [Hs Hall]. apply Forall_app in Hall as [Hall1 Hall2].
  destruct (login_step_inv users ips before last l e Hinv Hw Hu Hi Hru Hri Hall1) as [Hsame Hinv'].
  destruct Hsame as (E1 & E2 & E3 & E4 & E5). set (mid := default last (head (event_times [e]))) in *.
  destruct (IH (before ++ [e]) mid (login_step l e)) as (last' & Hsame' & Hinv'' & Hlast);
    [done|by rewrite E1|intros; apply Hin; by apply list_elem_of_further|by rewrite E5|by rewrite E5| |].
  { destruct e as [u i t|u i t|u i]; cbn in mid, Hs |- *; try done. constructor; done. }
  exists last'. rewrite <- app_assoc in Hinv''. cbn [fold_left]. split.
  { destruct Hsame' as (F1 & F2 & F3 & F4 & F5). repeat split; congruence. }
  split; [done|]. intros t Ht Hf. rewrite Et in Hf. apply Forall_app in Hf as [Hf1 Hf2]. apply Hlast; [|done].
  unfold mid. destruct e as [u i t0|u i t0|u i]; cbn in *; [by inversion Hf1|by inversion Hf1|done].
Qed.

(** After any history of attempts, while no more users and
    addresses appear than can be tracked, a login is let through exactly when the
    failures of its user and of its address since their last success, and all failures,
    inside the window, are below the limits. *)
Theorem login_limiter_exact opts events username clientIP now
    (Hclock : StronglySorted Z.le (event_times events ++ [now]))
    (Husers : Z.of_nat (size (list_to_set (user_of <$> events) : gset string)) <= ll_maxKeys (newLoginLimiter opts))
    (Hips : Z.of_nat (size (list_to_set (ip_of <$> events) : gset string)) <= ll_maxKeys (newLoginLimiter opts)) :
  (login_allow username clientIP now (fold_left login_step events (newLoginLimiter opts))).1 =
  login_admits (newLoginLimiter opts) events username clientIP now.
Proof.
  set (l := newLoginLimiter opts) in *. assert (0 <= ll_window l) as Hw.
  { unfold l. cbn. unfold or_default. destruct (Z.leb_spec (rl_Window opts) 0); unfold Minute, Second; lia. }
  set (first := match event_times events with [] => now | t :: _ => t end).
  assert (StronglySorted Z.le (event_times events)) as Hsorted.
  { clear -Hclock. induction (event_times events) as [|t ts IH]; [constructor|].
    apply StronglySorted_inv in Hclock as [H1 H2]. apply Forall_app in H2 as [H2 _]. constructor; auto. }
  assert (Forall (fun u => u <= now) (event_times events)) as Hpast.
  { clear -Hclock. induction (event_times events) as [|t ts IH]; [constructor|].
    apply StronglySorted_inv in Hclock as [H1 H2]. apply Forall_app in H2 as [_ H2]. inversion H2. constructor; auto. }
  destruct (login_run_inv (list_to_set (user_of <$> events)) (list_to_set (ip_of <$> events)) [] events first l)
    as (last' & Hsame & Hinv & Hlast); [|done| |done|done| |].
  - assert (forall key keys, map_inv key keys [] first (ll_window l) ∅) as Hm.
    { intros key keys. split; [intros k; exists (first - ll_window l); split; [lia|done]|
        intros k; rewrite lookup_empty; by intros [? ?]|intros k; split; constructor]. }
    split; [apply Hm|apply Hm|exists (first - ll_window l); split; [lia|done]|split; constructor].
  - intros e He. split; apply elem_of_list_to_set, list_elem_of_fmap; by exists e.
  - unfold first. destruct (event_times events); [repeat constructor|]. constructor; [done|].
    apply StronglySorted_inv in Hsorted as [_ Hf]. constructor; [lia|done].
  - assert (last' <= now) as Hln.
    { apply Hlast; [|done]. unfold first. destruct (event_times events); [lia|]. by inversion Hpast. }
    pose proof (login_allow_step _ _ _ _ _ username clientIP now Hinv Hln) as Hs.
    destruct (login_allow _ _ _ _) as [ok l']. destruct Hs as (-> & _). cbn [fst app].
    destruct Hsame as (E1 & E2 & E3 & E4 & _). unfold login_admits. by rewrite E1, E2, E3, E4.
Qed.

(** A concrete list of instants in order. *)
Ltac in_order := cbn; repeat first [apply SSorted_cons|apply SSorted_nil|apply Forall_cons_2|apply Forall_nil_2|lia].

(** Three failures in a row lock a user out under a limit of three; a success of another
    user does not help, and the window passes. *)
Definition fixture_login : LoginRateLimitOptions := {|
  rl_MaxFailuresByUsername := 3; rl_MaxFailuresByIP := 30; rl_MaxFailuresGlobal := 300; rl_MaxTrackedKeys := 100;
  rl_Window := 10; rl_SweepInterval := 5 |}.

Definition fixture_attempts : list login_event :=
  [Failed "ann" "a" 1; Failed "ann" "b" 2; Succeeded "bob" "a"; Failed "ann" "a" 4].

Lemma login_limiter_exact_witness :
  (login_allow "ann" "c" 9 (fold_left login_step fixture_attempts (newLoginLimiter fixture_login))).1 = false /\
  (login_allow "ann" "c" 12 (fold_left login_step fixture_attempts (newLoginLimiter fixture_login))).1 = true.
Proof.
  split; rewrite login_limiter_exact; try (vm_compute; reflexivity); try (vm_compute; discriminate); in_order.
Defined.

Definition fixture_limits : AgentRateLimitOptions := {|
  ra_MaxRequestsByIP := 2; ra_MaxRequestsGlobal := 3; ra_MaxTrackedKeys := 100; ra_Window := 10;
  ra_SweepInterval := 5; ra_MaxSyncInflight := 1 |}.

Lemma agent_limiter_exact_witness :
  agent_run (newAgentRequestLimiter fixture_limits) [("a", 1); ("a", 2); ("a", 3); ("b", 4); ("c", 5); ("a", 12)] =
  [true; true; false; true; false; true].
Proof.
  rewrite agent_limiter_exact; [vm_compute; reflexivity| |vm_compute; discriminate].
  in_order.
Defined.
