(* ===== verification/SyncHandler.v ===== *)
(** The sync endpoint: the client of the agent (src/agent/enroll/client.go) on one side,
    the handler of the center (src/internal/center/http/handlers/agent.go) on the other:
    limits, token, validation of the request, translation to a batch, the service, and
    the answers for its errors. *)
From stdpp Require Import base list sorting strings gmap.
From Stdlib Require Import ZArith Lia.
From S2P Require Import Prelude GoRuntime Json AgentApi IncidentTypes Settings Wire AgentPlan ObservationStore.
From S2P Require Import SyncQueue SyncWire SyncProtocol SyncStore AgentRuntime RateLimit.

Local Open Scope Z_scope.
#[local] Set Warnings "-clear-no-such-hyp".

(** * Requests and answers *)

Record http_request := {
  hq_Method : string;
  hq_clientIP : string;
  hq_Authorization : string;
  hq_SyncProtocol : list string;
  hq_CollectionRevision : list string;
  (** The decoded body, nothing when it is no JSON of a request or too long. *)
  hq_Body : option SyncRequest;
}.

Inductive http_answer :=
| HTTPOk (response : SyncResponse)
| HTTPError (status : Z) (code : string) (retryAfter : option string).

(** * Validation *)

Definition agentIdentityMaxBytes : Z := 256.
Definition agentSecretMaxBytes : Z := 512.
Definition agentErrorSummaryMaxBytes : Z := 2048.
Definition agentCommandOutputMaxBytes : Z := 131072.
Definition agentRawJSONMaxBytes : Z := 131072.

Definition bytes_len (s : string) : Z := Z.of_nat (String.length s).

Definition optionalMax (value : string) (maxBytes : Z) : bool := bytes_len value <=? maxBytes.

Definition requiredMax (value : string) (maxBytes : Z) : bool := (value <>s "") && optionalMax value maxBytes.

Definition exceedsAgentBatchLimit (lengths : list Z) : bool := existsb (fun n => MaxBatchItems <? n) lengths.

Definition isValidAgentCarrier (observedAt : Z) (agentVersion fingerprint syncBatchID : string) : bool :=
  negb (Time_IsZero observedAt) && requiredMax agentVersion agentIdentityMaxBytes &&
  requiredMax fingerprint agentIdentityMaxBytes && requiredMax syncBatchID agentIdentityMaxBytes.

Definition isValidIPQualityReportStatus (value : string) : bool := member value ["success"; "partial"; "failure"].
Definition isValidIPQualitySourceStatus (value : string) : bool :=
  member value ["success"; "failure"; "skipped"; "not_configured"].
Definition isValidIPQualitySourceType (value : string) : bool := member value ["default"; "optional"; "custom"].
Definition isValidIPQualityServiceStatus (value : string) : bool :=
  member value ["unlocked"; "blocked"; "partial"; "unknown"].

Definition len {A} (l : list A) : Z := Z.of_nat (length l).

(** The bytes before and after a known prefix; the characters a token may not have. *)
Fixpoint token_clean (s : string) : bool :=
  match s with
  | EmptyString => true
  | String a s =>
      let n := Ascii.nat_of_ascii a in
      negb ((n <=? 32)%nat || (n =? 34)%nat || (n =? 39)%nat || (n =? 92)%nat) && token_clean s
  end.

Definition syncTokenFromAuthorizationHeader (authorization : string) : option string :=
  match after_prefix "Bearer " authorization with
  | None => None
  | Some token =>
      if token =s "" then None
      else if agentSecretMaxBytes <? bytes_len token then None
      else if token_clean token then Some token else None
  end.

(** What the handler takes from elsewhere: the length of a raw JSON message, the
    validation of the product part of a report, and the parts of a report that are only
    carried on (sanitized JSON, results of providers and services). *)
Class HandlerEnv (body : Type) := {
  raw_len : option json -> Z;
  ValidateIPQualityProduct : IPQualityReportPayload -> bool;
  report_body : IPQualityReportPayload -> body;
}.

Section Handler.
Context {body : Type} `{Env : @SyncEnv body} `{HEnv : HandlerEnv body} `{Digest : SyncDigest}.

Definition valid_container (c : ContainerInfo) : bool :=
  optionalMax (ci_ID c) agentIdentityMaxBytes && optionalMax (ci_Name c) agentIdentityMaxBytes &&
  optionalMax (ci_Image c) agentIdentityMaxBytes && optionalMax (ci_Status c) agentIdentityMaxBytes.

Definition valid_heartbeat (identity : string) (h : MonitoringInstanceHeartbeat) : bool :=
  (hbp_SyncBatchID h =s identity) &&
  isValidAgentCarrier (hbp_ObservedAt h) (hbp_AgentVersion h) (hbp_Fingerprint h) (hbp_SyncBatchID h).

Definition valid_sample (identity : string) (s : HostSamplePayload) : bool :=
  (hsp_SyncBatchID s =s identity) &&
  isValidAgentCarrier (hsp_ObservedAt s) (hsp_AgentVersion s) (hsp_Fingerprint s) (hsp_SyncBatchID s) &&
  (len (hsp_Containers s) <=? MaxBatchItems) && forallb valid_container (hsp_Containers s).

Definition valid_observation (identity : string) (o : ProbeObservationPayload) : bool :=
  (pop_SyncBatchID o =s identity) && requiredMax (pop_TargetID o) agentIdentityMaxBytes &&
  requiredMax (pop_ProbeItemID o) agentIdentityMaxBytes && requiredMax (pop_ProbeKind o) agentIdentityMaxBytes &&
  isValidAgentCarrier (pop_ObservedAt o) (pop_AgentVersion o) (pop_Fingerprint o) (pop_SyncBatchID o) &&
  requiredMax (pop_ResultKind o) agentIdentityMaxBytes && optionalMax (pop_ErrorCode o) agentIdentityMaxBytes &&
  optionalMax (pop_ErrorSummary o) agentErrorSummaryMaxBytes.

Definition valid_provider (p : IPQualityProviderResultPayload) : bool :=
  requiredMax (pr_Provider p) agentIdentityMaxBytes &&
  forallb (fun v => optionalMax v agentIdentityMaxBytes)
    [pr_Status p; pr_SourceType p; pr_UsageType p; pr_CompanyType p; pr_RiskLevel p; pr_RiskScore p;
     pr_RegionCode p; pr_RegionName p; pr_ErrorCode p] &&
  optionalMax (pr_ErrorSummary p) agentErrorSummaryMaxBytes && (raw_len (pr_ExtraJSON p) <=? agentRawJSONMaxBytes) &&
  ((pr_Status p =s "") || isValidIPQualitySourceStatus (pr_Status p)) &&
  ((pr_SourceType p =s "") || isValidIPQualitySourceType (pr_SourceType p)).

Definition valid_unlock (u : IPQualityServiceUnlockPayload) : bool :=
  requiredMax (su_Service u) agentIdentityMaxBytes && requiredMax (su_Status u) agentIdentityMaxBytes &&
  forallb (fun v => optionalMax v agentIdentityMaxBytes)
    [su_Source u; su_ProbeStatus u; su_Region u; su_UnlockType u; su_ErrorCode u] &&
  optionalMax (su_ErrorSummary u) agentErrorSummaryMaxBytes && (raw_len (su_ExtraJSON u) <=? agentRawJSONMaxBytes) &&
  isValidIPQualityServiceStatus (su_Status u) &&
  ((su_ProbeStatus u =s "") || isValidIPQualitySourceStatus (su_ProbeStatus u)).

Definition valid_report (identity : string) (q : IPQualityReportPayload) : bool :=
  (iq_SyncBatchID q =s identity) &&
  isValidAgentCarrier (iq_ObservedAt q) (iq_AgentVersion q) (iq_Fingerprint q) (iq_SyncBatchID q) &&
  requiredMax (iq_IPAddress q) agentIdentityMaxBytes && negb (iq_IPVersion q =? 0) &&
  requiredMax (iq_Status q) agentIdentityMaxBytes && optionalMax (iq_ASN q) agentIdentityMaxBytes &&
  optionalMax (iq_Organization q) agentErrorSummaryMaxBytes &&
  forallb (fun v => optionalMax v agentIdentityMaxBytes)
    [iq_UseRegionCode q; iq_UseRegionName q; iq_RegisteredRegionCode q; iq_RegisteredRegionName q; iq_RiskLevel q;
     iq_ErrorCode q] &&
  optionalMax (iq_ErrorSummary q) agentErrorSummaryMaxBytes && (raw_len (iq_RawJSON q) <=? agentRawJSONMaxBytes) &&
  (raw_len (iq_DiagnosticsJSON q) <=? agentRawJSONMaxBytes) && (len (iq_ProviderResults q) <=? MaxBatchItems) &&
  (len (iq_ServiceUnlocks q) <=? MaxBatchItems) && isValidIPQualityReportStatus (iq_Status q) &&
  forallb valid_provider (iq_ProviderResults q) && forallb valid_unlock (iq_ServiceUnlocks q) &&
  ValidateIPQualityProduct q.

Definition valid_result (r : CommandResult) : bool :=
  requiredMax (cr_ActionID r) agentIdentityMaxBytes && requiredMax (cr_CommandID r) agentIdentityMaxBytes &&
  optionalMax (cr_Stdout r) agentCommandOutputMaxBytes && optionalMax (cr_Stderr r) agentCommandOutputMaxBytes.

Definition fact_total (r : SyncRequest) : Z :=
  len (sr_Heartbeats r) + len (sr_HostSamples r) + len (sr_ProbeObservations r) + len (sr_IPQualityReports r) +
  len (sr_CommandResults r).

Definition valid_bounds (r : SyncRequest) : bool :=
  (sr_ProtocolRevision r =? SyncProtocolRevision) && ValidSyncProducerID sync_uuid_Parse (sr_ProducerID r) &&
  (0 <=? sr_AllocatedThrough r) && (0 <=? sr_RetiredThrough r) && (sr_RetiredThrough r <=? sr_AllocatedThrough r) &&
  (0 <=? sr_BatchSequence r) &&
  (if 0 <? fact_total r
   then negb (sr_BatchSequence r =? 0) && (sr_BatchSequence r <=? sr_AllocatedThrough r)
   else sr_BatchSequence r =? 0).

Definition isValidSyncRequest (r : SyncRequest) : bool :=
  let identity := identity_of (sr_ProducerID r) (sr_BatchSequence r) in
  valid_bounds r && requiredMax (sr_SessionID r) agentIdentityMaxBytes &&
  match sr_LiveSignal r with
  | Some signal => (0 <? ls_Sequence signal) && requiredMax (ls_Fingerprint signal) agentIdentityMaxBytes
  | None => true
  end &&
  requiredMax (sr_MonitoringInstanceID r) agentIdentityMaxBytes && requiredMax (sr_SyncToken r) agentSecretMaxBytes &&
  negb (exceedsAgentBatchLimit [len (sr_Heartbeats r); len (sr_HostSamples r); len (sr_ProbeObservations r);
                                len (sr_IPQualityReports r); len (sr_CommandResults r)]) &&
  negb ((len (sr_Heartbeats r) =? 0) && (0 <? fact_total r)) &&
  forallb (valid_heartbeat identity) (sr_Heartbeats r) && forallb (valid_sample identity) (sr_HostSamples r) &&
  forallb (valid_observation identity) (sr_ProbeObservations r) &&
  forallb (valid_report identity) (sr_IPQualityReports r) && forallb valid_result (sr_CommandResults r).

(** * Translation *)

Definition normalizedCPURatesValid (valid : option bool) (usage iowait steal : float64) : option bool :=
  if CPURatesUsable valid usage iowait steal then valid else Some false.

Definition host_sample_write (instance : string) (s : HostSamplePayload) : HostSample := {|
  hs_MonitoringInstanceID := instance; hs_ObservedAt := hsp_ObservedAt s; hs_ReceivedAt := 0;
  hs_AgentVersion := hsp_AgentVersion s; hs_Fingerprint := hsp_Fingerprint s; hs_CPUUsagePct := hsp_CPUUsagePct s;
  hs_CPURatesValid := normalizedCPURatesValid (hsp_CPURatesValid s) (hsp_CPUUsagePct s) (hsp_CPUIOWaitPct s)
                        (hsp_CPUStealPct s);
  hs_Load1 := hsp_Load1 s; hs_Load5 := hsp_Load5 s; hs_Load15 := hsp_Load15 s; hs_MemUsedPct := hsp_MemUsedPct s;
  hs_MemAvailableBytes := hsp_MemAvailableBytes s; hs_MemTotalBytes := hsp_MemTotalBytes s;
  hs_SwapUsedPct := hsp_SwapUsedPct s; hs_DiskUsedPct := hsp_DiskUsedPct s; hs_DiskTotalBytes := hsp_DiskTotalBytes s;
  hs_InodeUsedPct := hsp_InodeUsedPct s; hs_NetInBytesPerSec := hsp_NetInBytesPerSec s;
  hs_NetOutBytesPerSec := hsp_NetOutBytesPerSec s; hs_NetworkRatesValid := hsp_NetworkRatesValid s;
  hs_CPUIOWaitPct := hsp_CPUIOWaitPct s; hs_CPUStealPct := hsp_CPUStealPct s;
  hs_DiskReadBytesPerSec := hsp_DiskReadBytesPerSec s; hs_DiskWriteBytesPerSec := hsp_DiskWriteBytesPerSec s;
  hs_DiskBusyPct := hsp_DiskBusyPct s; hs_UptimeSeconds := hsp_UptimeSeconds s;
  hs_MaintenanceContext := hsp_MaintenanceContext s; hs_IsBackfilled := hsp_IsBackfilled s;
  hs_SyncBatchID := hsp_SyncBatchID s; hs_Containers := hsp_Containers s |}.

Definition observation_write (instance : string) (o : ProbeObservationPayload) : ProbeObservation := {|
  po_MonitoringInstanceID := instance; po_TargetID := pop_TargetID o; po_ProbeItemID := pop_ProbeItemID o;
  po_ProbeKind := pop_ProbeKind o; po_ObservedAt := pop_ObservedAt o; po_ReceivedAt := 0;
  po_AgentVersion := pop_AgentVersion o; po_Fingerprint := pop_Fingerprint o; po_ResultKind := pop_ResultKind o;
  po_LatencyMS := pop_LatencyMS o; po_HTTPStatus := pop_HTTPStatus o; po_TLSExpiryDays := pop_TLSExpiryDays o;
  po_ErrorCode := pop_ErrorCode o; po_ErrorSummary := pop_ErrorSummary o;
  po_MaintenanceContext := pop_MaintenanceContext o; po_IsBackfilled := pop_IsBackfilled o;
  po_SyncBatchID := pop_SyncBatchID o |}.

Definition report_write (instance : string) (q : IPQualityReportPayload) : ReportWrite body := {|
  rw_MonitoringInstanceID := instance; rw_ObservedAt := iq_ObservedAt q; rw_ReceivedAt := 0;
  rw_AgentVersion := iq_AgentVersion q; rw_Fingerprint := iq_Fingerprint q; rw_SyncBatchID := iq_SyncBatchID q;
  rw_IPAddress := iq_IPAddress q; rw_IPVersion := iq_IPVersion q; rw_Status := iq_Status q;
  rw_Body := report_body q |}.

Definition syncBatchFromRequest (r : SyncRequest) (digest : string) (collectionRevision : Z) : Batch body := {|
  ba_ProtocolRevision := sr_ProtocolRevision r; ba_ProducerID := sr_ProducerID r;
  ba_BatchSequence := sr_BatchSequence r; ba_AllocatedThrough := sr_AllocatedThrough r;
  ba_RetiredThrough := sr_RetiredThrough r; ba_PayloadDigest := digest; ba_SessionID := sr_SessionID r;
  ba_LiveSignal := sr_LiveSignal r; ba_IPQualityCollectionRevision := collectionRevision;
  ba_MonitoringInstanceID := sr_MonitoringInstanceID r; ba_SyncToken := sr_SyncToken r;
  ba_Heartbeats := sr_Heartbeats r;
  ba_HostSamples := host_sample_write (sr_MonitoringInstanceID r) <$> sr_HostSamples r;
  ba_ProbeObservations := observation_write (sr_MonitoringInstanceID r) <$> sr_ProbeObservations r;
  ba_IPQualityReports := report_write (sr_MonitoringInstanceID r) <$> sr_IPQualityReports r;
  ba_CommandResults := sr_CommandResults r |}.

(** A plan without a product revision gets the current one; everything else is copied. *)
Definition ipQualityPlanToAPI (plan : IPQualityPlan) : IPQualityPlan := {|
  ip_Enabled := ip_Enabled plan; ip_FrequencySeconds := ip_FrequencySeconds plan;
  ip_TimeoutSeconds := ip_TimeoutSeconds plan; ip_Services := ip_Services plan;
  ip_ProductRevision := if ip_ProductRevision plan =? 0 then IPQualityProductRevision else ip_ProductRevision plan;
  ip_MailEnabled := ip_MailEnabled plan; ip_CollectRequestID := ip_CollectRequestID plan;
  ip_CollectionRevision := ip_CollectionRevision plan; ip_CollectIPVersions := ip_CollectIPVersions plan |}.

Definition syncPlanToAPI (plan : SyncPlan) : SyncPlan := {|
  sp_HostSampleFrequencyTier := sp_HostSampleFrequencyTier plan;
  sp_HostSampleMaintenanceContext := sp_HostSampleMaintenanceContext plan;
  sp_ProbeAssignments := sp_ProbeAssignments plan; sp_IPQualityPlan := ipQualityPlanToAPI <$> sp_IPQualityPlan plan;
  sp_PendingAction := sp_PendingAction plan |}.

Definition response_of (result : Result) : SyncResponse := {|
  rsp_SessionID := re_SessionID result; rsp_ProducerID := re_ProducerID result;
  rsp_BatchSequence := re_BatchSequence result; rsp_BatchDigest := re_BatchDigest result;
  rsp_Disposition := re_Disposition result; rsp_RetiredThrough := re_RetiredThrough result;
  rsp_StopCollection := re_StopCollection result; rsp_AcceptedAt := re_AcceptedAt result; rsp_Status := "accepted";
  rsp_Plan := if re_Disposition result =s ResultDispositionDeferred then None
              else Some (syncPlanToAPI (re_Plan result)) |}.

(** * Errors *)

(** The first case that matches; the default also reports a failure of the receiver. *)
Definition error_cases : list (string * (Z * string)) :=
  [(SyncProtocolRequiredName, (426, ErrorCodeSyncProtocolRequired));
   (SyncProducerMismatchName, (409, ErrorCodeSyncProducerMismatch));
   (SyncBatchRetiredName, (409, ErrorCodeSyncBatchRetired));
   (SyncBatchIdentityConflictName, (409, ErrorCodeSyncBatchIdentityConflict));
   (InvalidReplayStateName, (400, ErrorCodeInvalidRequest));
   (HeartbeatRequiredName, (400, ErrorCodeInvalidRequest));
   (InvalidSyncTokenName, (401, ErrorCodeInvalidSyncToken));
   (BindingNotAcceptedName, (409, ErrorCodeBindingNotAccepted));
   ("monitoring instance not found", (404, ErrorCodeMonitoringInstanceNotFound));
   (InvalidProbeObservationName, (400, ErrorCodeInvalidRequest))].

Definition sync_error_answer (err : error) : http_answer * option string :=
  match List.find (fun c => errors_Is c.1 err) error_cases with
  | Some (_, (status, code)) => (HTTPError status code None, None)
  | None => (HTTPError 500 ErrorCodeInternalError None, Some "sync_internal_error")
  end.

(** * The handler *)

Context {W : Type}.

(** What the handler does with a decoded request: the answer, a failure of the receiver
    to report, and the world. *)
Definition handle_request (deps : service_deps (body := body) (W := W)) (syncToken : string)
    (collectionRevisions : list string) (req : SyncRequest) (w : W) : http_answer * option string * W :=
  let req := {| sr_ProtocolRevision := sr_ProtocolRevision req; sr_ProducerID := sr_ProducerID req;
    sr_BatchSequence := sr_BatchSequence req; sr_AllocatedThrough := sr_AllocatedThrough req;
    sr_RetiredThrough := sr_RetiredThrough req; sr_SessionID := sr_SessionID req; sr_LiveSignal := sr_LiveSignal req;
    sr_MonitoringInstanceID := sr_MonitoringInstanceID req; sr_SyncToken := syncToken;
    sr_Heartbeats := sr_Heartbeats req; sr_HostSamples := sr_HostSamples req;
    sr_ProbeObservations := sr_ProbeObservations req; sr_IPQualityReports := sr_IPQualityReports req;
    sr_CommandResults := sr_CommandResults req |} in
  if negb (sr_ProtocolRevision req =? SyncProtocolRevision)
  then (HTTPError 426 ErrorCodeSyncProtocolRequired None, None, w)
  else if negb (isValidSyncRequest req) then (HTTPError 400 ErrorCodeInvalidRequest None, None, w)
  else match CanonicalSyncBatchDigest req with
       | Err _ => (HTTPError 400 ErrorCodeInvalidRequest None, None, w)
       | Ok digest =>
           let revision := match sr_LiveSignal req, collectionRevisions with
                           | Some _, [v] => if v =s "5" then IPQualitySelectiveCollectionRevision else 0
                           | _, _ => 0
                           end in
           let batch := syncBatchFromRequest req digest revision in
           match ValidateBatchProtocol sync_uuid_Parse batch with
           | Err err => (sync_error_answer err, w)
           | Ok _ =>
               match SyncBatch sync_uuid_Parse deps batch w with
               | (Err err, w) => (sync_error_answer err, w)
               | (Ok result, w) => (HTTPOk (response_of result), None, w)
               end
           end
       end.

(** The limiter and the number of requests in flight. *)
Record endpoint := { ep_limiter : agentRequestLimiter; ep_inflight : nat; ep_max : nat }.

Definition ep_with_limiter (l : agentRequestLimiter) (e : endpoint) : endpoint :=
  {| ep_limiter := l; ep_inflight := ep_inflight e; ep_max := ep_max e |}.

(** [AgentSyncWithOptions]; a request in flight has left the gate when it is answered. *)
Definition AgentSync (deps : service_deps (body := body) (W := W)) (now : Z) (r : http_request) (e : endpoint) (w : W)
    : http_answer * option string * endpoint * W :=
  if hq_Method r <>s "POST" then (HTTPError 405 ErrorCodeMethodNotAllowed None, None, e, w)
  else
    let '(allowed, limiter) := agent_allow (hq_clientIP r) now (ep_limiter e) in
    let e := ep_with_limiter limiter e in
    if negb allowed then (HTTPError 429 ErrorCodeInvalidRequest (Some "5"), Some "sync_rate_limited", e, w)
    else match syncTokenFromAuthorizationHeader (hq_Authorization r) with
         | None => (HTTPError 401 ErrorCodeInvalidSyncToken None, None, e, w)
         | Some syncToken =>
             match gate_acquire (ep_max e) (ep_inflight e) with
             | None => (HTTPError 503 ErrorCodeInvalidRequest (Some "5"), Some "sync_capacity_exhausted", e, w)
             | Some _ =>
                 match hq_SyncProtocol r with
                 | [v] =>
                     if v =s "2" then
                       match hq_Body r with
                       | None => (HTTPError 400 ErrorCodeInvalidJSON None, None, e, w)
                       | Some req =>
                           let '(answer, failure, w) := handle_request deps syncToken (hq_CollectionRevision r) req w in
                           (answer, failure, e, w)
                       end
                     else (HTTPError 426 ErrorCodeSyncProtocolRequired None, None, e, w)
                 | _ => (HTTPError 426 ErrorCodeSyncProtocolRequired None, None, e, w)
                 end
             end
         end.

(** * The client *)

(** [parseRetryAfter]; [http_date] is what [http.ParseTime] makes of the header. *)
Definition parseRetryAfter (http_date : string -> option Z) (value : string) (now : Z) : Z :=
  let value := strings_TrimSpace value in
  let fallback := 5 * Second in
  let digits := forallb (fun a => let n := Ascii.nat_of_ascii a in (48 <=? n)%nat && (n <=? 57)%nat)
                  (String.list_ascii_of_string value) in
  if value =s "" then fallback
  else if digits then
    let seconds := fold_left (fun acc a => 10 * acc + (Z.of_nat (Ascii.nat_of_ascii a) - 48))
                     (String.list_ascii_of_string value) 0 in
    if (2 ^ 64 <=? seconds) || (seconds =? 0) then fallback
    else (if 60 <? seconds then 60 else seconds) * Second
  else match http_date value with
       | None => fallback
       | Some date =>
           let wait := Time_Sub date now in
           if wait <? Second then Second else if Minute <? wait then Minute else wait
       end.

(** The request [Client.Sync] makes; the token travels in the header only.  [transport]
    is what the center decodes from the JSON the client encodes. *)
Definition client_request (transport : SyncRequest -> option SyncRequest) (clientIP : string) (r : SyncRequest)
    : http_request :=
  let token := strings_TrimSpace (sr_SyncToken r) in {|
  hq_Method := "POST"; hq_clientIP := clientIP;
  hq_Authorization := if token =s "" then "" else "Bearer " +:+ token;
  hq_SyncProtocol := ["2"];
  hq_CollectionRevision := match sr_LiveSignal r with Some _ => ["5"] | None => [] end;
  hq_Body := transport {| sr_ProtocolRevision := sr_ProtocolRevision r; sr_ProducerID := sr_ProducerID r;
    sr_BatchSequence := sr_BatchSequence r; sr_AllocatedThrough := sr_AllocatedThrough r;
    sr_RetiredThrough := sr_RetiredThrough r; sr_SessionID := sr_SessionID r; sr_LiveSignal := sr_LiveSignal r;
    sr_MonitoringInstanceID := sr_MonitoringInstanceID r; sr_SyncToken := "";
    sr_Heartbeats := sr_Heartbeats r; sr_HostSamples := sr_HostSamples r;
    sr_ProbeObservations := sr_ProbeObservations r; sr_IPQualityReports := sr_IPQualityReports r;
    sr_CommandResults := sr_CommandResults r |} |}.

(** The answer as [Client.Sync] returns it. *)
Definition client_answer (http_date : string -> option Z) (now : Z) (answer : http_answer) : sync_answer :=
  match answer with
  | HTTPOk response => Answered response
  | HTTPError status code retryAfter =>
      Refused {| rm_StatusCode := status; rm_Code := code;
                 rm_RetryAfter := if (status =? 429) || (status =? 503)
                                  then parseRetryAfter http_date (default "" retryAfter) now else 0 |}
  end.
End Handler.
