(* ===== verification/LiveSignals.v ===== *)
(** The numbers of the live signals an agent sends ([attachLiveSignal] of
    src/agent/runtime/runtime.go over [ReserveLiveSequences] of the queue). *)
From stdpp Require Import base list sorting strings gmap.
From Stdlib Require Import ZArith Lia.
From S2P Require Import Prelude GoRuntime Json AgentApi Settings Wire AgentPlan SyncQueue SyncQueueProps SyncWire.
From S2P Require Import SyncStore AgentRuntime.

Local Open Scope Z_scope.

Section LiveSignals.
Context {W : Type} `{World : AgentWorld W} `{Codec : QueueCodec} `{Laws : !QueueCodecLaws}.
Implicit Types (s : Runtime * W).

(** The numbers an agent may still use come from a block the file has reserved. *)
Definition live_ok s : Prop :=
  exists e, file_holds (rt_queue s.1) e /\
    (rt_nextLiveSequence s.1 = 0 \/
     0 < rt_nextLiveSequence s.1 <= rt_lastLiveSequence s.1 /\ rt_lastLiveSequence s.1 <= en_LiveReservedThrough e).

(** What may happen between two signals: the queue is used, and the loop may have been
    started again, which forgets the rest of its block. *)
Definition live_between s s' : Prop :=
  (forall e, file_holds (rt_queue s.1) e -> exists e', file_holds (rt_queue s'.1) e' /\ evolves e e') /\
  (rt_nextLiveSequence s'.1 = 0 \/
   rt_nextLiveSequence s'.1 = rt_nextLiveSequence s.1 /\ rt_lastLiveSequence s'.1 = rt_lastLiveSequence s.1).

(** A number below those the state will hand out. *)
Definition issued s (n : Z) : Prop :=
  exists e, file_holds (rt_queue s.1) e /\ n <= en_LiveReservedThrough e /\
    (rt_nextLiveSequence s.1 = 0 \/ n < rt_nextLiveSequence s.1).

Lemma live_between_ok s s' : live_ok s -> live_between s s' -> live_ok s'.
Proof.
  intros (e & He & Hl) [Hf Hn]. destruct (Hf e He) as (e' & He' & Hev). exists e'. split; [done|].
  destruct Hn as [|[E1 E2]]; [by left|]. rewrite E1, E2. destruct Hl as [|[? ?]]; [by left|right].
  pose proof (evo_live _ _ Hev). lia.
Qed.

Lemma live_between_issued s s' n : issued s n -> live_between s s' -> issued s' n.
Proof.
  intros (e & He & Hle & Hn) [Hf Hs]. destruct (Hf e He) as (e' & He' & Hev). exists e'. split; [done|].
  pose proof (evo_live _ _ Hev). split; [lia|]. destruct Hs as [|[E1 E2]]; [by left|]. rewrite E1. done.
Qed.

(** A signal takes the next number of the block, or the first of a new one; what is left
    is above it. *)
Lemma attachLiveSignal_number fingerprint request s request' s' :
  live_ok s -> attachLiveSignal fingerprint request s = (inl request', s') ->
  exists signal, sr_LiveSignal request' = Some signal /\ 0 < ls_Sequence signal /\
    (forall n, issued s n -> n < ls_Sequence signal) /\ live_ok s' /\ issued s' (ls_Sequence signal).
Proof using Laws.
  intros (e & He & Hl). unfold attachLiveSignal. destruct (_ =s _); [by intros [=]|].
  unfold rt_get, rt_modify, mbind, rt_bind, mret, rt_ret.
  destruct (rt_nextLiveSequence s.1 =? 0) eqn:E0.
  - unfold queue_do. destruct (next_io s.2) as [io w]. destruct (ReserveLiveSequences io _ (rt_queue s.1)) as [r q] eqn:Er.
    destruct r as [block|]; [|by intros [=]]. cbn [fst snd]. intros [= <- <-].
    apply Reserve_outcome in Er as [[_ (? & [=])]|(e0 & Hload & _ & Hle & Hb & Hcom)].
    pose proof (file_holds_unique _ _ _ He (load_holds _ _ _ Hload)) as ->. rewrite (Hb _ eq_refl). clear Hb.
    destruct Hcom as (Hf & _). destruct (load_wf _ _ _ Hload) as [Hv _]. pose proof (ev_live _ Hv).
    cbn [fst snd]. unfold rt_with_queue, rt_with_live, LiveSequenceReservation in *. cbn in *. eexists. split; [done|].
    cbn. replace (_ =? _) with false by lia. split_and!; [lia| |eexists; split; [exact Hf|]; cbn; lia|
      eexists; split; [exact Hf|]; cbn; lia].
    intros n (e1 & He1 & Hn & _). rewrite (file_holds_unique _ _ _ He He1) in Hn. lia.
  - intros [= <- <-]. apply Z.eqb_neq in E0. destruct Hl as [|Hl]; [done|]. eexists. split; [done|]. cbn.
    split_and!; [lia|..].
    + intros n (_ & _ & _ & [|]); [done|]. done.
    + exists e. split; [done|]. cbn. destruct (_ =? _) eqn:E; [by left|right]. apply Z.eqb_neq in E. lia.
    + exists e. split; [done|]. cbn. destruct (_ =? _) eqn:E; [split; [lia|by left]|]. lia.
Qed.

(** Of two live signals of an agent the later has the larger
    number, whatever happened to the queue between them and even if the loop was
    restarted; so the center never takes a fresh signal for a repeated one. *)
Theorem live_signals_increase fingerprint1 fingerprint2 request1 request2 s r1 s1 s2 r2 s3
    (Hlive : live_ok s) (Hfirst : attachLiveSignal fingerprint1 request1 s = (inl r1, s1))
    (Hbetween : live_between s1 s2) (Hsecond : attachLiveSignal fingerprint2 request2 s2 = (inl r2, s3)) :
  exists a b, sr_LiveSignal r1 = Some a /\ sr_LiveSignal r2 = Some b /\ 0 < ls_Sequence a < ls_Sequence b.
Proof using Laws.
  destruct (attachLiveSignal_number _ _ _ _ _ Hlive Hfirst) as (a & Ea & Hpos & _ & Hlive1 & Hissued).
  destruct (attachLiveSignal_number _ _ _ _ _ (live_between_ok _ _ Hlive1 Hbetween) Hsecond)
    as (b & Eb & _ & Hmore & _). exists a, b. split; [done|]. split; [done|]. split; [done|].
  apply Hmore. by eapply live_between_issued.
Qed.
End LiveSignals.
