(* ===== verification/SyncHandlerProps.v ===== *)
(** The sync endpoint and its client agree: what the handler lets through is a valid
    batch, what it answers for an error tells the agent whether to retry, and an
    acknowledgement the agent accepts says what the center holds. *)
From stdpp Require Import base list sorting strings gmap.
From Stdlib Require Import ZArith Lia.
From S2P Require Import Prelude GoRuntime Json AgentApi IncidentTypes Settings Wire AgentPlan ObservationStore.
From S2P Require Import SyncQueue SyncWire SyncProtocol SyncStore SyncStoreProps AgentRuntime RateLimit.
From S2P Require Import SyncHandler.

Local Open Scope Z_scope.
#[local] Set Warnings "-clear-no-such-hyp".

Section HandlerProps.
Context {body : Type} `{Env : @SyncEnv body} `{HEnv : HandlerEnv body} `{Digest : SyncDigest}.
Implicit Types (db : @sync_db body) (batch : Batch body) (io : sync_io).

(** * Validation *)

Lemma forallb_fmap {A B} (f : A -> B) (p : B -> bool) l : forallb p (f <$> l) = forallb (fun a => p (f a)) l.
Proof. induction l as [|a l IH]; cbn; [done|]. by rewrite IH. Qed.

Lemma forallb_weaken {A} (p q : A -> bool) l :
  (forall a, p a = true -> q a = true) -> forallb p l = true -> forallb q l = true.
Proof. intros H. rewrite !forallb_forall. eauto. Qed.

Lemma requiredMax_nonempty s n : requiredMax s n = true -> s <> "".
Proof. unfold requiredMax. intros H. by breflect. Qed.

(** The parts of a valid request. *)
Lemma valid_request_parts req (Hvalid : isValidSyncRequest req = true) :
  let identity := identity_of (sr_ProducerID req) (sr_BatchSequence req) in
  valid_bounds req = true /\ sr_SessionID req <> "" /\
  (forall signal, sr_LiveSignal req = Some signal -> 0 < ls_Sequence signal /\ ls_Fingerprint signal <> "") /\
  (sr_Heartbeats req = [] -> fact_total req <= 0) /\
  forallb (valid_heartbeat identity) (sr_Heartbeats req) = true /\
  forallb (valid_sample identity) (sr_HostSamples req) = true /\
  forallb (valid_observation identity) (sr_ProbeObservations req) = true /\
  forallb (valid_report identity) (sr_IPQualityReports req) = true.
Proof.
  unfold isValidSyncRequest in Hvalid.
  repeat match goal with H : (_ && _)%bool = true |- _ => apply andb_true_iff in H; destruct H end.
  split_and!; try done.
  - by eapply requiredMax_nonempty.
  - intros signal E. rewrite E in *. breflect. split; [lia|by eapply requiredMax_nonempty].
  - intros E. match goal with H : negb (_ && (0 <? _)) = true |- _ => rename H into Hn end.
    unfold len in Hn. rewrite E in Hn. apply negb_true_iff, andb_false_iff in Hn as [Hn|Hn]; [done|].
    by apply Z.ltb_ge in Hn.
Qed.

(** The facts of a valid request carry the identity of its batch. *)
Lemma facts_identified_valid req digest revision (Hvalid : isValidSyncRequest req = true) :
  facts_identified (syncBatchFromRequest req digest revision)
    (identity_of (sr_ProducerID req) (sr_BatchSequence req)) = true.
Proof.
  destruct (valid_request_parts _ Hvalid) as (_ & _ & _ & _ & Hb & Hs & Ho & Hq).
  unfold facts_identified; cbn [syncBatchFromRequest ba_Heartbeats ba_HostSamples ba_ProbeObservations
    ba_IPQualityReports]; rewrite !forallb_fmap; cbn [host_sample_write observation_write report_write hs_SyncBatchID
    po_SyncBatchID rw_SyncBatchID].
  rewrite !andb_true_iff; split_and!; (eapply forallb_weaken; [|eassumption]); intros a Ha;
    (unfold valid_heartbeat in Ha || unfold valid_sample in Ha || unfold valid_observation in Ha ||
     unfold valid_report in Ha);
    repeat (apply andb_true_iff in Ha as [Ha _]); exact Ha.
Qed.

Lemma fact_count_total req digest revision :
  Z.of_nat (fact_count (syncBatchFromRequest req digest revision)) = fact_total req.
Proof.
  unfold fact_count, fact_total, len. cbn [syncBatchFromRequest ba_Heartbeats ba_HostSamples ba_ProbeObservations
    ba_IPQualityReports ba_CommandResults]. rewrite !length_fmap. lia.
Qed.

Lemma valid_bounds_kept req digest revision :
  isValidSyncRequest req = true ->
  replay_bounds_bad sync_uuid_Parse (syncBatchFromRequest req digest revision) = false /\
  live_signal_bad (syncBatchFromRequest req digest revision) = false.
Proof.
  intros Hvalid. destruct (valid_request_parts _ Hvalid) as (Hb & Hs & Hl & _ & _).
  unfold valid_bounds in Hb. breflect.
  assert (sr_BatchSequence req <= sr_AllocatedThrough req) by (destruct (0 <? fact_total req); breflect; lia).
  unfold replay_bounds_bad, live_signal_bad. cbn [syncBatchFromRequest ba_ProducerID ba_SessionID ba_AllocatedThrough
    ba_RetiredThrough ba_BatchSequence ba_LiveSignal].
  match goal with H : ValidSyncProducerID _ _ = true |- _ => rewrite H end.
  rewrite (proj2 (String.eqb_neq _ _) Hs). split.
  - cbn [negb orb]. rewrite !orb_false_iff. split_and!; try apply Z.ltb_ge; lia.
  - destruct (sr_LiveSignal req) as [signal|]; [|done]. destruct (Hl _ eq_refl) as [Hpos Hprint].
    by rewrite (proj2 (Z.leb_gt _ _) Hpos), (proj2 (String.eqb_neq _ _) Hprint).
Qed.

(** A request that passes the checks of the handler
    translates to a batch that passes the checks of the service, unless its number is
    already retired by the request itself, which is answered as such. *)
Theorem valid_request_is_valid_batch req digest revision (Hvalid : isValidSyncRequest req = true) :
  ValidateBatchProtocol sync_uuid_Parse (syncBatchFromRequest req digest revision) =
  if (0 <? sr_BatchSequence req) && (sr_BatchSequence req <=? sr_RetiredThrough req)
  then Err ErrSyncBatchRetired else Ok tt.
Proof.
  destruct (valid_request_parts _ Hvalid) as (Hb & _ & _ & Hempty & _). unfold valid_bounds in Hb. breflect.
  destruct (valid_bounds_kept req digest revision Hvalid) as [E1 E2].
  unfold ValidateBatchProtocol. rewrite E1, E2. cbn [ba_ProtocolRevision ba_BatchSequence ba_RetiredThrough
    ba_Heartbeats ba_ProducerID syncBatchFromRequest]. rewrite (facts_identified_valid _ _ _ Hvalid).
  pose proof (fact_count_total req digest revision) as Hcount.
  replace (sr_ProtocolRevision req =? SyncProtocolRevision) with true by lia. cbn [negb reject mbind result_bind].
  destruct (0 <? fact_total req) eqn:Ef; breflect.
  - replace (sr_BatchSequence req =? 0) with false by lia.
    replace (0 <? sr_BatchSequence req) with true by lia. cbn [andb].
    destruct (sr_BatchSequence req <=? sr_RetiredThrough req); cbn [reject mbind result_bind]; [done|].
    destruct (sr_Heartbeats req); [pose proof (Hempty eq_refl); lia|done].
  - replace (sr_BatchSequence req =? 0) with true by lia. replace (0 <? sr_BatchSequence req) with false by lia.
    assert (fact_count (syncBatchFromRequest req digest revision) = 0%nat) as -> by lia. done.
Qed.
(** * Errors *)

(** What the agent decides for an error of the service, through the answer of the
    handler and the client. *)
Definition decided_action (http_date : string -> option Z) (now : Z) (err : error) : option string :=
  match client_answer http_date now (sync_error_answer err).1 with
  | Refused remote => Some (pe_action (classifySyncFailure (Some remote)))
  | _ => None
  end.

Lemma existsb_find {A} (p : A -> bool) l : existsb p l = match List.find p l with Some _ => true | None => false end.
Proof. induction l as [|a l IH]; cbn; [done|]. by destruct (p a). Qed.

Lemma existsb_Permutation {A} (p : A -> bool) l1 l2 : l1 ≡ₚ l2 -> existsb p l1 = existsb p l2.
Proof.
  induction 1 as [|a l1 l2 _ IH|a b l|l1 l2 l3 _ IH1 _ IH2]; cbn; [done|by rewrite IH| |by rewrite IH1].
  by destruct (p a), (p b).
Qed.

Lemma existsb_fmap {A B} (f : A -> B) (p : B -> bool) l : existsb p (f <$> l) = existsb (fun a => p (f a)) l.
Proof. induction l as [|a l IH]; cbn; [done|]. by rewrite IH. Qed.

(** The cases of the handler are the admission errors of the store. *)
Lemma admission_error_cases err :
  isSyncAdmissionError err = match List.find (fun c => errors_Is c.1 err) error_cases with
                             | Some _ => true
                             | None => false
                             end.
Proof.
  rewrite <- existsb_find, <- (existsb_fmap fst (fun name => errors_Is name err)). apply existsb_Permutation.
  refine (bool_decide_unpack _ _). by vm_compute.
Qed.

(** The store, the handler and the agent agree on what an error
    means.  The agent tries again exactly the requests whose error is no admission error,
    the handler reports a failure of the receiver for exactly those, and it discards a
    queued request exactly when the answer is 400; every other refusal ends its loop. *)
Theorem refusals_classified http_date now err :
  (decided_action http_date now err = Some syncQueueActionRetry <-> isSyncAdmissionError err = false) /\
  (isSyncAdmissionError err = false <-> (sync_error_answer err).2 = Some "sync_internal_error") /\
  (decided_action http_date now err = Some syncQueueActionDiscard <->
   (sync_error_answer err).1 = HTTPError 400 ErrorCodeInvalidRequest None) /\
  (decided_action http_date now err = Some syncQueueActionTerminal <->
   isSyncAdmissionError err = true /\ (sync_error_answer err).1 <> HTTPError 400 ErrorCodeInvalidRequest None).
Proof.
  unfold decided_action. rewrite admission_error_cases. unfold sync_error_answer.
  destruct (List.find _ error_cases) as [[name [status code]]|] eqn:E.
  - apply List.find_some in E as [Hin _]. cbn [In error_cases] in Hin.
    repeat destruct Hin as [Hin|Hin]; try done; injection Hin as <- <- <-; vm_compute;
      intuition congruence.
  - vm_compute. intuition congruence.
Qed.

Lemma decimal_nonneg l acc :
  forallb (fun a => let n := Ascii.nat_of_ascii a in (48 <=? n)%nat && (n <=? 57)%nat) l = true -> 0 <= acc ->
  0 <= fold_left (fun acc a => 10 * acc + (Z.of_nat (Ascii.nat_of_ascii a) - 48)) l acc.
Proof.
  revert acc. induction l as [|a l IH]; intros acc Hl Hacc; cbn [forallb fold_left] in *; [done|].
  cbv zeta in Hl. breflect. apply IH; [done|]. lia.
Qed.

(** Whatever Retry-After header a busy center sends, the client
    waits for between one second and one minute, which the loop takes as it is. *)
Theorem retry_after_bounded http_date value now : Second <= parseRetryAfter http_date value now <= Minute.
Proof.
  unfold parseRetryAfter, Second, Minute, Second. cbv zeta.
  destruct (_ =s ""); [lia|]. destruct (forallb _ _) eqn:Hd.
  - pose proof (decimal_nonneg _ 0 Hd ltac:(lia)). split_matches; breflect; lia.
  - split_matches; breflect; lia.
Qed.
End HandlerProps.
