(* ===== verification/CenterLink.v ===== *)
(** The center as an agent meets it: how its tables evolve under the requests that the
    handler lets through, and what an exchange between the client and the endpoint may
    do.  The loop of the agent is proved against this interface. *)
From stdpp Require Import base list sorting strings gmap.
From Stdlib Require Import ZArith Lia.
From S2P Require Import Prelude GoRuntime Json AgentApi IncidentTypes Settings Wire AgentPlan ObservationStore.
From S2P Require Import SyncQueue SyncWire SyncProtocol SyncStore SyncStoreProps AgentRuntime RateLimit.
From S2P Require Import SyncHandler.

Local Open Scope Z_scope.
#[local] Set Warnings "-clear-no-such-hyp".

(** * Hexadecimal digests *)

Lemma hex_digit_inj m n : (m < 16)%nat -> (n < 16)%nat -> hex_digit m = hex_digit n -> m = n.
Proof.
  intros Hm Hn. do 16 (destruct m as [|m]; [do 16 (destruct n as [|n]; [by vm_compute|]); lia|]). lia.
Qed.

#[export] Instance hex_EncodeToString_inj : Inj eq eq hex_EncodeToString.
Proof.
  intros s. induction s as [|a s IH]; intros [|b t] H; cbn [hex_EncodeToString] in H; try discriminate H; [done|].
  injection H. intros H3 H2 H1. rewrite (IH t H3). f_equal.
  pose proof (Ascii.nat_ascii_bounded a). pose proof (Ascii.nat_ascii_bounded b).
  assert (Ascii.nat_of_ascii a / 16 = Ascii.nat_of_ascii b / 16)%nat as E1
    by (apply hex_digit_inj; [apply Nat.Div0.div_lt_upper_bound; lia..|done]).
  assert (Ascii.nat_of_ascii a mod 16 = Ascii.nat_of_ascii b mod 16)%nat as E2
    by (apply hex_digit_inj; [apply Nat.mod_upper_bound; lia..|done]).
  rewrite <- (Ascii.ascii_nat_embedding a), <- (Ascii.ascii_nat_embedding b). f_equal.
  rewrite (Nat.div_mod_eq (Ascii.nat_of_ascii a) 16), (Nat.div_mod_eq (Ascii.nat_of_ascii b) 16). congruence.
Qed.

Section Center.
Context {body : Type} `{Env : @SyncEnv body} `{HEnv : HandlerEnv body} `{Digest : SyncDigest}.
Implicit Types (db : @sync_db body) (batch : Batch body) (io : sync_io).

(** * The tables of the center *)

(** A batch as the handler makes it from a request. *)
Definition handed batch : Prop :=
  exists req revision, CanonicalSyncBatchDigest req = Ok (ba_PayloadDigest batch) /\
    batch = syncBatchFromRequest req (ba_PayloadDigest batch) revision.

Inductive center_step db : @sync_db body -> Prop :=
| center_call io batch : handed batch -> center_step db (applyBatch io batch db).2.

Definition center_evolves : relation (@sync_db body) := rtc center_step.

(** The tables of facts only grow. *)
Record grows db db' : Prop := {
  gr_heartbeats : sd_heartbeats db ⊆ sd_heartbeats db';
  gr_samples : od_host_samples (sd_observations db) ⊆ od_host_samples (sd_observations db');
  gr_observations : od_probe_observations (sd_observations db) ⊆ od_probe_observations (sd_observations db');
  gr_reports : (sd_reports db).*2 ⊆ (sd_reports db').*2;
}.

#[export] Instance grows_preorder : PreOrder grows.
Proof. split; [by intros db; split|]. intros db1 db2 db3 [] []. split; by etransitivity. Qed.

(** The tables hold every fact of a batch. *)
Record facts_in io batch db : Prop := {
  fi_heartbeats : (beat_row io batch <$> ba_Heartbeats batch) ⊆ sd_heartbeats db;
  fi_samples : (host_sample_row <$> (batchWithReceivedAt (si_now io) batch).1) ⊆ od_host_samples (sd_observations db);
  fi_observations : (batchWithReceivedAt (si_now io) batch).2 ⊆ od_probe_observations (sd_observations db);
  fi_reports : (report_with_received (si_now io) <$> ba_IPQualityReports batch) ⊆ (sd_reports db).*2;
}.

(** The center stores the facts of a request with this session, number and digest. *)
Definition stored db (session : string) (number : Z) (digest : string) : Prop :=
  exists io batch, handed batch /\ ba_SessionID batch = session /\ ba_BatchSequence batch = number /\
    ba_PayloadDigest batch = digest /\ facts_in io batch db.

Definition receipts_backed db : Prop :=
  forall s n d, sd_receipts db !! (s, n) = Some d -> stored db s n d.

Definition center_ok db : Prop := replay_wf db /\ receipts_backed db.

Lemma facts_in_grows io batch db db' : grows db db' -> facts_in io batch db -> facts_in io batch db'.
Proof. intros [] []. split; by etransitivity. Qed.

Lemma stored_grows db db' s n d : grows db db' -> stored db s n d -> stored db' s n d.
Proof.
  intros Hg (io & batch & ? & ? & ? & ? & Hf). exists io, batch. repeat (split; [done|]). by eapply facts_in_grows.
Qed.

Lemma same_facts_grows db db' : same_facts db db' -> grows db db'.
Proof. intros (E1 & E2 & E3 & _). split; by rewrite ?E1, ?E2, ?E3. Qed.

Lemma recorded_facts_grows io batch db db' :
  recorded_facts io batch db db' -> grows db db' /\ facts_in io batch db'.
Proof.
  intros [E1 E2 E3 E4 _]. split; split; rewrite ?E1, ?E2, ?E3, ?E4; intros x Hx; apply elem_of_app; auto.
Qed.

(** What a transaction that reached its commit does to the facts. *)
Lemma tx_effect_grows io batch db recorded db' : tx_effect io batch db recorded db' -> grows db db'.
Proof.
  intros He. destruct recorded.
  - destruct (te_recorded _ _ _ _ _ He eq_refl) as (_ & _ & _ & Hf). by eapply recorded_facts_grows.
  - by apply same_facts_grows, (te_same _ _ _ _ _ He).
Qed.

Lemma tx_effect_backed io batch db recorded db' :
  handed batch -> receipts_backed db -> tx_effect io batch db recorded db' -> receipts_backed db'.
Proof.
  intros Hh Hb He s n d Hr. pose proof (tx_effect_grows _ _ _ _ _ He) as Hg.
  rewrite (te_receipts _ _ _ _ _ He) in Hr. destruct (decide (_ /\ _)) as [|_]; [done|].
  destruct (decide _) as [(-> & -> & ->)|_]; [|eapply stored_grows; eauto].
  injection Hr as <-. destruct (te_recorded _ _ _ _ _ He eq_refl) as (_ & _ & _ & Hf).
  exists io, batch. repeat (split; [done|]). by eapply recorded_facts_grows.
Qed.

Lemma applyBatch_center io batch db :
  handed batch -> center_ok db ->
  center_ok (applyBatch io batch db).2 /\ grows db (applyBatch io batch db).2.
Proof.
  intros Hh [Hwf Hb]. pose proof (applyBatch_wf io batch db Hwf) as Hwf'.
  pose proof (applyBatch_cases io batch db Hwf) as Hc. destruct (applyBatch io batch db) as [r db']. cbn [snd] in *.
  destruct Hc as [[-> _]|(_ & r0 & Hs & _)]; [done|]. apply tx_effect_intro in Hs.
  split; [split; [done|]|]; [by eapply tx_effect_backed|by eapply tx_effect_grows].
Qed.

Lemma center_evolves_ok db db' : center_evolves db db' -> center_ok db -> center_ok db' /\ grows db db'.
Proof.
  induction 1 as [db|db1 db2 db3 [io batch Hh] _ IH]; intros Hok; [done|].
  destruct (applyBatch_center io batch db1 Hh Hok) as [Hok2 Hg]. destruct (IH Hok2). split; [done|]. by etransitivity.
Qed.

(** What an answer of the center says of its tables. *)
Lemma answer_center io batch db r db' :
  handed batch -> center_ok db -> applyBatch io batch db = (Ok r, db') ->
  (re_SessionID r = ba_SessionID batch /\ re_ProducerID r = ba_ProducerID batch /\
   re_BatchSequence r = ba_BatchSequence batch /\ re_BatchDigest r = hex_EncodeToString (ba_PayloadDigest batch)) /\
  (re_Disposition r = ResultDispositionRecorded \/ re_Disposition r = ResultDispositionExactDuplicate ->
   stored db' (ba_SessionID batch) (ba_BatchSequence batch) (ba_PayloadDigest batch)) /\
  (re_Disposition r = ResultDispositionSuppressed -> ba_BatchSequence batch <> 0 -> re_StopCollection r = true) /\
  (re_StopCollection r = true -> collection_stopped db batch).
Proof.
  intros Hh [Hwf Hb] H. destruct (applyBatch_ok _ _ _ _ _ Hwf H) as (_ & _ & Hs).
  pose proof (tx_effect_intro _ _ _ _ _ Hs) as He.
  pose proof (tx_effect_backed _ _ _ _ _ Hh Hb He) as Hb'.
  destruct Hs as [(state & floor & live & db1 & db2 & d & Hval & _ & _ & Hd & Ed & Es & _) (I1 & I2 & I3 & I4 & _)].
  split; [done|]. destruct (validateAcceptedSyncBatch_spec _ _ _ _ Hval) as (i & s & v & Had).
  rewrite Ed in *. rewrite Es. rewrite <- (suppressed_stopped _ _ _ _ _ _ Had).
  destruct Hd as [plan db3 _ Hsup _ _|_ Hrec|_ Hsup|plan E0 Hsup _|_ Hsup _ _]; cbn in *; split_and!;
    try done; try (by intros [|]); try (by auto).
  intros _. destruct (te_recorded _ _ _ _ _ He eq_refl) as (_ & _ & _ & Hf).
  exists io, batch. repeat (split; [done|]). by eapply recorded_facts_grows.
Qed.
End Center.

(** * The exchange *)

Section Link.
Context {body : Type} `{Env : @SyncEnv body} `{HEnv : HandlerEnv body} `{Digest : SyncDigest} {W : Type}.
Implicit Types (center : W -> @sync_db body).

(** The collaborators of the service of a center: the repository works on its tables,
    the coordinator and the processor of recorded batches on others. *)
Record serves center (deps : service_deps (body := body) (W := W)) : Prop := {
  sv_apply : forall batch w, exists io, sd_ApplyBatch deps batch w =
    ((applyBatch io batch (center w)).1, (sd_ApplyBatch deps batch w).2) /\
    center (sd_ApplyBatch deps batch w).2 = (applyBatch io batch (center w)).2;
  sv_observe : forall id reports w, center (sd_ObserveReports deps id reports w) = center w;
  sv_pending : forall id revision w, center (sd_PendingRequest deps id revision w).2 = center w;
  sv_after : forall after batch r w, sd_AfterSuccessfulSync deps = Some after -> center (after batch r w).2 = center w;
}.

(** What [Client.Sync] may meet.  Other agents use the center at the same time; a
    request or its answer may be lost, and something on the way may refuse it; an answer
    that is no refusal comes from the handler. *)
Inductive exchange center (request : SyncRequest) (w : W) : sync_answer -> W -> Prop :=
| exchange_lost err w' :
    center_evolves (center w) (center w') -> exchange center request w (Unreachable err) w'
| exchange_refused err w' :
    center_evolves (center w) (center w') -> exchange center request w (Refused err) w'
| exchange_served transport ip http_date now now' deps e w1 answer failure e' w2 w' :
    serves center deps -> center_evolves (center w) (center w1) ->
    AgentSync deps now (client_request transport ip request) e w1 = (answer, failure, e', w2) ->
    center_evolves (center w2) (center w') ->
    exchange center request w (client_answer http_date now' answer) w'.

(** What a response repeats of the result of the repository. *)
Record says (response : SyncResponse) (r : Result) : Prop := {
  ss_session : rsp_SessionID response = re_SessionID r;
  ss_producer : rsp_ProducerID response = re_ProducerID r;
  ss_sequence : rsp_BatchSequence response = re_BatchSequence r;
  ss_digest : rsp_BatchDigest response = re_BatchDigest r;
  ss_disposition : rsp_Disposition response = re_Disposition r;
  ss_stop : rsp_StopCollection response = re_StopCollection r;
}.

Lemma coordinate_says deps batch r w response center :
  serves center deps ->
  let '(r', w') := coordinateIPQualityCollect deps batch r w in
  (says response r' -> says response r) /\ re_Disposition r' = re_Disposition r /\ center w' = center w.
Proof.
  intros Hs. unfold coordinateIPQualityCollect. destruct (negb _); [done|].
  set (w1 := match ba_IPQualityReports batch with [] => w | _ => _ end).
  assert (center w1 = center w) as Ew by (unfold w1; destruct (ba_IPQualityReports batch); [done|]; destruct (_ =s _); [apply Hs|done]).
  destruct (sp_IPQualityPlan (re_Plan r)) as [plan|]; [|done]. destruct (_ || _); [done|].
  match goal with |- context [sd_PendingRequest deps ?id ?revision w1] =>
    pose proof (sv_pending _ _ Hs id revision w1) as E2; destruct (sd_PendingRequest deps id revision w1) as [request w2]
  end. cbn [snd] in E2.
  destruct (cr_RequestID request =s ""); cbv beta iota; (split; [|split; [done|congruence]]); [done|]. by intros [].
Qed.

(** The service answers what the repository answered. *)
Lemma SyncBatch_center center deps batch w :
  serves center deps ->
  let '(answer, w') := SyncBatch sync_uuid_Parse deps batch w in
  center w' = center w /\ (exists err, answer = Err err) \/
  exists io, center w' = (applyBatch io batch (center w)).2 /\
    match answer with
    | Ok r' => exists r, (applyBatch io batch (center w)).1 = Ok r /\ says (response_of r') r
    | Err _ => True
    end.
Proof.
  intros Hs. unfold SyncBatch. destruct (ValidateBatchProtocol _ _); [|left; by eauto].
  destruct (sv_apply _ _ Hs batch w) as (io & E1 & E2). rewrite E1.
  destruct (sd_ApplyBatch deps batch w) as [ra w1]. cbn [snd] in E2. clear E1.
  destruct (applyBatch io batch (center w)) as [answer db'] eqn:Ea. cbn [fst snd] in *.
  destruct answer as [r|err]; [|right; exists io; rewrite Ea; done].
  destruct (re_Disposition r =s ResultDispositionDeferred) eqn:Edef.
  { right. exists io. rewrite Ea. split; [done|]. exists r. split; [done|]. by split. }
  destruct (coordinateIPQualityCollect deps batch r w1) as [r2 w2] eqn:Ec.
  pose proof (coordinate_says deps batch r w1 (response_of r2) center Hs) as Hc. rewrite Ec in Hc.
  destruct Hc as (Hsay & _ & Ew). assert (says (response_of r2) r) as Hr by (apply Hsay; by split).
  destruct (sd_AfterSuccessfulSync deps) as [after|] eqn:Eaf.
  - destruct (re_Disposition r2 =s ResultDispositionRecorded).
    + pose proof (sv_after _ _ Hs after batch r2 w2 Eaf) as E3. destruct (after batch r2 w2) as [[err|] w3];
        cbn [snd] in E3; cbv beta iota; right; exists io; rewrite Ea; (split; [cbn; congruence|]); [done|]. eauto.
    + cbv beta iota. right. exists io. rewrite Ea. split; [cbn; congruence|]. eauto.
  - cbv beta iota. right. exists io. rewrite Ea. split; [cbn; congruence|]. eauto.
Qed.

(** Whatever the handler does, it makes at most one call to the repository, with a batch
    it made from the request; its acknowledgement is the answer of that call. *)
Lemma handle_request_center center deps token revisions req w answer failure w' :
  serves center deps -> handle_request deps token revisions req w = (answer, failure, w') ->
  center_evolves (center w) (center w') /\
  forall response, answer = HTTPOk response ->
    exists io batch r, handed batch /\ applyBatch io batch (center w) = (Ok r, center w') /\ says response r.
Proof.
  intros Hs. unfold handle_request. cbv zeta.
  set (req' := {| sr_ProtocolRevision := _ |}). clearbody req'.
  destruct (negb _); [by intros [= <- <- <-]|]. destruct (negb _); [by intros [= <- <- <-]|].
  destruct (CanonicalSyncBatchDigest req') as [digest|] eqn:Ed; [|by intros [= <- <- <-]].
  set (revision := match sr_LiveSignal req' with Some _ => _ | None => _ end). clearbody revision.
  set (batch := syncBatchFromRequest req' digest revision).
  assert (handed batch) as Hh by (exists req', revision; done).
  destruct (ValidateBatchProtocol _ _) as [[]|err].
  2: { destruct (sync_error_answer err) as [a f] eqn:E. intros [= <- <- <-]. split; [done|]. intros response ->.
       unfold sync_error_answer in E. by destruct (List.find _ _) as [[? []]|]. }
  pose proof (SyncBatch_center center deps batch w Hs) as Hb.
  destruct (SyncBatch sync_uuid_Parse deps batch w) as [[r|err] w1].
  - intros [= <- <- <-]. destruct Hb as [[_ [? ?]]|(io & Ew & r0 & E0 & Hsay)]; [done|].
    split; [rewrite Ew; apply rtc_once; by constructor|]. intros response [= <-]. exists io, batch, r0.
    split; [done|]. split; [|done]. rewrite Ew, <- E0. apply surjective_pairing.
  - destruct (sync_error_answer err) as [a f] eqn:E. intros [= <- <- <-]. split.
    + destruct Hb as [[-> _]|(io & Ew & _)]; [done|]. rewrite Ew. apply rtc_once. by constructor.
    + intros response ->. unfold sync_error_answer in E. by destruct (List.find _ _) as [[? []]|].
Qed.

Lemma AgentSync_center center deps now request e w answer failure e' w' :
  serves center deps -> AgentSync deps now request e w = (answer, failure, e', w') ->
  center_evolves (center w) (center w') /\
  forall response, answer = HTTPOk response ->
    exists io batch r, handed batch /\ applyBatch io batch (center w) = (Ok r, center w') /\ says response r.
Proof.
  intros Hs. unfold AgentSync. destruct (_ <>s _); [by intros [= <- <- <- <-]|].
  destruct (agent_allow _ _ _) as [allowed limiter]. destruct (negb _); [by intros [= <- <- <- <-]|].
  destruct (syncTokenFromAuthorizationHeader _) as [token|]; [|by intros [= <- <- <- <-]].
  destruct (gate_acquire _ _); [|by intros [= <- <- <- <-]].
  destruct (hq_SyncProtocol request) as [|v [|]]; try (by intros [= <- <- <- <-]).
  destruct (v =s "2"); [|by intros [= <- <- <- <-]].
  destruct (hq_Body request) as [req|]; [|by intros [= <- <- <- <-]].
  destruct (handle_request _ _ _ _ _) as [[a f] w1] eqn:Eh. intros [= <- <- <- <-].
  by eapply handle_request_center.
Qed.

(** What an exchange leaves: the tables evolved, and a response is the answer to a call
    the repository made on the way. *)
Lemma exchange_center center request w answer w' :
  exchange center request w answer w' ->
  center_evolves (center w) (center w') /\
  forall response, answer = Answered response ->
    exists db1 db2 io batch r, center_evolves (center w) db1 /\ handed batch /\
      applyBatch io batch db1 = (Ok r, db2) /\ center_evolves db2 (center w') /\ says response r.
Proof.
  intros [err w2 He|err w2 He|transport ip http_date now now' deps e w1 a failure e' w2 w3 Hs He1 Ha He2].
  - done.
  - done.
  - destruct (AgentSync_center _ _ _ _ _ _ _ _ _ _ Hs Ha) as [He Hok].
    split; [etransitivity; [exact He1|]; by etransitivity|]. intros response.
    destruct a as [response'|]; cbn [client_answer]; [|done]. intros [= ->].
    destruct (Hok _ eq_refl) as (io & batch & r & Hh & Hr & Hsay). by exists (center w1), (center w2), io, batch, r.
Qed.
End Link.
