(* ===== verification/Delivery.v ===== *)
(** What becomes of a queued batch.  The loop of the agent (AgentRuntime.v) is run
    against the queue (SyncQueueProps.v) and the center (CenterLink.v): in a round no
    entry disappears from the queue unless the center stores its facts or stopped
    collection for the session, the request was rejected as malformed, the entry
    belonged to another identity, or it exceeded the limits of the queue. *)
From stdpp Require Import base list sorting strings gmap.
From Stdlib Require Import ZArith Lia.
From S2P Require Import Prelude GoRuntime Json AgentApi IncidentTypes Settings Wire AgentPlan ObservationStore.
From S2P Require Import SyncQueue SyncQueueProps SyncWire SyncProtocol SyncStore SyncStoreProps AgentRuntime.
From S2P Require Import RateLimit SyncHandler CenterLink.

Local Open Scope Z_scope.
#[local] Set Warnings "-clear-no-such-hyp".

(** * The interface *)

(** A world with a center in it.  [sent] and [met] are histories: the requests that were
    sent with their answers, and what the operations of the queue met. *)
Class CenterLink (body : Type) (W : Type) `{Env : @SyncEnv body} `{HEnv : HandlerEnv body} `{Digest : SyncDigest}
    `{World : AgentWorld W} := {
  center : W -> @sync_db body;
  sent : W -> list (SyncRequest * sync_answer);
  met : W -> list op_io;
  quiet (w w' : W) : Prop := center_evolves (center w) (center w') /\ sent w' = sent w /\ met w' = met w;
  link_net : forall request w, let '(answer, w') := net_Sync request w in
    exchange center request w answer w' /\ sent w' = sent w ++ [(request, answer)] /\ met w' = met w;
  link_io : forall w, let '(io, w') := next_io w in
    center_evolves (center w) (center w') /\ sent w' = sent w /\ met w' = met w ++ [io] /\ 0 < io_now io;
  link_clock : forall w, quiet w (clock_now w).2;
  link_exec : forall bin args w, quiet w (exec_Run bin args w).2;
  link_stop : forall w, quiet w (ip_Stop w);
  link_drain : forall w, quiet w (ip_DrainReports w).2;
}.

Section Delivery.
Context {body W : Type} `{Env : @SyncEnv body} `{HEnv : HandlerEnv body} `{Digest : SyncDigest}
  `{World : AgentWorld W} `{Link : !CenterLink body W} `{Codec : QueueCodec} `{Laws : !QueueCodecLaws}.
Implicit Types (e : envelope) (q : FileStore) (s : Runtime * W) (w : W).

(** * Accounting *)

(** An entry by its identifier and its batch; attempts are counted aside. *)
Definition item : Type := string * SyncRequest.
Definition item_of (x : Entry) : item := (qe_ID x, qe_Request x).
Definition items e : list item := item_of <$> en_Entries e.
Definition queued q (i : item) : Prop := exists e, file_holds q e /\ i ∈ items e.

Implicit Types (i : item).

(** Why an entry may be gone from a queue that held [e]. *)
Inductive accounted (opts : Options) (authority : syncAuthority) e w i : Prop :=
| acc_stored digest :
    CanonicalSyncBatchDigest i.2 = Ok digest ->
    stored (center w) (sr_SessionID i.2) (sr_BatchSequence i.2) digest -> accounted opts authority e w i
| acc_stopped db batch :
    center_evolves db (center w) -> ba_SessionID batch = sr_SessionID i.2 -> collection_stopped db batch ->
    accounted opts authority e w i
| acc_rejected request err :
    (request, Refused err) ∈ sent w -> rm_StatusCode err = 400 -> digest_view request = digest_view i.2 ->
    accounted opts authority e w i
| acc_stale : syncQueueAuthorityMismatch i.2 authority = true -> accounted opts authority e w i
| acc_pruned io e' entries :
    io ∈ met w -> evolves e e' -> i ∈ item_of <$> entries -> entries `suffix_of` en_Entries e' ->
    ~ within_limits opts (io_now_prune io) e' entries -> accounted opts authority e w i.

(** What holds of the state whatever happens. *)
Definition sane s : Prop := 0 < op_MaxEntries (fs_opts (rt_queue s.1)) /\ center_ok (center s.2).

(** A step that accounts for what it removes from the queue. *)
Record progress (authority : syncAuthority) s s' : Prop := {
  pg_opts : fs_opts (rt_queue s'.1) = fs_opts (rt_queue s.1);
  pg_center : center_evolves (center s.2) (center s'.2);
  pg_sent : sent s.2 ⊆ sent s'.2;
  pg_met : met s.2 ⊆ met s'.2;
  pg_file : sane s -> forall e, file_holds (rt_queue s.1) e -> exists e', file_holds (rt_queue s'.1) e' /\ evolves e e';
  pg_kept : sane s -> forall e i, file_holds (rt_queue s.1) e -> i ∈ items e ->
    queued (rt_queue s'.1) i \/ accounted (fs_opts (rt_queue s.1)) authority e s'.2 i;
}.

(** A step that adds nothing to the queue. *)
Definition shrinks s s' : Prop :=
  forall e e', file_holds (rt_queue s.1) e -> file_holds (rt_queue s'.1) e' -> items e' ⊆ items e.

Record flushes (authority : syncAuthority) s s' : Prop := {
  fl_progress : progress authority s s';
  fl_shrinks : sane s -> shrinks s s';
}.

Lemma accounted_mono opts authority e e' w w' i :
  evolves e e' -> center_evolves (center w) (center w') -> center_ok (center w) -> sent w ⊆ sent w' ->
  met w ⊆ met w' -> accounted opts authority e' w i -> accounted opts authority e w' i.
Proof.
  intros He Hc Hok Hs Hm [digest Hd Hst|db batch H1 H2 H3|request err H1 H2 H3|H|io e2 l H1 H2 H3 H4 H5].
  - eapply acc_stored; [done|]. eapply stored_grows; [|done]. by apply center_evolves_ok.
  - eapply acc_stopped; [|done..]. by etransitivity.
  - eapply acc_rejected; [|done..]. by apply Hs.
  - by apply acc_stale.
  - eapply acc_pruned; [by apply Hm| |done..]. by etransitivity.
Qed.

Lemma sane_progress authority s s' : progress authority s s' -> sane s -> sane s'.
Proof.
  intros Hp [H1 H2]. split; [by rewrite (pg_opts _ _ _ Hp)|]. eapply center_evolves_ok; [apply (pg_center _ _ _ Hp)|done].
Qed.

#[export] Instance progress_preorder authority : PreOrder (progress authority).
Proof.
  split.
  - intros s. split; try done; intros _ e; [by exists e|]. intros i He Hi. left. by exists e.
  - intros s1 s2 s3 H12 H23. pose proof (sane_progress _ _ _ H12) as Hsane. destruct H12 as [O1 C1 S1 M1 F1 K1].
    destruct H23 as [O2 C2 S2 M2 F2 K2]. split; [congruence|by etransitivity..| |].
    + intros Hs e He. destruct (F1 Hs e He) as (e2 & He2 & Hev). destruct (F2 (Hsane Hs) e2 He2) as (e3 & ? & ?).
      exists e3. split; [done|]. by etransitivity.
    + intros Hs e i He Hi. specialize (Hsane Hs). destruct (F1 Hs e He) as (e2 & He2 & Hev).
      destruct (K1 Hs e i He Hi) as [(e2' & He2' & Hi2)|Hacc].
      * rewrite (file_holds_unique _ _ _ He2 He2') in Hi2. destruct (K2 Hsane e2 i He2 Hi2) as [|Hacc]; [by left|right].
        rewrite O1 in Hacc. eapply (accounted_mono _ _ e e2 s3.2 s3.2); try done.
        eapply center_evolves_ok; [exact C2|apply Hsane].
      * right. eapply (accounted_mono _ _ e e s2.2 s3.2); try done. apply Hsane.
Qed.

#[export] Instance flushes_preorder authority : PreOrder (flushes authority).
Proof.
  split.
  - intros s. split; [done|]. intros _ e e' He He'. by rewrite (file_holds_unique _ _ _ He He').
  - intros s1 s2 s3 [P1 S1] [P2 S2]. split; [by etransitivity|]. intros Hs e e' He He'.
    destruct (pg_file _ _ _ P1 Hs e He) as (e2 & He2 & _).
    etransitivity; [apply (S2 (sane_progress _ _ _ P1 Hs) e2 e' He2 He')|apply (S1 Hs e e2 He He2)].
Qed.

(** * Operations of the queue *)

Lemma envelope_items_unique e i j : envelope_valid e -> i ∈ items e -> j ∈ items e -> i.1 = j.1 -> i = j.
Proof.
  intros Hv (x & -> & Hx)%list_elem_of_fmap (y & -> & Hy)%list_elem_of_fmap. cbn. intros Hid.
  pose proof (ev_entries _ Hv) as Hok. rewrite Forall_forall in Hok.
  rewrite (eo_id _ _ (Hok x Hx)), (eo_id _ _ (Hok y Hy)) in Hid. apply batch_identity_inj in Hid.
  pose proof (ev_sorted _ Hv) as Hs. f_equal. clear -Hs Hx Hy Hid.
  revert Hx Hy. induction Hs as [|z l Hs IH Hz]; [by intros ?%not_elem_of_nil|].
  rewrite !elem_of_cons. rewrite Forall_forall in Hz. intros [->|Hx] [->|Hy]; auto;
    [destruct (Hz y Hy)|destruct (Hz x Hx)]; lia.
Qed.

Lemma file_holds_valid q e : file_holds q e -> envelope_valid e.
Proof using Laws. intros (d & _ & Hd). by apply (read_wf d e Hd). Qed.

(** What an operation that adds nothing does to the file: the entries it drops have an
    identifier it was given or were pruned. *)
Record op_effect (dropped : envelope -> item -> Prop) q q' : Prop := {
  oe_opts : fs_opts q' = fs_opts q;
  oe_file : forall e, file_holds q e -> exists e', file_holds q' e' /\ evolves e e' /\ items e' ⊆ items e /\
    forall i, i ∈ items e -> i ∈ items e' \/ dropped e i;
}.

Lemma op_effect_same dropped q : op_effect dropped q q.
Proof. split; [done|]. intros e He. exists e. split_and!; try done; auto. Qed.

Lemma op_effect_committed {A} dropped io q q' (r : result A) e e' :
  load io q = Ok e -> committed q q' r e' -> evolves e e' -> items e' ⊆ items e ->
  (forall i, i ∈ items e -> i ∈ items e' \/ dropped e i) -> op_effect dropped q q'.
Proof.
  intros Hl (Hf & Ho & _) Hev Hsub Hkeep. split; [done|]. intros e0 He0.
  rewrite (file_holds_unique _ _ _ (load_holds _ _ _ Hl) He0). by exists e'.
Qed.

Lemma delete_items ids e i :
  envelope_valid e -> i ∈ items (delete_entries ids e) <-> i ∈ items e /\ i.1 ∉ ids.
Proof.
  intros Hv. set (l := List.filter (fun x => bool_decide (qe_ID x ∉ ids)) (en_Entries e)).
  destruct (keeping_fields e l (valid_pre _ Hv) (filter_sublist_of _ _)) as (_ & _ & _ & _ & E & _).
  unfold items. change (delete_entries ids e) with (keeping e l). rewrite E, !list_elem_of_fmap.
  setoid_rewrite (list_elem_of_In l). unfold l. setoid_rewrite List.filter_In. setoid_rewrite <- list_elem_of_In.
  split.
  - intros (x & -> & Hx & Hn%bool_decide_eq_true). eauto.
  - intros [(x & -> & Hx) Hn]. exists x. split_and!; try done. by apply bool_decide_eq_true.
Qed.

Lemma DeleteMany_effect io ids q r q' :
  DeleteMany io ids q = (r, q') -> op_effect (fun _ i => i.1 ∈ ids) q q'.
Proof using Laws.
  intros [[-> _]|(e & e' & Hl & [= <-] & Hcom)]%mutate_outcome; [apply op_effect_same| |].
  - pose proof (load_wf _ _ _ Hl) as Hwf. destruct (DeleteMany_wf ids e Hwf) as [_ Hev].
    eapply op_effect_committed; [done|done|done|..]; intros i.
    + rewrite delete_items by apply Hwf. by intros [].
    + rewrite delete_items by apply Hwf. destruct (decide (i.1 ∈ ids)); auto.
  - intros e e' He [= <-]. by apply DeleteMany_wf.
Qed.

Lemma MarkAttempt_effect io id q r q' : MarkAttempt io id q = (r, q') -> op_effect (fun _ _ => False) q q'.
Proof using Laws.
  intros [[-> _]|(e & e' & Hl & Hm & Hcom)]%mutate_outcome; [apply op_effect_same| |].
  - apply result_bind_ok in Hm as (l & Hm & [= <-]). destruct (mark_attempt_wf _ _ _ (load_wf _ _ _ Hl) Hm) as [_ Hev].
    assert (item_of <$> l = items e) as E.
    { apply mark_attempt_spec in Hm. unfold items. clear -Hm. induction Hm as [|x x' l l' Hx _ IH]; [done|].
      rewrite !fmap_cons, IH. by destruct Hx as [->|(-> & _)]. }
    eapply op_effect_committed; [done|done|done|..]; intros i; change (items (en_with_entries l e)) with (item_of <$> l);
      rewrite E; auto.
  - intros e e' He (l & Hm & [= <-])%result_bind_ok. by eapply mark_attempt_wf.
Qed.

Lemma Reserve_effect io count q r q' :
  ReserveLiveSequences io count q = (r, q') -> op_effect (fun _ _ => False) q q'.
Proof using Laws.
  intros [[-> _]|(e & Hl & -> & Hle & _ & Hcom)]%Reserve_outcome; [apply op_effect_same|].
  destruct (live_wf e LiveSequenceReservation (load_wf _ _ _ Hl) ltac:(done) Hle) as [_ Hev].
  eapply op_effect_committed; [done|done|done|done|auto].
Qed.

(** An entry that a suffix within the limits leaves out. *)
Definition over_limits (opts : Options) (now : Z) e i : Prop :=
  exists entries, i ∈ item_of <$> entries /\ entries `suffix_of` en_Entries e /\ ~ within_limits opts now e entries.

Lemma dropped_over_limits opts now e k i :
  (forall j, (j < k)%nat -> ~ within_limits opts now e (drop j (en_Entries e))) ->
  i ∈ items e -> i ∈ item_of <$> drop k (en_Entries e) \/ over_limits opts now e i.
Proof.
  intros Hout (x & -> & [n Hn]%list_elem_of_lookup)%list_elem_of_fmap. destruct (decide (k <= n)%nat).
  - left. apply list_elem_of_fmap. exists x. split; [done|]. apply list_elem_of_lookup. exists (n - k)%nat.
    rewrite lookup_drop. by replace (k + (n - k))%nat with n by lia.
  - right. exists (drop n (en_Entries e)). split_and!.
    + apply list_elem_of_fmap. exists x. split; [done|]. apply list_elem_of_lookup. exists 0%nat.
      rewrite lookup_drop. by rewrite Nat.add_0_r.
    + apply suffix_drop.
    + apply Hout. lia.
Qed.

Lemma Prune_effect io q r q' :
  0 < op_MaxEntries (fs_opts q) -> Prune io q = (r, q') ->
  op_effect (over_limits (fs_opts q) (io_now_prune io)) q q'.
Proof using Laws.
  intros Hmax [[-> _]|(e & e' & Hl & Hm & Hcom)]%mutate_outcome; [apply op_effect_same| |].
  - pose proof (load_wf _ _ _ Hl) as Hwf. destruct (Prune_wf _ _ _ _ Hmax Hwf Hm) as [_ Hev].
    pose proof (valid_pre _ (proj1 Hwf)) as Hpre. pose proof (prune_outcome _ (io_now_prune io) _ Hpre Hmax) as Hp.
    rewrite Hm in Hp. destruct Hp as (k & _ & -> & _ & Hout).
    destruct (keeping_fields e _ Hpre (sublist_drop (en_Entries e) k)) as (_ & _ & _ & _ & E & _).
    apply (f_equal (fmap item_of)) in E. change (item_of <$> en_Entries ?x) with (items x) in E.
    eapply op_effect_committed; [done|done|done|..]; intros i; rewrite E.
    + intros (x & -> & Hx)%list_elem_of_fmap. apply list_elem_of_fmap. exists x. split; [done|].
      apply list_elem_of_lookup in Hx as [n Hn]. rewrite lookup_drop in Hn. by eapply list_elem_of_lookup_2.
    + intros Hi. by apply dropped_over_limits.
  - intros e e' He Hm. by eapply Prune_wf.
Qed.
(** * Steps of the loop *)

Lemma op_flushes authority dropped s s' :
  op_effect dropped (rt_queue s.1) (rt_queue s'.1) -> center_evolves (center s.2) (center s'.2) ->
  sent s.2 ⊆ sent s'.2 -> met s.2 ⊆ met s'.2 ->
  (sane s -> forall e i, file_holds (rt_queue s.1) e -> i ∈ items e -> dropped e i ->
     accounted (fs_opts (rt_queue s.1)) authority e s'.2 i) ->
  flushes authority s s'.
Proof.
  intros [Ho Hf] Hc Hs Hm Hd. split; [split; try done|].
  - intros _ e He. destruct (Hf e He) as (e' & ? & ? & _). by exists e'.
  - intros Hsane e i He Hi. destruct (Hf e He) as (e' & ? & _ & _ & Hk). destruct (Hk i Hi) as [|Hdrop].
    + left. by exists e'.
    + right. by apply Hd.
  - intros Hsane e e' He He'. destruct (Hf e He) as (e2 & He2 & _ & Hsub & _).
    by rewrite (file_holds_unique _ _ _ He2 He').
Qed.

(** A step that leaves the file alone. *)
Lemma frame_flushes authority s s' :
  rt_queue s'.1 = rt_queue s.1 -> center_evolves (center s.2) (center s'.2) -> sent s.2 ⊆ sent s'.2 ->
  met s.2 ⊆ met s'.2 -> flushes authority s s'.
Proof.
  intros E Hc Hs Hm. eapply (op_flushes _ (fun _ _ => False)); [rewrite E; apply op_effect_same|done..].
Qed.

(** ** Effects of a computation *)

Definition effects {A} (R : Runtime * W -> Runtime * W -> Prop) (m : rt A) : Prop :=
  forall s r s', m s = (r, s') -> R s s'.

Section Effects.
Context (R : Runtime * W -> Runtime * W -> Prop) `{!PreOrder R}.

Lemma effects_ret {A} (a : A) : effects R (mret a).
Proof. by intros s r s' [= _ <-]. Qed.

Lemma effects_fail {A} err : effects R (rt_fail (A := A) err).
Proof. by intros s r s' [= _ <-]. Qed.

Lemma effects_get : effects R rt_get.
Proof. by intros s r s' [= _ <-]. Qed.

Lemma effects_bind {A B} (m : rt A) (f : A -> rt B) :
  effects R m -> (forall a, effects R (f a)) -> effects R (m ≫= f).
Proof.
  intros Hm Hf s r s'. unfold mbind, rt_bind. destruct (m s) as [[a|err] s1] eqn:E.
  - intros H. transitivity s1; [by eapply Hm|by eapply Hf].
  - intros [= _ <-]. by eapply Hm.
Qed.

Lemma effects_try {A} (m : rt A) : effects R m -> effects R (rt_try m).
Proof. intros Hm s r s'. unfold rt_try. destruct (m s) as [a s1] eqn:E. intros [= _ <-]. by eapply Hm. Qed.
End Effects.

Lemma queue_do_spec {A} wrap (f : op_io -> FileStore -> result A * FileStore) s r s' :
  queue_do wrap f s = (r, s') ->
  exists io ra, f io (rt_queue s.1) = (ra, rt_queue s'.1) /\ s'.1 = rt_with_queue (rt_queue s'.1) s.1 /\
    r = match ra with Ok a => inl a | Err err => inr (wrap err) end /\
    io ∈ met s'.2 /\ 0 < io_now io /\ center_evolves (center s.2) (center s'.2) /\ sent s'.2 = sent s.2 /\
    met s.2 ⊆ met s'.2.
Proof.
  unfold queue_do. pose proof (link_io s.2) as Hl. destruct (next_io s.2) as [io w]. destruct (f io _) as [ra q] eqn:Ef.
  intros [= <- <-]. cbn. destruct Hl as (H1 & H2 & H3 & H4). exists io, ra. rewrite Ef, H2, H3.
  split_and!; try done; [apply elem_of_app; right; by apply list_elem_of_singleton|].
  intros x Hx. apply elem_of_app. by left.
Qed.

Lemma queue_do_flushes {A} authority wrap (f : op_io -> FileStore -> result A * FileStore) :
  (forall io q r q', f io q = (r, q') -> op_effect (fun _ _ => False) q q') ->
  effects (flushes authority) (queue_do wrap f).
Proof.
  intros Hf s r s' (io & ra & H1 & _ & _ & H2 & _ & H3 & H4 & H5)%queue_do_spec.
  eapply op_flushes; [by eapply Hf|done|by rewrite H4|done|]. done.
Qed.

Lemma queue_read_flushes {A} authority wrap (f : op_io -> FileStore -> result A) :
  effects (flushes authority) (queue_read wrap f).
Proof. apply queue_do_flushes. intros io q r q' [= _ <-]. apply op_effect_same. Qed.

Lemma modify_flushes authority f :
  (forall r, rt_queue (f r) = rt_queue r) -> effects (flushes authority) (rt_modify f).
Proof. intros Hf s r s' [= _ <-]. apply frame_flushes; [apply Hf|reflexivity..]. Qed.

Lemma world_flushes {A} authority (f : W -> A * W) :
  (forall w, quiet w (f w).2) -> effects (flushes authority) (rt_world f).
Proof.
  intros Hf s r s'. unfold rt_world. specialize (Hf s.2). destruct (f s.2) as [a w]. intros [= _ <-].
  destruct Hf as (H1 & H2 & H3). cbn [snd] in *.
  apply frame_flushes; cbn [fst snd]; [done|exact H1|by rewrite H2|by rewrite H3].
Qed.

Lemma net_flushes authority request : effects (flushes authority) (rt_world (net_Sync request)).
Proof.
  intros s r s'. unfold rt_world. pose proof (link_net request s.2) as H. destruct (net_Sync request s.2) as [a w].
  intros [= _ <-]. destruct H as (He & H2 & H3). apply frame_flushes; cbn; try done; rewrite ?H2, ?H3; try done.
  - by eapply exchange_center.
  - intros x Hx. apply elem_of_app. by left.
Qed.
Create HintDb effects.
Hint Resolve effects_ret effects_fail effects_get effects_try queue_read_flushes net_flushes : effects.
Hint Extern 1 (PreOrder _) => apply flushes_preorder : effects.
Hint Extern 1 (effects _ (rt_modify _)) => apply modify_flushes; intros ?; reflexivity : effects.

(** Takes a computation apart into its steps. *)
Ltac effects :=
  repeat first
    [ progress (cbv beta zeta)
    | apply effects_bind; [apply _| |intros ?]
    | apply effects_try
    | apply effects_ret; apply _
    | apply effects_fail; apply _
    | apply effects_get; apply _
    | solve [eauto with effects]
    | match goal with
      | |- effects _ (if ?b then _ else _) => destruct b
      | |- effects _ (match ?o with _ => _ end) => destruct o
      end ].

Lemma attachLiveSignal_flushes authority fingerprint request :
  effects (flushes authority) (attachLiveSignal fingerprint request).
Proof using Laws.
  unfold attachLiveSignal. effects. apply queue_do_flushes. intros io q r q'. apply Reserve_effect.
Qed.

Lemma refreshReplayState_flushes authority request : effects (flushes authority) (refreshReplayState request).
Proof. unfold refreshReplayState. effects. Qed.

Lemma note_retry_after_flushes authority err : effects (flushes authority) (note_retry_after err).
Proof. unfold note_retry_after. effects. apply world_flushes, link_clock. Qed.

Hint Resolve attachLiveSignal_flushes refreshReplayState_flushes note_retry_after_flushes : effects.

Lemma transmitSyncRequest_flushes authority request : effects (flushes authority) (transmitSyncRequest request).
Proof. unfold transmitSyncRequest. effects. Qed.

Hint Resolve transmitSyncRequest_flushes : effects.

Lemma syncRequest_flushes authority entry current : effects (flushes authority) (syncRequest entry current).
Proof using Laws. unfold syncRequest. effects. Qed.

Hint Resolve syncRequest_flushes : effects.

Lemma applySyncPlan_flushes authority response : effects (flushes authority) (applySyncPlan response).
Proof.
  unfold applySyncPlan, run_pending. effects.
  - apply world_flushes. intros w. apply link_stop.
  - apply world_flushes, link_drain.
  - apply world_flushes. intros w. apply link_exec.
Qed.

Hint Resolve applySyncPlan_flushes : effects.
(** ** An acknowledgement *)

(** The center told a session to stop. *)
Definition stopped_by w (session : string) : Prop :=
  exists db batch, center_evolves db (center w) /\ ba_SessionID batch = session /\ collection_stopped db batch.

(** What an accepted answer to a request says of the center. *)
Definition acknowledged w (request : SyncRequest) (response : SyncResponse) : Prop :=
  (sr_BatchSequence request <> 0 -> rsp_Disposition response <> SyncDispositionDeferred ->
   (exists digest, CanonicalSyncBatchDigest request = Ok digest /\
      stored (center w) (sr_SessionID request) (sr_BatchSequence request) digest) \/
   rsp_StopCollection response = true) /\
  (rsp_StopCollection response = true -> stopped_by w (sr_SessionID request)).

Lemma stored_evolves db db' session n d :
  center_ok db -> center_evolves db db' -> stored db session n d -> stored db' session n d.
Proof. intros Hok He. apply stored_grows. by apply center_evolves_ok. Qed.

(** An answer that passes the checks of the agent is true, whatever happened between. *)
Lemma exchange_acknowledged request w response w' :
  center_ok (center w) -> exchange center request w (Answered response) w' ->
  validateSyncAcknowledgement request response = Ok tt -> acknowledged w' request response.
Proof.
  intros Hok (_ & Hx)%exchange_center Hval. destruct (Hx _ eq_refl) as (db1 & db2 & io & batch & r & He1 & Hh & Hr & He2 & Hs).
  unfold validateSyncAcknowledgement in Hval. apply result_bind_ok in Hval as ([] & H1%reject_ok & Hval).
  apply result_bind_ok in Hval as (digest & Hd & Hval). apply result_bind_ok in Hval as ([] & H2%reject_ok & H3%reject_ok).
  breflect. destruct (center_evolves_ok _ _ He1 Hok) as [Hok1 _].
  destruct (answer_center _ _ _ _ _ Hh Hok1 Hr) as ((I1 & I2 & I3 & I4) & A1 & A2 & A3).
  pose proof (applyBatch_center io batch db1 Hh Hok1) as [Hok2 _]. rewrite Hr in Hok2. cbn [snd] in Hok2.
  assert (ba_PayloadDigest batch = digest) as Edig
    by (apply (inj hex_EncodeToString); rewrite <- I4, <- (ss_digest _ _ Hs); done).
  assert (ba_SessionID batch = sr_SessionID request) as Eses by (rewrite <- I1, <- (ss_session _ _ Hs); done).
  assert (ba_BatchSequence batch = sr_BatchSequence request) as Eseq by (rewrite <- I3, <- (ss_sequence _ _ Hs); done).
  rewrite (ss_disposition _ _ Hs) in *. unfold acknowledged. rewrite (ss_disposition _ _ Hs), (ss_stop _ _ Hs).
  rewrite Edig, Eses, Eseq in A1. rewrite Eseq in A2. split.
  - intros Hseq Hdef. apply existsb_exists in H3 as (d & Hin & <-%String.eqb_eq). cbn in Hin.
    destruct Hin as [Hin|[Hin|[Hin|[Hin|[]]]]].
    + left. exists digest. split; [done|]. eapply stored_evolves; [exact Hok2|exact He2|]. apply A1. by left.
    + left. exists digest. split; [done|]. eapply stored_evolves; [exact Hok2|exact He2|]. apply A1. by right.
    + right. apply A2; [by rewrite <- Hin|done].
    + by rewrite <- Hin in Hdef.
  - intros Hstop. exists db1, batch. split_and!; [|done|by apply A3].
    etransitivity; [|exact He2]. change db2 with (Ok r, db2).2. rewrite <- Hr. apply rtc_once. by constructor.
Qed.

(** A request of the queue that was rejected as malformed. *)
Definition rejected w (request : SyncRequest) : Prop :=
  exists request' err, (request', Refused err) ∈ sent w /\ rm_StatusCode err = 400 /\
    digest_view request' = digest_view request.

Lemma discarded_400 err : pe_action (classifySyncFailure (Some err)) = syncQueueActionDiscard -> rm_StatusCode err = 400.
Proof.
  cbn. destruct (_ || _); [done|]. destruct (Z.eqb_spec (rm_StatusCode err) 400); [done|]. cbn [andb].
  destruct ((400 <=? _) && _); done.
Qed.
Lemma rt_bind_inv {A B} (m : rt A) (f : A -> rt B) s r s' :
  (m ≫= f) s = (r, s') ->
  (exists a s1, m s = (inl a, s1) /\ f a s1 = (r, s')) \/ (exists err, m s = (inr err, s') /\ r = inr err).
Proof.
  unfold mbind, rt_bind. destruct (m s) as [[a|err] s1] eqn:E; [left; eauto|]. intros [= <- <-]. right. eauto.
Qed.

(** A refreshed request is the batch of the queue under the present watermarks. *)
Lemma refreshReplayState_ok request s request' s1 :
  refreshReplayState request s = (inl request', s1) ->
  exists e, file_holds (rt_queue s1.1) e /\ en_SessionID e = sr_SessionID request /\
    sr_SessionID request' = sr_SessionID request /\ sr_BatchSequence request' = sr_BatchSequence request /\
    (0 < sr_BatchSequence request -> digest_view request' = digest_view request).
Proof.
  unfold refreshReplayState. intros [(state & s2 & Hq & H)|(err & _ & ?)]%rt_bind_inv; [|done].
  unfold queue_read in Hq. apply queue_do_spec in Hq as (io & ra & Hf & _ & Hr & _). injection Hf as Hf Eq.
  destruct ra as [state'|]; [|done]. injection Hr as ->.
  unfold queue_ReplayState in Hf. apply result_bind_ok in Hf as (e & Hl & Hf). apply load_holds in Hl.
  destruct (io_ctx_read io); [done|]. injection Hf as <-. cbn [rep_SessionID rep_ProducerID rep_AllocatedThrough
    rep_RetiredThrough] in H. destruct (_ || _) eqn:Eb; [done|]. injection H as <- <-. exists e. rewrite <- Eq.
  apply orb_false_iff in Eb as [Es Ep]. breflect. split_and!; try done.
  intros Hpos. apply digest_view_replay. rewrite (proj2 (Z.ltb_lt _ _) Hpos) in Ep. cbn [andb] in Ep. by breflect.
Qed.

Lemma CanonicalSyncBatchDigest_view request request' :
  digest_view request' = digest_view request -> CanonicalSyncBatchDigest request' = CanonicalSyncBatchDigest request.
Proof. unfold CanonicalSyncBatchDigest. by intros ->. Qed.

(** The session of the queue does not change while entries are flushed. *)
Lemma flushes_session authority s s' e :
  flushes authority s s' -> sane s -> file_holds (rt_queue s.1) e ->
  exists e', file_holds (rt_queue s'.1) e' /\ en_SessionID e' = en_SessionID e.
Proof.
  intros [Hp _] Hs He. destruct (pg_file _ _ _ Hp Hs e He) as (e' & He' & Hev). exists e'. split; [done|]. apply Hev.
Qed.

(** What the loop knows after it has sent a queued request. *)
Definition sent_outcome s (request : SyncRequest) (r : SyncResponse + rt_error) : Prop :=
  match r with
  | inl response =>
      acknowledged s.2 request response /\
      exists e, file_holds (rt_queue s.1) e /\ en_SessionID e = sr_SessionID request
  | inr err => forall policy, as_policy err = Some policy -> pe_action policy = syncQueueActionDiscard ->
      rejected s.2 request
  end.

Lemma acknowledged_view w request request' response :
  sr_SessionID request' = sr_SessionID request -> sr_BatchSequence request' = sr_BatchSequence request ->
  digest_view request' = digest_view request -> acknowledged w request' response -> acknowledged w request response.
Proof.
  intros E1 E2 E3. unfold acknowledged. by rewrite E1, E2, (CanonicalSyncBatchDigest_view _ _ E3).
Qed.

Lemma transmitSyncRequest_outcome (authority : syncAuthority) request s r s' :
  0 < sr_BatchSequence request -> sane s -> transmitSyncRequest request s = (r, s') -> sent_outcome s' request r.
Proof.
  intros Hpos Hs. unfold transmitSyncRequest. intros [(request' & s1 & Hr & H)|(err & Hr & ->)]%rt_bind_inv; cycle 1.
  { unfold refreshReplayState in Hr. apply rt_bind_inv in Hr as [(a & s2 & _ & Hr)|(err' & Hq & [= ->])].
    - destruct (_ || _); [|done]. unfold rt_fail in Hr. intros policy Hp. by simplify_eq/=.
    - apply queue_do_spec in Hq as (? & ra & _ & _ & E & _). destruct ra; [done|]. intros policy Hp. by simplify_eq/=. }
  pose proof (refreshReplayState_flushes authority _ _ _ _ Hr) as Hf1.
  destruct (refreshReplayState_ok _ _ _ _ Hr) as (e & He & Ee & E1 & E2 & E3). specialize (E3 Hpos).
  pose proof (sane_progress _ _ _ (fl_progress _ _ _ Hf1) Hs) as Hs1.
  apply rt_bind_inv in H as [(answer & s2 & Hn & H)|(err & Hn & _)];
    [|unfold rt_world in Hn; by destruct (net_Sync _ _)].
  pose proof (net_flushes authority _ _ _ _ Hn) as Hf2.
  destruct (flushes_session _ _ _ e Hf2 Hs1 He) as (e2 & He2 & Ee2). unfold rt_world in Hn.
  pose proof (link_net request' s1.2) as Hl. destruct (net_Sync request' s1.2) as [a w2]. injection Hn as -> <-.
  destruct Hl as (Hx & Hsent & _). cbn [fst snd] in *. destruct answer as [response|err|err].
  - destruct (validateSyncAcknowledgement request' response) as [[]|] eqn:Ev; injection H as <- <-.
    + split; [|exists e2; split; [done|congruence]]. cbn [snd]. eapply acknowledged_view; [exact E1|exact E2|exact E3|].
      eapply exchange_acknowledged; [apply Hs1|done|done].
    + intros policy [= <-]. done.
  - apply rt_bind_inv in H as [(u & s3 & Hnote & H)|(err' & Hnote & ->)].
    + injection H as <- <-. intros policy [= <-] Hd%discarded_400. exists request', err.
      split_and!; [|done|done]. apply (pg_sent _ _ _ (fl_progress _ _ _ (note_retry_after_flushes authority _ _ _ _ Hnote))).
      cbn [snd]. rewrite Hsent. apply elem_of_app. right. by apply list_elem_of_singleton.
    + exfalso. revert Hnote. unfold note_retry_after, rt_modify, rt_world, mbind, rt_bind, mret, rt_ret, rt_get.
      destruct (_ || _); [|done]. destruct (clock_now _). by destruct (Time_After _ _).
  - injection H as <- <-. intros policy [= <-]. done.
Qed.
Lemma sent_outcome_view s request request' r :
  sr_SessionID request' = sr_SessionID request -> sr_BatchSequence request' = sr_BatchSequence request ->
  digest_view request' = digest_view request -> sent_outcome s request' r -> sent_outcome s request r.
Proof.
  intros E1 E2 E3. destruct r as [response|err]; cbn.
  - intros [Ha (e & He & Ee)]. split; [by eapply acknowledged_view|]. exists e. split; [done|congruence].
  - intros H policy H1 H2. destruct (H policy H1 H2) as (request0 & err0 & ? & ? & ?).
    exists request0, err0. split_and!; [done|done|congruence].
Qed.

(** The current request carries its live signal or fails before it is sent. *)
Lemma attachLiveSignal_outcome fingerprint request s r s1 :
  attachLiveSignal fingerprint request s = (r, s1) ->
  match r with
  | inl request' => exists signal, request' = with_signal signal request
  | inr err => as_policy err = None
  end.
Proof.
  unfold attachLiveSignal. destruct (_ =s _); [by intros [= <- _]|].
  unfold rt_get, rt_modify, mbind, rt_bind. destruct (_ =? 0).
  - destruct (queue_do _ _ s) as [[block|err] s2] eqn:Eq; cbn; intros [= <- _]; [by eexists|].
    apply queue_do_spec in Eq as (? & ra & _ & _ & E & _). destruct ra; [done|]. by injection E as ->.
  - cbn. intros [= <- _]. by eexists.
Qed.

Lemma syncRequest_outcome (authority : syncAuthority) entry current s r s' :
  0 < entry_seq entry -> sane s -> syncRequest entry current s = (r, s') -> sent_outcome s' (qe_Request entry) r.
Proof using Laws.
  intros Hpos Hs. unfold syncRequest. destruct current; cbn [negb].
  - destruct (sr_Heartbeats (qe_Request entry)) as [|beat beats]; [by intros [= <- _]|].
    intros [(request' & s1 & Ha & H)|(err & Ha & ->)]%rt_bind_inv.
    + destruct (attachLiveSignal_outcome _ _ _ _ _ Ha) as [signal ->].
      pose proof (attachLiveSignal_flushes authority _ _ _ _ _ Ha) as Hf.
      eapply (sent_outcome_view _ _ (with_signal signal (qe_Request entry))); [done..|].
      eapply (transmitSyncRequest_outcome authority); [exact Hpos| |exact H].
      eapply sane_progress; [apply (fl_progress _ _ _ Hf)|done].
    + apply attachLiveSignal_outcome in Ha. intros policy Hp. congruence.
  - intros H. eapply (sent_outcome_view _ _ (WithBackfilledFacts (qe_Request entry) true)); [done|done| |].
    + apply digest_view_backfilled.
    + by eapply (transmitSyncRequest_outcome authority).
Qed.

(** ** An entry *)

(** The entry of the queue that goes by an identifier. *)
Definition known s (entry : Entry) : Prop :=
  forall e i, file_holds (rt_queue s.1) e -> i ∈ items e -> i.1 = qe_ID entry -> i = item_of entry.

Lemma known_flushes authority s s' entry :
  sane s -> (exists e, file_holds (rt_queue s.1) e) -> flushes authority s s' -> known s entry -> known s' entry.
Proof.
  intros Hs [e0 He0] [Hp Hsh] Hk e' i He' Hi. apply (Hk e0 i He0). by apply (Hsh Hs e0 e' He0 He').
Qed.

Lemma delete_flushes authority wrap ids s r s' :
  queue_do wrap (fun io => DeleteMany io ids) s = (r, s') ->
  (sane s -> forall e i, file_holds (rt_queue s.1) e -> i ∈ items e -> i.1 ∈ ids ->
     accounted (fs_opts (rt_queue s.1)) authority e s.2 i) ->
  flushes authority s s'.
Proof using Laws.
  intros (io & ra & H1 & _ & _ & H2 & _ & H3 & H4 & H5)%queue_do_spec Hacc.
  eapply op_flushes; [by eapply DeleteMany_effect|done|by rewrite H4|done|].
  intros Hs e i He Hi Hid. eapply (accounted_mono _ _ e e); [done|done|apply Hs|by rewrite H4|done|by apply Hacc].
Qed.

Lemma entry_failed_flushes authority entry err s r s' :
  known s entry -> (forall policy, as_policy err = Some policy -> pe_action policy = syncQueueActionDiscard ->
    rejected s.2 (qe_Request entry)) -> (exists e, file_holds (rt_queue s.1) e) -> sane s ->
  entry_failed entry err s = (r, s') -> flushes authority s s'.
Proof using Laws.
  intros Hk Hrej He Hs. unfold entry_failed. destruct (as_policy err) as [policy|] eqn:Ep; [|by intros [= _ <-]].
  assert (effects (flushes authority) (queue_do (QueueError "mark_attempt") (fun io => MarkAttempt io (qe_ID entry)))) as Hmark
    by (apply queue_do_flushes; intros *; apply MarkAttempt_effect).
  intros [(u & s1 & Hm & H)|(err' & Hm & _)]%rt_bind_inv; [|by eapply Hmark].
  pose proof (Hmark _ _ _ Hm) as Hf1. etransitivity; [exact Hf1|].
  destruct (pe_action policy =s syncQueueActionDiscard) eqn:Ea; cycle 1.
  { destruct (_ || _); by injection H as _ <-. }
  apply String.eqb_eq in Ea. destruct (Hrej policy eq_refl Ea) as (request & err0 & Hin & H400 & Hview).
  pose proof (known_flushes _ _ _ _ Hs He Hf1 Hk) as Hk1.
  assert (forall p, queue_do (QueueError "delete_rejected") (fun io => Delete io (qe_ID entry)) s1 = p -> flushes authority s1 p.2)
    as Hdel.
  { intros [r2 s2] Hd. cbn [snd]. eapply delete_flushes; [exact Hd|]. intros Hs1 e i Hf Hi Hid%list_elem_of_singleton.
    rewrite (Hk1 e i Hf Hi Hid). apply (acc_rejected _ _ _ _ _ request err0); [|done|done].
    by apply (pg_sent _ _ _ (fl_progress _ _ _ Hf1)). }
  apply rt_bind_inv in H as [(u' & s2 & Hd & H)|(err' & Hd & _)]; specialize (Hdel _ Hd); [|done].
  injection H as _ <-. done.
Qed.

(** The part of an acknowledgement that accounts for the entry itself. *)
Lemma acknowledged_accounted opts authority e w entry response :
  0 < entry_seq entry -> rsp_Disposition response <> SyncDispositionDeferred ->
  acknowledged w (qe_Request entry) response -> accounted opts authority e w (item_of entry).
Proof.
  intros Hpos Hdef [Ha1 Ha2]. destruct Ha1 as [(digest & Hd & Hst)|Hstop]; [unfold entry_seq in Hpos; lia|done|..].
  - by eapply acc_stored.
  - destruct (Ha2 Hstop) as (db & batch & ? & ? & ?). by eapply acc_stopped.
Qed.

Lemma file_item_session q e i : file_holds q e -> i ∈ items e -> sr_SessionID i.2 = en_SessionID e /\ 0 < sr_BatchSequence i.2.
Proof using Laws.
  intros He%file_holds_valid (x & -> & Hx)%list_elem_of_fmap. pose proof (ev_entries _ He) as Hok.
  rewrite Forall_forall in Hok. specialize (Hok x Hx). split; [apply Hok|]. destruct (eo_retired _ _ Hok).
  unfold entry_seq in *. cbn. lia.
Qed.

Lemma stopped_by_evolves w w' session :
  center_evolves (center w) (center w') -> stopped_by w session -> stopped_by w' session.
Proof. intros He (db & batch & H1 & H2 & H3). exists db, batch. split_and!; [by etransitivity|done|done]. Qed.

(** Once the center told the session to stop, the queue may be emptied. *)
Lemma drop_all_flushes authority session s r s' :
  stopped_by s.2 session -> (exists e, file_holds (rt_queue s.1) e /\ en_SessionID e = session) ->
  (entries ← queue_read OtherError queue_List;
   _ ← queue_do OtherError (fun io => DeleteMany io (qe_ID <$> entries));
   mret Acknowledged) s = (r, s') -> sane s -> flushes authority s s'.
Proof using Laws.
  intros Hst (e0 & He0 & Es) H Hs. apply rt_bind_inv in H as [(entries & s1 & Hl & H)|(err & Hl & _)];
    pose proof (queue_read_flushes authority _ _ _ _ _ Hl) as Hf1; [|done].
  etransitivity; [exact Hf1|]. pose proof (pg_center _ _ _ (fl_progress _ _ _ Hf1)) as Hc1.
  destruct (flushes_session _ _ _ _ Hf1 Hs He0) as (e1 & He1 & Es1).
  apply rt_bind_inv in H as [(u & s2 & Hd & H)|(err & Hd & _)].
  1: injection H as _ <-.
  all: eapply delete_flushes; [exact Hd|]; intros Hs1 e i He Hi _;
    destruct (stopped_by_evolves _ _ _ Hc1 Hst) as (db & batch & ? & Eb & ?); eapply acc_stopped; [done| |done];
    destruct (file_item_session _ _ _ He Hi) as [-> _]; rewrite (file_holds_unique _ _ _ He1 He) in *; congruence.
Qed.

Lemma entry_answered_flushes authority entry response s r s' :
  0 < entry_seq entry -> known s entry -> acknowledged s.2 (qe_Request entry) response ->
  (exists e, file_holds (rt_queue s.1) e /\ en_SessionID e = sr_SessionID (qe_Request entry)) -> sane s ->
  entry_answered entry response s = (r, s') -> flushes authority s s'.
Proof using Laws.
  intros Hpos Hk Hack Hfile Hs. unfold entry_answered. destruct (_ =s _) eqn:Edef; [by intros [= _ <-]|].
  apply String.eqb_neq in Edef.
  assert (forall p, queue_do (QueueError "delete_acknowledged") (fun io => Delete io (qe_ID entry)) s = p ->
    flushes authority s p.2) as Hdel.
  { intros [r2 s2] Hd. cbn [snd]. eapply delete_flushes; [exact Hd|]. intros _ e i Hf Hi Hid%list_elem_of_singleton.
    rewrite (Hk e i Hf Hi Hid). by eapply acknowledged_accounted. }
  intros [(u & s1 & Hd & H)|(err & Hd & _)]%rt_bind_inv; specialize (Hdel _ Hd); [|done]. cbn [snd] in Hdel.
  apply rt_bind_inv in H as [(u' & s2 & Hp & H)|(err & Hp & _)];
    pose proof (applySyncPlan_flushes authority _ _ _ _ Hp) as Hf2;
    pose proof (transitivity Hdel Hf2) as Hf12; [|done].
  etransitivity; [exact Hf12|]. destruct (rsp_StopCollection response) eqn:Estop; [|by injection H as _ <-].
  destruct Hfile as (e & He & Ee). destruct (flushes_session _ _ _ _ Hf12 Hs He) as (e2 & He2 & Ee2).
  eapply drop_all_flushes; [| |exact H|by eapply sane_progress; [apply (fl_progress _ _ _ Hf12)|]].
  - eapply stopped_by_evolves; [apply (pg_center _ _ _ (fl_progress _ _ _ Hf12))|]. by apply Hack.
  - exists e2. split; [done|congruence].
Qed.

Lemma flushSyncQueueEntry_flushes authority entry current s r s' :
  0 < entry_seq entry -> known s entry -> (exists e, file_holds (rt_queue s.1) e) -> sane s ->
  flushSyncQueueEntry entry current s = (r, s') -> flushes authority s s'.
Proof using Laws.
  intros Hpos Hk He Hs. unfold flushSyncQueueEntry.
  intros [(answer & s1 & Ht & H)|(err & Ht & _)]%rt_bind_inv; unfold rt_try in Ht;
    destruct (syncRequest entry current s) as [r1 s1'] eqn:Er; [|done]. injection Ht as -> ->.
  pose proof (syncRequest_flushes authority _ _ _ _ _ Er) as Hf1. etransitivity; [exact Hf1|].
  pose proof (sane_progress _ _ _ (fl_progress _ _ _ Hf1) Hs) as Hs1.
  pose proof (syncRequest_outcome authority _ _ _ _ _ Hpos Hs Er) as Hout.
  pose proof (known_flushes _ _ _ _ Hs He Hf1 Hk) as Hk1.
  destruct He as [e He]. destruct (pg_file _ _ _ (fl_progress _ _ _ Hf1) Hs e He) as (e1 & He1 & _).
  destruct answer as [response|err].
  - destruct Hout. by eapply entry_answered_flushes.
  - by eapply entry_failed_flushes; [..|exact H]; eauto.
Qed.
(** ** A round *)

Definition file_lists s (entries : list Entry) : Prop :=
  exists e, file_holds (rt_queue s.1) e /\ forall x, x ∈ entries -> x ∈ en_Entries e.

(** Entries that were listed are known, and their numbers are positive. *)
Lemma listed_known s entries entry :
  file_lists s entries -> entry ∈ entries -> known s entry /\ 0 < entry_seq entry.
Proof using Laws.
  intros (e & He & Hsub) Hx%Hsub. assert (item_of entry ∈ items e) as Hi by (by apply list_elem_of_fmap_2).
  split; [|apply (file_item_session _ _ _ He Hi)]. intros e' i He' Hi' Hid.
  rewrite (file_holds_unique _ _ _ He He') in Hi'. apply (envelope_items_unique e); [by eapply file_holds_valid|done..].
Qed.

Lemma queue_List_ok s entries s' :
  queue_read (QueueError "list") queue_List s = (inl entries, s') -> file_lists s' entries.
Proof.
  intros (io & ra & Hf & _ & Hr & _)%queue_do_spec. injection Hf as Hf Eq. destruct ra as [l|]; [|done].
  injection Hr as ->. unfold queue_List in Hf. apply result_bind_ok in Hf as (e & Hl%load_holds & Hf).
  destruct (io_ctx_read io); [done|]. injection Hf as <-. exists e. by rewrite <- Eq.
Qed.

(** Every listed entry was seen while the file was valid and keeps its meaning. *)
Definition all_known s (entries : list Entry) : Prop :=
  (exists e, file_holds (rt_queue s.1) e) /\ forall x, x ∈ entries -> known s x /\ 0 < entry_seq x.

Lemma all_known_flushes authority s s' entries :
  sane s -> flushes authority s s' -> all_known s entries -> all_known s' entries.
Proof.
  intros Hs Hf [[e He] Hk]. split.
  - destruct (pg_file _ _ _ (fl_progress _ _ _ Hf) Hs e He) as (e' & ? & _). by exists e'.
  - intros x Hx. destruct (Hk x Hx). split; [|done]. eapply known_flushes; [done|by exists e|done|done].
Qed.

Lemma file_lists_known s entries : file_lists s entries -> all_known s entries.
Proof using Laws.
  intros Hl. split; [destruct Hl as (e & He & _); by exists e|]. intros x Hx. by eapply listed_known.
Qed.

Lemma all_known_subset s entries entries' :
  (forall x, x ∈ entries' -> x ∈ entries) -> all_known s entries -> all_known s entries'.
Proof. intros Hsub [He Hk]. split; [done|]. auto. Qed.

Lemma flush_waiting authority r :
  effects (flushes authority)
    (if Time_IsZero (rt_backlogRetryNotBefore r) then mret false
     else now ← rt_world clock_now;
          if Time_Before now (rt_backlogRetryNotBefore r) then mret true else _ ← rt_modify (rt_with_retry 0); mret false).
Proof. effects. apply world_flushes, link_clock. Qed.

Lemma flush_backlog_flushes authority fuel backlog round s r s' :
  all_known s backlog -> sane s -> flush_backlog fuel backlog round s = (r, s') -> flushes authority s s'.
Proof using Laws.
  revert backlog round s. induction fuel as [|fuel IH]; intros backlog round s Hk Hs; cbn [flush_backlog];
    [by intros [= _ <-]|]. destruct backlog as [|entry backlog]; [by intros [= _ <-]|].
  intros [(r0 & s1 & [= <- <-] & H)|(? & ? & _)]%rt_bind_inv; [|done].
  apply rt_bind_inv in H as [(waiting & s2 & Hw & H)|(err & Hw & _)]; apply (flush_waiting authority) in Hw; [|done].
  etransitivity; [exact Hw|]. pose proof (sane_progress _ _ _ (fl_progress _ _ _ Hw) Hs) as Hs2.
  pose proof (all_known_flushes _ _ _ _ Hs Hw Hk) as Hk2. destruct waiting; [by injection H as _ <-|].
  destruct Hk2 as [He2 Hk2]. destruct (Hk2 entry (list_elem_of_here _ _)) as [Hke Hpos].
  apply rt_bind_inv in H as [(flushed & s3 & Ht & H)|(err & Ht & _)]; unfold rt_try in Ht;
    destruct (flushSyncQueueEntry entry false s2) as [r3 s3'] eqn:Ef; [|done]. injection Ht as -> ->.
  apply (flushSyncQueueEntry_flushes authority) in Ef; [|done..]. etransitivity; [exact Ef|].
  destruct flushed as [disposition|err].
  - apply rt_bind_inv in H as [(r4 & s4 & [= <- <-] & H)|(? & ? & _)]; [|done].
    destruct (rt_collectionStopped s3.1); [by injection H as _ <-|].
    eapply IH; [|by eapply sane_progress; [apply (fl_progress _ _ _ Ef)|]|exact H].
    eapply all_known_flushes; [exact Hs2|exact Ef|]. split; [done|]. intros x Hx. by apply Hk2, list_elem_of_further.
  - destruct (as_policy err) as [policy|]; [destruct (_ =s _)|]; by injection H as _ <-.
Qed.

Lemma discardStale_flushes authority entries s r s' :
  file_lists s entries -> discardStaleSyncQueueEntries entries authority s = (r, s') ->
  flushes authority s s' /\ forall retained x, r = inl retained -> x ∈ retained -> x ∈ entries.
Proof using Laws.
  intros Hl. unfold discardStaleSyncQueueEntries.
  set (retained := List.filter (fun x => negb (syncQueueAuthorityMismatch (qe_Request x) authority)) entries).
  set (stale := List.filter _ entries).
  assert (forall x, x ∈ retained -> x ∈ entries) as Hret
    by (intros x Hx; apply list_elem_of_In, List.filter_In in Hx as [Hx _]; by apply list_elem_of_In).
  assert (forall p, queue_do (QueueError "delete_stale") (fun io => DeleteMany io (qe_ID <$> stale)) s = p ->
    flushes authority s p.2) as Hdel.
  { intros [r1 s1] Hd. cbn [snd]. eapply delete_flushes; [exact Hd|].
    intros _ e i He Hi (x & Hid & Hx)%list_elem_of_fmap. apply list_elem_of_In, List.filter_In in Hx as [Hx Hm].
    apply list_elem_of_In in Hx. destruct (listed_known _ _ _ Hl Hx) as [Hk _]. rewrite (Hk e i He Hi Hid).
    apply acc_stale. apply andb_true_iff in Hm as [Hm _]. exact Hm. }
  destruct stale as [|y stale']; [intros [= <- <-]; split; [done|]; intros ? x [= <-]; apply Hret|].
  intros [(u & s1 & Hd & H)|(err & Hd & ->)]%rt_bind_inv; specialize (Hdel _ Hd); [|done].
  injection H as <- <-. split; [done|]. intros ? x [= <-]. apply Hret.
Qed.

Lemma flushSyncQueue_flushes authority currentEntryID s r s' :
  sane s -> flushSyncQueue currentEntryID authority s = (r, s') -> flushes authority s s'.
Proof using Laws.
  intros Hs. unfold flushSyncQueue. intros [(entries & s1 & Hl & H)|(err & Hl & _)]%rt_bind_inv;
    pose proof (queue_read_flushes authority _ _ _ _ _ Hl) as Hf1; [|done].
  etransitivity; [exact Hf1|]. apply queue_List_ok in Hl. pose proof (sane_progress _ _ _ (fl_progress _ _ _ Hf1) Hs) as Hs1.
  apply rt_bind_inv in H as [(retained & s2 & Hd & H)|(err & Hd & _)];
    destruct (discardStale_flushes _ _ _ _ _ Hl Hd) as [Hf2 Hret]; [|done].
  etransitivity; [exact Hf2|]. pose proof (sane_progress _ _ _ (fl_progress _ _ _ Hf2) Hs1) as Hs2.
  assert (all_known s2 retained) as Hk by (eapply all_known_flushes; [exact Hs1|exact Hf2|];
    eapply all_known_subset; [|by apply file_lists_known]; intros x; by apply Hret).
  assert (forall f x, x ∈ List.filter f retained -> x ∈ retained) as Hsub
    by (intros f x Hx; apply list_elem_of_In, List.filter_In in Hx as [Hx _]; by apply list_elem_of_In).
  destruct (List.filter (fun x => qe_ID x =s currentEntryID) retained) as [|current [|]] eqn:Ec;
    [by injection H as _ <-| |by injection H as _ <-].
  apply rt_bind_inv in H as [(ended & s3 & Hb & H)|(err & Hb & _)];
    apply (flush_backlog_flushes authority) in Hb as Hf3; [..|done]; try (by eapply all_known_subset; [apply Hsub|]); try done.
  etransitivity; [exact Hf3|]. pose proof (sane_progress _ _ _ (fl_progress _ _ _ Hf3) Hs2) as Hs3.
  pose proof (all_known_flushes _ _ _ _ Hs2 Hf3 Hk) as [He3 Hk3].
  destruct ended as [round retry|]; [|by injection H as _ <-].
  destruct (Hk3 current) as [Hkc Hpos]; [eapply Hsub; rewrite Ec; apply list_elem_of_here|].
  apply rt_bind_inv in H as [(d & s4 & Hc & H)|(err & Hc & _)]; apply (flushSyncQueueEntry_flushes authority) in Hc; try done.
  destruct retry; by injection H as _ <-.
Qed.
(** ** A round with its new batch *)

Lemma over_limits_accounted opts authority e e' w io i :
  io ∈ met w -> evolves e e' -> over_limits opts (io_now_prune io) e' i -> accounted opts authority e w i.
Proof. intros Hio Hev (l & H1 & H2 & H3). by eapply acc_pruned. Qed.

Lemma Prune_flushes authority s r s' :
  sane s -> queue_do (QueueError "prune") (fun io => Prune io) s = (r, s') -> flushes authority s s'.
Proof using Laws.
  intros Hs (io & ra & H1 & _ & _ & H2 & _ & H3 & H4 & H5)%queue_do_spec.
  eapply op_flushes; [eapply Prune_effect; [apply Hs|exact H1]|done|by rewrite H4|done|].
  intros _ e i _ _ Hi. by eapply over_limits_accounted.
Qed.

(** The batch of the round as the queue that holds [e] takes it. *)
Definition new_item (request : SyncRequest) e : item :=
  (batch_identity (en_ProducerID e) (en_LastAllocatedBatchSeq e + 1), queued_request e request).

Lemma Enqueue_progress authority request s r s' e :
  sane s -> (forall e, request_clean (queued_request e request)) -> file_holds (rt_queue s.1) e ->
  queue_do (QueueError "enqueue") (fun io => Enqueue io request) s = (r, s') ->
  progress authority s s' /\ forall id, r = inl id -> queued (rt_queue s'.1) (new_item request e).
Proof using Laws.
  intros Hs Hclean He (io & ra & H1 & _ & Hr & H2 & Hnow & H3 & H4 & H5)%queue_do_spec.
  apply Enqueue_outcome in H1; [|apply Hs|done|done].
  destruct H1 as [[Eq [err ->]]|(e0 & k & Hl & Hses & _ & Hk & _ & Hout & _ & _ & Hcom)].
  { split; [|by subst r]. eapply fl_progress, frame_flushes; [done|done|by rewrite H4|done]. }
  pose proof (load_wf _ _ _ Hl) as [Hv _]. apply load_holds in Hl. pose proof (file_holds_unique _ _ _ He Hl) as ->.
  destruct Hcom as (Hf & Ho & _). set (e1 := (appended (io_now io) request e).2) in *.
  pose proof (appended_pre (io_now io) request e Hv Hnow Hses) as Hp1. fold e1 in Hp1.
  destruct (keeping_fields _ _ Hp1 (sublist_drop (en_Entries e1) k)) as (_ & _ & _ & _ & E5 & _).
  pose proof (appended_evolves (io_now io) request e) as Hev1. fold e1 in Hev1.
  pose proof (keeping_evolves _ _ Hp1 (sublist_drop (en_Entries e1) k)) as Hev2.
  assert (items (keeping e1 (drop k (en_Entries e1))) = item_of <$> drop k (en_Entries e1)) as Ei
    by (unfold items; by rewrite E5).
  assert (items e1 = items e ++ [new_item request e]) as Enew by (unfold items; cbn; by rewrite fmap_app).
  split.
  - split; [done|done|by rewrite H4|done| |].
    + intros _ e' He'. pose proof (file_holds_unique _ _ _ He He') as ->. eexists. split; [exact Hf|]. by etransitivity.
    + intros _ e' i He' Hi. pose proof (file_holds_unique _ _ _ He He') as ->.
      destruct (dropped_over_limits _ (io_now_prune io) e1 k i Hout) as [Hi'|Hov].
      * rewrite Enew. apply elem_of_app. by left.
      * left. eexists. split; [exact Hf|]. by rewrite Ei.
      * right. by eapply over_limits_accounted.
  - intros id _. eexists. split; [exact Hf|]. rewrite Ei. apply list_elem_of_fmap.
    exists (appended (io_now io) request e).1. split; [done|]. apply list_elem_of_lookup.
    exists (length (en_Entries e) - k)%nat. rewrite lookup_drop.
    replace (k + (length (en_Entries e) - k))%nat with (length (en_Entries e)) by lia.
    unfold e1, appended. cbn [snd en_Entries en_with_entries en_with_allocated fst].
    rewrite lookup_app_r by lia. by rewrite Nat.sub_diag.
Qed.

Lemma enqueueAndFlush_progress authority request s r s' e :
  sane s -> (forall e, request_clean (queued_request e request)) -> file_holds (rt_queue s.1) e ->
  enqueueAndFlush request authority s = (r, s') ->
  progress authority s s' /\
  ((exists err, r = inr (QueueError "enqueue" err)) \/
   queued (rt_queue s'.1) (new_item request e) \/
   accounted (fs_opts (rt_queue s.1)) authority e s'.2 (new_item request e)).
Proof using Laws.
  intros Hs Hclean He. unfold enqueueAndFlush.
  intros [(id & s1 & Hq & H)|(err & Hq & ->)]%rt_bind_inv;
    destruct (Enqueue_progress authority _ _ _ _ _ Hs Hclean He Hq) as [Hp1 Hnew]; cycle 1.
  { split; [done|]. left. apply queue_do_spec in Hq as (? & [|err0] & _ & _ & E & _); [done|]. injection E as ->. eauto. }
  pose proof (sane_progress _ _ _ Hp1 Hs) as Hs1. specialize (Hnew id eq_refl).
  assert (flushes authority s1 s') as Hf.
  { apply rt_bind_inv in H as [(u & s2 & Hm & H)|(? & ? & _)]; [|done].
    assert (flushes authority s1 s2) as Hf2 by (by eapply modify_flushes; [|exact Hm]).
    etransitivity; [exact Hf2|]. pose proof (sane_progress _ _ _ (fl_progress _ _ _ Hf2) Hs1) as Hs2.
    apply rt_bind_inv in H as [(u' & s3 & Hpr & H)|(? & Hpr & _)]; apply (Prune_flushes authority) in Hpr; [|done..].
    etransitivity; [exact Hpr|]. pose proof (sane_progress _ _ _ (fl_progress _ _ _ Hpr) Hs2) as Hs3.
    apply rt_bind_inv in H as [(flushed & s4 & Ht & H)|(? & Ht & _)]; unfold rt_try in Ht;
      destruct (flushSyncQueue id authority s3) as [r4 s4'] eqn:Ef; [|done]. injection Ht as -> ->.
    apply flushSyncQueue_flushes in Ef; [|done]. destruct flushed; by injection H as _ <-. }
  split; [etransitivity; [exact Hp1|apply Hf]|right].
  destruct (pg_file _ _ _ Hp1 Hs e He) as (e1 & He1 & Hev). destruct Hnew as (e1' & He1' & Hi).
  rewrite (file_holds_unique _ _ _ He1 He1') in Hi.
  destruct (pg_kept _ _ _ (fl_progress _ _ _ Hf) Hs1 e1 _ He1 Hi) as [|Hacc]; [by left|right].
  rewrite (pg_opts _ _ _ Hp1) in Hacc. eapply (accounted_mono _ _ e e1 s'.2 s'.2); try done.
  eapply center_evolves_ok; [apply (pg_center _ _ _ (fl_progress _ _ _ Hf))|apply Hs1].
Qed.
(** * Runs *)

Definition round (authority : syncAuthority) s s' : Prop :=
  exists request r, (forall e, request_clean (queued_request e request)) /\
    enqueueAndFlush request authority s = (r, s').



(** A round either reports that the queue refused its request, or
    at its end the batch made of it is queued under the next number or accounted for in
    the same way. *)
Theorem round_takes_request authority request s r s' e
    (Hopts : 0 < op_MaxEntries (fs_opts (rt_queue s.1))) (Hcenter : center_ok (center s.2))
    (Hclean : forall e, request_clean (queued_request e request)) (He : file_holds (rt_queue s.1) e)
    (Hround : enqueueAndFlush request authority s = (r, s')) :
  (exists err, r = inr (QueueError "enqueue" err)) \/
  queued (rt_queue s'.1) (new_item request e) \/
  accounted (fs_opts (rt_queue s.1)) authority e s'.2 (new_item request e).
Proof using Laws.
  assert (sane s) as Hs by done. apply (enqueueAndFlush_progress authority _ _ _ _ _ Hs Hclean He Hround).
Qed.

(** * Requests of a round *)

(** A step that sends nothing. *)
Definition silent s s' : Prop := sent s'.2 = sent s.2.

#[local] Instance silent_preorder : PreOrder silent.
Proof. split; [done|]. intros ???. unfold silent. congruence. Qed.

Definition sends {A} (n : nat) (m : rt A) : Prop :=
  effects (fun s s' => (length (sent s'.2) <= length (sent s.2) + n)%nat) m.

Lemma silent_sends {A} (m : rt A) : effects silent m -> sends 0 m.
Proof. intros H s r s' E. rewrite (H _ _ _ E). lia. Qed.

Lemma sends_mono {A} n n' (m : rt A) : (n <= n')%nat -> sends n m -> sends n' m.
Proof. intros Hn H s r s' E. specialize (H _ _ _ E). cbn in *. lia. Qed.

Lemma sends_bind {A B} n k (m : rt A) (f : A -> rt B) :
  sends n m -> (forall a, sends k (f a)) -> sends (n + k) (m ≫= f).
Proof.
  intros Hm Hf s r s' [(a & s1 & H1 & H2)|(err & H1 & _)]%rt_bind_inv; apply Hm in H1; [apply Hf in H2|]; lia.
Qed.

Lemma sends_try {A} n (m : rt A) : sends n m -> sends n (rt_try m).
Proof. intros Hm s r s'. unfold rt_try. destruct (m s) as [a s1] eqn:E. intros [= _ <-]. by eapply Hm. Qed.

Lemma queue_do_silent {A} wrap (f : op_io -> FileStore -> result A * FileStore) :
  effects silent (queue_do wrap f).
Proof. intros s r s' (? & ? & _ & _ & _ & _ & _ & _ & H & _)%queue_do_spec. done. Qed.

Lemma modify_silent f : effects silent (rt_modify f).
Proof. by intros s r s' [= _ <-]. Qed.

Lemma world_silent {A} (f : W -> A * W) : (forall w, quiet w (f w).2) -> effects silent (rt_world f).
Proof.
  intros Hf s r s'. unfold rt_world. specialize (Hf s.2). destruct (f s.2) as [a w]. intros [= _ <-]. apply Hf.
Qed.

Hint Resolve queue_do_silent modify_silent : effects.
Hint Extern 1 (effects _ (queue_read _ _)) => apply queue_do_silent : effects.
Hint Extern 1 (effects _ (rt_world _)) => apply world_silent; intros ?;
  first [apply link_clock | apply link_exec | apply link_stop | apply link_drain] : effects.

Lemma refresh_silent request : effects silent (refreshReplayState request).
Proof. unfold refreshReplayState. effects. Qed.

Lemma transmit_sends request : sends 1 (transmitSyncRequest request).
Proof.
  unfold transmitSyncRequest. apply (sends_bind 0 1); [apply silent_sends, refresh_silent|]. intros request'.
  apply (sends_bind 1 0).
  - intros s r s'. unfold rt_world. pose proof (link_net request' s.2) as H. destruct (net_Sync _ _) as [a w].
    intros [= _ <-]. destruct H as (_ & E & _). cbn. rewrite E, length_app. done.
  - intros answer. apply silent_sends. unfold note_retry_after. effects.
Qed.

Lemma flushSyncQueueEntry_sends entry current : sends 1 (flushSyncQueueEntry entry current).
Proof.
  unfold flushSyncQueueEntry. apply (sends_bind 1 0).
  - apply sends_try. unfold syncRequest. destruct (negb current); [apply transmit_sends|].
    destruct (sr_Heartbeats _); [apply (sends_mono 0); [lia|]; apply silent_sends; effects|].
    apply (sends_bind 0 1); [|intros; apply transmit_sends]. apply silent_sends. unfold attachLiveSignal. effects.
  - intros [response|err]; apply silent_sends; unfold entry_answered, entry_failed, applySyncPlan, run_pending; effects.
Qed.

Lemma flush_backlog_sends fuel backlog round0 : sends fuel (flush_backlog fuel backlog round0).
Proof.
  revert backlog round0. induction fuel as [|fuel IH]; intros backlog round0; cbn [flush_backlog];
    [apply silent_sends; effects|]. destruct backlog as [|entry backlog].
  { apply (sends_mono 0); [lia|]. apply silent_sends. effects. }
  apply (sends_bind 0 (S fuel)); [apply silent_sends; effects|]. intros r.
  apply (sends_bind 0 (S fuel)); [apply silent_sends; effects|]. intros [].
  { apply (sends_mono 0); [lia|]. apply silent_sends. effects. }
  apply (sends_bind 1 fuel); [apply sends_try, flushSyncQueueEntry_sends|]. intros [disposition|err].
  - apply (sends_bind 0 fuel); [apply silent_sends; effects|]. intros r'. destruct (rt_collectionStopped r'); [|apply IH].
    apply (sends_mono 0); [lia|]. apply silent_sends. effects.
  - apply (sends_mono 0); [lia|]. apply silent_sends. effects.
Qed.

(** However long the backlog is, a round sends at most three
    requests: two of the backlog and the one of the round. *)
Theorem round_sends_bounded request authority s r s' (Hround : enqueueAndFlush request authority s = (r, s')) :
  (length (sent s'.2) <= length (sent s.2) + 3)%nat.
Proof.
  revert s r s' Hround. change (sends 3 (enqueueAndFlush request authority)). unfold enqueueAndFlush.
  apply (sends_bind 0 3); [apply silent_sends; effects|]. intros id.
  apply (sends_bind 0 3); [apply silent_sends; effects|]. intros _.
  apply (sends_bind 0 3); [apply silent_sends; effects|]. intros _.
  apply (sends_bind 3 0); [|intros [|]; apply silent_sends; effects]. apply sends_try. unfold flushSyncQueue.
  apply (sends_bind 0 3); [apply silent_sends; effects|]. intros entries.
  apply (sends_bind 0 3); [apply silent_sends; unfold discardStaleSyncQueueEntries; effects|]. intros retained. cbv zeta.
  destruct (List.filter _ retained) as [|current [|]];
    try (apply (sends_mono 0); [lia|]; apply silent_sends; by effects).
  apply (sends_bind 2 1); [apply flush_backlog_sends|]. intros [round0 retry|].
  - apply (sends_bind 1 0); [apply flushSyncQueueEntry_sends|]. intros _. apply silent_sends. effects.
  - apply (sends_mono 0); [lia|]. apply silent_sends. effects.
Qed.
End Delivery.
