(* ===== verification/DeliveryExamples.v ===== *)
(** An agent, a network that loses its first answer and a center, all concrete: the
    batch of the first round is recorded but stays queued, the second round learns that
    it is an exact duplicate and removes it.  The theorems of SyncHandlerProps and
    Delivery are applied to this run. *)
From stdpp Require Import base list sorting strings gmap.
From Stdlib Require Import ZArith Lia Ascii.
From S2P Require Import Prelude GoRuntime Json AgentApi IncidentTypes Settings Wire AgentPlan ObservationStore.
From S2P Require Import SyncQueue SyncQueueProps SyncQueueExamples SyncWire SyncProtocol SyncStore SyncStoreProps.
From S2P Require Import SyncStoreExamples AgentRuntime RateLimit SyncHandler SyncHandlerProps LiveSignals.
From S2P Require Import CenterLink Delivery.

Local Open Scope Z_scope.

(** * A codec for requests that carry heartbeats *)

Definition beat_json (h : MonitoringInstanceHeartbeat) : json :=
  JArr [date_text (hbp_ObservedAt h); JStr (hbp_AgentVersion h); JStr (hbp_Fingerprint h); JStr (hbp_SyncBatchID h);
        JBool (hbp_IsBackfilled h)].

Definition json_beat (j : json) : option MonitoringInstanceHeartbeat :=
  match j with
  | JArr [date; JStr version; JStr fingerprint; JStr batch; JBool backfilled] =>
      at_ ← text_date date;
      Some {| hbp_ObservedAt := at_; hbp_AgentVersion := version; hbp_Fingerprint := fingerprint;
              hbp_SyncBatchID := batch; hbp_IsBackfilled := backfilled |}
  | _ => None
  end.

Definition with_beats (beats : list MonitoringInstanceHeartbeat) (r : SyncRequest) : SyncRequest :=
  with_facts r beats (sr_HostSamples r) (sr_ProbeObservations r) (sr_IPQualityReports r).

#[local] Instance demo_codec : QueueCodec := {
  uuid_Parse s := if (String.length s =? 36)%nat then Some s else None;
  time_json t := Some (date_text t);
  json_time := text_date;
  request_json r :=
    match sr_LiveSignal r, sr_HostSamples r, sr_ProbeObservations r, sr_IPQualityReports r, sr_CommandResults r with
    | None, [], [], [], [] => Some (JArr [control_json r; JArr (beat_json <$> sr_Heartbeats r)])
    | _, _, _, _, _ => None
    end;
  json_request _ j :=
    match j with
    | JArr [JObj [(_, JInt revision); (_, JStr producer); (_, JInt sequence); (_, JInt allocated);
            (_, JInt retired); (_, JStr session); (_, JStr instance); (_, JStr token)]; JArr beats] =>
        beats ← mapM json_beat beats;
        Some (with_beats beats (control_request revision producer sequence allocated retired session instance token))
    | _ => None
    end;
}.

Lemma date_roundtrip t : text_date (date_text t) = Some t.
Proof. destruct t; cbn; by rewrite ?bits_roundtrip. Qed.

Lemma beat_roundtrip h : json_beat (beat_json h) = Some h.
Proof. destruct h. unfold beat_json, json_beat. cbn -[date_text text_date]. by rewrite date_roundtrip. Qed.

Lemma beats_roundtrip l : mapM json_beat (beat_json <$> l) = Some l.
Proof. apply mapM_fmap_Some. apply beat_roundtrip. Qed.

Lemma demo_clean r : request_clean r.
Proof.
  intros j H. cbn in H. repeat case_match; simplify_eq. cbn. rewrite andb_true_r.
  induction (sr_Heartbeats r) as [|h l IH]; [done|]. cbn. exact IH.
Qed.

#[local] Instance demo_laws : QueueCodecLaws.
Proof.
  split.
  - intros t j [= <-]. split; [apply date_roundtrip|by eexists].
  - intros r j H. destruct r. cbn in H. repeat case_match; simplify_eq/=. by rewrite beats_roundtrip.
  - intros. apply demo_clean.
Qed.

(** * The world *)

#[local] Existing Instance sample_env.

#[local] Instance demo_digest : SyncDigest := {
  canonical_sha256 r := Ok (identity_of (sr_ProducerID r) (sr_BatchSequence r)) }.

#[local] Instance demo_handler : HandlerEnv unit := {
  raw_len := fun _ => 0; ValidateIPQualityProduct := fun _ => true; report_body := fun _ => tt }.

Record demo_world := {
  dw_center : @sync_db unit;
  dw_endpoint : endpoint;
  dw_sent : list (SyncRequest * sync_answer);
  dw_met : list op_io;
}.

Definition dw_with_center (db : @sync_db unit) (w : demo_world) : demo_world := {|
  dw_center := db; dw_endpoint := dw_endpoint w; dw_sent := dw_sent w; dw_met := dw_met w |}.

Definition demo_deps : service_deps (body := unit) (W := demo_world) := {|
  sd_ApplyBatch := fun batch w =>
    let '(r, db) := applyBatch (sample_io Committed) batch (dw_center w) in (r, dw_with_center db w);
  sd_AfterSuccessfulSync := None; sd_ObserveReports := fun _ _ w => w;
  sd_PendingRequest := fun _ _ w => ({| cr_RequestID := ""; cr_RequestedIPVersions := [] |}, w);
  sd_has_collect := false |}.

(** The center serves every request; the answer to the first one is lost. *)
Definition demo_Sync (request : SyncRequest) (w : demo_world) : sync_answer * demo_world :=
  let '(answer, _, e, w') := AgentSync demo_deps fixture_time (client_request Some "198.51.100.7" request)
                               (dw_endpoint w) w in
  let answer := match dw_sent w with
                | [] => Unreachable (ErrNew "connection reset")
                | _ => client_answer (fun _ => None) fixture_time answer
                end in
  (answer, {| dw_center := dw_center w'; dw_endpoint := e; dw_sent := dw_sent w ++ [(request, answer)];
              dw_met := dw_met w |}).

#[local] Instance demo_agent_world : AgentWorld demo_world := {
  next_io w := (fixture_op fixture_time fixture_write,
                {| dw_center := dw_center w; dw_endpoint := dw_endpoint w; dw_sent := dw_sent w;
                   dw_met := dw_met w ++ [fixture_op fixture_time fixture_write] |});
  net_Sync := demo_Sync;
  clock_now w := (fixture_time, w);
  host_Collect := None;
  containers_Collect w := ([], w);
  probe_CollectDue := None;
  ip_DrainReports w := ([], w);
  ip_MaybeStart _ _ w := w;
  ip_Stop w := w;
  exec_Run bin args w := (("up 3 days", "", 0), w);
  agentVersion := "1";
}.

Lemma demo_serves : serves dw_center demo_deps.
Proof.
  split; try done. intros batch w. exists (sample_io Committed). cbn.
  destruct (applyBatch (sample_io Committed) batch (dw_center w)) as [r db]. done.
Qed.

#[local] Instance demo_link : CenterLink unit demo_world.
Proof.
  refine {| center := dw_center; sent := dw_sent; met := dw_met |}.
  - intros request w. unfold net_Sync. cbn [demo_agent_world]. unfold demo_Sync.
    destruct (AgentSync demo_deps fixture_time _ (dw_endpoint w) w) as [[[answer failure] e'] w'] eqn:E.
    split; [|done]. destruct (dw_sent w).
    + apply exchange_lost. cbn. by eapply AgentSync_center; [apply demo_serves|exact E].
    + eapply exchange_served; [apply demo_serves|reflexivity|exact E|reflexivity].
  - intros w. cbn. split_and!; try done; try reflexivity.
  - intros w. split; [reflexivity|done].
  - intros bin args w. split; [reflexivity|done].
  - intros w. split; [reflexivity|done].
  - intros w. split; [reflexivity|done].
Defined.

(** * The run *)

Definition demo_request : SyncRequest :=
  with_beats [{| hbp_ObservedAt := fixture_time; hbp_AgentVersion := "1"; hbp_Fingerprint := "fp"; hbp_SyncBatchID := "";
                 hbp_IsBackfilled := false |}]
    (control_request 0 "" 0 0 0 "s1" "mi1" "token").

Definition demo_authority : syncAuthority := {|
  sa_monitoringInstanceID := "mi1"; sa_syncToken := "token"; sa_fingerprint := "fp" |}.

Definition demo_start : Runtime * demo_world :=
  ({| rt_queue := (OpenSession (fixture_op fixture_time fixture_write) "s1" fixture_closed).2; rt_currentPlan := None;
      rt_collectionStopped := false; rt_lastHostSampleAt := 0; rt_pendingResults := []; rt_pendingIPReports := [];
      rt_backlogRetryNotBefore := 0; rt_nextLiveSequence := 0; rt_lastLiveSequence := 0 |},
   {| dw_center := sample_db;
      dw_endpoint := {| ep_limiter := newAgentRequestLimiter defaultAgentRateLimitOptions; ep_inflight := 0; ep_max := 4 |};
      dw_sent := []; dw_met := [] |}).

Definition demo_round (s : Runtime * demo_world) : Runtime * demo_world :=
  (enqueueAndFlush demo_request demo_authority s).2.

Definition demo_one := demo_round demo_start.
Definition demo_two := demo_round demo_one.

(** The numbers queued, the inbox of the center and the requests sent. *)
Definition demo_view (s : Runtime * demo_world) : list Z * list Z * nat :=
  (match readEnvelope (rt_queue s.1) with Ok e => entry_seq <$> en_Entries e | Err _ => [] end,
   receipt_numbers (dw_center s.2) "s1", length (dw_sent s.2)).

Example demo_run : (demo_view demo_one, demo_view demo_two) = (([1], [1], 1%nat), ([], [2], 3%nat)).
Proof. vm_compute. reflexivity. Qed.

Lemma demo_center_ok : center_ok (center demo_start.2).
Proof. split; [apply sample_wf|]. intros s n d. cbn. by rewrite lookup_empty. Qed.

Lemma demo_holds (s : Runtime * demo_world) e : readEnvelope (rt_queue s.1) = Ok e -> file_holds (rt_queue s.1) e.
Proof. apply readEnvelope_holds. Qed.

(** The queue at the beginning and after the first round. *)
Definition demo_envelope (s : Runtime * demo_world) : envelope :=
  match readEnvelope (rt_queue s.1) with Ok e => e | Err _ => zero_envelope end.


Lemma demo_start_holds : file_holds (rt_queue demo_start.1) (demo_envelope demo_start).
Proof. apply demo_holds. vm_compute. reflexivity. Qed.





Lemma round_takes_request_witness :
  queued (rt_queue demo_one.1) (new_item demo_request (demo_envelope demo_start)) \/
  accounted (fs_opts (rt_queue demo_start.1)) demo_authority (demo_envelope demo_start) demo_one.2
    (new_item demo_request (demo_envelope demo_start)).
Proof.
  destruct (round_takes_request demo_authority demo_request demo_start
    (enqueueAndFlush demo_request demo_authority demo_start).1 demo_one (demo_envelope demo_start)) as [[err E]|H].
  - reflexivity.
  - apply demo_center_ok.
  - intros e. apply demo_clean.
  - apply demo_start_holds.
  - apply surjective_pairing.
  - vm_compute in E. discriminate E.
  - exact H.
Defined.

Lemma round_sends_bounded_witness : (length (sent demo_two.2) <= length (sent demo_one.2) + 3)%nat.
Proof.
  apply (round_sends_bounded demo_request demo_authority demo_one
    (enqueueAndFlush demo_request demo_authority demo_one).1 demo_two). apply surjective_pairing.
Defined.

(** The request of the first round as it was sent. *)
Definition demo_sent : SyncRequest := with_signal {| ls_Sequence := 1; ls_Fingerprint := "fp" |}
  (with_replay fixture_producer 1 0 None (queued_request (demo_envelope demo_start) demo_request)).

Lemma valid_request_is_valid_batch_witness :
  ValidateBatchProtocol sync_uuid_Parse (syncBatchFromRequest (body := unit) demo_sent "digest" 0) = Ok tt.
Proof.
  pose proof (valid_request_is_valid_batch demo_sent "digest" 0) as H. rewrite H; vm_compute; reflexivity.
Defined.

(** Two signals with a restart of the loop between them. *)
Definition demo_signal (s : Runtime * demo_world) := attachLiveSignal "fp" demo_request s.

Definition demo_restarted (s : Runtime * demo_world) : Runtime * demo_world := (rt_with_live 0 0 s.1, s.2).

Lemma live_signals_increase_witness :
  match (demo_signal demo_start).1, (demo_signal (demo_restarted (demo_signal demo_start).2)).1 with
  | inl r1, inl r2 => exists a b, sr_LiveSignal r1 = Some a /\ sr_LiveSignal r2 = Some b /\
      0 < ls_Sequence a < ls_Sequence b
  | _, _ => False
  end.
Proof.
  assert (match (demo_signal demo_start).1, (demo_signal (demo_restarted (demo_signal demo_start).2)).1 with
          | inl _, inl _ => True | _, _ => False end) as Hok by (vm_compute; exact I).
  destruct (demo_signal demo_start) as [[r1|] s1] eqn:E1; [|exact Hok]. cbn [fst snd] in *.
  destruct (demo_signal (demo_restarted s1)) as [[r2|] s3] eqn:E2; [|exact Hok]. cbn [fst] in *.
  apply (live_signals_increase "fp" "fp" demo_request demo_request demo_start r1 s1 (demo_restarted s1) r2 s3).
  - exists (demo_envelope demo_start). split; [apply demo_start_holds|left; reflexivity].
  - exact E1.
  - split; [|left; reflexivity]. intros e He. exists e. split; [exact He|reflexivity].
  - exact E2.
Defined.
