(* ===== verification/CaseMaps.v ===== *)
(** Trimming and case mapping settle together: what [strings.TrimSpace] followed by
    [strings.ToLower] or [strings.ToUpper] answers is left alone by either of them. *)
From stdpp Require Import base list strings.
From Stdlib Require Import ZArith Lia.
From S2P Require Import Prelude GoRuntime.

Local Open Scope nat_scope.
#[local] Set Warnings "-clear-no-such-hyp".

(** * A case map on bytes *)

(** [f] reads one rune after the other: it writes the image of a byte, or a letter of the target
    case in place of a longer rune.  [moved] are the letters of the target case. *)
Section CaseMap.
Context (f : list Ascii.ascii -> list Ascii.ascii) (g : Ascii.ascii -> Ascii.ascii) (moved : Ascii.ascii -> Prop).
Hypothesis f_nil : f [] = [].
Hypothesis f_cons : forall a l1, exists c l' q,
  f (a :: l1) = c :: f l' /\ a :: l1 = q ++ l' /\ length l' <= length l1
  /\ ((c = g a /\ l' = l1) \/ moved c).
Hypothesis g_fixed : forall a, g a = a \/ moved (g a).

Lemma f_fixed_head l c o : f l = c :: o -> ~ moved c -> exists l1, l = c :: l1 /\ f l1 = o.
Proof.
  intros Hf Hc. destruct l as [|a l1]; [by rewrite f_nil in Hf|].
  destruct (f_cons a l1) as (c' & l' & q & E & _ & _ & [[-> ->]|Hm]); rewrite E in Hf; injection Hf as <- <-; [|done].
  destruct (g_fixed a) as [Hg|]; [|done]. exists l1. by rewrite Hg.
Qed.

(** Bytes that are no letter of the target case were there before. *)
Lemma f_fixed_prefix l s o : f l = s ++ o -> Forall (fun a => ~ moved a) s -> exists p, l = s ++ p.
Proof.
  intros Hf Hs. revert l Hf. induction Hs as [|c s Hc _ IH]; intros l Hf; [by exists l|].
  destruct (f_fixed_head l c (s ++ o) Hf Hc) as (l1 & -> & H1). destruct (IH l1 H1) as [p ->]. by exists p.
Qed.

Lemma f_fixed l s : f l = s -> Forall (fun a => ~ moved a) s -> l = s.
Proof.
  intros Hf Hs. revert l Hf. induction Hs as [|c s Hc _ IH]; intros l Hf.
  - destruct l as [|a l1]; [done|]. destruct (f_cons a l1) as (? & ? & ? & E & _). by rewrite E in Hf.
  - destruct (f_fixed_head l c s Hf Hc) as (l1 & -> & H1). by rewrite (IH l1 H1).
Qed.

Lemma f_fixed_suffix l s o : f l = o ++ s -> Forall (fun a => ~ moved a) s -> exists p, l = p ++ s.
Proof.
  revert o. induction l as [l IH] using (induction_ltof1 _ (@length _)). intros o Hf Hs. unfold ltof in IH.
  destruct o as [|c o]; [exists []; by apply f_fixed|].
  destruct l as [|a l1]; [by rewrite f_nil in Hf|].
  destruct (f_cons a l1) as (c' & l' & q & E & El & Hlen & _). rewrite E in Hf. injection Hf as _ Hf.
  destruct (IH l' ltac:(simpl; lia) o Hf Hs) as [p ->]. exists (q ++ p). by rewrite El, app_assoc.
Qed.

(** * Trimmed text stays trimmed *)

Hypothesis space_fixed : forall a, (Ascii.nat_of_ascii a <= 32 \/ 128 <= Ascii.nat_of_ascii a) -> ~ moved a.

Lemma space1_range a : space1 a = true -> Ascii.nat_of_ascii a <= 32.
Proof. unfold space1. intros H. apply orb_true_iff in H as [H|H]; breflect; lia. Qed.

Lemma space2_range a b : space2 a b = true -> 128 <= Ascii.nat_of_ascii a /\ 128 <= Ascii.nat_of_ascii b.
Proof. unfold space2. intros H. apply andb_true_iff in H as [H1 H2]. apply orb_true_iff in H2 as [H2|H2]; breflect; lia. Qed.

Lemma space3_range a b c : space3 a b c = true ->
  128 <= Ascii.nat_of_ascii a /\ 128 <= Ascii.nat_of_ascii b /\ 128 <= Ascii.nat_of_ascii c.
Proof.
  unfold space3. intros H.
  repeat match goal with
  | H : (_ || _)%bool = true |- _ => apply orb_true_iff in H as [H|H]
  | H : (_ && _)%bool = true |- _ => apply andb_true_iff in H as [H ?]
  end; breflect; lia.
Qed.

Ltac all_fixed := repeat (first [apply List.Forall_nil | apply List.Forall_cons]); apply space_fixed.

(** No white space at the front, in reading direction or against it. *)
Definition trimmed_left := no_space_prefix space1 space2 space3.
Definition trimmed_right := no_space_prefix space1 (fun b a => space2 a b) (fun c b a => space3 a b c).

Lemma f_trimmed_left l : trimmed_left l -> trimmed_left (f l).
Proof.
  intros Hl. unfold trimmed_left, no_space_prefix in *.
  destruct (f l) as [|a [|b [|c o]]] eqn:E; [done|..];
  (split; [destruct (space1 a) eqn:H1; [|done];
    destruct (f_fixed_prefix l [a] _ E) as [p ->];
      [all_fixed; left; by apply space1_range|];
    simpl in Hl; destruct Hl; congruence|]); [done|..];
  (split; [destruct (space2 a b) eqn:H2; [|done]; destruct (space2_range _ _ H2);
    destruct (f_fixed_prefix l [a; b] _ E) as [p ->];
      [all_fixed; by right|];
    simpl in Hl; rewrite H2 in Hl; by destruct Hl as (_ & ? & _)|]); [done|].
  destruct (space3 a b c) eqn:H3; [|done]. destruct (space3_range _ _ _ H3) as (? & ? & ?).
  destruct (f_fixed_prefix l [a; b; c] _ E) as [p ->]; [all_fixed; by right|].
  simpl in Hl. rewrite H3 in Hl. by destruct Hl as (_ & _ & ?).
Qed.

Lemma rev_eq_app {A} (l s o : list A) : rev l = s ++ o -> l = rev o ++ rev s.
Proof. intros H. by rewrite <- rev_app_distr, <- H, rev_involutive. Qed.

Lemma f_trimmed_right l : trimmed_right (rev l) -> trimmed_right (rev (f l)).
Proof.
  intros Hl. unfold trimmed_right, no_space_prefix in *.
  destruct (rev (f l)) as [|a [|b [|c o]]] eqn:E; [done|..];
  (split; [destruct (space1 a) eqn:H1; [|done];
    destruct (f_fixed_suffix l [a] _ (rev_eq_app _ [a] _ E)) as [p ->];
      [all_fixed; left; by apply space1_range|];
    rewrite rev_app_distr in Hl; simpl in Hl; destruct Hl; congruence|]); [done|..];
  (split; [destruct (space2 b a) eqn:H2; [|done]; destruct (space2_range _ _ H2);
    destruct (f_fixed_suffix l [b; a] _ (rev_eq_app _ [a; b] _ E)) as [p ->];
      [all_fixed; by right|];
    rewrite rev_app_distr in Hl; simpl in Hl; rewrite H2 in Hl; by destruct Hl as (_ & ? & _)|]); [done|].
  destruct (space3 c b a) eqn:H3; [|done]. destruct (space3_range _ _ _ H3) as (? & ? & ?).
  destruct (f_fixed_suffix l [c; b; a] _ (rev_eq_app _ [a; b; c] _ E)) as [p ->];
    [all_fixed; by right|].
  rewrite rev_app_distr in Hl. simpl in Hl. rewrite H3 in Hl. by destruct Hl as (_ & _ & ?).
Qed.

Lemma trimmed_id s : trimmed_left (String.list_ascii_of_string s) ->
  trimmed_right (rev (String.list_ascii_of_string s)) -> strings_TrimSpace s = s.
Proof.
  intros Hl Hr. unfold strings_TrimSpace. rewrite (trim_bytes_id _ _ _ _ Hl), (trim_bytes_id _ _ _ _ Hr).
  by rewrite rev_involutive, String.string_of_list_ascii_of_string.
Qed.

Lemma TrimSpace_trimmed s :
  trimmed_left (String.list_ascii_of_string (strings_TrimSpace s))
  /\ trimmed_right (rev (String.list_ascii_of_string (strings_TrimSpace s))).
Proof.
  unfold strings_TrimSpace. rewrite String.list_ascii_of_string_of_list_ascii, rev_involutive.
  destruct (trim_bytes_spec space1 space2 space3 (String.list_ascii_of_string s)) as [Hl _].
  set (left := trim_bytes space1 space2 space3 (String.list_ascii_of_string s)) in *.
  destruct (trim_bytes_spec space1 (fun b a => space2 a b) (fun c b a => space3 a b c) (rev left)) as [Hr [q Hq]].
  split; [|done]. eapply no_space_prefix_app. by rewrite <- (rev_eq_app _ _ _ Hq).
Qed.

Definition on_string (s : string) : string := String.string_of_list_ascii (f (String.list_ascii_of_string s)).

Lemma trim_case_trim s : strings_TrimSpace (on_string (strings_TrimSpace s)) = on_string (strings_TrimSpace s).
Proof.
  destruct (TrimSpace_trimmed s) as [Hl Hr]. apply trimmed_id; unfold on_string;
    rewrite String.list_ascii_of_string_of_list_ascii; [by apply f_trimmed_left|by apply f_trimmed_right].
Qed.

End CaseMap.

(** * The two maps *)

Definition lower_letter (a : Ascii.ascii) : Prop := 97 <= Ascii.nat_of_ascii a <= 122.
Definition upper_letter (a : Ascii.ascii) : Prop := 65 <= Ascii.nat_of_ascii a <= 90.

Lemma shift_ascii_cases a lo hi up : hi <= 127 -> (up = true -> 32 <= lo) ->
  let n := Ascii.nat_of_ascii a in
  (shift_ascii a lo hi up = a /\ ~ (lo <= n <= hi))
  \/ (lo <= n <= hi /\ Ascii.nat_of_ascii (shift_ascii a lo hi up) = if up then n - 32 else n + 32).
Proof.
  intros Hhi Hlo n. unfold shift_ascii. fold n. destruct ((lo <=? n) && (n <=? hi)) eqn:E; breflect.
  - right. split; [lia|]. apply Ascii.nat_ascii_embedding. destruct up; lia.
  - left. split; [done|]. apply andb_false_iff in E as [E|E]; breflect; lia.
Qed.

Lemma byte_is_true a n : byte_is a n = true -> Ascii.nat_of_ascii a = n.
Proof. apply Nat.eqb_eq. Qed.

Lemma byte_is_neq a n : Ascii.nat_of_ascii a <> n -> byte_is a n = false.
Proof. apply Nat.eqb_neq. Qed.

(** A rune of several bytes that maps to an ASCII letter starts here. *)
Definition lower_rune (l : list Ascii.ascii) : bool :=
  match l with
  | a :: b :: l2 => (byte_is a 196 && byte_is b 176)
      || match l2 with c :: _ => byte_is a 226 && byte_is b 132 && byte_is c 170 | [] => false end
  | _ => false
  end.

Definition upper_rune (l : list Ascii.ascii) : bool :=
  match l with
  | a :: b :: _ => (byte_is a 196 && byte_is b 177) || (byte_is a 197 && byte_is b 191)
  | _ => false
  end.

Lemma lower_bytes_here a l1 : lower_rune (a :: l1) = false ->
  lower_bytes (a :: l1) = shift_ascii a 65 90 false :: lower_bytes l1.
Proof.
  cbn [lower_rune lower_bytes]. destruct l1 as [|b [|c l3]]; [done|..]; intros H; apply orb_false_iff in H as [-> H]; [done|].
  by rewrite H.
Qed.

Lemma lower_bytes_cons a l1 : exists c l' q,
  lower_bytes (a :: l1) = c :: lower_bytes l' /\ a :: l1 = q ++ l' /\ length l' <= length l1
  /\ ((c = shift_ascii a 65 90 false /\ l' = l1) \/ lower_letter c).
Proof.
  destruct (lower_rune (a :: l1)) eqn:E.
  - destruct l1 as [|b l2]; [done|]. cbn [lower_rune lower_bytes] in *. destruct (byte_is a 196 && byte_is b 176).
    + exists (Ascii.ascii_of_nat 105), l2, [a; b]. split_and!; [done|done|simpl; lia|]. right. unfold lower_letter. vm_compute. lia.
    + simpl in E. destruct l2 as [|c l3]; [done|]. rewrite E.
      exists (Ascii.ascii_of_nat 107), l3, [a; b; c]. split_and!; [done|done|simpl; lia|]. right. unfold lower_letter. vm_compute. lia.
  - exists (shift_ascii a 65 90 false), l1, [a]. rewrite (lower_bytes_here _ _ E). split_and!; [done|done|lia|by left].
Qed.

Lemma upper_bytes_here a l1 : upper_rune (a :: l1) = false ->
  upper_bytes (a :: l1) = shift_ascii a 97 122 true :: upper_bytes l1.
Proof.
  cbn [upper_rune upper_bytes]. destruct l1 as [|b l2]; [done|]. intros H. by apply orb_false_iff in H as [-> ->].
Qed.

Lemma upper_bytes_cons a l1 : exists c l' q,
  upper_bytes (a :: l1) = c :: upper_bytes l' /\ a :: l1 = q ++ l' /\ length l' <= length l1
  /\ ((c = shift_ascii a 97 122 true /\ l' = l1) \/ upper_letter c).
Proof.
  destruct (upper_rune (a :: l1)) eqn:E.
  - destruct l1 as [|b l2]; [done|]. cbn [upper_rune upper_bytes] in *. destruct (byte_is a 196 && byte_is b 177).
    + exists (Ascii.ascii_of_nat 73), l2, [a; b]. split_and!; [done|done|simpl; lia|]. right. unfold upper_letter. vm_compute. lia.
    + simpl in E. rewrite E.
      exists (Ascii.ascii_of_nat 83), l2, [a; b]. split_and!; [done|done|simpl; lia|]. right. unfold upper_letter. vm_compute. lia.
  - exists (shift_ascii a 97 122 true), l1, [a]. rewrite (upper_bytes_here _ _ E). split_and!; [done|done|lia|by left].
Qed.

Lemma lower_shift_fixed a : shift_ascii a 65 90 false = a \/ lower_letter (shift_ascii a 65 90 false).
Proof.
  destruct (shift_ascii_cases a 65 90 false ltac:(lia) ltac:(done)) as [[? _]|[? E]]; [by left|].
  right. unfold lower_letter. rewrite E. lia.
Qed.

Lemma upper_shift_fixed a : shift_ascii a 97 122 true = a \/ upper_letter (shift_ascii a 97 122 true).
Proof.
  destruct (shift_ascii_cases a 97 122 true ltac:(lia) ltac:(lia)) as [[? _]|[? E]]; [by left|].
  right. unfold upper_letter. rewrite E. lia.
Qed.

Lemma TrimSpace_ToLower s :
  strings_TrimSpace (strings_ToLower (strings_TrimSpace s)) = strings_ToLower (strings_TrimSpace s).
Proof.
  apply (trim_case_trim lower_bytes (fun a => shift_ascii a 65 90 false) lower_letter eq_refl lower_bytes_cons
    lower_shift_fixed). unfold lower_letter. lia.
Qed.

Lemma TrimSpace_ToUpper s :
  strings_TrimSpace (strings_ToUpper (strings_TrimSpace s)) = strings_ToUpper (strings_TrimSpace s).
Proof.
  apply (trim_case_trim upper_bytes (fun a => shift_ascii a 97 122 true) upper_letter eq_refl upper_bytes_cons
    upper_shift_fixed). unfold upper_letter. lia.
Qed.

(** A byte beyond ASCII at the front of what was mapped was at the front before. *)
Lemma lower_bytes_prefix l s o : lower_bytes l = s ++ o -> Forall (fun a => 128 <= Ascii.nat_of_ascii a) s ->
  exists p, l = s ++ p.
Proof.
  intros H Hs. apply (f_fixed_prefix lower_bytes (fun a => shift_ascii a 65 90 false) lower_letter eq_refl
    lower_bytes_cons lower_shift_fixed _ _ _ H). eapply Forall_impl; [exact Hs|]. unfold lower_letter. simpl. lia.
Qed.

Lemma upper_bytes_prefix l s o : upper_bytes l = s ++ o -> Forall (fun a => 128 <= Ascii.nat_of_ascii a) s ->
  exists p, l = s ++ p.
Proof.
  intros H Hs. apply (f_fixed_prefix upper_bytes (fun a => shift_ascii a 97 122 true) upper_letter eq_refl
    upper_bytes_cons upper_shift_fixed _ _ _ H). eapply Forall_impl; [exact Hs|]. unfold upper_letter. simpl. lia.
Qed.

Lemma lower_rune_mapped a l1 : lower_rune (a :: lower_bytes l1) = true -> lower_rune (a :: l1) = true.
Proof.
  intros H. destruct (lower_bytes l1) as [|b l2] eqn:E; [done|]. cbn [lower_rune] in H.
  apply orb_true_iff in H as [H|H].
  - apply andb_true_iff in H as [Ha Hb]. destruct (lower_bytes_prefix l1 [b] l2 E) as [p ->].
    { constructor; [|constructor]. apply byte_is_true in Hb. lia. }
    simpl. by rewrite Ha, Hb.
  - destruct l2 as [|c l3]; [done|]. apply andb_true_iff in H as [H Hc]. apply andb_true_iff in H as [Ha Hb].
    destruct (lower_bytes_prefix l1 [b; c] l3 E) as [p ->].
    { apply byte_is_true in Hb, Hc. repeat (constructor; [lia|]). constructor. }
    simpl. by rewrite Ha, Hb, Hc, orb_true_r.
Qed.

Lemma upper_rune_mapped a l1 : upper_rune (a :: upper_bytes l1) = true -> upper_rune (a :: l1) = true.
Proof.
  intros H. destruct (upper_bytes l1) as [|b l2] eqn:E; [done|]. cbn [upper_rune] in H.
  assert (128 <= Ascii.nat_of_ascii b) as Hb.
  { apply orb_true_iff in H as [H|H]; apply andb_true_iff in H as [_ H]; apply byte_is_true in H; lia. }
  destruct (upper_bytes_prefix l1 [b] l2 E) as [p ->]; [by repeat constructor|]. done.
Qed.

Lemma ascii_no_lower_rune a l : Ascii.nat_of_ascii a < 128 -> lower_rune (a :: l) = false.
Proof. intros H. destruct l as [|b [|c l]]; simpl; rewrite ?(byte_is_neq a 196), ?(byte_is_neq a 226) by lia; done. Qed.

Lemma ascii_no_upper_rune a l : Ascii.nat_of_ascii a < 128 -> upper_rune (a :: l) = false.
Proof. intros H. destruct l as [|b l]; simpl; rewrite ?(byte_is_neq a 196), ?(byte_is_neq a 197) by lia; done. Qed.

Lemma shift_lower_id c : lower_letter c -> shift_ascii c 65 90 false = c.
Proof.
  unfold lower_letter. intros H.
  destruct (shift_ascii_cases c 65 90 false ltac:(lia) ltac:(done)) as [[? _]|[? _]]; [done|lia].
Qed.

Lemma shift_upper_id c : upper_letter c -> shift_ascii c 97 122 true = c.
Proof.
  unfold upper_letter. intros H.
  destruct (shift_ascii_cases c 97 122 true ltac:(lia) ltac:(lia)) as [[? _]|[? _]]; [done|lia].
Qed.

Lemma lower_bytes_idemp l : lower_bytes (lower_bytes l) = lower_bytes l.
Proof.
  induction l as [l IH] using (induction_ltof1 _ (@length _)). unfold ltof in IH. destruct l as [|a l1]; [done|].
  destruct (lower_bytes_cons a l1) as (c & l' & q & E & El & Hlen & Hc). rewrite E.
  assert (lower_letter c \/ (shift_ascii a 65 90 false = a /\ c = a /\ l' = l1)) as [Hm|(Hs & -> & ->)].
  { destruct Hc as [[-> ->]|]; [|by left]. destruct (lower_shift_fixed a) as [E2|]; [right|by left]. by rewrite E2. }
  - rewrite lower_bytes_here by (apply ascii_no_lower_rune; unfold lower_letter in Hm; lia).
    rewrite (shift_lower_id c Hm). f_equal. apply IH. simpl. lia.
  - destruct (lower_rune (a :: lower_bytes l1)) eqn:Er.
    + exfalso. apply lower_rune_mapped in Er. destruct (le_lt_dec 128 (Ascii.nat_of_ascii a)) as [Ha|Ha];
        [|by rewrite ascii_no_lower_rune in Er].
      destruct l1 as [|b l2]; [done|]. cbn [lower_rune lower_bytes] in Er, E.
      destruct (byte_is a 196 && byte_is b 176); [injection E as E _; rewrite <- E in Ha; vm_compute in Ha; lia|].
      simpl in Er. destruct l2 as [|c l3]; [done|]. rewrite Er in E. injection E as E _. rewrite <- E in Ha. vm_compute in Ha. lia.
    + rewrite (lower_bytes_here _ _ Er), Hs. f_equal. apply IH. simpl. lia.
Qed.

Lemma upper_bytes_idemp l : upper_bytes (upper_bytes l) = upper_bytes l.
Proof.
  induction l as [l IH] using (induction_ltof1 _ (@length _)). unfold ltof in IH. destruct l as [|a l1]; [done|].
  destruct (upper_bytes_cons a l1) as (c & l' & q & E & El & Hlen & Hc). rewrite E.
  assert (upper_letter c \/ (shift_ascii a 97 122 true = a /\ c = a /\ l' = l1)) as [Hm|(Hs & -> & ->)].
  { destruct Hc as [[-> ->]|]; [|by left]. destruct (upper_shift_fixed a) as [E2|]; [right|by left]. by rewrite E2. }
  - rewrite upper_bytes_here by (apply ascii_no_upper_rune; unfold upper_letter in Hm; lia).
    rewrite (shift_upper_id c Hm). f_equal. apply IH. simpl. lia.
  - destruct (upper_rune (a :: upper_bytes l1)) eqn:Er.
    + exfalso. apply upper_rune_mapped in Er. destruct (le_lt_dec 128 (Ascii.nat_of_ascii a)) as [Ha|Ha];
        [|by rewrite ascii_no_upper_rune in Er].
      destruct l1 as [|b l2]; [done|]. cbn [upper_rune upper_bytes] in Er, E.
      destruct (byte_is a 196 && byte_is b 177); [injection E as E _; rewrite <- E in Ha; vm_compute in Ha; lia|].
      simpl in Er. rewrite Er in E. injection E as E _. rewrite <- E in Ha. vm_compute in Ha. lia.
    + rewrite (upper_bytes_here _ _ Er), Hs. f_equal. apply IH. simpl. lia.
Qed.

(** Trimmed and lowered text, and trimmed and raised text, are settled. *)
Lemma lower_word_settled s :
  strings_ToLower (strings_TrimSpace (strings_ToLower (strings_TrimSpace s))) = strings_ToLower (strings_TrimSpace s).
Proof.
  rewrite TrimSpace_ToLower. unfold strings_ToLower at 1. unfold strings_ToLower.
  by rewrite String.list_ascii_of_string_of_list_ascii, lower_bytes_idemp.
Qed.

Lemma upper_word_settled s :
  strings_ToUpper (strings_TrimSpace (strings_ToUpper (strings_TrimSpace s))) = strings_ToUpper (strings_TrimSpace s).
Proof.
  rewrite TrimSpace_ToUpper. unfold strings_ToUpper at 1. unfold strings_ToUpper.
  by rewrite String.list_ascii_of_string_of_list_ascii, upper_bytes_idemp.
Qed.
