(* ===== verification/Calendar.v ===== *)
(** The civil calendar of Go's [time] package as the program uses it: [Time.Date],
    [time.Date] with its normalisation of months and days, [AddDate], and the layouts
    2006-01-02 and 2006-01 of [Format] and [Parse].  A time is a number of nanoseconds
    since 0001-01-01T00:00:00Z; all dates are UTC. *)
From stdpp Require Import base list strings pretty.
From Stdlib Require Import ZArith Lia.
From S2P Require Import Prelude GoRuntime.

Local Open Scope Z_scope.
#[local] Set Warnings "-clear-no-such-hyp".

(** * Years and months *)

Definition is_leap (y : Z) : bool := (y mod 4 =? 0) && (negb (y mod 100 =? 0) || (y mod 400 =? 0)).

(** Days from 0001-01-01 to the first day of the year. *)
Definition days_before_year (y : Z) : Z :=
  365 * (y - 1) + (y - 1) / 4 - (y - 1) / 100 + (y - 1) / 400.

Definition leap_day (y : Z) : Z := if is_leap y then 1 else 0.

(** Days from the first day of the year to the first day of the month (1 to 12; 13 is
    the next January). *)
Definition days_before_month (y m : Z) : Z :=
  match m with
  | 1 => 0 | 2 => 31 | 3 => 59 + leap_day y | 4 => 90 + leap_day y | 5 => 120 + leap_day y
  | 6 => 151 + leap_day y | 7 => 181 + leap_day y | 8 => 212 + leap_day y | 9 => 243 + leap_day y
  | 10 => 273 + leap_day y | 11 => 304 + leap_day y | 12 => 334 + leap_day y | _ => 365 + leap_day y
  end.

Definition days_in_month (y m : Z) : Z := days_before_month y (m + 1) - days_before_month y m.

Definition valid_month (m : Z) : Prop := 1 <= m <= 12.
Definition valid_date (y m d : Z) : Prop := valid_month m /\ 1 <= d <= days_in_month y m.

(** The year that holds a day, from the mean length of a year and one correction. *)
Definition year_of_days (days : Z) : Z :=
  let y := days * 400 / 146097 + 1 in
  if days <? days_before_year y then y - 1
  else if days_before_year (y + 1) <=? days then y + 1 else y.

(** The last month that starts at or before a day of the year. *)
Fixpoint month_of_yday (y yday : Z) (k : nat) : Z :=
  match k with
  | O => 1
  | S k' => if days_before_month y (Z.of_nat k + 1) <=? yday then Z.of_nat k + 1 else month_of_yday y yday k'
  end.

(** [t.Date()]: year, month and day. *)
Definition Time_civil (t : Z) : Z * Z * Z :=
  let days := t / Day in
  let y := year_of_days days in
  let yday := days - days_before_year y in
  let m := month_of_yday y yday 11 in
  (y, m, yday - days_before_month y m + 1).

Definition Time_Year (t : Z) : Z := (Time_civil t).1.1.
Definition Time_Month (t : Z) : Z := (Time_civil t).1.2.
Definition Time_Day (t : Z) : Z := (Time_civil t).2.

(** [time.Date(y, m, d, 0, 0, 0, 0, time.UTC)]: months outside 1 to 12 move the year, days
    outside the month move the date. *)
Definition Time_Date (y m d : Z) : Z :=
  let y' := y + (m - 1) / 12 in
  let m' := (m - 1) mod 12 + 1 in
  (days_before_year y' + days_before_month y' m' + (d - 1)) * Day.

(** [t.AddDate(years, months, days)] keeps the time of day. *)
Definition Time_AddDate (t years months days : Z) : Z :=
  let '(y, m, d) := Time_civil t in
  Time_Date (y + years) (m + months) (d + days) + t mod Day.

(** * Correctness of the conversion *)

Lemma leap_day_spec y : leap_day y = days_before_year (y + 1) - days_before_year y - 365.
Proof.
  unfold leap_day, is_leap, days_before_year. replace (y + 1 - 1) with y by lia.
  destruct (Z.eqb_spec (y mod 4) 0), (Z.eqb_spec (y mod 100) 0), (Z.eqb_spec (y mod 400) 0); simpl;
    Z.div_mod_to_equations; lia.
Qed.

Lemma leap_day_range y : 0 <= leap_day y <= 1.
Proof. unfold leap_day. destruct (is_leap y); lia. Qed.

Lemma valid_month_cases m : valid_month m ->
  m = 1 \/ m = 2 \/ m = 3 \/ m = 4 \/ m = 5 \/ m = 6 \/ m = 7 \/ m = 8 \/ m = 9 \/ m = 10 \/ m = 11 \/ m = 12.
Proof. unfold valid_month. lia. Qed.

(** One case per month. *)
Ltac each_month H :=
  destruct (valid_month_cases _ H) as [->|[->|[->|[->|[->|[->|[->|[->|[->|[->|[->| ->]]]]]]]]]]];
  cbn [days_before_month].

Lemma days_before_month_bounds y m : valid_month m ->
  0 <= days_before_month y m /\ 28 <= days_in_month y m <= 31
  /\ days_before_month y m + days_in_month y m <= 365 + leap_day y.
Proof.
  intros H. pose proof (leap_day_range y). unfold days_in_month.
  each_month H; simpl; lia.
Qed.

Lemma days_before_year_step y : 365 <= days_before_year (y + 1) - days_before_year y <= 366.
Proof. pose proof (leap_day_spec y). pose proof (leap_day_range y). lia. Qed.

Lemma year_of_days_spec days :
  days_before_year (year_of_days days) <= days < days_before_year (year_of_days days + 1).
Proof.
  unfold year_of_days. set (y := days * 400 / 146097 + 1).
  assert (146097 * (y - 1) <= days * 400 < 146097 * y) as Hy
    by (unfold y; clear; pose proof (Z.div_mod (days * 400) 146097 ltac:(lia));
        pose proof (Z.mod_pos_bound (days * 400) 146097 ltac:(lia)); lia).
  pose proof (days_before_year_step (y - 1)) as H1. replace (y - 1 + 1) with y in H1 by lia.
  pose proof (days_before_year_step y) as H2. pose proof (days_before_year_step (y + 1)) as H3.
  assert (400 * days_before_year y <= 146097 * (y - 1) + 400 * 3
          /\ 146097 * (y - 1) - 400 * 3 <= 400 * days_before_year y) as [Hup Hdown]
    by (unfold days_before_year; Z.div_mod_to_equations; lia).
  destruct (Z.ltb_spec days (days_before_year y)); [replace (y - 1 + 1) with y by lia; lia|].
  destruct (Z.leb_spec (days_before_year (y + 1)) days); [|lia].
  replace (y + 1 + 1) with (y + 2) in * by lia. lia.
Qed.

Lemma days_before_year_mono a b : a <= b -> days_before_year a <= days_before_year b.
Proof. intros H. unfold days_before_year. Z.div_mod_to_equations. lia. Qed.

Lemma year_of_days_unique days y :
  days_before_year y <= days < days_before_year (y + 1) -> year_of_days days = y.
Proof.
  intros H. pose proof (year_of_days_spec days) as H2. set (z := year_of_days days) in *.
  destruct (Z.lt_trichotomy z y) as [Hl|[->|Hl]]; [|done|].
  - pose proof (days_before_year_mono (z + 1) y ltac:(lia)). lia.
  - pose proof (days_before_year_mono (y + 1) z ltac:(lia)). lia.
Qed.

Lemma month_of_yday_bounds y yday k :
  0 <= yday < days_before_month y (Z.of_nat k + 2) ->
  let m := month_of_yday y yday k in
  1 <= m <= Z.of_nat k + 1 /\ days_before_month y m <= yday < days_before_month y (m + 1).
Proof.
  induction k as [|k IH]; cbn [month_of_yday]; intros H; [simpl in *; lia|].
  destruct (Z.leb_spec (days_before_month y (Z.of_nat (S k) + 1)) yday).
  - replace (Z.of_nat (S k) + 1 + 1) with (Z.of_nat (S k) + 2) by lia. lia.
  - replace (Z.of_nat (S k) + 1) with (Z.of_nat k + 2) in * by lia.
    destruct IH as [? ?]; [lia|]. split; [lia|done].
Qed.

Lemma month_of_yday_spec y yday : 0 <= yday < 365 + leap_day y ->
  let m := month_of_yday y yday 11 in
  valid_month m /\ days_before_month y m <= yday < days_before_month y (m + 1).
Proof. exact (month_of_yday_bounds y yday 11). Qed.

Lemma month_of_yday_unique y m d : valid_date y m d ->
  month_of_yday y (days_before_month y m + (d - 1)) 11 = m.
Proof.
  intros [Hm Hd]. pose proof (days_before_month_bounds y m Hm) as (? & ? & ?).
  pose proof (month_of_yday_spec y (days_before_month y m + (d - 1)) ltac:(lia)) as [Hk Hb].
  set (k := month_of_yday _ _ _) in *. pose proof (leap_day_range y). unfold days_in_month in *.
  clearbody k. each_month Hm; each_month Hk; cbn [days_before_month] in *; simpl in *; lia.
Qed.

Lemma Time_Date_valid y m d : valid_month m ->
  Time_Date y m d = (days_before_year y + days_before_month y m + (d - 1)) * Day.
Proof.
  intros H. unfold Time_Date, valid_month in *.
  rewrite (Z.div_small (m - 1) 12), (Z.mod_small (m - 1) 12) by lia.
  rewrite Z.add_0_r. by replace (m - 1 + 1) with m by lia.
Qed.

(** A valid date is read back from any moment of its day. *)
Lemma Time_civil_Date y m d r : valid_date y m d -> 0 <= r < Day ->
  Time_civil (Time_Date y m d + r) = (y, m, d).
Proof.
  intros Hv Hr. pose proof Hv as [Hm Hd]. rewrite (Time_Date_valid y m d Hm). unfold Time_civil.
  pose proof (days_before_month_bounds y m Hm) as (? & ? & ?). pose proof (leap_day_spec y).
  rewrite Z.div_add_l, (Z.div_small r) by (unfold Day, Hour, Minute, Second in *; lia).
  rewrite Z.add_0_r, (year_of_days_unique _ y) by lia.
  replace (days_before_year y + days_before_month y m + (d - 1) - days_before_year y)
    with (days_before_month y m + (d - 1)) by lia.
  rewrite (month_of_yday_unique y m d Hv). f_equal. lia.
Qed.

Lemma Time_civil_valid t y m d : Time_civil t = (y, m, d) ->
  valid_date y m d /\ Time_Date y m d = Time_StartOfDay t.
Proof.
  unfold Time_civil. set (days := t / Day). pose proof (year_of_days_spec days) as Hy.
  pose proof (leap_day_spec (year_of_days days)).
  pose proof (month_of_yday_spec (year_of_days days) (days - days_before_year (year_of_days days)) ltac:(lia))
    as [Hm Hb].
  set (k := month_of_yday _ _ _) in *. set (z := year_of_days days) in *. clearbody k.
  intros [= <- <- <-].
  split; [split; [done|]; unfold days_in_month; lia|].
  rewrite (Time_Date_valid _ _ _ Hm). unfold Time_StartOfDay, Time_Truncate.
  replace (Day <=? 0) with false by reflexivity.
  transitivity (days * Day); [f_equal; lia|].
  pose proof (Z.div_mod t Day ltac:(unfold Day, Hour, Minute, Second; lia)). unfold days. lia.
Qed.

(** * Months as numbers *)

(** Months are numbered from January of year 0; [month_first] is their first moment. *)
Definition month_index (t : Z) : Z := 12 * Time_Year t + (Time_Month t - 1).
Definition month_first (i : Z) : Z := Time_Date (i / 12) (i mod 12 + 1) 1.

Lemma month_mod_valid i : valid_month (i mod 12 + 1).
Proof. unfold valid_month. pose proof (Z.mod_pos_bound i 12 ltac:(lia)). lia. Qed.

Lemma Time_Date_month y m d : Time_Date y m d = month_first (12 * y + (m - 1)) + (d - 1) * Day.
Proof.
  unfold month_first. rewrite (Time_Date_valid _ _ _ (month_mod_valid _)). unfold Time_Date.
  replace (12 * y + (m - 1)) with ((m - 1) + y * 12) by lia.
  rewrite Z.div_add, Z.mod_add by lia. rewrite (Z.add_comm y). lia.
Qed.

Lemma month_first_step i :
  month_first (i + 1) = month_first i + days_in_month (i / 12) (i mod 12 + 1) * Day.
Proof.
  unfold month_first. rewrite !(Time_Date_valid _ _ _ (month_mod_valid _)). unfold days_in_month.
  pose proof (leap_day_spec (i / 12)) as Hl. pose proof (Z.mod_pos_bound i 12 ltac:(lia)) as Hb.
  destruct (decide (i mod 12 = 11)) as [E|E].
  - assert ((i + 1) / 12 = i / 12 + 1 /\ (i + 1) mod 12 = 0) as [-> ->] by (Z.div_mod_to_equations; lia).
    rewrite E. change (days_before_month (i / 12 + 1) (0 + 1)) with 0.
    change (days_before_month (i / 12) (11 + 1 + 1)) with (365 + leap_day (i / 12)). nia.
  - assert ((i + 1) / 12 = i / 12 /\ (i + 1) mod 12 = i mod 12 + 1) as [-> ->] by (Z.div_mod_to_equations; lia).
    lia.
Qed.

Lemma month_first_lt i j : i < j -> month_first i + 28 * Day <= month_first j.
Proof.
  intros H. replace j with (i + Z.of_nat (S (Z.to_nat (j - i - 1)))) by lia.
  generalize (Z.to_nat (j - i - 1)). clear. intros n. revert i. induction n as [|n IH]; intros i.
  - rewrite month_first_step.
    pose proof (days_before_month_bounds (i / 12) (i mod 12 + 1) (month_mod_valid i)) as (_ & ? & _).
    unfold Day, Hour, Minute, Second. lia.
  - replace (i + Z.of_nat (S (S n))) with (i + 1 + Z.of_nat (S n)) by lia.
    specialize (IH (i + 1)). rewrite month_first_step in IH.
    pose proof (days_before_month_bounds (i / 12) (i mod 12 + 1) (month_mod_valid i)) as (_ & ? & _).
    unfold Day, Hour, Minute, Second in *. lia.
Qed.

Lemma month_first_le i j : i <= j -> month_first i <= month_first j.
Proof.
  intros H. destruct (decide (i = j)) as [->|]; [done|].
  pose proof (month_first_lt i j ltac:(lia)). unfold Day, Hour, Minute, Second in *. lia.
Qed.

Lemma month_index_spec t : month_first (month_index t) <= t < month_first (month_index t + 1).
Proof.
  rewrite month_first_step. unfold month_index, Time_Year, Time_Month.
  destruct (Time_civil t) as [[y m] d] eqn:E. simpl. destruct (Time_civil_valid _ _ _ _ E) as [[Hm Hd] Ht].
  rewrite Time_Date_month in Ht. unfold valid_month in Hm.
  assert ((12 * y + (m - 1)) / 12 = y /\ (12 * y + (m - 1)) mod 12 = m - 1) as [-> ->]
    by (Z.div_mod_to_equations; lia).
  replace (m - 1 + 1) with m by lia. unfold Time_StartOfDay, Time_Truncate in Ht.
  replace (Day <=? 0) with false in Ht by reflexivity.
  pose proof (Z.mod_pos_bound t Day ltac:(unfold Day, Hour, Minute, Second; lia)).
  unfold Day, Hour, Minute, Second in *. nia.
Qed.

Lemma month_index_unique t i : month_first i <= t < month_first (i + 1) -> month_index t = i.
Proof.
  intros H. pose proof (month_index_spec t) as H2. set (j := month_index t) in *.
  destruct (Z.lt_trichotomy j i) as [Hl|[->|Hl]]; [|done|].
  - pose proof (month_first_le (j + 1) i ltac:(lia)). lia.
  - pose proof (month_first_le (i + 1) j ltac:(lia)). lia.
Qed.

Lemma month_index_first i : month_index (month_first i) = i.
Proof.
  apply month_index_unique. pose proof (month_first_lt i (i + 1) ltac:(lia)).
  unfold Day, Hour, Minute, Second in *. lia.
Qed.

Lemma month_index_le t i : month_first i <= t <-> i <= month_index t.
Proof.
  pose proof (month_index_spec t). split; intros.
  - destruct (Z_le_gt_dec i (month_index t)) as [|Hgt]; [done|].
    pose proof (month_first_le (month_index t + 1) i ltac:(lia)). lia.
  - pose proof (month_first_le i (month_index t) ltac:(lia)). lia.
Qed.

Lemma month_index_mono t u : t <= u -> month_index t <= month_index u.
Proof. intros H. apply month_index_le. pose proof (month_index_spec t). lia. Qed.

(** Adding months to the first of a month moves to the first of another. *)
Lemma Time_AddDate_month_first i k : Time_AddDate (month_first i) 0 k 0 = month_first (i + k).
Proof.
  unfold Time_AddDate. assert (Time_civil (month_first i) = (i / 12, i mod 12 + 1, 1)) as ->.
  { rewrite <- (Z.add_0_r (month_first i)). apply Time_civil_Date; [|unfold Day, Hour, Minute, Second; lia].
    pose proof (days_before_month_bounds (i / 12) (i mod 12 + 1) (month_mod_valid i)) as (_ & ? & _).
    split; [apply month_mod_valid|lia]. }
  rewrite Time_Date_month. replace (month_first i mod Day) with 0.
  - replace (12 * (i / 12 + 0) + (i mod 12 + 1 + k - 1)) with (i + k) by (Z.div_mod_to_equations; lia). lia.
  - unfold month_first. rewrite (Time_Date_valid _ _ _ (month_mod_valid _)).
    by rewrite Z.mod_mul by (unfold Day, Hour, Minute, Second; lia).
Qed.

(** * Layouts *)

Definition digit (n : Z) : Ascii.ascii := Ascii.ascii_of_nat (48 + Z.to_nat (n mod 10)).

Definition digit_value (a : Ascii.ascii) : option Z :=
  let n := Ascii.nat_of_ascii a in
  if ((48 <=? n) && (n <=? 57))%nat then Some (Z.of_nat (n - 48)) else None.

Definition pad2 (n : Z) : string := String.String (digit (n / 10)) (String.String (digit n) "").

Definition pad4 (n : Z) : string :=
  if n <? 10000 then String.append (pad2 (n / 100)) (pad2 n) else pretty n.

Definition fmt_year (y : Z) : string := if y <? 0 then String.append "-" (pad4 (- y)) else pad4 y.

(** [t.Format("2006-01")] and [t.Format("2006-01-02")]. *)
Definition Time_Format_month (t : Z) : string :=
  (fmt_year (Time_Year t) +:+ "-" +:+ pad2 (Time_Month t))%string.
Definition Time_Format_date (t : Z) : string :=
  (Time_Format_month t +:+ "-" +:+ pad2 (Time_Day t))%string.

(** The decimal value of a list of digits. *)
Definition number (l : list Ascii.ascii) : option Z :=
  foldl (fun acc a => v ← acc; w ← digit_value a; Some (10 * v + w)) (Some 0) l.

(** [time.Parse("2006-01-02", s)]: ten bytes, the month and the day in range. *)
Definition Time_Parse_date (s : string) : option Z :=
  match String.list_ascii_of_string s with
  | [y1; y2; y3; y4; h1; m1; m2; h2; d1; d2] =>
      if byte_is h1 45 && byte_is h2 45 then
        y ← number [y1; y2; y3; y4]; m ← number [m1; m2]; d ← number [d1; d2];
        if (1 <=? m) && (m <=? 12) && (1 <=? d) && (d <=? days_in_month y m)
        then Some (Time_Date y m d) else None
      else None
  | _ => None
  end.

Lemma digit_value_digit n : digit_value (digit n) = Some (n mod 10).
Proof.
  unfold digit_value, digit. pose proof (Z.mod_pos_bound n 10 ltac:(lia)).
  rewrite Ascii.nat_ascii_embedding by lia.
  rewrite (proj2 (Nat.leb_le _ _)), (proj2 (Nat.leb_le _ _)) by lia. simpl. f_equal. lia.
Qed.

#[local] Arguments digit : simpl never.
#[local] Arguments digit_value : simpl never.

Lemma number_digits2 a b : number [digit a; digit b] = Some (10 * (a mod 10) + b mod 10).
Proof. unfold number. cbn [foldl]. rewrite !digit_value_digit. reflexivity. Qed.

Lemma number_digits4 a b c d : number [digit a; digit b; digit c; digit d]
  = Some (10 * (10 * (10 * (a mod 10) + b mod 10) + c mod 10) + d mod 10).
Proof. unfold number. cbn [foldl]. rewrite !digit_value_digit. reflexivity. Qed.

Lemma number_pad2 n : 0 <= n < 100 -> number (String.list_ascii_of_string (pad2 n)) = Some n.
Proof.
  intros H. unfold pad2. cbn [String.list_ascii_of_string]. rewrite number_digits2. f_equal.
  Z.div_mod_to_equations. lia.
Qed.

Lemma number_pad4 n : 0 <= n < 10000 -> number (String.list_ascii_of_string (pad4 n)) = Some n.
Proof.
  intros H. unfold pad4. rewrite (proj2 (Z.ltb_lt n 10000)) by lia.
  unfold pad2. simpl String.append. simpl String.list_ascii_of_string. rewrite number_digits4. f_equal.
  Z.div_mod_to_equations. lia.
Qed.

Lemma pad4_year y : 0 <= y < 10000 -> fmt_year y = String.append (pad2 (y / 100)) (pad2 y).
Proof.
  intros H. unfold fmt_year, pad4. rewrite (proj2 (Z.ltb_ge y 0)), (proj2 (Z.ltb_lt y 10000)) by lia. done.
Qed.

(** What the layout writes for a year of four digits is read back as the start of the day. *)
Lemma Time_Parse_Format t : 0 <= Time_Year t < 10000 ->
  Time_Parse_date (Time_Format_date t) = Some (Time_StartOfDay t).
Proof.
  intros Hy. unfold Time_Format_date, Time_Format_month. rewrite pad4_year by done.
  pose proof (number_pad4 _ Hy) as Hn. unfold pad4 in Hn. rewrite (proj2 (Z.ltb_lt _ 10000)) in Hn by lia.
  unfold Time_Year, Time_Month, Time_Day in *. destruct (Time_civil t) as [[y m] d] eqn:E. simpl fst in *; simpl snd in *.
  destruct (Time_civil_valid _ _ _ _ E) as [[Hm Hd] <-].
  pose proof (days_before_month_bounds y m Hm) as (_ & Hb & _). unfold valid_month in Hm.
  pose proof (number_pad2 m ltac:(lia)) as Hm2. pose proof (number_pad2 d ltac:(lia)) as Hd2.
  unfold Time_Parse_date. unfold pad2 in *. simpl String.append in *. simpl String.list_ascii_of_string in *.
  cbv iota beta. rewrite Hn. cbn [mbind option_bind]. rewrite Hm2. cbn [mbind option_bind]. rewrite Hd2.
  cbn [mbind option_bind]. rewrite !(proj2 (Z.leb_le _ _)) by lia. done.
Qed.

(** Months of four-digit years have distinct names. *)
Lemma Time_Format_month_inj t u :
  0 <= Time_Year t < 10000 -> 0 <= Time_Year u < 10000 ->
  Time_Format_month t = Time_Format_month u -> month_index t = month_index u.
Proof.
  intros Ht Hu. unfold Time_Format_month, month_index. rewrite !pad4_year by done.
  assert (forall v, 0 <= Time_Month v < 100) as Hm.
  { intros v. unfold Time_Month. destruct (Time_civil v) as [[y m] d] eqn:E.
    destruct (Time_civil_valid _ _ _ _ E) as [[Hm _] _]. unfold valid_month in Hm. simpl. lia. }
  pose proof (number_pad4 _ Ht) as H1. pose proof (number_pad4 _ Hu) as H2.
  pose proof (number_pad2 _ (Hm t)) as H3. pose proof (number_pad2 _ (Hm u)) as H4.
  unfold pad4 in H1, H2. rewrite (proj2 (Z.ltb_lt _ 10000)) in H1 by lia.
  rewrite (proj2 (Z.ltb_lt _ 10000)) in H2 by lia.
  unfold pad2 in *. simpl String.append in *. simpl String.list_ascii_of_string in *. intros [= E1 E2 E3 E4 E5 E6].
  rewrite E1, E2, E3, E4 in H1. rewrite E5, E6 in H3. congruence.
Qed.
