(* ===== verification/Postgres.v ===== *)
(** What the repositories rely on of PostgreSQL and its driver besides the tables: errors that carry
    a SQLSTATE, statements and transactions whose end may be lost, and integer columns. *)
From stdpp Require Import base list strings.
From Stdlib Require Import ZArith Lia.
From S2P Require Import Prelude GoRuntime.

Local Open Scope Z_scope.

(** An error of the server carries its SQLSTATE; [errors.As] looks for it down the chain. *)
Definition PgError (code : string) : error := ErrWrap "PgError" [code] [].

Fixpoint pg_code (err : error) : option string :=
  match err with
  | ErrWrap format args wrapped =>
      if format =s "PgError" then head args
      else foldr (fun e acc => match pg_code e with Some code => Some code | None => acc end) None wrapped
  | _ => None
  end.

(** A violated constraint is named. *)
Definition PgConstraint (code name : string) : error := ErrWrap "PgError" [code; name] [].

Fixpoint pg_constraint (err : error) : option string :=
  match err with
  | ErrWrap format args wrapped =>
      if format =s "PgError" then args !! 1%nat
      else foldr (fun e acc => match pg_constraint e with Some name => Some name | None => acc end) None wrapped
  | _ => None
  end.

(** How a statement outside a transaction, or the commit of one, ends once its work is done: when
    the connection is lost the effect may or may not stay. *)
Inductive exec_answer :=
| Executed
| ExecFailed (err : error) (applied : bool).

Definition autocommit {D A} (answer : exec_answer) (db : D) (out : result (D * A)) : D * result A :=
  match out with
  | Err e => (db, Err e)
  | Ok (db', a) =>
      match answer with
      | Executed => (db', Ok a)
      | ExecFailed e applied => (if applied then db' else db, Err e)
      end
  end.

Definition map_error {A} (f : error -> error) (r : result A) : result A :=
  match r with Ok a => Ok a | Err e => Err (f e) end.

Lemma map_error_ok {A} f (r : result A) a : map_error f r = Ok a -> r = Ok a.
Proof. by destruct r; intros [= <-]. Qed.

(** A transaction: its body on the tables, then the commit, whose error is wrapped. *)
Definition transaction {D A} (answer : exec_answer) (wrap : error -> error) (db : D) (out : result (D * A))
    : D * result A :=
  autocommit match answer with Executed => Executed | ExecFailed e applied => ExecFailed (wrap e) applied end db out.

Lemma transaction_inv {D A} answer wrap (db : D) (out : result (D * A)) db' r :
  transaction answer wrap db out = (db', r) ->
  (db' = db /\ (exists e, r = Err e)) \/ (exists a, out = Ok (db', a) /\ ((answer = Executed /\ r = Ok a) \/ exists e, r = Err e)).
Proof.
  unfold transaction, autocommit. destruct out as [[d a]|e]; [|intros [= <- <-]; left; by eauto].
  destruct answer as [|e applied]; [intros [= <- <-]; right; by eauto|].
  destruct applied; intros [= <- <-]; [right|left]; by eauto 6.
Qed.

(** One step of a computation that succeeded. *)
Ltac ok_step H :=
  let H1 := fresh "Hok" in
  match type of H with
  | (reject _ _ ≫= _) = Ok _ => apply result_bind_ok in H as (? & H1%reject_ok & H)
  | (_ ≫= _) = Ok _ => apply result_bind_ok in H as (? & H1 & H)
  | reject _ _ = Ok _ => apply reject_ok in H
  end.

(** An integer column takes 32 bits; the driver refuses other values before they are sent. *)
Definition int4 (z : Z) : result Z :=
  if (-2147483648 <=? z) && (z <=? 2147483647) then Ok z else Err (ErrNew "value out of range for int4").

Lemma int4_ok z z' : int4 z = Ok z' -> z' = z /\ -2147483648 <= z <= 2147483647.
Proof. unfold int4. destruct (_ && _) eqn:E; [|done]. intros [= <-]. breflect. lia. Qed.

(** A timestamptz column keeps microseconds. *)
Definition timestamptz (t : Z) : Z := Time_Truncate t Microsecond.

Lemma timestamptz_bounds t : timestamptz t <= t < timestamptz t + Microsecond.
Proof.
  unfold timestamptz, Time_Truncate, Microsecond. cbn [Z.leb]. change (1000 <=? 0) with false. cbn iota.
  pose proof (Z.mod_pos_bound t 1000 ltac:(lia)). lia.
Qed.

Lemma timestamptz_mono t u : t <= u -> timestamptz t <= timestamptz u.
Proof.
  intros H. unfold timestamptz, Time_Truncate, Microsecond. change (1000 <=? 0) with false. cbn iota.
  Z.div_mod_to_equations. lia.
Qed.

Lemma timestamptz_idem t : timestamptz (timestamptz t) = timestamptz t.
Proof.
  unfold timestamptz, Time_Truncate, Microsecond. change (1000 <=? 0) with false. cbn iota.
  Z.div_mod_to_equations. lia.
Qed.
