(* ===== verification/ProviderErrors.v ===== *)
(** The redaction of provider errors ([sanitizeProviderError] of
    src/internal/center/subscriptioncosts/service.go).  The two regular expressions are matched
    byte by byte: every rune outside ASCII counts as a character that is neither a space nor
    part of a word, and the case-insensitive s and k also match the runes that fold to them. *)
From stdpp Require Import base list strings.
From Stdlib Require Import ZArith Lia.
From S2P Require Import Prelude GoRuntime.

Local Open Scope nat_scope.
#[local] Set Warnings "-clear-no-such-hyp".

(** * The character classes of the expressions *)

(** What a word boundary separates: letters, digits and the underscore. *)
Definition re_word (a : Ascii.ascii) : bool :=
  let n := Ascii.nat_of_ascii a in
  ((48 <=? n) && (n <=? 57)) || ((65 <=? n) && (n <=? 90)) || (n =? 95) || ((97 <=? n) && (n <=? 122)).

(** [\s]: tab, newline, form feed, carriage return, space. *)
Definition re_space (a : Ascii.ascii) : bool :=
  byte_is a 9 || byte_is a 10 || byte_is a 12 || byte_is a 13 || byte_is a 32.

(** One character of a case-insensitive literal, given in lower case: 's' also matches
    U+017F and 'k' U+212A. *)
Definition eat (c : Ascii.ascii) (l : list Ascii.ascii) : option (list Ascii.ascii) :=
  match l with
  | [] => None
  | a :: l' =>
      if Ascii.eqb (shift_ascii a 65 90 false) c then Some l'
      else match l' with
           | b :: l2 =>
               if byte_is c 115 && byte_is a 197 && byte_is b 191 then Some l2
               else match l2 with
                    | d :: l3 => if byte_is c 107 && byte_is a 226 && byte_is b 132 && byte_is d 170
                                 then Some l3 else None
                    | [] => None
                    end
           | [] => None
           end
  end.

Fixpoint eat_all (word : list Ascii.ascii) (l : list Ascii.ascii) : option (list Ascii.ascii) :=
  match word with
  | [] => Some l
  | c :: word => l' ← eat c l; eat_all word l'
  end.

Definition eat_string (s : string) (l : list Ascii.ascii) : option (list Ascii.ascii) :=
  eat_all (String.list_ascii_of_string s) l.

Fixpoint drop_while (f : Ascii.ascii -> bool) (l : list Ascii.ascii) : list Ascii.ascii :=
  match l with
  | [] => []
  | a :: l' => if f a then drop_while f l' else l
  end.

(** At least one character of the class, as many as there are. *)
Definition eat_run (f : Ascii.ascii -> bool) (l : list Ascii.ascii) : option (list Ascii.ascii) :=
  match l with
  | a :: l' => if f a then Some (drop_while f l') else None
  | [] => None
  end.

(** * [sensitiveProviderURLPattern] *)

Definition match_scheme (l : list Ascii.ascii) : option (list Ascii.ascii) :=
  l1 ← eat_string "http" l;
  eat_string "://" (default l1 (eat_string "s" l1)).

Definition match_url (l : list Ascii.ascii) : option (list Ascii.ascii) :=
  l1 ← match_scheme l; eat_run (fun a => negb (re_space a)) l1.

(** * [sensitiveProviderErrorPattern] *)

Definition separator (a : Ascii.ascii) : bool := byte_is a 95 || byte_is a 32 || byte_is a 45.

Definition eat_separator (l : list Ascii.ascii) : list Ascii.ascii :=
  match l with a :: l' => if separator a then l' else l | [] => l end.

(** The first group: access key, api key, apikey or token. *)
Definition match_name (l : list Ascii.ascii) : option (list Ascii.ascii) :=
  match (l1 ← eat_string "access" l; eat_string "key" (eat_separator l1)) with
  | Some rest => Some rest
  | None =>
      match (l1 ← eat_string "api" l; eat_string "key" (eat_separator l1)) with
      | Some rest => Some rest
      | None => match eat_string "apikey" l with Some rest => Some rest | None => eat_string "token" l end
      end
  end.

Definition match_value (l : list Ascii.ascii) : option (list Ascii.ascii) :=
  match drop_while re_space l with
  | a :: l1 => if byte_is a 58 || byte_is a 61
               then eat_run (fun a => negb (re_space a) && negb (byte_is a 44)) (drop_while re_space l1)
               else None
  | [] => None
  end.

(** * [ReplaceAllString] *)

(** A matcher answers what replaces the match and what follows it. *)
Definition matcher : Type := list Ascii.ascii -> option (list Ascii.ascii * list Ascii.ascii).

Definition url_matcher : matcher := fun l =>
  rest ← match_url l; Some (String.list_ascii_of_string "[provider request redacted]", rest).

Definition secret_matcher : matcher := fun l =>
  after ← match_name l;
  rest ← match_value after;
  Some (take (length l - length after) l ++ String.list_ascii_of_string "=[redacted]", rest).

(** Both expressions start with a word boundary and a letter: they match only where the byte
    before is not part of a word.  After a match comes a space, a comma or nothing, where
    neither matches, so what precedes it does not matter.  The fuel is the length. *)
Fixpoint replace_all (m : matcher) (fuel : nat) (prev : bool) (l : list Ascii.ascii) : list Ascii.ascii :=
  match fuel, l with
  | S fuel, a :: l' =>
      match (if prev then None else m l) with
      | Some (out, rest) => out ++ replace_all m fuel false rest
      | None => a :: replace_all m fuel (re_word a) l'
      end
  | _, _ => []
  end.

Definition ReplaceAll (m : matcher) (l : list Ascii.ascii) : list Ascii.ascii := replace_all m (length l) false l.

(** [sanitizeProviderError] on the text of the error. *)
Definition sanitizeProviderError (text : string) : string :=
  String.string_of_list_ascii
    (take 160 (ReplaceAll secret_matcher (ReplaceAll url_matcher (String.list_ascii_of_string text)))).
