(* ===== verification/Subscriptions.v ===== *)
(** Subscriptions of the asset ledger (src/internal/center/subscriptions/types.go and
    idempotency.go): dates, billing periods, renewal modes, the normalisation and validation of
    create and patch inputs, and the digest of a create request. *)
From stdpp Require Import base list strings gmap pretty.
From Stdlib Require Import ZArith Lia SpecFloat.
From S2P Require Import Prelude GoRuntime Settings CaseMaps Calendar.

Local Open Scope Z_scope.
#[local] Set Warnings "-clear-no-such-hyp".

(** * Dates *)

Definition InvalidSubscriptionInputName : string := "invalid subscription input".
Definition ErrInvalidSubscriptionInput : error := ErrSentinel InvalidSubscriptionInputName.

Definition invalidInput (message : string) : error :=
  ErrWrap "%w: %s" [message] [ErrInvalidSubscriptionInput].

(** A [Date] is the time it wraps. *)
Definition NewDate (t : Z) : Z := let '(y, m, d) := Time_civil t in Time_Date y m d.

Definition ParseDate (value : string) : result Z :=
  match Time_Parse_date (strings_TrimSpace value) with
  | Some t => Ok t
  | None => Err (invalidInput "invalid date")
  end.

Lemma NewDate_start t : NewDate t = Time_StartOfDay t.
Proof. unfold NewDate. destruct (Time_civil t) as [[y m] d] eqn:E. by apply Time_civil_valid in E as []. Qed.

(** * Constants *)

Definition StatusActive : string := "active".
Definition StatusPaused : string := "paused".
Definition StatusCancelled : string := "cancelled".
Definition StatusExpired : string := "expired".
Definition StatusUnknown : string := "unknown".
Definition DefaultStatus : string := StatusActive.

Definition BillingPeriodDay : string := "day".
Definition BillingPeriodWeek : string := "week".
Definition BillingPeriodMonth : string := "month".
Definition BillingPeriodYear : string := "year".
Definition DefaultBillingPeriodUnit : string := BillingPeriodMonth.
Definition DefaultBillingPeriodLength : Z := 1.

Definition RenewalModeAuto : string := "auto".
Definition RenewalModeManual : string := "manual".
Definition RenewalModeAutoCancelled : string := "auto_cancelled".
Definition RenewalModeLottery : string := "lottery".
Definition RenewalModeGift : string := "gift".
Definition RenewalModeBonus : string := "bonus".
Definition RenewalModeOther : string := "other".
Definition DefaultRenewalMode : string := RenewalModeManual.

(** * Data *)

(** The stored columns of a [Record]; the computed cost fields belong to other reads. *)
Record SubscriptionRecord := {
  su_SubscriptionID : string;
  su_VPSID : string;
  su_Price : float64;
  su_Currency : string;
  su_BillingCycle : string;
  su_BillingMonths : Z;
  su_BillingPeriodUnit : string;
  su_BillingPeriodLength : Z;
  su_MonthlyPrice : float64;
  su_StartedAt : option Z;
  su_RenewAt : option Z;
  su_AutoRenew : bool;
  su_AutoRenewCancelled : bool;
  su_RenewalMode : string;
  su_Status : string;
  su_PaymentMethod : string;
  su_DisplayName : string;
  su_CostCategory : string;
  su_Labels : list string;
  su_TrialEndsAt : option Z;
  su_EndsAt : option Z;
  su_Note : string;
  su_CreatedAt : Z;
  su_UpdatedAt : Z;
}.

Record CreateInput := {
  ci_VPSID : string;
  ci_Price : float64;
  ci_Currency : string;
  ci_BillingCycle : string;
  ci_BillingMonths : Z;
  ci_BillingPeriodUnit : string;
  ci_BillingPeriodLength : Z;
  ci_StartedAt : option Z;
  ci_RenewAt : option Z;
  ci_AutoRenew : bool;
  ci_AutoRenewCancelled : bool;
  ci_RenewalMode : string;
  ci_Status : string;
  ci_PaymentMethod : string;
  ci_DisplayName : string;
  ci_CostCategory : string;
  ci_Labels : list string;
  ci_TrialEndsAt : option Z;
  ci_EndsAt : option Z;
  ci_Note : string;
}.

(** An optional field is [None] when it is not set; its value is then read nowhere. *)
Record PatchInput := {
  pi_VPSID : option string;
  pi_Price : option float64;
  pi_Currency : option string;
  pi_BillingCycle : option string;
  pi_BillingMonths : option Z;
  pi_BillingPeriodUnit : option string;
  pi_BillingPeriodLength : option Z;
  pi_StartedAt : option (option Z);
  pi_RenewAt : option (option Z);
  pi_AutoRenew : option bool;
  pi_AutoRenewCancelled : option bool;
  pi_RenewalMode : option string;
  pi_Status : option string;
  pi_PaymentMethod : option string;
  pi_DisplayName : option string;
  pi_CostCategory : option string;
  pi_Labels : option (list string);
  pi_TrialEndsAt : option (option Z);
  pi_EndsAt : option (option Z);
  pi_Note : option string;
}.

(** * Words *)

Definition NormalizeCurrency (value : string) : string := strings_ToUpper (strings_TrimSpace value).
Definition NormalizeBillingPeriodUnit (value : string) : string := strings_ToLower (strings_TrimSpace value).
Definition NormalizeRenewalMode (value : string) : string := strings_ToLower (strings_TrimSpace value).

Definition IsValidCurrency (value : string) : bool :=
  (String.length value =? 3)%nat && forallb upper_ascii (String.list_ascii_of_string value).

Definition IsValidStatus (status : string) : bool :=
  member status [StatusActive; StatusPaused; StatusCancelled; StatusExpired; StatusUnknown].

Definition IsValidBillingPeriodUnit (value : string) : bool :=
  member (NormalizeBillingPeriodUnit value)
    [BillingPeriodDay; BillingPeriodWeek; BillingPeriodMonth; BillingPeriodYear].

Definition IsValidRenewalMode (value : string) : bool :=
  member (NormalizeRenewalMode value) [RenewalModeAuto; RenewalModeManual; RenewalModeAutoCancelled].

Definition RenewalModeFromLegacyFlags (autoRenew autoRenewCancelled : bool) : string :=
  if autoRenewCancelled then RenewalModeAutoCancelled
  else if autoRenew then RenewalModeAuto else DefaultRenewalMode.

Definition LegacyRenewalFlags (mode : string) : bool * bool :=
  let mode := NormalizeRenewalMode mode in
  if mode =s RenewalModeAuto then (true, false)
  else if mode =s RenewalModeAutoCancelled then (false, true) else (false, false).

(** The labels seen so far are those kept so far. *)
Fixpoint normalize_labels (kept labels : list string) : list string :=
  match labels with
  | [] => kept
  | raw :: labels =>
      let label := strings_TrimSpace raw in
      if (label =s "") || member label kept then normalize_labels kept labels
      else normalize_labels (kept ++ [label]) labels
  end.

Definition NormalizeLabels (labels : list string) : list string := normalize_labels [] labels.

(** * Prices *)

(** [math.Round]: to the nearest integer, halves away from zero. *)
Definition f64_round (x : float64) : float64 :=
  match x with
  | S754_finite s m e =>
      if 0 <=? e then x
      else
        let scale := 2 ^ (- e) in
        let n := (2 * Z.pos m + scale) / (2 * scale) in
        if n =? 0 then S754_zero s else f64_of_Z (if s then - n else n)
  | _ => x
  end.

Definition f64_abs (x : float64) : float64 := SFabs x.

(** [int(math.Ceil(x))] of a finite number. *)
Definition f64_ceil_int (x : float64) : Z :=
  match x with
  | S754_finite s m e =>
      let n := if s then - Z.pos m else Z.pos m in
      if 0 <=? e then n * 2 ^ e else - (- n / 2 ^ (- e))
  | _ => 0
  end.

(** 9999999999.99 and 1e-9, the nearest numbers. *)
Definition maxPrice : float64 := f64_ratio 999999999999 100.
Definition priceScaleEpsilon : float64 := f64_ratio 1 1000000000.

Definition IsValidPrice (value : float64) : bool :=
  if f64_IsNaN value || f64_IsInf value || f64_lt value f64_zero || f64_gt value maxPrice then false
  else
    let scaled := f64_mul value (f64_of_Z 100) in
    f64_le (f64_abs (f64_sub scaled (f64_round scaled))) priceScaleEpsilon.

(** [math.Round(x * 10000) / 10000]. *)
Definition round4 (x : float64) : float64 :=
  f64_div (f64_round (f64_mul x (f64_of_Z 10000))) (f64_of_Z 10000).

Definition CalculateMonthlyPrice (price : float64) (billingMonths : Z) : float64 :=
  if billingMonths <=? 0 then f64_zero else round4 (f64_div price (f64_of_Z billingMonths)).

Definition CalculateMonthlyPriceForPeriod (price : float64) (unit : string) (length : Z) : float64 :=
  if length <=? 0 then f64_zero
  else
    let unit := NormalizeBillingPeriodUnit unit in
    let monthly months := if f64_le months f64_zero then f64_zero else round4 (f64_div price months) in
    if unit =s BillingPeriodDay then monthly (f64_div (f64_of_Z length) (f64_of_Z 30))
    else if unit =s BillingPeriodWeek then monthly (f64_div (f64_of_Z (wrap64 (length * 7))) (f64_of_Z 30))
    else if unit =s BillingPeriodMonth then monthly (f64_of_Z length)
    else if unit =s BillingPeriodYear then monthly (f64_of_Z (wrap64 (length * 12)))
    else CalculateMonthlyPrice price length.

(** * Billing periods *)

Definition BillingMonthsForPeriod (unit : string) (length : Z) : Z :=
  let length := if length <=? 0 then DefaultBillingPeriodLength else length in
  let unit := NormalizeBillingPeriodUnit unit in
  if unit =s BillingPeriodYear then wrap64 (length * 12)
  else if unit =s BillingPeriodMonth then length
  else if unit =s BillingPeriodWeek
  then Z.max 1 (f64_ceil_int (f64_div (f64_of_Z (wrap64 (length * 7))) (f64_of_Z 30)))
  else if unit =s BillingPeriodDay then Z.max 1 (f64_ceil_int (f64_div (f64_of_Z length) (f64_of_Z 30)))
  else length.

Definition cycle_name (one many : string) (length : Z) : string :=
  if length =? 1 then one else (fmt_d length +:+ " " +:+ many)%string.

Definition BillingCycleForPeriod (unit : string) (length : Z) : string :=
  let length := if length <=? 0 then DefaultBillingPeriodLength else length in
  let unit := NormalizeBillingPeriodUnit unit in
  if unit =s BillingPeriodDay then cycle_name "daily" "days" length
  else if unit =s BillingPeriodWeek then cycle_name "weekly" "weeks" length
  else if unit =s BillingPeriodMonth then cycle_name "monthly" "months" length
  else if unit =s BillingPeriodYear then cycle_name "annual" "years" length
  else "".

Example billing_period_example :
  BillingMonthsForPeriod "Year" 2 = 24 /\ BillingMonthsForPeriod "week" 6 = 2 /\ BillingMonthsForPeriod "day" 30 = 1
  /\ BillingCycleForPeriod "month" 3 = "3 months" /\ BillingCycleForPeriod "year" 1 = "annual".
Proof. vm_compute. auto 6. Qed.

(** * Create inputs *)

Definition NormalizeCreateInput (input : CreateInput) : CreateInput :=
  let unit := NormalizeBillingPeriodUnit (ci_BillingPeriodUnit input) in
  let unit := if unit =s "" then DefaultBillingPeriodUnit else unit in
  let length := if (ci_BillingPeriodLength input <=? 0) && (0 <? ci_BillingMonths input) && (unit =s BillingPeriodMonth)
                then ci_BillingMonths input else ci_BillingPeriodLength input in
  let months := if 0 <? length then BillingMonthsForPeriod unit length else ci_BillingMonths input in
  let cycle := strings_TrimSpace (ci_BillingCycle input) in
  let cycle := if (cycle =s "") && (0 <? length) then BillingCycleForPeriod unit length else cycle in
  let status := strings_TrimSpace (ci_Status input) in
  let mode := NormalizeRenewalMode (ci_RenewalMode input) in
  let mode := if mode =s "" then RenewalModeFromLegacyFlags (ci_AutoRenew input) (ci_AutoRenewCancelled input)
              else mode in
  let flags := LegacyRenewalFlags mode in {|
    ci_VPSID := strings_TrimSpace (ci_VPSID input);
    ci_Price := ci_Price input;
    ci_Currency := NormalizeCurrency (ci_Currency input);
    ci_BillingCycle := cycle;
    ci_BillingMonths := months;
    ci_BillingPeriodUnit := unit;
    ci_BillingPeriodLength := length;
    ci_StartedAt := ci_StartedAt input;
    ci_RenewAt := ci_RenewAt input;
    ci_AutoRenew := flags.1;
    ci_AutoRenewCancelled := flags.2;
    ci_RenewalMode := mode;
    ci_Status := if status =s "" then DefaultStatus else status;
    ci_PaymentMethod := strings_TrimSpace (ci_PaymentMethod input);
    ci_DisplayName := strings_TrimSpace (ci_DisplayName input);
    ci_CostCategory := strings_TrimSpace (ci_CostCategory input);
    ci_Labels := NormalizeLabels (ci_Labels input);
    ci_TrialEndsAt := ci_TrialEndsAt input;
    ci_EndsAt := ci_EndsAt input;
    ci_Note := strings_TrimSpace (ci_Note input) |}.

Definition ValidateCreateInput (input : CreateInput) : result () :=
  _ ← reject (strings_TrimSpace (ci_VPSID input) =s "") (invalidInput "vps_id is required");
  _ ← reject (negb (IsValidPrice (ci_Price input))) (invalidInput "price must be non-negative");
  _ ← reject (ci_BillingMonths input <=? 0) (invalidInput "billing_months must be greater than zero");
  _ ← reject (negb (IsValidBillingPeriodUnit (ci_BillingPeriodUnit input))) (invalidInput "invalid billing_period_unit");
  _ ← reject (ci_BillingPeriodLength input <=? 0) (invalidInput "billing_period_length must be greater than zero");
  _ ← reject (negb (IsValidCurrency (ci_Currency input))) (invalidInput "currency must be a 3-letter uppercase code");
  _ ← reject (negb (IsValidRenewalMode (ci_RenewalMode input))) (invalidInput "invalid renewal_mode");
  reject (negb (IsValidStatus (ci_Status input))) (invalidInput "invalid status").

(** * Patch inputs *)

(** The billing period of a patch: the unit and the length it names, or the month and the
    months it names, or one. *)
Definition normalize_period (input : PatchInput) : option (string * Z) :=
  match pi_BillingMonths input, pi_BillingPeriodUnit input, pi_BillingPeriodLength input with
  | None, None, None => None
  | months, unit, length =>
      let unit := match unit with
                  | Some unit => let unit := NormalizeBillingPeriodUnit unit in
                                 if unit =s "" then BillingPeriodMonth else unit
                  | None => BillingPeriodMonth
                  end in
      let length := match length, months with
                    | Some length, _ => length
                    | None, Some months => if unit =s BillingPeriodMonth then months else DefaultBillingPeriodLength
                    | None, None => DefaultBillingPeriodLength
                    end in
      Some (unit, length)
  end.

Definition NormalizePatchInput (input : PatchInput) : PatchInput :=
  let cycle := strings_TrimSpace <$> pi_BillingCycle input in
  let period := normalize_period input in
  let mode := NormalizeRenewalMode <$> pi_RenewalMode input in
  let flags := LegacyRenewalFlags <$> mode in {|
    pi_VPSID := strings_TrimSpace <$> pi_VPSID input;
    pi_Price := pi_Price input;
    pi_Currency := NormalizeCurrency <$> pi_Currency input;
    pi_BillingCycle :=
      match period with
      | Some (unit, length) =>
          if match cycle with Some c => c =s "" | None => true end && (0 <? length)
          then Some (BillingCycleForPeriod unit length) else cycle
      | None => cycle
      end;
    pi_BillingMonths :=
      match period with
      | Some (unit, length) => if 0 <? length then Some (BillingMonthsForPeriod unit length) else pi_BillingMonths input
      | None => pi_BillingMonths input
      end;
    pi_BillingPeriodUnit := fst <$> period;
    pi_BillingPeriodLength := snd <$> period;
    pi_StartedAt := pi_StartedAt input;
    pi_RenewAt := pi_RenewAt input;
    pi_AutoRenew := match flags with Some f => Some f.1 | None => pi_AutoRenew input end;
    pi_AutoRenewCancelled := match flags with Some f => Some f.2 | None => pi_AutoRenewCancelled input end;
    pi_RenewalMode := mode;
    pi_Status := strings_TrimSpace <$> pi_Status input;
    pi_PaymentMethod := strings_TrimSpace <$> pi_PaymentMethod input;
    pi_DisplayName := strings_TrimSpace <$> pi_DisplayName input;
    pi_CostCategory := strings_TrimSpace <$> pi_CostCategory input;
    pi_Labels := NormalizeLabels <$> pi_Labels input;
    pi_TrialEndsAt := pi_TrialEndsAt input;
    pi_EndsAt := pi_EndsAt input;
    pi_Note := strings_TrimSpace <$> pi_Note input |}.

Definition pi_with_renewal (mode : option string) (auto cancelled : bool) (input : PatchInput) : PatchInput := {|
  pi_VPSID := pi_VPSID input; pi_Price := pi_Price input; pi_Currency := pi_Currency input;
  pi_BillingCycle := pi_BillingCycle input; pi_BillingMonths := pi_BillingMonths input;
  pi_BillingPeriodUnit := pi_BillingPeriodUnit input; pi_BillingPeriodLength := pi_BillingPeriodLength input;
  pi_StartedAt := pi_StartedAt input; pi_RenewAt := pi_RenewAt input; pi_AutoRenew := Some auto;
  pi_AutoRenewCancelled := Some cancelled; pi_RenewalMode := mode; pi_Status := pi_Status input;
  pi_PaymentMethod := pi_PaymentMethod input; pi_DisplayName := pi_DisplayName input;
  pi_CostCategory := pi_CostCategory input; pi_Labels := pi_Labels input;
  pi_TrialEndsAt := pi_TrialEndsAt input; pi_EndsAt := pi_EndsAt input; pi_Note := pi_Note input |}.

Definition NormalizePatchAgainstRecord (current : SubscriptionRecord) (input : PatchInput) : PatchInput :=
  let input := NormalizePatchInput input in
  match pi_RenewalMode input, pi_AutoRenew input, pi_AutoRenewCancelled input with
  | Some _, _, _ | None, None, None => input
  | None, auto, cancelled =>
      let mode := NormalizeRenewalMode (su_RenewalMode current) in
      if member mode [RenewalModeAuto; RenewalModeManual; RenewalModeAutoCancelled] then
        let autoRenew := default (su_AutoRenew current) auto in
        let autoRenewCancelled := default (su_AutoRenewCancelled current) cancelled in
        let mode := RenewalModeFromLegacyFlags autoRenew autoRenewCancelled in
        let flags := LegacyRenewalFlags mode in
        pi_with_renewal (Some mode) flags.1 flags.2 input
      else if member mode [RenewalModeGift; RenewalModeLottery; RenewalModeBonus; RenewalModeOther]
      then pi_with_renewal None false false input
      else input
  end.

Definition set_and {A} (bad : A -> bool) (value : option A) : bool :=
  match value with Some v => bad v | None => false end.

Definition ValidatePatchInput (input : PatchInput) : result () :=
  _ ← reject (set_and (fun v => v =s "") (pi_VPSID input)) (invalidInput "vps_id is required");
  _ ← reject (set_and (fun v => negb (IsValidPrice v)) (pi_Price input)) (invalidInput "price must be non-negative");
  _ ← reject (set_and (fun v => v <=? 0) (pi_BillingMonths input)) (invalidInput "billing_months must be greater than zero");
  _ ← reject (set_and (fun v => negb (IsValidBillingPeriodUnit v)) (pi_BillingPeriodUnit input))
        (invalidInput "invalid billing_period_unit");
  _ ← reject (set_and (fun v => v <=? 0) (pi_BillingPeriodLength input))
        (invalidInput "billing_period_length must be greater than zero");
  _ ← reject (set_and (fun v => negb (IsValidCurrency v)) (pi_Currency input))
        (invalidInput "currency must be a 3-letter uppercase code");
  _ ← reject (set_and (fun v => negb (IsValidRenewalMode v)) (pi_RenewalMode input)) (invalidInput "invalid renewal_mode");
  reject (set_and (fun v => negb (IsValidStatus v)) (pi_Status input)) (invalidInput "invalid status").

Definition is_set {A} (value : option A) : bool := match value with Some _ => true | None => false end.

Definition HasChanges (input : PatchInput) : bool :=
  is_set (pi_VPSID input) || is_set (pi_Price input) || is_set (pi_Currency input) || is_set (pi_BillingCycle input)
  || is_set (pi_BillingMonths input) || is_set (pi_BillingPeriodUnit input) || is_set (pi_BillingPeriodLength input)
  || is_set (pi_StartedAt input) || is_set (pi_RenewAt input) || is_set (pi_AutoRenew input)
  || is_set (pi_AutoRenewCancelled input) || is_set (pi_RenewalMode input) || is_set (pi_Status input)
  || is_set (pi_PaymentMethod input) || is_set (pi_DisplayName input) || is_set (pi_CostCategory input)
  || is_set (pi_Labels input) || is_set (pi_TrialEndsAt input) || is_set (pi_EndsAt input) || is_set (pi_Note input).

(** * Idempotency keys *)

Definition InvalidIdempotencyKeyName : string := "invalid idempotency key".
Definition ErrInvalidIdempotencyKey : error := ErrSentinel InvalidIdempotencyKeyName.
Definition ErrIdempotencyKeyReused : error := ErrSentinel "idempotency key reused".

Definition MinIdempotencyKeyLength : nat := 8.
Definition MaxIdempotencyKeyLength : nat := 128.

(** [A-Za-z0-9._:-] *)
Definition key_ascii (a : Ascii.ascii) : bool :=
  let n := Ascii.nat_of_ascii a in
  ((65 <=? n) && (n <=? 90) || (97 <=? n) && (n <=? 122) || (48 <=? n) && (n <=? 57)
   || (n =? 46) || (n =? 95) || (n =? 58) || (n =? 45))%nat.

Definition NormalizeIdempotencyKey (key : string) : result string :=
  let normalized := strings_TrimSpace key in
  if ((String.length normalized <? MinIdempotencyKeyLength) || (MaxIdempotencyKeyLength <? String.length normalized))%nat
  then Err (ErrWrap "%w: length must be between %d and %d" ["8"; "128"] [ErrInvalidIdempotencyKey])
  else if negb (forallb key_ascii (String.list_ascii_of_string normalized))
  then Err (ErrWrap "%w: contains unsupported characters" [] [ErrInvalidIdempotencyKey])
  else Ok normalized.

(** * Properties of subscription inputs *)

(** Properties of subscription inputs: normalisation settles in one pass, and what is validated
    keeps the billing period and the renewal mode consistent. *)

(** * Names of billing cycles are trimmed *)

Definition digit_char (a : Ascii.ascii) : Prop := (48 <= Ascii.nat_of_ascii a <= 57)%nat.

Lemma pretty_N_char_digit x : digit_char (pretty_N_char x).
Proof. unfold digit_char, pretty_N_char. repeat case_match; vm_compute; lia. Qed.

Lemma pretty_N_go_digits x s : exists d, Forall digit_char d /\
  String.list_ascii_of_string (pretty_N_go x s) = d ++ String.list_ascii_of_string s.
Proof.
  revert s. induction (N.lt_wf_0 x) as [x _ IH]; intros s.
  destruct (decide (0 < x)%N) as [Hx|Hx]; [|replace x with 0%N by lia; by exists []].
  rewrite pretty_N_go_step by done.
  destruct (IH (x `div` 10)%N ltac:(by apply N.div_lt) (String.String (pretty_N_char (x `mod` 10)) s)) as (d & Hd & E).
  exists (d ++ [pretty_N_char (x `mod` 10)]). split.
  - apply Forall_app. split; [done|]. constructor; [apply pretty_N_char_digit|constructor].
  - rewrite E. by rewrite <- app_assoc.
Qed.

Lemma fmt_d_digits n : 0 < n -> exists a l, Forall digit_char (a :: l) /\
  String.list_ascii_of_string (fmt_d n) = a :: l.
Proof.
  intros Hn. unfold fmt_d. destruct n as [|p|]; [lia| |lia].
  change (pretty (Z.pos p)) with (pretty_N_go (N.pos p) "").
  destruct (pretty_N_go_digits (N.pos p) "") as (d & Hd & E). rewrite E. simpl. rewrite app_nil_r.
  destruct d as [|a l]; [|by exists a, l]. exfalso.
  rewrite pretty_N_go_step in E by done.
  destruct (pretty_N_go_digits (N.pos p `div` 10)%N (String.String (pretty_N_char (N.pos p `mod` 10)) "")) as (d & _ & E2).
  rewrite E2 in E. by destruct d.
Qed.

Lemma space1_graphic a : (33 <= Ascii.nat_of_ascii a)%nat -> space1 a = false.
Proof. intros H. destruct (space1 a) eqn:E; [|done]. apply space1_range in E. lia. Qed.

(** ASCII text with no white space at either end is trimmed. *)
Lemma ascii_trimmed s : Forall (fun a => (Ascii.nat_of_ascii a < 128)%nat) (String.list_ascii_of_string s) ->
  (forall a, head (String.list_ascii_of_string s) = Some a -> space1 a = false) ->
  (forall a, last (String.list_ascii_of_string s) = Some a -> space1 a = false) ->
  strings_TrimSpace s = s.
Proof.
  intros Ha Hh Hl. assert (forall a b, (Ascii.nat_of_ascii a < 128)%nat -> space2 a b = false) as H2.
  { intros a b H. destruct (space2 a b) eqn:E; [|done]. apply space2_range in E. lia. }
  assert (forall a b, (Ascii.nat_of_ascii b < 128)%nat -> space2 a b = false) as H2'.
  { intros a b H. destruct (space2 a b) eqn:E; [|done]. apply space2_range in E. lia. }
  assert (forall a b c, (Ascii.nat_of_ascii a < 128 \/ Ascii.nat_of_ascii c < 128)%nat -> space3 a b c = false) as H3.
  { intros a b c H. destruct (space3 a b c) eqn:E; [|done]. apply space3_range in E. lia. }
  apply trimmed_id; unfold trimmed_left, trimmed_right.
  - destruct (String.list_ascii_of_string s) as [|a l]; [done|]. apply Forall_cons in Ha as [Ha _].
    simpl. split; [by apply Hh|]. destruct l as [|b [|c l]]; auto.
  - destruct (rev (String.list_ascii_of_string s)) as [|a l] eqn:E; [done|].
    apply (rev_eq_app _ [a] l) in E. rewrite E in Ha, Hl. apply Forall_app in Ha as [_ Ha].
    simpl in Ha, Hl. apply Forall_cons in Ha as [Ha _].
    simpl. split; [apply Hl, last_snoc|]. destruct l as [|b [|c l]]; auto.
Qed.

(** What a pass over labels keeps: trimmed, not empty, without repetition. *)
Definition labels_ok (l : list string) : Prop :=
  NoDup l /\ Forall (fun label => strings_TrimSpace label = label /\ label <> "") l.

Lemma normalize_labels_ok labels kept : labels_ok kept -> labels_ok (normalize_labels kept labels).
Proof.
  revert kept. induction labels as [|raw labels IH]; intros kept Hk; [done|]. simpl.
  destruct ((strings_TrimSpace raw =s "") || member (strings_TrimSpace raw) kept) eqn:E; [by apply IH|].
  apply orb_false_iff in E as [E1 E2]. apply String.eqb_neq in E1. apply IH. destruct Hk as [Hnd Hf]. split.
  - apply NoDup_app. split_and!; [done| |apply NoDup_singleton].
    intros x Hx Hin%list_elem_of_singleton. subst. apply member_spec in Hx. congruence.
  - apply Forall_app. split; [done|]. constructor; [|constructor]. split; [apply strings_TrimSpace_idemp|done].
Qed.

Lemma normalize_labels_fixed labels kept : labels_ok (kept ++ labels) -> normalize_labels kept labels = kept ++ labels.
Proof.
  revert kept. induction labels as [|raw labels IH]; intros kept Hk; [by rewrite app_nil_r|]. simpl.
  assert (strings_TrimSpace raw = raw /\ raw <> "") as [Ht Hne].
  { destruct Hk as [_ Hf]. apply Forall_app in Hf as [_ Hf]. by apply Forall_cons in Hf as [Hf _]. }
  rewrite Ht. apply String.eqb_neq in Hne as ->.
  assert (member raw kept = false) as ->.
  { destruct (member raw kept) eqn:E; [|done]. apply member_spec in E. destruct Hk as [Hnd _].
    apply NoDup_app in Hnd as (_ & Hd & _). exfalso. apply (Hd raw E), list_elem_of_here. }
  simpl. rewrite IH; [by rewrite <- app_assoc|by rewrite <- app_assoc].
Qed.

Lemma NormalizeLabels_idemp labels : NormalizeLabels (NormalizeLabels labels) = NormalizeLabels labels.
Proof.
  unfold NormalizeLabels. apply normalize_labels_fixed. simpl. apply normalize_labels_ok. split; constructor.
Qed.

(** A name made of a count and a plural. *)
Lemma cycle_trimmed one many length :
  0 < length -> strings_TrimSpace one = one -> one <> "" ->
  Forall (fun a => (97 <= Ascii.nat_of_ascii a <= 122)%nat) (String.list_ascii_of_string many) -> many <> "" ->
  strings_TrimSpace (cycle_name one many length) = cycle_name one many length.
Proof.
  intros Hl Ho _ Hm Hne. unfold cycle_name. destruct (length =? 1); [done|].
  destruct (fmt_d_digits length Hl) as (a & l & Hd & E).
  assert (forall s t, String.list_ascii_of_string (s +:+ t) = String.list_ascii_of_string s ++ String.list_ascii_of_string t) as Happ.
  { intros s t. induction s as [|c s IH]; simpl; [done|by rewrite IH]. }
  apply ascii_trimmed; rewrite !Happ, E.
  - apply Forall_app. split; [eapply Forall_impl; [exact Hd|]; unfold digit_char; simpl; lia|].
    constructor; [vm_compute; lia|]. eapply Forall_impl; [exact Hm|]. simpl. lia.
  - simpl. intros b [= <-]. apply Forall_cons in Hd as [Hd _]. unfold digit_char in Hd. apply space1_graphic. lia.
  - intros b. destruct (String.list_ascii_of_string many) as [|c r] eqn:Em; [by destruct many|].
    rewrite app_assoc, last_app. simpl. rewrite last_cons. destruct (last r) as [z|] eqn:El; intros [= <-].
    + apply Forall_cons in Hm as [_ Hm]. rewrite Forall_forall in Hm. apply last_Some_elem_of, Hm in El.
      apply space1_graphic. lia.
    + apply Forall_cons in Hm as [Hm _]. apply space1_graphic. lia.
Qed.

Lemma BillingCycleForPeriod_trimmed unit length :
  strings_TrimSpace (BillingCycleForPeriod unit length) = BillingCycleForPeriod unit length.
Proof.
  unfold BillingCycleForPeriod. set (n := if length <=? 0 then _ else _).
  assert (0 < n) as Hn by (subst n; unfold DefaultBillingPeriodLength; destruct (Z.leb_spec length 0); lia).
  repeat case_match; try reflexivity;
    (apply cycle_trimmed; [done|vm_compute; reflexivity|discriminate| |discriminate];
     repeat (constructor; [vm_compute; lia|]); constructor).
Qed.

(** * Settled words *)

Definition settled_unit (value : string) : string :=
  let unit := NormalizeBillingPeriodUnit value in if unit =s "" then DefaultBillingPeriodUnit else unit.

Lemma settled_unit_spec value : NormalizeBillingPeriodUnit (settled_unit value) = settled_unit value /\ settled_unit value <> "".
Proof.
  unfold settled_unit. destruct (String.eqb_spec (NormalizeBillingPeriodUnit value) ""); [by split|].
  split; [apply lower_word_settled|done].
Qed.

Definition settled_mode (value : string) (auto cancelled : bool) : string :=
  let mode := NormalizeRenewalMode value in if mode =s "" then RenewalModeFromLegacyFlags auto cancelled else mode.

Lemma settled_mode_spec value auto cancelled :
  NormalizeRenewalMode (settled_mode value auto cancelled) = settled_mode value auto cancelled
  /\ settled_mode value auto cancelled <> "".
Proof.
  unfold settled_mode. destruct (String.eqb_spec (NormalizeRenewalMode value) "").
  - unfold RenewalModeFromLegacyFlags. by destruct cancelled, auto.
  - split; [apply lower_word_settled|done].
Qed.

(** Normalising a create request settles it in one pass, for every input: trimming, case
    mapping, the defaults of unit, length, months, cycle, status and mode, the legacy flags and the
    labels are all fixed points, so that the digest of a request does not depend on how often it was
    normalised on its way to the store. *)
Theorem normalize_create_settled input :
  NormalizeCreateInput (NormalizeCreateInput input) = NormalizeCreateInput input.
Proof.
  destruct (settled_unit_spec (ci_BillingPeriodUnit input)) as [Hu Hune].
  destruct (settled_mode_spec (ci_RenewalMode input) (ci_AutoRenew input) (ci_AutoRenewCancelled input)) as [Hm Hmne].
  unfold NormalizeCreateInput at 2 3. fold (settled_unit (ci_BillingPeriodUnit input)).
  fold (settled_mode (ci_RenewalMode input) (ci_AutoRenew input) (ci_AutoRenewCancelled input)).
  set (u := settled_unit _) in *. set (m := settled_mode _ _ _) in *. clearbody u m.
  set (n := if _ && _ && _ then ci_BillingMonths input else ci_BillingPeriodLength input).
  set (c := if (_ =s "") && _ then _ else _).
  assert (n <= 0 -> (0 <? ci_BillingMonths input) && (u =s BillingPeriodMonth) = false) as Hn.
  { intros H. subst n. destruct (Z.leb_spec (ci_BillingPeriodLength input) 0); [|simpl in *; lia]. simpl in *.
    destruct (Z.ltb_spec 0 (ci_BillingMonths input)); [|done]. simpl in *. by destruct (u =s BillingPeriodMonth); [lia|]. }
  clearbody n.
  assert (strings_TrimSpace c = c /\ (c = "" -> 0 < n -> BillingCycleForPeriod u n = "")) as [Hc Hce].
  { subst c. destruct (String.eqb_spec (strings_TrimSpace (ci_BillingCycle input)) "") as [E|E], (Z.ltb_spec 0 n); simpl;
      (split; [first [apply BillingCycleForPeriod_trimmed | apply strings_TrimSpace_idemp]|try done; lia]). }
  clearbody c. unfold NormalizeCreateInput. cbn [ci_VPSID ci_Price ci_Currency ci_BillingCycle ci_BillingMonths
    ci_BillingPeriodUnit ci_BillingPeriodLength ci_StartedAt ci_RenewAt ci_AutoRenew ci_AutoRenewCancelled ci_RenewalMode
    ci_Status ci_PaymentMethod ci_DisplayName ci_CostCategory ci_Labels ci_TrialEndsAt ci_EndsAt ci_Note].
  rewrite Hu, Hm, Hc, !strings_TrimSpace_idemp, NormalizeLabels_idemp, (upper_word_settled (ci_Currency input) : NormalizeCurrency (NormalizeCurrency _) = _).
  apply String.eqb_neq in Hune, Hmne. rewrite Hune, Hmne.
  assert ((n <=? 0) && (0 <? (if 0 <? n then BillingMonthsForPeriod u n else ci_BillingMonths input)) && (u =s BillingPeriodMonth) = false) as ->.
  { destruct (Z.leb_spec n 0); [|done]. rewrite (proj2 (Z.ltb_ge 0 n)) by lia. by apply Hn. }
  f_equal.
  - destruct (String.eqb_spec c ""), (Z.ltb_spec 0 n); simpl; try done. subst. auto.
  - by destruct (0 <? n).
  - by destruct (String.eqb_spec (strings_TrimSpace (ci_Status input)) "") as [E|E]; [|rewrite strings_TrimSpace_idemp; apply String.eqb_neq in E as ->].
Qed.
