(* ===== verification/RateWorker.v ===== *)
(** The exchange-rate worker of the subscription costs
    (src/internal/center/subscriptioncosts/worker.go): one sequential lane fetches the rates of
    the active currency pairs, retries failures and fills in month-end rates, while requests and
    status queries arrive from other goroutines.  Each critical section of the mutex is one
    atomic step; [step] interleaves the lane with the other callers. *)
From stdpp Require Import base list strings gmap fin_maps fin_map_dom.
From Stdlib Require Import ZArith Lia.
From S2P Require Import Prelude GoRuntime Settings Calendar ProviderErrors Subscriptions.

Local Open Scope Z_scope.
#[local] Set Warnings "-clear-no-such-hyp".

(** * Data *)

Definition ExchangeRateStatusIdentity : string := "identity".
Definition ExchangeRateStatusFresh : string := "fresh".
Definition ExchangeRateStatusStale : string := "stale".
Definition ExchangeRateStatusMissing : string := "missing".

Definition ExchangeRateRefreshStatusIdle : string := "idle".
Definition ExchangeRateRefreshStatusQueued : string := "queued".
Definition ExchangeRateRefreshStatusRunning : string := "running".
Definition ExchangeRateRefreshStatusFailed : string := "failed".

(** A [subscriptions.Date] is the time it wraps. *)
Record ExchangeRateRecord := {
  er_RateID : string;
  er_Provider : string;
  er_BaseCurrency : string;
  er_QuoteCurrency : string;
  er_Rate : float64;
  er_RateDate : Z;
  er_FetchedAt : Z;
  er_ErrorSummary : string;
  er_CreatedAt : Z;
  er_UpdatedAt : Z;
}.

Record ExchangeRatePair := {
  xp_Provider : string;
  xp_BaseCurrency : string;
  xp_QuoteCurrency : string;
  xp_RateStatus : string;
  xp_LatestRate : option ExchangeRateRecord;
}.

Record ExchangeRatePairStatus := {
  ps_Provider : string;
  ps_BaseCurrency : string;
  ps_QuoteCurrency : string;
  ps_RateStatus : string;
  ps_RefreshStatus : string;
  ps_LastAttemptAt : option Z;
  ps_NextRetryAt : option Z;
  ps_AttemptCount : Z;
  ps_ErrorSummary : string;
}.

Record ExchangeRateUpsert := {
  xu_Provider : string;
  xu_BaseCurrency : string;
  xu_QuoteCurrency : string;
  xu_Rate : float64;
  xu_RateDate : Z;
  xu_FetchedAt : Z;
  xu_ErrorSummary : string;
}.

Record MonthEndExchangeRateRequest := { mr_QuoteCurrency : string; mr_MonthEnd : Z }.

Record MonthEndExchangeRateUpsert := {
  mu_Provider : string;
  mu_BaseCurrency : string;
  mu_QuoteCurrency : string;
  mu_MonthEnd : Z;
  mu_Rate : float64;
  mu_RateDate : Z;
  mu_FetchedAt : Z;
}.

Record FetchedExchangeRate := { fx_Rate : float64; fx_RateDate : Z }.

(** [exchangeRateMaxAttempts] and [exchangeRateRetryDelays]: reading outside the array is a
    panic, here [None]. *)
Definition exchangeRateMaxAttempts : Z := 4.
Definition exchangeRateRetryDelays (i : Z) : option Z :=
  match i with 0 => Some (5 * Second) | 1 => Some (30 * Second) | 2 => Some (120 * Second) | _ => None end.

Definition monthEndBackfillWindowMonths : Z := 12.
Definition monthEndBackfillPerRound : Z := 6.

Record exchangeRateTaskState := {
  ts_pair : ExchangeRatePair;
  ts_rateStatus : string;
  ts_refreshStatus : string;
  ts_forcePending : bool;
  ts_workerDiscovered : bool;
  ts_lastAttemptAt : option Z;
  ts_nextRetryAt : option Z;
  ts_attemptCount : Z;
  ts_errorSummary : string;
}.

(** [w_wake] tells whether the channel of capacity one holds a signal. *)
Record ExchangeRateWorker := {
  w_states : gmap string exchangeRateTaskState;
  w_dirty : bool;
  w_forceDiscoveryPending : bool;
  w_settingsSignature : string;
  w_observedSettingsSignature : string;
  w_settingsRoundPending : bool;
  w_wake : bool;
  w_monthEndFailures : gset string;
}.

Definition NewExchangeRateWorker : ExchangeRateWorker := {|
  w_states := ∅; w_dirty := false; w_forceDiscoveryPending := false; w_settingsSignature := "";
  w_observedSettingsSignature := ""; w_settingsRoundPending := false; w_wake := false;
  w_monthEndFailures := ∅ |}.

Inductive exchangeRateRoundTrigger :=
| exchangeRateRoundReconcile
| exchangeRateRoundRetry
| exchangeRateRoundNew.

#[global] Instance trigger_eq_dec : EqDecision exchangeRateRoundTrigger.
Proof. solve_decision. Defined.

(** * Field updates *)

Definition ts_with_refresh (r : string) (s : exchangeRateTaskState) : exchangeRateTaskState := {|
  ts_pair := ts_pair s; ts_rateStatus := ts_rateStatus s; ts_refreshStatus := r;
  ts_forcePending := ts_forcePending s; ts_workerDiscovered := ts_workerDiscovered s;
  ts_lastAttemptAt := ts_lastAttemptAt s; ts_nextRetryAt := ts_nextRetryAt s;
  ts_attemptCount := ts_attemptCount s; ts_errorSummary := ts_errorSummary s |}.

Definition ts_with_force (f : bool) (s : exchangeRateTaskState) : exchangeRateTaskState := {|
  ts_pair := ts_pair s; ts_rateStatus := ts_rateStatus s; ts_refreshStatus := ts_refreshStatus s;
  ts_forcePending := f; ts_workerDiscovered := ts_workerDiscovered s;
  ts_lastAttemptAt := ts_lastAttemptAt s; ts_nextRetryAt := ts_nextRetryAt s;
  ts_attemptCount := ts_attemptCount s; ts_errorSummary := ts_errorSummary s |}.

Definition ts_with_discovered (s : exchangeRateTaskState) : exchangeRateTaskState := {|
  ts_pair := ts_pair s; ts_rateStatus := ts_rateStatus s; ts_refreshStatus := ts_refreshStatus s;
  ts_forcePending := ts_forcePending s; ts_workerDiscovered := true;
  ts_lastAttemptAt := ts_lastAttemptAt s; ts_nextRetryAt := ts_nextRetryAt s;
  ts_attemptCount := ts_attemptCount s; ts_errorSummary := ts_errorSummary s |}.

Definition ts_with_retry (next : option Z) (s : exchangeRateTaskState) : exchangeRateTaskState := {|
  ts_pair := ts_pair s; ts_rateStatus := ts_rateStatus s; ts_refreshStatus := ts_refreshStatus s;
  ts_forcePending := ts_forcePending s; ts_workerDiscovered := ts_workerDiscovered s;
  ts_lastAttemptAt := ts_lastAttemptAt s; ts_nextRetryAt := next;
  ts_attemptCount := ts_attemptCount s; ts_errorSummary := ts_errorSummary s |}.

(** [state.pair = pair] with its rate status. *)
Definition ts_with_pair (pair : ExchangeRatePair) (status : string) (s : exchangeRateTaskState)
    : exchangeRateTaskState := {|
  ts_pair := pair; ts_rateStatus := status; ts_refreshStatus := ts_refreshStatus s;
  ts_forcePending := ts_forcePending s; ts_workerDiscovered := ts_workerDiscovered s;
  ts_lastAttemptAt := ts_lastAttemptAt s; ts_nextRetryAt := ts_nextRetryAt s;
  ts_attemptCount := ts_attemptCount s; ts_errorSummary := ts_errorSummary s |}.

(** The four assignments that open a new failure budget. *)
Definition ts_reset_attempts (s : exchangeRateTaskState) : exchangeRateTaskState := {|
  ts_pair := ts_pair s; ts_rateStatus := ts_rateStatus s; ts_refreshStatus := ts_refreshStatus s;
  ts_forcePending := ts_forcePending s; ts_workerDiscovered := ts_workerDiscovered s;
  ts_lastAttemptAt := None; ts_nextRetryAt := None; ts_attemptCount := 0; ts_errorSummary := "" |}.

Definition w_with_states (states : gmap string exchangeRateTaskState) (w : ExchangeRateWorker)
    : ExchangeRateWorker := {|
  w_states := states; w_dirty := w_dirty w; w_forceDiscoveryPending := w_forceDiscoveryPending w;
  w_settingsSignature := w_settingsSignature w; w_observedSettingsSignature := w_observedSettingsSignature w;
  w_settingsRoundPending := w_settingsRoundPending w; w_wake := w_wake w;
  w_monthEndFailures := w_monthEndFailures w |}.

Definition needs_rate (status : string) : bool :=
  (status =s ExchangeRateStatusMissing) || (status =s ExchangeRateStatusStale).

Definition is_running (s : exchangeRateTaskState) : bool :=
  ts_refreshStatus s =s ExchangeRateRefreshStatusRunning.

Definition is_identity (s : exchangeRateTaskState) : bool :=
  ts_rateStatus s =s ExchangeRateStatusIdentity.

(** [state.refreshStatus == failed && state.nextRetryAt == nil]. *)
Definition exhausted (s : exchangeRateTaskState) : bool :=
  (ts_refreshStatus s =s ExchangeRateRefreshStatusFailed)
  && match ts_nextRetryAt s with None => true | Some _ => false end.

(** * Pairs *)

Definition deriveExchangeRateStatus (pair : ExchangeRatePair) (settings : SubscriptionCostSettings) (now : Z)
    : string :=
  if xp_QuoteCurrency pair =s xp_BaseCurrency pair then ExchangeRateStatusIdentity
  else match xp_LatestRate pair with
       | None => ExchangeRateStatusMissing
       | Some latest =>
           let age := wrap64 (wrap64 (- sc_ExchangeRateStaleAfterHours settings) * Hour) in
           if Time_Before (er_FetchedAt latest) (Time_Add now age)
           then ExchangeRateStatusStale else ExchangeRateStatusFresh
       end.

Definition normalizeExchangeRatePair (pair : ExchangeRatePair) (settings : SubscriptionCostSettings) (now : Z)
    : ExchangeRatePair :=
  let provider := if strings_TrimSpace (xp_Provider pair) =s "" then sc_ExchangeRateProvider settings
                  else xp_Provider pair in
  let base := if strings_TrimSpace (xp_BaseCurrency pair) =s "" then sc_BaseCurrency settings
              else xp_BaseCurrency pair in
  let pair := {|
    xp_Provider := strings_ToLower (strings_TrimSpace provider);
    xp_BaseCurrency := strings_ToUpper (strings_TrimSpace base);
    xp_QuoteCurrency := strings_ToUpper (strings_TrimSpace (xp_QuoteCurrency pair));
    xp_RateStatus := xp_RateStatus pair; xp_LatestRate := xp_LatestRate pair |} in
  if xp_RateStatus pair =s "" then {|
    xp_Provider := xp_Provider pair; xp_BaseCurrency := xp_BaseCurrency pair;
    xp_QuoteCurrency := xp_QuoteCurrency pair;
    xp_RateStatus := deriveExchangeRateStatus pair settings now; xp_LatestRate := xp_LatestRate pair |}
  else pair.

Definition exchangeRatePairKey (pair : ExchangeRatePair) : string :=
  (strings_ToLower (strings_TrimSpace (xp_Provider pair)) +:+ ":" +:+
   strings_ToUpper (strings_TrimSpace (xp_BaseCurrency pair)) +:+ ":" +:+
   strings_ToUpper (strings_TrimSpace (xp_QuoteCurrency pair)))%string.

Definition monthEndBackfillKey (provider baseCurrency : string) (request : MonthEndExchangeRateRequest) : string :=
  (provider +:+ "|" +:+ baseCurrency +:+ "|" +:+ mr_QuoteCurrency request +:+ "|" +:+
   Time_Format_date (mr_MonthEnd request))%string.

(** The key under which a pair read from the store is kept in a round. *)
Definition pair_key (settings : SubscriptionCostSettings) (now : Z) (pair : ExchangeRatePair) : string :=
  exchangeRatePairKey (normalizeExchangeRatePair pair settings now).

(** * The critical sections *)

(** The zero task state with the status idle. *)
Definition new_task_state (pair : ExchangeRatePair) : exchangeRateTaskState := {|
  ts_pair := pair; ts_rateStatus := ""; ts_refreshStatus := ExchangeRateRefreshStatusIdle;
  ts_forcePending := false; ts_workerDiscovered := false; ts_lastAttemptAt := None; ts_nextRetryAt := None;
  ts_attemptCount := 0; ts_errorSummary := "" |}.

(** The loop of [syncActivePairsLocked] on one state, in its order: the discovery by the worker
    consumes a pending forced discovery, a new pair is queued after a request, a new round opens
    the budget, and an identity pair is left idle while a forced one is queued. *)
Definition sync_discover (forceNewPairs workerDiscovery stateWasNew : bool) (s : exchangeRateTaskState)
    : exchangeRateTaskState :=
  if workerDiscovery && (stateWasNew || negb (ts_workerDiscovered s))
  then ts_with_discovered (if forceNewPairs && negb (is_identity s) then ts_with_force true s else s)
  else s.

Definition sync_queue_new (dirty stateWasNew : bool) (s : exchangeRateTaskState) : exchangeRateTaskState :=
  if stateWasNew && dirty && negb (is_identity s) && needs_rate (ts_rateStatus s)
  then ts_with_refresh ExchangeRateRefreshStatusQueued s else s.

Definition sync_new_round (newRound : bool) (s : exchangeRateTaskState) : exchangeRateTaskState :=
  if newRound then ts_with_refresh ExchangeRateRefreshStatusIdle (ts_reset_attempts s) else s.

Definition sync_settle (s : exchangeRateTaskState) : exchangeRateTaskState :=
  if is_identity s
  then ts_with_force false (ts_with_refresh ExchangeRateRefreshStatusIdle (ts_reset_attempts s))
  else if ts_forcePending s && negb (is_running s) then ts_with_refresh ExchangeRateRefreshStatusQueued s
  else s.

Definition sync_state (dirty forceNewPairs newRound workerDiscovery : bool) (pair : ExchangeRatePair)
    (status : string) (old : option exchangeRateTaskState) : exchangeRateTaskState :=
  let stateWasNew := match old with None => true | Some _ => false end in
  let s := ts_with_pair pair status (default (new_task_state pair) old) in
  sync_settle (sync_new_round newRound (sync_queue_new dirty stateWasNew
    (sync_discover forceNewPairs workerDiscovery stateWasNew s))).

Definition sync_pair (dirty forceNewPairs newRound workerDiscovery : bool)
    (settings : SubscriptionCostSettings) (now : Z)
    (states : gmap string exchangeRateTaskState) (pair : ExchangeRatePair)
    : gmap string exchangeRateTaskState :=
  let pair := normalizeExchangeRatePair pair settings now in
  let key := exchangeRatePairKey pair in
  let status := if xp_RateStatus pair =s "" then deriveExchangeRateStatus pair settings now
                else xp_RateStatus pair in
  <[key := sync_state dirty forceNewPairs newRound workerDiscovery pair status (states !! key)]> states.

Definition syncActivePairsLocked (pairs : list ExchangeRatePair) (settings : SubscriptionCostSettings)
    (now : Z) (newRound workerDiscovery : bool) (w : ExchangeRateWorker) : ExchangeRateWorker :=
  let forceNewPairs := workerDiscovery && w_forceDiscoveryPending w in
  let active := pair_key settings now <$> pairs in
  let states := foldl (sync_pair (w_dirty w) forceNewPairs newRound workerDiscovery settings now)
                  (w_states w) pairs in
  {| w_states := filter (fun kv => kv.1 ∈ active) states; w_dirty := w_dirty w;
     w_forceDiscoveryPending := if workerDiscovery then false else w_forceDiscoveryPending w;
     w_settingsSignature := w_settingsSignature w; w_observedSettingsSignature := w_observedSettingsSignature w;
     w_settingsRoundPending := w_settingsRoundPending w; w_wake := w_wake w;
     w_monthEndFailures := w_monthEndFailures w |}.

(** One state in the loop of [RequestRefresh]. *)
Definition request_state (force : bool) (s : exchangeRateTaskState) : exchangeRateTaskState :=
  if is_identity s || is_running s then s
  else if force then ts_with_refresh ExchangeRateRefreshStatusQueued (ts_with_force true s)
  else if negb (needs_rate (ts_rateStatus s)) then s
  else if exhausted s then s
  else ts_with_refresh ExchangeRateRefreshStatusQueued s.

Definition RequestRefresh (force : bool) (w : ExchangeRateWorker) : ExchangeRateWorker := {|
  w_states := request_state force <$> w_states w; w_dirty := true;
  w_forceDiscoveryPending := force || w_forceDiscoveryPending w;
  w_settingsSignature := w_settingsSignature w; w_observedSettingsSignature := w_observedSettingsSignature w;
  w_settingsRoundPending := w_settingsRoundPending w; w_wake := true;
  w_monthEndFailures := w_monthEndFailures w |}.

(** A state of the first loop of [Status], when the settings changed. *)
Definition reopen_state (s : exchangeRateTaskState) : exchangeRateTaskState :=
  if is_identity s || is_running s then s
  else if negb (needs_rate (ts_rateStatus s)) then s
  else ts_with_refresh ExchangeRateRefreshStatusQueued (ts_reset_attempts s).

(** A state of the second loop, while a forced discovery is pending. *)
Definition project_state (s : exchangeRateTaskState) : exchangeRateTaskState :=
  if ts_workerDiscovered s || is_identity s || is_running s then s
  else ts_with_refresh ExchangeRateRefreshStatusQueued s.

Definition task_status (s : exchangeRateTaskState) : ExchangeRatePairStatus := {|
  ps_Provider := xp_Provider (ts_pair s); ps_BaseCurrency := xp_BaseCurrency (ts_pair s);
  ps_QuoteCurrency := xp_QuoteCurrency (ts_pair s); ps_RateStatus := ts_rateStatus s;
  ps_RefreshStatus := ts_refreshStatus s; ps_LastAttemptAt := ts_lastAttemptAt s;
  ps_NextRetryAt := ts_nextRetryAt s; ps_AttemptCount := ts_attemptCount s;
  ps_ErrorSummary := ts_errorSummary s |}.

Definition status_less (l r : ExchangeRatePairStatus) : bool :=
  if ps_Provider l <>s ps_Provider r then string_less (ps_Provider l) (ps_Provider r)
  else if ps_BaseCurrency l <>s ps_BaseCurrency r then string_less (ps_BaseCurrency l) (ps_BaseCurrency r)
  else string_less (ps_QuoteCurrency l) (ps_QuoteCurrency r).

(** [claimPairFetch] on the state of the pair. *)
Definition claim_state (now : Z) (trigger : exchangeRateRoundTrigger) (s : exchangeRateTaskState)
    : bool * exchangeRateTaskState :=
  if is_running s then (false, s)
  else if is_identity s
  then (false, ts_with_refresh ExchangeRateRefreshStatusIdle (ts_with_retry None s))
  else
    let retryDue := match ts_nextRetryAt s with Some next => negb (Time_After next now) | None => false end in
    let retryLater := match ts_nextRetryAt s with Some next => Time_After next now | None => false end in
    let refused :=
      if ts_forcePending s then false
      else if retryDue then false
      else negb (needs_rate (ts_rateStatus s)) || exhausted s || retryLater
           || bool_decide (trigger = exchangeRateRoundRetry) in
    if refused then (false, s)
    else
      let s := if ts_forcePending s then ts_reset_attempts s else s in
      (true, {| ts_pair := ts_pair s; ts_rateStatus := ts_rateStatus s;
                ts_refreshStatus := ExchangeRateRefreshStatusRunning; ts_forcePending := false;
                ts_workerDiscovered := ts_workerDiscovered s; ts_lastAttemptAt := Some now;
                ts_nextRetryAt := None; ts_attemptCount := ts_attemptCount s + 1;
                ts_errorSummary := ts_errorSummary s |}).

Definition claimPairFetch (key : string) (pair : ExchangeRatePair) (now : Z)
    (trigger : exchangeRateRoundTrigger) (w : ExchangeRateWorker) : bool * ExchangeRateWorker :=
  if xp_QuoteCurrency pair =s xp_BaseCurrency pair then (false, w)
  else match w_states w !! key with
       | None => (false, w)
       | Some s => let '(claimed, s) := claim_state now trigger s in
                   (claimed, w_with_states (<[key := s]> (w_states w)) w)
       end.

(** The assignments at the end of [fetchPair]. *)
Definition fetched_state (providerName : string) (pair : ExchangeRatePair) (fetched : FetchedExchangeRate)
    (now : Z) (s : exchangeRateTaskState) : exchangeRateTaskState := {|
  ts_pair := {|
    xp_Provider := xp_Provider (ts_pair s); xp_BaseCurrency := xp_BaseCurrency (ts_pair s);
    xp_QuoteCurrency := xp_QuoteCurrency (ts_pair s); xp_RateStatus := xp_RateStatus (ts_pair s);
    xp_LatestRate := Some {|
      er_RateID := ""; er_Provider := providerName; er_BaseCurrency := xp_BaseCurrency pair;
      er_QuoteCurrency := xp_QuoteCurrency pair; er_Rate := fx_Rate fetched;
      er_RateDate := fx_RateDate fetched; er_FetchedAt := now; er_ErrorSummary := "";
      er_CreatedAt := Time_zero; er_UpdatedAt := Time_zero |} |};
  ts_rateStatus := ExchangeRateStatusFresh; ts_refreshStatus := ExchangeRateRefreshStatusIdle;
  ts_forcePending := ts_forcePending s; ts_workerDiscovered := ts_workerDiscovered s;
  ts_lastAttemptAt := Some now; ts_nextRetryAt := None; ts_attemptCount := 0; ts_errorSummary := "" |}.

(** [recordFailure] on the state; [None] when the delay table is read out of range. *)
Definition failed_state (pair : ExchangeRatePair) (summary : string) (now : Z) (s : exchangeRateTaskState)
    : option exchangeRateTaskState :=
  let attempts := if ts_attemptCount s =? 0 then 1 else ts_attemptCount s in
  let finish refresh next := {|
    ts_pair := pair; ts_rateStatus := ts_rateStatus s; ts_refreshStatus := refresh;
    ts_forcePending := ts_forcePending s; ts_workerDiscovered := ts_workerDiscovered s;
    ts_lastAttemptAt := Some now; ts_nextRetryAt := next; ts_attemptCount := attempts;
    ts_errorSummary := summary |} in
  if attempts <? exchangeRateMaxAttempts
  then delay ← exchangeRateRetryDelays (attempts - 1);
       Some (finish ExchangeRateRefreshStatusQueued (Some (Time_Add now delay)))
  else Some (finish ExchangeRateRefreshStatusFailed None).

Definition takeRefreshRequest (w : ExchangeRateWorker) : ExchangeRateWorker := {|
  w_states := w_states w; w_dirty := false; w_forceDiscoveryPending := w_forceDiscoveryPending w;
  w_settingsSignature := w_settingsSignature w; w_observedSettingsSignature := w_observedSettingsSignature w;
  w_settingsRoundPending := w_settingsRoundPending w; w_wake := w_wake w;
  w_monthEndFailures := w_monthEndFailures w |}.

(** The signal taken from the channel. *)
Definition take_wake (w : ExchangeRateWorker) : ExchangeRateWorker := {|
  w_states := w_states w; w_dirty := w_dirty w; w_forceDiscoveryPending := w_forceDiscoveryPending w;
  w_settingsSignature := w_settingsSignature w; w_observedSettingsSignature := w_observedSettingsSignature w;
  w_settingsRoundPending := w_settingsRoundPending w; w_wake := false;
  w_monthEndFailures := w_monthEndFailures w |}.

Definition with_failures (failures : gset string) (w : ExchangeRateWorker) : ExchangeRateWorker := {|
  w_states := w_states w; w_dirty := w_dirty w; w_forceDiscoveryPending := w_forceDiscoveryPending w;
  w_settingsSignature := w_settingsSignature w; w_observedSettingsSignature := w_observedSettingsSignature w;
  w_settingsRoundPending := w_settingsRoundPending w; w_wake := w_wake w; w_monthEndFailures := failures |}.

(** [nextRetryAt]: the earliest retry; the zero time stands for none while the loop runs. *)
Definition nextRetryAt (w : ExchangeRateWorker) : option Z :=
  let next := map_fold (fun _ s next =>
    match ts_nextRetryAt s with
    | None => next
    | Some t => if Time_IsZero next || Time_Before t next then t else next
    end) Time_zero (w_states w) in
  if Time_IsZero next then None else Some next.

(** * The lane and its environment *)

Record round := {
  ro_settings : SubscriptionCostSettings;
  ro_now : Z;
  ro_trigger : exchangeRateRoundTrigger;
  ro_new : bool;
}.

(** Where [Run] stands: before its start, in the [select] with the retry timer it armed, at the
    reads of [runRound], in the loop over the pairs, in a request for a pair, at the read of
    [backfillMonthEndRates], in its loop, in a request for a month end, or returned. *)
Inductive lane :=
| NotStarted
| Selecting (armed : option Z)
| Reading (trigger : exchangeRateRoundTrigger)
| Pairs (r : round) (rest : list ExchangeRatePair)
| Fetching (r : round) (rest : list ExchangeRatePair) (key : string) (pair : ExchangeRatePair)
| Listing (r : round)
| Filling (r : round) (rest : list MonthEndExchangeRateRequest) (attempts : Z)
| FillingOne (r : round) (rest : list MonthEndExchangeRateRequest) (attempts : Z)
    (key : string) (request : MonthEndExchangeRateRequest)
| Stopped
| Panicked.

(** What the worker does to the world outside. *)
Inductive effect :=
| Fetch (key : string) (pair : ExchangeRatePair) (at_ : Z)
| Upsert (u : ExchangeRateUpsert)
| FetchOn (key : string) (request : MonthEndExchangeRateRequest)
| UpsertMonthEnd (u : MonthEndExchangeRateUpsert).

Record system := {
  y_worker : ExchangeRateWorker;
  y_lane : lane;
  y_cancelled : bool;
  y_log : list effect;
}.

Inductive select_arm := ArmDone | ArmWake | ArmPeriodic | ArmReconcile | ArmRetry.

(** One step of the lane, or of another goroutine, with the answers it gets: settings and pairs
    from the store, the clock, the provider ([None]: none is configured under the name), the
    store's answer to the upsert. *)
Inductive event :=
| EvCancel
| EvRequest (force : bool)
| EvStatus (settings : SubscriptionCostSettings) (pairs : list ExchangeRatePair) (now : Z)
| EvRun
| EvSelect (arm : select_arm)
| EvRead (answer : option (SubscriptionCostSettings * list ExchangeRatePair * Z))
| EvPair
| EvFetched (start : Z) (answer : option (result FetchedExchangeRate)) (stored : result unit) (failed_at : Z)
| EvListed (historical : bool) (answer : option (list MonthEndExchangeRateRequest))
| EvMonth
| EvMonthFetched (answer : result FetchedExchangeRate) (stored : result unit) (stored_at : Z).

Definition positive_rate (rate : float64) : bool :=
  negb (f64_le rate f64_zero || f64_IsNaN rate || f64_IsInf rate).

Section Worker.

(** [sha256.Sum256] in hexadecimal, and [err.Error()]. *)
Context (sha256_hex : string -> string) (error_text : error -> string).

Definition exchangeRateSettingsSignature (settings : SubscriptionCostSettings) : string :=
  let zero := String.String Ascii.zero "" in
  sha256_hex (strings_ToLower (strings_TrimSpace (sc_ExchangeRateProvider settings)) +:+ zero +:+
              strings_ToUpper (strings_TrimSpace (sc_BaseCurrency settings)) +:+ zero +:+
              sc_FixerAPIKey settings)%string.

(** The critical section of [Status], and the list it returns. *)
Definition Status (settings : SubscriptionCostSettings) (pairs : list ExchangeRatePair) (now : Z)
    (w : ExchangeRateWorker) : list ExchangeRatePairStatus * ExchangeRateWorker :=
  let signature := exchangeRateSettingsSignature settings in
  let settingsChanged := w_observedSettingsSignature w <>s signature in
  let w := syncActivePairsLocked pairs settings now false false w in
  let reopened := settingsChanged && (w_observedSettingsSignature w <>s "")
                  && (w_settingsSignature w <>s signature) in
  let states := if reopened then reopen_state <$> w_states w else w_states w in
  let states := if w_forceDiscoveryPending w then project_state <$> states else states in
  let w := {| w_states := states; w_dirty := w_dirty w;
              w_forceDiscoveryPending := w_forceDiscoveryPending w;
              w_settingsSignature := w_settingsSignature w;
              w_observedSettingsSignature := if settingsChanged then signature else w_observedSettingsSignature w;
              w_settingsRoundPending := if reopened then true else w_settingsRoundPending w;
              w_wake := w_wake w; w_monthEndFailures := w_monthEndFailures w |} in
  let status := omap (fun pair => task_status <$> w_states w !! exchangeRatePairKey pair) pairs in
  (sort_stable status_less status, w).

(** The critical section at the start of [runRound]: whether a new round starts, and the worker. *)
Definition begin_round (trigger : exchangeRateRoundTrigger) (settings : SubscriptionCostSettings)
    (pairs : list ExchangeRatePair) (now : Z) (w : ExchangeRateWorker) : bool * ExchangeRateWorker :=
  let signature := exchangeRateSettingsSignature settings in
  let newRound := bool_decide (trigger = exchangeRateRoundNew) || w_settingsRoundPending w
                  || ((w_settingsSignature w <>s "") && (w_settingsSignature w <>s signature)) in
  let w := {| w_states := w_states w; w_dirty := w_dirty w;
              w_forceDiscoveryPending := w_forceDiscoveryPending w;
              w_settingsSignature := signature; w_observedSettingsSignature := signature;
              w_settingsRoundPending := false; w_wake := w_wake w;
              w_monthEndFailures := w_monthEndFailures w |} in
  (newRound, syncActivePairsLocked pairs settings now newRound true w).

Definition fetch_provider (settings : SubscriptionCostSettings) (pair : ExchangeRatePair) : string :=
  if xp_Provider pair =s "" then sc_ExchangeRateProvider settings else xp_Provider pair.

(** [fetchPair] outside the lock: the rate it stored, or the error, with its call of the store. *)
Definition fetchPair (settings : SubscriptionCostSettings) (pair : ExchangeRatePair) (now : Z)
    (answer : option (result FetchedExchangeRate)) (stored : result unit)
    : result FetchedExchangeRate * list effect :=
  let providerName := fetch_provider settings pair in
  match answer with
  | None => (Err (ErrWrap "exchange rate provider %q is not configured" [providerName] []), [])
  | Some (Err err) => (Err err, [])
  | Some (Ok fetched) =>
      if negb (positive_rate (fx_Rate fetched))
      then (Err (ErrNew "exchange rate must be a finite positive number"), [])
      else
        let fetched := if Time_IsZero (fx_RateDate fetched)
                       then {| fx_Rate := fx_Rate fetched; fx_RateDate := NewDate now |} else fetched in
        let call := Upsert {|
          xu_Provider := providerName; xu_BaseCurrency := xp_BaseCurrency pair;
          xu_QuoteCurrency := xp_QuoteCurrency pair; xu_Rate := fx_Rate fetched;
          xu_RateDate := fx_RateDate fetched; xu_FetchedAt := now; xu_ErrorSummary := "" |} in
        match stored with
        | Err err => (Err err, [call])
        | Ok _ => (Ok fetched, [call])
        end
  end.

(** [fetchMonthEndRate]. *)
Definition fetchMonthEndRate (settings : SubscriptionCostSettings) (request : MonthEndExchangeRateRequest)
    (answer : result FetchedExchangeRate) (stored : result unit) (now : Z) : result unit * list effect :=
  match answer with
  | Err err => (Err err, [])
  | Ok fetched =>
      let monthStart := Time_Date (Time_Year (mr_MonthEnd request)) (Time_Month (mr_MonthEnd request)) 1 in
      if negb (positive_rate (fx_Rate fetched))
      then (Err (ErrNew "exchange rate must be a finite positive number"), [])
      else if Time_Before (fx_RateDate fetched) monthStart || Time_After (fx_RateDate fetched) (mr_MonthEnd request)
      then (Err (ErrNew "provider returned no rate within the requested month"), [])
      else (stored, [UpsertMonthEnd {|
             mu_Provider := sc_ExchangeRateProvider settings; mu_BaseCurrency := sc_BaseCurrency settings;
             mu_QuoteCurrency := mr_QuoteCurrency request; mu_MonthEnd := mr_MonthEnd request;
             mu_Rate := fx_Rate fetched; mu_RateDate := fx_RateDate fetched; mu_FetchedAt := now |}])
  end.

(** * Steps *)

Definition at_lane (l : lane) (w : ExchangeRateWorker) (effects : list effect) (y : system) : system := {|
  y_worker := w; y_lane := l; y_cancelled := y_cancelled y; y_log := y_log y ++ effects |}.

(** [runRound] returned, with or without an error: [Run] stops if the context is done and there
    was an error, else it arms the retry timer and selects again. *)
Definition end_round (failed : bool) (w : ExchangeRateWorker) (effects : list effect) (y : system) : system :=
  at_lane (if failed && y_cancelled y then Stopped else Selecting (nextRetryAt w)) w effects y.

Definition step_select (arm : select_arm) (armed : option Z) (y : system) : option system :=
  let w := y_worker y in
  match arm with
  | ArmDone => if y_cancelled y then Some (at_lane Stopped w [] y) else None
  | ArmWake => if w_wake w
               then Some (at_lane (Reading exchangeRateRoundReconcile) (takeRefreshRequest (take_wake w)) [] y)
               else None
  | ArmPeriodic => Some (at_lane (Reading exchangeRateRoundNew) w [] y)
  | ArmReconcile => Some (at_lane (Reading exchangeRateRoundReconcile) w [] y)
  | ArmRetry => match armed with
                | Some _ => Some (at_lane (Reading exchangeRateRoundRetry) w [] y)
                | None => None
                end
  end.

Definition step_pair (r : round) (rest : list ExchangeRatePair) (y : system) : system :=
  let w := y_worker y in
  match rest with
  | [] => at_lane (Listing r) w [] y
  | next :: rest =>
      if y_cancelled y then end_round true w [] y
      else
        let pair := normalizeExchangeRatePair next (ro_settings r) (ro_now r) in
        let key := exchangeRatePairKey pair in
        let '(claimed, w) := claimPairFetch key pair (ro_now r) (ro_trigger r) w in
        if claimed then at_lane (Fetching r rest key pair) w [Fetch key pair (ro_now r)] y
        else at_lane (Pairs r rest) w [] y
  end.

Definition step_fetched (r : round) (rest : list ExchangeRatePair) (key : string) (pair : ExchangeRatePair)
    (start : Z) (answer : option (result FetchedExchangeRate)) (stored : result unit) (failed_at : Z)
    (y : system) : system :=
  let w := y_worker y in
  let '(outcome, effects) := fetchPair (ro_settings r) pair start answer stored in
  match outcome with
  | Ok fetched =>
      let update := fetched_state (fetch_provider (ro_settings r) pair) pair fetched start in
      at_lane (Pairs r rest) (w_with_states (alter update key (w_states w)) w) effects y
  | Err err =>
      if y_cancelled y then end_round true w effects y
      else match w_states w !! key with
           | None => at_lane (Pairs r rest) w effects y
           | Some s =>
               match failed_state pair (sanitizeProviderError (error_text err)) failed_at s with
               | Some s => at_lane (Pairs r rest) (w_with_states (<[key := s]> (w_states w)) w) effects y
               | None => at_lane Panicked w effects y
               end
           end
  end.

Definition step_listed (r : round) (historical : bool) (answer : option (list MonthEndExchangeRateRequest))
    (y : system) : system :=
  let w := if ro_new r then with_failures ∅ (y_worker y) else y_worker y in
  if sc_ExchangeRateProvider (ro_settings r) <>s "frankfurter" then end_round false w [] y
  else if negb historical then end_round false w [] y
  else match answer with
       | None => end_round true w [] y
       | Some requests => at_lane (Filling r requests 0) w [] y
       end.

Definition step_month (r : round) (rest : list MonthEndExchangeRateRequest) (attempts : Z) (y : system) : system :=
  let w := y_worker y in
  match rest with
  | [] => end_round false w [] y
  | request :: rest =>
      let key := monthEndBackfillKey (sc_ExchangeRateProvider (ro_settings r)) (sc_BaseCurrency (ro_settings r)) request in
      if monthEndBackfillPerRound <=? attempts then end_round false w [] y
      else if bool_decide (key ∈ w_monthEndFailures w) then at_lane (Filling r rest attempts) w [] y
      else if y_cancelled y then end_round true w [] y
      else at_lane (FillingOne r rest (attempts + 1) key request) w [FetchOn key request] y
  end.

Definition step_month_fetched (r : round) (rest : list MonthEndExchangeRateRequest) (attempts : Z) (key : string)
    (request : MonthEndExchangeRateRequest) (answer : result FetchedExchangeRate) (stored : result unit)
    (stored_at : Z) (y : system) : system :=
  let w := y_worker y in
  match fetchMonthEndRate (ro_settings r) request answer stored stored_at with
  | (Ok _, effects) => at_lane (Filling r rest attempts) w effects y
  | (Err _, effects) =>
      if y_cancelled y then end_round true w effects y
      else at_lane (Filling r rest attempts) (with_failures ({[key]} ∪ w_monthEndFailures w) w) effects y
  end.

(** [None]: the event cannot happen there. *)
Definition step (ev : event) (y : system) : option system :=
  let w := y_worker y in
  match ev, y_lane y with
  | EvCancel, _ => Some {| y_worker := w; y_lane := y_lane y; y_cancelled := true; y_log := y_log y |}
  | EvRequest force, _ => Some (at_lane (y_lane y) (RequestRefresh force w) [] y)
  | EvStatus settings pairs now, _ => Some (at_lane (y_lane y) (Status settings pairs now w).2 [] y)
  | EvRun, NotStarted => Some (at_lane (Reading exchangeRateRoundNew) (takeRefreshRequest w) [] y)
  | EvSelect arm, Selecting armed => step_select arm armed y
  | EvRead None, Reading _ => Some (end_round true w [] y)
  | EvRead (Some (settings, pairs, now)), Reading trigger =>
      let '(newRound, w) := begin_round trigger settings pairs now w in
      let r := {| ro_settings := settings; ro_now := now;
                  ro_trigger := if newRound then exchangeRateRoundNew else trigger; ro_new := newRound |} in
      Some (at_lane (Pairs r pairs) w [] y)
  | EvPair, Pairs r rest => Some (step_pair r rest y)
  | EvFetched start answer stored failed_at, Fetching r rest key p =>
      Some (step_fetched r rest key p start answer stored failed_at y)
  | EvListed historical answer, Listing r => Some (step_listed r historical answer y)
  | EvMonth, Filling r rest attempts => Some (step_month r rest attempts y)
  | EvMonthFetched answer stored stored_at, FillingOne r rest attempts key request =>
      Some (step_month_fetched r rest attempts key request answer stored stored_at y)
  | _, _ => None
  end.

Fixpoint run (evs : list event) (y : system) : option system :=
  match evs with
  | [] => Some y
  | ev :: evs => y ← step ev y; run evs y
  end.

End Worker.

(** A worker that was just made. *)
Definition initial : system := {|
  y_worker := NewExchangeRateWorker; y_lane := NotStarted; y_cancelled := false; y_log := [] |}.
