(* ===== verification/RateWorkerProps.v ===== *)
(** Properties of the exchange-rate worker: the invariant of its states under every
    interleaving, the failure budget, forced refreshes, and what it stores. *)
From stdpp Require Import base list strings gmap fin_maps fin_map_dom.
From Stdlib Require Import ZArith Lia.
From S2P Require Import Prelude GoRuntime Settings Calendar ProviderErrors Subscriptions RateWorker.

Local Open Scope Z_scope.
#[local] Set Warnings "-clear-no-such-hyp".

(** * The invariant of a task state *)

(** [fetched]: the lane may be in a request for the pair; [awaited]: the pair is still to come in
    the round. *)
Record task_ok (fetched awaited : Prop) (s : exchangeRateTaskState) : Prop := {
  to_attempts : 0 <= ts_attemptCount s <= 4;
  to_retry : forall t, ts_nextRetryAt s = Some t ->
    ts_refreshStatus s = ExchangeRateRefreshStatusQueued /\ 1 <= ts_attemptCount s <= 3;
  to_failed : ts_refreshStatus s = ExchangeRateRefreshStatusFailed ->
    ts_nextRetryAt s = None /\ ts_attemptCount s = 4;
  to_running : ts_refreshStatus s = ExchangeRateRefreshStatusRunning ->
    fetched /\ ts_forcePending s = false /\ 1 <= ts_attemptCount s;
  to_spent : ts_attemptCount s = 4 -> ts_refreshStatus s <> ExchangeRateRefreshStatusRunning ->
    ts_refreshStatus s = ExchangeRateRefreshStatusFailed \/ ts_forcePending s = true;
  to_undiscovered : ts_workerDiscovered s = false ->
    ts_attemptCount s <= 1 /\ (awaited -> ts_attemptCount s = 0);
  to_identity : ts_rateStatus s = ExchangeRateStatusIdentity -> ts_attemptCount s <= 1;
}.

Lemma is_running_spec s : is_running s = true <-> ts_refreshStatus s = ExchangeRateRefreshStatusRunning.
Proof. apply String.eqb_eq. Qed.

Lemma not_running s : is_running s = false <-> ts_refreshStatus s <> ExchangeRateRefreshStatusRunning.
Proof. apply String.eqb_neq. Qed.

Lemma not_identity s : is_identity s = false <-> ts_rateStatus s <> ExchangeRateStatusIdentity.
Proof. apply String.eqb_neq. Qed.

Section Tasks.
Context (f a : Prop).
Implicit Types s : exchangeRateTaskState.

Lemma task_ok_mono (f' a' : Prop) s : (f -> f') -> (a' -> a) -> task_ok f a s -> task_ok f' a' s.
Proof. intros Hf Ha []. constructor; intuition eauto. Qed.

(** A state whose budget was just opened, idle or queued. *)
Lemma reset_ok r s : r = ExchangeRateRefreshStatusIdle \/ r = ExchangeRateRefreshStatusQueued ->
  task_ok f a (ts_with_refresh r (ts_reset_attempts s)).
Proof. intros [-> | ->]; constructor; simpl; intros; (done || lia). Qed.

Lemma queued_ok s : task_ok f a s -> is_running s = false -> (ts_attemptCount s = 4 -> ts_forcePending s = true) ->
  task_ok f a (ts_with_refresh ExchangeRateRefreshStatusQueued s).
Proof.
  intros [] Hr%not_running H4. constructor; simpl; try done; [intros; split; [done|eapply to_retry0; eauto] | auto].
Qed.

Lemma force_ok s : task_ok f a s -> is_running s = false -> task_ok f a (ts_with_force true s).
Proof. intros [] Hr%not_running. constructor; simpl; try done; auto. Qed.

Lemma discovered_ok s : task_ok f a s -> task_ok f a (ts_with_discovered s).
Proof. intros []. constructor; simpl; done. Qed.

Lemma pair_ok p status s : task_ok f a s -> status <> ExchangeRateStatusIdentity ->
  task_ok f a (ts_with_pair p status s).
Proof. intros [] Hs. constructor; simpl; done. Qed.

Lemma new_ok p status : task_ok f a (ts_with_pair p status (new_task_state p)).
Proof. constructor; simpl; intros; (done || lia). Qed.

Lemma force_false_ok s : task_ok f a s -> ts_attemptCount s < 4 -> task_ok f a (ts_with_force false s).
Proof. intros [] H4. constructor; simpl; try done; [naive_solver|lia]. Qed.

Lemma not_spent_ok s : task_ok f a s -> is_running s = false -> exhausted s = false ->
  ts_attemptCount s = 4 -> ts_forcePending s = true.
Proof.
  intros [] Hr%not_running He H4. destruct (to_spent0 H4 Hr) as [E|]; [|done].
  unfold exhausted in He. destruct (to_failed0 E) as [En _]. by rewrite E, En in He.
Qed.

Lemma request_state_ok force s : task_ok f a s -> task_ok f a (request_state force s).
Proof.
  intros Hok. unfold request_state. destruct (is_identity s || is_running s) eqn:E; [done|].
  apply orb_false_iff in E as [_ Er]. destruct force.
  { apply queued_ok; [by apply force_ok|exact Er|done]. }
  destruct (negb _); [done|]. destruct (exhausted s) eqn:Ee; [done|].
  apply queued_ok; [done..|]. by apply not_spent_ok.
Qed.

Lemma reopen_state_ok s : task_ok f a s -> task_ok f a (reopen_state s).
Proof.
  intros Hok. unfold reopen_state. destruct (_ || _); [done|]. destruct (negb _); [done|]. apply reset_ok. by right.
Qed.

Lemma project_state_ok s : task_ok f a s -> task_ok f a (project_state s).
Proof.
  intros Hok. unfold project_state. destruct (_ || is_running s) eqn:E; [done|].
  apply orb_false_iff in E as [[Ed _]%orb_false_iff Er]. apply queued_ok; [done..|].
  destruct Hok. intros H4. destruct (to_undiscovered0 Ed). lia.
Qed.

Lemma sync_discover_ok force discovery isnew s : task_ok f a s -> (discovery = true -> is_running s = false) ->
  task_ok f a (sync_discover force discovery isnew s).
Proof.
  intros Hok Hr. unfold sync_discover. destruct (discovery && _) eqn:E; [|done].
  apply andb_true_iff in E as [-> _]. apply discovered_ok. destruct (force && _); [|done].
  apply force_ok; auto.
Qed.

Lemma sync_discover_fields force discovery isnew s :
  let s' := sync_discover force discovery isnew s in
  ts_rateStatus s' = ts_rateStatus s /\ ts_refreshStatus s' = ts_refreshStatus s
  /\ ts_attemptCount s' = ts_attemptCount s /\ ts_nextRetryAt s' = ts_nextRetryAt s.
Proof. unfold sync_discover. destruct (discovery && _); [|done]. by destruct (force && _). Qed.

Lemma sync_queue_new_ok dirty isnew s :
  task_ok f a s -> (isnew = true -> is_running s = false /\ ts_attemptCount s = 0) ->
  task_ok f a (sync_queue_new dirty isnew s).
Proof.
  intros Hok Hn. unfold sync_queue_new. destruct isnew; [|done]. destruct (_ && _); [|done].
  destruct (Hn eq_refl) as [? E]. apply queued_ok; [done..|]. by rewrite E.
Qed.

Lemma sync_settle_ok s : task_ok f a s \/ is_identity s = true -> task_ok f a (sync_settle s).
Proof.
  intros Hok. unfold sync_settle. destruct (is_identity s).
  { apply force_false_ok; [apply reset_ok; by left|simpl; lia]. }
  destruct Hok as [Hok|]; [|done]. destruct (ts_forcePending s && _) eqn:E; [|done].
  apply andb_true_iff in E as [Ef Er%negb_true_iff]. by apply queued_ok.
Qed.

Lemma sync_state_ok dirty force newRound discovery p status old :
  (forall s, old = Some s -> task_ok f a s) ->
  (discovery = true -> forall s, old = Some s -> is_running s = false) ->
  task_ok f a (sync_state dirty force newRound discovery p status old).
Proof.
  intros Hold Hrun. unfold sync_state.
  set (isnew := match old with Some _ => false | None => true end).
  set (s0 := ts_with_pair p status (default (new_task_state p) old)).
  pose proof (sync_discover_fields force discovery isnew s0) as (Es & Er & Ea & _). simpl in Es, Er, Ea.
  apply sync_settle_ok. destruct (decide (status = ExchangeRateStatusIdentity)) as [->|Hs].
  { right. unfold is_identity. apply String.eqb_eq. unfold sync_new_round, sync_queue_new.
    destruct newRound, (isnew && _ && _ && _); simpl; by rewrite Es. }
  left. unfold sync_new_round. destruct newRound; [apply reset_ok; by left|]. apply sync_queue_new_ok.
  - apply sync_discover_ok; subst s0; destruct old as [s|]; simpl;
      [apply pair_ok; auto|apply new_ok|intros Hd; exact (Hrun Hd s eq_refl)|done].
  - intros En. unfold is_running. rewrite Er, Ea. subst isnew s0. by destruct old.
Qed.

Lemma claimed_ok s now n : 0 <= n <= 3 -> (ts_workerDiscovered s = false -> n = 0) ->
  is_identity s = false ->
  task_ok True False {|
    ts_pair := ts_pair s; ts_rateStatus := ts_rateStatus s;
    ts_refreshStatus := ExchangeRateRefreshStatusRunning; ts_forcePending := false;
    ts_workerDiscovered := ts_workerDiscovered s; ts_lastAttemptAt := now;
    ts_nextRetryAt := None; ts_attemptCount := n + 1; ts_errorSummary := ts_errorSummary s |}.
Proof.
  intros Hn Hd Hi%not_identity. constructor; simpl; try done; try lia.
  intros Ed. rewrite (Hd Ed). split; [lia|done].
Qed.

Lemma claim_state_ok now trigger s claimed s' : task_ok f a s -> a ->
  claim_state now trigger s = (claimed, s') ->
  if claimed then task_ok True False s' else task_ok f a s'.
Proof.
  intros Hok Ha. unfold claim_state. destruct (is_running s) eqn:Er; [by intros [= <- <-]|].
  destruct (is_identity s) eqn:Ei.
  { intros [= <- <-]. apply String.eqb_eq in Ei. destruct Hok.
    constructor; simpl; try done; intros; specialize (to_identity0 Ei); lia. }
  pose proof (to_attempts _ _ _ Hok) as Hat. case_match eqn:Eref; intros [= <- <-]; [done|].
  destruct (ts_forcePending s) eqn:Ef; [by apply (claimed_ok (ts_reset_attempts s))|].
  apply claimed_ok; [|intros Hd; by apply (to_undiscovered _ _ _ Hok Hd)|done].
  split; [lia|]. destruct (ts_nextRetryAt s) as [t|] eqn:En.
  - apply (to_retry _ _ _ Hok) in En. lia.
  - apply orb_false_iff in Eref as [[[_ Ee]%orb_false_iff _]%orb_false_iff _].
    pose proof (not_spent_ok s Hok Er Ee) as Hs. destruct (decide (ts_attemptCount s = 4)) as [E4|]; [|lia].
    specialize (Hs E4). congruence.
Qed.

Lemma fetched_state_ok name p x now s : task_ok f a s -> task_ok f a (fetched_state name p x now s).
Proof. intros Hok. constructor; simpl; intros; (done || lia). Qed.

(** A failure never reads outside the table of delays. *)
Lemma failed_state_ok p summary now s : task_ok f False s ->
  exists s', failed_state p summary now s = Some s' /\ task_ok False False s'
    /\ is_running s' = false.
Proof.
  intros Hok. unfold failed_state. set (n := if ts_attemptCount s =? 0 then 1 else ts_attemptCount s).
  assert (1 <= n <= 4 /\ (n = ts_attemptCount s \/ n = 1)) as [Hn Hc].
  { pose proof (to_attempts _ _ _ Hok). subst n. destruct (Z.eqb_spec (ts_attemptCount s) 0); lia. }
  unfold exchangeRateMaxAttempts. destruct (Z.ltb_spec n 4).
  - assert (exists d, exchangeRateRetryDelays (n - 1) = Some d) as [d ->].
    { assert (n = 1 \/ n = 2 \/ n = 3) as [->|[->| ->]] by lia; simpl; eauto. }
    eexists. split; [done|]. split; [|done]. constructor; simpl; try done; try lia.
    + intros. split; [done|lia].
    + intros Hd. destruct (to_undiscovered _ _ _ Hok Hd). split; [lia|done].
    + intros Hi. pose proof (to_identity _ _ _ Hok Hi). lia.
  - eexists. split; [done|]. split; [|done]. constructor; simpl; try done; try lia.
    + intros. split; [done|lia].
    + intros _ _. by left.
    + intros Hd. destruct (to_undiscovered _ _ _ Hok Hd). split; [lia|done].
    + intros Hi. pose proof (to_identity _ _ _ Hok Hi). lia.
Qed.

End Tasks.

(** * The invariant of the system *)

(** The keys of the pairs the round has not come to. *)
Definition awaited (l : lane) : list string :=
  match l with
  | Pairs r rest | Fetching r rest _ _ => pair_key (ro_settings r) (ro_now r) <$> rest
  | _ => []
  end.

(** The lane is in a request for the pair; after it stopped, the last one may look so. *)
Definition fetching (l : lane) (key : string) : Prop :=
  match l with Fetching _ _ k _ => k = key | Stopped => True | _ => False end.

Definition states_ok (l : lane) (states : gmap string exchangeRateTaskState) : Prop :=
  map_Forall (fun key s => task_ok (fetching l key) (key ∈ awaited l) s) states.

Definition lane_ok (l : lane) : Prop :=
  NoDup (awaited l) /\ l <> Panicked
  /\ (forall r rest key p, l = Fetching r rest key p -> (key ∉ awaited l) /\ xp_QuoteCurrency p <> xp_BaseCurrency p).

Definition system_ok (y : system) : Prop := lane_ok (y_lane y) /\ states_ok (y_lane y) (w_states (y_worker y)).

(** The store lists each active pair once. *)
Definition event_ok (ev : event) : Prop :=
  match ev with
  | EvRead (Some (settings, pairs, now)) => NoDup (pair_key settings now <$> pairs)
  | _ => True
  end.

Lemma states_ok_fmap l g states : (forall f a s, task_ok f a s -> task_ok f a (g s)) ->
  states_ok l states -> states_ok l (g <$> states).
Proof. intros Hg H. apply map_Forall_fmap. intros k s Hs. apply Hg, (H k s Hs). Qed.

Lemma states_ok_lane l l' states :
  (forall k, fetching l k -> fetching l' k) -> (forall k, k ∈ awaited l' -> k ∈ awaited l) ->
  states_ok l states -> states_ok l' states.
Proof. intros Hf Ha H k s Hs. eapply task_ok_mono; [apply Hf|apply Ha|apply (H k s Hs)]. Qed.

Lemma sync_state_running dirty force newRound discovery p status old :
  (forall s, old = Some s -> is_running s = false) ->
  is_running (sync_state dirty force newRound discovery p status old) = false.
Proof.
  intros Hold. unfold sync_state.
  set (isnew := match old with Some _ => false | None => true end).
  set (s0 := ts_with_pair p status (default (new_task_state p) old)).
  pose proof (sync_discover_fields force discovery isnew s0) as (_ & Er & _). simpl in Er.
  assert (is_running (sync_discover force discovery isnew s0) = false) as Hr.
  { unfold is_running. rewrite Er. destruct old as [s|]; [exact (Hold s eq_refl)|done]. }
  generalize (sync_discover force discovery isnew s0) Hr. intros s1 H1.
  unfold sync_settle, sync_new_round, sync_queue_new.
  destruct newRound, (isnew && _ && _ && _); simpl; repeat case_match; (done || auto).
Qed.

Lemma sync_state_discovered dirty force newRound p status old :
  ts_workerDiscovered (sync_state dirty force newRound true p status old) = true.
Proof.
  unfold sync_state. set (isnew := match old with Some _ => false | None => true end).
  set (s0 := ts_with_pair p status (default (new_task_state p) old)).
  assert (ts_workerDiscovered (sync_discover force true isnew s0) = true) as H.
  { unfold sync_discover. destruct (true && _) eqn:E; [done|].
    apply orb_false_iff in E as [_ E%negb_false_iff]. done. }
  generalize (sync_discover force true isnew s0) H. intros s1 H1.
  unfold sync_settle, sync_new_round, sync_queue_new.
  destruct newRound, (isnew && _ && _ && _); simpl; repeat case_match; done.
Qed.

Section Sync.
Context (dirty force newRound discovery : bool) (settings : SubscriptionCostSettings) (now : Z) (l : lane).

Definition synced (states : gmap string exchangeRateTaskState) : Prop :=
  states_ok l states /\ (discovery = true -> map_Forall (fun _ s => is_running s = false) states).

Lemma sync_pair_synced states p : synced states ->
  synced (sync_pair dirty force newRound discovery settings now states p).
Proof.
  intros [Hok Hr]. unfold sync_pair. split.
  - apply map_Forall_insert_2; [|done]. apply sync_state_ok; [intros s Hs; apply (Hok _ s Hs)|].
    intros Hd s Hs. apply (Hr Hd _ s Hs).
  - intros Hd. apply map_Forall_insert_2; [|by apply Hr]. apply sync_state_running.
    intros s Hs. apply (Hr Hd _ s Hs).
Qed.

Lemma sync_pairs_synced pairs states : synced states ->
  synced (foldl (sync_pair dirty force newRound discovery settings now) states pairs).
Proof. revert states. induction pairs as [|p pairs IH]; intros states H; [done|]. by apply IH, sync_pair_synced. Qed.

Lemma sync_pairs_discovered pairs states key s : discovery = true ->
  key ∈ (pair_key settings now <$> pairs) ->
  foldl (sync_pair dirty force newRound discovery settings now) states pairs !! key = Some s ->
  ts_workerDiscovered s = true.
Proof.
  intros ->. revert s. induction pairs as [|p pairs IH] using rev_ind; intros s Hk; [by apply not_elem_of_nil in Hk|].
  rewrite foldl_app. simpl. unfold sync_pair at 1. fold (pair_key settings now p).
  destruct (decide (pair_key settings now p = key)) as [<-|Hne].
  - rewrite lookup_insert_eq. intros [= <-]. apply sync_state_discovered.
  - rewrite lookup_insert_ne by done. apply IH. rewrite fmap_app, elem_of_app in Hk.
    destruct Hk as [|Hk]; [done|]. apply list_elem_of_singleton in Hk. congruence.
Qed.

End Sync.

Lemma syncActivePairsLocked_ok l pairs settings now newRound discovery w :
  states_ok l (w_states w) ->
  (discovery = true -> map_Forall (fun _ s => is_running s = false) (w_states w)) ->
  let w' := syncActivePairsLocked pairs settings now newRound discovery w in
  states_ok l (w_states w')
  /\ (discovery = true ->
      map_Forall (fun _ s => is_running s = false /\ ts_workerDiscovered s = true) (w_states w')).
Proof.
  intros Hok Hr. simpl.
  destruct (sync_pairs_synced (w_dirty w) (discovery && w_forceDiscoveryPending w) newRound discovery
              settings now l pairs (w_states w) (conj Hok Hr)) as [H1 H2].
  split; [intros k s [Hs _]%map_lookup_filter_Some; apply (H1 k s Hs)|]. intros Hd k s [Hs Hk]%map_lookup_filter_Some. split.
  - apply (H2 Hd k s Hs).
  - by eapply sync_pairs_discovered.
Qed.

Section WorkerInvariant.
Context (sha256_hex : string -> string) (error_text : error -> string).

(** Side conditions on a lane that is in no request. *)
Ltac not_fetching := first [done | by intros ? [] | by intros].

Lemma Status_ok l settings pairs now w :
  states_ok l (w_states w) -> states_ok l (w_states (Status sha256_hex settings pairs now w).2).
Proof.
  intros H. unfold Status.
  destruct (syncActivePairsLocked_ok l pairs settings now false false w H) as [H1 _]; [done|].
  cbn [snd w_states]. generalize dependent (syncActivePairsLocked pairs settings now false false w). intros w' H1.
  assert (forall b : bool, states_ok l (if b then reopen_state <$> w_states w' else w_states w')) as H2.
  { intros [|]; [|done]. apply states_ok_fmap; [apply reopen_state_ok|done]. }
  destruct (w_forceDiscoveryPending w'); [|apply H2]. apply states_ok_fmap; [apply project_state_ok|apply H2].
Qed.

Lemma begin_round_ok trigger settings pairs now w newRound w' r l :
  (forall k, ~ fetching l k) -> states_ok l (w_states w) ->
  begin_round sha256_hex trigger settings pairs now w = (newRound, w') ->
  states_ok (Pairs r pairs) (w_states w').
Proof.
  intros Hf H. unfold begin_round. intros [= <- <-].
  destruct (syncActivePairsLocked_ok l pairs settings now
    (bool_decide (trigger = exchangeRateRoundNew) || w_settingsRoundPending w
     || (w_settingsSignature w <>s "") && (w_settingsSignature w <>s exchangeRateSettingsSignature sha256_hex settings))
    true
    {| w_states := w_states w; w_dirty := w_dirty w; w_forceDiscoveryPending := w_forceDiscoveryPending w;
       w_settingsSignature := exchangeRateSettingsSignature sha256_hex settings;
       w_observedSettingsSignature := exchangeRateSettingsSignature sha256_hex settings;
       w_settingsRoundPending := false; w_wake := w_wake w; w_monthEndFailures := w_monthEndFailures w |} H)
    as [H1 H2].
  { intros _ k s Hs. apply not_running. intros Hr. destruct (H k s Hs). by destruct (to_running0 Hr) as [Hk%Hf _]. }
  specialize (H2 eq_refl). intros k s Hs. destruct (H2 k s Hs) as [Hr Hd]. specialize (H1 k s Hs).
  apply not_running in Hr. destruct H1. constructor; try done. congruence.
Qed.

Lemma end_round_ok failed w effects y l :
  (forall k, ~ fetching l k) -> states_ok l (w_states w) -> system_ok (end_round failed w effects y).
Proof.
  intros Hf H. unfold end_round. split; simpl.
  - destruct (failed && _); split_and!; simpl; try done; constructor.
  - eapply states_ok_lane; [| |exact H]; [intros k Hk; by apply Hf in Hk|].
    intros k Hk. by destruct (failed && _); apply not_elem_of_nil in Hk.
Qed.

(** A step to a lane that awaits no pair and fetches none. *)
Lemma at_lane_ok l l' w effects y :
  (forall k, ~ fetching l k) -> awaited l' = [] -> l' <> Panicked -> (forall r rest key p, l' <> Fetching r rest key p) ->
  states_ok l (w_states w) -> system_ok (at_lane l' w effects y).
Proof.
  intros Hf Ha Hp Hn H. split; simpl.
  - split_and!; [rewrite Ha; constructor|done|]. intros r rest key p E. by apply Hn in E.
  - eapply states_ok_lane; [| |exact H]; [intros k Hk; by apply Hf in Hk|].
    intros k. rewrite Ha. by intros Hk%not_elem_of_nil.
Qed.

Lemma step_pair_ok r rest y : y_lane y = Pairs r rest -> system_ok y -> system_ok (step_pair r rest y).
Proof.
  intros El [Hl Hs]. rewrite El in *. unfold step_pair. destruct rest as [|next rest].
  { apply (at_lane_ok (Pairs r [])); not_fetching. }
  destruct (y_cancelled y); [apply (end_round_ok true _ _ y (Pairs r (next :: rest))); not_fetching|].
  set (p := normalizeExchangeRatePair next (ro_settings r) (ro_now r)). set (key := exchangeRatePairKey p).
  destruct Hl as (Hnd & _ & _). simpl in Hnd. apply NoDup_cons in Hnd as [Hnew Hnd].
  change (pair_key (ro_settings r) (ro_now r) next) with key in Hnew.
  assert (forall l, awaited l = awaited (Pairs r rest) -> states_ok l (w_states (y_worker y))) as Hmono.
  { intros l Ha. eapply states_ok_lane; [| |exact Hs]; [done|]. intros k. rewrite Ha. apply list_elem_of_further. }
  unfold claimPairFetch.
  assert (system_ok (at_lane (Pairs r rest) (y_worker y) [] y)) as Hskip by (split; [by split_and!|by apply Hmono]).
  destruct (String.eqb_spec (xp_QuoteCurrency p) (xp_BaseCurrency p)) as [|Hq]; [done|].
  destruct (w_states (y_worker y) !! key) as [s|] eqn:Ek; [|done].
  destruct (claim_state (ro_now r) (ro_trigger r) s) as [claimed s'] eqn:Ec.
  apply (claim_state_ok False (key ∈ awaited (Pairs r (next :: rest)))) in Ec;
    [|apply (Hs key s Ek)|apply list_elem_of_here].
  destruct claimed; split.
  - split_and!; [done|done|]. by intros ???? [= <- <- <- <-].
  - apply map_Forall_insert_2; [|by apply Hmono]. eapply task_ok_mono; [| |exact Ec]; done.
  - by split_and!.
  - apply map_Forall_insert_2; [|by apply Hmono]. eapply task_ok_mono; [| |exact Ec]; [done|].
    intros Hk. by apply list_elem_of_further.
Qed.

Lemma step_fetched_ok r rest key p start answer stored failed_at y :
  y_lane y = Fetching r rest key p -> system_ok y ->
  system_ok (step_fetched error_text r rest key p start answer stored failed_at y).
Proof.
  intros El [Hl Hs]. rewrite El in *. unfold step_fetched.
  destruct (fetchPair (ro_settings r) p start answer stored) as [outcome effects].
  destruct Hl as (Hnd & _ & Hk). destruct (Hk _ _ _ _ eq_refl) as [Hnew _].
  assert (forall l states, awaited l = awaited (Fetching r rest key p) ->
    (forall k, k <> key -> states !! k = w_states (y_worker y) !! k) ->
    (forall s, states !! key = Some s -> is_running s = false /\ task_ok True False s) ->
    states_ok l states) as Hmono.
  { intros l states Ha Hother Hkey k s Hks. rewrite Ha. destruct (decide (k = key)) as [->|Hne].
    - destruct (Hkey s Hks) as [Hr%not_running Hok]. destruct Hok. constructor; try done. naive_solver.
    - rewrite Hother in Hks by done. eapply task_ok_mono; [| |apply (Hs k s Hks)]; [|done].
      simpl. congruence. }
  destruct outcome as [fetched|err].
  - split; [by split_and!|]. apply Hmono; [done|..]; simpl.
    + intros k Hne. by rewrite lookup_alter_ne.
    + intros s. rewrite lookup_alter_eq. intros (s0 & H0 & ->)%fmap_Some. split; [done|].
      apply fetched_state_ok. eapply task_ok_mono; [| |apply (Hs key s0 H0)]; done.
  - destruct (y_cancelled y) eqn:Ec.
    { unfold end_round. rewrite Ec. split; [split_and!; [constructor|done|done]|]. simpl.
      eapply states_ok_lane; [| |exact Hs]; [done|]. by intros k Hk2%not_elem_of_nil. }
    destruct (w_states (y_worker y) !! key) as [s|] eqn:Es.
    + destruct (failed_state_ok True p (sanitizeProviderError (error_text err)) failed_at s) as (s' & -> & Hs' & Hr').
      { eapply task_ok_mono; [| |apply (Hs key s Es)]; done. }
      split; [by split_and!|]. apply Hmono; [done|..]; simpl.
      * intros k Hne. by rewrite lookup_insert_ne.
      * rewrite lookup_insert_eq. intros s1 [= <-]. split; [done|]. eapply task_ok_mono; [| |exact Hs']; done.
    + split; [by split_and!|]. apply Hmono; [done|done|]. simpl. intros s. by rewrite Es.
Qed.

(** Every step keeps the invariant. *)
Lemma step_ok ev y y' : event_ok ev -> system_ok y -> step sha256_hex error_text ev y = Some y' -> system_ok y'.
Proof.
  intros Hev Hy. pose proof Hy as [Hl Hs]. unfold step. destruct ev as
    [|force|settings pairs now| |arm|[[[settings pairs] now]|]| |start answer stored failed_at|historical answer| |].
  - intros [= <-]. by split.
  - intros [= <-]. split; [done|]. apply states_ok_fmap; [intros; by apply request_state_ok|done].
  - intros [= <-]. split; [done|]. by apply Status_ok.
  - destruct (y_lane y) eqn:El; try discriminate. intros [= <-]. apply (at_lane_ok NotStarted); not_fetching.
  - destruct (y_lane y) as [|armed| | | | | | | |] eqn:El; try discriminate. unfold step_select.
    destruct arm; repeat case_match; intros [= <-]; apply (at_lane_ok (Selecting armed)); not_fetching.
  - destruct (y_lane y) as [| |trigger| | | | | | |] eqn:El; try discriminate.
    destruct (begin_round sha256_hex trigger settings pairs now (y_worker y)) as [newRound w'] eqn:Eb.
    intros [= <-]. split; [split_and!; done|]. eapply (begin_round_ok _ _ _ _ _ _ _ _ (Reading trigger)); not_fetching.
  - destruct (y_lane y) as [| |trigger| | | | | | |] eqn:El; try discriminate. intros [= <-].
    apply (end_round_ok true _ _ y (Reading trigger)); not_fetching.
  - destruct (y_lane y) eqn:El; try discriminate. intros [= <-]. by apply step_pair_ok.
  - destruct (y_lane y) eqn:El; try discriminate. intros [= <-]. by apply step_fetched_ok.
  - destruct (y_lane y) as [| | | | |r| | | |] eqn:El; try discriminate. intros [= <-]. unfold step_listed.
    assert (states_ok (Listing r) (w_states (if ro_new r then with_failures ∅ (y_worker y) else y_worker y))) as H
      by by destruct (ro_new r).
    repeat case_match; first [apply (end_round_ok _ _ _ _ (Listing r)) | apply (at_lane_ok (Listing r))]; not_fetching.
  - destruct (y_lane y) as [| | | | | |r rest n| | |] eqn:El; try discriminate. intros [= <-]. unfold step_month.
    repeat case_match; first [apply (end_round_ok _ _ _ _ (Filling r rest n)) | apply (at_lane_ok (Filling r rest n))];
      subst; not_fetching.
  - destruct (y_lane y) as [| | | | | | |r rest n key request| |] eqn:El; try discriminate. intros [= <-].
    unfold step_month_fetched. repeat case_match;
      first [apply (end_round_ok _ _ _ _ (FillingOne r rest n key request))
            |apply (at_lane_ok (FillingOne r rest n key request))]; subst; not_fetching.
Qed.

Lemma run_ok evs y y' : Forall event_ok evs -> system_ok y -> run sha256_hex error_text evs y = Some y' -> system_ok y'.
Proof.
  intros He. revert y. induction He as [|ev evs Hev _ IH]; simpl; intros y Hy; [by intros [= <-]|].
  destruct (step sha256_hex error_text ev y) as [y1|] eqn:E; [|done]. apply IH. by eapply step_ok.
Qed.

Lemma initial_ok : system_ok initial.
Proof. split; [split_and!; [constructor|done|done]|]. apply map_Forall_empty. Qed.

(** Under every interleaving of the lane with refresh requests, status
    queries and a cancellation, whatever the store, the providers and the clock answer, the table
    of retry delays is never read out of range; a pair counts at most four attempts, looks running
    only while the lane is in a request for it (or stopped in one), is scheduled for a retry only
    while it is queued after one to three attempts, and is failed only after four, with no retry
    left. *)
Theorem worker_states_consistent evs y key s :
  Forall event_ok evs -> run sha256_hex error_text evs initial = Some y ->
  w_states (y_worker y) !! key = Some s ->
  y_lane y <> Panicked
  /\ 0 <= ts_attemptCount s <= exchangeRateMaxAttempts
  /\ (ts_refreshStatus s = ExchangeRateRefreshStatusRunning ->
      y_lane y = Stopped \/ exists r rest p, y_lane y = Fetching r rest key p)
  /\ (forall t, ts_nextRetryAt s = Some t ->
      ts_refreshStatus s = ExchangeRateRefreshStatusQueued /\ 1 <= ts_attemptCount s <= 3)
  /\ (ts_refreshStatus s = ExchangeRateRefreshStatusFailed ->
      ts_attemptCount s = exchangeRateMaxAttempts /\ ts_nextRetryAt s = None).
Proof.
  intros He Hr Hs. destruct (run_ok evs initial y He initial_ok Hr) as [(_ & Hp & _) Hok].
  destruct (Hok key s Hs) as [Ha Ht Hf Hrun _ _ _]. split_and!; try done; try apply Ha.
  - intros E. destruct (Hrun E) as [Hfe _]. destruct (y_lane y); simpl in Hfe; try done; [right|by left].
    subst. eauto.
  - intros E. by destruct (Hf E).
Qed.

End WorkerInvariant.

(** * The failure budget *)

Definition fetch_of (key : string) (e : effect) : bool :=
  match e with Fetch k _ _ => k =s key | _ => false end.

(** The requests for a pair in a log. *)
Definition fetches (key : string) (log : list effect) : nat := length (List.filter (fetch_of key) log).

(** The clock of the round of the first request for a pair. *)
Fixpoint first_fetch (key : string) (log : list effect) : option Z :=
  match log with
  | [] => None
  | Fetch k _ at_ :: log => if k =s key then Some at_ else first_fetch key log
  | _ :: log => first_fetch key log
  end.

Lemma fetches_app key l1 l2 : fetches key (l1 ++ l2) = (fetches key l1 + fetches key l2)%nat.
Proof. unfold fetches. by rewrite List.filter_app, length_app. Qed.

Lemma first_fetch_app key l1 l2 : fetches key l1 = 0%nat -> first_fetch key (l1 ++ l2) = first_fetch key l2.
Proof.
  unfold fetches. induction l1 as [|e l1 IH]; [done|]. simpl. destruct e; simpl; auto.
  destruct (key0 =s key); [done|auto].
Qed.

(** The status a listed pair gets. *)
Definition listed_status (settings : SubscriptionCostSettings) (now : Z) (p : ExchangeRatePair) : string :=
  let p := normalizeExchangeRatePair p settings now in
  if xp_RateStatus p =s "" then deriveExchangeRateStatus p settings now else xp_RateStatus p.

(** The pair is active and needs a conversion. *)
Definition lists (key : string) (settings : SubscriptionCostSettings) (pairs : list ExchangeRatePair) (now : Z) : Prop :=
  key ∈ (pair_key settings now <$> pairs)
  /\ (forall p, p ∈ pairs -> pair_key settings now p = key ->
      listed_status settings now p <> ExchangeRateStatusIdentity).

Section Budget.
Context (sha256_hex : string -> string) (error_text : error -> string) (key : string).

(** What leaves the budget of the pair as it is: no forced request, no new round, no change of the
    settings, no success; the pair stays active. *)
Definition ordinary (ev : event) (y : system) : Prop :=
  match ev with
  | EvRequest force => force = false
  | EvStatus settings pairs now =>
      lists key settings pairs now
      /\ exchangeRateSettingsSignature sha256_hex settings = w_observedSettingsSignature (y_worker y)
  | EvRead (Some (settings, pairs, now)) =>
      lists key settings pairs now
      /\ (forall trigger, y_lane y = Reading trigger ->
          (begin_round sha256_hex trigger settings pairs now (y_worker y)).1 = false)
  | EvFetched start answer stored _ =>
      forall r rest p, y_lane y = Fetching r rest key p ->
        exists err, (fetchPair (ro_settings r) p start answer stored).1 = Err err
  | _ => True
  end.

Inductive ordinary_run : list event -> system -> system -> Prop :=
| ordinary_nil y : ordinary_run [] y y
| ordinary_cons ev evs y y1 y2 :
    ordinary ev y -> step sha256_hex error_text ev y = Some y1 -> ordinary_run evs y1 y2 ->
    ordinary_run (ev :: evs) y y2.

(** Known to the lane, not forced, in need of a conversion. *)
Definition settled (s : exchangeRateTaskState) : Prop :=
  ts_forcePending s = false /\ ts_workerDiscovered s = true /\ is_identity s = false.

Lemma sync_state_keeps dirty force p status s : status <> ExchangeRateStatusIdentity -> settled s ->
  forall discovery, sync_state dirty force false discovery p status (Some s) = ts_with_pair p status s.
Proof.
  intros Hs (Hf & Hd & _) discovery. destruct s. simpl in Hf, Hd. subst. apply String.eqb_neq in Hs.
  unfold sync_state, sync_discover. simpl. rewrite andb_false_r.
  unfold sync_settle, sync_new_round, sync_queue_new, is_identity. simpl. by rewrite Hs.
Qed.

(** Listing the pair in a round that is not new, or in a status query, changes its pair and rate
    status only. *)
Lemma sync_keeps pairs settings now discovery w s :
  lists key settings pairs now -> w_states w !! key = Some s -> settled s ->
  exists p status, status <> ExchangeRateStatusIdentity /\
    w_states (syncActivePairsLocked pairs settings now false discovery w) !! key = Some (ts_with_pair p status s).
Proof.
  intros [Hin Hid] Hs Hset. simpl.
  assert (exists p status, status <> ExchangeRateStatusIdentity /\
    foldl (sync_pair (w_dirty w) (discovery && w_forceDiscoveryPending w) false discovery
    settings now) (w_states w) pairs !! key = Some (ts_with_pair p status s)) as (p & status & Hne & H).
  { clear Hin.
    assert (exists p status, status <> ExchangeRateStatusIdentity /\ w_states w !! key = Some (ts_with_pair p status s)) as H0.
    { exists (ts_pair s), (ts_rateStatus s). destruct Hset as (_ & _ & Hi%not_identity). split; [done|].
      rewrite Hs. by destruct s. }
    revert H0. generalize (w_states w). clear Hs.
    induction pairs as [|q pairs IH]; intros states (p & status & Hn & H); [by exists p, status|].
    simpl. apply IH; [intros; apply Hid; [by apply list_elem_of_further|done]|].
    unfold sync_pair. fold (pair_key settings now q). fold (listed_status settings now q).
    destruct (decide (pair_key settings now q = key)) as [E|Hne].
    - assert (listed_status settings now q <> ExchangeRateStatusIdentity) as Hq
        by (apply Hid; [apply list_elem_of_here|done]).
      rewrite E, lookup_insert_eq, H, sync_state_keeps; [by eexists _, _|done|].
      split_and!; [apply Hset..|]. by apply not_identity.
    - rewrite lookup_insert_ne by done. by exists p, status. }
  exists p, status. split; [done|]. by apply map_lookup_filter_Some.
Qed.

Definition not_fetching_key (l : lane) : Prop := forall r rest p, l <> Fetching r rest key p.

(** One ordinary step of the pair: nothing happens to its budget, or one attempt of it starts,
    not before its retry is due. *)
Inductive budget_step (l l' : lane) (s s' : exchangeRateTaskState) (effects : list effect) : Prop :=
| budget_quiet :
    fetches key effects = 0%nat -> ts_attemptCount s <= ts_attemptCount s' ->
    (not_fetching_key l -> not_fetching_key l' /\ ts_nextRetryAt s' = ts_nextRetryAt s) ->
    budget_step l l' s s' effects
| budget_attempt p at_ :
    effects = [Fetch key p at_] -> ts_attemptCount s' = ts_attemptCount s + 1 ->
    (forall t, ts_nextRetryAt s = Some t -> t <= at_) ->
    budget_step l l' s s' effects.

Lemma budget_same l l' s effects : fetches key effects = 0%nat -> (not_fetching_key l -> not_fetching_key l') ->
  budget_step l l' s s effects.
Proof. intros He Hl. apply budget_quiet; [done|lia|auto]. Qed.

Lemma settled_pair p status s : settled s -> status <> ExchangeRateStatusIdentity -> settled (ts_with_pair p status s).
Proof. intros (Hf & Hd & Hi) Hs. split_and!; try done. by apply not_identity. Qed.

Lemma claim_budget now trigger s claimed s' p l l' : settled s ->
  claim_state now trigger s = (claimed, s') ->
  settled s' /\ (if claimed then budget_step l l' s s' [Fetch key p now] else s' = s).
Proof.
  intros (Hf & Hd & Hi). unfold claim_state. rewrite Hi, Hf.
  destruct (is_running s); [by intros [= <- <-]|]. case_match eqn:Eref; intros [= <- <-]; [done|].
  split; [done|]. eapply budget_attempt; [done|done|]. intros t Ht. rewrite Ht in Eref.
  destruct (negb (Time_After t now)) eqn:Ed.
  - apply negb_true_iff in Ed. unfold Time_After in Ed. apply Z.ltb_ge in Ed. lia.
  - apply negb_false_iff in Ed. rewrite Ed in Eref. by rewrite orb_true_r in Eref.
Qed.

Lemma fetchPair_effects settings p now answer stored : fetches key (fetchPair settings p now answer stored).2 = 0%nat.
Proof. unfold fetchPair. repeat case_match; done. Qed.

Lemma fetchMonthEnd_effects settings request answer stored now :
  fetches key (fetchMonthEndRate settings request answer stored now).2 = 0%nat.
Proof. unfold fetchMonthEndRate. repeat case_match; done. Qed.

Definition stepped (y y' : system) (s : exchangeRateTaskState) : Prop :=
  exists s' effects, y_log y' = y_log y ++ effects /\ w_states (y_worker y') !! key = Some s' /\ settled s'
    /\ budget_step (y_lane y) (y_lane y') s s' effects.

Lemma stepped_same y l' w effects s : w_states w !! key = Some s -> settled s -> fetches key effects = 0%nat ->
  (not_fetching_key (y_lane y) -> not_fetching_key l') -> stepped y (at_lane l' w effects y) s.
Proof. intros. exists s, effects. split_and!; try done. by apply budget_same. Qed.

(** Side conditions of a step that leaves the pair alone. *)
Ltac quiet_lane := first [done | by intros _ ? ? ?].

Lemma stepped_end y failed w effects s : w_states w !! key = Some s -> settled s -> fetches key effects = 0%nat ->
  stepped y (end_round failed w effects y) s.
Proof. intros. apply stepped_same; try quiet_lane. intros _ r rest p. by destruct (failed && _). Qed.

Lemma request_stepped y s : w_states (y_worker y) !! key = Some s -> settled s ->
  stepped y (at_lane (y_lane y) (RequestRefresh false (y_worker y)) [] y) s.
Proof.
  intros Hs (Hf & Hd & Hi). exists (request_state false s), []. split_and!; try done.
  - simpl. by rewrite lookup_fmap, Hs.
  - unfold request_state. repeat case_match; done.
  - apply budget_quiet; [done| |intros Hl; split; [done|]]; unfold request_state; repeat case_match; done.
Qed.

Lemma status_stepped y settings pairs now s : ordinary (EvStatus settings pairs now) y ->
  w_states (y_worker y) !! key = Some s -> settled s ->
  stepped y (at_lane (y_lane y) (Status sha256_hex settings pairs now (y_worker y)).2 [] y) s.
Proof.
  intros [Hli Hsig] Hs Hset. destruct (sync_keeps pairs settings now false (y_worker y) s Hli Hs Hset) as (p & status & Hn & H).
  exists (ts_with_pair p status s), []. pose proof (settled_pair p status s Hset Hn) as Hset'. split_and!; try done.
  - unfold Status. rewrite Hsig, String.eqb_refl. cbn [negb andb snd at_lane y_worker w_states].
    set (w' := syncActivePairsLocked pairs settings now false false (y_worker y)) in *. clearbody w'.
    destruct (w_forceDiscoveryPending w'); [|done]. rewrite lookup_fmap, H. simpl.
    unfold project_state. destruct Hset' as (_ & -> & _). done.
  - apply budget_quiet; [done|done|auto].
Qed.

Lemma read_stepped y settings pairs now trigger s : y_lane y = Reading trigger ->
  ordinary (EvRead (Some (settings, pairs, now))) y ->
  w_states (y_worker y) !! key = Some s -> settled s ->
  forall r, stepped y (at_lane (Pairs r pairs) (begin_round sha256_hex trigger settings pairs now (y_worker y)).2 [] y) s.
Proof.
  intros El [Hli Hnew] Hs Hset r. specialize (Hnew trigger El). unfold begin_round in *. cbn [fst snd] in *. rewrite Hnew.
  edestruct (sync_keeps pairs settings now true) as (p & status & Hn & H); [done|exact Hs|done|].
  exists (ts_with_pair p status s), []. split_and!; [done|exact H|by apply settled_pair|].
  apply budget_quiet; [done|done|]. intros _. split; [|done]. by intros r0 rest0 p0.
Qed.

Lemma pair_stepped y r rest s : y_lane y = Pairs r rest ->
  w_states (y_worker y) !! key = Some s -> settled s -> stepped y (step_pair r rest y) s.
Proof.
  intros El Hs Hset. unfold step_pair. destruct rest as [|next rest]; [apply stepped_same; quiet_lane|].
  destruct (y_cancelled y); [by apply stepped_end|].
  set (q := normalizeExchangeRatePair next (ro_settings r) (ro_now r)). set (k := exchangeRatePairKey q).
  unfold claimPairFetch. destruct (_ =s _); [apply stepped_same; quiet_lane|].
  destruct (w_states (y_worker y) !! k) as [s1|] eqn:Ek; [|apply stepped_same; quiet_lane].
  destruct (claim_state (ro_now r) (ro_trigger r) s1) as [claimed s1'] eqn:Ec.
  destruct (decide (k = key)) as [E|Hne].
  - rewrite E in *. rewrite Ek in Hs. injection Hs as ->.
    destruct (claim_budget (ro_now r) (ro_trigger r) s claimed s1' q (y_lane y) (Fetching r rest key q) Hset Ec) as [Hset' Hb].
    destruct claimed.
    + exists s1', [Fetch key q (ro_now r)]. split_and!; try done. simpl. apply lookup_insert_eq.
    + subst s1'. apply stepped_same; try quiet_lane. simpl. apply lookup_insert_eq.
  - assert (w_states (w_with_states (<[k := s1']> (w_states (y_worker y))) (y_worker y)) !! key = Some s) as Hs'
      by (simpl; by rewrite lookup_insert_ne).
    destruct claimed; apply stepped_same; try quiet_lane.
    + simpl. apply String.eqb_neq in Hne. unfold fetches. simpl. by rewrite Hne.
    + intros _ r0 rest0 p0 [= _ _ E _]. done.
Qed.

Lemma fetched_stepped y r rest k p start answer stored failed_at s : y_lane y = Fetching r rest k p ->
  system_ok y -> ordinary (EvFetched start answer stored failed_at) y ->
  w_states (y_worker y) !! key = Some s -> settled s ->
  stepped y (step_fetched error_text r rest k p start answer stored failed_at y) s.
Proof.
  intros El Hy Hord Hs Hset. unfold step_fetched.
  pose proof (fetchPair_effects (ro_settings r) p start answer stored) as He.
  destruct (fetchPair (ro_settings r) p start answer stored) as [outcome effects] eqn:Ef. simpl in He.
  destruct outcome as [x|err].
  - apply stepped_same; try quiet_lane. simpl. rewrite lookup_alter_ne; [done|]. intros ->.
    destruct (Hord r rest p El) as [err Herr]. rewrite Ef in Herr. done.
  - destruct (y_cancelled y); [by apply stepped_end|].
    destruct (w_states (y_worker y) !! k) as [s1|] eqn:Ek; [|apply stepped_same; quiet_lane].
    destruct Hy as [(_ & _ & Hl) Hok]. rewrite El in Hok, Hl.
    destruct (failed_state_ok True p (sanitizeProviderError (error_text err)) failed_at s1) as (s' & E & _ & _).
    { eapply task_ok_mono; [| |apply (Hok k s1 Ek)]; [done|]. done. }
    rewrite E. destruct (decide (k = key)) as [->|Hne].
    + rewrite Hs in Ek. injection Ek as <-.
      assert (settled s' /\ ts_attemptCount s <= ts_attemptCount s') as [Hset' Ha].
      { destruct Hset as (Hf & Hd & Hi). unfold failed_state in E. pose proof (to_attempts _ _ _ (Hok key s Hs)).
        destruct (Z.eqb_spec (ts_attemptCount s) 0), (_ <? _);
          try destruct (exchangeRateRetryDelays _); try discriminate; injection E as <-; simpl; split; try lia; done. }
      exists s', effects. split_and!; try done; [simpl; apply lookup_insert_eq|].
      apply budget_quiet; [done|done|]. intros H. rewrite El in H. by destruct (H r rest p).
    + apply stepped_same; try quiet_lane. simpl. by rewrite lookup_insert_ne.
Qed.

Lemma ordinary_step ev y y' s : ordinary ev y -> system_ok y -> w_states (y_worker y) !! key = Some s -> settled s ->
  step sha256_hex error_text ev y = Some y' -> stepped y y' s.
Proof.
  intros Hord Hy Hs Hset. unfold step. destruct ev as
    [|force|settings pairs now| |arm|[[[settings pairs] now]|]| |start answer stored failed_at|historical answer| |answer stored stored_at].
  - intros [= <-]. exists s, []. rewrite app_nil_r. split_and!; try done. by apply budget_same.
  - intros [= <-]. simpl in Hord. subst. by apply request_stepped.
  - intros [= <-]. by apply status_stepped.
  - destruct (y_lane y); try discriminate. intros [= <-]. apply stepped_same; quiet_lane.
  - destruct (y_lane y); try discriminate. unfold step_select.
    destruct arm; repeat case_match; intros [= <-]; apply stepped_same; quiet_lane.
  - destruct (y_lane y) as [| |trigger| | | | | | |] eqn:El; try discriminate.
    pose proof (read_stepped y settings pairs now trigger s El Hord Hs Hset) as H.
    destruct (begin_round sha256_hex trigger settings pairs now (y_worker y)). intros [= <-]. apply H.
  - destruct (y_lane y); try discriminate. intros [= <-]. by apply stepped_end.
  - destruct (y_lane y) eqn:El; try discriminate. intros [= <-]. by apply pair_stepped.
  - destruct (y_lane y) eqn:El; try discriminate. intros [= <-]. by apply fetched_stepped.
  - destruct (y_lane y) as [| | | | |r| | | |]; try discriminate. intros [= <-]. unfold step_listed.
    assert (w_states (if ro_new r then with_failures ∅ (y_worker y) else y_worker y) !! key = Some s) by by destruct (ro_new r).
    repeat case_match; first [by apply stepped_end | apply stepped_same; quiet_lane].
  - destruct (y_lane y); try discriminate. intros [= <-]. unfold step_month.
    repeat case_match; first [by apply stepped_end | apply stepped_same; quiet_lane].
  - destruct (y_lane y) as [| | | | | | |r rest n k request| |]; try discriminate. intros [= <-]. unfold step_month_fetched.
    pose proof (fetchMonthEnd_effects (ro_settings r) request answer stored stored_at) as He.
    repeat case_match; simpl in He; first [by apply stepped_end | apply stepped_same; quiet_lane].
Qed.

Lemma ordinary_run_budget evs y y' s : ordinary_run evs y y' -> Forall event_ok evs -> system_ok y ->
  w_states (y_worker y) !! key = Some s -> settled s ->
  exists s' new, y_log y' = y_log y ++ new /\ w_states (y_worker y') !! key = Some s' /\ system_ok y'
    /\ ts_attemptCount s + Z.of_nat (fetches key new) <= ts_attemptCount s'
    /\ (forall t at_, not_fetching_key (y_lane y) -> ts_nextRetryAt s = Some t ->
        first_fetch key new = Some at_ -> t <= at_).
Proof.
  intros Hrun. revert s. induction Hrun as [y|ev evs y y1 y2 Hord Hstep _ IH]; intros s He Hy Hs Hset.
  { exists s, []. rewrite app_nil_r. split_and!; try done. unfold fetches. simpl. lia. }
  apply Forall_cons in He as [He Hes]. pose proof (step_ok _ _ _ _ _ He Hy Hstep) as Hy1.
  destruct (ordinary_step ev y y1 s Hord Hy Hs Hset Hstep) as (s1 & effects & Hl1 & Hs1 & Hset1 & Hb).
  destruct (IH s1 Hes Hy1 Hs1 Hset1) as (s2 & new & Hl2 & Hs2 & Hy2 & Ha2 & Ht2).
  exists s2, (effects ++ new). rewrite Hl2, Hl1, <- app_assoc, fetches_app, Nat2Z.inj_add.
  destruct Hb as [He0 Ha Hn|p at0 -> Ha Ht].
  - split_and!; try done; [rewrite He0; lia|]. intros t at_ Hl Hnext. rewrite first_fetch_app by done.
    destruct (Hn Hl) as [Hl' Hsame]. apply Ht2; [done|]. by rewrite Hsame.
  - split_and!; try done.
    + unfold fetches in *. simpl in *. rewrite String.eqb_refl. simpl. lia.
    + intros t at_ _ Hnext. simpl. rewrite String.eqb_refl. intros [= <-]. auto.
Qed.

(** C35: As long as a pair stays active, no forced refresh arrives, no new round opens, the
    settings stay as they are and no request succeeds, whatever ordinary requests, status queries,
    reconciling and retry rounds come, the worker makes no more requests for it than its budget of
    four leaves, and after a failure none before the scheduled retry. *)
Theorem failure_budget before evs y y' s :
  Forall event_ok before -> run sha256_hex error_text before initial = Some y ->
  w_states (y_worker y) !! key = Some s -> settled s ->
  Forall event_ok evs -> ordinary_run evs y y' ->
  exists new, y_log y' = y_log y ++ new
    /\ Z.of_nat (fetches key new) <= exchangeRateMaxAttempts - ts_attemptCount s
    /\ (forall t at_, not_fetching_key (y_lane y) -> ts_nextRetryAt s = Some t ->
        first_fetch key new = Some at_ -> t <= at_).
Proof.
  intros Hb Hr Hs Hset He Ho. pose proof (run_ok _ _ _ _ _ Hb initial_ok Hr) as Hy.
  destruct (ordinary_run_budget evs y y' s Ho He Hy Hs Hset) as (s' & new & Hl & Hs' & [_ Hok] & Ha & Ht).
  exists new. split_and!; [done| |done]. pose proof (to_attempts _ _ _ (Hok key s' Hs')).
  unfold exchangeRateMaxAttempts. lia.
Qed.

End Budget.

(** * Forced refreshes *)

Section Forced.
Context (sha256_hex : string -> string) (error_text : error -> string) (key : string).

(** A forced refresh of the pair is pending. *)
Definition forced (s : exchangeRateTaskState) : Prop := ts_forcePending s = true /\ is_identity s = false.

(** What happens during the loop of a round over its pairs: the loop itself, requests of any
    kind, and status queries while the pair is active. *)
Definition in_round (ev : event) : Prop :=
  match ev with
  | EvPair | EvFetched _ _ _ _ | EvRequest _ => True
  | EvStatus settings pairs now => lists key settings pairs now
  | _ => False
  end.

(** The pair is to be converted in the round. *)
Definition foreign (settings : SubscriptionCostSettings) (pairs : list ExchangeRatePair) (now : Z) : Prop :=
  lists key settings pairs now
  /\ (forall p, p ∈ pairs -> pair_key settings now p = key ->
      let q := normalizeExchangeRatePair p settings now in xp_QuoteCurrency q <> xp_BaseCurrency q).

Lemma sync_state_forced dirty force newRound discovery p status s : status <> ExchangeRateStatusIdentity ->
  ts_forcePending s = true -> forced (sync_state dirty force newRound discovery p status (Some s)).
Proof.
  intros Hn Hf. apply String.eqb_neq in Hn. unfold sync_state.
  set (s1 := sync_discover _ _ _ _).
  assert (ts_forcePending s1 = true /\ is_identity s1 = false) as [H1 H2].
  { subst s1. unfold sync_discover. repeat case_match; done. }
  clearbody s1. unfold sync_queue_new. simpl. unfold sync_new_round, sync_settle.
  destruct newRound; [change (is_identity (ts_with_refresh ExchangeRateRefreshStatusIdle (ts_reset_attempts s1)))
    with (is_identity s1)|]; rewrite H2; simpl; repeat case_match; done.
Qed.

Lemma sync_forced pairs settings now newRound discovery w s :
  lists key settings pairs now -> w_states w !! key = Some s -> forced s ->
  exists s', w_states (syncActivePairsLocked pairs settings now newRound discovery w) !! key = Some s' /\ forced s'.
Proof.
  intros [Hin Hid] Hs Hfo. simpl.
  assert (exists s', foldl (sync_pair (w_dirty w) (discovery && w_forceDiscoveryPending w) newRound discovery
    settings now) (w_states w) pairs !! key = Some s' /\ forced s') as (s' & H & Hf').
  { clear Hin. assert (exists s', w_states w !! key = Some s' /\ forced s') as H0 by eauto.
    revert H0. generalize (w_states w). clear Hs Hfo s.
    induction pairs as [|q pairs IH]; intros states (s & H & Hfo); [by exists s|].
    simpl. apply IH; [intros; apply Hid; [by apply list_elem_of_further|done]|].
    unfold sync_pair. fold (pair_key settings now q). fold (listed_status settings now q).
    destruct (decide (pair_key settings now q = key)) as [E|Hne].
    - rewrite E, lookup_insert_eq, H. eexists. split; [done|]. apply sync_state_forced; [|apply Hfo].
      apply Hid; [apply list_elem_of_here|done].
    - rewrite lookup_insert_ne by done. eauto. }
  exists s'. split; [|done]. by apply map_lookup_filter_Some.
Qed.

Lemma request_forced force s : forced s -> forced (request_state force s).
Proof. intros [Hf Hi]. unfold request_state. repeat case_match; done. Qed.

Lemma status_forced settings pairs now w s : lists key settings pairs now ->
  w_states w !! key = Some s -> forced s ->
  exists s', w_states (Status sha256_hex settings pairs now w).2 !! key = Some s' /\ forced s'.
Proof.
  intros Hli Hs Hfo. destruct (sync_forced pairs settings now false false w s Hli Hs Hfo) as (s1 & H1 & Hf1).
  unfold Status. cbn [snd w_states]. generalize dependent (syncActivePairsLocked pairs settings now false false w). intros w' H1.
  assert (forall b : bool, exists s2,
    (if b then reopen_state <$> w_states w' else w_states w') !! key = Some s2 /\ forced s2) as H2.
  { intros [|]; [|eauto]. rewrite lookup_fmap, H1. eexists. split; [done|].
    unfold reopen_state. destruct Hf1. repeat case_match; done. }
  match goal with |- context [if ?b then reopen_state <$> _ else _] => specialize (H2 b) as (s2 & H2 & Hf2) end.
  destruct (w_forceDiscoveryPending w'); [|eauto]. rewrite lookup_fmap, H2. eexists. split; [done|].
  unfold project_state. destruct Hf2. repeat case_match; done.
Qed.

Lemma claim_forced now trigger s : forced s -> is_running s = false -> (claim_state now trigger s).1 = true.
Proof. intros [Hf Hi] Hr. unfold claim_state. rewrite Hr, Hi, Hf. done. Qed.

(** Where a round stands towards a forced pair: it will come to it, or it has fetched it. *)
Inductive progress (y : system) (new : list effect) : Prop :=
| still_to_come s :
    key ∈ awaited (y_lane y) -> w_states (y_worker y) !! key = Some s -> forced s ->
    fetches key new = 0%nat -> progress y new
| already_fetched : key ∉ awaited (y_lane y) -> fetches key new = 1%nat -> progress y new.

(** The pairs of the round at which the lane stands are foreign. *)
Definition round_foreign (l : lane) : Prop :=
  match l with
  | Pairs r rest | Fetching r rest _ _ =>
      forall p, p ∈ rest -> pair_key (ro_settings r) (ro_now r) p = key ->
        let q := normalizeExchangeRatePair p (ro_settings r) (ro_now r) in xp_QuoteCurrency q <> xp_BaseCurrency q
  | _ => True
  end.

Lemma pair_progress y r rest new : y_lane y = Pairs r rest -> rest <> [] ->
  y_cancelled y = false -> system_ok y -> round_foreign (y_lane y) -> progress y new ->
  exists effects, y_log (step_pair r rest y) = y_log y ++ effects /\ progress (step_pair r rest y) (new ++ effects)
    /\ round_foreign (y_lane (step_pair r rest y)).
Proof.
  intros El Hne Hc [Hl Hok] Hfor Hp. unfold step_pair. destruct rest as [|next rest]; [done|]. rewrite Hc.
  rewrite El in *. set (q := normalizeExchangeRatePair next (ro_settings r) (ro_now r)). set (k := exchangeRatePairKey q).
  destruct Hl as (Hnd & _ & _). simpl in Hnd. apply NoDup_cons in Hnd as [Hnew Hnd]. fold k in Hnew.
  assert (round_foreign (Pairs r rest)) as Hfor' by (intros p Hin; apply Hfor; by apply list_elem_of_further).
  assert (forall w l' effects, awaited l' = awaited (Pairs r rest) -> round_foreign l' -> k <> key ->
    w_states w !! key = w_states (y_worker y) !! key -> fetches key effects = 0%nat ->
    exists effects', y_log (at_lane l' w effects y) = y_log y ++ effects'
      /\ progress (at_lane l' w effects y) (new ++ effects') /\ round_foreign (y_lane (at_lane l' w effects y))) as Hother.
  { intros w l' effects Ha Hf' Hk Hw He. exists effects. split_and!; [done| |done].
    destruct Hp as [s Hin Hs Hfo H0|Hnin H1]; rewrite El in *.
    - apply (still_to_come _ _ s); simpl; [|by rewrite Hw|done|rewrite fetches_app; lia].
      rewrite Ha. apply elem_of_cons in Hin as [->|]; done.
    - apply already_fetched; simpl; [|rewrite fetches_app; lia]. rewrite Ha. intros Hin. apply Hnin. by apply list_elem_of_further. }
  unfold claimPairFetch. destruct (decide (k = key)) as [E|Hk].
  - destruct Hp as [s _ Hs Hfo H0|Hnin _];
      [|exfalso; apply Hnin; rewrite El, <- E; apply list_elem_of_here].
    pose proof (Hfor next ltac:(apply list_elem_of_here) E) as Hq. cbv zeta in Hq. fold q in Hq.
    apply String.eqb_neq in Hq. rewrite Hq. rewrite E, Hs.
    assert (is_running s = false) as Hr.
    { apply not_running. intros Hr. by destruct (to_running _ _ _ (Hok key s Hs) Hr). }
    pose proof (claim_forced (ro_now r) (ro_trigger r) s Hfo Hr) as Hcl.
    destruct (claim_state (ro_now r) (ro_trigger r) s) as [claimed s']. simpl in Hcl. subst claimed.
    exists [Fetch key q (ro_now r)]. split_and!; [done| |done]. apply already_fetched; simpl; [by rewrite <- E|].
    rewrite fetches_app, H0. unfold fetches. simpl. by rewrite String.eqb_refl.
  - destruct (_ =s _); [by apply Hother|]. destruct (w_states (y_worker y) !! k) as [s1|]; [|by apply Hother].
    destruct (claim_state (ro_now r) (ro_trigger r) s1) as [[|] s1'];
      (apply Hother; [done|done|done|simpl; by rewrite lookup_insert_ne|]); [|done].
    unfold fetches. simpl. apply String.eqb_neq in Hk. by rewrite Hk.
Qed.

Lemma fetched_progress y r rest k p start answer stored failed_at new :
  let y' := step_fetched error_text r rest k p start answer stored failed_at y in
  y_lane y = Fetching r rest k p -> y_cancelled y = false -> system_ok y -> round_foreign (y_lane y) ->
  progress y new ->
  exists effects, y_log y' = y_log y ++ effects /\ progress y' (new ++ effects) /\ round_foreign (y_lane y').
Proof.
  intros y' El Hc [(_ & _ & Hl) Hok] Hfor Hp. subst y'. rewrite El in *. destruct (Hl _ _ _ _ eq_refl) as [Hk _].
  pose proof (fetchPair_effects key (ro_settings r) p start answer stored) as He. unfold step_fetched.
  destruct (fetchPair (ro_settings r) p start answer stored) as [outcome effects]. simpl in He.
  assert (forall w, (forall j, j <> k -> w_states w !! j = w_states (y_worker y) !! j) ->
    exists effects', y_log (at_lane (Pairs r rest) w effects y) = y_log y ++ effects'
      /\ progress (at_lane (Pairs r rest) w effects y) (new ++ effects')
      /\ round_foreign (y_lane (at_lane (Pairs r rest) w effects y))) as Hgo.
  { intros w Hw. exists effects. split_and!; [done| |done].
    destruct Hp as [s Hin Hs Hfo H0|Hnin H1]; rewrite El in *.
    - apply (still_to_come _ _ s); simpl; [done| |done|rewrite fetches_app; lia].
      rewrite Hw; [done|]. intros ->. by apply Hk.
    - apply already_fetched; simpl; [done|rewrite fetches_app; lia]. }
  rewrite Hc. destruct outcome as [x|err].
  - apply Hgo. intros j Hj. simpl. by rewrite lookup_alter_ne.
  - destruct (w_states (y_worker y) !! k) as [s|] eqn:Es; [|by apply Hgo].
    destruct (failed_state_ok True p (sanitizeProviderError (error_text err)) failed_at s) as (s' & -> & _).
    { eapply task_ok_mono; [| |apply (Hok k s Es)]; done. }
    apply Hgo. intros j Hj. simpl. by rewrite lookup_insert_ne.
Qed.

Lemma round_progress evs y y' new :
  Forall in_round evs -> run sha256_hex error_text evs y = Some y' ->
  y_cancelled y = false -> system_ok y -> round_foreign (y_lane y) -> progress y new ->
  exists effects, y_log y' = y_log y ++ effects /\ progress y' (new ++ effects).
Proof.
  intros He. revert y new. induction He as [|ev evs Hev _ IH]; intros y new; simpl.
  { intros [= <-] _ _ _ Hp. exists []. by rewrite !app_nil_r. }
  destruct (step sha256_hex error_text ev y) as [y1|] eqn:Est; [|done]. intros Hrun Hc Hy Hfor Hp.
  assert (event_ok ev) as Hev' by by destruct ev as [| | | | |[[[]]|]| | | | |].
  pose proof (step_ok _ _ _ _ _ Hev' Hy Est) as Hy1.
  assert (exists effects, y_log y1 = y_log y ++ effects /\ progress y1 (new ++ effects)
    /\ round_foreign (y_lane y1) /\ y_cancelled y1 = false) as (e1 & Hl1 & Hp1 & Hfor1 & Hc1).
  { destruct ev as [|force|settings pairs now| | | | |start answer stored failed_at| | |]; try done; simpl in Est.
    - injection Est as <-. exists []. split_and!; try done. rewrite app_nil_r.
      destruct Hp as [s Hin Hs Hfo H0|Hnin H1]; [|by apply already_fetched].
      eapply (still_to_come _ _ (request_state force s)); try done; [|by apply request_forced].
      simpl. by rewrite lookup_fmap, Hs.
    - injection Est as <-. exists []. split_and!; try done. rewrite app_nil_r.
      destruct Hp as [s Hin Hs Hfo H0|Hnin H1]; [|by apply already_fetched].
      destruct (status_forced settings pairs now (y_worker y) s Hev Hs Hfo) as (s' & Hs' & Hfo').
      by eapply (still_to_come _ _ s').
    - destruct (y_lane y) as [| | |r rest| | | | | |] eqn:El; try discriminate. injection Est as <-.
      destruct rest as [|next rest].
      + exists []. split_and!; try done. rewrite app_nil_r.
        destruct Hp as [s Hin|Hnin H1]; [rewrite El in Hin; by apply not_elem_of_nil in Hin|].
        apply already_fetched; [by apply not_elem_of_nil|done].
      + rewrite <- El in Hfor. destruct (pair_progress y r (next :: rest) new) as (e & ? & ? & ?); try done.
        exists e. split_and!; try done. unfold step_pair. rewrite Hc. by destruct (claimPairFetch _ _ _ _ _) as [[|] ?].
    - destruct (y_lane y) as [| | | |r rest k p| | | | |] eqn:El; try discriminate. injection Est as <-.
      rewrite <- El in Hfor.
      destruct (fetched_progress y r rest k p start answer stored failed_at new) as (e & ? & ? & ?); try done.
      exists e. split_and!; try done. unfold step_fetched. repeat case_match; try done; simpl; try done. }
  destruct (IH y1 (new ++ e1) Hrun Hc1 Hy1 Hfor1 Hp1) as (e2 & Hl2 & Hp2).
  exists (e1 ++ e2). by rewrite Hl2, Hl1, !app_assoc in *.
Qed.

(** A manual refresh marks every known pair that needs a conversion and is not being
    fetched, however fresh its rate is; the next round to read the pairs then requests the rate of
    such a pair exactly once, whatever else is requested, queried or fails during the round. *)
Theorem forced_refresh_once before y s :
  Forall event_ok before -> run sha256_hex error_text before initial = Some y ->
  w_states (y_worker y) !! key = Some s ->
  (is_identity s = false -> is_running s = false ->
   exists s', w_states (RequestRefresh true (y_worker y)) !! key = Some s' /\ forced s')
  /\ (forall trigger settings pairs now evs y' r,
      forced s -> y_lane y = Reading trigger -> y_cancelled y = false ->
      NoDup (pair_key settings now <$> pairs) -> foreign settings pairs now -> Forall in_round evs ->
      run sha256_hex error_text (EvRead (Some (settings, pairs, now)) :: evs) y = Some y' ->
      y_lane y' = Listing r ->
      exists new, y_log y' = y_log y ++ new /\ fetches key new = 1%nat).
Proof.
  intros Hb Hr Hs. split.
  { intros Hi Hru. exists (request_state true s). simpl. rewrite lookup_fmap, Hs. split; [done|].
    unfold request_state. by rewrite Hi, Hru. }
  intros trigger settings pairs now evs y' r Hfo El Hc Hnd Hforeign He Hrun El'.
  pose proof (run_ok _ _ _ _ _ Hb initial_ok Hr) as Hy.
  cbn [run] in Hrun.
  destruct (step sha256_hex error_text (EvRead (Some (settings, pairs, now))) y) as [y1|] eqn:Est; [|done].
  assert (system_ok y1) as Hy1 by (eapply step_ok; [|exact Hy|exact Est]; exact Hnd).
  cbn [mbind option_bind] in Hrun.
  unfold step in Est. rewrite El in Est.
  destruct (begin_round sha256_hex trigger settings pairs now (y_worker y)) as [newRound w'] eqn:Eb.
  injection Est as <-.
  destruct Hforeign as [Hli Hq].
  assert (exists s', w_states w' !! key = Some s' /\ forced s') as (s' & Hs' & Hfo').
  { unfold begin_round in Eb. injection Eb as _ <-. by eapply sync_forced. }
  destruct (round_progress evs _ y' [] He Hrun Hc Hy1) as (new & Hl & Hp); [exact Hq| |].
  { eapply (still_to_come _ _ s'); try done. apply Hli. }
  exists new. simpl in Hl. rewrite app_nil_r in Hl. split; [done|].
  destruct Hp as [s1 Hin|]; [|done]. rewrite El' in Hin. by apply not_elem_of_nil in Hin.
Qed.

End Forced.
