(* ===== verification/RateWorkerEffects.v ===== *)
(** What the exchange-rate worker stores and requests: only genuine rates of pairs it asked for,
    and a bounded number of month ends in a round. *)
From stdpp Require Import base list strings gmap fin_maps fin_map_dom.
From Stdlib Require Import ZArith Lia.
From S2P Require Import Prelude GoRuntime Settings Calendar ProviderErrors Subscriptions RateWorker RateWorkerProps.

Local Open Scope Z_scope.
#[local] Set Warnings "-clear-no-such-hyp".

(** * Steps and their effects *)

Definition fetch_on (e : effect) : bool := match e with FetchOn _ _ => true | _ => false end.

(** The requests for month ends in a log. *)
Definition month_requests (log : list effect) : nat := length (List.filter fetch_on log).

(** A stored rate is genuine: a finite positive rate of a pair of two currencies that was asked
    for, or of a month end, with a rate date inside that month. *)
Definition genuine (log : list effect) (e : effect) : Prop :=
  match e with
  | Upsert u =>
      positive_rate (xu_Rate u) = true
      /\ exists key p at_, Fetch key p at_ ∈ log
         /\ xu_QuoteCurrency u = xp_QuoteCurrency p /\ xu_BaseCurrency u = xp_BaseCurrency p
         /\ xp_QuoteCurrency p <> xp_BaseCurrency p
  | UpsertMonthEnd u =>
      positive_rate (mu_Rate u) = true /\ mu_Provider u = "frankfurter"
      /\ month_index (mu_RateDate u) = month_index (mu_MonthEnd u) /\ mu_RateDate u <= mu_MonthEnd u
      /\ exists key request, FetchOn key request ∈ log
         /\ mu_QuoteCurrency u = mr_QuoteCurrency request /\ mu_MonthEnd u = mr_MonthEnd request
  | _ => True
  end.

(** What the position of the lane says about the log. *)
Definition lane_logged (l : lane) (log : list effect) : Prop :=
  match l with
  | Fetching _ _ key p => xp_QuoteCurrency p <> xp_BaseCurrency p /\ exists at_, Fetch key p at_ ∈ log
  | Filling r _ _ => sc_ExchangeRateProvider (ro_settings r) = "frankfurter"
  | FillingOne r _ _ key request =>
      sc_ExchangeRateProvider (ro_settings r) = "frankfurter" /\ FetchOn key request ∈ log
  | _ => True
  end.

Definition log_ok (y : system) : Prop := Forall (genuine (y_log y)) (y_log y) /\ lane_logged (y_lane y) (y_log y).

Lemma genuine_more log more e : genuine log e -> genuine (log ++ more) e.
Proof.
  destruct e; simpl; try done.
  - intros (H & key & p & at_ & Hin & Hrest). split; [done|]. exists key, p, at_. split; [|done].
    apply elem_of_app. by left.
  - intros (H1 & H2 & H3 & H4 & key & request & Hin & Hrest). split_and!; try done.
    exists key, request. split; [|done]. apply elem_of_app. by left.
Qed.

Lemma log_ok_app y l' w effects : log_ok y -> Forall (genuine (y_log y)) effects ->
  lane_logged l' (y_log y ++ effects) -> log_ok (at_lane l' w effects y).
Proof.
  intros [Hg _] He Hl. split; [|done]. simpl. apply Forall_app. split.
  - eapply Forall_impl; [exact Hg|]. intros e. apply genuine_more.
  - eapply Forall_impl; [exact He|]. intros e. apply genuine_more.
Qed.

Lemma log_ok_end y failed w effects : log_ok y -> Forall (genuine (y_log y)) effects ->
  log_ok (end_round failed w effects y).
Proof. intros. apply log_ok_app; [done..|]. by destruct (failed && _). Qed.

(** Steps without effects. *)
Lemma log_ok_quiet y l' w : log_ok y -> lane_logged l' (y_log y) -> log_ok (at_lane l' w [] y).
Proof. intros. apply log_ok_app; [done|constructor|]. by rewrite app_nil_r. Qed.

Lemma fetchPair_genuine settings p now answer stored log key at_ :
  Fetch key p at_ ∈ log -> xp_QuoteCurrency p <> xp_BaseCurrency p ->
  Forall (genuine log) (fetchPair settings p now answer stored).2.
Proof.
  intros Hin Hne. unfold fetchPair. destruct answer as [[x|]|]; [|constructor..].
  destruct (positive_rate (fx_Rate x)) eqn:Hp; simpl; [|constructor].
  destruct stored; simpl; (constructor; [|constructor]); simpl;
    (split; [by destruct (Time_IsZero _)|]; exists key, p, at_; done).
Qed.

Lemma fetchMonthEnd_genuine settings request answer stored now log key :
  FetchOn key request ∈ log -> sc_ExchangeRateProvider settings = "frankfurter" ->
  Forall (genuine log) (fetchMonthEndRate settings request answer stored now).2.
Proof.
  intros Hin Hpr. unfold fetchMonthEndRate. destruct answer as [x|]; [|constructor].
  destruct (positive_rate (fx_Rate x)) eqn:Hp; simpl; [|constructor].
  destruct (_ || _) eqn:Hb; simpl; [constructor|]. apply orb_false_iff in Hb as [Hb Ha].
  unfold Time_Before, Time_After in *. apply Z.ltb_ge in Hb, Ha. constructor; [|constructor]. simpl.
  split_and!; try done; [|by exists key, request]. rewrite Time_Date_month in Hb.
  set (i := month_index (mr_MonthEnd request)).
  apply month_index_unique. pose proof (month_index_spec (mr_MonthEnd request)). fold i in H.
  unfold i, month_index in Hb. fold (month_index (mr_MonthEnd request)) in Hb. fold i in Hb. lia.
Qed.

Section Effects.
Context (sha256_hex : string -> string) (error_text : error -> string).

Lemma step_pair_log r rest y : log_ok y -> log_ok (step_pair r rest y).
Proof.
  intros Hy. unfold step_pair. destruct rest as [|next rest]; [by apply log_ok_quiet|].
  destruct (y_cancelled y); [by apply log_ok_end|].
  set (q := normalizeExchangeRatePair next (ro_settings r) (ro_now r)). unfold claimPairFetch.
  destruct (String.eqb_spec (xp_QuoteCurrency q) (xp_BaseCurrency q)) as [|Hne]; [by apply log_ok_quiet|].
  destruct (_ !! _) as [s|]; [|by apply log_ok_quiet].
  destruct (claim_state (ro_now r) (ro_trigger r) s) as [[|] s']; [|by apply log_ok_quiet].
  apply log_ok_app; [done|by repeat constructor|]. split; [done|]. exists (ro_now r).
  apply elem_of_app. right. apply list_elem_of_here.
Qed.

Lemma step_log ev y y' : log_ok y -> step sha256_hex error_text ev y = Some y' -> log_ok y'.
Proof.
  intros Hy. pose proof Hy as [_ Hl]. unfold step. destruct ev as
    [|force|settings pairs now| |arm|[[[settings pairs] now]|]| |start answer stored failed_at|historical answer| |answer stored stored_at].
  - intros [= <-]. exact Hy.
  - intros [= <-]. by apply log_ok_quiet.
  - intros [= <-]. by apply log_ok_quiet.
  - destruct (y_lane y); try discriminate. intros [= <-]. by apply log_ok_quiet.
  - destruct (y_lane y); try discriminate. unfold step_select.
    destruct arm; repeat case_match; intros [= <-]; by apply log_ok_quiet.
  - destruct (y_lane y); try discriminate. destruct (begin_round _ _ _ _ _ _). intros [= <-]. by apply log_ok_quiet.
  - destruct (y_lane y); try discriminate. intros [= <-]. by apply log_ok_end.
  - destruct (y_lane y); try discriminate. intros [= <-]. by apply step_pair_log.
  - destruct (y_lane y) as [| | | |r rest key p| | | | |]; try discriminate. intros [= <-].
    destruct Hl as (Hne & at_ & Hin). unfold step_fetched.
    pose proof (fetchPair_genuine (ro_settings r) p start answer stored _ key at_ Hin Hne) as Hg.
    destruct (fetchPair (ro_settings r) p start answer stored) as [outcome effects]. simpl in Hg.
    repeat case_match; first [by apply log_ok_end | by apply log_ok_app].
  - destruct (y_lane y); try discriminate. intros [= <-]. unfold step_listed.
    destruct (String.eqb_spec (sc_ExchangeRateProvider (ro_settings r)) "frankfurter"); simpl;
      repeat case_match; first [by apply log_ok_end | by apply log_ok_quiet].
  - destruct (y_lane y) as [| | | | | |r rest n| | |]; try discriminate. intros [= <-]. unfold step_month.
    repeat case_match; first [by apply log_ok_end | by apply log_ok_quiet | idtac].
    apply log_ok_app; [done|by repeat constructor|]. split; [done|]. apply elem_of_app. right. apply list_elem_of_here.
  - destruct (y_lane y) as [| | | | | | |r rest n key request| |]; try discriminate. intros [= <-].
    destruct Hl as [Hpr Hin]. unfold step_month_fetched.
    pose proof (fetchMonthEnd_genuine (ro_settings r) request answer stored stored_at _ key Hin Hpr) as Hg.
    destruct (fetchMonthEndRate (ro_settings r) request answer stored stored_at) as [[] effects]; simpl in Hg;
      repeat case_match; first [by apply log_ok_end | by apply log_ok_app].
Qed.

(** C38: Whatever the providers, the store and the clock answer and whatever else runs, every
    rate the worker stores is finite and positive and belongs to a pair of two currencies that it
    asked for; a month-end rate comes from Frankfurter and carries a date of the requested month,
    not after its end. *)
Theorem stored_rates_genuine evs y e :
  run sha256_hex error_text evs initial = Some y -> e ∈ y_log y -> genuine (y_log y) e.
Proof.
  intros Hr Hin. assert (log_ok initial) as H0 by (split; constructor). revert H0 Hr. generalize initial.
  induction evs as [|ev evs IH]; simpl; intros y0 H0.
  - intros [= <-]. destruct H0 as [H0 _]. rewrite Forall_forall in H0. by apply H0.
  - destruct (step sha256_hex error_text ev y0) as [y1|] eqn:E; [|done]. apply IH. by eapply step_log.
Qed.

(** * Month ends *)

(** No new round starts its search for month ends. *)
Definition no_new_round (ev : event) (y : system) : Prop :=
  match ev with EvListed _ _ => forall r, y_lane y = Listing r -> ro_new r = false | _ => True end.

Inductive run_where (P : event -> system -> Prop) : list event -> system -> system -> Prop :=
| where_nil y : run_where P [] y y
| where_cons ev evs y y1 y2 :
    P ev y -> step sha256_hex error_text ev y = Some y1 -> run_where P evs y1 y2 -> run_where P (ev :: evs) y y2.

(** No search for month ends starts at all. *)
Definition same_search (ev : event) (_ : system) : Prop := match ev with EvListed _ _ => False | _ => True end.

(** How many requests for month ends the lane may still make in its search. *)
Definition month_budget (l : lane) : Z :=
  match l with
  | Filling _ _ n | FillingOne _ _ n _ _ => Z.max 0 (monthEndBackfillPerRound - n)
  | _ => 0
  end.

Lemma fetchPair_months settings p now answer stored : month_requests (fetchPair settings p now answer stored).2 = 0%nat.
Proof. unfold fetchPair. repeat case_match; done. Qed.

Lemma fetchMonthEnd_months settings request answer stored now :
  month_requests (fetchMonthEndRate settings request answer stored now).2 = 0%nat.
Proof. unfold fetchMonthEndRate. repeat case_match; done. Qed.

(** A step takes its requests for month ends out of the budget of the search and never asks for a
    pair and month that failed; the failures are forgotten only by a new round. *)
Definition month_step (ev : event) (y y' : system) : Prop :=
  exists effects, y_log y' = y_log y ++ effects
    /\ (same_search ev y -> month_budget (y_lane y') + Z.of_nat (month_requests effects) <= month_budget (y_lane y))
    /\ (forall key request, FetchOn key request ∈ effects -> key ∉ w_monthEndFailures (y_worker y))
    /\ (no_new_round ev y -> w_monthEndFailures (y_worker y) ⊆ w_monthEndFailures (y_worker y')).

Lemma no_month_requests effects key request : month_requests effects = 0%nat -> FetchOn key request ∉ effects.
Proof.
  unfold month_requests. intros H Hin. apply list_elem_of_In in Hin.
  assert (In (FetchOn key request) (List.filter fetch_on effects)) as Hf by by apply filter_In.
  by destruct (List.filter fetch_on effects).
Qed.

Lemma month_budget_pos l : 0 <= month_budget l.
Proof. destruct l; simpl; lia. Qed.

Lemma month_quiet ev y l' w effects : month_requests effects = 0%nat ->
  (same_search ev y -> month_budget l' <= month_budget (y_lane y)) ->
  (no_new_round ev y -> w_monthEndFailures (y_worker y) ⊆ w_monthEndFailures w) ->
  month_step ev y (at_lane l' w effects y).
Proof.
  intros He Hb Hf. exists effects. split_and!; try done.
  - intros Hs. simpl. rewrite He. specialize (Hb Hs). lia.
  - intros key request Hin. by apply no_month_requests in Hin.
Qed.

Lemma month_end ev y failed w effects : month_requests effects = 0%nat ->
  (no_new_round ev y -> w_monthEndFailures (y_worker y) ⊆ w_monthEndFailures w) ->
  month_step ev y (end_round failed w effects y).
Proof.
  intros He Hf. apply month_quiet; [done| |done]. intros _. pose proof (month_budget_pos (y_lane y)).
  destruct (failed && _); simpl; lia.
Qed.

Lemma step_month_step ev y y' : step sha256_hex error_text ev y = Some y' -> month_step ev y y'.
Proof.
  unfold step. destruct ev as
    [|force|settings pairs now| |arm|[[[settings pairs] now]|]| |start answer stored failed_at|historical answer| |answer stored stored_at].
  - intros [= <-]. exists []. rewrite app_nil_r. split_and!; try done; [unfold month_requests; simpl; lia|].
    intros ?? H. by apply not_elem_of_nil in H.
  - intros [= <-]. by apply month_quiet.
  - intros [= <-]. by apply month_quiet.
  - destruct (y_lane y) eqn:El; try discriminate. intros [= <-]. apply month_quiet; rewrite ?El; done.
  - destruct (y_lane y) eqn:El; try discriminate. unfold step_select.
    destruct arm; repeat case_match; intros [= <-]; apply month_quiet; rewrite ?El; done.
  - destruct (y_lane y) eqn:El; try discriminate.
    destruct (begin_round _ _ _ _ _ _) as [nr w'] eqn:Eb. intros [= <-]. apply month_quiet; rewrite ?El; try done.
    intros _. unfold begin_round in Eb. by injection Eb as _ <-.
  - destruct (y_lane y) eqn:El; try discriminate. intros [= <-]. by apply month_end.
  - destruct (y_lane y) eqn:El; try discriminate. intros [= <-]. unfold step_pair, claimPairFetch.
    repeat case_match; simplify_eq; first [by apply month_end | apply month_quiet; rewrite ?El; done].
  - destruct (y_lane y) as [| | | |r rest key p| | | | |] eqn:El; try discriminate. intros [= <-]. unfold step_fetched.
    pose proof (fetchPair_months (ro_settings r) p start answer stored) as Hg.
    destruct (fetchPair (ro_settings r) p start answer stored) as [outcome effects]. simpl in Hg.
    repeat case_match; first [by apply month_end | apply month_quiet; rewrite ?El; done].
  - destruct (y_lane y) as [| | | | |r| | | |] eqn:El; try discriminate. intros [= <-]. unfold step_listed.
    assert (no_new_round (EvListed historical answer) y -> w_monthEndFailures (y_worker y) ⊆
      w_monthEndFailures (if ro_new r then with_failures ∅ (y_worker y) else y_worker y)) as Hf
      by (intros H; by rewrite (H r El)).
    repeat case_match; first [by apply month_end | by apply month_quiet].
  - destruct (y_lane y) as [| | | | | |r rest n| | |] eqn:El; try discriminate. intros [= <-]. unfold step_month.
    destruct rest as [|request rest]; [by apply month_end|].
    destruct (Z.leb_spec monthEndBackfillPerRound n); [by apply month_end|].
    case_bool_decide as Hin; [apply month_quiet; rewrite ?El; done|].
    destruct (y_cancelled y); [by apply month_end|]. eexists [_]. split_and!; [done| | |done].
    + intros _. rewrite El. unfold month_requests. simpl. lia.
    + intros key request' H1. apply list_elem_of_singleton in H1. by injection H1 as -> ->.
  - destruct (y_lane y) as [| | | | | | |r rest n key request| |] eqn:El; try discriminate. intros [= <-].
    unfold step_month_fetched. pose proof (fetchMonthEnd_months (ro_settings r) request answer stored stored_at) as Hg.
    destruct (fetchMonthEndRate (ro_settings r) request answer stored stored_at) as [[] effects]; simpl in Hg;
      repeat case_match; first [by apply month_end | apply month_quiet; rewrite ?El; try done].
    intros _. simpl. set_solver.
Qed.

(** C39: One search for missing month-end rates makes at most six requests; and a currency and
    month whose rate could not be had are not asked for again before a new round starts, however
    many ordinary rounds reconcile in between. *)
Theorem month_end_backfill_bounded y :
  (forall r rest evs y', y_lane y = Filling r rest 0 -> run_where same_search evs y y' ->
    exists new, y_log y' = y_log y ++ new /\ (month_requests new <= 6)%nat)
  /\ (forall r rest n key request answer stored at_ y1 evs y' err,
    y_lane y = FillingOne r rest n key request -> y_cancelled y = false ->
    (fetchMonthEndRate (ro_settings r) request answer stored at_).1 = Err err ->
    step sha256_hex error_text (EvMonthFetched answer stored at_) y = Some y1 ->
    run_where no_new_round evs y1 y' ->
    exists new, y_log y' = y_log y1 ++ new /\ forall req, FetchOn key req ∉ new).
Proof.
  split.
  - intros r rest evs y' El Hrun.
    assert (exists new, y_log y' = y_log y ++ new
      /\ month_budget (y_lane y') + Z.of_nat (month_requests new) <= month_budget (y_lane y)) as (new & Hl & Hb).
    { clear El. induction Hrun as [y|ev evs y y1 y2 Hp Hs _ (new & Hl & Hb)].
      - exists []. rewrite app_nil_r. split; [done|]. unfold month_requests. simpl. lia.
      - destruct (step_month_step _ _ _ Hs) as (e & Hl1 & Hb1 & _). specialize (Hb1 Hp).
        exists (e ++ new). rewrite Hl, Hl1, app_assoc. split; [done|].
        unfold month_requests in *. rewrite List.filter_app, length_app. lia. }
    exists new. split; [done|]. rewrite El in Hb. pose proof (month_budget_pos (y_lane y')).
    unfold month_budget at 2, monthEndBackfillPerRound in Hb. lia.
  - intros r rest n key request answer stored at_ y1 evs y' err El Hc Herr Hs Hrun.
    assert (key ∈ w_monthEndFailures (y_worker y1)) as Hin.
    { unfold step in Hs. rewrite El in Hs. injection Hs as <-. unfold step_month_fetched.
      destruct (fetchMonthEndRate (ro_settings r) request answer stored at_) as [res effects]. simpl in Herr. subst.
      rewrite Hc. simpl. set_solver. }
    clear Hs El Herr Hc. induction Hrun as [y0|ev evs y0 y1 y2 Hp Hs _ IH].
    + exists []. rewrite app_nil_r. split; [done|]. intros req H. by apply not_elem_of_nil in H.
    + destruct (step_month_step _ _ _ Hs) as (e & Hl1 & _ & Hn & Hf). specialize (Hf Hp).
      destruct IH as (new & Hl & Hno); [set_solver|]. exists (e ++ new). rewrite Hl, Hl1, app_assoc. split; [done|].
      intros req [H|H]%elem_of_app; [by apply (Hn _ _ H)|by apply (Hno req)].
Qed.

End Effects.

(** * Concrete runs of the worker *)

(** Concrete runs of the exchange-rate worker: a missing USD rate whose first request fails, its
    retry, a forced refresh, and a month end that cannot be had. *)

Definition demo_sha (s : string) : string := String.append "sha:" s.
Definition demo_text (e : error) : string := match e with ErrNew m => m | _ => "error" end.

Definition demo_settings : SubscriptionCostSettings := cs_SubscriptionCost Default.
Definition demo_now : Z := Time_Date 2026 6 2 + 9 * Hour.

Definition demo_pair (status : string) : ExchangeRatePair := {|
  xp_Provider := "frankfurter"; xp_BaseCurrency := "CNY"; xp_QuoteCurrency := "USD";
  xp_RateStatus := status; xp_LatestRate := None |}.

Definition demo_key : string := "frankfurter:CNY:USD".

Definition read_pair (status : string) (now : Z) : event := EvRead (Some (demo_settings, [demo_pair status], now)).

(** The first request fails. *)
Definition failing : event := EvFetched demo_now (Some (Err (ErrNew "timeout"))) (Ok tt) demo_now.

Definition demo_start : list event := [EvRun; read_pair "missing" demo_now; EvPair; failing].

Definition after (evs : list event) : system := default initial (run demo_sha demo_text evs initial).
Definition task_at (y : system) : exchangeRateTaskState :=
  default (new_task_state (demo_pair "")) (w_states (y_worker y) !! demo_key).

Lemma demo_events_ok : Forall event_ok demo_start.
Proof. repeat constructor. simpl. intros H. by apply not_elem_of_nil in H. Qed.

Lemma worker_states_consistent_witness :
  run demo_sha demo_text demo_start initial = Some (after demo_start)
  /\ w_states (y_worker (after demo_start)) !! demo_key = Some (task_at (after demo_start))
  /\ ts_nextRetryAt (task_at (after demo_start)) = Some (demo_now + 5 * Second)
  /\ 1 <= ts_attemptCount (task_at (after demo_start)) <= 3.
Proof.
  split; [vm_compute; reflexivity|]. split; [vm_compute; reflexivity|]. split; [vm_compute; reflexivity|].
  apply (worker_states_consistent demo_sha demo_text demo_start (after demo_start) demo_key
    (task_at (after demo_start)) demo_events_ok) with (t := demo_now + 5 * Second); vm_compute; reflexivity.
Defined.

(** The rest of the round, an ordinary request, and the retry six seconds later. *)
Definition demo_retry : list event :=
  [EvPair; EvListed false None; EvRequest false; EvSelect ArmRetry; read_pair "missing" (demo_now + 6 * Second); EvPair].

Lemma demo_lists now : lists demo_key demo_settings [demo_pair "missing"] now.
Proof.
  split; [apply list_elem_of_here|]. intros p Hp%list_elem_of_singleton _. subst. discriminate.
Qed.

Lemma failure_budget_witness : exists new y',
  y_log y' = y_log (after demo_start) ++ new
  /\ Z.of_nat (fetches demo_key new) <= exchangeRateMaxAttempts - ts_attemptCount (task_at (after demo_start)).
Proof.
  set (y' := after (demo_start ++ demo_retry)).
  destruct (failure_budget demo_sha demo_text demo_key demo_start demo_retry (after demo_start) y'
    (task_at (after demo_start))) as (new & Hl & Hb & _);
    [exact demo_events_ok|vm_compute; reflexivity|vm_compute; reflexivity|split_and!; vm_compute; reflexivity| | |].
  - repeat constructor. simpl. intros H. by apply not_elem_of_nil in H.
  - repeat (eapply ordinary_cons; [|vm_compute; reflexivity|]); [..|apply ordinary_nil];
      try exact I; try reflexivity.
    split; [apply demo_lists|]. intros trigger [= <-]. vm_compute. reflexivity.
  - exists new, y'. split; [exact Hl|exact Hb].
Defined.

(** A fresh rate, a manual refresh, and the round that answers it. *)
Definition demo_forced : list event :=
  [EvRun; read_pair "fresh" demo_now; EvPair; EvPair; EvListed false None; EvRequest true; EvSelect ArmWake].

Definition good_answer : event :=
  EvFetched demo_now (Some (Ok {| fx_Rate := f64_of_Z 7; fx_RateDate := demo_now |})) (Ok tt) demo_now.

Lemma forced_refresh_once_witness : exists new y',
  y_log y' = y_log (after demo_forced) ++ new /\ fetches demo_key new = 1%nat.
Proof.
  set (evs := [EvPair; EvRequest true; good_answer; EvPair]).
  destruct (forced_refresh_once demo_sha demo_text demo_key demo_forced (after demo_forced) (task_at (after demo_forced)))
    as [_ H]; [|vm_compute; reflexivity..|].
  { repeat constructor. simpl. intros H. by apply not_elem_of_nil in H. }
  destruct (H exchangeRateRoundReconcile demo_settings [demo_pair "fresh"] demo_now evs
    (after (demo_forced ++ read_pair "fresh" demo_now :: evs))
    {| ro_settings := demo_settings; ro_now := demo_now; ro_trigger := exchangeRateRoundReconcile; ro_new := false |})
    as (new & Hl & Hf).
  - split; vm_compute; reflexivity.
  - vm_compute. reflexivity.
  - vm_compute. reflexivity.
  - apply NoDup_singleton.
  - split; [split; [apply list_elem_of_here|]|]; intros p Hp%list_elem_of_singleton _; subst; discriminate.
  - repeat constructor.
  - vm_compute. reflexivity.
  - vm_compute. reflexivity.
  - eexists new, _. split; [exact Hl|exact Hf].
Defined.

(** A month end of May 2026: the provider answers with a rate of the 29th, then with none. *)
Definition demo_request : MonthEndExchangeRateRequest :=
  {| mr_QuoteCurrency := "USD"; mr_MonthEnd := Time_Date 2026 5 31 |}.

Definition demo_months : list event :=
  [EvRun; read_pair "missing" demo_now; EvPair; good_answer; EvPair; EvListed true (Some [demo_request; demo_request]);
   EvMonth].

Definition month_rate : event :=
  EvMonthFetched (Ok {| fx_Rate := f64_of_Z 7; fx_RateDate := Time_Date 2026 5 29 |}) (Ok tt) demo_now.

Lemma stored_rates_genuine_witness :
  Forall (genuine (y_log (after (demo_months ++ [month_rate])))) (y_log (after (demo_months ++ [month_rate])))
  /\ length (y_log (after (demo_months ++ [month_rate]))) = 4%nat.
Proof.
  split; [|vm_compute; reflexivity]. apply Forall_forall. intros e.
  apply (stored_rates_genuine demo_sha demo_text (demo_months ++ [month_rate])). vm_compute. reflexivity.
Defined.

Lemma month_end_backfill_bounded_witness : exists new y',
  y_log y' = y_log (after (demo_months ++ [EvMonthFetched (Err (ErrNew "timeout")) (Ok tt) demo_now])) ++ new
  /\ forall req, FetchOn "frankfurter|CNY|USD|2026-05-31" req ∉ new.
Proof.
  set (r := {| ro_settings := demo_settings; ro_now := demo_now; ro_trigger := exchangeRateRoundNew; ro_new := true |}).
  set (y1 := after (demo_months ++ [EvMonthFetched (Err (ErrNew "timeout")) (Ok tt) demo_now])).
  destruct (month_end_backfill_bounded demo_sha demo_text (after demo_months)) as [_ H].
  destruct (H r [demo_request] 1 "frankfurter|CNY|USD|2026-05-31" demo_request (Err (ErrNew "timeout")) (Ok tt) demo_now
    y1 [EvMonth; EvMonth] (after (demo_months ++ [EvMonthFetched (Err (ErrNew "timeout")) (Ok tt) demo_now; EvMonth; EvMonth]))
    (ErrNew "timeout")) as (new & Hl & Hn).
  - vm_compute. reflexivity.
  - vm_compute. reflexivity.
  - reflexivity.
  - vm_compute. reflexivity.
  - repeat (eapply where_cons; [exact I|vm_compute; reflexivity|]). apply where_nil.
  - eexists new, _. split; [exact Hl|exact Hn].
Defined.
