(* ===== verification/Budgets.v ===== *)
(** Budgets of the subscription costs: the budget types, the normalisation and validation of their
    inputs and the status of a budget (src/internal/center/subscriptioncosts/types.go), the
    derived spend and the status of the cost rows (service.go), and the two budget tables
    (src/internal/center/store/subscription_costs.go). *)
From stdpp Require Import base list strings gmap.
From Stdlib Require Import ZArith Lia SpecFloat.
From S2P Require Import Prelude GoRuntime Settings Calendar Subscriptions RateWorker.

Local Open Scope Z_scope.
#[local] Set Warnings "-clear-no-such-hyp".

(** * Constants *)

Definition InvalidCostInputName : string := "invalid subscription cost input".
Definition ErrInvalidInput : error := ErrSentinel InvalidCostInputName.
Definition ErrBudgetNotFound : error := ErrSentinel "subscription budget not found".

Definition invalidCostInput (message : string) : error := ErrWrap "%w: %s" [message] [ErrInvalidInput].

Definition BudgetScopeGlobal : string := "global".
Definition BudgetScopeProvider : string := "provider".
Definition BudgetScopeLabel : string := "label".
Definition BudgetScopeCategory : string := "category".
Definition BudgetScopeVPS : string := "vps".

Definition BudgetStatusDisabled : string := "disabled".
Definition BudgetStatusOK : string := "ok".
Definition BudgetStatusWarning : string := "warning".
Definition BudgetStatusOver : string := "over".
Definition BudgetStatusUnknown : string := "unknown".

Definition MonthlyBudgetBulkScopeAllHistory : string := "all_history".
Definition MonthlyBudgetBulkScopeRecentYear : string := "recent_year".
Definition MonthlyBudgetBulkScopeCurrentYear : string := "current_year".

(** * Data *)

Record CostRow := {
  cr_SubscriptionID : string;
  cr_VPSID : string;
  cr_VPSDisplayName : string;
  cr_ProviderID : string;
  cr_ProviderName : string;
  cr_DisplayName : string;
  cr_CostCategory : string;
  cr_Labels : list string;
  cr_Price : float64;
  cr_Currency : string;
  cr_MonthlyPrice : float64;
  cr_MonthlyPriceBase : option float64;
  cr_YearlyPriceBase : option float64;
  cr_BaseCurrency : string;
  cr_ExchangeRate : option float64;
  cr_ExchangeRateDate : option Z;
  cr_ExchangeRateStatus : string;
  cr_RenewAt : option Z;
  cr_NextReminderAt : option Z;
  cr_Status : string;
  cr_PaymentMethod : string;
  cr_Country : string;
  cr_Region : string;
  cr_LifecycleStatus : string;
  cr_RenewalDecision : string;
  cr_AutoRenewCheck : string;
  cr_BudgetStatus : string;
}.

Record SeriesPoint := {
  sp_Bucket : string;
  sp_MonthlyCost : float64;
  sp_RenewalCount : Z;
  sp_BudgetLimit : option float64;
  sp_BudgetCurrency : string;
  sp_BudgetWarningPct : Z;
  sp_DataInsufficient : bool;
  sp_RateEstimated : bool;
}.

Record MonthlyBudgetRecord := {
  mb_BudgetMonth : Z;
  mb_BaseCurrency : string;
  mb_MonthlyLimit : float64;
  mb_WarningPct : Z;
  mb_Note : string;
  mb_CreatedAt : Z;
  mb_UpdatedAt : Z;
}.

Record UpsertMonthlyBudgetInput := {
  um_BudgetMonth : Z;
  um_BaseCurrency : string;
  um_MonthlyLimit : float64;
  um_WarningPct : Z;
  um_Note : string;
}.

Record BulkUpsertMonthlyBudgetInput := {
  bm_Scope : string;
  bm_BaseCurrency : string;
  bm_MonthlyLimit : float64;
  bm_WarningPct : Z;
  bm_Note : string;
}.

Record BulkUpsertMonthlyBudgetResult := {
  br_Scope : string;
  br_StartMonth : Z;
  br_EndMonth : Z;
  br_Records : list MonthlyBudgetRecord;
}.

Record BudgetRecord := {
  bu_BudgetID : string;
  bu_ScopeType : string;
  bu_ScopeID : string;
  bu_Name : string;
  bu_BaseCurrency : string;
  bu_MonthlyLimit : option float64;
  bu_YearlyLimit : option float64;
  bu_WarningPct : Z;
  bu_Enabled : bool;
  bu_Note : string;
  bu_CurrentMonthlySpend : option float64;
  bu_CurrentYearlySpend : option float64;
  bu_Status : string;
  bu_CreatedAt : Z;
  bu_UpdatedAt : Z;
}.

Record BudgetListFilters := { bf_ScopeType : string; bf_ScopeID : string; bf_Enabled : option bool }.

Record CreateBudgetInput := {
  cb_ScopeType : string;
  cb_ScopeID : string;
  cb_Name : string;
  cb_BaseCurrency : string;
  cb_MonthlyLimit : option float64;
  cb_YearlyLimit : option float64;
  cb_WarningPct : Z;
  cb_Enabled : bool;
  cb_Note : string;
}.

(** A field that is not set is [None]; a limit that is set may be null. *)
Record PatchBudgetInput := {
  pb_BudgetID : string;
  pb_ScopeType : option string;
  pb_ScopeID : option string;
  pb_Name : option string;
  pb_BaseCurrency : option string;
  pb_MonthlyLimit : option (option float64);
  pb_YearlyLimit : option (option float64);
  pb_WarningPct : option Z;
  pb_Enabled : option bool;
  pb_Note : option string;
}.

(** * Normalisation and validation *)

Definition IsValidBudgetScopeType (value : string) : bool :=
  member (strings_ToLower (strings_TrimSpace value))
    [BudgetScopeGlobal; BudgetScopeProvider; BudgetScopeLabel; BudgetScopeCategory; BudgetScopeVPS].

Definition isCurrencyCode (value : string) : bool :=
  (String.length value =? 3)%nat && forallb upper_ascii (String.list_ascii_of_string value).

(** 0.000001, the nearest number. *)
Definition isValidMoney (value : float64) : bool :=
  if f64_IsNaN value || f64_IsInf value || f64_lt value f64_zero then false
  else
    let scaled := f64_mul value (f64_of_Z 100) in
    f64_le (f64_abs (f64_sub scaled (f64_round scaled))) (f64_ratio 1 1000000).

(** [strings.ToUpper(strings.TrimSpace(value))], with the default base currency. *)
Definition budget_currency (value : string) : string :=
  let value := strings_ToUpper (strings_TrimSpace value) in if value =s "" then "CNY" else value.

Definition warning_pct_or_default (pct : Z) : Z := if pct =? 0 then 80 else pct.

Definition NormalizeCreateBudgetInput (input : CreateBudgetInput) : CreateBudgetInput := {|
  cb_ScopeType := strings_ToLower (strings_TrimSpace (cb_ScopeType input));
  cb_ScopeID := strings_TrimSpace (cb_ScopeID input);
  cb_Name := strings_TrimSpace (cb_Name input);
  cb_BaseCurrency := budget_currency (cb_BaseCurrency input);
  cb_MonthlyLimit := cb_MonthlyLimit input;
  cb_YearlyLimit := cb_YearlyLimit input;
  cb_WarningPct := warning_pct_or_default (cb_WarningPct input);
  cb_Enabled := cb_Enabled input;
  cb_Note := strings_TrimSpace (cb_Note input) |}.

Definition bad_pct (pct : Z) : bool := (pct <? 1) || (100 <? pct).

Definition ValidateCreateBudgetInput (input : CreateBudgetInput) : result () :=
  _ ← reject (negb (IsValidBudgetScopeType (cb_ScopeType input))) (invalidCostInput "invalid budget scope_type");
  _ ← reject (negb (cb_ScopeType input =s BudgetScopeGlobal) && (strings_TrimSpace (cb_ScopeID input) =s ""))
        (invalidCostInput "budget scope_id is required");
  _ ← reject (cb_Name input =s "") (invalidCostInput "budget name is required");
  _ ← reject (negb (isCurrencyCode (cb_BaseCurrency input)))
        (invalidCostInput "budget base_currency must be a 3-letter uppercase code");
  _ ← reject (negb (is_set (cb_MonthlyLimit input)) && negb (is_set (cb_YearlyLimit input)))
        (invalidCostInput "budget requires monthly_limit or yearly_limit");
  _ ← reject (set_and (fun v => negb (isValidMoney v)) (cb_MonthlyLimit input))
        (invalidCostInput "monthly_limit must be non-negative money");
  _ ← reject (set_and (fun v => negb (isValidMoney v)) (cb_YearlyLimit input))
        (invalidCostInput "yearly_limit must be non-negative money");
  reject (bad_pct (cb_WarningPct input)) (invalidCostInput "warning_pct must be between 1 and 100").

Definition NormalizePatchBudgetInput (input : PatchBudgetInput) : PatchBudgetInput := {|
  pb_BudgetID := strings_TrimSpace (pb_BudgetID input);
  pb_ScopeType := (fun v => strings_ToLower (strings_TrimSpace v)) <$> pb_ScopeType input;
  pb_ScopeID := strings_TrimSpace <$> pb_ScopeID input;
  pb_Name := strings_TrimSpace <$> pb_Name input;
  pb_BaseCurrency := (fun v => strings_ToUpper (strings_TrimSpace v)) <$> pb_BaseCurrency input;
  pb_MonthlyLimit := pb_MonthlyLimit input;
  pb_YearlyLimit := pb_YearlyLimit input;
  pb_WarningPct := pb_WarningPct input;
  pb_Enabled := pb_Enabled input;
  pb_Note := strings_TrimSpace <$> pb_Note input |}.

Definition ValidatePatchBudgetInput (input : PatchBudgetInput) : result () :=
  _ ← reject (pb_BudgetID input =s "") (invalidCostInput "budget_id is required");
  _ ← reject (set_and (fun v => negb (IsValidBudgetScopeType v)) (pb_ScopeType input))
        (invalidCostInput "invalid budget scope_type");
  _ ← reject (set_and (fun v => negb (v =s BudgetScopeGlobal)) (pb_ScopeType input)
              && set_and (fun v => v =s "") (pb_ScopeID input)) (invalidCostInput "budget scope_id is required");
  _ ← reject (set_and (fun v => v =s "") (pb_Name input)) (invalidCostInput "budget name is required");
  _ ← reject (set_and (fun v => negb (isCurrencyCode v)) (pb_BaseCurrency input))
        (invalidCostInput "budget base_currency must be a 3-letter uppercase code");
  _ ← reject (set_and (set_and (fun v => negb (isValidMoney v))) (pb_MonthlyLimit input))
        (invalidCostInput "monthly_limit must be non-negative money");
  _ ← reject (set_and (set_and (fun v => negb (isValidMoney v))) (pb_YearlyLimit input))
        (invalidCostInput "yearly_limit must be non-negative money");
  reject (set_and bad_pct (pb_WarningPct input)) (invalidCostInput "warning_pct must be between 1 and 100").

Definition BudgetHasChanges (input : PatchBudgetInput) : bool :=
  is_set (pb_ScopeType input) || is_set (pb_ScopeID input) || is_set (pb_Name input)
  || is_set (pb_BaseCurrency input) || is_set (pb_MonthlyLimit input) || is_set (pb_YearlyLimit input)
  || is_set (pb_WarningPct input) || is_set (pb_Enabled input) || is_set (pb_Note input).

Definition NormalizeUpsertMonthlyBudgetInput (input : UpsertMonthlyBudgetInput) : UpsertMonthlyBudgetInput := {|
  um_BudgetMonth := um_BudgetMonth input;
  um_BaseCurrency := budget_currency (um_BaseCurrency input);
  um_MonthlyLimit := um_MonthlyLimit input;
  um_WarningPct := warning_pct_or_default (um_WarningPct input);
  um_Note := strings_TrimSpace (um_Note input) |}.

Definition ValidateUpsertMonthlyBudgetInput (input : UpsertMonthlyBudgetInput) : result () :=
  _ ← reject (Time_IsZero (um_BudgetMonth input)) (invalidCostInput "budget_month is required");
  _ ← reject (negb (Time_Day (um_BudgetMonth input) =? 1))
        (invalidCostInput "budget_month must be the first day of a month");
  _ ← reject (negb (isCurrencyCode (um_BaseCurrency input)))
        (invalidCostInput "budget base_currency must be a 3-letter uppercase code");
  _ ← reject (negb (isValidMoney (um_MonthlyLimit input))) (invalidCostInput "monthly_limit must be non-negative money");
  reject (bad_pct (um_WarningPct input)) (invalidCostInput "warning_pct must be between 1 and 100").

Definition NormalizeBulkUpsertMonthlyBudgetInput (input : BulkUpsertMonthlyBudgetInput)
    : BulkUpsertMonthlyBudgetInput := {|
  bm_Scope := strings_ToLower (strings_TrimSpace (bm_Scope input));
  bm_BaseCurrency := budget_currency (bm_BaseCurrency input);
  bm_MonthlyLimit := bm_MonthlyLimit input;
  bm_WarningPct := warning_pct_or_default (bm_WarningPct input);
  bm_Note := strings_TrimSpace (bm_Note input) |}.

Definition ValidateBulkUpsertMonthlyBudgetInput (input : BulkUpsertMonthlyBudgetInput) : result () :=
  _ ← reject (negb (member (bm_Scope input)
                [MonthlyBudgetBulkScopeAllHistory; MonthlyBudgetBulkScopeRecentYear;
                 MonthlyBudgetBulkScopeCurrentYear])) (invalidCostInput "invalid monthly budget bulk scope");
  _ ← reject (negb (isCurrencyCode (bm_BaseCurrency input)))
        (invalidCostInput "budget base_currency must be a 3-letter uppercase code");
  _ ← reject (negb (isValidMoney (bm_MonthlyLimit input))) (invalidCostInput "monthly_limit must be non-negative money");
  reject (bad_pct (bm_WarningPct input)) (invalidCostInput "warning_pct must be between 1 and 100").

Definition NormalizeBudgetListFilters (filters : BudgetListFilters) : BudgetListFilters := {|
  bf_ScopeType := strings_ToLower (strings_TrimSpace (bf_ScopeType filters));
  bf_ScopeID := strings_TrimSpace (bf_ScopeID filters);
  bf_Enabled := bf_Enabled filters |}.

Definition ValidateBudgetListFilters (filters : BudgetListFilters) : result () :=
  reject (negb (bf_ScopeType filters =s "") && negb (IsValidBudgetScopeType (bf_ScopeType filters)))
    (invalidCostInput "invalid budget scope_type").

(** * Status of a budget *)

Definition EvaluateBudgetStatus (enabled : bool) (currentMonthly : float64)
    (monthlyLimit yearlyLimit : option float64) (warningPct : Z) : string :=
  if negb enabled then BudgetStatusDisabled
  else
    let limit := match monthlyLimit, yearlyLimit with
                 | Some limit, _ => limit
                 | None, Some yearly => f64_div yearly (f64_of_Z 12)
                 | None, None => f64_zero
                 end in
    if f64_le limit f64_zero then BudgetStatusUnknown
    else if f64_ge currentMonthly limit then BudgetStatusOver
    else
      let warningRatio := f64_div (f64_of_Z warningPct) (f64_of_Z 100) in
      let warningRatio := if f64_le warningRatio f64_zero then f64_ratio 8 10 else warningRatio in
      if f64_ge currentMonthly (f64_mul limit warningRatio) then BudgetStatusWarning else BudgetStatusOK.

Definition budgetMatchesRow (budget : BudgetRecord) (row : CostRow) : bool :=
  if negb (bu_Enabled budget) then false
  else
    let scope := bu_ScopeType budget in
    let id := bu_ScopeID budget in
    if scope =s BudgetScopeGlobal then true
    else if scope =s BudgetScopeProvider
    then negb (id =s "") && ((id =s cr_ProviderID row) || (id =s cr_ProviderName row))
    else if scope =s BudgetScopeLabel then existsb (fun label => label =s id) (cr_Labels row)
    else if scope =s BudgetScopeCategory then negb (id =s "") && (id =s cr_CostCategory row)
    else if scope =s BudgetScopeVPS then negb (id =s "") && (id =s cr_VPSID row)
    else false.

Definition potentialProviderCharge (check : string) : bool :=
  negb (check =s "disabled") && negb (check =s "never_enabled") && negb (check =s "unsupported").

Definition is_archived (row : CostRow) : bool := cr_LifecycleStatus row =s "archived".

Definition splitCostRows (rows : list CostRow) : list CostRow * list CostRow :=
  foldl (fun acc row =>
           if is_archived row
           then if potentialProviderCharge (cr_AutoRenewCheck row) then (acc.1, acc.2 ++ [row]) else acc
           else (acc.1 ++ [row], acc.2)) ([], []) rows.

(** The rows of one budget: the sum and whether an amount is missing, or [None] when the
    loop breaks at a row of another unit. *)
Fixpoint spend_rows (budget : BudgetRecord) (baseCurrency : string) (currentMonthly : float64) (incomplete : bool)
    (rows : list CostRow) : option (float64 * bool) :=
  match rows with
  | [] => Some (currentMonthly, incomplete)
  | row :: rows =>
      if negb (budgetMatchesRow budget row) then spend_rows budget baseCurrency currentMonthly incomplete rows
      else if negb (cr_BaseCurrency row =s baseCurrency) then None
      else match cr_MonthlyPriceBase row with
           | None => spend_rows budget baseCurrency currentMonthly true rows
           | Some amount => spend_rows budget baseCurrency (f64_add currentMonthly amount) incomplete rows
           end
  end.

Definition bu_with_derived (monthly yearly : option float64) (status : string) (b : BudgetRecord) : BudgetRecord := {|
  bu_BudgetID := bu_BudgetID b; bu_ScopeType := bu_ScopeType b; bu_ScopeID := bu_ScopeID b; bu_Name := bu_Name b;
  bu_BaseCurrency := bu_BaseCurrency b; bu_MonthlyLimit := bu_MonthlyLimit b; bu_YearlyLimit := bu_YearlyLimit b;
  bu_WarningPct := bu_WarningPct b; bu_Enabled := bu_Enabled b; bu_Note := bu_Note b;
  bu_CurrentMonthlySpend := monthly; bu_CurrentYearlySpend := yearly; bu_Status := status;
  bu_CreatedAt := bu_CreatedAt b; bu_UpdatedAt := bu_UpdatedAt b |}.

(** One round of the loop of [applyBudgetSpend], over the current rows. *)
Definition budget_spend (rows : list CostRow) (baseCurrency : string) (budget : BudgetRecord) : BudgetRecord :=
  if negb (bu_Enabled budget) then bu_with_derived (Some f64_zero) (Some f64_zero) BudgetStatusDisabled budget
  else if negb (bu_BaseCurrency budget =s baseCurrency) then bu_with_derived None None BudgetStatusUnknown budget
  else
    match spend_rows budget baseCurrency f64_zero false rows with
    | None => bu_with_derived None None BudgetStatusUnknown budget
    | Some (currentMonthly, incomplete) =>
        let status := EvaluateBudgetStatus (bu_Enabled budget) currentMonthly (bu_MonthlyLimit budget)
                        (bu_YearlyLimit budget) (bu_WarningPct budget) in
        if incomplete
        then bu_with_derived None None (if status =s BudgetStatusOver then status else BudgetStatusUnknown) budget
        else bu_with_derived (Some currentMonthly) (Some (f64_mul currentMonthly (f64_of_Z 12))) status budget
    end.

Definition applyBudgetSpend (rows : list CostRow) (budgets : list BudgetRecord) (baseCurrency : string)
    : list BudgetRecord :=
  map (budget_spend (splitCostRows rows).1 baseCurrency) budgets.

(** * Status of the rows *)

Definition budget_status_weight (status : string) : Z :=
  if status =s BudgetStatusOver then 4
  else if status =s BudgetStatusWarning then 3
  else if status =s BudgetStatusUnknown then 2
  else if status =s BudgetStatusOK then 1 else 0.

Definition worseBudgetStatus (left right : string) : string :=
  if budget_status_weight left <? budget_status_weight right then right else left.

Definition cr_with_budget_status (status : string) (r : CostRow) : CostRow := {|
  cr_SubscriptionID := cr_SubscriptionID r; cr_VPSID := cr_VPSID r; cr_VPSDisplayName := cr_VPSDisplayName r;
  cr_ProviderID := cr_ProviderID r; cr_ProviderName := cr_ProviderName r; cr_DisplayName := cr_DisplayName r;
  cr_CostCategory := cr_CostCategory r; cr_Labels := cr_Labels r; cr_Price := cr_Price r; cr_Currency := cr_Currency r;
  cr_MonthlyPrice := cr_MonthlyPrice r; cr_MonthlyPriceBase := cr_MonthlyPriceBase r;
  cr_YearlyPriceBase := cr_YearlyPriceBase r; cr_BaseCurrency := cr_BaseCurrency r;
  cr_ExchangeRate := cr_ExchangeRate r; cr_ExchangeRateDate := cr_ExchangeRateDate r;
  cr_ExchangeRateStatus := cr_ExchangeRateStatus r; cr_RenewAt := cr_RenewAt r;
  cr_NextReminderAt := cr_NextReminderAt r; cr_Status := cr_Status r; cr_PaymentMethod := cr_PaymentMethod r;
  cr_Country := cr_Country r; cr_Region := cr_Region r; cr_LifecycleStatus := cr_LifecycleStatus r;
  cr_RenewalDecision := cr_RenewalDecision r; cr_AutoRenewCheck := cr_AutoRenewCheck r; cr_BudgetStatus := status |}.

(** The loop over the budgets: the status so far, [None] before the first match. *)
Definition merge_status (row : CostRow) (status : option string) (budget : BudgetRecord) : option string :=
  if negb (budgetMatchesRow budget row) then status
  else match status with
       | None => Some (bu_Status budget)
       | Some status => Some (worseBudgetStatus status (bu_Status budget))
       end.

Definition row_budget_status (budgets : list BudgetRecord) (row : CostRow) : string :=
  if is_archived row || negb (is_set (cr_MonthlyPriceBase row)) then BudgetStatusUnknown
  else default BudgetStatusUnknown (foldl (merge_status row) None budgets).

Definition applyRowBudgetStatus (rows : list CostRow) (budgets : list BudgetRecord) : list CostRow :=
  map (fun row => cr_with_budget_status (row_budget_status budgets row) row) rows.

(** * Months *)

(** The clock of the service is in UTC. *)
Definition monthStart (value : Z) : Z :=
  let '(year, month, _) := Time_civil value in NewDate (Time_Date year month 1).

(** The loop of [monthsInRange] from [current]; [None] when the rounds do not suffice. *)
Fixpoint months_loop (rounds : nat) (current last : Z) (months : list Z) : option (list Z) :=
  match rounds with
  | O => None
  | S rounds =>
      if Time_After current last then Some months
      else months_loop rounds (NewDate (Time_AddDate current 0 1 0)) last (months ++ [current])
  end.

Definition monthsInRange (rounds : nat) (start last : Z) : option (list Z) :=
  if Time_IsZero start || Time_IsZero last || Time_After start last then Some []
  else months_loop rounds (monthStart start) last [].
