(* ===== verification/BudgetStore.v ===== *)
(** The budget tables (src/internal/center/store/subscription_costs.go) and the budget operations of
    the cost service over them (src/internal/center/subscriptioncosts/service.go): scope budgets
    with their derived spend, monthly budgets, their bulk update and the month buckets that
    inherit them. *)
From stdpp Require Import base list strings gmap.
From Stdlib Require Import ZArith Lia.
From S2P Require Import Prelude GoRuntime Settings Calendar Postgres Subscriptions RateWorker Budgets.

Local Open Scope Z_scope.
#[local] Set Warnings "-clear-no-such-hyp".

(** * Errors *)

Definition isSubscriptionCostInvalidPostgresError (err : error) : bool :=
  match pg_code err with Some code => member code ["23503"; "23505"; "23514"] | None => false end.

(** * Tables *)

(** Scope budgets as a scan returns them, by id; monthly budgets by month; the subscriptions and
    the moments of the price changes, which the budgets only read. *)
Record cost_db := {
  cd_budgets : gmap string BudgetRecord;
  cd_monthly : gmap Z MonthlyBudgetRecord;
  cd_subscriptions : list SubscriptionRecord;
  cd_price_changes : list Z;
}.

Definition cd_with_budgets (b : gmap string BudgetRecord) (db : cost_db) : cost_db := {|
  cd_budgets := b; cd_monthly := cd_monthly db; cd_subscriptions := cd_subscriptions db;
  cd_price_changes := cd_price_changes db |}.

Definition cd_with_monthly (m : gmap Z MonthlyBudgetRecord) (db : cost_db) : cost_db := {|
  cd_budgets := cd_budgets db; cd_monthly := m; cd_subscriptions := cd_subscriptions db;
  cd_price_changes := cd_price_changes db |}.

(** What one call meets: a fresh id, the clock of the database, the answer of the statement. *)
Record cost_io := { co_id : result string; co_clock : Z; co_answer : exec_answer }.

Section Store.
(** A number stored as numeric(12, 2) and read back as float8; [None] when it overflows. *)
Context (numeric : float64 -> option float64).

Definition numeric_column (x : float64) : result float64 :=
  match numeric x with Some y => Ok y | None => Err (PgError "22003") end.

Definition nullable_column (x : option float64) : result (option float64) :=
  match x with None => Ok None | Some x => y ← numeric_column x; Ok (Some y) end.

(** The check constraints of subscription_budgets. *)
Definition budget_constraints (b : BudgetRecord) : result () :=
  _ ← reject (negb (member (bu_ScopeType b)
          [BudgetScopeGlobal; BudgetScopeProvider; BudgetScopeLabel; BudgetScopeCategory; BudgetScopeVPS])) (PgError "23514");
  _ ← reject (negb (isCurrencyCode (bu_BaseCurrency b))) (PgError "23514");
  _ ← reject (negb (is_set (bu_MonthlyLimit b)) && negb (is_set (bu_YearlyLimit b))) (PgError "23514");
  _ ← reject (set_and (fun v => f64_lt v f64_zero) (bu_MonthlyLimit b)) (PgError "23514");
  _ ← reject (set_and (fun v => f64_lt v f64_zero) (bu_YearlyLimit b)) (PgError "23514");
  reject (bad_pct (bu_WarningPct b)) (PgError "23514").

Definition insert_budget (budgetID : string) (clock : Z) (input : CreateBudgetInput) (db : cost_db)
    : result (cost_db * BudgetRecord) :=
  monthly ← nullable_column (cb_MonthlyLimit input);
  yearly ← nullable_column (cb_YearlyLimit input);
  let b := {|
    bu_BudgetID := budgetID; bu_ScopeType := cb_ScopeType input; bu_ScopeID := cb_ScopeID input;
    bu_Name := cb_Name input; bu_BaseCurrency := cb_BaseCurrency input; bu_MonthlyLimit := monthly;
    bu_YearlyLimit := yearly; bu_WarningPct := cb_WarningPct input; bu_Enabled := cb_Enabled input;
    bu_Note := cb_Note input; bu_CurrentMonthlySpend := None; bu_CurrentYearlySpend := None;
    bu_Status := BudgetStatusUnknown; bu_CreatedAt := clock; bu_UpdatedAt := clock |} in
  _ ← budget_constraints b;
  match cd_budgets db !! budgetID with
  | Some _ => Err (PgError "23505")
  | None => Ok (cd_with_budgets (<[budgetID := b]> (cd_budgets db)) db, b)
  end.

Definition cost_store_error (wrap : error -> error) (err : error) : error :=
  if isSubscriptionCostInvalidPostgresError err then ErrInvalidInput else wrap err.

Definition repo_CreateBudget (io : cost_io) (input : CreateBudgetInput) (db : cost_db)
    : cost_db * result BudgetRecord :=
  let input := NormalizeCreateBudgetInput input in
  match ValidateCreateBudgetInput input with
  | Err e => (db, Err e)
  | Ok _ =>
      match co_id io with
      | Err e => (db, Err (ErrWrap "generate subscription budget id: %w" [] [e]))
      | Ok budgetID =>
          let '(db', r) := autocommit (co_answer io) db (insert_budget budgetID (co_clock io) input db) in
          (db', map_error (cost_store_error (fun e => ErrWrap "create subscription budget: %w" [] [e])) r)
      end
  end.

Definition update_budget (clock : Z) (input : PatchBudgetInput) (db : cost_db) : result (cost_db * BudgetRecord) :=
  match cd_budgets db !! pb_BudgetID input with
  | None => Err ErrBudgetNotFound
  | Some old =>
      monthly ← match pb_MonthlyLimit input with Some v => nullable_column v | None => Ok (bu_MonthlyLimit old) end;
      yearly ← match pb_YearlyLimit input with Some v => nullable_column v | None => Ok (bu_YearlyLimit old) end;
      let b := {|
        bu_BudgetID := bu_BudgetID old; bu_ScopeType := default (bu_ScopeType old) (pb_ScopeType input);
        bu_ScopeID := default (bu_ScopeID old) (pb_ScopeID input); bu_Name := default (bu_Name old) (pb_Name input);
        bu_BaseCurrency := default (bu_BaseCurrency old) (pb_BaseCurrency input); bu_MonthlyLimit := monthly;
        bu_YearlyLimit := yearly; bu_WarningPct := default (bu_WarningPct old) (pb_WarningPct input);
        bu_Enabled := default (bu_Enabled old) (pb_Enabled input); bu_Note := default (bu_Note old) (pb_Note input);
        bu_CurrentMonthlySpend := None; bu_CurrentYearlySpend := None; bu_Status := BudgetStatusUnknown;
        bu_CreatedAt := bu_CreatedAt old; bu_UpdatedAt := clock |} in
      _ ← budget_constraints b;
      Ok (cd_with_budgets (<[pb_BudgetID input := b]> (cd_budgets db)) db, b)
  end.

Definition repo_PatchBudget (io : cost_io) (input : PatchBudgetInput) (db : cost_db) : cost_db * result BudgetRecord :=
  let input := NormalizePatchBudgetInput input in
  match ValidatePatchBudgetInput input with
  | Err e => (db, Err e)
  | Ok _ =>
      if negb (BudgetHasChanges input) then
        (db, match co_answer io with
             | ExecFailed e _ => Err e
             | Executed => match cd_budgets db !! pb_BudgetID input with
                           | Some record => Ok record
                           | None => Err ErrBudgetNotFound
                           end
             end)
      else
        let '(db', r) := autocommit (co_answer io) db (update_budget (co_clock io) input db) in
        (db', map_error (fun e => if errors_Is "subscription budget not found" e then ErrBudgetNotFound
                                  else cost_store_error
                                         (fun e => ErrWrap "patch subscription budget %q: %w" [pb_BudgetID input] [e]) e) r)
  end.

(** * Monthly budgets *)

(** The row an upsert leaves: a new one, or the old one with its creation kept. *)
Definition upsert_month (clock : Z) (input : UpsertMonthlyBudgetInput) (limit : float64)
    (old : option MonthlyBudgetRecord) : MonthlyBudgetRecord := {|
  mb_BudgetMonth := um_BudgetMonth input; mb_BaseCurrency := um_BaseCurrency input; mb_MonthlyLimit := limit;
  mb_WarningPct := um_WarningPct input; mb_Note := um_Note input;
  mb_CreatedAt := match old with Some old => mb_CreatedAt old | None => clock end; mb_UpdatedAt := clock |}.

(** The check constraints of subscription_monthly_budgets. *)
Definition monthly_constraints (r : MonthlyBudgetRecord) : result () :=
  _ ← reject (negb (Time_Day (mb_BudgetMonth r) =? 1)) (PgError "23514");
  _ ← reject (negb (isCurrencyCode (mb_BaseCurrency r))) (PgError "23514");
  _ ← reject (f64_lt (mb_MonthlyLimit r) f64_zero) (PgError "23514");
  reject (bad_pct (mb_WarningPct r)) (PgError "23514").

Definition upsert_row (clock : Z) (input : UpsertMonthlyBudgetInput) (table : gmap Z MonthlyBudgetRecord)
    : result MonthlyBudgetRecord :=
  limit ← numeric_column (um_MonthlyLimit input);
  let r := upsert_month clock input limit (table !! um_BudgetMonth input) in
  _ ← monthly_constraints r; Ok r.

Definition repo_UpsertMonthlyBudget (io : cost_io) (input : UpsertMonthlyBudgetInput) (db : cost_db)
    : cost_db * result MonthlyBudgetRecord :=
  let input := NormalizeUpsertMonthlyBudgetInput input in
  match ValidateUpsertMonthlyBudgetInput input with
  | Err e => (db, Err e)
  | Ok _ =>
      let '(db', r) := autocommit (co_answer io) db
                         (r ← upsert_row (co_clock io) input (cd_monthly db);
                          Ok (cd_with_monthly (<[um_BudgetMonth input := r]> (cd_monthly db)) db, r)) in
      (db', map_error (cost_store_error (fun e => ErrWrap "upsert subscription monthly budget %s: %w"
                                                  [Time_Format_date (um_BudgetMonth input)] [e])) r)
  end.

(** The rows of one insert with [on conflict do update]: the statement may not touch a row
    twice; it returns what it wrote. *)
Definition upsert_body (clock : Z) (_ : nat) (input : UpsertMonthlyBudgetInput)
    (acc : gmap Z MonthlyBudgetRecord * list MonthlyBudgetRecord) : result (gmap Z MonthlyBudgetRecord * list MonthlyBudgetRecord) :=
  r ← upsert_row clock input acc.1;
  _ ← reject (existsb (fun w => mb_BudgetMonth w =? mb_BudgetMonth r) acc.2) (PgError "21000");
  Ok (<[mb_BudgetMonth r := r]> acc.1, acc.2 ++ [r]).

Definition month_before (a b : MonthlyBudgetRecord) : bool := mb_BudgetMonth a <? mb_BudgetMonth b.

Definition validate_upserts (inputs : list UpsertMonthlyBudgetInput) : result (list UpsertMonthlyBudgetInput) :=
  fold_result (fun _ input acc =>
    let input := NormalizeUpsertMonthlyBudgetInput input in
    _ ← ValidateUpsertMonthlyBudgetInput input; Ok (acc ++ [input])) 0 inputs [].

Definition repo_UpsertMonthlyBudgets (io : cost_io) (inputs : list UpsertMonthlyBudgetInput) (db : cost_db)
    : cost_db * result (list MonthlyBudgetRecord) :=
  match inputs with
  | [] => (db, Ok [])
  | _ =>
      match validate_upserts inputs with
      | Err e => (db, Err e)
      | Ok inputs =>
          let '(db', r) := autocommit (co_answer io) db
                             (out ← fold_result (upsert_body (co_clock io)) 0 inputs (cd_monthly db, []);
                              Ok (cd_with_monthly out.1 db, sort_stable month_before out.2)) in
          (db', map_error (cost_store_error (fun e => ErrWrap "bulk upsert subscription monthly budgets: %w" [] [e])) r)
      end
  end.

(** The dates of [EarliestSubscriptionMonth], and the month of the first one. *)
Definition source_dates (db : cost_db) : list Z :=
  map (fun s => Time_StartOfDay (su_CreatedAt s)) (cd_subscriptions db)
  ++ omap su_StartedAt (cd_subscriptions db) ++ omap su_RenewAt (cd_subscriptions db)
  ++ map Time_StartOfDay (cd_price_changes db).

Definition EarliestSubscriptionMonth (failed : option error) (db : cost_db) : result (option Z) :=
  match failed with
  | Some e => Err (ErrWrap "query earliest subscription month: %w" [] [e])
  | None =>
      match source_dates db with
      | [] => Ok None
      | d :: ds => Ok (Some (NewDate (month_first (month_index (foldl Z.min d ds)))))
      end
  end.

(** The monthly budget that applies to a bucket: that of the latest month not after it. *)
Definition latest_month (bucket_start month : Z) (r : MonthlyBudgetRecord) (best : option (Z * MonthlyBudgetRecord))
    : option (Z * MonthlyBudgetRecord) :=
  if month <=? bucket_start then
    match best with
    | Some (m, _) => if m <? month then Some (month, r) else best
    | None => Some (month, r)
    end
  else best.

Definition inherited_budget (table : gmap Z MonthlyBudgetRecord) (bucket_start : Z) : option MonthlyBudgetRecord :=
  snd <$> map_fold (latest_month bucket_start) None table.

Definition budget_bucket (table : gmap Z MonthlyBudgetRecord) (baseCurrency : string) (bucket_start : Z) : SeriesPoint :=
  let mb := inherited_budget table bucket_start in {|
    sp_Bucket := Time_Format_month bucket_start; sp_MonthlyCost := f64_zero; sp_RenewalCount := 0;
    sp_BudgetLimit := mb_MonthlyLimit <$> mb; sp_BudgetCurrency := from_option mb_BaseCurrency "" mb;
    sp_BudgetWarningPct := from_option mb_WarningPct 0 mb;
    sp_DataInsufficient := from_option (fun r => negb (mb_BaseCurrency r =s baseCurrency)) false mb;
    sp_RateEstimated := false |}.

(** The first days of the last [months] months up to the month of [now]. *)
Definition bucket_starts (months now : Z) : list Z :=
  map (fun k => month_first (month_index now - (months - 1) + Z.of_nat k)) (seq 0 (Z.to_nat months)).

Definition ListBudgetMonthBuckets (failed : option error) (settings : SubscriptionCostSettings) (months now : Z)
    (db : cost_db) : result (list SeriesPoint) :=
  if months <=? 0 then Ok []
  else match failed with
       | Some e => Err (ErrWrap "query subscription budget month buckets: %w" [] [e])
       | None => Ok (map (budget_bucket (cd_monthly db) (sc_BaseCurrency settings)) (bucket_starts months now))
       end.

(** * The budget operations of the service *)

(** What [hydrateBudget] and [ListBudgets] read besides the budgets. *)
Record cost_reads := {
  rd_settings : result SubscriptionCostSettings;
  rd_rows : result (list CostRow);
}.

Definition hydrateBudget (reads : cost_reads) (budget : BudgetRecord) : result BudgetRecord :=
  settings ← rd_settings reads;
  rows ← rd_rows reads;
  match applyBudgetSpend rows [budget] (sc_BaseCurrency settings) with
  | b :: _ => Ok b
  | [] => Ok budget
  end.

Definition Service_CreateBudget (io : cost_io) (reads : cost_reads) (input : CreateBudgetInput) (db : cost_db)
    : cost_db * result BudgetRecord :=
  let input := NormalizeCreateBudgetInput input in
  match ValidateCreateBudgetInput input with
  | Err e => (db, Err e)
  | Ok _ => let '(db', r) := repo_CreateBudget io input db in (db', record ← r; hydrateBudget reads record)
  end.

Definition Service_PatchBudget (io : cost_io) (reads : cost_reads) (input : PatchBudgetInput) (db : cost_db)
    : cost_db * result BudgetRecord :=
  let input := NormalizePatchBudgetInput input in
  match ValidatePatchBudgetInput input with
  | Err e => (db, Err e)
  | Ok _ => let '(db', r) := repo_PatchBudget io input db in (db', record ← r; hydrateBudget reads record)
  end.

Definition Service_UpsertMonthlyBudget (io : cost_io) (input : UpsertMonthlyBudgetInput) (db : cost_db)
    : cost_db * result MonthlyBudgetRecord :=
  let input := NormalizeUpsertMonthlyBudgetInput input in
  match ValidateUpsertMonthlyBudgetInput input with
  | Err e => (db, Err e)
  | Ok _ => repo_UpsertMonthlyBudget io input db
  end.

(** The first month of a bulk update that ends at [last]. *)
Definition bulk_start (earliest : result (option Z)) (scope : string) (last : Z) : result Z :=
  start ←
    (if scope =s MonthlyBudgetBulkScopeCurrentYear then Ok (NewDate (Time_Date (Time_Year last) 1 1))
     else if scope =s MonthlyBudgetBulkScopeRecentYear then Ok (NewDate (Time_AddDate last 0 (-11) 0))
     else if scope =s MonthlyBudgetBulkScopeAllHistory then
       earliest ← earliest;
       match earliest with
       | Some t => if Time_IsZero t then Ok last else Ok (monthStart t)
       | None => Ok last
       end
     else Ok last);
  Ok (if Time_After start last then last else start).

Definition month_input (input : BulkUpsertMonthlyBudgetInput) (month : Z) : UpsertMonthlyBudgetInput := {|
  um_BudgetMonth := month; um_BaseCurrency := bm_BaseCurrency input; um_MonthlyLimit := bm_MonthlyLimit input;
  um_WarningPct := bm_WarningPct input; um_Note := bm_Note input |}.

(** [None] only when the loop over the months needs more than [rounds] rounds. *)
Definition BulkUpsertMonthlyBudgets (rounds : nat) (now : Z) (io : cost_io) (query_failed : option error)
    (input : BulkUpsertMonthlyBudgetInput) (db : cost_db) : option (cost_db * result BulkUpsertMonthlyBudgetResult) :=
  let input := NormalizeBulkUpsertMonthlyBudgetInput input in
  match ValidateBulkUpsertMonthlyBudgetInput input with
  | Err e => Some (db, Err e)
  | Ok _ =>
      let last := monthStart now in
      match bulk_start (EarliestSubscriptionMonth query_failed db) (bm_Scope input) last with
      | Err e => Some (db, Err e)
      | Ok start =>
          months ← monthsInRange rounds start last;
          let '(db', r) := repo_UpsertMonthlyBudgets io (map (month_input input) months) db in
          Some (db', records ← r; Ok {| br_Scope := bm_Scope input; br_StartMonth := start; br_EndMonth := last;
                                        br_Records := records |})
      end
  end.
End Store.
