(* ===== verification/BudgetsProps.v ===== *)
(** Properties of the budgets: the loop over the months ends with every month of the range, the
    derived spend and status of a budget follow the documented table, and the status of a row does
    not depend on the order of the budgets. *)
From stdpp Require Import base list strings gmap.
From Stdlib Require Import ZArith Lia.
From S2P Require Import Prelude GoRuntime Settings Calendar CaseMaps Subscriptions RateWorker Budgets.

Local Open Scope Z_scope.
#[local] Set Warnings "-clear-no-such-hyp".

(** * Months *)

Lemma Day_pos : 0 < Day.
Proof. unfold Day, Hour, Minute, Second. lia. Qed.

Lemma month_first_mod i : month_first i mod Day = 0.
Proof.
  unfold month_first. rewrite (Time_Date_valid _ _ _ (month_mod_valid _)).
  apply Z.mod_mul. pose proof Day_pos. lia.
Qed.

Lemma NewDate_month_first i : NewDate (month_first i) = month_first i.
Proof.
  rewrite NewDate_start. unfold Time_StartOfDay, Time_Truncate.
  replace (Day <=? 0) with false by reflexivity. rewrite month_first_mod. lia.
Qed.

Lemma monthStart_first t : monthStart t = month_first (month_index t).
Proof.
  unfold monthStart, month_index, Time_Year, Time_Month. destruct (Time_civil t) as [[y m] d]. simpl.
  rewrite Time_Date_month. replace (1 - 1) with 0 by lia. rewrite Z.add_0_r. apply NewDate_month_first.
Qed.

Lemma Time_Day_month_first i : Time_Day (month_first i) = 1.
Proof.
  unfold Time_Day. rewrite <- (Z.add_0_r (month_first i)). unfold month_first.
  rewrite Time_civil_Date; [done| |pose proof Day_pos; lia].
  split; [apply month_mod_valid|]. pose proof (days_before_month_bounds (i / 12) (i mod 12 + 1) (month_mod_valid i)). lia.
Qed.

(** [n] months from the month number [i]. *)
Definition months_from (i : Z) (n : nat) : list Z := map (fun k => month_first (i + Z.of_nat k)) (seq 0 n).

Lemma months_from_S i n : months_from i (S n) = month_first i :: months_from (i + 1) n.
Proof.
  unfold months_from. cbn [seq map]. f_equal; [f_equal; lia|]. rewrite <- seq_shift, map_map.
  apply map_ext. intros k. f_equal. lia.
Qed.

Lemma months_from_elem t i n : t ∈ months_from i n <-> exists j, t = month_first j /\ i <= j < i + Z.of_nat n.
Proof.
  unfold months_from. rewrite list_elem_of_In, in_map_iff. split.
  - intros (k & <- & Hk%in_seq). exists (i + Z.of_nat k). split; [done|lia].
  - intros (j & -> & Hj). exists (Z.to_nat (j - i)). split; [f_equal; lia|]. apply in_seq. lia.
Qed.

Lemma months_loop_ends n rounds i last months :
  month_index last - i + 1 = Z.of_nat n -> (n < rounds)%nat ->
  months_loop rounds (month_first i) last months = Some (months ++ months_from i n).
Proof.
  revert rounds i months. induction n as [|n IH]; intros [|rounds] i months Hn Hr; try lia; cbn [months_loop].
  - assert (Time_After (month_first i) last = true) as ->.
    { unfold Time_After. apply Z.ltb_lt. destruct (Z_le_gt_dec (month_first i) last) as [H|]; [|lia].
      apply month_index_le in H. lia. }
    unfold months_from. simpl. by rewrite app_nil_r.
  - assert (Time_After (month_first i) last = false) as ->.
    { unfold Time_After. apply Z.ltb_ge. apply month_index_le. lia. }
    rewrite Time_AddDate_month_first, NewDate_month_first, (IH rounds) by lia.
    by rewrite months_from_S, <- app_assoc.
Qed.

(** C40: the loop of [monthsInRange] ends: with more rounds than there are months from
    the first to the last date, the answer is the first day of each month of the range in order,
    from the month of the start to the month of the end, and nothing for a zero or an inverted
    range. *)
Theorem month_loop_ends rounds start last
    (Hrounds : month_index last - month_index start + 1 < Z.of_nat rounds) :
  monthsInRange rounds start last =
    Some (if Time_IsZero start || Time_IsZero last || Time_After start last then []
          else months_from (month_index start) (Z.to_nat (month_index last - month_index start + 1))).
Proof.
  unfold monthsInRange. destruct (_ || _ || _) eqn:E; [done|].
  assert (start <= last) as Hle by (unfold Time_After in E; breflect; lia).
  pose proof (month_index_mono _ _ Hle). rewrite monthStart_first.
  apply (months_loop_ends (Z.to_nat (month_index last - month_index start + 1))); lia.
Qed.

(** * The spend of a budget *)

Definition row_current (row : CostRow) : bool := negb (is_archived row).

Lemma splitCostRows_spec rows : splitCostRows rows =
  (List.filter row_current rows,
   List.filter (fun row => is_archived row && potentialProviderCharge (cr_AutoRenewCheck row)) rows).
Proof.
  unfold splitCostRows.
  assert (forall c a, foldl (fun acc row =>
           if is_archived row
           then if potentialProviderCharge (cr_AutoRenewCheck row) then (acc.1, acc.2 ++ [row]) else acc
           else (acc.1 ++ [row], acc.2)) (c, a) rows
    = (c ++ List.filter row_current rows,
       a ++ List.filter (fun row => is_archived row && potentialProviderCharge (cr_AutoRenewCheck row)) rows)) as H;
    [|exact (H [] [])].
  induction rows as [|row rows IH]; intros c a; cbn [foldl List.filter]; [by rewrite !app_nil_r|].
  unfold row_current at 1. destruct (is_archived row); simpl.
  - destruct (potentialProviderCharge _); rewrite IH; [by rewrite <- app_assoc|done].
  - rewrite IH. by rewrite <- app_assoc.
Qed.

(** The documented derivation. *)
Definition matching_rows (rows : list CostRow) (budget : BudgetRecord) : list CostRow :=
  List.filter (fun row => row_current row && budgetMatchesRow budget row) rows.

Definition known_spend (rows : list CostRow) : float64 := foldl f64_add f64_zero (omap cr_MonthlyPriceBase rows).

Definition comparable_rows (baseCurrency : string) (rows : list CostRow) : bool :=
  forallb (fun row => cr_BaseCurrency row =s baseCurrency) rows.

Definition complete_rows (rows : list CostRow) : bool := forallb (fun row => is_set (cr_MonthlyPriceBase row)) rows.

Definition documented_spend (rows : list CostRow) (baseCurrency : string) (b : BudgetRecord) : BudgetRecord :=
  let matching := matching_rows rows b in
  let spend := known_spend matching in
  let status := EvaluateBudgetStatus true spend (bu_MonthlyLimit b) (bu_YearlyLimit b) (bu_WarningPct b) in
  if negb (bu_Enabled b) then bu_with_derived (Some f64_zero) (Some f64_zero) BudgetStatusDisabled b
  else if negb (bu_BaseCurrency b =s baseCurrency) || negb (comparable_rows baseCurrency matching)
  then bu_with_derived None None BudgetStatusUnknown b
  else if complete_rows matching
  then bu_with_derived (Some spend) (Some (f64_mul spend (f64_of_Z 12))) status b
  else bu_with_derived None None (if status =s BudgetStatusOver then BudgetStatusOver else BudgetStatusUnknown) b.

Lemma spend_rows_spec b cur rows sum incomplete :
  spend_rows b cur sum incomplete rows =
  let matching := List.filter (budgetMatchesRow b) rows in
  if comparable_rows cur matching
  then Some (foldl f64_add sum (omap cr_MonthlyPriceBase matching), incomplete || negb (complete_rows matching))
  else None.
Proof.
  revert sum incomplete. induction rows as [|row rows IH]; intros sum incomplete; cbn [spend_rows List.filter].
  - simpl. by rewrite orb_false_r.
  - destruct (budgetMatchesRow b row); simpl; [|apply IH].
    destruct (cr_BaseCurrency row =s cur); simpl; [|done].
    destruct (cr_MonthlyPriceBase row) as [amount|]; simpl; rewrite IH; simpl; [done|].
    destruct (comparable_rows _ _); [|done]. by rewrite orb_true_r.
Qed.

Lemma filter_filter {A} (f g : A -> bool) l : List.filter g (List.filter f l) = List.filter (fun x => f x && g x) l.
Proof.
  induction l as [|x l IH]; [done|]. cbn [List.filter]. destruct (f x); cbn [List.filter andb]; [|done].
  by rewrite IH.
Qed.

(** The amounts and the status [applyBudgetSpend] derives are the
    documented ones for every budget and every set of rows: a disabled budget is zero and disabled;
    an enabled one is unknown without amounts when its currency or the unit of a matching current
    row differs from the base currency; with every amount known it shows the sum, twelve times the
    sum and the evaluated status; with an amount missing it shows none, and over only when the known
    part reaches the limit.  The stored facts of the budget do not change. *)
Theorem budget_spend_documented rows budgets baseCurrency :
  applyBudgetSpend rows budgets baseCurrency = map (documented_spend rows baseCurrency) budgets.
Proof.
  unfold applyBudgetSpend. apply map_ext. intros b. rewrite splitCostRows_spec. simpl.
  unfold budget_spend, documented_spend, known_spend. cbv zeta.
  destruct (bu_Enabled b); simpl; [|done]. destruct (bu_BaseCurrency b =s baseCurrency); simpl; [|done].
  rewrite spend_rows_spec. cbv zeta. rewrite filter_filter.
  change (List.filter (fun x => row_current x && budgetMatchesRow b x) rows) with (matching_rows rows b).
  destruct (comparable_rows _ _); simpl; [|done]. destruct (complete_rows _); simpl; [done|].
  destruct (_ =s BudgetStatusOver) eqn:E; [|done]. breflect. by rewrite E.
Qed.

(** * The status of a row *)

Definition risk_statuses : list string := [BudgetStatusOver; BudgetStatusWarning; BudgetStatusUnknown; BudgetStatusOK].

Lemma EvaluateBudgetStatus_risk spend monthly yearly pct : EvaluateBudgetStatus true spend monthly yearly pct ∈ risk_statuses.
Proof.
  unfold EvaluateBudgetStatus. simpl. unfold risk_statuses.
  destruct (f64_le _ _); [set_solver|]. destruct (f64_ge _ _); [set_solver|].
  destruct (f64_ge _ _); set_solver.
Qed.

Lemma budget_spend_enabled rows cur b : bu_Enabled (budget_spend rows cur b) = bu_Enabled b.
Proof.
  unfold budget_spend. destruct (bu_Enabled b) eqn:E; simpl; [|done].
  destruct (bu_BaseCurrency b =s cur); simpl; [|done].
  destruct (spend_rows _ _ _ _ _) as [[? []]|]; done.
Qed.

Lemma budget_spend_risk rows cur b : bu_Enabled b = true -> bu_Status (budget_spend rows cur b) ∈ risk_statuses.
Proof.
  intros E. unfold budget_spend. rewrite E. simpl.
  destruct (bu_BaseCurrency b =s cur); simpl; [|set_solver].
  destruct (spend_rows _ _ _ _ _) as [[? []]|]; simpl; [|apply EvaluateBudgetStatus_risk|set_solver].
  destruct (_ =s _); [apply EvaluateBudgetStatus_risk|set_solver].
Qed.

Lemma risk_weight_inj x y : x ∈ risk_statuses -> y ∈ risk_statuses ->
  budget_status_weight x = budget_status_weight y -> x = y.
Proof.
  unfold risk_statuses. rewrite !elem_of_cons. intros Hx Hy.
  destruct Hx as [->|[->|[->|[->|Hx]]]]; [..|by apply not_elem_of_nil in Hx];
    destruct Hy as [->|[->|[->|[->|Hy]]]]; try (by apply not_elem_of_nil in Hy); vm_compute; done.
Qed.

Lemma worse_comm x y : x ∈ risk_statuses -> y ∈ risk_statuses -> worseBudgetStatus x y = worseBudgetStatus y x.
Proof.
  intros Hx Hy. unfold worseBudgetStatus.
  destruct (Z.ltb_spec (budget_status_weight x) (budget_status_weight y)),
    (Z.ltb_spec (budget_status_weight y) (budget_status_weight x)); try done; [lia|].
  apply risk_weight_inj; [done..|lia].
Qed.

Lemma worse_swap s x y : x ∈ risk_statuses -> y ∈ risk_statuses ->
  worseBudgetStatus (worseBudgetStatus s x) y = worseBudgetStatus (worseBudgetStatus s y) x.
Proof.
  intros Hx Hy. unfold worseBudgetStatus.
  repeat case_match; breflect; try done; try lia; apply risk_weight_inj; done || lia.
Qed.

Lemma merge_status_swap row s a b :
  (budgetMatchesRow a row = true -> bu_Status a ∈ risk_statuses) ->
  (budgetMatchesRow b row = true -> bu_Status b ∈ risk_statuses) ->
  merge_status row (merge_status row s a) b = merge_status row (merge_status row s b) a.
Proof.
  intros Ha Hb. unfold merge_status. destruct (budgetMatchesRow a row), (budgetMatchesRow b row); simpl; try done.
  destruct s as [s|]; f_equal; [by apply worse_swap; auto|by apply worse_comm; auto].
Qed.

Lemma merge_status_perm row budgets budgets' : Permutation budgets budgets' ->
  Forall (fun b => budgetMatchesRow b row = true -> bu_Status b ∈ risk_statuses) budgets ->
  forall s, foldl (merge_status row) s budgets = foldl (merge_status row) s budgets'.
Proof.
  induction 1 as [|x l l' _ IH|x y l|l l' l'' Hp1 IH1 _ IH2]; intros Hall s; simpl; [done|..].
  - inversion Hall; subst. by apply IH.
  - inversion Hall as [|? ? Hy Hr]; subst. inversion Hr as [|? ? Hx Hl]; subst. by rewrite merge_status_swap.
  - rewrite IH1 by done. apply IH2. by rewrite <- Hp1.
Qed.

Lemma matches_enabled b row : budgetMatchesRow b row = true -> bu_Enabled b = true.
Proof. unfold budgetMatchesRow. by destruct (bu_Enabled b). Qed.

Lemma worse_risk x y : x ∈ risk_statuses -> y ∈ risk_statuses -> worseBudgetStatus x y ∈ risk_statuses.
Proof. unfold worseBudgetStatus. by case_match. Qed.

Lemma worse_weight x y :
  budget_status_weight (worseBudgetStatus x y) = Z.max (budget_status_weight x) (budget_status_weight y).
Proof.
  unfold worseBudgetStatus.
  destruct (Z.ltb_spec (budget_status_weight x) (budget_status_weight y)); lia.
Qed.

(** What the loop over the budgets has found. *)
Definition worst_of (seen : list BudgetRecord) (row : CostRow) (status : option string) : Prop :=
  match status with
  | None => Forall (fun b => budgetMatchesRow b row = false) seen
  | Some s => s ∈ risk_statuses
              /\ Forall (fun b => budgetMatchesRow b row = true -> budget_status_weight (bu_Status b) <= budget_status_weight s) seen
  end.

Lemma merge_status_worst row budgets seen s :
  Forall (fun b => budgetMatchesRow b row = true -> bu_Status b ∈ risk_statuses) budgets ->
  worst_of seen row s -> worst_of (seen ++ budgets) row (foldl (merge_status row) s budgets).
Proof.
  revert seen s. induction budgets as [|b budgets IH]; intros seen s Hall Hs; [by rewrite app_nil_r|].
  inversion Hall as [|? ? Hb Hrest]; subst. cbn [foldl].
  replace (seen ++ b :: budgets) with ((seen ++ [b]) ++ budgets) by (by rewrite <- app_assoc).
  apply IH; [done|]. unfold merge_status. destruct (budgetMatchesRow b row) eqn:Em; simpl.
  - destruct s as [s|]; simpl in Hs |- *.
    + destruct Hs as [Hr Hle]. split; [by apply worse_risk; auto|]. apply Forall_app. rewrite worse_weight.
      split; [|constructor; [intros _; lia|constructor]].
      eapply Forall_impl; [exact Hle|]. simpl. intros b' H Hm. specialize (H Hm). lia.
    + split; [auto|]. apply Forall_app. split; [|constructor; [intros _; lia|constructor]].
      eapply Forall_impl; [exact Hs|]. simpl. intros b' H Hm. congruence.
  - destruct s as [s|]; simpl in Hs |- *.
    + destruct Hs as [Hr Hle]. split; [done|]. apply Forall_app. split; [done|].
      constructor; [congruence|constructor].
    + apply Forall_app. split; [done|]. by constructor.
Qed.

Lemma derived_risk rows cur budgets row :
  Forall (fun b => budgetMatchesRow b row = true -> bu_Status b ∈ risk_statuses) (applyBudgetSpend rows budgets cur).
Proof.
  unfold applyBudgetSpend. apply Forall_map, Forall_true. intros b Hm. apply budget_spend_risk.
  apply matches_enabled in Hm. by rewrite budget_spend_enabled in Hm.
Qed.

(** The budget status of every cost row is the same in whatever order the
    repository lists the budgets: the statuses the derivation gives the matching budgets are among
    over, warning, unknown and ok, and the merge keeps the most severe. *)
Theorem row_status_order_free rows budgets budgets' baseCurrency (Hp : Permutation budgets budgets') :
  applyRowBudgetStatus rows (applyBudgetSpend rows budgets baseCurrency)
    = applyRowBudgetStatus rows (applyBudgetSpend rows budgets' baseCurrency)
  /\ Forall (fun row => cr_BudgetStatus row ∈ risk_statuses
       /\ forall b, b ∈ applyBudgetSpend rows budgets baseCurrency -> budgetMatchesRow b row = true ->
            is_archived row = false -> cr_MonthlyPriceBase row <> None ->
            budget_status_weight (bu_Status b) <= budget_status_weight (cr_BudgetStatus row))
     (applyRowBudgetStatus rows (applyBudgetSpend rows budgets baseCurrency)).
Proof.
  assert (Permutation (applyBudgetSpend rows budgets baseCurrency) (applyBudgetSpend rows budgets' baseCurrency)) as Hp'
    by (by apply Permutation_map).
  split.
  - unfold applyRowBudgetStatus. apply map_ext. intros row. f_equal. unfold row_budget_status.
    by rewrite (merge_status_perm row _ _ Hp' (derived_risk rows baseCurrency budgets row)).
  - unfold applyRowBudgetStatus. apply Forall_map, Forall_true. intros row.
    pose proof (merge_status_worst row _ [] None (derived_risk rows baseCurrency budgets row) (Forall_nil_2 _)) as Hw.
    change (cr_BudgetStatus (cr_with_budget_status ?x row)) with x. unfold row_budget_status.
    change (is_archived (cr_with_budget_status _ row)) with (is_archived row).
    change (cr_MonthlyPriceBase (cr_with_budget_status _ row)) with (cr_MonthlyPriceBase row).
    destruct (foldl (merge_status row) None (applyBudgetSpend rows budgets baseCurrency)) as [s|]; simpl in Hw |- *.
    + destruct Hw as [Hr Hle]. destruct (is_archived row || _) eqn:Ea.
      * split; [unfold risk_statuses; set_solver|]. intros b _ _ Hna Hm. rewrite Hna in Ea. by destruct (cr_MonthlyPriceBase row).
      * split; [done|]. intros b Hin Hm _ _. rewrite Forall_forall in Hle. by apply Hle.
    + split; [destruct (_ || _); unfold risk_statuses; set_solver|].
      intros b Hin Hm. rewrite Forall_forall in Hw. specialize (Hw b Hin).
      change (budgetMatchesRow b row = true) in Hm. congruence.
Qed.
