(* ===== verification/BudgetStoreProps.v ===== *)
(** Properties of the budget tables: a bulk update of the monthly budgets succeeds for every valid
    request and is what the month buckets show, and what a patch of a scope budget may leave. *)
From stdpp Require Import base list strings gmap fin_maps.
From Stdlib Require Import ZArith Lia Sorted.
From S2P Require Import Prelude GoRuntime Settings Calendar CaseMaps Postgres Subscriptions RateWorker Budgets BudgetStore BudgetsProps.

Local Open Scope Z_scope.
#[local] Set Warnings "-clear-no-such-hyp".

(** * Settled words *)

Lemma budget_currency_settled s : budget_currency (budget_currency s) = budget_currency s.
Proof.
  unfold budget_currency. destruct (strings_ToUpper (strings_TrimSpace s) =s "") eqn:E; [reflexivity|].
  rewrite upper_word_settled. by rewrite E.
Qed.

Lemma warning_pct_settled p : warning_pct_or_default (warning_pct_or_default p) = warning_pct_or_default p.
Proof. unfold warning_pct_or_default. destruct (Z.eqb_spec p 0); [done|]. by destruct (Z.eqb_spec p 0). Qed.

(** * The inherited budget *)

(** What the lateral join finds among the months not after a day. *)
Definition best_month (table : gmap Z MonthlyBudgetRecord) (t : Z) (best : option (Z * MonthlyBudgetRecord)) : Prop :=
  match best with
  | None => forall k r, table !! k = Some r -> t < k
  | Some (k, r) => table !! k = Some r /\ k <= t /\ forall k' r', table !! k' = Some r' -> k' <= t -> k' <= k
  end.

Lemma best_month_fold table t : best_month table t (map_fold (latest_month t) None table).
Proof.
  apply (map_fold_weak_ind (fun best m => best_month m t best)); [by intros k r; rewrite lookup_empty|].
  intros k r m best Hk Hbest. unfold latest_month.
  destruct (Z.leb_spec k t) as [Hle|Hgt].
  - destruct best as [[k1 r1]|]; simpl in Hbest.
    + destruct Hbest as (H1 & H2 & H3). destruct (Z.ltb_spec k1 k) as [Hlt|Hge]; simpl.
      * split_and!; [by rewrite lookup_insert_eq|done|]. intros k' r' H Hk'.
        destruct (decide (k' = k)) as [->|Hne]; [lia|]. rewrite lookup_insert_ne in H by done.
        specialize (H3 _ _ H Hk'). lia.
      * assert (k <> k1) as Hk1 by (intros ->; congruence).
        split_and!; [by rewrite lookup_insert_ne|done|]. intros k' r' H Hk'.
        destruct (decide (k' = k)) as [->|Hne]; [lia|]. rewrite lookup_insert_ne in H by done. by eapply H3.
    + simpl. split_and!; [by rewrite lookup_insert_eq|done|]. intros k' r' H Hk'.
      destruct (decide (k' = k)) as [->|Hne]; [lia|]. rewrite lookup_insert_ne in H by done.
      specialize (Hbest _ _ H). lia.
  - destruct best as [[k1 r1]|]; simpl in Hbest |- *.
    + destruct Hbest as (H1 & H2 & H3).
      split_and!; [rewrite lookup_insert_ne by (intros ->; congruence); done|done|]. intros k' r' H Hk'.
      destruct (decide (k' = k)) as [->|Hne]; [lia|]. rewrite lookup_insert_ne in H by done. by eapply H3.
    + intros k' r' H. destruct (decide (k' = k)) as [->|Hne]; [lia|]. rewrite lookup_insert_ne in H by done. by eapply Hbest.
Qed.

Lemma best_month_unique table t a b : best_month table t a -> best_month table t b -> a = b.
Proof.
  destruct a as [[k r]|], b as [[k' r']|]; simpl.
  - intros (H1 & H2 & H3) (H4 & H5 & H6). assert (k = k') as <- by (specialize (H3 _ _ H4 H5); specialize (H6 _ _ H1 H2); lia).
    congruence.
  - intros (H1 & H2 & _) H. specialize (H _ _ H1). lia.
  - intros H (H1 & H2 & _). specialize (H _ _ H1). lia.
  - done.
Qed.

Lemma inherited_is table t k r : best_month table t (Some (k, r)) -> inherited_budget table t = Some r.
Proof. intros H. unfold inherited_budget. by rewrite (best_month_unique _ _ _ _ (best_month_fold table t) H). Qed.

Lemma inherited_ext table table' t : (forall k, k <= t -> table !! k = table' !! k) ->
  inherited_budget table t = inherited_budget table' t.
Proof.
  intros H. unfold inherited_budget. f_equal. apply (best_month_unique table t); [apply best_month_fold|].
  pose proof (best_month_fold table' t) as Hb. destruct (map_fold (latest_month t) None table') as [[k r]|]; simpl in *.
  - destruct Hb as (H1 & H2 & H3). split_and!; [by rewrite H|done|]. intros k' r' Hk' Hle. rewrite H in Hk' by done. by eapply H3.
  - intros k r Hk. destruct (Z_lt_le_dec t k) as [|Hle]; [done|]. rewrite H in Hk by done. by eapply Hb.
Qed.

(** * The bulk statement *)

Section Bulk.
Context (numeric : float64 -> option float64).

(** The row the statement leaves for an input. *)
Definition row_for (limit : float64) (input : UpsertMonthlyBudgetInput) (r : MonthlyBudgetRecord) : Prop :=
  mb_BudgetMonth r = um_BudgetMonth input /\ mb_BaseCurrency r = um_BaseCurrency input
  /\ mb_MonthlyLimit r = limit /\ mb_WarningPct r = um_WarningPct input /\ mb_Note r = um_Note input.

(** Inputs the statement takes: valid, of one limit, of distinct months. *)
Definition input_ok (limit : float64) (input : UpsertMonthlyBudgetInput) : Prop :=
  ValidateUpsertMonthlyBudgetInput input = Ok tt /\ numeric (um_MonthlyLimit input) = Some limit.

Lemma upsert_row_ok clock limit input table : input_ok limit input -> f64_lt limit f64_zero = false ->
  exists r, upsert_row numeric clock input table = Ok r /\ row_for limit input r.
Proof.
  intros [Hv Hn] Hl. unfold ValidateUpsertMonthlyBudgetInput in Hv.
  apply result_bind_ok in Hv as (? & ?%reject_ok & Hv). apply result_bind_ok in Hv as (? & Hd%reject_ok & Hv).
  apply result_bind_ok in Hv as (? & Hc%reject_ok & Hv). apply result_bind_ok in Hv as (? & ?%reject_ok & Hp%reject_ok).
  unfold upsert_row, numeric_column. rewrite Hn. cbn [mbind result_bind].
  exists (upsert_month clock input limit (table !! um_BudgetMonth input)).
  split; [|by unfold row_for, upsert_month; cbn; auto 6].
  unfold monthly_constraints, upsert_month. cbn [mb_BudgetMonth mb_BaseCurrency mb_MonthlyLimit mb_WarningPct].
  by rewrite Hd, Hc, Hl, Hp.
Qed.

Lemma upsert_body_step clock n input table written r : upsert_row numeric clock input table = Ok r ->
  existsb (fun w => mb_BudgetMonth w =? mb_BudgetMonth r) written = false ->
  upsert_body numeric clock n input (table, written) = Ok (<[mb_BudgetMonth r := r]> table, written ++ [r]).
Proof. intros Hr He. unfold upsert_body. simpl. rewrite Hr. simpl. by rewrite He. Qed.

Lemma upsert_fold clock limit inputs n table written :
  Forall (input_ok limit) inputs -> f64_lt limit f64_zero = false ->
  NoDup (map mb_BudgetMonth written ++ map um_BudgetMonth inputs) ->
  exists rows table', fold_result (upsert_body numeric clock) n inputs (table, written) = Ok (table', written ++ rows)
    /\ Forall2 (row_for limit) inputs rows
    /\ (forall k, k ∉ map um_BudgetMonth inputs -> table' !! k = table !! k)
    /\ (forall r, r ∈ rows -> table' !! mb_BudgetMonth r = Some r).
Proof.
  intros Hall Hl. revert n table written. induction inputs as [|input inputs IH]; intros n table written Hnd.
  { exists [], table. rewrite app_nil_r. split_and!; [done|constructor|done|]. by intros r H%not_elem_of_nil. }
  inversion Hall as [|? ? Hi Hrest]; subst. cbn [fold_result].
  destruct (upsert_row_ok clock limit input table Hi Hl) as (r & Hr & Hrow).
  pose proof Hrow as (Hm & _).
  assert (existsb (fun w => mb_BudgetMonth w =? mb_BudgetMonth r) written = false) as He.
  { destruct (existsb _ _) eqn:E; [|done]. apply existsb_exists in E as (w & Hin & Hw). breflect.
    apply NoDup_app in Hnd as (_ & Hd & _). exfalso. apply (Hd (mb_BudgetMonth w)).
    - apply list_elem_of_In. apply in_map. done.
    - rewrite Hw, Hm. cbn [map]. apply list_elem_of_here. }
  rewrite (upsert_body_step _ _ _ _ _ _ Hr He). cbn [mbind result_bind].
  destruct (IH Hrest (1 + n)%nat (<[mb_BudgetMonth r:=r]> table) (written ++ [r])) as (rows & table' & H1 & H2 & H3 & H4).
  { rewrite map_app. cbn [map]. rewrite <- app_assoc. cbn [app]. by rewrite Hm. }
  exists (r :: rows), table'. rewrite H1, <- app_assoc. split_and!; [done|by constructor|..].
  - intros k [Hk1 Hk2]%not_elem_of_cons. rewrite H3 by done. rewrite lookup_insert_ne; [done|congruence].
  - intros r' [->|Hin]%elem_of_cons; [|by apply H4]. rewrite H3; [by rewrite lookup_insert_eq|].
    rewrite Hm. apply NoDup_app in Hnd as (_ & _ & Hnd). by apply NoDup_cons in Hnd as [].
Qed.
End Bulk.

(** * The bulk update *)

Lemma month_first_inj i j : month_first i = month_first j -> i = j.
Proof. intros H. by rewrite <- (month_index_first i), H, month_index_first. Qed.

Lemma months_from_NoDup i n : NoDup (months_from i n).
Proof.
  revert i. induction n as [|n IH]; intros i; [constructor|]. rewrite months_from_S. constructor; [|apply IH].
  rewrite months_from_elem. intros (j & H%month_first_inj & ?). lia.
Qed.

Lemma months_from_sorted i n (rows : list MonthlyBudgetRecord) : map mb_BudgetMonth rows = months_from i n ->
  StronglySorted (not_after month_before) rows.
Proof.
  revert i n. induction rows as [|r rows IH]; intros i n H; [constructor|].
  destruct n as [|n]; [done|]. rewrite months_from_S in H. cbn [map] in H. injection H as Hr Hrest.
  constructor; [by eapply IH|]. apply Forall_forall. intros r' Hin%list_elem_of_In%(in_map mb_BudgetMonth).
  rewrite Hrest, <- list_elem_of_In, months_from_elem in Hin.
  destruct Hin as (j & Hj & ?). unfold not_after, month_before. apply Z.ltb_ge. rewrite Hr, Hj.
  apply month_first_le. lia.
Qed.

Lemma months_in_range rounds i now : i <= month_index now -> 0 < month_first i ->
  month_index now - i + 1 < Z.of_nat rounds ->
  monthsInRange rounds (month_first i) (monthStart now) = Some (months_from i (Z.to_nat (month_index now - i + 1))).
Proof.
  intros Hi Hz Hr. rewrite monthStart_first. unfold monthsInRange, Time_IsZero, Time_After, Time_zero.
  pose proof (month_first_le _ _ Hi). destruct (Z.eqb_spec (month_first i) 0); [lia|].
  destruct (Z.eqb_spec (month_first (month_index now)) 0); [lia|].
  destruct (Z.ltb_spec (month_first (month_index now)) (month_first i)); [lia|]. simpl.
  rewrite monthStart_first, month_index_first. apply (months_loop_ends _ _ _ _ []); rewrite ?month_index_first; lia.
Qed.

(** Every scope starts at the first day of a month, not after the current one. *)
Lemma bulk_start_month earliest scope now start : bulk_start earliest scope (monthStart now) = Ok start ->
  exists i, start = month_first i /\ i <= month_index now.
Proof.
  unfold bulk_start. rewrite monthStart_first.
  intros (s & Hs & [= <-])%result_bind_ok.
  assert (exists i, s = month_first i) as [i ->].
  { destruct (scope =s _).
    { injection Hs as <-. exists (12 * Time_Year (month_first (month_index now))). rewrite Time_Date_month.
      replace (12 * Time_Year (month_first (month_index now)) + (1 - 1)) with (12 * Time_Year (month_first (month_index now))) by lia.
      replace ((1 - 1) * Day) with 0 by lia. rewrite Z.add_0_r. apply NewDate_month_first. }
    destruct (scope =s _).
    { injection Hs as <-. rewrite Time_AddDate_month_first. eexists. apply NewDate_month_first. }
    destruct (scope =s _); [|injection Hs as <-; by eexists].
    apply result_bind_ok in Hs as ([t|] & _ & Hs); [|injection Hs as <-; by eexists].
    destruct (Time_IsZero t); injection Hs as <-; [by eexists|]. rewrite monthStart_first. by eexists. }
  destruct (Time_After _ _) eqn:E; [by exists (month_index now)|]. exists i. split; [done|].
  unfold Time_After in E. breflect. apply month_index_le in E. by rewrite month_index_first in E.
Qed.

Lemma month_input_ok numeric limit input i :
  ValidateBulkUpsertMonthlyBudgetInput (NormalizeBulkUpsertMonthlyBudgetInput input) = Ok tt ->
  numeric (bm_MonthlyLimit input) = Some limit -> 0 < month_first i ->
  let m := month_input (NormalizeBulkUpsertMonthlyBudgetInput input) (month_first i) in
  NormalizeUpsertMonthlyBudgetInput m = m /\ input_ok numeric limit m.
Proof.
  intros Hv Hn Hi m. split.
  - unfold m, NormalizeUpsertMonthlyBudgetInput, month_input. simpl.
    by rewrite budget_currency_settled, warning_pct_settled, strings_TrimSpace_idemp.
  - split; [|done]. unfold ValidateBulkUpsertMonthlyBudgetInput in Hv.
    apply result_bind_ok in Hv as (? & _ & Hv). apply result_bind_ok in Hv as (? & Hc%reject_ok & Hv).
    apply result_bind_ok in Hv as (? & Hm%reject_ok & Hp%reject_ok).
    unfold ValidateUpsertMonthlyBudgetInput. cbn [m um_BudgetMonth um_BaseCurrency um_MonthlyLimit um_WarningPct month_input].
    rewrite Time_Day_month_first, Hc, Hm, Hp. unfold Time_IsZero.
    destruct (Z.eqb_spec (month_first i) 0) as [E|_]; [lia|reflexivity].
Qed.

Lemma validate_upserts_fixed inputs :
  Forall (fun m => NormalizeUpsertMonthlyBudgetInput m = m /\ ValidateUpsertMonthlyBudgetInput m = Ok tt) inputs ->
  validate_upserts inputs = Ok inputs.
Proof.
  unfold validate_upserts. intros Hall.
  assert (forall n acc, fold_result (fun _ input acc =>
    let input := NormalizeUpsertMonthlyBudgetInput input in
    _ ← ValidateUpsertMonthlyBudgetInput input; Ok (acc ++ [input])) n inputs acc = Ok (acc ++ inputs)) as H; [|apply H].
  induction Hall as [|m inputs [Hm Hv] _ IH]; intros n acc; cbn [fold_result]; [by rewrite app_nil_r|].
  cbv zeta. rewrite Hm, Hv. cbn [mbind result_bind]. rewrite IH. by rewrite <- app_assoc.
Qed.

Lemma Forall2_Forall_r_elem {A B} (R : A -> B -> Prop) (P : A -> Prop) l k y : y ∈ k -> Forall2 R l k -> Forall P l ->
  exists x, R x y /\ P x.
Proof.
  intros Hy. induction 1 as [|x y' l k HR _ IH]; [by apply not_elem_of_nil in Hy|]. intros HP.
  inversion HP; subst. apply elem_of_cons in Hy as [->|Hy]; [by exists x|by apply IH].
Qed.

Lemma row_for_months limit inputs rows : Forall2 (row_for limit) inputs rows ->
  map mb_BudgetMonth rows = map um_BudgetMonth inputs.
Proof. induction 1 as [|input r inputs rows [Hm _] _ IH]; simpl; [done|]. by rewrite Hm, IH. Qed.

(** The keys the check constraint of the table admits. *)
Definition month_keys (table : gmap Z MonthlyBudgetRecord) : Prop :=
  forall k r, table !! k = Some r -> k = month_first (month_index k).

(** A bucket that shows a budget. *)
Definition shows (limit : float64) (currency : string) (pct : Z) (baseCurrency : string) (p : SeriesPoint) : Prop :=
  sp_BudgetLimit p = Some limit /\ sp_BudgetCurrency p = currency /\ sp_BudgetWarningPct p = pct
  /\ sp_DataInsufficient p = negb (currency =s baseCurrency).

(** A table in which each month of a range holds the same budget. *)
Definition filled (table : gmap Z MonthlyBudgetRecord) (i n : Z) (limit : float64) (currency : string) (pct : Z) : Prop :=
  forall j, i <= j <= n -> exists r, table !! month_first j = Some r /\ mb_MonthlyLimit r = limit
    /\ mb_BaseCurrency r = currency /\ mb_WarningPct r = pct.

Lemma filled_shows table i n limit currency pct cur t : month_keys table -> filled table i n limit currency pct ->
  i <= month_index t <= n -> shows limit currency pct cur (budget_bucket table cur t).
Proof.
  intros Hk Hf Ht. destruct (Hf _ Ht) as (r & Hr & <- & <- & <-).
  assert (inherited_budget table t = Some r) as Hi.
  { apply (inherited_is _ _ (month_first (month_index t))). split_and!; [done|apply month_index_spec|].
    intros k' r' H' Hle. rewrite (Hk _ _ H'). apply month_first_le. by apply month_index_mono. }
  unfold shows, budget_bucket. rewrite Hi. simpl. auto.
Qed.

Lemma buckets_show table i limit currency pct settings months now db :
  cd_monthly db = table -> month_keys table -> filled table i (month_index now) limit currency pct ->
  0 < months <= month_index now - i + 1 ->
  exists points, ListBudgetMonthBuckets None settings months now db = Ok points /\ length points = Z.to_nat months
    /\ Forall (shows limit currency pct (sc_BaseCurrency settings)) points.
Proof.
  intros Ht Hk Hf Hm. unfold ListBudgetMonthBuckets. destruct (Z.leb_spec months 0); [lia|].
  eexists. split; [done|]. unfold bucket_starts. rewrite !length_map, length_seq, Ht. split; [done|].
  rewrite !Forall_map. apply Forall_seq. intros j Hj. simpl.
  apply (filled_shows _ i (month_index now)); [done..|]. rewrite month_index_first. lia.
Qed.

(** The statement of a bulk update over a range of months. *)
Lemma repo_bulk numeric io limit input i n db :
  Forall (fun m => NormalizeUpsertMonthlyBudgetInput m = m /\ input_ok numeric limit m)
    (map (month_input input) (months_from i n)) ->
  f64_lt limit f64_zero = false -> co_answer io = Executed ->
  exists db' rows, repo_UpsertMonthlyBudgets numeric io (map (month_input input) (months_from i n)) db = (db', Ok rows)
    /\ map mb_BudgetMonth rows = months_from i n /\ cd_budgets db' = cd_budgets db
    /\ filled (cd_monthly db') i (i + Z.of_nat n - 1) limit (bm_BaseCurrency input) (bm_WarningPct input)
    /\ (forall k, k ∉ months_from i n -> cd_monthly db' !! k = cd_monthly db !! k).
Proof.
  intros Hall Hl Ha. set (inputs := map (month_input input) (months_from i n)) in *.
  assert (map um_BudgetMonth inputs = months_from i n) as Hmonths by (unfold inputs; rewrite map_map; apply map_id).
  assert (validate_upserts inputs = Ok inputs) as Hv.
  { apply validate_upserts_fixed. eapply Forall_impl; [exact Hall|]. by intros m [? []]. }
  destruct (upsert_fold numeric (co_clock io) limit inputs 0 (cd_monthly db) []) as (rows & table & H1 & H2 & H3 & H4);
    [eapply Forall_impl; [exact Hall|]; by intros m []|done|simpl; rewrite Hmonths; apply months_from_NoDup|].
  pose proof (row_for_months _ _ _ H2) as Hrows. rewrite Hmonths in Hrows, H3.
  unfold repo_UpsertMonthlyBudgets. rewrite Hv. destruct inputs as [|m0 ms] eqn:Ei.
  - exists db, []. split_and!; [done|by rewrite <- Hmonths|done| |done].
    intros j Hj. exfalso. destruct n; [lia|]. by rewrite months_from_S in Hmonths.
  - rewrite H1, Ha. cbn [mbind result_bind autocommit map_error fst snd app].
    exists (cd_with_monthly table db), rows. rewrite (sort_stable_id _ _ (months_from_sorted _ _ _ Hrows)).
    split_and!; [done..| |done]. intros j Hj.
    assert (month_first j ∈ map mb_BudgetMonth rows) as Hin
      by (rewrite Hrows; apply months_from_elem; exists j; split; [done|lia]).
    rewrite list_elem_of_In, in_map_iff in Hin. destruct Hin as (r & Hr & Hin%list_elem_of_In).
    exists r. rewrite <- Hr. split; [by apply H4|].
    assert (Forall (fun m => um_BaseCurrency m = bm_BaseCurrency input /\ um_WarningPct m = bm_WarningPct input) (m0 :: ms)) as Hsame
      by (rewrite <- Ei; apply Forall_map, Forall_true; done).
    destruct (Forall2_Forall_r_elem _ _ _ _ r Hin H2 Hsame) as (m & (_ & Hc & Hlim & Hp & _) & Hm1 & Hm2). by rewrite Hc, Hlim, Hp, Hm1, Hm2.
Qed.

(** A bulk update of the monthly budgets with a valid request succeeds, the
    loop over the months included: it writes one row per month from the first month of its scope to
    the current one, and from then on every month bucket of that range shows the new limit, currency
    and warning threshold, insufficient exactly when the currency differs from the base currency.
    Earlier buckets show what they showed before and the scope budgets are untouched. *)
Theorem bulk_budget_visible numeric rounds now io input db limit start
    (Hvalid : ValidateBulkUpsertMonthlyBudgetInput (NormalizeBulkUpsertMonthlyBudgetInput input) = Ok tt)
    (Hnumeric : numeric (bm_MonthlyLimit input) = Some limit) (Hlimit : f64_lt limit f64_zero = false)
    (Hkeys : month_keys (cd_monthly db)) (Hexec : co_answer io = Executed)
    (Hstart : bulk_start (EarliestSubscriptionMonth None db)
                (bm_Scope (NormalizeBulkUpsertMonthlyBudgetInput input)) (monthStart now) = Ok start)
    (Hzero : 0 < start) (Hrounds : month_index now - month_index start + 1 < Z.of_nat rounds) :
  exists db' res, BulkUpsertMonthlyBudgets numeric rounds now io None input db = Some (db', Ok res)
    /\ map mb_BudgetMonth (br_Records res)
         = months_from (month_index start) (Z.to_nat (month_index now - month_index start + 1))
    /\ (forall settings months, 0 < months <= month_index now - month_index start + 1 ->
          exists points, ListBudgetMonthBuckets None settings months now db' = Ok points
            /\ length points = Z.to_nat months
            /\ Forall (shows limit (budget_currency (bm_BaseCurrency input))
                         (warning_pct_or_default (bm_WarningPct input)) (sc_BaseCurrency settings)) points)
    /\ (forall baseCurrency t, t < start ->
          budget_bucket (cd_monthly db') baseCurrency t = budget_bucket (cd_monthly db) baseCurrency t)
    /\ cd_budgets db' = cd_budgets db.
Proof.
  destruct (bulk_start_month _ _ _ _ Hstart) as (i & -> & Hi). rewrite month_index_first in *.
  set (input' := NormalizeBulkUpsertMonthlyBudgetInput input) in *. set (n := Z.to_nat (month_index now - i + 1)).
  assert (monthsInRange rounds (month_first i) (monthStart now) = Some (months_from i n)) as Hmonths.
  { apply months_in_range; [done..|]. lia. }
  assert (Forall (fun m => NormalizeUpsertMonthlyBudgetInput m = m /\ input_ok numeric limit m)
    (map (month_input input') (months_from i n))) as Hall.
  { apply Forall_map, Forall_forall. intros t (j & -> & Hj)%months_from_elem.
    apply month_input_ok; [done..|]. pose proof (month_first_le i j ltac:(lia)). lia. }
  destruct (repo_bulk numeric io limit input' i n db Hall Hlimit Hexec) as (db' & rows & H1 & H2 & H3 & H4 & H5).
  exists db'. eexists. unfold BulkUpsertMonthlyBudgets. fold input'. rewrite Hvalid, Hstart, Hmonths.
  cbn [mbind option_bind]. rewrite H1. split; [done|]. cbn [br_Records].
  replace (i + Z.of_nat n - 1) with (month_index now) in H4 by lia.
  assert (month_keys (cd_monthly db')) as Hkeys'.
  { intros k r Hk. destruct (decide (k ∈ months_from i n)) as [(j & -> & _)%months_from_elem|Hn].
    - by rewrite month_index_first.
    - rewrite (H5 _ Hn) in Hk. by eapply Hkeys. }
  split_and!; [done| | |done].
  - intros settings months Hm. by apply (buckets_show (cd_monthly db') i).
  - intros baseCurrency t Ht. unfold budget_bucket. erewrite (inherited_ext (cd_monthly db')); [done|].
    intros k Hk. apply H5. intros (j & -> & Hj)%months_from_elem. pose proof (month_first_le i j ltac:(lia)). lia.
Qed.

(** * Concrete budgets *)

(** Concrete budgets: the properties of the budgets at real inputs, and a patch that leaves a
    provider budget without a provider. *)

Definition demo_day (y m d : Z) : Z := Time_Date y m d.

Lemma month_loop_ends_witness :
  monthsInRange 6 (demo_day 2024 11 20) (demo_day 2025 2 3)
  = Some [demo_day 2024 11 1; demo_day 2024 12 1; demo_day 2025 1 1; demo_day 2025 2 1].
Proof. rewrite month_loop_ends; [vm_compute; reflexivity|]. vm_compute. reflexivity. Defined.

Definition demo_row (id provider : string) (amount : option float64) : CostRow := {|
  cr_SubscriptionID := id; cr_VPSID := "vps"; cr_VPSDisplayName := "vps"; cr_ProviderID := provider;
  cr_ProviderName := provider; cr_DisplayName := id; cr_CostCategory := ""; cr_Labels := []; cr_Price := f64_of_Z 10;
  cr_Currency := "USD"; cr_MonthlyPrice := f64_of_Z 10; cr_MonthlyPriceBase := amount; cr_YearlyPriceBase := None;
  cr_BaseCurrency := "CNY"; cr_ExchangeRate := None; cr_ExchangeRateDate := None;
  cr_ExchangeRateStatus := ExchangeRateStatusFresh; cr_RenewAt := None; cr_NextReminderAt := None;
  cr_Status := "active"; cr_PaymentMethod := ""; cr_Country := ""; cr_Region := ""; cr_LifecycleStatus := "active";
  cr_RenewalDecision := ""; cr_AutoRenewCheck := ""; cr_BudgetStatus := "" |}.

Definition demo_budget (id scope scope_id : string) (limit : Z) : BudgetRecord := {|
  bu_BudgetID := id; bu_ScopeType := scope; bu_ScopeID := scope_id; bu_Name := id; bu_BaseCurrency := "CNY";
  bu_MonthlyLimit := Some (f64_of_Z limit); bu_YearlyLimit := None; bu_WarningPct := 80; bu_Enabled := true;
  bu_Note := ""; bu_CurrentMonthlySpend := None; bu_CurrentYearlySpend := None; bu_Status := BudgetStatusUnknown;
  bu_CreatedAt := 0; bu_UpdatedAt := 0 |}.

Definition demo_rows : list CostRow :=
  [demo_row "a" "p1" (Some (f64_of_Z 70)); demo_row "b" "p2" (Some (f64_of_Z 20)); demo_row "c" "p2" None].

Definition demo_budgets : list BudgetRecord :=
  [demo_budget "g" BudgetScopeGlobal "" 80; demo_budget "p" BudgetScopeProvider "p1" 80].

Lemma row_status_order_free_witness :
  map cr_BudgetStatus (applyRowBudgetStatus demo_rows (applyBudgetSpend demo_rows (rev demo_budgets) "CNY"))
  = ["over"; "over"; "unknown"].
Proof.
  rewrite <- (proj1 (row_status_order_free demo_rows demo_budgets (rev demo_budgets) "CNY" (Permutation_rev _))).
  vm_compute. reflexivity.
Defined.

(** * Monthly budgets *)

Definition demo_numeric (x : float64) : option float64 := Some x.
Definition demo_cost_io : cost_io := {| co_id := Ok "sub_budget_1"; co_clock := demo_day 2025 2 3; co_answer := Executed |}.
Definition demo_cost_db : cost_db := {|
  cd_budgets := ∅; cd_monthly := ∅; cd_subscriptions := []; cd_price_changes := [demo_day 2024 12 24] |}.
Definition demo_bulk : BulkUpsertMonthlyBudgetInput := {|
  bm_Scope := " All_History "; bm_BaseCurrency := "cny"; bm_MonthlyLimit := f64_of_Z 300; bm_WarningPct := 0; bm_Note := "" |}.

Lemma bulk_budget_visible_witness : exists db' res,
  BulkUpsertMonthlyBudgets demo_numeric 10 (demo_day 2025 2 3) demo_cost_io None demo_bulk demo_cost_db = Some (db', Ok res)
  /\ map mb_BudgetMonth (br_Records res) = [demo_day 2024 12 1; demo_day 2025 1 1; demo_day 2025 2 1].
Proof.
  assert (month_keys (cd_monthly demo_cost_db)) as Hk by (intros k r H; cbn in H; by rewrite lookup_empty in H).
  destruct (bulk_budget_visible demo_numeric 10 (demo_day 2025 2 3) demo_cost_io demo_bulk demo_cost_db
    (f64_of_Z 300) (demo_day 2024 12 1) ltac:(vm_compute; reflexivity) ltac:(vm_compute; reflexivity)
    ltac:(vm_compute; reflexivity) Hk ltac:(reflexivity) ltac:(vm_compute; reflexivity)
    ltac:(vm_compute; reflexivity) ltac:(vm_compute; reflexivity)) as (db' & res & H1 & H2 & _).
  exists db', res. split; [exact H1|]. rewrite H2. vm_compute. reflexivity.
Defined.

(** * A patch that drops the scope *)

Definition provider_patch : PatchBudgetInput := {|
  pb_BudgetID := "g"; pb_ScopeType := Some BudgetScopeProvider; pb_ScopeID := None; pb_Name := None;
  pb_BaseCurrency := None; pb_MonthlyLimit := None; pb_YearlyLimit := None; pb_WarningPct := None;
  pb_Enabled := None; pb_Note := None |}.

(** Turning a global budget into a provider budget without naming a provider is accepted, though
    creating such a budget is refused; no row ever matches it. *)
Lemma patch_drops_scope :
  (exists db' b, repo_PatchBudget demo_numeric demo_cost_io provider_patch
      (cd_with_budgets {["g" := demo_budget "g" BudgetScopeGlobal "" 80]} demo_cost_db) = (db', Ok b)
    /\ cd_budgets db' !! "g" = Some b /\ bu_ScopeType b = BudgetScopeProvider /\ bu_ScopeID b = ""
    /\ forall row, budgetMatchesRow b row = false)
  /\ ValidateCreateBudgetInput {| cb_ScopeType := BudgetScopeProvider; cb_ScopeID := ""; cb_Name := "g";
       cb_BaseCurrency := "CNY"; cb_MonthlyLimit := Some (f64_of_Z 80); cb_YearlyLimit := None; cb_WarningPct := 80;
       cb_Enabled := true; cb_Note := "" |} = Err (invalidCostInput "budget scope_id is required").
Proof.
  split; [|vm_compute; reflexivity]. eexists _, _. split; [vm_compute; reflexivity|].
  split; [vm_compute; reflexivity|]. split; [reflexivity|]. split; [reflexivity|]. intros row. reflexivity.
Qed.
