(* ===== verification/SubscriptionStore.v ===== *)
(** The repository of subscriptions (src/internal/center/store/subscriptions.go) with the histories it
    writes (createPriceHistory and createExperienceLog of store/renewal_decisions.go, their inputs in
    renewals/types.go): creation, creation under an idempotency key, and patches.  Every operation
    is one transaction behind the exclusive lock of the asset graph, so operations follow one
    another; each statement may fail and the end of a commit may be lost. *)
From stdpp Require Import base list strings gmap.
From Stdlib Require Import ZArith Lia SpecFloat.
From S2P Require Import Prelude GoRuntime Settings Calendar Postgres Subscriptions.

Local Open Scope Z_scope.
#[local] Set Warnings "-clear-no-such-hyp".

(** * Errors *)

Definition ErrSubscriptionNotFound : error := ErrSentinel "subscription not found".
Definition ErrSubscriptionOwnershipChangeForbidden : error := ErrSentinel "subscription ownership change forbidden".
Definition ErrSubscriptionReplayOwnershipConflict : error := ErrSentinel "subscription replay ownership conflict".
Definition AssetTimelineNotFoundName : string := "asset timeline not found".
Definition ErrAssetTimelineNotFound : error := ErrSentinel AssetTimelineNotFoundName.
Definition InvalidAssetHistoryInputName : string := "invalid asset history input".
Definition ErrInvalidAssetHistoryInput : error := ErrSentinel InvalidAssetHistoryInputName.

Definition invalidHistory (message : string) : error := ErrWrap "%w: %s" [message] [ErrInvalidAssetHistoryInput].

Definition LifecycleArchived : string := "archived".

Definition isSubscriptionInvalidPostgresError (err : error) : bool :=
  match pg_code err with Some code => member code ["23503"; "23514"] | None => false end.

(** * Data *)

Record createRequestDigestBody := {
  db_VPSID : string;
  db_Price : float64;
  db_Currency : string;
  db_BillingCycle : string;
  db_BillingMonths : Z;
  db_BillingPeriodUnit : string;
  db_BillingPeriodLength : Z;
  db_StartedAt : string;
  db_RenewAt : string;
  db_AutoRenew : bool;
  db_AutoRenewCancelled : bool;
  db_RenewalMode : string;
  db_Status : string;
  db_PaymentMethod : string;
  db_DisplayName : string;
  db_CostCategory : string;
  db_Labels : list string;
  db_TrialEndsAt : string;
  db_EndsAt : string;
  db_Note : string;
}.

Record CreatePriceHistoryInput := {
  cp_From : SubscriptionRecord;
  cp_To : SubscriptionRecord;
  cp_ChangedAt : option Z;
}.

Record PriceHistoryRecord := {
  ph_PriceHistoryID : string;
  ph_SubscriptionID : string;
  ph_VPSID : string;
  ph_FromPrice : float64;
  ph_ToPrice : float64;
  ph_FromCurrency : string;
  ph_ToCurrency : string;
  ph_FromBillingCycle : string;
  ph_ToBillingCycle : string;
  ph_FromBillingMonths : Z;
  ph_ToBillingMonths : Z;
  ph_FromBillingPeriodUnit : string;
  ph_ToBillingPeriodUnit : string;
  ph_FromBillingPeriodLength : Z;
  ph_ToBillingPeriodLength : Z;
  ph_FromMonthlyPrice : float64;
  ph_ToMonthlyPrice : float64;
  ph_FromRenewAt : option Z;
  ph_ToRenewAt : option Z;
  ph_FromAutoRenew : bool;
  ph_ToAutoRenew : bool;
  ph_FromAutoRenewCancelled : bool;
  ph_ToAutoRenewCancelled : bool;
  ph_FromRenewalMode : string;
  ph_ToRenewalMode : string;
  ph_FromStatus : string;
  ph_ToStatus : string;
  ph_ChangedAt : Z;
  ph_CreatedAt : Z;
}.

Record CreateExperienceLogInput := {
  ce_VPSID : string;
  ce_Category : string;
  ce_Severity : string;
  ce_Summary : string;
  ce_Details : string;
  ce_OccurredAt : option Z;
}.

Record ExperienceLogRecord := {
  el_ExperienceLogID : string;
  el_VPSID : string;
  el_Category : string;
  el_Severity : string;
  el_Summary : string;
  el_Details : string;
  el_OccurredAt : Z;
  el_CreatedAt : Z;
}.

(** The tables: the lifecycle of each VPS, the subscriptions by id, the receipts of creations by
    idempotency key (digest and subscription), the histories in the order of their insertion. *)
Record subscription_db := {
  sb_vps : gmap string string;
  sb_subscriptions : gmap string SubscriptionRecord;
  sb_receipts : gmap string (string * string);
  sb_prices : list PriceHistoryRecord;
  sb_logs : list ExperienceLogRecord;
}.

Definition sb_with_subscriptions (s : gmap string SubscriptionRecord) (db : subscription_db) : subscription_db := {|
  sb_vps := sb_vps db; sb_subscriptions := s; sb_receipts := sb_receipts db; sb_prices := sb_prices db;
  sb_logs := sb_logs db |}.
Definition sb_with_receipts (r : gmap string (string * string)) (db : subscription_db) : subscription_db := {|
  sb_vps := sb_vps db; sb_subscriptions := sb_subscriptions db; sb_receipts := r; sb_prices := sb_prices db;
  sb_logs := sb_logs db |}.
Definition sb_with_prices (p : list PriceHistoryRecord) (db : subscription_db) : subscription_db := {|
  sb_vps := sb_vps db; sb_subscriptions := sb_subscriptions db; sb_receipts := sb_receipts db; sb_prices := p;
  sb_logs := sb_logs db |}.
Definition sb_with_logs (l : list ExperienceLogRecord) (db : subscription_db) : subscription_db := {|
  sb_vps := sb_vps db; sb_subscriptions := sb_subscriptions db; sb_receipts := sb_receipts db;
  sb_prices := sb_prices db; sb_logs := l |}.

(** What lies outside the program: numbers stored in numeric(12, 2) and numeric(12, 4) columns and read
    back ([None] when they overflow), the monthly price the update computes with the server's
    decimals, SHA-256 over the JSON of a request, and the JSON of a revision. *)
Class SubscriptionEnv := {
  numeric2 : float64 -> option float64;
  numeric4 : float64 -> option float64;
  sql_monthly_price : float64 -> string -> Z -> option float64;
  body_digest : createRequestDigestBody -> result string;
  revision_json : string -> SubscriptionRecord -> SubscriptionRecord -> string;
}.

(** What one call meets. *)
Record subscription_io := {
  so_faults : faults;
  so_id : string -> result string;
  so_clock : Z;
  so_commit : exec_answer;
}.

Section Store.
Context `{Env : SubscriptionEnv}.

Definition decimal (conv : float64 -> option float64) (x : float64) : result float64 :=
  match conv x with Some y => Ok y | None => Err (PgError "22003") end.

(** * Digest of a creation *)

Definition dateDigest (value : option Z) : string :=
  match value with None => "" | Some t => Time_Format_date t end.

Definition CreateRequestDigest (input : CreateInput) : result string :=
  let input := NormalizeCreateInput input in
  map_error (fun e => ErrWrap "encode subscription create digest: %w" [] [e])
    (body_digest {|
      db_VPSID := ci_VPSID input; db_Price := ci_Price input; db_Currency := ci_Currency input;
      db_BillingCycle := ci_BillingCycle input; db_BillingMonths := ci_BillingMonths input;
      db_BillingPeriodUnit := ci_BillingPeriodUnit input; db_BillingPeriodLength := ci_BillingPeriodLength input;
      db_StartedAt := dateDigest (ci_StartedAt input); db_RenewAt := dateDigest (ci_RenewAt input);
      db_AutoRenew := ci_AutoRenew input; db_AutoRenewCancelled := ci_AutoRenewCancelled input;
      db_RenewalMode := ci_RenewalMode input; db_Status := ci_Status input;
      db_PaymentMethod := ci_PaymentMethod input; db_DisplayName := ci_DisplayName input;
      db_CostCategory := ci_CostCategory input; db_Labels := ci_Labels input;
      db_TrialEndsAt := dateDigest (ci_TrialEndsAt input); db_EndsAt := dateDigest (ci_EndsAt input);
      db_Note := ci_Note input |}).

(** * Statements *)

Definition begin_tx (io : subscription_io) (message : string) : result () :=
  statement (so_faults io) "begin" 0 (fun e => ErrWrap message [] [e]).

Definition no_wrap (e : error) : error := e.

(** [select lifecycle_status ... for update]; [None] is no row. *)
Definition lockAssetVPSLifecycle (io : subscription_io) (vpsID : string) (db : subscription_db)
    : result (option string) :=
  _ ← statement (so_faults io) "lock vps" 0 no_wrap; Ok (sb_vps db !! vpsID).

Definition ensureSubscriptionVPSAllowsCreate (io : subscription_io) (input : CreateInput) (db : subscription_db)
    : result () :=
  lifecycle ← map_error (fun e => ErrWrap "query vps asset %q before subscription create: %w" [ci_VPSID input] [e])
                (lockAssetVPSLifecycle io (ci_VPSID input) db);
  match lifecycle with Some _ => Ok tt | None => Err ErrInvalidSubscriptionInput end.

(** The foreign key and the check constraints of subscriptions. *)
Definition subscription_constraints (db : subscription_db) (r : SubscriptionRecord) : result () :=
  _ ← reject (negb (is_set (sb_vps db !! su_VPSID r))) (PgError "23503");
  _ ← reject (f64_lt (su_Price r) f64_zero) (PgError "23514");
  _ ← reject (su_BillingMonths r <=? 0) (PgError "23514");
  _ ← reject (negb (IsValidCurrency (su_Currency r))) (PgError "23514");
  _ ← reject (negb (IsValidStatus (su_Status r))) (PgError "23514");
  _ ← reject (negb (member (su_BillingPeriodUnit r)
          [BillingPeriodDay; BillingPeriodWeek; BillingPeriodMonth; BillingPeriodYear])) (PgError "23514");
  _ ← reject (su_BillingPeriodLength r <=? 0) (PgError "23514");
  reject (negb (member (su_RenewalMode r) [RenewalModeAuto; RenewalModeManual; RenewalModeAutoCancelled]))
    (PgError "23514").

(** The row an insert returns; dates are scanned to their day. *)
Definition insert_row (io : subscription_io) (subscriptionID : string) (input : CreateInput) (db : subscription_db)
    : result (subscription_db * SubscriptionRecord) :=
  _ ← statement (so_faults io) "insert subscription" 0 no_wrap;
  months ← int4 (ci_BillingMonths input);
  length ← int4 (ci_BillingPeriodLength input);
  price ← decimal numeric2 (ci_Price input);
  monthly ← decimal numeric4 (CalculateMonthlyPriceForPeriod (ci_Price input) (ci_BillingPeriodUnit input)
                                (ci_BillingPeriodLength input));
  let r := {|
    su_SubscriptionID := subscriptionID; su_VPSID := ci_VPSID input; su_Price := price;
    su_Currency := ci_Currency input; su_BillingCycle := ci_BillingCycle input; su_BillingMonths := months;
    su_BillingPeriodUnit := ci_BillingPeriodUnit input; su_BillingPeriodLength := length;
    su_MonthlyPrice := monthly; su_StartedAt := NewDate <$> ci_StartedAt input;
    su_RenewAt := NewDate <$> ci_RenewAt input; su_AutoRenew := ci_AutoRenew input;
    su_AutoRenewCancelled := ci_AutoRenewCancelled input; su_RenewalMode := ci_RenewalMode input;
    su_Status := ci_Status input; su_PaymentMethod := ci_PaymentMethod input;
    su_DisplayName := ci_DisplayName input; su_CostCategory := ci_CostCategory input;
    su_Labels := ci_Labels input; su_TrialEndsAt := NewDate <$> ci_TrialEndsAt input;
    su_EndsAt := NewDate <$> ci_EndsAt input; su_Note := ci_Note input;
    su_CreatedAt := so_clock io; su_UpdatedAt := so_clock io |} in
  _ ← subscription_constraints db r;
  match sb_subscriptions db !! subscriptionID with
  | Some _ => Err (PgError "23505")
  | None => Ok (sb_with_subscriptions (<[subscriptionID := r]> (sb_subscriptions db)) db, r)
  end.

Definition subscription_error (wrap : error -> error) (err : error) : error :=
  if isSubscriptionInvalidPostgresError err then ErrInvalidSubscriptionInput else wrap err.

Definition insertSubscription (io : subscription_io) (input : CreateInput) (db : subscription_db)
    : result (subscription_db * SubscriptionRecord) :=
  subscriptionID ← map_error (fun e => ErrWrap "generate subscription id: %w" [] [e]) (so_id io "sub");
  map_error (subscription_error (fun e => ErrWrap "create subscription: %w" [] [e]))
    (insert_row io subscriptionID input db).

(** * Creation *)

Definition CreateSubscription (io : subscription_io) (input : CreateInput) (db : subscription_db)
    : subscription_db * result SubscriptionRecord :=
  let input := NormalizeCreateInput input in
  match ValidateCreateInput input with
  | Err e => (db, Err e)
  | Ok _ =>
      transaction (so_commit io) (fun e => ErrWrap "commit subscription create transaction: %w" [] [e]) db
        (_ ← begin_tx io "begin subscription create transaction: %w";
         _ ← ensureSubscriptionVPSAllowsCreate io input db;
         insertSubscription io input db)
  end.

(** A receipt with the key exists: the stored subscription if it is the request's. *)
Definition replay_creation (io : subscription_io) (input : CreateInput) (digest storedDigest subscriptionID : string)
    (db : subscription_db) : result (subscription_db * (SubscriptionRecord * bool)) :=
  _ ← reject (negb (storedDigest =s digest)) ErrIdempotencyKeyReused;
  _ ← statement (so_faults io) "load replay" 0 (fun e => ErrWrap "load replayed subscription %q: %w" [subscriptionID] [e]);
  match sb_subscriptions db !! subscriptionID with
  | None => Err (ErrWrap "load replayed subscription %q: %w" [subscriptionID] [ErrSentinel "no rows in result set"])
  | Some record =>
      _ ← reject (negb (su_VPSID record =s ci_VPSID input)) ErrSubscriptionReplayOwnershipConflict;
      Ok (db, (record, true))
  end.

(** The check constraints and the primary key of subscription_create_idempotency. *)
Definition insert_receipt_row (io : subscription_io) (key digest subscriptionID : string) (db : subscription_db)
    : result subscription_db :=
  _ ← statement (so_faults io) "insert receipt" 0 no_wrap;
  match sb_receipts db !! key with
  | Some _ => Err (PgError "23505")
  | None => Ok (sb_with_receipts (<[key := (digest, subscriptionID)]> (sb_receipts db)) db)
  end.

Definition create_with_key (io : subscription_io) (input : CreateInput) (key digest : string) (db : subscription_db)
    : result (subscription_db * (SubscriptionRecord * bool)) :=
  _ ← ensureSubscriptionVPSAllowsCreate io input db;
  '(db, record) ← insertSubscription io input db;
  db ← map_error (fun e => ErrWrap "record subscription create idempotency: %w" [] [e])
         (insert_receipt_row io key digest (su_SubscriptionID record) db);
  Ok (db, (record, false)).

Definition CreateSubscriptionIdempotent (io : subscription_io) (input : CreateInput) (idempotencyKey : string)
    (db : subscription_db) : subscription_db * result (SubscriptionRecord * bool) :=
  let input := NormalizeCreateInput input in
  match (_ ← ValidateCreateInput input; key ← NormalizeIdempotencyKey idempotencyKey;
         digest ← CreateRequestDigest input; Ok (key, digest)) with
  | Err e => (db, Err e)
  | Ok (key, digest) =>
      let replay := is_set (sb_receipts db !! key) in
      transaction (so_commit io)
        (fun e => ErrWrap (if replay then "commit subscription create idempotency replay: %w"
                           else "commit subscription create: %w") [] [e]) db
        (_ ← begin_tx io "begin subscription create idempotency transaction: %w";
         _ ← statement (so_faults io) "lock key" 0 (fun e => ErrWrap "lock subscription create idempotency key: %w" [] [e]);
         _ ← statement (so_faults io) "lookup key" 0 (fun e => ErrWrap "lookup subscription create idempotency: %w" [] [e]);
         match sb_receipts db !! key with
         | Some (storedDigest, subscriptionID) => replay_creation io input digest storedDigest subscriptionID db
         | None => create_with_key io input key digest db
         end)
  end.

Definition GetSubscription (io : subscription_io) (subscriptionID : string) (db : subscription_db)
    : result SubscriptionRecord :=
  _ ← statement (so_faults io) "get subscription" 0 (fun e => ErrWrap "query subscription %q: %w" [subscriptionID] [e]);
  match sb_subscriptions db !! subscriptionID with
  | Some record => Ok record
  | None => Err ErrSubscriptionNotFound
  end.
End Store.
