(* ===== verification/SubscriptionPatch.v ===== *)
(** Patches of subscriptions (PatchSubscription and patchSubscriptionInTransaction of
    src/internal/center/store/subscriptions.go) with the price history and the experience log they
    append (src/internal/center/store/renewal_decisions.go, src/internal/center/renewals/types.go). *)
From stdpp Require Import base list strings gmap.
From Stdlib Require Import ZArith Lia SpecFloat.
From S2P Require Import Prelude GoRuntime Settings Calendar Postgres Subscriptions SubscriptionStore.

Local Open Scope Z_scope.
#[local] Set Warnings "-clear-no-such-hyp".

#[global] Instance f64_eq_dec : EqDecision float64.
Proof. unfold float64. solve_decision. Defined.

#[global] Instance subscription_record_eq_dec : EqDecision SubscriptionRecord.
Proof. solve_decision. Defined.

(** * Inputs of the histories *)

Definition NormalizeVPSID (vpsID : string) : string := strings_TrimSpace vpsID.

Definition ExperienceNote : string := "note".
Definition ExperienceStability : string := "stability".
Definition ExperienceNetwork : string := "network".
Definition ExperienceSupport : string := "support".
Definition ExperienceBilling : string := "billing".
Definition ExperienceMigration : string := "migration".
Definition ExperienceCancellation : string := "cancellation".
Definition ExperienceSeverityInfo : string := "info".
Definition ExperienceSeverityWarning : string := "warning".
Definition ExperienceSeverityCritical : string := "critical".

Definition IsValidExperienceCategory (value : string) : bool :=
  member value [ExperienceNote; ExperienceStability; ExperienceNetwork; ExperienceSupport; ExperienceBilling;
                ExperienceMigration; ExperienceCancellation].

Definition IsValidExperienceSeverity (value : string) : bool :=
  member value [ExperienceSeverityInfo; ExperienceSeverityWarning; ExperienceSeverityCritical].

Definition normalizeSubscriptionRecord (r : SubscriptionRecord) : SubscriptionRecord :=
  let unit := NormalizeBillingPeriodUnit (su_BillingPeriodUnit r) in
  let unit := if unit =s "" then DefaultBillingPeriodUnit else unit in
  let length := if su_BillingPeriodLength r <=? 0
                then if (0 <? su_BillingMonths r) && (unit =s BillingPeriodMonth) then su_BillingMonths r
                     else DefaultBillingPeriodLength
                else su_BillingPeriodLength r in
  let months := if su_BillingMonths r <=? 0 then BillingMonthsForPeriod unit length else su_BillingMonths r in
  let cycle := strings_TrimSpace (su_BillingCycle r) in
  let cycle := if cycle =s "" then BillingCycleForPeriod unit length else cycle in
  let mode := NormalizeRenewalMode (su_RenewalMode r) in
  let mode := if mode =s "" then RenewalModeFromLegacyFlags (su_AutoRenew r) (su_AutoRenewCancelled r) else mode in
  let flags := LegacyRenewalFlags mode in {|
    su_SubscriptionID := strings_TrimSpace (su_SubscriptionID r); su_VPSID := NormalizeVPSID (su_VPSID r);
    su_Price := su_Price r; su_Currency := NormalizeCurrency (su_Currency r); su_BillingCycle := cycle;
    su_BillingMonths := months; su_BillingPeriodUnit := unit; su_BillingPeriodLength := length;
    su_MonthlyPrice := su_MonthlyPrice r; su_StartedAt := su_StartedAt r; su_RenewAt := su_RenewAt r;
    su_AutoRenew := flags.1; su_AutoRenewCancelled := flags.2; su_RenewalMode := mode;
    su_Status := strings_TrimSpace (su_Status r); su_PaymentMethod := su_PaymentMethod r;
    su_DisplayName := su_DisplayName r; su_CostCategory := su_CostCategory r; su_Labels := su_Labels r;
    su_TrialEndsAt := su_TrialEndsAt r; su_EndsAt := su_EndsAt r; su_Note := su_Note r;
    su_CreatedAt := su_CreatedAt r; su_UpdatedAt := su_UpdatedAt r |}.

Definition NormalizeCreatePriceHistoryInput (input : CreatePriceHistoryInput) : CreatePriceHistoryInput := {|
  cp_From := normalizeSubscriptionRecord (cp_From input);
  cp_To := normalizeSubscriptionRecord (cp_To input);
  cp_ChangedAt := cp_ChangedAt input |}.

(** A check on both ends of a change. *)
Definition either (bad : SubscriptionRecord -> bool) (input : CreatePriceHistoryInput) : bool :=
  bad (cp_From input) || bad (cp_To input).

Definition ValidateCreatePriceHistoryInput (input : CreatePriceHistoryInput) : result () :=
  _ ← reject (either (fun r => strings_TrimSpace (su_SubscriptionID r) =s "") input)
        (invalidHistory "subscription_id is required");
  _ ← reject (negb (su_SubscriptionID (cp_From input) =s su_SubscriptionID (cp_To input)))
        (invalidHistory "subscription_id changed");
  _ ← reject (NormalizeVPSID (su_VPSID (cp_To input)) =s "") (invalidHistory "vps_id is required");
  _ ← reject (either (fun r => negb (IsValidPrice (su_Price r))) input) (invalidHistory "invalid price");
  _ ← reject (either (fun r => su_BillingMonths r <=? 0) input) (invalidHistory "invalid billing_months");
  _ ← reject (either (fun r => negb (IsValidBillingPeriodUnit (su_BillingPeriodUnit r))) input)
        (invalidHistory "invalid billing_period_unit");
  _ ← reject (either (fun r => su_BillingPeriodLength r <=? 0) input) (invalidHistory "invalid billing_period_length");
  _ ← reject (either (fun r => negb (IsValidCurrency (su_Currency r))) input) (invalidHistory "invalid currency");
  _ ← reject (either (fun r => negb (IsValidRenewalMode (su_RenewalMode r))) input) (invalidHistory "invalid renewal_mode");
  _ ← reject (either (fun r => negb (IsValidStatus (su_Status r))) input) (invalidHistory "invalid status");
  reject (set_and Time_IsZero (cp_ChangedAt input)) (invalidHistory "changed_at is required").

Definition NormalizeCreateExperienceLogInput (input : CreateExperienceLogInput) : CreateExperienceLogInput := {|
  ce_VPSID := NormalizeVPSID (ce_VPSID input); ce_Category := strings_TrimSpace (ce_Category input);
  ce_Severity := strings_TrimSpace (ce_Severity input); ce_Summary := strings_TrimSpace (ce_Summary input);
  ce_Details := strings_TrimSpace (ce_Details input); ce_OccurredAt := ce_OccurredAt input |}.

Definition ValidateCreateExperienceLogInput (input : CreateExperienceLogInput) : result () :=
  _ ← reject (NormalizeVPSID (ce_VPSID input) =s "") (invalidHistory "vps_id is required");
  _ ← reject (negb (IsValidExperienceCategory (ce_Category input))) (invalidHistory "invalid category");
  _ ← reject (negb (IsValidExperienceSeverity (ce_Severity input))) (invalidHistory "invalid severity");
  _ ← reject (strings_TrimSpace (ce_Summary input) =s "") (invalidHistory "summary is required");
  reject (set_and Time_IsZero (ce_OccurredAt input)) (invalidHistory "occurred_at is required").

Definition mapAssetHistoryWriteError (message : string) (err : error) : error :=
  match pg_code err with
  | Some code => if code =s "23503" then ErrAssetTimelineNotFound
                 else if code =s "23514" then ErrInvalidAssetHistoryInput
                 else ErrWrap "%s: %w" [message] [err]
  | None => ErrWrap "%s: %w" [message] [err]
  end.

(** * Comparison of records *)

Definition sameSubscriptionDate (left right : option Z) : bool :=
  match left, right with
  | Some l, Some r => Time_Equal l r
  | None, None => true
  | _, _ => false
  end.

Definition subscriptionPriceHistoryChanged (from to : SubscriptionRecord) : bool :=
  negb (f64_eq (su_Price from) (su_Price to)) || negb (su_Currency from =s su_Currency to)
  || negb (su_BillingCycle from =s su_BillingCycle to) || negb (su_BillingMonths from =? su_BillingMonths to)
  || negb (su_BillingPeriodUnit from =s su_BillingPeriodUnit to)
  || negb (su_BillingPeriodLength from =? su_BillingPeriodLength to)
  || negb (f64_eq (su_MonthlyPrice from) (su_MonthlyPrice to))
  || negb (sameSubscriptionDate (su_RenewAt from) (su_RenewAt to))
  || negb (Bool.eqb (su_AutoRenew from) (su_AutoRenew to))
  || negb (Bool.eqb (su_AutoRenewCancelled from) (su_AutoRenewCancelled to))
  || negb (su_RenewalMode from =s su_RenewalMode to) || negb (su_Status from =s su_Status to).

Definition su_with_updated (t : Z) (r : SubscriptionRecord) : SubscriptionRecord := {|
  su_SubscriptionID := su_SubscriptionID r; su_VPSID := su_VPSID r; su_Price := su_Price r;
  su_Currency := su_Currency r; su_BillingCycle := su_BillingCycle r; su_BillingMonths := su_BillingMonths r;
  su_BillingPeriodUnit := su_BillingPeriodUnit r; su_BillingPeriodLength := su_BillingPeriodLength r;
  su_MonthlyPrice := su_MonthlyPrice r; su_StartedAt := su_StartedAt r; su_RenewAt := su_RenewAt r;
  su_AutoRenew := su_AutoRenew r; su_AutoRenewCancelled := su_AutoRenewCancelled r;
  su_RenewalMode := su_RenewalMode r; su_Status := su_Status r; su_PaymentMethod := su_PaymentMethod r;
  su_DisplayName := su_DisplayName r; su_CostCategory := su_CostCategory r; su_Labels := su_Labels r;
  su_TrialEndsAt := su_TrialEndsAt r; su_EndsAt := su_EndsAt r; su_Note := su_Note r;
  su_CreatedAt := su_CreatedAt r; su_UpdatedAt := t |}.

Section Patch.
Context `{Env : SubscriptionEnv}.

(** * Writing the histories *)

Definition insert_price (io : subscription_io) (id : string) (input : CreatePriceHistoryInput) (db : subscription_db)
    : result (subscription_db * PriceHistoryRecord) :=
  let from := cp_From input in
  let to := cp_To input in
  _ ← statement (so_faults io) "insert price history" 0 no_wrap;
  fromPrice ← decimal numeric2 (su_Price from);
  toPrice ← decimal numeric2 (su_Price to);
  fromMonthly ← decimal numeric4 (su_MonthlyPrice from);
  toMonthly ← decimal numeric4 (su_MonthlyPrice to);
  _ ← reject (negb (is_set (sb_subscriptions db !! su_SubscriptionID to)) || negb (is_set (sb_vps db !! su_VPSID to)))
        (PgError "23503");
  let r := {|
    ph_PriceHistoryID := id; ph_SubscriptionID := su_SubscriptionID to; ph_VPSID := su_VPSID to;
    ph_FromPrice := fromPrice; ph_ToPrice := toPrice; ph_FromCurrency := su_Currency from;
    ph_ToCurrency := su_Currency to; ph_FromBillingCycle := su_BillingCycle from;
    ph_ToBillingCycle := su_BillingCycle to; ph_FromBillingMonths := su_BillingMonths from;
    ph_ToBillingMonths := su_BillingMonths to; ph_FromBillingPeriodUnit := su_BillingPeriodUnit from;
    ph_ToBillingPeriodUnit := su_BillingPeriodUnit to; ph_FromBillingPeriodLength := su_BillingPeriodLength from;
    ph_ToBillingPeriodLength := su_BillingPeriodLength to; ph_FromMonthlyPrice := fromMonthly;
    ph_ToMonthlyPrice := toMonthly; ph_FromRenewAt := NewDate <$> su_RenewAt from;
    ph_ToRenewAt := NewDate <$> su_RenewAt to; ph_FromAutoRenew := su_AutoRenew from;
    ph_ToAutoRenew := su_AutoRenew to; ph_FromAutoRenewCancelled := su_AutoRenewCancelled from;
    ph_ToAutoRenewCancelled := su_AutoRenewCancelled to; ph_FromRenewalMode := su_RenewalMode from;
    ph_ToRenewalMode := su_RenewalMode to; ph_FromStatus := su_Status from; ph_ToStatus := su_Status to;
    ph_ChangedAt := default (so_clock io) (cp_ChangedAt input); ph_CreatedAt := so_clock io |} in
  Ok (sb_with_prices (sb_prices db ++ [r]) db, r).

Definition createPriceHistory (io : subscription_io) (input : CreatePriceHistoryInput) (db : subscription_db)
    : result (subscription_db * PriceHistoryRecord) :=
  let input := NormalizeCreatePriceHistoryInput input in
  _ ← ValidateCreatePriceHistoryInput input;
  id ← map_error (fun e => ErrWrap "generate price history id: %w" [] [e]) (so_id io "ph");
  map_error (mapAssetHistoryWriteError "create price history for subscription %q") (insert_price io id input db).

Definition insert_log (io : subscription_io) (id : string) (input : CreateExperienceLogInput) (db : subscription_db)
    : result (subscription_db * ExperienceLogRecord) :=
  _ ← statement (so_faults io) "insert experience log" 0 no_wrap;
  _ ← reject (negb (is_set (sb_vps db !! ce_VPSID input))) (PgError "23503");
  let r := {|
    el_ExperienceLogID := id; el_VPSID := ce_VPSID input; el_Category := ce_Category input;
    el_Severity := ce_Severity input; el_Summary := ce_Summary input; el_Details := ce_Details input;
    el_OccurredAt := default (so_clock io) (ce_OccurredAt input); el_CreatedAt := so_clock io |} in
  Ok (sb_with_logs (sb_logs db ++ [r]) db, r).

Definition createExperienceLog (io : subscription_io) (input : CreateExperienceLogInput) (db : subscription_db)
    : result (subscription_db * ExperienceLogRecord) :=
  let input := NormalizeCreateExperienceLogInput input in
  _ ← ValidateCreateExperienceLogInput input;
  id ← map_error (fun e => ErrWrap "generate experience log id: %w" [] [e]) (so_id io "elog");
  map_error (mapAssetHistoryWriteError "create experience log for vps %q") (insert_log io id input db).

(** * The update *)

Definition opt_int4 (value : option Z) : result (option Z) :=
  match value with None => Ok None | Some z => z ← int4 z; Ok (Some z) end.

(** The row after the update; the monthly price is computed by the server when the price or the
    period is set. *)
Definition patched_row (clock : Z) (input : PatchInput) (months length : option Z) (price : option float64)
    (monthly : float64) (r : SubscriptionRecord) : SubscriptionRecord := {|
  su_SubscriptionID := su_SubscriptionID r; su_VPSID := default (su_VPSID r) (pi_VPSID input);
  su_Price := default (su_Price r) price; su_Currency := default (su_Currency r) (pi_Currency input);
  su_BillingCycle := default (su_BillingCycle r) (pi_BillingCycle input);
  su_BillingMonths := default (su_BillingMonths r) months;
  su_BillingPeriodUnit := default (su_BillingPeriodUnit r) (pi_BillingPeriodUnit input);
  su_BillingPeriodLength := default (su_BillingPeriodLength r) length; su_MonthlyPrice := monthly;
  su_StartedAt := match pi_StartedAt input with Some v => NewDate <$> v | None => su_StartedAt r end;
  su_RenewAt := match pi_RenewAt input with Some v => NewDate <$> v | None => su_RenewAt r end;
  su_AutoRenew := default (su_AutoRenew r) (pi_AutoRenew input);
  su_AutoRenewCancelled := default (su_AutoRenewCancelled r) (pi_AutoRenewCancelled input);
  su_RenewalMode := default (su_RenewalMode r) (pi_RenewalMode input);
  su_Status := default (su_Status r) (pi_Status input);
  su_PaymentMethod := default (su_PaymentMethod r) (pi_PaymentMethod input);
  su_DisplayName := default (su_DisplayName r) (pi_DisplayName input);
  su_CostCategory := default (su_CostCategory r) (pi_CostCategory input);
  su_Labels := default (su_Labels r) (pi_Labels input);
  su_TrialEndsAt := match pi_TrialEndsAt input with Some v => NewDate <$> v | None => su_TrialEndsAt r end;
  su_EndsAt := match pi_EndsAt input with Some v => NewDate <$> v | None => su_EndsAt r end;
  su_Note := default (su_Note r) (pi_Note input); su_CreatedAt := su_CreatedAt r; su_UpdatedAt := clock |}.

Definition update_row (io : subscription_io) (subscriptionID : string) (current : SubscriptionRecord)
    (input : PatchInput) (db : subscription_db) : result (subscription_db * SubscriptionRecord) :=
  months ← opt_int4 (pi_BillingMonths input);
  length ← opt_int4 (pi_BillingPeriodLength input);
  _ ← statement (so_faults io) "update subscription" 0 no_wrap;
  price ← match pi_Price input with None => Ok None | Some p => p ← decimal numeric2 p; Ok (Some p) end;
  monthly ← (if is_set (pi_Price input) || is_set (pi_BillingPeriodUnit input) || is_set (pi_BillingPeriodLength input)
             then match sql_monthly_price (default (su_Price current) (pi_Price input))
                          (default (su_BillingPeriodUnit current) (pi_BillingPeriodUnit input))
                          (default (su_BillingPeriodLength current) length) with
                  | Some m => Ok m
                  | None => Err (PgError "22003")
                  end
             else Ok (su_MonthlyPrice current));
  let r := patched_row (so_clock io) input months length price monthly current in
  _ ← subscription_constraints db r;
  Ok (sb_with_subscriptions (<[subscriptionID := r]> (sb_subscriptions db)) db, r).

Definition patchSubscriptionRow (io : subscription_io) (subscriptionID : string) (input : PatchInput)
    (db : subscription_db) : result (subscription_db * SubscriptionRecord) :=
  match sb_subscriptions db !! subscriptionID with
  | None => Err ErrSubscriptionNotFound
  | Some current => update_row io subscriptionID current input db
  end.

Definition record_price_change (io : subscription_io) (subscriptionID : string) (current record : SubscriptionRecord) (db : subscription_db)
    : result subscription_db :=
  if subscriptionPriceHistoryChanged current record then
    match createPriceHistory io {| cp_From := current; cp_To := record; cp_ChangedAt := None |} db with
    | Ok (db, _) => Ok db
    | Err e =>
        Err (if errors_Is InvalidAssetHistoryInputName e || errors_Is AssetTimelineNotFoundName e
             then ErrInvalidSubscriptionInput
             else ErrWrap "record price history for subscription %q: %w" [subscriptionID] [e])
    end
  else Ok db.

(** The JSON of two records without their time of update differs when the records do. *)
Definition record_revision (io : subscription_io) (lifecycle vpsID subscriptionID : string)
    (current record : SubscriptionRecord) (db : subscription_db) : result subscription_db :=
  if lifecycle =s LifecycleArchived then
    let before := su_with_updated Time_zero current in
    let after := su_with_updated Time_zero record in
    if decide (before = after) then Ok db
    else
      '(db, _) ← createExperienceLog io {|
          ce_VPSID := vpsID; ce_Category := ExperienceBilling; ce_Severity := ExperienceSeverityInfo;
          ce_Summary := "归档账单补充修订"; ce_Details := revision_json subscriptionID before after;
          ce_OccurredAt := None |} db;
      Ok db
  else Ok db.

Definition pi_without_vps (input : PatchInput) : PatchInput := {|
  pi_VPSID := None; pi_Price := pi_Price input; pi_Currency := pi_Currency input;
  pi_BillingCycle := pi_BillingCycle input; pi_BillingMonths := pi_BillingMonths input;
  pi_BillingPeriodUnit := pi_BillingPeriodUnit input; pi_BillingPeriodLength := pi_BillingPeriodLength input;
  pi_StartedAt := pi_StartedAt input; pi_RenewAt := pi_RenewAt input; pi_AutoRenew := pi_AutoRenew input;
  pi_AutoRenewCancelled := pi_AutoRenewCancelled input; pi_RenewalMode := pi_RenewalMode input;
  pi_Status := pi_Status input; pi_PaymentMethod := pi_PaymentMethod input; pi_DisplayName := pi_DisplayName input;
  pi_CostCategory := pi_CostCategory input; pi_Labels := pi_Labels input; pi_TrialEndsAt := pi_TrialEndsAt input;
  pi_EndsAt := pi_EndsAt input; pi_Note := pi_Note input |}.

(** The patch once the VPS is locked and the subscription is read. *)
Definition apply_patch (io : subscription_io) (lifecycle vpsID subscriptionID : string) (current : SubscriptionRecord)
    (input : PatchInput) (db : subscription_db) : result (subscription_db * SubscriptionRecord) :=
  let input := NormalizePatchAgainstRecord current input in
  input ← match pi_VPSID input with
          | Some v => if negb (v =s su_VPSID current) then Err ErrSubscriptionOwnershipChangeForbidden
                      else Ok (pi_without_vps input)
          | None => Ok input
          end;
  _ ← ValidatePatchInput input;
  if negb (HasChanges input) then Ok (db, current)
  else
    '(db, record) ← map_error (fun e => if errors_Is "subscription not found" e then ErrSubscriptionNotFound
                                        else subscription_error
                                               (fun e => ErrWrap "patch subscription %q: %w" [subscriptionID] [e]) e)
                      (patchSubscriptionRow io subscriptionID input db);
    db ← record_price_change io subscriptionID current record db;
    db ← record_revision io lifecycle vpsID subscriptionID current record db;
    Ok (db, record).

Definition patch_tx (io : subscription_io) (subscriptionID : string) (input : PatchInput) (db : subscription_db)
    : result (subscription_db * SubscriptionRecord) :=
  _ ← begin_tx io "begin subscription patch transaction: %w";
  _ ← statement (so_faults io) "read vps" 0
        (fun e => ErrWrap "query subscription %q before locking its vps: %w" [subscriptionID] [e]);
  match sb_subscriptions db !! subscriptionID with
  | None => Err ErrSubscriptionNotFound
  | Some row =>
      let vpsID := su_VPSID row in
      lifecycle ← map_error (fun e => ErrWrap "lock vps %q before subscription patch: %w" [vpsID] [e])
                    (lockAssetVPSLifecycle io vpsID db);
      match lifecycle with
      | None => Err ErrSubscriptionNotFound
      | Some lifecycle =>
          _ ← statement (so_faults io) "read subscription" 0
                (fun e => ErrWrap "query subscription %q before patch: %w" [subscriptionID] [e]);
          match sb_subscriptions db !! subscriptionID with
          | None => Err ErrSubscriptionNotFound
          | Some current =>
              _ ← reject (negb (su_VPSID current =s vpsID)) ErrSubscriptionOwnershipChangeForbidden;
              apply_patch io lifecycle vpsID subscriptionID current input db
          end
      end
  end.

Definition patchSubscriptionInTransaction (io : subscription_io) (subscriptionID : string) (input : PatchInput)
    (db : subscription_db) : subscription_db * result SubscriptionRecord :=
  transaction (so_commit io) (fun e => ErrWrap "commit subscription patch transaction: %w" [] [e]) db
    (patch_tx io subscriptionID input db).

Definition PatchSubscription (io : subscription_io) (subscriptionID : string) (input : PatchInput)
    (db : subscription_db) : subscription_db * result SubscriptionRecord :=
  let input := NormalizePatchInput input in
  match ValidatePatchInput input with
  | Err e => (db, Err e)
  | Ok _ => if negb (HasChanges input) then (db, GetSubscription io subscriptionID db)
            else patchSubscriptionInTransaction io subscriptionID input db
  end.
End Patch.
