(* ===== verification/SubscriptionStoreProps.v ===== *)
(** Properties of the repository of subscriptions: stored rows stay well formed under every operation,
    failure and lost commit; a creation under an idempotency key takes effect once; a patch keeps the
    owner and leaves its trail in the histories. *)
From stdpp Require Import base list strings gmap fin_maps.
From Stdlib Require Import ZArith Lia.
From S2P Require Import Prelude GoRuntime Settings Calendar CaseMaps Postgres Subscriptions SubscriptionStore SubscriptionPatch.

Local Open Scope Z_scope.
#[local] Set Warnings "-clear-no-such-hyp".

(** * Well-formed rows *)

Definition renewal_modes : list string := [RenewalModeAuto; RenewalModeManual; RenewalModeAutoCancelled].
Definition period_units : list string := [BillingPeriodDay; BillingPeriodWeek; BillingPeriodMonth; BillingPeriodYear].

(** What a stored subscription promises: a period whose months are those of its unit and length, a
    renewal mode whose two flags are those of the mode, a known status, a currency code. *)
Record row_ok (r : SubscriptionRecord) : Prop := {
  ro_unit : su_BillingPeriodUnit r ∈ period_units;
  ro_length : 0 < su_BillingPeriodLength r <= 2147483647;
  ro_months : su_BillingMonths r = BillingMonthsForPeriod (su_BillingPeriodUnit r) (su_BillingPeriodLength r);
  ro_months_pos : 0 < su_BillingMonths r;
  ro_mode : su_RenewalMode r ∈ renewal_modes;
  ro_flags : (su_AutoRenew r, su_AutoRenewCancelled r) = LegacyRenewalFlags (su_RenewalMode r);
  ro_status : IsValidStatus (su_Status r) = true;
  ro_currency : IsValidCurrency (su_Currency r) = true;
}.

(** Rows carry their key and belong to a VPS; a receipt names a stored subscription, and no two
    receipts the same one. *)
Record store_ok (db : subscription_db) : Prop := {
  so_rows : forall id r, sb_subscriptions db !! id = Some r ->
              su_SubscriptionID r = id /\ row_ok r /\ is_Some (sb_vps db !! su_VPSID r);
  so_receipts : forall k d id, sb_receipts db !! k = Some (d, id) -> is_Some (sb_subscriptions db !! id);
  so_receipts_inj : forall k d id k' d', sb_receipts db !! k = Some (d, id) ->
                      sb_receipts db !! k' = Some (d', id) -> k' = k;
}.

Section Props.
Context `{Env : SubscriptionEnv}.

Lemma constraints_ok db r : subscription_constraints db r = Ok tt ->
  is_Some (sb_vps db !! su_VPSID r) /\ 0 < su_BillingMonths r /\ IsValidCurrency (su_Currency r) = true
  /\ IsValidStatus (su_Status r) = true /\ su_BillingPeriodUnit r ∈ period_units
  /\ 0 < su_BillingPeriodLength r /\ su_RenewalMode r ∈ renewal_modes.
Proof.
  unfold subscription_constraints. intros H. do 7 ok_step H. ok_step H.
  rewrite negb_false_iff in *. apply member_spec in Hok4, H. unfold is_set in Hok.
  destruct (sb_vps db !! su_VPSID r) eqn:E; [|done].
  split_and!; [by eexists|by apply Z.leb_gt|done|done|done|by apply Z.leb_gt|done].
Qed.

(** * Creation *)

(** What normalisation settles about the period and the renewal of a creation. *)
Definition create_settled (n : CreateInput) : Prop :=
  (0 < ci_BillingPeriodLength n ->
     ci_BillingMonths n = BillingMonthsForPeriod (ci_BillingPeriodUnit n) (ci_BillingPeriodLength n))
  /\ (ci_AutoRenew n, ci_AutoRenewCancelled n) = LegacyRenewalFlags (ci_RenewalMode n).

Lemma normalize_create_period input : create_settled (NormalizeCreateInput input).
Proof.
  unfold create_settled, NormalizeCreateInput. cbv zeta.
  cbn [ci_BillingPeriodLength ci_BillingMonths ci_BillingPeriodUnit ci_AutoRenew ci_AutoRenewCancelled ci_RenewalMode].
  split; [|by destruct (LegacyRenewalFlags _)]. intros H. apply Z.ltb_lt in H. by rewrite H.
Qed.

Lemma insert_row_ok io id n db db' r : create_settled n -> insert_row io id n db = Ok (db', r) ->
  sb_subscriptions db !! id = None /\ db' = sb_with_subscriptions (<[id := r]> (sb_subscriptions db)) db
  /\ su_SubscriptionID r = id /\ su_VPSID r = ci_VPSID n /\ row_ok r /\ is_Some (sb_vps db !! su_VPSID r).
Proof.
  intros [Hmonths Hflags]. unfold insert_row. intros H. do 6 ok_step H.
  destruct (sb_subscriptions db !! id) eqn:Eid; [done|]. injection H as <- Hr.
  apply int4_ok in Hok0 as [-> _], Hok1 as [-> Hlen].
  destruct x4. apply constraints_ok in Hok4 as (Hv & Hm & Hc & Hs & Hu & Hl & Hmode).
  cbn in *. subst r. split_and!; [done..| |done]. constructor; cbn; [done|lia|by apply Hmonths|done..].
Qed.

(** A new row, and a new row with the receipt of its key. *)
Definition row_added (db db' : subscription_db) (r : SubscriptionRecord) : Prop :=
  sb_subscriptions db !! su_SubscriptionID r = None /\ row_ok r /\ is_Some (sb_vps db !! su_VPSID r)
  /\ db' = sb_with_subscriptions (<[su_SubscriptionID r := r]> (sb_subscriptions db)) db.

Definition row_and_receipt_added (key digest : string) (db db' : subscription_db) (r : SubscriptionRecord) : Prop :=
  exists db1, row_added db db1 r /\ sb_receipts db !! key = None
    /\ db' = sb_with_receipts (<[key := (digest, su_SubscriptionID r)]> (sb_receipts db)) db1.

Lemma insertSubscription_ok io n db db' r : create_settled n -> insertSubscription io n db = Ok (db', r) ->
  row_added db db' r /\ su_VPSID r = ci_VPSID n.
Proof.
  intros Hn H. unfold insertSubscription in H. ok_step H. apply map_error_ok in H.
  apply (insert_row_ok _ _ _ _ _ _ Hn) in H as (H1 & H2 & <- & H4 & H5 & H6).
  split; [|done]. by unfold row_added; split_and!.
Qed.

Lemma create_with_key_ok io n key digest db db' out : create_settled n ->
  create_with_key io n key digest db = Ok (db', out) ->
  out.2 = false /\ row_and_receipt_added key digest db db' out.1 /\ su_VPSID out.1 = ci_VPSID n.
Proof.
  intros Hn H. unfold create_with_key in H. ok_step H. ok_step H. destruct x0 as [db1 r]. ok_step H.
  injection H as <- <-. simpl. apply (insertSubscription_ok _ _ _ _ _ Hn) in Hok0 as [Hrow Hv].
  apply map_error_ok in Hok1. unfold insert_receipt_row in Hok1. ok_step Hok1.
  destruct (sb_receipts db1 !! key) eqn:E; [done|]. injection Hok1 as <-.
  pose proof Hrow as (_ & _ & _ & Hdb). split_and!; [done| |done]. exists db1.
  split; [done|]. by rewrite Hdb in E |- *.
Qed.

Lemma replay_creation_ok io n digest d id db db' out : replay_creation io n digest d id db = Ok (db', out) ->
  db' = db /\ out.2 = true /\ sb_subscriptions db !! id = Some out.1 /\ d = digest /\ su_VPSID out.1 = ci_VPSID n.
Proof.
  unfold replay_creation. intros H. ok_step H. ok_step H. destruct (sb_subscriptions db !! id) as [r|]; [|done].
  ok_step H. injection H as <- <-. rewrite negb_false_iff in *. by split_and!; [..|apply String.eqb_eq|apply String.eqb_eq].
Qed.

(** What the two creations do to the tables, whatever they answer. *)
Lemma CreateSubscription_effect io input db db' res : CreateSubscription io input db = (db', res) ->
  db' = db \/ exists r, row_added db db' r.
Proof.
  unfold CreateSubscription. destruct (ValidateCreateInput _) as [u|e]; [|intros [= <- _]; by left].
  intros H%transaction_inv. destruct H as [[-> _]|(r & Hb & _)]; [by left|]. right.
  ok_step Hb. ok_step Hb. apply insertSubscription_ok in Hb as [Hb _]; [by exists r|apply normalize_create_period].
Qed.

(** The key and the digest of a request that passes the checks. *)
Definition admitted_key (input : CreateInput) (idempotencyKey : string) : result (string * string) :=
  _ ← ValidateCreateInput (NormalizeCreateInput input); key ← NormalizeIdempotencyKey idempotencyKey;
  digest ← CreateRequestDigest (NormalizeCreateInput input); Ok (key, digest).

Lemma CreateSubscriptionIdempotent_effect io input idempotencyKey db db' res :
  CreateSubscriptionIdempotent io input idempotencyKey db = (db', res) ->
  (db' = db /\ forall r replayed, res = Ok (r, replayed) -> exists key digest id,
     admitted_key input idempotencyKey = Ok (key, digest) /\ replayed = true
     /\ sb_receipts db !! key = Some (digest, id) /\ sb_subscriptions db !! id = Some r)
  \/ exists key digest r, admitted_key input idempotencyKey = Ok (key, digest)
       /\ row_and_receipt_added key digest db db' r /\ su_VPSID r = ci_VPSID (NormalizeCreateInput input)
       /\ ((exists e, res = Err e) \/ res = Ok (r, false)).
Proof.
  unfold CreateSubscriptionIdempotent, admitted_key. cbv zeta.
  destruct (_ ≫= _) as [[key digest]|e] eqn:Ea; [|intros [= <- <-]; left; by split].
  intros H%transaction_inv. destruct H as [[-> [e ->]]|([r rep] & Hb & Hres)]; [left; by split|].
  ok_step Hb. ok_step Hb. ok_step Hb. destruct (sb_receipts db !! key) as [[d id]|] eqn:Ek.
  - apply replay_creation_ok in Hb as (-> & Hrep & Hid & -> & _). simpl in *. subst rep. left. split; [done|].
    intros r' rep' ->. destruct Hres as [[_ [= -> ->]]|[e ?]]; [|done]. by exists key, digest, id.
  - apply create_with_key_ok in Hb as (Hrep & Hadd & Hv); [|apply normalize_create_period]. simpl in *. subst rep.
    right. exists key, digest, r. split_and!; [done..|]. destruct Hres as [[_ ->]|?]; auto.
Qed.

Lemma store_add_row db db' r : store_ok db -> row_added db db' r -> store_ok db'.
Proof.
  intros [H1 H2 H3] (Hf & Hr & Hv & ->). constructor; simpl.
  - intros id r' H. apply lookup_insert_Some in H as [[<- <-]|[_ H]]; [by split_and!|by apply H1].
  - intros k d id H. apply lookup_insert_is_Some'. right. by eapply H2.
  - done.
Qed.

Lemma store_add_receipt key digest db db' r : store_ok db -> row_and_receipt_added key digest db db' r -> store_ok db'.
Proof.
  intros Hs (db1 & Hrow & Hk & ->). pose proof (store_add_row _ _ _ Hs Hrow) as [H1 H2 H3].
  destruct Hrow as (Hf & _ & _ & ->). simpl in *.
  assert (forall k d, sb_receipts db !! k = Some (d, su_SubscriptionID r) -> False) as Hfresh.
  { intros k d H. apply (so_receipts _ Hs) in H. rewrite Hf in H. by destruct H. }
  constructor; simpl; [done|..].
  - intros k d id H. apply lookup_insert_Some in H as [[<- [= <- <-]]|[_ H]]; [|by eapply H2].
    by rewrite lookup_insert_eq.
  - intros k d id k' d' Ha Hb.
    apply lookup_insert_Some in Ha as [[<- [= <- <-]]|[_ Ha]], Hb as [[<- Hb]|[_ Hb]]; [done|by apply Hfresh in Hb| |by eapply H3].
    injection Hb as -> <-. by apply Hfresh in Ha.
Qed.

(** * Patches *)

(** What normalisation settles about the period and the renewal of a patch: all of the period or
    none of it, and both flags with their mode or none of the three. *)
Definition patch_period (p : PatchInput) : Prop :=
  (pi_BillingMonths p = None /\ pi_BillingPeriodUnit p = None /\ pi_BillingPeriodLength p = None)
  \/ exists u l, pi_BillingPeriodUnit p = Some u /\ pi_BillingPeriodLength p = Some l
       /\ (0 < l -> pi_BillingMonths p = Some (BillingMonthsForPeriod u l)).

Definition patch_renewal (p : PatchInput) : Prop :=
  (pi_RenewalMode p = None /\ pi_AutoRenew p = None /\ pi_AutoRenewCancelled p = None)
  \/ exists m, pi_RenewalMode p = Some m /\ pi_AutoRenew p = Some (LegacyRenewalFlags m).1
       /\ pi_AutoRenewCancelled p = Some (LegacyRenewalFlags m).2.

Lemma normalize_patch_period q : patch_period (NormalizePatchInput q).
Proof.
  unfold patch_period, NormalizePatchInput. cbv zeta. cbn [pi_BillingMonths pi_BillingPeriodUnit pi_BillingPeriodLength].
  destruct (normalize_period q) as [[u l]|] eqn:E; cbn [fmap option_fmap option_map fst snd].
  - right. exists u, l. split_and!; [done..|]. intros Hl. apply Z.ltb_lt in Hl. by rewrite Hl.
  - left. split_and!; [|done..]. unfold normalize_period in E.
    by destruct (pi_BillingMonths q), (pi_BillingPeriodUnit q), (pi_BillingPeriodLength q).
Qed.

Lemma renewal_modes_settled m : m ∈ renewal_modes -> NormalizeRenewalMode m = m.
Proof.
  unfold renewal_modes. rewrite !elem_of_cons.
  intros [->|[->|[->|H]]]; [vm_compute; reflexivity..|by apply not_elem_of_nil in H].
Qed.

Lemma normalize_patch_against current q : su_RenewalMode current ∈ renewal_modes ->
  patch_period (NormalizePatchAgainstRecord current q) /\ patch_renewal (NormalizePatchAgainstRecord current q).
Proof.
  intros Hm. unfold NormalizePatchAgainstRecord. pose proof (normalize_patch_period q) as Hp.
  assert (forall m, pi_RenewalMode (NormalizePatchInput q) = Some m -> patch_renewal (NormalizePatchInput q)) as Hset.
  { intros m H. right. exists m. unfold NormalizePatchInput in *. cbn in H |- *.
    destruct (pi_RenewalMode q); [|done]. cbn in *. by injection H as ->. }
  set (n := NormalizePatchInput q) in *. clearbody n.
  rewrite (renewal_modes_settled _ Hm). apply member_spec in Hm.
  change (member (su_RenewalMode current) [RenewalModeAuto; RenewalModeManual; RenewalModeAutoCancelled])
    with (member (su_RenewalMode current) renewal_modes). rewrite Hm.
  assert (forall mode, patch_period (pi_with_renewal (Some mode) (LegacyRenewalFlags mode).1 (LegacyRenewalFlags mode).2 n)
    /\ patch_renewal (pi_with_renewal (Some mode) (LegacyRenewalFlags mode).1 (LegacyRenewalFlags mode).2 n)) as Hw.
  { intros mode. split; [exact Hp|]. right. by exists mode. }
  destruct (pi_RenewalMode n) eqn:E1; [split; [done|by eapply Hset]|].
  destruct (pi_AutoRenew n) eqn:E2, (pi_AutoRenewCancelled n) eqn:E3; [apply Hw..|]. split; [done|]. by left.
Qed.

Lemma patch_without_vps p : patch_period p -> patch_renewal p ->
  patch_period (pi_without_vps p) /\ patch_renewal (pi_without_vps p).
Proof. done. Qed.

Lemma validate_patch_length p l : ValidatePatchInput p = Ok tt -> pi_BillingPeriodLength p = Some l -> 0 < l.
Proof.
  unfold ValidatePatchInput. intros H Hl. do 5 ok_step H. rewrite Hl in Hok3. simpl in Hok3. by apply Z.leb_gt.
Qed.

Lemma opt_int4_ok v v' : opt_int4 v = Ok v' -> v' = v /\ forall z, v = Some z -> z <= 2147483647.
Proof.
  unfold opt_int4. destruct v as [z|]; [|by intros [= <-]]. intros H. ok_step H. injection H as <-.
  apply int4_ok in Hok as [-> ?]. split; [done|]. intros z' [= <-]. lia.
Qed.

Lemma patched_row_ok clock p months length price monthly r db :
  row_ok r -> patch_period p -> patch_renewal p -> ValidatePatchInput p = Ok tt ->
  opt_int4 (pi_BillingMonths p) = Ok months -> opt_int4 (pi_BillingPeriodLength p) = Ok length ->
  subscription_constraints db (patched_row clock p months length price monthly r) = Ok tt ->
  row_ok (patched_row clock p months length price monthly r).
Proof.
  intros Hr Hp Hn Hv [-> _]%opt_int4_ok [-> Hl]%opt_int4_ok Hc.
  apply constraints_ok in Hc as (_ & Hm & Hcur & Hs & Hu & Hlen & Hmode).
  assert (forall l, pi_BillingPeriodLength p = Some l -> 0 < l) as Hpos by (intros l E; by eapply validate_patch_length).
  destruct Hr as [R1 R2 R3 R4 R5 R6 R7 R8]. cbn in *. constructor; cbn; try done.
  - split; [done|]. destruct (pi_BillingPeriodLength p) as [l|]; simpl; [by apply Hl|lia].
  - destruct Hp as [(-> & -> & ->)|(u & l & -> & El & Hb)]; [done|]. rewrite El. by rewrite (Hb (Hpos _ El)).
  - destruct Hn as [(-> & -> & ->)|(m & -> & -> & ->)]; [done|]. simpl. by destruct (LegacyRenewalFlags m).
Qed.

(** * The trail of a patch *)

Definition status_words : list string := [StatusActive; StatusPaused; StatusCancelled; StatusExpired; StatusUnknown].

Lemma row_words_settled r : row_ok r ->
  NormalizeBillingPeriodUnit (su_BillingPeriodUnit r) = su_BillingPeriodUnit r /\ su_BillingPeriodUnit r <> ""
  /\ su_RenewalMode r <> "" /\ strings_TrimSpace (su_Status r) = su_Status r
  /\ NormalizeCurrency (su_Currency r) = su_Currency r.
Proof.
  intros [Hu _ _ _ Hm _ Hs Hc]. unfold IsValidStatus in Hs. apply member_spec in Hs.
  unfold period_units, renewal_modes in *. rewrite !elem_of_cons in *.
  split_and!.
  - destruct Hu as [->|[->|[->|[->|H]]]]; [vm_compute; reflexivity..|by apply not_elem_of_nil in H].
  - destruct Hu as [->|[->|[->|[->|H]]]]; [done..|by apply not_elem_of_nil in H].
  - destruct Hm as [->|[->|[->|H]]]; [done..|by apply not_elem_of_nil in H].
  - destruct Hs as [->|[->|[->|[->|[->|H]]]]]; [vm_compute; reflexivity..|by apply not_elem_of_nil in H].
  - exact (upper_word_id _ Hc).
Qed.

(** The row of price_histories between two states of a subscription. *)
Record price_change (clock : Z) (from to : SubscriptionRecord) (p : PriceHistoryRecord) : Prop := {
  pc_subscription : ph_SubscriptionID p = strings_TrimSpace (su_SubscriptionID to);
  pc_vps : ph_VPSID p = strings_TrimSpace (su_VPSID to);
  pc_from_price : numeric2 (su_Price from) = Some (ph_FromPrice p);
  pc_to_price : numeric2 (su_Price to) = Some (ph_ToPrice p);
  pc_currencies : ph_FromCurrency p = su_Currency from /\ ph_ToCurrency p = su_Currency to;
  pc_units : ph_FromBillingPeriodUnit p = su_BillingPeriodUnit from /\ ph_ToBillingPeriodUnit p = su_BillingPeriodUnit to;
  pc_lengths : ph_FromBillingPeriodLength p = su_BillingPeriodLength from
               /\ ph_ToBillingPeriodLength p = su_BillingPeriodLength to;
  pc_months : ph_FromBillingMonths p = su_BillingMonths from /\ ph_ToBillingMonths p = su_BillingMonths to;
  pc_modes : ph_FromRenewalMode p = su_RenewalMode from /\ ph_ToRenewalMode p = su_RenewalMode to;
  pc_renewals : ph_FromRenewAt p = NewDate <$> su_RenewAt from /\ ph_ToRenewAt p = NewDate <$> su_RenewAt to;
  pc_statuses : ph_FromStatus p = su_Status from /\ ph_ToStatus p = su_Status to;
  pc_clock : ph_ChangedAt p = clock;
}.

Lemma normalized_row r : row_ok r -> let n := normalizeSubscriptionRecord r in
  su_SubscriptionID n = strings_TrimSpace (su_SubscriptionID r) /\ su_VPSID n = strings_TrimSpace (su_VPSID r)
  /\ su_Price n = su_Price r /\ su_Currency n = su_Currency r /\ su_BillingPeriodUnit n = su_BillingPeriodUnit r
  /\ su_BillingPeriodLength n = su_BillingPeriodLength r /\ su_BillingMonths n = su_BillingMonths r
  /\ su_RenewalMode n = su_RenewalMode r /\ su_RenewAt n = su_RenewAt r /\ su_Status n = su_Status r.
Proof.
  intros Hr n. destruct (row_words_settled r Hr) as (Hu & Hu2 & Hm & Hs & Hc). destruct Hr as [_ R2 _ R4 R5 _ _ _].
  unfold n, normalizeSubscriptionRecord. cbv zeta. rewrite (renewal_modes_settled _ R5), Hu, Hs, Hc.
  apply String.eqb_neq in Hu2, Hm. rewrite Hu2, Hm.
  destruct (Z.leb_spec (su_BillingPeriodLength r) 0); [lia|]. destruct (Z.leb_spec (su_BillingMonths r) 0); [lia|]. done.
Qed.

Lemma insert_price_ok io id from to from' to' db db' p :
  let fields r n := su_Price n = su_Price r /\ su_Currency n = su_Currency r
    /\ su_BillingPeriodUnit n = su_BillingPeriodUnit r /\ su_BillingPeriodLength n = su_BillingPeriodLength r
    /\ su_BillingMonths n = su_BillingMonths r /\ su_RenewalMode n = su_RenewalMode r /\ su_RenewAt n = su_RenewAt r
    /\ su_Status n = su_Status r in
  fields from from' -> fields to to' -> su_SubscriptionID to' = strings_TrimSpace (su_SubscriptionID to) ->
  su_VPSID to' = strings_TrimSpace (su_VPSID to) ->
  insert_price io id {| cp_From := from'; cp_To := to'; cp_ChangedAt := None |} db = Ok (db', p) ->
  db' = sb_with_prices (sb_prices db ++ [p]) db /\ price_change (so_clock io) from to p.
Proof.
  intros fields (F3 & F4 & F5 & F6 & F7 & F8 & F9 & F10) (T3 & T4 & T5 & T6 & T7 & T8 & T9 & T10) T1 T2 H.
  unfold insert_price in H. cbn [cp_From cp_To cp_ChangedAt] in H. do 6 ok_step H. injection H as <- <-.
  split; [done|]. unfold decimal in *. rewrite F3 in Hok0. rewrite T3 in Hok1.
  constructor; cbn; rewrite ?F4, ?F5, ?F6, ?F7, ?F8, ?F9, ?F10, ?T1, ?T2, ?T4, ?T5, ?T6, ?T7, ?T8, ?T9, ?T10; try done.
  - destruct (numeric2 (su_Price from)); [by injection Hok0 as ->|done].
  - destruct (numeric2 (su_Price to)); [by injection Hok1 as ->|done].
Qed.

Lemma createPriceHistory_ok io from to db db' p : row_ok from -> row_ok to ->
  createPriceHistory io {| cp_From := from; cp_To := to; cp_ChangedAt := None |} db = Ok (db', p) ->
  db' = sb_with_prices (sb_prices db ++ [p]) db /\ price_change (so_clock io) from to p.
Proof.
  intros Hf Ht H. unfold createPriceHistory in H. ok_step H. ok_step H. apply map_error_ok in H.
  destruct (normalized_row _ Hf) as (_ & _ & F). destruct (normalized_row _ Ht) as (T1 & T2 & T).
  by apply (insert_price_ok _ _ _ _ _ _ _ _ _ F T T1 T2) in H.
Qed.

(** The tail a price change adds, and the tail a revision of an archived VPS adds. *)
Definition price_tail (clock : Z) (from to : SubscriptionRecord) (tail : list PriceHistoryRecord) : Prop :=
  if subscriptionPriceHistoryChanged from to then exists p, tail = [p] /\ price_change clock from to p else tail = [].

Definition revision_needed (lifecycle : option string) (from to : SubscriptionRecord) : Prop :=
  lifecycle = Some LifecycleArchived /\ su_with_updated Time_zero from <> su_with_updated Time_zero to.

Lemma record_price_change_ok io id from to db db' : row_ok from -> row_ok to ->
  record_price_change io id from to db = Ok db' ->
  exists tail, db' = sb_with_prices (sb_prices db ++ tail) db /\ price_tail (so_clock io) from to tail.
Proof.
  intros Hf Ht. unfold record_price_change, price_tail. destruct (subscriptionPriceHistoryChanged from to).
  - destruct (createPriceHistory _ _ _) as [[db1 p]|e] eqn:E; [|done]. intros [= <-].
    apply createPriceHistory_ok in E as [-> Hp]; [|done..]. exists [p]. split; [done|]. by exists p.
  - intros [= <-]. exists []. rewrite app_nil_r. by destruct db.
Qed.

Lemma record_revision_ok io lifecycle vps id from to db db' :
  record_revision io lifecycle vps id from to db = Ok db' ->
  exists tail, db' = sb_with_logs (sb_logs db ++ tail) db
    /\ (tail = [] \/ exists l, tail = [l] /\ el_VPSID l = strings_TrimSpace vps /\ el_Category l = ExperienceBilling)
    /\ (tail <> [] <-> revision_needed (Some lifecycle) from to).
Proof.
  unfold record_revision, revision_needed. destruct (lifecycle =s LifecycleArchived) eqn:El.
  - breflect. subst. case_decide as Hd.
    + intros [= <-]. exists []. rewrite app_nil_r. split_and!; [by destruct db|by left|].
      split; [done|]. by intros [_ ?].
    + intros H. ok_step H. destruct x as [db1 l]. injection H as <-. unfold createExperienceLog in Hok.
      ok_step Hok. ok_step Hok. apply map_error_ok in Hok. unfold insert_log in Hok. do 2 ok_step Hok.
      injection Hok as <- <-. eexists [_]. split_and!; [done| |].
      * right. eexists. split_and!; done.
      * split; [by split|done].
  - intros [= <-]. exists []. rewrite app_nil_r. split_and!; [by destruct db|by left|].
    split; [done|]. intros [[= ->] _]. by vm_compute in El.
Qed.
End Props.
