(* ===== verification/SubscriptionRuns.v ===== *)
(** Runs of the repository of subscriptions: creations, keyed creations and patches in any order, each
    with its own failures, and what holds after them. *)
From stdpp Require Import base list strings gmap fin_maps.
From Stdlib Require Import ZArith Lia.
From S2P Require Import Prelude GoRuntime Settings Calendar Postgres Subscriptions SubscriptionStore SubscriptionPatch SubscriptionStoreProps.

Local Open Scope Z_scope.
#[local] Set Warnings "-clear-no-such-hyp".

Section Runs.
Context `{Env : SubscriptionEnv}.

(** * One patch *)

(** What a patch that wrote did: one row replaced by a well-formed one of the same owner, the
    histories extended, nothing else. *)
Record patched (clock : Z) (id : string) (db db' : subscription_db) (cur rec : SubscriptionRecord) : Prop := {
  pd_rows : sb_subscriptions db' = <[id := rec]> (sb_subscriptions db);
  pd_receipts : sb_receipts db' = sb_receipts db;
  pd_vps : sb_vps db' = sb_vps db;
  pd_id : su_SubscriptionID rec = su_SubscriptionID cur;
  pd_owner : su_VPSID rec = su_VPSID cur;
  pd_created : su_CreatedAt rec = su_CreatedAt cur;
  pd_ok : row_ok rec;
  pd_prices : exists tail, sb_prices db' = sb_prices db ++ tail /\ price_tail clock cur rec tail;
  pd_logs : exists tail, sb_logs db' = sb_logs db ++ tail
              /\ (tail = [] \/ exists l, tail = [l] /\ el_VPSID l = strings_TrimSpace (su_VPSID cur)
                                          /\ el_Category l = ExperienceBilling)
              /\ (tail <> [] <-> revision_needed (sb_vps db !! su_VPSID cur) cur rec);
}.

Lemma update_row_ok io id cur p db db' rec : row_ok cur -> patch_period p -> patch_renewal p ->
  ValidatePatchInput p = Ok tt -> pi_VPSID p = None -> update_row io id cur p db = Ok (db', rec) ->
  db' = sb_with_subscriptions (<[id := rec]> (sb_subscriptions db)) db /\ row_ok rec
  /\ su_SubscriptionID rec = su_SubscriptionID cur /\ su_VPSID rec = su_VPSID cur /\ su_CreatedAt rec = su_CreatedAt cur.
Proof.
  intros Hr Hp Hn Hv Ho H. unfold update_row in H. do 6 ok_step H. destruct x4. injection H as <- <-.
  split_and!; [done| |done| |done].
  - by apply (patched_row_ok _ _ _ _ _ _ _ db).
  - cbn. by rewrite Ho.
Qed.

Lemma apply_patch_ok io lifecycle id cur input db db' rec :
  row_ok cur -> sb_subscriptions db !! id = Some cur -> sb_vps db !! su_VPSID cur = Some lifecycle ->
  apply_patch io lifecycle (su_VPSID cur) id cur input db = Ok (db', rec) ->
  (db' = db /\ rec = cur) \/ patched (so_clock io) id db db' cur rec.
Proof.
  intros Hr Hid Hl H. unfold apply_patch in H. destruct (normalize_patch_against cur input (ro_mode _ Hr)) as [Hp Hn].
  set (n := NormalizePatchAgainstRecord cur input) in *. ok_step H.
  assert (patch_period x /\ patch_renewal x /\ pi_VPSID x = None) as (Hp' & Hn' & Ho).
  { destruct (pi_VPSID n) as [v|] eqn:E; [|by injection Hok as <-]. destruct (negb _); [done|].
    injection Hok as <-. split_and!; [done|done|done]. }
  clearbody n. clear Hp Hn Hok. ok_step H. destruct x0. destruct (HasChanges x); cbn [negb] in H; [|injection H as <- <-; by left].
  right. ok_step H. destruct x0 as [db1 r]. apply map_error_ok in Hok0. unfold patchSubscriptionRow in Hok0. rewrite Hid in Hok0.
  destruct (update_row_ok _ _ _ _ _ _ _ Hr Hp' Hn' Hok Ho Hok0) as (-> & Hrec & H1 & H2 & H3).
  ok_step H. apply record_price_change_ok in Hok1 as (tail & -> & Htail); [|done..].
  ok_step H. injection H as <- <-. apply record_revision_ok in Hok1 as (logs & -> & Hlogs & Hneed).
  constructor; cbn; try done; [by exists tail|]. exists logs. rewrite Hl. by split_and!.
Qed.

Lemma patch_tx_ok io id input db db' rec : store_ok db -> patch_tx io id input db = Ok (db', rec) ->
  exists cur, sb_subscriptions db !! id = Some cur
    /\ ((db' = db /\ rec = cur) \/ patched (so_clock io) id db db' cur rec).
Proof.
  intros Hs H. unfold patch_tx in H. do 2 ok_step H. destruct (sb_subscriptions db !! id) as [cur|] eqn:E; [|done].
  exists cur. split; [done|]. cbv zeta in H. ok_step H. destruct x1 as [lifecycle|]; [|done].
  do 2 ok_step H. apply map_error_ok in Hok1. unfold lockAssetVPSLifecycle in Hok1. ok_step Hok1. injection Hok1 as Hl.
  destruct (so_rows _ Hs _ _ E) as (_ & Hr & _). by apply (apply_patch_ok _ _ _ _ _ _ _ _ Hr E Hl) in H.
Qed.

(** What a patch does to the tables, whatever it answers. *)
Lemma PatchSubscription_effect io id input db db' res : store_ok db -> PatchSubscription io id input db = (db', res) ->
  db' = db \/ exists cur rec, sb_subscriptions db !! id = Some cur /\ patched (so_clock io) id db db' cur rec.
Proof.
  intros Hs. unfold PatchSubscription. destruct (ValidatePatchInput _); [|intros [= <- _]; by left].
  destruct (negb _); [intros [= <- _]; by left|]. unfold patchSubscriptionInTransaction.
  intros H%transaction_inv. destruct H as [[-> _]|(rec & H & _)]; [by left|].
  apply (patch_tx_ok _ _ _ _ _ _ Hs) in H as (cur & Hc & [[-> _]|Hp]); [by left|]. right. by exists cur, rec.
Qed.

Lemma store_patched clock id db db' cur rec : store_ok db -> sb_subscriptions db !! id = Some cur ->
  patched clock id db db' cur rec -> store_ok db'.
Proof.
  intros Hs Hid [P1 P2 P3 P4 P5 _ P7 _ _]. destruct (so_rows _ Hs _ _ Hid) as (Hk & _ & Hv).
  constructor.
  - intros id' r. rewrite P1, P3. intros H. apply lookup_insert_Some in H as [[<- <-]|[_ H]]; [|by apply (so_rows _ Hs)].
    rewrite P4, P5. by split_and!.
  - intros k d id'. rewrite P2, P1. intros H. apply lookup_insert_is_Some'. right. by eapply so_receipts.
  - intros k d id' k' d'. rewrite P2. by apply (so_receipts_inj _ Hs).
Qed.

(** * Runs *)

Inductive sub_op :=
| OpCreate (io : subscription_io) (input : CreateInput)
| OpCreateKeyed (io : subscription_io) (input : CreateInput) (key : string)
| OpPatch (io : subscription_io) (id : string) (input : PatchInput).

Definition apply_op (op : sub_op) (db : subscription_db) : subscription_db :=
  match op with
  | OpCreate io input => (CreateSubscription io input db).1
  | OpCreateKeyed io input key => (CreateSubscriptionIdempotent io input key db).1
  | OpPatch io id input => (PatchSubscription io id input db).1
  end.

Definition run_ops (ops : list sub_op) (db : subscription_db) : subscription_db := foldl (fun db op => apply_op op db) db ops.

(** Rows and receipts are never removed, an owner never changes. *)
Definition extends (db db' : subscription_db) : Prop :=
  (forall id r, sb_subscriptions db !! id = Some r ->
     exists r', sb_subscriptions db' !! id = Some r' /\ su_VPSID r' = su_VPSID r)
  /\ (forall k v, sb_receipts db !! k = Some v -> sb_receipts db' !! k = Some v)
  /\ sb_vps db' = sb_vps db.

#[global] Instance extends_preorder : PreOrder extends.
Proof.
  split.
  - intros db. unfold extends. split_and!; eauto.
  - intros a b c (H1 & H2 & H3) (H4 & H5 & H6). split_and!; [|eauto|congruence].
    intros id r H. apply H1 in H as (r' & H & E). apply H4 in H as (r'' & H & E'). exists r''. split; [done|congruence].
Qed.

Lemma extends_row db db' r : row_added db db' r -> extends db db'.
Proof.
  intros (Hf & _ & _ & ->). split_and!; [|done|done]. intros id r' H. exists r'. split; [|done]. simpl.
  rewrite lookup_insert_ne; [done|congruence].
Qed.

Lemma apply_op_ok op db : store_ok db -> store_ok (apply_op op db) /\ extends db (apply_op op db).
Proof.
  intros Hs. destruct op as [io input|io input key|io id input]; simpl.
  - destruct (CreateSubscription io input db) as [db' res] eqn:E.
    apply CreateSubscription_effect in E as [->|[r Hr]]; simpl; [by split|].
    split; [by eapply store_add_row|by eapply extends_row].
  - destruct (CreateSubscriptionIdempotent io input key db) as [db' res] eqn:E.
    apply CreateSubscriptionIdempotent_effect in E as [[-> _]|(k & d & r & _ & Hr & _)]; simpl; [by split|].
    split; [by eapply store_add_receipt|]. destruct Hr as (db1 & Hrow & Hk & ->).
    destruct (extends_row _ _ _ Hrow) as (H1 & H2 & H3). split_and!; [exact H1| |exact H3].
    intros k' v Hv. simpl. rewrite lookup_insert_ne; [done|congruence].
  - destruct (PatchSubscription io id input db) as [db' res] eqn:E.
    apply (PatchSubscription_effect _ _ _ _ _ _ Hs) in E as [->|(cur & rec & Hc & Hp)]; simpl; [by split|].
    split; [by eapply store_patched|]. destruct Hp as [P1 P2 P3 _ P5 _ _ _ _]. split_and!; [|by rewrite P2|done].
    intros id' r Hr. rewrite P1. destruct (decide (id' = id)) as [->|Hne].
    + exists rec. rewrite lookup_insert_eq. split; [done|]. congruence.
    + exists r. by rewrite lookup_insert_ne.
Qed.

Lemma run_ops_ok ops db : store_ok db -> store_ok (run_ops ops db) /\ extends db (run_ops ops db).
Proof.
  revert db. induction ops as [|op ops IH]; intros db Hs; [by split|]. simpl.
  destruct (apply_op_ok op db Hs) as [H1 H2]. destruct (IH _ H1) as [H3 H4]. split; [done|]. by etrans.
Qed.

(** * Well-formed rows *)

Definition empty_store (vps : gmap string string) : subscription_db := {|
  sb_vps := vps; sb_subscriptions := ∅; sb_receipts := ∅; sb_prices := []; sb_logs := [] |}.

Lemma empty_store_ok vps : store_ok (empty_store vps).
Proof. constructor; cbn; intros *; by rewrite lookup_empty. Qed.

(** C9: every subscription the repository ever stores is well typed, whatever
    requests arrive and whichever statements and commits fail: it carries its key and belongs to a VPS;
    its unit is one of the four, its length is positive and fits the column, and its months are those
    of the unit and the length; its renewal mode is one of the three and both flags are those of the
    mode; status and currency are valid.  The rule holds for creations and for every sequence of
    patches, partial ones included, and a receipt always names a stored subscription of its own. *)
Theorem subscriptions_well_formed vps ops :
  let db := run_ops ops (empty_store vps) in
  (forall id r, sb_subscriptions db !! id = Some r ->
     su_SubscriptionID r = id /\ is_Some (vps !! su_VPSID r)
     /\ su_BillingPeriodUnit r ∈ period_units /\ 0 < su_BillingPeriodLength r <= 2147483647
     /\ su_BillingMonths r = BillingMonthsForPeriod (su_BillingPeriodUnit r) (su_BillingPeriodLength r)
     /\ 0 < su_BillingMonths r /\ su_RenewalMode r ∈ renewal_modes
     /\ (su_AutoRenew r, su_AutoRenewCancelled r) = LegacyRenewalFlags (su_RenewalMode r)
     /\ IsValidStatus (su_Status r) = true /\ IsValidCurrency (su_Currency r) = true)
  /\ (forall k d id, sb_receipts db !! k = Some (d, id) ->
       is_Some (sb_subscriptions db !! id) /\ forall k' d', sb_receipts db !! k' = Some (d', id) -> k' = k).
Proof.
  intros db. destruct (run_ops_ok ops _ (empty_store_ok vps)) as [Hs (_ & _ & Hv)]. split.
  - intros id r H. destruct (so_rows _ Hs _ _ H) as (H1 & [R1 R2 R3 R4 R5 R6 R7 R8] & H2).
    rewrite Hv in H2. change (sb_vps (empty_store vps)) with vps in H2.
    split_and!; first [exact H1|exact H2|exact R1|exact R3|exact R5|exact R6|exact R7|exact R8|lia].
  - intros k d id H. split; [by eapply so_receipts|]. intros k' d' H'. by eapply so_receipts_inj.
Qed.

(** * Creation under a key *)

(** A call that meets no failure. *)
Definition undisturbed (io : subscription_io) : Prop := (forall what n, so_faults io what n = None) /\ so_commit io = Executed.

Lemma keyed_creation_replays io input idempotencyKey key digest id r db : undisturbed io ->
  admitted_key input idempotencyKey = Ok (key, digest) -> sb_receipts db !! key = Some (digest, id) ->
  sb_subscriptions db !! id = Some r -> su_VPSID r = ci_VPSID (NormalizeCreateInput input) ->
  CreateSubscriptionIdempotent io input idempotencyKey db = (db, Ok (r, true)).
Proof.
  intros [Hf Hc] Ha Hk Hid Hv. unfold CreateSubscriptionIdempotent, admitted_key in *. cbv zeta in *. rewrite Ha.
  unfold begin_tx, statement. rewrite !Hf, Hk. cbn [mbind result_bind is_set]. unfold replay_creation, statement.
  rewrite Hf, Hid, Hv, !String.eqb_refl. cbn [negb reject mbind result_bind]. rewrite Hc. reflexivity.
Qed.

(** C8: a keyed creation takes effect at most once.  Once a call under a key has
    changed the tables, whatever it answered (a lost commit included) and whatever other creations and
    patches follow: the same request under the same key answers with the subscription that call
    created, marked as replayed, and writes nothing; and no request under the key writes anything,
    a request with another digest never succeeds. *)
Theorem keyed_creation_once io input idempotencyKey db db1 res ops io2
    (Hdb : store_ok db) (Hfirst : CreateSubscriptionIdempotent io input idempotencyKey db = (db1, res))
    (Heffect : db1 <> db) (Hclean : undisturbed io2) :
  let db2 := run_ops ops db1 in
  exists id r, sb_subscriptions db !! id = None /\ sb_subscriptions db2 !! id = Some r
    /\ (forall first, res = Ok first -> first.2 = false /\ su_SubscriptionID first.1 = id)
    /\ CreateSubscriptionIdempotent io2 input idempotencyKey db2 = (db2, Ok (r, true))
    /\ forall io3 input3 key3, NormalizeIdempotencyKey key3 = NormalizeIdempotencyKey idempotencyKey ->
         (CreateSubscriptionIdempotent io3 input3 key3 db2).1 = db2
         /\ (CreateRequestDigest (NormalizeCreateInput input3) <> CreateRequestDigest (NormalizeCreateInput input) ->
              exists e, (CreateSubscriptionIdempotent io3 input3 key3 db2).2 = Err e).
Proof.
  intros db2. pose proof (apply_op_ok (OpCreateKeyed io input idempotencyKey) db Hdb) as [Hs1 _].
  cbn [apply_op] in Hs1. rewrite Hfirst in Hs1. simpl in Hs1.
  apply CreateSubscriptionIdempotent_effect in Hfirst as [[-> _]|(key & digest & r1 & Ha & Hadd & Hv & Hres)]; [done|].
  destruct Hadd as (db0 & (Hf & _ & _ & ->) & Hk & Hdb1).
  assert (sb_receipts db1 !! key = Some (digest, su_SubscriptionID r1)) as Hk1 by (rewrite Hdb1; simpl; apply lookup_insert_eq).
  assert (sb_subscriptions db1 !! su_SubscriptionID r1 = Some r1) as Hr1 by (rewrite Hdb1; simpl; apply lookup_insert_eq).
  destruct (run_ops_ok ops db1 Hs1) as [Hs2 (Hrows & Hkeys & _)]. fold db2 in Hs2, Hrows, Hkeys.
  apply Hkeys in Hk1. destruct (Hrows _ _ Hr1) as (r & Hr & Ho).
  exists (su_SubscriptionID r1), r. split_and!; [done..| | |].
  - intros first ->. destruct Hres as [[e ?]|[= ->]]; [done|]. by split.
  - eapply keyed_creation_replays; [done..|congruence].
  - intros io3 input3 key3 Hkey. destruct (CreateSubscriptionIdempotent io3 input3 key3 db2) as [db3 res3] eqn:E. simpl.
    pose proof Ha as Ha'. unfold admitted_key in Ha'. ok_step Ha'. ok_step Ha'. ok_step Ha'. injection Ha' as -> ->.
    apply CreateSubscriptionIdempotent_effect in E as [[-> Hrep]|(k3 & d3 & r3 & Ha3 & (? & _ & Hk3 & _) & _)].
    + split; [done|]. intros Hd. destruct res3 as [[r3 rep]|e]; [|by exists e].
      destruct (Hrep _ _ eq_refl) as (k3 & d3 & id3 & Ha3 & _ & Hk3 & _). unfold admitted_key in Ha3.
      ok_step Ha3. ok_step Ha3. ok_step Ha3. injection Ha3 as -> ->. congruence.
    + exfalso. unfold admitted_key in Ha3. ok_step Ha3. ok_step Ha3. ok_step Ha3. injection Ha3 as -> ->. congruence.
Qed.

(** * The trail of a patch *)

(** A patch changes one subscription and keeps its owner.  When it answers with
    a record, that record is the stored row, still well formed and of the same VPS and creation time;
    one price history row from the old to the new state is appended exactly when a billing fact
    changed, one billing note exactly when the VPS is archived and the row changed, and nothing else
    is touched.  When it answers with an error, the tables are as before unless the end of the commit
    was lost. *)
Theorem patch_leaves_trail io id input db db' res (Hdb : store_ok db)
    (Hcall : PatchSubscription io id input db = (db', res)) :
  match res with
  | Ok rec => exists cur, sb_subscriptions db !! id = Some cur
      /\ ((db' = db /\ rec = cur) \/ patched (so_clock io) id db db' cur rec)
  | Err _ => db' = db \/ exists e, so_commit io = ExecFailed e true
  end.
Proof.
  unfold PatchSubscription in Hcall. destruct (ValidatePatchInput _) as [u|e]; [|injection Hcall as <- <-; by left].
  destruct (negb _).
  { injection Hcall as <- <-. unfold GetSubscription.
    destruct (statement _ _ _ _); cbn [mbind result_bind]; [|by left].
    destruct (sb_subscriptions db !! id) as [cur|]; [|by left]. exists cur. split; [done|by left]. }
  unfold patchSubscriptionInTransaction, transaction, autocommit in Hcall.
  destruct (patch_tx io id (NormalizePatchInput input) db) as [[db1 rec]|e] eqn:E; [|injection Hcall as <- <-; by left].
  destruct (so_commit io) as [|e applied] eqn:Ec.
  - injection Hcall as <- <-. by apply (patch_tx_ok _ _ _ _ _ _ Hdb) in E.
  - injection Hcall as <- <-. destruct applied; [right; by exists e|by left].
Qed.
End Runs.

(** * Concrete subscriptions *)

(** Concrete subscriptions: the properties of the repository at real requests, a patch of the length of
    a period that also changes its unit, and a price with two decimals that is refused. *)

(** Decimals kept as they are; the digest of a request spells its fields. *)
#[local] Instance demo_subscription_env : SubscriptionEnv := {|
  numeric2 := Some; numeric4 := Some;
  sql_monthly_price := fun price unit length => Some (CalculateMonthlyPriceForPeriod price unit length);
  body_digest := fun body => Ok (db_VPSID body +:+ "/" +:+ db_DisplayName body +:+ "/" +:+ fmt_d (db_BillingMonths body))%string;
  revision_json := fun id _ _ => id |}.

Definition calm (id : string) (clock : Z) : subscription_io := {|
  so_faults := fun _ _ => None; so_id := fun prefix => Ok (prefix +:+ "_" +:+ id)%string; so_clock := clock;
  so_commit := Executed |}.
Definition lost_commit (id : string) (clock : Z) : subscription_io := {|
  so_faults := fun _ _ => None; so_id := fun prefix => Ok (prefix +:+ "_" +:+ id)%string; so_clock := clock;
  so_commit := ExecFailed (ErrNew "connection reset") true |}.

Definition yearly : CreateInput := {|
  ci_VPSID := " vps_1 "; ci_Price := f64_of_Z 120; ci_Currency := "usd"; ci_BillingCycle := ""; ci_BillingMonths := 0;
  ci_BillingPeriodUnit := "Year"; ci_BillingPeriodLength := 1; ci_StartedAt := None;
  ci_RenewAt := Some (Time_Date 2026 6 1); ci_AutoRenew := true; ci_AutoRenewCancelled := false; ci_RenewalMode := "";
  ci_Status := ""; ci_PaymentMethod := ""; ci_DisplayName := "box"; ci_CostCategory := ""; ci_Labels := [];
  ci_TrialEndsAt := None; ci_EndsAt := None; ci_Note := "" |}.

Definition length_patch : PatchInput := {|
  pi_VPSID := None; pi_Price := None; pi_Currency := None; pi_BillingCycle := None; pi_BillingMonths := None;
  pi_BillingPeriodUnit := None; pi_BillingPeriodLength := Some 2; pi_StartedAt := None; pi_RenewAt := None;
  pi_AutoRenew := None; pi_AutoRenewCancelled := None; pi_RenewalMode := None; pi_Status := None;
  pi_PaymentMethod := None; pi_DisplayName := None; pi_CostCategory := None; pi_Labels := None;
  pi_TrialEndsAt := None; pi_EndsAt := None; pi_Note := None |}.

Definition one_vps : subscription_db := empty_store {["vps_1" := "active"]}.
Definition key_1 : string := "key-00000001".

(** The first call loses its answer, a patch follows, the retry is answered from the receipt. *)
Lemma keyed_creation_once_witness : exists id r,
  (CreateSubscriptionIdempotent (calm "b" 3) yearly key_1
     (run_ops [OpPatch (calm "p" 2) "sub_a" length_patch]
        (CreateSubscriptionIdempotent (lost_commit "a" 1) yearly key_1 one_vps).1)).2 = Ok (r, true)
  /\ su_SubscriptionID r = id /\ sb_subscriptions one_vps !! id = None.
Proof.
  destruct (CreateSubscriptionIdempotent (lost_commit "a" 1) yearly key_1 one_vps) as [db1 res] eqn:E.
  assert (db1 <> one_vps) as Hne.
  { intros H. rewrite H in E. apply (f_equal (fun p => sb_receipts p.1 !! key_1)) in E. vm_compute in E. discriminate. }
  assert (undisturbed (calm "b" 3)) as Hc by (split; [intros what n; reflexivity|reflexivity]).
  destruct (keyed_creation_once (lost_commit "a" 1) yearly key_1 one_vps db1 res
    [OpPatch (calm "p" 2) "sub_a" length_patch] (calm "b" 3) (empty_store_ok _) E Hne Hc) as (id & r & H1 & H2 & _ & H4 & _).
  exists id, r. simpl fst. rewrite H4. split; [reflexivity|]. split; [|exact H1].
  destruct (run_ops_ok [OpPatch (calm "p" 2) "sub_a" length_patch] db1) as [Hs _].
  - pose proof (apply_op_ok (OpCreateKeyed (lost_commit "a" 1) yearly key_1) one_vps (empty_store_ok _)) as [Hs _].
    cbn [apply_op] in Hs. rewrite E in Hs. exact Hs.
  - exact (proj1 (so_rows _ Hs _ _ H2)).
Defined.

Definition created : subscription_db := (CreateSubscription (calm "a" 1) yearly one_vps).1.

Lemma created_ok : store_ok created.
Proof. exact (proj1 (apply_op_ok (OpCreate (calm "a" 1) yearly) one_vps (empty_store_ok _))). Qed.

Lemma patch_leaves_trail_witness : exists cur rec, sb_subscriptions created !! "sub_a" = Some cur
  /\ ((PatchSubscription (calm "p" 2) "sub_a" length_patch created).1 = created /\ rec = cur
      \/ patched 2 "sub_a" created (PatchSubscription (calm "p" 2) "sub_a" length_patch created).1 cur rec).
Proof.
  destruct (PatchSubscription (calm "p" 2) "sub_a" length_patch created) as [db' res] eqn:E.
  pose proof (patch_leaves_trail (calm "p" 2) "sub_a" length_patch created db' res created_ok E) as H.
  destruct res as [rec|e].
  - destruct H as (cur & H1 & H2). exists cur, rec. split; [exact H1|exact H2].
  - exfalso. apply (f_equal (fun p => match p.2 with Ok _ => true | Err _ => false end)) in E. vm_compute in E. discriminate.
Defined.

(** A patch that names only the length of the period of a yearly subscription makes it monthly: two
    years become two months. *)
Lemma length_patch_resets_unit :
  match sb_subscriptions created !! "sub_a", (PatchSubscription (calm "p" 2) "sub_a" length_patch created).2 with
  | Some before, Ok after =>
      su_BillingPeriodUnit before = "year" /\ su_BillingMonths before = 12
      /\ su_BillingPeriodUnit after = "month" /\ su_BillingPeriodLength after = 2 /\ su_BillingMonths after = 2
  | _, _ => False
  end.
Proof. vm_compute. repeat split. Qed.

(** 131072.02 has two decimals and is far below the limit, yet it is refused: times one hundred it is
    not within 1e-9 of an integer, the distance between neighbouring numbers of that size being
    larger. *)
Lemma two_decimal_price_rejected :
  f64_lt (f64_ratio 13107202 100) maxPrice = true /\ IsValidPrice (f64_ratio 13107202 100) = false
  /\ IsValidPrice (f64_ratio 13107203 100) = true.
Proof. vm_compute. repeat split. Qed.
