(* ===== verification/Programs.v ===== *)
(** Programs as trees of calls: a small free monad for code that talks to several services, so that
    one text of an operation can be run to its end against answers that follow one another, or one
    call at a time among other programs.  [follows] states that a program keeps a protocol
    whatever its calls answer. *)
From stdpp Require Import base list.
From S2P Require Import Prelude.

(** A program ends with a result or makes a call and goes on with its answer. *)
Inductive prog (E : Type -> Type) (A : Type) : Type :=
| Ret (a : A)
| Vis (R : Type) (c : E R) (k : R -> prog E A).
Arguments Ret {E A} a.
Arguments Vis {E A R} c k.

Section Programs.
Context {E : Type -> Type}.

Definition call {R} (c : E R) : prog E R := Vis c Ret.

Fixpoint bind {A B} (p : prog E A) (f : A -> prog E B) : prog E B :=
  match p with
  | Ret a => f a
  | Vis c k => Vis c (fun r => bind (k r) f)
  end.

(** A loop over a slice. *)
Fixpoint for_each {A} (l : list A) (body : A -> prog E unit) : prog E unit :=
  match l with
  | [] => Ret tt
  | a :: l => bind (body a) (fun _ => for_each l body)
  end.

(** A loop over a slice that builds a slice. *)
Fixpoint map_each {A B} (l : list A) (body : A -> prog E B) : prog E (list B) :=
  match l with
  | [] => Ret []
  | a :: l => bind (body a) (fun b => bind (map_each l body) (fun bs => Ret (b :: bs)))
  end.

(** * Running a program to its end *)

Section Exec.
Context {W : Type} (perform : forall R, nat -> E R -> W -> W * R).

(** The [n]-th call from the start meets the [n]-th answer of the environment. *)
Fixpoint exec {A} (p : prog E A) (n : nat) (w : W) : W * nat * A :=
  match p with
  | Ret a => (w, n, a)
  | Vis c k => let '(w', r) := perform _ n c w in exec (k r) (S n) w'
  end.

Lemma exec_bind {A B} (p : prog E A) (f : A -> prog E B) n w :
  exec (bind p f) n w = let '(w', n', a) := exec p n w in exec (f a) n' w'.
Proof.
  revert n w. induction p as [a|R c k IH]; intros n w; cbn; [done|].
  destruct (perform R n c w) as [w' r]. apply IH.
Qed.

(** A loop keeps what each of its turns keeps. *)
Lemma exec_for_each {A} (I : list A -> nat -> W -> Prop) (l : list A) (body : A -> prog E unit) n w :
  (forall done a rest n w, l = done ++ a :: rest -> I done n w ->
     let '(w', n', _) := exec (body a) n w in I (done ++ [a]) n' w') ->
  I [] n w -> let '(w', n', _) := exec (for_each l body) n w in I l n' w'.
Proof.
  intros Hstep H0. assert (forall rest before n w, l = before ++ rest -> I before n w ->
    let '(w', n', _) := exec (for_each rest body) n w in I l n' w') as Hgo; [|by apply (Hgo l [] n w)].
  intros rest. induction rest as [|a rest IH]; intros before m v Hl Hi; cbn [for_each].
  - cbn. rewrite app_nil_r in Hl. by subst.
  - rewrite exec_bind. specialize (Hstep before a rest m v Hl Hi).
    destruct (exec (body a) m v) as [[v' m'] u]. apply (IH (before ++ [a])); [|done].
    by rewrite <-app_assoc.
Qed.
End Exec.

(** * Protocols *)

Section Follows.
Context {S : Type} (pre : forall R, S -> E R -> Prop) (post : forall R, S -> E R -> R -> S).

(** In state [s] of the protocol a call is made only when [pre] allows it, and moves the protocol
    by [post]; at the end [Q] holds. *)
Fixpoint follows {A} (s : S) (p : prog E A) (Q : S -> A -> Prop) : Prop :=
  match p with
  | Ret a => Q s a
  | Vis c k => pre _ s c /\ forall r, follows (post _ s c r) (k r) Q
  end.

Lemma follows_mono {A} s (p : prog E A) (Q Q' : S -> A -> Prop) :
  (forall s a, Q s a -> Q' s a) -> follows s p Q -> follows s p Q'.
Proof.
  intros HQ. revert s. induction p as [a|R c k IH]; intros s; cbn; [apply HQ|].
  intros [Hc Hk]. split; [done|]. eauto.
Qed.

Lemma follows_bind {A B} s (p : prog E A) (f : A -> prog E B) Q :
  follows s p (fun s a => follows s (f a) Q) -> follows s (bind p f) Q.
Proof.
  revert s. induction p as [a|R c k IH]; intros s; cbn; [done|]. intros [Hc Hk]. split; [done|]. eauto.
Qed.

Lemma follows_for_each {A} s (l : list A) (body : A -> prog E unit) :
  (forall a s, follows s (body a) (fun _ _ => True)) -> follows s (for_each l body) (fun _ _ => True).
Proof.
  intros Hb. revert s. induction l as [|a l IH]; intros s; cbn [for_each]; [done|].
  apply follows_bind. eapply follows_mono; [|apply Hb]. intros s' u _. apply IH.
Qed.
End Follows.
End Programs.

Notation "'let!' x ':=' p 'in' q" := (bind p (fun x => q))
  (at level 10, x pattern, p at level 200, q at level 200).
