(* ===== verification/Reminders.v ===== *)
(** Renewal reminders (src/internal/center/subscriptioncosts/reminders.go) over their tables
    (src/internal/center/store/subscription_costs.go): a scan lists the subscriptions that renew in
    one of the configured numbers of days, reserves a delivery for each, dispatches a
    notification, then records the outcome.  The service is written as programs of calls, so
    that several workers can be interleaved call by call, with lost answers and restarts. *)
From stdpp Require Import base list strings gmap pretty.
From Stdlib Require Import ZArith Lia SpecFloat.
From S2P Require Import Prelude GoRuntime IncidentTypes Settings Notification IncidentStore Calendar Postgres Programs Subscriptions RateWorker Budgets BudgetStore.

Local Open Scope Z_scope.
#[local] Set Warnings "-clear-no-such-hyp".

(** * Constants and data *)

Definition DefaultReminderWorkerInterval : Z := 6 * Hour.
Definition reminderDispatchChannel : string := "dispatch".
Definition ReminderKindRenewal : string := "renewal".
Definition ReminderKindDecisionAttention : string := "decision_attention".
Definition ObjectTypeSubscription : string := "subscription".

Record ReminderCandidate := {
  rc_SubscriptionID : string;
  rc_VPSID : string;
  rc_VPSDisplayName : string;
  rc_DisplayName : string;
  rc_ProviderName : string;
  rc_RenewAt : Z;
  rc_OffsetDays : Z;
  rc_Kind : string;
  rc_BaseCurrency : string;
  rc_MonthlyPriceBase : option float64;
  rc_RenewalDecision : string;
  rc_LifecycleStatus : string;
}.

Record ReminderDeliveryInput := {
  ri_SubscriptionID : string;
  ri_VPSID : string;
  ri_RenewAt : Z;
  ri_OffsetDays : Z;
  ri_Kind : string;
  ri_Channel : string;
  ri_Status : string;
  ri_Summary : string;
  ri_SentAt : option Z;
}.

Record ReminderDeliveryUpdate := { ru_Status : string; ru_Summary : string; ru_SentAt : option Z }.

(** A row of subscription_reminder_deliveries. *)
Record ReminderDelivery := {
  rd_SubscriptionID : string;
  rd_VPSID : string;
  rd_RenewAt : Z;
  rd_OffsetDays : Z;
  rd_Kind : string;
  rd_Channel : string;
  rd_Status : string;
  rd_Summary : string;
  rd_SentAt : option Z;
  rd_UpdatedAt : Z;
}.

(** What a scan reads of vps_assets. *)
Record ReminderAsset := {
  ra_DisplayName : string;
  ra_ProviderID : string;
  ra_ProviderName : string;
  ra_RenewalDecision : string;
  ra_AutoRenewCheck : string;
  ra_LifecycleStatus : string;
}.

(** The tables of a scan; an exchange rate comes with its month_end_for. *)
Record reminder_db := {
  rb_subscriptions : gmap string SubscriptionRecord;
  rb_assets : gmap string ReminderAsset;
  rb_providers : gmap string string;
  rb_rates : list (ExchangeRateRecord * option Z);
  rb_deliveries : gmap string ReminderDelivery;
}.

Definition rb_with_deliveries (d : gmap string ReminderDelivery) (db : reminder_db) : reminder_db := {|
  rb_subscriptions := rb_subscriptions db; rb_assets := rb_assets db; rb_providers := rb_providers db;
  rb_rates := rb_rates db; rb_deliveries := d |}.

(** * The text of a reminder *)

Definition emptyAs (primary secondary fallback : string) : string :=
  let primary := strings_TrimSpace primary in
  if negb (primary =s "") then primary
  else
    let secondary := strings_TrimSpace secondary in
    if negb (secondary =s "") then secondary else fallback.

(** [m * 2^e * 100] rounded to the nearest integer, ties to even. *)
Definition round_cents (m : positive) (e : Z) : Z :=
  if 0 <=? e then 100 * Zpos m * 2 ^ e
  else let den := 2 ^ (- e) in
       let num := 100 * Zpos m in
       let q := num / den in
       let r := num mod den in
       if (den <? 2 * r) || ((den =? 2 * r) && Z.odd q) then q + 1 else q.

(** [%.2f]. *)
Definition fmt_f2 (x : float64) : string :=
  let cents (s : bool) (n : Z) :=
    ((if s then "-" else "") +:+ fmt_d (n / 100) +:+ "." +:+ fmt_d (n mod 100 / 10) +:+ fmt_d (n mod 10))%string in
  match x with
  | S754_nan => "NaN"
  | S754_infinity s => if s then "-Inf" else "+Inf"
  | S754_zero s => cents s 0
  | S754_finite s m e => cents s (round_cents m e)
  end.

Definition candidateSummary (candidate : ReminderCandidate) : string :=
  let name := strings_TrimSpace (rc_DisplayName candidate) in
  let name := if name =s "" then rc_VPSDisplayName candidate else name in
  let name := if name =s "" then rc_SubscriptionID candidate else name in
  let prefix := if rc_Kind candidate =s ReminderKindDecisionAttention then "订阅决策关注" else "订阅续费提醒" in
  let cost := match rc_MonthlyPriceBase candidate with
              | Some price => ("，月成本约 " +:+ fmt_f2 price +:+ " " +:+ rc_BaseCurrency candidate)%string
              | None => ""%string
              end in
  (prefix +:+ "：" +:+ name +:+ " 将在 " +:+ Time_Format_date (rc_RenewAt candidate) +:+ " 续费，提前 "
   +:+ fmt_d (rc_OffsetDays candidate) +:+ " 天" +:+ cost +:+ "。VPS 决策："
   +:+ emptyAs (rc_RenewalDecision candidate) "" "未记录" +:+ "，生命周期："
   +:+ emptyAs (rc_LifecycleStatus candidate) "" "未记录" +:+ "。")%string.

(** * Candidates *)

Section Candidates.
(** The server's [round((monthly_price * rate)::numeric, 4)::float8]. *)
Context (convert : float64 -> float64 -> float64).

(** [distinct on ... order by fetched_at desc, rate_date desc] for one quote currency. *)
Definition rate_newer (a b : ExchangeRateRecord) : bool :=
  (er_FetchedAt b <? er_FetchedAt a) || ((er_FetchedAt a =? er_FetchedAt b) && (er_RateDate b <? er_RateDate a)).

Definition latest_rate (settings : SubscriptionCostSettings) (quote : string) (rates : list (ExchangeRateRecord * option Z))
    : option ExchangeRateRecord :=
  head (sort_stable rate_newer
    (fst <$> List.filter (fun r =>
       (er_Provider r.1 =s sc_ExchangeRateProvider settings) && (er_BaseCurrency r.1 =s sc_BaseCurrency settings)
       && negb (is_set r.2) && (er_QuoteCurrency r.1 =s quote)) rates)).

Definition nullif_empty (value fallback : string) : string := if value =s "" then fallback else value.

(** One row of the join, when the subscription renews in [offset] days. *)
Definition reminder_candidate (settings : SubscriptionCostSettings) (today : Z) (db : reminder_db)
    (s : SubscriptionRecord) (offset : Z) : option ReminderCandidate :=
  match su_RenewAt s, rb_assets db !! su_VPSID s with
  | Some renewAt, Some v =>
      if (renewAt =? today + offset * Day) && (su_Status s =s StatusActive) && (ra_LifecycleStatus v =s "active")
      then Some {|
        rc_SubscriptionID := su_SubscriptionID s; rc_VPSID := su_VPSID s; rc_VPSDisplayName := ra_DisplayName v;
        rc_DisplayName := nullif_empty (su_DisplayName s) (ra_DisplayName v);
        rc_ProviderName := nullif_empty (ra_ProviderName v) (default "" (rb_providers db !! ra_ProviderID v));
        rc_RenewAt := renewAt; rc_OffsetDays := offset;
        rc_Kind := if (ra_RenewalDecision v =s "cancel") && member (ra_AutoRenewCheck v) ["unchecked"; "enabled"]
                   then ReminderKindDecisionAttention else ReminderKindRenewal;
        rc_BaseCurrency := sc_BaseCurrency settings;
        rc_MonthlyPriceBase :=
          if su_Currency s =s sc_BaseCurrency settings then Some (su_MonthlyPrice s)
          else convert (su_MonthlyPrice s) ∘ er_Rate <$> latest_rate settings (su_Currency s) (rb_rates db);
        rc_RenewalDecision := ra_RenewalDecision v; rc_LifecycleStatus := ra_LifecycleStatus v |}
      else None
  | _, _ => None
  end.

(** [order by renew_at asc, offset_days desc, subscription_id asc]. *)
Definition candidate_less (a b : ReminderCandidate) : bool :=
  (rc_RenewAt a <? rc_RenewAt b)
  || ((rc_RenewAt a =? rc_RenewAt b)
      && ((rc_OffsetDays b <? rc_OffsetDays a)
          || ((rc_OffsetDays a =? rc_OffsetDays b) && string_less (rc_SubscriptionID a) (rc_SubscriptionID b)))).

Definition due_candidates (settings : SubscriptionCostSettings) (today : Z) (offsets : list Z) (db : reminder_db)
    : list ReminderCandidate :=
  sort_stable candidate_less
    (offset ← offsets; s ← (map_to_list (rb_subscriptions db)).*2;
     option_list (reminder_candidate settings today db s offset)).

Definition ListReminderCandidates (failure : option error) (today : Z) (settings : SubscriptionCostSettings)
    (offsets : list Z) (db : reminder_db) : result (list ReminderCandidate) :=
  match offsets with
  | [] => Ok []
  | _ =>
      let wrap e := Err (ErrWrap "query subscription reminder candidates: %w" [] [e]) in
      match failure, fold_result (fun _ o _ => _ ← int4 o; Ok tt) 0 offsets tt with
      | Some e, _ => wrap e
      | None, Err e => wrap e
      | None, Ok _ => Ok (due_candidates settings today offsets db)
      end
  end.
End Candidates.

(** * Deliveries *)

(** What the unique index is on. *)
Definition delivery_key : Type := string * Z * Z.

Definition rd_key (row : ReminderDelivery) : delivery_key := (rd_SubscriptionID row, rd_RenewAt row, rd_OffsetDays row).
Definition ri_key (input : ReminderDeliveryInput) : delivery_key :=
  (ri_SubscriptionID input, Time_StartOfDay (ri_RenewAt input), ri_OffsetDays input).
Definition rc_key (c : ReminderCandidate) : delivery_key :=
  (rc_SubscriptionID c, Time_StartOfDay (rc_RenewAt c), rc_OffsetDays c).

Definition delivery_constraints (row : ReminderDelivery) : result () :=
  _ ← reject (rd_OffsetDays row <? 0) (PgError "23514");
  _ ← reject (negb (member (rd_Kind row) [ReminderKindRenewal; ReminderKindDecisionAttention])) (PgError "23514");
  _ ← reject (negb (member (rd_Channel row) [NotificationChannelTelegram; NotificationChannelFeishu; reminderDispatchChannel]))
        (PgError "23514");
  reject (negb (member (rd_Status row) [DeliveryStatusSent; DeliveryStatusSuppressed; DeliveryStatusFailed])) (PgError "23514").

Definition reserved (key : delivery_key) (db : reminder_db) : bool :=
  existsb (fun row => bool_decide (rd_key row = key)) (map_to_list (rb_deliveries db)).*2.

(** [insert ... on conflict (subscription_id, renew_at, offset_days) do nothing returning delivery_id]. *)
Definition insert_delivery (deliveryID : string) (clock : Z) (input : ReminderDeliveryInput) (db : reminder_db)
    : result (reminder_db * option string) :=
  offset ← int4 (ri_OffsetDays input);
  let row := {|
    rd_SubscriptionID := ri_SubscriptionID input; rd_VPSID := ri_VPSID input;
    rd_RenewAt := Time_StartOfDay (ri_RenewAt input); rd_OffsetDays := offset; rd_Kind := ri_Kind input;
    rd_Channel := ri_Channel input; rd_Status := ri_Status input; rd_Summary := ri_Summary input;
    rd_SentAt := timestamptz <$> ri_SentAt input; rd_UpdatedAt := clock |} in
  _ ← delivery_constraints row;
  if reserved (rd_key row) db then Ok (db, None)
  else
    _ ← reject (is_set (rb_deliveries db !! deliveryID)) (PgError "23505");
    _ ← reject (negb (is_set (rb_subscriptions db !! ri_SubscriptionID input))
                || negb (is_set (rb_assets db !! ri_VPSID input))) (PgError "23503");
    Ok (rb_with_deliveries (<[deliveryID := row]> (rb_deliveries db)) db, Some deliveryID).

Definition TryCreateReminderDelivery (io : cost_io) (input : ReminderDeliveryInput) (db : reminder_db)
    : reminder_db * result (string * bool) :=
  match co_id io with
  | Err e => (db, Err (ErrWrap "generate subscription reminder delivery id: %w" [] [e]))
  | Ok deliveryID =>
      let '(db', r) := autocommit (co_answer io) db (insert_delivery deliveryID (co_clock io) input db) in
      (db', match r with
            | Ok None => Ok ("", false)
            | Ok (Some insertedID) => Ok (insertedID, true)
            | Err e => Err (cost_store_error (fun e => ErrWrap "insert subscription reminder delivery: %w" [] [e]) e)
            end)
  end.

Definition updated_delivery (clock : Z) (update : ReminderDeliveryUpdate) (row : ReminderDelivery) : ReminderDelivery := {|
  rd_SubscriptionID := rd_SubscriptionID row; rd_VPSID := rd_VPSID row; rd_RenewAt := rd_RenewAt row;
  rd_OffsetDays := rd_OffsetDays row; rd_Kind := rd_Kind row; rd_Channel := rd_Channel row;
  rd_Status := ru_Status update; rd_Summary := ru_Summary update; rd_SentAt := timestamptz <$> ru_SentAt update;
  rd_UpdatedAt := clock |}.

(** An update that matches no row is no error. *)
Definition UpdateReminderDelivery (io : cost_io) (deliveryID : string) (update : ReminderDeliveryUpdate) (db : reminder_db)
    : reminder_db * result () :=
  let '(db', r) := autocommit (co_answer io) db
    match rb_deliveries db !! deliveryID with
    | None => Ok (db, tt)
    | Some row =>
        let row := updated_delivery (co_clock io) update row in
        _ ← delivery_constraints row;
        Ok (rb_with_deliveries (<[deliveryID := row]> (rb_deliveries db)) db, tt)
    end in
  (db', map_error (fun e => ErrWrap "update subscription reminder delivery %q: %w" [deliveryID] [e]) r).

(** * The service *)

(** Whether the service was given a dispatcher and an audit writer. *)
Record ReminderService := { rs_dispatcher : bool; rs_audit : bool }.

(** The calls of the service.  [CallDispatch] carries the key of its candidate for the record only. *)
Inductive reminder_call : Type -> Type :=
| CallGetSettings : reminder_call (result CenterSettings)
| CallListCandidates (settings : SubscriptionCostSettings) (offsets : list Z) : reminder_call (result (list ReminderCandidate))
| CallTryCreate (input : ReminderDeliveryInput) : reminder_call (result (string * bool))
| CallDispatch (key : delivery_key) (summary : string) : reminder_call (list NotificationDelivery)
| CallNow : reminder_call Z
| CallUpdate (deliveryID : string) (update : ReminderDeliveryUpdate) : reminder_call (result ())
| CallAudit (records : list NotificationRecordWrite) : reminder_call (result ())
| CallWarn (subscriptionID vpsID : string) (err : error) : reminder_call unit.

Definition action : Type -> Type := prog reminder_call.

Fixpoint summarize (status : string) (deliveries : list NotificationDelivery) : action (string * option Z) :=
  match deliveries with
  | [] => Ret (status, None)
  | delivery :: deliveries =>
      if dl_Status delivery =s DeliveryStatusSent
      then let! sentAt := call CallNow in Ret (DeliveryStatusSent, Some sentAt)
      else summarize (if dl_Status delivery =s DeliveryStatusFailed then DeliveryStatusFailed else status) deliveries
  end.

Definition summarizeDeliveries (deliveries : list NotificationDelivery) : action (string * option Z) :=
  summarize DeliveryStatusSuppressed deliveries.

Definition reservation (candidate : ReminderCandidate) : ReminderDeliveryInput := {|
  ri_SubscriptionID := rc_SubscriptionID candidate; ri_VPSID := rc_VPSID candidate;
  ri_RenewAt := rc_RenewAt candidate; ri_OffsetDays := rc_OffsetDays candidate; ri_Kind := rc_Kind candidate;
  ri_Channel := reminderDispatchChannel; ri_Status := DeliveryStatusSuppressed;
  ri_Summary := candidateSummary candidate; ri_SentAt := None |}.

Definition audit_record (candidate : ReminderCandidate) (delivery : NotificationDelivery)
    : action NotificationRecordWrite :=
  let! recordSentAt :=
    if dl_Status delivery =s DeliveryStatusSent then let! now := call CallNow in Ret (Some now) else Ret None in
  Ret {|
    nr_IncidentID := ""; nr_ObjectType := ObjectTypeSubscription; nr_ObjectID := rc_SubscriptionID candidate;
    nr_Channel := dl_Channel delivery; nr_DeliveryStatus := dl_Status delivery;
    nr_Summary := candidateSummary candidate; nr_SentAt := recordSentAt |}.

(** The deliveries of a dispatch, or one suppressed delivery when there is none. *)
Definition suppressed_delivery : NotificationDelivery := {|
  dl_Channel := NotificationChannelTelegram; dl_Status := DeliveryStatusSuppressed; dl_Error := None |}.

Definition or_suppressed (deliveries : list NotificationDelivery) : list NotificationDelivery :=
  match deliveries with [] => [suppressed_delivery] | _ => deliveries end.

Definition record_outcome (svc : ReminderService) (candidate : ReminderCandidate) (deliveryID : string)
    (deliveries : list NotificationDelivery) : action (result ()) :=
  let! outcome := summarizeDeliveries deliveries in
  let! updated := call (CallUpdate deliveryID {|
    ru_Status := outcome.1; ru_Summary := candidateSummary candidate; ru_SentAt := outcome.2 |}) in
  match updated with
  | Err e => Ret (Err (ErrWrap "update subscription reminder delivery: %w" [] [e]))
  | Ok _ =>
      let! auditRecords := map_each deliveries (audit_record candidate) in
      match auditRecords, rs_audit svc with
      | _ :: _, true =>
          let! appended := call (CallAudit auditRecords) in
          match appended with
          | Err e => Ret (Err (ErrWrap "append subscription notification audit records: %w" [] [e]))
          | Ok _ => Ret (Ok tt)
          end
      | _, _ => Ret (Ok tt)
      end
  end.

Definition deliverCandidate (svc : ReminderService) (candidate : ReminderCandidate) : action (result ()) :=
  let! created := call (CallTryCreate (reservation candidate)) in
  match created with
  | Err e => Ret (Err (ErrWrap "reserve subscription reminder delivery: %w" [] [e]))
  | Ok (_, false) => Ret (Ok tt)
  | Ok (deliveryID, true) =>
      let! deliveries :=
        if rs_dispatcher svc then call (CallDispatch (rc_key candidate) (candidateSummary candidate)) else Ret [] in
      record_outcome svc candidate deliveryID (or_suppressed deliveries)
  end.

Definition scan_candidate (svc : ReminderService) (candidate : ReminderCandidate) : action unit :=
  let! delivered := deliverCandidate svc candidate in
  match delivered with
  | Err e => call (CallWarn (rc_SubscriptionID candidate) (rc_VPSID candidate) e)
  | Ok _ => Ret tt
  end.

Definition Scan (svc : ReminderService) : action (result ()) :=
  let! settings := call CallGetSettings in
  match settings with
  | Err e => Ret (Err (ErrWrap "get subscription reminder settings: %w" [] [e]))
  | Ok settings =>
      let cost := cs_SubscriptionCost settings in
      let! candidates := call (CallListCandidates cost (sc_DefaultReminderOffsetsDays cost)) in
      match candidates with
      | Err e => Ret (Err (ErrWrap "list subscription reminder candidates: %w" [] [e]))
      | Ok candidates =>
          let! _ := for_each candidates (scan_candidate svc) in
          Ret (Ok tt)
      end
  end.

(** * The world of the service *)

(** A dispatch that took place and what it reported. *)
Record dispatched := { di_key : delivery_key; di_summary : string; di_deliveries : list NotificationDelivery }.

Record reminder_world := { rw_db : reminder_db; rw_incidents : incident_db; rw_log : list dispatched }.

(** What one call meets. *)
Record reminder_io := {
  io_settings : result CenterSettings;
  io_query : option error;
  io_today : Z;
  io_statement : cost_io;
  io_deliveries : list NotificationDelivery;
  io_now : Z;
}.

Definition rw_with_db (db : reminder_db) (w : reminder_world) : reminder_world := {|
  rw_db := db; rw_incidents := rw_incidents w; rw_log := rw_log w |}.

Section World.
Context (convert : float64 -> float64 -> float64).

Definition perform {R} (io : reminder_io) (c : reminder_call R) (w : reminder_world) : reminder_world * R :=
  match c with
  | CallGetSettings => (w, io_settings io)
  | CallListCandidates settings offsets =>
      (w, ListReminderCandidates convert (io_query io) (io_today io) settings offsets (rw_db w))
  | CallTryCreate input =>
      let '(db, r) := TryCreateReminderDelivery (io_statement io) input (rw_db w) in (rw_with_db db w, r)
  | CallDispatch key summary =>
      ({| rw_db := rw_db w; rw_incidents := rw_incidents w;
          rw_log := rw_log w ++ [{| di_key := key; di_summary := summary; di_deliveries := io_deliveries io |}] |},
       io_deliveries io)
  | CallNow => (w, io_now io)
  | CallUpdate deliveryID update =>
      let '(db, r) := UpdateReminderDelivery (io_statement io) deliveryID update (rw_db w) in (rw_with_db db w, r)
  | CallAudit records =>
      let '(incidents, r) := transaction (co_answer (io_statement io))
                               (fun e => ErrWrap "commit notification append tx: %w" [] [e]) (rw_incidents w)
                               (let '(r, db) := store_AppendNotificationRecords records (rw_incidents w) in
                                _ ← r; Ok (db, tt)) in
      ({| rw_db := rw_db w; rw_incidents := incidents; rw_log := rw_log w |}, r)
  | CallWarn _ _ _ => (w, tt)
  end.

(** * Workers *)

Definition NewReminderWorker_interval (interval : Z) : Z :=
  if interval <=? 0 then DefaultReminderWorkerInterval else interval.

(** Several workers over one world.  [sy_retired] holds the ids of the subscriptions and of the
    deliveries whose rows are gone; generated ids do not come back. *)
Record reminder_system := {
  sy_world : reminder_world;
  sy_workers : list (action (result ()));
  sy_retired : gset string * gset string;
}.

Inductive reminder_event :=
| EvCall (i : nat) (io : reminder_io)
| EvTick (i : nat)
| EvRestart (i : nat)
| EvTables (subscriptions : gmap string SubscriptionRecord) (assets : gmap string ReminderAsset)
    (providers : gmap string string) (rates : list (ExchangeRateRecord * option Z)).

(** Deliveries go with their subscription. *)
Definition kept (subscriptions : gmap string SubscriptionRecord) (row : ReminderDelivery) : bool :=
  is_set (subscriptions !! rd_SubscriptionID row).

Definition change_tables (subscriptions : gmap string SubscriptionRecord) (assets : gmap string ReminderAsset)
    (providers : gmap string string) (rates : list (ExchangeRateRecord * option Z)) (y : reminder_system)
    : reminder_system :=
  let db := rw_db (sy_world y) in
  {| sy_world := rw_with_db {|
       rb_subscriptions := subscriptions; rb_assets := assets; rb_providers := providers; rb_rates := rates;
       rb_deliveries := filter (fun r => kept subscriptions r.2 = true) (rb_deliveries db) |} (sy_world y);
     sy_workers := sy_workers y;
     sy_retired := ((sy_retired y).1 ∪ (dom (rb_subscriptions db) ∖ dom subscriptions),
                    (sy_retired y).2 ∪ dom (filter (fun r => kept subscriptions r.2 = false) (rb_deliveries db))) |}.

(** The other parts of the center change the other tables: a deleted subscription takes its
    deliveries along, no id comes back, and a VPS goes only with its subscriptions. *)
Definition tables_allowed (subscriptions : gmap string SubscriptionRecord) (assets : gmap string ReminderAsset)
    (y : reminder_system) : bool :=
  bool_decide (dom subscriptions ## (sy_retired y).1)
  && forallb (fun row => negb (kept subscriptions row) || is_set (assets !! rd_VPSID row))
       (map_to_list (rb_deliveries (rw_db (sy_world y)))).*2.

Definition id_allowed (io : reminder_io) (y : reminder_system) : bool :=
  match co_id (io_statement io) with Ok id => bool_decide (id ∉ (sy_retired y).2) | Err _ => true end.

(** One step of [Run]: the next call of a worker, its ticker when its scan is over (an error of the
    scan is only logged), or a new process that starts with a scan. *)
Definition step_reminders (svc : ReminderService) (ev : reminder_event) (y : reminder_system) : option reminder_system :=
  match ev with
  | EvCall i io =>
      match sy_workers y !! i with
      | Some (Vis c k) =>
          if id_allowed io y
          then let '(w, r) := perform io c (sy_world y) in
               Some {| sy_world := w; sy_workers := <[i := k r]> (sy_workers y); sy_retired := sy_retired y |}
          else None
      | _ => None
      end
  | EvTick i =>
      match sy_workers y !! i with
      | Some (Ret _) => Some {| sy_world := sy_world y; sy_workers := <[i := Scan svc]> (sy_workers y);
                                sy_retired := sy_retired y |}
      | _ => None
      end
  | EvRestart i => Some {| sy_world := sy_world y; sy_workers := <[i := Scan svc]> (sy_workers y);
                           sy_retired := sy_retired y |}
  | EvTables subscriptions assets providers rates =>
      if tables_allowed subscriptions assets y
      then Some (change_tables subscriptions assets providers rates y) else None
  end.

Fixpoint run_reminders (svc : ReminderService) (evs : list reminder_event) (y : reminder_system) : option reminder_system :=
  match evs with
  | [] => Some y
  | ev :: evs => match step_reminders svc ev y with Some y => run_reminders svc evs y | None => None end
  end.

(** [n] workers over empty deliveries. *)
Definition start_reminders (svc : ReminderService) (n : nat) (db : reminder_db) (incidents : incident_db) : reminder_system := {|
  sy_world := {| rw_db := rb_with_deliveries ∅ db; rw_incidents := incidents; rw_log := [] |};
  sy_workers := replicate n (Scan svc); sy_retired := (∅, ∅) |}.
End World.
