(* ===== verification/RemindersProps.v ===== *)
(** What the reminders promise, for any interleaving of workers, failures and restarts: one dispatch
    per subscription, renewal date and offset; tables that tell what dispatches reported; and a
    scan without failures that leaves no due reminder behind. *)
From stdpp Require Import base list strings gmap.
From Stdlib Require Import ZArith Lia.
From S2P Require Import Prelude GoRuntime IncidentTypes Settings Notification IncidentStore Calendar Postgres Programs Subscriptions RateWorker Budgets BudgetStore Reminders.

Local Open Scope Z_scope.
#[local] Set Warnings "-clear-no-such-hyp".

(** * The protocol of a worker *)

(** Where a worker stands: it holds no reservation, holds one that was not dispatched, or has the
    report of its dispatch. *)
Inductive phase :=
| Free
| Holding (key : delivery_key) (id : string)
| Reported (key : delivery_key) (id : string) (deliveries : list NotificationDelivery).

(** The status a report amounts to. *)
Definition outcome (deliveries : list NotificationDelivery) : string :=
  if existsb (delivery_is DeliveryStatusSent) deliveries then DeliveryStatusSent
  else if existsb (delivery_is DeliveryStatusFailed) deliveries then DeliveryStatusFailed
  else DeliveryStatusSuppressed.

(** The report a worker may act on, and for which key. *)
Definition report (s : phase) : option (delivery_key * list NotificationDelivery) :=
  match s with
  | Free => None
  | Holding key _ => Some (key, [])
  | Reported key _ deliveries => Some (key, deliveries)
  end.

Definition held_id (s : phase) : option string :=
  match s with Free => None | Holding _ id | Reported _ id _ => Some id end.

(** An update states the outcome of the report, with a time exactly when something was sent. *)
Definition update_states (s : phase) (id : string) (u : ReminderDeliveryUpdate) : Prop :=
  exists key ds, report s = Some (key, ds) /\ held_id s = Some id /\ ru_Status u = outcome ds
    /\ (is_set (ru_SentAt u) = true <-> outcome ds = DeliveryStatusSent).

(** An audit record that says sent repeats a delivery of the report. *)
Definition record_states (key : delivery_key) (ds : list NotificationDelivery) (r : NotificationRecordWrite) : Prop :=
  nr_ObjectID r = key.1.1
  /\ (nr_DeliveryStatus r = DeliveryStatusSent -> exists d, d ∈ ds /\ dl_Status d = DeliveryStatusSent /\ nr_Channel r = dl_Channel d).

Definition allowed (R : Type) (s : phase) (c : reminder_call R) : Prop :=
  match c with
  | CallTryCreate input => ri_Status input = DeliveryStatusSuppressed /\ ri_SentAt input = None
  | CallDispatch key _ => exists id, s = Holding key id
  | CallUpdate id u => update_states s id u
  | CallAudit records => exists key ds, report s = Some (key, ds) /\ Forall (record_states key ds) records
  | _ => True
  end.

Definition next_phase (R : Type) (s : phase) (c : reminder_call R) : R -> phase :=
  match c in reminder_call R return R -> phase with
  | CallTryCreate input => fun r => match r with Ok (id, true) => Holding (ri_key input) id | _ => Free end
  | CallDispatch _ _ => fun ds => match s with Holding key id => Reported key id ds | _ => Free end
  | _ => fun _ => s
  end.

#[local] Abbreviation keeps s p Q := (follows allowed next_phase s p Q).

Lemma keeps_summarize s status ds :
  keeps s (summarize status ds) (fun s' r => s' = s
    /\ r.1 = (if existsb (delivery_is DeliveryStatusSent) ds then DeliveryStatusSent
              else if existsb (delivery_is DeliveryStatusFailed) ds then DeliveryStatusFailed else status)
    /\ (is_set r.2 = existsb (delivery_is DeliveryStatusSent) ds)).
Proof.
  revert status. induction ds as [|d ds IH]; intros status; cbn [summarize existsb]; [done|].
  change (delivery_is DeliveryStatusSent d) with (dl_Status d =s DeliveryStatusSent).
  change (delivery_is DeliveryStatusFailed d) with (dl_Status d =s DeliveryStatusFailed).
  destruct (dl_Status d =s DeliveryStatusSent); [by split_and!|]. cbn [orb].
  eapply follows_mono; [|apply IH]. intros s' [r sent] (-> & Hr & Hs). cbn in *. split_and!; [done| |done]. rewrite Hr.
  destruct (existsb (delivery_is DeliveryStatusSent) ds); [done|].
  by destruct (dl_Status d =s DeliveryStatusFailed), (existsb (delivery_is DeliveryStatusFailed) ds).
Qed.

Lemma keeps_audit_record s c d :
  keeps s (audit_record c d) (fun s' r => s' = s /\ nr_ObjectID r = rc_SubscriptionID c
    /\ nr_DeliveryStatus r = dl_Status d /\ nr_Channel r = dl_Channel d).
Proof. unfold audit_record. by destruct (dl_Status d =s DeliveryStatusSent). Qed.

Lemma keeps_map_each {A B} s (l : list A) (body : A -> action B) (P : A -> B -> Prop) :
  (forall a, keeps s (body a) (fun s' b => s' = s /\ P a b)) ->
  keeps s (map_each l body) (fun s' bs => s' = s /\ Forall2 P l bs).
Proof.
  intros Hb. induction l as [|a l IH]; cbn [map_each]; [cbn; by split; [|constructor]|].
  apply follows_bind. eapply follows_mono; [|apply Hb]. intros s' b [-> Hab].
  apply follows_bind. eapply follows_mono; [|apply IH]. intros s' bs [-> Hbs]. cbn. by split; [|constructor].
Qed.

Lemma or_suppressed_outcome ds : outcome (or_suppressed ds) = outcome ds.
Proof. by destruct ds. Qed.

Lemma outcome_sent ds : outcome ds = DeliveryStatusSent <-> existsb (delivery_is DeliveryStatusSent) ds = true.
Proof.
  unfold outcome. destruct (existsb (delivery_is DeliveryStatusSent) ds); [done|].
  by destruct (existsb (delivery_is DeliveryStatusFailed) ds).
Qed.

Lemma audit_records_state c key ds rs : key.1.1 = rc_SubscriptionID c ->
  Forall2 (fun d r => nr_ObjectID r = rc_SubscriptionID c /\ nr_DeliveryStatus r = dl_Status d
                      /\ nr_Channel r = dl_Channel d) (or_suppressed ds) rs -> Forall (record_states key ds) rs.
Proof.
  intros Hkey H. apply Forall_forall. intros r Hr. apply list_elem_of_lookup in Hr as [i Hi].
  eapply Forall2_lookup_r in H as (d & Hd & Ho & Hs & Hc); [|done]. split; [by rewrite Hkey|].
  intros Hsent. exists d. split_and!; [|by rewrite <-Hs|done]. apply list_elem_of_lookup_2 in Hd.
  destruct ds; [|done]. apply list_elem_of_singleton in Hd as ->. by rewrite Hs in Hsent.
Qed.

Lemma keeps_record_outcome svc c id s key ds :
  report s = Some (key, ds) -> held_id s = Some id -> key.1.1 = rc_SubscriptionID c ->
  keeps s (record_outcome svc c id (or_suppressed ds)) (fun _ _ => True).
Proof.
  intros Hr Hid Hkey. unfold record_outcome. apply follows_bind.
  eapply follows_mono; [|apply keeps_summarize]. intros s' [status sentAt] (-> & Hstatus & Hset). cbn in Hstatus, Hset.
  fold (outcome (or_suppressed ds)) in Hstatus. rewrite or_suppressed_outcome in Hstatus. cbn [fst snd].
  apply follows_bind. split.
  - exists key, ds. split_and!; [done..|]. cbn. by rewrite Hset, <-outcome_sent, or_suppressed_outcome.
  - intros [[]|e]; [|done]. apply follows_bind. eapply follows_mono; [|apply keeps_map_each, keeps_audit_record].
    intros s' rs [-> Hrs]. destruct rs as [|r rs]; [done|]. destruct (rs_audit svc); [|done].
    apply follows_bind. split; [|by intros [[]|e]]. exists key, ds. split; [done|].
    by apply (audit_records_state c).
Qed.

Lemma keeps_deliver svc c s : keeps s (deliverCandidate svc c) (fun _ _ => True).
Proof.
  unfold deliverCandidate. apply follows_bind. split; [done|]. intros [[id [|]]|e]; [|done..].
  change (next_phase _ _ _ _) with (Holding (rc_key c) id). apply follows_bind.
  destruct (rs_dispatcher svc); cbn [follows call].
  - split; [by eexists|]. intros ds. by apply (keeps_record_outcome _ _ _ _ (rc_key c)).
  - by apply (keeps_record_outcome _ _ _ _ (rc_key c) []).
Qed.

Lemma keeps_scan svc s : keeps s (Scan svc) (fun _ _ => True).
Proof.
  unfold Scan. apply follows_bind. split; [done|]. intros [settings|e]; [|done].
  apply follows_bind. split; [done|]. intros [cs|e]; [|done].
  apply follows_bind. eapply follows_mono; [|apply follows_for_each]; [done|]. intros c s'.
  unfold scan_candidate. apply follows_bind. eapply follows_mono; [|apply keeps_deliver].
  by intros s'' [[]|e] _.
Qed.

(** * What holds in every state *)

(** A dispatch of the key with this report took place. *)
Definition logged (w : reminder_world) (key : delivery_key) (ds : list NotificationDelivery) : Prop :=
  exists d, d ∈ rw_log w /\ di_key d = key /\ di_deliveries d = ds.

(** The delivery [id] is the reservation of the key, or was. *)
Definition owned (w : reminder_world) (retired : gset string * gset string) (key : delivery_key) (id : string) : Prop :=
  (exists row, rb_deliveries (rw_db w) !! id = Some row /\ rd_key row = key) \/ (key.1.1 ∈ retired.1 /\ id ∈ retired.2).

Definition phase_ok (w : reminder_world) (retired : gset string * gset string) (s : phase) : Prop :=
  match s with
  | Free => True
  | Holding key id => owned w retired key id /\ key ∉ di_key <$> rw_log w
  | Reported key id ds => owned w retired key id /\ logged w key ds
  end.

(** A row states suppressed or the outcome of its dispatch, and has a time exactly when it says sent. *)
Definition row_states (w : reminder_world) (row : ReminderDelivery) : Prop :=
  (rd_Status row = DeliveryStatusSuppressed \/ exists ds, logged w (rd_key row) ds /\ rd_Status row = outcome ds)
  /\ (is_set (rd_SentAt row) = true <-> rd_Status row = DeliveryStatusSent).

(** An audit record that says sent repeats a delivery that was reported sent. *)
Definition audit_states (w : reminder_world) (r : NotificationRecordWrite) : Prop :=
  nr_DeliveryStatus r = DeliveryStatusSent ->
  exists key ds d, logged w key ds /\ nr_ObjectID r = key.1.1 /\ d ∈ ds /\ dl_Status d = DeliveryStatusSent
    /\ nr_Channel r = dl_Channel d.

Record world_ok (before : list NotificationRecordWrite) (w : reminder_world) (retired : gset string * gset string) : Prop := {
  wo_unique : forall i j r s, rb_deliveries (rw_db w) !! i = Some r -> rb_deliveries (rw_db w) !! j = Some s ->
                rd_key r = rd_key s -> i = j;
  wo_owner : forall i r, rb_deliveries (rw_db w) !! i = Some r -> is_Some (rb_subscriptions (rw_db w) !! rd_SubscriptionID r);
  wo_live : dom (rb_subscriptions (rw_db w)) ## retired.1;
  wo_kept : dom (rb_deliveries (rw_db w)) ## retired.2;
  wo_once : NoDup (di_key <$> rw_log w);
  wo_taken : forall key, key ∈ di_key <$> rw_log w -> exists id, owned w retired key id;
  wo_rows : forall i r, rb_deliveries (rw_db w) !! i = Some r -> row_states w r;
  wo_audit : exists tail, db_notifications (rw_incidents w) = before ++ tail /\ Forall (audit_states w) tail;
}.

(** The workers keep the protocol, each in its phase, and no two hold one key. *)
Record workers_ok (w : reminder_world) (retired : gset string * gset string) (workers : list (action (result ()))) (phases : list phase)
    : Prop := {
  ko_keeps : Forall2 (fun p s => keeps s p (fun _ _ => True)) workers phases;
  ko_phase : Forall (phase_ok w retired) phases;
  ko_alone : forall i j key id id', phases !! i = Some (Holding key id) -> phases !! j = Some (Holding key id') -> i = j;
}.

(** A worker moves to a phase that is right and holds a key nobody else holds. *)
Lemma workers_move w w' retired workers phases i p s :
  workers_ok w retired workers phases -> (i < length workers)%nat -> keeps s p (fun _ _ => True) ->
  phase_ok w' retired s ->
  (forall j s', j <> i -> phases !! j = Some s' -> phase_ok w retired s' -> phase_ok w' retired s') ->
  (forall j key id id', s = Holding key id -> j <> i -> phases !! j <> Some (Holding key id')) ->
  workers_ok w' retired (<[i := p]> workers) (<[i := s]> phases).
Proof.
  intros [Hk Hp Ha] Hi Hs Hok Hothers Halone. pose proof (Forall2_length _ _ _ Hk) as Hlen. constructor.
  - by apply Forall2_insert.
  - apply Forall_lookup. intros j s' [(-> & -> & _)|[Hne Hj]]%list_lookup_insert_Some; [done|].
    eapply Hothers; [done|done|]. by eapply Forall_lookup_1.
  - intros j j' key id id' [(<- & -> & _)|[Hj H1]]%list_lookup_insert_Some [(<- & E2 & _)|[Hj' H2]]%list_lookup_insert_Some.
    + done.
    + by destruct (Halone j' key id id').
    + by destruct (Halone j key id' id).
    + by eapply Ha.
Qed.

Lemma workers_stay w w' retired retired' workers phases :
  (forall s, phase_ok w retired s -> phase_ok w' retired' s) ->
  workers_ok w retired workers phases -> workers_ok w' retired' workers phases.
Proof. intros H [Hk Hp Ha]. constructor; [done| |done]. eapply Forall_impl; [apply Hp|apply H]. Qed.

(** ** Reservations *)

Lemma reserved_true db key : reserved key db = true <-> exists id row, rb_deliveries db !! id = Some row /\ rd_key row = key.
Proof.
  unfold reserved. rewrite existsb_exists. split.
  - intros (row & Hin & Hk%bool_decide_eq_true). apply list_elem_of_In, list_elem_of_fmap in Hin as ([id row'] & -> & Hin).
    apply elem_of_map_to_list in Hin. by exists id, row'.
  - intros (id & row & Hin & Hk). exists row. split; [|by apply bool_decide_eq_true].
    apply list_elem_of_In, list_elem_of_fmap. exists (id, row). split; [done|]. by apply elem_of_map_to_list.
Qed.

(** What an insert does: nothing, or one fresh row with the key of the input. *)
Lemma insert_delivery_ok id clock input db db' r : insert_delivery id clock input db = Ok (db', r) ->
  (db' = db /\ r = None /\ reserved (ri_key input) db = true)
  \/ (exists row, db' = rb_with_deliveries (<[id := row]> (rb_deliveries db)) db /\ r = Some id
      /\ rd_key row = ri_key input /\ rd_Status row = ri_Status input
      /\ rd_SentAt row = timestamptz <$> ri_SentAt input
      /\ rb_deliveries db !! id = None /\ is_Some (rb_subscriptions db !! ri_SubscriptionID input)
      /\ reserved (ri_key input) db = false).
Proof.
  unfold insert_delivery. intros H. ok_step H. apply int4_ok in Hok as [-> _]. ok_step H.
  change (rd_key _) with (ri_key input) in H. destruct (reserved (ri_key input) db) eqn:Er.
  - injection H as <- <-. by left.
  - right. do 2 ok_step H. injection H as <- <-. unfold reject in Hok0, Hok1.
    destruct (rb_deliveries db !! id) eqn:Eid; [done|]. destruct (rb_subscriptions db !! ri_SubscriptionID input) eqn:Es; [|done].
    eexists. split_and!; [done..|by eexists|done].
Qed.

Lemma try_create_cases io input db db' r : TryCreateReminderDelivery io input db = (db', r) ->
  (db' = db /\ (forall id, r <> Ok (id, true)))
  \/ (exists id row, co_id io = Ok id /\ db' = rb_with_deliveries (<[id := row]> (rb_deliveries db)) db
      /\ rd_key row = ri_key input /\ rd_Status row = ri_Status input /\ rd_SentAt row = timestamptz <$> ri_SentAt input
      /\ rb_deliveries db !! id = None /\ is_Some (rb_subscriptions db !! ri_SubscriptionID input)
      /\ reserved (ri_key input) db = false /\ forall id', r = Ok (id', true) -> id' = id).
Proof.
  unfold TryCreateReminderDelivery, autocommit. destruct (co_id io) as [id|e]; [|intros [= <- <-]; by left].
  destruct (insert_delivery _ _ _ _) as [[db1 ins]|e] eqn:Ei; [|intros [= <- <-]; by left].
  apply insert_delivery_ok in Ei as [(-> & -> & _)|(row & -> & -> & Hk & Hs & Ht & Hid & Hsub & Hr)].
  - destruct (co_answer io) as [|e [|]]; intros [= <- <-]; by left.
  - destruct (co_answer io) as [|e [|]]; intros [= <- <-]; [| |by left]; right; exists id, row; split_and!; try done.
    by intros id' [= <-].
Qed.

(** A fresh row: the table grows by the reservation, and the worker may hold it. *)
Section Reserve.
Context (before : list NotificationRecordWrite) (w : reminder_world) (retired : gset string * gset string).
Context (id : string) (row : ReminderDelivery).
Context (Hw : world_ok before w retired) (Hid : rb_deliveries (rw_db w) !! id = None) (Hfresh : id ∉ retired.2).
Context (Hsub : is_Some (rb_subscriptions (rw_db w) !! rd_SubscriptionID row)).
Context (Hnew : reserved (rd_key row) (rw_db w) = false).
Context (Hstatus : rd_Status row = DeliveryStatusSuppressed) (Hsent : rd_SentAt row = None).

Let w' := rw_with_db (rb_with_deliveries (<[id := row]> (rb_deliveries (rw_db w))) (rw_db w)) w.

Lemma not_reserved i r : rb_deliveries (rw_db w) !! i = Some r -> rd_key r <> rd_key row.
Proof. intros Hi Hk. assert (reserved (rd_key row) (rw_db w) = true); [|congruence]. apply reserved_true. eauto. Qed.

Lemma not_retired : rd_SubscriptionID row ∉ retired.1.
Proof. intros Hr. apply (wo_live _ _ _ Hw (rd_SubscriptionID row)); [|done]. by apply elem_of_dom. Qed.

Lemma not_owned id' : ~ owned w retired (rd_key row) id'.
Proof.
  intros [(r & Hr & Hk)|[Hr _]]; [by apply (not_reserved id' r)|]. by apply not_retired.
Qed.

Lemma owned_grows key id' : owned w retired key id' -> owned w' retired key id'.
Proof.
  intros [(r & Hr & Hk)|Hr]; [|by right]. left. exists r. split; [|done]. cbn.
  rewrite lookup_insert_ne; [done|]. intros ->. by rewrite Hid in Hr.
Qed.

Lemma phase_grows s : phase_ok w retired s -> phase_ok w' retired s.
Proof. destruct s; [done|..]; intros [H1 H2]; (split; [by apply owned_grows|done]). Qed.

Lemma holding_new : phase_ok w' retired (Holding (rd_key row) id).
Proof.
  split; [left; exists row; split; [by apply lookup_insert_eq|done]|]. intros Hl.
  apply (wo_taken _ _ _ Hw) in Hl as [id' Hl]. by apply not_owned in Hl.
Qed.

Lemma reserve_world_ok : world_ok before w' retired.
Proof.
  destruct Hw as [Hu Ho Hl Hd Hn Ht Hr Ha]. constructor; cbn; try done.
  - intros i j r s [[<- <-]|[? Hi]]%lookup_insert_Some [[<- <-]|[? Hj]]%lookup_insert_Some Hk; [done| | |by eapply Hu].
    + by destruct (not_reserved j s Hj).
    + by destruct (not_reserved i r Hi).
  - intros i r [[<- <-]|[? Hi]]%lookup_insert_Some; [done|]. by eapply Ho.
  - rewrite dom_insert. set_solver.
  - intros key Hkey. destruct (Ht key Hkey) as [id' Hown]. exists id'. by apply owned_grows.
  - intros i r [[<- <-]|[? Hi]]%lookup_insert_Some; [|by apply (Hr i)]. split; [by left|]. by rewrite Hstatus, Hsent.
Qed.
End Reserve.

(** ** Dispatches *)

Definition dispatch_world (w : reminder_world) (d : dispatched) : reminder_world := {|
  rw_db := rw_db w; rw_incidents := rw_incidents w; rw_log := rw_log w ++ [d] |}.

Lemma logged_grows w d key ds : logged w key ds -> logged (dispatch_world w d) key ds.
Proof. intros (e & He & H). exists e. split; [|done]. by apply elem_of_app; left. Qed.

Lemma dispatch_world_ok before w retired d id :
  world_ok before w retired -> phase_ok w retired (Holding (di_key d) id) -> world_ok before (dispatch_world w d) retired.
Proof.
  intros [Hu Ho Hl Hd Hn Ht Hr (tail & Htail & Ha)] [Hown Hnew]. constructor; cbn; try done.
  - rewrite fmap_app. apply NoDup_app. split_and!; [done| |apply NoDup_singleton].
    by intros key Hkey ->%list_elem_of_singleton.
  - intros key. rewrite fmap_app. intros [Hkey| ->%list_elem_of_singleton]%elem_of_app; [by apply Ht|by exists id].
  - intros i r Hi. destruct (Hr i r Hi) as [[H|(ds & Hlog & H)] Hs]; (split; [|done]); [by left|right].
    exists ds. split; [by apply logged_grows|done].
  - exists tail. split; [done|]. eapply Forall_impl; [done|]. intros r H Hs.
    destruct (H Hs) as (key & ds & e & Hlog & Hrest). exists key, ds, e. split; [by apply logged_grows|done].
Qed.

Lemma dispatch_phase_ok w retired d s : (forall id, s <> Holding (di_key d) id) ->
  phase_ok w retired s -> phase_ok (dispatch_world w d) retired s.
Proof.
  destruct s as [|key id|key id ds]; intros Hne; [done| |].
  - intros [Hown Hnew]. split; [done|]. cbn. rewrite fmap_app. intros [H| ->%list_elem_of_singleton]%elem_of_app; [done|].
    by apply (Hne id).
  - intros [Hown Hlog]. split; [done|]. by apply logged_grows.
Qed.

(** ** Outcomes *)

(** An update changes at most the row it names, and states the report there. *)
Lemma update_cases io id u db db' r : UpdateReminderDelivery io id u db = (db', r) ->
  db' = db \/ exists row, rb_deliveries db !! id = Some row
    /\ db' = rb_with_deliveries (<[id := updated_delivery (co_clock io) u row]> (rb_deliveries db)) db.
Proof.
  unfold UpdateReminderDelivery, autocommit. destruct (rb_deliveries db !! id) as [row|].
  - destruct (delivery_constraints _) as [[]|e]; [|intros [= <- <-]; by left]. cbn.
    destruct (co_answer io) as [|e [|]]; intros [= <- <-]; [right..|by left]; by exists row.
  - destruct (co_answer io) as [|e [|]]; intros [= <- <-]; by left.
Qed.

Section Update.
Context (before : list NotificationRecordWrite) (w : reminder_world) (retired : gset string * gset string).
Context (s : phase) (id : string) (u : ReminderDeliveryUpdate) (clock : Z) (row : ReminderDelivery).
Context (Hw : world_ok before w retired) (Hs : phase_ok w retired s) (Hu : update_states s id u).
Context (Hrow : rb_deliveries (rw_db w) !! id = Some row).

Let w' := rw_with_db (rb_with_deliveries (<[id := updated_delivery clock u row]> (rb_deliveries (rw_db w))) (rw_db w)) w.

Lemma owned_updates key id' : owned w retired key id' -> owned w' retired key id'.
Proof.
  intros [(r & Hr & Hk)|Hr]; [|by right]. left. cbn. destruct (decide (id = id')) as [<-|Hne].
  - rewrite Hrow in Hr. injection Hr as ->. eexists. split; [by apply lookup_insert_eq|done].
  - exists r. by rewrite lookup_insert_ne.
Qed.

Lemma phase_updates s' : phase_ok w retired s' -> phase_ok w' retired s'.
Proof. destruct s'; [done|..]; intros [H1 H2]; (split; [by apply owned_updates|done]). Qed.

(** The row the worker updates is the one it reserved. *)
Lemma update_own key : (exists ds, report s = Some (key, ds)) -> held_id s = Some id -> rd_key row = key.
Proof.
  intros [ds Hr] Hid. assert (owned w retired key id) as [(r & Hr' & <-)|[_ Hgone]].
  - destruct s; simplify_eq/=; by destruct Hs.
  - rewrite Hrow in Hr'. by injection Hr' as ->.
  - exfalso. apply (wo_kept _ _ _ Hw id); [|done]. by apply elem_of_dom.
Qed.

Lemma update_world_ok : world_ok before w' retired.
Proof.
  destruct Hu as (key & ds & Hr & Hid & Hst & Hsent). pose proof (update_own key ltac:(eauto) Hid) as Hkey.
  destruct Hw as [Hun Ho Hl Hd Hn Ht Hrows Ha]. constructor; cbn; try done.
  - intros i j r r' [[<- <-]|[? Hi]]%lookup_insert_Some [[<- <-]|[? Hj]]%lookup_insert_Some Hk; [done|by eapply Hun..].
  - intros i r [[<- <-]|[? Hi]]%lookup_insert_Some; [by apply (Ho id row)|by eapply Ho].
  - rewrite dom_insert. apply elem_of_dom_2 in Hrow. set_solver.
  - intros k Hk. destruct (Ht k Hk) as [id' Hown]. exists id'. by apply owned_updates.
  - intros i r [[<- <-]|[? Hi]]%lookup_insert_Some; [|by apply (Hrows i)]. split; cbn; rewrite Hst.
    + change (rd_key (updated_delivery clock u row)) with (rd_key row). rewrite Hkey.
      destruct s; simplify_eq/=; [by left|right]. exists ds. split; [|done]. apply Hs.
    + rewrite <-Hsent. by destruct (ru_SentAt u).
Qed.
End Update.

(** ** Audit records *)

Lemma audit_world_ok convert before w retired s records io w' r :
  world_ok before w retired -> phase_ok w retired s -> allowed _ s (CallAudit records) ->
  perform convert io (CallAudit records) w = (w', r) ->
  world_ok before w' retired /\ forall s', phase_ok w retired s' -> phase_ok w' retired s'.
Proof.
  intros Hw Hs (key & ds & Hr & Hrec) Hp. unfold perform in Hp.
  destruct (transaction _ _ _ _) as [inc r'] eqn:Et. injection Hp as <- <-.
  split; [|by intros []]. destruct Hw as [Hu Ho Hl Hd Hn Ht Hrow (tail & Htail & Ha)]. constructor; try done.
  apply transaction_inv in Et as [[-> _]|([] & Et & _)]; [by exists tail|]. cbn in Et. injection Et as <-. cbn.
  exists (tail ++ records). split; [by rewrite Htail, app_assoc|]. apply Forall_app. split; [done|].
  eapply Forall_impl; [done|]. intros x [Hobj Hx] Hsent. destruct (Hx Hsent) as (d & Hin & Hd' & Hch).
  destruct s as [|k i|k i ds']; simplify_eq/=; [by apply elem_of_nil in Hin|].
  exists key, ds, d. split_and!; try done. apply Hs.
Qed.

(** * Runs *)

Section Runs.
Context (convert : float64 -> float64 -> float64) (svc : ReminderService) (before : list NotificationRecordWrite).

Definition system_ok (y : reminder_system) : Prop :=
  world_ok before (sy_world y) (sy_retired y)
  /\ exists phases, workers_ok (sy_world y) (sy_retired y) (sy_workers y) phases.

Lemma rw_same w : rw_with_db (rw_db w) w = w.
Proof. by destruct w. Qed.

(** One call of worker [i], which stands at phase [s]. *)
Section Call.
Context (w : reminder_world) (retired : gset string * gset string) (workers : list (action (result ()))) (phases : list phase).
Context (i : nat) (s : phase) (io : reminder_io).
Context (Hw : world_ok before w retired) (Hks : workers_ok w retired workers phases).
Context (Hi : (i < length workers)%nat) (Hphase : phases !! i = Some s).
Context (Hid : forall id, co_id (io_statement io) = Ok id -> id ∉ retired.2).

Lemma phase_here : phase_ok w retired s.
Proof. by eapply Forall_lookup_1; [apply (ko_phase _ _ _ _ Hks)|]. Qed.

Lemma alone_here j key id id' : s = Holding key id -> j <> i -> phases !! j <> Some (Holding key id').
Proof. intros -> Hj H. by destruct (Hj (ko_alone _ _ _ _ Hks j i key id' id H Hphase)). Qed.

(** A worker that keeps its phase or lets go of it. *)
Lemma call_stays w' s' p : (forall s, phase_ok w retired s -> phase_ok w' retired s) -> s' = s \/ s' = Free ->
  keeps s' p (fun _ _ => True) -> workers_ok w' retired (<[i := p]> workers) (<[i := s']> phases).
Proof.
  intros Hmono Hs' Hp. apply (workers_move w); [done..| |intros; by apply Hmono|].
  - destruct Hs' as [-> | ->]; [apply Hmono, phase_here|done].
  - destruct Hs' as [-> | ->]; [apply alone_here|done].
Qed.

Lemma try_create_ok input w' r p : allowed _ s (CallTryCreate input) ->
  perform convert io (CallTryCreate input) w = (w', r) ->
  keeps (next_phase _ s (CallTryCreate input) r) p (fun _ _ => True) ->
  world_ok before w' retired
  /\ workers_ok w' retired (<[i := p]> workers) (<[i := next_phase _ s (CallTryCreate input) r]> phases).
Proof.
  intros [Hst Hsent] Hp Hk. cbn in Hp. destruct (TryCreateReminderDelivery _ _ _) as [db' r'] eqn:Et. injection Hp as <- <-.
  apply try_create_cases in Et as [[-> Hr]|(id & row & Hio & -> & Hkey & Hrs & Hrt & Hno & Hsub & Hres & Hr)].
  - rewrite rw_same. split; [done|]. apply call_stays; [done| |done]. right. cbn.
    by destruct r' as [[id [|]]|e]; [destruct (Hr id)|..].
  - rewrite Hst in Hrs. rewrite Hsent in Hrt. rewrite <-Hkey in Hres. specialize (Hid id Hio).
    assert (rd_SubscriptionID row = ri_SubscriptionID input) as Hsid by (by injection Hkey).
    rewrite <-Hsid in Hsub. split; [by apply reserve_world_ok|]. cbn [next_phase] in *.
    destruct r' as [[id' [|]]|e]; [|apply call_stays; [by apply phase_grows|by right|done]..].
    rewrite (Hr id' eq_refl) in *. rewrite <-Hkey in *.
    apply (workers_move w); [done..|by apply (holding_new before)|intros; by apply phase_grows|].
    intros j key id1 id2 [= <- <-] Hj Hj'. apply (not_owned before w retired row Hw Hsub Hres id2).
    by destruct (Forall_lookup_1 _ _ _ _ (ko_phase _ _ _ _ Hks) Hj').
Qed.

Lemma dispatch_ok key summary w' r p : allowed _ s (CallDispatch key summary) ->
  perform convert io (CallDispatch key summary) w = (w', r) ->
  keeps (next_phase _ s (CallDispatch key summary) r) p (fun _ _ => True) ->
  world_ok before w' retired
  /\ workers_ok w' retired (<[i := p]> workers) (<[i := next_phase _ s (CallDispatch key summary) r]> phases).
Proof.
  intros [id Hs] Hp Hk. injection Hp as <- <-. pose proof phase_here as Hok. rewrite Hs in Hok.
  set (d := {| di_key := key; di_summary := summary; di_deliveries := io_deliveries io |}).
  change {| rw_db := rw_db w; rw_incidents := rw_incidents w; rw_log := rw_log w ++ [d] |} with (dispatch_world w d).
  split; [by apply (dispatch_world_ok _ _ _ _ id)|]. cbn [next_phase] in *. rewrite Hs in Hk |- *.
  apply (workers_move w); [done..| | |done].
  - split; [apply Hok|]. exists d. split_and!; [|done..]. apply elem_of_app. right. by apply list_elem_of_singleton.
  - intros j s' Hj Hs' Hsok. apply dispatch_phase_ok; [|done]. intros id' ->.
    by apply (alone_here j key id id' Hs Hj).
Qed.

Lemma update_ok id u w' r p : allowed _ s (CallUpdate id u) -> perform convert io (CallUpdate id u) w = (w', r) ->
  keeps s p (fun _ _ => True) ->
  world_ok before w' retired /\ workers_ok w' retired (<[i := p]> workers) (<[i := s]> phases).
Proof.
  intros Hu Hp Hk. cbn in Hp. destruct (UpdateReminderDelivery _ _ _ _) as [db' r'] eqn:Et. injection Hp as <- <-.
  apply update_cases in Et as [->|(row & Hrow & ->)].
  - rewrite rw_same. split; [done|]. apply call_stays; [done|by left|done].
  - split; [by apply (update_world_ok _ _ _ s); [|apply phase_here|..]|].
    apply call_stays; [by apply phase_updates|by left|done].
Qed.

Lemma call_ok R (c : reminder_call R) w' r p : allowed _ s c -> perform convert io c w = (w', r) ->
  keeps (next_phase _ s c r) p (fun _ _ => True) ->
  world_ok before w' retired /\ workers_ok w' retired (<[i := p]> workers) (<[i := next_phase _ s c r]> phases).
Proof.
  intros Hc Hp Hk. destruct c as [|settings offsets|input|key summary| |id u|records|subID vpsID e].
  all: try by (injection Hp as <- <-; split; [done|apply call_stays; [done|by left|done]]).
  - by apply try_create_ok.
  - by apply dispatch_ok.
  - by eapply update_ok.
  - destruct (audit_world_ok convert before w retired s records io w' r Hw phase_here Hc Hp) as [Hw' Hmono].
    split; [done|]. apply call_stays; [done|by left|done].
Qed.
End Call.
(** ** The other events *)

Lemma restart_ok y phases i : workers_ok (sy_world y) (sy_retired y) (sy_workers y) phases ->
  workers_ok (sy_world y) (sy_retired y) (<[i := Scan svc]> (sy_workers y)) (<[i := Free]> phases).
Proof.
  intros Hks. destruct (decide (i < length (sy_workers y))%nat) as [Hlt|Hge].
  - by apply (workers_move (sy_world y)); [| |apply keeps_scan|..].
  - apply Nat.nlt_ge in Hge. rewrite (list_insert_ge (sy_workers y)) by exact Hge. rewrite list_insert_ge; [done|].
    by rewrite <-(Forall2_length _ _ _ (ko_keeps _ _ _ _ Hks)).
Qed.

Lemma tables_ok subs assets providers rates y : tables_allowed subs assets y = true -> system_ok y ->
  system_ok (change_tables subs assets providers rates y).
Proof.
  intros Ha [Hw [phases Hks]]. apply andb_true_iff in Ha as [Ha%bool_decide_eq_true _].
  destruct y as [w workers retired]. cbn in *. set (y' := change_tables _ _ _ _ _).
  assert (forall key id, owned w retired key id -> owned (sy_world y') (sy_retired y') key id) as Howned.
  { intros key id [(row & Hrow & Hk)|[H1 H2]]; [|right; cbn; set_solver].
    destruct (kept subs row) eqn:Ek.
    - left. exists row. split; [|done]. cbn. by apply map_lookup_filter_Some.
    - right. pose proof (wo_owner _ _ _ Hw id row Hrow) as Hsub. cbn. split.
      + unfold kept in Ek. subst key. cbn. apply elem_of_union. right. apply elem_of_difference.
        split; [by apply elem_of_dom|]. rewrite not_elem_of_dom. by destruct (subs !! rd_SubscriptionID row).
      + apply elem_of_union. right. apply elem_of_dom. exists row. by apply map_lookup_filter_Some. }
  split; [|exists phases; eapply workers_stay; [|done]].
  - destruct Hw as [Hu Ho Hl Hd Hn Ht Hr Haud]. constructor; cbn; try done.
    + intros i j r s [Hi _]%map_lookup_filter_Some [Hj _]%map_lookup_filter_Some. by eapply Hu.
    + intros i r [Hi Hk]%map_lookup_filter_Some. cbn in Hk. unfold kept in Hk. by destruct (subs !! rd_SubscriptionID r).
    + set_solver.
    + intros x Hx. apply elem_of_dom in Hx as [r [Hx Hkx]%map_lookup_filter_Some].
      intros [H|[r' [Hr' Hk']%map_lookup_filter_Some]%elem_of_dom]%elem_of_union.
      * apply (Hd x); [by apply elem_of_dom|done].
      * rewrite Hx in Hr'. injection Hr' as <-. cbn in *. congruence.
    + intros key Hkey. destruct (Ht key Hkey) as [id Hown]. exists id. by apply Howned.
    + intros i r [Hi _]%map_lookup_filter_Some. by apply (Hr i).
  - intros s. destruct s; [done|..]; intros [H1 H2]; (split; [by apply Howned|done]).
Qed.

Lemma reminder_step_ok ev y y' : system_ok y -> step_reminders convert svc ev y = Some y' -> system_ok y'.
Proof.
  intros Hok Hstep. destruct ev as [i io|i|i|subs assets providers rates]; cbn in Hstep.
  - destruct (sy_workers y !! i) as [[a|R c k]|] eqn:Ei; [done| |done]. destruct (id_allowed io y) eqn:Eid; [|done].
    destruct (perform convert io c (sy_world y)) as [w r] eqn:Ep. injection Hstep as <-.
    destruct Hok as [Hw [phases Hks]]. pose proof (ko_keeps _ _ _ _ Hks) as Hk.
    destruct (Forall2_lookup_l _ _ _ _ _ Hk Ei) as (s & Hs & Hpre & Hpost).
    destruct (call_ok (sy_world y) (sy_retired y) (sy_workers y) phases i s io Hw Hks
      (lookup_lt_Some _ _ _ Ei) Hs) with (R := R) (c := c) (w' := w) (r := r) (p := k r) as [Hw' Hks']; [|done|done|apply Hpost|].
    + intros id E. unfold id_allowed in Eid. rewrite E in Eid. by apply bool_decide_eq_true in Eid.
    + split; [done|]. by eexists.
  - destruct (sy_workers y !! i) as [[a|R c k]|]; [|done..]. injection Hstep as <-.
    destruct Hok as [Hw [phases Hks]]. split; [done|]. exists (<[i := Free]> phases). by apply (restart_ok y).
  - injection Hstep as <-. destruct Hok as [Hw [phases Hks]]. split; [done|]. exists (<[i := Free]> phases). by apply (restart_ok y).
  - destruct (tables_allowed subs assets y) eqn:Ea; [|done]. injection Hstep as <-. by apply tables_ok.
Qed.

Lemma reminder_run_ok evs y y' : system_ok y -> run_reminders convert svc evs y = Some y' -> system_ok y'.
Proof.
  revert y. induction evs as [|ev evs IH]; intros y Hok; cbn; [by intros [= <-]|].
  destruct (step_reminders convert svc ev y) as [y1|] eqn:Es; [|done]. apply IH. by eapply reminder_step_ok.
Qed.
End Runs.

Lemma start_ok svc n db incidents : system_ok (db_notifications incidents) (start_reminders svc n db incidents).
Proof.
  split.
  - constructor; cbn; [by intros|by intros|set_solver|set_solver|apply NoDup_nil_2|by intros key H%elem_of_nil|by intros|].
    exists []. by rewrite app_nil_r.
  - exists (replicate n Free). constructor; cbn.
    + apply Forall2_replicate, keeps_scan.
    + by apply Forall_replicate.
    + intros i j key id id' H. by apply lookup_replicate_1 in H as [? _].
Qed.

(** * Claims *)

(** C24: whatever the interleaving of the workers' calls, the failures and lost
    answers of statements, restarts of workers at any call and changes to the other tables, the
    dispatcher is called at most once for a subscription, a renewal date and an offset: the
    calls on record have distinct keys, each with the key its reservation has. *)
Theorem reminder_dispatched_once convert svc n db incidents evs y :
  run_reminders convert svc evs (start_reminders svc n db incidents) = Some y ->
  NoDup (di_key <$> rw_log (sy_world y)).
Proof. intros H. apply (reminder_run_ok convert svc (db_notifications incidents)) in H as [Hw _]; [apply Hw|apply start_ok]. Qed.

(** C26: in every state of such a run, a delivery row says sent exactly when it
    has a time, and a row that says sent or failed repeats the outcome of a dispatch of its own
    key (sent when a channel was reported sent, failed when none was and one failed); and every
    audit record that says sent was appended for a channel that a dispatch for that subscription
    reported as sent. *)
Theorem reminder_outcome_truthful convert svc n db incidents evs y :
  run_reminders convert svc evs (start_reminders svc n db incidents) = Some y ->
  (forall id row, rb_deliveries (rw_db (sy_world y)) !! id = Some row ->
     (is_set (rd_SentAt row) = true <-> rd_Status row = DeliveryStatusSent)
     /\ (rd_Status row = DeliveryStatusSuppressed
         \/ exists d, d ∈ rw_log (sy_world y) /\ di_key d = rd_key row /\ rd_Status row = outcome (di_deliveries d)))
  /\ exists tail, db_notifications (rw_incidents (sy_world y)) = db_notifications incidents ++ tail
      /\ forall r, r ∈ tail -> nr_DeliveryStatus r = DeliveryStatusSent ->
          exists d e, d ∈ rw_log (sy_world y) /\ (di_key d).1.1 = nr_ObjectID r /\ e ∈ di_deliveries d
                      /\ dl_Status e = DeliveryStatusSent /\ dl_Channel e = nr_Channel r.
Proof.
  intros H. apply (reminder_run_ok convert svc (db_notifications incidents)) in H as [Hw _]; [|apply start_ok].
  destruct Hw as [_ _ _ _ _ _ Hr (tail & Htail & Ha)]. split.
  - intros id row Hrow. destruct (Hr id row Hrow) as [[Hs|(ds & (d & Hd & Hk & <-) & Hs)] Hsent]; (split; [done|]); [by left|].
    right. by exists d.
  - exists tail. split; [done|]. intros r Hin Hs. rewrite Forall_forall in Ha.
    destruct (Ha r Hin Hs) as (key & ds & e & (d & Hd & <- & <-) & Ho & He & Hst & Hc). exists d, e. by split_and!.
Qed.
