(* ===== verification/RemindersScan.v ===== *)
(** One scan of the reminders whose statements all succeed: it ends, and every subscription that is
    due has its reservation and its dispatch. *)
From stdpp Require Import base list strings gmap pretty.
From Stdlib Require Import ZArith Lia.
From S2P Require Import Prelude GoRuntime IncidentTypes Settings Notification IncidentStore Calendar Postgres Programs Subscriptions RateWorker Budgets BudgetStore Reminders RemindersProps.

Local Open Scope Z_scope.
#[local] Set Warnings "-clear-no-such-hyp".

Section Scan.
Context (convert : float64 -> float64 -> float64) (svc : ReminderService) (oracle : nat -> reminder_io).

Definition scan_run {A} (p : action A) (n : nat) (w : reminder_world) : reminder_world * nat * A :=
  exec (fun R n (c : reminder_call R) w => perform convert (oracle n) c w) p n w.

(** * Calls that neither reserve nor dispatch *)

Definition quiet (R : Type) (_ : unit) (c : reminder_call R) : Prop :=
  match c with CallTryCreate _ | CallDispatch _ _ => False | _ => True end.

(** The same reservations, the same dispatches. *)
Record same_reservations (w w' : reminder_world) : Prop := {
  sr_subscriptions : rb_subscriptions (rw_db w') = rb_subscriptions (rw_db w);
  sr_assets : rb_assets (rw_db w') = rb_assets (rw_db w);
  sr_keys : rd_key <$> rb_deliveries (rw_db w') = rd_key <$> rb_deliveries (rw_db w);
  sr_log : rw_log w' = rw_log w;
}.

#[global] Instance same_reservations_preorder : PreOrder same_reservations.
Proof. split; [by constructor|]. intros x y z [] []. constructor; by etrans. Qed.

Lemma quiet_call {R} io (c : reminder_call R) w w' r : quiet R tt c -> perform convert io c w = (w', r) ->
  same_reservations w w'.
Proof.
  destruct c as [|settings offsets|input|key summary| |id u|records|subID vpsID e]; intros Hq Hp; try done;
    try by injection Hp as <- <-.
  - cbn in Hp. destruct (UpdateReminderDelivery _ _ _ _) as [db' r'] eqn:E. injection Hp as <- <-.
    apply update_cases in E as [->|(row & Hrow & ->)]; constructor; try done. cbn.
    rewrite fmap_insert. apply insert_id. by rewrite lookup_fmap, Hrow.
  - unfold perform in Hp. destruct (transaction _ _ _ _) as [inc r']. by injection Hp as <- <-.
Qed.

Lemma quiet_run {A} (p : action A) n w w' n' a : follows quiet (fun _ _ _ _ => tt) tt p (fun _ _ => True) ->
  scan_run p n w = (w', n', a) -> same_reservations w w' /\ (n <= n')%nat.
Proof.
  unfold scan_run. revert n w. induction p as [x|R c k IH]; intros n w Hf; cbn; [by intros [= <- <- <-]|].
  destruct Hf as [Hc Hk]. destruct (perform convert (oracle n) c w) as [w1 r] eqn:E. intros H.
  destruct (IH r (S n) w1 (Hk r) H) as [Hs Hn]. split; [|lia]. etrans; [by eapply quiet_call|done].
Qed.

Lemma quiet_summarize status ds : follows quiet (fun _ _ _ _ => tt) tt (summarize status ds) (fun _ _ => True).
Proof. revert status. induction ds as [|d ds IH]; intros status; cbn; [done|]. by destruct (dl_Status d =s _). Qed.

Lemma quiet_record_outcome c id ds :
  follows quiet (fun _ _ _ _ => tt) tt (record_outcome svc c id ds) (fun _ _ => True).
Proof.
  unfold record_outcome. apply follows_bind. eapply follows_mono; [|apply quiet_summarize]. intros [] out _.
  apply follows_bind. split; [done|]. intros [[]|e]; [|done]. apply follows_bind.
  assert (follows quiet (fun _ _ _ _ => tt) tt (map_each ds (audit_record c)) (fun _ _ => True)) as Hm.
  { induction ds as [|d ds IH]; cbn [map_each]; [done|]. apply follows_bind.
    unfold audit_record. destruct (dl_Status d =s DeliveryStatusSent); cbn; [split; [done|]; intros now|];
      (apply follows_bind; eapply follows_mono; [|apply IH]; done). }
  eapply follows_mono; [|apply Hm]. intros [] rs _. destruct rs; [done|]. destruct (rs_audit svc); [|done].
  cbn. split; [done|]. by intros [[]|e].
Qed.

(** * One candidate *)

(** A candidate the table takes. *)
Record insertable (c : ReminderCandidate) (db : reminder_db) : Prop := {
  ib_offset : 0 <= rc_OffsetDays c <= 2147483647;
  ib_kind : rc_Kind c = ReminderKindRenewal \/ rc_Kind c = ReminderKindDecisionAttention;
  ib_subscription : is_Some (rb_subscriptions db !! rc_SubscriptionID c);
  ib_asset : is_Some (rb_assets db !! rc_VPSID c);
}.

(** Every statement succeeds, with ids that were never drawn before. *)
Record reliable (w : reminder_world) : Prop := {
  rl_answers : forall n, co_answer (io_statement (oracle n)) = Executed;
  rl_query : forall n, io_query (oracle n) = None;
  rl_ids : forall n, exists id, co_id (io_statement (oracle n)) = Ok id
             /\ rb_deliveries (rw_db w) !! id = None
             /\ forall m id', (m < n)%nat -> co_id (io_statement (oracle m)) = Ok id' -> id' <> id;
}.

(** What a scan that started at [w0] has done after the candidates [before] and [n] calls. *)
Record scanned (w0 : reminder_world) (before : list ReminderCandidate) (n : nat) (w : reminder_world) : Prop := {
  sn_subscriptions : rb_subscriptions (rw_db w) = rb_subscriptions (rw_db w0);
  sn_assets : rb_assets (rw_db w) = rb_assets (rw_db w0);
  sn_ids : forall id, is_Some (rb_deliveries (rw_db w) !! id) -> is_Some (rb_deliveries (rw_db w0) !! id)
             \/ exists m, (m < n)%nat /\ co_id (io_statement (oracle m)) = Ok id;
  sn_new : exists new, rw_log w = rw_log w0 ++ new
             /\ forall key, reserved key (rw_db w) = true -> reserved key (rw_db w0) = true \/ key ∈ di_key <$> new;
  sn_done : forall c, c ∈ before -> reserved (rc_key c) (rw_db w) = true;
}.

Lemma reserved_same w w' key : same_reservations w w' -> reserved key (rw_db w') = reserved key (rw_db w).
Proof.
  intros [_ _ Hk _]. apply eq_true_iff_eq. rewrite !reserved_true.
  assert (forall w, (exists id row, rb_deliveries (rw_db w) !! id = Some row /\ rd_key row = key)
                    <-> exists id, (rd_key <$> rb_deliveries (rw_db w)) !! id = Some key) as Hr.
  { intros v. split; intros [id H]; exists id; rewrite lookup_fmap in *.
    - destruct H as (row & -> & <-). done.
    - by apply fmap_Some in H as (row & ? & ->); exists row. }
  by rewrite !Hr, Hk.
Qed.

Lemma scanned_quiet w0 before n n' w w' : same_reservations w w' -> (n <= n')%nat ->
  scanned w0 before n w -> scanned w0 before n' w'.
Proof.
  intros Hs Hn [H1 H2 H3 H4 H5]. pose proof Hs as [G1 G2 G3 G4]. constructor; [congruence..| | |].
  - intros id Hid. assert (is_Some (rb_deliveries (rw_db w) !! id)) as Hid'.
    { apply (f_equal (.!! id)) in G3. rewrite !lookup_fmap in G3.
      destruct Hid as [row Hrow]. rewrite Hrow in G3. by destruct (rb_deliveries (rw_db w) !! id). }
    destruct (H3 id Hid') as [?|(m & ? & ?)]; [by left|]. right. exists m. split; [lia|done].
  - destruct H4 as (new & H4 & H6). exists new. split; [congruence|]. intros key. rewrite (reserved_same w w' key Hs). apply H6.
  - intros c Hc. rewrite (reserved_same w w' _ Hs). by apply H5.
Qed.

Lemma int4_in z : 0 <= z <= 2147483647 -> int4 z = Ok z.
Proof. intros H. unfold int4. by rewrite (proj2 (andb_true_iff _ _)) by (split; apply Z.leb_le; lia). Qed.

(** What the insert of a candidate comes to. *)
Lemma reservation_constraints row : 0 <= rd_OffsetDays row ->
  rd_Kind row = ReminderKindRenewal \/ rd_Kind row = ReminderKindDecisionAttention ->
  rd_Channel row = reminderDispatchChannel -> rd_Status row = DeliveryStatusSuppressed -> delivery_constraints row = Ok tt.
Proof.
  intros Ho Hk Hc Hs. unfold delivery_constraints. rewrite Hc, Hs, (proj2 (Z.ltb_ge _ _)) by done.
  by destruct Hk as [-> | ->].
Qed.

Lemma insert_candidate id clock c db : insertable c db -> rb_deliveries db !! id = None ->
  exists row, rd_key row = rc_key c /\ insert_delivery id clock (reservation c) db =
    if reserved (rc_key c) db then Ok (db, None)
    else Ok (rb_with_deliveries (<[id := row]> (rb_deliveries db)) db, Some id).
Proof.
  intros [Ho Hk [s Hs] [v Hv]] Hid. unfold insert_delivery.
  change (ri_OffsetDays (reservation c)) with (rc_OffsetDays c). rewrite int4_in by done.
  cbv beta iota delta [mbind result_bind]. set (row := Build_ReminderDelivery _ _ _ _ _ _ _ _ _ _).
  rewrite (reservation_constraints row) by (done || by cbn; lia). cbv beta iota.
  exists row. split; [done|]. change (rd_key row) with (rc_key c). destruct (reserved (rc_key c) db); [done|].
  cbn [reservation ri_SubscriptionID ri_VPSID]. by rewrite Hid, Hs, Hv.
Qed.

Lemma scanned_reserved w0 before n w c : reserved (rc_key c) (rw_db w) = true ->
  scanned w0 before n w -> scanned w0 (before ++ [c]) (S n) w.
Proof.
  intros Hr [H1 H2 H3 H4 H5]. constructor; [done..| |done|].
  - intros id Hid. destruct (H3 id Hid) as [?|(m & ? & ?)]; [by left|right]. exists m. split; [lia|done].
  - intros c' [Hc| ->%list_elem_of_singleton]%elem_of_app; [by apply H5|done].
Qed.

(** A new reservation and its dispatch. *)
Lemma scanned_dispatched w0 before n w c id row d : co_id (io_statement (oracle n)) = Ok id -> rd_key row = rc_key c ->
  di_key d = rc_key c -> rb_deliveries (rw_db w) !! id = None -> scanned w0 before n w ->
  scanned w0 (before ++ [c]) (S (S n))
    (dispatch_world (rw_with_db (rb_with_deliveries (<[id := row]> (rb_deliveries (rw_db w))) (rw_db w)) w) d).
Proof.
  intros Hid Hrow Hd Hfree [H1 H2 H3 H4 H5].
  assert (forall key, reserved key (rb_with_deliveries (<[id := row]> (rb_deliveries (rw_db w))) (rw_db w)) = true
                      <-> reserved key (rw_db w) = true \/ key = rc_key c) as Hres.
  { intros key. rewrite !reserved_true. cbn [rb_deliveries rb_with_deliveries]. split.
    - intros (i & r & [[<- <-]|[? Hi]]%lookup_insert_Some & <-); [by right|]. left. by exists i, r.
    - intros [(i & r & Hi & <-)| ->].
      + exists i, r. split; [|done]. rewrite lookup_insert_ne; [done|]. intros ->. congruence.
      + exists id, row. split; [by apply lookup_insert_eq|done]. }
  constructor; [done..| | |]; cbn [dispatch_world rw_db rw_with_db rw_log rb_deliveries rb_with_deliveries].
  - intros i [r [[<- _]|[_ Hi]]%lookup_insert_Some].
    + right. exists n. split; [lia|done].
    + destruct (H3 i ltac:(by eexists)) as [?|(m & ? & ?)]; [by left|right]. exists m. split; [lia|done].
  - destruct H4 as (new & H4 & H6). exists (new ++ [d]). split; [by rewrite H4, app_assoc|].
    intros key [Hk|Hk]%Hres; rewrite fmap_app, elem_of_app.
    + destruct (H6 key Hk); [by left|right; by left].
    + right. right. apply list_elem_of_singleton. by rewrite Hd.
  - intros c' [Hc| ->%list_elem_of_singleton]%elem_of_app; apply Hres; [left; by apply H5|by right].
Qed.

(** One candidate: its key is reserved afterwards, and dispatched unless it was reserved before. *)
Lemma scan_candidate_ok w0 before n w c :
  rs_dispatcher svc = true -> reliable w0 -> insertable c (rw_db w0) -> scanned w0 before n w ->
  let '(w', n', _) := scan_run (scan_candidate svc c) n w in scanned w0 (before ++ [c]) n' w'.
Proof.
  intros Hd Hrel Hins Hsn. destruct (rl_ids _ Hrel n) as (id & Hid & Hfresh0 & Hfresh).
  assert (rb_deliveries (rw_db w) !! id = None) as Hfree.
  { destruct (rb_deliveries (rw_db w) !! id) eqn:E; [|done]. exfalso.
    destruct (sn_ids _ _ _ _ Hsn id ltac:(by eexists)) as [Hs|(m & Hm & Hm')].
    - rewrite Hfresh0 in Hs. by destruct Hs.
    - by apply (Hfresh m id Hm Hm'). }
  assert (insertable c (rw_db w)) as Hins'.
  { destruct Hins. constructor; [done|done|by rewrite (sn_subscriptions _ _ _ _ Hsn)|by rewrite (sn_assets _ _ _ _ Hsn)]. }
  destruct (insert_candidate id (co_clock (io_statement (oracle n))) c (rw_db w) Hins' Hfree) as (row & Hkey & Hi).
  unfold scan_run, scan_candidate, deliverCandidate. rewrite !exec_bind. cbn [exec call].
  assert (perform convert (oracle n) (CallTryCreate (reservation c)) w =
    if reserved (rc_key c) (rw_db w) then (w, Ok ("", false))
    else (rw_with_db (rb_with_deliveries (<[id := row]> (rb_deliveries (rw_db w))) (rw_db w)) w, Ok (id, true))) as ->.
  { cbn. unfold TryCreateReminderDelivery. rewrite Hid, Hi, (rl_answers _ Hrel n).
    destruct (reserved (rc_key c) (rw_db w)); cbn; [by rewrite rw_same|done]. }
  destruct (reserved (rc_key c) (rw_db w)) eqn:Er; [by apply scanned_reserved|].
  rewrite Hd, exec_bind. cbn [exec call perform]. set (d := Build_dispatched _ _ _).
  destruct (exec _ (record_outcome _ _ _ _) _ _) as [[w2 n2] res] eqn:Eo.
  apply quiet_run in Eo as [Hsame Hn]; [|apply quiet_record_outcome].
  assert (scanned w0 (before ++ [c]) n2 w2) as Hend.
  { eapply scanned_quiet; [done|done|]. by apply (scanned_dispatched w0 before n w c id row d). }
  destruct res as [[]|e]; [done|]. cbn. eapply (scanned_quiet _ _ n2); [reflexivity|lia|done].
Qed.

(** * The whole scan *)

(** What the join lists. *)
Lemma due_candidates_elem settings today offsets db c :
  c ∈ due_candidates convert settings today offsets db <->
  exists offset id s, offset ∈ offsets /\ rb_subscriptions db !! id = Some s
    /\ reminder_candidate convert settings today db s offset = Some c.
Proof.
  unfold due_candidates. rewrite sort_stable_elem, list_elem_of_bind. split.
  - intros (offset & (s & Hc & Hs)%list_elem_of_bind & Ho). apply list_elem_of_fmap in Hs as ([id s'] & -> & Hs).
    apply elem_of_map_to_list in Hs. exists offset, id, s'. split_and!; [done..|].
    cbn in *. destruct (reminder_candidate _ _ _ _ _ _); [|by apply elem_of_nil in Hc]. by apply list_elem_of_singleton in Hc as ->.
  - intros (offset & id & s & Ho & Hs & Hc). exists offset. split; [|done]. apply list_elem_of_bind. exists s. rewrite Hc.
    split; [by apply list_elem_of_singleton|]. apply list_elem_of_fmap. exists (id, s). split; [done|]. by apply elem_of_map_to_list.
Qed.

Lemma candidate_insertable settings today db s offset c :
  reminder_candidate convert settings today db s offset = Some c ->
  rb_subscriptions db !! su_SubscriptionID s = Some s -> 0 <= offset <= 2147483647 -> insertable c db.
Proof.
  unfold reminder_candidate. destruct (su_RenewAt s) as [renewAt|]; [|done].
  destruct (rb_assets db !! su_VPSID s) as [v|] eqn:Ev; [|done]. destruct (_ && _ && _); [|done].
  intros [= <-] Hs Ho. constructor; cbn; [done| |by eexists|by eexists]. destruct (_ && _); [by right|by left].
Qed.

Lemma offsets_int4 offsets : (forall o, o ∈ offsets -> 0 <= o <= 2147483647) ->
  fold_result (fun _ o _ => _ ← int4 o; Ok tt) 0 offsets tt = Ok tt.
Proof.
  generalize 0%nat. induction offsets as [|o offsets IH]; intros n H; cbn [fold_result]; [done|].
  rewrite int4_in by (by apply H, list_elem_of_here). apply IH. intros o' Ho'. apply H. by apply list_elem_of_further.
Qed.

(** The loop over a list of candidates the table takes. *)
Lemma scan_loop cs n w : rs_dispatcher svc = true -> reliable w -> (forall c, c ∈ cs -> insertable c (rw_db w)) ->
  let '(w', n', _) := scan_run (for_each cs (scan_candidate svc)) n w in scanned w cs n' w'.
Proof.
  intros Hd Hrel Hins. apply exec_for_each.
  - intros before c rest m v E Hsn. apply scan_candidate_ok; [done..| |done]. apply Hins. rewrite E.
    apply elem_of_app. right. by apply list_elem_of_here.
  - constructor; [done..|by left| |by intros c Hc%elem_of_nil]. exists []. split; [by rewrite app_nil_r|by left].
Qed.

Lemma due_candidate settings today db id s v offset : rb_assets db !! su_VPSID s = Some v ->
  su_SubscriptionID s = id -> su_Status s = StatusActive -> ra_LifecycleStatus v = "active" ->
  su_RenewAt s = Some (today + offset * Day) ->
  exists c, reminder_candidate convert settings today db s offset = Some c
            /\ rc_key c = (id, Time_StartOfDay (today + offset * Day), offset).
Proof.
  intros Hv Hid Hs Hl Hr. unfold reminder_candidate. rewrite Hr, Hv, Hs, Hl, Z.eqb_refl. eexists. split; [done|].
  unfold rc_key. cbn. by rewrite Hid.
Qed.

(** C25: a scan whose statements succeed ends without error, and afterwards every active
    subscription of an active VPS that renews in one of the configured numbers of days from today has
    its delivery; where it had none before the scan, the dispatcher was called for it during the
    scan. *)
Theorem scan_reminds_due w settings today w' n' r :
  rs_dispatcher svc = true -> reliable w ->
  (forall n, io_settings (oracle n) = Ok settings) -> (forall n, io_today (oracle n) = today) ->
  (forall o, o ∈ sc_DefaultReminderOffsetsDays (cs_SubscriptionCost settings) -> 0 <= o <= 2147483647) ->
  (forall id s, rb_subscriptions (rw_db w) !! id = Some s -> su_SubscriptionID s = id) ->
  scan_run (Scan svc) 0 w = (w', n', r) ->
  r = Ok tt /\ exists new, rw_log w' = rw_log w ++ new /\
  forall id s v offset, rb_subscriptions (rw_db w) !! id = Some s -> rb_assets (rw_db w) !! su_VPSID s = Some v ->
    su_Status s = StatusActive -> ra_LifecycleStatus v = "active" ->
    offset ∈ sc_DefaultReminderOffsetsDays (cs_SubscriptionCost settings) ->
    su_RenewAt s = Some (today + offset * Day) ->
    let key := (id, Time_StartOfDay (today + offset * Day), offset) in
    reserved key (rw_db w') = true
    /\ (reserved key (rw_db w) = false -> key ∈ di_key <$> new).
Proof.
  intros Hd Hrel Hset Htoday Hoff Hids. unfold scan_run, Scan. rewrite exec_bind. cbn [exec call perform].
  rewrite Hset, exec_bind. cbn [exec call perform]. set (cost := cs_SubscriptionCost settings) in *.
  set (offsets := sc_DefaultReminderOffsetsDays cost) in *. rewrite Htoday, (rl_query _ Hrel 1%nat).
  destruct (decide (offsets = [])) as [E|Hne].
  { rewrite E. cbn. intros [= <- <- <-]. split; [done|]. exists []. split; [by rewrite app_nil_r|]. by intros id s v offset _ _ _ _ Ho%elem_of_nil. }
  assert (ListReminderCandidates convert None today cost offsets (rw_db w)
          = Ok (due_candidates convert cost today offsets (rw_db w))) as ->.
  { unfold ListReminderCandidates. rewrite offsets_int4 by done. by destruct offsets. }
  pose proof (scan_loop (due_candidates convert cost today offsets (rw_db w)) 2 w Hd Hrel) as Hloop.
  rewrite exec_bind. unfold scan_run in Hloop. destruct (exec _ (for_each _ _) _ _) as [[w1 n1] u].
  cbn. intros [= <- <- <-]. split; [done|]. destruct Hloop as [_ _ _ (new & Hlog & Hnew) Hdone].
  { intros c' (o & i & s' & Ho' & Hs' & Hc')%due_candidates_elem.
    eapply candidate_insertable; [done| |by apply Hoff]. by rewrite (Hids i s' Hs'). }
  exists new. split; [done|]. intros id s v offset Hs Hv Hact Hlife Ho Hrenew.
  destruct (due_candidate cost today (rw_db w) id s v offset) as (c & Hc & Hkey); [by eauto..|]. rewrite <-Hkey.
  assert (reserved (rc_key c) (rw_db w1) = true) as Hr.
  { apply Hdone, due_candidates_elem. by exists offset, id, s. }
  split; [done|]. intros Hno. destruct (Hnew _ Hr); [congruence|done].
Qed.
End Scan.

(** * Concrete reminders *)

(** Concrete reminders: two workers over one subscription that renews in a week, and a scan. *)

Definition reminder_today : Z := Time_Date 2025 3 1.

Definition due_subscription : SubscriptionRecord := {|
  su_SubscriptionID := "sub_1"; su_VPSID := "vps_1"; su_Price := f64_of_Z 12; su_Currency := "CNY";
  su_BillingCycle := "monthly"; su_BillingMonths := 1; su_BillingPeriodUnit := "month"; su_BillingPeriodLength := 1;
  su_MonthlyPrice := f64_ratio 1249 100; su_StartedAt := None; su_RenewAt := Some (reminder_today + 7 * Day);
  su_AutoRenew := false; su_AutoRenewCancelled := false; su_RenewalMode := "manual"; su_Status := StatusActive;
  su_PaymentMethod := ""; su_DisplayName := "tokyo"; su_CostCategory := ""; su_Labels := []; su_TrialEndsAt := None;
  su_EndsAt := None; su_Note := ""; su_CreatedAt := 0; su_UpdatedAt := 0 |}.

Definition due_asset : ReminderAsset := {|
  ra_DisplayName := "tokyo-1"; ra_ProviderID := ""; ra_ProviderName := "acme"; ra_RenewalDecision := "";
  ra_AutoRenewCheck := "unchecked"; ra_LifecycleStatus := "active" |}.

Definition due_db : reminder_db := {|
  rb_subscriptions := {["sub_1" := due_subscription]}; rb_assets := {["vps_1" := due_asset]}; rb_providers := ∅;
  rb_rates := []; rb_deliveries := ∅ |}.

Definition both_services : ReminderService := {| rs_dispatcher := true; rs_audit := true |}.

Definition telegram_sent : list NotificationDelivery :=
  [{| dl_Channel := NotificationChannelTelegram; dl_Status := DeliveryStatusSent; dl_Error := None |}].

Definition reminder_answer (id : string) (answer : exec_answer) : reminder_io := {|
  io_settings := Ok Default; io_query := None; io_today := reminder_today;
  io_statement := {| co_id := Ok id; co_clock := reminder_today; co_answer := answer |};
  io_deliveries := telegram_sent; io_now := reminder_today + Hour |}.

(** Both workers list the candidate; the first reserves and dispatches, the second finds the reservation;
    the first loses the answer of its update, restarts and finds it too. *)
Definition two_worker_events : list reminder_event :=
  let a := reminder_answer "d_a" Executed in
  let b := reminder_answer "d_b" Executed in
  let lost := reminder_answer "d_a" (ExecFailed (ErrNew "connection lost") true) in
  [EvCall 0 a; EvCall 1 b; EvCall 0 a; EvCall 1 b; EvCall 0 a; EvCall 1 b; EvCall 0 a; EvCall 0 a; EvCall 0 lost;
   EvCall 0 a; EvTick 1; EvRestart 0; EvCall 0 a; EvCall 0 a; EvCall 0 a].

Definition two_worker_end : option reminder_system :=
  run_reminders (fun x _ => x) both_services two_worker_events (start_reminders both_services 2 due_db fixture_db).

Definition reminder_key : delivery_key := ("sub_1", reminder_today + 7 * Day, 7).

Lemma reminder_dispatched_once_witness : exists y, two_worker_end = Some y
  /\ di_key <$> rw_log (sy_world y) = [reminder_key] /\ NoDup (di_key <$> rw_log (sy_world y)).
Proof.
  assert ((fun y => di_key <$> rw_log (sy_world y)) <$> two_worker_end = Some [reminder_key]) as Hk
    by (vm_compute; reflexivity).
  destruct two_worker_end as [y|] eqn:E; [|discriminate Hk]. exists y. split; [reflexivity|].
  injection Hk as Hk. split; [exact Hk|].
  exact (reminder_dispatched_once (fun x _ => x) both_services 2 due_db fixture_db two_worker_events y E).
Defined.

(** The update of the first worker was applied although its answer was lost. *)
Lemma reminder_outcome_truthful_witness : exists y row d, two_worker_end = Some y
  /\ rb_deliveries (rw_db (sy_world y)) !! "d_a" = Some row /\ rd_Status row = DeliveryStatusSent
  /\ rd_SentAt row = Some (reminder_today + Hour) /\ d ∈ rw_log (sy_world y) /\ di_key d = rd_key row.
Proof.
  assert ((fun y => (fun row => (rd_Status row, rd_SentAt row)) <$> rb_deliveries (rw_db (sy_world y)) !! "d_a") <$> two_worker_end
          = Some (Some (DeliveryStatusSent, Some (reminder_today + Hour)))) as Hr by (vm_compute; reflexivity).
  destruct two_worker_end as [y|] eqn:E; [|discriminate Hr]. injection Hr as Hr. destruct (rb_deliveries (rw_db (sy_world y)) !! "d_a") as [row|] eqn:Erow; [|discriminate].
  injection Hr as Hs Ht.
  destruct (reminder_outcome_truthful (fun x _ => x) both_services 2 due_db fixture_db two_worker_events y E) as [Hrow _].
  destruct (Hrow "d_a" row Erow) as [_ [Hsup|(d & Hd & Hk & _)]]; [rewrite Hs in Hsup; discriminate|].
  exists y, row, d. split_and!; (reflexivity || assumption).
Defined.

(** * A scan *)

Definition scan_oracle (n : nat) : reminder_io := reminder_answer (fmt_d (Z.of_nat n)) Executed.

Definition due_world : reminder_world := {| rw_db := due_db; rw_incidents := fixture_db; rw_log := [] |}.

Lemma scan_oracle_reliable : reliable scan_oracle due_world.
Proof.
  constructor; [done..|]. intros n. exists (fmt_d (Z.of_nat n)). split_and!; [done|by apply lookup_empty|].
  intros m id' Hm [= <-] E%(inj fmt_d). lia.
Qed.

Lemma default_offsets o : o ∈ sc_DefaultReminderOffsetsDays (cs_SubscriptionCost Default) -> 0 <= o <= 2147483647.
Proof. cbn. rewrite !elem_of_cons, elem_of_nil. lia. Qed.

Lemma scan_reminds_due_witness : exists w' n',
  scan_run (fun x _ => x) scan_oracle (Scan both_services) 0 due_world = (w', n', Ok tt)
  /\ reserved reminder_key (rw_db w') = true /\ reminder_key ∈ di_key <$> rw_log w'.
Proof.
  destruct (scan_run (fun x _ => x) scan_oracle (Scan both_services) 0 due_world) as [[w' n'] r] eqn:E.
  destruct (scan_reminds_due (fun x _ => x) both_services scan_oracle due_world Default reminder_today w' n' r
    eq_refl scan_oracle_reliable ltac:(done) ltac:(done)) as [-> (new & Hlog & Hdue)].
  - apply default_offsets.
  - intros id s Hs. cbn [due_world rw_db due_db rb_subscriptions] in Hs. apply lookup_singleton_Some in Hs as [<- <-]. reflexivity.
  - exact E.
  - exists w', n'. split; [reflexivity|].
    destruct (Hdue "sub_1" due_subscription due_asset 7) as [H1 H2];
      [exact (lookup_singleton_eq "sub_1" due_subscription)|exact (lookup_singleton_eq "vps_1" due_asset)|reflexivity
      |reflexivity|apply list_elem_of_further, list_elem_of_here|reflexivity|].
    split; [exact H1|]. cbn in Hlog. rewrite Hlog. apply H2. vm_compute. reflexivity.
Defined.

Lemma candidate_text :
  (candidateSummary <$> due_candidates (fun x _ => x) (cs_SubscriptionCost Default) reminder_today [14; 7; 1] due_db)
  = ["订阅续费提醒：tokyo 将在 2025-03-08 续费，提前 7 天，月成本约 12.49 CNY。VPS 决策：未记录，生命周期：active。"].
Proof. vm_compute. reflexivity. Qed.
