(* ===== verification/Accounts.v ===== *)
(** Accounts and browser sessions: the types and the password policy of
    src/internal/center/auth, and the two repositories behind them
    (src/internal/center/store/users.go, store/sessions.go).  A transaction locks the row of the user
    first, so transactions on one account follow one another; each is one step here. *)
From stdpp Require Import base list strings gmap.
From Stdlib Require Import ZArith Lia.
From S2P Require Import Prelude GoRuntime Notification Settings Postgres Subscriptions.

Local Open Scope Z_scope.
#[local] Set Warnings "-clear-no-such-hyp".

(** * Constants and errors *)

Definition RoleAdmin : string := "admin".
Definition DefaultSessionTTL : Z := 7 * 24 * Hour.
Definition MinPasswordLength : nat := 8.
Definition MaxPasswordLength : nat := 256.
Definition MinUsernameLength : nat := 1.
Definition MaxUsernameLength : nat := 64.
Definition DefaultPasswordBcryptCost : Z := 10.
Definition bcrypt_MinCost : Z := 4.
Definition bcrypt_MaxCost : Z := 31.

Definition UserNotFoundName : string := "user not found".
Definition ErrUserNotFound : error := ErrSentinel UserNotFoundName.
Definition UsernameTakenName : string := "username already taken".
Definition ErrUsernameTaken : error := ErrSentinel UsernameTakenName.
Definition InitialUserAlreadyExistsName : string := "initial supervisor already exists".
Definition ErrInitialUserAlreadyExists : error := ErrSentinel InitialUserAlreadyExistsName.
Definition ErrInvalidCredentials : error := ErrSentinel "invalid username or password".
Definition ErrSessionNotFound : error := ErrSentinel "session not found".
Definition ErrSessionExpired : error := ErrSentinel "session expired".
Definition PasswordTooShortName : string := "password too short".
Definition ErrPasswordTooShort : error := ErrSentinel PasswordTooShortName.
Definition PasswordTooLongName : string := "password too long".
Definition ErrPasswordTooLong : error := ErrSentinel PasswordTooLongName.
Definition PasswordTooWeakName : string := "password too weak".
Definition ErrPasswordTooWeak : error := ErrSentinel PasswordTooWeakName.
Definition ErrUsernameInvalid : error := ErrSentinel "username invalid".
Definition ErrPasswordHashInvalid : error := ErrSentinel "password hash invalid".
Definition ErrPasswordBcryptCostInvalid : error := ErrSentinel "password bcrypt cost invalid".

Definition bcryptMismatchedName : string := "crypto/bcrypt: hashedPassword is not the hash of the given password".
Definition bcryptHashTooShortName : string := "crypto/bcrypt: hashedSecret too short to be a bcrypted password".

(** * Data *)

Record User := {
  us_UserID : string;
  us_Username : string;
  us_PasswordHash : string;
  us_DisplayName : string;
  us_Role : string;
  us_IsSupervisor : bool;
  us_DisabledAt : option Z;
  us_CreatedAt : Z;
  us_PasswordChangedAt : Z;
}.

(** The only management capability is access. *)
Definition ManagementCapabilities (u : User) : bool := us_IsSupervisor u && negb (is_set (us_DisabledAt u)).

Record Session := {
  se_SessionID : string;
  se_UserID : string;
  se_IssuedAt : Z;
  se_LastSeenAt : Z;
  se_ExpiresAt : Z;
  se_UserAgent : string;
  se_ClientIP : string;
  se_ManagementAccess : bool;
}.

(** A row of sessions, under the hash of its id. *)
Record session_row := {
  sw_UserID : string;
  sw_IssuedAt : Z;
  sw_LastSeenAt : Z;
  sw_ExpiresAt : Z;
  sw_UserAgent : string;
  sw_ClientIP : string;
}.

(** Groups of the record area with their members, which the administration of accounts manages. *)
Record group_row := { gr_DisplayName : string; gr_CreatedAt : Z; gr_UpdatedAt : Z }.

Record account_db := {
  ad_users : gmap string User;
  ad_sessions : gmap string session_row;
  ad_groups : gmap string group_row;
  ad_members : gset (string * string);
}.

Definition ad_with_users (u : gmap string User) (db : account_db) : account_db := {|
  ad_users := u; ad_sessions := ad_sessions db; ad_groups := ad_groups db; ad_members := ad_members db |}.
Definition ad_with_sessions (s : gmap string session_row) (db : account_db) : account_db := {|
  ad_users := ad_users db; ad_sessions := s; ad_groups := ad_groups db; ad_members := ad_members db |}.

Definition us_with_password (hash : string) (changedAt : Z) (u : User) : User := {|
  us_UserID := us_UserID u; us_Username := us_Username u; us_PasswordHash := hash; us_DisplayName := us_DisplayName u;
  us_Role := us_Role u; us_IsSupervisor := us_IsSupervisor u; us_DisabledAt := us_DisabledAt u;
  us_CreatedAt := us_CreatedAt u; us_PasswordChangedAt := changedAt |}.

Definition us_with_disabled (d : option Z) (u : User) : User := {|
  us_UserID := us_UserID u; us_Username := us_Username u; us_PasswordHash := us_PasswordHash u;
  us_DisplayName := us_DisplayName u; us_Role := us_Role u; us_IsSupervisor := us_IsSupervisor u; us_DisabledAt := d;
  us_CreatedAt := us_CreatedAt u; us_PasswordChangedAt := us_PasswordChangedAt u |}.

(** What lies outside the program: the classes of the runes beyond ASCII in the tables of
    [unicode], bcrypt with the random bytes of its salt (or the failure to read them), HMAC-SHA-256 and its key in this
    deployment. *)
Class AccountEnv := {
  unicode_IsLower : Z -> bool;
  unicode_IsUpper : Z -> bool;
  unicode_IsDigit : Z -> bool;
  bcrypt_GenerateFromPassword : result string -> string -> Z -> result string;
  bcrypt_CompareHashAndPassword : string -> string -> option error;
  hmac_sha256 : string -> string -> string;
  hmacKey : string;
}.

Section Accounts.
Context `{Env : AccountEnv}.

(** * Passwords *)

Definition ascii_range (lo hi r : Z) : bool := (lo <=? r) && (r <=? hi).
Definition rune_IsLower (r : Z) : bool := if r <? 128 then ascii_range 97 122 r else unicode_IsLower r.
Definition rune_IsUpper (r : Z) : bool := if r <? 128 then ascii_range 65 90 r else unicode_IsUpper r.
Definition rune_IsDigit (r : Z) : bool := if r <? 128 then ascii_range 48 57 r else unicode_IsDigit r.

(** [strings.Contains]. *)
Fixpoint strings_Contains (s sub : string) : bool :=
  String.prefix sub s || match s with String.EmptyString => false | String.String _ s => strings_Contains s sub end.

Inductive rune_class := ClassLower | ClassUpper | ClassDigit | ClassSymbol.

Definition class_of (r : Z) : rune_class :=
  if rune_IsLower r then ClassLower else if rune_IsUpper r then ClassUpper
  else if rune_IsDigit r then ClassDigit else ClassSymbol.

Definition has_class (c : rune_class) (runes : list Z) : bool :=
  existsb (fun r => match class_of r, c with
                    | ClassLower, ClassLower | ClassUpper, ClassUpper
                    | ClassDigit, ClassDigit | ClassSymbol, ClassSymbol => true
                    | _, _ => false
                    end) runes.

Definition isAcceptablePassword (plain : string) : bool :=
  let normalized := strings_ToLower (strings_TrimSpace plain) in
  if existsb (strings_Contains normalized) ["password"; "qwerty"; "admin"; "letmein"; "welcome"; "123456"] then false
  else
    let runes := runes_of_string plain in
    let same := match runes with [] => true | first :: rest => forallb (Z.eqb first) rest end in
    if same then false
    else
      let classes := length (List.filter (fun c => has_class c runes) [ClassLower; ClassUpper; ClassDigit; ClassSymbol]) in
      (2 <=? classes)%nat.

Definition HashPasswordWithCost (salt : result string) (plain : string) (cost : Z) : result string :=
  _ ← reject (String.length plain <? MinPasswordLength)%nat ErrPasswordTooShort;
  _ ← reject (MaxPasswordLength <? String.length plain)%nat ErrPasswordTooLong;
  _ ← reject (negb (isAcceptablePassword plain)) ErrPasswordTooWeak;
  _ ← reject ((cost <? bcrypt_MinCost) || (bcrypt_MaxCost <? cost)) ErrPasswordBcryptCostInvalid;
  map_error (fun e => ErrWrap "bcrypt generate: %w" [] [e]) (bcrypt_GenerateFromPassword salt plain cost).

Definition VerifyPassword (hashed plain : string) : result () :=
  if (String.length hashed <? 4)%nat then Err ErrPasswordHashInvalid
  else match bcrypt_CompareHashAndPassword hashed plain with
       | None => Ok tt
       | Some err => if errors_Is bcryptMismatchedName err then Err ErrInvalidCredentials
                     else if errors_Is bcryptHashTooShortName err then Err ErrPasswordHashInvalid
                     else Err (ErrWrap "bcrypt compare: %w" [] [err])
       end.

(** * The users table *)

Definition users_list (db : account_db) : list User := (map_to_list (ad_users db)).*2.

(** The constraints of users, in the order the server meets them. *)
Definition user_constraints (u : User) (db : account_db) : result () :=
  _ ← reject (us_IsSupervisor u && negb ((us_Role u =s RoleAdmin) && negb (is_set (us_DisabledAt u))))
        (PgConstraint "23514" "users_supervisor_contract");
  _ ← reject (is_set (ad_users db !! us_UserID u)) (PgConstraint "23505" "users_pkey");
  _ ← reject (existsb (fun v => us_Username v =s us_Username u) (users_list db)) (PgConstraint "23505" "users_username_key");
  reject (us_IsSupervisor u && existsb us_IsSupervisor (users_list db))
    (PgConstraint "23505" "users_single_supervisor_idx").

(** The row of a user as it is stored. *)
Definition stored_user (u : User) : User := {|
  us_UserID := us_UserID u; us_Username := us_Username u; us_PasswordHash := us_PasswordHash u;
  us_DisplayName := us_DisplayName u; us_Role := us_Role u; us_IsSupervisor := us_IsSupervisor u;
  us_DisabledAt := timestamptz <$> us_DisabledAt u; us_CreatedAt := timestamptz (us_CreatedAt u);
  us_PasswordChangedAt := timestamptz (us_PasswordChangedAt u) |}.

Definition insert_user (u : User) (db : account_db) : result (account_db * User) :=
  _ ← user_constraints u db;
  Ok (ad_with_users (<[us_UserID u := stored_user u]> (ad_users db)) db, stored_user u).

(** What one call meets: the statements that fail, the end of the commit, the clock and the source of
    random bytes. *)
Record account_io := {
  ac_faults : faults;
  ac_answer : exec_answer;
  ac_clock : Z;
  ac_random : result string;
}.

Definition query_user (io : account_io) (found : option User) : result User :=
  _ ← statement (ac_faults io) "query user" 0 (fun e => ErrWrap "query user: %w" [] [e]);
  match found with Some u => Ok u | None => Err ErrUserNotFound end.

Definition FindByUsername (io : account_io) (username : string) (db : account_db) : result User :=
  query_user io (List.find (fun u => us_Username u =s username) (users_list db)).

Definition FindByID (io : account_io) (userID : string) (db : account_db) : result User :=
  query_user io (ad_users db !! userID).

Definition CountUsers (io : account_io) (db : account_db) : result Z :=
  _ ← statement (ac_faults io) "count users" 0 (fun e => ErrWrap "count users: %w" [] [e]);
  Ok (Z.of_nat (size (ad_users db))).

Definition activeSupervisorExists (io : account_io) (db : account_db) : result bool :=
  _ ← statement (ac_faults io) "query supervisor" 0 (fun e => ErrWrap "query supervisor: %w" [] [e]);
  Ok match List.find us_IsSupervisor (users_list db) with
     | Some u => negb (us_UserID u =s "") && (us_Role u =s RoleAdmin) && negb (is_set (us_DisabledAt u))
     | None => false
     end.

(** * The sessions table *)

Definition hashSessionID (sessionID : string) : string := hex_EncodeToString (hmac_sha256 hmacKey sessionID).

Definition normalizeSessionClock (io : account_io) : Z := Time_Truncate (ac_clock io) Microsecond.

Definition laterSessionTime (a b : Z) : Z := if Time_Before a b then b else a.

(** Expired, or issued under an older password. *)
Definition session_stale (checkedAt issuedAt expiresAt passwordChangedAt : Z) : bool :=
  negb (Time_After expiresAt checkedAt) || (negb (Time_IsZero issuedAt) && Time_Before issuedAt passwordChangedAt).

Definition ValidateSession (io : account_io) (sessionID : string) (db : account_db) : result () :=
  _ ← statement (ac_faults io) "validate session" 0 (fun e => ErrWrap "validate session: %w" [] [e]);
  match ad_sessions db !! hashSessionID sessionID with
  | None => Err ErrSessionNotFound
  | Some s =>
      match ad_users db !! sw_UserID s with
      | None => Err ErrSessionNotFound
      | Some u =>
          _ ← reject (is_set (us_DisabledAt u)) ErrSessionExpired;
          reject (session_stale (normalizeSessionClock io) (sw_IssuedAt s) (sw_ExpiresAt s) (us_PasswordChangedAt u))
            ErrSessionExpired
      end
  end.

(** A statement of a transaction. *)
Definition stmt (io : account_io) (what : string) : result () :=
  statement (ac_faults io) what 0 (fun e => ErrWrap "%s: %w" [what] [e]).

Definition create_session_tx (io : account_io) (ttl : Z) (expectedHash : string) (session : Session) (db : account_db)
    : result (account_db * Session) :=
  _ ← stmt io "lock user for session creation";
  match ad_users db !! se_UserID session with
  | None => Err ErrInvalidCredentials
  | Some u =>
      _ ← reject (negb (us_PasswordHash u =s expectedHash) || is_set (us_DisabledAt u)) ErrInvalidCredentials;
      let issuedAt := laterSessionTime (normalizeSessionClock io) (us_PasswordChangedAt u) in
      _ ← stmt io "insert session";
      let key := hashSessionID (se_SessionID session) in
      _ ← reject (is_set (ad_sessions db !! key))
            (ErrWrap "insert session: %w" [] [PgConstraint "23505" "sessions_pkey"]);
      let row := {| sw_UserID := se_UserID session; sw_IssuedAt := timestamptz issuedAt;
                    sw_LastSeenAt := timestamptz issuedAt; sw_ExpiresAt := timestamptz (issuedAt + ttl);
                    sw_UserAgent := se_UserAgent session; sw_ClientIP := se_ClientIP session |} in
      Ok (ad_with_sessions (<[key := row]> (ad_sessions db)) db,
          {| se_SessionID := se_SessionID session; se_UserID := sw_UserID row; se_IssuedAt := sw_IssuedAt row;
             se_LastSeenAt := sw_LastSeenAt row; se_ExpiresAt := sw_ExpiresAt row; se_UserAgent := sw_UserAgent row;
             se_ClientIP := sw_ClientIP row; se_ManagementAccess := us_IsSupervisor u && negb (is_set (us_DisabledAt u)) |})
  end.

(** Begin, body and commit of a transaction of the repository. *)
Definition account_tx {A} (io : account_io) (what : string) (db : account_db) (body : result (account_db * A))
    : account_db * result A :=
  transaction (ac_answer io) (fun e => ErrWrap "commit %s: %w" [what] [e]) db
    (_ ← statement (ac_faults io) "begin" 0 (fun e => ErrWrap "begin %s transaction: %w" [what] [e]); body).

Definition CreateIfPasswordHash (io : account_io) (ttl : Z) (expectedHash : string) (session : Session) (db : account_db)
    : account_db * result Session :=
  account_tx io "session creation" db (create_session_tx io ttl expectedHash session db).

Definition change_password_tx (io : account_io) (userID currentSessionID expectedHash newHash : string) (db : account_db)
    : result (account_db * ()) :=
  _ ← stmt io "lock user for password change";
  match ad_users db !! userID with
  | None => Err ErrUserNotFound
  | Some u =>
      _ ← reject (is_set (us_DisabledAt u)) ErrSessionNotFound;
      _ ← reject (negb (us_PasswordHash u =s expectedHash)) ErrInvalidCredentials;
      _ ← stmt io "lock current session for password change";
      let key := hashSessionID currentSessionID in
      match ad_sessions db !! key with
      | None => Err ErrSessionNotFound
      | Some current =>
          _ ← reject (negb (sw_UserID current =s userID)) ErrSessionNotFound;
          let checkedAt := normalizeSessionClock io in
          _ ← reject (session_stale checkedAt (sw_IssuedAt current) (sw_ExpiresAt current) (us_PasswordChangedAt u))
                ErrSessionExpired;
          let changedAt := laterSessionTime checkedAt (us_PasswordChangedAt u) in
          _ ← stmt io "update password";
          _ ← stmt io "update current session";
          _ ← stmt io "delete other sessions";
          let current := {| sw_UserID := sw_UserID current; sw_IssuedAt := timestamptz changedAt;
                            sw_LastSeenAt := sw_LastSeenAt current; sw_ExpiresAt := sw_ExpiresAt current;
                            sw_UserAgent := sw_UserAgent current; sw_ClientIP := sw_ClientIP current |} in
          let others := filter (fun r => sw_UserID r.2 <> userID) (ad_sessions db) in
          Ok (ad_with_sessions (<[key := current]> others)
                (ad_with_users (<[userID := us_with_password newHash (timestamptz changedAt) u]> (ad_users db)) db), tt)
      end
  end.

Definition ChangePasswordIfHash (io : account_io) (userID currentSessionID expectedHash newHash : string) (db : account_db)
    : account_db * result () :=
  account_tx io "password change" db (change_password_tx io userID currentSessionID expectedHash newHash db).

(** The first, unlocked read of [TouchWithUserLock]. *)
Definition session_owner (io : account_io) (sessionID : string) (db : account_db) : result string :=
  _ ← statement (ac_faults io) "find session owner" 0 (fun e => ErrWrap "find session owner: %w" [] [e]);
  match ad_sessions db !! hashSessionID sessionID with Some s => Ok (sw_UserID s) | None => Err ErrSessionNotFound end.

(** Its transaction: [inl] names the deletion of a session that is refused. *)
Definition touch_tx (io : account_io) (ttl : Z) (sessionID userID : string) (db : account_db)
    : result (account_db * (string + Session)) :=
  _ ← stmt io "lock session owner";
  match ad_users db !! userID with
  | None => Err ErrUserNotFound
  | Some u =>
      _ ← stmt io "lock session";
      let key := hashSessionID sessionID in
      match ad_sessions db !! key with
      | None => Err ErrSessionNotFound
      | Some s =>
          _ ← reject (negb (sw_UserID s =s userID)) ErrSessionNotFound;
          let dropped := ad_with_sessions (delete key (ad_sessions db)) db in
          if is_set (us_DisabledAt u) then _ ← stmt io "delete disabled session"; Ok (dropped, inl "disabled session deletion")
          else
            let checkedAt := normalizeSessionClock io in
            if session_stale checkedAt (sw_IssuedAt s) (sw_ExpiresAt s) (us_PasswordChangedAt u)
            then _ ← stmt io "delete expired session"; Ok (dropped, inl "expired session deletion")
            else
              let baseline := laterSessionTime (laterSessionTime checkedAt (sw_LastSeenAt s)) (us_PasswordChangedAt u) in
              _ ← stmt io "refresh session";
              let row := {| sw_UserID := sw_UserID s; sw_IssuedAt := sw_IssuedAt s;
                            sw_LastSeenAt := timestamptz baseline; sw_ExpiresAt := timestamptz (baseline + ttl);
                            sw_UserAgent := sw_UserAgent s; sw_ClientIP := sw_ClientIP s |} in
              Ok (ad_with_sessions (<[key := row]> (ad_sessions db)) db,
                  inr {| se_SessionID := sessionID; se_UserID := sw_UserID s; se_IssuedAt := sw_IssuedAt s;
                         se_LastSeenAt := baseline; se_ExpiresAt := baseline + ttl; se_UserAgent := sw_UserAgent s;
                         se_ClientIP := sw_ClientIP s;
                         se_ManagementAccess := us_IsSupervisor u && negb (is_set (us_DisabledAt u)) |})
      end
  end.

Definition touch_session (io : account_io) (ttl : Z) (sessionID userID : string) (db : account_db)
    : account_db * result Session :=
  let body := touch_tx io ttl sessionID userID db in
  let what := match body with Ok (_, inl deletion) => deletion | _ => "session touch" end in
  let '(db', r) :=
    transaction (ac_answer io) (fun e => ErrWrap "commit %s: %w" [what] [e]) db
      (_ ← statement (ac_faults io) "begin" 0 (fun e => ErrWrap "begin session touch transaction: %w" [] [e]); body) in
  (db', match r with Ok (inr s) => Ok s | Ok (inl _) => Err ErrSessionExpired | Err e => Err e end).

Definition Sessions_Delete (io : account_io) (sessionID : string) (db : account_db) : account_db * result () :=
  let '(db', r) := autocommit (ac_answer io) db
                     (Ok (ad_with_sessions (delete (hashSessionID sessionID) (ad_sessions db)) db, tt)) in
  (db', map_error (fun e => ErrWrap "delete session: %w" [] [e]) r).

Definition DeleteExpiredBefore (io : account_io) (cutoff : Z) (db : account_db) : account_db * result Z :=
  let kept := filter (fun r => ~ sw_ExpiresAt r.2 < timestamptz cutoff) (ad_sessions db) in
  let '(db', r) := autocommit (ac_answer io) db
                     (Ok (ad_with_sessions kept db, Z.of_nat (size (ad_sessions db)) - Z.of_nat (size kept))) in
  (db', map_error (fun e => ErrWrap "delete expired: %w" [] [e]) r).
End Accounts.
