(* ===== verification/AccessAdmin.v ===== *)
(** The administration of accounts and record groups (src/internal/center/accessadmin, over
    src/internal/center/store/access_admin.go): every operation is a transaction that locks the row
    of the acting supervisor first. *)
From stdpp Require Import base list strings gmap.
From Stdlib Require Import ZArith Lia.
From S2P Require Import Prelude GoRuntime Notification Settings Postgres Subscriptions Accounts.

Local Open Scope Z_scope.
#[local] Set Warnings "-clear-no-such-hyp".

(** * Errors and data *)

Definition InvalidRequestName : string := "invalid access-management request".
Definition ErrInvalidRequest : error := ErrSentinel InvalidRequestName.
Definition ManagementForbiddenName : string := "access-management forbidden".
Definition ErrManagementForbidden : error := ErrSentinel ManagementForbiddenName.
Definition ManagementUnavailableName : string := "access-management unavailable".
Definition ErrManagementUnavailable : error := ErrSentinel ManagementUnavailableName.
Definition ResourceNotFoundName : string := "access-management resource not found".
Definition ErrResourceNotFound : error := ErrSentinel ResourceNotFoundName.
(** Its text is that of the error of the auth package, but it is another value. *)
Definition AdminUsernameTakenName : string := "accessadmin: username already taken".
Definition ErrAdminUsernameTaken : error := ErrSentinel AdminUsernameTakenName.
Definition GroupNameTakenName : string := "record access-group name already taken".
Definition ErrGroupNameTaken : error := ErrSentinel GroupNameTakenName.
Definition SupervisorProtectedName : string := "supervisor account is protected".
Definition ErrSupervisorProtected : error := ErrSentinel SupervisorProtectedName.
Definition UserDisabledName : string := "user is disabled".
Definition ErrUserDisabled : error := ErrSentinel UserDisabledName.

Record UserSummary := {
  uv_UserID : string;
  uv_Username : string;
  uv_DisplayName : string;
  uv_Role : string;
  uv_IsSupervisor : bool;
  uv_DisabledAt : option Z;
  uv_CreatedAt : Z;
}.

Record GroupSummary := { gs_GroupID : string; gs_DisplayName : string }.

(** A member without an account is missing. *)
Record MemberSummary := { ms_User : UserSummary; ms_Missing : bool }.

Record CreateUserInput := { cu_Username : string; cu_Password : string; cu_DisplayName : string }.

Definition user_summary (u : User) : UserSummary := {|
  uv_UserID := us_UserID u; uv_Username := us_Username u; uv_DisplayName := us_DisplayName u; uv_Role := us_Role u;
  uv_IsSupervisor := us_IsSupervisor u; uv_DisabledAt := us_DisabledAt u; uv_CreatedAt := us_CreatedAt u |}.

Definition unavailableAccessAdminError (operation : string) (_ : error) : error :=
  ErrWrap "%w: %s" [operation] [ErrManagementUnavailable].

Definition mapAccessAdminWriteError (operation : string) (err : error) : error :=
  let unavailable := unavailableAccessAdminError operation err in
  match pg_code err with
  | Some code =>
      if code =s "23505" then
        match pg_constraint err with
        | Some name => if name =s "users_username_key" then ErrAdminUsernameTaken
                       else if name =s "record_access_groups_project_display_name_key" then ErrGroupNameTaken
                       else unavailable
        | None => unavailable
        end
      else if code =s "23503" then ErrResourceNotFound
      else if code =s "23514" then ErrInvalidRequest
      else unavailable
  | None => unavailable
  end.

Definition is_active_supervisor (u : User) : bool :=
  (us_Role u =s RoleAdmin) && us_IsSupervisor u && negb (is_set (us_DisabledAt u)).

Section Repository.

(** A statement whose failure makes the operation unavailable. *)
Definition admin_stmt (io : account_io) (operation : string) : result () :=
  statement (ac_faults io) operation 0 (unavailableAccessAdminError operation).

(** A statement whose failure is classified. *)
Definition write_stmt {A} (io : account_io) (operation : string) (r : result A) : result A :=
  match ac_faults io operation 0%nat with
  | Some e => Err (mapAccessAdminWriteError operation e)
  | None => map_error (mapAccessAdminWriteError operation) r
  end.

Definition check_supervisor (io : account_io) (operation actorID : string) (db : account_db) : result () :=
  _ ← admin_stmt io operation;
  match ad_users db !! actorID with
  | Some u => reject (negb (is_active_supervisor u)) ErrManagementForbidden
  | None => Err ErrManagementForbidden
  end.

Definition repo_AuthorizeSupervisor (io : account_io) (actorID : string) (db : account_db) : result () :=
  check_supervisor io "authorize supervisor" actorID db.

Definition repo_AuthorizeActiveUser (io : account_io) (actorID : string) (db : account_db) : result () :=
  _ ← admin_stmt io "authorize active user";
  match ad_users db !! actorID with
  | Some u => reject (is_set (us_DisabledAt u)) ErrManagementForbidden
  | None => Err ErrManagementForbidden
  end.

Definition lockAccessAdminSupervisor (io : account_io) (actorID : string) (db : account_db) : result () :=
  check_supervisor io "lock supervisor" actorID db.

(** Begin and commit around the body of an operation. *)
Definition admin_tx {A} (io : account_io) (operation : string) (db : account_db) (body : result (account_db * A))
    : account_db * result A :=
  transaction (ac_answer io) (unavailableAccessAdminError operation) db
    (_ ← admin_stmt io "begin access-management transaction"; body).

(** ** Users *)

Definition user_order (a b : UserSummary) : bool :=
  string_less (uv_Username a) (uv_Username b)
  || ((uv_Username a =s uv_Username b) && string_less (uv_UserID a) (uv_UserID b)).

Definition list_users_tx (io : account_io) (actorID : string) (db : account_db) : result (account_db * list UserSummary) :=
  _ ← lockAccessAdminSupervisor io actorID db;
  _ ← admin_stmt io "list users";
  Ok (db, sort_stable user_order (user_summary <$> users_list db)).

Definition create_user_tx (io : account_io) (actorID : string) (user : User) (db : account_db)
    : result (account_db * UserSummary) :=
  _ ← lockAccessAdminSupervisor io actorID db;
  created ← write_stmt io "create user"
    (insert_user {| us_UserID := us_UserID user; us_Username := us_Username user; us_PasswordHash := us_PasswordHash user;
                    us_DisplayName := us_DisplayName user; us_Role := RoleAdmin; us_IsSupervisor := false;
                    us_DisabledAt := None; us_CreatedAt := us_CreatedAt user;
                    us_PasswordChangedAt := us_PasswordChangedAt user |} db);
  Ok (created.1, user_summary created.2).

(** [delete from sessions where user_id = $1]. *)
Definition delete_user_sessions (userID : string) (db : account_db) : account_db :=
  ad_with_sessions (filter (fun r => sw_UserID r.2 <> userID) (ad_sessions db)) db.

Definition set_enabled_tx (io : account_io) (actorID targetID : string) (enabled : bool) (now : Z) (db : account_db)
    : result (account_db * UserSummary) :=
  _ ← lockAccessAdminSupervisor io actorID db;
  target ←
    (if targetID =s actorID then
       match ad_users db !! targetID with Some u => Ok (u, true) | None => Err ErrResourceNotFound end
     else
       _ ← admin_stmt io "lock target user";
       match ad_users db !! targetID with Some u => Ok (u, us_IsSupervisor u) | None => Err ErrResourceNotFound end);
  _ ← reject (target.2 && negb enabled) ErrSupervisorProtected;
  if enabled then
    _ ← admin_stmt io "enable user";
    let u := us_with_disabled None target.1 in
    _ ← admin_stmt io "read updated user";
    Ok (ad_with_users (<[targetID := u]> (ad_users db)) db, user_summary u)
  else
    _ ← admin_stmt io "disable user";
    let u := us_with_disabled (Some (default (timestamptz now) (us_DisabledAt target.1))) target.1 in
    _ ← admin_stmt io "revoke disabled user sessions";
    _ ← admin_stmt io "read updated user";
    Ok (delete_user_sessions targetID (ad_with_users (<[targetID := u]> (ad_users db)) db), user_summary u).

Definition reset_password_tx (io : account_io) (actorID targetID newHash : string) (now : Z) (db : account_db)
    : result (account_db * ()) :=
  _ ← lockAccessAdminSupervisor io actorID db;
  _ ← reject (targetID =s actorID) ErrSupervisorProtected;
  _ ← admin_stmt io "lock password target";
  match ad_users db !! targetID with
  | None => Err ErrResourceNotFound
  | Some u =>
      _ ← reject (us_IsSupervisor u) ErrSupervisorProtected;
      _ ← admin_stmt io "reset user password";
      _ ← admin_stmt io "revoke reset user sessions";
      let u := us_with_password newHash (timestamptz now) u in
      Ok (delete_user_sessions targetID (ad_with_users (<[targetID := u]> (ad_users db)) db), tt)
  end.

(** ** Groups *)

Definition group_order (a b : GroupSummary) : bool :=
  string_less (gs_DisplayName a) (gs_DisplayName b)
  || ((gs_DisplayName a =s gs_DisplayName b) && string_less (gs_GroupID a) (gs_GroupID b)).

Definition group_summaries (keep : string -> bool) (db : account_db) : list GroupSummary :=
  sort_stable group_order
    (map (fun g => {| gs_GroupID := g.1; gs_DisplayName := gr_DisplayName g.2 |})
       (List.filter (fun g => keep g.1) (map_to_list (ad_groups db)))).

Definition list_groups_tx (io : account_io) (actorID : string) (db : account_db) : result (account_db * list GroupSummary) :=
  _ ← lockAccessAdminSupervisor io actorID db;
  _ ← admin_stmt io "list record access groups";
  Ok (db, group_summaries (fun _ => true) db).

Definition group_id_rest (a : Ascii.ascii) : bool :=
  let n := Ascii.nat_of_ascii a in ((48 <=? n) && (n <=? 57) || (97 <=? n) && (n <=? 122))%nat.

(** [^rag_[a-z0-9]{1,64}$]. *)
Definition group_id_shape (id : string) : bool :=
  String.prefix "rag_" id
  && (let rest := drop 4 (String.list_ascii_of_string id) in
      forallb group_id_rest rest && (1 <=? length rest)%nat && (length rest <=? 64)%nat).

(** Spaces at both ends, which is what [btrim] removes. *)
Definition space_at_end (s : string) : bool :=
  let l := String.list_ascii_of_string s in
  let blank a := match a with Some c => (Ascii.nat_of_ascii c =? 32)%nat | None => false end in
  blank (head l) || blank (last l).

Definition display_name_shape (name : string) : bool :=
  let n := length (runes_of_string name) in (1 <=? n)%nat && (n <=? 100)%nat && negb (space_at_end name).

(** The constraints of a row that is inserted or updated under [groupID]. *)
Definition group_constraints (groupID displayName : string) (others : gmap string group_row) : result () :=
  _ ← reject (negb (group_id_shape groupID)) (PgConstraint "23514" "record_access_groups_group_id_check");
  _ ← reject (negb (display_name_shape displayName)) (PgConstraint "23514" "record_access_groups_display_name_shape");
  reject (existsb (fun g => gr_DisplayName g.2 =s displayName) (map_to_list (delete groupID others)))
    (PgConstraint "23505" "record_access_groups_project_display_name_key").

Definition ad_with_groups (g : gmap string group_row) (db : account_db) : account_db := {|
  ad_users := ad_users db; ad_sessions := ad_sessions db; ad_groups := g; ad_members := ad_members db |}.
Definition ad_with_members (m : gset (string * string)) (db : account_db) : account_db := {|
  ad_users := ad_users db; ad_sessions := ad_sessions db; ad_groups := ad_groups db; ad_members := m |}.

Definition create_group_tx (io : account_io) (actorID groupID displayName : string) (now : Z) (db : account_db)
    : result (account_db * GroupSummary) :=
  _ ← lockAccessAdminSupervisor io actorID db;
  _ ← write_stmt io "create record access group"
        (_ ← group_constraints groupID displayName (ad_groups db);
         reject (is_set (ad_groups db !! groupID)) (PgConstraint "23505" "record_access_groups_pkey"));
  let row := {| gr_DisplayName := displayName; gr_CreatedAt := timestamptz now; gr_UpdatedAt := timestamptz now |} in
  Ok (ad_with_groups (<[groupID := row]> (ad_groups db)) db, {| gs_GroupID := groupID; gs_DisplayName := displayName |}).

Definition rename_group_tx (io : account_io) (actorID groupID displayName : string) (now : Z) (db : account_db)
    : result (account_db * GroupSummary) :=
  _ ← lockAccessAdminSupervisor io actorID db;
  _ ← admin_stmt io "lock record access group";
  match ad_groups db !! groupID with
  | None => Err ErrResourceNotFound
  | Some g =>
      _ ← write_stmt io "rename record access group" (group_constraints groupID displayName (ad_groups db));
      let row := {| gr_DisplayName := displayName; gr_CreatedAt := gr_CreatedAt g; gr_UpdatedAt := timestamptz now |} in
      Ok (ad_with_groups (<[groupID := row]> (ad_groups db)) db, {| gs_GroupID := groupID; gs_DisplayName := displayName |})
  end.

Definition member_summary (db : account_db) (userID : string) : MemberSummary :=
  match ad_users db !! userID with
  | Some u => {| ms_User := user_summary u; ms_Missing := false |}
  | None => {| ms_User := {| uv_UserID := userID; uv_Username := ""; uv_DisplayName := ""; uv_Role := "";
                             uv_IsSupervisor := false; uv_DisabledAt := None; uv_CreatedAt := Time_zero |};
               ms_Missing := true |}
  end.

Definition member_order (a b : MemberSummary) : bool := user_order (ms_User a) (ms_User b).

Definition list_members_tx (io : account_io) (actorID groupID : string) (db : account_db)
    : result (account_db * list MemberSummary) :=
  _ ← lockAccessAdminSupervisor io actorID db;
  _ ← admin_stmt io "lock member group";
  match ad_groups db !! groupID with
  | None => Err ErrResourceNotFound
  | Some _ =>
      _ ← admin_stmt io "list record access group members";
      Ok (db, sort_stable member_order
                (map (fun m => member_summary db m.2) (List.filter (fun m => m.1 =s groupID) (elements (ad_members db)))))
  end.

Definition set_member_tx (io : account_io) (actorID groupID userID : string) (present : bool) (db : account_db)
    : result (account_db * ()) :=
  _ ← lockAccessAdminSupervisor io actorID db;
  _ ← (if present && negb (userID =s actorID) then
         _ ← admin_stmt io "lock membership target";
         match ad_users db !! userID with
         | None => Err ErrResourceNotFound
         | Some u =>
             _ ← reject (is_set (us_DisabledAt u)) ErrUserDisabled;
             reject (negb (us_Role u =s RoleAdmin)) ErrResourceNotFound
         end
       else Ok tt);
  _ ← admin_stmt io "lock membership group";
  match ad_groups db !! groupID with
  | None => Err ErrResourceNotFound
  | Some _ =>
      _ ← admin_stmt io "set record access group member";
      Ok (ad_with_members (if present then {[(groupID, userID)]} ∪ ad_members db
                           else ad_members db ∖ {[(groupID, userID)]}) db, tt)
  end.

Definition list_my_groups_tx (io : account_io) (actorID : string) (db : account_db) : result (account_db * list GroupSummary) :=
  _ ← admin_stmt io "lock active user";
  match ad_users db !! actorID with
  | None => Err ErrManagementForbidden
  | Some u =>
      _ ← reject (is_set (us_DisabledAt u)) ErrManagementForbidden;
      _ ← admin_stmt io "list user record access groups";
      Ok (db, group_summaries (fun g => bool_decide ((g, actorID) ∈ ad_members db)) db)
  end.
End Repository.
