(* ===== verification/AccountService.v ===== *)
(** The services over the accounts (src/internal/center/auth/service.go, seed.go, cleanup.go and
    src/internal/center/accessadmin/service.go) as programs of repository calls, and a system in
    which any number of requests run interleaved, call by call. *)
From stdpp Require Import base list strings gmap.
From Stdlib Require Import ZArith Lia.
From S2P Require Import Prelude GoRuntime Notification Settings Postgres Programs Subscriptions Accounts AccessAdmin.

Local Open Scope Z_scope.
#[local] Set Warnings "-clear-no-such-hyp".

(** * Operations of the administration *)

Inductive admin_op :=
| OpListUsers (actorID : string)
| OpCreateUser (actorID : string) (user : User)
| OpSetUserEnabled (actorID targetID : string) (enabled : bool) (now : Z)
| OpResetUserPassword (actorID targetID newHash : string) (now : Z)
| OpListGroups (actorID : string)
| OpCreateGroup (actorID groupID displayName : string) (now : Z)
| OpRenameGroup (actorID groupID displayName : string) (now : Z)
| OpListMembers (actorID groupID : string)
| OpSetMember (actorID groupID userID : string) (present : bool)
| OpListMyGroups (actorID : string).

Inductive admin_answer :=
| AnsUsers (users : list UserSummary)
| AnsUser (user : UserSummary)
| AnsGroups (groups : list GroupSummary)
| AnsGroup (group : GroupSummary)
| AnsMembers (members : list MemberSummary)
| AnsDone.

Definition answer_with {A} (f : A -> admin_answer) (out : account_db * result A) : account_db * result admin_answer :=
  (out.1, a ← out.2; Ok (f a)).

Definition run_admin (io : account_io) (op : admin_op) (db : account_db) : account_db * result admin_answer :=
  match op with
  | OpListUsers actor => answer_with AnsUsers (admin_tx io "commit list users" db (list_users_tx io actor db))
  | OpCreateUser actor user => answer_with AnsUser (admin_tx io "commit create user" db (create_user_tx io actor user db))
  | OpSetUserEnabled actor target enabled now =>
      answer_with AnsUser (admin_tx io "commit user state" db (set_enabled_tx io actor target enabled now db))
  | OpResetUserPassword actor target newHash now =>
      answer_with (fun _ => AnsDone) (admin_tx io "commit reset user password" db (reset_password_tx io actor target newHash now db))
  | OpListGroups actor => answer_with AnsGroups (admin_tx io "commit list record access groups" db (list_groups_tx io actor db))
  | OpCreateGroup actor group name now =>
      answer_with AnsGroup (admin_tx io "commit create record access group" db (create_group_tx io actor group name now db))
  | OpRenameGroup actor group name now =>
      answer_with AnsGroup (admin_tx io "commit rename record access group" db (rename_group_tx io actor group name now db))
  | OpListMembers actor group =>
      answer_with AnsMembers (admin_tx io "commit list record access group members" db (list_members_tx io actor group db))
  | OpSetMember actor group user present =>
      answer_with (fun _ => AnsDone) (admin_tx io "commit record access group member" db (set_member_tx io actor group user present db))
  | OpListMyGroups actor =>
      answer_with AnsGroups (admin_tx io "commit list user record access groups" db (list_my_groups_tx io actor db))
  end.

(** * Calls *)

(** A session is opened or kept under a password: the calls that do so carry, for the record only, the
    password that was presented. *)
Inductive account_call : Type -> Type :=
| CallFindByUsername (username : string) : account_call (result User)
| CallFindByID (userID : string) : account_call (result User)
| CallCountUsers : account_call (result Z)
| CallInsertUser (u : User) : account_call (result ())
| CallActiveSupervisor : account_call (result bool)
| CallRandom : account_call (result string)
| CallClock : account_call Z
| CallCreateSession (expectedHash presented : string) (session : Session) : account_call (result Session)
| CallChangePassword (userID sessionID expectedHash newHash presented : string) : account_call (result ())
| CallSessionOwner (sessionID : string) : account_call (result string)
| CallTouch (sessionID userID : string) : account_call (result Session)
| CallValidate (sessionID : string) : account_call (result ())
| CallDeleteSession (sessionID : string) : account_call (result ())
| CallSweep (cutoff : Z) : account_call (result Z)
| CallAuthorizeSupervisor (actorID : string) : account_call (result ())
| CallAuthorizeActive (actorID : string) : account_call (result ())
| CallAdmin (op : admin_op) : account_call (result admin_answer).

Definition account_action : Type -> Type := prog account_call.

(** A call whose error ends the operation, and one whose error is wrapped. *)
Definition check {A B} (r : result A) (k : A -> account_action (result B)) : account_action (result B) :=
  match r with Ok a => k a | Err e => Ret (Err e) end.

Definition NewSessionID (random : result string) : result string :=
  match random with Ok bytes => Ok (hex_EncodeToString bytes) | Err e => Err (ErrWrap "read random: %w" [] [e]) end.

Definition NewUserID (random : result string) : result string :=
  match random with Ok bytes => Ok ("usr_" +:+ hex_EncodeToString bytes)%string | Err e => Err (ErrWrap "read random: %w" [] [e]) end.

(** [auth.Options] after [New]. *)
Record AuthService := { as_ttl : Z; as_cost : Z }.

Definition NewAuthService (ttl cost : Z) : AuthService := {|
  as_ttl := if ttl <=? 0 then DefaultSessionTTL else ttl;
  as_cost := if cost =? 0 then DefaultPasswordBcryptCost else cost |}.

Section Services.
Context `{Env : AccountEnv}.

Definition HashPassword (cost : Z) (plain : string) : account_action (result string) :=
  let! salt := call CallRandom in Ret (HashPasswordWithCost salt plain cost).

(** * Sign-in *)

Definition username_ok (username : string) : bool :=
  (MinUsernameLength <=? String.length username)%nat && (String.length username <=? MaxUsernameLength)%nat.

Definition Login (username password userAgent clientIP : string) : account_action (result Session) :=
  let username := strings_TrimSpace username in
  if negb (username_ok username) then Ret (Err ErrInvalidCredentials)
  else
    let! found := call (CallFindByUsername username) in
    match found with
    | Err e => Ret (Err (if errors_Is UserNotFoundName e then ErrInvalidCredentials
                         else ErrWrap "find user by username: %w" [] [e]))
    | Ok u =>
        match VerifyPassword (us_PasswordHash u) password with
        | Err _ => Ret (Err ErrInvalidCredentials)
        | Ok _ =>
            if is_set (us_DisabledAt u) then Ret (Err ErrInvalidCredentials)
            else
              let! random := call CallRandom in
              match NewSessionID random with
              | Err e => Ret (Err (ErrWrap "new session id: %w" [] [e]))
              | Ok id =>
                  call (CallCreateSession (us_PasswordHash u) password {|
                    se_SessionID := id; se_UserID := us_UserID u; se_IssuedAt := Time_zero; se_LastSeenAt := Time_zero;
                    se_ExpiresAt := Time_zero; se_UserAgent := userAgent; se_ClientIP := clientIP;
                    se_ManagementAccess := false |})
              end
        end
    end.

Definition Logout (sessionID : string) : account_action (result ()) :=
  if sessionID =s "" then Ret (Ok tt) else call (CallDeleteSession sessionID).

Definition Touch (sessionID : string) : account_action (result Session) :=
  let! owner := call (CallSessionOwner sessionID) in
  check owner (fun userID => call (CallTouch sessionID userID)).

Definition Service_ValidateSession (sessionID : string) : account_action (result ()) :=
  if sessionID =s "" then Ret (Err ErrSessionNotFound) else call (CallValidate sessionID).

Definition UserBySession (sessionID : string) : account_action (result User) :=
  let! sess := Touch sessionID in
  check sess (fun sess =>
    let! found := call (CallFindByID (se_UserID sess)) in
    check found (fun u => Ret (if is_set (us_DisabledAt u) then Err ErrSessionExpired else Ok u))).

Definition ChangePassword (svc : AuthService) (userID currentSessionID oldPassword newPassword : string)
    : account_action (result ()) :=
  let! found := call (CallFindByID userID) in
  check found (fun u =>
    match VerifyPassword (us_PasswordHash u) oldPassword with
    | Err _ => Ret (Err ErrInvalidCredentials)
    | Ok _ =>
        if is_set (us_DisabledAt u) then Ret (Err ErrSessionExpired)
        else
          let! hash := HashPassword (as_cost svc) newPassword in
          check hash (fun hash =>
            call (CallChangePassword userID currentSessionID (us_PasswordHash u) hash newPassword))
    end).

Definition sweep : account_action unit :=
  let! now := call CallClock in
  let! _ := call (CallSweep now) in Ret tt.

(** * The first account *)

Record SeedInitialUserOptions := { so_Username : string; so_Password : string; so_DisplayName : string; so_Cost : Z }.

(** [PostgresUserRepository.Create]: when the supervisor exists already, a second query settles which error. *)
Definition Users_Create (u : User) : account_action (result ()) :=
  let! inserted := call (CallInsertUser u) in
  match inserted with
  | Ok _ => Ret (Ok tt)
  | Err e =>
      let failed := Err (ErrWrap "insert user: %w" [] [e]) in
      match pg_code e, pg_constraint e with
      | Some code, Some name =>
          if negb (code =s "23505") then Ret failed
          else if name =s "users_single_supervisor_idx" then
            let! exists_ := call CallActiveSupervisor in
            match exists_ with
            | Err e => Ret (Err (ErrWrap "resolve supervisor conflict: %w" [] [e]))
            | Ok true => Ret (Err ErrInitialUserAlreadyExists)
            | Ok false => Ret failed
            end
          else if name =s "users_username_key" then Ret (Err ErrUsernameTaken)
          else Ret failed
      | _, _ => Ret failed
      end
  end.

(** What a failed creation comes to. *)
Definition seed_conflict (username : string) (err : error) : account_action (result ()) :=
  if errors_Is InitialUserAlreadyExistsName err then Ret (Ok tt)
  else if errors_Is UsernameTakenName err then
    let! found := call (CallFindByUsername username) in
    match found with
    | Ok existing =>
        if (us_Role existing =s RoleAdmin) && us_IsSupervisor existing && negb (is_set (us_DisabledAt existing))
        then Ret (Ok tt) else Ret (Err err)
    | Err _ => Ret (Err err)
    end
  else Ret (Err err).

Definition SeedInitialUserWithOptions (opts : SeedInitialUserOptions) : account_action (result ()) :=
  let username := strings_TrimSpace (so_Username opts) in
  let password := so_Password opts in
  if negb (username_ok username) then Ret (Err ErrUsernameInvalid)
  else if (String.length password <? MinPasswordLength)%nat then Ret (Err ErrPasswordTooShort)
  else if (MaxPasswordLength <? String.length password)%nat then Ret (Err ErrPasswordTooLong)
  else
    let! count := call CallCountUsers in
    match count with
    | Err e => Ret (Err (ErrWrap "count users: %w" [] [e]))
    | Ok count =>
        if 0 <? count then Ret (Ok tt)
        else
          let! hash := HashPassword (if so_Cost opts =? 0 then DefaultPasswordBcryptCost else so_Cost opts) password in
          check hash (fun hash =>
            let! random := call CallRandom in
            check (NewUserID random) (fun id =>
              let! t := call CallClock in
              let displayName := if so_DisplayName opts =s "" then username else so_DisplayName opts in
              let! created := Users_Create {|
                us_UserID := id; us_Username := username; us_PasswordHash := hash; us_DisplayName := displayName;
                us_Role := RoleAdmin; us_IsSupervisor := true; us_DisabledAt := None; us_CreatedAt := t;
                us_PasswordChangedAt := t |} in
              match created with Ok _ => Ret (Ok tt) | Err e => seed_conflict username e end))
    end.

(** * Administration *)

Definition mapPasswordHashError (err : error) : error :=
  if errors_Is PasswordTooShortName err || errors_Is PasswordTooLongName err || errors_Is PasswordTooWeakName err
  then ErrWrap "%w: password" [] [ErrInvalidRequest]
  else ErrWrap "%w: password hashing" [] [ErrManagementUnavailable].

Definition mapRepositoryError (err : error) : error :=
  if existsb (fun name => errors_Is name err)
       [InvalidRequestName; ManagementForbiddenName; ManagementUnavailableName; ResourceNotFoundName;
        AdminUsernameTakenName; GroupNameTakenName; SupervisorProtectedName; UserDisabledName] then err
  else if errors_Is UsernameTakenName err then ErrWrap "%w: username" [] [ErrAdminUsernameTaken]
  else if errors_Is UserNotFoundName err then ErrResourceNotFound
  else ErrWrap "%w: %v" [] [ErrManagementUnavailable].

Definition hex_lower (a : Ascii.ascii) : bool :=
  let n := Ascii.nat_of_ascii a in ((48 <=? n) && (n <=? 57) || (97 <=? n) && (n <=? 102))%nat.

Definition validUserID (value : string) : bool :=
  (String.length value =? 28)%nat && String.prefix "usr_" value
  && forallb hex_lower (drop 4 (String.list_ascii_of_string value)).

Definition validGroupID (value : string) : bool :=
  (4 <? String.length value)%nat && (String.length value <=? 68)%nat && String.prefix "rag_" value
  && forallb group_id_rest (drop 4 (String.list_ascii_of_string value)).

Definition normalizeUsername (value : string) : result string :=
  let value := strings_TrimSpace value in
  if username_ok value then Ok value else Err (ErrWrap "%w: username" [] [ErrInvalidRequest]).

Definition normalizeDisplayName (value : string) : result string :=
  let value := strings_TrimSpace value in
  if (100 <? length (runes_of_string value))%nat then Err (ErrWrap "%w: display_name" [] [ErrInvalidRequest]) else Ok value.

Definition required_name (value : string) : result string :=
  name ← normalizeDisplayName value;
  if name =s "" then Err (ErrWrap "%w: display_name" [] [ErrInvalidRequest]) else Ok name.

Definition user_id_of (value : string) : result string :=
  let value := strings_TrimSpace value in
  if validUserID value then Ok value else Err (ErrWrap "%w: user_id" [] [ErrInvalidRequest]).

Definition group_id_of (value : string) : result string :=
  let value := strings_TrimSpace value in
  if validGroupID value then Ok value else Err (ErrWrap "%w: group_id" [] [ErrInvalidRequest]).

(** [AuthorizeSupervisor] and [AuthorizeActiveUser], then the rest. *)
Definition authorize {B} (authorized : account_action (result ())) (actorID : string)
    (k : account_action (result B)) : account_action (result B) :=
  if strings_TrimSpace actorID =s "" then Ret (Err ErrManagementForbidden)
  else
    let! r := authorized in
    match r with Ok _ => k | Err e => Ret (Err (mapRepositoryError e)) end.

Definition as_supervisor {B} (actorID : string) : account_action (result B) -> account_action (result B) :=
  authorize (call (CallAuthorizeSupervisor actorID)) actorID.

Definition admin_call (op : admin_op) : account_action (result admin_answer) :=
  let! r := call (CallAdmin op) in
  Ret (map_error mapRepositoryError r).

Definition Admin_ListUsers (actorID : string) : account_action (result admin_answer) :=
  as_supervisor actorID (admin_call (OpListUsers actorID)).

Definition Admin_CreateUser (cost : Z) (actorID : string) (input : CreateUserInput) : account_action (result admin_answer) :=
  as_supervisor actorID
    (check (normalizeUsername (cu_Username input)) (fun username =>
       let! hashed := HashPassword cost (cu_Password input) in
       match hashed with
       | Err e => Ret (Err (mapPasswordHashError e))
       | Ok passwordHash =>
           let! random := call CallRandom in
           match NewUserID random with
           | Err _ => Ret (Err (ErrWrap "%w: create user id" [] [ErrManagementUnavailable]))
           | Ok userID =>
               check (normalizeDisplayName (cu_DisplayName input)) (fun displayName =>
                 let displayName := if displayName =s "" then username else displayName in
                 let! now := call CallClock in
                 admin_call (OpCreateUser actorID {|
                   us_UserID := userID; us_Username := username; us_PasswordHash := passwordHash;
                   us_DisplayName := displayName; us_Role := RoleAdmin; us_IsSupervisor := false; us_DisabledAt := None;
                   us_CreatedAt := now; us_PasswordChangedAt := now |}))
           end
       end)).

Definition Admin_SetUserEnabled (actorID targetID : string) (enabled : bool) : account_action (result admin_answer) :=
  as_supervisor actorID
    (check (user_id_of targetID) (fun target =>
       let! now := call CallClock in admin_call (OpSetUserEnabled actorID target enabled now))).

Definition Admin_ResetUserPassword (cost : Z) (actorID targetID password : string) : account_action (result admin_answer) :=
  as_supervisor actorID
    (check (user_id_of targetID) (fun target =>
       let! hashed := HashPassword cost password in
       match hashed with
       | Err e => Ret (Err (mapPasswordHashError e))
       | Ok newHash => let! now := call CallClock in admin_call (OpResetUserPassword actorID target newHash now)
       end)).

Definition Admin_ListGroups (actorID : string) : account_action (result admin_answer) :=
  as_supervisor actorID (admin_call (OpListGroups actorID)).

Definition Admin_CreateGroup (actorID displayName : string) : account_action (result admin_answer) :=
  as_supervisor actorID
    (check (required_name displayName) (fun displayName =>
       let! random := call CallRandom in
       match random with
       | Err _ => Ret (Err (ErrWrap "%w: create group id" [] [ErrManagementUnavailable]))
       | Ok bytes =>
           let! now := call CallClock in
           admin_call (OpCreateGroup actorID ("rag_" +:+ hex_EncodeToString bytes)%string displayName now)
       end)).

Definition Admin_RenameGroup (actorID groupID displayName : string) : account_action (result admin_answer) :=
  as_supervisor actorID
    (check (group_id_of groupID) (fun groupID =>
       check (required_name displayName) (fun displayName =>
         let! now := call CallClock in admin_call (OpRenameGroup actorID groupID displayName now)))).

Definition Admin_ListMembers (actorID groupID : string) : account_action (result admin_answer) :=
  as_supervisor actorID (check (group_id_of groupID) (fun groupID => admin_call (OpListMembers actorID groupID))).

Definition Admin_SetMember (actorID groupID userID : string) (present : bool) : account_action (result admin_answer) :=
  as_supervisor actorID
    (check (group_id_of groupID) (fun groupID =>
       check (user_id_of userID) (fun userID => admin_call (OpSetMember actorID groupID userID present)))).

Definition Admin_ListMyGroups (actorID : string) : account_action (result admin_answer) :=
  authorize (call (CallAuthorizeActive actorID)) actorID (admin_call (OpListMyGroups actorID)).
End Services.
