(* ===== verification/AccountRuns.v ===== *)
(** Requests to the account services running interleaved, and what holds of the tables in every
    state: a session that is stored belongs to an enabled account whose current password was
    presented for that very session. *)
From stdpp Require Import base list strings gmap.
From Stdlib Require Import ZArith Lia.
From S2P Require Import Prelude GoRuntime Notification Settings Postgres Programs Subscriptions Accounts AccessAdmin AccountService.

Local Open Scope Z_scope.
#[local] Set Warnings "-clear-no-such-hyp".

(** * The system *)

(** An attempt to open a session, or to keep one under a new password. *)
Record opening := { op_Key : string; op_UserID : string; op_Hash : string; op_Presented : string }.

Record account_world := { aw_db : account_db; aw_log : list opening }.

Inductive admin_request :=
| AdminListUsers (actorID : string)
| AdminCreateUser (actorID : string) (input : CreateUserInput)
| AdminSetUserEnabled (actorID targetID : string) (enabled : bool)
| AdminResetUserPassword (actorID targetID password : string)
| AdminListGroups (actorID : string)
| AdminCreateGroup (actorID displayName : string)
| AdminRenameGroup (actorID groupID displayName : string)
| AdminListMembers (actorID groupID : string)
| AdminSetMember (actorID groupID userID : string) (present : bool)
| AdminListMyGroups (actorID : string).

Inductive account_request :=
| ReqLogin (username password userAgent clientIP : string)
| ReqLogout (sessionID : string)
| ReqValidate (sessionID : string)
| ReqUser (sessionID : string)
| ReqChangePassword (userID sessionID oldPassword newPassword : string)
| ReqSweep
| ReqSeed (opts : SeedInitialUserOptions)
| ReqAdmin (request : admin_request).

Section System.
Context `{Env : AccountEnv} (svc : AuthService).

Definition opened (key userID hash presented : string) (w : account_world) (db : account_db) : account_world := {|
  aw_db := db; aw_log := aw_log w ++ [{| op_Key := key; op_UserID := userID; op_Hash := hash; op_Presented := presented |}] |}.

Definition aw_with_db (db : account_db) (w : account_world) : account_world := {| aw_db := db; aw_log := aw_log w |}.

Definition perform_account {R} (io : account_io) (c : account_call R) (w : account_world) : account_world * R :=
  let db := aw_db w in
  match c with
  | CallFindByUsername username => (w, FindByUsername io username db)
  | CallFindByID userID => (w, FindByID io userID db)
  | CallCountUsers => (w, CountUsers io db)
  | CallInsertUser u =>
      let '(db', r) := autocommit (ac_answer io) db
        (_ ← statement (ac_faults io) "insert user" 0 (fun e => e); out ← insert_user u db; Ok (out.1, tt)) in
      (aw_with_db db' w, r)
  | CallActiveSupervisor => (w, activeSupervisorExists io db)
  | CallRandom => (w, ac_random io)
  | CallClock => (w, ac_clock io)
  | CallCreateSession expectedHash presented session =>
      let '(db', r) := CreateIfPasswordHash io (as_ttl svc) expectedHash session db in
      (opened (hashSessionID (se_SessionID session)) (se_UserID session) expectedHash presented w db', r)
  | CallChangePassword userID sessionID expectedHash newHash presented =>
      let '(db', r) := ChangePasswordIfHash io userID sessionID expectedHash newHash db in
      (opened (hashSessionID sessionID) userID newHash presented w db', r)
  | CallSessionOwner sessionID => (w, session_owner io sessionID db)
  | CallTouch sessionID userID =>
      let '(db', r) := touch_session io (as_ttl svc) sessionID userID db in (aw_with_db db' w, r)
  | CallValidate sessionID => (w, ValidateSession io sessionID db)
  | CallDeleteSession sessionID => let '(db', r) := Sessions_Delete io sessionID db in (aw_with_db db' w, r)
  | CallSweep cutoff => let '(db', r) := DeleteExpiredBefore io cutoff db in (aw_with_db db' w, r)
  | CallAuthorizeSupervisor actorID => (w, repo_AuthorizeSupervisor io actorID db)
  | CallAuthorizeActive actorID => (w, repo_AuthorizeActiveUser io actorID db)
  | CallAdmin op => let '(db', r) := run_admin io op db in (aw_with_db db' w, r)
  end.

Definition admin_program (request : admin_request) : account_action (result admin_answer) :=
  match request with
  | AdminListUsers actor => Admin_ListUsers actor
  | AdminCreateUser actor input => Admin_CreateUser (as_cost svc) actor input
  | AdminSetUserEnabled actor target enabled => Admin_SetUserEnabled actor target enabled
  | AdminResetUserPassword actor target password => Admin_ResetUserPassword (as_cost svc) actor target password
  | AdminListGroups actor => Admin_ListGroups actor
  | AdminCreateGroup actor name => Admin_CreateGroup actor name
  | AdminRenameGroup actor group name => Admin_RenameGroup actor group name
  | AdminListMembers actor group => Admin_ListMembers actor group
  | AdminSetMember actor group user present => Admin_SetMember actor group user present
  | AdminListMyGroups actor => Admin_ListMyGroups actor
  end.

(** The result of a request goes to its caller. *)
Definition ignore {A} (p : account_action A) : account_action unit := let! _ := p in Ret tt.

Definition request_program (request : account_request) : account_action unit :=
  match request with
  | ReqLogin username password userAgent clientIP => ignore (Login username password userAgent clientIP)
  | ReqLogout sessionID => ignore (Logout sessionID)
  | ReqValidate sessionID => ignore (Service_ValidateSession sessionID)
  | ReqUser sessionID => ignore (UserBySession sessionID)
  | ReqChangePassword userID sessionID old new => ignore (ChangePassword svc userID sessionID old new)
  | ReqSweep => sweep
  | ReqSeed opts => ignore (SeedInitialUserWithOptions opts)
  | ReqAdmin request => ignore (admin_program request)
  end.

(** Requests arrive at any time; each step is the next call of one of them. *)
Record account_system := { ay_world : account_world; ay_running : list (account_action unit) }.

Inductive account_event := EvArrive (request : account_request) | EvAdvance (i : nat) (io : account_io).

Definition step_accounts (ev : account_event) (y : account_system) : option account_system :=
  match ev with
  | EvArrive request => Some {| ay_world := ay_world y; ay_running := ay_running y ++ [request_program request] |}
  | EvAdvance i io =>
      match ay_running y !! i with
      | Some (Vis c k) =>
          let '(w, r) := perform_account io c (ay_world y) in
          Some {| ay_world := w; ay_running := <[i := k r]> (ay_running y) |}
      | _ => None
      end
  end.

Fixpoint run_accounts (evs : list account_event) (y : account_system) : option account_system :=
  match evs with
  | [] => Some y
  | ev :: evs => match step_accounts ev y with Some y => run_accounts evs y | None => None end
  end.

Definition start_accounts : account_system := {|
  ay_world := {| aw_db := {| ad_users := ∅; ad_sessions := ∅; ad_groups := ∅; ad_members := ∅ |}; aw_log := [] |};
  ay_running := [] |}.

(** * What the programs ask for *)

Definition asks (R : Type) (_ : unit) (c : account_call R) : Prop :=
  match c with
  | CallCreateSession hash presented _ => VerifyPassword hash presented = Ok tt
  | CallChangePassword _ _ _ hash presented => exists salt, HashPasswordWithCost salt presented (as_cost svc) = Ok hash
  | CallInsertUser u => us_DisabledAt u = None
  | _ => True
  end.

#[local] Abbreviation asking p := (follows asks (fun _ _ _ _ => tt) tt p (fun _ _ => True)).

Lemma asking_bind {A B} (p : account_action A) (f : A -> account_action B) :
  asking p -> (forall a, asking (f a)) -> asking (bind p f).
Proof. intros Hp Hf. apply follows_bind. eapply follows_mono; [|apply Hp]. intros [] a _. apply Hf. Qed.

Lemma asking_call {R} (c : account_call R) : asks R tt c -> asking (call c).
Proof. intros H. split; [done|]. by intros r. Qed.

Lemma asking_check {A B} (r : result A) (k : A -> account_action (result B)) : (forall a, asking (k a)) -> asking (check r k).
Proof. intros H. destruct r; [apply H|done]. Qed.

Lemma asking_ret {A} (a : A) : asking (Ret (E := account_call) a).
Proof. done. Qed.

Hint Resolve asking_ret : core.

(** Calls that ask for nothing, binds and checks. *)
Ltac asking_step :=
  repeat match goal with
    | |- asking (Ret _) => done
    | |- follows _ _ tt (bind (call _) _) _ => apply asking_bind; [apply asking_call; try exact I|intros ?]
    | |- follows _ _ tt (call _) _ => apply asking_call; try exact I
    | |- follows _ _ tt (check _ _) _ => apply asking_check; intros ?
    | |- follows _ _ tt (if ?b then _ else _) _ => destruct b eqn:?
    | |- follows _ _ tt (match ?r with Ok _ => _ | Err _ => _ end) _ => destruct r eqn:?
    | |- follows _ _ tt (Ret _) _ => apply asking_ret
    | |- follows _ _ tt (let _ := _ in _) _ => cbv zeta
    end.

Lemma hash_result cost plain :
  follows asks (fun _ _ _ _ => tt) tt (HashPassword cost plain)
    (fun _ r => exists salt, r = HashPasswordWithCost salt plain cost).
Proof. split; [done|]. intros salt. by exists salt. Qed.

Lemma asking_hash cost plain {B} (f : result string -> account_action B) :
  (forall salt, asking (f (HashPasswordWithCost salt plain cost))) -> asking (bind (HashPassword cost plain) f).
Proof.
  intros Hf. apply follows_bind. eapply follows_mono; [|apply hash_result]. intros [] r [salt ->]. apply Hf.
Qed.

Lemma asking_login username password ua ip : asking (Login username password ua ip).
Proof.
  unfold Login. cbv zeta. asking_step. by match goal with H : VerifyPassword _ _ = Ok ?u |- _ => destruct u end.
Qed.

Lemma asking_touch sessionID : asking (Touch sessionID).
Proof. unfold Touch. asking_step. Qed.

Lemma asking_change userID sessionID old new : asking (ChangePassword svc userID sessionID old new).
Proof.
  unfold ChangePassword. asking_step. apply asking_hash. intros salt.
  destruct (HashPasswordWithCost salt new (as_cost svc)) as [h|e] eqn:E; [|done]. apply asking_call. by exists salt.
Qed.

Lemma asking_create u : us_DisabledAt u = None -> asking (Users_Create u).
Proof.
  intros Hu. unfold Users_Create. cbv zeta. asking_step; [done|].
  destruct (pg_code _); [|done]. destruct (pg_constraint _); [|done]. asking_step.
Qed.

Lemma asking_seed opts : asking (SeedInitialUserWithOptions opts).
Proof.
  unfold SeedInitialUserWithOptions. cbv zeta. asking_step. apply asking_hash. intros salt. asking_step.
  apply asking_bind; [by apply asking_create|]. intros created. asking_step. unfold seed_conflict. asking_step.
Qed.

Lemma asking_admin_call op : asking (admin_call op).
Proof. unfold admin_call. asking_step. Qed.

Lemma asking_authorize {B} (p : account_action (result ())) actor (k : account_action (result B)) :
  asking p -> asking k -> asking (authorize p actor k).
Proof.
  intros Hp Hk. unfold authorize. destruct (_ =s ""); [done|]. apply asking_bind; [done|]. by intros [[]|e].
Qed.

Lemma asking_admin request : asking (admin_program request).
Proof.
  destruct request; (apply asking_authorize; [by apply asking_call|]); asking_step;
    try apply asking_admin_call; try (apply asking_hash; intros salt; asking_step; apply asking_admin_call).
Qed.

Lemma asking_request request : asking (request_program request).
Proof.
  destruct request; try (apply asking_bind; [|done]).
  - apply asking_login.
  - unfold Logout. asking_step.
  - unfold Service_ValidateSession. asking_step.
  - unfold UserBySession. apply asking_bind; [apply asking_touch|]. intros r. asking_step.
  - apply asking_change.
  - unfold sweep. asking_step.
  - apply asking_seed.
  - apply asking_admin.
Qed.
End System.
