(* ===== verification/AccountProps.v ===== *)
(** What holds of the accounts in every state of every run, and what follows: stored sessions are
    authentic and accepted until they expire, the supervisor stays, and only the supervisor manages
    accounts. *)
From stdpp Require Import base list strings gmap.
From Stdlib Require Import ZArith Lia.
From S2P Require Import Prelude GoRuntime Notification Settings Postgres Programs Subscriptions Accounts AccessAdmin AccountService AccountRuns.

Local Open Scope Z_scope.
#[local] Set Warnings "-clear-no-such-hyp".
#[local] Arguments timestamptz : simpl never.
#[local] Arguments laterSessionTime : simpl never.
#[local] Arguments normalizeSessionClock : simpl never.

Lemma existsb_none {A} (f : A -> bool) l x : existsb f l = false -> x ∈ l -> f x = false.
Proof.
  intros H Hx. destruct (f x) eqn:E; [|done]. assert (existsb f l = true); [|congruence].
  apply existsb_exists. exists x. split; [by apply list_elem_of_In|done].
Qed.

Section Props.
Context `{Env : AccountEnv} (svc : AuthService).

(** A hash bcrypt made is at least as long as the shortest one it reads, and matches its password. *)
Definition bcrypt_sound : Prop := forall salt plain cost hash,
  bcrypt_GenerateFromPassword salt plain cost = Ok hash ->
  (4 <= String.length hash)%nat /\ bcrypt_CompareHashAndPassword hash plain = None.

(** * The invariant *)

(** A stored session: its account is enabled, it was issued no earlier than the password, it expires
    one lifetime after its last use, and the current password was presented for it. *)
Record session_ok (users : gmap string User) (log : list opening) (key : string) (s : session_row) (u : User) : Prop := {
  so_user : users !! sw_UserID s = Some u;
  so_enabled : us_DisabledAt u = None;
  so_issued : us_PasswordChangedAt u <= sw_IssuedAt s;
  so_seen : timestamptz (sw_LastSeenAt s) = sw_LastSeenAt s;
  so_expires : sw_ExpiresAt s = timestamptz (sw_LastSeenAt s + as_ttl svc);
  so_log : exists e, e ∈ log /\ op_Key e = key /\ op_UserID e = sw_UserID s /\ op_Hash e = us_PasswordHash u;
}.

Record user_ok (users : gmap string User) (id : string) (u : User) : Prop := {
  uo_id : us_UserID u = id;
  uo_micro : timestamptz (us_PasswordChangedAt u) = us_PasswordChangedAt u;
  uo_supervisor : us_IsSupervisor u = true -> us_Role u = RoleAdmin /\ us_DisabledAt u = None;
  uo_single : forall j v, users !! j = Some v -> us_IsSupervisor u = true -> us_IsSupervisor v = true -> j = id;
  uo_name : forall j v, users !! j = Some v -> us_Username u = us_Username v -> j = id;
}.

Record accounts_ok (w : account_world) : Prop := {
  ao_users : forall id u, ad_users (aw_db w) !! id = Some u -> user_ok (ad_users (aw_db w)) id u;
  ao_sessions : forall key s, ad_sessions (aw_db w) !! key = Some s ->
                  exists u, session_ok (ad_users (aw_db w)) (aw_log w) key s u;
}.

Lemma session_ok_log users log log' key s u : log ⊆ log' -> session_ok users log key s u -> session_ok users log' key s u.
Proof.
  intros Hl [H1 H2 H3 H4 H5 (e & He & H6)]. constructor; try done. exists e. split; [by apply Hl|done].
Qed.

(** ** Changes to the sessions of a world *)

Lemma fewer_sessions_ok w sessions : sessions ⊆ ad_sessions (aw_db w) -> accounts_ok w ->
  accounts_ok (aw_with_db (ad_with_sessions sessions (aw_db w)) w).
Proof.
  intros Hs [Hu Hss]. constructor; [done|]. cbn. intros key s Hk. apply Hss. by eapply lookup_weaken.
Qed.

Lemma set_session_ok w log key s u : accounts_ok w -> aw_log w ⊆ log ->
  session_ok (ad_users (aw_db w)) log key s u ->
  accounts_ok {| aw_db := ad_with_sessions (<[key := s]> (ad_sessions (aw_db w))) (aw_db w); aw_log := log |}.
Proof.
  intros [Hu Hss] Hl Hs. constructor; [done|]. cbn. intros k s' [[<- <-]|[? Hk]]%lookup_insert_Some; [by exists u|].
  destruct (Hss k s' Hk) as [u' Hu']. exists u'. by eapply session_ok_log.
Qed.

Lemma more_log_ok w log : aw_log w ⊆ log -> accounts_ok w -> accounts_ok {| aw_db := aw_db w; aw_log := log |}.
Proof.
  intros Hl [Hu Hss]. constructor; [done|]. cbn. intros k s Hk. destruct (Hss k s Hk) as [u H]. exists u.
  by eapply session_ok_log.
Qed.

(** ** Changes to one account *)

(** An account changes in its password, its time of change and whether it is disabled. *)
Lemma user_change_ok users id u u' : (forall i v, users !! i = Some v -> user_ok users i v) -> users !! id = Some u ->
  us_UserID u' = us_UserID u -> us_Username u' = us_Username u -> us_Role u' = us_Role u ->
  us_IsSupervisor u' = us_IsSupervisor u -> timestamptz (us_PasswordChangedAt u') = us_PasswordChangedAt u' ->
  (us_IsSupervisor u = true -> us_DisabledAt u' = None) ->
  forall i v, <[id := u']> users !! i = Some v -> user_ok (<[id := u']> users) i v.
Proof.
  intros Hu Hid E1 E2 E3 E4 Hm Hd i v Hi.
  assert (exists v0, users !! i = Some v0 /\ us_UserID v = us_UserID v0 /\ us_Username v = us_Username v0
    /\ us_IsSupervisor v = us_IsSupervisor v0 /\ (us_IsSupervisor v0 = true -> us_Role v = us_Role v0 /\ us_DisabledAt v = None)
    /\ timestamptz (us_PasswordChangedAt v) = us_PasswordChangedAt v) as (v0 & H0 & F1 & F2 & F3 & F4 & F5).
  { apply lookup_insert_Some in Hi as [[<- <-]|[Hne Hi]]; [exists u; split_and!; try done; intros Hs; split; [done|by apply Hd]|].
    exists v. pose proof (Hu i v Hi) as [? ? ? ?]. split_and!; try done. intros Hs. split; [done|]. by apply uo_supervisor0. }
  pose proof (Hu i v0 H0) as [G1 G2 G3 G4 G5]. constructor.
  - congruence.
  - done.
  - intros Hs. rewrite F3 in Hs. destruct (F4 Hs) as [Hr Hdis]. rewrite Hr. by split; [apply G3|].
  - intros j x [[<- <-]|[? Hj]]%lookup_insert_Some Hs Hx; rewrite F3 in Hs; [apply (G4 id u); [done|done|congruence]|by apply (G4 j x)].
  - intros j x [[<- <-]|[? Hj]]%lookup_insert_Some Hx; [apply (G5 id u); [done|congruence]|apply (G5 j x); [done|congruence]].
Qed.

(** A new account. *)
Lemma insert_user_ok u db db' row : insert_user u db = Ok (db', row) ->
  ad_users db !! us_UserID u = None /\ row = stored_user u
  /\ db' = ad_with_users (<[us_UserID u := row]> (ad_users db)) db
  /\ (forall v, v ∈ users_list db -> us_Username v <> us_Username u)
  /\ (us_IsSupervisor u = true -> us_Role u = RoleAdmin /\ us_DisabledAt u = None
      /\ forall v, v ∈ users_list db -> us_IsSupervisor v = false).
Proof.
  unfold insert_user, user_constraints. intros H. apply result_bind_ok in H as (x & Hc & H). injection H as <- <-.
  do 3 ok_step Hc. ok_step Hc.
  split_and!; [by destruct (ad_users db !! us_UserID u)|done|done| |].
  - intros v Hv E. apply (existsb_none _ _ v) in Hok1; [|done]. cbv beta in Hok1. by rewrite E, String.eqb_refl in Hok1.
  - intros Hs. rewrite Hs in Hok, Hc. cbn in Hok, Hc. apply negb_false_iff, andb_true_iff in Hok as [Hr Hd].
    split_and!; [by apply String.eqb_eq|by destruct (us_DisabledAt u)|].
    intros v Hv. by apply (existsb_none _ _ v) in Hc.
Qed.

Lemma users_list_elem db v : v ∈ users_list db <-> exists id, ad_users db !! id = Some v.
Proof.
  unfold users_list. rewrite list_elem_of_fmap. split.
  - intros ([id v'] & -> & H%elem_of_map_to_list). by exists id.
  - intros [id H]. exists (id, v). split; [done|]. by apply elem_of_map_to_list.
Qed.

(** A world whose tables an insert extends. *)
Lemma new_user_ok w u db' row : insert_user u (aw_db w) = Ok (db', row) -> accounts_ok w -> accounts_ok (aw_with_db db' w).
Proof.
  intros (Hid & Hrow & -> & Hnames & Hsup)%insert_user_ok [Hu Hs]. constructor; cbn.
  - assert (forall j v, ad_users (aw_db w) !! j = Some v -> us_UserID u <> j) as Hne by (intros j v Hj E; congruence).
    intros i v [[<- <-]|[? Hi]]%lookup_insert_Some; constructor.
    + by rewrite Hrow.
    + rewrite Hrow. apply timestamptz_idem.
    + rewrite Hrow. cbn. intros Hsv. destruct (Hsup Hsv) as (Hr & -> & _). done.
    + rewrite Hrow. cbn. intros j v [[<- <-]|[? Hj]]%lookup_insert_Some Hsv Hv; [done|].
      destruct (Hsup Hsv) as (_ & _ & Hnone). by rewrite (Hnone v) in Hv by (apply users_list_elem; eauto).
    + rewrite Hrow. cbn. intros j v [[<- <-]|[? Hj]]%lookup_insert_Some Hv; [done|].
      by destruct (Hnames v ltac:(apply users_list_elem; eauto)).
    + by apply Hu.
    + by apply (Hu i v).
    + by apply (Hu i v).
    + intros j x [[<- <-]|[? Hj]]%lookup_insert_Some Hsv Hx; [|by eapply (uo_single _ _ _ (Hu i v Hi))].
      rewrite Hrow in Hx. cbn in Hx. destruct (Hsup Hx) as (_ & _ & Hnone).
      by rewrite (Hnone v) in Hsv by (apply users_list_elem; eauto).
    + intros j x [[<- <-]|[? Hj]]%lookup_insert_Some Hx; [|by eapply (uo_name _ _ _ (Hu i v Hi))].
      rewrite Hrow in Hx. by destruct (Hnames v ltac:(apply users_list_elem; eauto)).
  - intros key s Hk. destruct (Hs key s Hk) as [v [H1 H2 H3 H4 H5 H6]]. exists v. constructor; try done.
    rewrite lookup_insert_ne; [done|]. intros E. congruence.
Qed.

(** The account [id] changes and its sessions are gone. *)
Lemma revoked_user_ok w id u u' : accounts_ok w -> ad_users (aw_db w) !! id = Some u ->
  us_UserID u' = us_UserID u -> us_Username u' = us_Username u -> us_Role u' = us_Role u ->
  us_IsSupervisor u' = us_IsSupervisor u -> timestamptz (us_PasswordChangedAt u') = us_PasswordChangedAt u' ->
  (us_IsSupervisor u = true -> us_DisabledAt u' = None) ->
  accounts_ok (aw_with_db (delete_user_sessions id (ad_with_users (<[id := u']> (ad_users (aw_db w))) (aw_db w))) w).
Proof.
  intros [Hu Hs] Hid E1 E2 E3 E4 Hm Hd. constructor; cbn; [by apply (user_change_ok _ id u)|].
  intros key s [Hk Hne]%map_lookup_filter_Some. cbn in Hne. destruct (Hs key s Hk) as [v [H1 H2 H3 H4 H5 H6]]. exists v.
  constructor; try done. by rewrite lookup_insert_ne.
Qed.

(** ** The operations *)

Lemma later_bounds a b : a <= laterSessionTime a b /\ b <= laterSessionTime a b.
Proof. unfold laterSessionTime, Time_Before. destruct (Z.ltb_spec a b); lia. Qed.

Lemma later_micro a b : timestamptz a = a -> timestamptz b = b -> timestamptz (laterSessionTime a b) = laterSessionTime a b.
Proof. unfold laterSessionTime. by destruct (Time_Before a b). Qed.

Lemma clock_micro io : timestamptz (normalizeSessionClock io) = normalizeSessionClock io.
Proof. apply timestamptz_idem. Qed.

Lemma log_snoc {A} (l : list A) x : l ⊆ l ++ [x].
Proof. set_solver. Qed.

Lemma log_last {A} (l : list A) x : x ∈ l ++ [x].
Proof. set_solver. Qed.

(** The comparison of a session's owner that a check established. *)
Ltac same_owner s userID Hown :=
  assert (sw_UserID s = userID) as Hown by
    (match goal with H : negb (sw_UserID s =s userID) = false |- _ => by apply negb_false_iff, String.eqb_eq in H end).

Lemma create_session_ok io hash presented session w db' r :
  create_session_tx io (as_ttl svc) hash session (aw_db w) = Ok (db', r) -> accounts_ok w ->
  accounts_ok (opened (hashSessionID (se_SessionID session)) (se_UserID session) hash presented w db').
Proof.
  unfold create_session_tx. intros H Hok. ok_step H. destruct (ad_users (aw_db w) !! se_UserID session) as [u|] eqn:Eu; [|done].
  do 3 ok_step H. injection H as <- <-. apply orb_false_iff in Hok1 as [Hh%negb_false_iff Hd].
  apply String.eqb_eq in Hh. pose proof (ao_users _ Hok _ _ Eu) as [_ Hmicro _ _ _].
  pose proof (later_micro _ _ (clock_micro io) Hmicro) as Hlater.
  apply (set_session_ok w _ _ _ u); [done|apply log_snoc|]. constructor; cbn; [done|by destruct (us_DisabledAt u)| |by rewrite timestamptz_idem| |].
  - rewrite Hlater. apply later_bounds.
  - by rewrite Hlater.
  - eexists. split; [apply log_last|]. by split_and!.
Qed.

Lemma change_password_ok io userID sessionID expected hash presented w db' r :
  change_password_tx io userID sessionID expected hash (aw_db w) = Ok (db', r) -> accounts_ok w ->
  accounts_ok (opened (hashSessionID sessionID) userID hash presented w db').
Proof.
  unfold change_password_tx. intros H Hok. ok_step H. destruct (ad_users (aw_db w) !! userID) as [u|] eqn:Eu; [|done].
  do 3 ok_step H. destruct (ad_sessions (aw_db w) !! hashSessionID sessionID) as [s|] eqn:Es; [|done].
  do 5 ok_step H. injection H as <- <-. same_owner s userID Hown.
  pose proof (ao_users _ Hok _ _ Eu) as [_ Hmicro Hsup _ _].
  destruct (ao_sessions _ Hok _ _ Es) as [u0 [F1 F2 F3 F4 F5 _]]. rewrite Hown, Eu in F1. injection F1 as <-.
  pose proof (later_micro _ _ (clock_micro io) Hmicro) as Hlater. destruct Hok as [Hu Hs]. constructor; cbn.
  - apply (user_change_ok _ userID u); [done..|apply timestamptz_idem|]. intros _. cbn. done.
  - intros key s' [[<- <-]|[Hne [Hk Hother]%map_lookup_filter_Some]]%lookup_insert_Some.
    + eexists. constructor; cbn; [by rewrite Hown, lookup_insert_eq|done|cbn; lia|done|done|].
      eexists. split; [apply log_last|]. by split_and!.
    + cbn in Hother. destruct (Hs key s' Hk) as [v [H1 H2 H3 H4 H5 (e & He & H6)]]. exists v.
      constructor; try done; [by rewrite lookup_insert_ne|]. exists e. split; [by apply log_snoc|done].
Qed.

Lemma touch_ok io sessionID userID w db' r : touch_tx io (as_ttl svc) sessionID userID (aw_db w) = Ok (db', r) ->
  accounts_ok w -> accounts_ok (aw_with_db db' w).
Proof.
  unfold touch_tx. intros H Hok. ok_step H. destruct (ad_users (aw_db w) !! userID) as [u|] eqn:Eu; [|done].
  ok_step H. destruct (ad_sessions (aw_db w) !! hashSessionID sessionID) as [s|] eqn:Es; [|done]. ok_step H.
  same_owner s userID Hown. destruct (is_set (us_DisabledAt u)).
  { ok_step H. injection H as <- <-. apply fewer_sessions_ok; [apply delete_subseteq|done]. }
  destruct (session_stale _ _ _ _); ok_step H; injection H as <- <-.
  { apply fewer_sessions_ok; [apply delete_subseteq|done]. }
  destruct (ao_sessions _ Hok _ _ Es) as [u0 [F1 F2 F3 F4 F5 F6]]. rewrite Hown, Eu in F1. injection F1 as <-.
  pose proof (ao_users _ Hok _ _ Eu) as [_ Hmicro _ _ _].
  pose proof (later_micro _ _ (later_micro _ _ (clock_micro io) F4) Hmicro) as Hlater.
  apply (set_session_ok w (aw_log w) _ _ u); [done|done|]. constructor; cbn; try done.
  - by rewrite Hown.
  - by rewrite timestamptz_idem.
  - by rewrite Hlater.
Qed.

(** ** The administration *)

(** The actor of an operation, an active supervisor (an enabled account for the list of one's own groups). *)
Definition op_actor (op : admin_op) : string :=
  match op with
  | OpListUsers a | OpCreateUser a _ | OpSetUserEnabled a _ _ _ | OpResetUserPassword a _ _ _ | OpListGroups a
  | OpCreateGroup a _ _ _ | OpRenameGroup a _ _ _ | OpListMembers a _ | OpSetMember a _ _ _ | OpListMyGroups a => a
  end.

Definition authorized (op : admin_op) (db : account_db) : Prop :=
  exists u, ad_users db !! op_actor op = Some u
    /\ match op with OpListMyGroups _ => us_DisabledAt u = None | _ => is_active_supervisor u = true end.

(** What an operation does to the tables. *)
Definition admin_effect (op : admin_op) (db db' : account_db) : Prop :=
  match op with
  | OpCreateUser _ user => exists u row, us_IsSupervisor u = false /\ insert_user u db = Ok (db', row)
  | OpSetUserEnabled _ target enabled now => exists u, ad_users db !! target = Some u
      /\ (us_IsSupervisor u = true -> enabled = true)
      /\ db' = if enabled then ad_with_users (<[target := us_with_disabled None u]> (ad_users db)) db
               else delete_user_sessions target
                      (ad_with_users (<[target := us_with_disabled (Some (default (timestamptz now) (us_DisabledAt u))) u]>
                                        (ad_users db)) db)
  | OpResetUserPassword _ target hash now => exists u, ad_users db !! target = Some u /\ us_IsSupervisor u = false
      /\ db' = delete_user_sessions target
                 (ad_with_users (<[target := us_with_password hash (timestamptz now) u]> (ad_users db)) db)
  | OpCreateGroup _ _ _ _ | OpRenameGroup _ _ _ _ | OpSetMember _ _ _ _ =>
      ad_users db' = ad_users db /\ ad_sessions db' = ad_sessions db
  | _ => db' = db
  end.

Lemma lock_ok io actor db x : lockAccessAdminSupervisor io actor db = Ok x ->
  exists u, ad_users db !! actor = Some u /\ is_active_supervisor u = true.
Proof.
  unfold lockAccessAdminSupervisor, check_supervisor. intros H. ok_step H. destruct (ad_users db !! actor) as [u|]; [|done].
  ok_step H. exists u. split; [done|]. by apply negb_false_iff.
Qed.

(** One more step of a body that succeeded; the lock gives the supervisor. *)
Ltac admin_step H :=
  match type of H with
  | (lockAccessAdminSupervisor _ _ _ ≫= _) = Ok _ => apply result_bind_ok in H as (? & ?%lock_ok & H)
  | _ => ok_step H
  end.

Lemma write_stmt_ok {A} io what (r : result A) a : write_stmt io what r = Ok a -> r = Ok a.
Proof. unfold write_stmt. destruct (ac_faults io what 0%nat); [done|]. by destruct r. Qed.

Lemma set_enabled_effect io actor target enabled now db db' a :
  set_enabled_tx io actor target enabled now db = Ok (db', a) ->
  authorized (OpSetUserEnabled actor target enabled now) db /\ admin_effect (OpSetUserEnabled actor target enabled now) db db'.
Proof.
  unfold set_enabled_tx. intros H. admin_step H. split; [done|]. apply result_bind_ok in H as ([u sup] & Hok & H).
  ok_step H. cbn [fst snd] in *.
  assert (ad_users db !! target = Some u /\ (us_IsSupervisor u = true -> enabled = true)) as [Hx Hsup].
  { destruct (String.eqb_spec target actor) as [->|].
    - destruct (ad_users db !! actor); [|done]. injection Hok as <- <-. split; [done|]. by destruct enabled.
    - ok_step Hok. destruct (ad_users db !! target); [|done]. injection Hok as <- <-. split; [done|].
      intros Hs. rewrite Hs in Hok0. by destruct enabled. }
  exists u. split_and!; [done..|]. destruct enabled.
  - do 2 ok_step H. by injection H as <- <-.
  - do 3 ok_step H. by injection H as <- <-.
Qed.

Lemma reset_effect io actor target hash now db db' a : reset_password_tx io actor target hash now db = Ok (db', a) ->
  authorized (OpResetUserPassword actor target hash now) db /\ admin_effect (OpResetUserPassword actor target hash now) db db'.
Proof.
  unfold reset_password_tx. intros H. admin_step H. split; [done|]. do 2 ok_step H.
  destruct (ad_users db !! target) as [u|] eqn:Eu; [|done]. do 3 ok_step H. injection H as <- <-. by exists u.
Qed.

Lemma create_user_effect io actor user db db' a : create_user_tx io actor user db = Ok (db', a) ->
  authorized (OpCreateUser actor user) db /\ admin_effect (OpCreateUser actor user) db db'.
Proof.
  unfold create_user_tx. intros H. admin_step H. split; [done|]. apply result_bind_ok in H as ([db1 row] & Hok & H).
  apply write_stmt_ok in Hok. injection H as <- <-. eexists _, row. split; [|done]. done.
Qed.

Lemma admin_tx_inv {A} io what db (body : result (account_db * A)) db' r : admin_tx io what db body = (db', r) ->
  (db' = db /\ exists e, r = Err e) \/ (exists a, body = Ok (db', a) /\ (r = Ok a \/ exists e, r = Err e)).
Proof.
  unfold admin_tx. intros [?|(a & H & Hr)]%transaction_inv; [by left|]. ok_step H. right. exists a. split; [done|].
  destruct Hr as [[_ ->]|[e ->]]; eauto.
Qed.

(** An operation does nothing and answers an error, or its actor was authorized and it did its work. *)
Lemma run_admin_effect io op db db' r : run_admin io op db = (db', r) ->
  (db' = db /\ exists e, r = Err e) \/ (authorized op db /\ admin_effect op db db').
Proof.
  assert (forall A (f : A -> admin_answer) what (body : result (account_db * A)),
    answer_with f (admin_tx io what db body) = (db', r) ->
    (forall a, body = Ok (db', a) -> authorized op db /\ admin_effect op db db') ->
    (db' = db /\ exists e, r = Err e) \/ (authorized op db /\ admin_effect op db db')) as Hrun.
  { intros A f what body H Hb. unfold answer_with in H. destruct (admin_tx io what db body) as [db1 r1] eqn:E. injection H as <- <-.
    apply admin_tx_inv in E as [[-> [e ->]]|(a & Ha & _)]; [left; split; [done|by exists e]|right; by eapply Hb]. }
  destruct op; intros H; (eapply Hrun; [exact H|]); clear H Hrun; intros ans H.
  - unfold list_users_tx in H. admin_step H. ok_step H. by injection H as <- <-.
  - by eapply create_user_effect.
  - by eapply set_enabled_effect.
  - by eapply reset_effect.
  - unfold list_groups_tx in H. admin_step H. ok_step H. by injection H as <- <-.
  - unfold create_group_tx in H. admin_step H. ok_step H. by injection H as <- <-.
  - unfold rename_group_tx in H. admin_step H. ok_step H. destruct (ad_groups db !! groupID); [|done]. ok_step H.
    by injection H as <- <-.
  - unfold list_members_tx in H. admin_step H. ok_step H. destruct (ad_groups db !! groupID); [|done]. ok_step H.
    by injection H as <- <-.
  - unfold set_member_tx in H. admin_step H. do 2 ok_step H. destruct (ad_groups db !! groupID); [|done]. ok_step H.
    by injection H as <- <-.
  - unfold list_my_groups_tx in H. ok_step H. destruct (ad_users db !! actorID) as [u|] eqn:Eu; [|done]. do 2 ok_step H.
    injection H as <- <-. split; [|done]. exists u. split; [done|]. by destruct (us_DisabledAt u).
Qed.

(** ** Every call *)

Lemma same_tables_ok w db' : ad_users db' = ad_users (aw_db w) -> ad_sessions db' = ad_sessions (aw_db w) ->
  accounts_ok w -> accounts_ok (aw_with_db db' w).
Proof. intros E1 E2 [Hu Hs]. constructor; cbn; rewrite ?E1, ?E2; done. Qed.

Lemma admin_ok io op w db' r : run_admin io op (aw_db w) = (db', r) -> accounts_ok w -> accounts_ok (aw_with_db db' w).
Proof.
  intros [[-> _]|[_ He]]%run_admin_effect Hok; [by apply same_tables_ok|].
  destruct op; cbn in He; subst; try by apply same_tables_ok.
  - destruct He as (u & row & _ & Hi). by eapply new_user_ok.
  - destruct He as (u & Hu & Hsup & ->). pose proof (ao_users _ Hok _ _ Hu) as Huo. destruct enabled.
    + destruct Hok as [Hus Hs]. constructor; cbn.
      * apply (user_change_ok _ targetID u); try done. by apply Huo.
      * intros key s Hk. destruct (Hs key s Hk) as [v [H1 H2 H3 H4 H5 H6]].
        destruct (decide (targetID = sw_UserID s)) as [->|Hne].
        -- assert (v = u) as -> by congruence. exists (us_with_disabled None u). constructor; try done. by rewrite lookup_insert_eq.
        -- exists v. constructor; try done. by rewrite lookup_insert_ne.
    + apply (revoked_user_ok w targetID u); try done; [by apply Huo|]. intros Hs. by specialize (Hsup Hs).
  - destruct He as (u & Hu & Hsup & ->). apply (revoked_user_ok w targetID u); try done; [apply timestamptz_idem|congruence].
  - by destruct He; apply same_tables_ok.
  - by destruct He; apply same_tables_ok.
  - by destruct He; apply same_tables_ok.
Qed.

Lemma account_tx_inv {A} io what db (body : result (account_db * A)) db' r : account_tx io what db body = (db', r) ->
  db' = db \/ exists a, body = Ok (db', a).
Proof. intros [[-> _]|(a & H & _)]%transaction_inv; [by left|]. ok_step H. right. by exists a. Qed.

Lemma perform_ok R (c : account_call R) io w w' r : perform_account svc io c w = (w', r) -> accounts_ok w ->
  accounts_ok w' /\ aw_log w ⊆ aw_log w'.
Proof.
  intros Hp Hok. destruct c; cbn in Hp; try (injection Hp as <- <-; done).
  - destruct (autocommit _ _ _) as [db' r'] eqn:E. injection Hp as <- <-. split; [|done]. unfold autocommit in E.
    destruct (_ ≫= _) as [[db1 []]|e] eqn:Ei; [|injection E as <- <-; by apply same_tables_ok].
    apply result_bind_ok in Ei as (? & _ & ([db2 row] & Hi & [= <-])%result_bind_ok).
    assert (db' = db2 \/ db' = aw_db w) as [-> | ->].
    { destruct (ac_answer io) as [|e [|]]; injection E as <- _; auto. }
    + by eapply new_user_ok.
    + by apply same_tables_ok.
  - unfold CreateIfPasswordHash in Hp. destruct (account_tx _ _ _ _) as [db' r'] eqn:E. injection Hp as <- <-.
    split; [|apply log_snoc]. apply account_tx_inv in E as [->|[a E]]; [|by eapply create_session_ok].
    apply (more_log_ok w); [apply log_snoc|done].
  - unfold ChangePasswordIfHash in Hp. destruct (account_tx _ _ _ _) as [db' r'] eqn:E. injection Hp as <- <-.
    split; [|apply log_snoc]. apply account_tx_inv in E as [->|[a E]]; [|by eapply change_password_ok].
    apply (more_log_ok w); [apply log_snoc|done].
  - unfold touch_session in Hp. destruct (transaction _ _ _ _) as [db' r'] eqn:E. injection Hp as <- <-. split; [|done].
    apply transaction_inv in E as [[-> _]|(a & E & _)]; [by apply same_tables_ok|]. ok_step E. by eapply touch_ok.
  - unfold Sessions_Delete, autocommit in Hp. split; [|by destruct (ac_answer io) as [|e [|]]; injection Hp as <- <-].
    destruct (ac_answer io) as [|e [|]]; injection Hp as <- <-;
      [apply fewer_sessions_ok; [apply delete_subseteq|done]..|by apply same_tables_ok].
  - unfold DeleteExpiredBefore, autocommit in Hp. split; [|by destruct (ac_answer io) as [|e [|]]; injection Hp as <- <-].
    destruct (ac_answer io) as [|e [|]]; injection Hp as <- <-;
      [apply fewer_sessions_ok; [apply map_filter_subseteq|done]..|by apply same_tables_ok].
  - destruct (run_admin io op (aw_db w)) as [db' r'] eqn:E. injection Hp as <- <-. split; [|done]. by eapply admin_ok.
Qed.

(** * Runs *)

Definition authentic (e : opening) : Prop := VerifyPassword (op_Hash e) (op_Presented e) = Ok tt.

Record accounts_system_ok (y : account_system) : Prop := {
  yo_tables : accounts_ok (ay_world y);
  yo_log : bcrypt_sound -> Forall authentic (aw_log (ay_world y));
  yo_running : Forall (fun p => follows (asks svc) (fun _ _ _ _ => tt) tt p (fun _ _ => True)) (ay_running y);
}.

Lemma hash_verifies salt plain cost hash : bcrypt_sound -> HashPasswordWithCost salt plain cost = Ok hash ->
  VerifyPassword hash plain = Ok tt.
Proof.
  intros Hb H. unfold HashPasswordWithCost in H. do 4 ok_step H. unfold map_error in H.
  destruct (bcrypt_GenerateFromPassword salt plain cost) as [h|e] eqn:E; [|done]. injection H as ->.
  destruct (Hb _ _ _ _ E) as [Hl Hc]. unfold VerifyPassword. rewrite Hc. by destruct (Nat.ltb_spec (String.length hash) 4); [lia|].
Qed.

Lemma perform_log R (c : account_call R) io w w' r : perform_account svc io c w = (w', r) -> asks svc R tt c ->
  bcrypt_sound -> Forall authentic (aw_log w) -> Forall authentic (aw_log w').
Proof.
  intros Hp Ha Hb Hl. destruct c; cbn in Hp; try (injection Hp as <- <-; done);
    match type of Hp with context [let '(_, _) := ?t in _] => destruct t as [db' r'] end; injection Hp as <- <-; try done;
    (apply Forall_app; split; [done|]; apply Forall_singleton).
  - exact Ha.
  - destruct Ha as [salt Ha]. by eapply hash_verifies.
Qed.

Lemma accounts_step_ok ev y y' : step_accounts svc ev y = Some y' -> accounts_system_ok y ->
  accounts_system_ok y' /\ aw_log (ay_world y) ⊆ aw_log (ay_world y').
Proof.
  intros Hs [Ht Hl Hr]. destruct ev as [request|i io]; cbn in Hs.
  - injection Hs as <-. split; [|done]. constructor; [done|done|]. apply Forall_app. split; [done|].
    apply Forall_singleton, asking_request.
  - destruct (ay_running y !! i) as [[a|R c k]|] eqn:Ei; [done| |done].
    destruct (perform_account svc io c (ay_world y)) as [w r] eqn:Ep. injection Hs as <-.
    pose proof (Forall_lookup_1 _ _ _ _ Hr Ei) as [Ha Hk]. destruct (perform_ok _ _ _ _ _ _ Ep Ht) as [Ht' Hlog].
    split; [|done]. constructor; [done| |].
    + intros Hb. eapply perform_log; [done|done|done|by apply Hl].
    + apply Forall_insert; [done|apply Hk].
Qed.

Lemma accounts_run_ok evs y y' : run_accounts svc evs y = Some y' -> accounts_system_ok y ->
  accounts_system_ok y' /\ aw_log (ay_world y) ⊆ aw_log (ay_world y').
Proof.
  revert y. induction evs as [|ev evs IH]; intros y; cbn; [by intros [= <-]|].
  destruct (step_accounts svc ev y) as [y1|] eqn:Es; [|done]. intros H Hok.
  destruct (accounts_step_ok _ _ _ Es Hok) as [Hok1 Hl1]. destruct (IH y1 H Hok1) as [Hok2 Hl2]. split; [done|]. by etrans.
Qed.

Lemma accounts_start_ok : accounts_system_ok start_accounts.
Proof.
  constructor; [|by intros; apply Forall_nil_2|apply Forall_nil_2]. constructor; cbn; by intros.
Qed.

Lemma accounts_reach evs y : run_accounts svc evs start_accounts = Some y -> accounts_system_ok y.
Proof. intros H. apply (accounts_run_ok _ _ _ H accounts_start_ok). Qed.
End Props.
