(* ===== verification/AccountClaims.v ===== *)
(** The properties of the accounts: authentic sessions, sessions accepted until they expire, a
    supervisor that stays, management for the supervisor only, and a first account that can sign in. *)
From stdpp Require Import base list strings gmap.
From Stdlib Require Import ZArith Lia.
From S2P Require Import Prelude GoRuntime Notification Settings Postgres Programs Subscriptions Accounts AccessAdmin AccountService AccountRuns AccountProps.

Local Open Scope Z_scope.
#[local] Set Warnings "-clear-no-such-hyp".
#[local] Arguments timestamptz : simpl never.
#[local] Arguments laterSessionTime : simpl never.
#[local] Arguments normalizeSessionClock : simpl never.

Section Claims.
Context `{Env : AccountEnv} (svc : AuthService).

(** C10: whatever sign-ins, password changes, resets, suspensions, sign-outs and
    failures interleave, call by call, a stored session belongs to an enabled account, and for that
    very session a password was presented that matches the account's current hash: no
    interleaving leaves a session that was opened with an earlier password or of a disabled account. *)
Theorem live_sessions_authentic evs y key s :
  bcrypt_sound -> run_accounts svc evs start_accounts = Some y -> ad_sessions (aw_db (ay_world y)) !! key = Some s ->
  exists u e, ad_users (aw_db (ay_world y)) !! sw_UserID s = Some u /\ us_DisabledAt u = None
    /\ e ∈ aw_log (ay_world y) /\ op_Key e = key /\ op_UserID e = us_UserID u
    /\ VerifyPassword (us_PasswordHash u) (op_Presented e) = Ok tt.
Proof.
  intros Hb Hrun Hs. destruct (accounts_reach _ _ _ Hrun) as [Ht Hl _].
  destruct (ao_sessions _ _ Ht key s Hs) as [u [H1 H2 _ _ _ (e & He & Hk & Hu & Hh)]]. exists u, e. split_and!; try done.
  - rewrite Hu. by rewrite (uo_id _ _ _ (ao_users _ _ Ht _ _ H1)).
  - rewrite <-Hh. specialize (Hl Hb). rewrite Forall_forall in Hl. by apply Hl.
Qed.

(** C28: in every state of every run, a session check whose query succeeds
    accepts a stored session exactly while the clock, cut to microseconds, is before its expiry,
    which lies one lifetime after its last use; afterwards it answers that the session
    expired, and for an id without a stored session that there is none.  Neither the time of the last
    password change nor a clock that went back ever makes it refuse a stored session earlier. *)
Theorem session_accepted_until_expiry evs y io sessionID :
  run_accounts svc evs start_accounts = Some y -> ac_faults io "validate session" 0%nat = None ->
  ValidateSession io sessionID (aw_db (ay_world y)) =
    match ad_sessions (aw_db (ay_world y)) !! hashSessionID sessionID with
    | None => Err ErrSessionNotFound
    | Some s => if normalizeSessionClock io <? timestamptz (sw_LastSeenAt s + as_ttl svc)
                then Ok tt else Err ErrSessionExpired
    end.
Proof.
  intros Hrun Hf. destruct (accounts_reach _ _ _ Hrun) as [Ht _ _]. unfold ValidateSession, statement. rewrite Hf. cbn.
  destruct (ad_sessions (aw_db (ay_world y)) !! hashSessionID sessionID) as [s|] eqn:Es; [|done].
  destruct (ao_sessions _ _ Ht _ s Es) as [u [H1 H2 H3 H4 H5 _]]. rewrite H1, H2. cbn.
  unfold session_stale, Time_After, Time_Before. rewrite (proj2 (Z.ltb_ge _ _) H3), andb_false_r, orb_false_r, H5.
  unfold reject. by destruct (_ <? _).
Qed.

(** * The supervisor *)











(** C27: an operation on accounts and groups that changes a table or answers
    without an error is made by the account that is the active supervisor when the operation's
    transaction holds its row (reading one's own groups: by an enabled account); anyone else gets, when
    the server answers, the same refusal whatever the operation is about, and changes nothing. *)
Theorem management_needs_supervisor io op db db' r :
  run_admin io op db = (db', r) ->
  (authorized op db \/ (db' = db /\ exists e, r = Err e))
  /\ (~ authorized op db -> (forall what, ac_faults io what 0%nat = None) -> r = Err ErrManagementForbidden).
Proof.
  intros H. split; [by destruct (run_admin_effect _ _ _ _ _ H) as [?|[? _]]; [right|left]|].
  intros Hno Hf. assert (forall what, admin_stmt io what = Ok tt) as Hstmt by (intros what; unfold admin_stmt, statement; by rewrite Hf).
  assert (forall A what (body : result (account_db * A)) f, body = Err ErrManagementForbidden ->
    (answer_with f (admin_tx io what db body)).2 = Err ErrManagementForbidden) as Hrefuse.
  { intros A what body f ->. unfold admin_tx. by rewrite Hstmt. }
  assert (r = (run_admin io op db).2) as -> by (by rewrite H).
  assert (forall actor, ~ (exists u, ad_users db !! actor = Some u /\ is_active_supervisor u = true) ->
    lockAccessAdminSupervisor io actor db = Err ErrManagementForbidden) as Hlock.
  { intros actor Hn. unfold lockAccessAdminSupervisor, check_supervisor. rewrite Hstmt. cbn.
    destruct (ad_users db !! actor) as [u|] eqn:Eu; [|done]. destruct (is_active_supervisor u) eqn:Ea; [|done].
    destruct Hn. by exists u. }
  destruct op; apply Hrefuse;
    try (unfold list_users_tx, create_user_tx, set_enabled_tx, reset_password_tx, list_groups_tx, create_group_tx,
      rename_group_tx, list_members_tx, set_member_tx; rewrite Hlock; [done|exact Hno]).
  unfold list_my_groups_tx. rewrite (Hstmt "lock active user"). cbn. destruct (ad_users db !! actorID) as [u|] eqn:Eu; [|done].
  destruct (us_DisabledAt u) eqn:Ed; [done|]. destruct Hno. by exists u.
Qed.

(** * The first account *)

Definition account_run {A} (oracle : nat -> account_io) (p : account_action A) (n : nat) (w : account_world)
    : account_world * nat * A :=
  exec (fun R n (c : account_call R) w => perform_account svc (oracle n) c w) p n w.

(** Statements that do not fail, commits that arrive, random bytes that can be read. *)
Record working (oracle : nat -> account_io) : Prop := {
  wk_statements : forall n what, ac_faults (oracle n) what 0%nat = None;
  wk_commits : forall n, ac_answer (oracle n) = Executed;
  wk_random : forall n, exists bytes, ac_random (oracle n) = Ok bytes;
}.

Definition initial_user (opts : SeedInitialUserOptions) (id hash : string) (t : Z) : User := {|
  us_UserID := id; us_Username := strings_TrimSpace (so_Username opts); us_PasswordHash := hash;
  us_DisplayName := if so_DisplayName opts =s "" then strings_TrimSpace (so_Username opts) else so_DisplayName opts;
  us_Role := RoleAdmin; us_IsSupervisor := true; us_DisabledAt := None; us_CreatedAt := timestamptz t;
  us_PasswordChangedAt := timestamptz t |}.

(** Seeding an empty table. *)
Lemma seed_empty oracle opts hash : working oracle -> username_ok (strings_TrimSpace (so_Username opts)) = true ->
  HashPasswordWithCost (ac_random (oracle 1%nat)) (so_Password opts)
    (if so_Cost opts =? 0 then DefaultPasswordBcryptCost else so_Cost opts) = Ok hash ->
  exists id, account_run oracle (SeedInitialUserWithOptions opts) 0 (ay_world start_accounts) =
    ({| aw_db := ad_with_users {[id := initial_user opts id hash (ac_clock (oracle 3%nat))]} (aw_db (ay_world start_accounts));
        aw_log := [] |}, 5%nat, Ok tt).
Proof.
  intros Hw Hu Hh. unfold account_run, SeedInitialUserWithOptions. rewrite Hu. cbn [negb].
  pose proof Hh as Hl. unfold HashPasswordWithCost in Hl. do 2 ok_step Hl. rewrite Hok, Hok0.
  rewrite exec_bind. cbn [exec call perform_account]. unfold CountUsers, statement. rewrite (wk_statements _ Hw).
  cbv beta iota delta [mbind result_bind].
  change (0 <? Z.of_nat (size (ad_users (aw_db (ay_world start_accounts))))) with false. cbv iota.
  rewrite exec_bind. cbn [exec call HashPassword bind perform_account]. rewrite Hh. cbn [check].
  cbn [exec perform_account]. destruct (wk_random _ Hw 2%nat) as [bytes ->]. cbn [NewUserID check exec perform_account].
  rewrite exec_bind. unfold Users_Create. rewrite exec_bind.
  cbn [exec call perform_account]. unfold statement. rewrite (wk_statements _ Hw), (wk_commits _ Hw). cbn.
  eexists. done.
Qed.

(** Signing in to the only account. *)
Lemma login_only oracle username password userAgent clientIP n w u :
  working oracle -> username_ok (strings_TrimSpace username) = true -> users_list (aw_db w) = [u] ->
  us_Username u = strings_TrimSpace username -> VerifyPassword (us_PasswordHash u) password = Ok tt ->
  us_DisabledAt u = None -> ad_users (aw_db w) !! us_UserID u = Some u -> ad_sessions (aw_db w) = ∅ ->
  timestamptz (us_PasswordChangedAt u) = us_PasswordChangedAt u ->
  exists w' s row, account_run oracle (Login username password userAgent clientIP) n w = (w', S (S (S n)), Ok s)
    /\ se_ManagementAccess s = us_IsSupervisor u /\ se_UserID s = us_UserID u
    /\ ad_sessions (aw_db w') !! hashSessionID (se_SessionID s) = Some row /\ sw_UserID row = se_UserID s
    /\ ad_users (aw_db w') = ad_users (aw_db w) /\ se_ExpiresAt s = timestamptz (se_IssuedAt s + as_ttl svc).
Proof.
  intros Hw Hu Hlist Hname Hv Hd Hid Hnone Hmicro. unfold account_run, Login. rewrite Hu. cbn [negb].
  rewrite exec_bind. cbn [exec call perform_account].
  unfold FindByUsername, query_user, statement. rewrite (wk_statements _ Hw), Hlist. cbn [List.find].
  rewrite Hname, String.eqb_refl. cbv beta iota delta [mbind result_bind]. rewrite Hv, Hd. cbn [is_set].
  rewrite exec_bind. cbn [exec call perform_account]. destruct (wk_random _ Hw (S n)) as [bytes ->].
  cbn [NewSessionID exec call perform_account].
  unfold CreateIfPasswordHash, account_tx, create_session_tx, stmt, statement.
  rewrite !(wk_statements _ Hw), (wk_commits _ Hw). cbn [se_UserID se_SessionID]. rewrite Hid, Hnone, String.eqb_refl, Hd, lookup_empty. cbn.
  do 3 eexists. split; [done|]. cbn. rewrite andb_true_r, lookup_insert_eq. split_and!; try done.
  by rewrite (later_micro _ _ (clock_micro _) Hmicro).
Qed.

(** C29: seeding a center without accounts with an acceptable name and password succeeds,
    and whoever then signs in with that name (blanks around it do not matter) and that password gets a
    session of the supervisor, with access to the management, that is stored and expires one lifetime
    after it was issued. *)
Theorem seeded_account_signs_in oracle opts hash username userAgent clientIP :
  bcrypt_sound -> working oracle -> username_ok (strings_TrimSpace (so_Username opts)) = true ->
  HashPasswordWithCost (ac_random (oracle 1%nat)) (so_Password opts)
    (if so_Cost opts =? 0 then DefaultPasswordBcryptCost else so_Cost opts) = Ok hash ->
  strings_TrimSpace username = strings_TrimSpace (so_Username opts) ->
  exists w1 n1 w2 n2 s row,
    account_run oracle (SeedInitialUserWithOptions opts) 0 (ay_world start_accounts) = (w1, n1, Ok tt)
    /\ account_run oracle (Login username (so_Password opts) userAgent clientIP) n1 w1 = (w2, n2, Ok s)
    /\ se_ManagementAccess s = true /\ ad_sessions (aw_db w2) !! hashSessionID (se_SessionID s) = Some row
    /\ sw_UserID row = se_UserID s /\ is_set (ad_users (aw_db w2) !! se_UserID s) = true
    /\ se_ExpiresAt s = timestamptz (se_IssuedAt s + as_ttl svc).
Proof.
  intros Hb Hw Hu Hh Hname. destruct (seed_empty oracle opts hash Hw Hu Hh) as [id Hseed].
  set (u := initial_user opts id hash (ac_clock (oracle 3%nat))) in *. set (w1 := Build_account_world _ _) in *.
  destruct (login_only oracle username (so_Password opts) userAgent clientIP 5 w1 u) as (w2 & s & row & Hl & Ha & Hi & Hr & Ho & Hus & He);
    [done|by rewrite Hname| |done| |done| |done|apply timestamptz_idem|].
  - unfold users_list, w1. cbn. by rewrite map_to_list_singleton.
  - by eapply hash_verifies.
  - apply lookup_singleton_eq.
  - exists w1, 5%nat, w2, 8%nat, s, row. split_and!; try done. rewrite Hus, Hi. cbn. by rewrite lookup_singleton_eq.
Qed.
End Claims.

(** * Concrete accounts *)

(** Concrete accounts: a sign-in with the old password that is overtaken by a password change, the
    properties at that run, and a password the policy accepts and bcrypt does not. *)

(** Stands for bcrypt, which refuses passwords over 72 bytes, and for the HMAC. *)
#[local] Instance demo_env : AccountEnv := {
  unicode_IsLower := fun _ => false; unicode_IsUpper := fun _ => false; unicode_IsDigit := fun _ => false;
  bcrypt_GenerateFromPassword := fun _ plain _ =>
    if (72 <? String.length plain)%nat then Err (ErrSentinel "bcrypt: password length exceeds 72 bytes")
    else Ok ("$2a$" +:+ plain)%string;
  bcrypt_CompareHashAndPassword := fun hash plain =>
    if (hash =s ("$2a$" +:+ plain)%string) then None else Some (ErrSentinel bcryptMismatchedName);
  hmac_sha256 := fun key message => (key +:+ message)%string;
  hmacKey := "k" }.

Lemma demo_bcrypt_sound : bcrypt_sound.
Proof.
  intros salt plain cost hash H. unfold bcrypt_GenerateFromPassword, demo_env in H.
  destruct (72 <? String.length plain)%nat; [discriminate H|]. injection H as <-. split; [change (4 <= 4 + String.length plain)%nat; lia|].
  unfold bcrypt_CompareHashAndPassword, demo_env. by rewrite String.eqb_refl.
Qed.

Definition demo_svc : AuthService := NewAuthService 0 0.
Definition demo_clock : Z := 60 * Day.

Definition demo_io (random : string) : account_io := {|
  ac_faults := fun _ _ => None; ac_answer := Executed; ac_clock := demo_clock; ac_random := Ok random |}.

Definition demo_seed : SeedInitialUserOptions := {|
  so_Username := " root "; so_Password := "s3cret-One"; so_DisplayName := ""; so_Cost := 0 |}.

Definition demo_user_id : string := "usr_6161".
Definition demo_session : string := "6262".

Definition advance (i n : nat) (random : string) : list account_event := replicate n (EvAdvance i (demo_io random)).

(** Request 0 seeds; request 1 signs in; request 2 signs in with the same password up to the last call;
    request 3 changes the password in the session of request 1; then request 2 goes on. *)
Definition overtaken_events : list account_event :=
  [EvArrive (ReqSeed demo_seed)] ++ advance 0 5 "aa"
  ++ [EvArrive (ReqLogin "root" "s3cret-One" "ua" "ip")] ++ advance 1 3 "bb"
  ++ [EvArrive (ReqLogin "root" "s3cret-One" "ua" "ip")] ++ advance 2 2 "cc"
  ++ [EvArrive (ReqChangePassword demo_user_id demo_session "s3cret-One" "s3cret-Two")] ++ advance 3 3 "dd"
  ++ advance 2 1 "cc".

Definition overtaken_end : option account_system := run_accounts demo_svc overtaken_events start_accounts.

(** The tables at the end. *)
Definition end_sessions : option (list (string * string)) :=
  (fun y => map (fun r => (r.1, sw_UserID r.2)) (map_to_list (ad_sessions (aw_db (ay_world y))))) <$> overtaken_end.

Lemma live_sessions_authentic_witness : exists y s u e, overtaken_end = Some y
  /\ end_sessions = Some [("6b36323632", demo_user_id)]
  /\ ad_sessions (aw_db (ay_world y)) !! "6b36323632" = Some s
  /\ ad_users (aw_db (ay_world y)) !! sw_UserID s = Some u /\ e ∈ aw_log (ay_world y)
  /\ VerifyPassword (us_PasswordHash u) (op_Presented e) = Ok tt.
Proof.
  assert (end_sessions = Some [("6b36323632", demo_user_id)]) as Hend by (vm_compute; reflexivity).
  assert ((fun y => sw_UserID <$> ad_sessions (aw_db (ay_world y)) !! "6b36323632") <$> overtaken_end = Some (Some demo_user_id)) as Hs
    by (vm_compute; reflexivity).
  rewrite Hend. destruct overtaken_end as [y|] eqn:E; [|discriminate Hs]. injection Hs as Hs.
  destruct (ad_sessions (aw_db (ay_world y)) !! "6b36323632") as [s|] eqn:Es; [|discriminate Hs].
  destruct (live_sessions_authentic demo_svc overtaken_events y "6b36323632" s demo_bcrypt_sound E Es)
    as (u & e & Hu & _ & He & _ & _ & Hv).
  exists y, s, u, e. split_and!; (reflexivity || assumption).
Defined.

Lemma session_accepted_until_expiry_witness : exists y, overtaken_end = Some y
  /\ ValidateSession (demo_io "") demo_session (aw_db (ay_world y)) = Ok tt.
Proof.
  assert ((fun y => sw_LastSeenAt <$> ad_sessions (aw_db (ay_world y)) !! "6b36323632") <$> overtaken_end = Some (Some demo_clock)) as Hs
    by (vm_compute; reflexivity).
  destruct overtaken_end as [y|] eqn:E; [|discriminate Hs]. injection Hs as Hs. exists y. split; [reflexivity|].
  rewrite (session_accepted_until_expiry demo_svc overtaken_events y (demo_io "") demo_session E eq_refl).
  change (hashSessionID demo_session) with "6b36323632".
  destruct (ad_sessions (aw_db (ay_world y)) !! "6b36323632") as [s|]; [|discriminate Hs]. injection Hs as Hs.
  rewrite Hs. vm_compute. reflexivity.
Defined.



(** An administrator that is not the supervisor. *)
Definition plain_admin : User := {|
  us_UserID := "usr_2"; us_Username := "ada"; us_PasswordHash := ""; us_DisplayName := "ada"; us_Role := RoleAdmin;
  us_IsSupervisor := false; us_DisabledAt := None; us_CreatedAt := 0; us_PasswordChangedAt := 0 |}.

Definition plain_db : account_db := {|
  ad_users := {["usr_2" := plain_admin]}; ad_sessions := ∅; ad_groups := ∅; ad_members := ∅ |}.

Lemma management_needs_supervisor_witness :
  run_admin (demo_io "") (OpResetUserPassword "usr_2" "usr_1" "hash" 0) plain_db = (plain_db, Err ErrManagementForbidden).
Proof.
  destruct (run_admin (demo_io "") (OpResetUserPassword "usr_2" "usr_1" "hash" 0) plain_db) as [db' r] eqn:E.
  destruct (management_needs_supervisor _ _ _ _ _ E) as [Ha Hr].
  assert (~ authorized (OpResetUserPassword "usr_2" "usr_1" "hash" 0) plain_db) as Hno.
  { intros (u & Hu & Hs). cbn in Hu. apply lookup_singleton_Some in Hu as [_ <-]. discriminate Hs. }
  rewrite (Hr Hno ltac:(reflexivity)). destruct Ha as [Ha|[-> _]]; [destruct (Hno Ha)|reflexivity].
Defined.

Definition seed_oracle (n : nat) : account_io := demo_io "xy".

Lemma seeded_account_signs_in_witness : exists w1 n1 w2 n2 s,
  account_run demo_svc seed_oracle (SeedInitialUserWithOptions demo_seed) 0 (ay_world start_accounts) = (w1, n1, Ok tt)
  /\ account_run demo_svc seed_oracle (Login "  root" "s3cret-One" "ua" "ip") n1 w1 = (w2, n2, Ok s)
  /\ se_ManagementAccess s = true.
Proof.
  destruct (seeded_account_signs_in demo_svc seed_oracle demo_seed "$2a$s3cret-One" "  root" "ua" "ip")
    as (w1 & n1 & w2 & n2 & s & row & H1 & H2 & H3 & _); [exact demo_bcrypt_sound| |vm_compute; reflexivity..|].
  - constructor; [reflexivity|reflexivity|]. intros n. exists "xy". reflexivity.
  - exists w1, n1, w2, n2, s. split_and!; assumption.
Defined.

(** * Passwords between 73 and 256 bytes *)

Definition long_password : string := "a1" +:+ String.concat "" (replicate 10 "long-Text").

(** The length is within the policy and the password is acceptable, yet hashing fails, and the error is none of
    the password errors: the administration reports the service as unavailable. *)
Lemma long_password_unavailable :
  (String.length long_password <=? MaxPasswordLength)%nat = true /\ isAcceptablePassword long_password = true
  /\ exists e, HashPasswordWithCost (Ok "") long_password DefaultPasswordBcryptCost = Err e
     /\ errors_Is PasswordTooLongName e = false
     /\ mapPasswordHashError e = ErrWrap "%w: password hashing" [] [ErrManagementUnavailable].
Proof.
  split; [vm_compute; reflexivity|]. split; [vm_compute; reflexivity|].
  exists (ErrWrap "bcrypt generate: %w" [] [ErrSentinel "bcrypt: password length exceeds 72 bytes"]).
  split; [vm_compute; reflexivity|]. split; vm_compute; reflexivity.
Qed.
