(* ===== verification/Instances.v ===== *)
(** Monitoring instances and the sessions of their agents
    (src/internal/center/store/monitoring_instances.go, monitoring_sessions_management.go,
    agent_token_hash.go and src/internal/center/monitoringinstances/types.go): the columns the sync tables
    leave out, reading a row, and the helpers the operations share. *)
From stdpp Require Import base list strings gmap.
From Stdlib Require Import ZArith Lia.
From S2P Require Import Prelude GoRuntime IncidentTypes EventPayload IncidentStore Postgres Notification ObservationStore SyncProtocol SyncStore Subscriptions.

Local Open Scope Z_scope.

(** * Data *)

Definition EnrollmentTokenTTL : Z := 30 * Minute.

Definition InstanceNotFoundName : string := "monitoring instance not found".
Definition ErrInstanceNotFound : error := ErrSentinel InstanceNotFoundName.
Definition InvalidBindingTransitionName : string := "invalid binding transition".
Definition ErrInvalidBindingTransition : error := ErrSentinel InvalidBindingTransitionName.
Definition ErrMonitoringInstanceMetadataConflict : error := ErrSentinel "monitoring instance metadata conflict".
Definition ErrManagementActionBlocked : error := ErrSentinel "monitoring instance management action blocked".
Definition RetiredInstanceName : string := "retired monitoring instance".
Definition ErrRetiredMonitoringInstance : error := ErrSentinel RetiredInstanceName.
Definition ArchivedInstanceName : string := "archived monitoring instance".
Definition ErrArchivedMonitoringInstance : error := ErrSentinel ArchivedInstanceName.
Definition ErrInvalidMonitoringInstanceRuntimeTransition : error :=
  ErrSentinel "invalid monitoring instance runtime transition".

Definition CapabilityFull : string := "full".
Definition CapabilityEvidenceOnly : string := "evidence_only".

(** The binding of a machine besides its status; a null fingerprint reads as the empty text. *)
Record Binding := {
  bn_Fingerprint : string;
  bn_EpochStartedAt : option Z;
  bn_PendingFingerprint : string;
  bn_PendingFirstSeenAt : option Z;
  bn_PendingLastSeenAt : option Z;
  bn_PendingAttemptCount : Z;
}.

Record token_columns := { tk_hash : option string; tk_issued_at : option Z; tk_consumed_at : option Z }.
Record health_columns := { he_status : string; he_incident_count : Z; he_issue_summary : string }.
Record metadata_columns := {
  md_group : string;
  md_region : string;
  md_city : string;
  md_provider : string;
  md_note : string;
  md_updated_at : Z;
}.

(** The columns of monitoring_instances that [instance_row] leaves out and the operations use.  updated_at is
    read only right after it was written, as the clock of that statement. *)
Record instance_columns := {
  ic_metadata : metadata_columns;
  ic_health : health_columns;
  ic_token : token_columns;
  ic_sync_token_hash : string;
  ic_control_revision : Z;
  ic_binding : Binding;
}.

Record session_times := { st_started_at : Z; st_ended_at : option Z }.

(** vps_monitoring_instance_links. *)
Record link_row := {
  lk_vps_id : string;
  lk_monitoring_instance_id : string;
  lk_linked_at : Z;
  lk_unlinked_at : option Z;
  lk_note : string;
}.

Definition with_unlinked (at_ : option Z) (l : link_row) : link_row := {|
  lk_vps_id := lk_vps_id l; lk_monitoring_instance_id := lk_monitoring_instance_id l; lk_linked_at := lk_linked_at l;
  lk_unlinked_at := at_; lk_note := lk_note l |}.

Section Instances.
Context {body : Type}.

Record instance_db := {
  nd_sync : @sync_db body;
  nd_columns : gmap string instance_columns;
  nd_session_times : gmap string session_times;
  nd_links : gmap string link_row;
  nd_active : gmap string IncidentRecord;
  nd_events : list stored_event;
  nd_users : gset string;
}.

Definition nd_with_sync (s : @sync_db body) (db : instance_db) : instance_db := {|
  nd_sync := s; nd_columns := nd_columns db; nd_session_times := nd_session_times db; nd_links := nd_links db;
  nd_active := nd_active db; nd_events := nd_events db; nd_users := nd_users db |}.
Definition nd_with_columns (c : gmap string instance_columns) (db : instance_db) : instance_db := {|
  nd_sync := nd_sync db; nd_columns := c; nd_session_times := nd_session_times db; nd_links := nd_links db;
  nd_active := nd_active db; nd_events := nd_events db; nd_users := nd_users db |}.
Definition nd_with_times (t : gmap string session_times) (db : instance_db) : instance_db := {|
  nd_sync := nd_sync db; nd_columns := nd_columns db; nd_session_times := t; nd_links := nd_links db;
  nd_active := nd_active db; nd_events := nd_events db; nd_users := nd_users db |}.
Definition nd_with_links (l : gmap string link_row) (db : instance_db) : instance_db := {|
  nd_sync := nd_sync db; nd_columns := nd_columns db; nd_session_times := nd_session_times db; nd_links := l;
  nd_active := nd_active db; nd_events := nd_events db; nd_users := nd_users db |}.
Definition nd_with_incidents (a : gmap string IncidentRecord) (e : list stored_event) (db : instance_db) : instance_db := {|
  nd_sync := nd_sync db; nd_columns := nd_columns db; nd_session_times := nd_session_times db; nd_links := nd_links db;
  nd_active := a; nd_events := e; nd_users := nd_users db |}.

Definition instances_of (db : instance_db) : gmap string instance_row := sd_instances (nd_sync db).
Definition sessions_of (db : instance_db) : gmap string session_row := sd_sessions (nd_sync db).

(** ** Rows *)

(** A row of monitoring_instances. *)
Definition full_row : Type := instance_row * instance_columns.

Definition read_row (id : string) (db : instance_db) : option full_row :=
  match instances_of db !! id, nd_columns db !! id with Some i, Some c => Some (i, c) | _, _ => None end.

Definition write_row (id : string) (row : full_row) (db : instance_db) : instance_db :=
  nd_with_columns (<[id := row.2]> (nd_columns db))
    (nd_with_sync (set_instances (<[id := row.1]> (instances_of db)) (nd_sync db)) db).

(** The columns of [instance_row] that the operations write. *)
Definition in_set (lifecycle monitoring binding : string) (labels : list string) (beats : option Z * option Z)
    (pending : option string * option string) (last : option LastAction) (i : instance_row) : instance_row := {|
  in_display_name := in_display_name i; in_binding_status := binding; in_lifecycle_status := lifecycle;
  in_monitoring_status := monitoring; in_vps_id := in_vps_id i; in_archived := in_archived i; in_labels := labels;
  in_last_heartbeat_at := beats.1; in_last_sync_at := beats.2;
  in_last_trusted_online_at := in_last_trusted_online_at i; in_ever_connected := in_ever_connected i;
  in_pending_action_id := pending.1; in_pending_action_command_id := pending.2; in_last_action := last |}.

Definition in_beats (i : instance_row) : option Z * option Z := (in_last_heartbeat_at i, in_last_sync_at i).
Definition in_pending (i : instance_row) : option string * option string :=
  (in_pending_action_id i, in_pending_action_command_id i).

Definition with_state (lifecycle monitoring : string) (i : instance_row) : instance_row :=
  in_set lifecycle monitoring (in_binding_status i) (in_labels i) (in_beats i) (in_pending i) (in_last_action i) i.
Definition with_binding_status (status : string) (i : instance_row) : instance_row :=
  in_set (in_lifecycle_status i) (in_monitoring_status i) status (in_labels i) (in_beats i) (in_pending i)
    (in_last_action i) i.
Definition with_labels (labels : list string) (i : instance_row) : instance_row :=
  in_set (in_lifecycle_status i) (in_monitoring_status i) (in_binding_status i) labels (in_beats i) (in_pending i)
    (in_last_action i) i.
(** [last_heartbeat_at = null, last_sync_at = null]. *)
Definition without_beats (i : instance_row) : instance_row :=
  in_set (in_lifecycle_status i) (in_monitoring_status i) (in_binding_status i) (in_labels i) (None, None)
    (in_pending i) (in_last_action i) i.
(** [pending_action_id = null, pending_action_command_id = null,
    last_action = case when last_action->>'status' = 'pending' then null else last_action end]. *)
Definition without_action (i : instance_row) : instance_row :=
  in_set (in_lifecycle_status i) (in_monitoring_status i) (in_binding_status i) (in_labels i) (in_beats i)
    (None, None)
    match in_last_action i with
    | Some last => if la_Status last =s commandActionStatusPending then None else Some last
    | None => None
    end i.

Definition ic_with_metadata (m : metadata_columns) (c : instance_columns) : instance_columns := {|
  ic_metadata := m; ic_health := ic_health c; ic_token := ic_token c; ic_sync_token_hash := ic_sync_token_hash c;
  ic_control_revision := ic_control_revision c; ic_binding := ic_binding c |}.
Definition ic_with_health (h : health_columns) (c : instance_columns) : instance_columns := {|
  ic_metadata := ic_metadata c; ic_health := h; ic_token := ic_token c; ic_sync_token_hash := ic_sync_token_hash c;
  ic_control_revision := ic_control_revision c; ic_binding := ic_binding c |}.
Definition ic_with_token (t : token_columns) (c : instance_columns) : instance_columns := {|
  ic_metadata := ic_metadata c; ic_health := ic_health c; ic_token := t; ic_sync_token_hash := ic_sync_token_hash c;
  ic_control_revision := ic_control_revision c; ic_binding := ic_binding c |}.
Definition ic_with_sync_token (hash : string) (c : instance_columns) : instance_columns := {|
  ic_metadata := ic_metadata c; ic_health := ic_health c; ic_token := ic_token c; ic_sync_token_hash := hash;
  ic_control_revision := ic_control_revision c; ic_binding := ic_binding c |}.
Definition ic_with_binding (b : Binding) (c : instance_columns) : instance_columns := {|
  ic_metadata := ic_metadata c; ic_health := ic_health c; ic_token := ic_token c;
  ic_sync_token_hash := ic_sync_token_hash c; ic_control_revision := ic_control_revision c; ic_binding := b |}.
(** [control_revision = control_revision+1]. *)
Definition ic_next_revision (c : instance_columns) : instance_columns := {|
  ic_metadata := ic_metadata c; ic_health := ic_health c; ic_token := ic_token c;
  ic_sync_token_hash := ic_sync_token_hash c; ic_control_revision := ic_control_revision c + 1;
  ic_binding := ic_binding c |}.

Definition with_health_status (status : string) (c : instance_columns) : instance_columns :=
  ic_with_health {| he_status := status; he_incident_count := he_incident_count (ic_health c);
                    he_issue_summary := he_issue_summary (ic_health c) |} c.

(** [pending_binding_... = null, pending_binding_attempt_count = 0]. *)
Definition clearPendingBinding (b : Binding) : Binding := {|
  bn_Fingerprint := bn_Fingerprint b; bn_EpochStartedAt := bn_EpochStartedAt b; bn_PendingFingerprint := "";
  bn_PendingFirstSeenAt := None; bn_PendingLastSeenAt := None; bn_PendingAttemptCount := 0 |}.

Definition unbound_binding : Binding := {|
  bn_Fingerprint := ""; bn_EpochStartedAt := None; bn_PendingFingerprint := "";
  bn_PendingFirstSeenAt := None; bn_PendingLastSeenAt := None; bn_PendingAttemptCount := 0 |}.

(** * Reading *)

(** [monitoringinstances.Record]: the row with what reading it adds. *)
Record InstanceRecord := {
  mr_MonitoringInstanceID : string;
  mr_row : full_row;
  mr_VPSLifecycleStatus : string;
  mr_LastAction : option LastAction;
  mr_CurrentHealthStatus : string;
}.

Definition lastActionFromRawAt (raw : option LastAction) (now : Z) : option LastAction :=
  match raw with
  | None => None
  | Some action =>
      Some match la_OutputExpiresAt action with
           | Some expires =>
               if Time_Before now expires then action
               else {| la_ActionID := la_ActionID action; la_CommandID := la_CommandID action;
                       la_Status := la_Status action; la_Sensitivity := la_Sensitivity action;
                       la_QueuedAt := la_QueuedAt action; la_Stdout := ""; la_Stderr := "";
                       la_ExitCode := la_ExitCode action; la_CompletedAt := la_CompletedAt action;
                       la_OutputExpiresAt := la_OutputExpiresAt action; la_OutputExpired := true |}
           | None => action
           end
  end.

Definition projectMonitoringHealth (vpsLifecycle : string) (row : full_row) : string :=
  let health := he_status (ic_health row.2) in
  let i := row.1 in
  if vpsLifecycle =s "archived" then "已归档"
  else if in_lifecycle_status i =s LifecycleRetired then "已退役"
  else if in_lifecycle_status i =s LifecyclePendingEnrollment then "未接入"
  else if in_monitoring_status i =s MonitoringPaused then "暂停"
  else if in_monitoring_status i =s MonitoringMaintenance then "维护中"
  else if in_binding_status i <>s BindingBound then "绑定待确认"
  else if negb (is_set (in_last_trusted_online_at i)) || (health =s "unknown") || (health =s "未接入") || (health =s "")
  then "数据不可用"
  else health.

(** A VPS is active or archived; the owner of an instance exists. *)
Definition vps_lifecycle (db : instance_db) (row : full_row) : result string :=
  match sd_vps (nd_sync db) !! in_vps_id row.1 with
  | Some v => Ok (if vp_archived v then "archived" else "active")
  | None => Err (ErrNew "cannot scan NULL into *string")
  end.

Definition scanMonitoringInstance (io : sync_io) (id : string) (row : full_row) (db : instance_db)
    : result InstanceRecord :=
  lifecycle ← vps_lifecycle db row;
  Ok {| mr_MonitoringInstanceID := id; mr_row := row; mr_VPSLifecycleStatus := lifecycle;
        mr_LastAction := lastActionFromRawAt (in_last_action row.1) (si_now io);
        mr_CurrentHealthStatus := projectMonitoringHealth lifecycle row |}.

Definition GetMonitoringInstance (io : sync_io) (id : string) (db : instance_db) : result InstanceRecord :=
  let wrap e := ErrWrap "query monitoring instance %q: %w" [id] [e] in
  _ ← statement (si_faults io) "query instance" 0 wrap;
  match read_row id db with
  | None => Err ErrInstanceNotFound
  | Some row => map_error wrap (scanMonitoringInstance io id row db)
  end.

(** * Shared helpers *)

(** [beginAssetGraphTx] and the body of a transaction up to its commit. *)
Definition begin_graph (io : sync_io) (wrap : error -> error) : result () :=
  _ ← statement (si_faults io) "begin" 0 wrap;
  statement (si_faults io) "lock graph" 0 (fun e => wrap (ErrWrap "lock asset graph: %w" [] [e])).

Definition instance_tx {A} (io : sync_io) (wrap : error -> error) (db : instance_db) (out : result (instance_db * A))
    : instance_db * result A :=
  transaction match si_commit io with Committed => Executed | CommitFailed e applied => ExecFailed e applied end
    wrap db out.

(** The row [select ... for update] locks. *)
Definition lock_row (io : sync_io) (wrap : error -> error) (id : string) (db : instance_db) : result InstanceRecord :=
  _ ← statement (si_faults io) "lock instance" 0 wrap;
  match read_row id db with
  | None => Err ErrInstanceNotFound
  | Some row => map_error wrap (scanMonitoringInstance io id row db)
  end.

Definition mapMonitoringInstanceArchiveStateMiss (io : sync_io) (id : string) (fallback : error) (db : instance_db)
    : error :=
  match statement (si_faults io) "archive state" 0
          (fun e => ErrWrap "check monitoring instance %q archive state: %w" [id] [e]) with
  | Err e => e
  | Ok _ =>
      match read_row id db with
      | None => ErrInstanceNotFound
      | Some row =>
          if in_archived row.1 then ErrArchivedMonitoringInstance
          else match statement (si_faults io) "lifecycle status" 0
                       (fun e => ErrWrap "check monitoring instance %q lifecycle status: %w" [id] [e]) with
               | Err e => e
               | Ok _ => if in_lifecycle_status row.1 =s LifecycleRetired then ErrRetiredMonitoringInstance else fallback
               end
      end
  end.

(** Not archived and not retired: what most updates ask for. *)
Definition row_open (row : full_row) : bool :=
  negb (in_archived row.1) && (in_lifecycle_status row.1 <>s LifecycleRetired).

(** ** Events *)

(** A payload of an event that is not about an incident. *)
Definition management_payload (eventType rule prior resulting binding lifecycle monitoring reason : string) (eventAt : Z)
    : task4MonitoringEventPayload := {|
  tp_ClosureKind := ""; tp_ClosureReason := ""; tp_NaturalRecovery := None;
  tp_ObjectType := ObjectTypeMonitoringInstance; tp_EventType := eventType; tp_Severity := "";
  tp_EventAt := eventAt; tp_RecordedAt := eventAt; tp_IsBackfilled := false;
  tp_Provenance := MonitoringEventProvenanceWeb; tp_ProducerVersion := MonitoringEventProducerVersion;
  tp_RuleVersion := rule; tp_PriorState := prior; tp_ResultingState := resulting; tp_Reason := reason;
  tp_CorrectionOfEventID := ""; tp_IncidentID := ""; tp_IncidentClass := ""; tp_BindingStatus := binding;
  tp_LifecycleStatus := lifecycle; tp_MonitoringStatus := monitoring; tp_RunStatus := "";
  tp_RetirementMonitoringStatusReconciled := false; tp_RetirementBindingStatusReconciled := false;
  tp_RetirementEnrollmentCredentialsRevoked := false; tp_RetirementSyncCredentialRevoked := false;
  tp_RetirementPendingBindingCleared := false; tp_RetirementPendingActionCleared := false |}.

(** An event is dated by updated_at, the clock of the update just made. *)
Definition event_time (io : sync_io) : Z := canonicalTask4MonitoringEventTimestamp (timestamptz (si_db_clock io)).

Definition insert_event (io : sync_io) (kind : string) (payload : task4MonitoringEventPayload) (id summary : string)
    (db : instance_db) : result instance_db :=
  match si_id io "evt" 0 with
  | Err e => Err (ErrWrap "generate %s event id: %w" [kind] [e])
  | Ok _ =>
      match marshalTask4MonitoringEventPayload payload with
      | Err e => Err (ErrWrap "build %s event payload: %w" [kind] [e])
      | Ok payload =>
          _ ← statement (si_faults io) "insert event" 0
                (fun e => ErrWrap "insert %s event for monitoring instance %q: %w" [kind; id] [e]);
          Ok (nd_with_incidents (nd_active db)
                (nd_events db ++ [{| se_payload := payload; se_object_id := id; se_summary := summary |}]) db)
      end
  end.

Definition insertMonitoringInstanceBindingEvent (io : sync_io) (id eventType summary prior status : string)
    (db : instance_db) : result instance_db :=
  insert_event io "binding"
    (management_payload eventType MonitoringEventBindingRuleVersion prior status status "" "" "" (event_time io))
    id summary db.

Definition insertMonitoringInstanceLifecycleEvent (io : sync_io) (id eventType summary reason prior status : string)
    (db : instance_db) : result instance_db :=
  insert_event io "lifecycle"
    (management_payload eventType MonitoringEventLifecycleRuleVersion prior status "" status ""
       (strings_TrimSpace reason) (event_time io)) id summary db.

Definition insertMonitoringInstanceRuntimeEvent (io : sync_io) (id eventType summary prior status : string)
    (db : instance_db) : result instance_db :=
  insert_event io "runtime"
    (management_payload eventType MonitoringEventRuntimeRuleVersion prior status "" "" status "" (event_time io))
    id summary db.

(** ** Sessions *)

(** [set capability='evidence_only', ended_at=coalesce(ended_at,greatest(started_at,clock_timestamp()))]. *)
Definition demoted_session (s : session_row) : session_row := {|
  se_monitoring_instance_id := se_monitoring_instance_id s; se_fingerprint_hash := se_fingerprint_hash s;
  se_token_hash := se_token_hash s; se_capability := CapabilityEvidenceOnly;
  se_last_trusted_online_at := se_last_trusted_online_at s; se_ever_connected := se_ever_connected s |}.

Definition ended (clock : Z) (t : session_times) : session_times := {|
  st_started_at := st_started_at t;
  st_ended_at := Some (default (Z.max (st_started_at t) (timestamptz clock)) (st_ended_at t)) |}.

(** The sessions of an instance that [which] picks. *)
Definition demote_where (which : session_row -> bool) (clock : Z) (db : instance_db) : instance_db :=
  let picked k := match sessions_of db !! k with Some s => which s | None => false end in
  nd_with_times (map_imap (fun k t => Some (if picked k then ended clock t else t)) (nd_session_times db))
    (nd_with_sync (set_sessions ((fun s => if which s then demoted_session s else s) <$> sessions_of db) (nd_sync db)) db).

Definition of_instance (id : string) (s : session_row) : bool := se_monitoring_instance_id s =s id.
Definition full_of_instance (id : string) (s : session_row) : bool :=
  of_instance id s && (se_capability s =s CapabilityFull).

(** The insert of a session with the primary key, the unique token hash, the owner and the index that
    lets an instance have one full session. *)
Definition insert_session (sessionID id tokenHash fingerprint : string) (clock : Z) (db : instance_db)
    : result instance_db :=
  _ ← reject (is_set (sessions_of db !! sessionID)) (PgConstraint "23505" "monitoring_agent_sessions_pkey");
  let rows := (map_to_list (sessions_of db)).*2 in
  _ ← reject (existsb (fun s => se_token_hash s =s tokenHash) rows) (PgConstraint "23505" "monitoring_agent_sessions_token_hash_key");
  _ ← reject (existsb (full_of_instance id) rows) (PgConstraint "23505" "idx_monitoring_agent_sessions_full");
  _ ← reject (negb (is_set (instances_of db !! id))) (PgError "23503");
  let s := {| se_monitoring_instance_id := id; se_fingerprint_hash := fingerprint; se_token_hash := tokenHash;
              se_capability := CapabilityFull; se_last_trusted_online_at := None; se_ever_connected := false |} in
  Ok (nd_with_times (<[sessionID := {| st_started_at := timestamptz clock; st_ended_at := None |}]> (nd_session_times db))
        (nd_with_sync (set_sessions (<[sessionID := s]> (sessions_of db)) (nd_sync db)) db)).

(** ** Command actions *)

Context `{Env : @SyncEnv body}.

(** An audit names a known actor or none, and a rejection a running instance. *)
Definition insert_audit (io : sync_io) (e : commandActionAuditEvent) (db : instance_db) : result instance_db :=
  let actor := (ca_ActorUserID e =s "") || bool_decide (ca_ActorUserID e ∈ nd_users db) in
  let state :=
    match read_row (ca_MonitoringInstanceID e) db with
    | Some row => row_open row && (in_lifecycle_status row.1 =s LifecycleInUse)
                  && (match vps_lifecycle db row with Ok v => v =s "active" | Err _ => false end)
                  && (in_binding_status row.1 =s BindingBound) && (in_monitoring_status row.1 <>s MonitoringPaused)
    | None => false
    end in
  s ← insertCommandActionAudit io 0 e (nd_sync db);
  _ ← reject (negb (actor && ((ca_EventType e <>s "rejected") || state)))
        (ErrWrap "command action audit must have inserted exactly one row: inserted %d" ["0"] []);
  Ok (nd_with_sync s db).

(** Demotion ends every session of the instance and cancels the action in flight. *)
Definition demoteMonitoringSessionsTx (io : sync_io) (current : InstanceRecord) (db : instance_db)
    : result instance_db :=
  let id := mr_MonitoringInstanceID current in
  let i := (mr_row current).1 in
  _ ← statement (si_faults io) "demote sessions" 0 (fun e => ErrWrap "demote monitoring sessions: %w" [] [e]);
  let db := demote_where (of_instance id) (si_db_clock io) db in
  let actionID := default "" (in_pending_action_id i) in
  let commandID := default "" (in_pending_action_command_id i) in
  let '(actionID, commandID) :=
    match mr_LastAction current with
    | Some last => if (actionID =s "") && (la_Status last =s commandActionStatusPending)
                   then (la_ActionID last, la_CommandID last) else (actionID, commandID)
    | None => (actionID, commandID)
    end in
  if actionID =s "" then Ok db
  else
    let known := sensitivityForKnownCommand commandID in
    insert_audit io {|
      ca_ActionID := actionID; ca_MonitoringInstanceID := id; ca_CommandID := commandID;
      ca_Sensitivity := if known =s "" then "standard" else known; ca_EventType := "cancelled";
      ca_ActorUserID := ""; ca_Source := CommandActionSourceWeb; ca_ExitCode := None; ca_OccurredAt := Time_zero |} db.
End Instances.
Arguments instance_db : clear implicits.
