(* ===== verification/Enrollment.v ===== *)
(** The operations that bind machines to monitoring instances
    (src/internal/center/store/monitoring_instances.go and src/internal/center/enrollment): enrollment tokens,
    enrollment, and the confirmation, rejection and reset of a binding.  Each operation is one transaction behind the lock of the asset graph. *)
From stdpp Require Import base list strings gmap.
From Stdlib Require Import ZArith Lia.
From S2P Require Import Prelude GoRuntime IncidentTypes EventPayload IncidentStore Postgres Notification ObservationStore SyncProtocol SyncStore Subscriptions Instances.

Local Open Scope Z_scope.

(** * Tokens *)

(** HMAC-SHA-256 under the key derived for enrollment tokens, in hexadecimal. *)
Class EnrollEnv := { hmac_enrollment_token : string -> string }.

Definition hex_byte (a : Ascii.ascii) : bool :=
  let n := Ascii.nat_of_ascii a in
  ((48 <=? n) && (n <=? 57) || (97 <=? n) && (n <=? 102) || (65 <=? n) && (n <=? 70))%nat.

Definition isLegacySHA256TokenHash (value : string) : bool :=
  let hash := strings_TrimSpace value in
  (String.length hash =? 64)%nat && forallb hex_byte (String.list_ascii_of_string hash).

Section Enrollment.
Context {body : Type} `{Env : @SyncEnv body} `{Tokens : EnrollEnv}.
Implicit Types (db : instance_db body) (io : sync_io).

Definition hashEnrollmentToken (token : string) : string := (agentTokenHashPrefix +:+ hmac_enrollment_token token)%string.
Definition hashSyncToken (token : string) : string := (agentTokenHashPrefix +:+ hmac_sync_token token)%string.

Record EnrollmentTokenIssue := { ti_Token : string; ti_IssuedAt : Z; ti_ExpiresAt : Z }.

(** The body of the transaction, for a token that was generated. *)
Definition issue_tx io (id token : string) db : result (instance_db body * EnrollmentTokenIssue) :=
  _ ← begin_graph io (fun e => ErrWrap "begin issue enrollment token transaction for %q: %w" [id] [e]);
  _ ← statement (si_faults io) "issue token" 0
        (fun e => ErrWrap "issue enrollment token for monitoring instance %q: %w" [id] [e]);
  match read_row id db with
  | Some row =>
      if row_open row then
        let issuedAt := timestamptz (si_db_clock io) in
        Ok (write_row id (row.1, ic_with_token {|
              tk_hash := Some (hashEnrollmentToken token); tk_issued_at := Some issuedAt; tk_consumed_at := None |} row.2) db,
            {| ti_Token := token; ti_IssuedAt := issuedAt; ti_ExpiresAt := Time_Add issuedAt EnrollmentTokenTTL |})
      else Err (mapMonitoringInstanceArchiveStateMiss io id ErrInstanceNotFound db)
  | None => Err (mapMonitoringInstanceArchiveStateMiss io id ErrInstanceNotFound db)
  end.

Definition IssueMonitoringInstanceEnrollmentToken io (id : string) db : instance_db body * result EnrollmentTokenIssue :=
  match si_id io "enroll" 0 with
  | Err e => (db, Err (ErrWrap "generate enrollment token: %w" [] [e]))
  | Ok token =>
      instance_tx io (fun e => ErrWrap "commit issue enrollment token for monitoring instance %q: %w" [id] [e]) db
        (issue_tx io id token db)
  end.

(** * Enrollment *)

Definition resolveEnrollmentBindingTransition (status : string) (record : Binding) (newFingerprint : string) (now : Z)
    : string * Binding :=
  let pending := {|
    bn_Fingerprint := bn_Fingerprint record; bn_EpochStartedAt := bn_EpochStartedAt record;
    bn_PendingFingerprint := newFingerprint; bn_PendingFirstSeenAt := Some now; bn_PendingLastSeenAt := Some now;
    bn_PendingAttemptCount := 1 |} in
  if status =s BindingUnbound then
    (BindingBound, clearPendingBinding {|
       bn_Fingerprint := newFingerprint; bn_EpochStartedAt := Some now;
       bn_PendingFingerprint := bn_PendingFingerprint record; bn_PendingFirstSeenAt := bn_PendingFirstSeenAt record;
       bn_PendingLastSeenAt := bn_PendingLastSeenAt record; bn_PendingAttemptCount := bn_PendingAttemptCount record |})
  else if status =s BindingBound then
    if bn_Fingerprint record =s newFingerprint then (BindingBound, clearPendingBinding record)
    else (BindingPendingConfirmation, pending)
  else if bn_PendingFingerprint record =s newFingerprint then
    let attempts := bn_PendingAttemptCount record + 1 in
    (status, {|
       bn_Fingerprint := bn_Fingerprint record; bn_EpochStartedAt := bn_EpochStartedAt record;
       bn_PendingFingerprint := newFingerprint;
       bn_PendingFirstSeenAt := match bn_PendingFirstSeenAt record with None => Some now | seen => seen end;
       bn_PendingLastSeenAt := Some now;
       bn_PendingAttemptCount := if attempts =? 0 then 1 else attempts |})
  else if bn_Fingerprint record =s newFingerprint then (status, record)
  else (BindingPendingConfirmation, pending).

(** The row an enrollment token opens: the hash is stored, not consumed and at most half an hour old. *)
Definition enrollable io (token : string) (row : full_row) : bool :=
  match tk_hash (ic_token row.2), tk_issued_at (ic_token row.2) with
  | Some hash, Some issued =>
      ((hash =s hashEnrollmentToken token) || (hash =s hashOpaqueToken token)) && row_open row
      && negb (is_set (tk_consumed_at (ic_token row.2))) && (si_db_clock io - 30 * Minute <=? issued)
  | _, _ => false
  end.

Definition find_enrollable io (token : string) db : option (string * full_row) :=
  head (omap (fun id => row ← read_row id db; if enrollable io token row then Some (id, row) else None)
          (map_to_list (nd_columns db)).*1).

(** What an enrollment leaves: the row, the token of the agent and its session when the machine is bound. *)
Record enrolled := { en_instance : string; en_record : InstanceRecord; en_token : string; en_session : string }.

(** The identifiers of a new session: empty unless the machine is bound. *)
Definition new_session io (status : string) : result (string * string) :=
  if status =s BindingBound then
    match si_id io "mas" 0 with
    | Err e => Err (ErrWrap "generate session id: %w" [] [e])
    | Ok sessionID =>
        match si_id io "sync" 0 with
        | Err e => Err (ErrWrap "generate sync token: %w" [] [e])
        | Ok secret => Ok (sessionID, sessionID +:+ "." +:+ secret)%string
        end
    end
  else Ok ("", "").

(** The update of the row; times are stored with microseconds, the counter in 32 bits. *)
Definition enrolled_row io (status : string) (next : Binding) (token stored syncToken : string) (row : full_row)
    : result full_row :=
  attempts ← int4 (bn_PendingAttemptCount next);
  let c := row.2 in
  let health := if status <>s BindingBound then "数据不可用" else he_status (ic_health c) in
  let hash := if isLegacySHA256TokenHash stored then hashEnrollmentToken token else stored in
  Ok (with_binding_status status row.1,
      with_health_status health
        (ic_with_binding {|
           bn_Fingerprint := bn_Fingerprint next; bn_EpochStartedAt := timestamptz <$> bn_EpochStartedAt next;
           bn_PendingFingerprint := bn_PendingFingerprint next;
           bn_PendingFirstSeenAt := timestamptz <$> bn_PendingFirstSeenAt next;
           bn_PendingLastSeenAt := timestamptz <$> bn_PendingLastSeenAt next; bn_PendingAttemptCount := attempts |}
        (ic_with_sync_token (if syncToken =s "" then ic_sync_token_hash c else hashSyncToken syncToken)
        (ic_with_token {| tk_hash := Some hash; tk_issued_at := tk_issued_at (ic_token c);
                          tk_consumed_at := Some (timestamptz (si_db_clock io)) |} c)))).

Definition enroll_tx io (token fingerprint : string) db : result (instance_db body * enrolled) :=
  let f := si_faults io in
  _ ← statement f "begin" 0 (fun e => ErrWrap "begin enrollment transaction: %w" [] [e]);
  _ ← statement f "lock graph" 0
        (fun e => ErrWrap "lock asset graph for enrollment: %w" [] [ErrWrap "lock asset graph for sync: %w" [] [e]]);
  _ ← statement f "find token" 0
        (fun e => ErrWrap "query monitoring instance by enrollment token for update: %w" [] [e]);
  match find_enrollable io token db with
  | None => Err ErrInstanceNotFound
  | Some (id, row) =>
      let '(status, next) :=
        resolveEnrollmentBindingTransition (in_binding_status row.1) (ic_binding row.2) fingerprint (si_now io) in
      session ← new_session io status;
      let '(sessionID, syncToken) := session in
      let wrap e := ErrWrap "update enrollment binding state for monitoring instance %q: %w" [id] [e] in
      _ ← statement f "update binding" 0 wrap;
      row' ← map_error wrap (enrolled_row io status next token (default "" (tk_hash (ic_token row.2))) syncToken row);
      let db := write_row id row' db in
      record ← map_error wrap (scanMonitoringInstance io id row' db);
      let out := {| en_instance := id; en_record := record; en_token := syncToken; en_session := sessionID |} in
      if sessionID =s "" then Ok (db, out)
      else
        _ ← statement f "demote sessions" 0 (fun e => ErrWrap "demote prior enrollment sessions: %w" [] [e]);
        let db := demote_where (full_of_instance id) (si_db_clock io) db in
        let wrap e := ErrWrap "create enrollment session: %w" [] [e] in
        _ ← statement f "insert session" 0 wrap;
        db ← map_error wrap (insert_session sessionID id (hashSyncToken syncToken) fingerprint (si_db_clock io) db);
        Ok (db, out)
  end.

Definition ApplyEnrollment io (token fingerprint : string) db : instance_db body * result enrolled :=
  let out := enroll_tx io token fingerprint db in
  let id := match out with Ok (_, o) => en_instance o | Err _ => "" end in
  instance_tx io (fun e => ErrWrap "commit enrollment transaction for monitoring instance %q: %w" [id] [e]) db out.

(** * The service *)

Definition InvalidEnrollmentTokenName : string := "invalid enrollment token".
Definition ErrInvalidEnrollmentToken : error := ErrSentinel InvalidEnrollmentTokenName.

Record EnrollResult := {
  rs_SessionID : string;
  rs_Capability : string;
  rs_MonitoringInstanceID : string;
  rs_BindingStatus : string;
  rs_SyncToken : string;
}.

Definition EnrollMonitoringInstance io (token fingerprint : string) db : instance_db body * result EnrollResult :=
  let '(db', r) := ApplyEnrollment io token fingerprint db in
  (db', match r with
        | Err e => Err (if errors_Is InstanceNotFoundName e then ErrInvalidEnrollmentToken else e)
        | Ok out => Ok {|
            rs_SessionID := before_dot (en_token out);
            rs_Capability := if en_token out =s "" then "" else CapabilityFull;
            rs_MonitoringInstanceID := mr_MonitoringInstanceID (en_record out);
            rs_BindingStatus := in_binding_status (mr_row (en_record out)).1; rs_SyncToken := en_token out |}
        end).

(** * Decisions of the operator *)

(** The condition of the two updates that settle a pending fingerprint. *)
Definition awaits_confirmation (row : full_row) : bool :=
  (in_binding_status row.1 =s BindingPendingConfirmation) && (bn_PendingFingerprint (ic_binding row.2) <>s "")
  && row_open row.

(** The error when no row meets it. *)
Definition settle_miss io (failed required id : string) db : error :=
  let miss := mapMonitoringInstanceArchiveStateMiss io id ErrInvalidBindingTransition db in
  if errors_Is InstanceNotFoundName miss then ErrWrap "%w: monitoring instance %q" [id] [ErrInstanceNotFound]
  else if errors_Is ArchivedInstanceName miss then ErrArchivedMonitoringInstance
  else if negb (errors_Is InvalidBindingTransitionName miss) then ErrWrap failed [id] [miss]
  else ErrWrap required [id] [ErrInvalidBindingTransition].

Definition settle_row io (failed required id : string) db : result full_row :=
  _ ← statement (si_faults io) "settle binding" 0 (fun e => ErrWrap failed [id] [e]);
  match read_row id db with
  | Some row => if awaits_confirmation row then Ok row else Err (settle_miss io failed required id db)
  | None => Err (settle_miss io failed required id db)
  end.

Definition confirm_tx io (id : string) db : result (instance_db body * InstanceRecord) :=
  _ ← begin_graph io (fun e => ErrWrap "begin confirm monitoring instance rebind transaction for %q: %w" [id] [e]);
  row ← settle_row io "confirm monitoring instance rebind for %q: %w"
          "%w: confirm rebind requires pending fingerprint for monitoring instance %q" id db;
  let b := ic_binding row.2 in
  let row' :=
    (without_beats (with_binding_status BindingBound
       (with_state LifecyclePendingEnrollment (in_monitoring_status row.1) row.1)),
     with_health_status "数据不可用" (ic_with_sync_token "" (ic_with_binding (clearPendingBinding {|
       bn_Fingerprint := bn_PendingFingerprint b; bn_EpochStartedAt := Some (timestamptz (si_db_clock io));
       bn_PendingFingerprint := bn_PendingFingerprint b; bn_PendingFirstSeenAt := bn_PendingFirstSeenAt b;
       bn_PendingLastSeenAt := bn_PendingLastSeenAt b; bn_PendingAttemptCount := bn_PendingAttemptCount b |}) row.2))) in
  let db := write_row id row' db in
  record ← map_error (fun e => ErrWrap "confirm monitoring instance rebind for %q: %w" [id] [e])
             (scanMonitoringInstance io id row' db);
  db ← demoteMonitoringSessionsTx io record db;
  _ ← statement (si_faults io) "clear action" 0 (fun e => e);
  let row' := (without_action row'.1, row'.2) in
  let db := write_row id row' db in
  let record := {|
    mr_MonitoringInstanceID := id; mr_row := row'; mr_VPSLifecycleStatus := mr_VPSLifecycleStatus record;
    mr_LastAction := match mr_LastAction record with
                     | Some last => if la_Status last =s commandActionStatusPending then None else Some last
                     | None => None
                     end;
    mr_CurrentHealthStatus := mr_CurrentHealthStatus record |} in
  db ← insertMonitoringInstanceBindingEvent io id EventMonitoringInstanceBindingRebindConfirmed
         "监控实例已确认新的绑定指纹并等待重新建立稳定观测" BindingPendingConfirmation BindingBound db;
  Ok (db, record).

Definition ConfirmMonitoringInstanceRebind io (id : string) db : instance_db body * result InstanceRecord :=
  instance_tx io (fun e => ErrWrap "commit confirm monitoring instance rebind for %q: %w" [id] [e]) db (confirm_tx io id db).

Definition reject_tx io (id : string) db : result (instance_db body * InstanceRecord) :=
  _ ← begin_graph io (fun e => ErrWrap "begin reject pending fingerprint transaction for %q: %w" [id] [e]);
  row ← settle_row io "reject pending fingerprint for monitoring instance %q: %w"
          "%w: reject pending fingerprint requires pending fingerprint for monitoring instance %q" id db;
  let row' := (with_binding_status BindingBound row.1, ic_with_binding (clearPendingBinding (ic_binding row.2)) row.2) in
  let db := write_row id row' db in
  record ← map_error (fun e => ErrWrap "reject pending fingerprint for monitoring instance %q: %w" [id] [e])
             (scanMonitoringInstance io id row' db);
  db ← insertMonitoringInstanceBindingEvent io id EventMonitoringInstanceBindingPendingRejected
         "监控实例已拒绝待确认指纹并保留当前绑定" BindingPendingConfirmation BindingBound db;
  Ok (db, record).

Definition RejectPendingFingerprint io (id : string) db : instance_db body * result InstanceRecord :=
  instance_tx io (fun e => ErrWrap "commit reject pending fingerprint for monitoring instance %q: %w" [id] [e]) db
    (reject_tx io id db).

(** Another instance of the same VPS that is not retired. *)
Definition competing (vpsID id : string) db : bool :=
  existsb (fun r => (in_vps_id r.2 =s vpsID) && (r.1 <>s id) && (in_lifecycle_status r.2 <>s LifecycleRetired))
    (map_to_list (instances_of db)).

Definition reset_tx io (id : string) db : result (instance_db body * InstanceRecord) :=
  _ ← begin_graph io (fun e => ErrWrap "begin reset monitoring instance binding transaction for %q: %w" [id] [e]);
  current ← lock_row io (fun e => e) id db;
  let row := mr_row current in
  _ ← reject (mr_VPSLifecycleStatus current <>s "active") ErrArchivedMonitoringInstance;
  _ ← statement (si_faults io) "competing instances" 0 (fun e => e);
  _ ← reject (competing (in_vps_id row.1) id db) ErrManagementActionBlocked;
  db ← demoteMonitoringSessionsTx io current db;
  let wrap e := ErrWrap "reset monitoring instance binding for %q: %w" [id] [e] in
  _ ← statement (si_faults io) "reset binding" 0 wrap;
  _ ← reject (in_archived row.1) (mapMonitoringInstanceArchiveStateMiss io id ErrInvalidBindingTransition db);
  let row' :=
    (without_action (without_beats (with_binding_status BindingUnbound
       (with_state LifecyclePendingEnrollment MonitoringEnabled row.1))),
     with_health_status "未接入" (ic_next_revision (ic_with_sync_token "" (ic_with_binding unbound_binding row.2)))) in
  let db := write_row id row' db in
  record ← map_error wrap (scanMonitoringInstance io id row' db);
  _ ← statement (si_faults io) "relink" 0 (fun e => e);
  let db := nd_with_links ((fun l => if lk_monitoring_instance_id l =s id then with_unlinked None l else l)
                             <$> nd_links db) db in
  db ← insertMonitoringInstanceBindingEvent io id EventMonitoringInstanceBindingReset
         "监控实例已重置绑定并等待重新接入" (in_binding_status row.1) BindingUnbound db;
  Ok (db, record).

Definition ResetMonitoringInstanceBinding io (id : string) db : instance_db body * result InstanceRecord :=
  instance_tx io (fun e => ErrWrap "commit reset monitoring instance binding for %q: %w" [id] [e]) db (reset_tx io id db).
End Enrollment.
