(* ===== verification/InstanceControl.v ===== *)
(** The other operations on monitoring instances (src/internal/center/store/monitoring_instances.go): creation
    under a VPS, retirement, runtime control, metadata and the queueing of command actions. *)
From stdpp Require Import base list strings gmap.
From Stdlib Require Import ZArith Lia.
From S2P Require Import Prelude GoRuntime IncidentTypes EventPayload IncidentStore Postgres Notification ObservationStore SyncProtocol SyncStore Subscriptions Instances.

Local Open Scope Z_scope.

Definition ErrVPSMonitoringInstanceLinkNotFound : error := ErrSentinel "vps monitoring instance link not found".
Definition ErrVPSMonitoringInstanceLinkConflict : error := ErrSentinel "vps monitoring instance link conflict".
Definition ErrVPSActiveMonitoringInstanceExists : error := ErrSentinel "vps active monitoring instance exists".
Definition ErrInvalidVPSMonitoringInstanceLinkInput : error := ErrSentinel "invalid vps monitoring instance link input".

(** [monitoringinstances.CreateInput]. *)
Record InstanceCreateInput := {
  nc_DisplayName : string;
  nc_Group : string;
  nc_Region : string;
  nc_City : string;
  nc_Provider : string;
  nc_LifecycleStatus : string;
  nc_Labels : list string;
  nc_Note : string;
}.

Record UpdateMetadataInput := {
  um_Group : option string;
  um_Labels : list string;
  um_Note : string;
  um_ExpectedMetadataUpdatedAt : option Z;
}.

Record QueueCommandActionInput := {
  qc_ActionID : string;
  qc_CommandID : string;
  qc_Sensitivity : string;
  qc_ActorUserID : string;
  qc_Source : string;
  qc_QueuedAt : Z;
}.

Section Control.
Context {body : Type} `{Env : @SyncEnv body}.
Implicit Types (db : instance_db body) (io : sync_io).

(** * Creation *)

Definition current_of_vps (vpsID : string) db : bool :=
  existsb (fun i => (in_vps_id i =s vpsID) && (in_lifecycle_status i <>s LifecycleRetired))
    (map_to_list (instances_of db)).*2.

(** The new row: enabled, unbound and not connected. *)
Definition new_instance (vpsID : string) (input : InstanceCreateInput) (clock : Z) : full_row :=
  ({| in_display_name := nc_DisplayName input; in_binding_status := BindingUnbound;
      in_lifecycle_status := nc_LifecycleStatus input; in_monitoring_status := MonitoringEnabled;
      in_vps_id := vpsID; in_archived := false; in_labels := nc_Labels input; in_last_heartbeat_at := None;
      in_last_sync_at := None; in_last_trusted_online_at := None; in_ever_connected := false;
      in_pending_action_id := None; in_pending_action_command_id := None; in_last_action := None |},
   {| ic_metadata := {| md_group := nc_Group input; md_region := nc_Region input; md_city := nc_City input;
                        md_provider := nc_Provider input; md_note := nc_Note input; md_updated_at := timestamptz clock |};
      ic_health := {| he_status := "未接入"; he_incident_count := 0; he_issue_summary := "" |};
      ic_token := {| tk_hash := None; tk_issued_at := None; tk_consumed_at := None |};
      ic_sync_token_hash := ""; ic_control_revision := 0; ic_binding := unbound_binding |}).

Definition insertLinkedMonitoringInstanceRows io (vpsID : string) (input : InstanceCreateInput) (linkNote : string) db
    : result (instance_db body * (InstanceRecord * (string * link_row))) :=
  match si_id io "mi" 0 with
  | Err e => Err (ErrWrap "generate monitoring instance id: %w" [] [e])
  | Ok id =>
      match si_id io "vnl" 0 with
      | Err e => Err (ErrWrap "generate vps monitoring instance link id: %w" [] [e])
      | Ok linkID =>
          let wrap e := ErrWrap "create monitoring instance for vps %q: %w" [vpsID] [e] in
          _ ← statement (si_faults io) "insert instance" 0 wrap;
          _ ← reject (is_set (read_row id db)) (wrap (PgConstraint "23505" "monitoring_instances_pkey"));
          _ ← reject (current_of_vps vpsID db && (nc_LifecycleStatus input <>s LifecycleRetired))
                (wrap (PgConstraint "23505" "idx_monitoring_instances_current_vps"));
          _ ← reject (negb (is_set (sd_vps (nd_sync db) !! vpsID))) (wrap (PgError "23503"));
          let row := new_instance vpsID input (si_db_clock io) in
          let db := write_row id row db in
          record ← map_error wrap (scanMonitoringInstance io id row db);
          _ ← statement (si_faults io) "insert link" 0
                (fun e => ErrWrap "create linked monitoring instance for vps %q: %w" [vpsID] [e]);
          _ ← reject (is_set (nd_links db !! linkID)) ErrVPSMonitoringInstanceLinkConflict;
          let link := {| lk_vps_id := vpsID; lk_monitoring_instance_id := id; lk_linked_at := timestamptz (si_db_clock io);
                         lk_unlinked_at := None; lk_note := strings_TrimSpace linkNote |} in
          Ok (nd_with_links (<[linkID := link]> (nd_links db)) db, (record, (linkID, link)))
      end
  end.

Definition create_tx io (vpsID : string) (input : InstanceCreateInput) (linkNote : string) db
    : result (instance_db body * (InstanceRecord * (string * link_row))) :=
  _ ← begin_graph io (fun e => ErrWrap "begin linked monitoring instance transaction for vps %q: %w" [vpsID] [e]);
  _ ← statement (si_faults io) "lock vps" 0
        (fun e => ErrWrap "lock vps %q before linked monitoring instance create: %w" [vpsID] [e]);
  match sd_vps (nd_sync db) !! vpsID with
  | None => Err ErrVPSMonitoringInstanceLinkNotFound
  | Some v =>
      _ ← reject (vp_archived v)
            (ErrWrap "%w: terminal vps %q cannot accept a monitoring instance link" [vpsID] [ErrVPSMonitoringInstanceLinkConflict]);
      _ ← statement (si_faults io) "count links" 0
            (fun e => ErrWrap "count active monitoring instance links for vps %q: %w" [vpsID] [e]);
      _ ← reject (current_of_vps vpsID db) ErrVPSActiveMonitoringInstanceExists;
      _ ← reject (strings_TrimSpace (nc_LifecycleStatus input) <>s LifecyclePendingEnrollment)
            (ErrWrap "%w: a new monitoring instance must await enrollment" [] [ErrVPSMonitoringInstanceLinkConflict]);
      insertLinkedMonitoringInstanceRows io vpsID input linkNote db
  end.

Definition CreateLinkedMonitoringInstance io (vpsID : string) (input : InstanceCreateInput) (linkNote : string) db
    : instance_db body * result (InstanceRecord * (string * link_row)) :=
  if strings_TrimSpace vpsID =s "" then (db, Err ErrInvalidVPSMonitoringInstanceLinkInput)
  else instance_tx io (fun e => ErrWrap "commit linked monitoring instance transaction for vps %q: %w" [vpsID] [e]) db
         (create_tx io vpsID input linkNote db).

(** * Retirement *)

(** [state_change_events] of the incidents a management action closes. *)
Definition closure_event io (id reason : string) (r : IncidentRecord) : StateChangeEventRecord := {|
  ev_ClosureReason := reason; ev_IncidentID := ir_IncidentID r; ev_IncidentClass := ir_IncidentClass r;
  ev_ObjectType := ObjectTypeMonitoringInstance; ev_ObjectID := id; ev_EventType := EventIncidentClosedByManagement;
  ev_Severity := ir_Severity r; ev_Summary := ("管理动作关闭运行异常：" +:+ reason)%string;
  ev_CreatedAt := Time_Truncate (si_now io) Microsecond; ev_IsBackfilled := false;
  ev_Provenance := MonitoringEventProvenanceCenter; ev_ProducerVersion := MonitoringEventProducerVersion;
  ev_RuleVersion := MonitoringEventIncidentRuleVersion;
  ev_PriorState := if ir_Severity r =s SeverityNotice then "notice"
                   else if ir_Severity r =s SeverityAlert then "alert"
                   else if ir_Severity r =s SeverityCritical then "critical" else "";
  ev_ResultingState := "closed_by_management"; ev_CorrectionOfEventID := "" |}.

Definition incident_order (a b : IncidentRecord) : bool := string_less (ir_IncidentID a) (ir_IncidentID b).

Definition closeArchiveIncidents io (id reason : string) db : result (instance_db body) :=
  _ ← statement (si_faults io) "query incidents" 0 (fun e => e);
  let rows := sort_stable incident_order (object_incidents (nd_active db) ObjectTypeMonitoringInstance id) in
  events ← insertStateChangeEvents (fun _ => si_now io) 0 (closure_event io id reason <$> rows) (nd_events db);
  _ ← statement (si_faults io) "delete incidents" 0 (fun e => e);
  let active := filter (fun kv => of_object ObjectTypeMonitoringInstance id kv.2 = false) (nd_active db) in
  _ ← statement (si_faults io) "reset incident summary" 0 (fun e => e);
  let db := nd_with_incidents active events db in
  Ok match read_row id db with
     | Some row => write_row id (row.1, ic_with_health {| he_status := "unknown"; he_incident_count := 0;
                                                         he_issue_summary := "" |} row.2) db
     | None => db
     end.

(** The branch of the code that reconciles an instance retired before is never reached: such an instance
    is returned as it is. *)
Definition retireMonitoringInstanceTx io (id reason : string) db : result (instance_db body * InstanceRecord) :=
  current ← lock_row io (fun e => ErrWrap "load locked monitoring instance for retirement %q: %w" [id] [e]) id db;
  let row := mr_row current in
  _ ← reject (in_archived row.1) ErrArchivedMonitoringInstance;
  if in_lifecycle_status row.1 =s LifecycleRetired then Ok (db, current)
  else
    db ← demoteMonitoringSessionsTx io current db;
    let want := if bn_Fingerprint (ic_binding row.2) =s "" then BindingUnbound else BindingBound in
    let wrap e := ErrWrap "reconcile retired monitoring instance %q: %w" [id] [e] in
    _ ← statement (si_faults io) "retire instance" 0 wrap;
    let row' :=
      (without_action (with_binding_status want (with_state LifecycleRetired MonitoringPaused row.1)),
       ic_next_revision (ic_with_token {| tk_hash := None; tk_issued_at := None; tk_consumed_at := None |}
         (ic_with_binding (clearPendingBinding (ic_binding row.2)) row.2))) in
    let db := write_row id row' db in
    record ← map_error wrap (scanMonitoringInstance io id row' db);
    db ← insertMonitoringInstanceLifecycleEvent io id EventMonitoringInstanceRetired "监控实例已退役并暂停监控" reason
           (in_lifecycle_status row.1) LifecycleRetired db;
    _ ← statement (si_faults io) "unlink" 0 (fun e => e);
    let db := nd_with_links ((fun l => if lk_monitoring_instance_id l =s id
                                       then with_unlinked (Some (default (timestamptz (si_db_clock io)) (lk_unlinked_at l))) l
                                       else l) <$> nd_links db) db in
    db ← closeArchiveIncidents io id reason db;
    Ok (db, {| mr_MonitoringInstanceID := id;
               mr_row := (row'.1, ic_with_health {| he_status := he_status (ic_health row'.2); he_incident_count := 0;
                                                    he_issue_summary := "" |} row'.2);
               mr_VPSLifecycleStatus := mr_VPSLifecycleStatus record; mr_LastAction := mr_LastAction record;
               mr_CurrentHealthStatus := mr_CurrentHealthStatus record |}).

(** A transaction that retires one instance. *)
Definition retire_instance io (id reason : string) db : instance_db body * result InstanceRecord :=
  instance_tx io (fun e => ErrWrap "commit retire monitoring instance %q: %w" [id] [e]) db
    (_ ← begin_graph io (fun e => ErrWrap "begin retire monitoring instance transaction for %q: %w" [id] [e]);
     retireMonitoringInstanceTx io id reason db).

(** * Runtime control *)

Definition control_event (control prior : string) : string * string :=
  if control =s MonitoringMaintenance then (EventMonitoringInstanceMonitoringMaintenanceEntered, "监控实例已进入维护")
  else if control =s MonitoringPaused then (EventMonitoringInstanceMonitoringPaused, "监控实例监控已暂停")
  else if (control =s MonitoringEnabled) && (prior =s MonitoringMaintenance)
  then (EventMonitoringInstanceMonitoringMaintenanceExited, "监控实例已退出维护")
  else (EventMonitoringInstanceMonitoringResumed, "监控实例监控已恢复").

Definition control_tx io (id control : string) db : result (instance_db body * InstanceRecord) :=
  _ ← begin_graph io (fun e => e);
  current ← lock_row io (fun e => e) id db;
  let row := mr_row current in
  _ ← reject (mr_VPSLifecycleStatus current <>s "active") ErrArchivedMonitoringInstance;
  _ ← reject (in_lifecycle_status row.1 =s LifecycleRetired) ErrRetiredMonitoringInstance;
  _ ← reject ((control =s MonitoringMaintenance) && (in_monitoring_status row.1 =s MonitoringPaused))
        ErrInvalidMonitoringInstanceRuntimeTransition;
  _ ← statement (si_faults io) "set control" 0 (fun e => e);
  let row' := (with_state (in_lifecycle_status row.1) control row.1, ic_next_revision row.2) in
  let db := write_row id row' db in
  record ← scanMonitoringInstance io id row' db;
  if in_monitoring_status row.1 =s control then Ok (db, record)
  else
    let '(eventType, summary) := control_event control (in_monitoring_status row.1) in
    db ← insertMonitoringInstanceRuntimeEvent io id eventType summary (in_monitoring_status row.1) control db;
    Ok (db, record).

Definition setMonitoringControl io (id control : string) db : instance_db body * result InstanceRecord :=
  instance_tx io (fun e => e) db (control_tx io id control db).

(** * Metadata *)

Definition metadata_tx io (id : string) (input : UpdateMetadataInput) db : result (instance_db body * InstanceRecord) :=
  let wrap e := ErrWrap "update monitoring instance metadata %q: %w" [id] [e] in
  _ ← begin_graph io (fun e => ErrWrap "begin update monitoring instance metadata transaction for %q: %w" [id] [e]);
  _ ← statement (si_faults io) "update metadata" 0 wrap;
  let miss :=
    match statement (si_faults io) "archive state" 0
            (fun e => ErrWrap "check monitoring instance metadata state %q: %w" [id]
                        [ErrWrap "check monitoring instance %q archive state: %w" [id] [e]]) with
    | Err e => e
    | Ok _ =>
        match read_row id db with
        | None => ErrInstanceNotFound
        | Some row =>
            if in_archived row.1 then ErrArchivedMonitoringInstance
            else if is_set (um_ExpectedMetadataUpdatedAt input) then ErrMonitoringInstanceMetadataConflict
            else ErrInstanceNotFound
        end
    end in
  match read_row id db with
  | None => Err miss
  | Some row =>
      let expected := match um_ExpectedMetadataUpdatedAt input with
                      | Some t => md_updated_at (ic_metadata row.2) =? timestamptz t
                      | None => true
                      end in
      if expected && negb (in_archived row.1) then
        let row' := (with_labels (um_Labels input) row.1,
                     ic_with_metadata {| md_group := default (md_group (ic_metadata row.2)) (um_Group input);
                                         md_region := md_region (ic_metadata row.2); md_city := md_city (ic_metadata row.2);
                                         md_provider := md_provider (ic_metadata row.2); md_note := um_Note input; md_updated_at := timestamptz (si_db_clock io) |} row.2) in
        let db := write_row id row' db in
        record ← map_error wrap (scanMonitoringInstance io id row' db);
        Ok (db, record)
      else Err miss
  end.

Definition UpdateMonitoringInstanceMetadata io (id : string) (input : UpdateMetadataInput) db
    : instance_db body * result InstanceRecord :=
  instance_tx io (fun e => ErrWrap "commit monitoring instance metadata update %q: %w" [id] [e]) db (metadata_tx io id input db).

(** * Command actions *)

Definition trimmed_or (value fallback : string) : string :=
  let value := strings_TrimSpace value in if value =s "" then fallback else value.

(** Connected, not paused and on an active VPS: what may be sent a command. *)
Definition commandable (row : full_row) db : bool :=
  negb (in_archived row.1) && (in_lifecycle_status row.1 =s LifecycleInUse)
  && (in_monitoring_status row.1 <>s MonitoringPaused)
  && match vps_lifecycle db row with Ok v => v =s "active" | Err _ => false end.

Definition queue_tx io (id : string) (input : QueueCommandActionInput) db : result (instance_db body * ()) :=
  let sensitivity := trimmed_or (qc_Sensitivity input) "standard" in
  let source := trimmed_or (qc_Source input) CommandActionSourceWeb in
  let queuedAt := if Time_IsZero (qc_QueuedAt input) then si_now io else qc_QueuedAt input in
  _ ← begin_graph io (fun e => ErrWrap "begin queue command action transaction for monitoring instance %q: %w" [id] [e]);
  _ ← statement (si_faults io) "set pending action" 0
        (fun e => ErrWrap "set pending action for monitoring instance %q: %w" [id] [e]);
  match read_row id db with
  | None => Err (mapMonitoringInstanceArchiveStateMiss io id ErrInstanceNotFound db)
  | Some row =>
      if negb (commandable row db) then Err (mapMonitoringInstanceArchiveStateMiss io id ErrInstanceNotFound db)
      else
        let i := row.1 in
        let row' :=
          (in_set (in_lifecycle_status i) (in_monitoring_status i) (in_binding_status i) (in_labels i) (in_beats i)
             (Some (qc_ActionID input), Some (qc_CommandID input))
             (Some (marshalPendingLastAction (qc_ActionID input) (qc_CommandID input) sensitivity queuedAt)) i, row.2) in
        db ← map_error (fun e => ErrWrap "insert queued command action audit for monitoring instance %q: %w" [id] [e])
               (insert_audit io {|
                  ca_ActionID := qc_ActionID input; ca_MonitoringInstanceID := id; ca_CommandID := qc_CommandID input;
                  ca_Sensitivity := sensitivity; ca_EventType := "queued"; ca_ActorUserID := qc_ActorUserID input;
                  ca_Source := source; ca_ExitCode := None; ca_OccurredAt := queuedAt |} (write_row id row' db));
        Ok (db, tt)
  end.

Definition QueueCommandAction io (id : string) (input : QueueCommandActionInput) db : instance_db body * result () :=
  instance_tx io (fun e => ErrWrap "commit queue command action transaction for monitoring instance %q: %w" [id] [e]) db
    (queue_tx io id input db).

Definition RecordRejectedCommandAction io (id commandID sensitivity actor source : string) (occurredAt : Z) db
    : instance_db body * result () :=
  let f := si_faults io in
  instance_tx io (fun e => ErrWrap "commit rejected command action audit for monitoring instance %q: %w" [id] [e]) db
    (_ ← statement f "begin" 0 (fun e => ErrWrap "begin rejected command action audit for monitoring instance %q: %w" [id] [e]);
     _ ← statement f "lock graph" 0
           (fun e => ErrWrap "lock asset graph for rejected command action audit: %w" []
                       [ErrWrap "lock asset graph for sync: %w" [] [e]]);
     db ← map_error (fun e => ErrWrap "insert rejected command action audit for monitoring instance %q: %w" [id] [e])
            (insert_audit io {|
               ca_ActionID := ""; ca_MonitoringInstanceID := id; ca_CommandID := commandID; ca_Sensitivity := sensitivity;
               ca_EventType := "rejected"; ca_ActorUserID := actor; ca_Source := source; ca_ExitCode := None;
               ca_OccurredAt := occurredAt |} db);
     Ok (db, tt)).
End Control.
