(* ===== verification/EnrollHandler.v ===== *)
(** The endpoint agents enroll at (src/internal/center/http/handlers/agent.go) over the enrollment service. *)
From stdpp Require Import base list strings gmap.
From Stdlib Require Import ZArith Lia.
From S2P Require Import Prelude GoRuntime Postgres AgentApi SyncWire SyncProtocol SyncStore RateLimit AgentRuntime SyncHandler Instances Enrollment.

Local Open Scope Z_scope.

Record EnrollmentRequest := { er_Token : string; er_Fingerprint : string }.

Record EnrollmentResponse := {
  ep_SessionID : string;
  ep_Capability : string;
  ep_MonitoringInstanceID : string;
  ep_Status : string;
  ep_BindingStatus : string;
  ep_SyncToken : string;
}.

Inductive enroll_answer :=
| EnrollAccepted (response : EnrollmentResponse)
| EnrollRefused (status : Z) (code : string) (retryAfter : option string).

Definition isValidEnrollmentRequest (r : EnrollmentRequest) : bool :=
  requiredMax (er_Token r) agentSecretMaxBytes && requiredMax (er_Fingerprint r) agentIdentityMaxBytes.

Section EnrollHandler.
Context {body : Type} `{Env : @SyncEnv body} `{Tokens : EnrollEnv}.

(** A request that was decoded. *)
Definition handle_enroll (io : sync_io) (r : EnrollmentRequest) (db : instance_db body)
    : instance_db body * enroll_answer :=
  if negb (isValidEnrollmentRequest r) then (db, EnrollRefused 400 ErrorCodeInvalidRequest None)
  else
    let '(db', out) := EnrollMonitoringInstance io (er_Token r) (er_Fingerprint r) db in
    (db', match out with
          | Err e => if errors_Is InvalidEnrollmentTokenName e
                     then EnrollRefused 401 ErrorCodeInvalidEnrollmentToken None
                     else EnrollRefused 500 ErrorCodeInternalError None
          | Ok result => EnrollAccepted {|
              ep_SessionID := rs_SessionID result; ep_Capability := rs_Capability result;
              ep_MonitoringInstanceID := rs_MonitoringInstanceID result; ep_Status := "accepted";
              ep_BindingStatus := rs_BindingStatus result; ep_SyncToken := rs_SyncToken result |}
          end).

(** [AgentEnrollWithOptions]; the body is what [decodeJSONLimited] made of it. *)
Definition AgentEnroll (io : sync_io) (now : Z) (method clientIP : string) (r : option EnrollmentRequest)
    (limiter : agentRequestLimiter) (db : instance_db body)
    : agentRequestLimiter * instance_db body * enroll_answer :=
  if method <>s "POST" then (limiter, db, EnrollRefused 405 ErrorCodeMethodNotAllowed None)
  else
    let '(allowed, limiter) := agent_allow clientIP now limiter in
    if negb allowed then (limiter, db, EnrollRefused 429 ErrorCodeInvalidRequest (Some "5"))
    else match r with
         | None => (limiter, db, EnrollRefused 400 ErrorCodeInvalidJSON None)
         | Some r => let '(db', answer) := handle_enroll io r db in (limiter, db', answer)
         end.
End EnrollHandler.
