(* ===== verification/EnrollmentLedger.v ===== *)
(** What the binding of machines promises: a ledger of the decisions taken for one monitoring instance, and what
    follows from it about tokens, fingerprints and the session that may collect. *)
From stdpp Require Import base list strings.
From Stdlib Require Import ZArith Lia.
From S2P Require Import Prelude GoRuntime.

Local Open Scope Z_scope.

(** * The ledger *)

Inductive ledger_event :=
| Issued (hash : string) (at_ : Z)
| Enrolled (token fingerprint session : string) (at_ : Z)
| Confirmed
| Rejected
| WasReset
| WasRetired.

(** The machine an instance is bound to, with a second one that asked to take over. *)
Inductive binding_book := BookUnbound | BookBound (fingerprint : string) | BookPending (fingerprint pending : string).

Inductive token_book := NoToken | LiveToken (hash : string) (at_ : Z) | SpentToken.

Record book := {
  bk_binding : binding_book;
  bk_token : token_book;
  (** The session that may collect, with its fingerprint. *)
  bk_collector : option (string * string);
}.

Definition empty_book : book := {| bk_binding := BookUnbound; bk_token := NoToken; bk_collector := None |}.

Definition bound_to (b : binding_book) : option string :=
  match b with BookUnbound => None | BookBound f | BookPending f _ => Some f end.

(** A machine that enrolls is bound when none is, and otherwise waits unless it is the bound one. *)
Definition enroll_binding (b : binding_book) (fingerprint : string) : binding_book :=
  match b with
  | BookUnbound => BookBound fingerprint
  | BookBound f => if f =s fingerprint then b else BookPending f fingerprint
  | BookPending f _ => if f =s fingerprint then b else BookPending f fingerprint
  end.

Definition is_bound (b : binding_book) : bool := match b with BookBound _ => true | _ => false end.

Section Ledger.
(** Whether a token has the hash that is stored. *)
Variable opens : string -> string -> bool.

Definition book_step (e : ledger_event) (b : book) : option book :=
  match e with
  | Issued hash at_ =>
      Some {| bk_binding := bk_binding b; bk_token := LiveToken hash at_; bk_collector := bk_collector b |}
  | Enrolled token fingerprint session at_ =>
      match bk_token b with
      | LiveToken hash issued =>
          let next := enroll_binding (bk_binding b) fingerprint in
          if opens token hash && (at_ - 30 * Minute <=? issued) && (fingerprint <>s "")
             && (is_bound next || (session =s "")) then
            Some {| bk_binding := next; bk_token := SpentToken;
                    bk_collector := if session =s "" then bk_collector b else Some (session, fingerprint) |}
          else None
      | _ => None
      end
  | Confirmed =>
      match bk_binding b with
      | BookPending _ p => Some {| bk_binding := BookBound p; bk_token := bk_token b; bk_collector := None |}
      | _ => None
      end
  | Rejected =>
      match bk_binding b with
      | BookPending f _ => Some {| bk_binding := BookBound f; bk_token := bk_token b; bk_collector := bk_collector b |}
      | _ => None
      end
  | WasReset => Some {| bk_binding := BookUnbound; bk_token := bk_token b; bk_collector := None |}
  | WasRetired =>
      Some {| bk_binding := match bk_binding b with BookPending f _ => BookBound f | other => other end;
              bk_token := NoToken; bk_collector := None |}
  end.

Definition replay_from (es : list ledger_event) (b : option book) : option book :=
  foldl (fun b e => b ≫= book_step e) b es.

Definition replay_ledger (es : list ledger_event) : option book := replay_from es (Some empty_book).

(** * What follows *)

Lemma replay_none es : replay_from es None = None.
Proof. induction es; [done|]. done. Qed.

Lemma replay_app es es' : replay_ledger (es ++ es') = replay_from es' (replay_ledger es).
Proof. unfold replay_ledger, replay_from. apply foldl_app. Qed.

Lemma replay_snoc es e : replay_ledger (es ++ [e]) = replay_ledger es ≫= book_step e.
Proof. rewrite replay_app. done. Qed.

Lemma replay_snoc_inv es e b : replay_ledger (es ++ [e]) = Some b -> exists b0, replay_ledger es = Some b0 /\ book_step e b0 = Some b.
Proof. rewrite replay_snoc. destruct (replay_ledger es); [|done]. cbn. by eauto. Qed.

(** Induction over the events of a ledger that replays. *)
Lemma replay_ind (P : list ledger_event -> book -> Prop) :
  P [] empty_book ->
  (forall es e b b', replay_ledger es = Some b -> P es b -> book_step e b = Some b' -> P (es ++ [e]) b') ->
  forall es b, replay_ledger es = Some b -> P es b.
Proof.
  intros Hnil Hsnoc es. induction es as [|e es IH] using rev_ind; intros b.
  - by intros [= <-].
  - intros (b0 & Hb & Hs)%replay_snoc_inv. by eapply Hsnoc; eauto.
Qed.

Lemma enroll_bound b fingerprint f :
  bound_to b = Some f -> bound_to (enroll_binding b fingerprint) = Some f.
Proof.
  unfold enroll_binding, bound_to. destruct b; [done|..]; intros [= ->]; destruct (String.eqb_spec f fingerprint); done.
Qed.

Lemma enroll_is_bound b fingerprint :
  is_bound (enroll_binding b fingerprint) = true -> enroll_binding b fingerprint = BookBound fingerprint.
Proof.
  unfold enroll_binding. destruct b as [|f|f p]; [done|..]; destruct (String.eqb_spec f fingerprint) as [->|]; done.
Qed.

(** Take a step of the ledger apart. *)
Ltac book_cases H :=
  match type of H with
  | book_step ?e ?b = Some _ => destruct e; cbn [book_step] in H
  end;
  repeat match type of H with
  | match bk_token ?b with _ => _ end = Some _ => destruct (bk_token b) eqn:?; try discriminate H
  | match bk_binding ?b with _ => _ end = Some _ => destruct (bk_binding b) eqn:?; try discriminate H
  | (if ?c then _ else _) = Some _ => destruct c eqn:?; try discriminate H
  end; injection H as <-; cbn [bk_binding bk_token bk_collector].

(** The session that may collect is of the bound machine, and was opened by an enrollment of it. *)
Lemma collector_bound es b :
  replay_ledger es = Some b -> forall s f, bk_collector b = Some (s, f) ->
  bound_to (bk_binding b) = Some f /\ exists token at_, Enrolled token f s at_ ∈ es.
Proof.
  revert es b. apply (replay_ind (fun es b => forall s f, bk_collector b = Some (s, f) ->
    bound_to (bk_binding b) = Some f /\ exists token at_, Enrolled token f s at_ ∈ es)); [done|].
  intros es e b b' _ IH Hs s f.
  assert (forall s f, bk_collector b = Some (s, f) ->
    bound_to (bk_binding b) = Some f /\ exists token at_, Enrolled token f s at_ ∈ es ++ [e]) as IH'.
  { intros s0 f0 (Hb & token & at_ & Hin)%IH. split; [done|]. exists token, at_. apply elem_of_app. by left. }
  clear IH. book_cases Hs.
  - apply IH'.
  - destruct (String.eqb_spec session "") as [->|Hne].
    + intros (Hb & Hin)%IH'. split; [|done]. by apply enroll_bound.
    + intros [= -> ->]. rewrite orb_false_r in *. breflect.
      match goal with H : is_bound _ = true |- _ => apply enroll_is_bound in H as -> end.
      split; [done|]. exists token, at_. apply elem_of_app. right. by apply list_elem_of_singleton.
  - done.
  - intros H%IH'. done.
  - done.
  - done.
Qed.

(** A fingerprint that is bound was enrolled. *)
Lemma bound_enrolled es b :
  replay_ledger es = Some b -> forall f, (bound_to (bk_binding b) = Some f \/ (exists f0, bk_binding b = BookPending f0 f)) ->
  exists token s at_, Enrolled token f s at_ ∈ es.
Proof.
  revert es b. apply (replay_ind (fun es b => forall f,
    (bound_to (bk_binding b) = Some f \/ (exists f0, bk_binding b = BookPending f0 f)) ->
    exists token s at_, Enrolled token f s at_ ∈ es)); [by intros f [?|[??]]|].
  intros es e b b' _ IH Hs f.
  assert (forall f, bound_to (bk_binding b) = Some f \/ (exists f0, bk_binding b = BookPending f0 f) ->
    exists token s at_, Enrolled token f s at_ ∈ es ++ [e]) as IH'.
  { intros f0 (token & s & at_ & Hin)%IH. exists token, s, at_. apply elem_of_app. by left. }
  clear IH. book_cases Hs.
  - apply IH'.
  - intros Hf. destruct (decide (f = fingerprint)) as [->|Hne].
    + exists token, session, at_. apply elem_of_app. right. by apply list_elem_of_singleton.
    + apply IH'. unfold enroll_binding in Hf. destruct (bk_binding b) as [|f1|f1 p1]; cbn in *.
      * destruct Hf as [[= ?]|[? ?]]; congruence.
      * destruct (f1 =s fingerprint); destruct Hf as [[= ->]|[? [= ? ?]]]; [by left|by left|congruence].
      * destruct (f1 =s fingerprint); destruct Hf as [[= ->]|[? [= ? ?]]]; subst; try congruence; first [by left|by right; eauto].
  - intros [[= ->]|[? ?]]; [|done]. apply IH'. right. by eauto.
  - intros [[= ->]|[? ?]]; [|done]. apply IH'. by left.
  - intros [?|[? ?]]; done.
  - destruct (bk_binding b); cbn in *; intros [[= ?]|[? ?]]; subst; try done; apply IH'; by left.
Qed.

(** What ends the life of a token. *)
Definition settles_token (e : ledger_event) : bool :=
  match e with Issued _ _ | Enrolled _ _ _ _ | WasRetired => true | _ => false end.

Lemma live_token_issued es b hash at_ :
  replay_ledger es = Some b -> bk_token b = LiveToken hash at_ ->
  exists before after, es = before ++ Issued hash at_ :: after /\ Forall (fun e => settles_token e = false) after.
Proof.
  intros Hr. revert hash at_. pattern es, b. revert es b Hr. apply replay_ind; [done|].
  intros es e b b' _ IH Hs hash at_ Hl.
  assert (bk_token b = LiveToken hash at_ -> settles_token e = false ->
    exists before after, es ++ [e] = before ++ Issued hash at_ :: after /\
      Forall (fun e => settles_token e = false) after) as Hkeep.
  { intros (before & after & -> & Ha)%IH He. exists before, (after ++ [e]). rewrite <- app_assoc. split; [done|].
    apply Forall_app. by split; [|constructor]. }
  book_cases Hs; cbn [bk_token] in Hl; try done; try (by apply Hkeep).
  injection Hl as <- <-. exists es, []. by split.
Qed.

(** An enrollment spends the last token issued, within half an hour, and nothing used or replaced it meanwhile. *)
Lemma enrollment_spends es before token fingerprint session at_ after b :
  replay_ledger es = Some b -> es = before ++ Enrolled token fingerprint session at_ :: after ->
  exists earlier hash issued between, before = earlier ++ Issued hash issued :: between /\
    Forall (fun e => settles_token e = false) between /\ opens token hash = true /\ at_ - 30 * Minute <= issued.
Proof.
  intros Hr ->. rewrite (cons_middle _ before after), (app_assoc before) in Hr. rewrite replay_app in Hr.
  destruct (replay_ledger (before ++ _)) as [b1|] eqn:E; [|by rewrite replay_none in Hr].
  apply replay_snoc_inv in E as (b0 & E & Hs). cbn [book_step] in Hs.
  destruct (bk_token b0) as [|hash issued|] eqn:Et; [done| |done].
  destruct (live_token_issued _ _ _ _ E Et) as (earlier & between & -> & Hb).
  exists earlier, hash, issued, between. destruct (_ && _) eqn:Ec; [|done]. breflect. split; [done|]. by split_and!.
Qed.

(** Only the operator moves a binding to another machine. *)
Definition moves_binding (e : ledger_event) : bool := match e with Confirmed | WasReset => true | _ => false end.

Lemma bound_stays es b b' f :
  replay_from es (Some b) = Some b' -> Forall (fun e => moves_binding e = false) es ->
  bound_to (bk_binding b) = Some f -> bound_to (bk_binding b') = Some f.
Proof.
  revert b. induction es as [|e es IH]; intros b Hr Hm Hb; [by injection Hr as <-|].
  change (replay_from es (book_step e b) = Some b') in Hr.
  destruct (book_step e b) as [b1|] eqn:Hs; [|by rewrite replay_none in Hr].
  apply Forall_cons in Hm as [He Hm]. eapply IH; [exact Hr|exact Hm|]. clear IH Hr Hm.
  book_cases Hs; try done.
  - by apply enroll_bound.
  - by destruct (bk_binding b).
Qed.
End Ledger.
