(* ===== verification/EnrollmentRuns.v ===== *)
(** The operations on monitoring instances and the sync of their agents run one after another behind the lock of
    the asset graph, with the ledger of what took effect. *)
From stdpp Require Import base list strings gmap.
From Stdlib Require Import ZArith Lia.
From S2P Require Import Prelude GoRuntime IncidentTypes EventPayload IncidentStore Postgres Notification ObservationStore AgentPlan SyncProtocol SyncStore Subscriptions.
From S2P Require Import Instances Enrollment InstanceControl EnrollHandler EnrollmentLedger.

Local Open Scope Z_scope.

Section Runs.
Context {body : Type} `{Env : @SyncEnv body} `{Tokens : EnrollEnv}.
Implicit Types (db : instance_db body) (io : sync_io).

(** * The system *)

(** The assets, the users, what is probed and what the plan reads. *)
Record outside_rows := {
  ou_vps : gmap string vps_row;
  ou_users : gset string;
  ou_items : gmap string probe_row;
  ou_targets : gmap string target_row;
  ou_settings : option settings_row;
  ou_plan_targets : list plan_target;
  ou_plan_probes : list plan_probe;
}.

Inductive instance_op :=
| OpSync (batch : Batch body)
| OpIssue (id : string)
| OpEnroll (request : EnrollmentRequest)
| OpConfirm (id : string)
| OpReject (id : string)
| OpReset (id : string)
| OpRetire (id reason : string)
| OpControl (id control : string)
| OpMetadata (id : string) (input : UpdateMetadataInput)
| OpQueue (id : string) (input : QueueCommandActionInput)
| OpRejected (id commandID sensitivity actor source : string) (occurredAt : Z)
| OpCreate (vpsID : string) (input : InstanceCreateInput) (linkNote : string)
(** The rows that other parts of the program write. *)
| OpOutside (rows : outside_rows).

Definition set_outside (rows : outside_rows) (s : @sync_db body) : @sync_db body := {|
  sd_sessions := sd_sessions s; sd_instances := sd_instances s; sd_vps := ou_vps rows; sd_replay := sd_replay s;
  sd_receipts := sd_receipts s; sd_heartbeats := sd_heartbeats s;
  sd_observations := {| od_probe_items := ou_items rows; od_targets := ou_targets rows;
    od_host_samples := od_host_samples (sd_observations s);
    od_probe_observations := od_probe_observations (sd_observations s) |};
  sd_reports := sd_reports s; sd_audits := sd_audits s; sd_followups := sd_followups s;
  sd_settings := ou_settings rows; sd_plan_targets := ou_plan_targets rows; sd_plan_probes := ou_plan_probes rows |}.

Definition change_outside (rows : outside_rows) db : instance_db body := {|
  nd_sync := set_outside rows (nd_sync db); nd_columns := nd_columns db; nd_session_times := nd_session_times db;
  nd_links := nd_links db; nd_active := nd_active db; nd_events := nd_events db; nd_users := ou_users rows |}.

Definition perform_instance io (op : instance_op) db : instance_db body :=
  match op with
  | OpSync batch => nd_with_sync (applyBatch io batch (nd_sync db)).2 db
  | OpIssue id => (IssueMonitoringInstanceEnrollmentToken io id db).1
  | OpEnroll request => (handle_enroll io request db).1
  | OpConfirm id => (ConfirmMonitoringInstanceRebind io id db).1
  | OpReject id => (RejectPendingFingerprint io id db).1
  | OpReset id => (ResetMonitoringInstanceBinding io id db).1
  | OpRetire id reason => (retire_instance io id reason db).1
  | OpControl id control => (setMonitoringControl io id control db).1
  | OpMetadata id input => (UpdateMonitoringInstanceMetadata io id input db).1
  | OpQueue id input => (QueueCommandAction io id input db).1
  | OpRejected id command sensitivity actor source at_ =>
      (RecordRejectedCommandAction io id command sensitivity actor source at_ db).1
  | OpCreate vps input note => (CreateLinkedMonitoringInstance io vps input note db).1
  | OpOutside rows => change_outside rows db
  end.

(** * The ledger of a run *)

(** Whether a commit takes effect, its answer lost or not. *)
Definition applied io : bool :=
  match si_commit io with Committed => true | CommitFailed _ applied => applied end.

Definition entry_of {A} io (out : result (instance_db body * A)) (entry : A -> list (string * ledger_event))
    : list (string * ledger_event) :=
  match out with Ok (_, a) => if applied io then entry a else [] | Err _ => [] end.

Definition is_retired (id : string) db : bool :=
  match read_row id db with Some row => in_lifecycle_status row.1 =s LifecycleRetired | None => false end.

Definition ledger_entries io (op : instance_op) db : list (string * ledger_event) :=
  match op with
  | OpIssue id =>
      match si_id io "enroll" 0 with
      | Ok token => entry_of io (issue_tx io id token db)
                      (fun issue => [(id, Issued (hashEnrollmentToken token) (ti_IssuedAt issue))])
      | Err _ => []
      end
  | OpEnroll r =>
      if isValidEnrollmentRequest r
      then entry_of io (enroll_tx io (er_Token r) (er_Fingerprint r) db)
             (fun out => [(en_instance out, Enrolled (er_Token r) (er_Fingerprint r) (en_session out) (si_db_clock io))])
      else []
  | OpConfirm id => entry_of io (confirm_tx io id db) (fun _ => [(id, Confirmed)])
  | OpReject id => entry_of io (reject_tx io id db) (fun _ => [(id, Rejected)])
  | OpReset id => entry_of io (reset_tx io id db) (fun _ => [(id, WasReset)])
  | OpRetire id reason =>
      if is_retired id db then []
      else entry_of io (_ ← begin_graph io (fun e => ErrWrap "begin retire monitoring instance transaction for %q: %w" [id] [e]);
                        retireMonitoringInstanceTx io id reason db) (fun _ => [(id, WasRetired)])
  | _ => []
  end.

Record instance_world := { iw_db : instance_db body; iw_ledger : list (string * ledger_event) }.

Definition step_instances (call : sync_io * instance_op) (w : instance_world) : instance_world := {|
  iw_db := perform_instance call.1 call.2 (iw_db w);
  iw_ledger := iw_ledger w ++ ledger_entries call.1 call.2 (iw_db w) |}.

Definition run_instances (calls : list (sync_io * instance_op)) (w : instance_world) : instance_world :=
  foldl (fun w call => step_instances call w) w calls.

Definition empty_instances : instance_db body := {|
  nd_sync := {| sd_sessions := ∅; sd_instances := ∅; sd_vps := ∅; sd_replay := ∅; sd_receipts := ∅;
    sd_heartbeats := []; sd_observations := {| od_probe_items := ∅; od_targets := ∅; od_host_samples := [];
      od_probe_observations := [] |}; sd_reports := []; sd_audits := []; sd_followups := []; sd_settings := None;
    sd_plan_targets := []; sd_plan_probes := [] |};
  nd_columns := ∅; nd_session_times := ∅; nd_links := ∅; nd_active := ∅; nd_events := []; nd_users := ∅ |}.

Definition start_instances : instance_world := {| iw_db := empty_instances; iw_ledger := [] |}.

Definition events_of (id : string) (ledger : list (string * ledger_event)) : list ledger_event :=
  omap (fun e => if e.1 =s id then Some e.2 else None) ledger.

(** The hash of a stored token is that of the token, by the key or in the legacy form. *)
Definition token_opens (token hash : string) : bool :=
  (hash =s hashEnrollmentToken token) || (hash =s hashOpaqueToken token).

Definition instance_book (id : string) (ledger : list (string * ledger_event)) : option book :=
  replay_ledger token_opens (events_of id ledger).

(** * The tables behind the ledger *)

(** What the ledger speaks about of a row. *)
Definition row_view : Type := string * Binding * token_columns.

Definition view_of (row : full_row) : row_view := (in_binding_status row.1, ic_binding row.2, ic_token row.2).

Definition instance_view (id : string) db : option row_view := view_of <$> read_row id db.

Definition binding_shown (b : binding_book) (status : string) (n : Binding) : Prop :=
  match b with
  | BookUnbound => status = BindingUnbound /\ bn_Fingerprint n = ""
  | BookBound f => status = BindingBound /\ bn_Fingerprint n = f /\ f <> ""
  | BookPending f p => status = BindingPendingConfirmation /\ bn_Fingerprint n = f /\ f <> "" /\
      bn_PendingFingerprint n = p /\ p <> ""
  end.

Definition token_shown (t : token_book) (c : token_columns) : Prop :=
  match t with
  | NoToken => tk_hash c = None
  | LiveToken hash issued => tk_hash c = Some hash /\ tk_issued_at c = Some issued /\ tk_consumed_at c = None
  | SpentToken => is_Some (tk_consumed_at c)
  end.

Definition row_shown (b : book) (v : option row_view) : Prop :=
  match v with
  | Some (status, binding, token) => binding_shown (bk_binding b) status binding /\ token_shown (bk_token b) token
  | None => b = empty_book
  end.
End Runs.
