(* ===== verification/EnrollmentProps.v ===== *)
(** What each operation does to the rows behind the ledger, and the invariant of every state of a run. *)
From stdpp Require Import base list strings gmap.
From Stdlib Require Import ZArith Lia.
From S2P Require Import Prelude GoRuntime IncidentTypes EventPayload IncidentStore Postgres Notification ObservationStore SyncProtocol SyncStore SyncStoreProps Subscriptions.
From S2P Require Import Instances Enrollment InstanceControl SyncHandler EnrollHandler EnrollmentLedger EnrollmentRuns.

Local Open Scope Z_scope.
#[local] Set Warnings "-clear-no-such-hyp".

Section Props.
Context {body : Type} `{Env : @SyncEnv body} `{Tokens : EnrollEnv}.
Implicit Types (db : instance_db body) (io : sync_io).

(** * Frames *)

Definition session_view db : gmap string (string * string * string * string) := session_authority <$> sessions_of db.

(** The two parts of a row of monitoring_instances go together. *)
Definition keys_ok db : Prop := forall id, is_Some (instances_of db !! id) <-> is_Some (nd_columns db !! id).

(** The check constraint of the capability. *)
Definition capabilities_ok db : Prop := forall id s, sessions_of db !! id = Some s ->
  se_capability s = CapabilityFull \/ se_capability s = CapabilityEvidenceOnly.

(** A demotion, as the view shows it. *)
Definition demoted_view (id : string) (a : string * string * string * string) : string * string * string * string :=
  let '(owner, fingerprint, token, capability) := a in
  (owner, fingerprint, token,
   if (owner =s id) && (capability =s CapabilityFull) then CapabilityEvidenceOnly else capability).

(** Nothing the ledger speaks about changes. *)
Record keeps db db' : Prop := {
  kp_views : forall id, instance_view id db' = instance_view id db;
  kp_sessions : session_view db' = session_view db;
  kp_keys : keys_ok db -> keys_ok db';
  kp_replay : sd_replay (nd_sync db') = sd_replay (nd_sync db) /\ sd_receipts (nd_sync db') = sd_receipts (nd_sync db);
}.

#[export] Instance keeps_preorder : PreOrder keeps.
Proof.
  split; [by split|]. intros ??? [A1 A2 A3 [A4 A5]] [B1 B2 B3 [B4 B5]].
  split; [intros; by rewrite B1|congruence|by auto|split; congruence].
Qed.

(** The row of one instance changes to a view, its sessions are demoted or kept. *)
Record moves (id : string) (v : row_view) (demotes : bool) db db' : Prop := {
  mv_row : instance_view id db' = Some v;
  mv_others : forall k, k <> id -> instance_view k db' = instance_view k db;
  mv_sessions : session_view db' = if demotes then demoted_view id <$> session_view db else session_view db;
  mv_keys : keys_ok db -> keys_ok db';
  mv_replay : sd_replay (nd_sync db') = sd_replay (nd_sync db) /\ sd_receipts (nd_sync db') = sd_receipts (nd_sync db);
}.

Lemma moves_keeps id v demotes db db1 db' : moves id v demotes db db1 -> keeps db1 db' -> moves id v demotes db db'.
Proof.
  intros [A1 A2 A3 A4 [A5 A6]] [B1 B2 B3 [B4 B5]].
  split; [by rewrite B1|intros; rewrite B1; auto|congruence|by auto|split; congruence].
Qed.

Lemma keeps_moves id v demotes db db1 db' : keeps db db1 -> moves id v demotes db1 db' -> moves id v demotes db db'.
Proof.
  intros [B1 B2 B3 [B4 B5]] [A1 A2 A3 A4 [A5 A6]].
  split; [done|intros; rewrite <- B1; auto|by rewrite A3, B2|by auto|split; congruence].
Qed.

Lemma moves_same id v db db' : instance_view id db = Some v -> moves id v false db db' -> keeps db db'.
Proof.
  intros Hv [A1 A2 A3 A4 A5]. split; [|done..]. intros k. destruct (decide (k = id)) as [->|]; [congruence|auto].
Qed.

Lemma demoted_view_idem id (m : gmap string (string * string * string * string)) :
  demoted_view id <$> (demoted_view id <$> m) = demoted_view id <$> m.
Proof.
  rewrite <- map_fmap_compose. apply map_fmap_ext. intros k [[[o f] t] c] _. cbn.
  destruct (o =s id) eqn:Eo, (c =s CapabilityFull) eqn:Ec; cbn; rewrite ?Eo, ?Ec; done.
Qed.

Lemma moves_moves id v1 v2 d1 d2 db db1 db' :
  moves id v1 d1 db db1 -> moves id v2 d2 db1 db' -> moves id v2 (d1 || d2) db db'.
Proof.
  intros [A1 A2 A3 A4 [A5 A6]] [B1 B2 B3 B4 [B5 B6]].
  split; [done|intros; rewrite B2 by done; auto| |by auto|split; congruence].
  rewrite B3, A3. destruct d1, d2; cbn; try done. apply demoted_view_idem.
Qed.

Lemma read_row_some id row db :
  read_row id db = Some row <-> instances_of db !! id = Some row.1 /\ nd_columns db !! id = Some row.2.
Proof.
  unfold read_row. destruct row as [i c]. destruct (instances_of db !! id), (nd_columns db !! id); cbn; split; intros H; simplify_eq; try done; by destruct H; simplify_eq.
Qed.

Lemma write_row_moves id row db : moves id (view_of row) false db (write_row id row db).
Proof.
  split; [..|done].
  - unfold instance_view, read_row. cbn. by rewrite !lookup_insert_eq; destruct row.
  - intros k Hk. unfold instance_view, read_row. cbn. by rewrite !lookup_insert_ne by done.
  - done.
  - intros Hkeys k. cbn. destruct (decide (k = id)) as [->|]; [by rewrite !lookup_insert_eq|].
    rewrite !lookup_insert_ne by done. apply Hkeys.
Qed.

Lemma write_row_shows id row v db : view_of row = v -> moves id v false db (write_row id row db).
Proof. intros <-. apply write_row_moves. Qed.

Lemma write_row_keeps id row row' db :
  read_row id db = Some row -> view_of row' = view_of row -> keeps db (write_row id row' db).
Proof.
  intros Hr Hv. eapply moves_same; [|apply write_row_moves]. unfold instance_view. rewrite Hr. cbn. by rewrite Hv.
Qed.

Lemma with_incidents_keeps a e db : keeps db (nd_with_incidents a e db).
Proof. done. Qed.

Lemma with_links_keeps l db : keeps db (nd_with_links l db).
Proof. done. Qed.

Lemma set_audits_keeps v db : keeps db (nd_with_sync (set_audits v (nd_sync db)) db).
Proof. done. Qed.

(** ** The helpers *)

Lemma insert_event_keeps io kind payload id summary db db' :
  insert_event io kind payload id summary db = Ok db' -> keeps db db'.
Proof.
  unfold insert_event. destruct (si_id io "evt" 0); [|done]. destruct (marshalTask4MonitoringEventPayload _); [|done].
  intros H. ok_step H. injection H as <-. apply with_incidents_keeps.
Qed.

Lemma insert_audit_keeps io e db db' : insert_audit io e db = Ok db' -> keeps db db'.
Proof.
  unfold insert_audit. intros H. ok_step H. ok_step H. injection H as <-. unfold insertCommandActionAudit in Hok. ok_step Hok.
  destruct (si_id io "cmd_aud" 0); [|done]. ok_step Hok. destruct (sd_instances _ !! _); [|done].
  injection Hok as <-. apply set_audits_keeps.
Qed.

Lemma demoted_session_view s id :
  se_capability s = CapabilityFull \/ se_capability s = CapabilityEvidenceOnly ->
  session_authority (if of_instance id s then demoted_session s else s) = demoted_view id (session_authority s) /\
  session_authority (if full_of_instance id s then demoted_session s else s) = demoted_view id (session_authority s).
Proof.
  unfold full_of_instance, of_instance, session_authority, demoted_view. destruct s as [o f t c l e]; cbn. intros Hc.
  destruct (String.eqb_spec o id), (String.eqb_spec c CapabilityFull); cbn; try done.
  destruct Hc; [done|]. by subst.
Qed.

Lemma demote_moves which id clock v db :
  capabilities_ok db -> (which = of_instance id \/ which = full_of_instance id) -> instance_view id db = Some v ->
  moves id v true db (demote_where which clock db).
Proof.
  intros Hc Hw Hv. split; [done|done| |done|done].
  unfold session_view, demote_where, sessions_of. cbn. apply map_eq. intros k. rewrite !lookup_fmap.
  destruct (sd_sessions (nd_sync db) !! k) as [s|] eqn:E; [|done]. cbn. f_equal.
  destruct (demoted_session_view s id (Hc k s E)) as [H1 H2]. by destruct Hw as [-> | ->].
Qed.

Lemma demoteMonitoringSessionsTx_moves io current v db db' :
  capabilities_ok db -> instance_view (mr_MonitoringInstanceID current) db = Some v ->
  demoteMonitoringSessionsTx io current db = Ok db' -> moves (mr_MonitoringInstanceID current) v true db db'.
Proof.
  intros Hc Hv H. unfold demoteMonitoringSessionsTx in H. ok_step H.
  assert (moves (mr_MonitoringInstanceID current) v true db
            (demote_where (of_instance (mr_MonitoringInstanceID current)) (si_db_clock io) db)) as Hm
    by (apply demote_moves; [done|by left|done]).
  destruct (match mr_LastAction current with Some _ => _ | None => _ end) as [actionID commandID] in H.
  destruct (actionID =s ""); [by injection H as <-|]. apply insert_audit_keeps in H. by eapply moves_keeps.
Qed.

(** * The operations *)

Lemma moves_capabilities id v demotes db db' : moves id v demotes db db' -> capabilities_ok db -> capabilities_ok db'.
Proof.
  intros [_ _ Hs _ _] Hc k s Hk.
  assert (session_view db' !! k = Some (session_authority s)) as Hv
    by (unfold session_view, sessions_of in *; rewrite lookup_fmap; by rewrite Hk).
  rewrite Hs in Hv. unfold session_view in Hv.
  assert (forall s0, sessions_of db !! k = Some s0 -> se_capability s0 = CapabilityFull \/ se_capability s0 = CapabilityEvidenceOnly) as H0
    by (intros; by eapply Hc).
  destruct demotes; rewrite ?lookup_fmap in Hv; destruct (sessions_of db !! k) as [s0|] eqn:E; try done; cbn in Hv;
    specialize (H0 _ eq_refl); injection Hv as H1 H2 H3 H4; rewrite <- H4; [|done].
  destruct (_ && _); auto.
Qed.

Lemma keeps_capabilities db db' : keeps db db' -> capabilities_ok db -> capabilities_ok db'.
Proof.
  intros [_ Hs _ _] Hc k s Hk.
  assert (session_view db' !! k = Some (session_authority s)) as Hv
    by (unfold session_view, sessions_of in *; rewrite lookup_fmap; by rewrite Hk).
  rewrite Hs in Hv. unfold session_view in Hv. rewrite lookup_fmap in Hv.
  destruct (sessions_of db !! k) as [s0|] eqn:E; [|done]. injection Hv as H1 H2 H3 H4. rewrite <- H4. by eapply Hc.
Qed.

Lemma issue_moves io id token db db' issue :
  issue_tx io id token db = Ok (db', issue) ->
  exists status n t, instance_view id db = Some (status, n, t) /\
    moves id (status, n, {| tk_hash := Some (hashEnrollmentToken token); tk_issued_at := Some (ti_IssuedAt issue);
                            tk_consumed_at := None |}) false db db'.
Proof.
  unfold issue_tx. intros H. ok_step H. ok_step H. destruct (read_row id db) as [row|] eqn:E; [|done].
  destruct (row_open row); [|done]. injection H as <- <-. exists (in_binding_status row.1), (ic_binding row.2), (ic_token row.2).
  split; [by unfold instance_view; rewrite E|]. by apply write_row_shows.
Qed.

Lemma settle_row_ok io failed required id db row :
  settle_row io failed required id db = Ok row ->
  read_row id db = Some row /\ in_binding_status row.1 = BindingPendingConfirmation /\
  bn_PendingFingerprint (ic_binding row.2) <> "".
Proof.
  unfold settle_row, awaits_confirmation. intros H. ok_step H. destruct (read_row id db) as [row0|]; [|done].
  destruct (_ && _) eqn:E; [|done]. injection H as <-. by breflect.
Qed.

Lemma scan_ok io id row db record :
  scanMonitoringInstance io id row db = Ok record -> mr_MonitoringInstanceID record = id /\ mr_row record = row.
Proof. unfold scanMonitoringInstance. intros H. ok_step H. by injection H as <-. Qed.

Lemma lock_row_ok io wrap id db record :
  lock_row io wrap id db = Ok record ->
  mr_MonitoringInstanceID record = id /\ read_row id db = Some (mr_row record).
Proof.
  unfold lock_row. intros H. ok_step H. destruct (read_row id db) as [row|]; [|done].
  apply map_error_ok, scan_ok in H as [-> ->]. done.
Qed.

Lemma read_row_view id row db : read_row id db = Some row -> instance_view id db = Some (view_of row).
Proof. unfold instance_view. by intros ->. Qed.

(** A demotion between two writes of the row. *)
Lemma write_demote io record id row v db db1 :
  capabilities_ok db -> view_of row = v -> mr_MonitoringInstanceID record = id ->
  demoteMonitoringSessionsTx io record (write_row id row db) = Ok db1 -> moves id v true db db1.
Proof.
  intros Hc Hv <- H. pose proof (write_row_shows (mr_MonitoringInstanceID record) _ _ db Hv) as M.
  apply (demoteMonitoringSessionsTx_moves _ _ v) in H; [|by eapply moves_capabilities|by apply M].
  by apply (moves_moves _ v _ false true _ _ _ M).
Qed.

Lemma confirm_moves io id db db' record :
  capabilities_ok db -> confirm_tx io id db = Ok (db', record) ->
  exists n t n', instance_view id db = Some (BindingPendingConfirmation, n, t) /\ bn_PendingFingerprint n <> "" /\
    bn_Fingerprint n' = bn_PendingFingerprint n /\ moves id (BindingBound, n', t) true db db'.
Proof.
  unfold confirm_tx. intros Hc H. ok_step H. ok_step H. rename x0 into row.
  apply settle_row_ok in Hok0 as (Hr%read_row_view & Hst & Hp). set (row1 := (without_beats _, _)) in H.
  ok_step H. apply map_error_ok, scan_ok in Hok0 as [Hid _]. ok_step H. ok_step H. ok_step H. injection H as <- _.
  exists (ic_binding row.2), (ic_token row.2), (ic_binding row1.2).
  split; [rewrite Hr; unfold view_of; by rewrite Hst|]. split; [done|]. split; [done|].
  apply insert_event_keeps in Hok2. eapply moves_keeps; [|done].
  eapply (write_demote _ _ _ _ (view_of row1)) in Hok0; [|done..].
  by apply (moves_moves _ _ _ true false _ _ _ Hok0), write_row_shows.
Qed.

Lemma reject_moves io id db db' record :
  reject_tx io id db = Ok (db', record) ->
  exists n t n', instance_view id db = Some (BindingPendingConfirmation, n, t) /\ bn_Fingerprint n' = bn_Fingerprint n /\
    moves id (BindingBound, n', t) false db db'.
Proof.
  unfold reject_tx. intros H. ok_step H. ok_step H. rename x0 into row.
  apply settle_row_ok in Hok0 as (Hr%read_row_view & Hst & Hp). set (row1 := (with_binding_status _ _, _)) in H.
  ok_step H. ok_step H. injection H as <- _. exists (ic_binding row.2), (ic_token row.2), (ic_binding row1.2).
  split; [rewrite Hr; unfold view_of; by rewrite Hst|]. split; [done|].
  apply insert_event_keeps in Hok1. eapply moves_keeps; [|done]. by apply write_row_shows.
Qed.

Lemma reset_moves io id db db' record :
  capabilities_ok db -> reset_tx io id db = Ok (db', record) ->
  exists status n t, instance_view id db = Some (status, n, t) /\ moves id (BindingUnbound, unbound_binding, t) true db db'.
Proof.
  unfold reset_tx. intros Hc H. ok_step H. ok_step H. rename x0 into current.
  apply lock_row_ok in Hok0 as (Hid & Hr%read_row_view). ok_step H. ok_step H. ok_step H. ok_step H. rename x3 into db1.
  ok_step H. ok_step H. ok_step H. ok_step H. ok_step H. injection H as <- _.
  exists (in_binding_status (mr_row current).1), (ic_binding (mr_row current).2), (ic_token (mr_row current).2). split; [done|].
  apply insert_event_keeps in Hok8. eapply moves_keeps; [|done]. eapply moves_keeps; [|apply with_links_keeps].
  subst id. eapply demoteMonitoringSessionsTx_moves in Hok3; [|done..].
  by apply (moves_moves _ _ _ true false _ _ _ Hok3), write_row_shows.
Qed.

Lemma closeArchiveIncidents_keeps io id reason db db' : closeArchiveIncidents io id reason db = Ok db' -> keeps db db'.
Proof.
  unfold closeArchiveIncidents. intros H. repeat ok_step H. injection H as <-.
  match goal with |- keeps db match read_row id ?d with _ => _ end => assert (keeps db d) as Hk by done; revert Hk; generalize d end.
  intros d Hk. destruct (read_row id d) as [row|] eqn:E; [|done]. etransitivity; [exact Hk|]. by eapply write_row_keeps.
Qed.

Lemma retire_moves io id reason db db' record :
  capabilities_ok db -> is_retired id db = false -> retireMonitoringInstanceTx io id reason db = Ok (db', record) ->
  exists status n t n', instance_view id db = Some (status, n, t) /\ bn_Fingerprint n' = bn_Fingerprint n /\
    moves id (if bn_Fingerprint n =s "" then BindingUnbound else BindingBound, n',
              {| tk_hash := None; tk_issued_at := None; tk_consumed_at := None |}) true db db'.
Proof.
  unfold retireMonitoringInstanceTx, is_retired. intros Hc Hr H. ok_step H. rename x into current.
  apply lock_row_ok in Hok as (Hid & Hrow). rewrite Hrow in Hr. apply read_row_view in Hrow. ok_step H. rewrite Hr in H.
  ok_step H. rename x0 into db1. ok_step H. set (row1 := (without_action _, _)) in H. ok_step H. ok_step H. ok_step H. ok_step H.
  injection H as <- _.
  exists (in_binding_status (mr_row current).1), (ic_binding (mr_row current).2), (ic_token (mr_row current).2), (ic_binding row1.2).
  split; [done|]. split; [done|]. apply insert_event_keeps in Hok3. apply closeArchiveIncidents_keeps in Hok5.
  eapply moves_keeps; [|exact Hok5]. eapply moves_keeps; [|apply with_links_keeps]. eapply moves_keeps; [|exact Hok3].
  subst id. eapply demoteMonitoringSessionsTx_moves in Hok0; [|done..].
  by apply (moves_moves _ _ _ true false _ _ _ Hok0), write_row_shows.
Qed.

Lemma control_keeps io id control db db' record : control_tx io id control db = Ok (db', record) -> keeps db db'.
Proof.
  unfold control_tx. intros H. ok_step H. ok_step H. apply lock_row_ok in Hok0 as (_ & Hr). repeat ok_step H.
  assert (keeps db (write_row id (with_state (in_lifecycle_status (mr_row x0).1) control (mr_row x0).1,
                                  ic_next_revision (mr_row x0).2) db)) as Hk by (by eapply write_row_keeps).
  destruct (in_monitoring_status _ =s control); [by injection H as <- _|].
  destruct (control_event _ _) as [eventType summary]. ok_step H. injection H as <- _.
  apply insert_event_keeps in Hok5. by etransitivity.
Qed.

Lemma metadata_keeps io id input db db' record : metadata_tx io id input db = Ok (db', record) -> keeps db db'.
Proof.
  unfold metadata_tx. intros H. ok_step H. ok_step H. destruct (read_row id db) as [row|] eqn:Hr; [|done].
  destruct (_ && _); [|done]. ok_step H. injection H as <- _. by eapply write_row_keeps.
Qed.

Lemma queue_keeps io id input db db' u : queue_tx io id input db = Ok (db', u) -> keeps db db'.
Proof.
  unfold queue_tx. intros H. ok_step H. ok_step H. destruct (read_row id db) as [row|] eqn:Hr; [|done].
  destruct (negb _); [done|]. ok_step H. injection H as <- _. apply map_error_ok, insert_audit_keeps in Hok1.
  etransitivity; [|done]. by eapply write_row_keeps.
Qed.

Definition new_view : row_view :=
  (BindingUnbound, unbound_binding, {| tk_hash := None; tk_issued_at := None; tk_consumed_at := None |}).

Lemma create_moves io vps input note db db' record :
  create_tx io vps input note db = Ok (db', record) ->
  exists id, instance_view id db = None /\ moves id new_view false db db'.
Proof.
  unfold create_tx. intros H. ok_step H. ok_step H. destruct (sd_vps _ !! vps); [|done]. do 4 ok_step H.
  unfold insertLinkedMonitoringInstanceRows in H. destruct (si_id io "mi" 0) as [id|]; [|done].
  destruct (si_id io "vnl" 0) as [link|]; [|done]. set (row := new_instance _ _ _) in H. repeat ok_step H. injection H as <- _.
  exists id. split; [|by apply (moves_keeps _ _ _ _ (write_row id row db)), with_links_keeps; apply write_row_shows].
  unfold instance_view. by destruct (read_row id db).
Qed.

Lemma find_enrollable_ok io token db id row :
  find_enrollable io token db = Some (id, row) -> read_row id db = Some row /\ enrollable io token row = true.
Proof.
  unfold find_enrollable. generalize (map_to_list (nd_columns db)).*1. intros ids Hh.
  assert (In (id, row) (omap (fun id => row ← read_row id db; if enrollable io token row then Some (id, row) else None) ids)) as Hin.
  { destruct (omap _ ids) as [|x l]; [done|]. injection Hh as ->. by left. }
  apply list_elem_of_In, list_elem_of_omap in Hin as (k & _ & Hk). destruct (read_row k db) as [row0|] eqn:E; [|done]. cbn in Hk.
  destruct (enrollable io token row0) eqn:Ee; [|done]. injection Hk as -> ->. done.
Qed.

(** The insert of a session. *)
Record opens_session (session id token fingerprint : string) db db' : Prop := {
  os_fresh : session_view db !! session = None;
  os_views : forall k, instance_view k db' = instance_view k db;
  os_session : session_view db' = <[session := (id, fingerprint, hashSyncToken token, CapabilityFull)]> (session_view db);
  os_keys : keys_ok db -> keys_ok db';
  os_replay : sd_replay (nd_sync db') = sd_replay (nd_sync db) /\ sd_receipts (nd_sync db') = sd_receipts (nd_sync db);
}.

Lemma insert_session_opens session id token fingerprint clock db db' :
  insert_session session id (hashSyncToken token) fingerprint clock db = Ok db' ->
  opens_session session id token fingerprint db db'.
Proof.
  unfold insert_session. intros H. do 4 ok_step H. injection H as <-. split; [| |by unfold session_view; cbn; rewrite fmap_insert|done..].
  - unfold session_view. rewrite lookup_fmap. by destruct (sessions_of db !! session).
  - done.
Qed.

(** What an enrollment found and what it left. *)
Record enrolls io (token fingerprint : string) db (out : enrolled) db' : Prop := {
  ns_found : exists row hash issued, read_row (en_instance out) db = Some row /\
    tk_hash (ic_token row.2) = Some hash /\ tk_issued_at (ic_token row.2) = Some issued /\
    tk_consumed_at (ic_token row.2) = None /\ token_opens token hash = true /\
    si_db_clock io - 30 * Minute <= issued /\
    let next := resolveEnrollmentBindingTransition (in_binding_status row.1) (ic_binding row.2) fingerprint (si_now io) in
    (en_session out <> "" -> next.1 = BindingBound) /\
    exists n t, bn_Fingerprint n = bn_Fingerprint next.2 /\ bn_PendingFingerprint n = bn_PendingFingerprint next.2 /\
      is_Some (tk_consumed_at t) /\
      if en_session out =s "" then moves (en_instance out) (next.1, n, t) false db db'
      else exists db1, moves (en_instance out) (next.1, n, t) true db db1 /\
             opens_session (en_session out) (en_instance out) (en_token out) fingerprint db1 db';
}.

Lemma enroll_spec io token fingerprint db db' out :
  capabilities_ok db -> enroll_tx io token fingerprint db = Ok (db', out) -> enrolls io token fingerprint db out db'.
Proof.
  unfold enroll_tx. intros Hc H. do 3 ok_step H. destruct (find_enrollable io token db) as [[id row]|] eqn:Hf; [|done].
  apply find_enrollable_ok in Hf as [Hr He].
  destruct (resolveEnrollmentBindingTransition _ _ _ _) as [status next] eqn:En. ok_step H. destruct x2 as [session secret].
  do 2 ok_step H. rename x3 into row'. ok_step H. apply map_error_ok in Hok4. unfold enrolled_row in Hok4. ok_step Hok4.
  injection Hok4 as <-. set (row1 := (with_binding_status _ _, _)) in H.
  unfold enrollable in He. destruct (tk_hash (ic_token row.2)) as [hash|] eqn:Eh; [|done].
  destruct (tk_issued_at (ic_token row.2)) as [issued|] eqn:Ei; [|done]. breflect.
  assert (session <> "" -> status = BindingBound) as Hs.
  { unfold new_session in Hok2. destruct (String.eqb_spec status BindingBound); [done|]. by injection Hok2 as <- <-. }
  assert (out = {| en_instance := id; en_record := x3; en_token := secret; en_session := session |} /\
    if session =s "" then moves id (view_of row1) false db db'
    else exists db1, moves id (view_of row1) true db db1 /\ opens_session session id secret fingerprint db1 db') as [-> Hm].
  { destruct (session =s "").
    - injection H as <- <-. split; [done|]. by apply write_row_shows.
    - do 2 ok_step H. ok_step H. injection H as <- <-. split; [done|]. eexists. split; [|by eapply insert_session_opens, map_error_ok].
      pose proof (write_row_shows id row1 _ db eq_refl) as M. apply (moves_moves _ _ _ false true _ _ _ M).
      apply demote_moves; [by eapply moves_capabilities|by right|by apply M]. }
  split. exists row, hash, issued. cbn. rewrite En. split_and!; try done. { by destruct (tk_consumed_at _). }
  exists (ic_binding row1.2), (ic_token row1.2). split_and!; done.
Qed.
End Props.
