(* ===== verification/EnrollmentInv.v ===== *)
(** Every state of a run shows the ledger: the rows of each monitoring instance and the session that may collect
    are what replaying the decisions about it gives. *)
From stdpp Require Import base list strings gmap.
From Stdlib Require Import ZArith Lia.
From S2P Require Import Prelude GoRuntime IncidentTypes EventPayload IncidentStore Postgres Notification ObservationStore SyncProtocol SyncStore SyncStoreProps Subscriptions.
From S2P Require Import Instances Enrollment InstanceControl SyncHandler EnrollHandler EnrollmentLedger EnrollmentRuns EnrollmentProps.

Local Open Scope Z_scope.
#[local] Set Warnings "-clear-no-such-hyp".

Section Invariant.
Context {body : Type} `{Env : @SyncEnv body} `{Tokens : EnrollEnv}.
Implicit Types (db : instance_db body) (io : sync_io) (w : instance_world (body := body)).

(** * The coupling *)

(** The one session with full capability is the collector. *)
Definition sessions_shown (id : string) (b : book) db : Prop :=
  forall s f, bk_collector b = Some (s, f) <-> exists token, session_view db !! s = Some (id, f, token, CapabilityFull).

Definition shows (id : string) (b : book) db : Prop := row_shown b (instance_view id db) /\ sessions_shown id b db.

Record world_inv w : Prop := {
  wi_keys : keys_ok (iw_db w);
  wi_capabilities : capabilities_ok (iw_db w);
  wi_replay : replay_wf (nd_sync (iw_db w));
  wi_books : forall id, exists b, instance_book id (iw_ledger w) = Some b /\ shows id b (iw_db w);
}.

(** Sessions stay what they are, and a session without full capability never gets it. *)
Definition sessions_stay db db' : Prop := forall s owner fingerprint token capability,
  session_view db !! s = Some (owner, fingerprint, token, capability) ->
  exists capability', session_view db' !! s = Some (owner, fingerprint, token, capability') /\
    (capability <> CapabilityFull -> capability' = capability).

#[export] Instance sessions_stay_preorder : PreOrder sessions_stay.
Proof.
  split; [by intros db s o f t c; eauto|]. intros db1 db2 db3 H1 H2 s o f t c (c1 & E1 & Hc1)%H1.
  destruct (H2 _ _ _ _ _ E1) as (c2 & E2 & Hc2). exists c2. split; [done|]. intros Hne. rewrite Hc2 by (by rewrite Hc1). auto.
Qed.

(** What a step leads to. *)
Record advances w w' : Prop := {
  ad_inv : world_inv w';
  ad_sessions : sessions_stay (iw_db w) (iw_db w');
  ad_ledger : exists l, iw_ledger w' = iw_ledger w ++ l;
}.

(** ** Ledgers *)

Lemma events_of_app id l l' : events_of id (l ++ l') = events_of id l ++ events_of id l'.
Proof. apply omap_app. Qed.

Lemma events_of_other id k e : k <> id -> events_of k [(id, e)] = [].
Proof. intros Hne. unfold events_of. cbn. by rewrite (proj2 (String.eqb_neq id k)) by done. Qed.

Lemma events_of_self id e : events_of id [(id, e)] = [e].
Proof. unfold events_of. cbn. by rewrite String.eqb_refl. Qed.

Lemma instance_book_other id k e l : k <> id -> instance_book k (l ++ [(id, e)]) = instance_book k l.
Proof. intros Hne. unfold instance_book. by rewrite events_of_app, events_of_other, app_nil_r. Qed.

Lemma instance_book_self id e l : instance_book id (l ++ [(id, e)]) = instance_book id l ≫= book_step token_opens e.
Proof. unfold instance_book. by rewrite events_of_app, events_of_self, replay_snoc. Qed.

(** ** Sessions *)

Lemma demoted_full id k s f token (m : gmap string (string * string * string * string)) :
  (demoted_view id <$> m) !! s = Some (k, f, token, CapabilityFull) <-> k <> id /\ m !! s = Some (k, f, token, CapabilityFull).
Proof.
  rewrite lookup_fmap. destruct (m !! s) as [[[[o f0] t0] c]|]; cbn; [|by split; [|intros [_ ?]]]. split.
  - intros [= Ho Hf Ht Hc]. subst o f0 t0. destruct (String.eqb_spec k id), (String.eqb_spec c CapabilityFull); cbn in Hc; by subst.
  - intros [Hne [= -> -> -> ->]]. by rewrite (proj2 (String.eqb_neq k id) Hne).
Qed.

Lemma demoted_others id k b db db' :
  k <> id -> session_view db' = demoted_view id <$> session_view db -> sessions_shown k b db -> sessions_shown k b db'.
Proof.
  intros Hne Hs Hb s f. rewrite (Hb s f), Hs. split; intros [token H]; exists token; [by apply demoted_full|].
  by apply demoted_full in H as [_ H].
Qed.

Lemma demoted_self id b db db' :
  session_view db' = demoted_view id <$> session_view db -> bk_collector b = None -> sessions_shown id b db'.
Proof. intros Hs Hb s f. rewrite Hb, Hs. split; [done|]. by intros [token [? _]%demoted_full]. Qed.

Lemma sessions_shown_same id b b' db db' :
  session_view db' = session_view db -> bk_collector b' = bk_collector b -> sessions_shown id b db -> sessions_shown id b' db'.
Proof. intros Hs Hc Hb s f. rewrite Hs, Hc. apply Hb. Qed.

Lemma opened_sessions session id token fingerprint db db' k b :
  opens_session session id token fingerprint db db' -> k <> id -> sessions_shown k b db -> sessions_shown k b db'.
Proof.
  intros [Hfresh _ Hs _ _] Hne Hb s f. rewrite (Hb s f), Hs. destruct (decide (s = session)) as [->|].
  - rewrite lookup_insert_eq, Hfresh. split; intros [t H]; simplify_eq.
  - by rewrite lookup_insert_ne.
Qed.

Lemma opened_self session id token fingerprint db db' b b' :
  opens_session session id token fingerprint db db' -> bk_collector b = None -> sessions_shown id b db ->
  bk_collector b' = Some (session, fingerprint) -> sessions_shown id b' db'.
Proof.
  intros [Hfresh _ Hs _ _] Hn Hb Hc s f. rewrite Hc, Hs. destruct (decide (s = session)) as [->|].
  - rewrite lookup_insert_eq. split; [intros [= ->]; by eauto|]. by intros [t [= ->]].
  - rewrite lookup_insert_ne by done. split; [by intros [= <- <-]|]. intros H%(Hb s f). by rewrite Hn in H.
Qed.

(** ** Steps *)

Lemma sessions_stay_same db db' : session_view db' = session_view db -> sessions_stay db db'.
Proof. intros E s o f t c H. rewrite E. by eauto. Qed.

Lemma moves_stay id v demotes db db' : moves id v demotes db db' -> sessions_stay db db'.
Proof.
  intros [_ _ Ms _ _]. destruct demotes; [|by apply sessions_stay_same]. intros s o f t c H. rewrite Ms, lookup_fmap, H. cbn.
  eexists. split; [done|]. intros Hc. by rewrite (proj2 (String.eqb_neq _ _) Hc), andb_false_r.
Qed.

Lemma opens_stay session id token fingerprint db db' : opens_session session id token fingerprint db db' -> sessions_stay db db'.
Proof.
  intros [Of _ Os _ _] s o f t c H. rewrite Os. destruct (decide (s = session)) as [->|]; [congruence|].
  rewrite lookup_insert_ne by done. by eauto.
Qed.

Lemma advances_refl w : world_inv w -> advances w {| iw_db := iw_db w; iw_ledger := iw_ledger w |}.
Proof. intros Hw. split; [by destruct w|done|]. exists []. by rewrite app_nil_r. Qed.

Lemma advances_refl_nil w : world_inv w -> advances w {| iw_db := iw_db w; iw_ledger := iw_ledger w ++ [] |}.
Proof. rewrite app_nil_r. apply advances_refl. Qed.

(** Nothing the ledger speaks about changes. *)
Lemma inv_same w db' :
  world_inv w -> (forall id, instance_view id db' = instance_view id (iw_db w)) ->
  session_view db' = session_view (iw_db w) -> keys_ok db' -> replay_wf (nd_sync db') ->
  advances w {| iw_db := db'; iw_ledger := iw_ledger w |}.
Proof.
  intros [_ Hc _ Hb] Hv Hs Hk Hr. split; [|by apply sessions_stay_same|exists []; by rewrite app_nil_r].
  split; cbn [iw_db iw_ledger]; [done| |done|].
  - intros k s Hks. assert (session_view db' !! k = Some (session_authority s)) as E
      by (unfold session_view; rewrite lookup_fmap; by rewrite Hks).
    rewrite Hs in E. unfold session_view in E. rewrite lookup_fmap in E.
    destruct (sessions_of (iw_db w) !! k) as [s0|] eqn:E0; [|done]. injection E as _ _ _ <-. by eapply Hc.
  - intros id. destruct (Hb id) as (b & Eb & Hrow & Hses). exists b. split; [done|]. split; [by rewrite Hv|].
    by eapply sessions_shown_same.
Qed.

Lemma replay_wf_same db db' :
  sd_replay (nd_sync db') = sd_replay (nd_sync db) -> sd_receipts (nd_sync db') = sd_receipts (nd_sync db) ->
  replay_wf (nd_sync db) -> replay_wf (nd_sync db').
Proof. intros E1 E2 [H1 H2]. split; intros; rewrite ?E1, ?E2 in *; eauto. Qed.

Lemma inv_keeps w db' : world_inv w -> keeps (iw_db w) db' -> advances w {| iw_db := db'; iw_ledger := iw_ledger w |}.
Proof.
  intros Hw [Kv Ks Kk [Kr1 Kr2]]. apply inv_same; [done..|by apply Kk, Hw|]. by eapply replay_wf_same; [| |apply Hw].
Qed.

(** One event of one instance. *)
Lemma inv_event w db' id e :
  world_inv w -> capabilities_ok db' -> keys_ok db' -> replay_wf (nd_sync db') ->
  (forall k, k <> id -> instance_view k db' = instance_view k (iw_db w)) ->
  (forall k b, k <> id -> sessions_shown k b (iw_db w) -> sessions_shown k b db') ->
  (forall b, shows id b (iw_db w) -> exists b', book_step token_opens e b = Some b' /\ shows id b' db') ->
  sessions_stay (iw_db w) db' ->
  advances w {| iw_db := db'; iw_ledger := iw_ledger w ++ [(id, e)] |}.
Proof.
  intros [_ _ _ Hb] Hc Hk Hr Hv Hs Hstep Hstay. split; [|done|by eexists]. split; cbn [iw_db iw_ledger]; [done..|]. intros k. destruct (Hb k) as (b & Eb & Hrow & Hses).
  destruct (decide (k = id)) as [->|Hne].
  - destruct (Hstep b) as (b' & Es & Hb'); [by split|]. exists b'. by rewrite instance_book_self, Eb.
  - exists b. rewrite instance_book_other by done. split; [done|]. split; [by rewrite Hv|by apply Hs].
Qed.

(** A row that moves, with the event that says so. *)
Lemma inv_moves w db' id e v demotes :
  world_inv w -> moves id v demotes (iw_db w) db' ->
  (forall b, row_shown b (instance_view id (iw_db w)) -> exists b', book_step token_opens e b = Some b' /\
     row_shown b' (Some v) /\ bk_collector b' = if demotes then None else bk_collector b) ->
  advances w {| iw_db := db'; iw_ledger := iw_ledger w ++ [(id, e)] |}.
Proof.
  intros Hw Hm Hstep. pose proof (moves_capabilities _ _ _ _ _ Hm (wi_capabilities _ Hw)) as Hc.
  pose proof (moves_stay _ _ _ _ _ Hm) as Hstay.
  destruct Hm as [Mr Mo Ms Mk [Mp1 Mp2]]. apply inv_event; [done|done|by apply Mk, Hw|by eapply replay_wf_same; [| |apply Hw]|done|..|done].
  - intros k b Hne Hb. destruct demotes; [by eapply demoted_others|by eapply sessions_shown_same].
  - intros b [Hrow Hses]. destruct (Hstep b Hrow) as (b' & Es & Hrow' & Hcol). exists b'. split; [done|].
    split; [by rewrite Mr|]. destruct demotes; [by eapply demoted_self|by eapply sessions_shown_same].
Qed.

(** A new row shows the empty book. *)
Lemma inv_create w db' id :
  world_inv w -> instance_view id (iw_db w) = None -> moves id new_view false (iw_db w) db' ->
  advances w {| iw_db := db'; iw_ledger := iw_ledger w |}.
Proof.
  intros Hw Hn Hm. pose proof (moves_capabilities _ _ _ _ _ Hm (wi_capabilities _ Hw)) as Hc.
  split; [|by eapply moves_stay|exists []; by rewrite app_nil_r].
  destruct Hm as [Mr Mo Ms Mk [Mp1 Mp2]]. split; cbn [iw_db iw_ledger]; [by apply Mk, Hw|done|by eapply replay_wf_same; [| |apply Hw]|].
  intros k. destruct (wi_books _ Hw k) as (b & Eb & Hrow & Hses). exists b. split; [done|].
  split; [|by eapply sessions_shown_same]. destruct (decide (k = id)) as [->|Hne]; [|by rewrite Mo].
  rewrite Mr. rewrite Hn in Hrow. by rewrite Hrow.
Qed.

(** ** The books of the operations *)

Lemma shown_pending b n :
  binding_shown b BindingPendingConfirmation n ->
  exists f, b = BookPending f (bn_PendingFingerprint n) /\ bn_Fingerprint n = f /\ f <> "".
Proof. destruct b; cbn; intros H; [by destruct H..|]. destruct H as (_ & -> & Hf & -> & _). by eauto. Qed.

Lemma resolve_shown b status n fingerprint now n' :
  binding_shown b status n -> fingerprint <> "" ->
  let next := resolveEnrollmentBindingTransition status n fingerprint now in
  bn_Fingerprint n' = bn_Fingerprint next.2 -> bn_PendingFingerprint n' = bn_PendingFingerprint next.2 ->
  binding_shown (enroll_binding b fingerprint) next.1 n' /\ (next.1 = BindingBound -> is_bound (enroll_binding b fingerprint) = true).
Proof.
  intros Hb Hf. unfold resolveEnrollmentBindingTransition, enroll_binding.
  destruct b as [|f|f p]; cbn in Hb; destruct_and!; subst.
  - cbn. intros -> _. done.
  - cbn. destruct (bn_Fingerprint n =s fingerprint); cbn; intros E1 E2; rewrite ?E1, ?E2; done.
  - cbn. destruct (String.eqb_spec (bn_PendingFingerprint n) fingerprint) as [Hp|Hp]; cbn.
    + intros E1 E2. rewrite ?E1, ?E2. destruct (String.eqb_spec (bn_Fingerprint n) fingerprint) as [Hq|Hq]; cbn; rewrite ?E1, ?E2; [by rewrite Hp|done].
    + destruct (bn_Fingerprint n =s fingerprint); cbn; intros E1 E2; rewrite ?E1, ?E2; done.
Qed.

Lemma shown_live t c hash issued :
  token_shown t c -> tk_hash c = Some hash -> tk_issued_at c = Some issued -> tk_consumed_at c = None -> t = LiveToken hash issued.
Proof.
  destruct t; cbn; [by intros ->|intros (-> & -> & _); by intros [= ->] [= ->]|intros [? ->]; done].
Qed.

Lemma valid_enrollment_fingerprint r : isValidEnrollmentRequest r = true -> er_Fingerprint r <> "".
Proof. unfold isValidEnrollmentRequest, requiredMax. intros H. by breflect. Qed.

Lemma inv_enroll io token fingerprint w db' out :
  world_inv w -> fingerprint <> "" -> enroll_tx io token fingerprint (iw_db w) = Ok (db', out) ->
  advances w {| iw_db := db'; iw_ledger := iw_ledger w ++ [(en_instance out, Enrolled token fingerprint (en_session out) (si_db_clock io))] |}.
Proof.
  intros Hw Hf H. apply enroll_spec in H; [|apply Hw].
  destruct H as [(row & hash & issued & Hr & Eh & Ei & Ec & Ho & Ht & Hbound & n & t & En & Ep & Hsp & Hm)].
  apply read_row_view in Hr.
  assert (forall b, row_shown b (instance_view (en_instance out) (iw_db w)) -> exists b',
    book_step token_opens (Enrolled token fingerprint (en_session out) (si_db_clock io)) b = Some b' /\
    row_shown b' (Some ((resolveEnrollmentBindingTransition (in_binding_status row.1) (ic_binding row.2) fingerprint (si_now io)).1, n, t)) /\
    bk_collector b' = if en_session out =s "" then bk_collector b else Some (en_session out, fingerprint)) as Hstep.
  { intros b. rewrite Hr. intros [Hb Htok]. cbn [book_step]. rewrite (shown_live _ _ _ _ Htok Eh Ei Ec).
    destruct (resolve_shown _ _ _ fingerprint (si_now io) n Hb Hf En Ep) as [Hb' Hib].
    rewrite Ho, (proj2 (Z.leb_le _ _) Ht), (proj2 (String.eqb_neq _ _) Hf). cbn [negb andb].
    destruct (String.eqb_spec (en_session out) "") as [Es|Es].
    - rewrite orb_true_r. eexists. split; [done|]. by split.
    - rewrite Hib by auto. eexists. split; [done|]. by split. }
  destruct (en_session out =s "") eqn:Es.
  { by eapply inv_moves. }
  destruct Hm as (db1 & Hm & Hopen). pose proof (moves_capabilities _ _ _ _ _ Hm (wi_capabilities _ Hw)) as Hc.
  assert (sessions_stay (iw_db w) db') as Hstay by (etransitivity; [by eapply moves_stay|by eapply opens_stay]).
  destruct Hm as [Mr Mo Ms Mk [Mp1 Mp2]]. pose proof Hopen as [Of Ov Os Ok [Op1 Op2]]. apply inv_event; [done|..|done].
  - intros k s Hk. assert (session_view db' !! k = Some (session_authority s)) as E
      by (unfold session_view; rewrite lookup_fmap; by rewrite Hk).
    rewrite Os in E. destruct (decide (k = en_session out)) as [->|Hne].
    + rewrite lookup_insert_eq in E. injection E as _ _ _ <-. by left.
    + rewrite lookup_insert_ne in E by done. unfold session_view in E. rewrite lookup_fmap in E.
      destruct (sessions_of db1 !! k) as [s0|] eqn:E0; [|done]. injection E as _ _ _ <-. by eapply Hc.
  - by apply Ok, Mk, Hw.
  - eapply replay_wf_same; [by rewrite Op1|by rewrite Op2|apply Hw].
  - intros k Hne. rewrite Ov. by apply Mo.
  - intros k b Hne Hb. eapply opened_sessions; [done|done|]. by eapply demoted_others.
  - intros b [Hrow Hses]. destruct (Hstep b Hrow) as (b' & Eb & Hrow' & Hcol). exists b'. split; [done|].
    split; [by rewrite Ov, Mr|]. eapply (opened_self _ _ _ _ _ _ empty_book); [done|done| |done].
    by eapply demoted_self.
Qed.

(** * Runs *)

(** A transaction leaves the tables, or what its body made of them with its entry. *)
Lemma instance_tx_inv {A} io wrap w (out : result (instance_db body * A)) entry :
  world_inv w -> (forall db' a, out = Ok (db', a) -> advances w {| iw_db := db'; iw_ledger := iw_ledger w ++ entry a |}) ->
  advances w {| iw_db := (instance_tx io wrap (iw_db w) out).1; iw_ledger := iw_ledger w ++ entry_of io out entry |}.
Proof.
  intros Hw Hout. unfold instance_tx, transaction, autocommit, entry_of, applied.
  pose proof (advances_refl_nil w Hw) as H0. destruct out as [[db' a]|]; [|done]. by destruct (si_commit io) as [|e []]; cbn; auto.
Qed.

(** The same for an operation the ledger does not speak about. *)
Lemma instance_tx_quiet {A} io wrap w (out : result (instance_db body * A)) :
  world_inv w -> (forall db' a, out = Ok (db', a) -> advances w {| iw_db := db'; iw_ledger := iw_ledger w |}) ->
  advances w {| iw_db := (instance_tx io wrap (iw_db w) out).1; iw_ledger := iw_ledger w ++ [] |}.
Proof.
  intros Hw Hout. pose proof (instance_tx_inv io wrap w out (fun _ => []) Hw) as H.
  unfold entry_of in H. rewrite app_nil_r in *.
  assert (match out with Ok (_, _) => if applied io then [] else [] | Err _ => [] end = ([] : list (string * ledger_event))) as E
    by (destruct out as [[]|]; [by destruct (applied io)|done]).
  rewrite E, app_nil_r in H. apply H. intros; rewrite ?app_nil_r; by eauto.
Qed.

Lemma inv_issue io id token w db' issue :
  world_inv w -> issue_tx io id token (iw_db w) = Ok (db', issue) ->
  advances w {| iw_db := db'; iw_ledger := iw_ledger w ++ [(id, Issued (hashEnrollmentToken token) (ti_IssuedAt issue))] |}.
Proof.
  intros Hw (status & n & t & Hv & Hm)%issue_moves. eapply inv_moves; [done|done|]. rewrite Hv. intros b [Hb _].
  eexists. split; [done|]. by split.
Qed.

Lemma inv_confirm io id w db' record :
  world_inv w -> confirm_tx io id (iw_db w) = Ok (db', record) ->
  advances w {| iw_db := db'; iw_ledger := iw_ledger w ++ [(id, Confirmed)] |}.
Proof.
  intros Hw (n & t & n' & Hv & Hp & Hn & Hm)%confirm_moves; [|apply Hw]. eapply inv_moves; [done|done|]. rewrite Hv.
  intros b [(f & Eb & Hf & Hne)%shown_pending Ht]. cbn [book_step]. rewrite Eb. eexists. split; [done|]. split; [|done].
  split; [|done]. cbn. by rewrite Hn.
Qed.

Lemma inv_reject io id w db' record :
  world_inv w -> reject_tx io id (iw_db w) = Ok (db', record) ->
  advances w {| iw_db := db'; iw_ledger := iw_ledger w ++ [(id, Rejected)] |}.
Proof.
  intros Hw (n & t & n' & Hv & Hn & Hm)%reject_moves. eapply inv_moves; [done|done|]. rewrite Hv.
  intros b [(f & Eb & Hf & Hne)%shown_pending Ht]. cbn [book_step]. rewrite Eb. eexists. split; [done|]. split; [|done].
  split; [|done]. cbn. by rewrite Hn.
Qed.

Lemma inv_reset io id w db' record :
  world_inv w -> reset_tx io id (iw_db w) = Ok (db', record) ->
  advances w {| iw_db := db'; iw_ledger := iw_ledger w ++ [(id, WasReset)] |}.
Proof.
  intros Hw (status & n & t & Hv & Hm)%reset_moves; [|apply Hw]. eapply inv_moves; [done|done|]. rewrite Hv.
  intros b [_ Ht]. eexists. split; [done|]. by split.
Qed.

Lemma inv_retire io id reason w db' record :
  world_inv w -> is_retired id (iw_db w) = false -> retireMonitoringInstanceTx io id reason (iw_db w) = Ok (db', record) ->
  advances w {| iw_db := db'; iw_ledger := iw_ledger w ++ [(id, WasRetired)] |}.
Proof.
  intros Hw Hr (status & n & t & n' & Hv & Hn & Hm)%retire_moves; [|apply Hw|done]. eapply inv_moves; [done|done|]. rewrite Hv.
  intros b [Hb _]. eexists. split; [done|]. split; [|done]. split; [|done]. cbn [bk_binding].
  destruct (bk_binding b) as [|f|f p]; cbn in Hb |- *; destruct_and!; subst; rewrite ?Hn.
  - by match goal with H : bn_Fingerprint n = "" |- _ => rewrite H end.
  - by rewrite (proj2 (String.eqb_neq (bn_Fingerprint n) "")).
  - by rewrite (proj2 (String.eqb_neq (bn_Fingerprint n) "")).
Qed.

(** A second retirement changes nothing. *)
Lemma retired_same io id reason db db' record :
  is_retired id db = true -> retireMonitoringInstanceTx io id reason db = Ok (db', record) -> db' = db.
Proof.
  unfold retireMonitoringInstanceTx, is_retired. intros Hr H. ok_step H. apply lock_row_ok in Hok as (_ & Hrow).
  rewrite Hrow in Hr. ok_step H. rewrite Hr in H. by injection H as <- _.
Qed.

Lemma inv_sync io batch w :
  world_inv w ->
  advances w {| iw_db := nd_with_sync (applyBatch io batch (nd_sync (iw_db w))).2 (iw_db w); iw_ledger := iw_ledger w |}.
Proof.
  intros Hw. pose proof (applyBatch_wf io batch _ (wi_replay _ Hw)) as Hwf.
  assert (same_authority (nd_sync (iw_db w)) (applyBatch io batch (nd_sync (iw_db w))).2) as [_ Ai As _ _].
  { pose proof (applyBatch_cases io batch _ (wi_replay _ Hw)) as Hc. destruct (applyBatch _ _ _) as [r s'].
    destruct Hc as [[-> _]|(_ & r0 & Hs & _)]; [done|]. by eapply te_authority, tx_effect_intro. }
  revert Hwf Ai As. generalize (applyBatch io batch (nd_sync (iw_db w))).2. intros s' Hwf Ai As. apply inv_same; [done|..|done].
  - intros id. specialize (Ai id). unfold instance_view, read_row, instances_of. cbn.
    destruct (sd_instances (nd_sync (iw_db w)) !! id), (sd_instances s' !! id); try done.
    injection Ai as Eb _. destruct (nd_columns (iw_db w) !! id); [|done]. cbn. unfold view_of. cbn. by rewrite Eb.
  - unfold session_view, sessions_of. cbn. apply map_eq. intros k. rewrite !lookup_fmap. apply As.
  - intros id. pose proof (wi_keys _ Hw id) as Hk. specialize (Ai id). unfold instances_of in *. cbn.
    destruct (sd_instances (nd_sync (iw_db w)) !! id), (sd_instances s' !! id); try done.
    split; intros _; [by apply Hk|done].
Qed.

Lemma step_advances call w : world_inv w -> advances w (step_instances call w).
Proof.
  intros Hw. destruct call as [io op]. unfold step_instances. cbn [fst snd]. destruct op; cbn [perform_instance ledger_entries].
  - rewrite app_nil_r. by apply inv_sync.
  - unfold IssueMonitoringInstanceEnrollmentToken. destruct (si_id io "enroll" 0) as [token|]; [|by apply advances_refl_nil].
    apply instance_tx_inv; [done|]. intros. by apply inv_issue with (io := io).
  - unfold handle_enroll. destruct (isValidEnrollmentRequest request) eqn:Ev; cbn [negb]; [|by apply advances_refl_nil].
    unfold EnrollMonitoringInstance, ApplyEnrollment.
    match goal with |- context [instance_tx io ?wrap (iw_db w) ?body0] =>
      pose proof (instance_tx_inv io wrap w body0 (fun out => [(en_instance out, Enrolled (er_Token request)
        (er_Fingerprint request) (en_session out) (si_db_clock io))]) Hw) as H; destruct (instance_tx io wrap (iw_db w) body0) end.
    apply H. intros. apply inv_enroll; [done|by apply valid_enrollment_fingerprint|done].
  - apply instance_tx_inv; [done|]. intros. by eapply inv_confirm.
  - apply instance_tx_inv; [done|]. intros. by eapply inv_reject.
  - apply instance_tx_inv; [done|]. intros. by eapply inv_reset.
  - unfold retire_instance. destruct (is_retired id (iw_db w)) eqn:Er.
    + apply instance_tx_quiet; [done|]. intros db' a H. ok_step H. apply retired_same in H as ->; [by apply advances_refl|done].
    + apply instance_tx_inv; [done|]. intros db' a H. ok_step H. by eapply inv_retire.
  - apply instance_tx_quiet; [done|]. intros db' a H%control_keeps. by apply inv_keeps.
  - apply instance_tx_quiet; [done|]. intros db' a H%metadata_keeps. by apply inv_keeps.
  - apply instance_tx_quiet; [done|]. intros db' a H%queue_keeps. by apply inv_keeps.
  - apply instance_tx_quiet; [done|]. intros db' a H. do 3 ok_step H. injection H as <- _.
    apply inv_keeps; [done|]. by eapply insert_audit_keeps, map_error_ok.
  - unfold CreateLinkedMonitoringInstance. destruct (strings_TrimSpace vpsID =s ""); [by apply advances_refl_nil|].
    apply instance_tx_quiet; [done|]. intros db' a (id & Hn & Hm)%create_moves. by eapply inv_create.
  - rewrite app_nil_r. apply inv_same; [done..|apply Hw|]. by eapply replay_wf_same; [| |apply Hw].
Qed.

Lemma start_inv : world_inv (start_instances (body := body)).
Proof.
  split; cbn.
  - intros id. unfold instances_of. cbn. rewrite !lookup_empty. done.
  - intros id s. unfold sessions_of. cbn. by rewrite lookup_empty.
  - split; cbn; [intros s row|intros s n d]; by rewrite lookup_empty.
  - intros id. exists empty_book. split; [done|]. split; [done|]. intros s f. split; [done|].
    unfold session_view, sessions_of. cbn. rewrite fmap_empty. by intros [t [=]].
Qed.

Lemma run_advances calls w : world_inv w -> advances w (run_instances calls w).
Proof.
  revert w. induction calls as [|call calls IH]; intros w Hw.
  { split; [done|done|]. exists []. by rewrite app_nil_r. }
  destruct (step_advances call w Hw) as [Hi Hs [l El]]. destruct (IH _ Hi) as [Hi' Hs' [l' El']].
  split; [done|by etransitivity|]. exists (l ++ l'). cbn [run_instances foldl] in *. unfold run_instances in *. by rewrite El', El, app_assoc.
Qed.

Lemma reachable_inv calls : world_inv (run_instances calls (start_instances (body := body))).
Proof. apply run_advances, start_inv. Qed.
End Invariant.
