(* ===== verification/EnrollmentClaims.v ===== *)
(** What follows for the binding of machines: the tables refine the ledger of decisions, facts come from the bound
    machine, a token enrolls once, a demoted session stays so, only the operator moves a binding, and an agent
    that enrolled is admitted. *)
From stdpp Require Import base list strings gmap.
From Stdlib Require Import ZArith Lia.
From S2P Require Import Prelude GoRuntime AgentApi Wire IncidentTypes EventPayload IncidentStore Postgres CaseMaps Notification ObservationStore AgentPlan SyncProtocol SyncStore SyncStoreProps Subscriptions.
From S2P Require Import Instances Enrollment InstanceControl SyncHandler EnrollHandler EnrollmentLedger EnrollmentRuns EnrollmentProps EnrollmentInv.

Local Open Scope Z_scope.
#[local] Set Warnings "-clear-no-such-hyp".

Section Claims.
Context {body : Type} `{Env : @SyncEnv body} `{Tokens : EnrollEnv}.
Implicit Types (db : instance_db body) (io : sync_io).

#[local] Abbreviation after calls := (run_instances calls (start_instances (body := body))).

(** * The ledger *)

(** C5: whatever operations, syncs and failures came before, the decisions about an instance that took effect
    replay as a ledger: every enrollment found a live token, every confirmation a machine that waits; and its row
    and the one session with full capability are what the ledger says. *)
Theorem binding_refines_ledger calls id :
  exists b, instance_book id (iw_ledger (after calls)) = Some b /\
    row_shown b (instance_view id (iw_db (after calls))) /\ sessions_shown id b (iw_db (after calls)).
Proof. destruct (wi_books _ (reachable_inv calls) id) as (b & Eb & Hr & Hs). by exists b. Qed.

Lemma events_of_elem id e l : e ∈ events_of id l -> (id, e) ∈ l.
Proof.
  unfold events_of. intros ([k e'] & Hin & H)%list_elem_of_omap. cbn in H.
  destruct (String.eqb_spec k id) as [->|]; [|done]. by injection H as ->.
Qed.

(** The session of a batch that is recorded is the collector of its instance. *)
Lemma recorded_collects io batch w r s' :
  world_inv w -> applyBatch io batch (nd_sync (iw_db w)) = (Ok r, s') -> re_Disposition r = ResultDispositionRecorded ->
  exists row s, read_row (ba_MonitoringInstanceID batch) (iw_db w) = Some row /\ in_binding_status row.1 = BindingBound /\
    sessions_of (iw_db w) !! ba_SessionID batch = Some s /\ se_monitoring_instance_id s = ba_MonitoringInstanceID batch /\
    se_capability s = CapabilityFull /\ from_machine batch (se_fingerprint_hash s).
Proof.
  intros Hw Hcall Hrec. destruct (recorded_open _ _ _ _ _ (wi_replay _ Hw) Hcall Hrec)
    as (state & i & s & v & [E1 E2 E3 E4 E5 E6 E7 ->] & Hsup & Hm & _).
  destruct (proj1 (wi_keys _ Hw (ba_MonitoringInstanceID batch))) as [c Ec]; [by eexists|].
  unfold SuppressWritesAndPlan in Hsup. cbn in Hsup. breflect.
  destruct (String.eqb_spec (in_binding_status i) BindingBound); cbn [negb] in *; [|done].
  exists (i, c), s. split; [by apply read_row_some|]. split_and!; try done.
  by destruct (wi_capabilities _ Hw _ _ E2) as [|].
Qed.

(** C6: a batch is recorded only for an instance that is bound, by the machine it is bound to, over the session
    that an enrollment of that machine with a token opened; no other session of the instance may collect. *)
Theorem facts_from_bound_machine calls io batch r s'
    (Hcall : applyBatch io batch (nd_sync (iw_db (after calls))) = (Ok r, s'))
    (Hrec : re_Disposition r = ResultDispositionRecorded) :
  let id := ba_MonitoringInstanceID batch in
  exists row token at_, read_row id (iw_db (after calls)) = Some row /\ in_binding_status row.1 = BindingBound /\
    from_machine batch (bn_Fingerprint (ic_binding row.2)) /\
    (id, Enrolled token (bn_Fingerprint (ic_binding row.2)) (ba_SessionID batch) at_) ∈ iw_ledger (after calls) /\
    forall k s, sessions_of (iw_db (after calls)) !! k = Some s -> se_monitoring_instance_id s = id ->
      se_capability s = CapabilityFull -> k = ba_SessionID batch.
Proof.
  cbn zeta. pose proof (reachable_inv calls) as Hw. revert Hw Hcall. generalize (after calls). intros w Hw Hcall.
  destruct (recorded_collects _ _ _ _ _ Hw Hcall Hrec) as (row & s & Hr & Hb & Hs & Ho & Hc & Hm).
  destruct (wi_books _ Hw (ba_MonitoringInstanceID batch)) as (b & Eb & Hrow & Hses).
  assert (forall k s, sessions_of (iw_db w) !! k = Some s -> se_monitoring_instance_id s = ba_MonitoringInstanceID batch ->
    se_capability s = CapabilityFull -> bk_collector b = Some (k, se_fingerprint_hash s)) as Hcol.
  { intros k s0 Hk Ho0 Hc0. apply Hses. exists (se_token_hash s0). unfold session_view. rewrite lookup_fmap, Hk. cbn.
    unfold session_authority. by rewrite Ho0, Hc0. }
  pose proof (Hcol _ _ Hs Ho Hc) as Hcs. destruct (collector_bound _ _ _ Eb _ _ Hcs) as (Hbd & token & at_ & Hin).
  unfold instance_view in Hrow. rewrite Hr in Hrow. destruct Hrow as [Hbs _]. rewrite Hb in Hbs.
  destruct (bk_binding b) as [|f|f p]; [by destruct Hbs| |by destruct Hbs]. injection Hbd as ->. destruct Hbs as (_ & Hf & _).
  exists row, token, at_. rewrite Hf. split_and!; [done..|by apply events_of_elem|]. intros k s0 Hk Ho0 Hc0. specialize (Hcol _ _ Hk Ho0 Hc0). congruence.
Qed.

(** C12: an enrollment that took effect spent the last token issued for its instance, at most half an hour old, whose
    hash the presented token has; between the two nothing was issued, enrolled or retired. *)
Theorem token_enrolls_once calls id earlier token fingerprint session at_ later
    (Hledger : events_of id (iw_ledger (after calls)) = earlier ++ Enrolled token fingerprint session at_ :: later) :
  exists before hash issued between, earlier = before ++ Issued hash issued :: between /\
    Forall (fun e => settles_token e = false) between /\
    (hash = hashEnrollmentToken token \/ hash = hashOpaqueToken token) /\ at_ - 30 * Minute <= issued.
Proof.
  destruct (wi_books _ (reachable_inv calls) id) as (b & Eb & _).
  destruct (enrollment_spends _ _ _ _ _ _ _ _ _ Eb Hledger) as (before & hash & issued & between & E & Hb & Ho & Ht).
  exists before, hash, issued, between. split; [done|]. split; [done|]. split; [|done].
  unfold token_opens in Ho. apply orb_true_iff in Ho as [Ho|Ho]; apply String.eqb_eq in Ho; auto.
Qed.

Lemma run_app calls calls' w : run_instances (calls ++ calls') w = run_instances calls' (run_instances calls w).
Proof. apply foldl_app. Qed.

(** C7: once a session gives evidence only, because another enrollment took over, the binding was confirmed or reset or
    the instance retired, no later batch of that session is recorded, whatever happens in between. *)
Theorem demotion_is_final calls calls' session s io batch r s'
    (Hdemoted : sessions_of (iw_db (after calls)) !! session = Some s) (Hcap : se_capability s = CapabilityEvidenceOnly)
    (Hbatch : ba_SessionID batch = session)
    (Hcall : applyBatch io batch (nd_sync (iw_db (after (calls ++ calls')))) = (Ok r, s')) :
  re_Disposition r <> ResultDispositionRecorded.
Proof.
  intros Hrec. pose proof (reachable_inv (calls ++ calls')) as Hw.
  destruct (recorded_collects _ _ _ _ _ Hw Hcall Hrec) as (_ & s1 & _ & _ & Hs1 & _ & Hfull & _).
  pose proof (ad_sessions _ _ (run_advances calls' _ (reachable_inv calls))) as Hstay. rewrite <- run_app in Hstay.
  destruct (Hstay session (se_monitoring_instance_id s) (se_fingerprint_hash s) (se_token_hash s) (se_capability s)) as (c & Ec & Hc).
  { unfold session_view. rewrite lookup_fmap, Hdemoted. done. }
  unfold session_view in Ec. rewrite lookup_fmap, <- Hbatch, Hs1 in Ec. injection Ec as _ _ _ Ec.
  rewrite Hcap in Hc. specialize (Hc ltac:(done)).
  by assert (CapabilityFull = CapabilityEvidenceOnly) by congruence.
Qed.

(** C13: while the operator neither confirms another machine nor resets the binding, an instance stays bound to the
    same machine, through enrollments with valid tokens, rejections, retirement and every other operation. *)
Theorem rebind_needs_operator calls calls' id row
    (Hrow : read_row id (iw_db (after calls)) = Some row) (Hbound : bn_Fingerprint (ic_binding row.2) <> "")
    (Hquiet : forall e, (id, e) ∈ drop (length (iw_ledger (after calls))) (iw_ledger (after (calls ++ calls'))) ->
                moves_binding e = false) :
  exists row', read_row id (iw_db (after (calls ++ calls'))) = Some row' /\
    bn_Fingerprint (ic_binding row'.2) = bn_Fingerprint (ic_binding row.2).
Proof.
  pose proof (reachable_inv calls) as Hw. pose proof (run_advances calls' _ Hw) as [Hw' _ [l El]]. rewrite <- run_app in *.
  rewrite El, drop_app_length in Hquiet. destruct (wi_books _ Hw id) as (b & Eb & Hr & _).
  destruct (wi_books _ Hw' id) as (b' & Eb' & Hr' & _). rewrite El in Eb'. unfold instance_book in *.
  rewrite events_of_app, replay_app, Eb in Eb'.
  assert (bound_to (bk_binding b) = Some (bn_Fingerprint (ic_binding row.2))) as Hb.
  { unfold instance_view in Hr. rewrite Hrow in Hr. destruct Hr as [Hb _].
    destruct (bk_binding b); cbn in *; destruct_and!; subst; done. }
  eapply bound_stays in Eb'; [|apply Forall_forall; intros e He; by apply Hquiet, events_of_elem|exact Hb].
  unfold instance_view in Hr'. destruct (read_row id (iw_db (after (calls ++ calls')))) as [row'|]; cbn in Hr'; [|by subst b'].
  exists row'. split; [done|]. destruct Hr' as [Hb' _]. destruct (bk_binding b'); cbn in *; destruct_and!; congruence.
Qed.

(** * Admission *)

Lemma plain_trimmed s :
  Forall (fun a => 33 <= Ascii.nat_of_ascii a < 128)%nat (String.list_ascii_of_string s) -> strings_TrimSpace s = s.
Proof.
  assert (forall s1 s2 s3 l, (forall a, (33 <= Ascii.nat_of_ascii a < 128)%nat -> s1 a = false) ->
    (forall a b, (33 <= Ascii.nat_of_ascii a < 128)%nat -> (33 <= Ascii.nat_of_ascii b < 128)%nat -> s2 a b = false) ->
    (forall a b c, (33 <= Ascii.nat_of_ascii a < 128)%nat -> (33 <= Ascii.nat_of_ascii c < 128)%nat -> s3 a b c = false) ->
    Forall (fun a => 33 <= Ascii.nat_of_ascii a < 128)%nat l -> no_space_prefix s1 s2 s3 l) as Hno.
  { intros s1 s2 s3 l H1 H2 H3 Hl. destruct l as [|a [|b [|c l]]]; cbn; [done|..];
      repeat match goal with H : Forall _ (_ :: _) |- _ => apply Forall_cons in H as [? H] end; repeat split; auto. }
  assert (forall a, (33 <= Ascii.nat_of_ascii a < 128)%nat -> space1 a = false) as S1.
  { intros a Ha. destruct (space1 a) eqn:E; [|done]. apply space1_range in E. lia. }
  assert (forall a b, (33 <= Ascii.nat_of_ascii a < 128)%nat -> space2 a b = false) as S2.
  { intros a b Ha. destruct (space2 a b) eqn:E; [|done]. apply space2_range in E. lia. }
  assert (forall a b c, (33 <= Ascii.nat_of_ascii a < 128)%nat -> space3 a b c = false) as S3.
  { intros a b c Ha. destruct (space3 a b c) eqn:E; [|done]. apply space3_range in E. lia. }
  intros Hs. apply trimmed_id; apply Hno; auto. by apply Forall_rev.
Qed.

(** What HMAC-SHA-256 in hexadecimal looks like. *)
Definition hex_digest (s : string) : Prop :=
  String.length s = 64%nat /\ forallb hex_byte (String.list_ascii_of_string s) = true.

Lemma after_prefix_app prefix s : after_prefix prefix (prefix +:+ s) = Some s.
Proof.
  induction prefix as [|a prefix IH]; [done|]. change (String a prefix +:+ s) with (String a (prefix +:+ s)).
  cbn. by rewrite bool_decide_eq_true_2.
Qed.

Lemma hashSyncToken_hmac token : hex_digest (hmac_sync_token token) -> isHMACAgentTokenHash (hashSyncToken token) = true.
Proof.
  intros [Hl Hh]. unfold isHMACAgentTokenHash, hashSyncToken. rewrite plain_trimmed.
  - rewrite after_prefix_app, Hl. done.
  - rewrite list_ascii_app. apply Forall_app. split; [apply (bool_decide_unpack _); by vm_compute|].
    apply Forall_forall. intros a Ha%list_elem_of_In. rewrite forallb_forall in Hh. specialize (Hh a Ha).
    unfold hex_byte in Hh. rewrite !orb_true_iff, !andb_true_iff, !Nat.leb_le in Hh. lia.
Qed.

Lemma before_dot_app s t :
  Forall (fun a => a <> Ascii.ascii_of_nat 46) (String.list_ascii_of_string s) -> before_dot (s +:+ "." +:+ t) = s.
Proof.
  induction s as [|a s IH]; [done|]. cbn [String.list_ascii_of_string]. intros [Ha Hs]%Forall_cons.
  change (String a s +:+ "." +:+ t) with (String a (s +:+ "." +:+ t)). cbn [before_dot].
  destruct (Ascii.eqb_spec a (Ascii.ascii_of_nat 46)); [done|]. f_equal. by apply IH.
Qed.

(** The rows an enrollment that opened a session left. *)
Lemma enroll_rows io token fingerprint db db' out :
  enroll_tx io token fingerprint db = Ok (db', out) -> en_session out <> "" ->
  (exists secret, si_id io "mas" 0 = Ok (en_session out) /\ en_token out = en_session out +:+ "." +:+ secret) /\
  mr_MonitoringInstanceID (en_record out) = en_instance out /\
  (exists i v, instances_of db' !! en_instance out = Some i /\ in_binding_status i = BindingBound /\
    sd_vps (nd_sync db') !! in_vps_id i = Some v) /\
  (exists s, sessions_of db' !! en_session out = Some s /\
    session_authority s = (en_instance out, fingerprint, hashSyncToken (en_token out), CapabilityFull)).
Proof.
  unfold enroll_tx. intros H. do 3 ok_step H. destruct (find_enrollable io token db) as [[id row]|] eqn:Hf; [|done].
  destruct (resolveEnrollmentBindingTransition _ _ _ _) as [status next]. ok_step H. destruct x2 as [session secret].
  do 2 ok_step H. rename x3 into row'. ok_step H. apply map_error_ok in Hok4. unfold enrolled_row in Hok4. ok_step Hok4.
  injection Hok4 as <-. set (row1 := (with_binding_status _ _, _)) in H, Hok5.
  apply map_error_ok in Hok5. pose proof (scan_ok _ _ _ _ _ Hok5) as [Hid _].
  destruct (String.eqb_spec session "") as [->|Hne]; [by injection H as <- <-|]. do 3 ok_step H. injection H as <- <-.
  intros _. cbn [en_session en_token en_instance en_record]. unfold new_session in Hok2.
  destruct (String.eqb_spec status BindingBound) as [->|]; [|by injection Hok2 as <- <-].
  destruct (si_id io "mas" 0) as [mas|]; [|done]. destruct (si_id io "sync" 0) as [key|]; [|done]. injection Hok2 as -> <-.
  apply map_error_ok in Hok8. unfold insert_session in Hok8. do 4 ok_step Hok8. injection Hok8 as <-.
  split; [by eexists|]. split; [done|]. split; [|eexists; cbn; split; [apply lookup_insert_eq|done]].
  unfold scanMonitoringInstance, vps_lifecycle in Hok5. ok_step Hok5. cbn in Hok8.
  destruct (sd_vps (nd_sync db) !! in_vps_id row.1) as [v|] eqn:Ev; [|done].
  exists row1.1, v. cbn. split; [apply lookup_insert_eq|]. by split.
Qed.

Lemma enroll_token_session io token fingerprint db db' out :
  enroll_tx io token fingerprint db = Ok (db', out) -> en_token out <> "" -> si_id io "mas" 0 = Ok (en_session out).
Proof.
  unfold enroll_tx. intros H. do 3 ok_step H. destruct (find_enrollable io token db) as [[id row]|]; [|done].
  destruct (resolveEnrollmentBindingTransition _ _ _ _) as [status next]. ok_step H. destruct x2 as [session secret].
  do 3 ok_step H. assert (en_token out = secret /\ en_session out = session) as [-> ->].
  { destruct (session =s ""); [by injection H as _ <-|]. do 3 ok_step H. by injection H as _ <-. }
  unfold new_session in Hok2. destruct (status =s BindingBound); [|by injection Hok2 as <- <-].
  destruct (si_id io "mas" 0); [|done]. destruct (si_id io "sync" 0); [|done]. by injection Hok2 as -> _.
Qed.

(** C14: an agent whose enrollment was answered with full capability is admitted with it: a request with the
    session, instance and token of the answer and facts of the machine that enrolled passes the check of the
    sync path. *)
Theorem enrolled_agent_admitted io r db db' response f batch
    (Henroll : handle_enroll io r db = (db', EnrollAccepted response)) (Hfull : ep_Capability response = CapabilityFull)
    (Hmac : forall token, hex_digest (hmac_sync_token token))
    (Hids : forall s, si_id io "mas" 0 = Ok s -> s <> "" /\ Forall (fun a => a <> Ascii.ascii_of_nat 46) (String.list_ascii_of_string s))
    (Hfaults : forall what n, f what n = None)
    (Hsession : ba_SessionID batch = ep_SessionID response) (Hinstance : ba_MonitoringInstanceID batch = ep_MonitoringInstanceID response)
    (Htoken : ba_SyncToken batch = ep_SyncToken response)
    (Hmachine : fingerprints_match batch (er_Fingerprint r) = true) :
  exists state, validateAcceptedSyncBatch f (nd_sync db') batch = Ok state /\
    ac_Capability state = CapabilityFull /\ ac_BindingFingerprint state = er_Fingerprint r.
Proof.
  unfold handle_enroll in Henroll. destruct (negb _); [done|].
  destruct (EnrollMonitoringInstance _ _ _ _) as [db1 out] eqn:He. destruct out as [result|e]; [|by destruct (errors_Is _ e)].
  injection Henroll as <- <-. cbn in Hfull, Hsession, Hinstance, Htoken. unfold EnrollMonitoringInstance in He.
  destruct (ApplyEnrollment _ _ _ _) as [db2 out] eqn:Ha. destruct out as [out|]; [|done]. injection He as <- <-.
  cbn in Hfull, Hsession, Hinstance, Htoken. apply transaction_inv in Ha as [[_ [? ?]]|(out0 & Ha & [[_ [= ->]]|[? ?]])]; try done.
  destruct (String.eqb_spec (en_token out0) "") as [|Hne]; [done|].
  destruct (Hids _ (enroll_token_session _ _ _ _ _ _ Ha Hne)) as [Hs Hdot].
  destruct (enroll_rows _ _ _ _ _ _ Ha Hs) as ((secret & _ & Et) & Hid & (i & v & Hi & Hb & Hv) & s & Hses & Hauth).
  rewrite Et, before_dot_app in Hsession by done. rewrite Hid in Hinstance. injection Hauth as A1 A2 A3 A4. eexists.
  split; [eapply validateAcceptedSyncBatch_complete; [done|]|].
  - split; [by rewrite Hinstance|by rewrite Hsession|exact Hv|by rewrite Hinstance| | |by rewrite A2|reflexivity].
    + rewrite A3. by apply hashSyncToken_hmac.
    + by rewrite A3, Htoken.
  - cbn. by rewrite Hb, A2, A4.
Qed.
End Claims.

(** * A concrete run *)

(** A machine that enrolls and reports, another one that asks to take over and is confirmed by the operator; each
    part instantiates a theorem of EnrollmentClaims. *)

Fixpoint sixty_four (n : nat) (a : Ascii.ascii) : string :=
  match n with O => EmptyString | S n => String a (sixty_four n a) end.

(** A stand-in for the keyed hash: in hexadecimal, and different for the tokens of the example. *)
Definition sample_mac (token : string) : string := 
  sixty_four 64 (Ascii.ascii_of_nat (if token =s "mas_1.sync_1" then 97 else 98)).

#[local] Instance bind_env : @SyncEnv unit := {|
  sync_uuid_Parse := fun s => if (String.length s =? 36)%nat then Some s else None;
  hmac_sync_token := sample_mac; hashOpaqueToken := fun s => s; redact_Secrets := fun s => s;
  report_body_valid := fun _ => true |}.

#[local] Instance bind_tokens : EnrollEnv := {| hmac_enrollment_token := fun token => token |}.

Definition bind_io (n : string) (clock : Z) : sync_io := {|
  si_faults := fun _ _ => None; si_now := clock; si_db_clock := clock;
  si_id := fun prefix _ => Ok (prefix +:+ "_" +:+ n)%string; si_commit := Committed |}.

Definition bind_outside : outside_rows := {|
  ou_vps := {["v1" := {| vp_archived := false; vp_archived_at := None |}]}; ou_users := ∅; ou_items := ∅;
  ou_targets := ∅; ou_settings := None; ou_plan_targets := []; ou_plan_probes := [] |}.

Definition bind_input : InstanceCreateInput := {|
  nc_DisplayName := "edge"; nc_Group := ""; nc_Region := ""; nc_City := ""; nc_Provider := ""; nc_LifecycleStatus := LifecyclePendingEnrollment; nc_Labels := [];
  nc_Note := "" |}.

Definition bind_producer : string := "6f1c2a34-0000-4000-8000-0123456789ab".

Definition bind_batch (sequence : Z) : Batch unit := {|
  ba_ProtocolRevision := 2; ba_ProducerID := bind_producer; ba_BatchSequence := sequence; ba_AllocatedThrough := 7;
  ba_RetiredThrough := 0; ba_PayloadDigest := "d"; ba_SessionID := "mas_1"; ba_LiveSignal := None;
  ba_IPQualityCollectionRevision := 0; ba_MonitoringInstanceID := "mi_1"; ba_SyncToken := "mas_1.sync_1";
  ba_Heartbeats := [{| hbp_ObservedAt := 10; hbp_AgentVersion := "1"; hbp_Fingerprint := "fp";
                       hbp_SyncBatchID := identity_of bind_producer sequence; hbp_IsBackfilled := false |}];
  ba_HostSamples := []; ba_ProbeObservations := []; ba_IPQualityReports := []; ba_CommandResults := [] |}.

Definition enroll_as (token fingerprint : string) : instance_op (body := unit) :=
  OpEnroll {| er_Token := token; er_Fingerprint := fingerprint |}.

(** The first machine is bound. *)
Definition bind_first : list (sync_io * instance_op (body := unit)) :=
  [(bind_io "0" 1000, OpOutside bind_outside); (bind_io "1" 2000, OpCreate "v1" bind_input "");
   (bind_io "1" 3000, OpIssue "mi_1"); (bind_io "1" 4000, enroll_as "enroll_1" "fp")].

(** Another machine enrolls with a token of its own. *)
Definition bind_second : list (sync_io * instance_op (body := unit)) :=
  [(bind_io "2" 5000, OpSync (bind_batch 1)); (bind_io "2" 6000, OpIssue "mi_1"); (bind_io "2" 7000, enroll_as "enroll_2" "other")].

(** The operator confirms it. *)
Definition bind_third : list (sync_io * instance_op (body := unit)) := [(bind_io "3" 8000, OpConfirm "mi_1")].

Definition bind_world (calls : list (sync_io * instance_op (body := unit))) : instance_world := run_instances calls start_instances.

Example bind_ledger :
  events_of "mi_1" (iw_ledger (bind_world (bind_first ++ bind_second ++ bind_third))) =
  [Issued "hmac-sha256:v1:enroll_1" 3000; Enrolled "enroll_1" "fp" "mas_1" 4000;
   Issued "hmac-sha256:v1:enroll_2" 6000; Enrolled "enroll_2" "other" "" 7000; Confirmed].
Proof. vm_compute. reflexivity. Qed.

Example bind_book :
  instance_book "mi_1" (iw_ledger (bind_world (bind_first ++ bind_second ++ bind_third))) =
  Some {| bk_binding := BookBound "other"; bk_token := SpentToken; bk_collector := None |}.
Proof. vm_compute. reflexivity. Qed.

Lemma facts_from_bound_machine_witness :
  exists row, read_row "mi_1" (iw_db (bind_world bind_first)) = Some row /\
    from_machine (bind_batch 1) (bn_Fingerprint (ic_binding row.2)).
Proof.
  destruct (applyBatch (bind_io "4" 5000) (bind_batch 1) (nd_sync (iw_db (bind_world bind_first)))) as [out s'] eqn:E.
  assert (exists r, out = Ok r /\ re_Disposition r = ResultDispositionRecorded) as (r & -> & Hr).
  { apply (f_equal fst) in E. vm_compute in E. subst out. eexists. split; reflexivity. }
  destruct (facts_from_bound_machine bind_first (bind_io "4" 5000) (bind_batch 1) r s' E Hr) as (row & token & at_ & H1 & _ & H2 & _).
  exists row. split; [exact H1|exact H2].
Defined.

Lemma token_enrolls_once_witness :
  exists before hash issued between,
    [Issued "hmac-sha256:v1:enroll_1" 3000] = before ++ Issued hash issued :: between /\ 4000 - 30 * Minute <= issued.
Proof.
  destruct (token_enrolls_once (bind_first ++ bind_second ++ bind_third) "mi_1" [Issued "hmac-sha256:v1:enroll_1" 3000]
    "enroll_1" "fp" "mas_1" 4000 [Issued "hmac-sha256:v1:enroll_2" 6000; Enrolled "enroll_2" "other" "" 7000; Confirmed])
    as (before & hash & issued & between & E & _ & _ & H); [vm_compute; reflexivity|].
  exists before, hash, issued, between. split; [exact E|exact H].
Defined.

Lemma demotion_is_final_witness :
  exists r s', applyBatch (bind_io "4" 9000) (bind_batch 2)
      (nd_sync (iw_db (bind_world ((bind_first ++ bind_second ++ bind_third) ++ [])))) = (Ok r, s') /\
    re_Disposition r <> ResultDispositionRecorded.
Proof.
  destruct (applyBatch (bind_io "4" 9000) (bind_batch 2)
    (nd_sync (iw_db (bind_world ((bind_first ++ bind_second ++ bind_third) ++ []))))) as [out s'] eqn:E.
  assert (exists r, out = Ok r) as (r & ->).
  { apply (f_equal fst) in E. vm_compute in E. subst out. eexists. reflexivity. }
  exists r, s'. split; [reflexivity|].
  eapply (demotion_is_final (bind_first ++ bind_second ++ bind_third) [] "mas_1" _ (bind_io "4" 9000) (bind_batch 2) r s');
    [vm_compute; reflexivity|vm_compute; reflexivity|reflexivity|exact E].
Defined.

Lemma rebind_needs_operator_witness :
  exists row', read_row "mi_1" (iw_db (bind_world (bind_first ++ bind_second))) = Some row' /\
    bn_Fingerprint (ic_binding row'.2) = "fp".
Proof.
  destruct (read_row "mi_1" (iw_db (bind_world bind_first))) as [row|] eqn:E; [|vm_compute in E; discriminate E].
  assert (bn_Fingerprint (ic_binding row.2) = "fp") as Hf by (vm_compute in E; injection E as <-; reflexivity).
  rewrite <- Hf. apply (rebind_needs_operator bind_first bind_second "mi_1" row E); [rewrite Hf; discriminate|].
  intros e He. vm_compute in He. apply list_elem_of_In in He. destruct He as [He|[He|[]]]; injection He as <-; reflexivity.
Defined.

Lemma sample_mac_hex token : hex_digest (sample_mac token).
Proof. split; unfold sample_mac; destruct (token =s _); vm_compute; reflexivity. Qed.

Lemma enrolled_agent_admitted_witness :
  exists state, validateAcceptedSyncBatch (fun _ _ => None) (nd_sync (iw_db (bind_world bind_first))) (bind_batch 1) = Ok state /\
    ac_Capability state = CapabilityFull /\ ac_BindingFingerprint state = "fp".
Proof.
  change (bind_world bind_first) with (step_instances (bind_io "1" 4000, enroll_as "enroll_1" "fp") (bind_world (take 3 bind_first))).
  unfold step_instances. cbn [fst snd iw_db perform_instance enroll_as].
  destruct (handle_enroll (bind_io "1" 4000) {| er_Token := "enroll_1"; er_Fingerprint := "fp" |}
    (iw_db (bind_world (take 3 bind_first)))) as [db' answer] eqn:E. cbn [fst].
  pose proof (f_equal snd E) as Ea. vm_compute in Ea. subst answer.
  eapply (enrolled_agent_admitted _ _ _ _ _ (fun _ _ => None) (bind_batch 1) E);
    [reflexivity|exact sample_mac_hex| |reflexivity..].
  intros s [= <-]. split; [discriminate|]. apply (bool_decide_unpack _). vm_compute. reflexivity.
Defined.
