(* ===== verification/RecordCodec.v ===== *)
(** The byte formats of the record platform (src/internal/center/recordplatform/types.go): unpadded base64url
    as encoding/base64 reads and writes it, the transport form of a deletion request token, and the
    length-prefixed body whose digest identifies a request. *)
From stdpp Require Import base list strings.
From Stdlib Require Import ZArith Lia Ascii ZifyNat.
From S2P Require Import Prelude GoRuntime Postgres.

Local Open Scope Z_scope.

(** Arithmetic with quotients and remainders by constants. *)
Ltac divmod := zify; Z.to_euclidean_division_equations; lia.

(** * Bytes *)

Definition bytes : Type := list ascii.
Definition bytes_of (s : string) : bytes := String.list_ascii_of_string s.
Definition string_of (b : bytes) : string := String.string_of_list_ascii b.

Lemma string_of_bytes s : string_of (bytes_of s) = s.
Proof. apply String.string_of_list_ascii_of_string. Qed.
Lemma bytes_of_string b : bytes_of (string_of b) = b.
Proof. apply String.list_ascii_of_string_of_list_ascii. Qed.
Lemma bytes_of_length s : length (bytes_of s) = String.length s.
Proof. unfold bytes_of. induction s; cbn; congruence. Qed.

Lemma text_length_app s t : String.length (s +:+ t)%string = (String.length s + String.length t)%nat.
Proof.
  induction s as [|c s IH]; [done|]. change (String c s +:+ t)%string with (String c (s +:+ t)%string). cbn. by rewrite IH.
Qed.

(** A loop over the characters of a text that accepts ASCII only: a character outside ASCII, or an invalid
    byte, has no byte that [ok] accepts. *)
Definition all_bytes (ok : ascii -> bool) (s : string) : bool := forallb ok (bytes_of s).
Definition between (lo hi c : ascii) : bool := (nat_of_ascii lo <=? nat_of_ascii c)%nat && (nat_of_ascii c <=? nat_of_ascii hi)%nat.
Definition lower_letter : ascii -> bool := between "a" "z".
Definition upper_letter : ascii -> bool := between "A" "Z".
Definition digit : ascii -> bool := between "0" "9".
Definition char (c : ascii) : ascii -> bool := Ascii.eqb c.

(** The text from byte [n] on. *)
Definition from_byte (n : nat) (s : string) : string := String.substring n (String.length s - n) s.

(** * base64.RawURLEncoding *)

Definition b64_digit (n : nat) : ascii :=
  ascii_of_nat (if n <? 26 then 65 + n else if n <? 52 then 71 + n else if n <? 62 then n - 4
                else if n =? 62 then 45 else 95)%nat.

Definition b64_value (c : ascii) : option nat :=
  let n := nat_of_ascii c in
  if upper_letter c then Some (n - 65)%nat
  else if lower_letter c then Some (n - 71)%nat
  else if digit c then Some (n + 4)%nat
  else if char "-" c then Some 62%nat else if char "_" c then Some 63%nat else None.

Fixpoint b64_split (l : bytes) : list nat :=
  match l with
  | a :: b :: c :: l =>
      let '(a, b, c) := (nat_of_ascii a, nat_of_ascii b, nat_of_ascii c) in
      (a / 4 :: a mod 4 * 16 + b / 16 :: b mod 16 * 4 + c / 64 :: c mod 64 :: b64_split l)%nat
  | [a; b] =>
      let '(a, b) := (nat_of_ascii a, nat_of_ascii b) in [a / 4; a mod 4 * 16 + b / 16; b mod 16 * 4]%nat
  | [a] => let a := nat_of_ascii a in [a / 4; a mod 4 * 16]%nat
  | [] => []
  end.

Definition EncodeToString (raw : bytes) : string := string_of (b64_digit <$> b64_split raw).

(** A last group of one digit is an error; the unused bits of a last group of two or three are dropped. *)
Fixpoint b64_join (l : list nat) : option bytes :=
  match l with
  | p :: q :: r :: s :: l =>
      rest ← b64_join l;
      Some (ascii_of_nat (p * 4 + q / 16) :: ascii_of_nat (q mod 16 * 16 + r / 4) :: ascii_of_nat (r mod 4 * 64 + s) :: rest)%nat
  | [p; q; r] => Some [ascii_of_nat (p * 4 + q / 16)%nat; ascii_of_nat (q mod 16 * 16 + r / 4)%nat]
  | [p; q] => Some [ascii_of_nat (p * 4 + q / 16)%nat]
  | [_] => None
  | [] => Some []
  end.

(** Line ends are skipped. *)
Definition line_end (c : ascii) : bool := (nat_of_ascii c =? 10)%nat || (nat_of_ascii c =? 13)%nat.

Definition DecodeString (s : string) : option bytes :=
  digits ← mapM b64_value (List.filter (fun c => negb (line_end c)) (bytes_of s)); b64_join digits.

Lemma b64_value_digit n : (n < 64)%nat -> b64_value (b64_digit n) = Some n /\ line_end (b64_digit n) = false.
Proof.
  intros H. enough (forallb (fun n => bool_decide (b64_value (b64_digit n) = Some n) && negb (line_end (b64_digit n)))
    (seq 0 64) = true) as Hall.
  { rewrite forallb_forall in Hall. specialize (Hall n). rewrite in_seq in Hall.
    specialize (Hall ltac:(lia)). apply andb_true_iff in Hall as [H1 H2].
    by apply bool_decide_eq_true in H1; apply negb_true_iff in H2. }
  by vm_compute.
Qed.

(** Induction by groups of three. *)
Lemma triple_ind {A} (P : list A -> Prop) :
  P [] -> (forall a, P [a]) -> (forall a b, P [a; b]) -> (forall a b c l, P l -> P (a :: b :: c :: l)) -> forall l, P l.
Proof.
  intros H0 H1 H2 H3. fix go 1. intros [|a [|b [|c l]]]; [apply H0|apply H1|apply H2|apply H3, go].
Qed.

Lemma b64_split_small l : Forall (fun n => (n < 64)%nat) (b64_split l).
Proof.
  induction l as [|a|a b|a b c l IH] using triple_ind; cbn [b64_split]; rewrite ?Forall_cons; [done|..];
    pose proof (nat_ascii_bounded a); try pose proof (nat_ascii_bounded b); try pose proof (nat_ascii_bounded c);
    repeat split; try apply Forall_nil; try done; divmod.
Qed.

Lemma ascii_again a n : n = nat_of_ascii a -> ascii_of_nat n = a.
Proof. intros ->. apply ascii_nat_embedding. Qed.

Lemma b64_join_split l : b64_join (b64_split l) = Some l.
Proof.
  induction l as [|a|a b|a b c l IH] using triple_ind; cbn [b64_split b64_join]; [done|..];
    pose proof (nat_ascii_bounded a); try pose proof (nat_ascii_bounded b); try pose proof (nat_ascii_bounded c).
  - rewrite (ascii_again a) by divmod. done.
  - rewrite (ascii_again a), (ascii_again b) by divmod. done.
  - rewrite IH. cbn [mbind option_bind]. rewrite (ascii_again a), (ascii_again b), (ascii_again c) by divmod. done.
Qed.

Lemma decode_digits l : Forall (fun n => (n < 64)%nat) l ->
  mapM b64_value (List.filter (fun c => negb (line_end c)) (b64_digit <$> l)) = Some l.
Proof.
  induction 1 as [|n l Hn _ IH]; [done|]. destruct (b64_value_digit n Hn) as [Hv He].
  rewrite fmap_cons. cbn [List.filter]. rewrite He. cbn [negb mapM]. by rewrite Hv, IH.
Qed.

Lemma DecodeString_Encode raw : DecodeString (EncodeToString raw) = Some raw.
Proof.
  unfold DecodeString, EncodeToString. rewrite bytes_of_string, (decode_digits _ (b64_split_small raw)).
  apply b64_join_split.
Qed.

Lemma b64_split_length l : length (b64_split l) = ((length l * 4 + 2) / 3)%nat.
Proof.
  induction l as [|a|a b|a b c l IH] using triple_ind; cbn [b64_split length]; [done..|].
  rewrite IH. divmod.
Qed.

Lemma EncodeToString_length raw : String.length (EncodeToString raw) = ((length raw * 4 + 2) / 3)%nat.
Proof.
  unfold EncodeToString. rewrite <- bytes_of_length, bytes_of_string, length_fmap. apply b64_split_length.
Qed.

(** * Deletion request tokens *)

Definition ErrInvalidRecordPlatformInput : error := ErrSentinel "invalid record platform input".
Definition ErrInvalidDeletionRequestToken : error := ErrSentinel "invalid deletion request token".
Definition ErrInvalidRequestFingerprint : error := ErrSentinel "invalid request fingerprint".

Definition deletionRequestTokenV1Prefix : string := "drt1_".
Definition deletionRequestTokenV1RawLength : nat := 32.
Definition deletionRequestTokenV1Domain : string := "houfeng-deletion-request-token-v1".
Definition ProjectIDDefault : string := "default".

(** base64.RawURLEncoding.EncodedLen. *)
Definition EncodedLen (n : nat) : nat := n / 3 * 4 + (n mod 3 * 8 + 5) / 6.

(** A parsed token is its bytes only; an issued one also says that it comes from the random source. *)
Record IssuedDeletionRequestTokenV1 := { dt_raw : bytes; dt_issued : bool }.

Definition invalidDeletionRequestToken : error := ErrWrap "%w: transport" [] [ErrInvalidDeletionRequestToken].
Definition invalidRequestFingerprint : error := ErrWrap "%w: body" [] [ErrInvalidRequestFingerprint].

(** [random] is the answer of crypto/rand. *)
Definition NewIssuedDeletionRequestTokenV1 (random : result bytes) : result IssuedDeletionRequestTokenV1 :=
  match random with
  | Ok raw => Ok {| dt_raw := raw; dt_issued := true |}
  | Err e => Err (ErrWrap "generate deletion request token: %w" [] [e])
  end.

Definition token_Transport (raw : bytes) : string := (deletionRequestTokenV1Prefix +:+ EncodeToString raw)%string.

Definition decodeDeletionRequestTokenV1Transport (transport : string) : option bytes :=
  if negb (String.length transport =? String.length deletionRequestTokenV1Prefix + EncodedLen deletionRequestTokenV1RawLength)%nat
     || negb (String.prefix deletionRequestTokenV1Prefix transport) then None
  else
    let payload := from_byte (String.length deletionRequestTokenV1Prefix) transport in
    match DecodeString payload with
    | None => None
    | Some decoded =>
        if negb (length decoded =? deletionRequestTokenV1RawLength)%nat || (EncodeToString decoded <>s payload) then None
        else Some decoded
    end.

Definition ParseDeletionRequestTokenTransportV1 (transport : string) : result bytes :=
  match decodeDeletionRequestTokenV1Transport transport with
  | Some raw => Ok raw
  | None => Err invalidDeletionRequestToken
  end.

(** Whether some part of a text decodes to as many bytes as a token has. *)
Definition isDeletionRequestTokenTransportEncoding (value : string) : bool :=
  let prefix := String.length deletionRequestTokenV1Prefix in
  let transportLength := (prefix + EncodedLen deletionRequestTokenV1RawLength)%nat in
  if (String.length value <? transportLength)%nat then false
  else existsb (fun start =>
    (String.substring start prefix value =s deletionRequestTokenV1Prefix) &&
    match DecodeString (String.substring (start + prefix) (transportLength - prefix) value) with
    | Some decoded => (length decoded =? deletionRequestTokenV1RawLength)%nat
    | None => false
    end) (seq 0 (String.length value - transportLength + 1)).

Definition ValidateProjectID (projectID : string) : result unit :=
  reject (projectID <>s ProjectIDDefault) (ErrWrap "%w: project id" [] [ErrInvalidRecordPlatformInput]).

Definition ValidateDeploymentID (value : string) : result unit :=
  reject (negb (String.length value =? 67)%nat || (String.substring 0 3 value <>s "dp-")
          || negb (all_bytes (fun c => digit c || between "a" "f" c) (from_byte 3 value)))
    (ErrWrap "%w: deployment id" [] [ErrInvalidRecordPlatformInput]).

Section Hashes.
(** crypto/sha256.Sum256. *)
Context (Sum256 : bytes -> bytes).

Definition zero_byte : ascii := ascii_of_nat 0.

Definition deletionRequestTokenCommitmentV1 (raw : bytes) (deploymentID projectID : string) : result bytes :=
  _ ← ValidateDeploymentID deploymentID;
  _ ← ValidateProjectID projectID;
  Ok (Sum256 (bytes_of deletionRequestTokenV1Domain ++ [zero_byte] ++ bytes_of deploymentID ++ [zero_byte]
              ++ bytes_of projectID ++ [zero_byte] ++ raw)).

Definition Commitment (token : IssuedDeletionRequestTokenV1) (deploymentID projectID : string) : result bytes :=
  if negb (dt_issued token) then Err invalidDeletionRequestToken
  else deletionRequestTokenCommitmentV1 (dt_raw token) deploymentID projectID.

Definition MatchesCommitment (raw : bytes) (deploymentID projectID : string) (expected : bytes) : bool :=
  match deletionRequestTokenCommitmentV1 raw deploymentID projectID with
  | Err _ => false
  | Ok commitment => bool_decide (commitment = expected)
  end.
End Hashes.

Lemma substring_all s : String.substring 0 (String.length s) s = s.
Proof. induction s as [|c s IH]; cbn; [done|]. by rewrite IH. Qed.

Lemma prefix_from_byte p s : String.prefix p s = true -> (p +:+ from_byte (String.length p) s)%string = s.
Proof.
  unfold from_byte. revert s. induction p as [|c p IH]; intros s.
  - intros _. cbn [String.length]. rewrite Nat.sub_0_r. apply substring_all.
  - destruct s as [|d s]; cbn; [done|]. destruct (ascii_dec c d) as [->|]; [|done]. intros H.
    change ((String d p +:+ ?x)%string) with (String d (p +:+ x)%string). f_equal. by apply IH.
Qed.

Lemma from_byte_app p t : from_byte (String.length p) (p +:+ t)%string = t /\ String.prefix p (p +:+ t)%string = true.
Proof.
  assert (String.prefix p (p +:+ t)%string = true) as H.
  { induction p as [|c p IH]; [by destruct t|]. change (String c p +:+ t)%string with (String c (p +:+ t)%string).
    cbn. by destruct (ascii_dec c c). }
  split; [|done]. apply prefix_from_byte in H. by apply (inj (String.app p)) in H.
Qed.

(** One token has one transport form: writing a token and parsing it gives it back, and a text that parses is
    the form of what it parses to. *)
Lemma token_transport_exact raw transport : length raw = deletionRequestTokenV1RawLength ->
  ParseDeletionRequestTokenTransportV1 transport = Ok raw <-> token_Transport raw = transport.
Proof.
  intros Hraw. unfold ParseDeletionRequestTokenTransportV1, decodeDeletionRequestTokenV1Transport, token_Transport.
  split.
  - destruct (_ || _) eqn:E; [done|]. breflect. destruct (DecodeString _) as [decoded|]; [|done].
    destruct (_ || _) eqn:E; [done|]. breflect. intros [= ->].
    match goal with H : EncodeToString _ = _ |- _ => rewrite H end. by apply prefix_from_byte.
  - intros <-. destruct (from_byte_app deletionRequestTokenV1Prefix (EncodeToString raw)) as [-> ->].
    rewrite text_length_app, EncodeToString_length, Hraw. change (negb _ || negb true) with false. cbn iota.
    rewrite DecodeString_Encode, Hraw, String.eqb_refl. done.
Qed.

(** * Request fingerprints *)

Definition RequestFingerprintVersionV1 : Z := 1.

Definition operation_kinds : list string :=
  ["record_create"; "record_update"; "record_delete"; "record_permanent_delete"; "deletion_preview"; "deletion_fence";
   "record_action_create"; "record_action_update"; "record_action_complete"; "record_action_cancel";
   "record_action_reopen"; "record_comment_create"; "record_comment_edit"; "record_comment_redact";
   "record_watch_preference"]%string.

Definition ValidateOperationKind (operationKind : string) : result unit :=
  reject (negb (existsb (String.eqb operationKind) operation_kinds))
    (ErrWrap "%w: operation kind" [] [ErrInvalidRecordPlatformInput]).

(** The digests are [32]byte. *)
Record RequestFingerprintInputV1 := {
  fi_Version : Z;
  fi_OperationKind : string;
  fi_ProjectID : string;
  fi_ActorScopeDigest : bytes;
  fi_RequestScopeDigest : bytes;
  fi_PayloadDigest : bytes;
}.

Definition input_validate (input : RequestFingerprintInputV1) : result unit :=
  if negb (fi_Version input =? RequestFingerprintVersionV1)
  then Err (ErrWrap "%w: request fingerprint version" [] [ErrInvalidRecordPlatformInput])
  else _ ← ValidateOperationKind (fi_OperationKind input); ValidateProjectID (fi_ProjectID input).

Definition byte_value (c : ascii) : Z := Z.of_nat (nat_of_ascii c).
Definition to_byte (z : Z) : ascii := ascii_of_nat (Z.to_nat (z mod 256)).

(** binary.BigEndian. *)
Definition PutUint32 (z : Z) : bytes := [to_byte (z / 2 ^ 24); to_byte (z / 2 ^ 16); to_byte (z / 2 ^ 8); to_byte z].
Definition Uint32 (a b c d : ascii) : Z := byte_value a * 2 ^ 24 + byte_value b * 2 ^ 16 + byte_value c * 2 ^ 8 + byte_value d.

Definition appendRecordPlatformLengthPrefixed (body field : bytes) : bytes :=
  body ++ PutUint32 (Z.of_nat (length field) mod 2 ^ 32) ++ field.

Definition MarshalBinary (input : RequestFingerprintInputV1) : result bytes :=
  _ ← input_validate input;
  Ok (foldl appendRecordPlatformLengthPrefixed [to_byte (fi_Version input)]
        [bytes_of (fi_OperationKind input); bytes_of (fi_ProjectID input); fi_ActorScopeDigest input;
         fi_RequestScopeDigest input; fi_PayloadDigest input]).

(** The reader: the bytes from its offset on. *)
Definition reader_field (body : bytes) : result (bytes * bytes) :=
  match body with
  | a :: b :: c :: d :: rest =>
      let length_ := Uint32 a b c d in
      if Z.of_nat (length rest) <? length_ then Err invalidRequestFingerprint
      else Ok (take (Z.to_nat length_) rest, drop (Z.to_nat length_) rest)
  | _ => Err invalidRequestFingerprint
  end.

Definition reader_digest (body : bytes) : result (bytes * bytes) :=
  match reader_field body with
  | Ok (field, rest) => if negb (length field =? 32)%nat then Err invalidRequestFingerprint else Ok (field, rest)
  | Err _ => Err invalidRequestFingerprint
  end.

Definition reader_done (body : bytes) : result unit :=
  match body with [] => Ok tt | _ => Err invalidRequestFingerprint end.

Definition ParseRequestFingerprintInputV1 (body : bytes) : result RequestFingerprintInputV1 :=
  '(version, r) ← match body with v :: r => Ok (byte_value v, r) | [] => Err invalidRequestFingerprint end;
  '(operationKind, r) ← reader_field r;
  '(projectID, r) ← reader_field r;
  '(actorScopeDigest, r) ← reader_digest r;
  '(requestScopeDigest, r) ← reader_digest r;
  '(payloadDigest, r) ← reader_digest r;
  _ ← reader_done r;
  let input := {| fi_Version := version; fi_OperationKind := string_of operationKind; fi_ProjectID := string_of projectID;
                  fi_ActorScopeDigest := actorScopeDigest; fi_RequestScopeDigest := requestScopeDigest;
                  fi_PayloadDigest := payloadDigest |} in
  match MarshalBinary input with
  | Ok canonical => if negb (bool_decide (canonical = body)) then Err invalidRequestFingerprint else Ok input
  | Err _ => Err invalidRequestFingerprint
  end.

(** A digest that may be written, and one read back from the tables: only the first can claim or complete. *)
Record RequestFingerprintV1 := { rf_digest : bytes; rf_sealed : bool }.
Record PersistedRequestFingerprintV1 := { pf_digest : bytes; pf_trusted : bool }.

Definition newSealedRequestFingerprintV1 (digest : bytes) : RequestFingerprintV1 := {| rf_digest := digest; rf_sealed := true |}.
Definition newSealedPersistedRequestFingerprintV1 (digest : bytes) : PersistedRequestFingerprintV1 :=
  {| pf_digest := digest; pf_trusted := true |}.

Definition FingerprintRequestV1 (Sum256 : bytes -> bytes) (input : RequestFingerprintInputV1) : result RequestFingerprintV1 :=
  body ← MarshalBinary input; Ok (newSealedRequestFingerprintV1 (Sum256 body)).

Definition ParseTrustedPersistedRequestFingerprintV1 (raw : bytes) : result PersistedRequestFingerprintV1 :=
  if negb (length raw =? 32)%nat then Err invalidRequestFingerprint else Ok (newSealedPersistedRequestFingerprintV1 raw).

Definition RequestFingerprint_Validate (f : RequestFingerprintV1) : result unit :=
  reject (negb (rf_sealed f)) invalidRequestFingerprint.
Definition PersistedRequestFingerprint_Validate (f : PersistedRequestFingerprintV1) : result unit :=
  reject (negb (pf_trusted f)) invalidRequestFingerprint.
Definition RequestFingerprint_Equal (f other : RequestFingerprintV1) : bool :=
  rf_sealed f && rf_sealed other && bool_decide (rf_digest f = rf_digest other).
Definition PersistedBytes (f : RequestFingerprintV1) : result bytes :=
  _ ← RequestFingerprint_Validate f; Ok (rf_digest f).
Definition requestFingerprintV1MatchesPersisted (request : RequestFingerprintV1) (persisted : PersistedRequestFingerprintV1)
    : bool := rf_sealed request && pf_trusted persisted && bool_decide (rf_digest request = pf_digest persisted).

(** ** The body determines the request *)

Definition sized (input : RequestFingerprintInputV1) : Prop :=
  length (fi_ActorScopeDigest input) = 32%nat /\ length (fi_RequestScopeDigest input) = 32%nat /\
  length (fi_PayloadDigest input) = 32%nat.

Lemma byte_value_to_byte z : byte_value (to_byte z) = z mod 256.
Proof.
  unfold byte_value, to_byte. pose proof (Z.mod_pos_bound z 256 ltac:(lia)).
  rewrite nat_ascii_embedding by lia. lia.
Qed.

Lemma Uint32_Put z : 0 <= z < 2 ^ 32 ->
  Uint32 (to_byte (z / 2 ^ 24)) (to_byte (z / 2 ^ 16)) (to_byte (z / 2 ^ 8)) (to_byte z) = z.
Proof. intros H. unfold Uint32. rewrite !byte_value_to_byte. divmod. Qed.

Lemma reader_field_app (field rest : bytes) : Z.of_nat (length field) < 2 ^ 32 ->
  reader_field (PutUint32 (Z.of_nat (length field) mod 2 ^ 32) ++ field ++ rest) = Ok (field, rest).
Proof.
  intros H. rewrite Z.mod_small by lia. unfold PutUint32. cbn [app reader_field]. rewrite Uint32_Put by lia.
  rewrite length_app. destruct (_ <? _) eqn:E; [breflect; lia|]. rewrite Nat2Z.id, take_app_length, drop_app_length. done.
Qed.

Lemma reader_digest_app (field rest : bytes) : length field = 32%nat ->
  reader_digest (PutUint32 (Z.of_nat (length field) mod 2 ^ 32) ++ field ++ rest) = Ok (field, rest).
Proof. intros H. unfold reader_digest. rewrite reader_field_app by lia. by rewrite H. Qed.

Lemma operation_kind_short kind x : ValidateOperationKind kind = Ok x -> (String.length kind < 64)%nat.
Proof.
  unfold ValidateOperationKind. intros H%reject_ok. apply negb_false_iff, existsb_exists in H as (k & Hk & ->%String.eqb_eq).
  assert (forallb (fun k => String.length k <? 64)%nat operation_kinds = true) as Hall by by vm_compute.
  rewrite forallb_forall in Hall. by apply Hall, Nat.ltb_lt in Hk.
Qed.

Lemma reader_digest_ok body field rest : reader_digest body = Ok (field, rest) -> length field = 32%nat.
Proof.
  unfold reader_digest. destruct (reader_field body) as [[f r]|]; [|done]. destruct (negb _) eqn:E; [done|].
  intros [= <- <-]. by breflect.
Qed.

(** What the marshalled fields look like to the reader. *)
Lemma parse_fields v (kind project : bytes) d1 d2 d3 body :
  body = foldl appendRecordPlatformLengthPrefixed [v] [kind; project; d1; d2; d3] ->
  Z.of_nat (length kind) < 2 ^ 32 -> Z.of_nat (length project) < 2 ^ 32 ->
  length d1 = 32%nat -> length d2 = 32%nat -> length d3 = 32%nat ->
  ParseRequestFingerprintInputV1 body =
    let input := {| fi_Version := byte_value v; fi_OperationKind := string_of kind; fi_ProjectID := string_of project;
                    fi_ActorScopeDigest := d1; fi_RequestScopeDigest := d2; fi_PayloadDigest := d3 |} in
    match MarshalBinary input with
    | Ok canonical => if negb (bool_decide (canonical = body)) then Err invalidRequestFingerprint else Ok input
    | Err _ => Err invalidRequestFingerprint
    end.
Proof.
  intros Hbody Hk Hp H1 H2 H3.
  assert (body = [v] ++ PutUint32 (Z.of_nat (length kind) mod 2 ^ 32) ++ kind ++
    PutUint32 (Z.of_nat (length project) mod 2 ^ 32) ++ project ++ PutUint32 (Z.of_nat (length d1) mod 2 ^ 32) ++ d1 ++
    PutUint32 (Z.of_nat (length d2) mod 2 ^ 32) ++ d2 ++ PutUint32 (Z.of_nat (length d3) mod 2 ^ 32) ++ d3 ++ []) as Hb.
  { rewrite Hbody. unfold appendRecordPlatformLengthPrefixed. cbn [foldl]. by rewrite <- !(assoc_L app), app_nil_r. }
  unfold ParseRequestFingerprintInputV1. rewrite Hb at 1. cbn [app mbind result_bind].
  rewrite reader_field_app by done. cbn [mbind result_bind]. rewrite reader_field_app by done. cbn [mbind result_bind].
  rewrite reader_digest_app by done. cbn [mbind result_bind]. rewrite reader_digest_app by done. cbn [mbind result_bind].
  by rewrite reader_digest_app by done.
Qed.

(** C23: The body of a request is canonical: a body parses to a request exactly when it is the body of that request,
    so that requests which differ in any field have different bodies. *)
Theorem request_body_canonical (body : bytes) (input : RequestFingerprintInputV1) :
  ParseRequestFingerprintInputV1 body = Ok input <-> sized input /\ MarshalBinary input = Ok body.
Proof.
  split.
  - unfold ParseRequestFingerprintInputV1. intros H. destruct body as [|v r0]; [done|]. cbn in H.
    do 5 (ok_step H; case_match; subst). ok_step H.
    destruct (MarshalBinary _) as [canonical|] eqn:E; [|done].
    destruct (bool_decide _) eqn:Eb; [|done]. apply bool_decide_eq_true in Eb. cbn in H. injection H as <-. subst.
    split; [|done]. split_and!; by eapply reader_digest_ok.
  - destruct input as [v kind project d1 d2 d3]. intros [(H1 & H2 & H3) H]. cbn in H1, H2, H3.
    pose proof H as Hm. unfold MarshalBinary in H. ok_step H. injection H as <-. unfold input_validate in Hok.
    cbn [fi_Version fi_OperationKind fi_ProjectID fi_ActorScopeDigest fi_RequestScopeDigest fi_PayloadDigest] in *.
    destruct (negb _) eqn:Ev in Hok; [done|]. breflect. subst v. ok_step Hok.
    pose proof (operation_kind_short _ _ Hok0) as Hk. apply reject_ok, negb_false_iff, String.eqb_eq in Hok. subst project.
    erewrite parse_fields; [|reflexivity|rewrite ?bytes_of_length; try done; lia..]. rewrite !string_of_bytes.
    change (byte_value (to_byte RequestFingerprintVersionV1)) with RequestFingerprintVersionV1.
    cbv zeta. rewrite Hm. by rewrite bool_decide_true.
Qed.
