(* ===== verification/RecordPlatform.v ===== *)
(** The identities of the record platform and their checks (src/internal/center/recordplatform: types.go, guards.go,
    leases.go, idempotency.go, outbox.go): owners and their leases, objects and guard keys, serving leases and
    reservation fences, idempotency records, outbox events, and the guard that stops local work. *)
From stdpp Require Import base list strings gmap.
From Stdlib Require Import ZArith Lia Ascii.
From S2P Require Import Prelude GoRuntime Postgres RecordCodec.

Local Open Scope Z_scope.

(** * Errors *)

Definition ErrInvalidOwnerLease : error := ErrSentinel "invalid owner lease".
Definition ErrInvalidObjectRef : error := ErrSentinel "invalid object reference".
Definition ErrInvalidIdentityMutationGuard : error := ErrSentinel "invalid identity mutation guard".
Definition ErrInvalidLease : error := ErrSentinel "invalid lease".
Definition ErrInvalidClientContentKey : error := ErrSentinel "invalid client content lease key".
Definition ErrLeaseAlreadyHeld : error := ErrSentinel "lease already held".
Definition ErrLeaseRenewalStopped : error := ErrSentinel "lease renewal stopped".
Definition ErrInvalidReservationFence : error := ErrSentinel "invalid reservation fence".
Definition ErrDeletionReservationUnavailable : error := ErrSentinel "deletion reservation unavailable".
Definition ErrContentDeliveryEpochMissing : error := ErrSentinel "content delivery epoch missing".
Definition ErrDeletionFenceLeaseLive : error := ErrSentinel "deletion fence lease live".
Definition ErrLostOwnerLease : error := ErrSentinel "lost owner lease".
Definition ErrInvalidIdempotencyKey : error := ErrSentinel "invalid idempotency key".
Definition ErrInvalidIdempotencyClaim : error := ErrSentinel "invalid idempotency claim".
Definition ErrInvalidIdempotencyRecord : error := ErrSentinel "invalid idempotency record".
Definition ErrIdempotencyKeyReused : error := ErrSentinel "idempotency key reused".
Definition ErrIdempotencyInProgress : error := ErrSentinel "idempotency operation in progress".
Definition ErrIdempotencyConflictState : error := ErrSentinel "idempotency conflict state".
Definition ErrInvalidOutboxEvent : error := ErrSentinel "invalid outbox event".
Definition ErrInvalidOutboxEnqueue : error := ErrSentinel "invalid outbox enqueue".
Definition ErrInvalidOutboxClaim : error := ErrSentinel "invalid outbox claim".

(** [fmt.Errorf("%w: what", kind)] and [fmt.Errorf("%w: what: %w", kind, err)]. *)
Definition invalid (kind : error) (what : string) : error := ErrWrap ("%w: " +:+ what)%string [] [kind].
Definition invalid_as (kind : error) (what : string) (err : error) : error :=
  ErrWrap ("%w: " +:+ what +:+ ": %w")%string [] [kind; err].

(** [if err := check; err != nil { return ... }] *)
Definition check_as (check : result unit) (err : error -> error) : result unit := map_error err check.

(** * Owners *)

(** time.Duration.Microseconds. *)
Definition Duration_Microseconds (d : Z) : Z := d ÷ 1000.

Record OwnerLease := { ol_OwnerID : string; ol_Generation : Z; ol_ExpiresAt : Z }.

#[global] Instance OwnerLease_eq_dec : EqDecision OwnerLease.
Proof. solve_decision. Defined.

Definition validRecordPlatformOwnerID (value : string) : bool :=
  if (String.length value =? 0)%nat || (128 <? String.length value)%nat then false
  else if isDeletionRequestTokenTransportEncoding value then false
  else all_bytes (fun c => lower_letter c || digit c || char "_" c || char "-" c) value.

Definition OwnerLease_Validate (lease : OwnerLease) : result unit :=
  reject (negb (validRecordPlatformOwnerID (ol_OwnerID lease)) || (ol_Generation lease =? 0) || Time_IsZero (ol_ExpiresAt lease))
    (invalid ErrInvalidOwnerLease "owner lease").

(** [clock] is the time a clock shows, [None] a nil clock. *)
Definition LocallyLive (lease : OwnerLease) (clock : option Z) : bool :=
  match clock with
  | None => false
  | Some now => match OwnerLease_Validate lease with Ok _ => Time_After (ol_ExpiresAt lease) now | Err _ => false end
  end.

(** * Objects and guard keys *)

Record ObjectRef := { ob_ProjectID : string; ob_ObjectKind : string; ob_ObjectID : string }.

#[global] Instance ObjectRef_eq_dec : EqDecision ObjectRef.
Proof. solve_decision. Defined.

Record IdentityMutationGuardKeyV1 := { gk_Object : ObjectRef; gk_MutationKind : string }.

#[global] Instance IdentityMutationGuardKey_eq_dec : EqDecision IdentityMutationGuardKeyV1.
Proof. solve_decision. Defined.

Record IdentityMutationGuardV1 := { ig_Key : IdentityMutationGuardKeyV1; ig_Owner : OwnerLease }.

(** Letters, digits and underscores, no longer than [limit]. *)
Definition valid_storage_key (limit : nat) (value : string) : bool :=
  if (String.length value =? 0)%nat || (limit <? String.length value)%nat then false
  else if isDeletionRequestTokenTransportEncoding value then false
  else all_bytes (fun c => lower_letter c || digit c || char "_" c) value.

Definition validRecordPlatformObjectKind : string -> bool := valid_storage_key 64.
Definition validRecordPlatformObjectID : string -> bool := valid_storage_key 128.

Definition ObjectRef_Validate (object : ObjectRef) : result unit :=
  _ ← check_as (ValidateProjectID (ob_ProjectID object)) (fun _ => invalid ErrInvalidObjectRef "project");
  _ ← reject (negb (validRecordPlatformObjectKind (ob_ObjectKind object))) (invalid ErrInvalidObjectRef "object kind");
  reject (negb (validRecordPlatformObjectID (ob_ObjectID object))) (invalid ErrInvalidObjectRef "object id").

Definition GuardKey_Validate (key : IdentityMutationGuardKeyV1) : result unit :=
  _ ← check_as (ObjectRef_Validate (gk_Object key)) (invalid_as ErrInvalidIdentityMutationGuard "object");
  reject (negb (validRecordPlatformObjectKind (gk_MutationKind key))) (invalid ErrInvalidIdentityMutationGuard "mutation kind").

Definition Guard_Validate (guard : IdentityMutationGuardV1) : result unit :=
  _ ← GuardKey_Validate (ig_Key guard);
  check_as (OwnerLease_Validate (ig_Owner guard)) (invalid_as ErrInvalidIdentityMutationGuard "owner").

Definition compareStrings (left right : string) : Z :=
  if string_less left right then -1 else if string_less right left then 1 else 0.

Definition compareObjectRefs (left right : ObjectRef) : Z :=
  let comparison := compareStrings (ob_ProjectID left) (ob_ProjectID right) in
  if negb (comparison =? 0) then comparison
  else
    let comparison := compareStrings (ob_ObjectKind left) (ob_ObjectKind right) in
    if negb (comparison =? 0) then comparison else compareStrings (ob_ObjectID left) (ob_ObjectID right).

Definition compareIdentityMutationGuardKeys (left right : IdentityMutationGuardKeyV1) : Z :=
  let comparison := compareObjectRefs (gk_Object left) (gk_Object right) in
  if negb (comparison =? 0) then comparison else compareStrings (gk_MutationKind left) (gk_MutationKind right).

(** The loop over neighbours of a sorted slice. *)
Fixpoint neighbours_equal {A} (compare : A -> A -> Z) (l : list A) : bool :=
  match l with
  | x :: ((y :: _) as l) => (compare x y =? 0) || neighbours_equal compare l
  | _ => false
  end.

Definition canonical_keys {A} (compare : A -> A -> Z) (validate : A -> result unit) (empty duplicate : error) (keys : list A)
    : result (list A) :=
  if (length keys =? 0)%nat then Err empty
  else
    _ ← fold_result (fun _ key _ => validate key) 0 keys tt;
    let canonical := sort_stable (fun left right => compare left right <? 0) keys in
    if neighbours_equal compare canonical then Err duplicate else Ok canonical.

Definition CanonicalIdentityMutationGuardKeysV1 : list IdentityMutationGuardKeyV1 -> result (list IdentityMutationGuardKeyV1) :=
  canonical_keys compareIdentityMutationGuardKeys GuardKey_Validate
    (invalid ErrInvalidIdentityMutationGuard "no keys") (invalid ErrInvalidIdentityMutationGuard "duplicate key").

Definition CanonicalObjectRefsV1 : list ObjectRef -> result (list ObjectRef) :=
  canonical_keys compareObjectRefs ObjectRef_Validate
    (invalid ErrInvalidObjectRef "no objects") (invalid ErrInvalidObjectRef "duplicate object").

(** * Leases *)

Record LeaseClaimInputV1 := { li_OwnerID : string; li_LeaseDuration : Z }.
Record DeletionFenceLeaseV1 := { df_Object : ObjectRef; df_Owner : OwnerLease }.
Record ObjectContentLeaseV1 := { oc_Object : ObjectRef; oc_Owner : OwnerLease }.
Record ClientContentLeaseKeyV1 := { ck_ProjectID : string; ck_ClientID : string }.
Record ClientContentLeaseV1 := { cl_Key : ClientContentLeaseKeyV1; cl_Owner : OwnerLease }.
Record ServingLeaseV1 := { sl_Object : ObjectRef; sl_Owner : OwnerLease; sl_CapturedEpoch : Z }.
Record ReservationFenceInputV1 := {
  fe_ReservationID : string;
  fe_Object : ObjectRef;
  fe_OwnerID : string;
  fe_OwnerLeaseDuration : Z;
}.
Record DeletionReservationFenceV1 := {
  rv_ReservationID : string;
  rv_Object : ObjectRef;
  rv_FenceEpoch : Z;
  rv_Owner : OwnerLease;
}.

Definition LeaseClaimInput_Validate (input : LeaseClaimInputV1) : result unit :=
  reject (negb (validRecordPlatformOwnerID (li_OwnerID input)) || (Duration_Microseconds (li_LeaseDuration input) <=? 0))
    (invalid ErrInvalidLease "owner or duration").

Definition validDeletionReservationID (value : string) : bool :=
  if (String.length value <? 5)%nat || (68 <? String.length value)%nat || (String.substring 0 4 value <>s "drs_") then false
  else all_bytes (fun c => lower_letter c || digit c) (from_byte 4 value).

Definition ReservationFenceInput_Validate (input : ReservationFenceInputV1) : result unit :=
  _ ← reject (negb (validDeletionReservationID (fe_ReservationID input))) (invalid ErrInvalidReservationFence "reservation id");
  _ ← check_as (ObjectRef_Validate (fe_Object input)) (invalid_as ErrInvalidReservationFence "object");
  check_as (LeaseClaimInput_Validate {| li_OwnerID := fe_OwnerID input; li_LeaseDuration := fe_OwnerLeaseDuration input |})
    (invalid_as ErrInvalidReservationFence "owner").

Definition ReservationFence_Validate (fence : DeletionReservationFenceV1) : result unit :=
  _ ← reject (negb (validDeletionReservationID (rv_ReservationID fence))) (invalid ErrInvalidReservationFence "reservation id");
  _ ← reject (rv_FenceEpoch fence =? 0) (invalid ErrInvalidReservationFence "fence epoch");
  _ ← check_as (ObjectRef_Validate (rv_Object fence)) (invalid_as ErrInvalidReservationFence "object");
  check_as (OwnerLease_Validate (rv_Owner fence)) (invalid_as ErrInvalidReservationFence "owner").

(** The check of a deletion-fence, an object-content and a serving lease. *)
Definition ObjectLease_Validate (object : ObjectRef) (owner : OwnerLease) : result unit :=
  _ ← check_as (ObjectRef_Validate object) (invalid_as ErrInvalidLease "object");
  check_as (OwnerLease_Validate owner) (invalid_as ErrInvalidLease "owner").

Definition ClientContentLeaseKey_Validate (key : ClientContentLeaseKeyV1) : result unit :=
  _ ← check_as (ValidateProjectID (ck_ProjectID key)) (fun _ => invalid ErrInvalidClientContentKey "project");
  reject (negb (validRecordPlatformOwnerID (ck_ClientID key))) (invalid ErrInvalidClientContentKey "client").

Definition ServingLease_Validate (lease : ServingLeaseV1) : result unit :=
  ObjectLease_Validate (sl_Object lease) (sl_Owner lease).

Definition NewServingLeaseV1 (objectLease : ObjectContentLeaseV1) (capturedEpoch : Z) : result ServingLeaseV1 :=
  _ ← ObjectLease_Validate (oc_Object objectLease) (oc_Owner objectLease);
  let lease := {| sl_Object := oc_Object objectLease; sl_Owner := oc_Owner objectLease; sl_CapturedEpoch := capturedEpoch |} in
  _ ← ServingLease_Validate lease;
  Ok lease.

(** ** Local work under a lease *)

(** The fields behind the mutex; the clock is read at each call. *)
Record LeaseWorkGuardV1 := { wg_owner : OwnerLease; wg_stopped : bool; wg_renewing : bool }.

Definition NewLeaseWorkGuardV1 (clock : bool) (owner : OwnerLease) : result LeaseWorkGuardV1 :=
  match clock, OwnerLease_Validate owner with
  | true, Ok _ => Ok {| wg_owner := owner; wg_stopped := false; wg_renewing := false |}
  | _, _ => Err (invalid ErrInvalidLease "work guard")
  end.

Definition canContinueLocked (guard : LeaseWorkGuardV1) (now : Z) : bool :=
  negb (wg_stopped guard) && negb (wg_renewing guard) && LocallyLive (wg_owner guard) (Some now).

Definition stop_guard (guard : LeaseWorkGuardV1) : LeaseWorkGuardV1 :=
  {| wg_owner := wg_owner guard; wg_stopped := true; wg_renewing := wg_renewing guard |}.

(** Renew up to the call of its callback: the owner the callback gets, if it is called.  Other calls on the same
    guard may run before the callback returns. *)
Definition Renew_begin (guard : LeaseWorkGuardV1) (callback : bool) (now : Z) : LeaseWorkGuardV1 * option OwnerLease :=
  if negb callback then (stop_guard guard, None)
  else if wg_renewing guard || negb (canContinueLocked guard now) then (stop_guard guard, None)
  else ({| wg_owner := wg_owner guard; wg_stopped := wg_stopped guard; wg_renewing := true |}, Some (wg_owner guard)).

(** Renew from the return of its callback on; [owner] is what the callback got. *)
Definition Renew_end (guard : LeaseWorkGuardV1) (owner : OwnerLease) (answer : result OwnerLease) (now : Z)
    : LeaseWorkGuardV1 * result unit :=
  let stopped := {| wg_owner := wg_owner guard; wg_stopped := true; wg_renewing := false |} in
  match answer with
  | Err e => (stopped, Err (ErrWrap "%w: %w" [] [ErrLeaseRenewalStopped; e]))
  | Ok renewed =>
      if wg_stopped guard || negb (match OwnerLease_Validate renewed with Ok _ => true | Err _ => false end)
         || (ol_OwnerID renewed <>s ol_OwnerID owner) || negb (ol_Generation renewed =? ol_Generation owner)
         || negb (LocallyLive renewed (Some now))
      then (stopped, Err ErrLeaseRenewalStopped)
      else ({| wg_owner := renewed; wg_stopped := wg_stopped guard; wg_renewing := false |}, Ok tt)
  end.

(** The calls on a guard as they take the mutex. *)
Inductive guard_call :=
| RenewBegins (callback : bool) (now : Z)
| RenewEnds (owner : OwnerLease) (answer : result OwnerLease) (now : Z).

Definition step_guard (call : guard_call) (guard : LeaseWorkGuardV1) : LeaseWorkGuardV1 :=
  match call with
  | RenewBegins callback now => (Renew_begin guard callback now).1
  | RenewEnds owner answer now => (Renew_end guard owner answer now).1
  end.

(** A stopped guard stays stopped whatever is called on it: local work never resumes. *)
Lemma guard_stop_final calls guard now :
  wg_stopped guard = true -> canContinueLocked (foldl (fun g c => step_guard c g) guard calls) now = false.
Proof.
  revert guard. induction calls as [|call calls IH]; intros guard H; cbn [foldl].
  - unfold canContinueLocked. by rewrite H.
  - apply IH. destruct call as [callback at_|owner answer at_]; cbn.
    + unfold Renew_begin. destruct callback; [|done]. unfold canContinueLocked. rewrite H. cbn.
      by rewrite orb_true_r.
    + unfold Renew_end. destruct answer as [renewed|e]; [|done]. by rewrite H.
Qed.

(** * Transactions of the record platform *)

(** What a repository operation meets outside its tables: whether a pool and an admission gate are configured, the
    begin of the transaction, the answers of the gate (asked again by each primitive of a business transaction),
    the statements, the commit, and transaction_timestamp(). *)
Record record_io := {
  ri_pool : bool;
  ri_gate : bool;
  ri_begin : option error;
  ri_admit : nat -> option error;
  ri_faults : faults;
  ri_commit : exec_answer;
  ri_now : Z;
}.

Definition ErrRecordPlatformAdmissionUnavailable : error := ErrSentinel "record platform admission unavailable".

(** PostgreSQL keeps microseconds. *)
Definition tx_now (io : record_io) : Z := timestamptz (ri_now io).
(** [transaction_timestamp() + ($n * interval '1 microsecond')] for a duration passed as microseconds. *)
Definition tx_after (io : record_io) (d : Z) : Z := tx_now io + Duration_Microseconds d * 1000.

#[global] Arguments tx_now : simpl never.
#[global] Arguments tx_after : simpl never.

Definition startTransaction (io : record_io) : result unit :=
  if negb (ri_pool io) then Err (ErrWrap "begin record platform transaction: %w" [] [ErrRecordPlatformAdmissionUnavailable])
  else match ri_begin io with
       | Some e => Err (ErrWrap "begin record platform transaction: %w" [] [e])
       | None => Ok tt
       end.

Definition admit_tx (io : record_io) (n : nat) : result unit :=
  if negb (ri_gate io) then Err ErrRecordPlatformAdmissionUnavailable
  else match ri_admit io n with
       | Some e => Err (ErrWrap "%w: %w" [] [ErrRecordPlatformAdmissionUnavailable; e])
       | None => Ok tt
       end.

(** An admitted transaction of its own: checks of the input, begin, gate, body, commit. *)
Definition admitted {D A} (io : record_io) (commit : string) (checks : result unit) (db : D) (body : result (D * A)) : D * result A :=
  transaction (ri_commit io) (fun e => ErrWrap (commit +:+ ": %w")%string [] [e]) db
    (_ ← checks; _ ← startTransaction io; _ ← admit_tx io 0; body).

(** What committed, or lost only its answer, came out of the body; otherwise the tables are as they were. *)
Lemma admitted_inv {D A} io commit checks (db : D) (body : result (D * A)) db' r :
  admitted io commit checks db body = (db', r) ->
  (db' = db /\ exists e, r = Err e) \/
  (exists a, checks = Ok tt /\ body = Ok (db', a) /\ (r = Ok a \/ exists e, r = Err e)).
Proof.
  intros [H|(a & H & Hr)]%transaction_inv; [by left|]. right. exists a.
  apply result_bind_ok in H as ([] & Hc & H). apply result_bind_ok in H as (_ & _ & H).
  apply result_bind_ok in H as (_ & _ & H). split_and!; [done|done|]. destruct Hr as [[_ Hr]|Hr]; eauto.
Qed.

(** A column of type bigint takes 64 bits; a larger unsigned value is refused by the driver, a larger sum by the
    server. *)
Definition int8 (z : Z) : result Z := if z <=? max_int64 then Ok z else Err (ErrNew "value is greater than maximum value for int8").
Definition next_bigint (z : Z) : result Z := if z =? max_int64 then Err (PgError "22003") else Ok (z + 1).

Lemma int8_ok z z' : int8 z = Ok z' -> z' = z /\ z <= max_int64.
Proof. unfold int8. destruct (_ <=? _) eqn:E; [|done]. intros [= <-]. by breflect. Qed.
Lemma next_bigint_ok z z' : next_bigint z = Ok z' -> z' = z + 1.
Proof. unfold next_bigint. destruct (_ =? _); [done|]. by intros [= <-]. Qed.

(** A row that a check constraint refuses. *)
Definition check_row (holds : bool) : result unit := reject (negb holds) (PgError "23514").
