(* ===== verification/LeaseStore.v ===== *)
(** The owner leases of the record platform and the fences of deletion reservations over PostgreSQL
    (src/internal/center/store/record_platform_leases.go, record_platform_reservation_fence.go): identity-mutation
    guards, deletion-fence, object-content and client-content leases, serving leases against the delivery epoch of an
    object, and the compound fence that a deletion puts on its reservation. *)
From stdpp Require Import base list strings gmap.
From Stdlib Require Import ZArith Lia.
From S2P Require Import Prelude GoRuntime Postgres RecordCodec RecordPlatform.

Local Open Scope Z_scope.

(** * Tables *)

(** A row of any of the four lease tables. *)
Record lease_row := { lr_owner_id : string; lr_owner_generation : Z; lr_expires_at : Z; lr_created_at : Z }.

Definition object_key : Type := string * string * string.
Definition key_of (o : ObjectRef) : object_key := (ob_ProjectID o, ob_ObjectKind o, ob_ObjectID o).
Definition guard_key_of (k : IdentityMutationGuardKeyV1) : object_key * string := (key_of (gk_Object k), gk_MutationKind k).
Definition client_key_of (k : ClientContentLeaseKeyV1) : string * string := (ck_ProjectID k, ck_ClientID k).

(** The columns of deletion_reservations that a fence reads or writes. *)
Record reservation_row := {
  rr_object : ObjectRef;
  rr_state : string;
  rr_fence_epoch : Z;
  rr_owner_id : string;
  rr_owner_generation : Z;
  rr_owner_expires_at : option Z;
  rr_expires_at : Z;
}.

Record lease_db := {
  ld_guards : gmap (object_key * string) lease_row;
  ld_fences : gmap object_key lease_row;
  ld_contents : gmap object_key lease_row;
  ld_clients : gmap (string * string) lease_row;
  ld_epochs : gmap object_key Z;
  ld_reservations : gmap string reservation_row;
}.

Definition set_guards g (db : lease_db) : lease_db := {| ld_guards := g; ld_fences := ld_fences db;
  ld_contents := ld_contents db; ld_clients := ld_clients db; ld_epochs := ld_epochs db; ld_reservations := ld_reservations db |}.
Definition set_fences f (db : lease_db) : lease_db := {| ld_guards := ld_guards db; ld_fences := f;
  ld_contents := ld_contents db; ld_clients := ld_clients db; ld_epochs := ld_epochs db; ld_reservations := ld_reservations db |}.
Definition set_contents c (db : lease_db) : lease_db := {| ld_guards := ld_guards db; ld_fences := ld_fences db;
  ld_contents := c; ld_clients := ld_clients db; ld_epochs := ld_epochs db; ld_reservations := ld_reservations db |}.
Definition set_clients c (db : lease_db) : lease_db := {| ld_guards := ld_guards db; ld_fences := ld_fences db;
  ld_contents := ld_contents db; ld_clients := c; ld_epochs := ld_epochs db; ld_reservations := ld_reservations db |}.
Definition set_epochs e (db : lease_db) : lease_db := {| ld_guards := ld_guards db; ld_fences := ld_fences db;
  ld_contents := ld_contents db; ld_clients := ld_clients db; ld_epochs := e; ld_reservations := ld_reservations db |}.
Definition set_reservations r (db : lease_db) : lease_db := {| ld_guards := ld_guards db; ld_fences := ld_fences db;
  ld_contents := ld_contents db; ld_clients := ld_clients db; ld_epochs := ld_epochs db; ld_reservations := r |}.

(** * The statements on a lease row *)

Definition lease_check (row : lease_row) : result lease_row :=
  _ ← check_row (lr_created_at row <? lr_expires_at row); Ok row.

(** [insert ... on conflict do update ... where expires_at <= transaction_timestamp()]: [None] returns no row. *)
Definition lease_claim (io : record_io) (ownerID : string) (duration : Z) (row : option lease_row) : result (option lease_row) :=
  match row with
  | None =>
      row ← lease_check {| lr_owner_id := ownerID; lr_owner_generation := 1; lr_expires_at := tx_after io duration;
                           lr_created_at := tx_now io |};
      Ok (Some row)
  | Some old =>
      if lr_expires_at old <=? tx_now io then
        generation ← next_bigint (lr_owner_generation old);
        row ← lease_check {| lr_owner_id := ownerID; lr_owner_generation := generation; lr_expires_at := tx_after io duration;
                             lr_created_at := lr_created_at old |};
        Ok (Some row)
      else Ok None
  end.

(** The exact owner of a row, still live at the time of the transaction. *)
Definition owner_matches (io : record_io) (owner : OwnerLease) (row : lease_row) : bool :=
  (lr_owner_id row =s ol_OwnerID owner) && (lr_owner_generation row =? ol_Generation owner)
  && (lr_expires_at row =? timestamptz (ol_ExpiresAt owner)) && (tx_now io <? lr_expires_at row).

Definition with_expiry (at_ : Z) (row : lease_row) : lease_row :=
  {| lr_owner_id := lr_owner_id row; lr_owner_generation := lr_owner_generation row; lr_expires_at := at_;
     lr_created_at := lr_created_at row |}.

(** [update ... set expires_at = at_ where <exact live owner>]. *)
Definition lease_update (io : record_io) (owner : OwnerLease) (at_ : Z) (row : option lease_row) : result (option lease_row) :=
  _ ← int8 (ol_Generation owner);
  match row with
  | Some old => if owner_matches io owner old then row ← lease_check (with_expiry at_ old); Ok (Some row) else Ok None
  | None => Ok None
  end.

Definition scanIdempotencyOwner (ownerID : string) (generation expiresAt : Z) : result OwnerLease :=
  if generation <? 1 then Err (invalid ErrInvalidOwnerLease "owner generation")
  else
    let owner := {| ol_OwnerID := ownerID; ol_Generation := generation; ol_ExpiresAt := expiresAt |} in
    _ ← OwnerLease_Validate owner; Ok owner.

Definition scanLiveOwnerLease (row : lease_row) : result OwnerLease :=
  scanIdempotencyOwner (lr_owner_id row) (lr_owner_generation row) (lr_expires_at row).

Section Tables.
Context `{Countable K}.

(** The claim of one row in an open transaction. *)
Definition claim_row (io : record_io) (what : string) (n : nat) (wrap : error -> error) (key : K) (ownerID : string)
    (duration : Z) (t : gmap K lease_row) : result (gmap K lease_row * OwnerLease) :=
  claimed ← map_error wrap (_ ← statement (ri_faults io) what n id; lease_claim io ownerID duration (t !! key));
  match claimed with
  | None => Err ErrLeaseAlreadyHeld
  | Some row => owner ← map_error wrap (scanLiveOwnerLease row); Ok (<[key := row]> t, owner)
  end.

(** scanRenewedOwnerLease on the row the update returns. *)
Definition renew_row (io : record_io) (what : string) (wrap : error -> error) (key : K) (owner : OwnerLease) (duration : Z)
    (t : gmap K lease_row) : result (gmap K lease_row * OwnerLease) :=
  renewed ← map_error wrap (_ ← statement (ri_faults io) what 0 id; lease_update io owner (tx_after io duration) (t !! key));
  match renewed with
  | None => Err (wrap ErrLostOwnerLease)
  | Some row => owner ← map_error wrap (scanLiveOwnerLease row); Ok (<[key := row]> t, owner)
  end.

Definition release_row (io : record_io) (what : string) (wrap : error -> error) (key : K) (owner : OwnerLease)
    (t : gmap K lease_row) : result (gmap K lease_row) :=
  released ← map_error wrap (_ ← statement (ri_faults io) what 0 id; lease_update io owner (tx_now io) (t !! key));
  match released with
  | None => Err ErrLostOwnerLease
  | Some row => Ok (<[key := row]> t)
  end.
End Tables.

Definition prefixed (what : string) (e : error) : error := ErrWrap (what +:+ ": %w")%string [] [e].

Definition validateLeaseRenewal (owner : OwnerLease) (duration : Z) : result unit :=
  _ ← OwnerLease_Validate owner;
  reject (Duration_Microseconds duration <=? 0) (invalid ErrInvalidLease "duration").

(** * Identity-mutation guards *)

Definition claimIdentityMutationGuardInTransaction (io : record_io) (n : nat) (key : IdentityMutationGuardKeyV1)
    (input : LeaseClaimInputV1) (db : lease_db) : result (lease_db * OwnerLease) :=
  '(t, owner) ← claim_row io "claim identity mutation guard" n (prefixed "claim identity mutation guard") (guard_key_of key)
                  (li_OwnerID input) (li_LeaseDuration input) (ld_guards db);
  Ok (set_guards t db, owner).

Definition AcquireIdentityMutationGuards (io : record_io) (keys : list IdentityMutationGuardKeyV1) (input : LeaseClaimInputV1)
    (db : lease_db) : lease_db * result (list IdentityMutationGuardV1) :=
  match CanonicalIdentityMutationGuardKeysV1 keys with
  | Err e => (db, Err e)
  | Ok canonicalKeys =>
      admitted io "commit identity mutation guard claim transaction" (LeaseClaimInput_Validate input) db
        (fold_result (fun n key '(db, guards) =>
           '(db, owner) ← claimIdentityMutationGuardInTransaction io n key input db;
           Ok (db, guards ++ [{| ig_Key := key; ig_Owner := owner |}])) 0 canonicalKeys (db, []))
  end.

Definition RenewIdentityMutationGuard (io : record_io) (key : IdentityMutationGuardKeyV1) (owner : OwnerLease) (duration : Z)
    (db : lease_db) : lease_db * result IdentityMutationGuardV1 :=
  admitted io "commit identity mutation guard renewal transaction"
    (_ ← GuardKey_Validate key; validateLeaseRenewal owner duration) db
    ('(t, renewed) ← renew_row io "renew identity mutation guard" (prefixed "renew identity mutation guard") (guard_key_of key)
                       owner duration (ld_guards db);
     Ok (set_guards t db, {| ig_Key := key; ig_Owner := renewed |})).

Definition ReleaseIdentityMutationGuard (io : record_io) (key : IdentityMutationGuardKeyV1) (owner : OwnerLease) (db : lease_db)
    : lease_db * result unit :=
  admitted io "commit identity mutation guard release transaction" (_ ← GuardKey_Validate key; OwnerLease_Validate owner) db
    (t ← release_row io "release identity mutation guard" (prefixed "release identity mutation guard") (guard_key_of key) owner
           (ld_guards db);
     Ok (set_guards t db, tt)).

(** * Object leases *)

(** Which of the two tables a statement on an object lease names. *)
Inductive object_table := DeletionFences | ObjectContents.

Definition table_of (which : object_table) (db : lease_db) : gmap object_key lease_row :=
  match which with DeletionFences => ld_fences db | ObjectContents => ld_contents db end.
Definition set_table (which : object_table) t (db : lease_db) : lease_db :=
  match which with DeletionFences => set_fences t db | ObjectContents => set_contents t db end.

Definition claimObjectLeaseInTransaction (io : record_io) (object : ObjectRef) (input : LeaseClaimInputV1) (which : object_table)
    (db : lease_db) : result (lease_db * OwnerLease) :=
  '(t, owner) ← claim_row io "claim object lease" 0 (prefixed "claim object lease") (key_of object)
                  (li_OwnerID input) (li_LeaseDuration input) (table_of which db);
  Ok (set_table which t db, owner).

Definition renewObjectLease (io : record_io) (object : ObjectRef) (owner : OwnerLease) (duration : Z) (which : object_table)
    (db : lease_db) : lease_db * result OwnerLease :=
  admitted io "commit object lease renewal transaction" (_ ← ObjectRef_Validate object; validateLeaseRenewal owner duration) db
    ('(t, renewed) ← renew_row io "renew object lease" (prefixed "renew object lease") (key_of object) owner duration
                       (table_of which db);
     Ok (set_table which t db, renewed)).

Definition releaseObjectLease (io : record_io) (object : ObjectRef) (owner : OwnerLease) (which : object_table) (db : lease_db)
    : lease_db * result unit :=
  admitted io "commit object lease release transaction" (_ ← ObjectRef_Validate object; OwnerLease_Validate owner) db
    (t ← release_row io "release object lease" (prefixed "release object lease") (key_of object) owner (table_of which db);
     Ok (set_table which t db, tt)).

Definition ErrNoRows : error := ErrSentinel "no rows in result set".

(** The delivery epoch of an object, its row locked. *)
Definition lockContentDeliveryEpochForFence (io : record_io) (object : ObjectRef) (db : lease_db) : result Z :=
  _ ← statement (ri_faults io) "lock content delivery epoch" 0 id;
  match ld_epochs db !! key_of object with
  | None => Err ErrNoRows
  | Some epoch =>
      if (epoch <? 0) || (epoch =? max_int64) then Err (invalid ErrInvalidReservationFence "observed delivery epoch")
      else Ok epoch
  end.

(** time.Unix(1, 0) is not the zero time. *)
Definition recordPlatformOwnerIDValid (ownerID : string) : bool :=
  match OwnerLease_Validate {| ol_OwnerID := ownerID; ol_Generation := 1; ol_ExpiresAt := 1 |} with Ok _ => true | Err _ => false end.

Record lockedDeletionFenceLeaseForFence := { lf_generation : Z; lf_live : bool }.

Definition lockDeletionFenceLeaseForFence (io : record_io) (object : ObjectRef) (db : lease_db) : result lockedDeletionFenceLeaseForFence :=
  _ ← statement (ri_faults io) "lock deletion fence lease" 0 id;
  match ld_fences db !! key_of object with
  | None => Ok {| lf_generation := 0; lf_live := false |}
  | Some row =>
      if (lr_owner_generation row <? 1) || Time_IsZero (lr_expires_at row) || negb (recordPlatformOwnerIDValid (lr_owner_id row))
      then Err (invalid ErrInvalidReservationFence "observed deletion fence lease")
      else Ok {| lf_generation := lr_owner_generation row; lf_live := tx_now io <? lr_expires_at row |}
  end.

Definition no_owner : OwnerLease := {| ol_OwnerID := ""; ol_Generation := 0; ol_ExpiresAt := Time_zero |}.

Record lockedObjectContentLeaseForFence := { lc_owner : OwnerLease; lc_live : bool }.

Definition lockObjectContentLeaseForFence (io : record_io) (object : ObjectRef) (db : lease_db) : result lockedObjectContentLeaseForFence :=
  _ ← statement (ri_faults io) "lock object content lease" 0 id;
  match ld_contents db !! key_of object with
  | None => Ok {| lc_owner := no_owner; lc_live := false |}
  | Some row =>
      if (lr_owner_generation row <? 1) || Time_IsZero (lr_expires_at row) || negb (recordPlatformOwnerIDValid (lr_owner_id row))
      then Err (invalid ErrInvalidReservationFence "observed object content lease")
      else
        let owner := {| ol_OwnerID := lr_owner_id row; ol_Generation := lr_owner_generation row; ol_ExpiresAt := lr_expires_at row |} in
        _ ← check_as (OwnerLease_Validate owner) (fun _ => invalid ErrInvalidReservationFence "observed object content lease owner");
        Ok {| lc_owner := owner; lc_live := tx_now io <? lr_expires_at row |}
  end.

(** The answer of the epoch lock: a missing row is [missing], another error is wrapped. *)
Definition epoch_or {A} (missing : error) (what : string) (locked : result Z) (next : Z -> result A) : result A :=
  match locked with
  | Ok epoch => next epoch
  | Err e => if errors_Is "no rows in result set" e then Err missing else Err (prefixed what e)
  end.

Definition AcquireDeletionFenceLease (io : record_io) (object : ObjectRef) (input : LeaseClaimInputV1) (db : lease_db)
    : lease_db * result DeletionFenceLeaseV1 :=
  admitted io "commit deletion fence lease claim transaction" (_ ← ObjectRef_Validate object; LeaseClaimInput_Validate input) db
    (epoch_or ErrContentDeliveryEpochMissing "lock content delivery epoch for deletion fence lease"
       (lockContentDeliveryEpochForFence io object db)
       (fun _ => '(db, owner) ← claimObjectLeaseInTransaction io object input DeletionFences db;
                 Ok (db, {| df_Object := object; df_Owner := owner |}))).

(** The lease around the owner that an operation returns. *)
Definition answered {D A B} (f : A -> B) (out : D * result A) : D * result B :=
  (out.1, match out.2 with Ok a => Ok (f a) | Err e => Err e end).

Definition RenewDeletionFenceLease (io : record_io) (object : ObjectRef) (owner : OwnerLease) (duration : Z) (db : lease_db)
    : lease_db * result DeletionFenceLeaseV1 :=
  answered (fun renewed => {| df_Object := object; df_Owner := renewed |}) (renewObjectLease io object owner duration DeletionFences db).

Definition ReleaseDeletionFenceLease (io : record_io) (object : ObjectRef) (owner : OwnerLease) (db : lease_db)
    : lease_db * result unit := releaseObjectLease io object owner DeletionFences db.

Definition RenewObjectContentLease (io : record_io) (object : ObjectRef) (owner : OwnerLease) (duration : Z) (db : lease_db)
    : lease_db * result ObjectContentLeaseV1 :=
  answered (fun renewed => {| oc_Object := object; oc_Owner := renewed |}) (renewObjectLease io object owner duration ObjectContents db).

Definition ReleaseObjectContentLease (io : record_io) (object : ObjectRef) (owner : OwnerLease) (db : lease_db)
    : lease_db * result unit := releaseObjectLease io object owner ObjectContents db.

Definition AcquireObjectContentLease (io : record_io) (object : ObjectRef) (input : LeaseClaimInputV1) (db : lease_db)
    : lease_db * result ObjectContentLeaseV1 :=
  admitted io "commit object content lease claim transaction" (_ ← ObjectRef_Validate object; LeaseClaimInput_Validate input) db
    (epoch_or ErrContentDeliveryEpochMissing "lock content delivery epoch for object content lease"
       (lockContentDeliveryEpochForFence io object db) (fun _ =>
     deletionFence ← map_error (prefixed "lock deletion fence lease for object content lease") (lockDeletionFenceLeaseForFence io object db);
     _ ← reject (lf_live deletionFence) ErrDeletionFenceLeaseLive;
     '(db, owner) ← claimObjectLeaseInTransaction io object input ObjectContents db;
     Ok (db, {| oc_Object := object; oc_Owner := owner |}))).

(** * Client leases *)

Definition claimClientContentLeaseInTransaction (io : record_io) (key : ClientContentLeaseKeyV1) (input : LeaseClaimInputV1)
    (db : lease_db) : result (lease_db * OwnerLease) :=
  '(t, owner) ← claim_row io "claim client content lease" 0 (prefixed "claim client content lease") (client_key_of key)
                  (li_OwnerID input) (li_LeaseDuration input) (ld_clients db);
  Ok (set_clients t db, owner).

Definition AcquireClientContentLease (io : record_io) (key : ClientContentLeaseKeyV1) (input : LeaseClaimInputV1) (db : lease_db)
    : lease_db * result ClientContentLeaseV1 :=
  admitted io "commit client content lease claim transaction"
    (_ ← ClientContentLeaseKey_Validate key; LeaseClaimInput_Validate input) db
    ('(db, owner) ← claimClientContentLeaseInTransaction io key input db;
     Ok (db, {| cl_Key := key; cl_Owner := owner |})).

Definition RenewClientContentLease (io : record_io) (key : ClientContentLeaseKeyV1) (owner : OwnerLease) (duration : Z)
    (db : lease_db) : lease_db * result ClientContentLeaseV1 :=
  admitted io "commit client content lease renewal transaction"
    (_ ← ClientContentLeaseKey_Validate key; validateLeaseRenewal owner duration) db
    ('(t, renewed) ← renew_row io "renew client content lease" (prefixed "renew client content lease") (client_key_of key)
                       owner duration (ld_clients db);
     Ok (set_clients t db, {| cl_Key := key; cl_Owner := renewed |})).

Definition ReleaseClientContentLease (io : record_io) (key : ClientContentLeaseKeyV1) (owner : OwnerLease) (db : lease_db)
    : lease_db * result unit :=
  admitted io "commit client content lease release transaction"
    (_ ← ClientContentLeaseKey_Validate key; OwnerLease_Validate owner) db
    (t ← release_row io "release client content lease" (prefixed "release client content lease") (client_key_of key) owner
           (ld_clients db);
     Ok (set_clients t db, tt)).

(** * Serving leases *)

(** The one query behind an assertion: exact live owner, captured epoch, no live fence. *)
Definition serving_row (io : record_io) (serving : ServingLeaseV1) (db : lease_db) : bool :=
  let key := key_of (sl_Object serving) in
  match ld_contents db !! key, ld_epochs db !! key with
  | Some row, Some epoch =>
      owner_matches io (sl_Owner serving) row && (epoch =? sl_CapturedEpoch serving)
      && negb (match ld_fences db !! key with Some fence => tx_now io <? lr_expires_at fence | None => false end)
  | _, _ => false
  end.

Definition assertServingLeaseInTransaction (io : record_io) (serving : ServingLeaseV1) (db : lease_db) : result unit :=
  found ← map_error (prefixed "assert serving lease")
    (_ ← int8 (ol_Generation (sl_Owner serving)); _ ← int8 (sl_CapturedEpoch serving);
     _ ← statement (ri_faults io) "assert serving lease" 0 id; Ok (serving_row io serving db));
  reject (negb found) ErrLostOwnerLease.

Definition AcquireServingLease (io : record_io) (object : ObjectRef) (input : LeaseClaimInputV1) (db : lease_db)
    : lease_db * result ServingLeaseV1 :=
  admitted io "commit serving lease acquisition transaction" (_ ← ObjectRef_Validate object; LeaseClaimInput_Validate input) db
    (epoch_or ErrContentDeliveryEpochMissing "lock content delivery epoch for serving lease"
       (lockContentDeliveryEpochForFence io object db) (fun epoch =>
     deletionFence ← map_error (prefixed "lock deletion fence lease for serving lease") (lockDeletionFenceLeaseForFence io object db);
     _ ← reject (lf_live deletionFence) ErrDeletionFenceLeaseLive;
     '(db, owner) ← claimObjectLeaseInTransaction io object input ObjectContents db;
     serving ← NewServingLeaseV1 {| oc_Object := object; oc_Owner := owner |} epoch;
     _ ← assertServingLeaseInTransaction io serving db;
     Ok (db, serving))).

(** The owners are compared as structs; their times come from the driver, which gives every time the same location. *)
Definition RenewServingLease (io : record_io) (serving : ServingLeaseV1) (duration : Z) (db : lease_db)
    : lease_db * result ServingLeaseV1 :=
  admitted io "commit serving lease renewal transaction"
    (_ ← ServingLease_Validate serving; validateLeaseRenewal (sl_Owner serving) duration) db
    (epoch_or ErrLostOwnerLease "lock content delivery epoch for serving lease renewal"
       (lockContentDeliveryEpochForFence io (sl_Object serving) db) (fun epoch =>
     _ ← reject (negb (epoch =? sl_CapturedEpoch serving)) ErrLostOwnerLease;
     deletionFence ← map_error (prefixed "lock deletion fence for serving lease renewal")
                       (lockDeletionFenceLeaseForFence io (sl_Object serving) db);
     _ ← reject (lf_live deletionFence) ErrLostOwnerLease;
     contentLease ← map_error (prefixed "lock object content lease for serving lease renewal")
                      (lockObjectContentLeaseForFence io (sl_Object serving) db);
     _ ← reject (negb (lc_live contentLease) || negb (bool_decide (lc_owner contentLease = sl_Owner serving))) ErrLostOwnerLease;
     '(t, renewedOwner) ← renew_row io "renew object lease" (prefixed "renew serving object content lease")
                            (key_of (sl_Object serving)) (sl_Owner serving) duration (ld_contents db);
     renewed ← NewServingLeaseV1 {| oc_Object := sl_Object serving; oc_Owner := renewedOwner |} (sl_CapturedEpoch serving);
     _ ← assertServingLeaseInTransaction io renewed (set_contents t db);
     Ok (set_contents t db, renewed))).

Definition AssertServingLease (io : record_io) (serving : ServingLeaseV1) (db : lease_db) : lease_db * result unit :=
  admitted io "commit serving lease assertion transaction" (ServingLease_Validate serving) db
    (_ ← assertServingLeaseInTransaction io serving db; Ok (db, tt)).

(** * Reservation fences *)

Definition ReservationPreviewed : string := "previewed".
Definition ReservationFenced : string := "fenced".
Definition ReservationReleased : string := "released".

Definition previewed_live (io : record_io) (row : reservation_row) : bool :=
  (rr_state row =s ReservationPreviewed) && (tx_now io <? rr_expires_at row).

Record lockedDeletionReservationForFence := { lv_object : ObjectRef; lv_ownerGeneration : Z }.

Definition lockPreviewedDeletionReservationForFence (io : record_io) (reservationID : string) (db : lease_db)
    : result lockedDeletionReservationForFence :=
  _ ← statement (ri_faults io) "lock deletion reservation" 0 id;
  match ld_reservations db !! reservationID with
  | None => Err ErrNoRows
  | Some row =>
      if negb (previewed_live io row) then Err ErrNoRows
      else if (rr_state row <>s ReservationPreviewed) || (rr_owner_generation row <? 0)
              || match rr_owner_expires_at row with Some _ => true | None => false end || Time_IsZero (rr_expires_at row)
      then Err (invalid ErrInvalidReservationFence "observed preview reservation")
      else
        _ ← check_as (ObjectRef_Validate (rr_object row)) (fun _ => invalid ErrInvalidReservationFence "observed reservation object");
        Ok {| lv_object := rr_object row; lv_ownerGeneration := rr_owner_generation row |}
  end.

Definition incrementContentDeliveryEpochForFence (io : record_io) (object : ObjectRef) (db : lease_db) : result (lease_db * Z) :=
  _ ← statement (ri_faults io) "increment content delivery epoch" 0 id;
  match ld_epochs db !! key_of object with
  | None => Err ErrNoRows
  | Some old =>
      epoch ← next_bigint old;
      _ ← reject (epoch <? 0) (invalid ErrInvalidReservationFence "incremented delivery epoch");
      Ok (set_epochs (<[key_of object := epoch]> (ld_epochs db)) db, epoch)
  end.

Definition nextReservationFenceGeneration (reservationGeneration fenceGeneration : Z) : result Z :=
  _ ← reject ((reservationGeneration <? 0) || (fenceGeneration <? 0) || (reservationGeneration =? max_int64)
              || (fenceGeneration =? max_int64)) (invalid ErrInvalidReservationFence "owner generation");
  Ok (if reservationGeneration <? fenceGeneration then fenceGeneration + 1 else reservationGeneration + 1).

(** The check of the table: a row has an owner exactly while it is fenced. *)
Definition reservation_check (row : reservation_row) : result reservation_row :=
  _ ← check_row (Bool.eqb (rr_state row =s ReservationFenced)
                   ((rr_owner_id row <>s "") && match rr_owner_expires_at row with Some _ => true | None => false end));
  Ok row.

(** fenceDeletionReservationSQL. *)
Definition fence_reservation (io : record_io) (id ownerID : string) (epoch generation duration : Z) (db : lease_db)
    : result (option (lease_db * OwnerLease)) :=
  match ld_reservations db !! id with
  | Some row =>
      if previewed_live io row then
        row ← reservation_check {| rr_object := rr_object row; rr_state := ReservationFenced; rr_fence_epoch := epoch;
          rr_owner_id := ownerID; rr_owner_generation := generation; rr_owner_expires_at := Some (tx_after io duration);
          rr_expires_at := rr_expires_at row |};
        owner ← scanIdempotencyOwner ownerID generation (tx_after io duration);
        Ok (Some (set_reservations (<[id := row]> (ld_reservations db)) db, owner))
      else Ok None
  | None => Ok None
  end.

(** fenceDeletionFenceLeaseSQL: the generation is the one of the reservation. *)
Definition fence_lease (io : record_io) (object : ObjectRef) (ownerID : string) (generation duration : Z) (db : lease_db)
    : result (option (lease_db * OwnerLease)) :=
  let write created :=
    row ← lease_check {| lr_owner_id := ownerID; lr_owner_generation := generation; lr_expires_at := tx_after io duration;
                         lr_created_at := created |};
    owner ← scanLiveOwnerLease row;
    Ok (Some (set_fences (<[key_of object := row]> (ld_fences db)) db, owner)) in
  match ld_fences db !! key_of object with
  | None => write (tx_now io)
  | Some old => if lr_expires_at old <=? tx_now io then write (lr_created_at old) else Ok None
  end.

Definition or_lost {A} (what : string) (out : result (option A)) : result A :=
  found ← map_error (prefixed what) out;
  match found with Some a => Ok a | None => Err ErrLostOwnerLease end.

Definition fenceDeletionReservationInTransaction (io : record_io) (input : ReservationFenceInputV1) (db : lease_db)
    : result (lease_db * DeletionReservationFenceV1) :=
  reservation ← match lockPreviewedDeletionReservationForFence io (fe_ReservationID input) db with
                | Ok r => Ok r
                | Err e => if errors_Is "no rows in result set" e then Err ErrDeletionReservationUnavailable
                           else Err (prefixed "lock deletion reservation for fence" e)
                end;
  _ ← reject (negb (bool_decide (lv_object reservation = fe_Object input))) (invalid ErrInvalidReservationFence "reservation object");
  epoch_or ErrContentDeliveryEpochMissing "lock content delivery epoch for fence"
    (lockContentDeliveryEpochForFence io (fe_Object input) db) (fun currentEpoch =>
  deletionFence ← map_error (prefixed "lock deletion fence lease for fence") (lockDeletionFenceLeaseForFence io (fe_Object input) db);
  _ ← reject (lf_live deletionFence) ErrDeletionFenceLeaseLive;
  _ ← map_error (prefixed "lock object content lease for fence") (lockObjectContentLeaseForFence io (fe_Object input) db);
  generation ← nextReservationFenceGeneration (lv_ownerGeneration reservation) (lf_generation deletionFence);
  '(db, newEpoch) ← map_error (prefixed "increment content delivery epoch for fence")
                      (incrementContentDeliveryEpochForFence io (fe_Object input) db);
  _ ← reject (negb (newEpoch =? currentEpoch + 1)) (invalid ErrInvalidReservationFence "nonmonotonic delivery epoch");
  '(db, owner) ← or_lost "fence deletion reservation"
    (_ ← statement (ri_faults io) "fence deletion reservation" 0 id;
     fence_reservation io (fe_ReservationID input) (fe_OwnerID input) newEpoch generation (fe_OwnerLeaseDuration input) db);
  '(db, fenceOwner) ← or_lost "fence deletion lease"
    (_ ← statement (ri_faults io) "fence deletion lease" 0 id;
     fence_lease io (fe_Object input) (fe_OwnerID input) generation (fe_OwnerLeaseDuration input) db);
  _ ← reject (negb (bool_decide (owner = fenceOwner)) || (ol_OwnerID owner <>s fe_OwnerID input)
              || negb (ol_Generation owner =? generation))
        (invalid ErrInvalidReservationFence "divergent reservation and lease owners");
  let fence := {| rv_ReservationID := fe_ReservationID input; rv_Object := fe_Object input; rv_FenceEpoch := newEpoch;
                  rv_Owner := owner |} in
  _ ← ReservationFence_Validate fence;
  Ok (db, fence)).

Definition FenceDeletionReservation (io : record_io) (input : ReservationFenceInputV1) (db : lease_db)
    : lease_db * result DeletionReservationFenceV1 :=
  admitted io "commit deletion reservation fence transaction" (ReservationFenceInput_Validate input) db
    (fenceDeletionReservationInTransaction io input db).

(** The exact live fence of a reservation. *)
Definition fence_matches (io : record_io) (fence : DeletionReservationFenceV1) (row : reservation_row) : bool :=
  (rr_state row =s ReservationFenced) && (rr_owner_id row =s ol_OwnerID (rv_Owner fence))
  && (rr_owner_generation row =? ol_Generation (rv_Owner fence)) && (rr_fence_epoch row =? rv_FenceEpoch fence)
  && match rr_owner_expires_at row with
     | Some at_ => (at_ =? timestamptz (ol_ExpiresAt (rv_Owner fence))) && (tx_now io <? at_)
     | None => false
     end.

Definition fence_params (fence : DeletionReservationFenceV1) : result unit :=
  _ ← int8 (ol_Generation (rv_Owner fence)); _ ← int8 (rv_FenceEpoch fence); Ok tt.

Definition with_owner (state ownerID : string) (generation : Z) (expires : option Z) (row : reservation_row) : reservation_row :=
  {| rr_object := rr_object row; rr_state := state; rr_fence_epoch := rr_fence_epoch row; rr_owner_id := ownerID;
     rr_owner_generation := generation; rr_owner_expires_at := expires; rr_expires_at := rr_expires_at row |}.

(** [update deletion_reservations ... where <exact live fence>]. *)
Definition update_fenced (io : record_io) (what : string) (fence : DeletionReservationFenceV1) (change : reservation_row -> reservation_row)
    (db : lease_db) : result (option (lease_db * reservation_row)) :=
  _ ← fence_params fence;
  _ ← statement (ri_faults io) what 0 id;
  match ld_reservations db !! rv_ReservationID fence with
  | Some row =>
      if fence_matches io fence row then
        row ← reservation_check (change row);
        Ok (Some (set_reservations (<[rv_ReservationID fence := row]> (ld_reservations db)) db, row))
      else Ok None
  | None => Ok None
  end.

Definition RenewDeletionReservationFence (io : record_io) (fence : DeletionReservationFenceV1) (duration : Z) (db : lease_db)
    : lease_db * result DeletionReservationFenceV1 :=
  admitted io "commit deletion reservation fence renewal transaction"
    (_ ← ReservationFence_Validate fence; validateLeaseRenewal (rv_Owner fence) duration) db
    (updated ← map_error (prefixed "renew deletion reservation fence")
       (updated ← update_fenced io "renew deletion reservation fence" fence
          (fun row => with_owner (rr_state row) (rr_owner_id row) (rr_owner_generation row) (Some (tx_after io duration)) row) db;
        match updated with
        | None => Err ErrLostOwnerLease
        | Some (db, row) => owner ← scanIdempotencyOwner (rr_owner_id row) (rr_owner_generation row) (tx_after io duration); Ok (db, owner)
        end);
     let '(db, renewedOwner) := updated in
     '(t, renewedFenceOwner) ← renew_row io "renew deletion fence lease" (prefixed "renew deletion fence lease")
                                 (key_of (rv_Object fence)) (rv_Owner fence) duration (ld_fences db);
     _ ← reject (negb (bool_decide (renewedOwner = renewedFenceOwner))) (invalid ErrInvalidReservationFence "divergent renewed owners");
     let renewed := {| rv_ReservationID := rv_ReservationID fence; rv_Object := rv_Object fence; rv_FenceEpoch := rv_FenceEpoch fence;
                       rv_Owner := renewedOwner |} in
     _ ← ReservationFence_Validate renewed;
     Ok (set_fences t db, renewed)).

Definition ReleaseDeletionReservationFence (io : record_io) (fence : DeletionReservationFenceV1) (db : lease_db)
    : lease_db * result unit :=
  admitted io "commit deletion reservation fence release transaction" (ReservationFence_Validate fence) db
    (updated ← map_error (prefixed "release deletion reservation fence")
       (update_fenced io "release deletion reservation fence" fence (with_owner ReservationReleased "" 0 None) db);
     match updated with
     | None => Err ErrLostOwnerLease
     | Some (db, _) =>
         t ← release_row io "release deletion fence lease" (prefixed "release deletion fence lease") (key_of (rv_Object fence))
               (rv_Owner fence) (ld_fences db);
         Ok (set_fences t db, tt)
     end).

(** assertDeletionReservationFenceSQL: reservation, epoch and lease of the object agree on one live owner. *)
Definition fence_row (io : record_io) (fence : DeletionReservationFenceV1) (db : lease_db) : bool :=
  match ld_reservations db !! rv_ReservationID fence with
  | Some row =>
      match ld_epochs db !! key_of (rr_object row), ld_fences db !! key_of (rr_object row) with
      | Some epoch, Some lease =>
          bool_decide (rr_object row = rv_Object fence) && fence_matches io fence row
          && (epoch =? rr_fence_epoch row) && owner_matches io (rv_Owner fence) lease
      | _, _ => false
      end
  | None => false
  end.

Definition AssertDeletionReservationFence (io : record_io) (fence : DeletionReservationFenceV1) (db : lease_db)
    : lease_db * result unit :=
  admitted io "commit deletion reservation fence assert transaction" (ReservationFence_Validate fence) db
    (found ← map_error (prefixed "assert deletion reservation fence")
       (_ ← fence_params fence; _ ← statement (ri_faults io) "assert deletion reservation fence" 0 id; Ok (fence_row io fence db));
     _ ← reject (negb found) ErrLostOwnerLease;
     Ok (db, tt)).

(** ** What other parts of the program write *)

(** The epoch of a record starts at 0 with its first write and is kept when it is there (records.go). *)
Definition initialize_epoch (object : ObjectRef) (db : lease_db) : lease_db :=
  match ld_epochs db !! key_of object with
  | Some _ => db
  | None => set_epochs (<[key_of object := 0]> (ld_epochs db)) db
  end.

(** A preview inserts a reservation under an identifier of its own (createDeletionPreviewSQL). *)
Definition create_reservation (id : string) (object : ObjectRef) (expires : Z) (db : lease_db) : lease_db :=
  match ld_reservations db !! id with
  | Some _ => db
  | None =>
      set_reservations (<[id := {| rr_object := object; rr_state := ReservationPreviewed; rr_fence_epoch := 0; rr_owner_id := "";
        rr_owner_generation := 0; rr_owner_expires_at := None; rr_expires_at := expires |}]> (ld_reservations db)) db
  end.
