(* ===== verification/LeaseRuns.v ===== *)
(** The operations on owner leases and reservation fences as one system: which lease each operation claims or
    presents, the tokens it hands out, and what an operation does to the rows. *)
From stdpp Require Import base list strings gmap.
From Stdlib Require Import ZArith Lia.
From S2P Require Import Prelude GoRuntime Postgres RecordCodec RecordPlatform LeaseStore.

Local Open Scope Z_scope.

(** * The system *)

(** A lease by its table and key. *)
Inductive lease_ref :=
| GuardRef (key : object_key * string)
| FenceRef (key : object_key)
| ContentRef (key : object_key)
| ClientRef (key : string * string).

#[global] Instance lease_ref_eq_dec : EqDecision lease_ref.
Proof. solve_decision. Defined.

Definition lease_at (ref : lease_ref) (db : lease_db) : option lease_row :=
  match ref with
  | GuardRef k => ld_guards db !! k
  | FenceRef k => ld_fences db !! k
  | ContentRef k => ld_contents db !! k
  | ClientRef k => ld_clients db !! k
  end.

Definition object_ref (which : object_table) (object : ObjectRef) : lease_ref :=
  match which with DeletionFences => FenceRef (key_of object) | ObjectContents => ContentRef (key_of object) end.

Inductive lease_op :=
| OpGuards (keys : list IdentityMutationGuardKeyV1) (input : LeaseClaimInputV1)
| OpRenewGuard (key : IdentityMutationGuardKeyV1) (owner : OwnerLease) (duration : Z)
| OpReleaseGuard (key : IdentityMutationGuardKeyV1) (owner : OwnerLease)
| OpFenceLease (object : ObjectRef) (input : LeaseClaimInputV1)
| OpContent (object : ObjectRef) (input : LeaseClaimInputV1)
| OpRenewObject (which : object_table) (object : ObjectRef) (owner : OwnerLease) (duration : Z)
| OpReleaseObject (which : object_table) (object : ObjectRef) (owner : OwnerLease)
| OpClient (key : ClientContentLeaseKeyV1) (input : LeaseClaimInputV1)
| OpRenewClient (key : ClientContentLeaseKeyV1) (owner : OwnerLease) (duration : Z)
| OpReleaseClient (key : ClientContentLeaseKeyV1) (owner : OwnerLease)
| OpServe (object : ObjectRef) (input : LeaseClaimInputV1)
| OpRenewServing (serving : ServingLeaseV1) (duration : Z)
| OpAssertServing (serving : ServingLeaseV1)
| OpFence (input : ReservationFenceInputV1)
| OpRenewFence (fence : DeletionReservationFenceV1) (duration : Z)
| OpReleaseFence (fence : DeletionReservationFenceV1)
| OpAssertFence (fence : DeletionReservationFenceV1)
(** The rows that other parts of the program write. *)
| OpEpoch (object : ObjectRef)
| OpPreview (id : string) (object : ObjectRef) (expires : Z).

Definition tokens : Type := list (lease_ref * OwnerLease).

Definition no_tokens {A} (out : lease_db * result A) : lease_db * result tokens := answered (fun _ => []) out.

Definition perform_lease (io : record_io) (op : lease_op) (db : lease_db) : lease_db * result tokens :=
  match op with
  | OpGuards keys input =>
      answered (fmap (fun g => (GuardRef (guard_key_of (ig_Key g)), ig_Owner g))) (AcquireIdentityMutationGuards io keys input db)
  | OpRenewGuard key owner d =>
      answered (fun g => [(GuardRef (guard_key_of key), ig_Owner g)]) (RenewIdentityMutationGuard io key owner d db)
  | OpReleaseGuard key owner => no_tokens (ReleaseIdentityMutationGuard io key owner db)
  | OpFenceLease object input =>
      answered (fun l => [(FenceRef (key_of object), df_Owner l)]) (AcquireDeletionFenceLease io object input db)
  | OpContent object input =>
      answered (fun l => [(ContentRef (key_of object), oc_Owner l)]) (AcquireObjectContentLease io object input db)
  | OpRenewObject DeletionFences object owner d =>
      answered (fun l => [(FenceRef (key_of object), df_Owner l)]) (RenewDeletionFenceLease io object owner d db)
  | OpRenewObject ObjectContents object owner d =>
      answered (fun l => [(ContentRef (key_of object), oc_Owner l)]) (RenewObjectContentLease io object owner d db)
  | OpReleaseObject DeletionFences object owner => no_tokens (ReleaseDeletionFenceLease io object owner db)
  | OpReleaseObject ObjectContents object owner => no_tokens (ReleaseObjectContentLease io object owner db)
  | OpClient key input =>
      answered (fun l => [(ClientRef (client_key_of key), cl_Owner l)]) (AcquireClientContentLease io key input db)
  | OpRenewClient key owner d =>
      answered (fun l => [(ClientRef (client_key_of key), cl_Owner l)]) (RenewClientContentLease io key owner d db)
  | OpReleaseClient key owner => no_tokens (ReleaseClientContentLease io key owner db)
  | OpServe object input =>
      answered (fun l => [(ContentRef (key_of object), sl_Owner l)]) (AcquireServingLease io object input db)
  | OpRenewServing serving d =>
      answered (fun l => [(ContentRef (key_of (sl_Object serving)), sl_Owner l)]) (RenewServingLease io serving d db)
  | OpAssertServing serving => no_tokens (AssertServingLease io serving db)
  | OpFence input =>
      answered (fun f => [(FenceRef (key_of (fe_Object input)), rv_Owner f)]) (FenceDeletionReservation io input db)
  | OpRenewFence fence d =>
      answered (fun f => [(FenceRef (key_of (rv_Object fence)), rv_Owner f)]) (RenewDeletionReservationFence io fence d db)
  | OpReleaseFence fence => no_tokens (ReleaseDeletionReservationFence io fence db)
  | OpAssertFence fence => no_tokens (AssertDeletionReservationFence io fence db)
  | OpEpoch object => (initialize_epoch object db, Ok [])
  | OpPreview id object expires => (create_reservation id object expires db, Ok [])
  end.

(** Whether an operation starts a new tenure, or presents the token of one. *)
Definition claiming (op : lease_op) : bool :=
  match op with
  | OpGuards _ _ | OpFenceLease _ _ | OpContent _ _ | OpClient _ _ | OpServe _ _ | OpFence _ => true
  | _ => false
  end.

Definition presents (op : lease_op) : option (lease_ref * OwnerLease) :=
  match op with
  | OpRenewGuard key owner _ | OpReleaseGuard key owner => Some (GuardRef (guard_key_of key), owner)
  | OpRenewObject which object owner _ | OpReleaseObject which object owner => Some (object_ref which object, owner)
  | OpRenewClient key owner _ | OpReleaseClient key owner => Some (ClientRef (client_key_of key), owner)
  | OpRenewServing serving _ | OpAssertServing serving => Some (ContentRef (key_of (sl_Object serving)), sl_Owner serving)
  | OpRenewFence fence _ | OpReleaseFence fence | OpAssertFence fence => Some (FenceRef (key_of (rv_Object fence)), rv_Owner fence)
  | _ => None
  end.

(** The transactions in the order in which they take effect; their timestamps are those of their starts and need not
    follow that order. *)
Definition run_leases (calls : list (record_io * lease_op)) (db : lease_db) : lease_db :=
  foldl (fun db call => (perform_lease call.1 call.2 db).1) db calls.

Definition no_leases : lease_db := {| ld_guards := ∅; ld_fences := ∅; ld_contents := ∅; ld_clients := ∅; ld_epochs := ∅;
  ld_reservations := ∅ |}.

(** * What an operation does to a row *)

Definition owner_of (row : lease_row) : OwnerLease :=
  {| ol_OwnerID := lr_owner_id row; ol_Generation := lr_owner_generation row; ol_ExpiresAt := lr_expires_at row |}.

(** A claim at time [t]: the tenure before is over and the generation grows. *)
Definition claims (t : Z) (old : option lease_row) (new : lease_row) : Prop :=
  match old with
  | None => 1 <= lr_owner_generation new
  | Some old => lr_expires_at old <= t /\ lr_owner_generation old < lr_owner_generation new
  end.

(** An abstract lock: it is claimed, or its holder moves the end of the tenure it is in. *)
Inductive row_moves (t : Z) : option lease_row -> option lease_row -> Prop :=
| moves_same r : row_moves t r r
| moves_claimed old new : claims t old new -> row_moves t old (Some new)
| moves_updated old at_ : t < lr_expires_at old -> row_moves t (Some old) (Some (with_expiry at_ old)).

Definition put (ref : lease_ref) (row : lease_row) (db : lease_db) : lease_db :=
  match ref with
  | GuardRef k => set_guards (<[k := row]> (ld_guards db)) db
  | FenceRef k => set_fences (<[k := row]> (ld_fences db)) db
  | ContentRef k => set_contents (<[k := row]> (ld_contents db)) db
  | ClientRef k => set_clients (<[k := row]> (ld_clients db)) db
  end.

Lemma lease_at_put r ref row db : lease_at r (put ref row db) = if decide (r = ref) then Some row else lease_at r db.
Proof.
  destruct r as [k|k|k|k], ref as [k'|k'|k'|k']; cbn; try (by destruct (decide _));
    (destruct (decide (_ = _)) as [[= ->]|Hne]; [apply lookup_insert_eq|rewrite lookup_insert_ne; [done|congruence]]).
Qed.

Lemma put_epochs ref row db : ld_epochs (put ref row db) = ld_epochs db.
Proof. by destruct ref. Qed.
Lemma put_reservations ref row db : ld_reservations (put ref row db) = ld_reservations db.
Proof. by destruct ref. Qed.

(** ** The statements *)

Lemma lease_check_ok row row' : lease_check row = Ok row' -> row' = row.
Proof. unfold lease_check. intros H. ok_step H. by injection H. Qed.

Lemma scanLiveOwnerLease_ok row owner : scanLiveOwnerLease row = Ok owner -> owner = owner_of row /\ 1 <= lr_owner_generation row.
Proof.
  unfold scanLiveOwnerLease, scanIdempotencyOwner. destruct (_ <? _) eqn:E; [done|]. intros H. ok_step H. injection H as <-.
  breflect. done.
Qed.

Lemma lease_claim_ok io owner d old row : lease_claim io owner d old = Ok (Some row) ->
  claims (tx_now io) old row /\ lr_expires_at row = tx_after io d /\ lr_owner_id row = owner.
Proof.
  unfold lease_claim. destruct old as [old|].
  - destruct (_ <=? _) eqn:E; [|done]. intros H. ok_step H. ok_step H. injection H as <-.
    apply next_bigint_ok in Hok. apply lease_check_ok in Hok0. subst. cbn. breflect. split_and!; done || lia.
  - intros H. ok_step H. injection H as <-. apply lease_check_ok in Hok. subst. cbn. split_and!; done || lia.
Qed.

Lemma lease_update_ok io owner at_ old row : lease_update io owner at_ old = Ok (Some row) ->
  exists before, old = Some before /\ owner_matches io owner before = true /\ row = with_expiry at_ before.
Proof.
  unfold lease_update. intros H. ok_step H. destruct old as [old|]; [|done]. destruct (owner_matches io owner old) eqn:E; [|done].
  ok_step H. injection H as <-. apply lease_check_ok in Hok0. by exists old.
Qed.

Lemma owner_matches_live io owner row : owner_matches io owner row = true ->
  lr_owner_generation row = ol_Generation owner /\ tx_now io < lr_expires_at row.
Proof. unfold owner_matches. intros H. by breflect. Qed.

Section Statements.
Context `{Countable K}.
Implicit Types t : gmap K lease_row.

Lemma claim_row_ok io what n wrap key owner d t t' token : claim_row io what n wrap key owner d t = Ok (t', token) ->
  exists row, t' = <[key := row]> t /\ claims (tx_now io) (t !! key) row /\ token = owner_of row /\
    lr_expires_at row = tx_after io d /\ lr_owner_id row = owner.
Proof.
  unfold claim_row. intros Hc. ok_step Hc. apply map_error_ok in Hok. ok_step Hok. destruct x as [row|]; [|done].
  ok_step Hc. injection Hc as <- <-. apply map_error_ok, scanLiveOwnerLease_ok in Hok1 as [-> _].
  apply lease_claim_ok in Hok as (? & ? & ?). by exists row.
Qed.

Lemma renew_row_ok io what wrap key owner d t t' token : renew_row io what wrap key owner d t = Ok (t', token) ->
  exists old, t !! key = Some old /\ owner_matches io owner old = true /\ t' = <[key := with_expiry (tx_after io d) old]> t /\
    token = owner_of (with_expiry (tx_after io d) old).
Proof.
  unfold renew_row. intros Hc. ok_step Hc. apply map_error_ok in Hok. ok_step Hok. destruct x as [row|]; [|done].
  ok_step Hc. injection Hc as <- <-. apply map_error_ok, scanLiveOwnerLease_ok in Hok1 as [-> _].
  apply lease_update_ok in Hok as (old & ? & ? & ->). by exists old.
Qed.

Lemma release_row_ok io what wrap key owner t t' : release_row io what wrap key owner t = Ok t' ->
  exists old, t !! key = Some old /\ owner_matches io owner old = true /\ t' = <[key := with_expiry (tx_now io) old]> t.
Proof.
  unfold release_row. intros Hc. ok_step Hc. apply map_error_ok in Hok. ok_step Hok. destruct x as [row|]; [|done].
  injection Hc as <-. apply lease_update_ok in Hok as (old & ? & ? & ->). by exists old.
Qed.
End Statements.

(** ** The operations *)

Lemma answered_inv {D A B} (f : A -> B) (out : D * result A) db' r : answered f out = (db', r) ->
  exists r0, out = (db', r0) /\ ((exists a, r0 = Ok a /\ r = Ok (f a)) \/ exists e, r0 = Err e /\ r = Err e).
Proof.
  destruct out as [d [a|e]]; unfold answered; cbn; intros [= <- <-]; eauto 7.
Qed.

(** What an admitted operation with this body can leave: the tables as they were and an error, or the tables of the
    body. *)
Definition outcome {A} (body : result (lease_db * A)) (db db' : lease_db) (r : result A) : Prop :=
  (db' = db /\ exists e, r = Err e) \/ exists a, body = Ok (db', a) /\ (r = Ok a \/ exists e, r = Err e).

Lemma admitted_outcome {A} io commit checks db (body : result (lease_db * A)) db' r :
  admitted io commit checks db body = (db', r) -> outcome body db db' r.
Proof. intros [?|(a & _ & ? & ?)]%admitted_inv; [by left|right; eauto]. Qed.

(** A claim, an update or nothing of one row. *)
Definition claims_one (io : record_io) (ref : lease_ref) (db db' : lease_db) (owner : OwnerLease) : Prop :=
  exists row, db' = put ref row db /\ claims (tx_now io) (lease_at ref db) row /\ owner = owner_of row.

Definition updates_one (io : record_io) (ref : lease_ref) (token : OwnerLease) (at_ : Z) (db db' : lease_db) (owner : OwnerLease) : Prop :=
  exists old, lease_at ref db = Some old /\ owner_matches io token old = true /\ db' = put ref (with_expiry at_ old) db /\
    owner = owner_of (with_expiry at_ old).

Lemma claim_guard_ok io n key input db db' owner : claimIdentityMutationGuardInTransaction io n key input db = Ok (db', owner) ->
  claims_one io (GuardRef (guard_key_of key)) db db' owner /\ ol_ExpiresAt owner = tx_after io (li_LeaseDuration input).
Proof.
  unfold claimIdentityMutationGuardInTransaction. intros H. ok_step H. destruct x as [t token]. injection H as <- <-.
  apply claim_row_ok in Hok as (row & -> & ? & -> & He & _). split; [by exists row|done].
Qed.

Lemma claim_object_ok io object input which db db' owner : claimObjectLeaseInTransaction io object input which db = Ok (db', owner) ->
  claims_one io (object_ref which object) db db' owner.
Proof.
  unfold claimObjectLeaseInTransaction. intros H. ok_step H. destruct x as [t token]. injection H as <- <-.
  apply claim_row_ok in Hok as (row & -> & ? & -> & He & _). destruct which; by exists row.
Qed.

Lemma claim_client_ok io key input db db' owner : claimClientContentLeaseInTransaction io key input db = Ok (db', owner) ->
  claims_one io (ClientRef (client_key_of key)) db db' owner.
Proof.
  unfold claimClientContentLeaseInTransaction. intros H. ok_step H. destruct x as [t token]. injection H as <- <-.
  apply claim_row_ok in Hok as (row & -> & ? & -> & He & _). by exists row.
Qed.

Lemma renew_guard_outcome io key owner d db db' r : RenewIdentityMutationGuard io key owner d db = (db', r) ->
  (db' = db /\ exists e, r = Err e) \/
  exists token, updates_one io (GuardRef (guard_key_of key)) owner (tx_after io d) db db' token /\
    (r = Ok {| ig_Key := key; ig_Owner := token |} \/ exists e, r = Err e).
Proof.
  intros [?|(a & H & ?)]%admitted_outcome; [by left|right]. ok_step H. destruct x as [t token]. injection H as <- <-.
  apply renew_row_ok in Hok as (old & ? & ? & -> & ->). eexists. split; [by exists old|done].
Qed.

Lemma release_guard_outcome io key owner db db' r : ReleaseIdentityMutationGuard io key owner db = (db', r) ->
  (db' = db /\ exists e, r = Err e) \/
  exists token, updates_one io (GuardRef (guard_key_of key)) owner (tx_now io) db db' token.
Proof.
  intros [?|(a & H & ?)]%admitted_outcome; [by left|right]. ok_step H. injection H as <- <-.
  apply release_row_ok in Hok as (old & ? & ? & ->). eexists. by exists old.
Qed.

Lemma renew_client_outcome io key owner d db db' r : RenewClientContentLease io key owner d db = (db', r) ->
  (db' = db /\ exists e, r = Err e) \/
  exists token, updates_one io (ClientRef (client_key_of key)) owner (tx_after io d) db db' token /\
    (r = Ok {| cl_Key := key; cl_Owner := token |} \/ exists e, r = Err e).
Proof.
  intros [?|(a & H & ?)]%admitted_outcome; [by left|right]. ok_step H. destruct x as [t token]. injection H as <- <-.
  apply renew_row_ok in Hok as (old & ? & ? & -> & ->). eexists. split; [by exists old|done].
Qed.

Lemma release_client_outcome io key owner db db' r : ReleaseClientContentLease io key owner db = (db', r) ->
  (db' = db /\ exists e, r = Err e) \/
  exists token, updates_one io (ClientRef (client_key_of key)) owner (tx_now io) db db' token.
Proof.
  intros [?|(a & H & ?)]%admitted_outcome; [by left|right]. ok_step H. injection H as <- <-.
  apply release_row_ok in Hok as (old & ? & ? & ->). eexists. by exists old.
Qed.

Lemma renew_object_outcome io object owner d which db db' r : renewObjectLease io object owner d which db = (db', r) ->
  (db' = db /\ exists e, r = Err e) \/
  exists token, updates_one io (object_ref which object) owner (tx_after io d) db db' token /\ (r = Ok token \/ exists e, r = Err e).
Proof.
  intros [?|(a & H & ?)]%admitted_outcome; [by left|right]. ok_step H. destruct x as [t token]. injection H as <- <-.
  apply renew_row_ok in Hok as (old & ? & ? & -> & ->). eexists. split; [destruct which; by exists old|done].
Qed.

Lemma release_object_outcome io object owner which db db' r : releaseObjectLease io object owner which db = (db', r) ->
  (db' = db /\ exists e, r = Err e) \/
  exists token, updates_one io (object_ref which object) owner (tx_now io) db db' token.
Proof.
  intros [?|(a & H & ?)]%admitted_outcome; [by left|right]. ok_step H. injection H as <- <-.
  apply release_row_ok in Hok as (old & ? & ? & ->). eexists. destruct which; by exists old.
Qed.

Lemma epoch_or_ok {A} missing what locked (next : Z -> result A) a : epoch_or missing what locked next = Ok a ->
  exists epoch, locked = Ok epoch /\ next epoch = Ok a.
Proof. unfold epoch_or. destruct locked as [epoch|e]; [by eauto|]. by destruct (errors_Is _ e). Qed.

Lemma lock_epoch_ok io object db epoch : lockContentDeliveryEpochForFence io object db = Ok epoch ->
  ld_epochs db !! key_of object = Some epoch /\ 0 <= epoch.
Proof.
  unfold lockContentDeliveryEpochForFence. intros H. ok_step H. destruct (ld_epochs db !! _) as [e|]; [|done].
  destruct (_ || _) eqn:E; [done|]. injection H as <-. by breflect.
Qed.

(** The fence lease of an object is not live. *)
Definition unfenced (io : record_io) (object : ObjectRef) (db : lease_db) : Prop :=
  match ld_fences db !! key_of object with Some row => lr_expires_at row <= tx_now io | None => True end.

Lemma lock_fence_ok io object db locked : lockDeletionFenceLeaseForFence io object db = Ok locked ->
  lf_live locked = false ->
  unfenced io object db /\ lf_generation locked = match ld_fences db !! key_of object with Some row => lr_owner_generation row | None => 0 end.
Proof.
  unfold lockDeletionFenceLeaseForFence, unfenced. intros H. ok_step H. destruct (ld_fences db !! _) as [row|].
  - destruct (_ || _) eqn:E; [done|]. injection H as <-. cbn. intros H. by breflect.
  - by injection H as <-.
Qed.

Lemma fence_lease_outcome io object input db db' r : AcquireDeletionFenceLease io object input db = (db', r) ->
  (db' = db /\ exists e, r = Err e) \/
  exists token, claims_one io (FenceRef (key_of object)) db db' token /\ (r = Ok {| df_Object := object; df_Owner := token |} \/ exists e, r = Err e).
Proof.
  intros [?|(a & H & ?)]%admitted_outcome; [by left|right]. apply epoch_or_ok in H as (epoch & _ & H).
  ok_step H. destruct x as [d token]. injection H as <- <-. apply (claim_object_ok _ _ _ DeletionFences) in Hok. by exists token.
Qed.

Lemma content_outcome io object input db db' r : AcquireObjectContentLease io object input db = (db', r) ->
  (db' = db /\ exists e, r = Err e) \/
  exists token, claims_one io (ContentRef (key_of object)) db db' token /\ (r = Ok {| oc_Object := object; oc_Owner := token |} \/ exists e, r = Err e).
Proof.
  intros [?|(a & H & ?)]%admitted_outcome; [by left|right]. apply epoch_or_ok in H as (epoch & _ & H).
  do 3 ok_step H. destruct x1 as [d token]. injection H as <- <-. apply (claim_object_ok _ _ _ ObjectContents) in Hok1. by exists token.
Qed.

Lemma client_outcome io key input db db' r : AcquireClientContentLease io key input db = (db', r) ->
  (db' = db /\ exists e, r = Err e) \/
  exists token, claims_one io (ClientRef (client_key_of key)) db db' token /\ (r = Ok {| cl_Key := key; cl_Owner := token |} \/ exists e, r = Err e).
Proof.
  intros [?|(a & H & ?)]%admitted_outcome; [by left|right].
  ok_step H. destruct x as [d token]. injection H as <- <-. apply claim_client_ok in Hok. by exists token.
Qed.

Lemma new_serving_ok lease epoch serving : NewServingLeaseV1 lease epoch = Ok serving ->
  serving = {| sl_Object := oc_Object lease; sl_Owner := oc_Owner lease; sl_CapturedEpoch := epoch |}.
Proof. unfold NewServingLeaseV1. intros H. do 2 ok_step H. by injection H. Qed.

Lemma assert_serving_ok io serving db x : assertServingLeaseInTransaction io serving db = Ok x -> serving_row io serving db = true.
Proof.
  unfold assertServingLeaseInTransaction. intros H. ok_step H. apply reject_ok, negb_false_iff in H. subst.
  apply map_error_ok in Hok. do 3 ok_step Hok. by injection Hok.
Qed.

(** What a serving lease is asserted against. *)
Lemma serving_row_true io serving db : serving_row io serving db = true ->
  (exists row, ld_contents db !! key_of (sl_Object serving) = Some row /\ owner_matches io (sl_Owner serving) row = true) /\
  ld_epochs db !! key_of (sl_Object serving) = Some (sl_CapturedEpoch serving) /\ unfenced io (sl_Object serving) db.
Proof.
  unfold serving_row, unfenced. destruct (ld_contents db !! _) as [row|]; [|done]. destruct (ld_epochs db !! _) as [epoch|]; [|done].
  intros H. breflect. subst. split_and!; [by exists row|done|]. destruct (ld_fences db !! _); [|done]. by breflect.
Qed.

Lemma serve_outcome io object input db db' r : AcquireServingLease io object input db = (db', r) ->
  (db' = db /\ exists e, r = Err e) \/
  exists token epoch, claims_one io (ContentRef (key_of object)) db db' token /\ ld_epochs db !! key_of object = Some epoch /\
    unfenced io object db /\
    (r = Ok {| sl_Object := object; sl_Owner := token; sl_CapturedEpoch := epoch |} \/ exists e, r = Err e).
Proof.
  intros [?|(a & H & ?)]%admitted_outcome; [by left|right]. apply epoch_or_ok in H as (epoch & [He _]%lock_epoch_ok & H).
  do 3 ok_step H. destruct x1 as [d token]. do 2 ok_step H. injection H as <- <-. apply map_error_ok in Hok.
  destruct (lock_fence_ok _ _ _ _ Hok Hok0) as [Hf _].
  apply (claim_object_ok _ _ _ ObjectContents) in Hok1. apply new_serving_ok in Hok2. subst. eauto 8.
Qed.

Lemma renew_serving_outcome io serving d db db' r : RenewServingLease io serving d db = (db', r) ->
  (db' = db /\ exists e, r = Err e) \/
  exists token, updates_one io (ContentRef (key_of (sl_Object serving))) (sl_Owner serving) (tx_after io d) db db' token /\
    ld_epochs db !! key_of (sl_Object serving) = Some (sl_CapturedEpoch serving) /\ unfenced io (sl_Object serving) db /\
    (r = Ok {| sl_Object := sl_Object serving; sl_Owner := token; sl_CapturedEpoch := sl_CapturedEpoch serving |} \/ exists e, r = Err e).
Proof.
  intros [?|(a & H & ?)]%admitted_outcome; [by left|right]. apply epoch_or_ok in H as (epoch & [He _]%lock_epoch_ok & H).
  do 6 ok_step H. destruct x4 as [t token]. do 2 ok_step H. injection H as <- <-.
  apply negb_false_iff, Z.eqb_eq in Hok. subst epoch. apply map_error_ok in Hok0.
  destruct (lock_fence_ok _ _ _ _ Hok0 Hok1) as [Hf _].
  apply renew_row_ok in Hok4 as (old & ? & ? & -> & ->). apply new_serving_ok in Hok5. subst.
  eexists. split_and!; [by exists old|done|done|done].
Qed.

Lemma assert_serving_outcome io serving db db' r : AssertServingLease io serving db = (db', r) ->
  db' = db /\ ((exists e, r = Err e) \/ serving_row io serving db = true).
Proof.
  intros [[]|(a & H & ?)]%admitted_outcome; [by eauto|]. ok_step H. injection H as <- <-. apply assert_serving_ok in Hok. by eauto.
Qed.

(** ** Reservation fences *)

Definition fenced_row (epoch : Z) (row : lease_row) (res : reservation_row) : reservation_row := {|
  rr_object := rr_object res; rr_state := ReservationFenced; rr_fence_epoch := epoch; rr_owner_id := lr_owner_id row;
  rr_owner_generation := lr_owner_generation row; rr_owner_expires_at := Some (lr_expires_at row); rr_expires_at := rr_expires_at res |}.

Lemma reservation_check_ok row row' : reservation_check row = Ok row' -> row' = row.
Proof. unfold reservation_check. intros H. ok_step H. by injection H. Qed.

Lemma lock_reservation_ok io id db locked : lockPreviewedDeletionReservationForFence io id db = Ok locked ->
  exists res, ld_reservations db !! id = Some res /\ rr_state res = ReservationPreviewed /\ lv_object locked = rr_object res /\
    lv_ownerGeneration locked = rr_owner_generation res.
Proof.
  unfold lockPreviewedDeletionReservationForFence. intros H. ok_step H. destruct (ld_reservations db !! id) as [res|]; [|done].
  destruct (previewed_live io res) eqn:E; cbn in H; [|done]. destruct (_ || _); [done|]. ok_step H. injection H as <-.
  exists res. split_and!; try done. unfold previewed_live in E. by breflect.
Qed.

Lemma next_generation_ok a b g : nextReservationFenceGeneration a b = Ok g -> a < g /\ b < g /\ 1 <= g.
Proof.
  unfold nextReservationFenceGeneration. intros H. ok_step H. injection H as <-. breflect. destruct (a <? b) eqn:E; breflect; lia.
Qed.

Lemma fence_reservation_ok io id owner epoch generation d db db' token :
  fence_reservation io id owner epoch generation d db = Ok (Some (db', token)) ->
  exists res, ld_reservations db !! id = Some res /\
    db' = set_reservations (<[id := {| rr_object := rr_object res; rr_state := ReservationFenced; rr_fence_epoch := epoch;
      rr_owner_id := owner; rr_owner_generation := generation; rr_owner_expires_at := Some (tx_after io d);
      rr_expires_at := rr_expires_at res |}]> (ld_reservations db)) db /\
    token = {| ol_OwnerID := owner; ol_Generation := generation; ol_ExpiresAt := tx_after io d |}.
Proof.
  unfold fence_reservation. destruct (ld_reservations db !! id) as [res|]; [|done]. destruct (previewed_live io res); [|done].
  intros H. do 2 ok_step H. injection H as <- <-. apply reservation_check_ok in Hok. subst.
  unfold scanIdempotencyOwner in Hok0. destruct (_ <? _); [done|]. ok_step Hok0. injection Hok0 as <-. by exists res.
Qed.

Lemma fence_lease_ok io object owner generation d db db' token :
  fence_lease io object owner generation d db = Ok (Some (db', token)) ->
  exists row, db' = put (FenceRef (key_of object)) row db /\ token = owner_of row /\ unfenced io object db /\
    lr_owner_id row = owner /\ lr_owner_generation row = generation /\ lr_expires_at row = tx_after io d.
Proof.
  unfold fence_lease, unfenced. cbn zeta. intros H.
  destruct (ld_fences db !! _) as [old|]; [destruct (_ <=? _) eqn:E; [|done]; breflect|]; do 2 ok_step H; injection H as <- <-;
    apply lease_check_ok in Hok; subst; apply scanLiveOwnerLease_ok in Hok0 as [-> _]; eexists; split_and!; done || reflexivity.
Qed.

Lemma or_lost_ok {A} what (out : result (option A)) a : or_lost what out = Ok a -> out = Ok (Some a).
Proof. unfold or_lost. intros H. ok_step H. apply map_error_ok in Hok. destruct x; [|done]. by injection H as <-. Qed.

Lemma increment_epoch_ok io object db db' epoch epoch' : ld_epochs db !! key_of object = Some epoch ->
  incrementContentDeliveryEpochForFence io object db = Ok (db', epoch') ->
  epoch' = epoch + 1 /\ db' = set_epochs (<[key_of object := epoch + 1]> (ld_epochs db)) db.
Proof.
  unfold incrementContentDeliveryEpochForFence. intros He H. ok_step H. rewrite He in H. do 2 ok_step H. injection H as <- <-.
  by apply next_bigint_ok in Hok0 as ->.
Qed.

Lemma fence_outcome io input db db' r : FenceDeletionReservation io input db = (db', r) ->
  (db' = db /\ exists e, r = Err e) \/
  exists row epoch res, let key := key_of (fe_Object input) in
    ld_reservations db !! fe_ReservationID input = Some res /\ rr_object res = fe_Object input /\ rr_state res = ReservationPreviewed /\
    ld_epochs db !! key = Some epoch /\ 0 <= epoch /\ claims (tx_now io) (ld_fences db !! key) row /\
    lr_expires_at row = tx_after io (fe_OwnerLeaseDuration input) /\
    db' = put (FenceRef key) row (set_reservations (<[fe_ReservationID input := fenced_row (epoch + 1) row res]> (ld_reservations db))
            (set_epochs (<[key := epoch + 1]> (ld_epochs db)) db)) /\
    (r = Ok {| rv_ReservationID := fe_ReservationID input; rv_Object := fe_Object input; rv_FenceEpoch := epoch + 1; rv_Owner := owner_of row |}
     \/ exists e, r = Err e).
Proof.
  intros [?|(a & H & Hr)]%admitted_outcome; [by left|right]. unfold fenceDeletionReservationInTransaction in H.
  ok_step H. destruct (lockPreviewedDeletionReservationForFence _ _ _) as [locked|e] eqn:Hl; [|by destruct (errors_Is _ e)].
  injection Hok as <-. apply lock_reservation_ok in Hl as (res & Hres & Hstate & Hobj & Hgen).
  ok_step H. apply negb_false_iff, bool_decide_eq_true in Hok. rewrite Hobj in Hok.
  apply epoch_or_ok in H as (epoch & [He H0]%lock_epoch_ok & H). do 5 ok_step H. apply map_error_ok in Hok0.
  destruct (lock_fence_ok _ _ _ _ Hok0 Hok1) as [Hf Hfg]. apply next_generation_ok in Hok3 as (_ & Hg & Hg1).
  destruct x4 as [db1 newEpoch]. apply map_error_ok, (increment_epoch_ok _ _ _ _ _ _ He) in Hok4 as [-> ->].
  ok_step H. ok_step H. destruct x5 as [db2 owner]. ok_step H. destruct x5 as [db3 fenceOwner]. do 2 ok_step H. injection H as <- <-.
  apply or_lost_ok in Hok4. ok_step Hok4. apply fence_reservation_ok in Hok4 as (res' & Hres' & -> & ->). cbn in Hres'.
  rewrite Hres in Hres'. injection Hres' as <-.
  apply or_lost_ok in Hok5. ok_step Hok5. apply fence_lease_ok in Hok5 as (row & -> & -> & _ & Ho & Hg' & Hx).
  breflect. exists row, epoch, res. cbn zeta. split_and!; try done.
  - unfold claims, unfenced in *. destruct (ld_fences db !! _) as [old|]; [split; [done|]|]; rewrite Hg'; lia.
  - unfold fenced_row. by rewrite Ho, Hg', Hx.
  - destruct Hr as [->|]; [left|by right]. do 2 f_equal. by apply bool_decide_eq_true in H.
Qed.

(** Where the exact live fence of a reservation is. *)
Definition holds_fence (io : record_io) (fence : DeletionReservationFenceV1) (db : lease_db) (res : reservation_row) : Prop :=
  ld_reservations db !! rv_ReservationID fence = Some res /\ fence_matches io fence res = true.

Lemma update_fenced_ok io what fence change db db' row : update_fenced io what fence change db = Ok (Some (db', row)) ->
  exists res, holds_fence io fence db res /\ row = change res /\
    db' = set_reservations (<[rv_ReservationID fence := change res]> (ld_reservations db)) db.
Proof.
  unfold update_fenced. intros H. do 2 ok_step H. destruct (ld_reservations db !! _) as [res|] eqn:E; [|done].
  destruct (fence_matches io fence res) eqn:Em; [|done]. ok_step H. injection H as <- <-. apply reservation_check_ok in Hok1 as ->.
  by exists res.
Qed.

Definition extend_reservation (at_ : Z) (res : reservation_row) : reservation_row :=
  with_owner (rr_state res) (rr_owner_id res) (rr_owner_generation res) (Some at_) res.

Lemma renew_fence_outcome io fence d db db' r : RenewDeletionReservationFence io fence d db = (db', r) ->
  (db' = db /\ exists e, r = Err e) \/
  exists res token, holds_fence io fence db res /\
    updates_one io (FenceRef (key_of (rv_Object fence))) (rv_Owner fence) (tx_after io d)
      (set_reservations (<[rv_ReservationID fence := extend_reservation (tx_after io d) res]> (ld_reservations db)) db) db' token /\
    (r = Ok {| rv_ReservationID := rv_ReservationID fence; rv_Object := rv_Object fence; rv_FenceEpoch := rv_FenceEpoch fence; rv_Owner := token |}
     \/ exists e, r = Err e).
Proof.
  intros [?|(a & H & Hr)]%admitted_outcome; [by left|right]. ok_step H. destruct x as [db1 owner]. apply map_error_ok in Hok.
  ok_step Hok. destruct x as [[db2 row]|]; [|done]. ok_step Hok. injection Hok as <- <-.
  apply update_fenced_ok in Hok0 as (res & Hres & -> & ->). ok_step H. destruct x0 as [t token]. ok_step H. cbv zeta in H. ok_step H. injection H as <- <-.
  apply negb_false_iff, bool_decide_eq_true in Hok0 as ->. apply renew_row_ok in Hok as (old & ? & ? & -> & ->).
  eexists res, _. split_and!; [done|by exists old|done].
Qed.

Lemma release_fence_outcome io fence db db' r : ReleaseDeletionReservationFence io fence db = (db', r) ->
  (db' = db /\ exists e, r = Err e) \/
  exists res token, holds_fence io fence db res /\
    updates_one io (FenceRef (key_of (rv_Object fence))) (rv_Owner fence) (tx_now io)
      (set_reservations (<[rv_ReservationID fence := with_owner ReservationReleased "" 0 None res]> (ld_reservations db)) db) db' token.
Proof.
  intros [?|(a & H & Hr)]%admitted_outcome; [by left|right]. ok_step H. apply map_error_ok in Hok.
  destruct x as [[db1 row]|]; [|done]. apply update_fenced_ok in Hok as (res & Hres & -> & ->). ok_step H. injection H as <- <-.
  apply release_row_ok in Hok as (old & ? & ? & ->). eexists res, _. split; [done|by exists old].
Qed.

Lemma fence_row_true io fence db : fence_row io fence db = true ->
  exists res lease, holds_fence io fence db res /\ rr_object res = rv_Object fence /\
    ld_epochs db !! key_of (rv_Object fence) = Some (rr_fence_epoch res) /\
    ld_fences db !! key_of (rv_Object fence) = Some lease /\ owner_matches io (rv_Owner fence) lease = true.
Proof.
  unfold fence_row, holds_fence. destruct (ld_reservations db !! _) as [res|]; [|done].
  destruct (ld_epochs db !! _) as [epoch|] eqn:Ee; [|done]. destruct (ld_fences db !! _) as [lease|] eqn:Ef; [|done].
  intros H. breflect. apply bool_decide_eq_true in H. rewrite H in Ee, Ef. subst epoch. by exists res, lease.
Qed.

Lemma assert_fence_outcome io fence db db' r : AssertDeletionReservationFence io fence db = (db', r) ->
  db' = db /\ ((exists e, r = Err e) \/ fence_row io fence db = true).
Proof.
  intros [[]|(a & H & ?)]%admitted_outcome; [by eauto|]. do 2 ok_step H. injection H as <- <-. apply map_error_ok in Hok.
  do 2 ok_step Hok. injection Hok as <-. apply negb_false_iff in Hok0. by eauto.
Qed.

(** ** The guards of one acquisition *)

Definition guards_held (io : record_io) (db0 : lease_db) (st : lease_db * list IdentityMutationGuardV1) : Prop :=
  (forall ref, lease_at ref st.1 = lease_at ref db0 \/ exists row, lease_at ref st.1 = Some row /\ claims (tx_now io) (lease_at ref db0) row) /\
  (ld_epochs st.1 = ld_epochs db0 /\ ld_reservations st.1 = ld_reservations db0) /\
  forall guard, guard ∈ st.2 -> exists row, lease_at (GuardRef (guard_key_of (ig_Key guard))) st.1 = Some row /\
    ig_Owner guard = owner_of row /\ tx_now io < lr_expires_at row /\
    claims (tx_now io) (lease_at (GuardRef (guard_key_of (ig_Key guard))) db0) row.

Lemma claims_trans t old mid new : claims t old mid -> claims t (Some mid) new -> claims t old new.
Proof. unfold claims. destruct old; cbn; lia. Qed.

Lemma guards_step io db0 n key input db guards db' owner : 0 < Duration_Microseconds (li_LeaseDuration input) ->
  guards_held io db0 (db, guards) -> claimIdentityMutationGuardInTransaction io n key input db = Ok (db', owner) ->
  guards_held io db0 (db', guards ++ [{| ig_Key := key; ig_Owner := owner |}]).
Proof.
  intros Hd (Hrows & [Hep Hre] & Hg) ((row & -> & Hc & ->) & Hx)%claim_guard_ok. cbn [fst snd] in *. set (ref := GuardRef (guard_key_of key)) in *.
  assert (claims (tx_now io) (lease_at ref db0) row) as Hc0.
  { destruct (Hrows ref) as [H|(mid & H & Hm)]; [by rewrite <- H|]. rewrite H in Hc. by eapply claims_trans. }
  split_and!.
  - intros r. cbn [fst]. rewrite lease_at_put. destruct (decide (r = ref)) as [->|]; eauto.
  - done.
  - done.
  - intros guard [Hin| ->%list_elem_of_singleton]%elem_of_app; cbn [fst ig_Key ig_Owner].
    + destruct (Hg _ Hin) as (row' & Hr & Ho & Hl & Hc'). rewrite lease_at_put.
      destruct (decide (_ = ref)) as [He|]; [|by exists row']. rewrite He in Hr. rewrite Hr in Hc. destruct Hc. lia.
    + rewrite lease_at_put, decide_True by done. exists row. split_and!; try done.
      cbn in Hx. rewrite Hx. unfold tx_after. lia.
Qed.

Lemma guards_outcome io keys input db db' r : AcquireIdentityMutationGuards io keys input db = (db', r) ->
  (db' = db /\ exists e, r = Err e) \/ exists guards, guards_held io db (db', guards) /\ (r = Ok guards \/ exists e, r = Err e).
Proof.
  unfold AcquireIdentityMutationGuards. destruct (CanonicalIdentityMutationGuardKeysV1 keys) as [canonical|e];
    [|intros [= <- <-]; left; by eauto].
  intros [?|(guards & Hc & H & Hr)]%admitted_inv; [by left|right]. exists guards. split; [|done].
  unfold LeaseClaimInput_Validate in Hc. apply reject_ok in Hc. breflect.
  refine (fold_result_inv (guards_held io db) _ _ _ _ _ _ _ H).
  - intros n key [d g] st' _ Hst Hb. ok_step Hb. destruct x as [d' owner]. injection Hb as <-. by eapply guards_step.
  - split_and!; cbn; [by left|done|done|]. by intros guard ?%elem_of_nil.
Qed.
