(* ===== verification/LeaseClaims.v ===== *)
(** What the owner leases and the reservation fences promise, over every sequence of their transactions and whatever
    the timestamps of these are: one holder at a time, holders that cannot come back, fences that end serving, one
    fence at a time. *)
From stdpp Require Import base list strings gmap.
From Stdlib Require Import ZArith Lia.
From S2P Require Import Prelude GoRuntime Postgres RecordCodec RecordPlatform LeaseStore LeaseRuns.

Local Open Scope Z_scope.

(** * Every operation moves a lease as a lock *)

Lemma claims_one_rows io ref0 db db' owner : claims_one io ref0 db db' owner ->
  (forall ref, row_moves (tx_now io) (lease_at ref db) (lease_at ref db')) /\ ld_epochs db' = ld_epochs db /\
  ld_reservations db' = ld_reservations db /\ exists row, lease_at ref0 db' = Some row /\ owner = owner_of row /\ claims (tx_now io) (lease_at ref0 db) row.
Proof.
  intros (row & -> & Hc & ->). rewrite put_epochs, put_reservations. split_and!; try done.
  - intros ref. rewrite lease_at_put. destruct (decide (ref = ref0)) as [->|]; by constructor.
  - exists row. by rewrite lease_at_put, decide_True.
Qed.

Lemma updates_one_rows io ref0 token at_ db db' owner : updates_one io ref0 token at_ db db' owner ->
  (forall ref, row_moves (tx_now io) (lease_at ref db) (lease_at ref db')) /\ ld_epochs db' = ld_epochs db /\
  ld_reservations db' = ld_reservations db /\ exists row, lease_at ref0 db = Some row /\ owner_matches io token row = true.
Proof.
  intros (old & Ho & Hm & -> & ->). rewrite put_epochs, put_reservations. split_and!; try done; [|by exists old].
  intros ref. rewrite lease_at_put. destruct (decide (ref = ref0)) as [->|]; [|by constructor].
  rewrite Ho. apply moves_updated. by apply owner_matches_live in Hm as [_ ?].
Qed.

(** The three kinds of operation: nothing but an answer, claims of the rows it hands out tokens for, updates by the
    exact live owner. *)
Inductive op_view (io : record_io) (op : lease_op) (db db' : lease_db) (r : result tokens) : Prop :=
| view_refused : db' = db -> (exists e, r = Err e) -> op_view io op db db' r
| view_asserted ref token row : db' = db -> presents op = Some (ref, token) -> claiming op = false -> lease_at ref db = Some row ->
    owner_matches io token row = true -> op_view io op db db' r
| view_claimed : presents op = None -> (forall ref, row_moves (tx_now io) (lease_at ref db) (lease_at ref db')) ->
    (forall toks ref token, r = Ok toks -> (ref, token) ∈ toks -> claiming op = true ->
      exists row, lease_at ref db' = Some row /\ token = owner_of row /\ claims (tx_now io) (lease_at ref db) row) -> op_view io op db db' r
| view_updated ref token row : presents op = Some (ref, token) -> claiming op = false -> lease_at ref db = Some row ->
    owner_matches io token row = true -> (forall ref, row_moves (tx_now io) (lease_at ref db) (lease_at ref db')) -> op_view io op db db' r.

Lemma view_claims_one io op ref0 db db' r owner : presents op = None -> claims_one io ref0 db db' owner ->
  (r = Ok [(ref0, owner)] \/ exists e, r = Err e) -> op_view io op db db' r.
Proof.
  intros Hp (Hrows & _ & _ & Hrow)%claims_one_rows Hr. apply view_claimed; [done..|].
  intros toks ref token -> Hin _. destruct Hr as [[= ->]|[e [=]]]. apply list_elem_of_singleton in Hin as [= -> ->]. done.
Qed.

Lemma view_updates_one io op ref0 token at_ db db' r owner : presents op = Some (ref0, token) -> claiming op = false ->
  updates_one io ref0 token at_ db db' owner -> op_view io op db db' r.
Proof. intros Hp Hc (Hrows & _ & _ & row & Hrow & Hm)%updates_one_rows. by eapply view_updated. Qed.

Lemma answers_token {A} (f : A -> tokens) (r0 : result A) (r : result tokens) a toks :
  (exists a, r0 = Ok a /\ r = Ok (f a)) \/ (exists e, r0 = Err e /\ r = Err e) ->
  r0 = Ok a \/ (exists e, r0 = Err e) -> f a = toks -> r = Ok toks \/ exists e, r = Err e.
Proof. intros [(a' & -> & ->)|(e & -> & ->)] H <-; [|by eauto]. destruct H as [[= ->]|[e [=]]]. by left. Qed.

Lemma answers_err {A} (f : A -> tokens) (r0 : result A) (r : result tokens) :
  (exists a, r0 = Ok a /\ r = Ok (f a)) \/ (exists e, r0 = Err e /\ r = Err e) -> (exists e, r0 = Err e) -> exists e, r = Err e.
Proof. intros [(a' & -> & ->)|(e & -> & ->)] H; [|by eauto]. by destruct H as [e [=]]. Qed.

(** The rows of a fence operation: those of the tables around its reservation. *)
Lemma lease_at_reservations ref res db : lease_at ref (set_reservations res db) = lease_at ref db.
Proof. by destruct ref. Qed.
Lemma lease_at_epochs ref e db : lease_at ref (set_epochs e db) = lease_at ref db.
Proof. by destruct ref. Qed.

Lemma view_fence io input db db' r0 r : FenceDeletionReservation io input db = (db', r0) ->
  (exists f, r0 = Ok f /\ r = Ok [(FenceRef (key_of (fe_Object input)), rv_Owner f)]) \/ (exists e, r0 = Err e /\ r = Err e) ->
  op_view io (OpFence input) db db' r.
Proof.
  intros [[-> He]|(row & epoch & res & _ & _ & _ & _ & _ & Hc & _ & -> & Hr)]%fence_outcome Ha.
  { apply view_refused; [done|exact (answers_err _ _ _ Ha He)]. }
  apply view_claimed; [done| |].
  - intros ref. rewrite lease_at_put, lease_at_reservations, lease_at_epochs.
    destruct (decide (ref = _)) as [->|]; [by apply moves_claimed|by constructor].
  - intros toks ref token -> Hin _. destruct Ha as [(f & -> & [= ->])|(e & _ & [=])]. destruct Hr as [[= ->]|[e [=]]].
    apply list_elem_of_singleton in Hin as [= -> ->]. exists row. by rewrite lease_at_put, decide_True.
Qed.

Lemma view_updates_fence io op fence at_ rs db db' r owner : presents op = Some (FenceRef (key_of (rv_Object fence)), rv_Owner fence) ->
  claiming op = false ->
  updates_one io (FenceRef (key_of (rv_Object fence))) (rv_Owner fence) at_ (set_reservations rs db) db' owner -> op_view io op db db' r.
Proof.
  intros Hp Hc (Hrows & _ & _ & row & Hrow & Hm)%updates_one_rows. rewrite lease_at_reservations in Hrow.
  eapply view_updated; [exact Hp|exact Hc|exact Hrow|exact Hm|]. intros ref. specialize (Hrows ref). by rewrite lease_at_reservations in Hrows.
Qed.

Lemma view_guards io keys input db db' r0 r : AcquireIdentityMutationGuards io keys input db = (db', r0) ->
  (exists gs, r0 = Ok gs /\ r = Ok ((fun g => (GuardRef (guard_key_of (ig_Key g)), ig_Owner g)) <$> gs)) \/ (exists e, r0 = Err e /\ r = Err e) ->
  op_view io (OpGuards keys input) db db' r.
Proof.
  intros [[-> He]|(guards & (Hrows & _ & Hg) & Hr)]%guards_outcome Ha; [apply view_refused; [done|exact (answers_err _ _ _ Ha He)]|].
  apply view_claimed; [done| |].
  - intros ref. cbn in Hrows. destruct (Hrows ref) as [->|(row & -> & Hc)]; by constructor.
  - intros toks ref token -> Hin _. destruct Ha as [(gs & -> & [= ->])|(e & _ & [=])]. destruct Hr as [[= ->]|[e [=]]].
    apply list_elem_of_fmap in Hin as (g & [= -> ->] & Hin). destruct (Hg g Hin) as (row & ? & ? & _ & ?). by exists row.
Qed.

Ltac refused := apply view_refused; [done|match goal with Hr : _ \/ _ |- _ => exact (answers_err _ _ _ Hr ltac:(eassumption)) end].
Ltac claimed Hc := eapply view_claims_one; [done|exact Hc|]; match goal with Hr : (exists _, _ /\ _) \/ _, Ht : _ |- _ =>
  exact (answers_token _ _ _ _ _ Hr Ht eq_refl) end.

Lemma perform_view io op db db' r : perform_lease io op db = (db', r) -> op_view io op db db' r.
Proof.
  intros H. destruct op as [keys input|key owner d|key owner|object input|object input|which object owner d|which object owner
    |key input|key owner d|key owner|object input|serving d|serving|input|fence d|fence|fence|object|id object expires];
    cbn [perform_lease] in H; unfold no_tokens in H;
    try (destruct which; unfold RenewDeletionFenceLease, RenewObjectContentLease in H);
    try (apply answered_inv in H as (r0 & H & Hr)).
  - by eapply view_guards.
  - apply renew_guard_outcome in H as [[-> He]|(token & Hu & _)]; [refused|by eapply view_updates_one].
  - apply release_guard_outcome in H as [[-> He]|(token & Hu)]; [refused|by eapply view_updates_one].
  - apply fence_lease_outcome in H as [[-> He]|(token & Hc & Ht)]; [refused|claimed Hc].
  - apply content_outcome in H as [[-> He]|(token & Hc & Ht)]; [refused|claimed Hc].
  - apply answered_inv in H as (r1 & H & Hr1). apply renew_object_outcome in H as [[-> [e ->]]|(token & Hu & _)];
      [destruct Hr1 as [(? & [=] & _)|(? & _ & ->)], Hr as [(? & [=] & _)|(? & _ & ->)]; apply view_refused; by eauto
      |by eapply view_updates_one].
  - apply answered_inv in H as (r1 & H & Hr1). apply renew_object_outcome in H as [[-> [e ->]]|(token & Hu & _)];
      [destruct Hr1 as [(? & [=] & _)|(? & _ & ->)], Hr as [(? & [=] & _)|(? & _ & ->)]; apply view_refused; by eauto
      |by eapply view_updates_one].
  - apply release_object_outcome in H as [[-> He]|(token & Hu)]; [refused|by eapply view_updates_one].
  - apply release_object_outcome in H as [[-> He]|(token & Hu)]; [refused|by eapply view_updates_one].
  - apply client_outcome in H as [[-> He]|(token & Hc & Ht)]; [refused|claimed Hc].
  - apply renew_client_outcome in H as [[-> He]|(token & Hu & _)]; [refused|by eapply view_updates_one].
  - apply release_client_outcome in H as [[-> He]|(token & Hu)]; [refused|by eapply view_updates_one].
  - apply serve_outcome in H as [[-> He]|(token & epoch & Hc & _ & _ & Ht)]; [refused|claimed Hc].
  - apply renew_serving_outcome in H as [[-> He]|(token & Hu & _)]; [refused|by eapply view_updates_one].
  - apply assert_serving_outcome in H as [-> [He|([row [Hrow Hm]] & _)%serving_row_true]]; [refused|]. by eapply view_asserted.
  - by eapply view_fence.
  - apply renew_fence_outcome in H as [[-> He]|(res & token & _ & Hu & _)]; [refused|by eapply view_updates_fence].
  - apply release_fence_outcome in H as [[-> He]|(res & token & _ & Hu)]; [refused|by eapply view_updates_fence].
  - apply assert_fence_outcome in H as [-> [He|(res & lease & _ & _ & _ & Hf & Hm)%fence_row_true]]; [refused|]. by eapply view_asserted.
  - injection H as <- <-. apply view_claimed; [done| |done]. intros ref. unfold initialize_epoch.
    destruct (ld_epochs db !! _); rewrite ?lease_at_epochs; constructor.
  - injection H as <- <-. apply view_claimed; [done| |done]. intros ref. unfold create_reservation.
    destruct (ld_reservations db !! _); rewrite ?lease_at_reservations; constructor.
Qed.

Lemma perform_rows io op db ref : row_moves (tx_now io) (lease_at ref db) (lease_at ref (perform_lease io op db).1).
Proof. destruct (perform_lease io op db) as [db' r] eqn:E. destruct (perform_view _ _ _ _ _ E); subst; by constructor || done. Qed.

(** ** Generations only grow *)

(** The row of a lease is there with at least this generation. *)
Definition past (ref : lease_ref) (g : Z) (db : lease_db) : Prop :=
  exists row, lease_at ref db = Some row /\ g <= lr_owner_generation row.

Lemma past_perform io op ref g db : past ref g db -> past ref g (perform_lease io op db).1.
Proof.
  intros (row & Hrow & Hg). unfold past. pose proof (perform_rows io op db ref) as Hm. rewrite Hrow in Hm.
  inversion Hm as [r|old new Hc|old at_ Hl]; subst; eexists; split; try done; cbn in *; lia.
Qed.

Lemma past_run calls ref g db : past ref g db -> past ref g (run_leases calls db).
Proof. revert db. induction calls as [|c calls IH]; intros db H; [done|]. by apply IH, past_perform. Qed.

(** A token of an earlier generation is worth nothing. *)
Lemma stale_refused io op ref token g db : past ref g db -> ol_Generation token < g -> presents op = Some (ref, token) ->
  (perform_lease io op db).1 = db /\ exists e, (perform_lease io op db).2 = Err e.
Proof.
  intros (row & Hrow & Hg) Ht Hp. destruct (perform_lease io op db) as [db' r] eqn:E.
  destruct (perform_view _ _ _ _ _ E) as [|? ? ? ? Hp' _ Hrow' Hm|Hp'|? ? ? Hp' _ Hrow' Hm]; [done|..];
    rewrite Hp in Hp'; simplify_eq; apply owner_matches_live in Hm as [? _]; lia.
Qed.

(** C15: Tenures of a lease do not overlap and do not come back, whatever the timestamps of the
    transactions are.  Let an operation hand out a token for a guard, a deletion fence, an object's content or a
    client's content, and a later one claim the same lease again.  Then the second token has a larger generation; at
    the time of the second claim the tenure of the first, as last extended, was over; and from then on every renewal,
    release or assertion that presents the first token, or any token of its generation or an older one, is refused
    and changes nothing. *)
Theorem lease_tenure_exclusive io1 op1 db1 toks1 ref T1 calls io2 op2 toks2 T2 :
  claiming op1 = true -> (perform_lease io1 op1 db1).2 = Ok toks1 -> (ref, T1) ∈ toks1 ->
  let db2 := run_leases calls (perform_lease io1 op1 db1).1 in
  claiming op2 = true -> (perform_lease io2 op2 db2).2 = Ok toks2 -> (ref, T2) ∈ toks2 ->
  ol_Generation T1 < ol_Generation T2 /\
  (exists row, lease_at ref db2 = Some row /\ ol_Generation T1 <= lr_owner_generation row /\ lr_expires_at row <= tx_now io2) /\
  forall calls' io op T, presents op = Some (ref, T) -> ol_Generation T <= ol_Generation T1 ->
    let db := run_leases calls' (perform_lease io2 op2 db2).1 in
    (perform_lease io op db).1 = db /\ exists e, (perform_lease io op db).2 = Err e.
Proof.
  intros Hc1 Hr1 Hin1 db2 Hc2 Hr2 Hin2.
  assert (past ref (ol_Generation T1) db2) as Hpast.
  { apply past_run. destruct (perform_lease io1 op1 db1) as [db' r] eqn:E. cbn in *. subst r.
    destruct (perform_view _ _ _ _ _ E) as [_ [e [=]]|? ? ? _ _ Hn|_ _ Ht|? ? ? _ Hn]; [by rewrite Hc1 in Hn| |by rewrite Hc1 in Hn].
    destruct (Ht _ _ _ eq_refl Hin1 Hc1) as (row & Hrow & -> & _). by exists row. }
  clearbody db2. destruct (perform_lease io2 op2 db2) as [db3 r] eqn:E. cbn [fst snd] in *. subst r.
  destruct (perform_view _ _ _ _ _ E) as [_ [e [=]]|? ? ? _ _ Hn|_ _ Ht|? ? ? _ Hn]; [by rewrite Hc2 in Hn| |by rewrite Hc2 in Hn].
  destruct (Ht _ _ _ eq_refl Hin2 Hc2) as (row & Hrow & -> & Hcl). destruct Hpast as (row2 & Hrow2 & Hg). rewrite Hrow2 in Hcl.
  destruct Hcl as [Hx Hlt]. split_and!.
  - cbn. lia.
  - by exists row2.
  - intros calls' io op T Hp HT. eapply stale_refused; [|exact (Z.le_lt_trans _ _ _ HT (Z.le_lt_trans _ _ _ Hg Hlt))|exact Hp].
    apply past_run. by exists row.
Qed.

(** * Epochs and reservations *)

(** What an operation does to the epochs and the reservations. *)
Inductive marks_view (db db' : lease_db) : Prop :=
| marks_same : ld_epochs db' = ld_epochs db -> ld_reservations db' = ld_reservations db -> marks_view db db'
| marks_fenced id res epoch row : ld_reservations db !! id = Some res -> ld_epochs db !! key_of (rr_object res) = Some epoch -> 0 <= epoch ->
    rr_state res = ReservationPreviewed -> ld_epochs db' = <[key_of (rr_object res) := epoch + 1]> (ld_epochs db) ->
    ld_reservations db' = <[id := fenced_row (epoch + 1) row res]> (ld_reservations db) -> marks_view db db'
| marks_changed id res change : ld_reservations db !! id = Some res -> rr_state res = ReservationFenced -> ld_epochs db' = ld_epochs db ->
    ld_reservations db' = <[id := change res]> (ld_reservations db) -> rr_object (change res) = rr_object res ->
    rr_fence_epoch (change res) = rr_fence_epoch res -> marks_view db db'
| marks_epoch key : ld_epochs db !! key = None -> ld_epochs db' = <[key := 0]> (ld_epochs db) ->
    ld_reservations db' = ld_reservations db -> marks_view db db'
| marks_preview id res : ld_reservations db !! id = None -> ld_epochs db' = ld_epochs db -> rr_state res = ReservationPreviewed ->
    ld_reservations db' = <[id := res]> (ld_reservations db) -> marks_view db db'.

Lemma fence_matches_fenced io fence res : fence_matches io fence res = true ->
  rr_state res = ReservationFenced /\ rr_owner_id res = ol_OwnerID (rv_Owner fence) /\
  rr_owner_generation res = ol_Generation (rv_Owner fence) /\ rr_fence_epoch res = rv_FenceEpoch fence.
Proof. unfold fence_matches. intros H. by breflect. Qed.

Lemma perform_marks io op db db' r : perform_lease io op db = (db', r) -> marks_view db db'.
Proof.
  intros H. destruct op as [keys input|key owner d|key owner|object input|object input|which object owner d|which object owner
    |key input|key owner d|key owner|object input|serving d|serving|input|fence d|fence|fence|object|id object expires];
    cbn [perform_lease] in H; unfold no_tokens in H;
    try (destruct which; unfold RenewDeletionFenceLease, RenewObjectContentLease in H);
    try (apply answered_inv in H as (r0 & H & _)); try (apply answered_inv in H as (r1 & H & _)).
  - apply guards_outcome in H as [[-> _]|(guards & (_ & [He Hr] & _) & _)]; by apply marks_same.
  - apply renew_guard_outcome in H as [[-> _]|(token & (_ & ? & ? & _)%updates_one_rows & _)]; by apply marks_same.
  - apply release_guard_outcome in H as [[-> _]|(token & (_ & ? & ? & _)%updates_one_rows)]; by apply marks_same.
  - apply fence_lease_outcome in H as [[-> _]|(token & (_ & ? & ? & _)%claims_one_rows & _)]; by apply marks_same.
  - apply content_outcome in H as [[-> _]|(token & (_ & ? & ? & _)%claims_one_rows & _)]; by apply marks_same.
  - apply renew_object_outcome in H as [[-> _]|(token & (_ & ? & ? & _)%updates_one_rows & _)]; by apply marks_same.
  - apply renew_object_outcome in H as [[-> _]|(token & (_ & ? & ? & _)%updates_one_rows & _)]; by apply marks_same.
  - apply release_object_outcome in H as [[-> _]|(token & (_ & ? & ? & _)%updates_one_rows)]; by apply marks_same.
  - apply release_object_outcome in H as [[-> _]|(token & (_ & ? & ? & _)%updates_one_rows)]; by apply marks_same.
  - apply client_outcome in H as [[-> _]|(token & (_ & ? & ? & _)%claims_one_rows & _)]; by apply marks_same.
  - apply renew_client_outcome in H as [[-> _]|(token & (_ & ? & ? & _)%updates_one_rows & _)]; by apply marks_same.
  - apply release_client_outcome in H as [[-> _]|(token & (_ & ? & ? & _)%updates_one_rows)]; by apply marks_same.
  - apply serve_outcome in H as [[-> _]|(token & epoch & (_ & ? & ? & _)%claims_one_rows & _)]; by apply marks_same.
  - apply renew_serving_outcome in H as [[-> _]|(token & (_ & ? & ? & _)%updates_one_rows & _)]; by apply marks_same.
  - apply assert_serving_outcome in H as [-> _]. by apply marks_same.
  - apply fence_outcome in H as [[-> _]|(row & epoch & res & Hres & Ho & Hs & He & H0 & _ & _ & -> & _)]; [by apply marks_same|].
    rewrite <- Ho in *. by eapply marks_fenced.
  - apply renew_fence_outcome in H as [[-> _]|(res & token & [Hres [Hs _]%fence_matches_fenced] & (_ & He & Hr & _)%updates_one_rows & _)];
      [by apply marks_same|]. by eapply (marks_changed _ _ _ _ (extend_reservation (tx_after io d))).
  - apply release_fence_outcome in H as [[-> _]|(res & token & [Hres [Hs _]%fence_matches_fenced] & (_ & He & Hr & _)%updates_one_rows)];
      [by apply marks_same|]. by eapply (marks_changed _ _ _ _ (with_owner ReservationReleased "" 0 None)).
  - apply assert_fence_outcome in H as [-> _]. by apply marks_same.
  - injection H as <- <-. unfold initialize_epoch. destruct (ld_epochs db !! _) eqn:E; [by apply marks_same|by eapply marks_epoch].
  - injection H as <- <-. unfold create_reservation. destruct (ld_reservations db !! _) eqn:E; [by apply marks_same|].
    by eapply marks_preview; [exact E|done| |reflexivity].
Qed.

(** ** Epochs only grow *)

Definition epoch_past (key : object_key) (e : Z) (db : lease_db) : Prop := exists e', ld_epochs db !! key = Some e' /\ e <= e'.

Lemma epoch_past_perform io op key e db : epoch_past key e db -> epoch_past key e (perform_lease io op db).1.
Proof.
  intros (e' & He & Hle). unfold epoch_past. destruct (perform_lease io op db) as [db' r] eqn:E. cbn [fst].
  destruct (perform_marks _ _ _ _ _ E) as [-> _|id res epoch row _ Hep _ _ -> _|? ? ? _ _ -> _|k Hk -> _|? ? _ -> _]; try by exists e'.
  - destruct (decide (key = key_of (rr_object res))) as [->|]; [rewrite lookup_insert_eq|rewrite lookup_insert_ne by done; by exists e'].
    rewrite He in Hep. injection Hep as <-. exists (e' + 1). split; [done|lia].
  - rewrite lookup_insert_ne by congruence. by exists e'.
Qed.

Lemma epoch_past_run calls key e db : epoch_past key e db -> epoch_past key e (run_leases calls db).
Proof. revert db. induction calls as [|c calls IH]; intros db H; [done|]. by apply IH, epoch_past_perform. Qed.

(** A serving lease that captured an epoch the object has left can be neither asserted nor renewed. *)
Lemma serving_refused io serving db : epoch_past (key_of (sl_Object serving)) (sl_CapturedEpoch serving + 1) db ->
  (exists e, AssertServingLease io serving db = (db, Err e)) /\
  forall d, exists e, RenewServingLease io serving d db = (db, Err e).
Proof.
  intros (e' & He & Hle). split.
  - destruct (AssertServingLease io serving db) as [db' r] eqn:E.
    apply assert_serving_outcome in E as [-> [[e ->]|(_ & Hep & _)%serving_row_true]]; [by exists e|]. rewrite He in Hep. simplify_eq. lia.
  - intros d. destruct (RenewServingLease io serving d db) as [db' r] eqn:E.
    apply renew_serving_outcome in E as [[-> [e ->]]|(token & _ & Hep & _)]; [by exists e|]. rewrite He in Hep. simplify_eq. lia.
Qed.

(** C16: Fencing a deletion reservation ends the serving of its object for good.  Let a serving
    lease for an object be acquired, and a reservation of the same object be fenced later.  Then the fence has moved
    the delivery epoch past the one the lease captured, and after any further operations every assertion and every
    renewal of that lease, under whatever owner it has been renewed to, is refused without effect; and while the
    fence lease of the object is live, no new serving lease is given out. *)
Theorem fence_cancels_serving io1 object input1 db1 db2 serving calls io2 input2 db3 fence :
  AcquireServingLease io1 object input1 db1 = (db2, Ok serving) -> fe_Object input2 = object ->
  FenceDeletionReservation io2 input2 (run_leases calls db2) = (db3, Ok fence) ->
  sl_CapturedEpoch serving < rv_FenceEpoch fence /\
  forall calls' owner io d, let db := run_leases calls' db3 in
    let held := {| sl_Object := object; sl_Owner := owner; sl_CapturedEpoch := sl_CapturedEpoch serving |} in
    (exists e, AssertServingLease io held db = (db, Err e)) /\ (exists e, RenewServingLease io held d db = (db, Err e)) /\
    forall row input, ld_fences db !! key_of object = Some row -> tx_now io < lr_expires_at row ->
      exists e, AcquireServingLease io object input db = (db, Err e).
Proof.
  intros [[_ [? [=]]]|(token & epoch & (_ & Hep & _)%claims_one_rows & He & _ & [[= ->]|[? [=]]])]%serve_outcome Ho
    [[_ [? [=]]]|(row & epoch' & res & _ & _ & _ & He' & _ & _ & _ & -> & [[= ->]|[? [=]]])]%fence_outcome.
  rewrite Ho in *. cbn [sl_CapturedEpoch rv_FenceEpoch].
  assert (epoch <= epoch') as Hle.
  { destruct (epoch_past_run calls (key_of object) epoch db2) as (e' & He2 & Hle); [exists epoch; by rewrite Hep|].
    rewrite He' in He2. by simplify_eq. }
  split; [lia|]. intros calls' owner io d. cbn zeta.
  match goal with |- context [run_leases calls' ?d3] => set (db3 := d3) end.
  assert (epoch_past (key_of object) (epoch + 1) (run_leases calls' db3)) as Hpast.
  { apply epoch_past_run. exists (epoch' + 1). split; [|lia]. cbn. apply lookup_insert_eq. }
  destruct (serving_refused io {| sl_Object := object; sl_Owner := owner; sl_CapturedEpoch := epoch |} _ Hpast) as [Ha Hr].
  split_and!; [done|done|]. intros lease input Hl Hlive.
  destruct (AcquireServingLease _ _ _ _) as [db' r] eqn:E.
  apply serve_outcome in E as [[-> [e ->]]|(? & ? & _ & _ & Hu & _)]; [by exists e|]. unfold unfenced in Hu. rewrite Hl in Hu. lia.
Qed.

(** ** One fence at a time *)

(** Every fenced reservation has an epoch its object has reached, and no two of one object the same. *)
Definition fences_apart (db : lease_db) : Prop :=
  (forall id res, ld_reservations db !! id = Some res -> rr_state res = ReservationFenced ->
     epoch_past (key_of (rr_object res)) (rr_fence_epoch res) db) /\
  (forall id1 id2 res1 res2, ld_reservations db !! id1 = Some res1 -> ld_reservations db !! id2 = Some res2 ->
     rr_state res1 = ReservationFenced -> rr_state res2 = ReservationFenced -> rr_object res1 = rr_object res2 ->
     rr_fence_epoch res1 = rr_fence_epoch res2 -> id1 = id2).

Lemma fences_apart_perform io op db : fences_apart db -> fences_apart (perform_lease io op db).1.
Proof.
  intros [Hreach Hapart]. pose proof (fun key e => epoch_past_perform io op key e db) as Hmono.
  destruct (perform_lease io op db) as [db' r] eqn:E. cbn [fst] in *.
  destruct (perform_marks _ _ _ _ _ E) as [He Hr|id res epoch row Hres Hep H0 Hs He Hr|id res change Hres Hs He Hr Ho Hf|k Hk He Hr|id res Hn He Hs Hr];
    unfold fences_apart; rewrite Hr.
  - split; [|done]. intros id res Hres Hs. by eapply Hmono, Hreach.
  - split.
    + intros id' res' [[<- <-]|[Hne Hl]]%lookup_insert_Some Hs'; [|by eapply Hmono, Hreach].
      exists (epoch + 1). cbn. rewrite He, lookup_insert_eq. split; [done|lia].
    + intros id1 id2 res1 res2 [[<- <-]|[Hne1 Hl1]]%lookup_insert_Some [[<- <-]|[Hne2 Hl2]]%lookup_insert_Some Hs1 Hs2 Ho Hf; try done.
      * destruct (Hreach _ _ Hl2 Hs2) as (e' & He' & Hle). cbn in Ho, Hf. rewrite <- Ho, Hep in He'. simplify_eq. lia.
      * destruct (Hreach _ _ Hl1 Hs1) as (e' & He' & Hle). cbn in Ho, Hf. rewrite Ho, Hep in He'. simplify_eq. lia.
      * by eapply Hapart.
  - split.
    + intros id' res' [[<- <-]|[Hne Hl]]%lookup_insert_Some Hs'; [|by eapply Hmono, Hreach]. rewrite Ho, Hf. by eapply Hmono, Hreach.
    + intros id1 id2 res1 res2 [[<- <-]|[Hne1 Hl1]]%lookup_insert_Some [[<- <-]|[Hne2 Hl2]]%lookup_insert_Some Hs1 Hs2 Ho' Hf'; try done.
      * rewrite Ho in Ho'. rewrite Hf in Hf'. by eapply Hapart.
      * rewrite Ho in Ho'. rewrite Hf in Hf'. by eapply Hapart.
      * by eapply Hapart.
  - split; [|done]. intros id res Hres Hs. by eapply Hmono, Hreach.
  - split.
    + intros id' res' [[<- <-]|[Hne Hl]]%lookup_insert_Some Hs'; [by rewrite Hs in Hs'|by eapply Hmono, Hreach].
    + intros id1 id2 res1 res2 [[<- <-]|[Hne1 Hl1]]%lookup_insert_Some [[<- <-]|[Hne2 Hl2]]%lookup_insert_Some Hs1 Hs2;
        [done|by rewrite Hs in Hs1|by rewrite Hs in Hs2|by apply Hapart].
Qed.

Lemma fences_apart_run calls db : fences_apart db -> fences_apart (run_leases calls db).
Proof. revert db. induction calls as [|c calls IH]; intros db H; [done|]. by apply IH, fences_apart_perform. Qed.

(** C22: At most one deletion at a time can act on an object.  In every state that the operations reach
    from empty tables, two fence tokens for the same object that both pass the assertion, each at whatever time, are
    fences of the same reservation with the same epoch and the same owner. *)
Theorem one_fence_per_object calls io1 io2 fence1 fence2 :
  let db := run_leases calls no_leases in
  (AssertDeletionReservationFence io1 fence1 db).2 = Ok tt -> (AssertDeletionReservationFence io2 fence2 db).2 = Ok tt ->
  rv_Object fence1 = rv_Object fence2 ->
  rv_ReservationID fence1 = rv_ReservationID fence2 /\ rv_FenceEpoch fence1 = rv_FenceEpoch fence2 /\
  ol_OwnerID (rv_Owner fence1) = ol_OwnerID (rv_Owner fence2) /\ ol_Generation (rv_Owner fence1) = ol_Generation (rv_Owner fence2).
Proof.
  intros db H1 H2 Ho. assert (fences_apart db) as [_ Hapart] by (apply fences_apart_run; done).
  destruct (AssertDeletionReservationFence io1 fence1 db) as [d1 r1] eqn:E1. destruct (AssertDeletionReservationFence io2 fence2 db) as [d2 r2] eqn:E2.
  cbn in H1, H2. subst.
  apply assert_fence_outcome in E1 as [_ [[e [=]]|(res1 & lease1 & [Hr1 Hm1] & Ho1 & He1 & _)%fence_row_true]].
  apply assert_fence_outcome in E2 as [_ [[e [=]]|(res2 & lease2 & [Hr2 Hm2] & Ho2 & He2 & _)%fence_row_true]].
  rewrite Ho in He1, Ho1. rewrite He1 in He2. injection He2 as He2.
  apply fence_matches_fenced in Hm1 as (Hs1 & Hi1 & Hg1 & Hf1). apply fence_matches_fenced in Hm2 as (Hs2 & Hi2 & Hg2 & Hf2).
  assert (rv_ReservationID fence1 = rv_ReservationID fence2) as Hid by (eapply Hapart; try done; congruence).
  rewrite Hid in Hr1. rewrite Hr1 in Hr2. simplify_eq. split_and!; congruence.
Qed.
