(* ===== verification/Idempotency.v ===== *)
(** Idempotency keys of the record platform (src/internal/center/recordplatform/idempotency.go and the claims,
    completions, renewals and releases of src/internal/center/store/record_platform.go): one row per project, operation
    and key, claimed by an owner, completed with the digest of a result, replayed to whoever asks again. *)
From stdpp Require Import base list strings gmap.
From Stdlib Require Import ZArith Lia Ascii.
From S2P Require Import Prelude GoRuntime Postgres RecordCodec RecordPlatform LeaseStore LeaseRuns.

Local Open Scope Z_scope.

(** * Records and their resolution *)

Record IdempotencyKey := { ik_ProjectID : string; ik_OperationKind : string; ik_Key : string }.

Definition IdempotencyStatusInProgress : string := "in_progress".
Definition IdempotencyStatusCompleted : string := "completed".
Definition IdempotencyStatusConflict : string := "conflict".

Record IdempotencyRecordV1 := {
  ir_Key : IdempotencyKey;
  ir_RequestFingerprint : PersistedRequestFingerprintV1;
  ir_ResultFingerprint : option PersistedRequestFingerprintV1;
  ir_Status : string;
  ir_Owner : option OwnerLease;
  ir_ExpiresAt : Z;
}.

Inductive IdempotencyResolutionV1 :=
| ActionReplay (result_ : PersistedRequestFingerprintV1)
| ActionTakeover.

Record IdempotencyClaimInputV1 := {
  ii_Key : IdempotencyKey;
  ii_RequestFingerprint : RequestFingerprintV1;
  ii_OwnerID : string;
  ii_OwnerLeaseDuration : Z;
  ii_RecordTTL : Z;
}.

(** An acquired owner, or a result to replay. *)
Inductive IdempotencyClaimResultV1 :=
| Acquired (owner : OwnerLease)
| Replayed (result_ : PersistedRequestFingerprintV1).

Record IdempotencyRenewInputV1 := {
  in_Key : IdempotencyKey;
  in_Owner : OwnerLease;
  in_OwnerLeaseDuration : Z;
  in_RecordTTL : Z;
}.

Definition validIdempotencyExpiryDurations (ownerLeaseDuration recordTTL : Z) : bool :=
  (0 <? Duration_Microseconds ownerLeaseDuration) && (Duration_Microseconds ownerLeaseDuration <? Duration_Microseconds recordTTL).

Definition validIdempotencyKeyValue (value : string) : bool :=
  if (String.length value =? 0)%nat || (200 <? String.length value)%nat then false
  else if isDeletionRequestTokenTransportEncoding value then false
  else all_bytes (fun c => lower_letter c || upper_letter c || digit c || char "." c || char "_" c || char "~" c || char "-" c) value.

Definition IdempotencyKey_Validate (key : IdempotencyKey) : result unit :=
  _ ← check_as (ValidateProjectID (ik_ProjectID key)) (fun _ => invalid ErrInvalidIdempotencyKey "project");
  _ ← check_as (ValidateOperationKind (ik_OperationKind key)) (fun _ => invalid ErrInvalidIdempotencyKey "operation");
  reject (negb (validIdempotencyKeyValue (ik_Key key))) (invalid ErrInvalidIdempotencyKey "key").

Definition ClaimInput_Validate (input : IdempotencyClaimInputV1) : result unit :=
  _ ← check_as (IdempotencyKey_Validate (ii_Key input)) (fun _ => invalid ErrInvalidIdempotencyClaim "key");
  _ ← check_as (RequestFingerprint_Validate (ii_RequestFingerprint input)) (fun _ => invalid ErrInvalidIdempotencyClaim "request fingerprint");
  reject (negb (validRecordPlatformOwnerID (ii_OwnerID input))
          || negb (validIdempotencyExpiryDurations (ii_OwnerLeaseDuration input) (ii_RecordTTL input)))
    (invalid ErrInvalidIdempotencyClaim "owner or expiry").

Definition RenewInput_Validate (input : IdempotencyRenewInputV1) : result unit :=
  _ ← check_as (IdempotencyKey_Validate (in_Key input)) (fun _ => invalid ErrInvalidIdempotencyClaim "key");
  _ ← check_as (OwnerLease_Validate (in_Owner input)) (fun _ => invalid ErrInvalidIdempotencyClaim "owner");
  reject (negb (validIdempotencyExpiryDurations (in_OwnerLeaseDuration input) (in_RecordTTL input)))
    (invalid ErrInvalidIdempotencyClaim "owner or expiry").

Definition zero_digest : bytes := repeat zero_byte 32.
Definition isZeroPersistedRequestFingerprint (f : PersistedRequestFingerprintV1) : bool := bool_decide (pf_digest f = zero_digest).

Definition is_ok {A} (r : result A) : bool := match r with Ok _ => true | Err _ => false end.

Definition IdempotencyRecord_Validate (record : IdempotencyRecordV1) : result unit :=
  _ ← check_as (IdempotencyKey_Validate (ir_Key record)) (fun _ => invalid ErrInvalidIdempotencyRecord "key");
  _ ← check_as (PersistedRequestFingerprint_Validate (ir_RequestFingerprint record))
        (fun _ => invalid ErrInvalidIdempotencyRecord "request fingerprint");
  _ ← reject (Time_IsZero (ir_ExpiresAt record)) (invalid ErrInvalidIdempotencyRecord "expiry");
  if ir_Status record =s IdempotencyStatusInProgress then
    reject (match ir_Owner record with
            | None => true
            | Some owner => negb (is_ok (OwnerLease_Validate owner))
                || match ir_ResultFingerprint record with Some _ => true | None => false end
                || negb (Time_After (ir_ExpiresAt record) (ol_ExpiresAt owner))
            end) (invalid ErrInvalidIdempotencyRecord "in progress ownership")
  else if ir_Status record =s IdempotencyStatusCompleted then
    reject (match ir_Owner record, ir_ResultFingerprint record with
            | Some _, _ | _, None => true
            | None, Some f => negb (is_ok (PersistedRequestFingerprint_Validate f)) || isZeroPersistedRequestFingerprint f
            end) (invalid ErrInvalidIdempotencyRecord "completed result")
  else if ir_Status record =s IdempotencyStatusConflict then Ok tt
  else Err (invalid ErrInvalidIdempotencyRecord "status").

Definition ResolveIdempotencyV1 (record : IdempotencyRecordV1) (request : RequestFingerprintV1) (observedDBTime : Z)
    : result IdempotencyResolutionV1 :=
  _ ← IdempotencyRecord_Validate record;
  _ ← RequestFingerprint_Validate request;
  _ ← reject (Time_IsZero observedDBTime) (invalid ErrInvalidIdempotencyRecord "observed database time");
  _ ← reject (ir_Status record =s IdempotencyStatusConflict) ErrIdempotencyConflictState;
  _ ← reject (negb (requestFingerprintV1MatchesPersisted request (ir_RequestFingerprint record))) ErrIdempotencyKeyReused;
  match ir_Status record =s IdempotencyStatusCompleted, ir_ResultFingerprint record, ir_Owner record with
  | true, Some f, _ => Ok (ActionReplay f)
  | false, _, Some owner =>
      if ir_Status record =s IdempotencyStatusInProgress then
        if negb (Time_After (ol_ExpiresAt owner) observedDBTime) then Ok ActionTakeover else Err ErrIdempotencyInProgress
      else Err (invalid ErrInvalidIdempotencyRecord "status")
  | _, _, _ => Err (invalid ErrInvalidIdempotencyRecord "status")
  end.

Definition RequireLiveOwnerFenceV1 (expected actual : OwnerLease) (observedDBTime : Z) : result unit :=
  _ ← OwnerLease_Validate expected;
  reject (Time_IsZero observedDBTime || negb (is_ok (OwnerLease_Validate actual)) || (ol_OwnerID actual <>s ol_OwnerID expected)
          || negb (ol_Generation actual =? ol_Generation expected) || negb (Time_Equal (ol_ExpiresAt actual) (ol_ExpiresAt expected))
          || negb (Time_After (ol_ExpiresAt actual) observedDBTime)) ErrLostOwnerLease.

(** * The table *)

Record idempotency_row := {
  ik_request : bytes;
  ik_result : option bytes;
  ik_status : string;
  ik_owner_id : string;
  ik_owner_generation : Z;
  ik_owner_expires_at : option Z;
  ik_created_at : Z;
  ik_expires_at : Z;
}.

Definition idempotency_key : Type := string * string * string.
Definition table_key (k : IdempotencyKey) : idempotency_key := (ik_ProjectID k, ik_OperationKind k, ik_Key k).
Abbreviation idempotency_table := (gmap idempotency_key idempotency_row).

(** The checks of the table on a written row: an owner exactly while in progress, expiry after creation. *)
Definition idempotency_check (row : idempotency_row) : result idempotency_row :=
  _ ← check_row (Bool.eqb (ik_status row =s IdempotencyStatusInProgress)
                   ((ik_owner_id row <>s "") && match ik_owner_expires_at row with Some _ => true | None => false end));
  _ ← check_row (ik_created_at row <? ik_expires_at row);
  Ok row.

Definition recordPlatformFingerprint (raw : bytes) : result PersistedRequestFingerprintV1 :=
  map_error (fun _ => invalid ErrInvalidIdempotencyRecord "persisted fingerprint") (ParseTrustedPersistedRequestFingerprintV1 raw).

(** The record of an observed row. *)
Definition row_record (key : IdempotencyKey) (row : idempotency_row) : result IdempotencyRecordV1 :=
  requestFingerprint ← recordPlatformFingerprint (ik_request row);
  resultFingerprint ← match ik_result row with
                      | None => Ok None
                      | Some raw => f ← recordPlatformFingerprint raw; Ok (Some f)
                      end;
  owner ← (if (ik_owner_id row <>s "") || negb (ik_owner_generation row =? 0)
              || match ik_owner_expires_at row with Some _ => true | None => false end then
             match ik_owner_expires_at row with
             | None => Err (invalid ErrInvalidIdempotencyRecord "observed owner")
             | Some at_ =>
                 if ik_owner_generation row <? 1 then Err (invalid ErrInvalidIdempotencyRecord "observed owner")
                 else Ok (Some {| ol_OwnerID := ik_owner_id row; ol_Generation := ik_owner_generation row; ol_ExpiresAt := at_ |})
             end
           else Ok None);
  Ok {| ir_Key := key; ir_RequestFingerprint := requestFingerprint; ir_ResultFingerprint := resultFingerprint;
        ir_Status := ik_status row; ir_Owner := owner; ir_ExpiresAt := ik_expires_at row |}.

(** The owner an insert or update returns. *)
Definition scan_row (row : idempotency_row) : result OwnerLease :=
  match ik_owner_expires_at row with
  | Some at_ => scanIdempotencyOwner (ik_owner_id row) (ik_owner_generation row) at_
  | None => Err (ErrNew "cannot scan NULL into *time.Time")
  end.

(** * Claims *)

(** The row of a first claim, and of a takeover: the request, a result and the creation stay. *)
Definition claimed_row (io : record_io) (input : IdempotencyClaimInputV1) (request : bytes) : idempotency_row := {|
  ik_request := request; ik_result := None; ik_status := IdempotencyStatusInProgress; ik_owner_id := ii_OwnerID input;
  ik_owner_generation := 1; ik_owner_expires_at := Some (tx_after io (ii_OwnerLeaseDuration input));
  ik_created_at := tx_now io; ik_expires_at := tx_after io (ii_RecordTTL input) |}.

Definition taken_row (io : record_io) (input : IdempotencyClaimInputV1) (generation : Z) (old : idempotency_row) : idempotency_row := {|
  ik_request := ik_request old; ik_result := ik_result old; ik_status := ik_status old; ik_owner_id := ii_OwnerID input;
  ik_owner_generation := generation; ik_owner_expires_at := Some (tx_after io (ii_OwnerLeaseDuration input));
  ik_created_at := ik_created_at old; ik_expires_at := tx_after io (ii_RecordTTL input) |}.

Definition request_bytes (input : IdempotencyClaimInputV1) : result bytes :=
  map_error (fun _ => invalid ErrInvalidIdempotencyClaim "request fingerprint") (PersistedBytes (ii_RequestFingerprint input)).

Definition takeoverIdempotencyClaim (io : record_io) (input : IdempotencyClaimInputV1) (t : idempotency_table)
    : result (idempotency_table * IdempotencyClaimResultV1) :=
  requestFingerprint ← request_bytes input;
  let key := table_key (ii_Key input) in
  updated ← map_error (prefixed "take over idempotency claim")
    (_ ← statement (ri_faults io) "take over idempotency claim" 0 id;
     match t !! key with
     | None => Ok None
     | Some old =>
         if bool_decide (ik_request old = requestFingerprint) && (ik_status old =s IdempotencyStatusInProgress)
            && match ik_owner_expires_at old with Some at_ => at_ <=? tx_now io | None => false end then
           generation ← next_bigint (ik_owner_generation old);
           row ← idempotency_check (taken_row io input generation old);
           Ok (Some row)
         else Ok None
     end);
  match updated with
  | None => Err ErrIdempotencyInProgress
  | Some row =>
      owner ← map_error (prefixed "take over idempotency claim") (scan_row row);
      Ok (<[key := row]> t, Acquired owner)
  end.

(** The rows in [rivals] are those other transactions commit under the same key while this one is between its read
    and its insert. *)
Fixpoint claimIdempotencyInTransaction (io : record_io) (input : IdempotencyClaimInputV1) (rivals : list idempotency_row)
    (t : idempotency_table) : result (idempotency_table * IdempotencyClaimResultV1) :=
  let key := table_key (ii_Key input) in
  observed ← map_error (prefixed "lock idempotency row") (_ ← statement (ri_faults io) "lock idempotency row" (length rivals) id; Ok (t !! key));
  match observed with
  | Some row =>
      record ← row_record (ii_Key input) row;
      resolution ← ResolveIdempotencyV1 record (ii_RequestFingerprint input) (tx_now io);
      match resolution with
      | ActionReplay f => Ok (t, Replayed f)
      | ActionTakeover => takeoverIdempotencyClaim io input t
      end
  | None =>
      (** insertIdempotencyClaim: on conflict do nothing, then read again. *)
      requestFingerprint ← request_bytes input;
      match rivals with
      | rival :: rivals =>
          _ ← map_error (prefixed "insert idempotency claim") (statement (ri_faults io) "insert idempotency claim" (length rivals) id);
          claimIdempotencyInTransaction io input rivals (<[key := rival]> t)
      | [] =>
          row ← map_error (prefixed "insert idempotency claim")
            (_ ← statement (ri_faults io) "insert idempotency claim" 0 id; idempotency_check (claimed_row io input requestFingerprint));
          owner ← map_error (prefixed "insert idempotency claim") (scan_row row);
          Ok (<[key := row]> t, Acquired owner)
      end
  end.

Definition ClaimIdempotency (io : record_io) (input : IdempotencyClaimInputV1) (rivals : list idempotency_row) (t : idempotency_table)
    : idempotency_table * result IdempotencyClaimResultV1 :=
  admitted io "commit idempotency claim transaction" (ClaimInput_Validate input) t (claimIdempotencyInTransaction io input rivals t).

(** * Completions, renewals, releases *)

(** The exact live owner of a row in progress. *)
Definition owns (io : record_io) (owner : OwnerLease) (row : idempotency_row) : bool :=
  (ik_status row =s IdempotencyStatusInProgress) && (ik_owner_id row =s ol_OwnerID owner)
  && (ik_owner_generation row =? ol_Generation owner)
  && match ik_owner_expires_at row with
     | Some at_ => (at_ =? timestamptz (ol_ExpiresAt owner)) && (tx_now io <? at_)
     | None => false
     end.

(** [update record_idempotency_keys ... where <exact live owner> and extra]. *)
Definition update_owned (io : record_io) (what : string) (key : IdempotencyKey) (owner : OwnerLease) (extra : idempotency_row -> bool)
    (change : idempotency_row -> idempotency_row) (t : idempotency_table) : result (option (idempotency_table * idempotency_row)) :=
  _ ← int8 (ol_Generation owner);
  _ ← statement (ri_faults io) what 0 id;
  match t !! table_key key with
  | Some row =>
      if owns io owner row && extra row then row ← idempotency_check (change row); Ok (Some (<[table_key key := row]> t, row))
      else Ok None
  | None => Ok None
  end.

Definition validateIdempotencyCompletion (key : IdempotencyKey) (owner : OwnerLease) (result_ : RequestFingerprintV1) : result unit :=
  _ ← IdempotencyKey_Validate key;
  _ ← OwnerLease_Validate owner;
  match PersistedBytes result_ with
  | Ok persisted => reject (bool_decide (persisted = zero_digest)) (invalid ErrInvalidIdempotencyRecord "completed result")
  | Err _ => Err (invalid ErrInvalidIdempotencyRecord "completed result")
  end.

Definition completed_row (digest : bytes) (row : idempotency_row) : idempotency_row := {|
  ik_request := ik_request row; ik_result := Some digest; ik_status := IdempotencyStatusCompleted; ik_owner_id := "";
  ik_owner_generation := 0; ik_owner_expires_at := None; ik_created_at := ik_created_at row; ik_expires_at := ik_expires_at row |}.

Definition completeIdempotencyInTransaction (io : record_io) (key : IdempotencyKey) (owner : OwnerLease) (result_ : RequestFingerprintV1)
    (t : idempotency_table) : result (idempotency_table * unit) :=
  persisted ← map_error (prefixed "encode completed idempotency fingerprint") (PersistedBytes result_);
  updated ← map_error (prefixed "complete idempotency row")
    (update_owned io "complete idempotency row" key owner (fun _ => true) (completed_row persisted) t);
  match updated with Some (t, _) => Ok (t, tt) | None => Err ErrLostOwnerLease end.

Definition CompleteIdempotency (io : record_io) (key : IdempotencyKey) (owner : OwnerLease) (result_ : RequestFingerprintV1)
    (t : idempotency_table) : idempotency_table * result unit :=
  admitted io "commit idempotency completion transaction" (validateIdempotencyCompletion key owner result_) t
    (completeIdempotencyInTransaction io key owner result_ t).

Definition with_times (owner_expires expires : Z) (row : idempotency_row) : idempotency_row := {|
  ik_request := ik_request row; ik_result := ik_result row; ik_status := ik_status row; ik_owner_id := ik_owner_id row;
  ik_owner_generation := ik_owner_generation row; ik_owner_expires_at := Some owner_expires; ik_created_at := ik_created_at row;
  ik_expires_at := expires |}.

Definition renewIdempotencyInTransaction (io : record_io) (input : IdempotencyRenewInputV1) (t : idempotency_table)
    : result (idempotency_table * OwnerLease) :=
  updated ← map_error (prefixed "renew idempotency row")
    (update_owned io "renew idempotency row" (in_Key input) (in_Owner input)
       (fun row => tx_after io (in_OwnerLeaseDuration input) <? ik_expires_at row)
       (with_times (tx_after io (in_OwnerLeaseDuration input)) (tx_after io (in_RecordTTL input))) t);
  match updated with
  | Some (t, row) => owner ← map_error (prefixed "renew idempotency row") (scan_row row); Ok (t, owner)
  | None => Err ErrLostOwnerLease
  end.

Definition RenewIdempotency (io : record_io) (input : IdempotencyRenewInputV1) (t : idempotency_table)
    : idempotency_table * result OwnerLease :=
  admitted io "commit idempotency renewal transaction" (RenewInput_Validate input) t (renewIdempotencyInTransaction io input t).

Definition releaseIdempotencyInTransaction (io : record_io) (key : IdempotencyKey) (owner : OwnerLease) (t : idempotency_table)
    : result (idempotency_table * unit) :=
  updated ← map_error (prefixed "release idempotency row")
    (update_owned io "release idempotency row" key owner (fun _ => true) (fun row => with_times (tx_now io) (ik_expires_at row) row) t);
  match updated with Some (t, _) => Ok (t, tt) | None => Err ErrLostOwnerLease end.

Definition ReleaseIdempotency (io : record_io) (key : IdempotencyKey) (owner : OwnerLease) (t : idempotency_table)
    : idempotency_table * result unit :=
  admitted io "commit idempotency release transaction" (_ ← IdempotencyKey_Validate key; OwnerLease_Validate owner) t
    (releaseIdempotencyInTransaction io key owner t).

(** A peek sees a completed row only until it expires. *)
Definition PeekCompletedIdempotency (io : record_io) (key : IdempotencyKey) (t : idempotency_table) : result bool :=
  _ ← IdempotencyKey_Validate key;
  _ ← startTransaction io;
  _ ← admit_tx io 0;
  _ ← map_error (prefixed "peek completed idempotency") (statement (ri_faults io) "peek completed idempotency" 0 id);
  Ok match t !! table_key key with
     | Some row => (ik_status row =s IdempotencyStatusCompleted) && (tx_now io <? ik_expires_at row)
     | None => false
     end.

(** * In a business transaction *)

(** The same primitives inside the transaction of a caller, who has been admitted: the gate is asked again, for the
    [n]th time, and nothing is committed. *)
Definition Tx_ClaimIdempotency (io : record_io) (n : nat) (input : IdempotencyClaimInputV1) (rivals : list idempotency_row)
    (t : idempotency_table) : result (idempotency_table * IdempotencyClaimResultV1) :=
  _ ← ClaimInput_Validate input; _ ← admit_tx io n; claimIdempotencyInTransaction io input rivals t.
Definition Tx_CompleteIdempotency (io : record_io) (n : nat) (key : IdempotencyKey) (owner : OwnerLease) (result_ : RequestFingerprintV1)
    (t : idempotency_table) : result (idempotency_table * unit) :=
  _ ← validateIdempotencyCompletion key owner result_; _ ← admit_tx io n; completeIdempotencyInTransaction io key owner result_ t.
Definition Tx_RenewIdempotency (io : record_io) (n : nat) (input : IdempotencyRenewInputV1) (t : idempotency_table)
    : result (idempotency_table * OwnerLease) :=
  _ ← RenewInput_Validate input; _ ← admit_tx io n; renewIdempotencyInTransaction io input t.
Definition Tx_ReleaseIdempotency (io : record_io) (n : nat) (key : IdempotencyKey) (owner : OwnerLease) (t : idempotency_table)
    : result (idempotency_table * unit) :=
  _ ← IdempotencyKey_Validate key; _ ← OwnerLease_Validate owner; _ ← admit_tx io n; releaseIdempotencyInTransaction io key owner t.

(** * The protocol of a key *)

(** What idempotency keys promise: each key follows one protocol (claimed, taken over after expiry, completed once),
    its request never changes, and once it is completed every later claim of that request gets the one result. *)

(** * The system *)

Inductive idempotency_op :=
| OpClaimKey (input : IdempotencyClaimInputV1)
| OpCompleteKey (key : IdempotencyKey) (owner : OwnerLease) (result_ : RequestFingerprintV1)
| OpRenewKey (input : IdempotencyRenewInputV1)
| OpReleaseKey (key : IdempotencyKey) (owner : OwnerLease).

Inductive key_answer :=
| WasAcquired (owner : OwnerLease)
| WasReplayed (digest : bytes)
| WasCompleted
| WasRenewed (owner : OwnerLease)
| WasReleased.

Definition answer_claim (r : IdempotencyClaimResultV1) : key_answer :=
  match r with Acquired owner => WasAcquired owner | Replayed f => WasReplayed (pf_digest f) end.

Definition perform_key (io : record_io) (op : idempotency_op) (t : idempotency_table) : idempotency_table * result key_answer :=
  match op with
  | OpClaimKey input => answered answer_claim (ClaimIdempotency io input [] t)
  | OpCompleteKey key owner result_ => answered (fun _ => WasCompleted) (CompleteIdempotency io key owner result_ t)
  | OpRenewKey input => answered WasRenewed (RenewIdempotency io input t)
  | OpReleaseKey key owner => answered (fun _ => WasReleased) (ReleaseIdempotency io key owner t)
  end.

Definition run_keys (calls : list (record_io * idempotency_op)) (t : idempotency_table) : idempotency_table :=
  foldl (fun t call => (perform_key call.1 call.2 t).1) t calls.

Definition key_of_op (op : idempotency_op) : IdempotencyKey :=
  match op with
  | OpClaimKey input => ii_Key input
  | OpCompleteKey key _ _ | OpReleaseKey key _ => key
  | OpRenewKey input => in_Key input
  end.

(** * The protocol of a key *)

Inductive key_state :=
| Absent
| Working (request : bytes) (owner : string) (generation expires : Z)
| Done (request digest : bytes)
| Malformed.

Definition state_of (row : option idempotency_row) : key_state :=
  match row with
  | None => Absent
  | Some row =>
      match ik_owner_expires_at row, ik_result row with
      | Some at_, None =>
          if ik_status row =s IdempotencyStatusInProgress then Working (ik_request row) (ik_owner_id row) (ik_owner_generation row) at_
          else Malformed
      | None, Some digest => if ik_status row =s IdempotencyStatusCompleted then Done (ik_request row) digest else Malformed
      | _, _ => Malformed
      end
  end.

(** One step of the protocol at transaction time [t]; the label is what the operation that takes it answers. *)
Inductive key_step (t : Z) : key_answer -> key_state -> key_state -> Prop :=
| step_claim request owner at_ :
    key_step t (WasAcquired {| ol_OwnerID := owner; ol_Generation := 1; ol_ExpiresAt := at_ |}) Absent (Working request owner 1 at_)
| step_takeover request old owner g expired at_ : expired <= t ->
    key_step t (WasAcquired {| ol_OwnerID := owner; ol_Generation := g + 1; ol_ExpiresAt := at_ |})
      (Working request old g expired) (Working request owner (g + 1) at_)
| step_replay request digest : key_step t (WasReplayed digest) (Done request digest) (Done request digest)
| step_complete request owner g at_ digest : t < at_ -> key_step t WasCompleted (Working request owner g at_) (Done request digest)
| step_renew request owner g at_ at' : t < at_ ->
    key_step t (WasRenewed {| ol_OwnerID := owner; ol_Generation := g; ol_ExpiresAt := at' |})
      (Working request owner g at_) (Working request owner g at')
| step_release request owner g at_ : t < at_ -> key_step t WasReleased (Working request owner g at_) (Working request owner g t).

(** What an operation that takes effect says about the key: a claim is for the request that is bound to it, the others
    come from its exact owner. *)
Definition effective (op : idempotency_op) (before after : key_state) : Prop :=
  match op with
  | OpClaimKey input =>
      match after with
      | Working request _ _ _ | Done request _ => request = rf_digest (ii_RequestFingerprint input)
      | _ => False
      end
  | OpCompleteKey _ owner result_ =>
      exists request at_, before = Working request (ol_OwnerID owner) (ol_Generation owner) at_ /\ after = Done request (rf_digest result_)
  | OpRenewKey input => exists request at_, before = Working request (ol_OwnerID (in_Owner input)) (ol_Generation (in_Owner input)) at_
  | OpReleaseKey _ owner => exists request at_, before = Working request (ol_OwnerID owner) (ol_Generation owner) at_
  end.

(** ** The rows that the operations leave *)

Definition digest_ok (d : bytes) : Prop := length d = 32%nat.

(** The digests of a call are [32]byte, and its transaction is dated after year 1. *)
Definition call_ok (call : record_io * idempotency_op) : Prop :=
  0 < tx_now call.1 /\
  match call.2 with
  | OpClaimKey input => digest_ok (rf_digest (ii_RequestFingerprint input))
  | OpCompleteKey _ _ result_ => digest_ok (rf_digest result_)
  | _ => True
  end.

Definition row_ok (key : idempotency_key) (row : idempotency_row) : Prop :=
  IdempotencyKey_Validate {| ik_ProjectID := key.1.1; ik_OperationKind := key.1.2; ik_Key := key.2 |} = Ok tt /\
  digest_ok (ik_request row) /\
  ((exists at_, ik_status row = IdempotencyStatusInProgress /\ ik_result row = None /\ ik_owner_expires_at row = Some at_ /\
     0 < at_ < ik_expires_at row /\ 1 <= ik_owner_generation row /\ validRecordPlatformOwnerID (ik_owner_id row) = true) \/
   (exists digest, ik_status row = IdempotencyStatusCompleted /\ ik_result row = Some digest /\ digest_ok digest /\ digest <> zero_digest /\
     ik_owner_id row = ""%string /\ ik_owner_generation row = 0 /\ ik_owner_expires_at row = None /\ 0 < ik_expires_at row)).

Definition table_ok (t : idempotency_table) : Prop := map_Forall row_ok t.

Lemma idempotency_check_ok row row' : idempotency_check row = Ok row' -> row' = row.
Proof. unfold idempotency_check. intros H. do 2 ok_step H. by injection H. Qed.

Lemma scan_owner_ok owner g at_ lease : scanIdempotencyOwner owner g at_ = Ok lease ->
  lease = {| ol_OwnerID := owner; ol_Generation := g; ol_ExpiresAt := at_ |} /\ 1 <= g /\ validRecordPlatformOwnerID owner = true.
Proof.
  unfold scanIdempotencyOwner. destruct (_ <? _) eqn:E; [done|]. intros H. ok_step H. injection H as <-.
  apply reject_ok in Hok. cbn in Hok. breflect. done.
Qed.

Lemma PersistedBytes_ok f d : PersistedBytes f = Ok d -> d = rf_digest f /\ rf_sealed f = true.
Proof. unfold PersistedBytes. intros H. ok_step H. injection H as <-. apply reject_ok in Hok. by breflect. Qed.

Lemma durations_ok d ttl io : validIdempotencyExpiryDurations d ttl = true -> tx_now io < tx_after io d < tx_after io ttl.
Proof. unfold validIdempotencyExpiryDurations, tx_after. intros H. breflect. lia. Qed.

(** The record of a well-formed row, in progress or completed. *)
Lemma record_in_progress key row at_ : row_ok (table_key key) row -> ik_status row = IdempotencyStatusInProgress ->
  ik_owner_expires_at row = Some at_ ->
  row_record key row = Ok {| ir_Key := key; ir_RequestFingerprint := newSealedPersistedRequestFingerprintV1 (ik_request row);
    ir_ResultFingerprint := None; ir_Status := IdempotencyStatusInProgress;
    ir_Owner := Some {| ol_OwnerID := ik_owner_id row; ol_Generation := ik_owner_generation row; ol_ExpiresAt := at_ |};
    ir_ExpiresAt := ik_expires_at row |}.
Proof.
  intros (_ & Hd & [(at' & _ & Hr & Ha & _ & Hg & _)|(? & Hs & _)]) Hs' Hat; [|by rewrite Hs in Hs'].
  unfold row_record, recordPlatformFingerprint, ParseTrustedPersistedRequestFingerprintV1. rewrite Hd, Hr, Hat, Hs'. cbn.
  rewrite orb_true_r. destruct (_ <? 1) eqn:E; [breflect; lia|]. done.
Qed.

Lemma record_completed key row digest : row_ok (table_key key) row -> ik_status row = IdempotencyStatusCompleted ->
  ik_result row = Some digest ->
  row_record key row = Ok {| ir_Key := key; ir_RequestFingerprint := newSealedPersistedRequestFingerprintV1 (ik_request row);
    ir_ResultFingerprint := Some (newSealedPersistedRequestFingerprintV1 digest); ir_Status := IdempotencyStatusCompleted;
    ir_Owner := None; ir_ExpiresAt := ik_expires_at row |}.
Proof.
  intros (_ & Hd & [(at' & Hs & _)|(? & _ & Hr & Hd' & _ & Ho & Hg & Ha & _)]) Hs' Hr'; [by rewrite Hs in Hs'|].
  rewrite Hr in Hr'. injection Hr' as ->.
  unfold row_record, recordPlatformFingerprint, ParseTrustedPersistedRequestFingerprintV1. by rewrite Hd, Hr, Hd', Ho, Hg, Ha, Hs'.
Qed.

(** What a claim makes of an observed row: the answers by its state. *)
Definition resolution (now : Z) (request : RequestFingerprintV1) (row : idempotency_row) : result IdempotencyResolutionV1 :=
  if negb (bool_decide (rf_digest request = ik_request row)) then Err ErrIdempotencyKeyReused
  else match state_of (Some row) with
       | Done _ digest => Ok (ActionReplay (newSealedPersistedRequestFingerprintV1 digest))
       | Working _ _ _ at_ => if at_ <=? now then Ok ActionTakeover else Err ErrIdempotencyInProgress
       | _ => Err ErrIdempotencyInProgress
       end.

Lemma validate_key_eq key : {| ik_ProjectID := (table_key key).1.1; ik_OperationKind := (table_key key).1.2; ik_Key := (table_key key).2 |} = key.
Proof. by destruct key. Qed.

Lemma zero_ne t : 0 < t -> Time_IsZero t = false.
Proof. intros H. unfold Time_IsZero. apply Z.eqb_neq. lia. Qed.

Lemma owner_valid owner g at_ : validRecordPlatformOwnerID owner = true -> 1 <= g -> 0 < at_ ->
  OwnerLease_Validate {| ol_OwnerID := owner; ol_Generation := g; ol_ExpiresAt := at_ |} = Ok tt.
Proof.
  intros Hv Hg Ha. unfold OwnerLease_Validate. cbn [ol_OwnerID ol_Generation ol_ExpiresAt]. rewrite Hv, (zero_ne _ Ha).
  destruct (g =? 0) eqn:E; [breflect; lia|]. done.
Qed.

Lemma record_valid key row record : row_ok (table_key key) row -> row_record key row = Ok record ->
  IdempotencyRecord_Validate record = Ok tt.
Proof.
  intros Hrow. pose proof Hrow as (Hk & Hd & Hcase). rewrite validate_key_eq in Hk. unfold IdempotencyRecord_Validate.
  destruct Hcase as [(at_ & Hs & Hr & Ha & Hx & Hg & Hv)|(digest & Hs & Hr & Hd' & Hz & Ho & Hg & Ha & Hx)].
  - rewrite (record_in_progress key row at_ Hrow Hs Ha). intros [= <-].
    cbn [ir_Key ir_RequestFingerprint ir_ResultFingerprint ir_Status ir_Owner ir_ExpiresAt]. rewrite Hk, (zero_ne (ik_expires_at row)) by lia.
    rewrite owner_valid by (done || lia). unfold Time_After. cbn [ol_ExpiresAt]. rewrite (proj2 (Z.ltb_lt _ _)) by lia. done.
  - rewrite (record_completed key row digest Hrow Hs Hr). intros [= <-].
    cbn [ir_Key ir_RequestFingerprint ir_ResultFingerprint ir_Status ir_Owner ir_ExpiresAt]. rewrite Hk, (zero_ne (ik_expires_at row)) by lia.
    unfold isZeroPersistedRequestFingerprint. cbn [pf_digest newSealedPersistedRequestFingerprintV1]. rewrite bool_decide_false by done. done.
Qed.

Lemma resolve_row key row request now : row_ok (table_key key) row -> 0 < now -> rf_sealed request = true ->
  (record ← row_record key row; ResolveIdempotencyV1 record request now) = resolution now request row.
Proof.
  intros Hrow Hnow Hseal. pose proof (record_valid key row) as Hvalid. pose proof Hrow as (_ & _ & Hcase).
  unfold resolution, state_of. destruct Hcase as [(at_ & Hs & Hr & Ha & Hx & Hg & Hv)|(digest & Hs & Hr & Hd' & Hz & Ho & Hg & Ha & Hx)].
  - rewrite (record_in_progress key row at_ Hrow Hs Ha) in *. specialize (Hvalid _ Hrow eq_refl). cbn [mbind result_bind].
    unfold ResolveIdempotencyV1, RequestFingerprint_Validate, requestFingerprintV1MatchesPersisted.
    rewrite Hvalid, Hseal, (zero_ne now Hnow), Ha, Hr, Hs. cbn. unfold Time_After. rewrite Z.leb_antisym.
    by destruct (bool_decide _).
  - rewrite (record_completed key row digest Hrow Hs Hr) in *. specialize (Hvalid _ Hrow eq_refl). cbn [mbind result_bind].
    unfold ResolveIdempotencyV1, RequestFingerprint_Validate, requestFingerprintV1MatchesPersisted.
    rewrite Hvalid, Hseal, (zero_ne now Hnow), Ha, Hr, Hs. cbn. by destruct (bool_decide _).
Qed.

(** ** What each operation does to the row of its key *)

Definition only_key (key : IdempotencyKey) (t t' : idempotency_table) : Prop := forall k, k <> table_key key -> t' !! k = t !! k.

Lemma claim_input_ok input : ClaimInput_Validate input = Ok tt ->
  IdempotencyKey_Validate (ii_Key input) = Ok tt /\ rf_sealed (ii_RequestFingerprint input) = true /\
  validRecordPlatformOwnerID (ii_OwnerID input) = true /\ validIdempotencyExpiryDurations (ii_OwnerLeaseDuration input) (ii_RecordTTL input) = true.
Proof.
  unfold ClaimInput_Validate. intros H. do 2 ok_step H. apply reject_ok in H. apply map_error_ok in Hok. apply map_error_ok in Hok0.
  destruct x. apply reject_ok in Hok0. by breflect.
Qed.

Lemma takeover_ok io input t t' answer : takeoverIdempotencyClaim io input t = Ok (t', answer) ->
  exists old at_, t !! table_key (ii_Key input) = Some old /\ ik_status old = IdempotencyStatusInProgress /\
    ik_owner_expires_at old = Some at_ /\ at_ <= tx_now io /\
    t' = <[table_key (ii_Key input) := taken_row io input (ik_owner_generation old + 1) old]> t /\
    answer = Acquired {| ol_OwnerID := ii_OwnerID input; ol_Generation := ik_owner_generation old + 1;
                         ol_ExpiresAt := tx_after io (ii_OwnerLeaseDuration input) |}.
Proof.
  unfold takeoverIdempotencyClaim. intros H. do 2 ok_step H. apply map_error_ok in Hok0. ok_step Hok0.
  destruct (t !! table_key (ii_Key input)) as [old|] eqn:E; [|by injection Hok0 as <-].
  destruct (_ && _) eqn:Ec in Hok0; [|by injection Hok0 as <-]. do 2 ok_step Hok0. injection Hok0 as <-.
  apply next_bigint_ok in Hok2 as ->. apply idempotency_check_ok in Hok3 as ->. ok_step H. injection H as <- <-.
  apply map_error_ok, scan_owner_ok in Hok0 as [-> _]. breflect. destruct (ik_owner_expires_at old) as [at_|] eqn:Ea; [|done].
  breflect. exists old, at_. done.
Qed.

(** A claim or an update of one row keeps the others. *)
Lemma only_key_insert key row t : only_key key t (<[table_key key := row]> t).
Proof. intros k Hk. by apply lookup_insert_ne. Qed.

Lemma table_ok_insert key row t : table_ok t -> row_ok (table_key key) row -> table_ok (<[table_key key := row]> t).
Proof. intros Ht Hr. by apply map_Forall_insert_2. Qed.

Lemma insert_ok io input t t' answer : t !! table_key (ii_Key input) = None -> claimIdempotencyInTransaction io input [] t = Ok (t', answer) ->
  t' = <[table_key (ii_Key input) := claimed_row io input (rf_digest (ii_RequestFingerprint input))]> t /\
  answer = Acquired {| ol_OwnerID := ii_OwnerID input; ol_Generation := 1; ol_ExpiresAt := tx_after io (ii_OwnerLeaseDuration input) |}.
Proof.
  intros E H. cbn [claimIdempotencyInTransaction] in H. ok_step H. apply map_error_ok in Hok. ok_step Hok. injection Hok as <-.
  rewrite E in H. do 3 ok_step H. injection H as <- <-.
  match goal with Hb : request_bytes _ = Ok _ |- _ => apply map_error_ok, PersistedBytes_ok in Hb as [-> _] end.
  repeat match goal with Hm : map_error _ _ = Ok _ |- _ => apply map_error_ok in Hm end.
  match goal with Hc : _ ≫= _ = Ok _ |- _ => ok_step Hc; apply idempotency_check_ok in Hc as -> end.
  match goal with Hs : scan_row _ = Ok _ |- _ => by apply scan_owner_ok in Hs as [-> _] end.
Qed.

(** A successful claim of a key whose row is well-formed. *)
Lemma claim_tx_step io input t t' answer : table_ok t -> 0 < tx_now io -> digest_ok (rf_digest (ii_RequestFingerprint input)) ->
  ClaimInput_Validate input = Ok tt -> claimIdempotencyInTransaction io input [] t = Ok (t', answer) ->
  only_key (ii_Key input) t t' /\ table_ok t' /\
  key_step (tx_now io) (answer_claim answer) (state_of (t !! table_key (ii_Key input))) (state_of (t' !! table_key (ii_Key input))) /\
  effective (OpClaimKey input) (state_of (t !! table_key (ii_Key input))) (state_of (t' !! table_key (ii_Key input))).
Proof.
  intros Ht Hnow Hd Hv H. destruct (claim_input_ok _ Hv) as (Hk & Hseal & Hov & Hdur). apply (durations_ok _ _ io) in Hdur.
  destruct (t !! table_key (ii_Key input)) as [row|] eqn:E.
  - cbn [claimIdempotencyInTransaction] in H. ok_step H. apply map_error_ok in Hok. ok_step Hok. injection Hok as <-. clear Hok0.
    rewrite E in H. pose proof (Ht _ _ E) as Hrow.
    pose proof (resolve_row _ _ (ii_RequestFingerprint input) (tx_now io) Hrow Hnow Hseal) as Hres.
    ok_step H. ok_step H. rewrite Hok in Hres. cbn [mbind result_bind] in Hres. rewrite Hok0 in Hres. clear Hok Hok0.
    unfold resolution in Hres. destruct (negb _) eqn:Eq in Hres; [done|]. apply negb_false_iff, bool_decide_eq_true in Eq.
    destruct (state_of (Some row)) as [|request owner g at_|request digest|] eqn:Es; try done.
    + destruct (at_ <=? _) eqn:El in Hres; [|done]. injection Hres as ->.
      apply takeover_ok in H as (old & at' & E' & Hs & Ha & Hle & -> & ->). rewrite E in E'. injection E' as <-.
      destruct Hrow as (Hk' & Hd' & [(at2 & _ & Hr & Ha' & _ & Hg & _)|(? & Hs' & _)]); [|by rewrite Hs in Hs'].
      assert (state_of (Some (taken_row io input (ik_owner_generation row + 1) row)) =
        Working (ik_request row) (ii_OwnerID input) (ik_owner_generation row + 1) (tx_after io (ii_OwnerLeaseDuration input))) as Hst
        by (cbn; by rewrite Hr, Hs).
      rewrite lookup_insert_eq, Hst. split_and!; [apply only_key_insert| | |done].
      * apply table_ok_insert; [done|]. split_and!; [done|done|]. left. eexists. cbn. split_and!; try done; lia.
      * cbn in Es |- *. rewrite Ha, Hr, Hs in Es. injection Es as <- <- <- <-. by constructor.
    + injection Hres as ->. injection H as <- <-. rewrite E, Es. split_and!; [done|done|constructor|].
      cbn in Es |- *. destruct (ik_owner_expires_at row), (ik_result row); try done; by destruct (_ =s _) in Es; simplify_eq.
  - apply (insert_ok _ _ _ _ _ E) in H as [-> ->]. split_and!; [apply only_key_insert| | |].
    + apply table_ok_insert; [done|]. split_and!; [by rewrite validate_key_eq|done|]. left. eexists. cbn. split_and!; try done; lia.
    + rewrite lookup_insert_eq. cbn. constructor.
    + by rewrite lookup_insert_eq.
Qed.

Lemma update_owned_ok io what key owner extra change t t' row : update_owned io what key owner extra change t = Ok (Some (t', row)) ->
  exists old at_, t !! table_key key = Some old /\ ik_status old = IdempotencyStatusInProgress /\ ik_owner_expires_at old = Some at_ /\
    tx_now io < at_ /\ ik_owner_id old = ol_OwnerID owner /\ ik_owner_generation old = ol_Generation owner /\ extra old = true /\
    row = change old /\ t' = <[table_key key := change old]> t.
Proof.
  unfold update_owned. intros H. do 2 ok_step H. destruct (t !! table_key key) as [old|] eqn:E; [|done].
  destruct (owns io owner old) eqn:Eo; cbn [andb] in H; [|done]. destruct (extra old) eqn:Ee; [|done]. ok_step H. injection H as <- <-.
  apply idempotency_check_ok in Hok1 as ->. unfold owns in Eo. breflect. destruct (ik_owner_expires_at old) as [at_|] eqn:Ea; [|done].
  breflect. exists old, at_. done.
Qed.

(** The row in progress that an exact owner updates. *)
Lemma in_progress_inv key row at_ : row_ok key row -> ik_status row = IdempotencyStatusInProgress -> ik_owner_expires_at row = Some at_ ->
  digest_ok (ik_request row) /\ ik_result row = None /\ 0 < at_ < ik_expires_at row /\ 1 <= ik_owner_generation row /\
  validRecordPlatformOwnerID (ik_owner_id row) = true /\
  state_of (Some row) = Working (ik_request row) (ik_owner_id row) (ik_owner_generation row) at_.
Proof.
  intros (_ & Hd & [(at' & _ & Hr & Ha & Hx & Hg & Hv)|(? & Hs & _)]) Hs' Ha'; [|by rewrite Hs in Hs'].
  rewrite Ha in Ha'. injection Ha' as ->. split_and!; try done; try lia. cbn. by rewrite Ha, Hr, Hs'.
Qed.

Lemma complete_tx_step io key owner result_ t t' x : table_ok t -> validateIdempotencyCompletion key owner result_ = Ok tt ->
  digest_ok (rf_digest result_) -> completeIdempotencyInTransaction io key owner result_ t = Ok (t', x) ->
  only_key key t t' /\ table_ok t' /\ key_step (tx_now io) WasCompleted (state_of (t !! table_key key)) (state_of (t' !! table_key key)) /\
  effective (OpCompleteKey key owner result_) (state_of (t !! table_key key)) (state_of (t' !! table_key key)).
Proof.
  unfold completeIdempotencyInTransaction, validateIdempotencyCompletion. intros Ht Hv Hd H. do 2 ok_step H. do 2 ok_step Hv.
  apply map_error_ok, PersistedBytes_ok in Hok as [-> Hseal]. apply map_error_ok in Hok0.
  destruct x1 as [[t1 row]|]; [|done]. injection H as <- <-.
  apply update_owned_ok in Hok0 as (old & at_ & E & Hs & Ha & Hlt & Ho & Hg & _ & -> & ->).
  destruct (in_progress_inv _ _ _ (Ht _ _ E) Hs Ha) as (Hd' & Hr & Hx & Hg' & _ & Hst). rewrite E, lookup_insert_eq, Hst.
  pose proof (Ht _ _ E) as (Hk & _). split_and!; [apply only_key_insert| | |].
  - apply table_ok_insert; [done|]. split_and!; [done|done|]. right. exists (rf_digest result_). cbn. split_and!; try done; [|lia].
    unfold PersistedBytes, RequestFingerprint_Validate in Hv. rewrite Hseal in Hv. cbn in Hv. apply reject_ok in Hv.
    by apply bool_decide_eq_false in Hv.
  - by constructor.
  - exists (ik_request old), at_. by rewrite Ho, Hg.
Qed.

Lemma renew_tx_step io input t t' owner : table_ok t -> 0 < tx_now io -> RenewInput_Validate input = Ok tt ->
  renewIdempotencyInTransaction io input t = Ok (t', owner) ->
  only_key (in_Key input) t t' /\ table_ok t' /\
  key_step (tx_now io) (WasRenewed owner) (state_of (t !! table_key (in_Key input))) (state_of (t' !! table_key (in_Key input))) /\
  effective (OpRenewKey input) (state_of (t !! table_key (in_Key input))) (state_of (t' !! table_key (in_Key input))).
Proof.
  unfold renewIdempotencyInTransaction, RenewInput_Validate. intros Ht Hnow Hv H. ok_step H. do 2 ok_step Hv. apply reject_ok in Hv.
  apply negb_false_iff, (durations_ok _ _ io) in Hv. apply map_error_ok in Hok. destruct x as [[t1 row]|]; [|done]. ok_step H. injection H as <- <-.
  apply update_owned_ok in Hok as (old & at_ & E & Hs & Ha & Hlt & Ho & Hg & _ & -> & ->).
  match goal with Hm : map_error _ (scan_row _) = Ok _ |- _ => apply map_error_ok, scan_owner_ok in Hm as [-> _] end.
  destruct (in_progress_inv _ _ _ (Ht _ _ E) Hs Ha) as (Hd' & Hr & Hx & Hg' & Hv' & Hst). rewrite E, lookup_insert_eq, Hst.
  pose proof (Ht _ _ E) as (Hk & _). split_and!; [apply only_key_insert| | |].
  - apply table_ok_insert; [done|]. split_and!; [done|done|]. left. eexists. cbn. split_and!; try done; lia.
  - cbn. rewrite Hr, Hs. by constructor.
  - exists (ik_request old), at_. by rewrite Ho, Hg.
Qed.

Lemma release_tx_step io key owner t t' x : table_ok t -> 0 < tx_now io -> releaseIdempotencyInTransaction io key owner t = Ok (t', x) ->
  only_key key t t' /\ table_ok t' /\ key_step (tx_now io) WasReleased (state_of (t !! table_key key)) (state_of (t' !! table_key key)) /\
  effective (OpReleaseKey key owner) (state_of (t !! table_key key)) (state_of (t' !! table_key key)).
Proof.
  unfold releaseIdempotencyInTransaction. intros Ht Hnow H. ok_step H. apply map_error_ok in Hok. destruct x0 as [[t1 row]|]; [|done].
  injection H as <- <-. apply update_owned_ok in Hok as (old & at_ & E & Hs & Ha & Hlt & Ho & Hg & _ & -> & ->).
  destruct (in_progress_inv _ _ _ (Ht _ _ E) Hs Ha) as (Hd' & Hr & Hx & Hg' & Hv' & Hst). rewrite E, lookup_insert_eq, Hst.
  pose proof (Ht _ _ E) as (Hk & _). split_and!; [apply only_key_insert| | |].
  - apply table_ok_insert; [done|]. split_and!; [done|done|]. left. eexists. cbn. split_and!; try done; lia.
  - cbn. rewrite Hr, Hs. by constructor.
  - exists (ik_request old), at_. by rewrite Ho, Hg.
Qed.

(** The steps of the protocol by which every operation moves the key it names. *)
Lemma perform_key_step io op t t' r : table_ok t -> call_ok (io, op) -> perform_key io op t = (t', r) ->
  let k := table_key (key_of_op op) in
  table_ok t' /\ (forall k', k' <> k -> t' !! k' = t !! k') /\
  ((t' = t /\ exists e, r = Err e) \/
   (exists a, key_step (tx_now io) a (state_of (t !! k)) (state_of (t' !! k)) /\ effective op (state_of (t !! k)) (state_of (t' !! k)) /\
      (r = Ok a \/ exists e, r = Err e))).
Proof.
  intros Ht [Hnow Hc] H. cbn [fst snd] in *.
  destruct op as [input|key owner result_|input|key owner]; cbn [perform_key key_of_op] in *; apply answered_inv in H as (r0 & H & Hr).
  all: apply admitted_inv in H as [[-> [e ->]]|(a & Hv & H & Ha)];
    [destruct Hr as [(? & [=] & _)|(? & _ & ->)]; split_and!; [done|done|left; by eauto]|].
  - apply claim_tx_step in H as (? & ? & ? & ?); [|done..]. split_and!; [done|done|]. right. exists (answer_claim a). split_and!; [done..|].
    destruct Hr as [(a' & -> & ->)|(e & _ & ->)]; [|by eauto]. destruct Ha as [[= ->]|[? [=]]]. by left.
  - apply complete_tx_step in H as (? & ? & ? & ?); [|done..]. split_and!; [done|done|]. right. exists WasCompleted. split_and!; [done..|].
    destruct Hr as [(a' & -> & ->)|(e & _ & ->)]; by eauto.
  - apply renew_tx_step in H as (? & ? & ? & ?); [|done..]. split_and!; [done|done|]. right. exists (WasRenewed a). split_and!; [done..|].
    destruct Hr as [(a' & -> & ->)|(e & _ & ->)]; [|by eauto]. destruct Ha as [[= ->]|[? [=]]]. by left.
  - apply release_tx_step in H as (? & ? & ? & ?); [|done..]. split_and!; [done|done|]. right. exists WasReleased. split_and!; [done..|].
    destruct Hr as [(a' & -> & ->)|(e & _ & ->)]; by eauto.
Qed.

Lemma run_table_ok calls t : table_ok t -> Forall call_ok calls -> table_ok (run_keys calls t).
Proof.
  revert t. induction calls as [|[io op] calls IH]; intros t Ht Hc; [done|]. inversion Hc as [|? ? Hc1 Hc2]; subst.
  cbn. apply IH; [|done]. destruct (perform_key io op t) as [t' r] eqn:E. by apply (perform_key_step _ _ _ _ _ Ht Hc1) in E as (? & _).
Qed.

Lemma empty_table_ok : table_ok ∅.
Proof. apply map_Forall_empty. Qed.

(** C17: Every key follows the protocol of an operation that is done once.  From an empty table,
    whatever ran before, an operation leaves every other key alone, and on its own key it either is refused and
    changes nothing, or takes one step of the protocol: a free key is claimed with generation 1; a key in progress is
    taken over by a claim only when its owner has expired, with the next generation; it is completed, renewed or
    released only by its exact owner, before it expires; a completed key only replays its result.  The answer is the
    one of the step, a claim that succeeds is for the request bound to the key, and the request never changes. *)
Theorem idempotency_follows_protocol calls io op :
  Forall call_ok calls -> call_ok (io, op) ->
  let t := run_keys calls ∅ in let k := table_key (key_of_op op) in let out := perform_key io op t in
  (forall k', k' <> k -> out.1 !! k' = t !! k') /\
  ((out.1 = t /\ exists e, out.2 = Err e) \/
   exists a, key_step (tx_now io) a (state_of (t !! k)) (state_of (out.1 !! k)) /\ effective op (state_of (t !! k)) (state_of (out.1 !! k)) /\
     (out.2 = Ok a \/ exists e, out.2 = Err e)).
Proof.
  intros Hcs Hc t k out. assert (table_ok t) as Ht by (apply run_table_ok; [apply empty_table_ok|done]).
  destruct (perform_key io op t) as [t' r] eqn:E. by destruct (perform_key_step _ _ _ _ _ Ht Hc E) as (_ & ? & ?).
Qed.

(** ** Completed keys *)

Lemma done_stays t a request digest s' : key_step t a (Done request digest) s' -> s' = Done request digest /\ a = WasReplayed digest.
Proof. by inversion 1. Qed.

Lemma run_done calls t k request digest : table_ok t -> Forall call_ok calls -> state_of (t !! k) = Done request digest ->
  state_of (run_keys calls t !! k) = Done request digest.
Proof.
  revert t. induction calls as [|[io op] calls IH]; intros t Ht Hc Hs; [done|]. inversion Hc as [|? ? Hc1 Hc2]; subst.
  cbn. destruct (perform_key io op t) as [t' r] eqn:E. apply (perform_key_step _ _ _ _ _ Ht Hc1) in E as (Ht' & Ho & Hstep).
  apply IH; [done|done|]. cbn. destruct (decide (k = table_key (key_of_op op))) as [->|Hne]; [|by rewrite Ho].
  destruct Hstep as [[-> _]|(a & Hst & _)]; [done|]. rewrite Hs in Hst. by apply done_stays in Hst as [-> _].
Qed.

(** An environment in which nothing fails. *)
Definition healthy (io : record_io) : Prop :=
  ri_pool io = true /\ ri_gate io = true /\ ri_begin io = None /\ (forall n, ri_admit io n = None) /\
  (forall what n, ri_faults io what n = None) /\ ri_commit io = Executed /\ 0 < tx_now io.

Lemma healthy_admitted {D A} io commit (db : D) (body : result (D * A)) : healthy io ->
  admitted io commit (Ok tt) db body = match body with Ok (db', a) => (db', Ok a) | Err e => (db, Err e) end.
Proof.
  intros (Hp & Hg & Hb & Ha & _ & Hc & _). unfold admitted, transaction, autocommit, startTransaction, admit_tx.
  rewrite Hp, Hg, Hb, (Ha 0%nat), Hc. cbn. by destruct body as [[]|].
Qed.

Lemma healthy_record_statement io what n wrap : healthy io -> statement (ri_faults io) what n wrap = Ok tt.
Proof. intros (_ & _ & _ & _ & Hf & _). unfold statement. by rewrite Hf. Qed.

Lemma claim_done io input t request digest : healthy io -> table_ok t -> ClaimInput_Validate input = Ok tt ->
  state_of (t !! table_key (ii_Key input)) = Done request digest ->
  ClaimIdempotency io input [] t =
    (t, if bool_decide (rf_digest (ii_RequestFingerprint input) = request)
        then Ok (Replayed (newSealedPersistedRequestFingerprintV1 digest)) else Err ErrIdempotencyKeyReused).
Proof.
  intros Hio Ht Hv Hs. unfold ClaimIdempotency. rewrite Hv, (healthy_admitted _ _ _ _ Hio). cbn [claimIdempotencyInTransaction].
  rewrite !(healthy_record_statement _ _ _ _ Hio). cbn [mbind result_bind map_error].
  destruct (t !! table_key (ii_Key input)) as [row|] eqn:E; [|done].
  destruct (claim_input_ok _ Hv) as (_ & Hseal & _). destruct Hio as (_ & _ & _ & _ & _ & _ & Hnow).
  pose proof (resolve_row _ _ (ii_RequestFingerprint input) (tx_now io) (Ht _ _ E) Hnow Hseal) as Hres.
  unfold resolution in Hres. rewrite Hs in Hres.
  assert (ik_request row = request) as Hreq.
  { unfold state_of in Hs. destruct (ik_owner_expires_at row), (ik_result row); try done; by destruct (_ =s _) in Hs; simplify_eq. }
  destruct (row_record (ii_Key input) row) as [record|e].
  - cbn [mbind result_bind] in Hres |- *. rewrite Hres, Hreq. by repeat case_bool_decide.
  - cbn [mbind result_bind] in Hres |- *. rewrite Hreq in Hres. by repeat case_bool_decide; simplify_eq/=.
Qed.

(** C18: The result of a completed key is final and is given to everyone.  Once a completion succeeds,
    after any further operations: a claim of the key for the request it was claimed for, by whoever and whenever,
    replays exactly the stored result; a claim for another request is refused as a reuse of the key; every further
    completion, renewal or release of the key is refused; and none of them changes the table. *)
Theorem idempotent_result_final calls io key owner result_ t' calls' :
  Forall call_ok calls -> call_ok (io, OpCompleteKey key owner result_) -> Forall call_ok calls' ->
  CompleteIdempotency io key owner result_ (run_keys calls ∅) = (t', Ok tt) ->
  exists request, let t := run_keys calls' t' in
    (exists at_, state_of (run_keys calls ∅ !! table_key key) = Working request (ol_OwnerID owner) (ol_Generation owner) at_) /\
    (forall io' input, healthy io' -> ClaimInput_Validate input = Ok tt -> ii_Key input = key ->
       ClaimIdempotency io' input [] t =
         (t, if bool_decide (rf_digest (ii_RequestFingerprint input) = request)
             then Ok (Replayed (newSealedPersistedRequestFingerprintV1 (rf_digest result_))) else Err ErrIdempotencyKeyReused)) /\
    (forall io' op, call_ok (io', op) -> key_of_op op = key -> (forall input, op <> OpClaimKey input) ->
       exists e, perform_key io' op t = (t, Err e)).
Proof.
  intros Hcs Hc Hcs' H. assert (table_ok (run_keys calls ∅)) as Ht by (apply run_table_ok; [apply empty_table_ok|done]).
  assert (perform_key io (OpCompleteKey key owner result_) (run_keys calls ∅) = (t', Ok WasCompleted)) as Hp by (cbn; by rewrite H).
  apply (perform_key_step _ _ _ _ _ Ht Hc) in Hp as (Ht' & _ & [[_ [? [=]]]|(a & _ & (request & at_ & Hb & Ha) & _)]). cbn in Hb, Ha.
  exists request. cbn zeta. pose proof (run_done calls' t' _ _ _ Ht' Hcs' Ha) as Hd. pose proof (run_table_ok calls' t' Ht' Hcs') as Ht2.
  split_and!; [by exists at_| |].
  - intros io' input Hio Hv <-. by apply claim_done.
  - intros io' op Hc' <- Hn. destruct (perform_key io' op _) as [t2 r] eqn:E.
    apply (perform_key_step _ _ _ _ _ Ht2 Hc') in E as (_ & _ & [[-> [e ->]]|(a' & Hst & He & _)]); [by exists e|].
    rewrite Hd in He. destruct op as [input|? ? ?|?|? ?]; [by destruct (Hn input)|..]; cbn in He.
    + by destruct He as (? & ? & [=] & _).
    + by destruct He as (? & ? & [=]).
    + by destruct He as (? & ? & [=]).
Qed.

(** ** First claims that race *)

(** When another transaction commits its first claim between the read and the insert of this one, this one ends as if
    it had run after the other. *)
Lemma racing_claim_serializes io input rival t : healthy io -> ClaimInput_Validate input = Ok tt ->
  t !! table_key (ii_Key input) = None ->
  claimIdempotencyInTransaction io input [rival] t = claimIdempotencyInTransaction io input [] (<[table_key (ii_Key input) := rival]> t).
Proof.
  intros Hio Hv E. destruct (claim_input_ok _ Hv) as (_ & Hseal & _). cbn [claimIdempotencyInTransaction].
  rewrite !(healthy_record_statement _ _ _ _ Hio). cbn [mbind result_bind map_error]. rewrite E.
  unfold request_bytes, PersistedBytes, RequestFingerprint_Validate. rewrite Hseal. cbn [mbind result_bind map_error reject negb]. done.
Qed.
