(* ===== verification/Outbox.v ===== *)
(** The delivery outbox of the record platform (src/internal/center/recordplatform/outbox.go, worker.go and the outbox
    operations of src/internal/center/store/record_platform.go, record_platform_cleanup.go): events are enqueued in the
    transaction of the fact they are about, claimed by one worker at a time, authorized afresh, and sent, retried or
    cancelled by the exact claim. *)
From stdpp Require Import base list strings gmap.
From Stdlib Require Import ZArith Lia Ascii.
From S2P Require Import Prelude GoRuntime Postgres RecordCodec RecordPlatform LeaseStore.

Local Open Scope Z_scope.

(** * Events *)

Record OutboxEvent := {
  oe_RowID : Z;
  oe_ProjectID : string;
  oe_EventKind : string;
  oe_SubjectKind : string;
  oe_SubjectID : string;
  oe_SourceVersion : Z;
  oe_AuthorizationEpoch : Z;
  oe_RecordFenceEpoch : Z;
}.

#[global] Instance OutboxEvent_eq_dec : EqDecision OutboxEvent.
Proof. solve_decision. Defined.

Record OutboxEnqueueInputV1 := { oi_Event : OutboxEvent; oi_ExpiresAfter : Z }.
Record OutboxClaimInputV1 := { ox_OwnerID : string; ox_OwnerLeaseDuration : Z }.
Record ClaimedOutboxEventV1 := { co_Event : OutboxEvent; co_Owner : OwnerLease; co_ExpiresAt : Z }.

Definition record_kinds : list string :=
  ["record_created"; "record_updated"; "record_deleted"; "record_owner_changed"; "record_participant_changed"]%string.
Definition action_kinds : list string :=
  ["record_action_created"; "record_action_updated"; "record_action_assigned"; "record_action_completed";
   "record_action_cancelled"; "record_action_reopened"]%string.
Definition comment_kinds : list string :=
  ["record_comment_created"; "record_comment_edited"; "record_comment_redacted"; "record_comment_replied";
   "record_comment_mentioned"]%string.
Definition OutboxEventKindRecordNotificationDelivery : string := "record_notification_delivery".

Definition OutboxSubjectKindRecord : string := "record".
Definition OutboxSubjectKindAction : string := "action".
Definition OutboxSubjectKindComment : string := "comment".
Definition OutboxSubjectKindDelivery : string := "delivery".

Definition among (s : string) (l : list string) : bool := existsb (String.eqb s) l.

Definition outboxSubjectKindForEventKind (kind : string) : option string :=
  if among kind record_kinds then Some OutboxSubjectKindRecord
  else if among kind action_kinds then Some OutboxSubjectKindAction
  else if among kind comment_kinds then Some OutboxSubjectKindComment
  else if kind =s OutboxEventKindRecordNotificationDelivery then Some OutboxSubjectKindDelivery
  else None.

Definition notificationProducingOutboxEventKind (kind : string) : bool :=
  among kind ["record_owner_changed"; "record_participant_changed"; "record_action_assigned"; "record_action_completed";
              "record_action_cancelled"; "record_comment_replied"; "record_comment_mentioned"; "record_notification_delivery"]%string.

Definition validDeliveryOutboxSubjectID (value : string) : bool :=
  if (String.length value <? 5)%nat || (68 <? String.length value)%nat || (String.substring 0 4 value <>s "rnd_") then false
  else all_bytes (fun c => lower_letter c || digit c) (from_byte 4 value).

Definition validOutboxSubjectID : string -> bool := valid_storage_key 128.

Definition OutboxEvent_Validate (event : OutboxEvent) : result unit :=
  _ ← reject (oe_RowID event <? 0) (invalid ErrInvalidOutboxEvent "row id");
  _ ← check_as (ValidateProjectID (oe_ProjectID event)) (fun _ => invalid ErrInvalidOutboxEvent "project");
  match outboxSubjectKindForEventKind (oe_EventKind event) with
  | None => Err (invalid ErrInvalidOutboxEvent "event kind")
  | Some expectedSubjectKind =>
      _ ← reject (oe_SubjectKind event <>s expectedSubjectKind) (invalid ErrInvalidOutboxEvent "subject kind");
      _ ← reject (negb (validOutboxSubjectID (oe_SubjectID event))
                  || ((oe_SubjectKind event =s OutboxSubjectKindDelivery) && negb (validDeliveryOutboxSubjectID (oe_SubjectID event))))
            (invalid ErrInvalidOutboxEvent "subject id");
      let notification := notificationProducingOutboxEventKind (oe_EventKind event) in
      _ ← reject ((max_int64 <? oe_SourceVersion event) || negb (Bool.eqb notification (0 <? oe_SourceVersion event)))
            (invalid ErrInvalidOutboxEvent "source version");
      _ ← reject (notification && ((oe_AuthorizationEpoch event =? 0) || (max_int64 <? oe_AuthorizationEpoch event)))
            (invalid ErrInvalidOutboxEvent "authorization epoch");
      reject ((max_int64 <? oe_RecordFenceEpoch event) || (negb notification && negb (oe_RecordFenceEpoch event =? 0)))
        (invalid ErrInvalidOutboxEvent "record fence epoch")
  end.

Definition EnqueueInput_Validate (input : OutboxEnqueueInputV1) : result unit :=
  _ ← check_as (OutboxEvent_Validate (oi_Event input)) (invalid_as ErrInvalidOutboxEnqueue "event");
  _ ← reject (negb (oe_RowID (oi_Event input) =? 0)) (invalid ErrInvalidOutboxEnqueue "row identity");
  reject (Duration_Microseconds (oi_ExpiresAfter input) <=? 0) (invalid ErrInvalidOutboxEnqueue "expiry").

Definition OutboxClaimInput_Validate (input : OutboxClaimInputV1) : result unit :=
  reject (negb (validRecordPlatformOwnerID (ox_OwnerID input)) || (Duration_Microseconds (ox_OwnerLeaseDuration input) <=? 0))
    (invalid ErrInvalidOutboxClaim "owner or lease").

Definition ClaimedOutboxEvent_Validate (claim : ClaimedOutboxEventV1) : result unit :=
  _ ← reject (oe_RowID (co_Event claim) <=? 0) (invalid ErrInvalidOutboxClaim "row id");
  _ ← check_as (OutboxEvent_Validate (co_Event claim)) (invalid_as ErrInvalidOutboxClaim "event");
  _ ← check_as (OwnerLease_Validate (co_Owner claim)) (invalid_as ErrInvalidOutboxClaim "owner");
  reject (Time_IsZero (co_ExpiresAt claim) || negb (Time_After (co_ExpiresAt claim) (ol_ExpiresAt (co_Owner claim))))
    (invalid ErrInvalidOutboxClaim "expiry").

(** * The table *)

Definition OutboxPending : string := "pending".
Definition OutboxProcessing : string := "processing".
Definition OutboxSent : string := "sent".
Definition OutboxCancelled : string := "cancelled".

(** The columns of an event, the state of its delivery, and its times. *)
Record outbox_row := {
  ow_event : OutboxEvent;
  ow_status : string;
  ow_owner_id : string;
  ow_owner_generation : Z;
  ow_owner_expires_at : option Z;
  ow_attempt_count : Z;
  ow_next_attempt_at : Z;
  ow_sent_at : option Z;
  ow_expires_at : Z;
}.

Abbreviation outbox_table := (gmap Z outbox_row).

Definition set_delivery (status owner : string) (generation : Z) (owner_expires : option Z) (attempts next : Z) (sent : option Z)
    (row : outbox_row) : outbox_row := {|
  ow_event := ow_event row; ow_status := status; ow_owner_id := owner; ow_owner_generation := generation;
  ow_owner_expires_at := owner_expires; ow_attempt_count := attempts; ow_next_attempt_at := next; ow_sent_at := sent;
  ow_expires_at := ow_expires_at row |}.

(** The insert of an event in the caller's transaction; [id] is the next value of the sequence. *)
Definition EnqueueOutbox (io : record_io) (id : Z) (input : OutboxEnqueueInputV1) (t : outbox_table) : result (outbox_table * OutboxEvent) :=
  _ ← EnqueueInput_Validate input;
  let e := oi_Event input in
  _ ← map_error (prefixed "enqueue outbox event")
    (_ ← int8 (oe_SourceVersion e); _ ← int8 (oe_AuthorizationEpoch e); _ ← int8 (oe_RecordFenceEpoch e);
     _ ← statement (ri_faults io) "enqueue outbox event" 0 (fun e => e);
     _ ← reject (match t !! id with Some _ => true | None => false end) (PgError "23505");
     check_row (tx_now io <? tx_after io (oi_ExpiresAfter input)));
  _ ← reject (id <=? 0) (invalid ErrInvalidOutboxEvent "outbox row id");
  let event := {| oe_RowID := id; oe_ProjectID := oe_ProjectID e; oe_EventKind := oe_EventKind e; oe_SubjectKind := oe_SubjectKind e;
                  oe_SubjectID := oe_SubjectID e; oe_SourceVersion := oe_SourceVersion e; oe_AuthorizationEpoch := oe_AuthorizationEpoch e;
                  oe_RecordFenceEpoch := oe_RecordFenceEpoch e |} in
  Ok (<[id := {| ow_event := event; ow_status := OutboxPending; ow_owner_id := ""; ow_owner_generation := 0; ow_owner_expires_at := None;
                 ow_attempt_count := 0; ow_next_attempt_at := tx_now io; ow_sent_at := None;
                 ow_expires_at := tx_after io (oi_ExpiresAfter input) |}]> t, event).

(** * Claims *)

(** Whether a claim of this duration may take a row: due or abandoned, and not to expire before the claim. *)
Definition claimable (io : record_io) (duration : Z) (row : outbox_row) : bool :=
  (((ow_status row =s OutboxPending) && (ow_next_attempt_at row <=? tx_now io))
   || ((ow_status row =s OutboxProcessing) && match ow_owner_expires_at row with Some at_ => at_ <=? tx_now io | None => false end))
  && (tx_after io duration <? ow_expires_at row).

(** [order by outbox_row_id for update skip locked limit 1]: the rows in [locked] are held by other transactions. *)
Definition candidate (io : record_io) (locked : list Z) (duration : Z) (t : outbox_table) : option (Z * outbox_row) :=
  head (sort_stable (fun a b => a.1 <? b.1)
    (List.filter (fun '(id, row) => negb (existsb (Z.eqb id) locked) && claimable io duration row) (map_to_list t))).

(** observedOutboxClaimRow.claim on the row the update returns; its columns are bigint, the fields unsigned. *)
Definition observed_claim (row : outbox_row) : result ClaimedOutboxEventV1 :=
  let e := ow_event row in
  _ ← reject ((oe_SourceVersion e <? 0) || (oe_AuthorizationEpoch e <? 0) || (oe_RecordFenceEpoch e <? 0) || (ow_owner_generation row <? 1))
        (invalid ErrInvalidOutboxClaim "observed claim generation or epoch");
  match ow_owner_expires_at row with
  | None => Err (ErrNew "cannot scan NULL into *time.Time")
  | Some at_ =>
      let claim := {| co_Event := e;
        co_Owner := {| ol_OwnerID := ow_owner_id row; ol_Generation := ow_owner_generation row; ol_ExpiresAt := at_ |};
        co_ExpiresAt := ow_expires_at row |} in
      _ ← ClaimedOutboxEvent_Validate claim; Ok claim
  end.

Definition claimOutboxInTransaction (io : record_io) (locked : list Z) (input : OutboxClaimInputV1) (t : outbox_table)
    : result (outbox_table * option ClaimedOutboxEventV1) :=
  claimed ← map_error (prefixed "claim outbox row")
    (_ ← statement (ri_faults io) "claim outbox row" 0 (fun e => e);
     match candidate io locked (ox_OwnerLeaseDuration input) t with
     | None => Ok None
     | Some (id, row) =>
         generation ← next_bigint (ow_owner_generation row);
         attempts ← next_bigint (ow_attempt_count row);
         Ok (Some (id, set_delivery OutboxProcessing (ox_OwnerID input) generation (Some (tx_after io (ox_OwnerLeaseDuration input))) attempts
                         (ow_next_attempt_at row) (ow_sent_at row) row))
     end);
  match claimed with
  | None => Ok (t, None)
  | Some (id, row) => claim ← observed_claim row; Ok (<[id := row]> t, Some claim)
  end.

Definition ClaimOutbox (io : record_io) (locked : list Z) (input : OutboxClaimInputV1) (t : outbox_table)
    : outbox_table * result (option ClaimedOutboxEventV1) :=
  admitted io "commit outbox claim transaction" (OutboxClaimInput_Validate input) t (claimOutboxInTransaction io locked input t).

(** * The end of a claim *)

(** The exact live claim of a row. *)
Definition claims_row (io : record_io) (claim : ClaimedOutboxEventV1) (row : outbox_row) : bool :=
  (ow_status row =s OutboxProcessing) && (ow_owner_id row =s ol_OwnerID (co_Owner claim))
  && (ow_owner_generation row =? ol_Generation (co_Owner claim))
  && match ow_owner_expires_at row with
     | Some at_ => (at_ =? timestamptz (ol_ExpiresAt (co_Owner claim))) && (tx_now io <? at_)
     | None => false
     end.

Definition finalizeOutbox (io : record_io) (claim : ClaimedOutboxEventV1) (extra : outbox_row -> bool) (change : outbox_row -> outbox_row)
    (t : outbox_table) : result (outbox_table * unit) :=
  _ ← map_error (prefixed "finalize outbox row")
    (_ ← int8 (ol_Generation (co_Owner claim)); statement (ri_faults io) "finalize outbox row" 0 (fun e => e));
  match t !! oe_RowID (co_Event claim) with
  | Some row => if claims_row io claim row && extra row then Ok (<[oe_RowID (co_Event claim) := change row]> t, tt) else Err ErrLostOwnerLease
  | None => Err ErrLostOwnerLease
  end.

Definition cancelled_row (row : outbox_row) : outbox_row :=
  set_delivery OutboxCancelled "" (ow_owner_generation row) None (ow_attempt_count row) (ow_next_attempt_at row) (ow_sent_at row) row.
Definition retried_row (io : record_io) (retryAfter : Z) (row : outbox_row) : outbox_row :=
  set_delivery OutboxPending "" (ow_owner_generation row) None (ow_attempt_count row) (tx_after io retryAfter) (ow_sent_at row) row.
Definition sent_row (io : record_io) (row : outbox_row) : outbox_row :=
  set_delivery OutboxSent "" (ow_owner_generation row) None (ow_attempt_count row) (ow_next_attempt_at row) (Some (tx_now io)) row.

Definition CancelOutbox (io : record_io) (claim : ClaimedOutboxEventV1) (t : outbox_table) : outbox_table * result unit :=
  admitted io "commit outbox finalization transaction" (ClaimedOutboxEvent_Validate claim) t
    (finalizeOutbox io claim (fun _ => true) cancelled_row t).

Definition RetryOutbox (io : record_io) (claim : ClaimedOutboxEventV1) (retryAfter : Z) (t : outbox_table) : outbox_table * result unit :=
  admitted io "commit outbox finalization transaction"
    (_ ← ClaimedOutboxEvent_Validate claim;
     reject (Duration_Microseconds retryAfter <=? 0) (invalid ErrInvalidOutboxClaim "retry delay")) t
    (finalizeOutbox io claim (fun row => tx_after io retryAfter <? ow_expires_at row) (retried_row io retryAfter) t).

Definition MarkOutboxSent (io : record_io) (claim : ClaimedOutboxEventV1) (t : outbox_table) : outbox_table * result unit :=
  admitted io "commit outbox finalization transaction" (ClaimedOutboxEvent_Validate claim) t
    (finalizeOutbox io claim (fun row => tx_now io <? ow_expires_at row) (sent_row io) t).

(** The lock of an exact live claim inside a projection's transaction. *)
Definition AssertOutboxClaim (io : record_io) (n : nat) (claim : ClaimedOutboxEventV1) (t : outbox_table) : result unit :=
  _ ← check_as (ClaimedOutboxEvent_Validate claim) (fun _ => ErrInvalidOutboxClaim);
  _ ← admit_tx io n;
  found ← map_error (prefixed "assert outbox projection owner")
    (let e := co_Event claim in
     _ ← int8 (ol_Generation (co_Owner claim)); _ ← int8 (oe_SourceVersion e); _ ← int8 (oe_AuthorizationEpoch e);
     _ ← int8 (oe_RecordFenceEpoch e); _ ← statement (ri_faults io) "assert outbox projection owner" 0 (fun e => e);
     Ok match t !! oe_RowID e with
        | Some row => claims_row io claim row && bool_decide (ow_event row = e) && (ow_expires_at row =? timestamptz (co_ExpiresAt claim))
                      && (tx_now io <? ow_expires_at row)
        | None => false
        end);
  reject (negb found) ErrLostOwnerLease.

(** Expired rows that nobody holds are swept. *)
Definition swept (io : record_io) (row : outbox_row) : bool :=
  (ow_expires_at row <=? tx_now io) && match ow_owner_expires_at row with Some at_ => at_ <=? tx_now io | None => true end.

Definition CleanupExpiredRecordPlatformPrimitives (io : record_io) (t : outbox_table) : outbox_table * result Z :=
  admitted io "commit record platform primitive cleanup transaction" (Ok tt) t
    (_ ← map_error (prefixed "cleanup expired outbox events") (statement (ri_faults io) "cleanup expired outbox events" 0 (fun e => e));
     Ok (filter (fun '(_, row) => swept io row = false) t, Z.of_nat (size (filter (fun '(_, row) => swept io row = true) t)))).

(** * The worker *)

Definition ErrInvalidOutboxWorker : error := ErrSentinel "invalid outbox worker".
Definition OutboxHandlerMissingName : string := "outbox handler missing".

Record FreshAuthDecision := { fa_Allowed : bool; fa_CurrentEpoch : Z }.

Record OutboxWorkerOptions := { wo_OwnerID : string; wo_OwnerLeaseDuration : Z; wo_RetryDelay : Z; wo_PollInterval : Z }.

Definition NewOutboxWorker_options (options : OutboxWorkerOptions) : OutboxWorkerOptions := {|
  wo_OwnerID := wo_OwnerID options; wo_OwnerLeaseDuration := wo_OwnerLeaseDuration options; wo_RetryDelay := wo_RetryDelay options;
  wo_PollInterval := if wo_PollInterval options =? 0 then Second else wo_PollInterval options |}.

(** [wired]: the repository, the authorizer and the sender are there. *)
Definition worker_validate (wired : bool) (options : OutboxWorkerOptions) : result unit :=
  _ ← reject (negb wired) ErrInvalidOutboxWorker;
  _ ← check_as (OutboxClaimInput_Validate {| ox_OwnerID := wo_OwnerID options; ox_OwnerLeaseDuration := wo_OwnerLeaseDuration options |})
        (invalid_as ErrInvalidOutboxWorker "claim");
  reject ((Duration_Microseconds (wo_RetryDelay options) <=? 0) || (wo_PollInterval options <=? 0))
    (invalid ErrInvalidOutboxWorker "retry or poll interval").

Section Worker.
(** What the authorizer renders, the authorizer and the sender. *)
Context {delivery : Type}.

(** The outside of one pass: the context, the transaction of the claim with the rows that others lock, what other
    transactions do to the table before the claim ends, the authorizer, the sender, and the transaction that ends it. *)
Record worker_io := {
  wi_context : option error;
  wi_claim : record_io;
  wi_locked : list Z;
  wi_meanwhile : outbox_table -> outbox_table;
  wi_authorize : OutboxEvent -> result (delivery * FreshAuthDecision);
  wi_send : delivery -> option error;
  wi_finish : record_io;
}.

(** What a pass sent, with the event it is for. *)
Abbreviation sends := (list (OutboxEvent * delivery)).

Definition worker_retry (w : worker_io) (options : OutboxWorkerOptions) (claim : ClaimedOutboxEventV1) (t : outbox_table)
    : outbox_table * result unit :=
  let '(t, r) := RetryOutbox (wi_finish w) claim (wo_RetryDelay options) t in (t, map_error (prefixed "schedule outbox retry") r).

Definition worker_cancel (w : worker_io) (claim : ClaimedOutboxEventV1) (operation : string) (t : outbox_table) : outbox_table * result unit :=
  let '(t, r) := CancelOutbox (wi_finish w) claim t in (t, map_error (prefixed operation) r).

(** A pass from its claim on: authorize and render afresh, send, and end the claim. *)
Definition deliver (w : worker_io) (options : OutboxWorkerOptions) (claim : ClaimedOutboxEventV1) (t : outbox_table)
    : outbox_table * sends * result unit :=
  match ClaimedOutboxEvent_Validate claim with
  | Err e => (t, [], Err (prefixed "validate claimed outbox event" e))
  | Ok _ =>
      match wi_authorize w (co_Event claim) with
      | Err e =>
          let '(t, r) := if errors_Is OutboxHandlerMissingName e then worker_cancel w claim "cancel unhandled outbox event" t
                         else worker_retry w options claim t in (t, [], r)
      | Ok (rendered, decision) =>
          if negb (fa_Allowed decision) || negb (fa_CurrentEpoch decision =? oe_AuthorizationEpoch (co_Event claim)) then
            let '(t, r) := worker_cancel w claim "cancel unauthorized outbox event" t in (t, [], r)
          else match wi_send w rendered with
               | Some _ => let '(t, r) := worker_retry w options claim t in (t, [(co_Event claim, rendered)], r)
               | None =>
                   let '(t, r) := MarkOutboxSent (wi_finish w) claim t in
                   (t, [(co_Event claim, rendered)], map_error (prefixed "mark outbox event sent") r)
               end
      end
  end.

Definition RunOnce (w : worker_io) (wired : bool) (options : OutboxWorkerOptions) (t : outbox_table) : outbox_table * sends * result unit :=
  match worker_validate wired options, wi_context w with
  | Err e, _ => (t, [], Err e)
  | Ok _, Some e => (t, [], Err e)
  | Ok _, None =>
      let '(t, claimed) := ClaimOutbox (wi_claim w) (wi_locked w)
        {| ox_OwnerID := wo_OwnerID options; ox_OwnerLeaseDuration := wo_OwnerLeaseDuration options |} t in
      match claimed with
      | Err e => (t, [], Err (prefixed "claim outbox event" e))
      | Ok None => (t, [], Ok tt)
      | Ok (Some claim) => deliver w options claim (wi_meanwhile w t)
      end
  end.
End Worker.
