(* ===== verification/OutboxProps.v ===== *)
(** What the outbox promises: an event that was sent or cancelled is never claimed or ended again, a claim that was
    overtaken ends nothing, nothing is sent without a fresh authorization, and a due event is delivered. *)
From stdpp Require Import base list strings gmap.
From Stdlib Require Import ZArith Lia Ascii.
From S2P Require Import Prelude GoRuntime Postgres RecordCodec RecordPlatform LeaseStore LeaseRuns Idempotency Outbox.

Local Open Scope Z_scope.

(** * The system *)

Inductive outbox_op :=
| OpEnqueue (input : OutboxEnqueueInputV1)
| OpClaimEvent (locked : list Z) (input : OutboxClaimInputV1)
| OpCancel (claim : ClaimedOutboxEventV1)
| OpRetry (claim : ClaimedOutboxEventV1) (retryAfter : Z)
| OpSent (claim : ClaimedOutboxEventV1)
| OpSweep.

(** The table and the next value of its sequence, which a rolled back insert uses up too. *)
Record outbox_world := { ob_table : outbox_table; ob_next : Z }.

Inductive outbox_answer :=
| WasEnqueued (event : OutboxEvent)
| WasClaimed (claim : option ClaimedOutboxEventV1)
| WasEnded
| WasSwept (rows : Z).

Definition keep_next (w : outbox_world) (out : outbox_table * result outbox_answer) : outbox_world * result outbox_answer :=
  ({| ob_table := out.1; ob_next := ob_next w |}, out.2).

Definition perform_outbox (io : record_io) (op : outbox_op) (w : outbox_world) : outbox_world * result outbox_answer :=
  let t := ob_table w in
  match op with
  | OpEnqueue input =>
      let out := answered WasEnqueued (admitted io "commit record platform transaction" (Ok tt) t (EnqueueOutbox io (ob_next w) input t)) in
      ({| ob_table := out.1; ob_next := ob_next w + 1 |}, out.2)
  | OpClaimEvent locked input => keep_next w (answered WasClaimed (ClaimOutbox io locked input t))
  | OpCancel claim => keep_next w (answered (fun _ => WasEnded) (CancelOutbox io claim t))
  | OpRetry claim retryAfter => keep_next w (answered (fun _ => WasEnded) (RetryOutbox io claim retryAfter t))
  | OpSent claim => keep_next w (answered (fun _ => WasEnded) (MarkOutboxSent io claim t))
  | OpSweep => keep_next w (answered WasSwept (CleanupExpiredRecordPlatformPrimitives io t))
  end.

Definition run_outbox (calls : list (record_io * outbox_op)) (w : outbox_world) : outbox_world :=
  foldl (fun w call => (perform_outbox call.1 call.2 w).1) w calls.

Definition empty_outbox : outbox_world := {| ob_table := ∅; ob_next := 1 |}.

(** The claim that an operation ends, and whether it ends the delivery too. *)
Definition ends (op : outbox_op) : option ClaimedOutboxEventV1 :=
  match op with OpCancel claim | OpRetry claim _ | OpSent claim => Some claim | _ => None end.
Definition settles (op : outbox_op) : bool := match op with OpCancel _ | OpSent _ => true | _ => false end.

Definition row_id (claim : ClaimedOutboxEventV1) : Z := oe_RowID (co_Event claim).
Definition claim_generation (claim : ClaimedOutboxEventV1) : Z := ol_Generation (co_Owner claim).

(** * Claims and their ends *)

#[local] Instance by_id_sw : StrictWeak (fun a b : Z * outbox_row => a.1 <? b.1).
Proof.
  split.
  - intros x y. destruct (x.1 <? y.1) eqn:E1, (y.1 <? x.1) eqn:E2; breflect; done || lia.
  - intros x y z. rewrite !Z.ltb_ge. lia.
Qed.

Definition takes (io : record_io) (locked : list Z) (d : Z) (t : outbox_table) (id : Z) (row : outbox_row) : Prop :=
  t !! id = Some row /\ existsb (Z.eqb id) locked = false /\ claimable io d row = true.

Lemma candidate_elem io locked d (t : outbox_table) id row :
  (id, row) ∈ List.filter (fun '(id, row) => negb (existsb (Z.eqb id) locked) && claimable io d row) (map_to_list t) <->
  takes io locked d t id row.
Proof.
  rewrite list_elem_of_In, filter_In, <- list_elem_of_In, elem_of_map_to_list, andb_true_iff, negb_true_iff. done.
Qed.

(** A claim takes the row of the smallest identifier that it may take; it takes none only when there is none. *)
Lemma candidate_some io locked d t id row : candidate io locked d t = Some (id, row) ->
  takes io locked d t id row /\ forall id' row', takes io locked d t id' row' -> id <= id'.
Proof.
  unfold candidate. destruct (sort_stable _ _) as [|x l] eqn:E; [done|]. intros [= ->]. split.
  - apply candidate_elem. rewrite <- (sort_stable_elem (fun a b : Z * outbox_row => a.1 <? b.1)), E. by apply list_elem_of_here.
  - intros id' row' Ht%candidate_elem. apply sort_stable_head in E; [|apply _]. rewrite Forall_forall in E. specialize (E _ Ht).
    unfold not_after in E. cbn in E. by breflect.
Qed.

Lemma candidate_none io locked d t id row : candidate io locked d t = None -> ~ takes io locked d t id row.
Proof.
  unfold candidate. destruct (sort_stable _ _) as [|x l] eqn:E; [|done]. intros _ Ht%candidate_elem.
  apply sort_stable_nil in E. rewrite E in Ht. by apply elem_of_nil in Ht.
Qed.

Definition claimed_row_of (io : record_io) (input : OutboxClaimInputV1) (row : outbox_row) : outbox_row :=
  set_delivery OutboxProcessing (ox_OwnerID input) (ow_owner_generation row + 1) (Some (tx_after io (ox_OwnerLeaseDuration input)))
    (ow_attempt_count row + 1) (ow_next_attempt_at row) (ow_sent_at row) row.

Definition claim_of (row : outbox_row) (at_ : Z) : ClaimedOutboxEventV1 := {| co_Event := ow_event row;
  co_Owner := {| ol_OwnerID := ow_owner_id row; ol_Generation := ow_owner_generation row; ol_ExpiresAt := at_ |};
  co_ExpiresAt := ow_expires_at row |}.

Lemma claim_tx_ok io locked input t t' answer : claimOutboxInTransaction io locked input t = Ok (t', answer) ->
  (t' = t /\ answer = None) \/
  exists id row, candidate io locked (ox_OwnerLeaseDuration input) t = Some (id, row) /\ t' = <[id := claimed_row_of io input row]> t /\
    answer = Some (claim_of (claimed_row_of io input row) (tx_after io (ox_OwnerLeaseDuration input))).
Proof.
  unfold claimOutboxInTransaction. intros H. ok_step H. apply map_error_ok in Hok. ok_step Hok.
  destruct (candidate io locked _ t) as [[id row]|] eqn:E; [|injection Hok as <-; injection H as <- <-; by left].
  do 2 ok_step Hok. injection Hok as <-. apply next_bigint_ok in Hok1 as ->. apply next_bigint_ok in Hok2 as ->. ok_step H. injection H as <- <-.
  unfold observed_claim in Hok. ok_step Hok. cbn [ow_owner_expires_at set_delivery] in Hok. cbv zeta in Hok. ok_step Hok. injection Hok as <-.
  right. by exists id, row.
Qed.

(** The changes that end a claim keep the event, the generation and the expiry. *)
Definition ending (status : string) (row row' : outbox_row) : Prop :=
  ow_event row' = ow_event row /\ ow_owner_generation row' = ow_owner_generation row /\
  ow_attempt_count row' = ow_attempt_count row /\ ow_status row' = status.

Lemma finalize_ok io claim extra change t t' x : finalizeOutbox io claim extra change t = Ok (t', x) ->
  exists row, t !! row_id claim = Some row /\ claims_row io claim row = true /\ extra row = true /\ t' = <[row_id claim := change row]> t.
Proof.
  unfold finalizeOutbox. intros H. ok_step H. fold (row_id claim) in H. destruct (t !! row_id claim) as [row|]; [|done].
  destruct (claims_row io claim row) eqn:E1; cbn [andb] in H; [|done]. destruct (extra row) eqn:E2; [|done]. injection H as <- <-.
  by exists row.
Qed.

Lemma claims_row_true io claim row : claims_row io claim row = true ->
  ow_status row = OutboxProcessing /\ ow_owner_generation row = claim_generation claim.
Proof. unfold claims_row. intros H. by breflect. Qed.

(** ** What an operation does to the table *)

Inductive outbox_view (io : record_io) (op : outbox_op) (w : outbox_world) (t' : outbox_table) (r : result outbox_answer) : Prop :=
| out_same : t' = ob_table w -> (ends op = None \/ exists e, r = Err e) -> (forall c, r <> Ok (WasClaimed (Some c))) -> outbox_view io op w t' r
| out_enqueued input row : op = OpEnqueue input -> t' = <[ob_next w := row]> (ob_table w) -> oe_RowID (ow_event row) = ob_next w ->
    (forall c, r <> Ok (WasClaimed (Some c))) -> outbox_view io op w t' r
| out_claimed locked input id row : op = OpClaimEvent locked input -> takes io locked (ox_OwnerLeaseDuration input) (ob_table w) id row ->
    t' = <[id := claimed_row_of io input row]> (ob_table w) ->
    (forall c, r = Ok (WasClaimed (Some c)) -> c = claim_of (claimed_row_of io input row) (tx_after io (ox_OwnerLeaseDuration input))) ->
    outbox_view io op w t' r
| out_ended claim status row row' : ends op = Some claim -> ob_table w !! row_id claim = Some row -> claims_row io claim row = true ->
    t' = <[row_id claim := row']> (ob_table w) -> ending status row row' -> (settles op = true -> status = OutboxSent \/ status = OutboxCancelled) ->
    (forall c, r <> Ok (WasClaimed (Some c))) -> outbox_view io op w t' r
| out_swept : op = OpSweep -> t' ⊆ ob_table w -> (forall c, r <> Ok (WasClaimed (Some c))) -> outbox_view io op w t' r.

Lemma end_view io op w commit checks claim extra change status (t' : outbox_table) r :
  ends op = Some claim -> (settles op = true -> status = OutboxSent \/ status = OutboxCancelled) -> (forall row, ending status row (change row)) ->
  answered (fun _ : unit => WasEnded) (admitted io commit checks (ob_table w) (finalizeOutbox io claim extra change (ob_table w))) = (t', r) ->
  outbox_view io op w t' r.
Proof.
  intros He Hs Hc H. apply answered_inv in H as (r0 & H & Hr).
  assert (forall c, r <> Ok (WasClaimed (Some c))) as Hn by (by destruct Hr as [(? & _ & ->)|(? & _ & ->)]).
  apply admitted_inv in H as [[-> [e ->]]|(a & _ & (row & Hrow & Hm & _ & ->)%finalize_ok & _)].
  - apply out_same; [done| |done]. right. destruct Hr as [(? & [=] & _)|(? & _ & ->)]. by eauto.
  - by eapply out_ended.
Qed.

Lemma perform_outbox_view io op w w' r : perform_outbox io op w = (w', r) ->
  ob_next w' = ob_next w + (match op with OpEnqueue _ => 1 | _ => 0 end) /\ outbox_view io op w (ob_table w') r.
Proof.
  destruct op as [input|locked input|claim|claim d|claim|]; cbn [perform_outbox]; unfold keep_next.
  - destruct (answered _ _) as [t' r'] eqn:E. intros [= <- <-]. split; [done|]. cbn. apply answered_inv in E as (r0 & H & Hr).
    assert (forall c, r' <> Ok (WasClaimed (Some c))) as Hn by (by destruct Hr as [(? & _ & ->)|(? & _ & ->)]).
    apply admitted_inv in H as [[-> _]|(a & _ & H & _)]; [apply out_same; by eauto|].
    unfold EnqueueOutbox in H. do 3 ok_step H. injection H as <- <-. by eapply out_enqueued.
  - destruct (answered _ _) as [t' r'] eqn:E. intros [= <- <-]. split; [cbn; lia|]. cbn. apply answered_inv in E as (r0 & H & Hr).
    apply admitted_inv in H as [[-> [e ->]]|(a & _ & H & Ha)].
    { destruct Hr as [(? & [=] & _)|(? & _ & ->)]. apply out_same; by eauto. }
    apply claim_tx_ok in H as [[-> ->]|(id & row & [Hc _]%candidate_some & -> & ->)].
    + apply out_same; [done|by left|]. intros c Hcl. destruct Hr as [(x & -> & ->)|(? & _ & ->)]; [|done]. by destruct Ha as [Ha|[? [=]]]; simplify_eq.
    + eapply out_claimed; [done|exact Hc|done|]. intros c ->. destruct Hr as [(x & -> & Hx)|(? & _ & [=])].
      by destruct Ha as [Ha|[? [=]]]; simplify_eq.
  - destruct (answered _ _) as [t' r'] eqn:E. intros [= <- <-]. split; [cbn; lia|]. eapply (end_view _ _ _ _ _ _ _ _ OutboxCancelled); [..|exact E]; by eauto.
  - destruct (answered _ _) as [t' r'] eqn:E. intros [= <- <-]. split; [cbn; lia|]. eapply (end_view _ _ _ _ _ _ _ _ OutboxPending); [..|exact E]; done.
  - destruct (answered _ _) as [t' r'] eqn:E. intros [= <- <-]. split; [cbn; lia|]. eapply (end_view _ _ _ _ _ _ _ _ OutboxSent); [..|exact E]; by eauto.
  - destruct (answered _ _) as [t' r'] eqn:E. intros [= <- <-]. split; [cbn; lia|]. cbn. apply answered_inv in E as (r0 & H & Hr).
    assert (forall c, r' <> Ok (WasClaimed (Some c))) as Hn by (by destruct Hr as [(? & _ & ->)|(? & _ & ->)]).
    apply admitted_inv in H as [[-> _]|(a & _ & H & _)]; [apply out_same; by eauto|]. ok_step H. injection H as <- <-.
    apply out_swept; [done|apply map_filter_subseteq|done].
Qed.

(** ** Settled events *)

(** Every row has the identifier its event carries, which the sequence has passed. *)
Definition world_ok (w : outbox_world) : Prop := forall id row, ob_table w !! id = Some row -> id < ob_next w /\ oe_RowID (ow_event row) = id.

Lemma world_ok_perform io op w : world_ok w -> world_ok (perform_outbox io op w).1.
Proof.
  intros Hw. destruct (perform_outbox io op w) as [w' r] eqn:E. apply perform_outbox_view in E as [Hn Hv]. intros id row. cbn. rewrite Hn.
  destruct Hv as [-> _ _|input row' -> -> Hid _|locked input id' row' -> [Ht _] -> _|claim status row1 row2 He Hrow Hm -> Hend _ _| -> Hsub _].
  - intros H. destruct (Hw _ _ H). split; [destruct op; lia|done].
  - intros [[<- <-]|[Hne H]]%lookup_insert_Some; [split; [lia|done]|]. destruct (Hw _ _ H). split; [lia|done].
  - intros [[<- <-]|[Hne H]]%lookup_insert_Some; [destruct (Hw _ _ Ht)|destruct (Hw _ _ H)]; (split; [lia|done]).
  - destruct Hend as (Hev & _). intros [[<- <-]|[Hne H]]%lookup_insert_Some; [destruct (Hw _ _ Hrow)|destruct (Hw _ _ H)];
      (split; [destruct op; lia|congruence]).
  - intros H. eapply lookup_weaken in H; [|exact Hsub]. destruct (Hw _ _ H). split; [lia|done].
Qed.

Lemma world_ok_run calls w : world_ok w -> world_ok (run_outbox calls w).
Proof. revert w. induction calls as [|c calls IH]; intros w H; [done|]. by apply IH, world_ok_perform. Qed.

(** An event whose delivery is over for every claim up to generation [g]: it is gone, sent or cancelled, or a later claim
    was given out. *)
Definition over (id g : Z) (w : outbox_world) : Prop :=
  id < ob_next w /\ forall row, ob_table w !! id = Some row ->
    ow_status row = OutboxSent \/ ow_status row = OutboxCancelled \/ g < ow_owner_generation row.


Lemma claimable_open io d row : claimable io d row = true -> ow_status row = OutboxPending \/ ow_status row = OutboxProcessing.
Proof.
  unfold claimable. intros [H _]%andb_true_iff. apply orb_true_iff in H as [[H _]%andb_true_iff|[H _]%andb_true_iff];
    apply String.eqb_eq in H; by eauto.
Qed.


Lemma over_perform io op id g w : over id g w -> over id g (perform_outbox io op w).1.
Proof.
  intros [Hlt Hs]. destruct (perform_outbox io op w) as [w' r] eqn:E. apply perform_outbox_view in E as [Hn Hv]. cbn.
  split; [rewrite Hn; destruct op; lia|]. intros row.
  destruct Hv as [-> _ _|input row' -> -> Hid _|locked input id' row' -> (Ht & _ & Hc) -> _|claim status row1 row2 He Hrow Hm -> Hend _ _| -> Hsub _].
  - apply Hs.
  - rewrite lookup_insert_ne by lia. apply Hs.
  - destruct (decide (id' = id)) as [->|]; [|rewrite lookup_insert_ne by done; apply Hs]. rewrite lookup_insert_eq. intros [= <-].
    apply claimable_open in Hc. right. right. cbn. destruct (Hs _ Ht) as [Hx|[Hx|Hx]]; [by rewrite Hx in Hc; destruct Hc..|lia].
  - destruct (decide (row_id claim = id)) as [Heq|]; [|rewrite lookup_insert_ne by done; apply Hs]. rewrite Heq, lookup_insert_eq. intros [= <-].
    rewrite Heq in Hrow. apply claims_row_true in Hm as [Hp _]. destruct Hend as (_ & Hg & _). rewrite Hg.
    destruct (Hs _ Hrow) as [Hx|[Hx|Hx]]; [by rewrite Hx in Hp..|by eauto].
  - intros H. eapply lookup_weaken in H; [|exact Hsub]. by apply Hs.
Qed.

Lemma over_run calls id g w : over id g w -> over id g (run_outbox calls w).
Proof. revert w. induction calls as [|c calls IH]; intros w H; [done|]. by apply IH, over_perform. Qed.

Lemma over_refused io op claim g w : over (row_id claim) g w -> claim_generation claim <= g -> ends op = Some claim ->
  exists e, perform_outbox io op w = (w, Err e).
Proof.
  intros [_ Hs] Hg He. destruct (perform_outbox io op w) as [w' r] eqn:E. apply perform_outbox_view in E as [Hn Hv].
  destruct Hv as [Ht [Hend|[e ->]] _|input row' -> |locked input id' row' -> |claim' status row1 row2 He' Hrow Hm _ _ _ _| ->]; try done.
  - by rewrite He in Hend.
  - exists e. f_equal. destruct w as [t n], w' as [t' n']. cbn in *. subst. f_equal. destruct op; done || lia.
  - rewrite He in He'. injection He' as <-. apply claims_row_true in Hm as [Hp Hgen].
    destruct (Hs _ Hrow) as [Hx|[Hx|Hx]]; [by rewrite Hx in Hp..|lia].
Qed.




(** ** Claims that were overtaken *)

Definition reached (id g : Z) (w : outbox_world) : Prop :=
  id < ob_next w /\ forall row, ob_table w !! id = Some row -> g <= ow_owner_generation row.

Lemma reached_perform io op id g w : reached id g w -> reached id g (perform_outbox io op w).1.
Proof.
  intros [Hlt Hs]. destruct (perform_outbox io op w) as [w' r] eqn:E. apply perform_outbox_view in E as [Hn Hv]. cbn.
  split; [rewrite Hn; destruct op; lia|]. intros row.
  destruct Hv as [-> _ _|input row' -> -> Hid _|locked input id' row' -> (Ht & _ & Hc) -> _|claim status row1 row2 He Hrow Hm -> Hend _ _| -> Hsub _].
  - apply Hs.
  - rewrite lookup_insert_ne by lia. apply Hs.
  - intros [[<- <-]|[_ H]]%lookup_insert_Some; [cbn; specialize (Hs _ Ht); lia|by apply Hs].
  - destruct Hend as (_ & Hg & _). intros [[<- <-]|[_ H]]%lookup_insert_Some; [rewrite Hg; by apply Hs|by apply Hs].
  - intros H. eapply lookup_weaken in H; [|exact Hsub]. by apply Hs.
Qed.

Lemma reached_run calls id g w : reached id g w -> reached id g (run_outbox calls w).
Proof. revert w. induction calls as [|c calls IH]; intros w H; [done|]. by apply IH, reached_perform. Qed.

(** What a claim that is given out says about the table before and after it. *)
Lemma claim_given io locked input c w w' : world_ok w -> perform_outbox io (OpClaimEvent locked input) w = (w', Ok (WasClaimed (Some c))) ->
  exists row, ob_table w !! row_id c = Some row /\ claimable io (ox_OwnerLeaseDuration input) row = true /\
    claim_generation c = ow_owner_generation row + 1 /\ ob_next w' = ob_next w /\
    ob_table w' = <[row_id c := claimed_row_of io input row]> (ob_table w).
Proof.
  intros Hw E. apply perform_outbox_view in E as [Hn Hv].
  destruct Hv as [_ _ Hno|input' row' [=]|locked' input' id row [= <- <-] (Ht & _ & Hc) Htab Hcl|claim' status row1 row2 [=]|[=]]; [by destruct (Hno c)|].
  specialize (Hcl c eq_refl). destruct (Hw _ _ Ht) as [_ Hid]. assert (row_id c = id) as Hrid by (by rewrite Hcl). rewrite Hrid.
  exists row. split_and!; [done|done|by rewrite Hcl|lia|done].
Qed.

(** A second claim of an event has a larger generation, was possible only because the first had expired or had been given
    back, and from then on the first one ends nothing. *)
Theorem outbox_claim_overtaken calls io1 locked1 input1 c1 w1 calls' io2 locked2 input2 c2 w2 calls'' io op :
  perform_outbox io1 (OpClaimEvent locked1 input1) (run_outbox calls empty_outbox) = (w1, Ok (WasClaimed (Some c1))) ->
  perform_outbox io2 (OpClaimEvent locked2 input2) (run_outbox calls' w1) = (w2, Ok (WasClaimed (Some c2))) ->
  row_id c1 = row_id c2 -> ends op = Some c1 ->
  claim_generation c1 < claim_generation c2 /\
  exists e, perform_outbox io op (run_outbox calls'' w2) = (run_outbox calls'' w2, Err e).
Proof.
  intros H1 H2 Hid He. assert (world_ok (run_outbox calls empty_outbox)) as Hw by (apply world_ok_run; done).
  destruct (claim_given _ _ _ _ _ _ Hw H1) as (row1 & Hr1 & _ & Hg1 & Hn1 & Ht1). destruct (Hw _ _ Hr1) as [Hlt1 _].
  assert (reached (row_id c1) (claim_generation c1) w1) as Hreach.
  { split; [lia|]. intros row. rewrite Ht1, lookup_insert_eq. intros [= <-]. cbn. lia. }
  assert (world_ok (run_outbox calls' w1)) as Hw1.
  { apply world_ok_run. pose proof (world_ok_perform io1 (OpClaimEvent locked1 input1) _ Hw) as H'. by rewrite H1 in H'. }
  destruct (claim_given _ _ _ _ _ _ Hw1 H2) as (row2 & Hr2 & _ & Hg2 & Hn2 & Ht2). rewrite <- Hid in Hr2, Ht2.
  destruct (reached_run calls' _ _ _ Hreach) as [Hlt2 Hle]. specialize (Hle _ Hr2). split; [lia|].
  eapply over_refused; [|reflexivity|done]. apply over_run. split; [lia|]. intros row. rewrite Ht2, lookup_insert_eq. intros [= <-].
  right. right. cbn. lia.
Qed.

(** * The worker *)

Section Worker.
Context {delivery : Type}.
Implicit Types w : @worker_io delivery.

Lemma deliver_sends w options claim t t' sent r event rendered : deliver w options claim t = (t', sent, r) -> (event, rendered) ∈ sent ->
  event = co_Event claim /\ exists decision, wi_authorize w event = Ok (rendered, decision) /\ fa_Allowed decision = true /\
    fa_CurrentEpoch decision = oe_AuthorizationEpoch event.
Proof.
  unfold deliver. destruct (ClaimedOutboxEvent_Validate claim); [|by intros [= _ <- _] ?%elem_of_nil].
  destruct (wi_authorize w (co_Event claim)) as [[x decision]|e] eqn:Ea.
  - destruct (_ || _) eqn:Ed; [destruct (worker_cancel _ _ _ _); by intros [= _ <- _] ?%elem_of_nil|]. breflect.
    destruct (wi_send w x); [destruct (worker_retry _ _ _ _)|destruct (MarkOutboxSent _ _ _)];
      intros [= _ <- _] [= -> ->]%list_elem_of_singleton; by eauto.
  - destruct (if errors_Is _ e then _ else _). by intros [= _ <- _] ?%elem_of_nil.
Qed.

Lemma deliver_one w options claim t t' sent r x : deliver w options claim t = (t', sent, r) -> x ∈ sent -> sent = [x].
Proof.
  unfold deliver. destruct (ClaimedOutboxEvent_Validate claim); [|by intros [= _ <- _] ?%elem_of_nil].
  destruct (wi_authorize w (co_Event claim)) as [[y decision]|e] eqn:Ea.
  - destruct (_ || _) eqn:Ed; [destruct (worker_cancel _ _ _ _); by intros [= _ <- _] ?%elem_of_nil|].
    destruct (wi_send w y); [destruct (worker_retry _ _ _ _)|destruct (MarkOutboxSent _ _ _)];
      by intros [= _ <- _] ->%list_elem_of_singleton.
  - destruct (if errors_Is _ e then _ else _). by intros [= _ <- _] ?%elem_of_nil.
Qed.

(** C19: A pass sends at most one event, and only what is allowed now.  Whatever a pass hands to the
    sender is what the authorizer rendered in this pass for the event that the pass claimed, and the authorizer allowed
    it with a current epoch equal to the one the event was enqueued with. *)
Theorem worker_sends_authorized w wired options t t' sent r event rendered :
  RunOnce w wired options t = (t', sent, r) -> (event, rendered) ∈ sent ->
  sent = [(event, rendered)] /\
  (exists claim, co_Event claim = event /\
    (ClaimOutbox (wi_claim w) (wi_locked w) {| ox_OwnerID := wo_OwnerID options; ox_OwnerLeaseDuration := wo_OwnerLeaseDuration options |} t).2
      = Ok (Some claim)) /\
  exists decision, wi_authorize w event = Ok (rendered, decision) /\ fa_Allowed decision = true /\
    fa_CurrentEpoch decision = oe_AuthorizationEpoch event.
Proof.
  unfold RunOnce. destruct (worker_validate wired options); [|by intros [= _ <- _] ?%elem_of_nil].
  destruct (wi_context w); [by intros [= _ <- _] ?%elem_of_nil|]. destruct (ClaimOutbox _ _ _ _) as [t1 [[claim|]|e]];
    [|by intros [= _ <- _] ?%elem_of_nil..]. intros H Hin. cbn [snd].
  destruct (deliver_sends _ _ _ _ _ _ _ _ _ H Hin) as [-> Hd]. split_and!; [|by exists claim|done].
  eapply deliver_one; [exact H|done].
Qed.

(** ** A due event is delivered *)

(** A row as the operations leave it. *)
Definition event_ok (id : Z) (row : outbox_row) : Prop :=
  0 < id /\ oe_RowID (ow_event row) = id /\ OutboxEvent_Validate (ow_event row) = Ok tt /\
  0 <= oe_SourceVersion (ow_event row) /\ 0 <= oe_AuthorizationEpoch (ow_event row) /\ 0 <= oe_RecordFenceEpoch (ow_event row) /\
  0 <= ow_owner_generation row /\ 0 <= ow_attempt_count row.

Lemma tx_after_stored io d : timestamptz (tx_after io d) = tx_after io d.
Proof.
  unfold tx_after, tx_now, timestamptz, Time_Truncate, Microsecond. change (1000 <=? 0) with false. cbn iota.
  Z.div_mod_to_equations. lia.
Qed.

Lemma next_bigint_small z : z < max_int64 -> next_bigint z = Ok (z + 1).
Proof. intros H. unfold next_bigint. destruct (_ =? _) eqn:E; [breflect; lia|done]. Qed.

(** A claim in good order of the row it takes. *)
Lemma claim_healthy io locked input t id row : healthy io -> OutboxClaimInput_Validate input = Ok tt ->
  candidate io locked (ox_OwnerLeaseDuration input) t = Some (id, row) -> event_ok id row ->
  ow_owner_generation row < max_int64 -> ow_attempt_count row < max_int64 ->
  let c := claim_of (claimed_row_of io input row) (tx_after io (ox_OwnerLeaseDuration input)) in
  ClaimOutbox io locked input t = (<[id := claimed_row_of io input row]> t, Ok (Some c)) /\ ClaimedOutboxEvent_Validate c = Ok tt.
Proof.
  intros Hio Hv Hc (Hid & Hrid & Hev & Hsv & Hae & Hfe & Hg & Ha) Hg' Ha' c. pose proof Hc as [(_ & _ & Hcl) _]%candidate_some.
  pose proof Hv as Hv'. unfold OutboxClaimInput_Validate in Hv'. apply reject_ok in Hv'. breflect.
  assert (tx_now io < tx_after io (ox_OwnerLeaseDuration input)) as Hafter by (unfold tx_after; lia).
  assert (0 < tx_now io) as Hnow by (by destruct Hio as (_ & _ & _ & _ & _ & _ & ?)).
  assert (ClaimedOutboxEvent_Validate c = Ok tt) as Hval.
  { unfold ClaimedOutboxEvent_Validate, c, claim_of, claimed_row_of. cbn [co_Event co_Owner co_ExpiresAt ow_event set_delivery ow_owner_id ow_owner_generation ow_expires_at].
    rewrite Hrid, (proj2 (Z.leb_gt _ _)) by lia. rewrite Hev, owner_valid by (done || lia). cbn.
    unfold claimable in Hcl. breflect. unfold Time_After. cbn. rewrite zero_ne by lia. rewrite (proj2 (Z.ltb_lt _ _)) by lia. done. }
  split; [|done]. unfold ClaimOutbox. rewrite Hv, (healthy_admitted _ _ _ _ Hio). unfold claimOutboxInTransaction.
  rewrite !(healthy_record_statement _ _ _ _ Hio), Hc. cbn [mbind result_bind]. rewrite !next_bigint_small by done. cbn [mbind result_bind map_error].
  fold (claimed_row_of io input row). unfold observed_claim. cbn [ow_event claimed_row_of set_delivery ow_owner_generation ow_owner_expires_at].
  rewrite !(proj2 (Z.ltb_ge _ _)) by lia. cbn [orb reject mbind result_bind]. cbv zeta. fold (claimed_row_of io input row).
  change (ClaimedOutboxEvent_Validate _) with (ClaimedOutboxEvent_Validate c). rewrite Hval. done.
Qed.

Lemma mark_sent_healthy io claim t row : healthy io -> ClaimedOutboxEvent_Validate claim = Ok tt -> t !! row_id claim = Some row ->
  claims_row io claim row = true -> tx_now io < ow_expires_at row -> claim_generation claim <= max_int64 ->
  MarkOutboxSent io claim t = (<[row_id claim := sent_row io row]> t, Ok tt).
Proof.
  intros Hio Hv Hrow Hc Hx Hg. unfold MarkOutboxSent. rewrite Hv, (healthy_admitted _ _ _ _ Hio). unfold finalizeOutbox.
  rewrite !(healthy_record_statement _ _ _ _ Hio). unfold int8. fold (claim_generation claim). rewrite (proj2 (Z.leb_le _ _)) by done.
  cbn [mbind result_bind map_error]. fold (row_id claim). rewrite Hrow, Hc, (proj2 (Z.ltb_lt _ _)) by done. done.
Qed.

(** The unsigned fields of an event that is enqueued. *)
Definition enqueue_ok (call : record_io * outbox_op) : Prop :=
  match call.2 with
  | OpEnqueue input => 0 <= oe_SourceVersion (oi_Event input) /\ 0 <= oe_AuthorizationEpoch (oi_Event input) /\ 0 <= oe_RecordFenceEpoch (oi_Event input)
  | _ => True
  end.

Definition events_ok (w : outbox_world) : Prop := 1 <= ob_next w /\ map_Forall event_ok (ob_table w).

Lemma enqueued_ok io input id t t' event : 1 <= id -> enqueue_ok (io, OpEnqueue input) -> EnqueueOutbox io id input t = Ok (t', event) ->
  map_Forall event_ok t -> map_Forall event_ok t'.
Proof.
  intros Hid (H1 & H2 & H3) H Ht. unfold EnqueueOutbox in H. do 3 ok_step H. injection H as <- <-. apply map_Forall_insert_2; [|done].
  unfold EnqueueInput_Validate in Hok. do 2 ok_step Hok. apply map_error_ok in Hok2.
  split_and!; cbn [ow_event ow_owner_generation ow_attempt_count oe_RowID oe_SourceVersion oe_AuthorizationEpoch oe_RecordFenceEpoch];
    try done; try lia. unfold OutboxEvent_Validate in *.
  cbn [oe_RowID oe_ProjectID oe_EventKind oe_SubjectKind oe_SubjectID oe_SourceVersion oe_AuthorizationEpoch oe_RecordFenceEpoch].
  ok_step Hok2. rewrite (proj2 (Z.ltb_ge id 0)) by lia. by destruct x2.
Qed.

Lemma events_ok_perform io op (w : outbox_world) : enqueue_ok (io, op) -> world_ok w -> events_ok w -> events_ok (perform_outbox io op w).1.
Proof.
  intros He Hw [Hn Ht]. destruct (perform_outbox io op w) as [w' r] eqn:E. pose proof E as [Hn' Hv]%perform_outbox_view. split; [destruct op; cbn in *; lia|]. cbn [fst].
  destruct Hv as [-> _ _|input row' -> Heq Hid _|locked input id' row' -> (Hrow & _) -> _|claim status row1 row2 _ Hrow _ -> Hend _ _| -> Hsub _]; [done|..].
  - cbn in E. unfold answered in E. cbn in E. injection E as <- _. cbn. destruct (admitted _ _ _ _ _) as [t' r'] eqn:E'.
    apply admitted_inv in E' as [[-> _]|(a & _ & H & _)]; [done|]. by eapply enqueued_ok.
  - apply map_Forall_insert_2; [|done]. destruct (Ht _ _ Hrow) as (? & ? & ? & ? & ? & ? & ? & ?). split_and!; cbn; done || lia.
  - destruct Hend as (Hev & Hg & Ha & _). apply map_Forall_insert_2; [|done]. unfold event_ok. rewrite Hev, Hg, Ha. by apply Ht.
  - intros id row H. eapply lookup_weaken in H; [|exact Hsub]. by apply Ht.
Qed.

Lemma events_ok_run calls (w : outbox_world) : Forall enqueue_ok calls -> world_ok w -> events_ok w -> events_ok (run_outbox calls w).
Proof.
  revert w. induction calls as [|[io op] calls IH]; intros w Hc Hw He; [done|]. inversion Hc as [|? ? Hc1 Hc2]; subst.
  cbn. apply IH; [done|by apply world_ok_perform|by apply events_ok_perform].
Qed.

Lemma start_events_ok : events_ok empty_outbox.
Proof. split; [done|apply map_Forall_empty]. Qed.

(** C21: A due event is delivered.  After any operations from an empty outbox, let a pass of a worker meet an
    environment in which nothing fails and find events it may claim, the one with the smallest identifier among them
    being allowed at the epoch it was enqueued with and accepted by the sender, and let the pass end before its claim
    expires.  Then the pass sends exactly that event, reports success, and leaves it marked as sent. *)
Theorem worker_delivers calls w options id row rendered decision :
  Forall enqueue_ok calls ->
  let t := ob_table (run_outbox calls empty_outbox) in let d := wo_OwnerLeaseDuration options in
  worker_validate true options = Ok tt -> wi_context w = None -> healthy (wi_claim w) -> healthy (wi_finish w) ->
  takes (wi_claim w) (wi_locked w) d t id row -> (forall id' row', takes (wi_claim w) (wi_locked w) d t id' row' -> id <= id') ->
  ow_owner_generation row < max_int64 -> ow_attempt_count row < max_int64 ->
  (forall t, wi_meanwhile w t !! id = t !! id) -> tx_now (wi_finish w) < tx_after (wi_claim w) d ->
  wi_authorize w (ow_event row) = Ok (rendered, decision) -> fa_Allowed decision = true ->
  fa_CurrentEpoch decision = oe_AuthorizationEpoch (ow_event row) -> wi_send w rendered = None ->
  exists t' row', RunOnce w true options t = (t', [(ow_event row, rendered)], Ok tt) /\ t' !! id = Some row' /\
    ow_event row' = ow_event row /\ ow_status row' = OutboxSent /\ ow_sent_at row' = Some (tx_now (wi_finish w)).
Proof.
  intros Hcs t d Hv Hctx Hio1 Hio2 Ht Hmin Hg Ha Hmean Hlive Hauth Hallow Hepoch Hsend.
  assert (event_ok id row) as Hev.
  { destruct (events_ok_run calls empty_outbox) as [_ Hall]; [done|done|apply start_events_ok|]. by apply Hall, Ht. }
  set (input := {| ox_OwnerID := wo_OwnerID options; ox_OwnerLeaseDuration := d |}).
  assert (OutboxClaimInput_Validate input = Ok tt) as Hin.
  { unfold worker_validate in Hv. do 2 ok_step Hv. by destruct x0; apply map_error_ok in Hok0. }
  assert (candidate (wi_claim w) (wi_locked w) d t = Some (id, row)) as Hc.
  { destruct (candidate _ _ _ _) as [[id1 row1]|] eqn:E; [|by destruct (candidate_none _ _ _ _ id row E)].
    destruct (candidate_some _ _ _ _ _ _ E) as [Ht1 Hmin1]. assert (id1 = id) as -> by (specialize (Hmin _ _ Ht1); specialize (Hmin1 _ _ Ht); lia).
    destruct Ht as [Ht _], Ht1 as [Ht1 _]. rewrite Ht in Ht1. by simplify_eq. }
  destruct (claim_healthy _ _ input _ _ _ Hio1 Hin Hc Hev Hg Ha) as [Hclaim Hval].
  set (c := claim_of _ _) in *. set (held := claimed_row_of _ _ _) in *.
  assert (row_id c = id) as Hrid by (by destruct Hev as (_ & ? & _)).
  unfold RunOnce. rewrite Hv, Hctx. fold d input. rewrite Hclaim. unfold deliver. rewrite Hval. change (co_Event c) with (ow_event row).
  rewrite Hauth, Hallow, Hepoch, Z.eqb_refl, Hsend. cbn [negb orb].
  rewrite (mark_sent_healthy (wi_finish w) c _ held Hio2 Hval).
  - rewrite Hrid. eexists _, _. split; [done|]. rewrite lookup_insert_eq. by split_and!.
  - by rewrite Hrid, Hmean, lookup_insert_eq.
  - unfold claims_row. cbn [held c claim_of claimed_row_of set_delivery co_Owner ol_OwnerID ol_Generation ol_ExpiresAt ow_status ow_owner_id
      ow_owner_generation ow_owner_expires_at]. rewrite !String.eqb_refl, Z.eqb_refl, tx_after_stored, Z.eqb_refl.
    by rewrite (proj2 (Z.ltb_lt _ _)).
  - destruct Ht as (_ & _ & Hcl). unfold claimable in Hcl. breflect. cbn. fold d in Hlive. lia.
  - cbn. lia.
Qed.
End Worker.
