(* ===== verification/RecordExamples.v ===== *)
(** Concrete runs of the record platform: an object that is served, fenced and asserted, a key that is completed and
    replayed, an event that is delivered. *)
From stdpp Require Import base list strings gmap.
From Stdlib Require Import ZArith Lia Ascii.
From S2P Require Import Prelude GoRuntime Postgres RecordCodec RecordPlatform LeaseStore LeaseRuns LeaseClaims Idempotency Outbox OutboxProps.

Local Open Scope Z_scope.

(** An environment in which nothing fails, at a time in seconds. *)
Definition at_second (n : Z) : record_io := {| ri_pool := true; ri_gate := true; ri_begin := None; ri_admit := fun _ => None;
  ri_faults := fun _ _ => None; ri_commit := Executed; ri_now := n * Second |}.

Lemma at_second_healthy n : 0 < n -> healthy (at_second n).
Proof.
  intros H. unfold healthy, at_second. cbn [ri_pool ri_gate ri_begin ri_admit ri_faults ri_commit]. split_and!; try done.
  unfold tx_now, timestamptz, Time_Truncate, Microsecond, Second. cbn [ri_now]. change (1000 <=? 0) with false. cbn iota.
  replace (n * 1000000000) with (n * 1000000 * 1000) by lia. rewrite Z.mod_mul by lia. lia.
Qed.

(** * Leases *)

Definition some_record : ObjectRef := {| ob_ProjectID := "default"; ob_ObjectKind := "record"; ob_ObjectID := "rec_1" |}.
Definition ten_seconds (owner : string) : LeaseClaimInputV1 := {| li_OwnerID := owner; li_LeaseDuration := 10 * Second |}.
Definition owner_until (owner : string) (g n : Z) : OwnerLease := {| ol_OwnerID := owner; ol_Generation := g; ol_ExpiresAt := n * Second |}.
Definition content_ref : lease_ref := ContentRef (key_of some_record).

Definition served_db : lease_db := initialize_epoch some_record no_leases.
Definition first_serving : ServingLeaseV1 := {| sl_Object := some_record; sl_Owner := owner_until "node-1" 1 11; sl_CapturedEpoch := 0 |}.

Example serving_given : (AcquireServingLease (at_second 1) some_record (ten_seconds "node-1") served_db).2 = Ok first_serving.
Proof. by vm_compute. Qed.

Lemma lease_tenure_exclusive_witness : exists e,
  let db := (perform_lease (at_second 20) (OpServe some_record (ten_seconds "node-2"))
               (perform_lease (at_second 1) (OpServe some_record (ten_seconds "node-1")) served_db).1).1 in
  (perform_lease (at_second 9) (OpAssertServing first_serving) db).2 = Err e.
Proof.
  destruct (lease_tenure_exclusive (at_second 1) (OpServe some_record (ten_seconds "node-1")) served_db
    [(content_ref, owner_until "node-1" 1 11)] content_ref (owner_until "node-1" 1 11) [] (at_second 20)
    (OpServe some_record (ten_seconds "node-2")) [(content_ref, owner_until "node-2" 2 30)] (owner_until "node-2" 2 30))
    as (_ & _ & H); [reflexivity|by vm_compute|by apply list_elem_of_singleton|reflexivity|by vm_compute|by apply list_elem_of_singleton|].
  by destruct (H [] (at_second 9) (OpAssertServing first_serving) (owner_until "node-1" 1 11) eq_refl ltac:(done)) as [_ He].
Defined.

Definition some_fence_input : ReservationFenceInputV1 := {| fe_ReservationID := "drs_1"; fe_Object := some_record; fe_OwnerID := "purge-1";
  fe_OwnerLeaseDuration := 60 * Second |}.
Definition some_fence : DeletionReservationFenceV1 := {| rv_ReservationID := "drs_1"; rv_Object := some_record; rv_FenceEpoch := 1;
  rv_Owner := owner_until "purge-1" 1 65 |}.
Definition preview_call : record_io * lease_op := (at_second 3, OpPreview "drs_1" some_record (600 * Second)).

Lemma fence_cancels_serving_witness :
  let db := (FenceDeletionReservation (at_second 5) some_fence_input
               (run_leases [preview_call] (AcquireServingLease (at_second 1) some_record (ten_seconds "node-1") served_db).1)).1 in
  exists e, AssertServingLease (at_second 6) first_serving db = (db, Err e).
Proof.
  destruct (fence_cancels_serving (at_second 1) some_record (ten_seconds "node-1") served_db
    (AcquireServingLease (at_second 1) some_record (ten_seconds "node-1") served_db).1 first_serving [preview_call] (at_second 5) some_fence_input
    (FenceDeletionReservation (at_second 5) some_fence_input
      (run_leases [preview_call] (AcquireServingLease (at_second 1) some_record (ten_seconds "node-1") served_db).1)).1 some_fence)
    as [_ H]; [by vm_compute|reflexivity|by vm_compute|].
  by destruct (H [] (owner_until "node-1" 1 11) (at_second 6) Second) as [He _].
Defined.

Definition fence_calls : list (record_io * lease_op) :=
  [(at_second 1, OpEpoch some_record); (at_second 2, OpPreview "drs_1" some_record (600 * Second)); (at_second 5, OpFence some_fence_input)].

Lemma one_fence_per_object_witness :
  (AssertDeletionReservationFence (at_second 6) some_fence (run_leases fence_calls no_leases)).2 = Ok tt /\
  (AssertDeletionReservationFence (at_second 60) some_fence (run_leases fence_calls no_leases)).2 = Ok tt /\
  rv_ReservationID some_fence = rv_ReservationID some_fence.
Proof.
  split; [by vm_compute|]. split; [by vm_compute|].
  by destruct (one_fence_per_object fence_calls (at_second 6) (at_second 60) some_fence some_fence) as [H _];
    [by vm_compute|by vm_compute|reflexivity|].
Defined.

(** * Idempotency *)

Definition some_key : IdempotencyKey := {| ik_ProjectID := "default"; ik_OperationKind := "record_create"; ik_Key := "client-key.1" |}.
Definition digest_of (c : ascii) : RequestFingerprintV1 := newSealedRequestFingerprintV1 (repeat c 32).
Definition claim_input (owner : string) (request : ascii) : IdempotencyClaimInputV1 := {| ii_Key := some_key;
  ii_RequestFingerprint := digest_of request; ii_OwnerID := owner; ii_OwnerLeaseDuration := 10 * Second; ii_RecordTTL := 3600 * Second |}.

Definition claim_call : record_io * idempotency_op := (at_second 1, OpClaimKey (claim_input "api-1" "r")).

Lemma key_calls_ok : Forall call_ok [claim_call].
Proof. repeat constructor. Qed.

Definition second_claim : idempotency_op := OpClaimKey (claim_input "api-2" "r").

Lemma second_call_ok : call_ok (at_second 20, second_claim).
Proof. repeat constructor. Qed.

Lemma complete_call_ok : call_ok (at_second 2, OpCompleteKey some_key (owner_until "api-1" 1 11) (digest_of "s")).
Proof. repeat constructor. Qed.

Example claim_input_valid : ClaimInput_Validate (claim_input "api-2" "r") = Ok tt.
Proof. by vm_compute. Qed.

Example second_claim_taken :
  (perform_key (at_second 20) second_claim (run_keys [claim_call] ∅)).2 = Ok (WasAcquired (owner_until "api-2" 2 30)).
Proof. by vm_compute. Qed.

Example first_claim_held : state_of (run_keys [claim_call] ∅ !! table_key some_key) = Working (repeat ("r" : ascii) 32) "api-1" 1 (11 * Second).
Proof. by vm_compute. Qed.

Example second_claim_held :
  state_of ((perform_key (at_second 20) second_claim (run_keys [claim_call] ∅)).1 !! table_key some_key) =
    Working (repeat ("r" : ascii) 32) "api-2" 2 (30 * Second).
Proof. by vm_compute. Qed.

Lemma idempotency_follows_protocol_witness :
  exists a, (perform_key (at_second 20) second_claim (run_keys [claim_call] ∅)).2 = Ok a /\
    key_step (tx_now (at_second 20)) a (Working (repeat ("r" : ascii) 32) "api-1" 1 (11 * Second)) (Working (repeat ("r" : ascii) 32) "api-2" 2 (30 * Second)).
Proof.
  pose proof (idempotency_follows_protocol [claim_call] (at_second 20) second_claim key_calls_ok second_call_ok) as [_ H].
  change (table_key (key_of_op second_claim)) with (table_key some_key) in H.
  rewrite second_claim_taken, first_claim_held, second_claim_held in H.
  destruct H as [[_ [e He]]|(a & Hs & _ & [Ha|[e He]])]; [discriminate He| |discriminate He].
  exists a. split; [|exact Hs]. rewrite second_claim_taken. exact Ha.
Defined.

Definition key_completed : idempotency_table :=
  (CompleteIdempotency (at_second 2) some_key (owner_until "api-1" 1 11) (digest_of "s") (run_keys [claim_call] ∅)).1.

Example completion_accepted :
  (CompleteIdempotency (at_second 2) some_key (owner_until "api-1" 1 11) (digest_of "s") (run_keys [claim_call] ∅)).2 = Ok tt.
Proof. by vm_compute. Qed.

Lemma key_completes :
  CompleteIdempotency (at_second 2) some_key (owner_until "api-1" 1 11) (digest_of "s") (run_keys [claim_call] ∅) = (key_completed, Ok tt).
Proof. rewrite <- completion_accepted. unfold key_completed. by destruct (CompleteIdempotency _ _ _ _ _). Qed.

Lemma idempotent_result_final_witness :
  exists request, request = repeat ("r" : ascii) 32 /\
  ClaimIdempotency (at_second 50) (claim_input "api-2" "r") [] key_completed =
    (key_completed, if bool_decide (repeat ("r" : ascii) 32 = request)
                    then Ok (Replayed (newSealedPersistedRequestFingerprintV1 (repeat ("s" : ascii) 32))) else Err ErrIdempotencyKeyReused).
Proof.
  destruct (idempotent_result_final [claim_call] (at_second 2) some_key (owner_until "api-1" 1 11) (digest_of "s") key_completed []
    key_calls_ok complete_call_ok (List.Forall_nil _) key_completes) as (request & [at_ Hw] & H & _).
  exists request. split; [rewrite first_claim_held in Hw; by injection Hw as <-|].
  exact (H (at_second 50) (claim_input "api-2" "r") (at_second_healthy 50 eq_refl) claim_input_valid eq_refl).
Defined.

(** * Outbox *)

Definition some_event (id : Z) : OutboxEvent := {| oe_RowID := id; oe_ProjectID := "default"; oe_EventKind := "record_owner_changed";
  oe_SubjectKind := "record"; oe_SubjectID := "rec_1"; oe_SourceVersion := 3; oe_AuthorizationEpoch := 7; oe_RecordFenceEpoch := 0 |}.
Definition enqueue_call : record_io * outbox_op := (at_second 1, OpEnqueue {| oi_Event := some_event 0; oi_ExpiresAfter := 3600 * Second |}).


Definition allow (epoch : Z) (e : OutboxEvent) : result (string * FreshAuthDecision) :=
  Ok (oe_SubjectID e, {| fa_Allowed := true; fa_CurrentEpoch := epoch |}).
Definition some_worker : @worker_io string := {| wi_context := None; wi_claim := at_second 2; wi_locked := []; wi_meanwhile := fun t => t;
  wi_authorize := allow 7; wi_send := fun _ => None; wi_finish := at_second 3 |}.
Definition worker_options : OutboxWorkerOptions := {| wo_OwnerID := "outbox-1"; wo_OwnerLeaseDuration := 30 * Second;
  wo_RetryDelay := 5 * Second; wo_PollInterval := Second |}.

Lemma worker_sends_authorized_witness :
  exists decision, allow 7 (some_event 1) = Ok ("rec_1"%string, decision) /\ fa_Allowed decision = true /\ fa_CurrentEpoch decision = 7.
Proof.
  destruct (worker_sends_authorized some_worker true worker_options (ob_table (run_outbox [enqueue_call] empty_outbox))
    (RunOnce some_worker true worker_options (ob_table (run_outbox [enqueue_call] empty_outbox))).1.1 [(some_event 1, "rec_1"%string)] (Ok tt)
    (some_event 1) "rec_1"%string) as (_ & _ & H); [by vm_compute|by apply list_elem_of_singleton|]. exact H.
Defined.

Definition queued_row : outbox_row := {| ow_event := some_event 1; ow_status := OutboxPending; ow_owner_id := ""; ow_owner_generation := 0;
  ow_owner_expires_at := None; ow_attempt_count := 0; ow_next_attempt_at := Second; ow_sent_at := None; ow_expires_at := 3601 * Second |}.

Lemma queued_alone id row : takes (at_second 2) [] (30 * Second) (ob_table (run_outbox [enqueue_call] empty_outbox)) id row -> 1 <= id.
Proof.
  intros [H _]. assert (ob_table (run_outbox [enqueue_call] empty_outbox) = {[ 1 := queued_row ]}) as Ht by by vm_compute.
  rewrite Ht in H. apply lookup_singleton_Some in H as [<- _]. lia.
Qed.

Lemma worker_delivers_witness : exists t' row',
  RunOnce some_worker true worker_options (ob_table (run_outbox [enqueue_call] empty_outbox)) = (t', [(some_event 1, "rec_1"%string)], Ok tt) /\
  t' !! 1 = Some row' /\ ow_event row' = some_event 1 /\ ow_status row' = OutboxSent /\ ow_sent_at row' = Some (3 * Second).
Proof.
  apply (worker_delivers [enqueue_call] some_worker worker_options 1 queued_row "rec_1" {| fa_Allowed := true; fa_CurrentEpoch := 7 |}).
  - repeat constructor; done.
  - by vm_compute.
  - done.
  - by apply at_second_healthy.
  - by apply at_second_healthy.
  - by vm_compute.
  - apply queued_alone.
  - done.
  - done.
  - done.
  - by vm_compute.
  - done.
  - done.
  - done.
  - done.
Defined.
